(* ===== verification/_CoqProject ===== *)
-Q . S2P
Prelude.v
GoString.v
Regex.v
Version.v
Models.v
PushStatus.v
Registry.v
Grace.v
TokenConnections.v
TokenInvariants.v
TokenSafety.v
AuditOutbox.v
AuditDelivery.v
Sha256.v
OpampTokens.v
Validator.v
Alerts.v
Access.v
Canary.v
Fingerprint.v
Rebind.v
Capabilities.v
Store.v
PushHistory.v
OpampServer.v
OpampSafety.v
OpampSessions.v
Yaml.v
ConfigPolicy.v
OtelDiff.v
DiffEngine.v
Api.v
ApiLogic.v
Approvals.v
WorkloadApi.v
ConfigPlan.v
GuidedRollback.v
Fleet.v
PushPreview.v
ConfigDrift.v
FleetVersions.v
Hub.v
GitSource.v
GitOps.v
ConfigLibrary.v
Evidence.v
SafetyReport.v
Migration.v
Accounts.v
TokenApi.v
Webhook.v
Settings.v
Routes.v
Edge.v
WorkloadReads.v
