(* ===== verification/Prelude.v ===== *)
(** * otel-magnify: a verification development

    otel-magnify manages fleets of OpenTelemetry collectors: agents connect over
    OpAMP with a connection token, the server keeps a registry of live instances
    and of the workloads they belong to, validates configurations, pushes them to
    instances (directly, by canary, by rollback), follows the reported status of
    each push, raises alerts, and records every sensitive operation in a durable
    audit outbox. Operators use an HTTP API behind sessions and a permission
    matrix; the state of record is a PostgreSQL database.

    ** Parts, files and correspondence

    - [Prelude] (this file): scopes, the type of fallible calls [result], the
      outcome [io] of a database statement (a failed statement may have been
      executed), instants and saturating durations of package time, 64-bit
      wrap-around, three-way comparisons ([TotalCmp]), stable sorting, counting
      in maps, and the tactics [reflect_bools], [case_if], [case_hyp] and [run].
    - [GoString]: the functions of strings, strconv and encoding/hex the code
      uses, on byte strings. [Models]: the structs of pkg/models that components
      exchange, [Time.Format] and [Duration.String]. [Sha256]: crypto/sha256 and
      unpadded base64url.
    - [Version] (internal/version/version.go): parser and comparison of versions.
    - [PushStatus] (pkg/models/push_status.go): status of a push derived from its
      targets, timeline, error groups, and the removal of raw error text.
    - [Registry] (internal/opamp/registry.go): the two-level instance registry.
    - [Grace] (internal/opamp/grace.go): delayed callbacks with cancellation and
      stop, as a step relation over timers and goroutines.
    - [TokenConnections], [TokenInvariants], [TokenSafety]
      (internal/opamp/token_connections.go): sessions, leases, expiry timers,
      disabling, removal and stop of the token connection manager. The manager,
      the sessions and the channels live in one world addressed by allocation
      number; critical sections are atomic, goroutines advance one wait at a time
      and interleave freely ([step]).
    - [OpampTokens] (internal/opampauth/token.go, internal/store/opamp_tokens.go):
      generation, parsing, storage, validation, revocation and use of tokens;
      transactions with a failure at any statement or at commit.
    - [AuditOutbox] (internal/store/audit_outbox.go,
      internal/audit/outbox_dispatcher.go): the outbox table, the interface the
      dispatcher sees ([AuditOutboxStore] with its laws), discharged by the table,
      and one dispatch attempt; [AuditDelivery]: the loop around the attempts.
    - [Validator] (internal/validator/validator.go): the static checks of a
      collector configuration and the run of the collector binary; YAML parsing
      is a parameter, the process an oracle.
    - [Alerts] (internal/alerts/engine.go, internal/store/alerts.go, the queries
      of internal/store it issues): one evaluation pass, paged or not, with the
      outcome of each statement given by an environment.
    - [Access] (internal/perm, internal/auth/auth.go, internal/api/middleware.go,
      internal/api/authhandler.go, internal/api/login_ratelimit.go): permission
      matrix, sessions, guarded routes, login and its throttle; JWT and bcrypt are
      parameters.
    - [Canary] (internal/api/workload_canary.go, pkg/models/canary.go,
      internal/store/workload_canaries.go): target selection, the canary workflow
      and the reconciliation of reported statuses; it uses [Registry] for
      instances, [PushStatus] for states and [Sha256] for config identifiers.
    - [Rebind] (rebind of internal/store/db.go): the rewriting of placeholders
      every query passes through, against a tokenisation of the query.
      [Capabilities] (pkg/capabilities/registry.go): the capability document.
    - [Store] (internal/store/workloads.go, workload_events.go, configs.go,
      internal/workloads/janitor.go) and [PushHistory]
      (internal/store/workload_configs.go): the tables of workloads, attributes,
      events, configurations, pushes and known-good pointers with their
      constraints, one definition per statement or transaction.
    - [Fingerprint], [OpampServer], [OpampSafety], [OpampSessions]
      (internal/opamp/fingerprint.go, server.go, rollback.go): workload identity,
      sessions, message handling, pushes and automatic rollback in a state monad
      over the server (registry, sessions, tables, connections); the environment
      gives clock readings, failures of statements and sends, and what concurrent
      goroutines do between two steps. The opamp-go library is a parameter.
    - [Yaml]: the values yaml.v3 decodes to, binary64 numbers and ParseFloat; the
      decoder is the class [YamlDoc]. [ConfigPolicy]
      (internal/configpolicy/engine.go): the policy engine; the host of a URL
      ([NetURL]) and the format %.4g ([FloatFormat]) are parameters.
    - [OtelDiff], [DiffEngine] (internal/oteldiff): the semantic diff with
      redaction, risk rules, summary, risk score and blast radius; the text formats
      of net/url ([UrlLib]) and of floats ([FloatText]) are parameters.
    - [Api] (helpers of internal/api), [ApiLogic] (its proof rules), [Approvals]
      (internal/store/config_approvals.go, internal/api/config_approvals.go),
      [WorkloadApi], [ConfigPlan] (internal/api/workloads.go) and [GuidedRollback]
      (internal/api/rollback_guided.go, the rollbacks of workloads.go): handlers in
      a state monad over the OpAMP server, the approvals, the audit trail and the
      pushes asked for; other requests may run before every statement.

    - [Regex]: Go's regexp on the expressions the sources compile.
      [Fleet] (list of workloads), [PushPreview] (internal/api/pushes.go),
      [ConfigDrift] (config_safety_drift.go), [FleetVersions]
      (fleet_version_intelligence.go): dashboards built on the store and registry.
      [WorkloadReads]: the reads of one workload, rollback request ids and diffs,
      the component behind a validation error, and the migration that sanitises
      stored statuses (internal/store/legacy_remote_config_status.go).
    - [Hub] (internal/api/wshub.go): the event loop and the pumps of its clients as
      a step relation; the origin check of the handshake.
    - [GitSource] (git_import.go), [GitOps] (gitops_export.go), [ConfigLibrary]
      (configs.go, config_templates.go): import, export and storage of configs; git
      commands and provider exchanges are answers of the surroundings.
    - [Evidence] (internal/reports), [SafetyReport] (internal/api/reports.go): the
      packs, their digests and their CSV, PDF and Markdown renderings.
    - [Migration] (internal/migrationassistant): drafts from the configurations of
      other vendors' agents; the order of Go's map ranges is a parameter.
    - [Accounts] (users, groups and preferences of internal/store, the handlers on
      one's own account), [TokenApi] (internal/api/opamp_tokens.go, which joins
      [OpampTokens] and [TokenConnections]).
    - [Webhook] (internal/alerts/webhook.go), [Settings] (internal/config,
      pkg/server, pkg/bootstrap), [Routes] (internal/api/router.go), [Edge]
      (request log, cookies, headers, probes, alerts and audit readers).

    Conventions: a Go map is a [gmap], a pointer that may be nil an [option], a
    method that returns an error a [result] or a pair with an error, a clock
    reading an explicit argument. Definitions keep the names of the source; the
    comment before a definition gives the file, lines and symbol it models.

    ** What the theorems show

    - Token connections: in every interleaving a completed disable or stop leaves
      no lease held; a disabled token admits nothing ever after; the armed timer
      is the earliest expiry; leases are granted exactly under the documented
      conditions.
    - Tokens: generation and parsing are inverse; validation accepts exactly live
      tokens with the right digest; creation and revocation are atomic with their
      audit event; a revoked token never validates again.
    - Outbox: events are never lost or rewritten; a claim is exclusive while its
      lease runs; the dispatcher acknowledges only what the sink accepted, and its
      loop delivers every due event while the database and the sink work.
    - Store and history: the attribute table mirrors the workloads; every row of
      the history stays well formed and redacted; the known-good pointer and the
      rollback target are sound under failures and concurrent transactions.
    - OpAMP server: a UID has one owner; no agent can set a trusted label or speak
      for another session; a push and an automatic rollback reach only their
      workload.
    - Approvals, plan and rollback: what is pushed was approved, validated and
      cleared by the policy; the plan and the rollback preview tell the truth
      about the gates in front of the push.
    - Policy and diff: verdicts characterised on the parsed document; dangerous
      changes are high risk, no risk means no change, nothing below a secret key is
      shown.
    - Alerts: a complete pass makes the open alerts follow the rules' conditions;
      paging visits every workload once; alerts stay unique and announcements are
      backed by rows under failures.
    - Access: guarded handlers run exactly for authorized sessions; a session
      carries its user's permissions; failed logins are bounded and nobody is
      locked out early.
    - Canary: selections are safe proper subsets; starting and promoting send to
      exactly the intended instances; reports move exactly the active canaries.
    - Registry: refinement of a finite map. Grace: cancelled callbacks never run
      and stop waits. Push status: partition of the targets, status as a function
      of the targets, no leak of raw errors. Validator: validity characterised,
      the collector is run only on statically valid configs. Version: comparison
      is semantic-version precedence, a total preorder.

    - Dashboards: the preview of a push lists exactly the matching workloads and
      no agent can talk itself into a saved group; drift and version reports
      account for every workload once; the verdict whether a collector can run
      its config follows the components it lacks.
    - Hub: no interleaving panics; a client sees broadcasts in order; the socket
      ends with its session.
    - Git and GitOps: an import reaches only the checked remote; a webhook records
      only what the provider signed; nothing is exported past the gate; templates
      validate.
    - Reports: a digest can be recomputed from the pack; CSV cells are not
      formulas; PDF offsets and strings read back.
    - Migration: a draft passes the validator, holds no secret of the source, and
      does not depend on the order of map ranges.
    - Accounts: the tables stay well formed; the first administrator is created
      once; a changed password logs in. Token API: a revocation stops later and
      established connections, a created token authenticates.
    - Surroundings: a webhook reaches only public addresses; the OpAMP listener is
      the configured one; what start-up opened is closed; every handler behind a
      permission runs for sessions that hold it; the request log shows no secret
      of the query.

    ** Bounds and fuel

    Loops without structural recursion carry fuel that the definitions or the
    theorems show to be enough: the paging loop of [Alerts] gets one page more
    than there are workloads ([paging_visits_every_workload] proves that it never
    runs out); loops over the runes or spaces of a text get its length; SHA-256
    gets one block per 16 words; the wait of a revocation gets as many turns of
    the goroutines as its theorem names. The loops of the dispatcher and of the
    janitor recurse on the list of their iterations, the redirects of the webhook
    on the script of answers. Counters and versions are kept at 64 bits with their
    wrap-around; durations saturate as in package time.

    ** Not modelled

    The command-line tools under cmd (an SDK agent and a load generator),
    the helpers that start test databases, the embedded
    frontend, HTTP and JSON encoding, the WebSocket wire protocol, the CORS
    middleware, SQL text and schema migrations, process logging, and the opamp-go
    library: I/O or code of others, which the definitions meet as parameters.
    Statements are atomic and their results follow the tables; concurrent
    writers of the database appear as interleaved operations where a theorem is
    about them (outbox, tokens, known-good pointer, handlers), not inside one alert
    pass. sort.Slice is modelled by a stable sort; elements with equal keys may be
    ordered differently by the program. *)

From Stdlib Require Export Ascii String ZArith Lia.
From stdpp Require Export base gmap strings list sorting relations.

(** ** Scopes and notation *)

Declare Scope go_scope.
Delimit Scope go_scope with go.

(** Go's [==] and [!=] on strings. *)
Notation "a =s b" := (String.eqb a b) (at level 70, no associativity) : go_scope.
Notation "a <>s b" := (negb (String.eqb a b)) (at level 70, no associativity) : go_scope.
(** Go's [<] on strings: the lexicographic order on bytes. *)
Notation "a <s b" := (String.ltb a b) (at level 70, no associativity) : go_scope.
Global Open Scope go_scope.
Global Open Scope string_scope.
Global Open Scope list_scope.

(** A Go call that returns [(value, error)]. *)
Inductive result (A : Type) : Type :=
| Ok (a : A)
| Err (msg : string).
Arguments Ok {A} _.
Arguments Err {A} _.

Definition is_ok {A} (r : result A) : bool :=
  match r with Ok _ => true | Err _ => false end.

(** Outcome of talking to the database: a failed statement may have been executed. *)
Inductive io := IoOk | IoFail (executed : bool).

(** ** Hint databases and tactics of the development *)

Create HintDb go discriminated.

Lemma eqb_string_refl (s : string) : (s =s s) = true.
Proof. apply String.eqb_refl. Qed.

Lemma eqb_string_true (s t : string) : (s =s t) = true <-> s = t.
Proof. apply String.eqb_eq. Qed.

Lemma eqb_string_false (s t : string) : (s =s t) = false <-> s <> t.
Proof. apply String.eqb_neq. Qed.

(** [reflect_bools] turns boolean tests of the modelled code found in the
    hypotheses into the propositions they decide. *)
Ltac reflect_bools :=
  repeat match goal with
  | H : context [String.eqb ?s ?s] |- _ => rewrite (String.eqb_refl s) in H
  | H : String.eqb _ _ = true |- _ => apply String.eqb_eq in H
  | H : String.eqb _ _ = false |- _ => apply String.eqb_neq in H
  | H : andb _ _ = true |- _ => apply andb_true_iff in H as [? ?]
  | H : orb _ _ = false |- _ => apply orb_false_iff in H as [? ?]
  | H : negb _ = true |- _ => apply negb_true_iff in H
  | H : negb _ = false |- _ => apply negb_false_iff in H
  | H : bool_decide _ = true |- _ => apply bool_decide_eq_true in H
  | H : bool_decide _ = false |- _ => apply bool_decide_eq_false in H
  | H : Z.ltb _ _ = true |- _ => apply Z.ltb_lt in H
  | H : Z.ltb _ _ = false |- _ => apply Z.ltb_ge in H
  | H : Z.leb _ _ = true |- _ => apply Z.leb_le in H
  | H : Z.leb _ _ = false |- _ => apply Z.leb_gt in H
  | H : Z.eqb _ _ = true |- _ => apply Z.eqb_eq in H
  | H : Z.eqb _ _ = false |- _ => apply Z.eqb_neq in H
  | H : Nat.eqb _ _ = true |- _ => apply Nat.eqb_eq in H
  | H : Nat.eqb _ _ = false |- _ => apply Nat.eqb_neq in H
  | H : Nat.ltb _ _ = true |- _ => apply Nat.ltb_lt in H
  | H : Nat.ltb _ _ = false |- _ => apply Nat.ltb_ge in H
  end.

(** [case_if] splits the first conditional of the goal and keeps the test. *)
Ltac case_if :=
  match goal with
  | |- context [if ?b then _ else _] =>
      lazymatch type of b with
      | bool => let E := fresh "E" in destruct b eqn:E
      end
  end.

(** [case_hyp H] splits the first [match] or [if] found in [H]. *)
Ltac case_hyp H :=
  match type of H with
  | context [match ?x with _ => _ end] =>
      let E := fresh "E" in destruct x eqn:E
  end.

(** [run H] explores every path of a handler body in [H] and drops the paths
    that contradict the outcome. *)
Ltac run H := repeat (case_hyp H; simplify_eq/=).

(** ** Machine integers, durations and instants *)

Section Machine.
Local Open Scope Z_scope.

Definition max_int64 : Z := 2 ^ 63 - 1.
Definition min_int64 : Z := - 2 ^ 63.

(** Two's complement wrap-around of Go's [int]/[int64] arithmetic. *)
Definition wrap64 (z : Z) : Z := (z + 2 ^ 63) mod 2 ^ 64 - 2 ^ 63.

(** Wrap-around of [uint64] counters. *)
Definition wrap_u64 (z : Z) : Z := z mod 2 ^ 64.

Lemma wrap64_id z : min_int64 <= z <= max_int64 -> wrap64 z = z.
Proof. unfold wrap64, min_int64, max_int64. intros. rewrite Z.mod_small; lia. Qed.

End Machine.

(** [time.Time] is the number of nanoseconds since the zero instant
    (January 1, year 1, UTC), so [IsZero] is the comparison with [0]. *)
Notation Time := Z.
Definition zero_time : Time := 0%Z.
Definition IsZero (t : Time) : bool := Z.eqb t 0.
(** [t.After u] and [t.Before u]. *)
Definition After (t u : Time) : bool := Z.ltb u t.
Definition Before (t u : Time) : bool := Z.ltb t u.

(** [time.Duration] is an [int64] count of nanoseconds. *)
Notation Duration := Z.
Definition Second : Duration := 1000000000%Z.
Definition Minute : Duration := (60 * Second)%Z.
Definition Hour : Duration := (60 * Minute)%Z.

(** [t.Sub u] saturates at the bounds of [Duration]. *)
Definition Sub (t u : Time) : Duration := Z.max min_int64 (Z.min max_int64 (t - u)).
(** [t.Add d]. *)
Definition Add (t : Time) (d : Duration) : Time := (t + d)%Z.

Lemma Sub_gt_iff (t u : Time) (d : Duration) :
  (min_int64 <= d < max_int64)%Z -> (d < Sub t u <-> d < t - u)%Z.
Proof. unfold Sub. lia. Qed.

(** ** Three-way comparisons

    What a comparison function must satisfy for its callers to sort with it
    and to compare against thresholds. *)

Class TotalCmp {A} (cmp : A -> A -> comparison) : Prop := {
  cmp_opp x y : cmp y x = CompOpp (cmp x y);
  cmp_le_trans x y z : cmp x y <> Gt -> cmp y z <> Gt -> cmp x z <> Gt;
  cmp_eq_l x y z : cmp x y = Eq -> cmp x z = cmp y z
}.

Lemma cmp_refl {A} (cmp : A -> A -> comparison) `{!TotalCmp cmp} x : cmp x x = Eq.
Proof. pose proof (cmp_opp x x). destruct (cmp x x); done. Qed.

Lemma cmp_eq_r {A} (cmp : A -> A -> comparison) `{!TotalCmp cmp} x y z :
  cmp y z = Eq -> cmp x y = cmp x z.
Proof.
  intros H. rewrite (cmp_opp y x), (cmp_opp z x). by rewrite (cmp_eq_l _ _ x H).
Qed.

Lemma cmp_lt_trans {A} (cmp : A -> A -> comparison) `{!TotalCmp cmp} x y z :
  cmp x y = Lt -> cmp y z = Lt -> cmp x z = Lt.
Proof.
  intros H1 H2. destruct (cmp x z) eqn:E; [|done|].
  - rewrite (cmp_eq_l x z y E) in H1. rewrite (cmp_opp y z), H2 in H1. done.
  - exfalso. apply (cmp_le_trans x y z); congruence.
Qed.

Global Instance Z_compare_total : TotalCmp Z.compare.
Proof.
  split.
  - intros x y. apply Z.compare_antisym.
  - intros x y z. rewrite !Z.compare_le_iff. lia.
  - intros x y z ->%Z.compare_eq_iff. done.
Qed.

Global Instance N_compare_total : TotalCmp N.compare.
Proof.
  split.
  - intros x y. apply N.compare_antisym.
  - intros x y z. rewrite !N.compare_le_iff. lia.
  - intros x y z ->%N.compare_eq_iff. done.
Qed.

(** Comparison by a first key, ties broken by a second one. *)
Definition lex_cmp {A} (c1 c2 : A -> A -> comparison) (x y : A) : comparison :=
  match c1 x y with Eq => c2 x y | c => c end.

Global Instance lex_cmp_total {A} (c1 c2 : A -> A -> comparison) :
  TotalCmp c1 -> TotalCmp c2 -> TotalCmp (lex_cmp c1 c2).
Proof.
  intros T1 T2. unfold lex_cmp. split.
  - intros x y. rewrite (cmp_opp (cmp:=c1) x y). destruct (c1 x y); [apply T2|done..].
  - intros x y z. destruct (c1 x y) eqn:E1; [| |done].
    + rewrite (cmp_eq_l (cmp:=c1) x y z E1). destruct (c1 y z); [|done..].
      apply T2.
    + intros _. destruct (c1 y z) eqn:E2; [| |done]; intros _.
      * by rewrite <-(cmp_eq_r c1 x y z E2), E1.
      * by rewrite (cmp_lt_trans c1 x y z E1 E2).
  - intros x y z. destruct (c1 x y) eqn:E1; [|done..]. intros E2.
    rewrite (cmp_eq_l (cmp:=c1) x y z E1), (cmp_eq_l (cmp:=c2) x y z E2). done.
Qed.

(** Comparison through a projection. *)
Definition by_key {A B} (f : A -> B) (c : B -> B -> comparison) (x y : A) : comparison :=
  c (f x) (f y).

Global Instance by_key_total {A B} (f : A -> B) (c : B -> B -> comparison) :
  TotalCmp c -> TotalCmp (by_key f c).
Proof.
  intros T. unfold by_key. split; intros.
  - apply T.
  - by eapply (cmp_le_trans (cmp:=c)).
  - by apply (cmp_eq_l (cmp:=c)).
Qed.

(** Lexicographic comparison of lists, a proper prefix being smaller. *)
Fixpoint list_cmp {A} (c : A -> A -> comparison) (l k : list A) : comparison :=
  match l, k with
  | [], [] => Eq
  | [], _ :: _ => Lt
  | _ :: _, [] => Gt
  | x :: l', y :: k' => match c x y with Eq => list_cmp c l' k' | r => r end
  end.

Global Instance list_cmp_total {A} (c : A -> A -> comparison) :
  TotalCmp c -> TotalCmp (list_cmp c).
Proof.
  intros T. split.
  - induction x as [|x l IH]; intros [|y k]; simpl; try done.
    rewrite (cmp_opp (cmp:=c) x y). destruct (c x y); simpl; auto.
  - induction x as [|x l IH]; intros [|y k] [|z m]; simpl; try done.
    destruct (c x y) eqn:E1; [| |done].
    + rewrite (cmp_eq_l (cmp:=c) x y z E1). destruct (c y z); [|done..]. apply IH.
    + intros _. destruct (c y z) eqn:E2; [| |done]; intros _.
      * by rewrite <-(cmp_eq_r c x y z E2), E1.
      * by rewrite (cmp_lt_trans c x y z E1 E2).
  - induction x as [|x l IH]; intros [|y k] [|z m]; simpl; try done.
    destruct (c x y) eqn:E1; [|done..]. intros E2.
    rewrite (cmp_eq_l (cmp:=c) x y z E1). destruct (c y z); [|done..]. by apply IH.
Qed.

(** [sort.SliceStable]: insertion sort by a strict "less" test; equal elements
    keep their order. [sort.Slice] may reorder equal elements; on pairwise
    distinct keys the two agree. *)
Fixpoint insert_by {A} (less : A -> A -> bool) (x : A) (l : list A) : list A :=
  match l with
  | [] => [x]
  | y :: k => if less y x then y :: insert_by less x k else x :: y :: k
  end.

Fixpoint sort_by {A} (less : A -> A -> bool) (l : list A) : list A :=
  match l with
  | [] => []
  | x :: k => insert_by less x (sort_by less k)
  end.

Lemma insert_by_perm {A} (less : A -> A -> bool) x l :
  insert_by less x l ≡ₚ x :: l.
Proof.
  induction l as [|y k IH]; simpl; [done|]. destruct (less y x); [|done].
  rewrite IH. apply Permutation_swap.
Qed.

Lemma sort_by_ext {A} (f g : A -> A -> bool) l :
  (forall x y, f x y = g x y) -> sort_by f l = sort_by g l.
Proof.
  intros Hfg. induction l as [|x l IH]; cbn; [done|]. rewrite IH. clear IH.
  induction (sort_by g l) as [|y k IHk]; cbn; [done|]. by rewrite Hfg, IHk.
Qed.

Lemma sort_by_perm {A} (less : A -> A -> bool) l : sort_by less l ≡ₚ l.
Proof. induction l as [|x k IH]; simpl; [done|]. by rewrite insert_by_perm, IH. Qed.

Lemma sort_by_length {A} (less : A -> A -> bool) l :
  length (sort_by less l) = length l.
Proof. by rewrite (sort_by_perm less l). Qed.

Lemma elem_of_sort_by {A} (less : A -> A -> bool) x l : x ∈ sort_by less l <-> x ∈ l.
Proof. by rewrite (sort_by_perm less l). Qed.

(** The strict test of a three-way comparison. *)
Definition less_of {A} (cmp : A -> A -> comparison) (x y : A) : bool :=
  match cmp x y with Lt => true | _ => false end.

Lemma sort_by_sorted {A} (cmp : A -> A -> comparison) `{!TotalCmp cmp} l :
  StronglySorted (fun x y => cmp x y <> Gt) (sort_by (less_of cmp) l).
Proof.
  induction l as [|x k IH]; simpl; [constructor|].
  induction IH as [|y m Hm IHm Hy]; simpl; [by repeat constructor|].
  unfold less_of at 1. destruct (cmp y x) eqn:E.
  - assert (cmp x y = Eq) as Hxy by by rewrite (cmp_opp y x), E.
    constructor; [by constructor|]. constructor; [congruence|].
    eapply Forall_impl; [exact Hy|]. intros z. by rewrite (cmp_eq_l x y z Hxy).
  - constructor; [done|]. apply Forall_forall. intros z.
    rewrite insert_by_perm. intros [->|Hz]%elem_of_cons; [congruence|].
    by apply (proj1 (Forall_forall _ _) Hy).
  - assert (cmp x y = Lt) as Hxy by by rewrite (cmp_opp y x), E.
    constructor; [by constructor|]. constructor; [congruence|].
    eapply Forall_impl; [exact Hy|]. intros z Hz.
    apply (cmp_le_trans x y z); [congruence|done].
Qed.

(** A sorted list is its own sort. *)
Lemma sort_by_id {A} (cmp : A -> A -> comparison) `{!TotalCmp cmp} l :
  StronglySorted (fun x y => cmp x y <> Gt) l -> sort_by (less_of cmp) l = l.
Proof.
  induction 1 as [|x l _ IH Hx]; simpl; [done|]. rewrite IH. destruct Hx as [|y l Hy _]; [done|].
  simpl. unfold less_of. rewrite (cmp_opp x y). by destruct (cmp x y).
Qed.

(** Elements with different keys can be inserted in either order, so blocks of
    elements with pairwise different keys can be sorted in either order. *)
Section SortSwap.
Context {A} (cmp : A -> A -> comparison) `{!TotalCmp cmp}.

Lemma insert_by_comm x y l : cmp x y <> Eq ->
  insert_by (less_of cmp) x (insert_by (less_of cmp) y l) =
  insert_by (less_of cmp) y (insert_by (less_of cmp) x l).
Proof.
  intros Hxy. pose proof (cmp_opp x y) as Hyx. unfold less_of.
  induction l as [|z l IH]; cbn.
  - rewrite Hyx. by destruct (cmp x y).
  - assert (cmp z y = Lt -> cmp z x <> Lt -> cmp x y = Lt) as H1.
    { intros Hzy Hzx. destruct (cmp x y) eqn:E; [done|done|]. cbn in Hyx.
      destruct Hzx. by apply (cmp_lt_trans cmp z y x). }
    assert (cmp z x = Lt -> cmp z y <> Lt -> cmp y x = Lt) as H2.
    { intros Hzx Hzy. destruct (cmp x y) eqn:E; [done| |done]. cbn in Hyx.
      destruct Hzy. by apply (cmp_lt_trans cmp z x y). }
    destruct (cmp z y) eqn:Ezy, (cmp z x) eqn:Ezx; cbn; rewrite ?Ezy, ?Ezx, ?IH;
      try (rewrite H1 by done); try (rewrite H2 by done); cbn; rewrite ?Ezy, ?Ezx; try done;
      rewrite Hyx; by destruct (cmp x y).
Qed.

Lemma sort_by_app l k : sort_by (less_of cmp) (l ++ k) = foldr (insert_by (less_of cmp)) (sort_by (less_of cmp) k) l.
Proof. induction l as [|x l IH]; cbn; [done|]. by rewrite IH. Qed.

Lemma sort_by_swap l1 l2 k :
  (forall x y, x ∈ l1 -> y ∈ l2 -> cmp x y <> Eq) ->
  sort_by (less_of cmp) (l1 ++ l2 ++ k) = sort_by (less_of cmp) (l2 ++ l1 ++ k).
Proof.
  intros Hd. rewrite !sort_by_app. generalize (sort_by (less_of cmp) k) as base.
  assert (forall x base, (forall y, y ∈ l2 -> cmp x y <> Eq) ->
    insert_by (less_of cmp) x (foldr (insert_by (less_of cmp)) base l2) =
    foldr (insert_by (less_of cmp)) (insert_by (less_of cmp) x base) l2) as Hone.
  { intros x base. induction l2 as [|y l2 IH]; intros Hx; cbn; [done|].
    rewrite insert_by_comm by (apply Hx; by left). rewrite IH; [done| |].
    - intros a b Ha Hb. apply Hd; [done|by right].
    - intros b Hb. apply Hx. by right. }
  induction l1 as [|x l1 IH]; intros base; cbn; [done|].
  rewrite IH by (intros a b Ha Hb; apply Hd; [by right|done]).
  apply Hone. intros y Hy. apply Hd; [by left|done].
Qed.

End SortSwap.

(** Go's [append]-if-absent helpers ([appendUnique], [appendRule]). *)
Definition append_unique (items : list string) (item : string) : list string :=
  if existsb (String.eqb item) items then items else items ++ [item].

Lemma existsb_eqb_elem (x : string) l : existsb (String.eqb x) l = true <-> x ∈ l.
Proof.
  rewrite existsb_exists. split.
  - intros (y & Hy & ->%String.eqb_eq). by apply list_elem_of_In.
  - intros H. exists x. split; [by apply list_elem_of_In | apply String.eqb_refl].
Qed.

Lemma filter_perm {A} (f : A -> bool) (l k : list A) : l ≡ₚ k -> List.filter f l ≡ₚ List.filter f k.
Proof.
  induction 1 as [|x l k _ IH|x y l|l k m _ IH1 _ IH2]; simpl; [done|..].
  - destruct (f x); by rewrite IH.
  - destruct (f x), (f y); try done. apply Permutation_swap.
  - by etrans.
Qed.

Lemma omap_nil {A B} (f : A -> option B) l : omap f l = [] <-> forall x, x ∈ l -> f x = None.
Proof.
  induction l as [|a l IH]; cbn.
  - split; [|done]. intros _ x Hx. by apply not_elem_of_nil in Hx.
  - destruct (f a) as [b|] eqn:E.
    + split; [done|]. intros Hall. rewrite (Hall a) in E by left. done.
    + rewrite IH. split; [intros Hl x [->|Hx]%elem_of_cons; auto|intros Hl x Hx; apply Hl; by right].
Qed.

Lemma elem_of_append_unique x l item :
  x ∈ append_unique l item <-> x ∈ l \/ x = item.
Proof.
  unfold append_unique. destruct (existsb _ _) eqn:E.
  - apply existsb_eqb_elem in E. naive_solver.
  - rewrite elem_of_app, list_elem_of_singleton. done.
Qed.

(** ** Counting the values of a map that satisfy a test *)

Section Count.
Context `{Countable K} {A : Type}.
Implicit Types (P : A -> bool) (m : gmap K A).

Definition countm P m : nat := size (filter (fun kv => P kv.2 = true) m).

Lemma countm_empty P : countm P ∅ = 0%nat.
Proof. unfold countm. by rewrite map_filter_empty, map_size_empty. Qed.

Lemma countm_new P m k x :
  m !! k = None -> countm P (<[k := x]> m) = ((if P x then 1 else 0) + countm P m)%nat.
Proof.
  intros Hk. unfold countm. destruct (P x) eqn:E.
  - rewrite map_filter_insert_True by done. rewrite map_size_insert_None; [done|].
    rewrite map_lookup_filter_None. by left.
  - rewrite map_filter_insert_False by (simpl; congruence). by rewrite delete_id.
Qed.

Lemma countm_delete P m k x :
  m !! k = Some x -> countm P m = ((if P x then 1 else 0) + countm P (delete k m))%nat.
Proof.
  intros Hk. rewrite <-(insert_delete_id m k x Hk) at 1. apply countm_new, lookup_delete_eq.
Qed.

Lemma countm_update P m k x y :
  m !! k = Some x ->
  ((if P x then 1 else 0) + countm P (<[k := y]> m) = (if P y then 1 else 0) + countm P m)%nat.
Proof.
  intros Hk. rewrite (countm_delete P m k x Hk), <-insert_delete_eq.
  rewrite countm_new by apply lookup_delete_eq. lia.
Qed.

Lemma countm_zero P m : countm P m = 0%nat <-> forall k x, m !! k = Some x -> P x = false.
Proof.
  unfold countm. split.
  - intros Hz k x Hk. apply map_size_empty_inv in Hz. destruct (P x) eqn:E; [|done].
    assert (filter (fun kv => P kv.2 = true) m !! k = Some x) as Hf
      by (apply map_lookup_filter_Some; done). by rewrite Hz, lookup_empty in Hf.
  - intros Hall. apply map_size_empty_iff, map_empty. intros k.
    rewrite map_lookup_filter_None. destruct (m !! k) as [x|] eqn:E; [|by left].
    right. intros y [= <-]. simpl. rewrite (Hall k x E). done.
Qed.
End Count.

(** ** The first element of an ordering ([ORDER BY ... LIMIT 1]) *)

Fixpoint min_by {A} (cmp : A -> A -> comparison) (l : list A) : option A :=
  match l with
  | [] => None
  | x :: k => match min_by cmp k with
              | None => Some x
              | Some y => match cmp y x with Lt => Some y | _ => Some x end
              end
  end.

Lemma min_by_None {A} (cmp : A -> A -> comparison) l : min_by cmp l = None <-> l = [].
Proof. destruct l; simpl; [done|]. split; [|done]. by repeat case_match. Qed.

Lemma min_by_Some {A} (cmp : A -> A -> comparison) `{!TotalCmp cmp} l x :
  min_by cmp l = Some x -> x ∈ l /\ forall y, y ∈ l -> cmp x y <> Gt.
Proof.
  revert x. induction l as [|a k IH]; intros x; simpl; [done|].
  destruct (min_by cmp k) as [y|] eqn:Ek.
  - destruct (IH y eq_refl) as [Hy Hmin]. destruct (cmp y a) eqn:Ec; intros [= <-].
    + split; [by left|]. intros z [->|Hz]%elem_of_cons; [by rewrite cmp_refl|].
      assert (cmp a y = Eq) as Hay by by rewrite (cmp_opp y a), Ec.
      rewrite (cmp_eq_l a y z Hay). auto.
    + split; [by right|]. intros z [->|Hz]%elem_of_cons; [congruence|auto].
    + split; [by left|]. intros z [->|Hz]%elem_of_cons; [by rewrite cmp_refl|].
      apply (cmp_le_trans a y z); [|auto]. by rewrite (cmp_opp y a), Ec.
  - apply min_by_None in Ek as ->. intros [= <-]. split; [by left|].
    intros z [->|Hz%not_elem_of_nil]%elem_of_cons; [by rewrite cmp_refl|done].
Qed.
