(* ===== verification/GoString.v ===== *)
(** * The part of Go's string library the program uses

    Go strings are byte sequences, modelled by Rocq's [string] (one [ascii] per
    byte). [strings.TrimSpace] is modelled on bytes through the UTF-8 encodings
    of the Unicode spaces. [strings.ToLower] has an ASCII fast path and a
    table-driven path for strings with a byte above 127; the tables are the one
    thing kept abstract, as the class [UnicodeTables], so every theorem below
    holds for any such table. *)

From stdpp Require Import pretty.
From S2P Require Import Prelude.

(** A string literal given by its bytes. *)
Definition bytes (l : list N) : string :=
  fold_right (fun n s => String (Ascii.ascii_of_N n) s) "" l.

Definition code (c : Ascii.ascii) : N := Ascii.N_of_ascii c.

Fixpoint drop_str (n : nat) (s : string) : string :=
  match n, s with
  | S n', String _ s' => drop_str n' s'
  | _, _ => s
  end.

Fixpoint take_str (n : nat) (s : string) : string :=
  match n, s with
  | S n', String c s' => String c (take_str n' s')
  | _, _ => ""
  end.

Lemma prefix_spec (p s : string) : String.prefix p s = true <-> exists r, s = p +:+ r.
Proof.
  revert s. induction p as [|c p IH]; intros [|d s]; simpl.
  - split; [by exists ""|done].
  - split; [intros _; by exists (String d s)|done].
  - split; [done|intros [r Hr]; done].
  - destruct (Ascii.ascii_dec c d) as [->|Hne].
    + rewrite IH. split; intros [r Hr]; exists r; cbn in *; [by rewrite Hr | by injection Hr].
    + split; [done|]. intros [r Hr]. injection Hr. congruence.
Qed.

Lemma drop_str_app (p s : string) : drop_str (String.length p) (p +:+ s) = s.
Proof. induction p as [|c p IH]; simpl; [by destruct s|done]. Qed.

(** [strings.HasPrefix], [strings.TrimPrefix]. *)
Definition HasPrefix (s p : string) : bool := String.prefix p s.
Definition TrimPrefix (s p : string) : string :=
  if HasPrefix s p then drop_str (String.length p) s else s.

(** [strings.HasSuffix], [strings.TrimSuffix]. *)
Definition HasSuffix (s p : string) : bool :=
  String.prefix (String.rev p) (String.rev s).
Definition TrimSuffix (s p : string) : string :=
  if HasSuffix s p then take_str (String.length s - String.length p) s else s.

(** [strings.Contains]. *)
Fixpoint Contains (s sub : string) : bool :=
  String.prefix sub s || match s with "" => false | String _ s' => Contains s' sub end.

(** [strings.ContainsAny] for a set of ASCII characters. *)
Fixpoint ContainsAny (s : string) (chars : list N) : bool :=
  match s with
  | "" => false
  | String c s' => existsb (N.eqb (code c)) chars || ContainsAny s' chars
  end.

(** [strings.Cut] at a one-byte separator. *)
Fixpoint Cut (s : string) (c : Ascii.ascii) : string * option string :=
  match s with
  | "" => ("", None)
  | String a s' =>
      if Ascii.eqb a c then ("", Some s')
      else let '(b, r) := Cut s' c in (String a b, r)
  end.

(** [strings.Split] at a one-byte separator; the result is never empty. *)
Fixpoint Split (s : string) (c : Ascii.ascii) : list string :=
  match s with
  | "" => [""]
  | String a s' =>
      if Ascii.eqb a c then "" :: Split s' c
      else match Split s' c with
           | x :: xs => String a x :: xs
           | [] => [String a ""]
           end
  end.

Lemma Split_nonempty s c : Split s c <> [].
Proof. destruct s; simpl; [done|]. by repeat case_match. Qed.

(** [strings.Join]. *)
Definition Join (sep : string) (l : list string) : string := String.concat sep l.

(** ** Space trimming *)

(** The UTF-8 encodings of the runes [unicode.IsSpace] accepts. *)
Definition space_encodings : list string :=
  map bytes
    ([[9]; [10]; [11]; [12]; [13]; [32]; [194; 133]; [194; 160]; [225; 154; 128];
      [226; 128; 168]; [226; 128; 169]; [226; 128; 175]; [226; 129; 159]; [227; 128; 128];
      [226; 128; 128]; [226; 128; 129]; [226; 128; 130]; [226; 128; 131]; [226; 128; 132];
      [226; 128; 133]; [226; 128; 134]; [226; 128; 135]; [226; 128; 136]; [226; 128; 137];
      [226; 128; 138]]%N).

Fixpoint strip_one (encs : list string) (s : string) : option string :=
  match encs with
  | [] => None
  | e :: encs' =>
      if String.prefix e s then Some (drop_str (String.length e) s) else strip_one encs' s
  end.

(** The fuel is the length of the string: each round removes a byte or more. *)
Fixpoint trim_loop (fuel : nat) (encs : list string) (s : string) : string :=
  match fuel with
  | O => s
  | S n => match strip_one encs s with Some s' => trim_loop n encs s' | None => s end
  end.

Definition trim_left (s : string) : string :=
  trim_loop (String.length s) space_encodings s.
Definition trim_right (s : string) : string :=
  String.rev (trim_loop (String.length s) (map String.rev space_encodings) (String.rev s)).
(** [strings.TrimSpace]. *)
Definition TrimSpace (s : string) : string := trim_right (trim_left s).

(** ** Case folding *)

Class UnicodeTables := {
  (** [strings.Map(unicode.ToLower, s)] for a string with a byte above 127. *)
  unicode_lower : string -> string
}.

Fixpoint is_ascii (s : string) : bool :=
  match s with "" => true | String c s' => (code c <? 128)%N && is_ascii s' end.

Definition lower_char (c : Ascii.ascii) : Ascii.ascii :=
  if ((65 <=? code c) && (code c <=? 90))%N then Ascii.ascii_of_N (code c + 32) else c.

Fixpoint map_str (f : Ascii.ascii -> Ascii.ascii) (s : string) : string :=
  match s with "" => "" | String c s' => String (f c) (map_str f s') end.

(** [strings.ToLower]. *)
Definition ToLower `{UnicodeTables} (s : string) : string :=
  if is_ascii s then map_str lower_char s else unicode_lower s.

(** Lower-casing commutes with trimming: no space encoding has a letter. *)

Definition caseless (c : Ascii.ascii) : bool :=
  ((code c <? 65) || (122 <? code c))%N.

Fixpoint all_caseless (s : string) : bool :=
  match s with "" => true | String c s' => caseless c && all_caseless s' end.

Lemma forall_ascii (P : Ascii.ascii -> bool) :
  forallb P (map (fun n => Ascii.ascii_of_N (N.of_nat n)) (seq 0 256)) = true ->
  forall c, P c = true.
Proof.
  intros HP c. rewrite forallb_forall in HP. apply HP, in_map_iff.
  exists (N.to_nat (Ascii.N_of_ascii c)). split.
  - rewrite N2Nat.id. apply Ascii.ascii_N_embedding.
  - apply in_seq. pose proof (Ascii.N_ascii_bounded c). lia.
Qed.

Lemma lower_caseless c d : caseless c = true -> lower_char d = c <-> d = c.
Proof.
  intros Hc. split.
  - intros <-. revert Hc. unfold lower_char. destruct (_ && _)%N eqn:E; [|done].
    intros Hc. exfalso. revert d E Hc.
    assert (forall d, implb ((65 <=? code d) && (code d <=? 90))%N
              (negb (caseless (Ascii.ascii_of_N (code d + 32)))) = true) as Hall.
    { apply forall_ascii. vm_compute. reflexivity. }
    intros d E Hc. specialize (Hall d). by rewrite E, Hc in Hall.
  - intros ->. unfold lower_char, caseless in *.
    destruct (_ && _)%N eqn:E; [|done].
    apply andb_true_iff in E as [E1%N.leb_le E2%N.leb_le].
    apply orb_true_iff in Hc as [Hc%N.ltb_lt|Hc%N.ltb_lt]; lia.
Qed.

Lemma lower_char_idem c : lower_char (lower_char c) = lower_char c.
Proof.
  apply Ascii.eqb_eq. revert c. apply forall_ascii. vm_compute. reflexivity.
Qed.

Lemma map_lower_idem s : map_str lower_char (map_str lower_char s) = map_str lower_char s.
Proof. induction s as [|c s IH]; simpl; [done|]. by rewrite lower_char_idem, IH. Qed.

Lemma is_ascii_lower s : is_ascii (map_str lower_char s) = is_ascii s.
Proof.
  induction s as [|c s IH]; simpl; [done|]. rewrite IH. f_equal.
  apply eqb_prop. revert c. apply forall_ascii. vm_compute. reflexivity.
Qed.

Lemma prefix_lower e s :
  all_caseless e = true -> String.prefix e (map_str lower_char s) = String.prefix e s.
Proof.
  revert s. induction e as [|c e IH]; intros [|d s]; simpl; try done.
  intros [Hc He]%andb_true_iff. pose proof (lower_caseless c d Hc).
  repeat case_match; naive_solver.
Qed.

Lemma drop_lower n s : drop_str n (map_str lower_char s) = map_str lower_char (drop_str n s).
Proof. revert s. induction n as [|n IH]; intros [|c s]; simpl; auto. Qed.

Lemma map_str_length f s : String.length (map_str f s) = String.length s.
Proof. induction s; simpl; auto. Qed.

Lemma strip_one_lower encs s :
  forallb all_caseless encs = true ->
  strip_one encs (map_str lower_char s) = map_str lower_char <$> strip_one encs s.
Proof.
  induction encs as [|e encs IH]; simpl; [done|]. intros [He Hencs]%andb_true_iff.
  rewrite prefix_lower by done. destruct (String.prefix e s); simpl; [by rewrite drop_lower|].
  by apply IH.
Qed.

Lemma trim_loop_lower fuel encs s :
  forallb all_caseless encs = true ->
  trim_loop fuel encs (map_str lower_char s) = map_str lower_char (trim_loop fuel encs s).
Proof.
  intros Hencs. revert s. induction fuel as [|n IH]; intros s; simpl; [done|].
  rewrite strip_one_lower by done. by destruct (strip_one encs s); simpl.
Qed.

Lemma rev_app_map f a b :
  String.rev_app (map_str f a) (map_str f b) = map_str f (String.rev_app a b).
Proof. revert b. induction a as [|c a IH]; intros b; simpl; [done|]. apply (IH (String c b)). Qed.

Lemma rev_map f s : String.rev (map_str f s) = map_str f (String.rev s).
Proof. apply (rev_app_map f s ""). Qed.

Lemma TrimSpace_lower s : TrimSpace (map_str lower_char s) = map_str lower_char (TrimSpace s).
Proof.
  unfold TrimSpace, trim_left, trim_right.
  rewrite map_str_length, trim_loop_lower by (vm_compute; reflexivity).
  rewrite map_str_length, rev_map, trim_loop_lower by (vm_compute; reflexivity).
  apply rev_map.
Qed.

Lemma is_ascii_rev_app a b : is_ascii (String.rev_app a b) = is_ascii a && is_ascii b.
Proof.
  revert b. induction a as [|c a IH]; intros b; simpl; [done|]. rewrite IH. simpl.
  destruct (is_ascii a), (code c <? 128)%N, (is_ascii b); done.
Qed.

Lemma is_ascii_drop n s : is_ascii s = true -> is_ascii (drop_str n s) = true.
Proof.
  revert s. induction n as [|n IH]; intros [|c s]; simpl; try done.
  intros [_ H]%andb_true_iff. by apply IH.
Qed.

Lemma is_ascii_strip_one encs s s' :
  is_ascii s = true -> strip_one encs s = Some s' -> is_ascii s' = true.
Proof.
  intros Hs. induction encs as [|e encs IH]; simpl; [done|].
  destruct (String.prefix e s); [|done]. intros [= <-]. by apply is_ascii_drop.
Qed.

Lemma is_ascii_trim_loop fuel encs s :
  is_ascii s = true -> is_ascii (trim_loop fuel encs s) = true.
Proof.
  revert s. induction fuel as [|n IH]; intros s Hs; simpl; [done|].
  destruct (strip_one encs s) as [s'|] eqn:E; [|done].
  eauto using is_ascii_strip_one.
Qed.

Lemma is_ascii_TrimSpace s : is_ascii s = true -> is_ascii (TrimSpace s) = true.
Proof.
  intros Hs. unfold TrimSpace, trim_right, trim_left, String.rev.
  rewrite is_ascii_rev_app, andb_true_r. apply is_ascii_trim_loop.
  rewrite is_ascii_rev_app, andb_true_r. by apply is_ascii_trim_loop.
Qed.

(** A concrete table, used by the witnesses: bytes above 127 are left alone. *)
Definition byte_tables : UnicodeTables := {| unicode_lower := map_str lower_char |}.

(** ** Decimal numbers *)

Definition is_digit (c : Ascii.ascii) : bool := ((48 <=? code c) && (code c <=? 57))%N.

Fixpoint all_digits (s : string) : bool :=
  match s with "" => true | String c s' => is_digit c && all_digits s' end.

Fixpoint digits_val (acc : Z) (s : string) : Z :=
  match s with
  | "" => acc
  | String c s' => digits_val (acc * 10 + Z.of_N (code c - 48)) s'
  end.

Lemma digits_val_nonneg acc s : (0 <= acc)%Z -> (0 <= digits_val acc s)%Z.
Proof. revert acc. induction s as [|c s IH]; simpl; intros acc H; [done|]. apply IH. lia. Qed.

(** [strconv.Atoi] on a 64-bit platform: the value and whether the error is nil.
    On overflow Go returns the nearest bound together with the error. *)
Definition Atoi (s : string) : Z * bool :=
  let '(neg, d) :=
    match s with
    | String "-"%char r => (true, r)
    | String "+"%char r => (false, r)
    | _ => (false, s)
    end in
  if (d =s "") || negb (all_digits d) then (0%Z, false)
  else
    let v := digits_val 0 d in
    if neg then if (2 ^ 63 <? v)%Z then (min_int64, false) else ((- v)%Z, true)
    else if (max_int64 <? v)%Z then (max_int64, false) else (v, true).

(** [strconv.Itoa] / [%d] on the non-negative indices the program prints. *)
Definition Itoa (n : nat) : string := pretty n.

(** ** Hexadecimal *)

Definition hex_digit (n : N) : Ascii.ascii :=
  Ascii.ascii_of_N (if (n <? 10)%N then n + 48 else n + 87)%N.

(** [hex.EncodeToString] on bytes given as numbers. *)
Fixpoint hex_encode (bs : list N) : string :=
  match bs with
  | [] => ""
  | b :: bs' => String (hex_digit (b / 16)) (String (hex_digit (b mod 16)) (hex_encode bs'))
  end.

Lemma hex_encode_length bs : String.length (hex_encode bs) = 2 * length bs.
Proof. induction bs as [|b bs IH]; simpl; [done|]. rewrite IH. lia. Qed.

(** [hex.DecodeString]: [None] is the error. *)
Definition hex_value (c : Ascii.ascii) : option N :=
  let n := code c in
  if ((48 <=? n) && (n <=? 57))%N then Some (n - 48)%N
  else if ((97 <=? n) && (n <=? 102))%N then Some (n - 87)%N
  else if ((65 <=? n) && (n <=? 70))%N then Some (n - 55)%N
  else None.

Fixpoint hex_decode (s : string) : option (list N) :=
  match s with
  | "" => Some []
  | String _ "" => None
  | String a (String b s') =>
      x ← hex_value a; y ← hex_value b; r ← hex_decode s'; Some ((x * 16 + y)%N :: r)
  end.

Lemma hex_value_digit n : (n < 16)%N -> hex_value (hex_digit n) = Some n.
Proof.
  intros H.
  assert (n ∈ N.of_nat <$> seq 0 16) as Hin.
  { apply list_elem_of_fmap. exists (N.to_nat n). rewrite N2Nat.id.
    split; [done|]. apply elem_of_seq. lia. }
  clear H. revert n Hin. apply Forall_forall. by repeat constructor.
Qed.

Lemma hex_decode_encode bs :
  Forall (fun b => b < 256)%N bs -> hex_decode (hex_encode bs) = Some bs.
Proof.
  induction 1 as [|b bs Hb _ IH]; [done|]. cbn [hex_encode hex_decode].
  rewrite !hex_value_digit.
  - simpl. rewrite IH. simpl. do 2 f_equal.
    rewrite N.mul_comm. symmetry. apply N.div_mod. done.
  - apply N.Div0.div_lt_upper_bound; lia.
  - apply N.mod_lt. done.
Qed.

(** ** The byte order on strings *)

Fixpoint str_cmp (a b : string) : comparison :=
  match a, b with
  | "", "" => Eq
  | "", String _ _ => Lt
  | String _ _, "" => Gt
  | String x a', String y b' =>
      match N.compare (code x) (code y) with Eq => str_cmp a' b' | r => r end
  end.

Lemma str_cmp_compare a b : String.compare a b = str_cmp a b.
Proof.
  revert b. induction a as [|x a IH]; intros [|y b]; simpl; try done.
Qed.

Fixpoint str_codes (s : string) : list N :=
  match s with "" => [] | String c s' => code c :: str_codes s' end.

Lemma str_cmp_codes a b : str_cmp a b = list_cmp N.compare (str_codes a) (str_codes b).
Proof.
  revert b. induction a as [|x a IH]; intros [|y b]; simpl; try done.
  by rewrite IH.
Qed.

Global Instance str_cmp_total : TotalCmp str_cmp.
Proof.
  pose proof (by_key_total str_codes (list_cmp N.compare) _) as T.
  split; intros *; rewrite ?str_cmp_codes; apply T.
Qed.

Lemma str_codes_inj a b : str_codes a = str_codes b -> a = b.
Proof.
  revert b. induction a as [|x a IH]; intros [|y b]; simpl; intros H; simplify_eq; [done|].
  f_equal; [|by apply IH].
  rewrite <-(Ascii.ascii_N_embedding x), <-(Ascii.ascii_N_embedding y).
  unfold code in *. congruence.
Qed.

Lemma str_cmp_eq a b : str_cmp a b = Eq <-> a = b.
Proof.
  split; [|intros ->; apply cmp_refl, _].
  rewrite <-str_cmp_compare. apply String.compare_eq_iff.
Qed.

Lemma ltb_str_cmp a b : (a <s b) = match str_cmp a b with Lt => true | _ => false end.
Proof. unfold String.ltb. by rewrite str_cmp_compare. Qed.

(** [sort.Strings]. *)
Definition sort_strings (l : list string) : list string := sort_by String.ltb l.

(** The sorted keys of a map, as the program computes them everywhere. *)
Definition sorted_keys {V} (m : gmap string V) : list string :=
  sort_strings (map_to_list m).*1.

Lemma elem_of_sorted_keys {V} (m : gmap string V) k :
  k ∈ sorted_keys m <-> is_Some (m !! k).
Proof.
  unfold sorted_keys, sort_strings. rewrite elem_of_sort_by, <-elem_of_dom.
  rewrite list_elem_of_fmap. split.
  - intros ([k' v] & -> & H%elem_of_map_to_list). simpl. by apply elem_of_dom.
  - intros [v Hv]%elem_of_dom. exists (k, v). split; [done|]. by apply elem_of_map_to_list.
Qed.

Lemma sorted_keys_NoDup {V} (m : gmap string V) : NoDup (sorted_keys m).
Proof.
  unfold sorted_keys, sort_strings. rewrite (sort_by_perm _ _).
  apply NoDup_fst_map_to_list.
Qed.

(** ** Splitting at a separator that does not occur in the parts *)

Definition no_char (c : Ascii.ascii) (s : string) : Prop := Forall (fun n => n <> code c) (str_codes s).

Lemma code_inj a b : code a = code b -> a = b.
Proof.
  intros H. rewrite <-(Ascii.ascii_N_embedding a), <-(Ascii.ascii_N_embedding b).
  unfold code in H. congruence.
Qed.

Lemma Split_single s c : no_char c s <-> Split s c = [s].
Proof.
  unfold no_char. induction s as [|a s IH]; simpl; [done|]. destruct (Ascii.eqb_spec a c) as [->|Hne].
  - split; [|intros H; simplify_eq; by destruct (Split_nonempty s c)].
    intros H. inversion H. done.
  - rewrite Forall_cons, IH. split.
    + by intros [_ ->].
    + intros H. split; [intros Hc; apply Hne; by apply code_inj|].
      destruct (Split s c) as [|x xs] eqn:E; [by destruct (Split_nonempty s c)|by simplify_eq].
Qed.

Lemma Split_one s c b : Split s c = [b] -> b = s.
Proof.
  revert b. induction s as [|a s IH]; intros b; cbn [Split]; [by intros [= <-]|].
  destruct (Ascii.eqb a c); [intros H; simplify_eq; by destruct (Split_nonempty s c)|].
  destruct (Split s c) as [|x [|y ys]] eqn:E; [by destruct (Split_nonempty s c)| |done].
  intros [= <-]. f_equal. by apply IH.
Qed.

Lemma Split_two s c a b :
  Split s c = [a; b] <-> s = a +:+ String c b /\ no_char c a /\ no_char c b.
Proof.
  revert a. induction s as [|x s IH]; intros a; cbn [Split].
  - split; [done|]. intros (H & _). by destruct a.
  - destruct (Ascii.eqb_spec x c) as [->|Hne].
    + split.
      * intros [= <- H]. pose proof (Split_one _ _ _ H) as ->.
        split; [done|]. split; [constructor|]. by apply Split_single.
      * intros (H & Ha & Hb). destruct a as [|y a].
        -- injection H as ->. f_equal. by apply Split_single.
        -- injection H as -> _. inversion Ha. done.
    + split.
      * destruct (Split s c) as [|y ys] eqn:E; [done|]. intros [= <- ->].
        destruct (IH y) as [IH1 _]. destruct IH1 as (-> & H1 & H2); [done|].
        split; [done|]. split; [|done]. constructor; [|done]. intros Hc. apply Hne. by apply code_inj.
      * intros (H & Ha & Hb). destruct a as [|y a]; [by injection H as -> _|]. injection H as -> H.
        apply Forall_cons in Ha as [_ Ha]. by rewrite (proj2 (IH a)).
Qed.

Lemma HasPrefix_app p s : HasPrefix (p +:+ s) p = true.
Proof. unfold HasPrefix. apply prefix_spec. by exists s. Qed.

Lemma TrimPrefix_app p s : TrimPrefix (p +:+ s) p = s.
Proof. unfold TrimPrefix. by rewrite HasPrefix_app, drop_str_app. Qed.

(** ** Quoting *)

(** [strconv.Quote] ([%q]): the escapes of ASCII text; bytes above the ASCII
    range (printable UTF-8) are kept. *)
Definition quote_char (c : Ascii.ascii) : string :=
  let esc (n : N) := bytes [92; n]%N in
  let n := code c in
  if N.eqb n 34 then esc 34%N else if N.eqb n 92 then esc 92%N
  else if N.eqb n 7 then esc 97%N else if N.eqb n 8 then esc 98%N
  else if N.eqb n 12 then esc 102%N else if N.eqb n 10 then esc 110%N
  else if N.eqb n 13 then esc 114%N else if N.eqb n 9 then esc 116%N
  else if N.eqb n 11 then esc 118%N
  else if (N.ltb n 32 || N.eqb n 127)%bool
  then bytes [92; 120]%N +:+ hex_encode [n]
  else String c EmptyString.

Fixpoint quote_body (s : string) : string :=
  match s with "" => "" | String c s' => quote_char c +:+ quote_body s' end.

Definition Quote (s : string) : string := bytes [34]%N +:+ quote_body s +:+ bytes [34]%N.

(** [strings.Index(s, c)] as the text before the first occurrence. *)
Definition before_char (s : string) (c : Ascii.ascii) : string := (Cut s c).1.

(** ** Substrings *)

Lemma Contains_spec s sub : Contains s sub = true <-> exists a b, s = a +:+ sub +:+ b.
Proof.
  revert sub. induction s as [|c s IH]; intros sub; cbn [Contains].
  - rewrite orb_false_r, prefix_spec. split; [intros [r Hr]; by exists "", r|].
    intros (a & b & Hab). destruct a; [|done]. by exists b.
  - rewrite orb_true_iff, prefix_spec, IH. split.
    + intros [[r Hr]|(a & b & ->)]; [by exists "", r|by exists (String c a), b].
    + intros (a & b & Hab). destruct a as [|x a]; [left; by exists b|].
      injection Hab as -> ->. right. eauto.
Qed.

(** The parts around the first occurrence of [sep]: [strings.Cut], and
    [strings.SplitN(s, sep, 2)] where [sep] occurs. *)
Fixpoint cut_string (s sep : string) : option (string * string) :=
  if HasPrefix s sep then Some ("", drop_str (String.length sep) s)
  else match s with
       | EmptyString => None
       | String c r => match cut_string r sep with
                       | Some (a, b) => Some (String c a, b)
                       | None => None
                       end
       end.

Lemma cut_string_sound s sep a b : cut_string s sep = Some (a, b) -> s = a +:+ sep +:+ b.
Proof.
  revert a b. induction s as [|c s IH]; intros a b; cbn [cut_string]; unfold HasPrefix.
  - destruct sep; [|done]. by intros [= <- <-].
  - destruct (String.prefix sep (String c s)) eqn:E.
    + apply prefix_spec in E as [r Hr]. rewrite Hr. intros [= <- <-]. by rewrite drop_str_app.
    + destruct (cut_string s sep) as [[x y]|]; [|done]. intros [= <- <-].
      exact (f_equal (String c) (IH x y eq_refl)).
Qed.

(** A separator that starts with a character the first part lacks is found
    right after that part. *)
Lemma cut_string_first c sep a b :
  no_char c a -> cut_string (a +:+ String c sep +:+ b) (String c sep) = Some (a, b).
Proof.
  induction a as [|x a IH]; intros Ha.
  - pose proof (HasPrefix_app (String c sep) b) as Hp. pose proof (drop_str_app (String c sep) b) as Hd.
    change (String c sep +:+ b) with (String c (sep +:+ b)) in *.
    change ("" +:+ String c (sep +:+ b)) with (String c (sep +:+ b)). cbn [cut_string].
    by rewrite Hp, Hd.
  - inversion Ha as [|? ? Hx Ha']; subst.
    change (String x a +:+ String c sep +:+ b) with (String x (a +:+ String c sep +:+ b)).
    cbn [cut_string]. unfold HasPrefix. cbn [String.prefix].
    destruct (Ascii.ascii_dec c x) as [->|_]; [done|]. by rewrite IH.
Qed.

Lemma Cut_first c a b : no_char c a -> Cut (a +:+ String c b) c = (a, Some b).
Proof.
  induction a as [|x a IH]; intros Ha.
  - change ("" +:+ String c b) with (String c b). cbn [Cut]. by rewrite Ascii.eqb_refl.
  - inversion Ha as [|? ? Hx Ha']; subst.
    change (String x a +:+ String c b) with (String x (a +:+ String c b)). cbn [Cut]. destruct (Ascii.eqb_spec x c) as [->|_]; [done|].
    by rewrite IH.
Qed.

Lemma no_char_app c a b : no_char c (a +:+ b) <-> no_char c a /\ no_char c b.
Proof.
  unfold no_char. induction a as [|x a IH]; [by split; [split; [constructor|]|intros []]|].
  change (String x a +:+ b) with (String x (a +:+ b)). cbn [str_codes].
  rewrite !Forall_cons, IH. tauto.
Qed.

(** Text the quoting leaves as it is. *)
Definition plain_char (c : Ascii.ascii) : bool :=
  let n := code c in (32 <=? n)%N && negb (N.eqb n 127) && negb (N.eqb n 34) && negb (N.eqb n 92).
Fixpoint plain_text (s : string) : bool :=
  match s with "" => true | String c s' => plain_char c && plain_text s' end.

Lemma quote_char_plain c : plain_char c = true -> quote_char c = String c "".
Proof.
  assert (implb (plain_char c) (quote_char c =s String c "") = true) as Hall
    by (revert c; apply forall_ascii; vm_compute; reflexivity).
  intros Hc. rewrite Hc in Hall. by apply eqb_string_true.
Qed.

Lemma quote_body_plain s : plain_text s = true -> quote_body s = s.
Proof.
  induction s as [|c s IH]; cbn; [done|]. intros [Hc Hs]%andb_true_iff.
  by rewrite IH, quote_char_plain.
Qed.

Lemma plain_text_quote s : plain_text s = true -> no_char (Ascii.ascii_of_N 34) s.
Proof.
  induction s as [|c s IH]; cbn; [constructor|]. intros [Hc Hs]%andb_true_iff.
  constructor; [|by apply IH]. unfold plain_char in Hc. intros E. rewrite E in Hc. done.
Qed.

(** ** Trimming is idempotent *)
Lemma str_app_assoc (a b c : string) : (a +:+ b) +:+ c = a +:+ (b +:+ c).
Proof. induction a as [|x a IH]; [done|]. exact (f_equal (String x) IH). Qed.

Lemma str_app_nil_r (a : string) : a +:+ "" = a.
Proof. induction a as [|x a IH]; [done|]. exact (f_equal (String x) IH). Qed.

Lemma take_str_app a b : take_str (String.length a) (a +:+ b) = a.
Proof. induction a as [|c a IH]; [by destruct b|]. exact (f_equal (String c) IH). Qed.

Lemma str_length_app (a b : string) : String.length (a +:+ b) = String.length a + String.length b.
Proof. induction a as [|c a IH]; [done|]. exact (f_equal S IH). Qed.

Lemma rev_app_spec a b : String.rev_app a b = String.rev a +:+ b.
Proof.
  unfold String.rev. revert b. induction a as [|c a IH]; intros b; [done|].
  cbn. rewrite (IH (String c b)), (IH (String c "")), str_app_assoc. done.
Qed.

Lemma str_rev_app (a b : string) : String.rev (a +:+ b) = String.rev b +:+ String.rev a.
Proof.
  induction a as [|c a IH]; [symmetry; apply str_app_nil_r|].
  change (String.rev_app (a +:+ b) (String c "") = String.rev b +:+ String.rev_app a (String c "")).
  by rewrite !rev_app_spec, IH, str_app_assoc.
Qed.

Lemma str_rev_rev (s : string) : String.rev (String.rev s) = s.
Proof.
  induction s as [|c s IH]; [done|].
  change (String.rev (String c s)) with (String.rev_app s (String c "")).
  by rewrite rev_app_spec, str_rev_app, IH.
Qed.

Lemma strip_one_shorter encs s s' :
  Forall (fun enc => enc <> "") encs -> strip_one encs s = Some s' ->
  exists p, s = p +:+ s' /\ String.length s' < String.length s.
Proof.
  induction 1 as [|enc encs Hne _ IH]; cbn; [done|].
  destruct (String.prefix enc s) eqn:E; [|exact IH].
  apply prefix_spec in E as [r ->]. rewrite drop_str_app. intros [= <-].
  exists enc. split; [done|]. rewrite str_length_app. destruct enc; [done|]. cbn. lia.
Qed.

Lemma trim_loop_spec fuel encs s :
  Forall (fun enc => enc <> "") encs -> String.length s <= fuel ->
  (exists p, s = p +:+ trim_loop fuel encs s) /\ strip_one encs (trim_loop fuel encs s) = None.
Proof.
  intros Hencs. revert s. induction fuel as [|n IH]; intros s Hl; cbn.
  - split; [by exists ""|]. destruct (strip_one encs s) as [s'|] eqn:E; [|done].
    destruct (strip_one_shorter _ _ _ Hencs E) as (p & _ & ?). lia.
  - destruct (strip_one encs s) as [s'|] eqn:E; [|split; [by exists ""|done]].
    destruct (strip_one_shorter _ _ _ Hencs E) as (p & -> & ?).
    destruct (IH s' ltac:(lia)) as [[q Hq] Hn]. split; [|done].
    exists (p +:+ q). rewrite str_app_assoc. by f_equal.
Qed.

Lemma trim_loop_done fuel encs s : strip_one encs s = None -> trim_loop fuel encs s = s.
Proof. destruct fuel; cbn; [done|]. by intros ->. Qed.

(** Nothing to strip from a string leaves nothing to strip from its prefixes. *)
Lemma strip_one_prefix encs a b : strip_one encs (a +:+ b) = None -> strip_one encs a = None.
Proof.
  induction encs as [|enc encs IH]; cbn; [done|].
  destruct (String.prefix enc (a +:+ b)) eqn:E; [done|]. intros Hn.
  destruct (String.prefix enc a) eqn:E'; [|by apply IH].
  apply prefix_spec in E' as [r ->]. rewrite str_app_assoc in E.
  assert (String.prefix enc (enc +:+ (r +:+ b)) = true) by (apply prefix_spec; eauto). congruence.
Qed.

Lemma space_encodings_ok :
  Forall (fun enc => enc <> "") space_encodings /\ Forall (fun enc => enc <> "") (map String.rev space_encodings).
Proof. split; repeat constructor; done. Qed.

Lemma str_rev_length s : String.length (String.rev s) = String.length s.
Proof.
  induction s as [|c s IH]; [done|]. unfold String.rev. cbn. rewrite rev_app_spec, str_length_app, IH.
  cbn. lia.
Qed.

Lemma TrimSpace_trimmed s :
  strip_one space_encodings (TrimSpace s) = None /\
  strip_one (map String.rev space_encodings) (String.rev (TrimSpace s)) = None.
Proof.
  unfold TrimSpace, trim_right. destruct space_encodings_ok as [Hl Hr].
  destruct (trim_loop_spec (String.length s) space_encodings s Hl ltac:(lia)) as [_ Hn].
  fold (trim_left s) in Hn. set (t := trim_left s) in *.
  destruct (trim_loop_spec (String.length t) _ (String.rev t) Hr) as [[p Hp] Hn'].
  { rewrite str_rev_length. lia. }
  rewrite str_rev_rev. split; [|done].
  apply (f_equal String.rev) in Hp. rewrite str_rev_rev, str_rev_app in Hp. rewrite Hp in Hn.
  by apply strip_one_prefix in Hn.
Qed.

Lemma TrimSpace_idem s : TrimSpace (TrimSpace s) = TrimSpace s.
Proof.
  destruct (TrimSpace_trimmed s) as [Hl Hr]. set (t := TrimSpace s) in *.
  unfold TrimSpace, trim_left, trim_right. rewrite (trim_loop_done _ _ t Hl).
  rewrite (trim_loop_done _ _ _ Hr). apply str_rev_rev.
Qed.


(** ** Decimal texts and unique decompositions *)

Lemma all_digits_app a b : all_digits (a +:+ b) = all_digits a && all_digits b.
Proof.
  induction a as [|c a IH]; [done|].
  change (String c a +:+ b) with (String c (a +:+ b)). cbn [all_digits]. by rewrite IH, andb_assoc.
Qed.

Lemma digit_char n : (n < 10)%N -> is_digit (pretty_N_char n) = true.
Proof.
  intros Hn. unfold pretty_N_char.
  destruct n as [|[[[[]|[]|]|[[]|[]|]|]|[[[]|[]|]|[[]|[]|]|]|]]; try done; lia.
Qed.

Lemma pretty_go_digits x s : all_digits s = true -> all_digits (pretty_N_go x s) = true.
Proof.
  revert s. induction (N.lt_wf_0 x) as [x _ IH]; intros s Hs.
  destruct (decide (0 < x)%N) as [Hx|Hx].
  - rewrite pretty_N_go_step by done. apply IH; [by apply N.div_lt|]. cbn. rewrite Hs, andb_true_r.
    apply digit_char. by apply N.mod_lt.
  - by replace x with 0%N by lia.
Qed.

Lemma Itoa_digits n : all_digits (Itoa n) = true.
Proof.
  unfold Itoa, pretty, pretty_nat, pretty, pretty_N. case_decide; [done|]. by apply pretty_go_digits.
Qed.

Lemma Atoi_digits d : d <> "" -> all_digits d = true -> (digits_val 0 d <= max_int64)%Z ->
  Atoi d = (digits_val 0 d, true).
Proof.
  intros Hne Hd Hv. unfold Atoi.
  destruct d as [|c d]; [done|]. assert (c <> "-"%char /\ c <> "+"%char) as [Hm Hp].
  { cbn [all_digits] in Hd. apply andb_true_iff in Hd as [Hc _]. split; intros ->; done. }
  assert ((match String c d with String "-" r => (true, r) | String "+" r => (false, r) | _ => (false, String c d) end)
    = (false, String c d)) as -> by (destruct c as [[] [] [] [] [] [] [] []]; congruence).
  rewrite Hd. cbn [String.eqb negb orb]. destruct (Z.ltb_spec max_int64 (digits_val 0 (String c d))); [lia|done].
Qed.

Lemma digit_char_val n : (n < 10)%N -> (code (pretty_N_char n) - 48)%N = n.
Proof.
  intros Hn. unfold pretty_N_char.
  destruct n as [|[[[[]|[]|]|[[]|[]|]|]|[[[]|[]|]|[[]|[]|]|]|]]; try done; lia.
Qed.

Lemma pretty_go_val x s : digits_val 0 (pretty_N_go x s) = digits_val (Z.of_N x) s.
Proof.
  revert s. induction (N.lt_wf_0 x) as [x _ IH]; intros s.
  destruct (decide (0 < x)%N) as [Hx|Hx]; [|by replace x with 0%N by lia].
  rewrite pretty_N_go_step by done. rewrite IH by (by apply N.div_lt). cbn [digits_val].
  rewrite digit_char_val by (by apply N.mod_lt). f_equal.
  rewrite (N.div_mod x 10) at 3 by done. lia.
Qed.

(** A positive number printed by [strconv.Itoa] reads back. *)
Lemma Atoi_pretty p : (Zpos p <= max_int64)%Z -> Atoi (pretty (Zpos p)) = (Zpos p, true).
Proof.
  intros Hp. change (pretty (Zpos p)) with (pretty (Npos p)). unfold pretty, pretty_N.
  rewrite decide_False by done. assert (Hv : digits_val 0 (pretty_N_go (Npos p) "") = Zpos p) by apply pretty_go_val.
  rewrite Atoi_digits; [by rewrite Hv|..].
  - intros E. rewrite E in Hv. done.
  - by apply pretty_go_digits.
  - by rewrite Hv.
Qed.

Lemma digits_no_char c s : is_digit c = false -> all_digits s = true -> no_char c s.
Proof.
  intros Hc. induction s as [|x s IH]; cbn; [constructor|]. intros [Hx Hs]%andb_true_iff.
  constructor; [|by apply IH]. intros E%code_inj. congruence.
Qed.

(** Around a character that occurs once. *)
Lemma unique_split c a b p q :
  a +:+ String c b = p +:+ String c q -> no_char c p -> no_char c q -> a = p /\ b = q.
Proof.
  revert a. induction p as [|x p IH]; intros a Heq Hp Hq.
  - change ("" +:+ String c q) with (String c q) in Heq. destruct a as [|y a].
    + by injection Heq as ->.
    + injection Heq as -> <-. apply no_char_app in Hq as [_ Hq]. by inversion Hq.
  - inversion Hp as [|? ? Hx Hp']; subst.
    change (String x p +:+ String c q) with (String x (p +:+ String c q)) in Heq.
    destruct a as [|y a]; [by injection Heq as -> _|].
    change (String y a +:+ String c b) with (String y (a +:+ String c b)) in Heq.
    injection Heq as -> Heq. destruct (IH a Heq Hp' Hq) as [-> ->]. done.
Qed.

Lemma rev_cons c s : String.rev (String c s) = String.rev s +:+ String c "".
Proof. change (String.rev (String c s)) with (String.rev_app s (String c "")). apply rev_app_spec. Qed.

Lemma no_char_rev c s : no_char c s -> no_char c (String.rev s).
Proof.
  induction s as [|x s IH]; [done|]. intros Hs. rewrite rev_cons. apply no_char_app.
  inversion Hs; subst. split; [auto|]. constructor; [done|constructor].
Qed.

(** After the last occurrence of a character. *)
Lemma last_split c a x b y :
  a +:+ String c x = b +:+ String c y -> no_char c x -> no_char c y -> x = y.
Proof.
  intros Heq Hx Hy. apply (f_equal String.rev) in Heq. rewrite !str_rev_app, !rev_cons, !str_app_assoc in Heq.
  apply (f_equal (fun s => (Cut s c).1)) in Heq.
  change (String c "" +:+ String.rev a) with (String c (String.rev a)) in Heq.
  change (String c "" +:+ String.rev b) with (String c (String.rev b)) in Heq.
  rewrite !Cut_first in Heq by by apply no_char_rev. cbn [fst] in Heq.
  apply (f_equal String.rev) in Heq. by rewrite !str_rev_rev in Heq.
Qed.

(** ** Prefixes, suffixes, and the parts of a text *)

Lemma HasPrefix_iff s p : HasPrefix s p = true <-> exists r, s = p +:+ r.
Proof. apply prefix_spec. Qed.

Lemma HasSuffix_iff s p : HasSuffix s p = true <-> exists r, s = r +:+ p.
Proof.
  unfold HasSuffix. rewrite prefix_spec. split.
  - intros [r Hr]. exists (String.rev r). apply (f_equal String.rev) in Hr.
    by rewrite str_rev_rev, str_rev_app, str_rev_rev in Hr.
  - intros [r ->]. exists (String.rev r). apply str_rev_app.
Qed.

Lemma Split_app c a b : no_char c a -> Split (a +:+ String c b) c = a :: Split b c.
Proof.
  unfold no_char. induction a as [|x a IH]; simpl.
  - intros _. by rewrite Ascii.eqb_refl.
  - intros [Hx Ha]%Forall_cons. destruct (Ascii.eqb x c) eqn:E.
    + apply Ascii.eqb_eq in E as ->. done.
    + by rewrite (IH Ha).
Qed.

Lemma Join_cons c a b l :
  Join (String c "") (a :: b :: l) = a +:+ String c (Join (String c "") (b :: l)).
Proof. reflexivity. Qed.

Lemma Split_Join c l : l <> [] -> Forall (no_char c) l -> Split (Join (String c "") l) c = l.
Proof.
  intros Hne Hl. induction Hl as [|a [|b l] Ha Hl IH]; [done| |].
  - unfold Join. simpl. by apply Split_single.
  - rewrite Join_cons, Split_app by done. f_equal. by apply IH.
Qed.

Lemma Split_no_char c s : Forall (no_char c) (Split s c).
Proof.
  induction s as [|x s IH]; cbn [Split]; [repeat constructor|].
  destruct (Ascii.eqb_spec x c) as [->|Hx]; [by constructor; [constructor|]|].
  destruct IH as [|p l Hp Hl]; (constructor; [constructor; [by intros E%code_inj|]|]); done || constructor.
Qed.

Lemma no_char_Contains c s : no_char c s <-> Contains s (String c "") = false.
Proof.
  unfold no_char. induction s as [|x s IH]; cbn [str_codes Contains]; [by split; [|constructor]|].
  rewrite Forall_cons, IH, orb_false_iff. split; intros [Hx Hs]; (split; [|done]).
  - cbn. destruct (Ascii.ascii_dec c x) as [->|]; [done|by destruct s].
  - intros E%code_inj. subst. cbn in Hx. destruct (Ascii.ascii_dec c c); [by destruct s|done].
Qed.

Lemma no_char_ContainsAny c chars s :
  ContainsAny s chars = false -> code c ∈ chars -> no_char c s.
Proof.
  intros Hs Hc. unfold no_char. induction s as [|x s IH]; cbn in *; [constructor|].
  apply orb_false_iff in Hs as [Hx Hs]. constructor; [|auto]. intros E. rewrite E in Hx.
  apply not_true_iff_false in Hx. apply Hx, existsb_exists. exists (code c).
  rewrite <-list_elem_of_In. split; [done|apply N.eqb_refl].
Qed.

Lemma map_str_app f a b : map_str f (a +:+ b) = map_str f a +:+ map_str f b.
Proof. induction a as [|c a IH]; [done|]. exact (f_equal (String (f c)) IH). Qed.

(** A prefix without some character ends before that character. *)
Lemma prefix_before c x y p : no_char c p -> HasPrefix (x +:+ String c y) p = true -> HasPrefix x p = true.
Proof.
  rewrite !HasPrefix_iff. revert p. induction x as [|d x IH]; intros [|e p] Hp [r Hr].
  - by exists "".
  - injection Hr as <- _. by inversion Hp.
  - by exists (String d x).
  - inversion Hp; subst. injection Hr as <- Hr. destruct (IH p ltac:(done)) as [r' ->]; [by exists r|].
    by exists r'.
Qed.
