(* ===== verification/Regex.v ===== *)
(** * Regular expressions (Go's regexp)

    The expressions the sources compile, as data, with the leftmost-first search
    of the regexp package on bytes: an alternative is tried before the one to its
    right, a greedy repetition prefers one more turn. A declarative relation gives
    the meaning of an expression; the search finds a match exactly when there is
    one. *)

From S2P Require Import Prelude GoString.

Module Regex.

(** One byte of a class, the anchors [^] and [$], and numbered groups. *)
Inductive re :=
| Empty
| Byte (p : Ascii.ascii -> bool)
| Seq (a b : re)
| Alt (a b : re)
| Star (greedy : bool) (a : re)
| Group (n : nat) (a : re)
| Bol
| Eol.

(** A position in the text: what has been read, what is left, the groups. *)
Record st := mkSt { s_pos : nat; s_rest : string; s_caps : list (nat * string) }.

Definition orelse {A} (x y : option A) : option A := match x with Some _ => x | None => y end.
Definition end_group (n : nat) (s s' : st) : st :=
  mkSt (s_pos s') (s_rest s') ((n, take_str (s_pos s' - s_pos s) (s_rest s)) :: s_caps s').

(** The turns of a repetition; an empty turn ends it. *)
Fixpoint turns (body : (st -> option st) -> st -> option st) (greedy : bool)
  (k : st -> option st) (fuel : nat) (s : st) : option st :=
  match fuel with
  | O => k s
  | S fuel =>
      let more := body (fun s' => if Nat.ltb (s_pos s) (s_pos s') then turns body greedy k fuel s'
                                  else None) s in
      if greedy then orelse more (k s) else orelse (k s) more
  end.

Fixpoint run (r : re) (k : st -> option st) (s : st) : option st :=
  match r with
  | Empty => k s
  | Byte p => match s_rest s with
              | "" => None
              | String c rest => if p c then k (mkSt (S (s_pos s)) rest (s_caps s)) else None
              end
  | Seq a b => run a (run b k) s
  | Alt a b => orelse (run a k s) (run b k s)
  | Star greedy a => turns (run a) greedy k (String.length (s_rest s)) s
  | Group n a => run a (fun s' => k (end_group n s s')) s
  | Bol => if Nat.eqb (s_pos s) 0 then k s else None
  | Eol => if s_rest s =s "" then k s else None
  end.

(** ** What an expression matches *)

Inductive Match : re -> st -> st -> Prop :=
| M_empty s : Match Empty s s
| M_byte p pos c rest caps : p c = true ->
    Match (Byte p) (mkSt pos (String c rest) caps) (mkSt (S pos) rest caps)
| M_seq a b s s1 s2 : Match a s s1 -> Match b s1 s2 -> Match (Seq a b) s s2
| M_left a b s s' : Match a s s' -> Match (Alt a b) s s'
| M_right a b s s' : Match b s s' -> Match (Alt a b) s s'
| M_stop g a s : Match (Star g a) s s
| M_turn g a s s1 s2 : Match a s s1 -> s_pos s < s_pos s1 -> Match (Star g a) s1 s2 ->
    Match (Star g a) s s2
| M_group n a s s' : Match a s s' -> Match (Group n a) s (end_group n s s')
| M_bol rest caps : Match Bol (mkSt 0 rest caps) (mkSt 0 rest caps)
| M_eol pos caps : Match Eol (mkSt pos "" caps) (mkSt pos "" caps).

Lemma orelse_Some {A} (x y : option A) z : orelse x y = Some z -> x = Some z \/ y = Some z.
Proof. destruct x; simpl; auto. Qed.

Lemma orelse_is_Some {A} (x y : option A) : is_Some x \/ is_Some y -> is_Some (orelse x y).
Proof. destruct x; simpl; [eauto|]. by intros [[? [=]]|]. Qed.

Definition Sound (r : re) : Prop := forall k s z, run r k s = Some z ->
  exists s', Match r s s' /\ k s' = Some z.
Definition Complete (r : re) : Prop := forall k s s', Match r s s' -> is_Some (k s') ->
  is_Some (run r k s).

Lemma turns_sound g a : Sound a -> forall fuel k s z, turns (run a) g k fuel s = Some z ->
  exists s', Match (Star g a) s s' /\ k s' = Some z.
Proof.
  intros Ha. induction fuel as [|fuel IH]; intros k s z; simpl; [eauto using M_stop|]. intros H.
  assert (k s = Some z \/
    run a (fun s' => if Nat.ltb (s_pos s) (s_pos s') then turns (run a) g k fuel s' else None) s
      = Some z) as [Hk|Hm] by (destruct g; apply orelse_Some in H; tauto); [eauto using M_stop|].
  apply Ha in Hm as (s1 & H1 & Hk). destruct (Nat.ltb_spec (s_pos s) (s_pos s1)); [|done].
  apply IH in Hk as (s2 & H2 & Hk). eauto using M_turn.
Qed.

Lemma run_sound r : Sound r.
Proof.
  unfold Sound. induction r as [|p|a IHa b IHb|a IHa b IHb|g a IHa|n a IHa| |]; intros k s z; simpl.
  - eauto using M_empty.
  - destruct s as [pos [|c rest] caps]; simpl; [done|]. destruct (p c) eqn:E; [|done].
    eauto using M_byte.
  - intros (s1 & H1 & Hk)%IHa. apply IHb in Hk as (s2 & H2 & Hk). eauto using M_seq.
  - intros [H|H]%orelse_Some; [apply IHa in H|apply IHb in H]; destruct H as (s' & ? & ?);
      eauto using M_left, M_right.
  - by apply turns_sound.
  - intros (s' & H & Hk)%IHa. eauto using M_group.
  - destruct s as [[|pos] rest caps]; simpl; [|done]. eauto using M_bol.
  - destruct s as [pos [|c rest] caps]; simpl; [|done]. eauto using M_eol.
Qed.

(** A match reads a prefix of what is left. *)
Lemma match_reads r s s' : Match r s s' ->
  exists w, s_rest s = w +:+ s_rest s' /\ s_pos s' = s_pos s + String.length w.
Proof.
  induction 1 as [|? ? c| ? ? ? ? ? _ (w1 & E1 & P1) _ (w2 & E2 & P2)| | |
    |? ? ? ? ? _ (w1 & E1 & P1) _ _ (w2 & E2 & P2)| | |];
    try (exists ""; simpl; split; [done|lia]); try done.
  - exists (String c ""). simpl. split; [done|lia].
  - exists (w1 +:+ w2). rewrite E1, E2, str_app_assoc, str_length_app. split; [done|lia].
  - exists (w1 +:+ w2). rewrite E1, E2, str_app_assoc, str_length_app. split; [done|lia].
Qed.

Lemma match_shrinks r s s' : Match r s s' -> s_pos s < s_pos s' ->
  String.length (s_rest s') < String.length (s_rest s).
Proof. intros (w & E & P)%match_reads. rewrite E, str_length_app. lia. Qed.

Lemma turns_complete g a : Complete a -> forall fuel k s s',
  String.length (s_rest s) <= fuel -> Match (Star g a) s s' -> is_Some (k s') ->
  is_Some (turns (run a) g k fuel s).
Proof.
  intros Ha. induction fuel as [|fuel IH]; intros k s s' Hf Hm Hk;
    inversion Hm as [| | | | |? ? t|? ? ? s1 ? H1 Hp H2| | |]; subst; simpl.
  - done.
  - pose proof (match_shrinks _ _ _ H1 Hp). lia.
  - destruct g; apply orelse_is_Some; auto.
  - enough (is_Some (run a (fun s' => if Nat.ltb (s_pos s) (s_pos s')
        then turns (run a) g k fuel s' else None) s)) by (destruct g; apply orelse_is_Some; auto).
    apply (Ha _ _ s1 H1). destruct (Nat.ltb_spec (s_pos s) (s_pos s1)); [|lia].
    apply (IH k s1 s'); [|done..]. pose proof (match_shrinks _ _ _ H1 Hp). lia.
Qed.

Lemma run_complete r : Complete r.
Proof.
  unfold Complete.
  induction r as [|p|a IHa b IHb|a IHa b IHb|g a IHa|n a IHa| |]; intros k s s' Hm Hk; simpl.
  5: by apply (turns_complete g a IHa _ _ _ s').
  all: inversion Hm as [|? ? ? ? ? Hp| | | | | | | |]; subst; simpl; eauto.
  - by rewrite Hp.
  - apply orelse_is_Some; eauto.
  - apply orelse_is_Some; eauto.
Qed.

(** ** The search *)

Definition match_at (r : re) (pos : nat) (s : string) : option st := run r Some (mkSt pos s []).

(** The leftmost match of the text at [pos]: what precedes it, and its end. *)
Fixpoint find (r : re) (pos : nat) (s : string) : option (string * st) :=
  match match_at r pos s with
  | Some z => Some ("", z)
  | None => match s with
            | "" => None
            | String c s' => match find r (S pos) s' with
                             | Some (pre, z) => Some (String c pre, z)
                             | None => None
                             end
            end
  end.

Definition MatchString (r : re) (s : string) : bool := bool_decide (is_Some (find r 0 s)).
Definition group (n : nat) (caps : list (nat * string)) : string :=
  match List.find (fun c => Nat.eqb c.1 n) caps with Some c => c.2 | None => "" end.
(** The groups of the leftmost match. *)
Definition FindStringSubmatch (r : re) (s : string) : option (list (nat * string)) :=
  match find r 0 s with Some (_, z) => Some (s_caps z) | None => None end.

(** [ReplaceAllString], for expressions that match no empty text. *)
Fixpoint replace_all (fuel : nat) (r : re) (sub : list (nat * string) -> string) (pos : nat) (s : string)
  : string :=
  match fuel with
  | O => s
  | S fuel => match find r pos s with
              | None => s
              | Some (pre, z) => pre +:+ sub (s_caps z) +:+ replace_all fuel r sub (s_pos z) (s_rest z)
              end
  end.
Definition ReplaceAllString (r : re) (s : string) (sub : list (nat * string) -> string) : string :=
  replace_all (S (String.length s)) r sub 0 s.

Lemma match_at_None r pos s : match_at r pos s = None <-> forall z, ~ Match r (mkSt pos s []) z.
Proof.
  unfold match_at. split.
  - intros H z Hm. destruct (run_complete r Some _ z Hm ltac:(eauto)) as [x Hx]. congruence.
  - intros H. destruct (run r Some _) as [z|] eqn:E; [|done].
    apply run_sound in E as (s' & Hm & _). by destruct (H s').
Qed.

(** The search fails exactly when no position of the text has a match. *)
Lemma find_None r pos s : find r pos s = None <->
  forall a b, s = a +:+ b -> match_at r (pos + String.length a) b = None.
Proof.
  revert pos. induction s as [|c s IH]; intros pos; cbn [find].
  - destruct (match_at r pos "") eqn:E; split; try done.
    + intros H. specialize (H "" "" eq_refl). rewrite Nat.add_0_r in H. congruence.
    + intros _ [|? ?] [|? ?] [=]. by rewrite Nat.add_0_r.
  - destruct (match_at r pos (String c s)) eqn:E.
    + split; [done|]. intros H. specialize (H "" _ eq_refl). rewrite Nat.add_0_r in H. congruence.
    + specialize (IH (S pos)). destruct (find r (S pos) s) as [[? ?]|] eqn:F.
      * split; [done|]. intros H. destruct IH as [_ IH]. ospecialize (IH _); [|done].
        intros a b ->. specialize (H (String c a) b eq_refl). cbn in H. by rewrite <-plus_n_Sm in H.
      * split; [|done]. intros _ [|x a] b Hs; [change (String c s = b) in Hs; subst b; by rewrite Nat.add_0_r|].
        injection Hs as <- Hs. destruct IH as [IH _]. specialize (IH eq_refl a b Hs). cbn.
        by rewrite <-plus_n_Sm.
Qed.

Lemma find_Some r pos s pre z : find r pos s = Some (pre, z) ->
  exists b, s = pre +:+ b /\ match_at r (pos + String.length pre) b = Some z /\
    forall a d c, pre = a +:+ String c d -> match_at r (pos + String.length a) (String c d +:+ b) = None.
Proof.
  revert pos pre. induction s as [|c s IH]; intros pos pre; cbn [find].
  - destruct (match_at r pos "") eqn:E; [|done]. intros [= <- <-]. exists "". rewrite Nat.add_0_r.
    split_and!; [done..|]. by intros [|? ?].
  - destruct (match_at r pos (String c s)) eqn:E.
    + intros [= <- <-]. exists (String c s). rewrite Nat.add_0_r. split_and!; [done..|]. by intros [|? ?].
    + destruct (find r (S pos) s) as [[q y]|] eqn:F; [|done]. intros [= <- <-].
      apply IH in F as (b & -> & Hm & Hno). exists b. cbn. rewrite <-plus_n_Sm.
      split_and!; [done..|]. intros [|x a] d c' [= <- Hq]; [subst; by rewrite Nat.add_0_r|].
      cbn. rewrite <-plus_n_Sm. by apply (Hno a d c').
Qed.

(** ** Writing expressions *)

Definition one (c : Ascii.ascii) : re := Byte (Ascii.eqb c).
Fixpoint lit (s : string) : re :=
  match s with "" => Empty | String c s' => Seq (one c) (lit s') end.
(** A letter under [(?i)]: the long s and the Kelvin sign fold to s and k. *)
Definition fold (c : Ascii.ascii) : re :=
  let ascii := Byte (fun d => Ascii.eqb (lower_char c) (lower_char d)) in
  if Ascii.eqb (lower_char c) "s"%char then Alt ascii (lit (bytes [197; 191]%N))
  else if Ascii.eqb (lower_char c) "k"%char then Alt ascii (lit (bytes [226; 132; 170]%N))
  else ascii.
Fixpoint ilit (s : string) : re :=
  match s with "" => Empty | String c s' => Seq (fold c) (ilit s') end.
Definition star := Star true.
Definition plus (r : re) : re := Seq r (star r).
Definition opt (r : re) : re := Alt r Empty.
Fixpoint alts (l : list re) : re :=
  match l with [] => Byte (fun _ => false) | [r] => r | r :: l => Alt r (alts l) end.
Fixpoint seqs (l : list re) : re := match l with [] => Empty | r :: l => Seq r (seqs l) end.
Fixpoint times (n : nat) (r : re) : re := match n with O => Empty | S n => Seq r (times n r) end.

Definition in_set (l : list N) (c : Ascii.ascii) : bool := existsb (N.eqb (code c)) l.
Definition in_range (a b : N) (c : Ascii.ascii) : bool := ((a <=? code c) && (code c <=? b))%N.
(** [\s]. *)
Definition re_space : Ascii.ascii -> bool := in_set [9; 10; 12; 13; 32]%N.
Definition lower_letter : Ascii.ascii -> bool := in_range 97 122.
Definition upper_letter : Ascii.ascii -> bool := in_range 65 90.
Definition letter (c : Ascii.ascii) : bool := lower_letter c || upper_letter c.

Fixpoint all_chars (p : Ascii.ascii -> bool) (s : string) : bool :=
  match s with "" => true | String c s' => p c && all_chars p s' end.

Lemma all_chars_app p a b : all_chars p (a +:+ b) = all_chars p a && all_chars p b.
Proof.
  induction a as [|c a IH]; [done|]. change (String c a +:+ b) with (String c (a +:+ b)).
  cbn [all_chars]. by rewrite IH, andb_assoc.
Qed.

Lemma all_chars_no_char p c s : all_chars p s = true -> p c = false -> no_char c s.
Proof.
  intros Hs Hc. unfold no_char. induction s as [|d s IH]; cbn in *; [constructor|].
  apply andb_true_iff in Hs as [Hd Hs]. constructor; [|auto]. intros E%code_inj. congruence.
Qed.

Lemma match_byte p s s' : Match (Byte p) s s' ->
  exists c, s_rest s = String c (s_rest s') /\ p c = true.
Proof. inversion 1; subst. eauto. Qed.

Lemma match_star_bytes g p s s' : Match (Star g (Byte p)) s s' ->
  exists w, s_rest s = w +:+ s_rest s' /\ all_chars p w = true.
Proof.
  remember (Star g (Byte p)) as r eqn:Er. induction 1; try discriminate.
  - by exists "".
  - injection Er as -> ->. destruct IHMatch2 as (w & Ew & Hw); [done|].
    destruct (match_byte _ _ _ H) as (c & Ec & Hc). exists (String c w). cbn. by rewrite Ec, Ew, Hc.
Qed.

Lemma match_plus_bytes p s s' : Match (plus (Byte p)) s s' ->
  exists c w, s_rest s = String c w +:+ s_rest s' /\ all_chars p (String c w) = true.
Proof.
  inversion 1; subst. destruct (match_byte _ _ _ ltac:(eassumption)) as (c & Ec & Hc).
  destruct (match_star_bytes _ _ _ _ ltac:(eassumption)) as (w & Ew & Hw).
  exists c, w. cbn. by rewrite Ec, Ew, Hc.
Qed.

Lemma match_times_bytes n p s s' : Match (times n (Byte p)) s s' ->
  exists w, s_rest s = w +:+ s_rest s' /\ all_chars p w = true /\ String.length w = n.
Proof.
  revert s. induction n as [|n IH]; intros s; cbn; inversion 1; subst; [by exists ""|].
  destruct (match_byte _ _ _ ltac:(eassumption)) as (c & Ec & Hc).
  destruct (IH _ ltac:(eassumption)) as (w & Ew & Hw & Hn).
  exists (String c w). cbn. by rewrite Ec, Ew, Hc, Hn.
Qed.

(** The bytes of a class take the longest run there is. *)
Lemma star_bytes_matches g p w pos rest caps : all_chars p w = true ->
  Match (Star g (Byte p)) (mkSt pos (w +:+ rest) caps) (mkSt (pos + String.length w) rest caps).
Proof.
  revert pos. induction w as [|c w IH]; intros pos; cbn.
  - intros _. rewrite Nat.add_0_r. constructor.
  - intros [Hc Hw]%andb_true_iff. rewrite <-plus_n_Sm.
    refine (M_turn g _ _ (mkSt (S pos) (w +:+ rest) caps) _ _ _ (IH (S pos) Hw)); cbn; [by constructor|lia].
Qed.

(** A greedy run of bytes stops at the first byte outside the class. *)
Definition stops (p : Ascii.ascii -> bool) (s : string) : Prop :=
  match s with "" => True | String c _ => p c = false end.

Lemma turns_S body k fuel s : turns body true k (S fuel) s =
  orelse (body (fun s' => if Nat.ltb (s_pos s) (s_pos s') then turns body true k fuel s' else None) s) (k s).
Proof. reflexivity. Qed.

Lemma run_byte p k pos c rest caps : run (Byte p) k (mkSt pos (String c rest) caps) =
  if p c then k (mkSt (S pos) rest caps) else None.
Proof. reflexivity. Qed.

Lemma turns_run p k w rest pos caps fuel z : all_chars p w = true -> stops p rest ->
  String.length w <= fuel -> k (mkSt (pos + String.length w) rest caps) = Some z ->
  turns (run (Byte p)) true k fuel (mkSt pos (w +:+ rest) caps) = Some z.
Proof.
  revert pos fuel. induction w as [|c w IH]; intros pos fuel Hw Hr Hf Hk.
  - change ("" +:+ rest) with rest. cbn in Hk. rewrite Nat.add_0_r in Hk.
    destruct fuel as [|fuel]; [done|]. cbn. destruct rest as [|c rest]; [by cbn|].
    cbn in Hr. cbn. by rewrite Hr.
  - destruct fuel as [|fuel]; [cbn in Hf; lia|]. change (String c w +:+ rest) with (String c (w +:+ rest)).
    cbn [all_chars] in Hw. apply andb_true_iff in Hw as [Hc Hw].
    rewrite turns_S, run_byte, Hc. cbn [s_pos]. rewrite (proj2 (Nat.ltb_lt pos (S pos))) by lia.
    rewrite (IH (S pos) fuel Hw Hr); [done|cbn in Hf; lia|].
    rewrite <-Hk. f_equal. f_equal. cbn. lia.
Qed.

Lemma run_plus p k c w rest pos caps z : all_chars p (String c w) = true -> stops p rest ->
  k (mkSt (pos + String.length (String c w)) rest caps) = Some z ->
  run (plus (Byte p)) k (mkSt pos (String c w +:+ rest) caps) = Some z.
Proof.
  intros Hw Hr Hk. cbn [all_chars] in Hw. apply andb_true_iff in Hw as [Hc Hw].
  change (String c w +:+ rest) with (String c (w +:+ rest)). unfold plus, star.
  change (run (Byte p) (run (Star true (Byte p)) k) (mkSt pos (String c (w +:+ rest)) caps) = Some z).
  rewrite run_byte, Hc. apply turns_run; [done|done|cbn [s_rest]; rewrite str_length_app; lia|].
  rewrite <-Hk. f_equal. f_equal. cbn. lia.
Qed.

(** Text under [(?i)] without the letters that fold outside ASCII. *)
Definition plain_fold (c : Ascii.ascii) : bool :=
  negb (Ascii.eqb (lower_char c) "s") && negb (Ascii.eqb (lower_char c) "k").

Lemma match_ilit t s s' : all_chars plain_fold t = true -> Match (ilit t) s s' ->
  exists w, s_rest s = w +:+ s_rest s' /\ map_str lower_char w = map_str lower_char t.
Proof.
  revert s. induction t as [|c t IH]; intros s; cbn [ilit all_chars]; [inversion 2; subst; by exists ""|].
  intros [Hc Ht]%andb_true_iff. inversion 1; subst. unfold plain_fold in Hc.
  apply andb_true_iff in Hc as [Hs Hk]. apply negb_true_iff in Hs, Hk.
  match goal with Hm : Match (fold c) _ _ |- _ => unfold fold in Hm; rewrite Hs, Hk in Hm;
    apply match_byte in Hm as (d & Ed & Hd) end. apply Ascii.eqb_eq in Hd.
  destruct (IH _ Ht ltac:(eassumption)) as (w & Ew & Hw). exists (String d w).
  cbn [map_str]. by rewrite Ed, Ew, Hd, Hw.
Qed.

(** An expression between [^] and [$] matches the whole text. *)
Lemma anchored r s : MatchString (seqs [Bol; r; Eol]) s = true <->
  exists pos caps, Match r (mkSt 0 s []) (mkSt pos "" caps).
Proof.
  unfold MatchString. rewrite bool_decide_eq_true. split.
  - intros [[pre z] Hf]. apply find_Some in Hf as (b & -> & Hm & _).
    apply run_sound in Hm as (s' & Hm & _). cbn in Hm. inversion Hm as [| |? ? ? ? ? Hb Hr| | | | | | |]; subst.
    inversion Hb; subst. destruct pre; [|done]. inversion Hr as [| |? ? ? ? ? Hm1 He| | | | | | |]; subst.
    inversion He as [| |? ? ? ? ? He1 _| | | | | | |]; subst. inversion He1; subst. eauto.
  - intros (pos & caps & Hm). destruct (find _ 0 s) as [x|] eqn:E; [eauto|].
    rewrite find_None in E. specialize (E "" s eq_refl). rewrite match_at_None in E.
    destruct (E (mkSt pos "" caps)). cbn. repeat econstructor. exact Hm.
Qed.

Lemma anchored_plus p s : MatchString (seqs [Bol; plus (Byte p); Eol]) s = true <->
  s <> "" /\ all_chars p s = true.
Proof.
  rewrite anchored. split.
  - intros (pos & caps & (c & w & E & Hw)%match_plus_bytes). cbn [s_rest] in E.
    rewrite str_app_nil_r in E. by subst.
  - destruct s as [|c s]; [by intros []|]. cbn [all_chars]. intros [_ [Hc Hs]%andb_true_iff].
    exists (1 + String.length s), []. econstructor; [by constructor|].
    pose proof (star_bytes_matches true p s 1 "" [] Hs) as Hm. by rewrite str_app_nil_r in Hm.
Qed.

Lemma anchored_times n p s : MatchString (seqs [Bol; times n (Byte p); Eol]) s = true ->
  String.length s = n /\ all_chars p s = true.
Proof.
  rewrite anchored. intros (pos & caps & (w & E & Hw & Hn)%match_times_bytes). cbn [s_rest] in E.
  rewrite str_app_nil_r in E. by subst.
Qed.

End Regex.
