(* ===== verification/Version.v ===== *)
(** * Semantic version comparison (internal/version/version.go)

    The parser and the three-way comparison used by the alert engine, the fleet
    report and the compatibility matrix. The reference definition is the
    precedence order of the semantic-versioning text, written with the generic
    comparisons of the prelude; the theorems show that the code computes it and
    that it is a total preorder on the versions it accepts. *)

From S2P Require Import Prelude GoString.

Module Version.
Local Open Scope Z_scope.

(* src/internal/version/version.go:9-14 semver *)
Record semver := mkSemver {
  major : Z; minor : Z; patch : Z; pre : list string
}.

(* src/internal/version/version.go:133-142 sign *)
Definition sign (n : Z) : Z := if n <? 0 then -1 else if 0 <? n then 1 else 0.

(* src/internal/version/version.go:82-93 parseNumber *)
Definition parseNumber (s : string) : option Z :=
  if s =s "" then None
  else if negb (all_digits s) then None
  else let '(n, ok) := Atoi s in if ok then Some n else None.

(* src/internal/version/version.go:129-131 numericIdentifier *)
Definition numericIdentifier (s : string) : option Z := parseNumber s.

(* src/internal/version/version.go:40-80 parse *)
Definition parse (s : string) : option semver :=
  let s := TrimSpace s in
  if s =s "" then None else
  let s := TrimPrefix s "v" in
  let s := fst (Cut s "+"%char) in
  let '(s, dash) := Cut s "-"%char in
  let pre := default "" dash in
  match Split s "."%char with
  | [p0; p1; p2] =>
      major ← parseNumber p0;
      minor ← parseNumber p1;
      patch ← parseNumber p2;
      if pre =s "" then Some (mkSemver major minor patch [])
      else
        let preParts := Split pre "."%char in
        if existsb (fun p => p =s "") preParts then None
        else Some (mkSemver major minor patch preParts)
  | _ => None
  end.

(** The [for i := 0; i < limit; i++] loop; [None] when it falls through. *)
(* src/internal/version/version.go:105-125 comparePrerelease *)
Fixpoint prereleaseLoop (a b : list string) : option Z :=
  match a, b with
  | x :: a', y :: b' =>
      match numericIdentifier x, numericIdentifier y with
      | Some ai, Some bi =>
          if negb (ai =? bi) then Some (sign (wrap64 (ai - bi))) else prereleaseLoop a' b'
      | Some _, None => Some (-1)
      | None, Some _ => Some 1
      | None, None =>
          if x <>s y then Some (if x <s y then -1 else 1) else prereleaseLoop a' b'
      end
  | _, _ => None
  end.

(* src/internal/version/version.go:95-127 comparePrerelease *)
Definition comparePrerelease (a b : list string) : Z :=
  match a, b with
  | [], [] => 0
  | [], _ => 1
  | _, [] => -1
  | _, _ =>
      match prereleaseLoop a b with
      | Some c => c
      | None => sign (Z.of_nat (length a) - Z.of_nat (length b))
      end
  end.

(** [None] is [ok = false]. *)
(* src/internal/version/version.go:16-38 Compare *)
Definition Compare (a b : string) : option Z :=
  av ← parse a;
  bv ← parse b;
  if negb (major av =? major bv) then Some (sign (wrap64 (major av - major bv)))
  else if negb (minor av =? minor bv) then Some (sign (wrap64 (minor av - minor bv)))
  else if negb (patch av =? patch bv) then Some (sign (wrap64 (patch av - patch bv)))
  else Some (comparePrerelease (pre av) (pre bv)).

(** ** Reference: the precedence order *)

(** A numeric identifier sorts by value and before any alphanumeric one. *)
Definition id_cmp (x y : string) : comparison :=
  match parseNumber x, parseNumber y with
  | Some n, Some m => n ?= m
  | Some _, None => Lt
  | None, Some _ => Gt
  | None, None => str_cmp x y
  end.

(** A version without a pre-release part comes after those that have one. *)
Definition pre_cmp (a b : list string) : comparison :=
  match a, b with
  | [], [] => Eq
  | [], _ => Gt
  | _, [] => Lt
  | _, _ => list_cmp id_cmp a b
  end.

Definition semver_cmp : semver -> semver -> comparison :=
  lex_cmp (by_key major Z.compare)
    (lex_cmp (by_key minor Z.compare)
      (lex_cmp (by_key patch Z.compare) (by_key pre pre_cmp))).

Definition Z_of_cmp (c : comparison) : Z :=
  match c with Lt => -1 | Eq => 0 | Gt => 1 end.

Global Instance id_cmp_total : TotalCmp id_cmp.
Proof.
  unfold id_cmp. split.
  - intros x y. destruct (parseNumber x), (parseNumber y); try done.
    + apply Z_compare_total.
    + apply str_cmp_total.
  - intros x y z.
    destruct (parseNumber x), (parseNumber y), (parseNumber z); try done.
    + apply Z_compare_total.
    + apply str_cmp_total.
  - intros x y z.
    destruct (parseNumber x), (parseNumber y), (parseNumber z); try done.
    + apply Z_compare_total.
    + apply str_cmp_total.
Qed.

Global Instance pre_cmp_total : TotalCmp pre_cmp.
Proof.
  unfold pre_cmp. split.
  - intros [|x l] [|y k]; try done. apply list_cmp_total, _.
  - intros [|x l] [|y k] [|z m]; try done. apply list_cmp_total, _.
  - intros [|x l] [|y k] [|z m]; try done.
    apply list_cmp_total, _.
Qed.

Global Instance semver_cmp_total : TotalCmp semver_cmp.
Proof. apply _. Qed.

(** ** The numbers the parser accepts fit an [int] *)

Lemma parseNumber_range s n : parseNumber s = Some n -> 0 <= n <= max_int64.
Proof.
  unfold parseNumber, Atoi. intros H.
  destruct (s =s "") eqn:E0; [done|]. destruct (all_digits s) eqn:E1; simpl in H; [|done].
  assert (match s with String "-"%char r => (true, r) | String "+"%char r => (false, r)
          | _ => (false, s) end = (false, s)) as Hsign.
  { destruct s as [|c s]; [done|]. simpl in E1. apply andb_true_iff in E1 as [E1 _].
    destruct c as [[] [] [] [] [] [] [] []]; done. }
  rewrite Hsign, E0, E1 in H. simpl in H.
  pose proof (digits_val_nonneg 0 s ltac:(lia)).
  destruct (max_int64 <? digits_val 0 s) eqn:E; simplify_eq. apply Z.ltb_ge in E. lia.
Qed.

Definition valid (v : semver) : Prop :=
  0 <= major v <= max_int64 /\ 0 <= minor v <= max_int64 /\ 0 <= patch v <= max_int64.

Lemma parse_valid s v : parse s = Some v -> valid v.
Proof.
  unfold parse. destruct (TrimSpace s =s ""); [done|].
  destruct (Cut (fst (Cut (TrimPrefix (TrimSpace s) "v") "+")) "-") as [body dash].
  destruct (Split body ".") as [|p0 [|p1 [|p2 [|? ?]]]]; try done.
  destruct (parseNumber p0) eqn:E0; [|done].
  destruct (parseNumber p1) eqn:E1; [|done].
  destruct (parseNumber p2) eqn:E2; [|done]. simpl.
  apply parseNumber_range in E0, E1, E2.
  intros H. repeat case_match; simplify_eq; done.
Qed.

Lemma sign_sub n m :
  0 <= n <= max_int64 -> 0 <= m <= max_int64 ->
  sign (wrap64 (n - m)) = Z_of_cmp (n ?= m).
Proof.
  intros Hn Hm. rewrite wrap64_id by (unfold min_int64, max_int64 in *; lia).
  unfold sign. destruct (Z.compare_spec n m); simpl.
  - by replace (n - m) with 0 by lia.
  - by rewrite (proj2 (Z.ltb_lt _ _)) by lia.
  - rewrite (proj2 (Z.ltb_ge _ _)) by lia. by rewrite (proj2 (Z.ltb_lt _ _)) by lia.
Qed.

Lemma prereleaseLoop_spec a b :
  match prereleaseLoop a b with
  | Some c => c
  | None => sign (Z.of_nat (length a) - Z.of_nat (length b))
  end = Z_of_cmp (list_cmp id_cmp a b).
Proof.
  revert b. induction a as [|x a IH]; intros [|y b]; simpl; try done.
  unfold id_cmp, numericIdentifier.
  replace (Z.of_nat (S (length a)) - Z.of_nat (S (length b)))
    with (Z.of_nat (length a) - Z.of_nat (length b)) by lia.
  destruct (parseNumber x) as [n|] eqn:Ex, (parseNumber y) as [m|] eqn:Ey; try done.
  - destruct (Z.eqb_spec n m) as [->|Hne]; simpl.
    + rewrite Z.compare_refl. apply IH.
    + rewrite sign_sub by eauto using parseNumber_range.
      destruct (Z.compare_spec n m); done.
  - destruct (String.eqb_spec x y) as [->|Hne]; simpl.
    + rewrite (cmp_refl str_cmp). apply IH.
    + rewrite ltb_str_cmp. destruct (str_cmp x y) eqn:E; try done.
      by apply str_cmp_eq in E.
Qed.

Lemma comparePrerelease_spec a b : comparePrerelease a b = Z_of_cmp (pre_cmp a b).
Proof.
  destruct a as [|x a], b as [|y b]; try done.
  apply (prereleaseLoop_spec (x :: a) (y :: b)).
Qed.

Lemma Compare_parsed a b va vb :
  parse a = Some va -> parse b = Some vb ->
  Compare a b = Some (Z_of_cmp (semver_cmp va vb)).
Proof.
  intros Ha Hb. unfold Compare. rewrite Ha, Hb. simpl.
  destruct (parse_valid _ _ Ha) as (?&?&?), (parse_valid _ _ Hb) as (?&?&?).
  unfold semver_cmp, lex_cmp, by_key.
  destruct (Z.eqb_spec (major va) (major vb)) as [->|]; simpl; [rewrite Z.compare_refl|].
  2: { rewrite sign_sub by done. by destruct (Z.compare_spec (major va) (major vb)). }
  destruct (Z.eqb_spec (minor va) (minor vb)) as [->|]; simpl; [rewrite Z.compare_refl|].
  2: { rewrite sign_sub by done. by destruct (Z.compare_spec (minor va) (minor vb)). }
  destruct (Z.eqb_spec (patch va) (patch vb)) as [->|]; simpl; [rewrite Z.compare_refl|].
  2: { rewrite sign_sub by done. by destruct (Z.compare_spec (patch va) (patch vb)). }
  by rewrite comparePrerelease_spec.
Qed.

Lemma Compare_inv a b c :
  Compare a b = Some c ->
  exists va vb, parse a = Some va /\ parse b = Some vb /\ c = Z_of_cmp (semver_cmp va vb).
Proof.
  intros H. destruct (parse a) as [va|] eqn:Ha, (parse b) as [vb|] eqn:Hb;
    try by (unfold Compare in H; rewrite Ha, ?Hb in H).
  exists va, vb. rewrite (Compare_parsed _ _ _ _ Ha Hb) in H. by simplify_eq.
Qed.

(** ** Properties *)


(** [Compare] is a total preorder on the versions it accepts: swapping the
    arguments negates the answer, and "not greater" is transitive, strictly so
    as soon as one of the two steps is strict. *)
Theorem Compare_total_preorder a b c x y :
  Compare a b = Some x -> Compare b c = Some y ->
  Compare b a = Some (- x) /\
  (x <= 0 -> y <= 0 ->
   exists z, Compare a c = Some z /\ z <= 0 /\ (x < 0 \/ y < 0 -> z < 0)).
Proof.
  intros (va & vb & Ha & Hb & ->)%Compare_inv (vb' & vc & Hb' & Hc & ->)%Compare_inv.
  simplify_eq. split.
  - rewrite (Compare_parsed _ _ _ _ Hb Ha), (cmp_opp va vb).
    by destruct (semver_cmp va vb).
  - intros Hx Hy. exists (Z_of_cmp (semver_cmp va vc)).
    split; [by apply Compare_parsed|].
    destruct (semver_cmp va vb) eqn:E1; simpl in *; [| |lia].
    + rewrite (cmp_eq_l _ _ vc E1). destruct (semver_cmp vb vc); simpl in *; lia.
    + destruct (semver_cmp vb vc) eqn:E2; simpl in *; [| |lia].
      * rewrite <-(cmp_eq_r semver_cmp va _ _ E2), E1. simpl. lia.
      * rewrite (cmp_lt_trans semver_cmp _ _ _ E1 E2). simpl. lia.
Qed.

Lemma Compare_total_preorder_witness :
  Compare "1.2.0-rc.2" "1.2.0-rc.10" = Some (-1) /\
  exists z, Compare "1.2.0-rc.2" "v1.2.0+build" = Some z /\ z < 0.
Proof.
  split; [vm_compute; reflexivity|].
  destruct (Compare_total_preorder "1.2.0-rc.2" "1.2.0-rc.10" "v1.2.0+build" (-1) (-1))
    as [_ H]; [vm_compute; reflexivity..|].
  destruct H as (z & Hz & _ & Hlt); [lia..|]. exists z. split; [exact Hz|]. apply Hlt. lia.
Defined.

End Version.
