(* ===== verification/Models.v ===== *)
(** * Shared domain records (pkg/models)

    The structs the components exchange, one record per struct with the
    source's fields. A Go pointer field is an [option]; [time.Time] is [Time];
    string maps are [gmap string]. *)

From stdpp Require Import pretty.
From S2P Require Import Prelude GoString.

(* src/pkg/models/push_status.go:38-45 WorkloadConfigTimelineEntry *)
Record TimelineEntry := mkTimelineEntry {
  tl_State : string; tl_At : Time; tl_Message : string;
  tl_Terminal : bool; tl_TimedOut : bool
}.

(* src/pkg/models/push_status.go:47-59 WorkloadConfigInstanceStatus *)
Record InstanceStatus := mkInstanceStatus {
  is_InstanceUID : string; is_PodName : string; is_Node : string; is_Required : bool;
  is_Status : string; is_ConfigHash : string; is_UpdatedAt : Time;
  is_ErrorCause : string; is_ErrorMessage : string; is_TimedOut : bool
}.

(* src/pkg/models/push_status.go:61-74 WorkloadConfigErrorGroup *)
Record ErrorGroup := mkErrorGroup {
  eg_Cause : string; eg_Title : string; eg_Severity : string; eg_Count : Z;
  eg_AffectedInstances : list string; eg_FirstSeenAt : Time; eg_LastSeenAt : Time;
  eg_SampleMessage : string; eg_SamplePath : string; eg_ConfigHash : string;
  eg_Retryable : bool
}.

(* src/pkg/models/models.go:221-259 WorkloadConfig *)
Record WorkloadConfig := mkWorkloadConfig {
  wc_WorkloadID : string; wc_ConfigID : string; wc_ConfigHash : string;
  wc_AppliedAt : Time; wc_Status : string; wc_ErrorMessage : string;
  wc_PushedBy : string; wc_Content : string; wc_Label : option string;
  wc_PushID : string; wc_SubmittedAt : Time; wc_SentAt : option Time;
  wc_UpdatedAt : Time; wc_OpAMPStatusTimeoutAt : option Time;
  wc_TimedOutWaiting : bool; wc_TimeoutMessage : string;
  wc_RollbackOfPushID : string; wc_Timeline : list TimelineEntry;
  wc_InstanceStatuses : list InstanceStatus;
  wc_TargetCount : Z; wc_AppliedCount : Z; wc_FailedCount : Z; wc_PendingCount : Z;
  wc_TimedOutCount : Z; wc_NoStatusCount : Z; wc_ErrorGroups : list ErrorGroup;
  wc_IsCurrent : bool; wc_IsPrevious : bool; wc_IsLastKnownGood : bool;
  wc_IsFailedCandidate : bool; wc_ContentAvailable : bool
}.

(* src/pkg/models/models.go:75-82 RemoteConfigStatus *)
Record RemoteConfigStatus := mkRemoteConfigStatus {
  rcs_Status : string; rcs_ConfigHash : string; rcs_ErrorMessage : string;
  rcs_UpdatedAt : Time; rcs_PushStatus : option WorkloadConfig
}.

(* src/pkg/models/models.go:39-47 AvailableComponents *)
Record AvailableComponents := mkAvailableComponents {
  ac_Components : gmap string (list string); ac_Hash : string
}.

(* src/pkg/models/models.go:321-326 RollbackTarget *)
Record RollbackTarget := mkRollbackTarget {
  rt_Kind : string; rt_Config : WorkloadConfig
}.

(* src/pkg/models/models.go:405-414 Alert *)
Record Alert := mkAlert {
  al_ID : string; al_WorkloadID : string; al_Rule : string; al_Severity : string;
  al_Message : string; al_FiredAt : Time; al_ResolvedAt : option Time
}.

(* src/pkg/models/models.go:484-505 Workload *)
Record Workload := mkWorkload {
  wl_ID : string; wl_FingerprintSource : string; wl_FingerprintKeys : gmap string string;
  wl_DisplayName : string; wl_Type : string; wl_Version : string; wl_Status : string;
  wl_LastSeenAt : Time; wl_Labels : gmap string string; wl_ActiveConfigID : option string;
  wl_ActiveConfigHash : string; wl_RemoteConfigStatus : option RemoteConfigStatus;
  wl_CurrentConfigPush : option WorkloadConfig;
  wl_AvailableComponents : option AvailableComponents;
  wl_AcceptsRemoteConfig : bool; wl_RetentionUntil : option Time; wl_ArchivedAt : option Time
}.

(* src/pkg/models/models.go:16-16 TrustedSelectorLabelPrefix *)
Definition TrustedSelectorLabelPrefix : string := "otel.magnify/selector.".

(* src/pkg/models/models.go:136-143 ConfigVariable *)
Record ConfigVariable := mkConfigVariable {
  cv_Name : string; cv_Label : string; cv_Type : string; cv_Required : bool;
  cv_Description : string; cv_Placeholder : string
}.

(* src/pkg/models/models.go:146-167 Config *)
Record Config := mkConfig {
  cf_ID : string; cf_Name : string; cf_Content : string; cf_CreatedAt : Time;
  cf_CreatedBy : string; cf_Kind : string; cf_Status : string; cf_Category : string;
  cf_Stack : string; cf_Description : string; cf_Variables : list ConfigVariable;
  cf_Tags : list string; cf_BuiltIn : bool; cf_SourceType : string; cf_GitURL : string;
  cf_GitProvider : string; cf_GitRef : string; cf_GitPath : string; cf_CommitSHA : string;
  cf_ImportedAt : option Time
}.

(* src/pkg/models/models.go:263-272 WorkloadKnownGoodConfig *)
Record WorkloadKnownGoodConfig := mkKnownGood {
  kg_WorkloadID : string; kg_ConfigID : string; kg_MarkedAt : Time; kg_MarkedBy : string;
  kg_SourceAppliedAt : option Time; kg_ReplacedConfigID : string; kg_ReplaceReason : string;
  kg_ContentAvailable : bool
}.

(* src/pkg/models/models.go:314-319 SetKnownGoodResult *)
Record SetKnownGoodResult := mkSetKnownGoodResult {
  sk_Changed : bool; sk_ReplacedConfigID : string; sk_PreconditionFailed : bool;
  sk_CurrentConfigID : string
}.

(* src/pkg/models/models.go:331-334 PushActivityPoint *)
Record PushActivityPoint := mkPushActivityPoint { pa_Day : string; pa_Count : Z }.

(* src/pkg/models/models.go:666-675 WorkloadEvent *)
Record WorkloadEvent := mkWorkloadEvent {
  ev_ID : Z; ev_WorkloadID : string; ev_InstanceUID : string; ev_PodName : string;
  ev_EventType : string; ev_Version : string; ev_PrevVersion : string; ev_OccurredAt : Time
}.

(** ** [time.Time.Format(time.RFC3339Nano)] in UTC *)

Section Format.
Local Open Scope Z_scope.

Definition pad (width : nat) (n : Z) : string :=
  let s := pretty (Z.to_nat n) in
  String.concat "" (repeat "0" (width - String.length s)) +:+ s.

Definition is_leap (y : Z) : bool :=
  ((y mod 4 =? 0) && negb (y mod 100 =? 0)) || (y mod 400 =? 0).

Fixpoint month_day (lens : list Z) (m : Z) (d : Z) : Z * Z :=
  match lens with
  | [] => (m, d)
  | n :: lens' => if d <? n then (m, d) else month_day lens' (m + 1) (d - n)
  end.

(** Year, month and day (from 1) of the day [d] counted from 0001-01-01. *)
Definition civil (d : Z) : Z * Z * Z :=
  let n400 := d / 146097 in let d := d mod 146097 in
  let n100 := Z.min 3 (d / 36524) in let d := d - n100 * 36524 in
  let n4 := d / 1461 in let d := d mod 1461 in
  let n1 := Z.min 3 (d / 365) in let d := d - n1 * 365 in
  let y := 400 * n400 + 100 * n100 + 4 * n4 + n1 + 1 in
  let feb := if is_leap y then 29 else 28 in
  let '(m, d) := month_day [31; feb; 31; 30; 31; 30; 31; 31; 30; 31; 30; 31] 1 d in
  (y, m, d + 1).

Fixpoint trim_zeros (fuel : nat) (digits n : Z) : Z * Z :=
  match fuel with
  | O => (digits, n)
  | S k => if (n mod 10 =? 0) then trim_zeros k (digits - 1) (n / 10) else (digits, n)
  end.

Definition RFC3339Nano (t : Time) : string :=
  let secs := t / Second in let ns := t mod Second in
  let '(y, m, d) := civil (secs / 86400) in
  let sod := secs mod 86400 in
  let frac :=
    if ns =? 0 then ""
    else let '(w, n) := trim_zeros 9 9 ns in "." +:+ pad (Z.to_nat w) n in
  pad 4 y +:+ "-" +:+ pad 2 m +:+ "-" +:+ pad 2 d +:+ "T" +:+
  pad 2 (sod / 3600) +:+ ":" +:+ pad 2 (sod mod 3600 / 60) +:+ ":" +:+
  pad 2 (sod mod 60) +:+ frac +:+ "Z".

(** The fraction of [n] units of [10^prec], without trailing zeros. *)
Definition fmt_frac (n : Z) (prec : nat) : string :=
  let r := n mod 10 ^ Z.of_nat prec in
  if r =? 0 then ""
  else let '(w, m) := trim_zeros prec (Z.of_nat prec) r in "." +:+ pad (Z.to_nat w) m.

(** [time.Duration.String]. *)
Definition DurationString (d : Duration) : string :=
  let u := Z.abs d in
  let dec n := pretty (Z.to_nat n) in
  let body :=
    if u =? 0 then "0s"
    else if u <? 1000 then dec u +:+ "ns"
    else if u <? 1000000 then dec (u / 1000) +:+ fmt_frac u 3 +:+ bytes [194; 181]%N +:+ "s"
    else if u <? Second then dec (u / 1000000) +:+ fmt_frac u 6 +:+ "ms"
    else
      let secs := u / Second in
      let s := dec (secs mod 60) +:+ fmt_frac u 9 +:+ "s" in
      let mins := secs / 60 in
      if mins =? 0 then s
      else
        let s := dec (mins mod 60) +:+ "m" +:+ s in
        let hours := mins / 60 in
        if hours =? 0 then s else dec hours +:+ "h" +:+ s in
  if d <? 0 then "-" +:+ body else body.

Example DurationString_values :
  map DurationString [0; 5 * Minute; 90 * Minute; 1500000000; 2500000; -1] =
  ["0s"; "5m0s"; "1h30m0s"; "1.5s"; "2.5ms"; "-1ns"].
Proof. vm_compute. reflexivity. Qed.

Example RFC3339Nano_unix_epoch :
  RFC3339Nano (62135596800 * Second) = "1970-01-01T00:00:00Z".
Proof. vm_compute. reflexivity. Qed.

Example RFC3339Nano_leap :
  RFC3339Nano ((62135596800 + 1709210096) * Second + 120000000) = "2024-02-29T12:34:56.12Z".
Proof. vm_compute. reflexivity. Qed.

End Format.
