(* ===== verification/PushStatus.v ===== *)
(** * Push status hydration and error redaction (pkg/models/push_status.go)

    [HydratePushStatus] rebuilds every derived field of a push record from the
    per-instance statuses; [SanitizeRemoteConfigErrorMessage] is the only door
    through which agent-provided error text reaches storage and API responses.
    The theorems: counters partition the targets, the derived status follows
    the instances, hydration is idempotent (the store hydrates on write and on
    read), and no raw agent text survives in any message of a hydrated record. *)

From S2P Require Import Prelude GoString Models.

Module PushStatus.
Section WithTables.
Context `{UnicodeTables}.
Local Open Scope Z_scope.

Definition OpAMPStatusTimeoutMessage : string := "No OpAMP status after 30s".
Definition redacted : string := "Remote config error details redacted".

(** ** Error causes *)

(* src/pkg/models/push_status.go:341-363 normalizeRemoteConfigErrorCause *)
Definition normalizeRemoteConfigErrorCause (cause msg : string) : string :=
  let cause := TrimSpace (ToLower cause) in
  if cause <>s "" then cause else
  let m := ToLower msg in
  if Contains m "unknown receiver" || Contains m "unknown exporter" ||
     Contains m "unknown processor" || Contains m "invalid pipeline" ||
     Contains m "invalid component" then "collector_validation"
  else if Contains m "not connected" || Contains m "connection lost" || Contains m "send"
  then "opamp_send_failed"
  else if Contains m "timeout" || Contains m "timed out" then "apply_timeout"
  else if Contains m "capability" then "capability_mismatch"
  else if Contains m "permission" || Contains m "policy" || Contains m "refus"
  then "permission_or_policy"
  else if Contains m "rollback" && Contains m "unavailable" then "rollback_unavailable"
  else "unknown".

(* src/pkg/models/push_status.go:365-382 remoteConfigErrorTitle *)
Definition remoteConfigErrorTitle (cause : string) : string :=
  if cause =s "collector_validation" then "Collector rejected the config"
  else if cause =s "opamp_send_failed" then "OpAMP send failed"
  else if cause =s "apply_timeout" then "Config apply timed out"
  else if cause =s "capability_mismatch" then "Remote config capability mismatch"
  else if cause =s "permission_or_policy" then "Agent policy rejected the config"
  else if cause =s "rollback_unavailable" then "Rollback unavailable"
  else "Remote config error".

(* src/pkg/models/push_status.go:384-389 remoteConfigErrorSeverity *)
Definition remoteConfigErrorSeverity (cause : string) : string :=
  if (cause =s "rollback_unavailable") || (cause =s "unknown") then "medium" else "high".

(* src/pkg/models/push_status.go:391-393 remoteConfigErrorRetryable *)
Definition remoteConfigErrorRetryable (cause : string) : bool :=
  (cause <>s "permission_or_policy") && (cause <>s "capability_mismatch") &&
  (cause <>s "rollback_unavailable").

(* src/pkg/models/push_status.go:395-400 severityRank *)
Definition severityRank (sev : string) : Z := if sev =s "high" then 0 else 1.

Definition known_causes : list string :=
  ["collector_validation"; "opamp_send_failed"; "apply_timeout"; "capability_mismatch";
   "permission_or_policy"; "rollback_unavailable"; "unknown"].

(** The summaries are ASCII, so runes and bytes coincide in the length cap. *)
(* src/pkg/models/push_status.go:308-339 SanitizeRemoteConfigErrorMessage *)
Definition SanitizeRemoteConfigErrorMessage (msg : string) : string :=
  let msg := TrimSpace msg in
  if msg =s "" then ""
  else if msg =s redacted then msg
  else if msg =s OpAMPStatusTimeoutMessage then msg
  else if existsb (fun cause => msg =s remoteConfigErrorTitle cause) known_causes then msg
  else
    let cause := normalizeRemoteConfigErrorCause "" msg in
    let summary := remoteConfigErrorTitle cause in
    let summary := if cause =s "unknown" then redacted else summary in
    if (96 <? Z.of_nat (String.length summary)) then take_str 96 summary else summary.

(** ** Status aliases *)

Definition PushStatusSubmitted := "submitted".
Definition PushStatusSent := "sent".
Definition PushStatusApplying := "applying".
Definition PushStatusApplied := "applied".
Definition PushStatusFailed := "failed".
Definition PushStatusRollbackStarted := "rollback_started".
Definition PushStatusRollbackApplied := "rollback_applied".
Definition PushStatusRollbackFailed := "rollback_failed".
Definition InstanceStatusSent := "sent".
Definition InstanceStatusNoStatus := "no_status".

(* src/pkg/models/push_status.go:229-238 canonicalPushStatus *)
Definition canonicalPushStatus (status : string) : string :=
  let key := ToLower (TrimSpace status) in
  if (key =s "") || (key =s "pending") then PushStatusSubmitted
  else ToLower status.

(* src/pkg/models/push_status.go:240-249 canonicalInstanceStatus *)
Definition canonicalInstanceStatus (status : string) : string :=
  let c := canonicalPushStatus status in
  if (c =s PushStatusSubmitted) || (c =s PushStatusSent) then PushStatusSent
  else if (c =s PushStatusApplying) || (c =s PushStatusApplied) || (c =s PushStatusFailed)
  then canonicalPushStatus status
  else InstanceStatusNoStatus.

(* src/pkg/models/push_status.go:251-258 isTerminalPushStatus *)
Definition isTerminalPushStatus (status : string) : bool :=
  (status =s PushStatusApplied) || (status =s PushStatusFailed) ||
  (status =s PushStatusRollbackApplied) || (status =s PushStatusRollbackFailed).

(** ** Hydration *)

Definition timed_out_at (timeoutAt : option Time) (now : Time) : bool :=
  match timeoutAt with Some t => negb (Before now t) | None => false end.

(** The body of the loop that rewrites one instance status. *)
(* src/pkg/models/push_status.go:133-152 HydratePushStatus *)
Definition hydrateInstance (configID : string) (timeoutAt : option Time) (now : Time)
    (i : InstanceStatus) : InstanceStatus :=
  let st := canonicalInstanceStatus (is_Status i) in
  let hash := if is_ConfigHash i =s "" then configID else is_ConfigHash i in
  let cause :=
    if (is_ErrorMessage i <>s "") && (is_ErrorCause i =s "")
    then normalizeRemoteConfigErrorCause "" (is_ErrorMessage i) else is_ErrorCause i in
  let msg :=
    if is_ErrorMessage i <>s "" then SanitizeRemoteConfigErrorMessage (is_ErrorMessage i)
    else is_ErrorMessage i in
  if timed_out_at timeoutAt now && is_Required i &&
     ((st =s PushStatusSent) || (st =s InstanceStatusNoStatus))
  then mkInstanceStatus (is_InstanceUID i) (is_PodName i) (is_Node i) (is_Required i)
         InstanceStatusNoStatus hash (is_UpdatedAt i) "apply_timeout"
         OpAMPStatusTimeoutMessage true
  else mkInstanceStatus (is_InstanceUID i) (is_PodName i) (is_Node i) (is_Required i)
         st hash (is_UpdatedAt i) cause msg false.

(** The counters and flags the loop accumulates. *)
Record counts := mkCounts {
  n_applied : Z; n_failed : Z; n_pending : Z; n_timedOut : Z; n_noStatus : Z;
  hasRemoteStatus : bool; hasApplyingOrApplied : bool; allApplied : bool
}.

(* src/pkg/models/push_status.go:151-173 HydratePushStatus *)
Definition countInstance (c : counts) (i : InstanceStatus) : counts :=
  let timedOut := n_timedOut c + (if is_TimedOut i then 1 else 0) in
  let st := is_Status i in
  if st =s PushStatusApplied then
    mkCounts (n_applied c + 1) (n_failed c) (n_pending c) timedOut (n_noStatus c)
      true true (allApplied c)
  else if st =s PushStatusApplying then
    mkCounts (n_applied c) (n_failed c) (n_pending c + 1) timedOut (n_noStatus c)
      true true false
  else if st =s PushStatusFailed then
    mkCounts (n_applied c) (n_failed c + 1) (n_pending c) timedOut (n_noStatus c)
      true (hasApplyingOrApplied c) false
  else
    mkCounts (n_applied c) (n_failed c) (n_pending c + 1) timedOut
      (n_noStatus c + (if st =s InstanceStatusNoStatus then 1 else 0))
      (hasRemoteStatus c) (hasApplyingOrApplied c) false.

Definition countInstances (insts : list InstanceStatus) : counts :=
  foldl countInstance
    (mkCounts 0 0 0 0 0 false false (0 <? Z.of_nat (length insts))) insts.

(* src/pkg/models/push_status.go:176-187 HydratePushStatus *)
Definition deriveStatus (targets : Z) (c : counts) (sentAt : option Time) (status : string)
  : string :=
  if 0 <? targets then
    if 0 <? n_failed c then PushStatusFailed
    else if allApplied c then PushStatusApplied
    else if hasApplyingOrApplied c then PushStatusApplying
    else match sentAt with Some _ => PushStatusSent | None => status end
  else status.

(* src/pkg/models/push_status.go:202-207 add *)
Definition addTimeline (out : list TimelineEntry) (state : string) (at_ : Time)
    (msg : string) (timedOut : bool) : list TimelineEntry :=
  if IsZero at_ then out
  else out ++ [mkTimelineEntry state at_ msg (isTerminalPushStatus state) timedOut].

(* src/pkg/models/push_status.go:200-227 buildTimeline *)
Definition buildTimeline (submittedAt : Time) (sentAt : option Time) (timedOutWaiting : bool)
    (timeoutAt : option Time) (status : string) (timedOutCount : Z)
    (insts : list InstanceStatus) : list TimelineEntry :=
  let out := addTimeline [] PushStatusSubmitted submittedAt "" false in
  let out := match sentAt with
             | Some t => addTimeline out PushStatusSent t "" false | None => out end in
  let out :=
    match timedOutWaiting, timeoutAt with
    | true, Some t =>
        let state := if 0 <? timedOutCount then InstanceStatusNoStatus else status in
        addTimeline out state t OpAMPStatusTimeoutMessage true
    | _, _ => out
    end in
  let out :=
    foldl (fun out inst =>
      if IsZero (is_UpdatedAt inst) || (is_Status inst =s PushStatusSent) ||
         (is_Status inst =s InstanceStatusNoStatus) then out
      else addTimeline out (is_Status inst) (is_UpdatedAt inst) (is_ErrorMessage inst) false)
      out insts in
  sort_by (fun a b => Before (tl_At a) (tl_At b)) out.

(** The closure [add] of [buildWorkloadConfigErrorGroups]; [groups] is the Go map. *)
(* src/pkg/models/push_status.go:262-282 add *)
Definition addErrorGroup (configID : string) (groups : gmap string ErrorGroup)
    (cause instance msg : string) (at_ : Time) : gmap string ErrorGroup :=
  let cause := normalizeRemoteConfigErrorCause cause msg in
  let g := default
    (mkErrorGroup cause (remoteConfigErrorTitle cause) (remoteConfigErrorSeverity cause) 0 []
       zero_time zero_time "" "" configID (remoteConfigErrorRetryable cause))
    (groups !! cause) in
  let affected := if instance <>s "" then eg_AffectedInstances g ++ [instance]
                  else eg_AffectedInstances g in
  let sample := if eg_SampleMessage g =s "" then SanitizeRemoteConfigErrorMessage msg
                else eg_SampleMessage g in
  let first := if negb (IsZero at_) && (IsZero (eg_FirstSeenAt g) || Before at_ (eg_FirstSeenAt g))
               then at_ else eg_FirstSeenAt g in
  let last := if negb (IsZero at_) && (IsZero (eg_LastSeenAt g) || After at_ (eg_LastSeenAt g))
              then at_ else eg_LastSeenAt g in
  <[cause := mkErrorGroup (eg_Cause g) (eg_Title g) (eg_Severity g) (eg_Count g + 1) affected
       first last sample (eg_SamplePath g) (eg_ConfigHash g) (eg_Retryable g)]> groups.

Definition is_erroring (i : InstanceStatus) : bool :=
  (is_Status i =s PushStatusFailed) || (is_ErrorCause i <>s "") || (is_ErrorMessage i <>s "").

Definition group_less (a b : ErrorGroup) : bool :=
  if negb (severityRank (eg_Severity a) =? severityRank (eg_Severity b))
  then severityRank (eg_Severity a) <? severityRank (eg_Severity b)
  else if negb (eg_Count a =? eg_Count b) then eg_Count b <? eg_Count a
  else eg_Cause a <s eg_Cause b.

Definition collectErrorGroups (configID errorMessage : string) (appliedAt : Time)
    (insts : list InstanceStatus) : gmap string ErrorGroup :=
  let groups :=
    foldl (fun groups inst =>
      if is_erroring inst
      then addErrorGroup configID groups (is_ErrorCause inst) (is_InstanceUID inst)
             (is_ErrorMessage inst) (is_UpdatedAt inst)
      else groups) ∅ insts in
  if (errorMessage <>s "") && Nat.eqb (size groups) 0
  then addErrorGroup configID groups "" "" errorMessage appliedAt else groups.

(* src/pkg/models/push_status.go:260-306 buildWorkloadConfigErrorGroups *)
Definition buildWorkloadConfigErrorGroups (configID errorMessage : string) (appliedAt : Time)
    (insts : list InstanceStatus) : list ErrorGroup :=
  sort_by group_less
    (map (fun '(_, g) =>
       mkErrorGroup (eg_Cause g) (eg_Title g) (eg_Severity g) (eg_Count g)
         (sort_strings (eg_AffectedInstances g)) (eg_FirstSeenAt g) (eg_LastSeenAt g)
         (eg_SampleMessage g) (eg_SamplePath g) (eg_ConfigHash g) (eg_Retryable g))
       (map_to_list (collectErrorGroups configID errorMessage appliedAt insts))).

(** [clock] is [time.Now().UTC()], read only when [now] is the zero time. *)
(* src/pkg/models/push_status.go:104-198 HydratePushStatus *)
Definition HydratePushStatus (clock : Time) (wc : WorkloadConfig) (now : Time)
  : WorkloadConfig :=
  let configHash := if wc_ConfigHash wc =s "" then wc_ConfigID wc else wc_ConfigHash wc in
  let now := if IsZero now then clock else now in
  let status := canonicalPushStatus (wc_Status wc) in
  let submittedAt := if IsZero (wc_SubmittedAt wc) then wc_AppliedAt wc
                     else wc_SubmittedAt wc in
  let pushID :=
    if (wc_PushID wc =s "") && negb (IsZero submittedAt)
    then wc_WorkloadID wc +:+ ":" +:+ wc_ConfigID wc +:+ ":" +:+ RFC3339Nano submittedAt
    else wc_PushID wc in
  let timeoutAt :=
    match wc_OpAMPStatusTimeoutAt wc with
    | Some t => Some t
    | None => if negb (IsZero submittedAt) then Some (Add submittedAt (30 * Second)) else None
    end in
  let errorMessage := SanitizeRemoteConfigErrorMessage (wc_ErrorMessage wc) in
  let insts := map (hydrateInstance (wc_ConfigID wc) timeoutAt now) (wc_InstanceStatuses wc) in
  let targets := Z.of_nat (length insts) in
  let c := countInstances insts in
  let status := deriveStatus targets c (wc_SentAt wc) status in
  let waiting :=
    (0 <? n_timedOut c) ||
    (timed_out_at timeoutAt now && negb (hasRemoteStatus c) &&
     negb (isTerminalPushStatus status)) in
  mkWorkloadConfig (wc_WorkloadID wc) (wc_ConfigID wc) configHash (wc_AppliedAt wc) status
    errorMessage (wc_PushedBy wc) (wc_Content wc) (wc_Label wc) pushID submittedAt
    (wc_SentAt wc) (wc_UpdatedAt wc) timeoutAt waiting
    (if waiting then OpAMPStatusTimeoutMessage else "") (wc_RollbackOfPushID wc)
    (buildTimeline submittedAt (wc_SentAt wc) waiting timeoutAt status (n_timedOut c) insts)
    insts targets (n_applied c) (n_failed c) (n_pending c) (n_timedOut c) (n_noStatus c)
    (buildWorkloadConfigErrorGroups (wc_ConfigID wc) errorMessage (wc_AppliedAt wc) insts)
    (wc_IsCurrent wc) (wc_IsPrevious wc) (wc_IsLastKnownGood wc) (wc_IsFailedCandidate wc)
    (wc_ContentAvailable wc).

(** ** Redaction helpers of the record *)

Definition with_instance_error (i : InstanceStatus) (msg : string) : InstanceStatus :=
  mkInstanceStatus (is_InstanceUID i) (is_PodName i) (is_Node i) (is_Required i) (is_Status i)
    (is_ConfigHash i) (is_UpdatedAt i) (is_ErrorCause i) msg (is_TimedOut i).

Definition with_group_sample (g : ErrorGroup) (msg : string) : ErrorGroup :=
  mkErrorGroup (eg_Cause g) (eg_Title g) (eg_Severity g) (eg_Count g) (eg_AffectedInstances g)
    (eg_FirstSeenAt g) (eg_LastSeenAt g) msg (eg_SamplePath g) (eg_ConfigHash g)
    (eg_Retryable g).

Definition with_entry_message (e : TimelineEntry) (msg : string) : TimelineEntry :=
  mkTimelineEntry (tl_State e) (tl_At e) msg (tl_Terminal e) (tl_TimedOut e).

(* src/pkg/models/push_status.go:79-102 SanitizeRemoteConfigErrors *)
Definition SanitizeRemoteConfigErrors (wc : WorkloadConfig) : WorkloadConfig :=
  let san := SanitizeRemoteConfigErrorMessage in
  mkWorkloadConfig (wc_WorkloadID wc) (wc_ConfigID wc) (wc_ConfigHash wc) (wc_AppliedAt wc)
    (wc_Status wc) (san (wc_ErrorMessage wc)) (wc_PushedBy wc) (wc_Content wc) (wc_Label wc)
    (wc_PushID wc) (wc_SubmittedAt wc) (wc_SentAt wc) (wc_UpdatedAt wc)
    (wc_OpAMPStatusTimeoutAt wc) (wc_TimedOutWaiting wc) (wc_TimeoutMessage wc)
    (wc_RollbackOfPushID wc)
    (map (fun e => with_entry_message e (san (tl_Message e))) (wc_Timeline wc))
    (map (fun i => with_instance_error i (san (is_ErrorMessage i))) (wc_InstanceStatuses wc))
    (wc_TargetCount wc) (wc_AppliedCount wc) (wc_FailedCount wc) (wc_PendingCount wc)
    (wc_TimedOutCount wc) (wc_NoStatusCount wc)
    (map (fun g => with_group_sample g (san (eg_SampleMessage g))) (wc_ErrorGroups wc))
    (wc_IsCurrent wc) (wc_IsPrevious wc) (wc_IsLastKnownGood wc) (wc_IsFailedCandidate wc)
    (wc_ContentAvailable wc).

(* src/pkg/models/remote_config_status.go:5-25 Sanitized *)
Definition Sanitized (r : RemoteConfigStatus) : RemoteConfigStatus :=
  mkRemoteConfigStatus (rcs_Status r) (rcs_ConfigHash r)
    (SanitizeRemoteConfigErrorMessage (rcs_ErrorMessage r)) (rcs_UpdatedAt r)
    (SanitizeRemoteConfigErrors <$> rcs_PushStatus r).

(** ** The redaction alphabet *)

(** Every text a sanitized message can be. *)
Definition safe_messages : list string :=
  "" :: redacted :: OpAMPStatusTimeoutMessage :: map remoteConfigErrorTitle known_causes.

Definition safe (msg : string) : Prop := msg ∈ safe_messages.

Lemma title_safe cause : safe (remoteConfigErrorTitle cause).
Proof.
  unfold safe, safe_messages, remoteConfigErrorTitle.
  repeat case_if; simpl; set_solver.
Qed.

Lemma sanitize_safe msg : safe (SanitizeRemoteConfigErrorMessage msg).
Proof.
  unfold SanitizeRemoteConfigErrorMessage.
  destruct (String.eqb_spec (TrimSpace msg) ""); [by left|].
  destruct (String.eqb_spec (TrimSpace msg) redacted) as [->|]; [by right; left|].
  destruct (String.eqb_spec (TrimSpace msg) OpAMPStatusTimeoutMessage) as [->|];
    [by right; right; left|].
  destruct (existsb _ known_causes) eqn:E.
  { apply existsb_exists in E as (c & _ & ->%String.eqb_eq). apply title_safe. }
  set (cause := normalizeRemoteConfigErrorCause _ _).
  assert (safe (if cause =s "unknown" then redacted else remoteConfigErrorTitle cause)) as Hs.
  { destruct (cause =s "unknown"); [by right; left | apply title_safe]. }
  revert Hs. generalize (if cause =s "unknown" then redacted else remoteConfigErrorTitle cause).
  intros s Hs. unfold safe in Hs.
  assert (forall t, t ∈ safe_messages -> (96 <? Z.of_nat (String.length t)) = false) as Hshort.
  { apply Forall_forall. by repeat constructor. }
  by rewrite (Hshort s Hs).
Qed.

Lemma sanitize_fixed msg : safe msg -> SanitizeRemoteConfigErrorMessage msg = msg.
Proof. revert msg. apply Forall_forall. by repeat constructor. Qed.

Lemma empty_safe : safe "".
Proof. by left. Qed.

Lemma timeout_safe : safe OpAMPStatusTimeoutMessage.
Proof. by right; right; left. Qed.

#[local] Hint Resolve sanitize_safe title_safe empty_safe timeout_safe : go.

(** ** The accumulated counters *)

Definition cnt (f : InstanceStatus -> bool) (l : list InstanceStatus) : Z :=
  Z.of_nat (length (List.filter f l)).

Definition st_is (s : string) (i : InstanceStatus) : bool := is_Status i =s s.

Lemma cnt_cons f i l : cnt f (i :: l) = (if f i then 1 else 0) + cnt f l.
Proof. unfold cnt. simpl. destruct (f i); simpl; lia. Qed.

Lemma fold_counts insts c0 :
  let c := foldl countInstance c0 insts in
  n_applied c = n_applied c0 + cnt (st_is PushStatusApplied) insts /\
  n_failed c = n_failed c0 + cnt (st_is PushStatusFailed) insts /\
  n_applied c + n_failed c + n_pending c =
    n_applied c0 + n_failed c0 + n_pending c0 + Z.of_nat (length insts) /\
  n_timedOut c = n_timedOut c0 + cnt is_TimedOut insts /\
  n_noStatus c = n_noStatus c0 + cnt (st_is InstanceStatusNoStatus) insts /\
  allApplied c = allApplied c0 && forallb (st_is PushStatusApplied) insts /\
  hasApplyingOrApplied c =
    hasApplyingOrApplied c0 ||
    existsb (fun i => st_is PushStatusApplied i || st_is PushStatusApplying i) insts.
Proof.
  revert c0. induction insts as [|i insts IH]; intros c0; cbn [foldl].
  { unfold cnt. simpl. rewrite andb_true_r, orb_false_r. repeat split; lia. }
  destruct (IH (countInstance c0 i)) as (-> & -> & -> & -> & -> & -> & ->).
  rewrite !cnt_cons. cbn [forallb existsb length]. unfold countInstance, st_is.
  destruct (String.eqb_spec (is_Status i) PushStatusApplied) as [->|]; simpl.
  { rewrite orb_true_r. repeat split; lia. }
  destruct (String.eqb_spec (is_Status i) PushStatusApplying) as [->|]; simpl.
  { rewrite orb_true_r, andb_false_r. repeat split; lia. }
  destruct (String.eqb_spec (is_Status i) PushStatusFailed) as [->|]; simpl;
    rewrite andb_false_r; repeat split; lia.
Qed.

Lemma countInstances_spec insts :
  let c := countInstances insts in
  n_applied c = cnt (st_is PushStatusApplied) insts /\
  n_failed c = cnt (st_is PushStatusFailed) insts /\
  n_applied c + n_failed c + n_pending c = Z.of_nat (length insts) /\
  n_timedOut c = cnt is_TimedOut insts /\
  n_noStatus c = cnt (st_is InstanceStatusNoStatus) insts /\
  allApplied c = (0 <? Z.of_nat (length insts)) && forallb (st_is PushStatusApplied) insts.
Proof.
  destruct (fold_counts insts
    (mkCounts 0 0 0 0 0 false false (0 <? Z.of_nat (length insts))))
    as (?&?&?&?&?&?&?). repeat split; assumption.
Qed.

Lemma cnt_le f g l : (forall i, i ∈ l -> f i = true -> g i = true) -> cnt f l <= cnt g l.
Proof.
  induction l as [|i l IH]; intros Hfg; [done|]. rewrite !cnt_cons.
  assert (cnt f l <= cnt g l) by (apply IH; set_solver).
  destruct (f i) eqn:E; [rewrite (Hfg i) by (done || left)|]; repeat case_if; lia.
Qed.

Lemma cnt_disjoint f g l :
  (forall i, f i = true -> g i = false) -> cnt f l + cnt g l <= Z.of_nat (length l).
Proof.
  intros Hfg. induction l as [|i l IH]; [done|]. rewrite !cnt_cons. cbn [length].
  specialize (Hfg i). destruct (f i), (g i); naive_solver lia.
Qed.

Lemma cnt_pos f l : 0 < cnt f l <-> exists i, i ∈ l /\ f i = true.
Proof.
  unfold cnt. split.
  - intros Hpos. destruct (List.filter f l) as [|i k] eqn:E; [simpl in Hpos; lia|].
    assert (In i (List.filter f l)) as Hin by (rewrite E; by left).
    apply filter_In in Hin as [Hin Hf]. exists i. by rewrite list_elem_of_In.
  - intros (i & Hi & Hf). assert (In i (List.filter f l)) as Hin.
    { apply filter_In. by rewrite <-list_elem_of_In. }
    destruct (List.filter f l); [done|]. simpl. lia.
Qed.

Lemma hydrateInstance_timedOut cid ta now i :
  is_TimedOut (hydrateInstance cid ta now i) = true ->
  is_Status (hydrateInstance cid ta now i) = InstanceStatusNoStatus.
Proof. unfold hydrateInstance. case_if; simpl; done. Qed.

(** ** Every message of a hydrated record is redacted *)

Lemma hydrateInstance_safe cid ta now i : safe (is_ErrorMessage (hydrateInstance cid ta now i)).
Proof.
  unfold hydrateInstance. case_if; simpl; [apply timeout_safe|].
  destruct (String.eqb_spec (is_ErrorMessage i) "") as [->|]; simpl; auto with go.
Qed.

Lemma addTimeline_safe out state at_ msg b :
  Forall (fun e => safe (tl_Message e)) out -> safe msg ->
  Forall (fun e => safe (tl_Message e)) (addTimeline out state at_ msg b).
Proof. intros Ho Hm. unfold addTimeline. case_if; [done|]. apply Forall_app. auto. Qed.

Lemma buildTimeline_safe sub sent w ta status n insts :
  Forall (fun i => safe (is_ErrorMessage i)) insts ->
  Forall (fun e => safe (tl_Message e)) (buildTimeline sub sent w ta status n insts).
Proof.
  intros Hi. unfold buildTimeline. rewrite (sort_by_perm _ _).
  set (out := match w, ta with true, Some t => _ | _, _ => _ end).
  assert (Forall (fun e => safe (tl_Message e)) out) as Hout.
  { subst out. destruct w, ta, sent; repeat apply addTimeline_safe; auto with go. }
  clearbody out. revert out Hout. induction Hi as [|i insts Hs _ IH]; intros out Hout; [done|].
  cbn [foldl]. apply IH. case_if; [done|]. by apply addTimeline_safe.
Qed.

Definition groups_safe (m : gmap string ErrorGroup) : Prop :=
  map_Forall (fun k g => safe (eg_SampleMessage g)) m.

Lemma addErrorGroup_safe cid m cause inst msg at_ :
  groups_safe m -> groups_safe (addErrorGroup cid m cause inst msg at_).
Proof.
  intros Hm. unfold addErrorGroup. apply map_Forall_insert_2; [|done]. simpl.
  destruct (m !! _) as [g|] eqn:E; simpl; [|auto with go].
  case_if; [auto with go|]. by apply Hm in E.
Qed.

Lemma collectErrorGroups_safe cid msg at_ insts : groups_safe (collectErrorGroups cid msg at_ insts).
Proof.
  unfold collectErrorGroups.
  assert (forall m, groups_safe m -> groups_safe
    (foldl (fun groups inst => if is_erroring inst
       then addErrorGroup cid groups (is_ErrorCause inst) (is_InstanceUID inst)
              (is_ErrorMessage inst) (is_UpdatedAt inst) else groups) m insts)) as Hf.
  { induction insts as [|i insts IH]; intros m Hm; [done|]. cbn [foldl].
    apply IH. case_if; [by apply addErrorGroup_safe|done]. }
  case_if; [apply addErrorGroup_safe|]; apply Hf; apply map_Forall_empty.
Qed.

Lemma buildErrorGroups_safe cid msg at_ insts :
  Forall (fun g => safe (eg_SampleMessage g))
    (buildWorkloadConfigErrorGroups cid msg at_ insts).
Proof.
  unfold buildWorkloadConfigErrorGroups. rewrite (sort_by_perm _ _).
  apply Forall_map, Forall_forall. intros [k g] Hg%elem_of_map_to_list. simpl.
  by apply collectErrorGroups_safe in Hg.
Qed.

(** ** Hydrating twice *)

Lemma canonicalPushStatus_idem s :
  is_ascii s = true ->
  canonicalPushStatus (canonicalPushStatus s) = canonicalPushStatus s.
Proof.
  intros Hs. unfold canonicalPushStatus at 2 3. case_if; [reflexivity|].
  unfold canonicalPushStatus, ToLower in *. rewrite (is_ascii_TrimSpace s Hs) in E. rewrite Hs.
  rewrite TrimSpace_lower, !is_ascii_lower, (is_ascii_TrimSpace s Hs), Hs, !map_lower_idem.
  by rewrite E.
Qed.

Lemma canonicalInstanceStatus_range s :
  canonicalInstanceStatus s ∈
    [PushStatusSent; PushStatusApplying; PushStatusApplied; PushStatusFailed;
     InstanceStatusNoStatus].
Proof.
  unfold canonicalInstanceStatus. case_if; [set_solver|]. case_if; [|set_solver].
  apply orb_true_iff in E0 as [[E0%String.eqb_eq|E0%String.eqb_eq]%orb_true_iff|E0%String.eqb_eq];
    rewrite E0; set_solver.
Qed.

Lemma canonicalInstanceStatus_fixed s :
  s ∈ [PushStatusSent; PushStatusApplying; PushStatusApplied; PushStatusFailed;
       InstanceStatusNoStatus] ->
  canonicalInstanceStatus s = s.
Proof. revert s. apply Forall_forall. by repeat constructor. Qed.

Lemma normalize_nonempty msg : normalizeRemoteConfigErrorCause "" msg <> "".
Proof. unfold normalizeRemoteConfigErrorCause. simpl. by repeat case_if. Qed.

Lemma hydrateInstance_idem cid ta now i :
  hydrateInstance cid ta now (hydrateInstance cid ta now i) = hydrateInstance cid ta now i.
Proof.
  pose proof (canonicalInstanceStatus_fixed _ (canonicalInstanceStatus_range (is_Status i))) as Hst.
  pose proof (sanitize_fixed _ (sanitize_safe (is_ErrorMessage i))) as Hmsg.
  assert (forall h, (if (if h =s "" then cid else h) =s "" then cid
                     else if h =s "" then cid else h) = if h =s "" then cid else h) as Hh.
  { intros h. destruct (String.eqb_spec h "") as [->|Hn]; [by case_if|].
    by destruct (String.eqb_spec h ""). }
  unfold hydrateInstance at 2 3. case_if.
  - unfold hydrateInstance. cbn [is_Status is_ConfigHash is_ErrorMessage is_ErrorCause
      is_Required is_InstanceUID is_PodName is_Node is_UpdatedAt].
    rewrite Hh. apply andb_true_iff in E as [[E1 E2]%andb_true_iff _]. by rewrite E1, E2.
  - unfold hydrateInstance. cbn [is_Status is_ConfigHash is_ErrorMessage is_ErrorCause
      is_Required is_InstanceUID is_PodName is_Node is_UpdatedAt].
    rewrite Hst, E, Hh. f_equal.
    + destruct (String.eqb_spec (is_ErrorMessage i) "") as [->|]; simpl; [done|].
      destruct (String.eqb_spec (is_ErrorCause i) "") as [_|Hc]; simpl.
      * rewrite (proj2 (String.eqb_neq _ _) (normalize_nonempty _)). by rewrite andb_false_r.
      * rewrite (proj2 (String.eqb_neq _ _) Hc). by rewrite andb_false_r.
    + destruct (String.eqb_spec (is_ErrorMessage i) "") as [->|]; simpl; [done|].
      rewrite Hmsg. by case_if.
Qed.

Lemma deriveStatus_idem t c s st :
  canonicalPushStatus (canonicalPushStatus st) = canonicalPushStatus st ->
  deriveStatus t c s (canonicalPushStatus (deriveStatus t c s (canonicalPushStatus st))) =
  deriveStatus t c s (canonicalPushStatus st).
Proof. intros Hst. unfold deriveStatus. repeat case_if; try done. by destruct s. Qed.

Lemma fill_empty_idem (p d : string) (b : bool) :
  let q := if (p =s "") && b then d else p in
  (if (q =s "") && b then d else q) = q.
Proof.
  cbn zeta. destruct b; [|by rewrite !andb_false_r]. rewrite !andb_true_r.
  destruct (p =s "") eqn:E; [by case_if|by rewrite E].
Qed.

Lemma IsZero_default a b : (if IsZero (if IsZero a then b else a) then b
  else if IsZero a then b else a) = if IsZero a then b else a.
Proof. destruct (IsZero a) eqn:E; [by case_if|by rewrite E]. Qed.

(** Each default the hydration fills in is kept by a second hydration. *)
Section Hydrated.
Context (clock now : Time) (wc : WorkloadConfig).
Let h := HydratePushStatus clock wc now.

Lemma hydrated_ConfigHash :
  (if wc_ConfigHash h =s "" then wc_ConfigID h else wc_ConfigHash h) = wc_ConfigHash h.
Proof.
  pose proof (fill_empty_idem (wc_ConfigHash wc) (wc_ConfigID wc) true) as Hf.
  cbn zeta in Hf. rewrite !andb_true_r in Hf. apply Hf.
Qed.

Lemma hydrated_SubmittedAt :
  (if IsZero (wc_SubmittedAt h) then wc_AppliedAt h else wc_SubmittedAt h) = wc_SubmittedAt h.
Proof. apply IsZero_default. Qed.

Lemma hydrated_PushID :
  (if (wc_PushID h =s "") && negb (IsZero (wc_SubmittedAt h))
   then wc_WorkloadID h +:+ ":" +:+ wc_ConfigID h +:+ ":" +:+ RFC3339Nano (wc_SubmittedAt h)
   else wc_PushID h) = wc_PushID h.
Proof. apply fill_empty_idem. Qed.

Lemma hydrated_TimeoutAt :
  match wc_OpAMPStatusTimeoutAt h with
  | Some t => Some t
  | None => if negb (IsZero (wc_SubmittedAt h))
            then Some (Add (wc_SubmittedAt h) (30 * Second)) else None
  end = wc_OpAMPStatusTimeoutAt h.
Proof.
  unfold h, HydratePushStatus. cbn [wc_OpAMPStatusTimeoutAt wc_SubmittedAt].
  destruct (wc_OpAMPStatusTimeoutAt wc); [done|].
  by destruct (IsZero (if IsZero (wc_SubmittedAt wc) then _ else _)) eqn:E; simpl; rewrite ?E.
Qed.

Lemma hydrated_InstanceStatuses :
  map (hydrateInstance (wc_ConfigID h) (wc_OpAMPStatusTimeoutAt h)
    (if IsZero now then clock else now)) (wc_InstanceStatuses h) = wc_InstanceStatuses h.
Proof.
  unfold h at 3 4. unfold HydratePushStatus at 1 2. cbn [wc_InstanceStatuses].
  rewrite map_map. apply map_ext. intros i. apply hydrateInstance_idem.
Qed.

Lemma hydrated_Status :
  is_ascii (wc_Status wc) = true ->
  deriveStatus (Z.of_nat (length (wc_InstanceStatuses h)))
    (countInstances (wc_InstanceStatuses h)) (wc_SentAt h) (canonicalPushStatus (wc_Status h))
  = wc_Status h.
Proof. intros Hs. apply deriveStatus_idem. by apply canonicalPushStatus_idem. Qed.

End Hydrated.

(** ** Properties *)

(** The counters of a hydrated push partition its targets: every target is
    applied, failed or pending, "no status" targets are pending, and every
    timed-out target is a "no status" target. *)
Theorem HydratePushStatus_counts_partition clock wc now :
  let h := HydratePushStatus clock wc now in
  wc_TargetCount h = Z.of_nat (length (wc_InstanceStatuses wc)) /\
  wc_AppliedCount h + wc_FailedCount h + wc_PendingCount h = wc_TargetCount h /\
  wc_AppliedCount h = cnt (st_is PushStatusApplied) (wc_InstanceStatuses h) /\
  wc_FailedCount h = cnt (st_is PushStatusFailed) (wc_InstanceStatuses h) /\
  0 <= wc_TimedOutCount h <= wc_NoStatusCount h /\
  wc_NoStatusCount h <= wc_PendingCount h.
Proof.
  cbn zeta. unfold HydratePushStatus. cbn [wc_TargetCount wc_AppliedCount wc_FailedCount
    wc_PendingCount wc_InstanceStatuses wc_TimedOutCount wc_NoStatusCount].
  set (insts := map _ _).
  destruct (countInstances_spec insts) as (Ha & Hf & Hsum & Ht & Hn & _).
  repeat split; [by subst insts; rewrite length_map|done|done|done| | |].
  - rewrite Ht. unfold cnt. lia.
  - rewrite Ht, Hn. apply cnt_le. subst insts. intros i Hi Hto.
    apply list_elem_of_In, in_map_iff in Hi as (j & <- & _).
    unfold st_is. by rewrite (hydrateInstance_timedOut _ _ _ _ Hto).
  - pose proof (cnt_disjoint (fun i => st_is PushStatusApplied i || st_is PushStatusFailed i)
      (st_is InstanceStatusNoStatus) insts) as Hd.
    assert (cnt (fun i => st_is PushStatusApplied i || st_is PushStatusFailed i) insts =
            cnt (st_is PushStatusApplied) insts + cnt (st_is PushStatusFailed) insts) as Heq.
    { clear. induction insts as [|i l IH]; [done|]. rewrite !cnt_cons, IH.
      unfold st_is. destruct (String.eqb_spec (is_Status i) PushStatusApplied) as [->|];
        simpl; lia. }
    rewrite Heq in Hd. enough (forall i, st_is PushStatusApplied i || st_is PushStatusFailed i
      = true -> st_is InstanceStatusNoStatus i = false) as Hdisj by (specialize (Hd Hdisj); lia).
    intros i. unfold st_is.
    intros [E%String.eqb_eq|E%String.eqb_eq]%orb_true_iff; by rewrite E.
Qed.

(** Once a push with at least one target was sent, its derived status is
    "failed" exactly when some target failed, and "applied" exactly when every
    target applied. *)
Theorem HydratePushStatus_status_follows_targets clock wc now :
  wc_InstanceStatuses wc <> [] -> is_Some (wc_SentAt wc) ->
  let h := HydratePushStatus clock wc now in
  (wc_Status h = PushStatusFailed <->
     exists i, i ∈ wc_InstanceStatuses h /\ is_Status i = PushStatusFailed) /\
  (wc_Status h = PushStatusApplied <->
     forall i, i ∈ wc_InstanceStatuses h -> is_Status i = PushStatusApplied).
Proof.
  intros Hne [sent Hsent]. cbn zeta. unfold HydratePushStatus.
  cbn [wc_Status wc_InstanceStatuses]. rewrite Hsent. set (insts := map _ _).
  destruct (countInstances_spec insts) as (_ & Hf & _ & _ & _ & Hall).
  assert (0 < Z.of_nat (length insts)) as Hlen.
  { subst insts. rewrite length_map. destruct (wc_InstanceStatuses wc); [done|]. simpl. lia. }
  unfold deriveStatus. rewrite (proj2 (Z.ltb_lt _ _) Hlen) in Hall |- *. simpl in Hall.
  assert (exists i, i ∈ insts) as [i0 Hi0].
  { destruct insts as [|i l]; [done|]. exists i. left. }
  rewrite Hf, Hall. destruct (0 <? cnt (st_is PushStatusFailed) insts) eqn:E1.
  - apply Z.ltb_lt, cnt_pos in E1 as (i & Hi & Hst%String.eqb_eq). split; [naive_solver|].
    split; [done|]. intros Hall'. by rewrite (Hall' i Hi) in Hst.
  - apply Z.ltb_ge in E1.
    assert (~ exists i, i ∈ insts /\ is_Status i = PushStatusFailed) as Hno.
    { intros (i & Hi & Hst). assert (0 < cnt (st_is PushStatusFailed) insts); [|lia].
      apply cnt_pos. exists i. split; [done|]. unfold st_is. by rewrite Hst. }
    destruct (forallb _ insts) eqn:E2.
    + split; [split; [done|by intros ?%Hno]|]. split; [|done]. intros _ i Hi.
      rewrite forallb_forall in E2. by apply String.eqb_eq, E2, list_elem_of_In.
    + assert (~ forall i, i ∈ insts -> is_Status i = PushStatusApplied) as Hna.
      { intros Ha. assert (forallb (st_is PushStatusApplied) insts = true); [|congruence].
        apply forallb_forall. intros i Hi%list_elem_of_In. unfold st_is. by rewrite (Ha i Hi). }
      destruct (hasApplyingOrApplied _); split; split; (done || naive_solver).
Qed.

(** No agent-provided text survives hydration: the push error message, the
    per-instance messages, the timeline messages and the sample messages of the
    error groups are all drawn from the fixed list of safe texts. *)
Theorem HydratePushStatus_no_leak clock wc now :
  let h := HydratePushStatus clock wc now in
  safe (wc_ErrorMessage h) /\
  Forall (fun i => safe (is_ErrorMessage i)) (wc_InstanceStatuses h) /\
  Forall (fun e => safe (tl_Message e)) (wc_Timeline h) /\
  Forall (fun g => safe (eg_SampleMessage g)) (wc_ErrorGroups h) /\
  safe (wc_TimeoutMessage h).
Proof.
  cbn zeta. unfold HydratePushStatus. cbn [wc_ErrorMessage wc_InstanceStatuses wc_Timeline
    wc_ErrorGroups wc_TimeoutMessage].
  set (insts := map _ _).
  assert (Forall (fun i => safe (is_ErrorMessage i)) insts) as Hi.
  { apply Forall_map, Forall_true. intros i. apply hydrateInstance_safe. }
  repeat split.
  - auto with go.
  - done.
  - by apply buildTimeline_safe.
  - apply buildErrorGroups_safe.
  - case_if; auto with go.
Qed.

(** Sanitizing is a projection onto the fixed list of safe texts: the result
    is always in the list, and a message of the list is left unchanged. *)
Theorem Sanitize_is_projection msg :
  safe (SanitizeRemoteConfigErrorMessage msg) /\
  SanitizeRemoteConfigErrorMessage (SanitizeRemoteConfigErrorMessage msg) =
    SanitizeRemoteConfigErrorMessage msg /\
  (safe msg -> SanitizeRemoteConfigErrorMessage msg = msg).
Proof. split; [|split]; auto using sanitize_safe, sanitize_fixed. Qed.

(** Hydrating a hydrated push at the same instant changes nothing, so the
    store may hydrate on write and again on read. *)
Theorem HydratePushStatus_idempotent clock wc now :
  is_ascii (wc_Status wc) = true ->
  HydratePushStatus clock (HydratePushStatus clock wc now) now = HydratePushStatus clock wc now.
Proof.
  intros Hs. unfold HydratePushStatus at 1. cbn zeta.
  rewrite hydrated_ConfigHash, hydrated_SubmittedAt, hydrated_PushID, hydrated_TimeoutAt,
    hydrated_InstanceStatuses, hydrated_Status by done.
  rewrite (sanitize_fixed (wc_ErrorMessage (HydratePushStatus clock wc now)))
    by apply sanitize_safe.
  reflexivity.
Qed.

End WithTables.
#[export] Hint Resolve sanitize_safe title_safe empty_safe timeout_safe : go.

(** ** Witnesses *)

Definition sample_instance (uid st msg : string) : InstanceStatus :=
  mkInstanceStatus uid "" "" true st "" (100 * Second)%Z "" msg false.

(** One target applied, one failed with agent text, one silent. *)
Definition sample_push : WorkloadConfig :=
  mkWorkloadConfig "wl" "cfg" "" (90 * Second)%Z "Sent" "token=hunter2 refused" "ops" "" None ""
    zero_time (Some (91 * Second)%Z) zero_time None false "" "" []
    [sample_instance "a" "applied" ""; sample_instance "b" "FAILED" "unknown receiver: tok123";
     sample_instance "c" "pending" ""]
    0 0 0 0 0 0 [] false false false false false.

Lemma HydratePushStatus_status_follows_targets_witness :
  wc_Status (@HydratePushStatus byte_tables 0 sample_push (200 * Second)) = PushStatusFailed.
Proof.
  apply (@HydratePushStatus_status_follows_targets byte_tables 0 sample_push (200 * Second)%Z);
    [discriminate | exists (91 * Second)%Z; reflexivity |].
  eexists. split; [right; left|]. vm_compute. reflexivity.
Defined.

Lemma HydratePushStatus_idempotent_witness :
  @HydratePushStatus byte_tables 0 (@HydratePushStatus byte_tables 0 sample_push (200 * Second))
    (200 * Second) = @HydratePushStatus byte_tables 0 sample_push (200 * Second).
Proof. apply HydratePushStatus_idempotent. vm_compute. reflexivity. Defined.

(** A status with surrounding spaces is not recognised: [canonicalPushStatus]
    trims only to choose its branch, and returns the untrimmed text. *)
Example canonicalInstanceStatus_padded :
  @canonicalInstanceStatus byte_tables "applied" = PushStatusApplied /\
  @canonicalInstanceStatus byte_tables " applied" = InstanceStatusNoStatus.
Proof. vm_compute. done. Qed.

End PushStatus.
