(* ===== verification/Registry.v ===== *)
(** * The live instance registry (internal/opamp/registry.go)

    Two Go maps kept in step: the buckets [workload -> uid -> instance] and the
    reverse index [uid -> workload]. The abstract specification is one map from
    uid to its workload and instance; the refinement theorem shows that any
    sequence of bind, update and unbind calls keeps the two representations
    equal and returns the same answers, so no sequence leaves a dangling bucket
    entry, an empty bucket or an instance bound to two workloads. *)

From S2P Require Import Prelude GoString Models.

Module Registry.

(* src/internal/opamp/registry.go:10-25 Instance *)
Record Instance := mkInstance {
  InstanceUID : string; PodName : string; Version : string; ConnectedAt : Time;
  LastMessageAt : Time; EffectiveConfigHash : string; Healthy : bool;
  AcceptsRemoteConfig : bool; RemoteConfigCapabilityKnown : bool;
  InstRemoteConfigStatus : option RemoteConfigStatus
}.

(* src/internal/opamp/registry.go:27-34 InstanceRegistry *)
Record InstanceRegistry := mkRegistry {
  byWorkload : gmap string (gmap string Instance);
  uidToWL : gmap string string
}.

(* src/internal/opamp/registry.go:36-42 NewInstanceRegistry *)
Definition NewInstanceRegistry : InstanceRegistry := mkRegistry ∅ ∅.

(** [delete(r.byWorkload[wl], uid)], then drop the bucket when it is empty. *)
(* src/internal/opamp/registry.go:56-59 BindInstance *)
Definition dropFromBucket (bw : gmap string (gmap string Instance)) (wl uid : string)
  : gmap string (gmap string Instance) :=
  let b := delete uid (default ∅ (bw !! wl)) in
  if Nat.eqb (size b) 0 then delete wl bw else <[wl := b]> bw.

Definition stamp (uid : string) (now1 now2 : Time) (ins : Instance) : Instance :=
  mkInstance uid (PodName ins) (Version ins)
    (if IsZero (ConnectedAt ins) then now1 else ConnectedAt ins) now2
    (EffectiveConfigHash ins) (Healthy ins) (AcceptsRemoteConfig ins)
    (RemoteConfigCapabilityKnown ins) (InstRemoteConfigStatus ins).

(** [now1] and [now2] are the two clock reads. *)
(* src/internal/opamp/registry.go:44-74 BindInstance *)
Definition BindInstance (r : InstanceRegistry) (uid workloadID : string) (ins : Instance)
    (now1 now2 : Time) : InstanceRegistry * bool :=
  let prev := uidToWL r !! uid in
  let bw :=
    match prev with
    | Some prevWL => if prevWL <>s workloadID then dropFromBucket (byWorkload r) prevWL uid
                     else byWorkload r
    | None => byWorkload r
    end in
  let bucket := default ∅ (bw !! workloadID) in
  (mkRegistry (<[workloadID := <[uid := stamp uid now1 now2 ins]> bucket]> bw)
     (<[uid := workloadID]> (uidToWL r)),
   negb (bool_decide (is_Some prev))).

Definition touch (now : Time) (ins : Instance) : Instance :=
  mkInstance (InstanceUID ins) (PodName ins) (Version ins) (ConnectedAt ins) now
    (EffectiveConfigHash ins) (Healthy ins) (AcceptsRemoteConfig ins)
    (RemoteConfigCapabilityKnown ins) (InstRemoteConfigStatus ins).

(* src/internal/opamp/registry.go:76-92 UpdateInstance *)
Definition UpdateInstance (r : InstanceRegistry) (uid : string) (mutate : Instance -> Instance)
    (now : Time) : InstanceRegistry * bool :=
  match uidToWL r !! uid with
  | None => (r, false)
  | Some wl =>
      match default ∅ (byWorkload r !! wl) !! uid with
      | None => (r, false)
      | Some inst =>
          (mkRegistry
             (<[wl := <[uid := touch now (mutate inst)]> (default ∅ (byWorkload r !! wl))]>
                (byWorkload r)) (uidToWL r), true)
      end
  end.

(* src/internal/opamp/registry.go:94-109 UnbindInstance *)
Definition UnbindInstance (r : InstanceRegistry) (uid : string) : InstanceRegistry * string :=
  let wl := default "" (uidToWL r !! uid) in
  if wl =s "" then (r, "")
  else (mkRegistry (dropFromBucket (byWorkload r) wl uid) (delete uid (uidToWL r)), wl).

(* src/internal/opamp/registry.go:111-117 LookupWorkload *)
Definition LookupWorkload (r : InstanceRegistry) (uid : string) : option string :=
  uidToWL r !! uid.

(* src/internal/opamp/registry.go:119-124 Count *)
Definition Count (r : InstanceRegistry) (workloadID : string) : nat :=
  size (default ∅ (byWorkload r !! workloadID)).

(** Go returns the values in an unspecified order; the theorems about it do
    not depend on the order. *)
(* src/internal/opamp/registry.go:126-135 Instances *)
Definition Instances (r : InstanceRegistry) (workloadID : string) : list Instance :=
  (map_to_list (default ∅ (byWorkload r !! workloadID))).*2.

(* src/internal/opamp/registry.go:137-154 AggregatedStatus *)
Definition AggregatedStatus (r : InstanceRegistry) (workloadID : string) : string :=
  let bucket := default ∅ (byWorkload r !! workloadID) in
  if Nat.eqb (size bucket) 0 then "disconnected"
  else if existsb (fun i => negb (Healthy i)) (map_to_list bucket).*2 then "degraded"
  else "connected".

(* src/internal/opamp/registry.go:156-169 PreviousVersion *)
Definition PreviousVersion (r : InstanceRegistry) (uid : string) : string * bool :=
  let wl := default "" (uidToWL r !! uid) in
  if wl =s "" then ("", false)
  else match default ∅ (byWorkload r !! wl) !! uid with
       | Some ins => (Version ins, true)
       | None => ("", false)
       end.

(** ** Abstract specification: one map *)

Abbreviation spec := (gmap string (string * Instance)).

(** The instances of a workload. *)
Definition of_workload (m : spec) (wl : string) : gmap string Instance :=
  omap (fun '(w, i) => if String.eqb w wl then Some i else None) m.

(** A bucket exists only when it is not empty. *)
Definition bucket_of (m : spec) (wl : string) : option (gmap string Instance) :=
  let b := of_workload m wl in if Nat.eqb (size b) 0 then None else Some b.

Record repr (r : InstanceRegistry) (m : spec) : Prop := {
  repr_index : uidToWL r = fst <$> m;
  repr_buckets wl : byWorkload r !! wl = bucket_of m wl;
  repr_named uid wl ins : m !! uid = Some (wl, ins) -> wl <> ""
}.

(** The calls that change the registry, with their clock reads. *)
Inductive op :=
| OpBind (uid wl : string) (ins : Instance) (now1 now2 : Time)
| OpUpdate (uid : string) (mutate : Instance -> Instance) (now : Time)
| OpUnbind (uid : string).

Definition op_named (o : op) : Prop :=
  match o with OpBind _ wl _ _ _ => wl <> "" | _ => True end.

(** What a call answers: a fresh/known flag or a workload id. *)
Definition exec (r : InstanceRegistry) (o : op) : InstanceRegistry * (bool + string) :=
  match o with
  | OpBind uid wl ins n1 n2 => let '(r', b) := BindInstance r uid wl ins n1 n2 in (r', inl b)
  | OpUpdate uid f now => let '(r', b) := UpdateInstance r uid f now in (r', inl b)
  | OpUnbind uid => let '(r', w) := UnbindInstance r uid in (r', inr w)
  end.

Definition spec_exec (m : spec) (o : op) : spec * (bool + string) :=
  match o with
  | OpBind uid wl ins n1 n2 =>
      (<[uid := (wl, stamp uid n1 n2 ins)]> m, inl (negb (bool_decide (is_Some (m !! uid)))))
  | OpUpdate uid f now =>
      (alter (fun '(w, i) => (w, touch now (f i))) uid m,
       inl (bool_decide (is_Some (m !! uid))))
  | OpUnbind uid => (delete uid m, inr (default "" (fst <$> m !! uid)))
  end.

Fixpoint run_ops {S R} (step : S -> op -> S * R) (s : S) (ops : list op) : S * list R :=
  match ops with
  | [] => (s, [])
  | o :: ops' =>
      let '(s1, a) := step s o in
      let '(s2, l) := run_ops step s1 ops' in (s2, a :: l)
  end.

(** ** Lemmas *)

Lemma lookup_of_workload m wl uid :
  of_workload m wl !! uid =
    (m !! uid) ≫= (fun '(w, i) => if String.eqb w wl then Some i else None).
Proof. apply lookup_omap. Qed.

Lemma default_bucket m wl : default ∅ (bucket_of m wl) = of_workload m wl.
Proof.
  unfold bucket_of. case_if; simpl; [|done].
  apply Nat.eqb_eq, map_size_empty_inv in E. done.
Qed.

Lemma repr_bucket r m wl : repr r m -> default ∅ (byWorkload r !! wl) = of_workload m wl.
Proof. intros Hr. rewrite (repr_buckets _ _ Hr). apply default_bucket. Qed.

Lemma of_workload_insert m uid wl ins wl' :
  of_workload (<[uid := (wl, ins)]> m) wl' =
    if String.eqb wl wl' then <[uid := ins]> (of_workload m wl')
    else delete uid (of_workload m wl').
Proof.
  apply map_eq. intros u. rewrite lookup_of_workload.
  destruct (String.eqb wl wl') eqn:E; destruct (decide (u = uid)) as [->|Hne];
    simplify_map_eq; rewrite ?lookup_of_workload; by rewrite ?E.
Qed.

Lemma of_workload_delete m uid wl :
  of_workload (delete uid m) wl = delete uid (of_workload m wl).
Proof.
  apply map_eq. intros u. rewrite lookup_of_workload.
  destruct (decide (u = uid)) as [->|Hne]; simplify_map_eq;
    by rewrite ?lookup_of_workload.
Qed.

Lemma of_workload_absent m uid wl w i :
  m !! uid = Some (w, i) -> w <> wl -> of_workload m wl !! uid = None.
Proof.
  intros Hm Hne. rewrite lookup_of_workload, Hm. simpl. by rewrite (proj2 (String.eqb_neq w wl)).
Qed.

Lemma delete_of_workload_absent m uid wl :
  (forall i, m !! uid <> Some (wl, i)) -> delete uid (of_workload m wl) = of_workload m wl.
Proof.
  intros Hm. apply delete_id. rewrite lookup_of_workload.
  destruct (m !! uid) as [[w i]|] eqn:E; [|done]. simpl.
  destruct (String.eqb_spec w wl) as [->|]; [|done]. by destruct (Hm i).
Qed.

Lemma size_insert_pos (b : gmap string Instance) uid i :
  Nat.eqb (size (<[uid := i]> b)) 0 = false.
Proof. apply Nat.eqb_neq, map_size_non_empty_iff, insert_non_empty. Qed.

Lemma dropFromBucket_lookup r m wl uid wl' :
  repr r m ->
  dropFromBucket (byWorkload r) wl uid !! wl' =
    if String.eqb wl wl'
    then (let b := delete uid (of_workload m wl') in
          if Nat.eqb (size b) 0 then None else Some b)
    else bucket_of m wl'.
Proof.
  intros Hr. unfold dropFromBucket. rewrite (repr_bucket r m wl Hr).
  destruct (String.eqb_spec wl wl') as [->|Hne]; cbn zeta; case_if; simplify_map_eq;
    try done; apply (repr_buckets _ _ Hr).
Qed.

Lemma repr_empty : repr NewInstanceRegistry ∅.
Proof.
  split.
  - by rewrite fmap_empty.
  - intros wl. unfold bucket_of, of_workload. by rewrite omap_empty.
  - intros *. by rewrite lookup_empty.
Qed.

Lemma repr_index_lookup r m uid : repr r m -> uidToWL r !! uid = fst <$> m !! uid.
Proof. intros Hr. by rewrite (repr_index _ _ Hr), lookup_fmap. Qed.

Lemma bind_refines r m uid wl ins n1 n2 :
  repr r m -> wl <> "" ->
  repr (BindInstance r uid wl ins n1 n2).1 (<[uid := (wl, stamp uid n1 n2 ins)]> m) /\
  (BindInstance r uid wl ins n1 n2).2 = negb (bool_decide (is_Some (m !! uid))).
Proof.
  intros Hr Hwl. unfold BindInstance. rewrite (repr_index_lookup _ _ uid Hr).
  cbn [fst snd]. split; [|f_equal; apply bool_decide_ext; by rewrite fmap_is_Some].
  set (bw := match _ with Some _ => _ | None => _ end).
  assert (forall wl', bw !! wl' = if String.eqb wl wl' then bucket_of m wl'
    else let b := delete uid (of_workload m wl') in
         if Nat.eqb (size b) 0 then None else Some b) as Hbw.
  { intros wl'. subst bw. destruct (m !! uid) as [[w i]|] eqn:Em; simpl.
    - destruct (String.eqb_spec w wl) as [->|Hne]; simpl.
      + rewrite (repr_buckets _ _ Hr). destruct (String.eqb_spec wl wl') as [->|Hne]; [done|].
        cbn zeta. rewrite delete_of_workload_absent by (intros ?; congruence). done.
      + rewrite (dropFromBucket_lookup _ m) by done.
        destruct (String.eqb_spec w wl') as [->|].
        * by rewrite (proj2 (String.eqb_neq wl wl')).
        * destruct (String.eqb_spec wl wl') as [->|]; [done|]. cbn zeta.
          rewrite delete_of_workload_absent by (intros ?; congruence). done.
    - rewrite (repr_buckets _ _ Hr). destruct (String.eqb_spec wl wl'); [done|]. cbn zeta.
      rewrite delete_of_workload_absent by (intros ?; congruence). done. }
  split; cbn [uidToWL byWorkload].
  - by rewrite (repr_index _ _ Hr), fmap_insert.
  - intros wl'. unfold bucket_of. rewrite of_workload_insert.
    destruct (decide (wl = wl')) as [->|Hne].
    + rewrite lookup_insert_eq, Hbw, String.eqb_refl, default_bucket. cbn zeta.
      by rewrite size_insert_pos.
    + rewrite lookup_insert_ne, Hbw by done. by rewrite (proj2 (String.eqb_neq wl wl')).
  - intros u w i. destruct (decide (u = uid)) as [->|]; rewrite ?lookup_insert_eq;
      [by intros [= <- _]|]. rewrite lookup_insert_ne by done. apply (repr_named _ _ Hr).
Qed.

Lemma of_workload_alter m uid f wl :
  of_workload (alter (fun '(w, i) => (w, f i)) uid m) wl = alter f uid (of_workload m wl).
Proof.
  apply map_eq. intros u. rewrite lookup_of_workload.
  destruct (decide (u = uid)) as [->|Hne].
  - rewrite !lookup_alter_eq, lookup_of_workload.
    destruct (m !! uid) as [[w i]|]; simpl; [|done]. by destruct (String.eqb w wl).
  - rewrite !lookup_alter_ne, lookup_of_workload by done. done.
Qed.

Lemma size_alter (b : gmap string Instance) f uid : size (alter f uid b) = size b.
Proof.
  rewrite <-!size_dom. by rewrite dom_alter_L.
Qed.

Lemma update_refines r m uid f now :
  repr r m ->
  repr (UpdateInstance r uid f now).1 (alter (fun '(w, i) => (w, touch now (f i))) uid m) /\
  (UpdateInstance r uid f now).2 = bool_decide (is_Some (m !! uid)).
Proof.
  intros Hr. unfold UpdateInstance. rewrite (repr_index_lookup _ _ uid Hr).
  destruct (m !! uid) as [[w i]|] eqn:Em; cbn [fmap option_fmap option_map fst].
  2: { split; [|done]. cbn [fst]. rewrite alter_id; [done|]. congruence. }
  rewrite (repr_bucket r m w Hr), lookup_of_workload, Em. simpl. rewrite String.eqb_refl. simpl.
  split; [|done].
  split; cbn [uidToWL byWorkload].
  - rewrite (repr_index _ _ Hr). apply map_eq. intros u. rewrite !lookup_fmap.
    destruct (decide (u = uid)) as [->|]; rewrite ?lookup_alter_eq, ?lookup_alter_ne by done;
      [by rewrite Em|done].
  - intros wl. unfold bucket_of.
    rewrite (of_workload_alter m uid (fun i => touch now (f i))), size_alter.
    destruct (decide (w = wl)) as [->|Hne].
    + rewrite lookup_insert_eq.
      assert (of_workload m wl !! uid = Some i) as Hin.
      { rewrite lookup_of_workload, Em. simpl. by rewrite String.eqb_refl. }
      rewrite (proj2 (Nat.eqb_neq (size (of_workload m wl)) 0)).
      * f_equal. apply map_eq. intros u.
        destruct (decide (u = uid)) as [->|];
          [by rewrite lookup_insert_eq, lookup_alter_eq, Hin|].
        by rewrite lookup_insert_ne, lookup_alter_ne by done.
      * apply map_size_non_empty_iff. intros He. by rewrite He, lookup_empty in Hin.
    + rewrite lookup_insert_ne, (repr_buckets _ _ Hr) by done. unfold bucket_of.
      rewrite alter_id; [done|]. by rewrite (of_workload_absent _ _ _ _ _ Em Hne).
  - intros u w' i'. destruct (decide (u = uid)) as [->|].
    + rewrite lookup_alter_eq, Em. simpl. intros [= <- _]. by eapply (repr_named _ _ Hr).
    + rewrite lookup_alter_ne by done. apply (repr_named _ _ Hr).
Qed.

Lemma unbind_refines r m uid :
  repr r m ->
  repr (UnbindInstance r uid).1 (delete uid m) /\
  (UnbindInstance r uid).2 = default "" (fst <$> m !! uid).
Proof.
  intros Hr. unfold UnbindInstance. rewrite (repr_index_lookup _ _ uid Hr).
  destruct (m !! uid) as [[w i]|] eqn:Em; simpl.
  2: { split; [|done]. by rewrite delete_id. }
  rewrite (proj2 (String.eqb_neq w "")) by (by eapply (repr_named _ _ Hr)).
  split; [|done]. split; cbn [uidToWL byWorkload fst].
  - by rewrite (repr_index _ _ Hr), fmap_delete.
  - intros wl. rewrite (dropFromBucket_lookup _ m) by done. unfold bucket_of.
    rewrite of_workload_delete. destruct (String.eqb_spec w wl) as [->|]; [done|].
    rewrite delete_of_workload_absent by (intros ?; congruence). done.
  - intros u w' i'. rewrite lookup_delete. case_decide; [done|]. apply (repr_named _ _ Hr).
Qed.

Lemma exec_refines r m o :
  repr r m -> op_named o ->
  repr (exec r o).1 (spec_exec m o).1 /\ (exec r o).2 = (spec_exec m o).2.
Proof.
  intros Hr. destruct o as [uid wl ins n1 n2|uid f now|uid];
    cbn [op_named exec spec_exec]; intros Hn.
  - destruct (bind_refines r m uid wl ins n1 n2 Hr Hn) as [H1 H2].
    destruct (BindInstance r uid wl ins n1 n2); cbn [fst snd] in *. by rewrite H2.
  - destruct (update_refines r m uid f now Hr) as [H1 H2].
    destruct (UpdateInstance r uid f now); cbn [fst snd] in *. by rewrite H2.
  - destruct (unbind_refines r m uid Hr) as [H1 H2].
    destruct (UnbindInstance r uid); cbn [fst snd] in *. by rewrite H2.
Qed.

Lemma run_refines ops r m :
  repr r m -> Forall op_named ops ->
  repr (run_ops exec r ops).1 (run_ops spec_exec m ops).1 /\
  (run_ops exec r ops).2 = (run_ops spec_exec m ops).2.
Proof.
  intros Hr Hops. revert r m Hr. induction Hops as [|o ops Ho _ IH]; intros r m Hr; [done|].
  cbn [run_ops]. destruct (exec_refines r m o Hr Ho) as [H1 H2].
  destruct (exec r o) as [r1 a1], (spec_exec m o) as [m1 a2]. simpl in *. subst a2.
  destruct (IH r1 m1 H1) as [H3 H4].
  destruct (run_ops exec r1 ops), (run_ops spec_exec m1 ops). simpl in *. by subst.
Qed.

(** ** Properties *)

(** The registry implements one map from instance uid to (workload,
    instance): any sequence of bind, update and unbind calls, started on an
    empty registry, leaves both Go maps equal to the abstract map's projections
    and returns the abstract answers. *)
Theorem registry_refines_map ops :
  Forall op_named ops ->
  repr (run_ops exec NewInstanceRegistry ops).1 (run_ops spec_exec ∅ ops).1 /\
  (run_ops exec NewInstanceRegistry ops).2 = (run_ops spec_exec ∅ ops).2.
Proof. apply run_refines, repr_empty. Qed.

Definition sample_instance (healthy : bool) : Instance :=
  mkInstance "" "pod" "1.0" 0 0 "" healthy true true None.

Definition sample_ops : list op :=
  [OpBind "u1" "wl" (sample_instance true) 5 6; OpBind "u2" "wl" (sample_instance false) 7 8;
   OpBind "u1" "other" (sample_instance true) 9 10; OpUnbind "u2"].

Lemma registry_refines_map_witness :
  Forall op_named sample_ops /\
  repr (run_ops exec NewInstanceRegistry sample_ops).1 (run_ops spec_exec ∅ sample_ops).1 /\
  (run_ops exec NewInstanceRegistry sample_ops).2 =
    [inl true; inl true; inl false; inr "wl"].
Proof.
  assert (Forall op_named sample_ops) as Hn by (repeat constructor; discriminate).
  split; [exact Hn|]. split; [apply (registry_refines_map sample_ops Hn)|].
  vm_compute. reflexivity.
Defined.

(** The queries answer from the abstract map: the live count is the number
    of instances mapped to the workload, and the aggregate status is
    "disconnected" without instances, "degraded" when one of them is unhealthy
    and "connected" otherwise. *)
Theorem registry_queries r m wl :
  repr r m ->
  (forall i, i ∈ Instances r wl <-> exists uid, m !! uid = Some (wl, i)) /\
  Count r wl = length (Instances r wl) /\
  (AggregatedStatus r wl = "disconnected" <-> forall uid i, m !! uid <> Some (wl, i)) /\
  (AggregatedStatus r wl = "degraded" <->
     exists uid i, m !! uid = Some (wl, i) /\ Healthy i = false) /\
  AggregatedStatus r wl ∈ ["disconnected"; "degraded"; "connected"].
Proof.
  intros Hr. unfold Instances, Count, AggregatedStatus. rewrite (repr_bucket r m wl Hr).
  assert (forall i, i ∈ (map_to_list (of_workload m wl)).*2 <->
    exists uid, m !! uid = Some (wl, i)) as Hin.
  { intros i. rewrite list_elem_of_fmap. split.
    - intros ([uid j] & -> & Hj%elem_of_map_to_list). exists uid.
      rewrite lookup_of_workload in Hj. destruct (m !! uid) as [[w k]|]; [|done]. simpl in *.
      destruct (String.eqb_spec w wl) as [->|]; by simplify_eq.
    - intros [uid Hu]. exists (uid, i). split; [done|]. apply elem_of_map_to_list.
      rewrite lookup_of_workload, Hu. simpl. by rewrite String.eqb_refl. }
  split; [done|]. split; [by rewrite length_fmap, length_map_to_list|].
  destruct (Nat.eqb_spec (size (of_workload m wl)) 0) as [E0|E0].
  - apply map_size_empty_inv in E0. rewrite E0, map_to_list_empty in Hin.
    assert (forall uid i, m !! uid <> Some (wl, i)) as Hno.
    { intros uid i Hu. assert (i ∈ ([] : list Instance)) as []%not_elem_of_nil.
      apply Hin. eauto. }
    split; [done|]. split; [|set_solver]. split; [done|]. intros (uid & i & Hu & _).
    by destruct (Hno uid i).
  - assert (exists uid i, m !! uid = Some (wl, i)) as (uid & i & Hu).
    { destruct (map_to_list (of_workload m wl)) as [|[u i] l] eqn:E.
      - apply (f_equal length) in E. rewrite length_map_to_list in E. done.
      - destruct (proj1 (Hin i)) as [uid Hu]; [left|]. eauto. }
    destruct (existsb _ _) eqn:Ex.
    + apply existsb_exists in Ex as (j & Hj%list_elem_of_In & Hh%negb_true_iff).
      apply Hin in Hj as [u' Hu']. split; [naive_solver|]. split; [naive_solver|set_solver].
    + assert (forall uid i, m !! uid = Some (wl, i) -> Healthy i = true) as Hall.
      { intros u' j Hj. destruct (Healthy j) eqn:Hh; [done|].
        assert (existsb (fun i => negb (Healthy i)) (map_to_list (of_workload m wl)).*2 = true);
          [|congruence].
        apply existsb_exists. exists j. rewrite <-list_elem_of_In, Hh. naive_solver. }
      split; [naive_solver|]. split; [|set_solver]. split; [done|].
      intros (u' & j & Hj & Hh). by rewrite (Hall _ _ Hj) in Hh.
Qed.

Lemma registry_queries_witness :
  AggregatedStatus (run_ops exec NewInstanceRegistry (take 2 sample_ops)).1 "wl" = "degraded".
Proof.
  eapply registry_queries; [apply run_refines; [apply repr_empty|]|].
  - repeat constructor; discriminate.
  - exists "u2". eexists. split; vm_compute; reflexivity.
Defined.

End Registry.
