(* ===== verification/Grace.v ===== *)
(** * The disconnect grace controller (internal/opamp/grace.go)

    One delayed callback per key. Each [graceTimer] is a heap cell named by its
    allocation number; its phase records where the runtime timer and the
    callback goroutine are. [Schedule], [Cancel] and [beginStop] run under the
    controller's mutex and are atomic steps; the goroutine started by the timer
    contributes three more steps (the timer fires, the goroutine takes the lock
    and decides, the callback returns), and the stop waiter one. The theorems
    hold for every interleaving of these steps. *)

From S2P Require Import Prelude.

Module Grace.

(** Where the timer and its goroutine are. *)
Inductive phase :=
| Armed      (* the runtime timer is pending *)
| Stopped    (* timer.Stop() returned true *)
| Fired      (* the goroutine runs but has not taken the lock *)
| Running    (* the callback [fn] is executing *)
| Finished.  (* the goroutine returned *)

Global Instance phase_eq_dec : EqDecision phase.
Proof. solve_decision. Defined.

(* src/internal/opamp/grace.go:24-28 graceTimer *)
Record graceTimer := mkTimer {
  gt_key : string; gt_id : Z; gt_phase : phase; gt_done : bool
}.

(** [timers] maps a key to the pointer of its entry; [heap] holds the entries;
    [stopState] is [Some closed] once a stop began, [closed] telling whether
    [stopState.done] is closed; [wg] is the WaitGroup counter. *)
(* src/internal/opamp/grace.go:8-22 GraceController *)
Record GraceController := mkGrace {
  timers : gmap string nat; stopped : bool; stopState : option bool; nextID : Z; wg : Z;
  heap : gmap nat graceTimer; nextPtr : nat
}.

(* src/internal/opamp/grace.go:34-40 NewGraceController *)
Definition NewGraceController : GraceController := mkGrace ∅ false None 0 0 ∅ 0.

Definition set_entry (g : GraceController) (p : nat) (e : graceTimer) (w : Z)
  : GraceController :=
  mkGrace (timers g) (stopped g) (stopState g) (nextID g) w (<[p := e]> (heap g)) (nextPtr g).

Definition drop_timer (g : GraceController) (key : string) : GraceController :=
  mkGrace (delete key (timers g)) (stopped g) (stopState g) (nextID g) (wg g) (heap g)
    (nextPtr g).

(** [t.done.Do(wg.Done)], together with the phase the entry moves to. *)
(* src/internal/opamp/grace.go:30-32 finish *)
Definition finish (g : GraceController) (p : nat) (ph : phase) : GraceController :=
  match heap g !! p with
  | None => g
  | Some e =>
      set_entry g p (mkTimer (gt_key e) (gt_id e) ph true)
        (if gt_done e then wg g else wg g - 1)
  end.

(** [delete(g.timers, key); if entry.timer.Stop() { entry.finish(&g.wg) }]:
    [Stop] reports true exactly when the timer is still pending. *)
(* src/internal/opamp/grace.go:77-87 Cancel *)
Definition Cancel (g : GraceController) (key : string) : GraceController :=
  match timers g !! key with
  | None => g
  | Some p =>
      let g := drop_timer g key in
      match gt_phase <$> heap g !! p with
      | Some Armed => finish g p Stopped
      | _ => g
      end
  end.

(** The new entry gets the next id, a fresh cell and an armed timer. *)
(* src/internal/opamp/grace.go:42-75 Schedule *)
Definition Schedule (g : GraceController) (key : string) : GraceController :=
  if stopped g then g
  else
    let g := Cancel g key in
    let id := wrap_u64 (nextID g + 1) in
    mkGrace (<[key := nextPtr g]> (timers g)) (stopped g) (stopState g) id (wg g + 1)
      (<[nextPtr g := mkTimer key id Armed false]> (heap g)) (S (nextPtr g)).

(* src/internal/opamp/grace.go:96-118 beginStop *)
Definition beginStop (g : GraceController) : GraceController :=
  match stopState g with
  | Some _ => g
  | None =>
      let g := mkGrace (timers g) true (Some false) (nextID g) (wg g) (heap g) (nextPtr g) in
      foldl Cancel g (map_to_list (timers g)).*1
  end.

(** The runtime timer of a pending entry expires. *)
Definition fire (g : GraceController) (p : nat) : option GraceController :=
  e ← heap g !! p;
  if decide (gt_phase e = Armed)
  then Some (set_entry g p (mkTimer (gt_key e) (gt_id e) Fired (gt_done e)) (wg g)) else None.

(** The first critical section of the AfterFunc goroutine: a stale entry
    finishes, a current one leaves the map and runs its callback. *)
(* src/internal/opamp/grace.go:61-72 Schedule *)
Definition enter (g : GraceController) (p : nat) : option GraceController :=
  e ← heap g !! p;
  if decide (gt_phase e = Fired) then
    let key := gt_key e in
    let stale := match timers g !! key with
                 | None => true
                 | Some current =>
                     negb (Nat.eqb current p) ||
                     negb (Z.eqb (default 0%Z (gt_id <$> heap g !! current)) (gt_id e))
                 end in
    if stopped g || stale then Some (finish g p Finished)
    else let g := drop_timer g key in
         Some (set_entry g p (mkTimer (gt_key e) (gt_id e) Running (gt_done e)) (wg g))
  else None.

(** The callback returns and the deferred [finish] runs. *)
Definition return_ (g : GraceController) (p : nat) : option GraceController :=
  e ← heap g !! p;
  if decide (gt_phase e = Running) then Some (finish g p Finished) else None.

(** The waiter goroutine of [beginStop]: [g.wg.Wait(); close(state.done)]. *)
Definition waiter (g : GraceController) : option GraceController :=
  if decide (stopState g = Some false /\ wg g = 0%Z)
  then Some (mkGrace (timers g) (stopped g) (Some true) (nextID g) (wg g) (heap g) (nextPtr g))
  else None.

(** One atomic step of any goroutine. *)
Inductive step : GraceController -> GraceController -> Prop :=
| step_schedule g key : step g (Schedule g key)
| step_cancel g key : step g (Cancel g key)
| step_beginStop g : step g (beginStop g)
| step_fire g g' p : fire g p = Some g' -> step g g'
| step_enter g g' p : enter g p = Some g' -> step g g'
| step_return g g' p : return_ g p = Some g' -> step g g'
| step_waiter g g' : waiter g = Some g' -> step g g'.

(** ** Invariant *)

Definition live (h : gmap nat graceTimer) : nat := countm (fun e => negb (gt_done e)) h.

Definition entry_ok (g : GraceController) (p : nat) (e : graceTimer) : Prop :=
  (p < nextPtr g)%nat /\
  (gt_done e = true <-> gt_phase e = Stopped \/ gt_phase e = Finished) /\
  (gt_phase e = Armed -> timers g !! gt_key e = Some p).

Record inv (g : GraceController) : Prop := {
  inv_entries : map_Forall (entry_ok g) (heap g);
  inv_timers key p : timers g !! key = Some p ->
    exists e, heap g !! p = Some e /\ gt_key e = key /\
              (gt_phase e = Armed \/ gt_phase e = Fired);
  inv_wg : wg g = Z.of_nat (live (heap g));
  inv_stopped : stopped g = true <-> is_Some (stopState g);
  inv_quiet : stopped g = true -> timers g = ∅;
  inv_done : stopState g = Some true -> wg g = 0%Z
}.

Lemma live_new h p e : h !! p = None -> gt_done e = false -> live (<[p := e]> h) = S (live h).
Proof. intros Hp He. unfold live. rewrite countm_new by done. by rewrite He. Qed.

Lemma live_same h p e e' : h !! p = Some e -> gt_done e' = gt_done e ->
  live (<[p := e']> h) = live h.
Proof.
  intros Hp He. unfold live.
  pose proof (countm_update (fun e => negb (gt_done e)) h p e e' Hp) as Hc. simpl in Hc.
  rewrite He in Hc. lia.
Qed.

Lemma live_finish h p e e' : h !! p = Some e -> gt_done e = false -> gt_done e' = true ->
  live h = S (live (<[p := e']> h)).
Proof.
  intros Hp He He'. unfold live.
  pose proof (countm_update (fun e => negb (gt_done e)) h p e e' Hp) as Hc. simpl in Hc.
  rewrite He, He' in Hc. simpl in Hc. lia.
Qed.

Lemma heap_fresh g : inv g -> heap g !! nextPtr g = None.
Proof.
  intros Hi. destruct (heap g !! nextPtr g) as [e|] eqn:E; [|done].
  apply (inv_entries _ Hi) in E as (? & _). lia.
Qed.

Lemma ginv_init : inv NewGraceController.
Proof.
  split; try done; simpl. split; [done|by intros [? ?]].
Qed.

(** Updating one entry: what the new entry and counter must satisfy. *)
Lemma inv_set_entry g p e e' w (t : gmap string nat) st :
  inv g -> heap g !! p = Some e -> gt_key e' = gt_key e ->
  (gt_done e' = true <-> gt_phase e' = Stopped \/ gt_phase e' = Finished) ->
  (forall key q, t !! key = Some q -> timers g !! key = Some q) ->
  (forall key q, timers g !! key = Some q -> q <> p -> t !! key = Some q) ->
  (gt_phase e' = Armed -> t !! gt_key e = Some p) ->
  (forall key, t !! key = Some p -> gt_phase e' = Armed \/ gt_phase e' = Fired) ->
  w = Z.of_nat (live (<[p := e']> (heap g))) ->
  (st = stopState g) -> (st = Some true -> w = 0%Z) ->
  inv (mkGrace t (stopped g) st (nextID g) w (<[p := e']> (heap g)) (nextPtr g)).
Proof.
  intros Hi Hp Hk Hdone Hsub Hkeep Harm Hph Hw -> Hz.
  split; cbn [timers stopped stopState nextID wg heap nextPtr].
  - intros q f. rewrite lookup_insert. case_decide as Hq.
    + intros [= <-]. subst q. split; [apply (inv_entries _ Hi _ _ Hp)|].
      split; [done|]. rewrite Hk. apply Harm.
    + intros Hf. pose proof (inv_entries _ Hi _ _ Hf) as (? & ? & Ha).
      split; [done|]. split; [done|]. intros Hpa. apply Hkeep; [by apply Ha|done].
  - intros key q Hq. pose proof (inv_timers _ Hi _ _ (Hsub _ _ Hq)) as (f & Hf & Hkey & Hpf).
    destruct (decide (q = p)) as [->|].
    + exists e'. simplify_map_eq. split; [done|]. split; [done|]. by eapply Hph.
    + exists f. by simplify_map_eq.
  - done.
  - apply (inv_stopped _ Hi).
  - intros Hs. apply map_empty. intros key. destruct (t !! key) as [q|] eqn:E; [|done].
    apply Hsub in E. by rewrite (inv_quiet _ Hi Hs), lookup_empty in E.
  - done.
Qed.

Lemma inv_drop_only g key p e :
  inv g -> timers g !! key = Some p -> heap g !! p = Some e -> gt_phase e <> Armed ->
  inv (drop_timer g key).
Proof.
  intros Hi Ht Hp Hne. split; cbn [drop_timer timers stopped stopState nextID wg heap nextPtr];
    try apply Hi.
  - intros q f Hf. pose proof (inv_entries _ Hi _ _ Hf) as (? & ? & Ha).
    split; [done|]. split; [done|]. intros Hpa. specialize (Ha Hpa). simpl.
    rewrite lookup_delete_ne; [done|]. intros ->. rewrite Ht in Ha. congruence.
  - intros key' q. rewrite lookup_delete. case_decide; [done|]. apply (inv_timers _ Hi).
  - intros Hs. rewrite (inv_quiet _ Hi Hs). apply delete_empty.
Qed.

Lemma inv_done_live g : inv g -> stopState g = Some true -> live (heap g) = 0%nat.
Proof. intros Hi Hs. pose proof (inv_wg _ Hi). pose proof (inv_done _ Hi Hs). lia. Qed.

Lemma inv_finish g p e t ph :
  inv g -> heap g !! p = Some e -> (gt_phase e = Armed \/ gt_phase e = Fired \/ gt_phase e = Running) ->
  (ph = Stopped \/ ph = Finished) ->
  (forall key q, t !! key = Some q -> timers g !! key = Some q /\ q <> p) ->
  (forall key q, timers g !! key = Some q -> q <> p -> t !! key = Some q) ->
  inv (finish (mkGrace t (stopped g) (stopState g) (nextID g) (wg g) (heap g) (nextPtr g)) p ph).
Proof.
  intros Hi Hp Hph Hfin Hsub Hkeep.
  pose proof (inv_entries _ Hi _ _ Hp) as (_ & Hd & _).
  assert (gt_done e = false) as Hnd 
    by (destruct (gt_done e); [destruct (proj1 Hd eq_refl), Hph as [|[|]]; congruence|done]).
  pose proof (live_finish _ _ _ (mkTimer (gt_key e) (gt_id e) ph true) Hp Hnd eq_refl) as Hl.
  pose proof (inv_wg _ Hi) as Hw.
  unfold finish, set_entry. cbn [heap]. rewrite Hp, Hnd.
  cbn [timers stopped stopState nextID wg heap nextPtr].
  apply (inv_set_entry g p e); simpl; auto.
  - tauto.
  - intros key q Hq. apply (Hsub _ _ Hq).
  - by destruct Hfin as [->| ->].
  - intros key Hq. by destruct (Hsub _ _ Hq).
  - lia.
  - intros Hs%(inv_done_live _ Hi). lia.
Qed.

Lemma inv_Cancel g key : inv g -> inv (Cancel g key).
Proof.
  intros Hi. unfold Cancel. destruct (timers g !! key) as [p|] eqn:Ht; [|done].
  pose proof (inv_timers _ Hi _ _ Ht) as (e & Hp & Hkey & Hph).
  cbn [heap drop_timer]. rewrite Hp. cbn [fmap option_fmap option_map].
  destruct Hph as [Hph|Hph]; rewrite Hph.
  - unfold drop_timer. apply (inv_finish g p e); auto.
    + intros key' q Hq. rewrite lookup_delete_Some in Hq. destruct Hq as [Hne Hq].
      split; [done|]. intros ->. apply Hne.
      pose proof (inv_timers _ Hi _ _ Hq) as (f & Hf & Hk & _). congruence.
    + intros key' q Hq Hne. rewrite lookup_delete_ne; [done|]. intros ->. congruence.
  - by apply (inv_drop_only g key p e); [| | |rewrite Hph].
Qed.

Lemma Cancel_stopped g key : stopped (Cancel g key) = stopped g.
Proof. unfold Cancel, finish. repeat case_match; done. Qed.

Lemma Cancel_timers g key : timers (Cancel g key) = delete key (timers g).
Proof.
  unfold Cancel, finish. repeat case_match; simplify_eq/=; try done; by rewrite delete_id.
Qed.

Lemma inv_Schedule g key : inv g -> inv (Schedule g key).
Proof.
  intros Hi. unfold Schedule. destruct (stopped g) eqn:Hs; [done|].
  pose proof (inv_Cancel g key Hi) as Hc. pose proof (heap_fresh _ Hc) as Hfresh.
  pose proof (Cancel_timers g key) as Ht. pose proof (Cancel_stopped g key) as Hst.
  set (c := Cancel g key) in *. split; cbn [timers stopped stopState nextID wg heap nextPtr].
  - intros p e. rewrite lookup_insert. case_decide as Hp.
    + intros [= <-]. subst p. split; [simpl; lia|]. simpl.
      split; [split; [done|by intros [|]]|]. intros _. apply lookup_insert_eq.
    + intros He. pose proof (inv_entries _ Hc _ _ He) as (? & ? & Ha).
      split; [simpl; lia|]. split; [done|]. intros Hph. simpl. specialize (Ha Hph).
      rewrite lookup_insert_ne; [done|]. intros Heq.
      by rewrite Ht, <-Heq, lookup_delete_eq in Ha.
  - intros key' p. rewrite lookup_insert. case_decide as Hk.
    + intros [= <-]. eexists. rewrite lookup_insert_eq. split; [done|]. simpl. auto.
    + intros Hp. pose proof (inv_timers _ Hc _ _ Hp) as (e & He & ? & ?). exists e.
      rewrite lookup_insert_ne; [done|]. congruence.
  - rewrite live_new by done. rewrite (inv_wg _ Hc). lia.
  - apply (inv_stopped _ Hc).
  - congruence.
  - intros Hd. assert (stopped c = true) by (apply (inv_stopped _ Hc); eauto). congruence.
Qed.

Lemma foldl_Cancel_inv keys g : inv g -> inv (foldl Cancel g keys).
Proof. revert g. induction keys; intros g Hi; simpl; [done|]. auto using inv_Cancel. Qed.

Lemma foldl_Cancel_timers keys g :
  timers (foldl Cancel g keys) = foldr (fun k t => delete k t) (timers g) (reverse keys).
Proof.
  revert g. induction keys as [|k keys IH]; intros g; [done|].
  cbn [foldl]. rewrite IH, reverse_cons, foldr_app. simpl. by rewrite Cancel_timers.
Qed.

Lemma foldr_delete_lookup (keys : list string) (t : gmap string nat) k :
  k ∈ keys -> foldr (fun k t => delete k t) t keys !! k = None.
Proof.
  induction keys as [|k' keys IH]; [by intros ?%not_elem_of_nil|].
  intros Hk. simpl. destruct (decide (k = k')) as [->|]; [apply lookup_delete_eq|].
  rewrite lookup_delete_ne by done. apply IH. set_solver.
Qed.

Lemma foldl_Cancel_clears g : timers (foldl Cancel g (map_to_list (timers g)).*1) = ∅.
Proof.
  rewrite foldl_Cancel_timers. apply map_empty. intros k.
  destruct (timers g !! k) as [p|] eqn:Hk.
  - apply foldr_delete_lookup. rewrite elem_of_reverse. apply list_elem_of_fmap.
    exists (k, p). split; [done|]. by apply elem_of_map_to_list.
  - induction (reverse _) as [|k' l IH]; [done|]. simpl. rewrite lookup_delete. by case_decide.
Qed.

Definition mark_stop (g : GraceController) : GraceController :=
  mkGrace (timers g) true (Some false) (nextID g) (wg g) (heap g) (nextPtr g).

Lemma Cancel_mark_stop g key : Cancel (mark_stop g) key = mark_stop (Cancel g key).
Proof.
  unfold Cancel, finish, mark_stop. simpl.
  repeat (case_match; simplify_eq/=); done.
Qed.

Lemma foldl_Cancel_mark_stop keys g :
  foldl Cancel (mark_stop g) keys = mark_stop (foldl Cancel g keys).
Proof.
  revert g. induction keys as [|k keys IH]; intros g; [done|].
  cbn [foldl]. by rewrite Cancel_mark_stop.
Qed.

Lemma ginv_beginStop g : inv g -> inv (beginStop g).
Proof.
  intros Hi. unfold beginStop. destruct (stopState g) eqn:Hs; [done|].
  change (mkGrace _ _ _ _ _ _ _) with (mark_stop g). cbn [timers mark_stop].
  rewrite foldl_Cancel_mark_stop. pose proof (foldl_Cancel_clears g) as He.
  pose proof (foldl_Cancel_inv (map_to_list (timers g)).*1 g Hi) as Hc.
  destruct Hc as [H1 H2 H3 H4 H5 H6].
  split; cbn [timers stopped stopState nextID wg heap nextPtr mark_stop]; done.
Qed.

Lemma ginv_fire g p g' : inv g -> fire g p = Some g' -> inv g'.
Proof.
  intros Hi. unfold fire. destruct (heap g !! p) as [e|] eqn:Hp; simpl; [|done].
  case_decide as Hph; [|done]. intros [= <-].
  pose proof (inv_entries _ Hi _ _ Hp) as (_ & Hd & _).
  unfold set_entry. apply (inv_set_entry g p e); simpl; auto; try done.
  - rewrite Hd, Hph. split; intros [|]; congruence.
  - erewrite live_same by done. apply (inv_wg _ Hi).
  - apply (inv_done _ Hi).
Qed.

Lemma inv_enter g p g' : inv g -> enter g p = Some g' -> inv g'.
Proof.
  intros Hi. unfold enter. destruct (heap g !! p) as [e|] eqn:Hp; simpl; [|done].
  case_decide as Hph; [|done].
  pose proof (inv_entries _ Hi _ _ Hp) as (_ & Hd & _).
  set (stale := match timers g !! gt_key e with Some _ => _ | None => _ end).
  destruct (stopped g || stale) eqn:Est; intros [= <-].
  - apply orb_true_iff in Est.
    assert (forall key, timers g !! key <> Some p) as Hout.
    { intros key Hk. destruct Est as [Est|Est].
      - by rewrite (inv_quiet _ Hi Est), lookup_empty in Hk.
      - pose proof (inv_timers _ Hi _ _ Hk) as (f & Hf & Hkey & _).
        assert (f = e) as -> by congruence.
        unfold stale in Est. rewrite Hkey, Hk, Hp in Est. simpl in Est.
        by rewrite Nat.eqb_refl, Z.eqb_refl in Est. }
    destruct g as [t b ss n w h np]. cbn [timers stopped stopState nextID wg heap nextPtr] in *.
    apply (inv_finish (mkGrace t b ss n w h np) p e); auto; simpl.
    intros key q Hq. split; [done|]. intros ->. by destruct (Hout key).
  - apply orb_false_iff in Est as [Hns Hst]. unfold stale in Hst.
    destruct (timers g !! gt_key e) as [cur|] eqn:Ht; [|done].
    apply orb_false_iff in Hst as [Hcur _]. apply negb_false_iff, Nat.eqb_eq in Hcur. subst cur.
    unfold set_entry, drop_timer. cbn [timers stopped stopState nextID wg heap nextPtr].
    apply (inv_set_entry g p e); simpl; auto; try done.
    + rewrite Hd, Hph. split; intros [|]; congruence.
    + intros key q. rewrite lookup_delete_Some. naive_solver.
    + intros key q Hq Hne. rewrite lookup_delete_ne; [done|]. congruence.
    + intros key. rewrite lookup_delete_Some. intros [Hne Hk].
      pose proof (inv_timers _ Hi _ _ Hk) as (f & Hf & Hkey & _). congruence.
    + erewrite live_same by done. apply (inv_wg _ Hi).
    + apply (inv_done _ Hi).
Qed.

Lemma inv_return g p g' : inv g -> return_ g p = Some g' -> inv g'.
Proof.
  intros Hi. unfold return_. destruct (heap g !! p) as [e|] eqn:Hp; simpl; [|done].
  case_decide as Hph; [|done]. intros [= <-].
  destruct g as [t b ss n w h np]. cbn [timers stopped stopState nextID wg heap nextPtr] in *.
  apply (inv_finish (mkGrace t b ss n w h np) p e); auto; simpl.
  intros key q Hq. split; [done|]. intros ->.
  pose proof (inv_timers _ Hi _ _ Hq) as (f & Hf & _ & Hpf). simpl in Hf. simplify_eq.
  destruct Hpf; congruence.
Qed.

Lemma inv_waiter g g' : inv g -> waiter g = Some g' -> inv g'.
Proof.
  intros Hi. unfold waiter. case_decide as Hw; [|done]. intros [= <-]. destruct Hw as [Hs Hw].
  destruct Hi as [H1 H2 H3 H4 H5 H6].
  split; cbn [timers stopped stopState nextID wg heap nextPtr]; try done.
  rewrite H4, Hs. split; eauto.
Qed.

Lemma ginv_step g g' : inv g -> step g g' -> inv g'.
Proof.
  intros Hi Hstep. destruct Hstep; eauto using inv_Schedule, inv_Cancel, ginv_beginStop,
    ginv_fire, inv_enter, inv_return, inv_waiter.
Qed.

Lemma ginv_reachable g : rtc step NewGraceController g -> inv g.
Proof.
  intros Hr. assert (inv NewGraceController) as H0 by apply ginv_init. revert H0.
  induction Hr; eauto using ginv_step.
Qed.

(** ** A dead entry never runs *)

(** The entry at [p] can no longer run its callback: it is not the current
    entry of its key and its goroutine has not entered. *)
Definition dead (g : GraceController) (p : nat) : Prop :=
  exists e, heap g !! p = Some e /\ timers g !! gt_key e <> Some p /\
   gt_phase e <> Running /\ gt_phase e <> Armed.

Lemma finish_lookup g p ph q e :
  heap g !! q = Some e ->
  exists e', heap (finish g p ph) !! q = Some e' /\ gt_key e' = gt_key e /\
   (gt_phase e' = gt_phase e \/ gt_phase e' = ph).
Proof.
  intros Hq. unfold finish. destruct (heap g !! p) as [f|] eqn:Hp; [|eauto 6].
  simpl. rewrite lookup_insert. case_decide as Hpq; [subst q; simplify_eq; eauto 6|eauto 6].
Qed.

Lemma finish_timers g p ph : timers (finish g p ph) = timers g.
Proof. unfold finish. by case_match. Qed.

Lemma Cancel_entry g key q e :
  heap g !! q = Some e ->
  exists e', heap (Cancel g key) !! q = Some e' /\ gt_key e' = gt_key e /\
   (gt_phase e' = gt_phase e \/ gt_phase e' = Stopped).
Proof.
  intros Hq. unfold Cancel. destruct (timers g !! key) as [p|]; [|eauto 6].
  cbn [drop_timer heap]. destruct (gt_phase <$> heap g !! p) as [[]|]; eauto 6.
  by apply (finish_lookup (drop_timer g key)).
Qed.

Lemma dead_Cancel g key q : dead g q -> dead (Cancel g key) q.
Proof.
  intros (e & Hq & Ht & Hr & Ha). destruct (Cancel_entry g key q e Hq) as (e' & H1 & H2 & H3).
  exists e'. rewrite Cancel_timers, H2. split; [done|]. split.
  - rewrite lookup_delete. by case_decide.
  - destruct H3 as [->| ->]; done.
Qed.

Lemma dead_foldl_Cancel keys g q : dead g q -> dead (foldl Cancel g keys) q.
Proof. revert g. induction keys; intros g Hd; simpl; auto using dead_Cancel. Qed.

Lemma dead_step g g' p : inv g -> dead g p -> step g g' -> dead g' p.
Proof.
  intros Hi Hd Hstep. destruct Hstep as [g key|g key|g|g g' q Hf|g g' q Hf|g g' q Hf|g g' Hf].
  - unfold Schedule. destruct (stopped g); [done|].
    pose proof (heap_fresh _ (inv_Cancel g key Hi)) as Hfr.
    destruct (dead_Cancel g key p Hd) as (e & Hp & Ht & Hr & Ha).
    set (c := Cancel g key) in *. exists e. cbn [heap timers].
    assert (p <> nextPtr c) by congruence.
    rewrite lookup_insert_ne by done. split; [done|]. split; [|done].
    rewrite lookup_insert. case_decide; [congruence|done].
  - by apply dead_Cancel.
  - unfold beginStop. destruct (stopState g); [done|]. by apply dead_foldl_Cancel.
  - destruct Hd as (e & Hp & Ht & Hr & Ha). unfold fire in Hf.
    destruct (heap g !! q) as [f|] eqn:Hq; simpl in Hf; [|done]. case_decide; simplify_eq.
    exists e. simpl. rewrite lookup_insert_ne by congruence. done.
  - destruct Hd as (e & Hp & Ht & Hr & Ha). unfold enter in Hf.
    destruct (heap g !! q) as [f|] eqn:Hq; simpl in Hf; [|done].
    case_decide as Hph; [|done]. case_match eqn:Est; simplify_eq.
    + destruct (finish_lookup g q Finished p e Hp) as (e' & H1 & H2 & H3). exists e'.
      rewrite finish_timers, H2. destruct H3 as [->| ->]; done.
    + apply orb_false_iff in Est as [_ Est]. case_match eqn:Htk; [|done].
      apply orb_false_iff in Est as [Ec _]. apply negb_false_iff, Nat.eqb_eq in Ec. subst.
      assert (q <> p) by congruence. exists e. cbn [heap timers set_entry drop_timer].
      rewrite lookup_insert_ne by done. split; [done|]. split; [|done].
      rewrite lookup_delete. by case_decide.
  - destruct Hd as (e & Hp & Ht & Hr & Ha). unfold return_ in Hf.
    destruct (heap g !! q) as [f|] eqn:Hq; simpl in Hf; [|done].
    case_decide as Hph; simplify_eq.
    destruct (finish_lookup g q Finished p e Hp) as (e' & H1 & H2 & H3). exists e'.
    rewrite finish_timers, H2. destruct H3 as [->| ->]; done.
  - unfold waiter in Hf. by case_decide; simplify_eq.
Qed.

Lemma dead_forever g g' p : inv g -> dead g p -> rtc step g g' -> dead g' p.
Proof.
  intros Hi Hd Hr. revert Hi Hd. induction Hr; eauto using dead_step, ginv_step.
Qed.

Lemma Cancel_kills g key p :
  inv g -> timers g !! key = Some p -> dead (Cancel g key) p.
Proof.
  intros Hi Ht. pose proof (inv_timers _ Hi _ _ Ht) as (e & Hp & Hkey & Hph).
  unfold Cancel. rewrite Ht. cbn [drop_timer heap]. rewrite Hp. simpl.
  destruct Hph as [Hph|Hph]; rewrite Hph.
  - unfold finish. simpl. rewrite Hp. eexists. simpl. rewrite lookup_insert_eq.
    split; [done|]. simpl. rewrite Hkey, lookup_delete_eq. done.
  - exists e. simpl. rewrite Hkey, lookup_delete_eq, Hph. done.
Qed.

Lemma finish_stopState g p ph : stopState (finish g p ph) = stopState g.
Proof. unfold finish. by case_match. Qed.

Lemma Cancel_stopState g key : stopState (Cancel g key) = stopState g.
Proof. unfold Cancel. repeat case_match; by rewrite ?finish_stopState. Qed.

Lemma closed_step g g' : stopState g = Some true -> step g g' -> stopState g' = Some true.
Proof.
  intros Hs Hstep.
  destruct Hstep as [g key|g key|g|g g' q Hf|g g' q Hf|g g' q Hf|g g' Hf].
  - unfold Schedule. by destruct (stopped g); simpl; rewrite ?Cancel_stopState.
  - by rewrite Cancel_stopState.
  - unfold beginStop. by rewrite Hs.
  - unfold fire in Hf. destruct (heap g !! q); simpl in Hf; [|done]. by run Hf.
  - unfold enter in Hf. destruct (heap g !! q); simpl in Hf; [|done].
    case_decide; [|done]. case_match; simplify_eq; by rewrite ?finish_stopState.
  - unfold return_ in Hf. destruct (heap g !! q); simpl in Hf; [|done].
    case_decide; simplify_eq. by rewrite finish_stopState.
  - unfold waiter in Hf. by case_decide; simplify_eq.
Qed.

Lemma closed_forever g g' : stopState g = Some true -> rtc step g g' -> stopState g' = Some true.
Proof. intros Hs Hr. revert Hs. induction Hr; eauto using closed_step. Qed.

(** ** Properties *)

(** In every interleaving the WaitGroup counter equals the number of
    unfinished entries (so it never goes negative), every key has at most one
    entry that may still run, and after a stop began no entry is current. *)
Theorem grace_invariant g : rtc step NewGraceController g -> inv g.
Proof. apply ginv_reachable. Qed.

(** A callback cancelled before it entered never runs: after [Cancel key]
    the entry that was pending for [key] is not running in any later state. *)
Theorem cancelled_callback_never_runs g g' key p :
  rtc step NewGraceController g -> timers g !! key = Some p ->
  rtc step (Cancel g key) g' ->
  gt_phase <$> heap g' !! p <> Some Running.
Proof.
  intros Hr Ht Hr'. pose proof (ginv_reachable _ Hr) as Hi.
  destruct (dead_forever _ _ _ (inv_Cancel g key Hi) (Cancel_kills g key p Hi Ht) Hr')
    as (e & -> & _ & He & _). simpl. congruence.
Qed.

(** When [Stop] returns ([stopState.done] is closed) no callback is running,
    and none runs in any later state. *)
Theorem stop_waits_for_callbacks g g' p :
  rtc step NewGraceController g -> stopState g = Some true -> rtc step g g' ->
  gt_phase <$> heap g' !! p <> Some Running.
Proof.
  intros Hr Hs Hr'.
  pose proof (closed_forever _ _ Hs Hr') as Hs'.
  assert (inv g') as Hi by (apply ginv_reachable; etrans; eauto).
  pose proof (inv_done_live _ Hi Hs') as Hl. intros Hp.
  destruct (heap g' !! p) as [e|] eqn:He; [|done]. simpl in Hp.
  pose proof (inv_entries _ Hi _ _ He) as (_ & Hd & _).
  unfold live in Hl. rewrite countm_zero in Hl. apply Hl in He.
  apply negb_false_iff in He. destruct (proj1 Hd He); congruence.
Qed.

(** Two keys armed, one fires, then the controller stops and drains. *)
Definition sample_trace : GraceController :=
  Schedule (Schedule NewGraceController "a") "b".

Lemma sample_reachable : rtc step NewGraceController sample_trace.
Proof. eapply rtc_l; [apply step_schedule|]. apply rtc_once, step_schedule. Qed.

Lemma grace_invariant_witness : inv sample_trace /\ wg sample_trace = 2%Z.
Proof. split; [apply grace_invariant, sample_reachable | reflexivity]. Defined.

Lemma cancelled_callback_never_runs_witness :
  gt_phase <$> heap (Schedule (Cancel sample_trace "a") "a") !! 0%nat <> Some Running.
Proof.
  apply (cancelled_callback_never_runs sample_trace _ "a" 0).
  - apply sample_reachable.
  - reflexivity.
  - apply rtc_once, step_schedule.
Defined.

Definition sample_stopped : GraceController :=
  mkGrace ∅ true (Some true) 2 0
    (<[1%nat := mkTimer "b" 2 Stopped true]> (<[0%nat := mkTimer "a" 1 Stopped true]> ∅)) 2.

Lemma stop_waits_for_callbacks_witness :
  rtc step NewGraceController sample_stopped /\
  gt_phase <$> heap sample_stopped !! 0%nat <> Some Running.
Proof.
  assert (rtc step NewGraceController sample_stopped) as Hr.
  { etrans; [apply sample_reachable|]. eapply rtc_l; [apply step_beginStop|].
    apply rtc_once, step_waiter. vm_compute. reflexivity. }
  split; [exact Hr|].
  exact (stop_waits_for_callbacks _ _ 0 Hr eq_refl (rtc_refl _ _)).
Defined.

End Grace.
