(* ===== verification/TokenConnections.v ===== *)
(** * Token-bound connections (internal/opamp/token_connections.go)

    The manager that ties live agent connections to the token that
    authenticated them. Sessions, leases, removal states, runtime timers and
    goroutines are cells named by their allocation number. Every critical
    section of the manager's mutex, every channel close and every blocking
    wait is one atomic step; a goroutine is its remaining program ([goroutine]).
    The session gate (an RWMutex used as a drain barrier) is the number of read
    holds: [gate.Lock(); gate.Unlock()] passes exactly when it is zero. Go maps
    are iterated in the order of [elements]; no statement below depends on it. *)

From S2P Require Import Prelude.

Module TokenConnections.

(** ** State *)

(** [ts_id] and [ts_expires] are the principal's ID and ExpiresAt; [ts_readers]
    counts the read holds of [gate]. *)
(* src/internal/opamp/token_connections.go:19-35 tokenSession *)
Record tokenSession := mkSession {
  ts_id : string; ts_expires : option Time; ts_conn : option nat;
  ts_readers : Z; ts_leases : Z;
  ts_httpLease : option nat; ts_httpOwnsSendGate : bool
}.

(** [Release] unlocks the gate, then decrements the counter, once. *)
Inductive leasePhase := Held | Unlocked | Released.

Global Instance leasePhase_eq_dec : EqDecision leasePhase.
Proof. solve_decision. Defined.

(* src/internal/opamp/token_connections.go:75-79 tokenLease *)
Record tokenLease := mkLease { tl_session : nat; tl_once : leasePhase }.

(** [et_timer] names the runtime timer. *)
(* src/internal/opamp/token_connections.go:109-113 tokenExpiryTimer *)
Record tokenExpiryTimer := mkExpiry { et_timer : nat; et_expiresAt : Time; et_generation : Z }.

(** A channel used as a flag is [true] once closed. *)
(* src/internal/opamp/token_connections.go:115-120 tokenDisableState *)
Record tokenDisableState := mkDisable {
  ds_done : bool; ds_sessions : list nat; ds_removals : list nat; ds_ownedRemovals : list nat
}.

(* src/internal/opamp/token_connections.go:122-128 tokenRemoveState *)
Record tokenRemoveState := mkRemove {
  rm_session : nat; rm_drained : bool; rm_cleanupDone : bool; rm_done : bool
}.

(** [st_disableDone] lists the tokens whose disable was pending. *)
(* src/internal/opamp/token_connections.go:130-137 tokenStopState *)
Record tokenStopState := mkStop {
  st_done : bool; st_sessions : list nat; st_active : list nat;
  st_ownedRemovals : list nat; st_removals : list nat; st_disableDone : list string
}.

Inductive timerPhase := TArmed | TStopped | TFired.

(** A runtime timer with the callback [expireToken tokenID generation]. *)
Record rtimer := mkRT { rt_token : string; rt_generation : Z; rt_delay : Duration;
                        rt_phase : timerPhase }.

(** What is left to run of a goroutine. *)
Inductive disablePhase :=
| DWait (sessions : list nat)     (* waitForTokenSessions(sessions) *)
| DComplete (owned : list nat)    (* completeTokenRemove on the owned removals *)
| DAwait (removals : list nat)    (* <-removal.done *)
| DClose.                         (* close(state.done) *)

Inductive removePhase := RWait | RDrained | RClose.

Inductive expirePhase := EStart | EMid | EWait.

Inductive stopPhase :=
| SWait (active : list nat) | SComplete (owned : list nat) | SAwait (removals : list nat)
| SDisables (ids : list string) | SExpiryWG | SRemoveWG.

(** [GDisable id wg ph]: [completeDisable] of token [id]; [wg] tells whether an
    [expiryWG.Done()] is deferred. *)
Inductive goroutine :=
| GDisable (id : string) (wg : bool) (ph : disablePhase)
| GRemove (r : nat) (ph : removePhase)
| GExpire (id : string) (generation : Z) (ph : expirePhase)
| GStop (ph : stopPhase).

(* src/internal/opamp/token_connections.go:139-156 tokenConnections *)
Record tokenConnections := mkTC {
  sessions : gset nat; sessionsByID : gmap string (gset nat);
  removals : gmap nat nat; removalsByID : gmap string (gmap nat nat);
  disableStates : gmap string tokenDisableState;
  expiryTimers : gmap string tokenExpiryTimer;
  nextTimerID : Z; stopped : bool; stopState : option tokenStopState;
  expiryWG : Z; removeWG : Z
}.

(** The manager with the heap it shares with the rest of the process.
    [panicked] is set by closing a closed channel. *)
Record world := mkWorld {
  mgr : tokenConnections;
  heap : gmap nat tokenSession; rms : gmap nat tokenRemoveState;
  leases : gmap nat tokenLease; timers : gmap nat rtimer;
  pool : gmap nat goroutine; next : nat; panicked : bool
}.

(* src/internal/opamp/token_connections.go:158-182 newTokenConnections *)
Definition newTokenConnections : world :=
  mkWorld (mkTC ∅ ∅ ∅ ∅ ∅ ∅ 0 false None 0 0) ∅ ∅ ∅ ∅ ∅ 0 false.

(** Field updates. *)
Definition set_mgr (w : world) (m : tokenConnections) : world :=
  mkWorld m (heap w) (rms w) (leases w) (timers w) (pool w) (next w) (panicked w).
Definition set_heap (w : world) h : world :=
  mkWorld (mgr w) h (rms w) (leases w) (timers w) (pool w) (next w) (panicked w).
Definition set_rm (w : world) (r : nat) (rm : tokenRemoveState) : world :=
  mkWorld (mgr w) (heap w) (<[r := rm]> (rms w)) (leases w) (timers w) (pool w) (next w)
    (panicked w).
Definition set_leases (w : world) l : world :=
  mkWorld (mgr w) (heap w) (rms w) l (timers w) (pool w) (next w) (panicked w).
Definition set_timers (w : world) t : world :=
  mkWorld (mgr w) (heap w) (rms w) (leases w) t (pool w) (next w) (panicked w).
Definition set_pool (w : world) p : world :=
  mkWorld (mgr w) (heap w) (rms w) (leases w) (timers w) p (next w) (panicked w).
Definition bump (w : world) : world :=
  mkWorld (mgr w) (heap w) (rms w) (leases w) (timers w) (pool w) (S (next w)) (panicked w).
Definition panic_if (b : bool) (w : world) : world :=
  mkWorld (mgr w) (heap w) (rms w) (leases w) (timers w) (pool w) (next w) (panicked w || b).

(** [go f()]. *)
Definition spawn (w : world) (g : goroutine) : world :=
  bump (set_pool w (<[next w := g]> (pool w))).
Definition become (w : world) (i : nat) (g : goroutine) : world :=
  set_pool w (<[i := g]> (pool w)).
Definition exit (w : world) (i : nat) : world := set_pool w (delete i (pool w)).

Definition with_sessions (m : tokenConnections) ss by_id : tokenConnections :=
  mkTC ss by_id (removals m) (removalsByID m) (disableStates m) (expiryTimers m)
    (nextTimerID m) (stopped m) (stopState m) (expiryWG m) (removeWG m).
Definition with_removals (m : tokenConnections) rs by_id : tokenConnections :=
  mkTC (sessions m) (sessionsByID m) rs by_id (disableStates m) (expiryTimers m)
    (nextTimerID m) (stopped m) (stopState m) (expiryWG m) (removeWG m).
Definition with_disables (m : tokenConnections) ds : tokenConnections :=
  mkTC (sessions m) (sessionsByID m) (removals m) (removalsByID m) ds (expiryTimers m)
    (nextTimerID m) (stopped m) (stopState m) (expiryWG m) (removeWG m).
Definition with_expiries (m : tokenConnections) es n : tokenConnections :=
  mkTC (sessions m) (sessionsByID m) (removals m) (removalsByID m) (disableStates m) es
    n (stopped m) (stopState m) (expiryWG m) (removeWG m).
Definition with_stop (m : tokenConnections) st : tokenConnections :=
  mkTC (sessions m) (sessionsByID m) (removals m) (removalsByID m) (disableStates m)
    (expiryTimers m) (nextTimerID m) true (Some st) (expiryWG m) (removeWG m).
Definition with_wgs (m : tokenConnections) e r : tokenConnections :=
  mkTC (sessions m) (sessionsByID m) (removals m) (removalsByID m) (disableStates m)
    (expiryTimers m) (nextTimerID m) (stopped m) (stopState m) e r.

(** [m.sessionsByID[id]] and [m.removalsByID[id]], a nil map reading as empty. *)
Definition byID (m : tokenConnections) (id : string) : gset nat :=
  default ∅ (sessionsByID m !! id).
Definition removing (m : tokenConnections) (id : string) : gmap nat nat :=
  default ∅ (removalsByID m !! id).

(** [principal.ID] of a session cell. *)
Definition sid (w : world) (s : nat) : string := default "" (ts_id <$> heap w !! s).
Definition sexp (w : world) (s : nat) : option Time := heap w !! s ≫= ts_expires.
Definition readers (w : world) (s : nat) : Z := default 0%Z (ts_readers <$> heap w !! s).

(** ** Removal states *)

(* src/internal/opamp/token_connections.go:459-479 registerRemoveLocked *)
Definition registerRemoveLocked (w : world) (s : nat) : world * (nat * bool) :=
  let m := mgr w in
  match removals m !! s with
  | Some r => (w, (r, false))
  | None =>
      let r := next w in
      let id := sid w s in
      let w := bump (set_rm w r (mkRemove s false false false)) in
      let m := with_removals m (<[s := r]> (removals m))
                 (<[id := <[s := r]> (removing m id)]> (removalsByID m)) in
      let m := with_wgs m (expiryWG m) (removeWG m + 1) in
      (spawn (set_mgr w m) (GRemove r RWait), (r, true))
  end.

(** [delete(byID, s); if len(byID) == 0 { delete(m.<map>, id) }]. *)
Definition drop_from_index (idx : gmap string (gset nat)) (id : string) (s : nat) :=
  let rest := default ∅ (idx !! id) ∖ {[s]} in
  if decide (rest = ∅) then delete id idx else <[id := rest]> idx.
Definition drop_from_removals (idx : gmap string (gmap nat nat)) (id : string) (s : nat) :=
  let rest := delete s (default ∅ (idx !! id)) in
  if decide (rest = ∅) then delete id idx else <[id := rest]> idx.

(* src/internal/opamp/token_connections.go:508-515 detachSessionLocked *)
Definition detachSessionLocked (w : world) (s : nat) : world :=
  let m := mgr w in
  set_mgr w (with_sessions m (sessions m ∖ {[s]}) (drop_from_index (sessionsByID m) (sid w s) s)).

(* src/internal/opamp/token_connections.go:499-506 completeTokenRemove *)
Definition completeTokenRemove (w : world) (r : option nat) : world :=
  match r ≫= fun r => (r,.) <$> rms w !! r with
  | Some (r, rm) => set_rm w r (mkRemove (rm_session rm) (rm_drained rm) true (rm_done rm))
  | None => w
  end.

(** ** Expiry timers *)

(** The loop over the tracked sessions of a token. *)
Definition earlier (w : world) (acc : option Time) (s : nat) : option Time :=
  match sexp w s with
  | None => acc
  | Some e => match acc with
              | None => Some e
              | Some cur => if Before e cur then Some e else acc
              end
  end.
Definition earliest (w : world) (ss : gset nat) : option Time :=
  foldl (earlier w) None (elements ss).

Definition stopTimer (w : world) (p : nat) : world :=
  match timers w !! p with
  | Some t =>
      match rt_phase t with
      | TArmed => set_timers w (<[p := mkRT (rt_token t) (rt_generation t) (rt_delay t) TStopped]>
                                  (timers w))
      | _ => w
      end
  | None => w
  end.

(* src/internal/opamp/token_connections.go:517-556 scheduleExpiryLocked *)
Definition scheduleExpiryLocked (w : world) (tokenID : string) (now : Time) : world :=
  let m := mgr w in
  let current := expiryTimers m !! tokenID in
  match earliest w (byID m tokenID) with
  | None =>
      match current with
      | Some cur =>
          let w := stopTimer w (et_timer cur) in
          set_mgr w (with_expiries m (delete tokenID (expiryTimers m)) (nextTimerID m))
      | None => w
      end
  | Some e =>
      if match current with Some cur => Z.eqb (et_expiresAt cur) e | None => false end then w
      else
        let w := match current with Some cur => stopTimer w (et_timer cur) | None => w end in
        let generation := wrap_u64 (nextTimerID m + 1) in
        let p := next w in
        let w := bump (set_timers w (<[p := mkRT tokenID generation (Sub e now) TArmed]> (timers w))) in
        set_mgr w (with_expiries m (<[tokenID := mkExpiry p e generation]> (expiryTimers m))
                     generation)
  end.

(** ** Disabling a token *)

(** The body of the loop over [byID]: drop the session and register its removal. *)
Definition disableSession (st : world * tokenDisableState) (s : nat) : world * tokenDisableState :=
  let '(w, d) := st in
  let ss := if existsb (Nat.eqb s) (ds_sessions d) then ds_sessions d else ds_sessions d ++ [s] in
  let m := mgr w in
  let w := set_mgr w (with_sessions m (sessions m ∖ {[s]}) (sessionsByID m)) in
  let '(w, (r, created)) := registerRemoveLocked w s in
  (w, mkDisable (ds_done d) ss (ds_removals d ++ [r])
        (if created then ds_ownedRemovals d ++ [r] else ds_ownedRemovals d)).

(** [unique] holds exactly the sessions already listed in [state.sessions]. *)
(* src/internal/opamp/token_connections.go:401-436 beginDisableLocked *)
Definition beginDisableLocked (w : world) (tokenID : string) : world * bool :=
  match disableStates (mgr w) !! tokenID with
  | Some _ => (w, false)
  | None =>
      let w := match expiryTimers (mgr w) !! tokenID with
               | Some e =>
                   let w := stopTimer w (et_timer e) in
                   set_mgr w (with_expiries (mgr w) (delete tokenID (expiryTimers (mgr w)))
                                (nextTimerID (mgr w)))
               | None => w
               end in
      let rem := map_to_list (removing (mgr w) tokenID) in
      let '(w, d) := foldl disableSession (w, mkDisable false rem.*1 rem.*2 [])
                       (elements (byID (mgr w) tokenID)) in
      let m := mgr w in
      let m := with_sessions m (sessions m) (delete tokenID (sessionsByID m)) in
      (set_mgr w (with_disables m (<[tokenID := d]> (disableStates m))), true)
  end.

(** The caller (or a goroutine) enters [completeDisable(state)], which starts by
    reading [state.sessions]. *)
(* src/internal/opamp/token_connections.go:438-440 completeDisable *)
Definition completeDisable (w : world) (tokenID : string) (wg : bool) : world :=
  match disableStates (mgr w) !! tokenID with
  | Some d => spawn w (GDisable tokenID wg (DWait (ds_sessions d)))
  | None => w
  end.

(** ** Operations *)

(** The server allocates a session for an authenticated principal. *)
Definition newSession (w : world) (id : string) (expires : option Time) : world :=
  bump (set_heap w (<[next w := mkSession id expires None 0 0 None false]> (heap w))).

(** [principal.ExpiresAt != nil && !principal.ExpiresAt.After(now)]. *)
Definition expired (e : tokenSession) (now : Time) : bool :=
  match ts_expires e with Some t => negb (After t now) | None => false end.

Definition set_session (w : world) (s : nat) (e : tokenSession) : world :=
  set_heap w (<[s := e]> (heap w)).

(* src/internal/opamp/token_connections.go:184-221 Track *)
Definition Track (w : world) (s : nat) (conn : option nat) (now : Time) : world * bool :=
  match heap w !! s, conn with
  | Some e, Some _ =>
      let m := mgr w in
      let id := ts_id e in
      if id =s "" then (w, false)
      else if stopped m then (w, false)
      else if decide (is_Some (disableStates m !! id)) then (w, false)
      else if expired e now then
        let '(w, _) := beginDisableLocked w id in (completeDisable w id false, false)
      else if decide (s ∈ sessions m) then (w, false)
      else
        let w := set_session w s (mkSession id (ts_expires e) conn (ts_readers e) (ts_leases e)
                                    (ts_httpLease e) (ts_httpOwnsSendGate e)) in
        let m := with_sessions m ({[s]} ∪ sessions m)
                   (<[id := {[s]} ∪ byID m id]> (sessionsByID m)) in
        (scheduleExpiryLocked (set_mgr w m) id now, true)
  | _, _ => (w, false)
  end.

(** [gate.RLock(); leases.Add(1); &tokenLease{...}]. *)
Definition admit_lease (w : world) (s : nat) (e : tokenSession) : world * option nat :=
  let w := set_session w s (mkSession (ts_id e) (ts_expires e) (ts_conn e) (ts_readers e + 1)
             (ts_leases e + 1) (ts_httpLease e) (ts_httpOwnsSendGate e)) in
  (bump (set_leases w (<[next w := mkLease s Held]> (leases w))), Some (next w)).

(* src/internal/opamp/token_connections.go:223-262 Acquire *)
Definition Acquire (w : world) (s : nat) (now : Time) : world * option nat :=
  match heap w !! s with
  | None => (w, None)
  | Some e =>
      let m := mgr w in
      if stopped m then (w, None)
      else if decide (is_Some (disableStates m !! ts_id e)) then (w, None)
      else if decide (s ∈ sessions m) then
        if expired e now then
          let '(w, winner) := beginDisableLocked w (ts_id e) in
          if winner then
            let m := mgr w in
            (completeDisable (set_mgr w (with_wgs m (expiryWG m + 1) (removeWG m)))
               (ts_id e) true, None)
          else (w, None)
        else admit_lease w s e
      else (w, None)
  end.

(* src/internal/opamp/token_connections.go:91-107 Fork *)
Definition Fork (w : world) (l : nat) : world * option nat :=
  match leases w !! l with
  | None => (w, None)
  | Some lease =>
      let s := tl_session lease in
      match heap w !! s with
      | None => (w, None)
      | Some e =>
          let m := mgr w in
          if stopped m || bool_decide (is_Some (disableStates m !! ts_id e)) then (w, None)
          else if decide (s ∈ sessions m) then admit_lease w s e
          else (w, None)
      end
  end.

(** The two halves of the body [l.once.Do] runs; a second call does nothing. *)
(* src/internal/opamp/token_connections.go:81-86 Release *)
Definition releaseGate (w : world) (l : nat) : option world :=
  lease ← leases w !! l;
  e ← heap w !! tl_session lease;
  if decide (tl_once lease = Held) then
    let w := set_session w (tl_session lease)
               (mkSession (ts_id e) (ts_expires e) (ts_conn e) (ts_readers e - 1) (ts_leases e)
                  (ts_httpLease e) (ts_httpOwnsSendGate e)) in
    Some (set_leases w (<[l := mkLease (tl_session lease) Unlocked]> (leases w)))
  else None.

(* src/internal/opamp/token_connections.go:87-89 Release *)
Definition releaseCount (w : world) (l : nat) : option world :=
  lease ← leases w !! l;
  e ← heap w !! tl_session lease;
  if decide (tl_once lease = Unlocked) then
    let w := set_session w (tl_session lease)
               (mkSession (ts_id e) (ts_expires e) (ts_conn e) (ts_readers e) (ts_leases e - 1)
                  (ts_httpLease e) (ts_httpOwnsSendGate e)) in
    Some (set_leases w (<[l := mkLease (tl_session lease) Released]> (leases w)))
  else None.

(* src/internal/opamp/token_connections.go:37-46 holdHTTPResponse *)
Definition holdHTTPResponse (w : world) (s : nat) (lease : option nat) : world * bool :=
  match heap w !! s, lease with
  | Some e, Some l =>
      if bool_decide (is_Some (ts_httpLease e)) || ts_httpOwnsSendGate e then (w, false)
      else (set_session w s (mkSession (ts_id e) (ts_expires e) (ts_conn e) (ts_readers e)
              (ts_leases e) (Some l) true), true)
  | _, _ => (w, false)
  end.

(** The critical section; the caller then releases the returned lease. *)
(* src/internal/opamp/token_connections.go:48-57 finishHTTPResponse *)
Definition finishHTTPResponse (w : world) (s : nat) : world * (option nat * bool) :=
  match heap w !! s with
  | Some e =>
      (set_session w s (mkSession (ts_id e) (ts_expires e) (ts_conn e) (ts_readers e)
         (ts_leases e) None false), (ts_httpLease e, ts_httpOwnsSendGate e))
  | None => (w, (None, false))
  end.

(* src/internal/opamp/token_connections.go:264-285 Remove *)
Definition Remove (w : world) (s : nat) (now : Time) : world :=
  let m := mgr w in
  if decide (is_Some (removals m !! s)) then w
  else if stopped m then w
  else if decide (s ∈ sessions m) then
    let w := detachSessionLocked w s in
    let '(w, _) := registerRemoveLocked w s in
    scheduleExpiryLocked w (sid w s) now
  else w.

(* src/internal/opamp/token_connections.go:287-295 CompleteRemove *)
Definition CompleteRemove (w : world) (s : nat) : world :=
  completeTokenRemove w (removals (mgr w) !! s).

(* src/internal/opamp/token_connections.go:309-325 Disable *)
Definition Disable (w : world) (tokenID : string) : world :=
  if stopped (mgr w) then w
  else
    let '(w, winner) := beginDisableLocked w tokenID in
    if winner then completeDisable w tokenID false else w.

(** The loop that registers a removal for every tracked session. *)
Definition stopSession (st : world * list nat) (s : nat) : world * list nat :=
  let '(w, owned) := st in
  let '(w, (r, created)) := registerRemoveLocked w s in
  (w, if created then owned ++ [r] else owned).

(* src/internal/opamp/token_connections.go:336-380 beginStop *)
Definition beginStop (w : world) : world * bool :=
  match stopState (mgr w) with
  | Some _ => (w, false)
  | None =>
      let active := elements (sessions (mgr w)) in
      let '(w, owned) := foldl stopSession (w, []) active in
      let m := mgr w in
      let pending := (map_to_list (filter (fun kv => ds_done kv.2 = false) (disableStates m))).*1 in
      let w := foldl (fun w kv => stopTimer w (et_timer kv.2)) w (map_to_list (expiryTimers m)) in
      let rem := map_to_list (removals m) in
      let st := mkStop false rem.*1 active owned rem.*2 pending in
      let m := with_expiries (with_sessions (with_stop m st) ∅ ∅) ∅ (nextTimerID m) in
      (spawn (set_mgr w m) (GStop (SWait active)), true)
  end.

(** ** Goroutines *)

(** [session.gate.Lock(); session.gate.Unlock()] passes. *)
(* src/internal/opamp/token_connections.go:594-599 waitForTokenSessions *)
Definition drained (w : world) (s : nat) : bool := Z.eqb (readers w s) 0.

Definition removal_done (w : world) (r : nat) : bool := default false (rm_done <$> rms w !! r).

(** [defer m.expiryWG.Done()]. *)
Definition expiryDone (w : world) : world :=
  set_mgr w (with_wgs (mgr w) (expiryWG (mgr w) - 1) (removeWG (mgr w))).

(** The rest of [completeDisable]; the [onDisabled] callback runs outside the
    lock between [DWait []] and [DComplete], where any other step may happen. *)
(* src/internal/opamp/token_connections.go:438-457 completeDisable *)
Definition run_disable (w : world) (i : nat) (id : string) (wg : bool) (ph : disablePhase)
  : option world :=
  d ← disableStates (mgr w) !! id;
  match ph with
  | DWait (s :: rest) => if drained w s then Some (become w i (GDisable id wg (DWait rest))) else None
  | DWait [] => Some (become w i (GDisable id wg (DComplete (ds_ownedRemovals d))))
  | DComplete (r :: rest) =>
      Some (become (completeTokenRemove w (Some r)) i (GDisable id wg (DComplete rest)))
  | DComplete [] => Some (become w i (GDisable id wg (DAwait (ds_removals d))))
  | DAwait (r :: rest) =>
      if removal_done w r then Some (become w i (GDisable id wg (DAwait rest))) else None
  | DAwait [] =>
      let m := with_disables (mgr w) (<[id := mkDisable (ds_done d) [] [] []]>
                                        (disableStates (mgr w))) in
      Some (become (set_mgr w m) i (GDisable id wg DClose))
  | DClose =>
      let w := panic_if (ds_done d) w in
      let m := with_disables (mgr w)
                 (<[id := mkDisable true (ds_sessions d) (ds_removals d) (ds_ownedRemovals d)]>
                    (disableStates (mgr w))) in
      let w := exit (set_mgr w m) i in
      Some (if wg then expiryDone w else w)
  end.

(* src/internal/opamp/token_connections.go:481-497 finishRemove *)
Definition run_remove (w : world) (i : nat) (r : nat) (ph : removePhase) : option world :=
  rm ← rms w !! r;
  match ph with
  | RWait =>
      if drained w (rm_session rm) then
        let w := panic_if (rm_drained rm) w in
        let w := set_rm w r (mkRemove (rm_session rm) true (rm_cleanupDone rm) (rm_done rm)) in
        Some (become w i (GRemove r RDrained))
      else None
  | RDrained =>
      if rm_cleanupDone rm then
        let m := mgr w in
        let s := rm_session rm in
        let m := if decide (removals m !! s = Some r)
                 then with_removals m (delete s (removals m))
                        (drop_from_removals (removalsByID m) (sid w s) s)
                 else m in
        Some (become (set_mgr w m) i (GRemove r RClose))
      else None
  | RClose =>
      let w := panic_if (rm_done rm) w in
      let w := set_rm w r (mkRemove (rm_session rm) (rm_drained rm) (rm_cleanupDone rm) true) in
      let w := set_mgr w (with_wgs (mgr w) (expiryWG (mgr w)) (removeWG (mgr w) - 1)) in
      Some (exit w i)
  end.

(* src/internal/opamp/token_connections.go:558-592 expireToken *)
Definition run_expire (w : world) (i : nat) (id : string) (generation : Z) (ph : expirePhase)
  (now : Time) : option world :=
  let m := mgr w in
  match ph with
  | EStart =>
      if stopped m then Some (exit w i)
      else Some (become (set_mgr w (with_wgs m (expiryWG m + 1) (removeWG m))) i
                   (GExpire id generation EMid))
  | EMid =>
      if stopped m then Some (expiryDone (exit w i))
      else
        match expiryTimers m !! id with
        | None => Some (expiryDone (exit w i))
        | Some e =>
            if negb (Z.eqb (et_generation e) generation) then Some (expiryDone (exit w i))
            else if After (et_expiresAt e) now then
              let w := set_mgr w (with_expiries m (delete id (expiryTimers m)) (nextTimerID m)) in
              Some (expiryDone (exit (scheduleExpiryLocked w id now) i))
            else
              let '(w, winner) := beginDisableLocked w id in
              if winner then Some (completeDisable (exit w i) id true)
              else Some (become w i (GExpire id generation EWait))
        end
  | EWait =>
      d ← disableStates m !! id;
      if ds_done d then Some (expiryDone (exit w i)) else None
  end.

(* src/internal/opamp/token_connections.go:382-399 completeStop *)
Definition run_stop (w : world) (i : nat) (ph : stopPhase) : option world :=
  st ← stopState (mgr w);
  match ph with
  | SWait (s :: rest) => if drained w s then Some (become w i (GStop (SWait rest))) else None
  | SWait [] => Some (become w i (GStop (SComplete (st_ownedRemovals st))))
  | SComplete (r :: rest) =>
      Some (become (completeTokenRemove w (Some r)) i (GStop (SComplete rest)))
  | SComplete [] => Some (become w i (GStop (SAwait (st_removals st))))
  | SAwait (r :: rest) =>
      if removal_done w r then Some (become w i (GStop (SAwait rest))) else None
  | SAwait [] => Some (become w i (GStop (SDisables (st_disableDone st))))
  | SDisables (id :: rest) =>
      if default false (ds_done <$> disableStates (mgr w) !! id)
      then Some (become w i (GStop (SDisables rest))) else None
  | SDisables [] => Some (become w i (GStop SExpiryWG))
  | SExpiryWG => if Z.eqb (expiryWG (mgr w)) 0 then Some (become w i (GStop SRemoveWG)) else None
  | SRemoveWG =>
      if Z.eqb (removeWG (mgr w)) 0 then
        let w := panic_if (st_done st) w in
        Some (exit (set_mgr w (with_stop (mgr w)
          (mkStop true (st_sessions st) (st_active st) (st_ownedRemovals st) (st_removals st)
             (st_disableDone st)))) i)
      else None
  end.

(** One step of goroutine [i]. *)
Definition run_goroutine (w : world) (i : nat) (now : Time) : option world :=
  g ← pool w !! i;
  match g with
  | GDisable id wg ph => run_disable w i id wg ph
  | GRemove r ph => run_remove w i r ph
  | GExpire id gen ph => run_expire w i id gen ph now
  | GStop ph => run_stop w i ph
  end.

(** A runtime timer expires and starts its callback. *)
Definition fireTimer (w : world) (p : nat) : option world :=
  t ← timers w !! p;
  match rt_phase t with
  | TArmed =>
      let w := set_timers w (<[p := mkRT (rt_token t) (rt_generation t) (rt_delay t) TFired]>
                               (timers w)) in
      Some (spawn w (GExpire (rt_token t) (rt_generation t) EStart))
  | _ => None
  end.

(** One atomic step of the process. *)
Inductive step (w : world) : world -> Prop :=
| step_new id expires : step w (newSession w id expires)
| step_track s conn now : step w (Track w s conn now).1
| step_acquire s now : step w (Acquire w s now).1
| step_fork l : step w (Fork w l).1
| step_release_gate l w' : releaseGate w l = Some w' -> step w w'
| step_release_count l w' : releaseCount w l = Some w' -> step w w'
| step_hold s l : step w (holdHTTPResponse w s l).1
| step_finish_http s : step w (finishHTTPResponse w s).1
| step_remove s now : step w (Remove w s now)
| step_complete_remove s : step w (CompleteRemove w s)
| step_disable id : step w (Disable w id)
| step_begin_stop : step w (beginStop w).1
| step_fire p w' : fireTimer w p = Some w' -> step w w'
| step_run i now w' : run_goroutine w i now = Some w' -> step w w'.

End TokenConnections.
