(* ===== verification/TokenInvariants.v ===== *)
(** * Safety of token-bound connections

    Invariants of every interleaving of the steps of [TokenConnections], and
    what they give to the callers of [Disable] and [Stop]. The invariant is
    split by what it talks about: removal states ([RWF]), the session index and
    expiry timers ([SWF]), lease counters ([LWF]) and drain barriers ([COV]). *)

From S2P Require Import Prelude TokenConnections.
Import TokenConnections.

Module TokenInvariants.

(** Unfolds the field updates of the model. *)
Ltac fields :=
  cbn [set_mgr set_heap set_rm set_leases set_timers set_pool bump panic_if spawn become exit
       with_sessions with_removals with_disables with_expiries with_stop with_wgs expiryDone
       set_session newSession
       mgr heap rms leases timers pool next panicked
       sessions sessionsByID removals removalsByID disableStates expiryTimers nextTimerID
       stopped stopState expiryWG removeWG fst snd] in *.

(** ** Lookups after an update of one cell *)

Lemma sid_set_session w s e e' t :
  heap w !! s = Some e -> ts_id e' = ts_id e -> sid (set_session w s e') t = sid w t.
Proof.
  intros Hs He. unfold sid. fields. rewrite lookup_insert. case_decide as Hst; [|done].
  subst t. rewrite Hs. simpl. congruence.
Qed.

Lemma sexp_set_session w s e e' t :
  heap w !! s = Some e -> ts_expires e' = ts_expires e -> sexp (set_session w s e') t = sexp w t.
Proof.
  intros Hs He. unfold sexp. fields. rewrite lookup_insert. case_decide as Hst; [|done].
  subst t. rewrite Hs. done.
Qed.

(** Session cells keep their principal; cells are only added. *)
Definition hsame (w w' : world) : Prop :=
  forall s e, heap w !! s = Some e ->
    exists e', heap w' !! s = Some e' /\ ts_id e' = ts_id e /\ ts_expires e' = ts_expires e.

Lemma hsame_refl w w' : heap w' = heap w -> hsame w w'.
Proof. intros Hh s e Hs. exists e. by rewrite Hh. Qed.

Lemma hsame_set_session w s e e' :
  heap w !! s = Some e -> ts_id e' = ts_id e -> ts_expires e' = ts_expires e ->
  hsame w (set_session w s e').
Proof.
  intros Hs Hid He t f Hf. fields. destruct (decide (t = s)) as [->|Hne].
  - exists e'. rewrite lookup_insert_eq. simplify_eq. done.
  - exists f. by rewrite lookup_insert_ne.
Qed.

Lemma hsame_sid w w' s : hsame w w' -> is_Some (heap w !! s) -> sid w' s = sid w s.
Proof.
  intros Hh [e Hs]. destruct (Hh s e Hs) as (e' & Hs' & Hid & _). unfold sid.
  rewrite Hs, Hs'. simpl. congruence.
Qed.

Lemma hsame_sexp w w' s : hsame w w' -> is_Some (heap w !! s) -> sexp w' s = sexp w s.
Proof.
  intros Hh [e Hs]. destruct (Hh s e Hs) as (e' & Hs' & _ & He). unfold sexp.
  rewrite Hs, Hs'. done.
Qed.

(** ** Removal states *)

Definition isRemove (g : goroutine) : bool :=
  match g with GRemove _ _ => true | _ => false end.

Record RWF (w : world) : Prop := {
  f_pool i : is_Some (pool w !! i) -> (i < next w)%nat;
  f_rms r : is_Some (rms w !! r) -> (r < next w)%nat;
  f_heap s : is_Some (heap w !! s) -> (s < next w)%nat;
  r_idx id s r : removing (mgr w) id !! s = Some r <->
    removals (mgr w) !! s = Some r /\ sid w s = id;
  r_ne id rs : removalsByID (mgr w) !! id = Some rs -> rs <> ∅;
  r_heap s r : removals (mgr w) !! s = Some r -> is_Some (heap w !! s);
  r_map s r : removals (mgr w) !! s = Some r ->
    exists rm i ph, rms w !! r = Some rm /\ rm_session rm = s /\ rm_done rm = false /\
      pool w !! i = Some (GRemove r ph) /\ ph <> RClose;
  r_pool i r ph : pool w !! i = Some (GRemove r ph) ->
    exists rm, rms w !! r = Some rm /\ rm_done rm = false /\ (rm_drained rm = false <-> ph = RWait);
  r_uniq i j r ph ph' : pool w !! i = Some (GRemove r ph) -> pool w !! j = Some (GRemove r ph') -> i = j;
  r_wg : removeWG (mgr w) = Z.of_nat (countm isRemove (pool w))
}.

Lemma RWF_init : RWF newTokenConnections.
Proof.
  split; unfold removing; cbn; intros;
    repeat (rewrite ?lookup_empty in *; cbn in *); try naive_solver.
Qed.

(** Nothing in [RWF] depends on the other fields. *)
Lemma RWF_frame w w' :
  RWF w -> hsame w w' ->
  (forall s, is_Some (heap w' !! s) -> (s < next w')%nat) ->
  removals (mgr w') = removals (mgr w) -> removalsByID (mgr w') = removalsByID (mgr w) ->
  removeWG (mgr w') = removeWG (mgr w) -> rms w' = rms w -> pool w' = pool w ->
  (next w <= next w')%nat -> RWF w'.
Proof.
  intros Hw Hh Hf Hr Hri Hwg Hrm Hp Hn. split; rewrite ?Hr, ?Hri, ?Hwg, ?Hrm, ?Hp; try apply Hw.
  - intros i Hi. apply (f_pool _ Hw) in Hi. lia.
  - intros r Hi. apply (f_rms _ Hw) in Hi. lia.
  - done.
  - intros id s r. unfold removing. rewrite Hri. fold (removing (mgr w) id).
    rewrite (r_idx _ Hw). split; intros [H1 H2]; (split; [done|]).
    + rewrite (hsame_sid w w'); eauto using r_heap.
    + rewrite <-(hsame_sid w w'); eauto using r_heap.
  - intros s r Hs. destruct (r_heap _ Hw _ _ Hs) as [e He]. destruct (Hh s e He) as (e' & ? & _).
    eauto.
Qed.

(** What [registerRemoveLocked] leaves alone. *)
Record ext (w w' : world) : Prop := {
  ext_heap : heap w' = heap w; ext_leases : leases w' = leases w;
  ext_timers : timers w' = timers w; ext_panicked : panicked w' = panicked w;
  ext_dis : disableStates (mgr w') = disableStates (mgr w);
  ext_byID : sessionsByID (mgr w') = sessionsByID (mgr w);
  ext_exp : expiryTimers (mgr w') = expiryTimers (mgr w);
  ext_tid : nextTimerID (mgr w') = nextTimerID (mgr w);
  ext_stopped : stopped (mgr w') = stopped (mgr w);
  ext_stopState : stopState (mgr w') = stopState (mgr w);
  ext_ewg : expiryWG (mgr w') = expiryWG (mgr w);
  ext_rem : removals (mgr w) ⊆ removals (mgr w');
  ext_rms : rms w ⊆ rms w'; ext_pool : pool w ⊆ pool w';
  ext_newpool i g : pool w' !! i = Some g -> pool w !! i = Some g \/ exists r, g = GRemove r RWait;
  ext_count f : (forall r, f (GRemove r RWait) = false) -> countm f (pool w') = countm f (pool w);
  ext_next : (next w <= next w')%nat
}.

Lemma ext_refl w : ext w w.
Proof. split; auto. Qed.

Lemma ext_trans w1 w2 w3 : ext w1 w2 -> ext w2 w3 -> ext w1 w3.
Proof.
  intros H1 H2. split; try solve [etrans; [apply H2|apply H1]].
  - etrans; [apply H1|apply H2].
  - etrans; [apply H1|apply H2].
  - etrans; [apply H1|apply H2].
  - intros i g Hg. destruct (ext_newpool _ _ H2 i g Hg) as [Hg'|?]; [|by right].
    by apply (ext_newpool _ _ H1).
  - intros f Hf. rewrite (ext_count _ _ H2 f Hf). by apply (ext_count _ _ H1).
  - pose proof (ext_next _ _ H1). pose proof (ext_next _ _ H2). lia.
Qed.

Lemma fresh_pool w : RWF w -> pool w !! next w = None.
Proof.
  intros Hw. destruct (pool w !! next w) eqn:E; [|done].
  assert (next w < next w)%nat by (apply (f_pool _ Hw); eauto). lia.
Qed.

Lemma fresh_pool_S w : RWF w -> pool w !! S (next w) = None.
Proof.
  intros Hw. destruct (pool w !! S (next w)) eqn:E; [|done].
  assert (S (next w) < next w)%nat by (apply (f_pool _ Hw); eauto). lia.
Qed.

Lemma fresh_rms w : RWF w -> rms w !! next w = None.
Proof.
  intros Hw. destruct (rms w !! next w) eqn:E; [|done].
  assert (next w < next w)%nat by (apply (f_rms _ Hw); eauto). lia.
Qed.

Lemma register_ext w s : RWF w -> ext w (registerRemoveLocked w s).1.
Proof.
  intros Hw. unfold registerRemoveLocked. destruct (removals (mgr w) !! s) as [r|] eqn:Hr;
    [apply ext_refl|].
  split; fields; try done.
  - by apply insert_subseteq.
  - apply insert_subseteq. by apply fresh_rms.
  - apply insert_subseteq. by apply fresh_pool_S.
  - intros i g. rewrite lookup_insert. case_decide; [|by left]. intros [= <-]. eauto.
  - intros f Hf. rewrite countm_new by by apply fresh_pool_S. by rewrite Hf.
  - lia.
Qed.

Lemma register_result w s :
  removals (mgr (registerRemoveLocked w s).1) !! s = Some (registerRemoveLocked w s).2.1.
Proof.
  unfold registerRemoveLocked. destruct (removals (mgr w) !! s) as [r|] eqn:Hr; [done|].
  fields. apply lookup_insert_eq.
Qed.

Lemma register_other w s t r :
  removals (mgr (registerRemoveLocked w s).1) !! t = Some r -> t <> s ->
  removals (mgr w) !! t = Some r.
Proof.
  unfold registerRemoveLocked. destruct (removals (mgr w) !! s) as [r0|] eqn:Hr; [done|].
  fields. intros Ht Hne. by rewrite lookup_insert_ne in Ht.
Qed.

Lemma register_sessions w s : sessions (mgr (registerRemoveLocked w s).1) = sessions (mgr w).
Proof. unfold registerRemoveLocked. by case_match. Qed.

Lemma register_RWF w s : RWF w -> is_Some (heap w !! s) -> RWF (registerRemoveLocked w s).1.
Proof.
  intros Hw Hs. unfold registerRemoveLocked.
  destruct (removals (mgr w) !! s) as [r|] eqn:Hr; [done|].
  pose proof (fresh_rms _ Hw) as Hfr. pose proof (fresh_pool_S _ Hw) as Hfp.
  split; fields.
  - intros i. rewrite lookup_insert. case_decide; [intros; lia|].
    intros Hi%(f_pool _ Hw). lia.
  - intros i. rewrite lookup_insert. case_decide; [intros; lia|].
    intros Hi%(f_rms _ Hw). lia.
  - intros i Hi%(f_heap _ Hw). lia.
  - intros id t r. unfold removing. fields. change (sid _ t) with (sid w t).
    rewrite lookup_insert. case_decide as Hid; cbn [default].
    + rewrite !lookup_insert. simpl. case_decide as Hst.
      * subst t. rewrite lookup_insert_eq. naive_solver.
      * subst id. rewrite lookup_insert_ne by done. apply (r_idx _ Hw).
    + fold (removing (mgr w) id). rewrite (r_idx _ Hw).
      rewrite lookup_insert. case_decide as Hst; [|done]. subst t. split; [|naive_solver].
      intros [? _]. congruence.
  - intros id rs. rewrite lookup_insert. case_decide; [|apply (r_ne _ Hw)].
    intros [= <-]. apply insert_non_empty.
  - intros t r. rewrite lookup_insert. case_decide; [by subst|]. apply (r_heap _ Hw).
  - intros t r. rewrite lookup_insert. case_decide as Hst.
    + intros [= <-]. subst t. eexists _, _, RWait. rewrite !lookup_insert_eq.
      split_and!; done.
    + intros Ht. destruct (r_map _ Hw _ _ Ht) as (rm & i & ph & H1 & H2 & H3 & H4 & H5).
      exists rm, i, ph. rewrite !lookup_insert_ne; [done|congruence..].
  - intros i r ph. rewrite lookup_insert. case_decide as Hi.
    + intros [= <- <-]. eexists. rewrite lookup_insert_eq. split_and!; done.
    + intros Hp. destruct (r_pool _ Hw _ _ _ Hp) as (rm & H1 & H2 & H3). exists rm.
      rewrite lookup_insert_ne; [done|congruence].
  - assert (forall k ph, pool w !! k = Some (GRemove (next w) ph) -> False) as Hno.
    { intros k ph Hk. destruct (r_pool _ Hw _ _ _ Hk) as (rm & H1 & _). congruence. }
    intros i j r ph ph'. rewrite !lookup_insert.
    case_decide; case_decide; intros Hi Hj; [congruence| | |by eapply (r_uniq _ Hw)].
    + injection Hi as <- <-. by destruct (Hno _ _ Hj).
    + injection Hj as <- <-. by destruct (Hno _ _ Hi).
  - rewrite countm_new by done. simpl. rewrite (r_wg _ Hw). lia.
Qed.

(** Changes of the pool that leave the removal goroutines alone. *)
Lemma RWF_pool w p n :
  RWF w -> (next w <= n)%nat -> (forall i, is_Some (p !! i) -> (i < n)%nat) ->
  (forall i r ph, p !! i = Some (GRemove r ph) <-> pool w !! i = Some (GRemove r ph)) ->
  countm isRemove p = countm isRemove (pool w) ->
  RWF (mkWorld (mgr w) (heap w) (rms w) (leases w) (timers w) p n (panicked w)).
Proof.
  intros Hw Hn Hf Hp Hc. split; fields; try apply Hw; try done.
  - intros r Hr%(f_rms _ Hw). lia.
  - intros r Hr%(f_heap _ Hw). lia.
  - intros s r Hs. destruct (r_map _ Hw _ _ Hs) as (rm & i & ph & H1 & H2 & H3 & H4 & H5).
    exists rm, i, ph. by rewrite Hp.
  - intros i r ph. rewrite Hp. apply (r_pool _ Hw).
  - intros i j r ph ph'. rewrite !Hp. apply (r_uniq _ Hw).
  - rewrite Hc. apply Hw.
Qed.

Lemma RWF_become w i g g' :
  RWF w -> pool w !! i = Some g -> isRemove g = false -> isRemove g' = false ->
  RWF (become w i g').
Proof.
  intros Hw Hi Hg Hg'. apply RWF_pool; [done|lia| | |].
  - intros j. rewrite lookup_insert. case_decide as Hj; [|apply (f_pool _ Hw)].
    subst j. intros _. apply (f_pool _ Hw). eauto.
  - intros j r ph. rewrite lookup_insert. case_decide as Hj; [|done]. subst j.
    rewrite Hi. split; intros [= ->]; done.
  - pose proof (countm_update isRemove (pool w) i g g' Hi) as Hc. rewrite Hg, Hg' in Hc. done.
Qed.

Lemma RWF_exit w i g : RWF w -> pool w !! i = Some g -> isRemove g = false -> RWF (exit w i).
Proof.
  intros Hw Hi Hg. apply RWF_pool; [done|lia| | |].
  - intros j. rewrite lookup_delete. case_decide; [by intros [? ?]|]. apply (f_pool _ Hw).
  - intros j r ph. rewrite lookup_delete. case_decide as Hj; [|done]. subst j.
    rewrite Hi. split; [done|]. intros [= ->]. done.
  - pose proof (countm_delete isRemove (pool w) i g Hi) as Hc. rewrite Hg in Hc. done.
Qed.

Lemma RWF_spawn w g : RWF w -> isRemove g = false -> RWF (spawn w g).
Proof.
  intros Hw Hg. pose proof (fresh_pool _ Hw) as Hfr. apply (RWF_pool w (<[next w := g]> (pool w)) (S (next w))); [done|lia| | |].
  - intros j. rewrite lookup_insert. case_decide; [intros; lia|].
    intros Hj%(f_pool _ Hw). lia.
  - intros j r ph. rewrite lookup_insert. case_decide as Hj; [|done]. subst j.
    rewrite Hfr. split; [|done]. intros [= ->]. done.
  - rewrite countm_new by done. by rewrite Hg.
Qed.

(** Updating a removal state without touching its session or [done] flag. *)
Lemma RWF_set_rm w r rm rm' :
  RWF w -> rms w !! r = Some rm -> rm_session rm' = rm_session rm -> rm_done rm' = rm_done rm ->
  rm_drained rm' = rm_drained rm -> RWF (set_rm w r rm').
Proof.
  intros Hw Hr Hs Hd Hdr. split; fields; try apply Hw.
  - intros q. rewrite lookup_insert. case_decide as Hq; [|apply (f_rms _ Hw)]. subst q.
    intros _. apply (f_rms _ Hw). eauto.
  - intros s q Hq. destruct (r_map _ Hw _ _ Hq) as (rq & i & ph & H1 & H2 & H3 & H4 & H5).
    destruct (decide (q = r)) as [->|].
    + exists rm', i, ph. rewrite lookup_insert_eq. simplify_eq. split_and!; congruence.
    + exists rq, i, ph. by rewrite lookup_insert_ne.
  - intros i q ph Hq. destruct (r_pool _ Hw _ _ _ Hq) as (rq & H1 & H2 & H3).
    destruct (decide (q = r)) as [->|].
    + exists rm'. rewrite lookup_insert_eq. simplify_eq. rewrite Hd, Hdr. done.
    + exists rq. by rewrite lookup_insert_ne.
Qed.

Lemma RWF_completeTokenRemove w r : RWF w -> RWF (completeTokenRemove w r).
Proof.
  intros Hw. unfold completeTokenRemove. destruct r as [r|]; [|done]. simpl.
  destruct (rms w !! r) as [rm|] eqn:Hr; [|done]. simpl. by apply (RWF_set_rm w r rm).
Qed.

(** [drop_from_removals] removes exactly one entry of the index. *)
Lemma drop_from_removals_lookup idx id s id' t :
  default ∅ (drop_from_removals idx id s !! id') !! t =
  (if decide (id' = id /\ t = s) then None else default ∅ (idx !! id') !! t).
Proof.
  unfold drop_from_removals. case_decide as Hd.
  - rewrite lookup_delete. case_decide as Hid; simpl.
    + subst id'. rewrite lookup_empty. case_decide as Hs; [done|].
      assert (delete s (default ∅ (idx !! id)) !! t = None) as Hn by by rewrite Hd, lookup_empty.
      rewrite lookup_delete_ne in Hn by naive_solver. done.
    + case_decide; [naive_solver|done].
  - rewrite lookup_insert. case_decide as Hid; simpl.
    + subst id'. rewrite lookup_delete. do 2 case_decide; naive_solver.
    + case_decide; [naive_solver|done].
Qed.

Lemma uniq_become w i r ph ph1 :
  RWF w -> pool w !! i = Some (GRemove r ph) ->
  forall k j q ph' ph'', <[i := GRemove r ph1]> (pool w) !! k = Some (GRemove q ph') ->
    <[i := GRemove r ph1]> (pool w) !! j = Some (GRemove q ph'') -> k = j.
Proof.
  intros Hw Hi k j q ph' ph''. rewrite !lookup_insert.
  case_decide; case_decide; intros Hk Hj; [congruence| | |by eapply (r_uniq _ Hw)].
  - injection Hk as <- <-. subst k. by eapply (r_uniq _ Hw).
  - injection Hj as <- <-. subst j. by eapply (r_uniq _ Hw).
Qed.

Ltac remove_setup :=
  intros Hw Hi Hrun;
  match type of Hi with _ = Some (GRemove ?r _) =>
    destruct (r_pool _ Hw _ _ _ Hi) as (rm & Hrm & Hdone & Hdr);
    assert (forall k ph', pool _ !! k = Some (GRemove r ph') -> k = _) as Hun
      by (intros k ph' Hk; exact (r_uniq _ Hw _ _ _ _ _ Hk Hi));
    unfold run_remove in Hrun; rewrite Hrm in Hrun; simpl in Hrun
  end.

Lemma close_drained_RWF w i r w' :
  RWF w -> pool w !! i = Some (GRemove r RWait) -> run_remove w i r RWait = Some w' -> RWF w'.
Proof.
  remove_setup.
  (* the drained channel closes *)
  destruct (drained w (rm_session rm)) eqn:Ed; simplify_eq.
  set (rm' := mkRemove (rm_session rm) true (rm_cleanupDone rm) (rm_done rm)).
  split; fields; try apply Hw.
  - intros k. rewrite lookup_insert. case_decide; [subst; intros _|]; apply (f_pool _ Hw); eauto.
  - intros q. rewrite lookup_insert. case_decide; [subst; intros _|]; apply (f_rms _ Hw); eauto.
  - intros s q Hq. destruct (r_map _ Hw _ _ Hq) as (rq & k & ph & H1 & H2 & H3 & H4 & H5).
    destruct (decide (q = r)) as [->|].
    + exists rm', i, RDrained. rewrite !lookup_insert_eq. simplify_eq. done.
    + exists rq, k, ph. rewrite !lookup_insert_ne by congruence. done.
  - intros k q ph. rewrite lookup_insert. case_decide as Hk.
    + intros [= <- <-]. exists rm'. by rewrite lookup_insert_eq.
    + intros Hq. rewrite lookup_insert_ne; [by apply (r_pool _ Hw k)|].
      intros <-. by apply Hk; symmetry; eapply Hun.
  - by eapply uniq_become.
  - pose proof (countm_update isRemove (pool w) i _ (GRemove r RDrained) Hi) as Hc.
    simpl in Hc. rewrite (r_wg _ Hw). lia.
Qed.

Lemma drop_removal_RWF w i r w' :
  RWF w -> pool w !! i = Some (GRemove r RDrained) -> run_remove w i r RDrained = Some w' -> RWF w'.
Proof.
  remove_setup.
  (* the removal leaves the maps *)
  destruct (rm_cleanupDone rm) eqn:Ec; simplify_eq.
  pose proof (countm_update isRemove (pool w) i _ (GRemove r RClose) Hi) as Hc. simpl in Hc.
  assert (forall s, removals (mgr w) !! s = Some r -> s = rm_session rm) as Hrs.
  { intros s Hs. destruct (r_map _ Hw _ _ Hs) as (rq & ? & ? & ? & ? & _). congruence. }
  split; fields.
  - intros k. rewrite lookup_insert. case_decide; [subst; intros _|]; apply (f_pool _ Hw); eauto.
  - apply Hw.
  - apply Hw.
  - intros id t q. case_decide as Hr; [|apply (r_idx _ Hw)]. unfold removing. fields.
    change (sid _ t) with (sid w t). rewrite drop_from_removals_lookup, lookup_delete.
    fold (removing (mgr w) id). pose proof (r_idx _ Hw id t q) as Hidx.
    do 2 case_decide; naive_solver.
  - intros id rs. case_decide as Hr; [|apply (r_ne _ Hw)]. fields. unfold drop_from_removals.
    case_decide as Hd; [rewrite lookup_delete|rewrite lookup_insert];
      (case_decide; [|apply (r_ne _ Hw)]); congruence.
  - intros s q. case_decide as Hr; fields; [rewrite lookup_delete; case_decide; [done|]|];
      apply (r_heap _ Hw).
  - intros s q Hq.
    assert (removals (mgr w) !! s = Some q /\ q <> r) as [Hq' Hne].
    { case_decide as Hr; fields.
      * rewrite lookup_delete_Some in Hq. destruct Hq as [Hs Hq]. split; [done|].
        intros ->. by apply Hs; symmetry; apply Hrs.
      * split; [done|]. intros ->. by rewrite (Hrs _ Hq) in Hq. }
    destruct (r_map _ Hw _ _ Hq') as (rq & k & ph & H1 & H2 & H3 & H4 & H5).
    exists rq, k, ph. rewrite lookup_insert_ne by congruence. done.
  - intros k q ph. rewrite lookup_insert. case_decide as Hk; [|apply (r_pool _ Hw k)].
    intros [= <- <-]. exists rm. split_and!; [done..|]. naive_solver.
  - by eapply uniq_become.
  - case_decide; fields; rewrite (r_wg _ Hw); lia.
Qed.

Lemma close_done_RWF w i r w' :
  RWF w -> pool w !! i = Some (GRemove r RClose) -> run_remove w i r RClose = Some w' -> RWF w'.
Proof.
  remove_setup.
  (* the done channel closes *)
  simplify_eq. pose proof (countm_delete isRemove (pool w) i _ Hi) as Hc. simpl in Hc.
  split; fields; try apply Hw.
  - intros k. rewrite lookup_delete. case_decide; [by intros [? ?]|]. apply (f_pool _ Hw).
  - intros q. rewrite lookup_insert. case_decide; [subst; intros _|]; apply (f_rms _ Hw); eauto.
  - intros s q Hq. destruct (r_map _ Hw _ _ Hq) as (rq & k & ph & H1 & H2 & H3 & H4 & H5).
    assert (q <> r) as Hqr.
    { intros ->. pose proof (Hun _ _ H4). subst k. congruence. }
    exists rq, k, ph. rewrite lookup_insert_ne, lookup_delete_ne by congruence. done.
  - intros k q ph. rewrite lookup_delete. case_decide as Hk; [done|]. intros Hq.
    rewrite lookup_insert_ne; [by apply (r_pool _ Hw k)|]. intros <-.
    by apply Hk; symmetry; eapply Hun.
  - intros k j q ph ph'. rewrite !lookup_delete. do 2 case_decide; try done. apply (r_uniq _ Hw).
  - rewrite (r_wg _ Hw). lia.
Qed.

Lemma run_remove_RWF w i r ph w' :
  RWF w -> pool w !! i = Some (GRemove r ph) -> run_remove w i r ph = Some w' -> RWF w'.
Proof.
  destruct ph; eauto using close_drained_RWF, drop_removal_RWF, close_done_RWF.
Qed.

(** ** The earliest expiry of a set of sessions *)

Lemma earlier_fold_None w l acc :
  foldl (earlier w) acc l = None <-> acc = None /\ forall s, s ∈ l -> sexp w s = None.
Proof.
  revert acc. induction l as [|s l IH]; intros acc; simpl.
  - split; [|naive_solver]. intros ->. split; [done|]. intros s Hs. by apply not_elem_of_nil in Hs.
  - rewrite IH. unfold earlier at 1. setoid_rewrite elem_of_cons.
    destruct (sexp w s) eqn:Es; [|naive_solver]. split.
    + intros [Hacc _]. by repeat case_match.
    + intros [_ Hl]. rewrite (Hl s) in Es by auto. done.
Qed.

Lemma earlier_fold_Some w l acc t :
  foldl (earlier w) acc l = Some t ->
  (acc = Some t \/ exists s, s ∈ l /\ sexp w s = Some t) /\
  (forall a, acc = Some a -> (t <= a)%Z) /\
  (forall s e, s ∈ l -> sexp w s = Some e -> (t <= e)%Z).
Proof.
  revert acc. induction l as [|s l IH]; intros acc; simpl.
  - intros ->. split_and!; [by left|intros a [= ->]; lia|]. intros s e Hs. by apply not_elem_of_nil in Hs.
  - intros Hf. destruct (IH _ Hf) as (H1 & H2 & H3). unfold earlier in H1, H2.
    setoid_rewrite elem_of_cons. destruct (sexp w s) as [e|] eqn:Es.
    + destruct acc as [a|]; [unfold Before in H1, H2; destruct (Z.ltb_spec e a)|].
      * specialize (H2 e eq_refl). split_and!; [naive_solver|intros ? [= <-]; lia|].
        intros s' e' [->|Hs'] He'; [simplify_eq; lia|eauto].
      * specialize (H2 a eq_refl). split_and!; [naive_solver|intros ? [= <-]; lia|].
        intros s' e' [->|Hs'] He'; [simplify_eq; lia|eauto].
      * specialize (H2 e eq_refl). split_and!; [naive_solver|done|].
        intros s' e' [->|Hs'] He'; [simplify_eq; lia|eauto].
    + split_and!; [naive_solver|done|]. intros s' e' [->|Hs'] He'; [congruence|eauto].
Qed.

(** [earliest] is the minimum of the expiries present. *)
Lemma earliest_spec w ss :
  match earliest w ss with
  | None => forall s, s ∈ ss -> sexp w s = None
  | Some t => (exists s, s ∈ ss /\ sexp w s = Some t) /\
              forall s e, s ∈ ss -> sexp w s = Some e -> (t <= e)%Z
  end.
Proof.
  unfold earliest. destruct (foldl _ _ _) as [t|] eqn:Ef.
  - apply earlier_fold_Some in Ef as ([|(s & Hs & He)] & _ & H3); [done|].
    split; [exists s|intros s' e' Hs']; [split; [|done]|apply H3]; by apply elem_of_elements.
  - apply earlier_fold_None in Ef as [_ H]. intros s Hs. apply H. by apply elem_of_elements.
Qed.

Lemma earliest_ext w w' ss : (forall s, s ∈ ss -> sexp w' s = sexp w s) -> earliest w' ss = earliest w ss.
Proof.
  intros Hs. unfold earliest. assert (forall s, s ∈ elements ss -> sexp w' s = sexp w s) as Hl
    by (intros s Hin; apply Hs; by apply elem_of_elements).
  generalize (@None Time). induction (elements ss) as [|s l IH]; intros acc; simpl; [done|].
  assert (earlier w' acc s = earlier w acc s) as ->.
  { unfold earlier. rewrite Hl; [done|]. apply elem_of_cons. by left. }
  apply IH. intros s' Hs'. apply Hl. apply elem_of_cons. by right.
Qed.

Lemma earliest_empty w : earliest w ∅ = None.
Proof. unfold earliest. by rewrite elements_empty. Qed.

(** ** The session index and the expiry timers *)

Record IDX (w : world) : Prop := {
  s_idx id s : s ∈ byID (mgr w) id <-> s ∈ sessions (mgr w) /\ sid w s = id;
  s_ne id ss : sessionsByID (mgr w) !! id = Some ss -> ss <> ∅;
  s_heap s : s ∈ sessions (mgr w) -> is_Some (heap w !! s);
  s_dis id : is_Some (disableStates (mgr w) !! id) -> byID (mgr w) id = ∅;
  s_stopped : stopped (mgr w) = true -> sessions (mgr w) = ∅;
  s_stop : stopped (mgr w) = true <-> is_Some (stopState (mgr w))
}.

(** The timer of a token is set to the earliest expiry of its sessions. *)
Record SWF (w : world) : Prop := {
  s_index :> IDX w;
  s_exp id : et_expiresAt <$> expiryTimers (mgr w) !! id = earliest w (byID (mgr w) id)
}.

Lemma SWF_init : SWF newTokenConnections.
Proof.
  split; [split|]; unfold byID; cbn; intros; repeat (rewrite ?lookup_empty in *; cbn in *);
    try naive_solver.
  - set_solver.
  - by apply not_elem_of_empty in H.
Qed.

Lemma SWF_frame w w' :
  SWF w -> hsame w w' ->
  sessions (mgr w') = sessions (mgr w) -> sessionsByID (mgr w') = sessionsByID (mgr w) ->
  (forall id, is_Some (disableStates (mgr w') !! id) -> is_Some (disableStates (mgr w) !! id)) ->
  expiryTimers (mgr w') = expiryTimers (mgr w) ->
  stopped (mgr w') = stopped (mgr w) ->
  (is_Some (stopState (mgr w')) <-> is_Some (stopState (mgr w))) -> SWF w'.
Proof.
  intros Hw Hh Hs Hi Hd He Hst Hss.
  assert (forall id, byID (mgr w') id = byID (mgr w) id) as Hby by (intros; unfold byID; by rewrite Hi).
  split; [split|]; intros *; rewrite ?Hby, ?Hs, ?Hi, ?He, ?Hst, ?Hss; try apply Hw; auto.
  - rewrite (s_idx _ Hw). split; intros [H1 H2]; (split; [done|]);
      [rewrite (hsame_sid w w')|rewrite <-(hsame_sid w w')]; eauto using s_heap, s_index.
  - intros Hin. destruct (s_heap _ Hw _ Hin) as [e He']. destruct (Hh _ _ He') as (e' & ? & _). eauto.
  - intros Hx. apply (s_dis _ Hw). auto.
  - rewrite (s_exp _ Hw). symmetry. apply earliest_ext. intros s Hin%(s_idx _ Hw).
    apply (hsame_sexp w w'); [done|]. apply (s_heap _ Hw), Hin.
Qed.

Lemma drop_from_index_elem idx id s id' t :
  t ∈ default ∅ (drop_from_index idx id s !! id') <->
  t ∈ default ∅ (idx !! id') /\ (id' = id -> t <> s).
Proof.
  unfold drop_from_index. case_decide as Hd.
  - rewrite lookup_delete. case_decide as Hid; simpl; [subst; set_solver|naive_solver].
  - rewrite lookup_insert. case_decide as Hid; simpl; [subst; set_solver|naive_solver].
Qed.

Lemma stopTimer_mgr w p : mgr (stopTimer w p) = mgr w.
Proof. unfold stopTimer. by repeat case_match. Qed.

(** [stopTimer] and [scheduleExpiryLocked] only touch timers. *)
Record tframe (w w' : world) : Prop := {
  tf_heap : heap w' = heap w; tf_rms : rms w' = rms w; tf_leases : leases w' = leases w;
  tf_pool : pool w' = pool w; tf_panicked : panicked w' = panicked w;
  tf_next : (next w <= next w')%nat;
  tf_sessions : sessions (mgr w') = sessions (mgr w);
  tf_byID : sessionsByID (mgr w') = sessionsByID (mgr w);
  tf_removals : removals (mgr w') = removals (mgr w);
  tf_removalsByID : removalsByID (mgr w') = removalsByID (mgr w);
  tf_dis : disableStates (mgr w') = disableStates (mgr w);
  tf_stopped : stopped (mgr w') = stopped (mgr w);
  tf_stopState : stopState (mgr w') = stopState (mgr w);
  tf_ewg : expiryWG (mgr w') = expiryWG (mgr w);
  tf_rwg : removeWG (mgr w') = removeWG (mgr w)
}.

Lemma tframe_trans w1 w2 w3 : tframe w1 w2 -> tframe w2 w3 -> tframe w1 w3.
Proof.
  intros H1 H2. split; try solve [etrans; [apply H2|apply H1]].
  pose proof (tf_next _ _ H1). pose proof (tf_next _ _ H2). lia.
Qed.

Lemma stopTimer_tframe w p : tframe w (stopTimer w p).
Proof. unfold stopTimer. repeat case_match; by split. Qed.

Lemma schedule_tframe w id now : tframe w (scheduleExpiryLocked w id now).
Proof.
  unfold scheduleExpiryLocked.
  repeat case_match; try (by split; fields; auto; lia);
    match goal with |- context [stopTimer w ?p] =>
      pose proof (stopTimer_tframe w p) as Hs; destruct Hs; split; fields; auto; lia end.
Qed.

Lemma schedule_expiry w id now id' :
  et_expiresAt <$> expiryTimers (mgr (scheduleExpiryLocked w id now)) !! id' =
  if decide (id' = id) then earliest w (byID (mgr w) id)
  else et_expiresAt <$> expiryTimers (mgr w) !! id'.
Proof.
  unfold scheduleExpiryLocked. destruct (earliest w (byID (mgr w) id)) as [e|] eqn:Ee.
  - case_if.
    + destruct (expiryTimers (mgr w) !! id) as [cur|] eqn:Ec; [|done].
      case_decide; [|done]. subst. rewrite Ec. simpl. f_equal. by apply Z.eqb_eq.
    + fields. rewrite lookup_insert. repeat case_decide; simplify_eq; done.
  - destruct (expiryTimers (mgr w) !! id) as [cur|] eqn:Ec.
    + fields. rewrite lookup_delete. repeat case_decide; simplify_eq; done.
    + case_decide; [|done]. subst. by rewrite Ec.
Qed.

Lemma schedule_RWF w id now : RWF w -> RWF (scheduleExpiryLocked w id now).
Proof.
  intros Hw. pose proof (schedule_tframe w id now) as [].
  apply (RWF_frame w); auto using hsame_refl.
  intros s Hs. rewrite tf_heap0 in Hs. apply (f_heap _ Hw) in Hs. lia.
Qed.

(** ** Beginning a disable *)

Lemma set_sessions_ext w ss : ext w (set_mgr w (with_sessions (mgr w) ss (sessionsByID (mgr w)))).
Proof. split; fields; auto. Qed.

Lemma set_sessions_RWF w ss idx : RWF w -> RWF (set_mgr w (with_sessions (mgr w) ss idx)).
Proof. intros Hw. apply (RWF_frame w); fields; auto using hsame_refl, f_heap. Qed.

Record folded (w w' : world) (l : list nat) (d d' : tokenDisableState) : Prop := {
  fo_RWF : RWF w'; fo_ext : ext w w';
  fo_sessions : sessions (mgr w') = sessions (mgr w) ∖ list_to_set l;
  fo_done : ds_done d' = ds_done d;
  fo_list s : s ∈ ds_sessions d' <-> s ∈ ds_sessions d \/ s ∈ l;
  fo_rems r : r ∈ ds_removals d -> r ∈ ds_removals d';
  fo_new s r : removals (mgr w') !! s = Some r ->
    removals (mgr w) !! s = Some r /\ s ∉ l \/ r ∈ ds_removals d' /\ s ∈ l
}.

Lemma existsb_nat_elem (x : nat) l : existsb (Nat.eqb x) l = true <-> x ∈ l.
Proof.
  rewrite existsb_exists, list_elem_of_In. setoid_rewrite Nat.eqb_eq. naive_solver.
Qed.

Lemma disable_one w d s :
  RWF w -> is_Some (heap w !! s) ->
  folded w (disableSession (w, d) s).1 [s] d (disableSession (w, d) s).2.
Proof.
  intros Hw Hs. unfold disableSession.
  set (w1 := set_mgr w (with_sessions (mgr w) (sessions (mgr w) ∖ {[s]}) (sessionsByID (mgr w)))).
  assert (RWF w1) as Hw1 by by apply set_sessions_RWF.
  pose proof (register_RWF w1 s Hw1 Hs) as HR. pose proof (register_ext w1 s Hw1) as He.
  pose proof (register_result w1 s) as Hres. pose proof (register_other w1 s) as Hoth.
  pose proof (register_sessions w1 s) as Hss.
  destruct (registerRemoveLocked w1 s) as [w2 [r c]]. cbn [fst snd] in *. split.
  - done.
  - eapply ext_trans; [apply (set_sessions_ext w)|done].
  - rewrite Hss. unfold w1. fields. set_solver.
  - done.
  - intros t. cbn [ds_sessions]. rewrite list_elem_of_singleton. case_if.
    + apply existsb_nat_elem in E. naive_solver.
    + rewrite elem_of_app, list_elem_of_singleton. done.
  - intros q Hq. cbn [ds_removals]. apply elem_of_app. by left.
  - intros t q Hq. cbn [ds_removals]. rewrite elem_of_app, !list_elem_of_singleton.
    destruct (decide (t = s)) as [->|Hne]; [right; split; [right; congruence|done]|].
    left. split; [|done]. by apply (Hoth t q).
Qed.

Lemma disable_fold l w d :
  RWF w -> (forall s, s ∈ l -> is_Some (heap w !! s)) ->
  folded w (foldl disableSession (w, d) l).1 l d (foldl disableSession (w, d) l).2.
Proof.
  revert w d. induction l as [|s l IH]; intros w d Hw Hl.
  - simpl. split; auto using ext_refl; [set_solver|set_solver|].
    intros s r Hr. left. split; [done|]. apply not_elem_of_nil.
  - cbn [foldl]. assert (is_Some (heap w !! s)) as Hs by (apply Hl, elem_of_cons; by left).
    pose proof (disable_one w d s Hw Hs) as H1.
    destruct (disableSession (w, d) s) as [w1 d1]. cbn [fst snd] in H1.
    assert (forall t, t ∈ l -> is_Some (heap w1 !! t)) as Hl1.
    { intros t Ht. rewrite (ext_heap _ _ (fo_ext _ _ _ _ _ H1)). apply Hl, elem_of_cons. by right. }
    pose proof (IH w1 d1 (fo_RWF _ _ _ _ _ H1) Hl1) as H2. destruct H1, H2. split.
    + done.
    + by eapply ext_trans.
    + rewrite fo_sessions1, fo_sessions0. set_solver.
    + congruence.
    + intros t. rewrite fo_list1, fo_list0, list_elem_of_singleton, elem_of_cons. tauto.
    + auto.
    + intros t r Hr. rewrite elem_of_cons.
      destruct (fo_new1 t r Hr) as [[Hr1 Hnl]|[Hr1 Hin]]; [|naive_solver].
      destruct (fo_new0 t r Hr1) as [[Hr0 Hns]|[Hr0 Hin]]; rewrite list_elem_of_singleton in *;
        naive_solver.
Qed.

(** What a winning [beginDisableLocked] establishes. *)
Record begun (w w' : world) (id : string) (d : tokenDisableState) : Prop := {
  bg_RWF : RWF w';
  bg_heap : heap w' = heap w; bg_leases : leases w' = leases w;
  bg_panicked : panicked w' = panicked w;
  bg_sessions : sessions (mgr w') = sessions (mgr w) ∖ byID (mgr w) id;
  bg_byID : sessionsByID (mgr w') = delete id (sessionsByID (mgr w));
  bg_exp : expiryTimers (mgr w') = delete id (expiryTimers (mgr w));
  bg_dis : disableStates (mgr w') = <[id := d]> (disableStates (mgr w));
  bg_done : ds_done d = false;
  bg_tracked s : s ∈ byID (mgr w) id -> s ∈ ds_sessions d;
  bg_listed s : s ∈ ds_sessions d -> sid w s = id;
  bg_rems s r : removals (mgr w') !! s = Some r -> sid w s = id -> r ∈ ds_removals d;
  bg_new s r : removals (mgr w') !! s = Some r -> removals (mgr w) !! s = Some r \/ sid w s = id;
  bg_stopped : stopped (mgr w') = stopped (mgr w);
  bg_stopState : stopState (mgr w') = stopState (mgr w);
  bg_ewg : expiryWG (mgr w') = expiryWG (mgr w);
  bg_rem : removals (mgr w) ⊆ removals (mgr w');
  bg_rms : rms w ⊆ rms w'; bg_pool : pool w ⊆ pool w';
  bg_newpool i g : pool w' !! i = Some g -> pool w !! i = Some g \/ exists r, g = GRemove r RWait;
  bg_count f : (forall r, f (GRemove r RWait) = false) -> countm f (pool w') = countm f (pool w);
  bg_next : (next w <= next w')%nat
}.

(** The first part of [beginDisableLocked] drops the expiry timer. *)
Definition drop_expiry (w : world) (id : string) : world :=
  match expiryTimers (mgr w) !! id with
  | Some e => set_mgr (stopTimer w (et_timer e))
                (with_expiries (mgr (stopTimer w (et_timer e)))
                   (delete id (expiryTimers (mgr (stopTimer w (et_timer e)))))
                   (nextTimerID (mgr (stopTimer w (et_timer e)))))
  | None => w
  end.

Lemma drop_expiry_tframe w id : tframe w (drop_expiry w id).
Proof.
  unfold drop_expiry. case_match; [|by split].
  match goal with |- context [stopTimer w ?p] =>
    pose proof (stopTimer_tframe w p) as Hs; destruct Hs; by split end.
Qed.

Lemma drop_expiry_timers w id : expiryTimers (mgr (drop_expiry w id)) = delete id (expiryTimers (mgr w)).
Proof.
  unfold drop_expiry. destruct (expiryTimers (mgr w) !! id) eqn:E.
  - fields. by rewrite stopTimer_mgr.
  - symmetry. by apply delete_id.
Qed.

Lemma tframe_RWF w w' : RWF w -> tframe w w' -> RWF w'.
Proof.
  intros Hw []. apply (RWF_frame w); auto using hsame_refl.
  intros s Hs. rewrite tf_heap0 in Hs. apply (f_heap _ Hw) in Hs. lia.
Qed.

Lemma begin_spec w id :
  RWF w -> SWF w -> disableStates (mgr w) !! id = None ->
  exists d, (beginDisableLocked w id).2 = true /\ begun w (beginDisableLocked w id).1 id d.
Proof.
  intros Hw HS Hid. unfold beginDisableLocked. rewrite Hid. fold (drop_expiry w id).
  pose proof (drop_expiry_tframe w id) as Ht. pose proof (drop_expiry_timers w id) as Hex.
  pose proof (tframe_RWF _ _ Hw Ht) as Hw1. set (w1 := drop_expiry w id) in *.
  set (rem := map_to_list (removing (mgr w1) id)).
  assert (byID (mgr w1) id = byID (mgr w) id) as Hby
    by (unfold byID; by rewrite (tf_byID _ _ Ht)).
  assert (forall s, sid w1 s = sid w s) as Hsid by (intros; unfold sid; by rewrite (tf_heap _ _ Ht)).
  assert (forall s, s ∈ elements (byID (mgr w1) id) -> is_Some (heap w1 !! s)) as Hheap.
  { intros s. rewrite elem_of_elements, Hby, (tf_heap _ _ Ht). intros Hs%(s_idx _ HS).
    apply (s_heap _ HS), Hs. }
  pose proof (disable_fold _ _ (mkDisable false rem.*1 rem.*2 []) Hw1 Hheap) as [].
  destruct (foldl disableSession _ _) as [w2 d]. cbn [fst snd] in *. exists d. split; [done|].
  assert (forall s r, (s, r) ∈ rem <-> removals (mgr w) !! s = Some r /\ sid w s = id) as Hrem.
  { intros s r. unfold rem. rewrite elem_of_map_to_list, (r_idx _ Hw1), Hsid.
    by rewrite (tf_removals _ _ Ht). }
  destruct Ht, fo_ext0. cbn [ds_done ds_sessions ds_removals] in *.
  split; fields; try congruence; auto.
  - apply (RWF_frame w2); fields; auto using hsame_refl, f_heap.
  - by rewrite fo_sessions0, Hby, tf_sessions0, list_to_set_elements_L.
  - intros s Hs. apply fo_list0. right. apply elem_of_elements. by rewrite Hby.
  - intros s Hs. apply fo_list0 in Hs as [Hs|Hs].
    + apply list_elem_of_fmap in Hs as ([s' r] & -> & Hs). by apply Hrem in Hs as [_ ?].
    + rewrite elem_of_elements, Hby in Hs. by apply (s_idx _ HS) in Hs as [_ ?].
  - intros s r Hr Hs. destruct (fo_new0 s r Hr) as [[Hr1 _]|[? _]]; [|done].
    apply fo_rems0, list_elem_of_fmap. exists (s, r). split; [done|].
    apply Hrem. by rewrite <-tf_removals0.
  - intros s r Hr. destruct (fo_new0 s r Hr) as [[Hr1 _]|[_ Hin]].
    + left. by rewrite <-tf_removals0.
    + right. rewrite elem_of_elements, Hby in Hin. by apply (s_idx _ HS) in Hin as [_ ?].
  - by rewrite <-tf_removals0.
  - by rewrite <-tf_rms0.
  - by rewrite <-tf_pool0.
  - intros i g Hg. rewrite <-tf_pool0. auto.
  - intros f Hf. rewrite <-tf_pool0. auto.
  - lia.
Qed.

(** ** Drain barriers *)

(** Sessions a goroutine still waits for before it goes on. *)
Definition waits (g : goroutine) : list nat :=
  match g with
  | GDisable _ _ (DWait l) => l
  | GStop (SWait l) => l
  | _ => []
  end.

Definition guards (w : world) (g : goroutine) (s : nat) : Prop :=
  match g with GDisable id _ _ => sid w s = id | GStop _ => True | _ => False end.

(** Somebody who outlives [Disable] and [Stop] still has to wait for [s]. *)
Definition undrained (w : world) (s : nat) : Prop :=
  exists r rm, removals (mgr w) !! s = Some r /\ rms w !! r = Some rm /\ rm_drained rm = false.
Definition waited (w : world) (s : nat) : Prop :=
  exists i g, pool w !! i = Some g /\ s ∈ waits g /\ guards w g s.
Definition covered (w : world) (s : nat) : Prop :=
  s ∈ sessions (mgr w) \/ undrained w s \/ waited w s.

(** Removals a disable or a stop still has to see closed, and disables a stop
    still has to see closed. *)
Definition pendD (d : tokenDisableState) (ph : disablePhase) : list nat :=
  match ph with DWait _ | DComplete _ => ds_removals d | DAwait l => l | DClose => [] end.
Definition pendS (st : tokenStopState) (ph : stopPhase) : list nat :=
  match ph with SWait _ | SComplete _ => st_removals st | SAwait l => l | _ => [] end.
Definition pendI (st : tokenStopState) (ph : stopPhase) : list string :=
  match ph with
  | SWait _ | SComplete _ | SAwait _ => st_disableDone st
  | SDisables l => l
  | _ => []
  end.

(** Goroutines with a deferred [expiryWG.Done()]. *)
Definition deferred (g : goroutine) : bool :=
  match g with
  | GDisable _ wg _ => wg
  | GExpire _ _ EMid | GExpire _ _ EWait => true
  | _ => false
  end.

Definition owner (g : goroutine) : bool :=
  match g with GDisable _ _ _ | GStop _ => true | _ => false end.

Record COV (w : world) : Prop := {
  c_cov s : readers w s <> 0%Z -> covered w s;
  c_dis1 i id wg ph : pool w !! i = Some (GDisable id wg ph) ->
    exists d, disableStates (mgr w) !! id = Some d /\ ds_done d = false;
  c_dis2 i j id wg ph wg' ph' : pool w !! i = Some (GDisable id wg ph) ->
    pool w !! j = Some (GDisable id wg' ph') -> i = j;
  c_rem s r d : removals (mgr w) !! s = Some r -> disableStates (mgr w) !! sid w s = Some d ->
    exists i wg ph, pool w !! i = Some (GDisable (sid w s) wg ph) /\ r ∈ pendD d ph;
  c_st1 i ph : pool w !! i = Some (GStop ph) ->
    exists st, stopState (mgr w) = Some st /\ st_done st = false;
  c_st2 i j ph ph' : pool w !! i = Some (GStop ph) -> pool w !! j = Some (GStop ph') -> i = j;
  c_st3 st s r : stopState (mgr w) = Some st -> removals (mgr w) !! s = Some r ->
    exists i ph, pool w !! i = Some (GStop ph) /\ r ∈ pendS st ph;
  c_st4 st id d : stopState (mgr w) = Some st -> disableStates (mgr w) !! id = Some d ->
    ds_done d = false -> exists i ph, pool w !! i = Some (GStop ph) /\ id ∈ pendI st ph;
  c_st5 i l s : pool w !! i = Some (GStop (SWait l)) -> s ∈ l ->
    is_Some (heap w !! s) /\ disableStates (mgr w) !! sid w s = None;
  c_panic : panicked w = false
}.

Lemma COV_init : COV newTokenConnections.
Proof.
  split; unfold readers; cbn; intros; repeat (rewrite ?lookup_empty in *; cbn in *); try done.
Qed.

Lemma waits_owner g s : s ∈ waits g -> owner g = true.
Proof. destruct g as [? ? []| | |[]]; simpl; try done; by intros ?%not_elem_of_nil. Qed.

Lemma readers_heap w s : readers w s <> 0%Z -> is_Some (heap w !! s).
Proof. unfold readers. destruct (heap w !! s); [eauto|done]. Qed.

(** Steps that do not touch the goroutines of [completeDisable] and
    [completeStop] nor their states. *)
Lemma COV_frame w w' :
  RWF w -> COV w -> hsame w w' ->
  disableStates (mgr w') = disableStates (mgr w) -> stopState (mgr w') = stopState (mgr w) ->
  panicked w' = panicked w ->
  (forall s r, removals (mgr w') !! s = Some r -> removals (mgr w) !! s = Some r) ->
  (forall s, readers w' s <> 0%Z -> covered w' s \/ readers w s <> 0%Z /\
     (s ∈ sessions (mgr w) -> s ∈ sessions (mgr w')) /\ (undrained w s -> undrained w' s)) ->
  (forall i g, owner g = true -> (pool w' !! i = Some g <-> pool w !! i = Some g)) ->
  COV w'.
Proof.
  intros HR Hw Hh Hd Hst Hpan Hrem Hread Hpool.
  split; rewrite ?Hd, ?Hst, ?Hpan; try apply Hw; try done.
  - intros s Hs. destruct (Hread s Hs) as [?|(Hs0 & Hss & Hun)]; [done|].
    destruct (c_cov _ Hw s Hs0) as [H|[H|(i & g & Hi & Hwt & Hg)]]; [left; auto|right; left; auto|].
    right; right. exists i, g. rewrite (Hpool i g (waits_owner _ _ Hwt)). split_and!; [done..|].
    destruct g; simpl in *; try done. rewrite (hsame_sid w w'); auto using readers_heap.
  - intros i id wg ph. rewrite Hpool by done. apply (c_dis1 _ Hw).
  - intros i j id wg ph wg' ph'. rewrite !Hpool by done. apply (c_dis2 _ Hw).
  - intros s r d Hr%Hrem. rewrite (hsame_sid w w') by eauto using r_heap. intros Hds.
    destruct (c_rem _ Hw s r d Hr Hds) as (i & wg & ph & Hi & Hp). exists i, wg, ph.
    by rewrite Hpool.
  - intros i ph. rewrite Hpool by done. apply (c_st1 _ Hw).
  - intros i j ph ph'. rewrite !Hpool by done. apply (c_st2 _ Hw).
  - intros st s r Hs Hr%Hrem. destruct (c_st3 _ Hw st s r Hs Hr) as (i & ph & Hi & Hp).
    exists i, ph. by rewrite Hpool.
  - intros st id d Hs H1 H2. destruct (c_st4 _ Hw st id d Hs H1 H2) as (i & ph & Hi & Hp).
    exists i, ph. by rewrite Hpool.
  - intros i l s. rewrite Hpool by done. intros Hi Hs. destruct (c_st5 _ Hw i l s Hi Hs) as [Hx Hn].
    rewrite (hsame_sid w w') by done. split; [|done]. destruct Hx as [e He].
    destruct (Hh s e He) as (? & ? & _). eauto.
Qed.

(** A step of [completeDisable] or [completeStop] that only moves its own
    program counter. *)
Definition same_job (g g' : goroutine) : Prop :=
  match g, g' with
  | GDisable id wg _, GDisable id' wg' _ => id = id' /\ wg = wg'
  | GStop _, GStop _ => True
  | _, _ => False
  end.

Definition pend (w : world) (g : goroutine) : list nat :=
  match g with
  | GDisable id _ ph => default [] ((fun d => pendD d ph) <$> disableStates (mgr w) !! id)
  | GStop ph => default [] ((fun st => pendS st ph) <$> stopState (mgr w))
  | _ => []
  end.
Definition pendIDs (w : world) (g : goroutine) : list string :=
  match g with GStop ph => default [] ((fun st => pendI st ph) <$> stopState (mgr w)) | _ => [] end.

Lemma covered_become w i g g' s :
  COV w -> pool w !! i = Some g -> same_job g g' ->
  (s ∈ waits g -> s ∈ waits g' \/ readers w s = 0%Z) ->
  readers w s <> 0%Z -> covered (become w i g') s.
Proof.
  intros Hw Hi Hjob Hwt Hs.
  destruct (c_cov _ Hw s Hs) as [H|[H|(k & h & Hk & Hin & Hg)]]; [by left|by right; left|].
  right; right. destruct (decide (k = i)) as [->|Hne].
  - assert (h = g) as -> by congruence. exists i, g'. fields. rewrite lookup_insert_eq.
    destruct (Hwt Hin) as [?|?]; [|done]. split_and!; [done..|].
    destruct g, g'; simpl in *; try done. naive_solver.
  - exists k, h. fields. by rewrite lookup_insert_ne.
Qed.

Lemma COV_become w i g g' :
  COV w -> pool w !! i = Some g -> same_job g g' ->
  (forall s, s ∈ waits g -> s ∈ waits g' \/ readers w s = 0%Z) ->
  (forall s, s ∈ waits g' -> s ∈ waits g) ->
  (forall s r, removals (mgr w) !! s = Some r -> r ∈ pend w g -> r ∈ pend w g') ->
  (forall id d, disableStates (mgr w) !! id = Some d -> ds_done d = false ->
     id ∈ pendIDs w g -> id ∈ pendIDs w g') ->
  COV (become w i g').
Proof.
  intros Hw Hi Hjob Hwt Hwt' Hp HpI.
  split; fields; try apply Hw.
  - intros s Hs. eapply covered_become; eauto.
  - intros k id wg ph. rewrite lookup_insert. case_decide as Hk; [|apply (c_dis1 _ Hw)].
    subst k. intros [= ->]. destruct g; simpl in Hjob; try done. destruct Hjob as [<- <-].
    by eapply (c_dis1 _ Hw).
  - intros k j id wg ph wg' ph'. rewrite !lookup_insert.
    destruct g as [gid gwg gph| | |]; simpl in Hjob; try done; repeat case_decide; intros; simplify_eq;
      try done; try (by eapply (c_dis2 _ Hw)); destruct Hjob as [<- <-]; by eapply (c_dis2 _ Hw).
  - intros s r d Hr Hd. change (sid _ s) with (sid w s) in *.
    destruct (c_rem _ Hw s r d Hr Hd) as (k & wg & ph & Hk & Hin).
    destruct (decide (k = i)) as [->|Hne].
    + simplify_eq. destruct g' as [id' wg' ph'| | |]; simpl in Hjob; try done.
      destruct Hjob as [<- <-]. exists i, wg, ph'. rewrite lookup_insert_eq. split; [done|].
      specialize (Hp s r Hr). simpl in Hp. rewrite Hd in Hp. simpl in Hp. auto.
    + exists k, wg, ph. by rewrite lookup_insert_ne.
  - intros k ph. rewrite lookup_insert. case_decide as Hk; [|apply (c_st1 _ Hw)].
    subst k. intros [= ->]. destruct g; simpl in Hjob; try done. by eapply (c_st1 _ Hw).
  - intros k j ph ph'. rewrite !lookup_insert.
    destruct g as [| | |gph]; simpl in Hjob; try done; repeat case_decide; intros; simplify_eq;
      try done; by eapply (c_st2 _ Hw).
  - intros st s r Hs Hr. destruct (c_st3 _ Hw st s r Hs Hr) as (k & ph & Hk & Hin).
    destruct (decide (k = i)) as [->|Hne].
    + simplify_eq. destruct g' as [| | |ph']; simpl in Hjob; try done. exists i, ph'.
      rewrite lookup_insert_eq. split; [done|].
      specialize (Hp s r Hr). simpl in Hp. rewrite Hs in Hp. simpl in Hp. auto.
    + exists k, ph. by rewrite lookup_insert_ne.
  - intros st id d Hs H1 H2. destruct (c_st4 _ Hw st id d Hs H1 H2) as (k & ph & Hk & Hin).
    destruct (decide (k = i)) as [->|Hne].
    + simplify_eq. destruct g' as [| | |ph']; simpl in Hjob; try done. exists i, ph'.
      rewrite lookup_insert_eq. split; [done|].
      specialize (HpI id d H1 H2). simpl in HpI. rewrite Hs in HpI. simpl in HpI. auto.
    + exists k, ph. by rewrite lookup_insert_ne.
  - intros k l s. rewrite lookup_insert. case_decide as Hk; [|apply (c_st5 _ Hw)]. subst k.
    intros [= ->] Hin. destruct g as [| | |[]]; simpl in Hjob; try done;
      apply Hwt' in Hin; simpl in Hin; try (by apply not_elem_of_nil in Hin).
    by eapply (c_st5 _ Hw).
Qed.

(** ** Steps of [completeDisable] *)

Lemma drained_readers w s : drained w s = true -> readers w s = 0%Z.
Proof. unfold drained. apply Z.eqb_eq. Qed.

Lemma removal_done_gone w r s :
  RWF w -> removal_done w r = true -> removals (mgr w) !! s <> Some r.
Proof.
  intros Hw Hd Hs. destruct (r_map _ Hw _ _ Hs) as (rm & i & ph & H1 & _ & H3 & _).
  unfold removal_done in Hd. rewrite H1 in Hd. simpl in Hd. congruence.
Qed.

Lemma completeTokenRemove_COV w r : RWF w -> COV w -> COV (completeTokenRemove w r).
Proof.
  intros HR Hw. unfold completeTokenRemove. destruct r as [r|]; [|done]. simpl.
  destruct (rms w !! r) as [rm|] eqn:Hr; [|done]. simpl.
  apply (COV_frame w); fields; auto using hsame_refl; try done.
  intros s Hs. right. split_and!; [done..|]. intros (q & rq & H1 & H2 & H3).
  destruct (decide (q = r)) as [->|Hne].
  - eexists r, _. fields. rewrite lookup_insert_eq. split_and!; [done..|]. simpl. congruence.
  - exists q, rq. fields. by rewrite lookup_insert_ne.
Qed.

(** No removal of a token outlives the wait for its removals. *)
Lemma no_pending w i id wg ph d s r :
  COV w -> pool w !! i = Some (GDisable id wg ph) -> disableStates (mgr w) !! id = Some d ->
  pendD d ph = [] -> removals (mgr w) !! s = Some r -> sid w s <> id.
Proof.
  intros Hw Hi Hd Hp Hr <-. destruct (c_rem _ Hw s r d Hr Hd) as (k & wg' & ph' & Hk & Hin).
  assert (k = i) as -> by by eapply (c_dis2 _ Hw). simplify_eq. rewrite Hp in Hin.
  by apply not_elem_of_nil in Hin.
Qed.

Lemma waited_become w i g g' m s :
  pool w !! i = Some g -> waits g = [] ->
  waited w s -> waited (become (set_mgr w m) i g') s.
Proof.
  intros Hi Hg (k & h & Hk & Hin & Hgu). exists k, h. fields.
  rewrite lookup_insert_ne; [done|]. intros <-. simplify_eq. rewrite Hg in Hin.
  by apply not_elem_of_nil in Hin.
Qed.

Lemma COV_clear w i id wg d :
  COV w -> pool w !! i = Some (GDisable id wg (DAwait [])) ->
  disableStates (mgr w) !! id = Some d -> ds_done d = false ->
  COV (become (set_mgr w (with_disables (mgr w)
         (<[id := mkDisable false [] [] []]> (disableStates (mgr w))))) i (GDisable id wg DClose)).
Proof.
  intros Hw Hi Hd Hdone.
  pose proof (fun s r => no_pending w i id wg _ d s r Hw Hi Hd eq_refl) as Hnone.
  split; fields; try apply Hw.
  - intros s Hs. destruct (c_cov _ Hw s Hs) as [H|[H|H]]; [by left|by right; left|].
    right; right. by eapply waited_become.
  - intros k id' wg' ph'. rewrite !lookup_insert. case_decide as Hk.
    + intros [= <- <- <-]. rewrite decide_True by done. eauto.
    + intros Hp. case_decide; [eauto|]. by eapply (c_dis1 _ Hw).
  - intros k j id' wg' ph' wg'' ph''. rewrite !lookup_insert.
    repeat case_decide; intros; simplify_eq; try done; by eapply (c_dis2 _ Hw).
  - intros s r d' Hr. change (sid _ s) with (sid w s) in *. rewrite lookup_insert_ne.
    2: { intros Heq. by apply (Hnone s r Hr). }
    intros Hd'. destruct (c_rem _ Hw s r d' Hr Hd') as (k & wg' & ph' & Hk & Hin).
    exists k, wg', ph'. rewrite lookup_insert_ne; [done|]. intros <-. simplify_eq.
    by apply (Hnone s r Hr).
  - intros k ph. rewrite lookup_insert. case_decide; [done|]. apply (c_st1 _ Hw).
  - intros k j ph ph'. rewrite !lookup_insert. repeat case_decide; try done. apply (c_st2 _ Hw).
  - intros st s r Hs Hr. destruct (c_st3 _ Hw st s r Hs Hr) as (k & ph & Hk & Hin).
    exists k, ph. by rewrite lookup_insert_ne by congruence.
  - intros st id' d' Hs H1 H2.
    assert (exists d0, disableStates (mgr w) !! id' = Some d0 /\ ds_done d0 = false) as (d0 & H3 & H4)
      by (rewrite lookup_insert in H1; case_decide; subst; eauto).
    destruct (c_st4 _ Hw st id' d0 Hs H3 H4) as (k & ph & Hk & Hin).
    exists k, ph. by rewrite lookup_insert_ne by congruence.
  - intros k l s. rewrite lookup_insert. case_decide; [done|]. intros Hk Hs.
    destruct (c_st5 _ Hw k l s Hk Hs) as [Hx Hn]. change (sid _ s) with (sid w s).
    rewrite lookup_insert_ne by congruence. done.
Qed.

Lemma COV_close w i id wg d d' :
  COV w -> pool w !! i = Some (GDisable id wg DClose) ->
  disableStates (mgr w) !! id = Some d -> ds_done d' = true ->
  COV (exit (set_mgr w (with_disables (mgr w) (<[id := d']> (disableStates (mgr w))))) i).
Proof.
  intros Hw Hi Hd Hdone'.
  pose proof (fun s r => no_pending w i id wg _ d s r Hw Hi Hd eq_refl) as Hnone.
  split; fields; try apply Hw.
  - intros s Hs. destruct (c_cov _ Hw s Hs) as [H|[H|(k & h & Hk & Hin & Hgu)]];
      [by left|by right; left|].
    right; right. exists k, h. fields. rewrite lookup_delete_ne; [done|]. intros <-. simplify_eq.
    by apply not_elem_of_nil in Hin.
  - intros k id' wg' ph'. rewrite lookup_delete, lookup_insert. case_decide as Hk; [done|].
    intros Hp. case_decide; [|by eapply (c_dis1 _ Hw)]. subst id'.
    destruct Hk. by eapply (c_dis2 _ Hw).
  - intros k j id' wg' ph' wg'' ph''. rewrite !lookup_delete. repeat case_decide; try done.
    apply (c_dis2 _ Hw).
  - intros s r d'' Hr. change (sid _ s) with (sid w s) in *. rewrite lookup_insert_ne.
    2: { intros Heq. by apply (Hnone s r Hr). }
    intros Hd''. destruct (c_rem _ Hw s r d'' Hr Hd'') as (k & wg' & ph' & Hk & Hin).
    exists k, wg', ph'. rewrite lookup_delete_ne; [done|]. intros <-. simplify_eq.
    by apply (Hnone s r Hr).
  - intros k ph. rewrite lookup_delete. case_decide; [done|]. apply (c_st1 _ Hw).
  - intros k j ph ph'. rewrite !lookup_delete. repeat case_decide; try done. apply (c_st2 _ Hw).
  - intros st s r Hs Hr. destruct (c_st3 _ Hw st s r Hs Hr) as (k & ph & Hk & Hin).
    exists k, ph. by rewrite lookup_delete_ne by congruence.
  - intros st id' d0 Hs H1 H2. rewrite lookup_insert in H1. case_decide; [congruence|].
    destruct (c_st4 _ Hw st id' d0 Hs H1 H2) as (k & ph & Hk & Hin).
    exists k, ph. by rewrite lookup_delete_ne by congruence.
  - intros k l s. rewrite lookup_delete. case_decide; [done|]. intros Hk Hs.
    destruct (c_st5 _ Hw k l s Hk Hs) as [Hx Hn]. change (sid _ s) with (sid w s).
    rewrite lookup_insert_ne by congruence. done.
Qed.

Lemma run_disable_COV w i id wg ph w' :
  RWF w -> COV w -> pool w !! i = Some (GDisable id wg ph) -> run_disable w i id wg ph = Some w' ->
  COV w'.
Proof.
  intros HR Hw Hi Hrun. destruct (c_dis1 _ Hw _ _ _ _ Hi) as (d & Hd & Hdone).
  unfold run_disable in Hrun. rewrite Hd in Hrun. simpl in Hrun.
  destruct ph as [[|s l]|[|r l]|[|r l]|].
  - simplify_eq. eapply COV_become; try done; simpl; rewrite ?Hd; auto.
  - destruct (drained w s) eqn:Ed; simplify_eq.
    eapply COV_become; try done; simpl; rewrite ?Hd; auto; intros t; rewrite elem_of_cons; auto.
    intros [->|?]; [right; by apply drained_readers|by left].
  - simplify_eq. eapply COV_become; try done; simpl; rewrite ?Hd; auto.
  - simplify_eq. pose proof (completeTokenRemove_COV w (Some r) HR Hw) as Hc.
    assert (mgr (completeTokenRemove w (Some r)) = mgr w /\ pool (completeTokenRemove w (Some r)) = pool w)
      as [Hm Hp] by (unfold completeTokenRemove; simpl; by destruct (rms w !! r)).
    eapply COV_become; [done|by rewrite Hp|..]; simpl; rewrite ?Hm, ?Hd; auto.
  - simplify_eq. rewrite Hdone. by eapply COV_clear.
  - destruct (removal_done w r) eqn:Ed; simplify_eq.
    eapply COV_become; try done; simpl; rewrite ?Hd; auto. simpl. intros s q Hq.
    rewrite elem_of_cons. intros [->|?]; [|done]. by destruct (removal_done_gone w r s HR Ed).
  - simplify_eq. rewrite Hdone.
    pose proof (COV_close w i id wg d (mkDisable true (ds_sessions d) (ds_removals d)
      (ds_ownedRemovals d)) Hw Hi Hd eq_refl) as Hc.
    assert (forall w1 w2, COV w1 -> w2 = w1 \/ w2 = expiryDone w1 -> COV w2) as Hexp.
    { intros w1 w2 H1 [->| ->]; [done|]. destruct H1. by split. }
    eapply Hexp; [exact Hc|]. destruct w as [m ? ? ? ? ? ? pk]. simpl in *.
    pose proof (c_panic _ Hw) as Hpk. simpl in Hpk. subst pk. destruct wg; auto.
Qed.

(** ** Steps of [completeStop] *)

Lemma COV_stop_done w i st st' :
  COV w -> pool w !! i = Some (GStop SRemoveWG) -> stopState (mgr w) = Some st ->
  COV (exit (set_mgr w (with_stop (mgr w) st')) i).
Proof.
  intros Hw Hi Hst.
  assert (forall s r, removals (mgr w) !! s <> Some r) as Hnr.
  { intros s r Hr. destruct (c_st3 _ Hw st s r Hst Hr) as (k & ph & Hk & Hin).
    assert (k = i) as -> by by eapply (c_st2 _ Hw). simplify_eq.
    by apply not_elem_of_nil in Hin. }
  assert (forall id d, disableStates (mgr w) !! id = Some d -> ds_done d <> false) as Hnd.
  { intros id d H1 H2. destruct (c_st4 _ Hw st id d Hst H1 H2) as (k & ph & Hk & Hin).
    assert (k = i) as -> by by eapply (c_st2 _ Hw). simplify_eq.
    by apply not_elem_of_nil in Hin. }
  split; fields; try apply Hw.
  - intros s Hs. destruct (c_cov _ Hw s Hs) as [H|[H|(k & h & Hk & Hin & Hgu)]];
      [by left|by right; left|].
    right; right. exists k, h. fields. rewrite lookup_delete_ne; [done|]. intros <-. simplify_eq.
    by apply not_elem_of_nil in Hin.
  - intros k id wg ph. rewrite lookup_delete. case_decide; [done|]. apply (c_dis1 _ Hw).
  - intros k j id wg ph wg' ph'. rewrite !lookup_delete. repeat case_decide; try done.
    apply (c_dis2 _ Hw).
  - intros s r d Hr. by destruct (Hnr s r).
  - intros k ph. rewrite lookup_delete. case_decide as Hk; [done|]. intros Hp. destruct Hk.
    by eapply (c_st2 _ Hw).
  - intros k j ph ph'. rewrite !lookup_delete. repeat case_decide; try done. apply (c_st2 _ Hw).
  - intros st0 s r _ Hr. by destruct (Hnr s r).
  - intros st0 id d _ H1 H2. by destruct (Hnd id d).
  - intros k l s. rewrite lookup_delete. case_decide; [done|]. apply (c_st5 _ Hw).
Qed.

Lemma run_stop_COV w i ph w' :
  RWF w -> COV w -> pool w !! i = Some (GStop ph) -> run_stop w i ph = Some w' -> COV w'.
Proof.
  intros HR Hw Hi Hrun. destruct (c_st1 _ Hw _ _ Hi) as (st & Hst & Hdone).
  unfold run_stop in Hrun. rewrite Hst in Hrun. simpl in Hrun.
  destruct ph as [[|s l]|[|r l]|[|r l]|[|id l]| |].
  - simplify_eq. eapply COV_become; try done; simpl; rewrite ?Hst; auto.
  - destruct (drained w s) eqn:Ed; simplify_eq.
    eapply COV_become; try done; simpl; rewrite ?Hst; auto; intros t; rewrite elem_of_cons; auto.
    intros [->|?]; [right; by apply drained_readers|by left].
  - simplify_eq. eapply COV_become; try done; simpl; rewrite ?Hst; auto.
  - simplify_eq. pose proof (completeTokenRemove_COV w (Some r) HR Hw) as Hc.
    assert (mgr (completeTokenRemove w (Some r)) = mgr w /\ pool (completeTokenRemove w (Some r)) = pool w)
      as [Hm Hp] by (unfold completeTokenRemove; simpl; by destruct (rms w !! r)).
    eapply COV_become; [done|by rewrite Hp|..]; simpl; rewrite ?Hm, ?Hst; auto.
  - simplify_eq. eapply COV_become; try done; simpl; rewrite ?Hst; auto.
  - destruct (removal_done w r) eqn:Ed; simplify_eq.
    eapply COV_become; try done; simpl; rewrite ?Hst; auto. simpl. intros s q Hq.
    rewrite elem_of_cons. intros [->|?]; [|done]. by destruct (removal_done_gone w r s HR Ed).
  - simplify_eq. eapply COV_become; try done; simpl; rewrite ?Hst; auto.
  - case_match eqn:Ed; simplify_eq.
    eapply COV_become; try done; simpl; rewrite ?Hst; auto. simpl. intros id' d H1 H2.
    rewrite elem_of_cons. intros [->|?]; [|done]. rewrite H1 in Ed. simpl in Ed. congruence.
  - case_match; simplify_eq. eapply COV_become; try done; simpl; rewrite ?Hst; auto.
  - case_match; simplify_eq. rewrite Hdone.
    pose proof (COV_stop_done w i st (mkStop true (st_sessions st) (st_active st)
      (st_ownedRemovals st) (st_removals st) (st_disableDone st)) Hw Hi Hst) as Hc.
    destruct w as [m ? ? ? ? ? ? pk]. simpl in *.
    pose proof (c_panic _ Hw) as Hpk. simpl in Hpk. by subst pk.
Qed.

(** ** Starting a disable, a removal, a stop *)

Lemma undrained_ext w w' s :
  removals (mgr w) ⊆ removals (mgr w') -> rms w ⊆ rms w' -> undrained w s -> undrained w' s.
Proof.
  intros H1 H2 (r & rm & Hr & Hrm & Hd). exists r, rm.
  split_and!; [by eapply lookup_weaken|by eapply lookup_weaken|done].
Qed.

(** What beginning a disable keeps of the pool and of the sessions' tokens. *)
Lemma begun_sid w w1 id d s : begun w w1 id d -> sid w1 s = sid w s.
Proof. intros []. unfold sid. by rewrite bg_heap0. Qed.

Lemma begun_old w w1 id d k g :
  begun w w1 id d -> owner g = true -> pool w1 !! k = Some g -> pool w !! k = Some g.
Proof. intros [] Hg Hk. by destruct (bg_newpool0 k g Hk) as [?|[r ->]]. Qed.

Lemma begun_keep w w1 id d k g :
  begun w w1 id d -> pool w !! k = Some g -> k <> next w1 /\ pool w1 !! k = Some g.
Proof.
  intros [] Hk. pose proof (fresh_pool _ bg_RWF0) as Hfr.
  assert (pool w1 !! k = Some g) by by eapply lookup_weaken. split; congruence.
Qed.

(** The readers of the token's sessions are now waited for by the new goroutine. *)
Lemma begin_covered w w1 id d wg s :
  SWF w -> COV w -> begun w w1 id d -> readers w1 s <> 0%Z ->
  disableStates (mgr w1) !! id = Some d -> covered (completeDisable w1 id wg) s.
Proof.
  intros HS Hw Hb Hs Hd. unfold completeDisable. rewrite Hd.
  assert (readers w s <> 0%Z) as Hs0 by (destruct Hb; unfold readers in *; by rewrite <-bg_heap0).
  destruct (c_cov _ Hw s Hs0) as [H|[H|(k & h & Hk & Hin & Hgu)]].
  - destruct (decide (sid w s = id)) as [Hs1|Hs1].
    + right; right. exists (next w1), (GDisable id wg (DWait (ds_sessions d))). fields.
      rewrite lookup_insert_eq. split_and!; [done| |].
      * destruct Hb. simpl. apply bg_tracked0, (s_idx _ HS). done.
      * simpl. etrans; [exact (begun_sid _ _ _ _ s Hb)|done].
    + left. fields. destruct Hb. rewrite bg_sessions0. apply elem_of_difference. split; [done|].
      rewrite (s_idx _ HS). naive_solver.
  - right; left. destruct Hb. by eapply (undrained_ext w).
  - right; right. exists k, h. fields. destruct (begun_keep _ _ _ _ _ _ Hb Hk) as [Hne Hk1].
    rewrite lookup_insert_ne by done. split_and!; [done..|].
    destruct h; simpl in *; try done. etrans; [exact (begun_sid _ _ _ _ s Hb)|done].
Qed.

Lemma COV_begin w w1 id d wg :
  RWF w -> SWF w -> COV w -> stopped (mgr w) = false -> disableStates (mgr w) !! id = None ->
  begun w w1 id d -> COV (completeDisable w1 id wg).
Proof.
  intros HR HS Hw Hstop Hid Hb. pose proof (fun k g => begun_old w w1 id d k g Hb) as Hold.
  pose proof (fun k g => begun_keep w w1 id d k g Hb) as Hkeep.
  pose proof (fun s => begin_covered w w1 id d wg s HS Hw Hb) as Hcov.
  pose proof (fun s => begun_sid w w1 id d s Hb) as Hsid.
  destruct Hb. unfold completeDisable in *. rewrite bg_dis0, lookup_insert_eq in *.
  assert (stopState (mgr w) = None) as Hss.
  { destruct (stopState (mgr w)) eqn:E; [|done].
    assert (stopped (mgr w) = true) by (apply (s_stop _ HS); eauto). congruence. }
  split; fields.
  - intros s Hs. by apply Hcov.
  - intros k id' wg' ph. rewrite lookup_insert, bg_dis0, lookup_insert. case_decide as Hk.
    + intros [= <- <- <-]. rewrite decide_True by done. eauto.
    + intros Hp. apply Hold in Hp; [|done]. case_decide; [eauto|]. by eapply (c_dis1 _ Hw).
  - assert (forall k wg' ph', pool w1 !! k = Some (GDisable id wg' ph') -> False) as Hno.
    { intros k wg' ph' Hk. apply Hold in Hk; [|done].
      destruct (c_dis1 _ Hw _ _ _ _ Hk) as (? & ? & _). congruence. }
    intros k j id' wg' ph wg'' ph'. rewrite !lookup_insert.
    case_decide; case_decide; intros Hk Hj; [congruence| | |].
    + injection Hk as <- <- <-. by destruct (Hno _ _ _ Hj).
    + injection Hj as <- <- <-. by destruct (Hno _ _ _ Hk).
    + eapply (c_dis2 _ Hw); apply Hold; done.
  - intros s r d' Hr. change (sid _ s) with (sid w1 s). rewrite Hsid, bg_dis0, lookup_insert.
    case_decide as Hs1.
    + intros [= <-]. exists (next w1), wg, (DWait (ds_sessions d)). subst id.
      rewrite lookup_insert_eq. split; [done|]. simpl. by eapply bg_rems0.
    + intros Hd'. destruct (bg_new0 s r Hr) as [Hr0|?]; [|congruence].
      destruct (c_rem _ Hw s r d' Hr0 Hd') as (k & wg' & ph & Hk & Hin).
      destruct (Hkeep _ _ Hk) as [Hne Hk1]. exists k, wg', ph. by rewrite lookup_insert_ne.
  - intros k ph. rewrite lookup_insert, bg_stopState0. case_decide; [done|].
    intros Hp. apply Hold in Hp; [|done]. by eapply (c_st1 _ Hw).
  - intros k j ph ph'. rewrite !lookup_insert. repeat case_decide; try done.
    intros Hk Hj. eapply (c_st2 _ Hw); apply Hold; done.
  - congruence.
  - congruence.
  - intros k l s. rewrite lookup_insert. case_decide; [done|]. intros Hk Hs.
    apply Hold in Hk; [|done]. destruct (c_st1 _ Hw _ _ Hk) as (? & ? & _). congruence.
  - rewrite bg_panicked0. apply Hw.
Qed.

(** A tracked session's token is not disabled. *)
Lemma tracked_enabled w s :
  SWF w -> s ∈ sessions (mgr w) -> disableStates (mgr w) !! sid w s = None.
Proof.
  intros HS Hs. destruct (disableStates (mgr w) !! sid w s) eqn:E; [|done].
  assert (byID (mgr w) (sid w s) = ∅) as He by (apply (s_dis _ HS); eauto).
  assert (s ∈ byID (mgr w) (sid w s)) by by apply (s_idx _ HS). set_solver.
Qed.

Lemma not_stopped_state w : SWF w -> stopped (mgr w) = false -> stopState (mgr w) = None.
Proof.
  intros HS Hs. destruct (stopState (mgr w)) eqn:E; [|done].
  assert (stopped (mgr w) = true) by (apply (s_stop _ HS); eauto). congruence.
Qed.

(** Removals registered for sessions of enabled tokens, no stop pending. *)
Lemma COV_ext w w' :
  RWF w -> COV w -> ext w w' -> stopState (mgr w) = None ->
  (forall s, readers w s <> 0%Z -> s ∈ sessions (mgr w) -> covered w' s) ->
  (forall s r, removals (mgr w') !! s = Some r ->
     removals (mgr w) !! s = Some r \/ disableStates (mgr w) !! sid w s = None) ->
  COV w'.
Proof.
  intros HR Hw [] Hss Hcov Hnew.
  assert (forall s, sid w' s = sid w s) as Hsid by (intros; unfold sid; by rewrite ext_heap0).
  assert (forall k g, owner g = true -> pool w' !! k = Some g -> pool w !! k = Some g) as Hold.
  { intros k g Hg Hk. destruct (ext_newpool0 k g Hk) as [?|[r ->]]; done. }
  split; rewrite ?ext_dis0, ?ext_stopState0, ?ext_panicked0, ?Hss; try done.
  - intros s Hs. assert (readers w s <> 0%Z) as Hs0 by (unfold readers in *; by rewrite <-ext_heap0).
    destruct (c_cov _ Hw s Hs0) as [H|[H|(k & h & Hk & Hin & Hgu)]]; [auto| |].
    + right; left. by eapply (undrained_ext w).
    + right; right. exists k, h. split_and!; [by eapply lookup_weaken|done|].
      destruct h; simpl in *; try done. by rewrite Hsid.
  - intros k id wg ph Hk. eapply (c_dis1 _ Hw). by apply Hold.
  - intros k j id wg ph wg' ph' Hk Hj. eapply (c_dis2 _ Hw); apply Hold; done.
  - intros s r d Hr. rewrite Hsid. intros Hd. destruct (Hnew s r Hr) as [Hr0|?]; [|congruence].
    destruct (c_rem _ Hw s r d Hr0 Hd) as (k & wg & ph & Hk & Hin). exists k, wg, ph.
    split; [|done]. by eapply lookup_weaken.
  - intros k ph Hk. apply Hold in Hk; [|done]. destruct (c_st1 _ Hw _ _ Hk) as (? & ? & _). congruence.
  - intros k j ph ph' Hk Hj. eapply (c_st2 _ Hw); apply Hold; done.
  - intros k l s Hk. apply Hold in Hk; [|done].
    destruct (c_st1 _ Hw _ _ Hk) as (? & ? & _). congruence.
  - apply Hw.
Qed.

Lemma register_undrained w s :
  removals (mgr w) !! s = None -> undrained (registerRemoveLocked w s).1 s.
Proof.
  intros Hr. unfold registerRemoveLocked. rewrite Hr. eexists (next w), _. fields.
  rewrite !lookup_insert_eq. done.
Qed.

Lemma tframe_COV w w' : RWF w -> COV w -> tframe w w' -> COV w'.
Proof.
  intros HR Hw []. assert (forall s, readers w' s = readers w s) as Hrd
    by (intros; unfold readers; by rewrite tf_heap0).
  apply (COV_frame w); auto using hsame_refl.
  - intros s r. by rewrite tf_removals0.
  - intros s. rewrite Hrd. intros Hs. right. split_and!; [done|by rewrite tf_sessions0|].
    intros (r & rm & H1 & H2 & H3). exists r, rm. by rewrite tf_removals0, tf_rms0.
  - intros i g _. by rewrite tf_pool0.
Qed.

Lemma Remove_wf w s now :
  RWF w -> SWF w -> COV w -> RWF (Remove w s now) /\ COV (Remove w s now).
Proof.
  intros HR HS Hw. unfold Remove. case_decide as Hrm; [done|].
  destruct (stopped (mgr w)) eqn:Hst; [done|]. case_decide as Hin; [|done].
  set (w1 := detachSessionLocked w s).
  assert (RWF w1) as HR1 by by apply set_sessions_RWF.
  assert (is_Some (heap w1 !! s)) as Hs1 by by apply (s_heap _ HS).
  assert (removals (mgr w1) !! s = None) as Hnone by by apply eq_None_not_Some.
  pose proof (register_RWF w1 s HR1 Hs1) as HR2. pose proof (register_ext w1 s HR1) as He.
  pose proof (register_undrained w1 s Hnone) as Hun. pose proof (register_other w1 s) as Hoth.
  pose proof (register_sessions w1 s) as Hss.
  destruct (registerRemoveLocked w1 s) as [w2 [r c]]. cbn [fst snd] in *.
  pose proof (schedule_tframe w2 (sid w2 s) now) as Ht.
  split; [by apply schedule_RWF|]. apply (tframe_COV w2); [done| |done].
  apply (COV_ext (set_mgr w1 (with_sessions (mgr w1) (sessions (mgr w)) (sessionsByID (mgr w1))))).
  - by apply set_sessions_RWF.
  - by destruct Hw; split.
  - destruct He. by split.
  - by apply (not_stopped_state w).
  - intros t Ht1 Ht2. fields. destruct (decide (t = s)) as [->|Hne]; [by right; left|].
    left. rewrite Hss. unfold w1, detachSessionLocked. fields. set_solver.
  - intros t q Hq. fields. destruct (decide (t = s)) as [->|Hne].
    + right. by apply (tracked_enabled w).
    + left. by apply (Hoth t q).
Qed.

(** ** Beginning a stop *)

Record stop_folded (w w' : world) (l : list nat) : Prop := {
  sf_RWF : RWF w'; sf_ext : ext w w'; sf_sessions : sessions (mgr w') = sessions (mgr w);
  sf_new s r : removals (mgr w') !! s = Some r -> removals (mgr w) !! s = Some r \/ s ∈ l
}.

Lemma stop_fold l w owned :
  RWF w -> (forall s, s ∈ l -> is_Some (heap w !! s)) ->
  stop_folded w (foldl stopSession (w, owned) l).1 l.
Proof.
  revert w owned. induction l as [|s l IH]; intros w owned Hw Hl.
  - simpl. split; auto using ext_refl.
  - cbn [foldl]. assert (is_Some (heap w !! s)) as Hs by (apply Hl, elem_of_cons; by left).
    unfold stopSession at 2.
    pose proof (register_RWF w s Hw Hs) as HR. pose proof (register_ext w s Hw) as He.
    pose proof (register_other w s) as Hoth. pose proof (register_sessions w s) as Hss.
    destruct (registerRemoveLocked w s) as [w1 [r c]]. cbn [fst snd] in *.
    assert (forall t, t ∈ l -> is_Some (heap w1 !! t)) as Hl1.
    { intros t Ht. rewrite (ext_heap _ _ He). apply Hl, elem_of_cons. by right. }
    destruct (IH w1 (if c then owned ++ [r] else owned) HR Hl1). split.
    + done.
    + by eapply ext_trans.
    + congruence.
    + intros t q Hq. rewrite elem_of_cons. destruct (sf_new0 t q Hq) as [Hq1|?]; [|by right; right].
      destruct (decide (t = s)) as [->|]; [by right; left|left]. by apply (Hoth t q).
Qed.

Lemma stopTimers_tframe (l : list (string * tokenExpiryTimer)) w :
  tframe w (foldl (fun w kv => stopTimer w (et_timer kv.2)) w l).
Proof.
  revert w. induction l as [|e l IH]; intros w; simpl; [by split|].
  eapply tframe_trans; [apply stopTimer_tframe|apply IH].
Qed.

(** What a winning [beginStop] establishes. *)
Record stopping (w w' : world) (st : tokenStopState) : Prop := {
  sg_heap : heap w' = heap w; sg_leases : leases w' = leases w;
  sg_RWF : RWF w'; sg_panicked : panicked w' = panicked w;
  sg_sessions : sessions (mgr w') = ∅; sg_byID : sessionsByID (mgr w') = ∅;
  sg_exp : expiryTimers (mgr w') = ∅; sg_stopped : stopped (mgr w') = true;
  sg_stopState : stopState (mgr w') = Some st; sg_done : st_done st = false;
  sg_dis : disableStates (mgr w') = disableStates (mgr w);
  sg_ewg : expiryWG (mgr w') = expiryWG (mgr w);
  sg_rem : removals (mgr w) ⊆ removals (mgr w'); sg_rms : rms w ⊆ rms w';
  sg_new s r : removals (mgr w') !! s = Some r ->
    removals (mgr w) !! s = Some r \/ s ∈ sessions (mgr w);
  sg_pending s r : removals (mgr w') !! s = Some r -> r ∈ st_removals st;
  sg_disables id d : disableStates (mgr w) !! id = Some d -> ds_done d = false ->
    id ∈ st_disableDone st;
  sg_pool : exists i, pool w !! i = None /\ pool w' !! i = Some (GStop (SWait (elements (sessions (mgr w)))));
  sg_keep i g : pool w !! i = Some g -> pool w' !! i = Some g;
  sg_old i g : pool w' !! i = Some g -> pool w !! i = Some g \/ (exists r, g = GRemove r RWait) \/
    g = GStop (SWait (elements (sessions (mgr w)))) /\ pool w' !! i = Some g;
  sg_uniq i j ph ph' : pool w !! i = None -> pool w !! j = None ->
    pool w' !! i = Some (GStop ph) -> pool w' !! j = Some (GStop ph') -> i = j;
  sg_count : countm deferred (pool w') = countm deferred (pool w);
  sg_next : (next w <= next w')%nat
}.

Lemma stop_spec w :
  RWF w -> SWF w -> stopState (mgr w) = None -> exists st, stopping w (beginStop w).1 st.
Proof.
  intros Hw HS Hss. unfold beginStop. rewrite Hss.
  assert (forall s, s ∈ elements (sessions (mgr w)) -> is_Some (heap w !! s)) as Hl.
  { intros s. rewrite elem_of_elements. apply (s_heap _ HS). }
  pose proof (stop_fold _ w [] Hw Hl) as [HR He Hse Hnew].
  destruct (foldl stopSession (w, []) _) as [w1 owned]. cbn [fst] in *.
  pose proof (stopTimers_tframe (map_to_list (expiryTimers (mgr w1))) w1) as Ht.
  pose proof (tframe_RWF _ _ HR Ht) as HR2.
  set (w2 := foldl _ w1 _) in *. cbn [fst]. set (st := mkStop false _ _ _ _ _). exists st.
  pose proof (fresh_pool _ HR2) as Hfr2.
  assert (pool w1 !! next w2 = None) as Hfr by by rewrite <-(tf_pool _ _ Ht).
  assert (pool w !! next w2 = None) as Hfr0.
  { destruct (pool w !! next w2) eqn:E; [|done].
    by rewrite (lookup_weaken _ _ _ _ E (ext_pool _ _ He)) in Hfr. }
  destruct He, Ht. split; fields; try congruence.
  - apply (RWF_spawn (set_mgr w2 _)); [|done]. apply (RWF_frame w2); fields; auto using hsame_refl, f_heap.
    all: by rewrite ?tf_removals0, ?tf_removalsByID0, ?tf_rwg0.
  - done.
  - done.
  - by rewrite tf_rms0.
  - intros s r Hr. destruct (Hnew s r Hr) as [?|Hin]; [by left|right]. by apply elem_of_elements.
  - intros s r Hr. cbn. apply list_elem_of_fmap. exists (s, r). split; [done|].
    by apply elem_of_map_to_list.
  - intros id d H1 H2. cbn. apply list_elem_of_fmap. exists (id, d). split; [done|].
    apply elem_of_map_to_list, map_lookup_filter_Some. by rewrite ext_dis0.
  - exists (next w2). by rewrite lookup_insert_eq.
  - intros i g Hi. rewrite lookup_insert_ne by congruence. rewrite tf_pool0.
    by eapply lookup_weaken.
  - intros i g. rewrite lookup_insert, tf_pool0. case_decide; [intros [= <-]; by right; right|].
    intros Hi. destruct (ext_newpool0 i g Hi); auto.
  - intros i j ph ph' Hi Hj. rewrite !lookup_insert, tf_pool0.
    assert (forall k ph, pool w !! k = None -> pool w1 !! k = Some (GStop ph) -> False) as Hno.
    { intros k p Hk Hk1. destruct (ext_newpool0 k _ Hk1) as [?|[? ?]]; congruence. }
    repeat case_decide; intros; subst; try done; exfalso; eauto.
  - rewrite countm_new by done. simpl. rewrite tf_pool0. by apply ext_count0.
  - lia.
Qed.

Lemma COV_stop w w' st :
  RWF w -> SWF w -> COV w -> stopState (mgr w) = None -> stopping w w' st -> COV w'.
Proof.
  intros HR HS Hw Hss [].
  assert (forall s, sid w' s = sid w s) as Hsid by (intros; unfold sid; by rewrite sg_heap0).
  assert (forall k ph, pool w !! k <> Some (GStop ph)) as Hnostop.
  { intros k ph Hk. destruct (c_st1 _ Hw _ _ Hk) as (? & ? & _). congruence. }
  assert (forall k id wg ph, pool w' !! k = Some (GDisable id wg ph) ->
    pool w !! k = Some (GDisable id wg ph)) as Hold.
  { intros k id wg ph Hk. destruct (sg_old0 k _ Hk) as [?|[[? ?]|[? _]]]; done. }
  assert (forall k ph, pool w' !! k = Some (GStop ph) ->
    pool w !! k = None /\ ph = SWait (elements (sessions (mgr w)))) as HoldS.
  { intros k ph Hk. destruct (pool w !! k) as [g|] eqn:Ek.
    - pose proof (sg_keep0 _ _ Ek). simplify_eq. by destruct (Hnostop k ph).
    - split; [done|]. destruct (sg_old0 k _ Hk) as [?|[[? ?]|[? _]]]; congruence. }
  destruct sg_pool0 as (i0 & Hi0 & Hi0').
  split; rewrite ?sg_dis0, ?sg_stopState0, ?sg_panicked0.
  - intros s Hs. assert (readers w s <> 0%Z) as Hs0 by (unfold readers in *; by rewrite <-sg_heap0).
    right. destruct (c_cov _ Hw s Hs0) as [H|[H|(k & h & Hk & Hin & Hgu)]].
    + right. exists i0. eexists. split; [done|]. simpl. split; [by apply elem_of_elements|done].
    + left. by eapply (undrained_ext w).
    + right. exists k, h. split_and!; [by apply sg_keep0|done|].
      destruct h; simpl in *; try done. by rewrite Hsid.
  - intros k id wg ph Hk%Hold. by eapply (c_dis1 _ Hw).
  - intros k j id wg ph wg' ph' Hk%Hold Hj%Hold. by eapply (c_dis2 _ Hw).
  - intros s r d Hr. rewrite Hsid. intros Hd. destruct (sg_new0 s r Hr) as [Hr0|Hin].
    + destruct (c_rem _ Hw s r d Hr0 Hd) as (k & wg & ph & Hk & Hin). eauto 7.
    + by rewrite (tracked_enabled w s HS Hin) in Hd.
  - intros k ph Hk. eauto.
  - intros k j ph ph' Hk Hj. destruct (HoldS _ _ Hk), (HoldS _ _ Hj). by eapply sg_uniq0.
  - intros st' s r [= <-] Hr. exists i0. eexists. split; [done|]. simpl. eauto.
  - intros st' id d [= <-] H1 H2. exists i0. eexists. split; [done|]. simpl. eauto.
  - intros k l s Hk Hs. destruct (HoldS _ _ Hk) as [_ [= ->]].
    rewrite elem_of_elements in Hs. rewrite Hsid, sg_heap0.
    split; [by apply (s_heap _ HS)|by apply tracked_enabled].
  - apply Hw.
Qed.

(** ** The session index along each operation *)

Lemma IDX_schedule w id now : IDX w -> IDX (scheduleExpiryLocked w id now).
Proof.
  intros HI. pose proof (schedule_tframe w id now) as [].
  assert (forall i, byID (mgr (scheduleExpiryLocked w id now)) i = byID (mgr w) i) as Hby
    by (intros; unfold byID; by rewrite tf_byID0).
  assert (forall s, sid (scheduleExpiryLocked w id now) s = sid w s) as Hsid
    by (intros; unfold sid; by rewrite tf_heap0).
  destruct HI. split; intros *;
    rewrite ?Hby, ?Hsid, ?tf_sessions0, ?tf_byID0, ?tf_heap0, ?tf_dis0, ?tf_stopped0, ?tf_stopState0;
    eauto.
Qed.

(** Rescheduling a token repairs its timer entry. *)
Lemma SWF_schedule w id now :
  IDX w ->
  (forall id', id' <> id -> et_expiresAt <$> expiryTimers (mgr w) !! id' = earliest w (byID (mgr w) id')) ->
  SWF (scheduleExpiryLocked w id now).
Proof.
  intros HI Hexp. split; [by apply IDX_schedule|]. intros id'.
  pose proof (schedule_tframe w id now) as []. rewrite schedule_expiry.
  assert (earliest (scheduleExpiryLocked w id now) (byID (mgr (scheduleExpiryLocked w id now)) id') =
          earliest w (byID (mgr w) id')) as ->.
  { unfold byID. rewrite tf_byID0. apply earliest_ext. intros. unfold sexp. by rewrite tf_heap0. }
  case_decide; [by subst|auto].
Qed.

Lemma IDX_track w s e m :
  IDX w -> heap w !! s = Some e -> disableStates (mgr w) !! ts_id e = None ->
  stopped (mgr w) = false ->
  m = with_sessions (mgr w) ({[s]} ∪ sessions (mgr w))
        (<[ts_id e := {[s]} ∪ byID (mgr w) (ts_id e)]> (sessionsByID (mgr w))) ->
  IDX (set_mgr w m).
Proof.
  intros HI He Hd Hst ->. assert (sid w s = ts_id e) as Hsid by (unfold sid; by rewrite He).
  assert (forall id t, t ∈ byID (with_sessions (mgr w) ({[s]} ∪ sessions (mgr w))
     (<[ts_id e := {[s]} ∪ byID (mgr w) (ts_id e)]> (sessionsByID (mgr w)))) id <->
     t ∈ byID (mgr w) id \/ t = s /\ id = ts_id e) as Hby.
  { intros id t. unfold byID at 1. fields. rewrite lookup_insert. case_decide; simpl.
    - subst. set_solver.
    - fold (byID (mgr w) id). naive_solver. }
  split; fields.
  - intros id t. rewrite Hby, (s_idx _ HI), elem_of_union, elem_of_singleton.
    change (sid _ t) with (sid w t). naive_solver.
  - intros id ss. rewrite lookup_insert. case_decide; [intros [= <-]; set_solver|apply (s_ne _ HI)].
  - intros t. rewrite elem_of_union, elem_of_singleton. intros [->|Ht]; [eauto|by apply (s_heap _ HI)].
  - intros id Hid. apply set_eq. intros t. rewrite Hby. pose proof (s_dis _ HI id Hid).
    split; [|set_solver]. intros [?|[_ ->]]; [set_solver|]. destruct Hid. congruence.
  - congruence.
  - apply (s_stop _ HI).
Qed.

Lemma IDX_detach w s :
  IDX w -> stopped (mgr w) = false -> IDX (detachSessionLocked w s).
Proof.
  intros HI Hst. unfold detachSessionLocked.
  assert (forall id t, t ∈ byID (with_sessions (mgr w) (sessions (mgr w) ∖ {[s]})
     (drop_from_index (sessionsByID (mgr w)) (sid w s) s)) id <->
     t ∈ byID (mgr w) id /\ (id = sid w s -> t <> s)) as Hby
    by (intros id t; apply drop_from_index_elem).
  split; fields.
  - intros id t. rewrite Hby, (s_idx _ HI). change (sid _ t) with (sid w t).
    rewrite elem_of_difference, elem_of_singleton. naive_solver.
  - intros id ss. unfold drop_from_index. case_decide.
    + rewrite lookup_delete. case_decide; [done|]. apply (s_ne _ HI).
    + rewrite lookup_insert. case_decide; [congruence|]. apply (s_ne _ HI).
  - intros t Ht. apply (s_heap _ HI). set_solver.
  - intros id Hid. apply set_eq. intros t. rewrite Hby, (s_dis _ HI id Hid). set_solver.
  - congruence.
  - apply (s_stop _ HI).
Qed.

Lemma IDX_ext w w' : ext w w' -> sessions (mgr w') = sessions (mgr w) -> IDX w -> IDX w'.
Proof.
  intros [] Hs HI.
  assert (forall i, byID (mgr w') i = byID (mgr w) i) as Hby by (intros; unfold byID; by rewrite ext_byID0).
  assert (forall s, sid w' s = sid w s) as Hsid by (intros; unfold sid; by rewrite ext_heap0).
  destruct HI. split; intros *;
    rewrite ?Hby, ?Hsid, ?Hs, ?ext_byID0, ?ext_heap0, ?ext_dis0, ?ext_stopped0, ?ext_stopState0; eauto.
Qed.

Lemma SWF_begun w w' id d : SWF w -> begun w w' id d -> SWF w'.
Proof.
  intros HS [].
  assert (forall s, sid w' s = sid w s) as Hsid by (intros; unfold sid; by rewrite bg_heap0).
  assert (forall i, byID (mgr w') i = if decide (i = id) then ∅ else byID (mgr w) i) as Hby.
  { intros i. unfold byID. rewrite bg_byID0, lookup_delete.
    repeat case_decide; simpl; congruence. }
  split; [split|]; rewrite ?bg_stopped0, ?bg_stopState0; try apply HS.
  - intros i s. rewrite Hby, bg_sessions0, Hsid, elem_of_difference, !(s_idx _ HS).
    case_decide; [set_solver|]. rewrite (s_idx _ HS). naive_solver.
  - intros i ss. rewrite bg_byID0, lookup_delete. case_decide; [done|]. apply (s_ne _ HS).
  - intros s. rewrite bg_sessions0, bg_heap0, elem_of_difference. intros [Hs _]. by apply (s_heap _ HS).
  - intros i. rewrite Hby, bg_dis0, lookup_insert. repeat case_decide; try done; try congruence.
    apply (s_dis _ HS).
  - intros Hst. rewrite bg_sessions0, (s_stopped _ HS Hst). set_solver.
  - intros i. rewrite Hby, bg_exp0, lookup_delete. repeat case_decide; try congruence.
    + by rewrite earliest_empty.
    + rewrite (s_exp _ HS). symmetry. apply earliest_ext. intros. unfold sexp. by rewrite bg_heap0.
Qed.

Lemma SWF_stop w w' st : SWF w -> stopping w w' st -> SWF w'.
Proof.
  intros HS []. assert (forall i, byID (mgr w') i = ∅) as Hby
    by (intros; unfold byID; by rewrite sg_byID0, lookup_empty).
  split; [split|]; rewrite ?sg_stopped0, ?sg_stopState0, ?sg_sessions0, ?sg_byID0, ?sg_exp0.
  - intros i s. rewrite Hby. set_solver.
  - intros i ss. by rewrite lookup_empty.
  - set_solver.
  - auto.
  - done.
  - split; eauto.
  - intros i. rewrite Hby, earliest_empty. by rewrite lookup_empty.
Qed.

Lemma Remove_SWF w s now : RWF w -> SWF w -> SWF (Remove w s now).
Proof.
  intros HR HS. unfold Remove. case_decide as Hrm; [done|].
  destruct (stopped (mgr w)) eqn:Hst; [done|]. case_decide as Hin; [|done].
  assert (RWF (detachSessionLocked w s)) as HR1 by by apply set_sessions_RWF.
  pose proof (IDX_detach w s HS Hst) as HI1.
  pose proof (register_ext _ s HR1) as He. pose proof (register_sessions (detachSessionLocked w s) s) as Hss.
  destruct (registerRemoveLocked _ s) as [w2 [r c]]. cbn [fst snd] in *.
  apply SWF_schedule; [by eapply IDX_ext|]. destruct He.
  intros id Hid. rewrite ext_exp0. unfold detachSessionLocked at 1. fields. rewrite (s_exp _ HS).
  assert (sid w2 s = sid w s) as Hsid by (unfold sid; by rewrite ext_heap0).
  assert (byID (mgr w2) id = byID (mgr w) id) as ->.
  { unfold byID at 1. rewrite ext_byID0. apply set_eq. intros t. unfold detachSessionLocked. fields.
    rewrite drop_from_index_elem. fold (byID (mgr w) id). split; [naive_solver|].
    intros Ht. split; [done|]. congruence. }
  symmetry. apply earliest_ext. intros t _. unfold sexp. by rewrite ext_heap0.
Qed.

End TokenInvariants.
