(* ===== verification/TokenSafety.v ===== *)
(** * What [Disable], [Stop] and expiry guarantee

    Every step of [TokenConnections] preserves the invariants of
    [TokenInvariants]; the properties of the manager follow. *)

From S2P Require Import Prelude TokenConnections TokenInvariants.
Import TokenConnections TokenInvariants.

Module TokenSafety.

(** ** Lease counters *)

Definition holds (s : nat) (l : tokenLease) : bool :=
  Nat.eqb (tl_session l) s && bool_decide (tl_once l = Held).
Definition counts (s : nat) (l : tokenLease) : bool :=
  Nat.eqb (tl_session l) s && negb (bool_decide (tl_once l = Released)).

Record LWF (w : world) : Prop := {
  l_fresh l : is_Some (leases w !! l) -> (l < next w)%nat;
  l_heap l x : leases w !! l = Some x -> is_Some (heap w !! tl_session x);
  l_readers s e : heap w !! s = Some e ->
    ts_readers e = Z.of_nat (countm (holds s) (leases w)) /\
    ts_leases e = Z.of_nat (countm (counts s) (leases w))
}.

(** [expiryWG] counts the goroutines that will call [Done]. *)
Definition EWG (w : world) : Prop := expiryWG (mgr w) = Z.of_nat (countm deferred (pool w)).

Record inv (w : world) : Prop := {
  i_RWF : RWF w; i_SWF : SWF w; i_LWF : LWF w; i_COV : COV w; i_EWG : EWG w
}.

Lemma LWF_frame w w' :
  LWF w -> heap w' = heap w -> leases w' = leases w -> (next w <= next w')%nat -> LWF w'.
Proof.
  intros HL Hh Hl Hn. split; rewrite ?Hh, ?Hl; try apply HL.
  intros l Hx%(l_fresh _ HL). lia.
Qed.

Lemma inv_init : inv newTokenConnections.
Proof.
  split; [apply RWF_init|apply SWF_init| |apply COV_init|done].
  split; cbn; intros; rewrite lookup_empty in *; done.
Qed.

(** A session cell changes without changing its principal. *)
Lemma wf_set_session w s e e' :
  RWF w -> SWF w -> COV w -> heap w !! s = Some e ->
  ts_id e' = ts_id e -> ts_expires e' = ts_expires e ->
  (ts_readers e' <> 0%Z -> ts_readers e <> 0%Z \/ s ∈ sessions (mgr w)) ->
  RWF (set_session w s e') /\ SWF (set_session w s e') /\ COV (set_session w s e').
Proof.
  intros HR HS HC Hs Hid He Hrd. pose proof (hsame_set_session w s e e' Hs Hid He) as Hh.
  split_and!.
  - apply (RWF_frame w); auto. intros t. fields. rewrite lookup_insert.
    case_decide; [subst; intros _|]; apply (f_heap _ HR); eauto.
  - by apply (SWF_frame w).
  - apply (COV_frame w); auto. intros t Ht. unfold readers in Ht. fields.
    rewrite lookup_insert in Ht. case_decide as Hts.
    + subst t. simpl in Ht. destruct (Hrd Ht) as [Hr|Hr]; [right|by left; left].
      unfold readers. rewrite Hs. done.
    + by right.
Qed.

Lemma counts_new (f : nat -> tokenLease -> bool) w s ph t :
  LWF w -> (forall s x, f s x = true -> tl_session x = s) -> f s (mkLease s ph) = true ->
  countm (f t) (<[next w := mkLease s ph]> (leases w)) =
    ((if decide (t = s) then 1 else 0) + countm (f t) (leases w))%nat.
Proof.
  intros HL Hf Hs. rewrite countm_new.
  - case_decide as Ht; [subst; by rewrite Hs|]. destruct (f t (mkLease s ph)) eqn:E; [|done].
    apply Hf in E. simpl in E. congruence.
  - destruct (leases w !! next w) eqn:E; [|done].
    assert (next w < next w)%nat by (apply (l_fresh _ HL); eauto). lia.
Qed.

Lemma holds_session s x : holds s x = true -> tl_session x = s.
Proof. unfold holds. rewrite andb_true_iff, Nat.eqb_eq. naive_solver. Qed.
Lemma counts_session s x : counts s x = true -> tl_session x = s.
Proof. unfold counts. rewrite andb_true_iff, Nat.eqb_eq. naive_solver. Qed.

Lemma inv_admit w s e :
  inv w -> heap w !! s = Some e -> s ∈ sessions (mgr w) -> inv (admit_lease w s e).1.
Proof.
  intros [HR HS HL HC HE] Hs Hin. unfold admit_lease. set (e' := mkSession _ _ _ _ _ _ _).
  destruct (wf_set_session w s e e' HR HS HC Hs eq_refl eq_refl (fun _ => or_intror Hin))
    as (HR' & HS' & HC').
  cbn [fst]. split; [| | | |done].
  - apply (RWF_frame (set_session w s e')); fields; auto using hsame_refl.
    intros t Ht. apply (f_heap _ HR') in Ht. fields. lia.
  - by apply (SWF_frame (set_session w s e')); fields; auto using hsame_refl.
  - split; fields.
    + intros l. rewrite lookup_insert. case_decide; [intros; lia|]. intros Hl%(l_fresh _ HL). lia.
    + intros l x. rewrite lookup_insert. case_decide as Hl.
      * intros [= <-]. simpl. rewrite lookup_insert_eq. eauto.
      * intros Hx%(l_heap _ HL). rewrite lookup_insert. case_decide; eauto.
    + intros t f. rewrite (counts_new holds w s Held t HL holds_session),
        (counts_new counts w s Held t HL counts_session);
        try (unfold holds, counts; simpl; by rewrite Nat.eqb_refl).
      rewrite lookup_insert. case_decide as Ht.
      * subst t. intros [= <-]. rewrite !decide_True by done. unfold e'. simpl.
        destruct (l_readers _ HL s e Hs). lia.
      * rewrite !decide_False by done. apply (l_readers _ HL).
  - by apply (COV_frame (set_session w s e')); fields; auto using hsame_refl.
Qed.

(** Releasing moves a lease to its next phase and lowers one counter. *)
Lemma inv_lease w l s ph ph' e e' :
  inv w -> leases w !! l = Some (mkLease s ph) -> heap w !! s = Some e ->
  ts_id e' = ts_id e -> ts_expires e' = ts_expires e ->
  ph = Held /\ ph' = Unlocked /\ ts_readers e' = (ts_readers e - 1)%Z /\ ts_leases e' = ts_leases e \/
  ph = Unlocked /\ ph' = Released /\ ts_readers e' = ts_readers e /\ ts_leases e' = (ts_leases e - 1)%Z ->
  inv (set_leases (set_session w s e') (<[l := mkLease s ph']> (leases w))).
Proof.
  intros [HR HS HL HC HE] Hl Hs Hid He Hcase.
  pose proof (fun t => countm_update (holds t) (leases w) l _ (mkLease s ph') Hl) as Hh.
  pose proof (fun t => countm_update (counts t) (leases w) l _ (mkLease s ph') Hl) as Hc.
  assert (ts_readers e' <> 0%Z -> ts_readers e <> 0%Z \/ s ∈ sessions (mgr w)) as Hrd.
  { intros Hr. left. destruct Hcase as [(-> & -> & Hr1 & _)|(-> & -> & Hr1 & _)]; [|congruence].
    destruct (l_readers _ HL s e Hs) as [-> _]. specialize (Hh s). unfold holds in Hh at 1 3.
    simpl in Hh. rewrite Nat.eqb_refl in Hh. simpl in Hh. lia. }
  destruct (wf_set_session w s e e' HR HS HC Hs Hid He Hrd) as (HR' & HS' & HC').
  split; [| | | |done].
  - apply (RWF_frame (set_session w s e')); fields; auto using hsame_refl. exact (f_heap _ HR').
  - by apply (SWF_frame (set_session w s e')); fields; auto using hsame_refl.
  - split; fields.
    + intros k. rewrite lookup_insert. case_decide; [subst; intros _|]; apply (l_fresh _ HL); eauto.
    + intros k x. rewrite !lookup_insert. case_decide as Hk.
      * intros [= <-]. simpl. rewrite decide_True by done. eauto.
      * intros Hx%(l_heap _ HL). case_decide; eauto.
    + intros t f Hf. specialize (Hh t). specialize (Hc t). unfold holds in Hh at 1 3.
      unfold counts in Hc at 1 3. simpl in Hh, Hc. rewrite lookup_insert in Hf. case_decide as Ht.
      * simplify_eq. destruct (l_readers _ HL t e Hs). rewrite Nat.eqb_refl in Hh, Hc.
        destruct Hcase as [(-> & -> & -> & ->)|(-> & -> & -> & ->)]; simpl in Hh, Hc; lia.
      * destruct (l_readers _ HL t f Hf). rewrite (proj2 (Nat.eqb_neq s t)) in Hh, Hc by done.
        simpl in Hh, Hc. lia.
  - by apply (COV_frame (set_session w s e')); fields; auto using hsame_refl.
Qed.

(** ** Every step preserves the invariant *)

Lemma inv_new w id expires : inv w -> inv (newSession w id expires).
Proof.
  intros [HR HS HL HC HE].
  assert (heap w !! next w = None) as Hfr.
  { destruct (heap w !! next w) eqn:E; [|done].
    assert (next w < next w)%nat by (apply (f_heap _ HR); eauto). lia. }
  assert (hsame w (newSession w id expires)) as Hh.
  { intros s e Hs. exists e. fields. rewrite lookup_insert_ne by congruence. done. }
  split; [| | | |done].
  - apply (RWF_frame w); fields; auto. intros s. rewrite lookup_insert.
    case_decide; [intros; lia|]. intros Hs%(f_heap _ HR). lia.
  - by apply (SWF_frame w).
  - split; fields.
    + intros l Hl%(l_fresh _ HL). lia.
    + intros l x Hx%(l_heap _ HL). rewrite lookup_insert. case_decide; eauto.
    + intros s e. rewrite lookup_insert. case_decide as Hs; [|apply (l_readers _ HL)].
      intros [= <-]. subst s. simpl.
      assert (forall f : nat -> tokenLease -> bool, (forall s x, f s x = true -> tl_session x = s) ->
        countm (f (next w)) (leases w) = 0%nat) as Hz.
      { intros f Hf. apply countm_zero. intros l x Hx. destruct (f (next w) x) eqn:E; [|done].
        apply Hf in E. apply (l_heap _ HL) in Hx. rewrite E, Hfr in Hx. by destruct Hx. }
      rewrite (Hz holds holds_session), (Hz counts counts_session). done.
  - apply (COV_frame w); fields; auto. intros s Hs. right. split; [|done].
    unfold readers in *. fields. rewrite lookup_insert in Hs. by case_decide.
Qed.

(** Steps that only touch timers. *)
Lemma inv_tframe w w' :
  RWF w -> LWF w -> COV w -> EWG w -> tframe w w' -> SWF w' -> inv w'.
Proof.
  intros HR HL HC HE Ht HS'. split.
  - by eapply tframe_RWF.
  - done.
  - destruct Ht. by apply (LWF_frame w).
  - by eapply tframe_COV.
  - unfold EWG. rewrite (tf_ewg _ _ Ht), (tf_pool _ _ Ht). done.
Qed.

(** Disabling, with the deferred [Done] accounted for. *)
Lemma inv_begin w id (wg : bool) (k : Z) :
  inv w -> stopped (mgr w) = false -> disableStates (mgr w) !! id = None ->
  k = (if wg then 1 else 0)%Z ->
  let w1 := (beginDisableLocked w id).1 in
  (beginDisableLocked w id).2 = true /\
  inv (completeDisable (set_mgr w1 (with_wgs (mgr w1) (expiryWG (mgr w1) + k) (removeWG (mgr w1)))) id wg).
Proof.
  intros [HR HS HL HC HE] Hst Hid -> w1.
  destruct (begin_spec w id HR HS Hid) as (d & Hwin & Hb). split; [done|].
  fold w1 in Hb. pose proof (COV_begin w w1 id d wg HR HS HC Hst Hid Hb) as HC1.
  pose proof (SWF_begun w w1 id d HS Hb) as HS1. destruct Hb. unfold completeDisable in *. fields.
  rewrite bg_dis0, lookup_insert_eq in *. split.
  - apply RWF_spawn; [|done]. apply (RWF_frame w1); fields; auto using hsame_refl, f_heap.
  - by apply (SWF_frame w1); fields; auto using hsame_refl.
  - apply (LWF_frame w); fields; auto.
  - destruct HC1. split; fields; auto.
  - unfold EWG in *. fields. rewrite countm_new by by apply fresh_pool. simpl.
    rewrite bg_ewg0, HE, (bg_count0 deferred) by done. destruct wg; lia.
Qed.

Lemma inv_begin_plain w id :
  inv w -> stopped (mgr w) = false -> disableStates (mgr w) !! id = None ->
  (beginDisableLocked w id).2 = true /\ inv (completeDisable (beginDisableLocked w id).1 id false).
Proof.
  intros Hi Hst Hid. destruct (inv_begin w id false 0 Hi Hst Hid eq_refl) as [Hw H]. split; [done|].
  destruct (beginDisableLocked w id).1 as [[] h r l t p n k]. cbn in H. by rewrite Z.add_0_r in H.
Qed.

Lemma inv_Track w s conn now : inv w -> inv (Track w s conn now).1.
Proof.
  intros Hi. unfold Track. destruct (heap w !! s) as [e|] eqn:Hs; [|done].
  destruct conn as [c|]; [|done]. case_if; [done|]. destruct (stopped (mgr w)) eqn:Hst; [done|].
  case_decide as Hd; [done|]. apply eq_None_not_Some in Hd. case_if.
  - pose proof (inv_begin_plain w (ts_id e) Hi Hst Hd) as [_ H].
    by destruct (beginDisableLocked w (ts_id e)).
  - case_decide as Hin; [done|]. cbn [fst]. set (e' := mkSession _ _ _ _ _ _ _).
    destruct Hi as [HR HS HL HC HE].
    destruct (wf_set_session w s e e' HR HS HC Hs eq_refl eq_refl) as (HR' & HS' & HC');
      [by left|].
    set (m := with_sessions _ _ _). set (w1 := set_session w s e') in *.
    assert (IDX (set_mgr w1 m)) as HI.
    { apply (IDX_track w1 s e'); [exact HS'| |done..]. fields. apply lookup_insert_eq. }
    apply (inv_tframe (set_mgr w1 m)).
    + apply (RWF_frame w1); fields; auto using hsame_refl. exact (f_heap _ HR').
    + unfold w1. split; fields; try apply HL.
      * intros l x Hx%(l_heap _ HL). rewrite lookup_insert. case_decide; eauto.
      * intros t f. rewrite lookup_insert. case_decide as Ht; [|apply (l_readers _ HL)].
        intros [= <-]. subst t. simpl. by apply (l_readers _ HL).
    + apply (COV_frame w1); fields; auto using hsame_refl; try done. intros t Ht. right.
      split_and!; [done| |done]. set_solver.
    + done.
    + apply schedule_tframe.
    + apply SWF_schedule; [done|]. intros id' Hne.
      change (expiryTimers (mgr (set_mgr w1 m))) with (expiryTimers (mgr w1)).
      rewrite (s_exp _ HS'). unfold byID, m. fields. rewrite lookup_insert_ne by done.
      symmetry. by apply earliest_ext.
Qed.

Lemma inv_Acquire w s now : inv w -> inv (Acquire w s now).1.
Proof.
  intros Hi. unfold Acquire. destruct (heap w !! s) as [e|] eqn:Hs; [|done].
  destruct (stopped (mgr w)) eqn:Hst; [done|]. case_decide as Hd; [done|].
  apply eq_None_not_Some in Hd. case_decide as Hin; [|done]. case_if; [|by apply inv_admit].
  destruct (inv_begin w (ts_id e) true 1 Hi Hst Hd eq_refl) as [Hw H].
  destruct (beginDisableLocked w (ts_id e)) as [w1 win]. cbn [fst snd] in *. subst win. done.
Qed.

Lemma inv_Fork w l : inv w -> inv (Fork w l).1.
Proof.
  intros Hi. unfold Fork. destruct (leases w !! l) as [x|]; [|done].
  destruct (heap w !! tl_session x) as [e|] eqn:Hs; [|done]. case_if; [done|].
  case_decide; [by apply inv_admit|done].
Qed.

Lemma inv_releaseGate w l w' : inv w -> releaseGate w l = Some w' -> inv w'.
Proof.
  intros Hi. unfold releaseGate. destruct (leases w !! l) as [[s ph]|] eqn:Hl; [|done]. simpl.
  destruct (heap w !! s) as [e|] eqn:Hs; [|done]. simpl. case_decide as Hph; [|done].
  intros [= <-]. subst ph. eapply (inv_lease w l s Held); eauto 6.
Qed.

Lemma inv_releaseCount w l w' : inv w -> releaseCount w l = Some w' -> inv w'.
Proof.
  intros Hi. unfold releaseCount. destruct (leases w !! l) as [[s ph]|] eqn:Hl; [|done]. simpl.
  destruct (heap w !! s) as [e|] eqn:Hs; [|done]. simpl. case_decide as Hph; [|done].
  intros [= <-]. subst ph. eapply (inv_lease w l s Unlocked); eauto 6.
Qed.

(** The HTTP response fields are not part of the invariant. *)
Lemma inv_http w s e h o :
  inv w -> heap w !! s = Some e ->
  inv (set_session w s (mkSession (ts_id e) (ts_expires e) (ts_conn e) (ts_readers e) (ts_leases e) h o)).
Proof.
  intros [HR HS HL HC HE] Hs.
  set (e' := mkSession _ _ _ _ _ _ _).
  destruct (wf_set_session w s e e' HR HS HC Hs eq_refl eq_refl) as (HR' & HS' & HC'); [by left|].
  split; [done|done| |done|done]. split; fields; try apply HL.
  - intros l x Hx%(l_heap _ HL). rewrite lookup_insert. case_decide; eauto.
  - intros t f. rewrite lookup_insert. case_decide as Ht; [|apply (l_readers _ HL)].
    intros [= <-]. subst t. simpl. by apply (l_readers _ HL).
Qed.

Lemma inv_hold w s l : inv w -> inv (holdHTTPResponse w s l).1.
Proof.
  intros Hi. unfold holdHTTPResponse. destruct (heap w !! s) as [e|] eqn:Hs; [|done].
  destruct l; [|done]. case_if; [done|]. by apply inv_http.
Qed.

Lemma inv_finish_http w s : inv w -> inv (finishHTTPResponse w s).1.
Proof.
  intros Hi. unfold finishHTTPResponse. destruct (heap w !! s) as [e|] eqn:Hs; [|done].
  by apply inv_http.
Qed.

Lemma inv_completeTokenRemove w r : inv w -> inv (completeTokenRemove w r).
Proof.
  intros [HR HS HL HC HE]. split; auto using RWF_completeTokenRemove, completeTokenRemove_COV.
  all: unfold completeTokenRemove; destruct r as [r|]; [simpl; destruct (rms w !! r)|]; try done.
  - by apply (SWF_frame w); fields; auto using hsame_refl.
  - by apply (LWF_frame w).
Qed.

Lemma inv_Disable w id : inv w -> inv (Disable w id).
Proof.
  intros Hi. unfold Disable. destruct (stopped (mgr w)) eqn:Hst; [done|].
  destruct (disableStates (mgr w) !! id) as [d|] eqn:Hd.
  - unfold beginDisableLocked. by rewrite Hd.
  - destruct (inv_begin_plain w id Hi Hst Hd) as [Hw H].
    destruct (beginDisableLocked w id) as [w1 win]. cbn [fst snd] in *. by subst win.
Qed.

(** The invariant without the drain barriers. *)
Record base (w : world) : Prop := {
  b_RWF : RWF w; b_SWF : SWF w; b_LWF : LWF w; b_EWG : EWG w
}.

Lemma inv_base w : inv w -> base w.
Proof. intros []. by split. Qed.

Lemma base_COV w : base w -> COV w -> inv w.
Proof. intros [] ?. by split. Qed.

Lemma base_become w i g g' :
  base w -> pool w !! i = Some g -> isRemove g = false -> isRemove g' = false ->
  deferred g' = deferred g -> base (become w i g').
Proof.
  intros [HR HS HL HE] Hi Hg Hg' Hd. split.
  - by eapply RWF_become.
  - by apply (SWF_frame w); fields; auto using hsame_refl.
  - by apply (LWF_frame w).
  - unfold EWG in *. fields. pose proof (countm_update deferred (pool w) i g g' Hi) as Hc.
    rewrite Hd in Hc. lia.
Qed.

Lemma base_exit w i g :
  base w -> pool w !! i = Some g -> isRemove g = false ->
  base (if deferred g then expiryDone (exit w i) else exit w i).
Proof.
  intros [HR HS HL HE] Hi Hg. pose proof (RWF_exit w i g HR Hi Hg) as HR'.
  pose proof (countm_delete deferred (pool w) i g Hi) as Hc. unfold EWG in HE.
  destruct (deferred g) eqn:Ed; split; unfold EWG; fields.
  - apply (RWF_frame (exit w i)); fields; auto using hsame_refl. exact (f_heap _ HR').
  - by apply (SWF_frame w); fields; auto using hsame_refl.
  - by apply (LWF_frame w).
  - lia.
  - done.
  - by apply (SWF_frame w); fields; auto using hsame_refl.
  - by apply (LWF_frame w).
  - lia.
Qed.

(** Changing the disable states, the stop state or the panic flag. *)
Lemma base_states w ds st pk :
  base w -> (forall id, is_Some (ds !! id) -> is_Some (disableStates (mgr w) !! id)) ->
  (is_Some st <-> is_Some (stopState (mgr w))) ->
  base (mkWorld (mkTC (sessions (mgr w)) (sessionsByID (mgr w)) (removals (mgr w))
          (removalsByID (mgr w)) ds (expiryTimers (mgr w)) (nextTimerID (mgr w)) (stopped (mgr w))
          st (expiryWG (mgr w)) (removeWG (mgr w)))
          (heap w) (rms w) (leases w) (timers w) (pool w) (next w) pk).
Proof.
  intros [HR HS HL HE] Hds Hst. split.
  - apply (RWF_frame w); fields; auto using hsame_refl. exact (f_heap _ HR).
  - apply (SWF_frame w); fields; auto using hsame_refl.
  - by apply (LWF_frame w).
  - done.
Qed.

Lemma base_completeTokenRemove w r : base w -> base (completeTokenRemove w r).
Proof.
  intros [HR HS HL HE]. unfold completeTokenRemove. destruct r as [r|]; [|by split]. simpl.
  destruct (rms w !! r) as [rm|] eqn:Hr; [|by split]. simpl. split; [|..|done].
  - by apply (RWF_set_rm w r rm).
  - by apply (SWF_frame w); fields; auto using hsame_refl.
  - by apply (LWF_frame w).
Qed.

Lemma completeTokenRemove_pool w r : pool (completeTokenRemove w r) = pool w.
Proof. unfold completeTokenRemove. destruct r as [r|]; simpl; [by destruct (rms w !! r)|done]. Qed.

Lemma insert_dom (ds : gmap string tokenDisableState) id d d' :
  ds !! id = Some d -> forall i, is_Some (<[id := d']> ds !! i) -> is_Some (ds !! i).
Proof. intros Hd i. rewrite lookup_insert. case_decide; [subst; eauto|done]. Qed.

(** The step is enabled: its guard holds. *)
Ltac enabled H :=
  try match type of H with (if ?b then _ else _) = _ => destruct b eqn:?; [|done] end.

Lemma inv_run_disable w i id wg ph w' :
  inv w -> pool w !! i = Some (GDisable id wg ph) -> run_disable w i id wg ph = Some w' -> inv w'.
Proof.
  intros Hi Hp Hrun. apply base_COV; [|eapply (run_disable_COV w); eauto; apply Hi].
  pose proof (inv_base _ Hi) as Hb. unfold run_disable in Hrun.
  destruct (disableStates (mgr w) !! id) as [d|] eqn:Hd; [|done]. simpl in Hrun.
  destruct ph as [[|s l]|[|r l]|[|r l]|]; enabled Hrun; simplify_eq;
    try (by eapply base_become).
  - eapply base_become; [by apply base_completeTokenRemove|by rewrite completeTokenRemove_pool|done..].
  - eapply base_become; [|done..].
    by apply (base_states w _ (stopState (mgr w)) (panicked w) Hb (insert_dom _ _ _ _ Hd)).
  - match goal with |- base (if _ then expiryDone (exit ?x i) else _) =>
      assert (base x) as Hx; [|exact (base_exit x i (GDisable id wg DClose) Hx Hp eq_refl)] end.
    by apply (base_states w _ (stopState (mgr w)) _ Hb (insert_dom _ _ _ _ Hd)).
Qed.

Lemma inv_run_stop w i ph w' :
  inv w -> pool w !! i = Some (GStop ph) -> run_stop w i ph = Some w' -> inv w'.
Proof.
  intros Hi Hp Hrun. apply base_COV; [|eapply (run_stop_COV w); eauto; apply Hi].
  pose proof (inv_base _ Hi) as Hb. unfold run_stop in Hrun.
  destruct (stopState (mgr w)) as [st|] eqn:Hst; [|done]. simpl in Hrun.
  destruct ph as [[|s l]|[|r l]|[|r l]|[|id l]| |]; enabled Hrun; simplify_eq;
    try (by eapply base_become).
  - eapply base_become; [by apply base_completeTokenRemove|by rewrite completeTokenRemove_pool|done..].
  - match goal with |- base (exit ?x i) =>
      assert (base x) as Hx; [|exact (base_exit x i (GStop SRemoveWG) Hx Hp eq_refl)] end.
    assert (stopped (mgr w) = true) as Hs by (apply (s_stop _ (b_SWF _ Hb)); eauto).
    unfold with_stop. fields. rewrite <-Hs. apply (base_states w _ _ _ Hb); [done|].
    rewrite Hst. split; eauto.
Qed.

Lemma inv_beginStop w : inv w -> inv (beginStop w).1.
Proof.
  intros [HR HS HL HC HE]. destruct (stopState (mgr w)) as [st|] eqn:Hst.
  - unfold beginStop. by rewrite Hst.
  - destruct (stop_spec w HR HS Hst) as [st Hsg]. split.
    + apply Hsg.
    + by eapply SWF_stop.
    + apply (LWF_frame w); [done|apply Hsg..].
    + by eapply COV_stop.
    + unfold EWG. by rewrite (sg_ewg _ _ _ Hsg), (sg_count _ _ _ Hsg).
Qed.

Lemma run_remove_frame w i r ph w' :
  pool w !! i = Some (GRemove r ph) -> run_remove w i r ph = Some w' ->
  heap w' = heap w /\ leases w' = leases w /\ next w' = next w /\
  sessions (mgr w') = sessions (mgr w) /\ sessionsByID (mgr w') = sessionsByID (mgr w) /\
  disableStates (mgr w') = disableStates (mgr w) /\ expiryTimers (mgr w') = expiryTimers (mgr w) /\
  stopped (mgr w') = stopped (mgr w) /\ stopState (mgr w') = stopState (mgr w) /\
  expiryWG (mgr w') = expiryWG (mgr w) /\ countm deferred (pool w') = countm deferred (pool w) /\
  (forall k g, owner g = true -> (pool w' !! k = Some g <-> pool w !! k = Some g)).
Proof.
  intros Hi Hrun. unfold run_remove in Hrun. destruct (rms w !! r) as [rm|]; [|done]. simpl in Hrun.
  assert (forall ph', countm deferred (<[i := GRemove r ph']> (pool w)) = countm deferred (pool w)) as Hup.
  { intros ph'. pose proof (countm_update deferred (pool w) i _ (GRemove r ph') Hi) as Hc. exact Hc. }
  assert (forall ph' k g, owner g = true ->
    (<[i := GRemove r ph']> (pool w) !! k = Some g <-> pool w !! k = Some g)) as Hown.
  { clear Hrun. intros ph' k g Hg. rewrite lookup_insert. case_decide as Hk; [|done]. subst k. rewrite Hi.
    split; intros [= <-]; simpl in Hg; congruence. }
  destruct ph; enabled Hrun; simplify_eq; fields.
  - split_and!; eauto.
  - case_decide; fields; split_and!; eauto.
  - split_and!; try done.
    + symmetry. exact (countm_delete deferred (pool w) i _ Hi).
    + intros k g Hg. rewrite lookup_delete. case_decide as Hk; [|done]. subst k. rewrite Hi.
      split; [done|]. intros [= <-]. simpl in Hg. congruence.
Qed.

Lemma run_remove_undrained w i r ph w' s :
  RWF w -> pool w !! i = Some (GRemove r ph) -> run_remove w i r ph = Some w' ->
  readers w s <> 0%Z -> undrained w s -> undrained w' s.
Proof.
  intros HR Hi Hrun Hrd (q & rq & Hq & Hrq & Hdr).
  destruct (r_pool _ HR _ _ _ Hi) as (rm & Hrm & Hdone & Hph).
  destruct (r_map _ HR _ _ Hq) as (rq' & k & ph' & H1 & H2 & _). assert (rq' = rq) as -> by congruence.
  unfold run_remove in Hrun. rewrite Hrm in Hrun. simpl in Hrun.
  destruct ph; enabled Hrun; simplify_eq.
  - assert (q <> r) as Hne.
    { intros ->. assert (rm = rq) as -> by congruence. by apply drained_readers in Heqb. }
    exists q, rq. fields. by rewrite lookup_insert_ne.
  - assert (q <> r) as Hne.
    { intros ->. assert (rm = rq) as -> by congruence. apply Hph in Hdr. done. }
    exists q, rq. fields. case_decide; fields; [|done]. rewrite lookup_delete_ne; [done|].
    intros Heq. rewrite Heq in *. congruence.
  - assert (q <> r) as Hne.
    { intros ->. assert (rm = rq) as -> by congruence. apply Hph in Hdr. done. }
    exists q, rq. fields. by rewrite lookup_insert_ne.
Qed.

Lemma run_remove_shrinks w i r ph w' s q :
  run_remove w i r ph = Some w' -> removals (mgr w') !! s = Some q -> removals (mgr w) !! s = Some q.
Proof.
  intros Hrun. unfold run_remove in Hrun. destruct (rms w !! r) as [rm|]; [|done]. simpl in Hrun.
  destruct ph; enabled Hrun; simplify_eq; fields; [done| |done].
  case_decide; fields; [|done]. rewrite lookup_delete_Some. naive_solver.
Qed.

Lemma run_remove_panicked w i r ph w' :
  RWF w -> pool w !! i = Some (GRemove r ph) -> run_remove w i r ph = Some w' ->
  panicked w' = panicked w.
Proof.
  intros HR Hi Hrun. destruct (r_pool _ HR _ _ _ Hi) as (rm & Hrm & Hdone & Hph).
  unfold run_remove in Hrun. rewrite Hrm in Hrun. simpl in Hrun.
  destruct ph; enabled Hrun; simplify_eq; fields.
  - destruct (rm_drained rm) eqn:E; [|apply orb_false_r]. by assert (true = false) by by apply Hph.
  - done.
  - rewrite Hdone. apply orb_false_r.
Qed.

Lemma inv_run_remove w i r ph w' :
  inv w -> pool w !! i = Some (GRemove r ph) -> run_remove w i r ph = Some w' -> inv w'.
Proof.
  intros [HR HS HL HC HE] Hi Hrun.
  destruct (run_remove_frame w i r ph w' Hi Hrun)
    as (H1 & H2 & H3 & H4 & H5 & H6 & H7 & H8 & H9 & H10 & H11 & H12). split.
  - by eapply run_remove_RWF.
  - apply (SWF_frame w); rewrite ?H6, ?H9; auto using hsame_refl.
  - apply (LWF_frame w); auto. lia.
  - apply (COV_frame w); auto using hsame_refl.
    + by eapply run_remove_panicked.
    + eauto using run_remove_shrinks.
    + intros s Hs. right. assert (readers w s <> 0%Z) by (unfold readers in *; by rewrite <-H1).
      split_and!; [done|by rewrite H4|]. eauto using run_remove_undrained.
  - unfold EWG. by rewrite H10, H11.
Qed.

(** Goroutines that own nothing come and go. *)
Lemma COV_exit_plain w i g :
  RWF w -> COV w -> pool w !! i = Some g -> owner g = false -> COV (exit w i).
Proof.
  intros HR HC Hi Hg. apply (COV_frame w); fields; auto using hsame_refl; try done.
  intros k h Hh. rewrite lookup_delete. case_decide; [|done]. subst k. rewrite Hi.
  split; [done|]. intros [= <-]. congruence.
Qed.

Lemma COV_become_plain w i g g' :
  RWF w -> COV w -> pool w !! i = Some g -> owner g = false -> owner g' = false -> COV (become w i g').
Proof.
  intros HR HC Hi Hg Hg'. apply (COV_frame w); fields; auto using hsame_refl; try done.
  intros k h Hh. rewrite lookup_insert. case_decide; [|done]. subst k. rewrite Hi.
  split; intros [= <-]; congruence.
Qed.

Lemma COV_expiryDone w : COV w -> COV (expiryDone w).
Proof. intros []. by split. Qed.

Lemma inv_exit_expire w i id gen :
  inv w -> pool w !! i = Some (GExpire id gen EMid) \/ pool w !! i = Some (GExpire id gen EWait) ->
  inv (expiryDone (exit w i)).
Proof.
  intros Hi Hp. pose proof (inv_base _ Hi) as Hb. apply base_COV.
  - destruct Hp as [Hp|Hp]; exact (base_exit w i _ Hb Hp eq_refl).
  - apply COV_expiryDone. destruct Hp as [Hp|Hp]; (eapply COV_exit_plain; [apply Hi..|done|done]).
Qed.

Lemma inv_fire w p w' : inv w -> fireTimer w p = Some w' -> inv w'.
Proof.
  intros [HR HS HL HC HE] Hf. unfold fireTimer in Hf.
  destruct (timers w !! p) as [t|]; [|done]. simpl in Hf. destruct (rt_phase t); simplify_eq.
  set (w1 := set_timers w _). assert (tframe w w1) as Ht by by split.
  assert (RWF w1) as HR1 by by eapply tframe_RWF.
  assert (COV w1) as HC1 by by eapply (tframe_COV w). split.
  - by apply RWF_spawn.
  - by apply (SWF_frame w); fields; auto using hsame_refl.
  - apply (LWF_frame w); fields; auto.
  - apply (COV_frame w1); fields; auto using hsame_refl; try done.
    intros i g Hg. rewrite lookup_insert. case_decide; [|done]. subst i.
    split; [intros [= <-]; done|]. unfold w1. fields. by rewrite (fresh_pool w HR).
  - unfold EWG in *. fields. rewrite countm_new by by apply fresh_pool. done.
Qed.

(** The second critical section of [expireToken] when the token really expired. *)
Lemma inv_expire_disable w i id gen :
  inv w -> pool w !! i = Some (GExpire id gen EMid) -> stopped (mgr w) = false ->
  disableStates (mgr w) !! id = None ->
  (beginDisableLocked w id).2 = true /\ inv (completeDisable (exit (beginDisableLocked w id).1 i) id true).
Proof.
  intros Hi Hp Hst Hd. destruct Hi as [HR HS HL HC HE].
  destruct (begin_spec w id HR HS Hd) as (d & Hwin & Hb). split; [done|].
  pose proof (COV_begin w _ id d true HR HS HC Hst Hd Hb) as HC1.
  pose proof (SWF_begun w _ id d HS Hb) as HS1. destruct Hb. set (w1 := (beginDisableLocked w id).1) in *.
  assert (pool w1 !! i = Some (GExpire id gen EMid)) as Hp1 by by eapply lookup_weaken.
  pose proof (RWF_exit w1 i _ bg_RWF0 Hp1 eq_refl) as HR1.
  pose proof (fresh_pool _ bg_RWF0) as Hfr.
  unfold completeDisable in *. fields. rewrite bg_dis0, lookup_insert_eq in *. split.
  - by apply (RWF_spawn (exit w1 i)).
  - by apply (SWF_frame w1); fields; auto using hsame_refl.
  - apply (LWF_frame w); fields; auto.
  - set (w2 := spawn w1 _) in HC1.
    assert (pool w2 !! i = Some (GExpire id gen EMid)) as Hp2.
    { unfold w2. fields. rewrite lookup_insert_ne; [done|]. congruence. }
    assert (RWF w2) as HR2 by by apply RWF_spawn.
    pose proof (COV_exit_plain w2 i _ HR2 HC1 Hp2 eq_refl) as HC2.
    unfold w2, exit, spawn, bump, set_pool in HC2. cbn in HC2.
    rewrite delete_insert_ne in HC2 by congruence. exact HC2.
  - unfold EWG in *. fields. rewrite countm_new by (rewrite lookup_delete; by case_decide).
    pose proof (countm_delete deferred (pool w1) i _ Hp1) as Hc. simpl in Hc. simpl.
    rewrite bg_ewg0, HE, <-(bg_count0 deferred) by done. lia.
Qed.

Lemma inv_run_expire w i id gen ph now w' :
  inv w -> pool w !! i = Some (GExpire id gen ph) -> run_expire w i id gen ph now = Some w' -> inv w'.
Proof.
  intros Hi Hp Hrun. pose proof (inv_base _ Hi) as Hb. unfold run_expire in Hrun. destruct ph.
  - destruct (stopped (mgr w)); simplify_eq; apply base_COV.
    + exact (base_exit w i _ Hb Hp eq_refl).
    + eapply COV_exit_plain; [apply Hi..|done|done].
    + destruct Hb as [HR HS HL HE]. pose proof (RWF_become w i _ (GExpire id gen EMid) HR Hp eq_refl eq_refl) as HR'.
      split; fields.
      * apply (RWF_frame (become w i (GExpire id gen EMid))); fields; auto using hsame_refl.
        exact (f_heap _ HR).
      * by apply (SWF_frame w); fields; auto using hsame_refl.
      * by apply (LWF_frame w).
      * unfold EWG in *. fields.
        pose proof (countm_update deferred (pool w) i _ (GExpire id gen EMid) Hp) as Hc.
        simpl in Hc. lia.
    + pose proof (COV_become_plain w i _ (GExpire id gen EMid) (i_RWF _ Hi) (i_COV _ Hi) Hp eq_refl eq_refl) as [].
      by split.
  - destruct (stopped (mgr w)) eqn:Hst; [simplify_eq; eapply inv_exit_expire; eauto|].
    destruct (expiryTimers (mgr w) !! id) as [e|] eqn:He; [|simplify_eq; eapply inv_exit_expire; eauto].
    case_hyp Hrun; [simplify_eq; eapply inv_exit_expire; eauto|]. case_hyp Hrun.
    + simplify_eq. set (w1 := set_mgr w _).
      pose proof (schedule_tframe w1 id now) as Ht.
      eapply inv_exit_expire; [|left; by rewrite (tf_pool _ _ Ht)].
      destruct Hi as [HR HS HL HC HE]. apply (inv_tframe w1); auto.
      * apply (RWF_frame w); fields; auto using hsame_refl. exact (f_heap _ HR).
      * by apply (LWF_frame w).
      * destruct HC. by split.
      * apply SWF_schedule.
        { destruct HS as [[] ?]. by split. }
        intros id' Hne. unfold w1. fields. rewrite lookup_delete_ne by done. by rewrite (s_exp _ HS).
    + destruct (disableStates (mgr w) !! id) as [d|] eqn:Hd.
      * unfold beginDisableLocked in Hrun. rewrite Hd in Hrun. simplify_eq.
        apply base_COV; [by eapply base_become|].
        eapply COV_become_plain; [apply Hi..|done|done|done].
      * destruct (inv_expire_disable w i id gen Hi Hp Hst Hd) as [Hwin H].
        destruct (beginDisableLocked w id) as [w1 win]. cbn [fst snd] in *. subst win.
        by simplify_eq.
  - destruct (disableStates (mgr w) !! id) as [d|]; [|done]. simpl in Hrun. enabled Hrun.
    simplify_eq. eapply inv_exit_expire; eauto.
Qed.

Lemma inv_Remove w s now : inv w -> inv (Remove w s now).
Proof.
  intros [HR HS HL HC HE]. destruct (Remove_wf w s now HR HS HC) as [HR' HC'].
  apply base_COV; [|done]. pose proof (Remove_SWF w s now HR HS) as HS'. revert HR' HS'.
  unfold Remove. case_decide; [by split|]. case_if; [by split|]. case_decide; [|by split].
  assert (RWF (detachSessionLocked w s)) as HR1 by by apply set_sessions_RWF.
  pose proof (register_ext _ s HR1) as He. unfold detachSessionLocked in He at 1.
  destruct (registerRemoveLocked _ s) as [w2 [r c]]. cbn [fst] in He.
  pose proof (schedule_tframe w2 (sid w2 s) now) as []. destruct He. fields.
  intros HR' HS'. split; [done|done| |].
  - apply (LWF_frame w); [done|congruence|congruence|lia].
  - unfold EWG in *. rewrite tf_ewg0, tf_pool0, ext_ewg0, (ext_count0 deferred) by done. done.
Qed.

Lemma inv_step w w' : inv w -> step w w' -> inv w'.
Proof.
  intros Hi Hstep. destruct Hstep.
  - by apply inv_new.
  - by apply inv_Track.
  - by apply inv_Acquire.
  - by apply inv_Fork.
  - by eapply inv_releaseGate.
  - by eapply inv_releaseCount.
  - by apply inv_hold.
  - by apply inv_finish_http.
  - by apply inv_Remove.
  - by apply inv_completeTokenRemove.
  - by apply inv_Disable.
  - by apply inv_beginStop.
  - by eapply inv_fire.
  - unfold run_goroutine in H. destruct (pool w !! i) as [[]|] eqn:Hp; simpl in H; [..|done];
      eauto using inv_run_disable, inv_run_remove, inv_run_expire, inv_run_stop.
Qed.

Lemma inv_reachable w : rtc step newTokenConnections w -> inv w.
Proof.
  intros Hr. assert (inv newTokenConnections) as H0 by apply inv_init. revert H0.
  induction Hr; eauto using inv_step.
Qed.

(** A lease that is still held pins its session's gate. *)
Lemma held_readers w l x :
  inv w -> leases w !! l = Some x -> tl_once x = Held -> readers w (tl_session x) <> 0%Z.
Proof.
  intros Hi Hl Hh Hz. destruct (l_heap _ (i_LWF _ Hi) _ _ Hl) as [e He].
  unfold readers in Hz. rewrite He in Hz. simpl in Hz.
  destruct (l_readers _ (i_LWF _ Hi) _ _ He) as [Hr _]. rewrite Hz in Hr.
  assert (countm (holds (tl_session x)) (leases w) = 0%nat) as Hc by lia.
  rewrite countm_zero in Hc. specialize (Hc l x Hl). unfold holds in Hc.
  rewrite Nat.eqb_refl, Hh in Hc. done.
Qed.

Lemma disabled_drained w id d s :
  inv w -> disableStates (mgr w) !! id = Some d -> ds_done d = true -> sid w s = id ->
  readers w s = 0%Z.
Proof.
  intros Hi Hd Hdone <-. destruct Hi as [HR HS HL HC HE].
  destruct (decide (readers w s = 0%Z)) as [|Hr]; [done|exfalso].
  assert (forall i wg ph, pool w !! i <> Some (GDisable (sid w s) wg ph)) as Hno.
  { intros i wg ph Hp. destruct (c_dis1 _ HC _ _ _ _ Hp) as (? & ? & ?). congruence. }
  destruct (c_cov _ HC s Hr) as [H|[(r & rm & Hrm & _)|(i & g & Hp & Hin & Hg)]].
  - by rewrite (tracked_enabled w s HS H) in Hd.
  - destruct (c_rem _ HC s r d Hrm Hd) as (i & wg & ph & Hp & _). by apply (Hno i wg ph).
  - destruct g as [id wg ph| | |ph]; simpl in *; try done.
    + subst id. by apply (Hno i wg ph).
    + destruct ph; try (by apply not_elem_of_nil in Hin).
      destruct (c_st5 _ HC _ _ _ Hp Hin) as [_ Hn]. congruence.
Qed.

Lemma stopped_drained w st s :
  inv w -> stopState (mgr w) = Some st -> st_done st = true -> readers w s = 0%Z.
Proof.
  intros Hi Hst Hdone. destruct Hi as [HR HS HL HC HE].
  destruct (decide (readers w s = 0%Z)) as [|Hr]; [done|exfalso].
  assert (forall i ph, pool w !! i <> Some (GStop ph)) as Hno.
  { intros i ph Hp. destruct (c_st1 _ HC _ _ Hp) as (? & ? & ?). congruence. }
  assert (stopped (mgr w) = true) as Hs by (apply (s_stop _ HS); eauto).
  destruct (c_cov _ HC s Hr) as [H|[(r & rm & Hrm & _)|(i & g & Hp & Hin & Hg)]].
  - rewrite (s_stopped _ HS Hs) in H. set_solver.
  - destruct (c_st3 _ HC st s r Hst Hrm) as (i & ph & Hp & _). by apply (Hno i ph).
  - destruct g as [id wg ph| | |ph]; simpl in *; try done; [|by apply (Hno i ph)].
    destruct (c_dis1 _ HC _ _ _ _ Hp) as (d & Hd & Hdd).
    destruct (c_st4 _ HC st id d Hst Hd Hdd) as (k & ph' & Hk & _). by apply (Hno k ph').
Qed.

(** ** A disabled token stays disabled *)

Definition off (w : world) (id : string) : Prop :=
  stopped (mgr w) = true \/ is_Some (disableStates (mgr w) !! id).

Lemma off_Acquire w s now e :
  heap w !! s = Some e -> off w (ts_id e) -> Acquire w s now = (w, None).
Proof.
  intros Hs Hoff. unfold Acquire. rewrite Hs. destruct (stopped (mgr w)) eqn:E; [done|].
  destruct Hoff as [?|?]; [congruence|]. by rewrite decide_True.
Qed.

Lemma off_Track w s conn now e :
  heap w !! s = Some e -> off w (ts_id e) -> Track w s conn now = (w, false).
Proof.
  intros Hs Hoff. unfold Track. rewrite Hs. destruct conn; [|done]. case_if; [done|].
  destruct (stopped (mgr w)) eqn:E1; [done|].
  destruct Hoff as [?|?]; [congruence|]. by rewrite decide_True.
Qed.

Lemma off_Fork w l x e :
  leases w !! l = Some x -> heap w !! tl_session x = Some e -> off w (ts_id e) ->
  Fork w l = (w, None).
Proof.
  intros Hl Hs Hoff. unfold Fork. rewrite Hl, Hs.
  destruct Hoff as [->|Hd]; [done|]. by rewrite bool_decide_true, orb_true_r.
Qed.

Definition grows (w w' : world) : Prop := forall id, off w id -> off w' id.

Lemma grows_same w w' :
  stopped (mgr w') = stopped (mgr w) ->
  (forall id, is_Some (disableStates (mgr w) !! id) -> is_Some (disableStates (mgr w') !! id)) ->
  grows w w'.
Proof. intros Hs Hd id [?|?]; [left; congruence|right; auto]. Qed.

Lemma grows_begin w id : inv w -> grows w (beginDisableLocked w id).1.
Proof.
  intros Hi. destruct (disableStates (mgr w) !! id) as [d|] eqn:Hd.
  - unfold beginDisableLocked. rewrite Hd. by intros ?.
  - destruct (begin_spec w id (i_RWF _ Hi) (i_SWF _ Hi) Hd) as (d & _ & []).
    apply grows_same; [done|]. intros i. rewrite bg_dis0, lookup_insert. case_decide; eauto.
Qed.

Lemma completeDisable_mgr w id wg : mgr (completeDisable w id wg) = mgr w.
Proof. unfold completeDisable. by case_match. Qed.

Lemma grows_mgr w w1 w2 : grows w w1 -> mgr w2 = mgr w1 -> grows w w2.
Proof. intros H E id Ho. specialize (H id Ho). unfold off in *. by rewrite E. Qed.

Lemma grows_schedule w id now : grows w (scheduleExpiryLocked w id now).
Proof. pose proof (schedule_tframe w id now) as []. apply grows_same; [done|]. by rewrite tf_dis0. Qed.

Ltac same_off := solve [intros ? Ho; exact Ho].

Lemma grows_Track w s conn now : inv w -> grows w (Track w s conn now).1.
Proof.
  intros Hi. unfold Track. repeat case_match; try same_off; cbn [fst].
  - eapply grows_mgr; [apply (grows_begin w); done|].
    match goal with H : beginDisableLocked _ _ = _ |- _ => rewrite H end.
    by rewrite completeDisable_mgr.
  - intros i Ho. apply grows_schedule. exact Ho.
Qed.

Lemma grows_Acquire w s now : inv w -> grows w (Acquire w s now).1.
Proof.
  intros Hi. unfold Acquire. repeat case_match; try same_off; cbn [fst];
    match goal with H : beginDisableLocked _ ?id = _ |- _ =>
      pose proof (grows_begin w id Hi) as Hg; rewrite H in Hg end; [|exact Hg].
  intros i Ho. specialize (Hg i Ho). unfold off in *. by rewrite completeDisable_mgr.
Qed.

Lemma grows_Remove w s now : inv w -> grows w (Remove w s now).
Proof.
  intros Hi. unfold Remove. repeat case_match; try same_off.
  assert (RWF (detachSessionLocked w s)) as HR1 by (apply set_sessions_RWF, Hi).
  pose proof (register_ext _ s HR1) as He.
  match goal with H : registerRemoveLocked _ _ = _ |- _ => rewrite H in He end.
  destruct He. cbn [fst] in *. intros i Ho.
  apply grows_schedule. revert i Ho. apply grows_same; [done|]. by rewrite ext_dis0.
Qed.

Lemma grows_run w i now w' : inv w -> run_goroutine w i now = Some w' -> grows w w'.
Proof.
  intros Hi Hrun. unfold run_goroutine in Hrun.
  destruct (pool w !! i) as [[id wg ph|r ph|id gen ph|ph]|] eqn:Hp; simpl in Hrun; [..|done].
  - unfold run_disable in Hrun. destruct (disableStates (mgr w) !! id) as [d|] eqn:Hd; [|done].
    simpl in Hrun. destruct ph as [[|s l]|[|r l]|[|r l]|]; enabled Hrun; simplify_eq; try same_off.
    + unfold completeTokenRemove. simpl. destruct (rms w !! r); same_off.
    + apply grows_same; [done|]. intros i0. fields. rewrite lookup_insert. case_decide; eauto.
    + destruct wg; (apply grows_same; [done|]; intros i0; fields; rewrite lookup_insert;
        case_decide; eauto).
  - destruct (run_remove_frame w i r ph w' Hp Hrun) as (_&_&_&_&_& H6 &_& H8 &_).
    apply grows_same; [done|]. by rewrite H6.
  - unfold run_expire in Hrun. destruct ph; [run Hrun; same_off| |].
    + destruct (stopped (mgr w)) eqn:Hst; [simplify_eq; same_off|].
      destruct (expiryTimers (mgr w) !! id) as [e|]; [|simplify_eq; same_off].
      case_hyp Hrun; [simplify_eq; same_off|]. case_hyp Hrun.
      * simplify_eq. intros i0 Ho.
        apply (grows_schedule (set_mgr w (with_expiries (mgr w) (delete id (expiryTimers (mgr w)))
          (nextTimerID (mgr w))))). exact Ho.
      * pose proof (grows_begin w id Hi) as Hg. destruct (beginDisableLocked w id) as [w1 []];
          simplify_eq; [|exact Hg]. intros i0 Ho. specialize (Hg i0 Ho). unfold off in *.
        by rewrite completeDisable_mgr.
    + destruct (disableStates (mgr w) !! id) as [d|]; [|done]. simpl in Hrun. enabled Hrun.
      simplify_eq. same_off.
  - unfold run_stop in Hrun. destruct (stopState (mgr w)) as [st|]; [|done]. simpl in Hrun.
    destruct ph as [[|s l]|[|r l]|[|r l]|[|id l]| |]; enabled Hrun; simplify_eq; try same_off.
    + unfold completeTokenRemove. simpl. destruct (rms w !! r); same_off.
    + intros i0 _. by left.
Qed.

Lemma grows_step w w' : inv w -> step w w' -> grows w w'.
Proof.
  intros Hi Hstep. destruct Hstep as [ | | | |l w' H|l w' H| | | |s|id| |p w' H| ];
    try same_off; eauto using grows_Track, grows_Acquire, grows_Remove, grows_run.
  - unfold Fork. repeat case_match; same_off.
  - unfold releaseGate in H. destruct (leases w !! l) as [x|]; [|done]. simpl in H.
    destruct (heap w !! _); [|done]. simpl in H. case_decide; simplify_eq; same_off.
  - unfold releaseCount in H. destruct (leases w !! l) as [x|]; [|done]. simpl in H.
    destruct (heap w !! _); [|done]. simpl in H. case_decide; simplify_eq; same_off.
  - unfold holdHTTPResponse. repeat case_match; same_off.
  - unfold finishHTTPResponse. repeat case_match; same_off.
  - unfold CompleteRemove, completeTokenRemove. repeat case_match; same_off.
  - unfold Disable. destruct (stopped (mgr w)) eqn:E; [by intros ?|].
    pose proof (grows_begin w id Hi) as Hg. destruct (beginDisableLocked w id) as [w1 []]; [|exact Hg].
    by apply (grows_mgr _ w1); [|apply completeDisable_mgr].
  - destruct (stopState (mgr w)) as [st|] eqn:Hst.
    + unfold beginStop. rewrite Hst. by intros ?.
    + destruct (stop_spec w (i_RWF _ Hi) (i_SWF _ Hi) Hst) as [st []]. intros i0 _. by left.
  - unfold fireTimer in H. destruct (timers w !! p) as [x|]; [|done]. simpl in H.
    destruct (rt_phase x); simplify_eq; same_off.
Qed.

Lemma grows_rtc w w' : inv w -> rtc step w w' -> grows w w'.
Proof.
  intros Hi Hr. revert Hi. induction Hr as [|x y z Hxy _ IH]; intros Hi id Ho; [done|].
  apply IH; [by eapply inv_step|]. by apply (grows_step x).
Qed.

(** ** Properties *)

(** The states of the manager in every interleaving of its operations. *)
Definition reachable (w : world) : Prop := rtc step newTokenConnections w.

(** C5: Once a disable of a token completed ([state.done] is closed), no lease
    is held on any session of that token, in every interleaving: [Disable]
    returns only after every admitted operation of the token ended. *)
Theorem disable_waits_for_leases w id d l lease :
  reachable w ->
  disableStates (mgr w) !! id = Some d -> ds_done d = true ->
  leases w !! l = Some lease -> sid w (tl_session lease) = id -> tl_once lease <> Held.
Proof.
  intros Hr Hd Hdone Hl Hs Hh. pose proof (inv_reachable w Hr) as Hi.
  apply (held_readers w l lease Hi Hl Hh). by eapply disabled_drained.
Qed.

(** From the moment a disable of a token begins (or the manager stops), and
    in every later state, no session of the token is tracked, no operation is
    admitted on one, no lease is forked and the state does not change. *)
Theorem disabled_token_admits_nothing w w' s e now conn :
  reachable w -> off w (ts_id e) -> rtc step w w' ->
  heap w' !! s = Some e ->
  Acquire w' s now = (w', None) /\ Track w' s conn now = (w', false) /\
  (forall l x, leases w' !! l = Some x -> tl_session x = s -> Fork w' l = (w', None)) /\
  s ∉ sessions (mgr w').
Proof.
  intros Hr Hoff Hr' Hs. pose proof (inv_reachable w Hr) as Hi.
  pose proof (grows_rtc w w' Hi Hr' (ts_id e) Hoff) as Hoff'.
  assert (inv w') as Hi' by (apply inv_reachable; etrans; eauto).
  split_and!.
  - by eapply off_Acquire.
  - by eapply off_Track.
  - intros l x Hl <-. by eapply off_Fork.
  - intros Hin. destruct Hoff' as [Hst|Hd].
    + rewrite (s_stopped _ (i_SWF _ Hi') Hst) in Hin. set_solver.
    + pose proof (tracked_enabled w' s (i_SWF _ Hi') Hin) as Hn. unfold sid in Hn.
      rewrite Hs in Hn. simpl in Hn. rewrite Hn in Hd. by destruct Hd.
Qed.

(** When [Stop] returns, no lease is held on any session, every disable that
    began has completed and no session is being removed. *)
Theorem stop_waits_for_leases w st :
  reachable w -> stopState (mgr w) = Some st -> st_done st = true ->
  (forall l lease, leases w !! l = Some lease -> tl_once lease <> Held) /\
  (forall id d, disableStates (mgr w) !! id = Some d -> ds_done d = true) /\
  removals (mgr w) = ∅.
Proof.
  intros Hr Hst Hdone. pose proof (inv_reachable w Hr) as Hi.
  assert (forall i ph, pool w !! i <> Some (GStop ph)) as Hno.
  { intros i ph Hp. destruct (c_st1 _ (i_COV _ Hi) _ _ Hp) as (? & ? & ?). congruence. }
  split_and!.
  - intros l x Hl Hh. apply (held_readers w l x Hi Hl Hh). by eapply stopped_drained.
  - intros id d Hd. destruct (ds_done d) eqn:E; [done|].
    destruct (c_st4 _ (i_COV _ Hi) st id d Hst Hd E) as (i & ph & Hp & _). by destruct (Hno i ph).
  - apply map_empty. intros s. destruct (removals (mgr w) !! s) as [r|] eqn:E; [|done].
    destruct (c_st3 _ (i_COV _ Hi) st s r Hst E) as (i & ph & Hp & _). by destruct (Hno i ph).
Qed.

(** In every reachable state a tracked session that expires is covered by
    its token's timer entry, which is set to the earliest expiry of the token's
    tracked sessions. *)
Theorem expiry_timer_is_earliest w s t :
  reachable w -> s ∈ sessions (mgr w) -> sexp w s = Some t ->
  exists e, expiryTimers (mgr w) !! sid w s = Some e /\ (et_expiresAt e <= t)%Z /\
    exists s', s' ∈ sessions (mgr w) /\ sid w s' = sid w s /\ sexp w s' = Some (et_expiresAt e).
Proof.
  intros Hr Hs Ht. pose proof (i_SWF _ (inv_reachable w Hr)) as HS.
  pose proof (earliest_spec w (byID (mgr w) (sid w s))) as Hmin.
  assert (s ∈ byID (mgr w) (sid w s)) as Hin by by apply (s_idx _ HS).
  rewrite <-(s_exp _ HS) in Hmin.
  destruct (expiryTimers (mgr w) !! sid w s) as [e|]; simpl in Hmin.
  - destruct Hmin as [(s' & Hs' & He) Hle]. exists e. split; [done|]. split; [by eapply Hle|].
    apply (s_idx _ HS) in Hs' as [? ?]. by exists s'.
  - rewrite (Hmin s Hin) in Ht. done.
Qed.

(** No channel is ever closed twice, and the wait groups and the session's
    counters equal the number of goroutines and leases they count, so none goes
    negative. *)
Theorem token_manager_counters w :
  reachable w ->
  panicked w = false /\
  expiryWG (mgr w) = Z.of_nat (countm deferred (pool w)) /\
  removeWG (mgr w) = Z.of_nat (countm isRemove (pool w)) /\
  forall s e, heap w !! s = Some e ->
    ts_readers e = Z.of_nat (countm (holds s) (leases w)) /\
    ts_leases e = Z.of_nat (countm (counts s) (leases w)).
Proof.
  intros Hr. destruct (inv_reachable w Hr) as [HR HS HL HC HE].
  split_and!; [apply HC|done|apply HR|apply HL].
Qed.

(** On a well-formed session [Acquire] admits exactly the tracked sessions
    of enabled tokens that have not expired; an expired one disables its token. *)
Theorem Acquire_admits_iff w s e now :
  reachable w -> heap w !! s = Some e ->
  (is_Some (Acquire w s now).2 <->
     s ∈ sessions (mgr w) /\ forall t, ts_expires e = Some t -> (now < t)%Z) /\
  (s ∈ sessions (mgr w) -> expired e now = true ->
     off (Acquire w s now).1 (ts_id e) /\ s ∉ sessions (mgr (Acquire w s now).1)).
Proof.
  intros Hr Hs. pose proof (inv_reachable w Hr) as Hi. destruct Hi as [HR HS HL HC HE].
  assert (sid w s = ts_id e) as Hsid by (unfold sid; by rewrite Hs).
  assert (s ∈ sessions (mgr w) -> stopped (mgr w) = false /\ disableStates (mgr w) !! ts_id e = None)
    as Hok.
  { intros Hin. split; [|rewrite <-Hsid; by apply tracked_enabled].
    destruct (stopped (mgr w)) eqn:E; [|done]. rewrite (s_stopped _ HS E) in Hin. set_solver. }
  assert (expired e now = false <-> forall t, ts_expires e = Some t -> (now < t)%Z) as Hexp.
  { unfold expired, After. destruct (ts_expires e) as [t|]; [|naive_solver].
    rewrite negb_false_iff, Z.ltb_lt. naive_solver. }
  unfold Acquire. rewrite Hs. split.
  - rewrite <-Hexp. destruct (stopped (mgr w)) eqn:Hst.
    { split; [by intros [? ?]|]. intros [Hin _]. by destruct (Hok Hin). }
    case_decide as Hd.
    { split; [by intros [? ?]|]. intros [Hin _]. destruct (Hok Hin) as [_ Hn].
      rewrite Hn in Hd. by destruct Hd. }
    case_decide as Hin; [|split; [by intros [? ?]|naive_solver]].
    destruct (expired e now) eqn:Hx; [|split; [done|eauto]].
    split; [|naive_solver]. destruct (beginDisableLocked w (ts_id e)) as [w1 []]; by intros [? ?].
  - intros Hin Hx. destruct (Hok Hin) as [Hst Hn]. rewrite Hst, Hn, Hx.
    rewrite decide_False by (by intros [? ?]). rewrite decide_True by done.
    destruct (begin_spec w (ts_id e) HR HS Hn) as (d & Hwin & []).
    destruct (beginDisableLocked w (ts_id e)) as [w1 win]. cbn [fst snd] in *. subst win.
    cbn [fst]. unfold off. rewrite completeDisable_mgr. fields. split.
    + right. rewrite bg_dis0, lookup_insert_eq. eauto.
    + rewrite bg_sessions0, elem_of_difference, (s_idx _ HS). naive_solver.
Qed.

(** A connection is admitted, its token disabled and the lease released; the
    goroutines then run to completion. *)
Definition exec (w : world) (sched : list nat) : world :=
  foldl (fun w i => default w (run_goroutine w i 20)) w sched.

Lemma exec_reach sched w : rtc step w (exec w sched).
Proof.
  revert w. induction sched as [|i sched IH]; intros w; simpl; [done|].
  destruct (run_goroutine w i 20) as [w1|] eqn:E; simpl; [|apply IH].
  eapply rtc_l; [by eapply step_run|apply IH].
Qed.

Definition w_leased : world :=
  (Acquire (Track (newSession newTokenConnections "t" (Some 100%Z)) 0 (Some 7%nat) 10).1 0 20).1.
Definition w_disabling : world := Disable w_leased "t".
Definition w_released : world :=
  let w := default w_disabling (releaseGate w_disabling 2) in default w (releaseCount w 2).
Definition w_disabled : world := exec w_released [5; 5; 5; 5; 4; 4; 4; 5; 5; 5]%nat.
Definition w_stopped : world :=
  exec (beginStop w_disabled).1 [6; 6; 6; 6; 6; 6; 6]%nat.

Lemma leased_reach : reachable w_leased.
Proof.
  eapply rtc_l; [apply (step_new _ "t" (Some 100%Z))|].
  eapply rtc_l; [apply (step_track _ 0 (Some 7%nat) 10)|].
  apply rtc_once. apply (step_acquire _ 0 20).
Qed.

Lemma disabling_reach : reachable w_disabling.
Proof. eapply rtc_r; [apply leased_reach|]. apply step_disable. Qed.

Lemma released_reach : reachable w_released.
Proof.
  unfold reachable. etrans; [apply disabling_reach|]. unfold w_released.
  destruct (releaseGate w_disabling 2) as [w1|] eqn:E1; simpl.
  - eapply rtc_l; [by eapply step_release_gate|].
    destruct (releaseCount w1 2) as [w2|] eqn:E2; simpl; [|done].
    apply rtc_once. by eapply step_release_count.
  - destruct (releaseCount w_disabling 2) as [w2|] eqn:E2; simpl; [|done].
    apply rtc_once. by eapply step_release_count.
Qed.

Lemma disabled_reach : reachable w_disabled.
Proof. unfold reachable. etrans; [apply released_reach|apply exec_reach]. Qed.

Lemma stopped_reach : reachable w_stopped.
Proof.
  unfold reachable. etrans; [apply disabled_reach|]. eapply rtc_l; [apply step_begin_stop|apply exec_reach].
Qed.

Lemma disable_waits_for_leases_witness :
  tl_once <$> leases w_disabling !! 2%nat = Some Held /\
  ds_done <$> disableStates (mgr w_disabled) !! "t" = Some true /\ Released <> Held.
Proof.
  split; [vm_compute; reflexivity|]. split; [vm_compute; reflexivity|].
  exact (disable_waits_for_leases w_disabled "t" (mkDisable true [] [] []) 2 (mkLease 0 Released)
    disabled_reach ltac:(vm_compute; reflexivity) ltac:(reflexivity) ltac:(vm_compute; reflexivity)
    ltac:(vm_compute; reflexivity)).
Defined.

Lemma disabled_token_admits_nothing_witness :
  (Acquire w_disabled 0 20).2 = None /\ (Acquire w_leased 0 20).2 <> None.
Proof.
  split; [|vm_compute; discriminate].
  assert (rtc step w_disabling w_disabled) as Hr.
  { etrans; [|apply exec_reach]. unfold w_released.
    eapply rtc_l; [eapply (step_release_gate _ 2); vm_compute; reflexivity|].
    apply rtc_once. eapply (step_release_count _ 2). vm_compute. reflexivity. }
  destruct (disabled_token_admits_nothing w_disabling w_disabled 0
    (mkSession "t" (Some 100%Z) (Some 7%nat) 0 0 None false) 20 None disabling_reach) as (H & _).
  - right. vm_compute. eauto.
  - exact Hr.
  - vm_compute. reflexivity.
  - rewrite H. reflexivity.
Defined.

Lemma stop_waits_for_leases_witness :
  st_done <$> stopState (mgr w_stopped) = Some true /\ removals (mgr w_stopped) = ∅.
Proof.
  split; [vm_compute; reflexivity|].
  destruct (stop_waits_for_leases w_stopped (mkStop true [] [] [] [] []) stopped_reach) as (_ & _ & H).
  - vm_compute. reflexivity.
  - reflexivity.
  - exact H.
Defined.

Lemma expiry_timer_is_earliest_witness :
  exists e, expiryTimers (mgr w_leased) !! sid w_leased 0 = Some e /\ (et_expiresAt e <= 100)%Z.
Proof.
  destruct (expiry_timer_is_earliest w_leased 0 100 leased_reach) as (e & H1 & H2 & _).
  - apply (bool_decide_unpack _). vm_compute. exact I.
  - vm_compute. reflexivity.
  - eauto.
Defined.

Lemma token_manager_counters_witness : panicked w_stopped = false.
Proof. destruct (token_manager_counters w_stopped stopped_reach) as [H _]. exact H. Defined.

Lemma Acquire_admits_iff_witness : is_Some (Acquire w_leased 0 30).2.
Proof.
  apply (proj1 (Acquire_admits_iff w_leased 0 (mkSession "t" (Some 100%Z) (Some 7%nat) 1 1 None false) 30
    leased_reach ltac:(vm_compute; reflexivity))).
  split; [apply (bool_decide_unpack _); vm_compute; exact I|]. intros t [= <-]. lia.
Defined.

End TokenSafety.
