(* ===== verification/AuditOutbox.v ===== *)
(** * The durable audit outbox (internal/store/audit_outbox.go) and its
    dispatcher (internal/audit/outbox_dispatcher.go)

    The table [audit_outbox] is a map from event id to row; one SQL statement is
    one atomic operation. Instants are at the resolution of the database. A
    statement may fail; when it does, the database may or may not have executed
    it ([io]). The dispatcher is written against the interface
    [AuditOutboxStore]; the database discharges its laws. *)

From S2P Require Import Prelude GoString.

Module AuditOutbox.

(** github.com/google/uuid: [uuid.Parse] followed by [String]. *)
Class UuidLib := { uuid_parse : string -> option string }.

(** An instant with its location: [lt_utc] tells whether [Location() == time.UTC]. *)
Record ltime := mkLtime { lt : Time; lt_utc : bool }.
Definition UTC (t : ltime) : ltime := mkLtime (lt t) true.

(* src/pkg/ext/audit.go:9-18 AuditEvent *)
Record AuditEvent := mkAuditEvent {
  ae_EventID : string; ae_OccurredAt : ltime; ae_Action : string; ae_UserID : string;
  ae_Email : string; ae_Resource : string; ae_ResourceID : string; ae_Detail : string
}.

(* src/pkg/ext/audit.go:21-26 PendingAuditEvent *)
Record PendingAuditEvent := mkPending {
  pe_Event : AuditEvent; pe_AttemptCount : Z; pe_ClaimToken : string; pe_LeaseUntil : Time
}.

(** A row of the table [audit_outbox]. *)
Record outbox_row := mkRow {
  or_event : AuditEvent; or_attempt_count : Z; or_next_attempt_at : Time;
  or_claim_token : option string; or_lease_until : option Time; or_delivered_at : option Time
}.
Notation outbox := (gmap string outbox_row).

Section Store.
Context {uuid : UuidLib}.

(* src/internal/store/audit_outbox.go:200-203 isCanonicalUUID *)
Definition isCanonicalUUID (value : string) : bool :=
  match uuid_parse value with Some s => s =s value | None => false end.

(* src/internal/store/audit_outbox.go:190-198 validateUTCTime *)
Definition validateUTCTime (name : string) (value : ltime) : option string :=
  if IsZero (lt value) then Some (name +:+ " must not be zero")
  else if negb (lt_utc value) then Some (name +:+ " must use UTC")
  else None.

(* src/internal/store/audit_outbox.go:180-188 validateOutboxCompletion *)
Definition validateOutboxCompletion (eventID claimToken : string) (completedAt : ltime)
  : option string :=
  if negb (isCanonicalUUID eventID) then Some "event_id must be a canonical UUID"
  else if negb (isCanonicalUUID claimToken) then Some "claim_token must be a canonical UUID"
  else validateUTCTime "completed_at" completedAt.

(** [WHERE delivered_at IS NULL AND next_attempt_at <= now
     AND (claim_token IS NULL OR lease_until <= now)]. *)
Definition due (now : Time) (r : outbox_row) : bool :=
  match or_delivered_at r with Some _ => false | None => true end &&
  Z.leb (or_next_attempt_at r) now &&
  (match or_claim_token r with None => true | Some _ => false end ||
   match or_lease_until r with Some l => Z.leb l now | None => false end).

(** [ORDER BY next_attempt_at, occurred_at, event_id]. *)
Definition row_cmp : outbox_row -> outbox_row -> comparison :=
  lex_cmp (by_key or_next_attempt_at Z.compare)
    (lex_cmp (by_key (fun r => lt (ae_OccurredAt (or_event r))) Z.compare)
       (by_key (fun r => ae_EventID (or_event r)) str_cmp)).

(** Rows locked by concurrent transactions are skipped. *)
Definition candidates (locked : gset string) (now : Time) (o : outbox) : list outbox_row :=
  (map_to_list (filter (fun kv => due now kv.2 = true /\ kv.1 ∉ locked) o)).*2.

Definition claim_row (r : outbox_row) (token : string) (leaseUntil : Time) : outbox_row :=
  mkRow (or_event r) (or_attempt_count r + 1) (or_next_attempt_at r) (Some token)
    (Some leaseUntil) (or_delivered_at r).

(* src/internal/store/audit_outbox.go:15-66 ClaimAuditOutboxEvent *)
Definition ClaimAuditOutboxEvent (o : outbox) (fault : io) (locked : gset string)
  (claimToken : string) (now leaseUntil : ltime) : outbox * result (option PendingAuditEvent) :=
  if negb (isCanonicalUUID claimToken)
  then (o, Err "claim audit outbox event: claim token must be a canonical UUID")
  else match validateUTCTime "now" now with
  | Some e => (o, Err ("claim audit outbox event: " +:+ e))
  | None =>
  match validateUTCTime "lease_until" leaseUntil with
  | Some e => (o, Err ("claim audit outbox event: " +:+ e))
  | None =>
  if negb (After (lt leaseUntil) (lt now))
  then (o, Err "claim audit outbox event: lease_until must be after now")
  else
    match min_by row_cmp (candidates locked (lt now) o) with
    | None => (o, match fault with IoOk => Ok None | _ => Err "claim audit outbox event: failed" end)
    | Some r =>
        let r' := claim_row r claimToken (lt leaseUntil) in
        let o' := <[ae_EventID (or_event r) := r']> o in
        match fault with
        | IoOk =>
            let e := or_event r' in
            let e := mkAuditEvent (ae_EventID e) (UTC (ae_OccurredAt e)) (ae_Action e) (ae_UserID e)
                       (ae_Email e) (ae_Resource e) (ae_ResourceID e) (ae_Detail e) in
            (o', Ok (Some (mkPending e (or_attempt_count r') claimToken (lt leaseUntil))))
        | IoFail executed =>
            (if executed then o' else o, Err "claim audit outbox event: failed")
        end
    end
  end end.

(** [WHERE event_id = $1 AND claim_token = $2 AND $3 < lease_until
     AND delivered_at IS NULL]. *)
Definition holds_claim (r : outbox_row) (claimToken : string) (at_ : Time) : bool :=
  match or_claim_token r, or_lease_until r, or_delivered_at r with
  | Some c, Some l, None => (c =s claimToken) && Z.ltb at_ l
  | _, _, _ => false
  end.

(** The update runs on the row when the claim is still held; [RowsAffected]
    tells whether it did. *)
Definition complete (o : outbox) (fault : io) (msg eventID claimToken : string) (completedAt : Time)
  (upd : outbox_row -> outbox_row) : outbox * result bool :=
  let hit := match o !! eventID with Some r => holds_claim r claimToken completedAt | None => false end in
  let o' := if hit then alter upd eventID o else o in
  match fault with
  | IoOk => (o', Ok hit)
  | IoFail executed => (if executed then o' else o, Err msg)
  end.

(* src/internal/store/audit_outbox.go:69-86 MarkAuditOutboxEventDelivered *)
Definition MarkAuditOutboxEventDelivered (o : outbox) (fault : io) (eventID claimToken : string)
  (completedAt : ltime) : outbox * result bool :=
  match validateOutboxCompletion eventID claimToken completedAt with
  | Some e => (o, Err ("mark audit outbox event delivered: " +:+ e))
  | None =>
      complete o fault "mark audit outbox event delivered: failed" eventID claimToken (lt completedAt)
        (fun r => mkRow (or_event r) (or_attempt_count r) (or_next_attempt_at r) None None
                    (Some (lt completedAt)))
  end.

(* src/internal/store/audit_outbox.go:89-112 RescheduleAuditOutboxEvent *)
Definition RescheduleAuditOutboxEvent (o : outbox) (fault : io) (eventID claimToken : string)
  (completedAt nextAttemptAt : ltime) : outbox * result bool :=
  match validateOutboxCompletion eventID claimToken completedAt with
  | Some e => (o, Err ("reschedule audit outbox event: " +:+ e))
  | None =>
  match validateUTCTime "next_attempt_at" nextAttemptAt with
  | Some e => (o, Err ("reschedule audit outbox event: " +:+ e))
  | None =>
  if Before (lt nextAttemptAt) (lt completedAt)
  then (o, Err "reschedule audit outbox event: next_attempt_at must not precede completed_at")
  else
    complete o fault "reschedule audit outbox event: failed" eventID claimToken (lt completedAt)
      (fun r => mkRow (or_event r) (or_attempt_count r) (lt nextAttemptAt) None None
                  (or_delivered_at r))
  end end.

(** The primary key refuses a second row; [checks] are the CHECK constraints of
    the table. *)
(* src/internal/store/audit_outbox.go:114-126 insertAuditOutboxEvent *)
Definition insertAuditOutboxEvent (checks : AuditEvent -> bool) (o : outbox) (event : AuditEvent)
  : result outbox :=
  match o !! ae_EventID event with
  | Some _ => Err "insert audit outbox event: duplicate key"
  | None =>
      if checks event
      then Ok (<[ae_EventID event :=
                 mkRow event 0 (lt (ae_OccurredAt event)) None None None]> o)
      else Err "insert audit outbox event: constraint"
  end.

(** The loop over the size-limited fields. *)
Fixpoint check_fields (fields : list (string * string * nat)) : option string :=
  match fields with
  | [] => None
  | (name, value, max) :: rest =>
      if ContainsAny value [13; 10]%N then Some (name +:+ " must not contain newlines")
      else if Nat.ltb max (String.length value)
      then Some (name +:+ " exceeds " +:+ Itoa max +:+ " bytes")
      else check_fields rest
  end.

(* src/internal/store/audit_outbox.go:128-178 validateTokenAuditEvent *)
Definition validateTokenAuditEvent (event : AuditEvent) (action tokenID actor : string)
  (occurredAt : ltime) : option string :=
  if negb (isCanonicalUUID (ae_EventID event)) then Some "event_id must be a canonical UUID"
  else match validateUTCTime "occurred_at" (ae_OccurredAt event) with
  | Some e => Some e
  | None =>
  if negb (Z.eqb (lt (ae_OccurredAt event)) (lt occurredAt))
  then Some "occurred_at must match the token mutation time"
  else if ae_Action event <>s action then Some ("action must be " +:+ Quote action)
  else if ae_Resource event <>s "opamp_token" then Some ("resource must be " +:+ Quote "opamp_token")
  else if ae_ResourceID event <>s tokenID then Some "resource_id must match the token ID"
  else if negb (isCanonicalUUID (ae_ResourceID event)) then Some "resource_id must be a canonical UUID"
  else if (TrimSpace actor =s "") || (ae_UserID event <>s actor)
  then Some "user_id must match the token mutation actor"
  else if ae_Detail event <>s "" then Some "detail must be empty for token audit events"
  else check_fields
    [("event_id", ae_EventID event, 128%nat); ("action", ae_Action event, 128%nat);
     ("user_id", ae_UserID event, 256%nat); ("email", ae_Email event, 320%nat);
     ("resource", ae_Resource event, 128%nat); ("resource_id", ae_ResourceID event, 256%nat);
     ("detail", ae_Detail event, 4096%nat)]
  end.

End Store.

(** ** The store the dispatcher sees *)

(* src/pkg/ext/audit.go:29-33 AuditOutboxStore *)
Class AuditOutboxStore (S : Type) := {
  claim : S -> io -> string -> ltime -> ltime -> S * result (option PendingAuditEvent);
  mark : S -> io -> string -> string -> ltime -> S * result bool;
  reschedule : S -> io -> string -> string -> ltime -> ltime -> S * result bool
}.

(** What a store promises: only acknowledging an event delivers it. *)
Class AuditOutboxLaws (S : Type) `{AuditOutboxStore S} := {
  delivered : S -> string -> Prop;
  claim_delivered s f tok now lease id :
    delivered (claim s f tok now lease).1 id -> delivered s id;
  reschedule_delivered s f eid tok c n id :
    delivered (reschedule s f eid tok c n).1 id -> delivered s id;
  mark_delivered s f eid tok c id :
    delivered (mark s f eid tok c).1 id -> delivered s id \/ id = eid;
  mark_ok s f eid tok c : (mark s f eid tok c).2 = Ok true -> delivered (mark s f eid tok c).1 eid
}.

(** ** The dispatcher *)

Definition auditOutboxLeaseDuration : Duration := (30 * Second)%Z.
Definition auditOutboxSinkTimeout : Duration := (10 * Second)%Z.
Definition auditOutboxMaxBackoff : Duration := Minute.

(** The loop of [auditOutboxBackoff] with [k] iterations left. *)
Fixpoint backoff_loop (k : nat) (delay : Duration) : Duration :=
  match k with
  | O => delay
  | S k => if Z.leb (auditOutboxMaxBackoff / 2) delay then auditOutboxMaxBackoff
           else backoff_loop k (delay * 2)
  end.

(* src/internal/audit/outbox_dispatcher.go:154-166 auditOutboxBackoff *)
Definition auditOutboxBackoff (attemptCount : Z) : Duration :=
  if Z.leb attemptCount 1 then Second else backoff_loop (Z.to_nat (attemptCount - 1)) Second.

(** The log line categories. *)
Inductive category :=
| claim_error | expired_claim | reschedule_error | stale_reschedule | insufficient_lease
| sink_error | ack_error | stale_ack.

(** Result of one attempt: the return value, the log line and the call made to
    the sink with its deadline. *)
Record attempt := mkAttempt {
  at_again : bool; at_log : option category; at_sink : option (AuditEvent * Time)
}.

Section Dispatcher.
Context {S : Type} `{AuditOutboxStore S}.
(** [sink.Log(ctx, event)]: [None] is a nil error. *)
Variable sink : AuditEvent -> Time -> option string.

Definition utc (t : Time) : ltime := mkLtime t true.

(** [now1], [now2], [now3] are the successive readings of [d.now()]; [io1] and
    [io2] the outcomes of the two store calls. *)
(* src/internal/audit/outbox_dispatcher.go:61-152 dispatchOnce *)
Definition dispatchOnce (s : S) (io1 io2 : io) (newID : string) (now1 now2 now3 : Time)
  : S * attempt :=
  let claimStartedAt := now1 in
  match claim s io1 newID (utc claimStartedAt) (utc (Add claimStartedAt auditOutboxLeaseDuration)) with
  | (s, Err _) => (s, mkAttempt false (Some claim_error) None)
  | (s, Ok None) => (s, mkAttempt false None None)
  | (s, Ok (Some pending)) =>
      let deliveryStartedAt := now2 in
      let eventID := ae_EventID (pe_Event pending) in
      let nominalSinkDeadline := Add deliveryStartedAt auditOutboxSinkTimeout in
      if negb (After (pe_LeaseUntil pending) nominalSinkDeadline) then
        if negb (After (pe_LeaseUntil pending) deliveryStartedAt)
        then (s, mkAttempt false (Some expired_claim) None)
        else
          let nextAttemptAt := Add deliveryStartedAt (auditOutboxBackoff (pe_AttemptCount pending)) in
          match reschedule s io2 eventID (pe_ClaimToken pending) (utc deliveryStartedAt)
                  (utc nextAttemptAt) with
          | (s, Err _) => (s, mkAttempt false (Some reschedule_error) None)
          | (s, Ok false) => (s, mkAttempt false (Some stale_reschedule) None)
          | (s, Ok true) => (s, mkAttempt true (Some insufficient_lease) None)
          end
      else
        let sinkDeadline := if Before (pe_LeaseUntil pending) nominalSinkDeadline
                            then pe_LeaseUntil pending else nominalSinkDeadline in
        let call := Some (pe_Event pending, sinkDeadline) in
        let completedAt := now3 in
        match sink (pe_Event pending) sinkDeadline with
        | Some _ =>
            let nextAttemptAt := Add completedAt (auditOutboxBackoff (pe_AttemptCount pending)) in
            match reschedule s io2 eventID (pe_ClaimToken pending) (utc completedAt)
                    (utc nextAttemptAt) with
            | (s, Err _) => (s, mkAttempt false (Some reschedule_error) call)
            | (s, Ok false) => (s, mkAttempt false (Some stale_reschedule) call)
            | (s, Ok true) => (s, mkAttempt true (Some sink_error) call)
            end
        | None =>
            match mark s io2 eventID (pe_ClaimToken pending) (utc completedAt) with
            | (s, Err _) => (s, mkAttempt false (Some ack_error) call)
            | (s, Ok false) => (s, mkAttempt false (Some stale_ack) call)
            | (s, Ok true) => (s, mkAttempt true None call)
            end
        end
  end.

End Dispatcher.

(** ** Backoff *)

Lemma backoff_loop_closed k j :
  (j <= 5)%nat ->
  backoff_loop k (2 ^ Z.of_nat j * Second) =
  if Nat.leb (j + k) 5 then (2 ^ Z.of_nat (j + k) * Second)%Z else auditOutboxMaxBackoff.
Proof.
  revert j. induction k as [|k IH]; intros j Hj.
  - rewrite Nat.add_0_r. simpl. by rewrite (proj2 (Nat.leb_le j 5) Hj).
  - cbn [backoff_loop]. destruct (decide (j = 5)%nat) as [->|Hne].
    + rewrite (proj2 (Z.leb_le _ _)) by (vm_compute; discriminate).
      rewrite (proj2 (Nat.leb_gt _ _)) by lia. done.
    + rewrite (proj2 (Z.leb_gt _ _)).
      2: { assert (2 ^ Z.of_nat j <= 2 ^ 4)%Z by (apply Z.pow_le_mono_r; lia).
           unfold auditOutboxMaxBackoff, Minute, Second. change (60 * 1000000000 / 2)%Z with 30000000000%Z. lia. }
      replace (2 ^ Z.of_nat j * Second * 2)%Z with (2 ^ Z.of_nat (j + 1) * Second)%Z.
      2: { rewrite Nat2Z.inj_add, Z.pow_add_r by lia. change (2 ^ Z.of_nat 1)%Z with 2%Z. lia. }
      rewrite IH by lia. by replace (j + 1 + k)%nat with (j + S k)%nat by lia.
Qed.

(** The retry delay doubles from one second and is capped at one minute:
    attempt [n] waits [2^(n-1)] seconds up to the sixth attempt and a minute
    from the seventh on, whatever the count. *)
Theorem auditOutboxBackoff_closed_form n :
  auditOutboxBackoff n =
    (if Z.leb n 1 then Second else if Z.leb n 6 then 2 ^ (n - 1) * Second else Minute)%Z /\
  (Second <= auditOutboxBackoff n <= Minute)%Z /\
  forall m, (m <= n)%Z -> (auditOutboxBackoff m <= auditOutboxBackoff n)%Z.
Proof.
  assert (forall k, auditOutboxBackoff k =
    (if Z.leb k 1 then Second else if Z.leb k 6 then 2 ^ (k - 1) * Second else Minute)%Z) as Hcl.
  { intros k. unfold auditOutboxBackoff. destruct (Z.leb_spec k 1); [done|].
    pose proof (backoff_loop_closed (Z.to_nat (k - 1)) 0 ltac:(lia)) as Hl.
    change (2 ^ Z.of_nat 0 * Second)%Z with Second in Hl. rewrite Hl.
    replace (0 + Z.to_nat (k - 1))%nat with (Z.to_nat (k - 1)) by lia.
    rewrite Z2Nat.id by lia. destruct (Z.leb_spec k 6).
    - by rewrite (proj2 (Nat.leb_le _ _)) by lia.
    - by rewrite (proj2 (Nat.leb_gt _ _)) by lia. }
  assert (forall k, 1 < k <= 6 -> 2 <= 2 ^ (k - 1) <= 32)%Z as Hpow.
  { intros k Hk. change 2%Z with (2 ^ 1)%Z at 1. change 32%Z with (2 ^ 5)%Z.
    split; apply Z.pow_le_mono_r; lia. }
  split; [apply Hcl|]. split.
  - rewrite Hcl. unfold Minute, Second. repeat case_match; try lia.
    pose proof (Hpow n). apply Z.leb_le in H0. apply Z.leb_gt in H. lia.
  - intros m Hm. rewrite !Hcl. unfold Minute, Second.
    destruct (Z.leb_spec m 1), (Z.leb_spec n 1), (Z.leb_spec m 6), (Z.leb_spec n 6); try lia.
    all: try (pose proof (Hpow m)); try (pose proof (Hpow n)); try lia.
    assert (2 ^ (m - 1) <= 2 ^ (n - 1))%Z by (apply Z.pow_le_mono_r; lia). lia.
Qed.

(** ** The table's invariant *)

(** Rows are stored under their event id; the CHECK constraints of the table. *)
Definition row_ok (id : string) (r : outbox_row) : Prop :=
  ae_EventID (or_event r) = id /\
  (or_claim_token r = None <-> or_lease_until r = None) /\
  (or_delivered_at r <> None -> or_claim_token r = None) /\
  (0 <= or_attempt_count r)%Z.
Definition wf (o : outbox) : Prop := map_Forall row_ok o.

Global Instance row_cmp_total : TotalCmp row_cmp.
Proof. unfold row_cmp. apply _. Qed.

(** What one row may become: its event is kept, a delivered row is frozen. *)
Definition row_evolves (r r' : outbox_row) : Prop :=
  or_event r' = or_event r /\ (or_delivered_at r <> None -> r' = r) /\
  (or_attempt_count r <= or_attempt_count r')%Z.
Definition evolves (o o' : outbox) : Prop :=
  forall id r, o !! id = Some r -> exists r', o' !! id = Some r' /\ row_evolves r r'.

Lemma evolves_refl o : evolves o o.
Proof. intros id r Hr. exists r. split; [done|]. split_and!; [done..|lia]. Qed.

Lemma evolves_trans o1 o2 o3 : evolves o1 o2 -> evolves o2 o3 -> evolves o1 o3.
Proof.
  intros H1 H2 id r Hr. destruct (H1 id r Hr) as (r2 & Hr2 & He & Hf & Ha).
  destruct (H2 id r2 Hr2) as (r3 & Hr3 & He' & Hf' & Ha'). exists r3. split; [done|].
  split_and!; [congruence| |lia]. intros Hd. specialize (Hf Hd). subst r2. auto.
Qed.

Section StoreProofs.
Context {uuid : UuidLib}.

Lemma candidates_spec locked now o r :
  wf o -> r ∈ candidates locked now o <->
  o !! ae_EventID (or_event r) = Some r /\ due now r = true /\ ae_EventID (or_event r) ∉ locked.
Proof.
  intros Hw. unfold candidates. rewrite list_elem_of_fmap. split.
  - intros ([k r'] & -> & Hin%elem_of_map_to_list). simpl.
    apply map_lookup_filter_Some in Hin as [Hk [Hd Hl]]. simpl in *.
    destruct (Hw _ _ Hk) as (-> & _). done.
  - intros (Hr & Hd & Hl). exists (ae_EventID (or_event r), r). split; [done|].
    apply elem_of_map_to_list, map_lookup_filter_Some. done.
Qed.

(** A claim either leaves the table alone or leases the first due row. *)
Lemma claim_cases o f locked tok now lease :
  wf o ->
  let res := ClaimAuditOutboxEvent o f locked tok now lease in
  res.1 = o \/
  exists r, min_by row_cmp (candidates locked (lt now) o) = Some r /\
    o !! ae_EventID (or_event r) = Some r /\ due (lt now) r = true /\
    res.1 = <[ae_EventID (or_event r) := claim_row r tok (lt lease)]> o.
Proof.
  intros Hw res. unfold res, ClaimAuditOutboxEvent.
  case_if; [by left|]. case_match; [by left|]. case_match; [by left|]. case_if; [by left|].
  destruct (min_by row_cmp _) as [r|] eqn:Em; [|by left].
  destruct (min_by_Some row_cmp _ _ Em) as [Hin _]. apply candidates_spec in Hin as (H1 & H2 & _); [|done].
  destruct f as [|[]]; [right|right|by left]; by exists r.
Qed.

Lemma due_undelivered now r : due now r = true -> or_delivered_at r = None.
Proof. unfold due. by destruct (or_delivered_at r). Qed.

Lemma claim_wf o f locked tok now lease :
  wf o -> wf (ClaimAuditOutboxEvent o f locked tok now lease).1.
Proof.
  intros Hw. destruct (claim_cases o f locked tok now lease Hw) as [->|(r & _ & Hr & Hd & ->)]; [done|].
  apply map_Forall_insert_2; [|done]. pose proof (Hw _ _ Hr) as (_ & _ & _ & Ha).
  split_and!; [done| | |simpl; lia]; simpl; [done|]. by rewrite (due_undelivered _ _ Hd).
Qed.

Lemma claim_evolves o f locked tok now lease :
  wf o -> evolves o (ClaimAuditOutboxEvent o f locked tok now lease).1.
Proof.
  intros Hw. destruct (claim_cases o f locked tok now lease Hw) as [->|(r & _ & Hr & Hd & ->)];
    [apply evolves_refl|].
  intros id r' Hr'. rewrite lookup_insert. case_decide as Hid.
  - subst id. simplify_eq. eexists. split; [done|]. split_and!; [done| |simpl; lia].
    by rewrite (due_undelivered _ _ Hd).
  - exists r'. split; [done|]. split_and!; [done..|lia].
Qed.

(** [complete] either leaves the table alone or updates the row whose claim is held. *)
Lemma complete_cases o f msg id tok at_ upd :
  let res := complete o f msg id tok at_ upd in
  (res.1 = o /\ res.2 <> Ok true) \/
  exists r, o !! id = Some r /\ holds_claim r tok at_ = true /\
    (res.1 = <[id := upd r]> o \/ res.1 = o /\ res.2 <> Ok true).
Proof.
  intros res. unfold res, complete. destruct (o !! id) as [r|] eqn:Hr; [|by destruct f as [|[]]; left].
  destruct (holds_claim r tok at_) eqn:Hh; [|by destruct f as [|[]]; left].
  right. exists r. split_and!; [done..|].
  assert (alter upd id o = <[id := upd r]> o) as Ha.
  { apply map_eq. intros k. rewrite lookup_alter, lookup_insert. case_decide; [subst; by rewrite Hr|done]. }
  rewrite Ha. destruct f as [|[]]; [by left|by left|by right].
Qed.

Lemma holds_claim_spec r tok at_ :
  holds_claim r tok at_ = true <->
  or_claim_token r = Some tok /\ or_delivered_at r = None /\
  exists l, or_lease_until r = Some l /\ (at_ < l)%Z.
Proof.
  unfold holds_claim.
  destruct (or_claim_token r), (or_lease_until r), (or_delivered_at r); try naive_solver.
  rewrite andb_true_iff, String.eqb_eq, Z.ltb_lt. naive_solver.
Qed.

Definition free_row (r : outbox_row) (next : Time) (d : option Time) : outbox_row :=
  mkRow (or_event r) (or_attempt_count r) next None None d.

Lemma update_wf o id r n d : wf o -> o !! id = Some r -> wf (<[id := free_row r n d]> o).
Proof.
  intros Hw Hr. apply map_Forall_insert_2; [|done]. pose proof (Hw _ _ Hr) as (? & _ & _ & ?).
  by split_and!.
Qed.

Lemma update_evolves o id r n d :
  o !! id = Some r -> or_delivered_at r = None -> evolves o (<[id := free_row r n d]> o).
Proof.
  intros Hr Hd k r' Hr'. rewrite lookup_insert. case_decide as Hk.
  - subst k. simplify_eq. eexists. split; [done|]. split_and!; [done|by rewrite Hd|simpl; lia].
  - exists r'. split; [done|]. split_and!; [done..|lia].
Qed.

(** Acknowledging and rescheduling act on the row whose claim is held. *)
Lemma mark_cases o f id tok c :
  let res := MarkAuditOutboxEventDelivered o f id tok c in
  (res.1 = o /\ res.2 <> Ok true) \/
  exists r, o !! id = Some r /\ holds_claim r tok (lt c) = true /\
    (res.1 = <[id := free_row r (or_next_attempt_at r) (Some (lt c))]> o \/
     res.1 = o /\ res.2 <> Ok true).
Proof.
  intros res. unfold res, MarkAuditOutboxEventDelivered. case_match; [by left|]. apply complete_cases.
Qed.

Lemma reschedule_cases o f id tok c n :
  let res := RescheduleAuditOutboxEvent o f id tok c n in
  res.1 = o \/
  exists r, o !! id = Some r /\ holds_claim r tok (lt c) = true /\
    res.1 = <[id := free_row r (lt n) (or_delivered_at r)]> o.
Proof.
  intros res. unfold res, RescheduleAuditOutboxEvent. case_match; [by left|]. case_match; [by left|].
  case_if; [by left|].
  destruct (complete_cases o f "reschedule audit outbox event: failed" id tok (lt c)
    (fun r => mkRow (or_event r) (or_attempt_count r) (lt n) None None (or_delivered_at r)))
    as [[-> _]|(r & H1 & H2 & [->|[-> _]])]; [by left| |by left]. right. by exists r.
Qed.

(** One operation of any replica on the table. *)
Inductive ostep (checks : AuditEvent -> bool) (o : outbox) : outbox -> Prop :=
| os_claim f locked tok now lease : ostep checks o (ClaimAuditOutboxEvent o f locked tok now lease).1
| os_mark f id tok c : ostep checks o (MarkAuditOutboxEventDelivered o f id tok c).1
| os_reschedule f id tok c n : ostep checks o (RescheduleAuditOutboxEvent o f id tok c n).1
| os_insert e o' : insertAuditOutboxEvent checks o e = Ok o' -> ostep checks o o'.

Lemma ostep_ok checks o o' : wf o -> ostep checks o o' -> wf o' /\ evolves o o'.
Proof.
  intros Hw Hs. destruct Hs as [f l tok now lease|f id tok c|f id tok c n|e o' He].
  - split; [by apply claim_wf|by apply claim_evolves].
  - destruct (mark_cases o f id tok c) as [[-> _]|(r & Hr & Hh & [->|[-> _]])];
      auto using evolves_refl.
    apply holds_claim_spec in Hh as (_ & Hd & _). auto using update_wf, update_evolves.
  - destruct (reschedule_cases o f id tok c n) as [->|(r & Hr & Hh & ->)]; auto using evolves_refl.
    apply holds_claim_spec in Hh as (_ & Hd & _). auto using update_wf, update_evolves.
  - unfold insertAuditOutboxEvent in He. destruct (o !! ae_EventID e) eqn:Hn; [done|].
    destruct (checks e); [|done]. injection He as <-. split.
    + apply map_Forall_insert_2; [|done]. by split_and!.
    + intros k r Hk. exists r. rewrite lookup_insert_ne by congruence. split; [done|].
      split_and!; [done..|lia].
Qed.


(** Operations of the other replicas while a lease on an event is running: they
    use other claim tokens and claim before the lease ends. *)
Inductive foreign (checks : AuditEvent -> bool) (tok : string) (until : Time) (o : outbox) : outbox -> Prop :=
| fo_claim f locked t now lease : t <> tok -> (lt now < until)%Z ->
    foreign checks tok until o (ClaimAuditOutboxEvent o f locked t now lease).1
| fo_mark f id t c : t <> tok -> foreign checks tok until o (MarkAuditOutboxEventDelivered o f id t c).1
| fo_reschedule f id t c n : t <> tok ->
    foreign checks tok until o (RescheduleAuditOutboxEvent o f id t c n).1
| fo_insert e o' : insertAuditOutboxEvent checks o e = Ok o' -> foreign checks tok until o o'.

Definition leased (o : outbox) (id tok : string) (until : Time) : Prop :=
  exists r, o !! id = Some r /\ or_claim_token r = Some tok /\ or_lease_until r = Some until /\
    or_delivered_at r = None.

Lemma foreign_leased checks o o' id tok until :
  wf o -> foreign checks tok until o o' -> leased o id tok until -> wf o' /\ leased o' id tok until.
Proof.
  intros Hw Hf (r & Hr & Hc & Hl & Hd).
  assert (forall t at_, t <> tok -> holds_claim r t at_ = true -> False) as Hno.
  { intros t at_ Ht (Hc' & _)%holds_claim_spec. congruence. }
  assert (leased o id tok until) as Hold by by exists r.
  destruct Hf as [f l t now lease Ht Hn|f k t c Ht|f k t c n Ht|e o' He].
  - split; [by apply claim_wf|].
    destruct (claim_cases o f l t now lease Hw) as [->|(q & _ & Hq & Hdue & ->)]; [done|].
    exists r. rewrite lookup_insert_ne; [done|]. intros Heq.
    assert (q = r) as -> by congruence. unfold due in Hdue. rewrite Hc, Hl, Hd in Hdue.
    simpl in Hdue. apply andb_true_iff in Hdue as [_ Hdue]. apply Z.leb_le in Hdue. lia.
  - destruct (mark_cases o f k t c) as [[-> _]|(q & Hq & Hh & [->|[-> _]])]; [done| |done].
    split; [by apply update_wf|]. exists r. rewrite lookup_insert_ne; [done|].
    intros ->. simplify_eq. eauto.
  - destruct (reschedule_cases o f k t c n) as [->|(q & Hq & Hh & ->)]; [done|].
    split; [by apply update_wf|]. exists r. rewrite lookup_insert_ne; [done|].
    intros ->. simplify_eq. eauto.
  - destruct (ostep_ok checks o o' Hw (os_insert _ _ e o' He)) as [Hw' _]. split; [done|].
    unfold insertAuditOutboxEvent in He. destruct (o !! ae_EventID e) eqn:Hne; [done|].
    destruct (checks e); [|done]. injection He as <-.
    exists r. by rewrite lookup_insert_ne by congruence.
Qed.

(** C12: A lease is exclusive: after a claim, whatever the other replicas do
    before the lease ends (with their own claim tokens), the event is still
    leased to the claimer, its acknowledgement within the lease succeeds and
    marks the event delivered, and nobody else's acknowledgement does. *)
Theorem claim_is_exclusive checks o o' locked tok now lease p c :
  wf o -> (ClaimAuditOutboxEvent o IoOk locked tok now lease).2 = Ok (Some p) ->
  rtc (foreign checks tok (lt lease)) (ClaimAuditOutboxEvent o IoOk locked tok now lease).1 o' ->
  let id := ae_EventID (pe_Event p) in
  validateOutboxCompletion id tok c = None -> (lt c < lt lease)%Z ->
  (MarkAuditOutboxEventDelivered o' IoOk id tok c).2 = Ok true /\
  (exists r, (MarkAuditOutboxEventDelivered o' IoOk id tok c).1 !! id = Some r /\
     or_delivered_at r = Some (lt c)) /\
  forall f t c', t <> tok -> (MarkAuditOutboxEventDelivered o' f id t c').2 <> Ok true.
Proof.
  intros Hw Hres Hr id Hv Hc.
  set (o1 := (ClaimAuditOutboxEvent o IoOk locked tok now lease).1) in *.
  assert (wf o1) as Hw1 by by apply claim_wf.
  assert (leased o1 id tok (lt lease)) as Hl1.
  { unfold o1, id. revert Hres. unfold ClaimAuditOutboxEvent.
    case_if; [done|]. case_match; [done|]. case_match; [done|]. case_if; [done|].
    destruct (min_by row_cmp _) as [r|] eqn:Em; [|done]. intros [= <-].
    destruct (min_by_Some row_cmp _ _ Em) as [Hin _].
    apply candidates_spec in Hin as (_ & Hd & _); [|done].
    exists (claim_row r tok (lt lease)). simpl. rewrite lookup_insert_eq.
    by rewrite (due_undelivered _ _ Hd). }
  assert (leased o' id tok (lt lease)) as (r & Hr' & Hct & Hlu & Hd).
  { clear Hres Hv Hw. clearbody o1. induction Hr as [|x y z Hxy _ IH]; [done|].
    destruct (foreign_leased checks x y id tok (lt lease) Hw1 Hxy Hl1). auto. }
  assert (holds_claim r tok (lt c) = true) as Hh by (apply holds_claim_spec; eauto).
  unfold MarkAuditOutboxEventDelivered. rewrite Hv. unfold complete. rewrite Hr', Hh. split_and!.
  - done.
  - eexists. cbn [fst]. rewrite lookup_alter, decide_True by done. rewrite Hr'. done.
  - intros f t c' Ht. case_match; [done|].
    assert (holds_claim r t (lt c') = false) as ->; [|by destruct f as [|[]]].
    destruct (holds_claim r t (lt c')) eqn:E; [|done]. apply holds_claim_spec in E as (? & _). congruence.
Qed.

(** A claim hands out the due event that comes first in the queue order
    (next attempt, occurrence, id) among those not locked by a concurrent claim,
    counts the attempt and leases it; it returns nothing exactly when no event is
    due. *)
Theorem claim_takes_first_due o locked tok now lease res :
  wf o -> (ClaimAuditOutboxEvent o IoOk locked tok now lease).2 = Ok res ->
  match res with
  | None => forall id r, o !! id = Some r -> due (lt now) r = true -> id ∈ locked
  | Some p => exists r, o !! ae_EventID (pe_Event p) = Some r /\ due (lt now) r = true /\
      pe_AttemptCount p = (or_attempt_count r + 1)%Z /\
      pe_ClaimToken p = tok /\ pe_LeaseUntil p = lt lease /\
      (forall id r', o !! id = Some r' -> due (lt now) r' = true -> id ∉ locked -> row_cmp r r' <> Gt) /\
      (ClaimAuditOutboxEvent o IoOk locked tok now lease).1 =
        <[ae_EventID (pe_Event p) := claim_row r tok (lt lease)]> o
  end.
Proof.
  intros Hw. unfold ClaimAuditOutboxEvent. case_if; [done|]. case_match; [done|].
  case_match; [done|]. case_if; [done|].
  destruct (min_by row_cmp _) as [r|] eqn:Em; intros [= <-].
  - destruct (min_by_Some row_cmp _ _ Em) as [Hin Hmin].
    apply candidates_spec in Hin as (Hr & Hd & _); [|done]. exists r. simpl.
    split_and!; try done. intros id r' Hr' Hd' Hl. apply Hmin, candidates_spec; [done|].
    destruct (Hw _ _ Hr') as (-> & _). done.
  - intros id r Hr Hd. apply min_by_None in Em. destruct (decide (id ∈ locked)) as [|Hl]; [done|].
    exfalso. apply (not_elem_of_nil r). rewrite <-Em. apply candidates_spec; [done|].
    destruct (Hw _ _ Hr) as (-> & _). done.
Qed.

(** ** The database behind the dispatcher's interface *)

Definition wf_outbox : Type := sig wf.

Global Program Instance db_store (locked : gset string) : AuditOutboxStore wf_outbox := {
  claim o f tok now lease :=
    let res := ClaimAuditOutboxEvent (`o) f locked tok now lease in (res.1 ↾ _, res.2);
  mark o f id tok c := let res := MarkAuditOutboxEventDelivered (`o) f id tok c in (res.1 ↾ _, res.2);
  reschedule o f id tok c n :=
    let res := RescheduleAuditOutboxEvent (`o) f id tok c n in (res.1 ↾ _, res.2)
}.
Next Obligation. intros locked [o Ho] **. by apply claim_wf. Qed.
Next Obligation.
  intros locked [o Ho] f id tok c. apply (ostep_ok (fun _ => true) o); [done|]. apply os_mark.
Qed.
Next Obligation.
  intros locked [o Ho] f id tok c n. apply (ostep_ok (fun _ => true) o); [done|]. apply os_reschedule.
Qed.

Definition is_delivered (o : outbox) (id : string) : Prop :=
  exists r, o !! id = Some r /\ or_delivered_at r <> None.

Lemma is_delivered_insert o id r r' k :
  o !! id = Some r -> or_delivered_at r' = or_delivered_at r ->
  is_delivered (<[id := r']> o) k -> is_delivered o k.
Proof.
  intros Hr Hd (q & Hq & Hdq). rewrite lookup_insert in Hq. case_decide; [|by exists q].
  simplify_eq. exists r. split; [done|]. congruence.
Qed.

Global Program Instance db_laws (locked : gset string) :
  @AuditOutboxLaws wf_outbox (db_store locked) := {
  delivered o id := is_delivered (`o) id
}.
Next Obligation.
  intros locked [o Ho] f tok now lease id. simpl.
  destruct (claim_cases o f locked tok now lease Ho) as [->|(r & _ & Hr & Hd & ->)]; [done|].
  by eapply is_delivered_insert.
Qed.
Next Obligation.
  intros locked [o Ho] f eid tok c n id. simpl.
  destruct (reschedule_cases o f eid tok c n) as [->|(r & Hr & Hh & ->)]; [done|].
  by eapply is_delivered_insert.
Qed.
Next Obligation.
  intros locked [o Ho] f eid tok c id. simpl.
  destruct (mark_cases o f eid tok c) as [[-> _]|(r & Hr & Hh & [->|[-> _]])]; auto.
  intros (q & Hq & Hdq). rewrite lookup_insert in Hq. case_decide; [by right|left]. by exists q.
Qed.
Next Obligation.
  intros locked [o Ho] f eid tok c. simpl.
  destruct (mark_cases o f eid tok c) as [[_ ?]|(r & Hr & Hh & [->|[_ ?]])]; [done| |done].
  intros _. eexists. rewrite lookup_insert_eq. done.
Qed.

End StoreProofs.

(** ** The dispatcher against any store *)

Section DispatcherProofs.
Context {S : Type} `{AuditOutboxLaws S}.
Variable sink : AuditEvent -> Time -> option string.

(** C14: Against any store that keeps its contract, an attempt of the dispatcher
    acknowledges an event only after the sink accepted that very event: an event
    becomes delivered only if it was handed to the sink with a nil result; the
    sink is called at most once, with a deadline within ten seconds; and the
    attempt reports success without a log line exactly when the event it handed
    out is delivered. *)
Theorem dispatch_acknowledges_after_sink s io1 io2 newID now1 now2 now3 s' a :
  dispatchOnce sink s io1 io2 newID now1 now2 now3 = (s', a) ->
  (forall id, delivered s' id -> delivered s id \/
     exists e dl, at_sink a = Some (e, dl) /\ ae_EventID e = id /\ sink e dl = None) /\
  (forall e dl, at_sink a = Some (e, dl) -> (dl <= now2 + auditOutboxSinkTimeout)%Z) /\
  (at_again a = true -> at_log a = None ->
     exists e dl, at_sink a = Some (e, dl) /\ delivered s' (ae_EventID e)).
Proof.
  unfold dispatchOnce. intros Hd.
  destruct (claim s io1 newID _ _) as [s1 [[p|]|]] eqn:Ec; [|simplify_eq/=..].
  2,3: split_and!; try done; intros id Hid; left; eapply claim_delivered; by rewrite Ec.
  assert (forall id, delivered s1 id -> delivered s id) as H1
    by (intros id Hid; eapply claim_delivered; by rewrite Ec).
  case_hyp Hd; [case_hyp Hd|].
  - simplify_eq/=. split_and!; try done. auto.
  - destruct (reschedule s1 _ _ _ _ _) as [s2 r] eqn:Er.
    assert (forall id, delivered s2 id -> delivered s id) as H2.
    { intros id Hid. apply H1. eapply reschedule_delivered. by rewrite Er. }
    destruct r as [[]|]; simplify_eq/=; split_and!; try done; auto.
  - assert (forall dl, dl = (if Before (pe_LeaseUntil p) (Add now2 auditOutboxSinkTimeout)
        then pe_LeaseUntil p else Add now2 auditOutboxSinkTimeout) ->
        (dl <= now2 + auditOutboxSinkTimeout)%Z) as Hdl.
    { intros dl ->. unfold Before, Add. destruct (Z.ltb_spec (pe_LeaseUntil p) (now2 + auditOutboxSinkTimeout)); lia. }
    destruct (sink _ _) as [msg|] eqn:Es.
    + destruct (reschedule s1 _ _ _ _ _) as [s2 r] eqn:Er.
      assert (forall id, delivered s2 id -> delivered s id) as H2.
      { intros id Hid. apply H1. eapply reschedule_delivered. by rewrite Er. }
      destruct r as [[]|]; simplify_eq/=; split_and!; try done; try (by auto);
        intros e dl [= <- <-]; by apply Hdl.
    + destruct (mark s1 _ _ _ _) as [s2 r] eqn:Er.
      assert (forall id, delivered s2 id -> delivered s id \/ id = ae_EventID (pe_Event p)) as H2.
      { intros id Hid. destruct (mark_delivered s1 io2 (ae_EventID (pe_Event p)) (pe_ClaimToken p)
          (utc now3) id) as [?|?]; [by rewrite Er|by left; apply H1|by right]. }
      assert (forall a, a = Some (pe_Event p, if Before (pe_LeaseUntil p) (Add now2 auditOutboxSinkTimeout)
        then pe_LeaseUntil p else Add now2 auditOutboxSinkTimeout) ->
        (forall id, delivered s2 id -> delivered s id \/
           exists e dl, a = Some (e, dl) /\ ae_EventID e = id /\ sink e dl = None) /\
        (forall e dl, a = Some (e, dl) -> (dl <= now2 + auditOutboxSinkTimeout)%Z)) as H3.
      { intros a0 ->. split; [|intros e dl [= <- <-]; by apply Hdl].
        intros id Hid. destruct (H2 id Hid) as [?| ->]; [by left|]. right. eauto. }
      destruct r as [[]|]; simplify_eq/=; destruct (H3 _ eq_refl); split_and!; try done.
      intros _ _. eexists _, _. split; [done|].
      assert (mark s1 io2 (ae_EventID (pe_Event p)) (pe_ClaimToken p) (utc now3) = (s', Ok true)) as Er'
        by done.
      pose proof (mark_ok s1 io2 (ae_EventID (pe_Event p)) (pe_ClaimToken p) (utc now3)) as Hm.
      rewrite Er' in Hm. auto.
Qed.

End DispatcherProofs.
(** ** Witnesses *)

(** [uuid.Parse] on canonical identifiers: 36 characters, lower-case
    hexadecimal digits with dashes at the four group boundaries. *)
Fixpoint canonical_at (i : nat) (s : string) : bool :=
  match s with
  | EmptyString => Nat.eqb i 36
  | String c s =>
      (if existsb (Nat.eqb i) [8; 13; 18; 23]%nat then N.eqb (code c) 45
       else ((48 <=? code c) && (code c <=? 57) || (97 <=? code c) && (code c <=? 102))%N) &&
      canonical_at (S i) s
  end.
Definition canonical_uuid : UuidLib :=
  {| uuid_parse := fun s => if canonical_at 0 s then Some s else None |}.

Definition event_a : AuditEvent :=
  mkAuditEvent "0a8f0000-0000-4000-8000-000000000001" (mkLtime 1 true) "opamp.token.create" "u" ""
    "opamp_token" "0a8f0000-0000-4000-8000-0000000000aa" "".
Definition token_a : string := "0b8f0000-0000-4000-8000-00000000000a".
Definition token_b : string := "0b8f0000-0000-4000-8000-00000000000b".
Definition sample : outbox := {[ ae_EventID event_a := mkRow event_a 0 1 None None None ]}.

Lemma sample_wf : wf sample.
Proof. apply map_Forall_singleton. by split_and!. Qed.

Definition sample_claimed : outbox :=
  (ClaimAuditOutboxEvent (uuid:=canonical_uuid) sample IoOk ∅ token_a (utc 10) (utc 40)).1.


Lemma claim_is_exclusive_witness :
  (MarkAuditOutboxEventDelivered (uuid:=canonical_uuid)
     (ClaimAuditOutboxEvent (uuid:=canonical_uuid) sample_claimed IoOk ∅ token_b (utc 20) (utc 60)).1
     IoOk (ae_EventID event_a) token_a (utc 30)).2 = Ok true.
Proof.
  apply (claim_is_exclusive (uuid:=canonical_uuid) (fun _ => true) sample _ ∅ token_a (utc 10) (utc 40)
    (mkPending event_a 1 token_a 40) (utc 30)).
  - apply sample_wf.
  - vm_compute. reflexivity.
  - apply rtc_once. apply (fo_claim (uuid:=canonical_uuid)); [discriminate|simpl; lia].
  - vm_compute. reflexivity.
  - simpl. lia.
Defined.

Lemma claim_takes_first_due_witness :
  exists r, sample !! ae_EventID event_a = Some r /\ due 10 r = true.
Proof.
  destruct (claim_takes_first_due (uuid:=canonical_uuid) sample ∅ token_a (utc 10) (utc 40)
    (Some (mkPending event_a 1 token_a 40)) sample_wf) as (r & H1 & H2 & _).
  - vm_compute. reflexivity.
  - exists r. split; [exact H1|exact H2].
Defined.

Definition sample_store : wf_outbox := sample ↾ sample_wf.

Lemma dispatch_acknowledges_after_sink_witness :
  exists o', (@dispatchOnce _ (@db_store canonical_uuid ∅) (fun _ _ => None) sample_store IoOk IoOk
     token_a 10 11 12).1 = o' /\
  at_again (@dispatchOnce _ (@db_store canonical_uuid ∅) (fun _ _ => None) sample_store IoOk IoOk
     token_a 10 11 12).2 = true /\
  (exists e dl, Some (event_a, 10000000011%Z) = Some (e, dl) /\ is_delivered (`o') (ae_EventID e)).
Proof.
  eexists. split; [reflexivity|]. split; [vm_compute; reflexivity|].
  destruct (@dispatch_acknowledges_after_sink _ (@db_store canonical_uuid ∅)
    (@db_laws canonical_uuid ∅) (fun _ _ => None) sample_store IoOk IoOk
    token_a 10 11 12 _ _ (surjective_pairing _)) as (_ & _ & H).
  exact (H ltac:(vm_compute; reflexivity) ltac:(vm_compute; reflexivity)).
Defined.

End AuditOutbox.
