(* ===== verification/AuditDelivery.v ===== *)
(** * The dispatcher's loop (internal/audit/outbox_dispatcher.go)

    [Run] repeats the delivery attempt of [AuditOutbox.dispatchOnce] until its context is
    cancelled. Theorem: as long as the database and the sink work, every event that is
    due gets delivered, within as many attempts as there are undelivered events. *)

From S2P Require Import Prelude GoString AuditOutbox.
Import AuditOutbox.

Module AuditDelivery.

(** What one iteration reads: whether the context is cancelled, the claim token, the
    three clock readings and the outcomes of the two statements. The wait between idle
    iterations shows in the clock readings only. *)
Record turn := mkTurn {
  tn_cancelled : bool; tn_newID : string; tn_now1 : Time; tn_now2 : Time; tn_now3 : Time; tn_io1 : io; tn_io2 : io }.

Section Loop.
Context {S : Type} `{AuditOutboxStore S} (sink : AuditEvent -> Time -> option string).

(* src/internal/audit/outbox_dispatcher.go:38-59 Run *)
Fixpoint Run (turns : list turn) (s : S) : S * list attempt :=
  match turns with
  | [] => (s, [])
  | t :: rest =>
      if tn_cancelled t then (s, [])
      else
        let '(s, a) := dispatchOnce sink s (tn_io1 t) (tn_io2 t) (tn_newID t) (tn_now1 t) (tn_now2 t) (tn_now3 t) in
        let '(s, l) := Run rest s in (s, a :: l)
  end.

End Loop.

Section Delivery.
Context {uuid : UuidLib} (sink : AuditEvent -> Time -> option string).
Hypothesis sink_accepts : forall e dl, sink e dl = None.

(** A turn in which everything works and the attempt ends within its lease. *)
Record good_turn (t : turn) : Prop := mkGood {
  gt_running : tn_cancelled t = false;
  gt_io : tn_io1 t = IoOk /\ tn_io2 t = IoOk;
  gt_id : isCanonicalUUID (tn_newID t) = true;
  gt_clock : (zero_time < tn_now1 t)%Z /\ (tn_now1 t <= tn_now2 t <= tn_now3 t)%Z;
  gt_fast : (tn_now2 t + auditOutboxSinkTimeout < tn_now1 t + auditOutboxLeaseDuration)%Z /\
            (tn_now3 t < tn_now1 t + auditOutboxLeaseDuration)%Z
}.

Definition undelivered (o : outbox) : nat := size (filter (fun kv => or_delivered_at kv.2 = None) o).
Definition canonical_ids (o : outbox) : Prop := forall id r, o !! id = Some r -> isCanonicalUUID id = true.

Lemma claim_works o tok now lease :
  isCanonicalUUID tok = true -> (0 < now)%Z -> (now < lease)%Z ->
  ClaimAuditOutboxEvent o IoOk ∅ tok (utc now) (utc lease) =
  match min_by row_cmp (candidates ∅ now o) with
  | None => (o, Ok None)
  | Some r =>
      let e := or_event r in
      (<[ae_EventID e := claim_row r tok lease]> o,
       Ok (Some (mkPending (mkAuditEvent (ae_EventID e) (UTC (ae_OccurredAt e)) (ae_Action e) (ae_UserID e)
                   (ae_Email e) (ae_Resource e) (ae_ResourceID e) (ae_Detail e))
                  (or_attempt_count r + 1) tok lease)))
  end.
Proof.
  intros Ht Hn Hl. unfold ClaimAuditOutboxEvent, validateUTCTime, IsZero, After, utc. cbn [lt lt_utc negb].
  rewrite Ht. cbn [negb]. rewrite !(proj2 (Z.eqb_neq _ 0)) by lia. cbn [negb].
  rewrite (proj2 (Z.ltb_lt _ _)) by lia. cbn [negb]. by destruct (min_by _ _).
Qed.

Lemma mark_works o id tok now r :
  isCanonicalUUID id = true -> isCanonicalUUID tok = true -> (0 < now)%Z ->
  o !! id = Some r -> holds_claim r tok now = true ->
  MarkAuditOutboxEventDelivered o IoOk id tok (utc now) =
  (<[id := free_row r (or_next_attempt_at r) (Some now)]> o, Ok true).
Proof.
  intros Hi Ht Hn Hr Hh. unfold MarkAuditOutboxEventDelivered, validateOutboxCompletion, validateUTCTime, IsZero, utc.
  cbn [lt lt_utc]. rewrite Hi, Ht. cbn [negb]. rewrite (proj2 (Z.eqb_neq _ 0)) by lia.
  unfold complete. rewrite Hr, Hh. f_equal. apply map_eq. intros k. rewrite lookup_alter, lookup_insert.
  case_decide; [by subst; rewrite Hr|done].
Qed.

(** The database as the dispatcher's store, no row locked by another replica. *)
#[local] Instance table : AuditOutboxStore outbox := {
  claim o f tok now lease := ClaimAuditOutboxEvent o f ∅ tok now lease;
  mark := MarkAuditOutboxEventDelivered;
  reschedule := RescheduleAuditOutboxEvent
}.

Definition attempt_of (t : turn) (o : outbox) : outbox * attempt :=
  dispatchOnce sink o (tn_io1 t) (tn_io2 t) (tn_newID t) (tn_now1 t) (tn_now2 t) (tn_now3 t).

(** One working turn delivers a due event, or none is due. *)
Lemma good_turn_step o t : wf o -> good_turn t -> canonical_ids o ->
  ((attempt_of t o).1 = o /\ forall id r, o !! id = Some r -> due (tn_now1 t) r = false) \/
  exists id r, o !! id = Some r /\ due (tn_now1 t) r = true /\
    (attempt_of t o).1 =
      <[id := free_row (claim_row r (tn_newID t) 0) (or_next_attempt_at r) (Some (tn_now3 t))]> o.
Proof.
  intros Hw [_ [E1 E2] Hid [Hz Hord] [Hf Hl]] Hcan. unfold attempt_of, dispatchOnce. rewrite E1, E2.
  cbn [claim table]. unfold zero_time in Hz. set (lease := Add (tn_now1 t) auditOutboxLeaseDuration).
  assert (tn_now1 t < lease)%Z as Hlt by (unfold lease, Add, auditOutboxLeaseDuration, Second; lia).
  rewrite (claim_works o (tn_newID t) (tn_now1 t) lease) by done.
  destruct (min_by row_cmp (candidates ∅ (tn_now1 t) o)) as [r|] eqn:Em; cbn [fst snd].
  2: { left. split; [done|]. intros id r Hr. destruct (due (tn_now1 t) r) eqn:Ed; [|done]. exfalso.
       apply min_by_None in Em. apply (not_elem_of_nil r). rewrite <- Em. apply candidates_spec; [done|].
       destruct (Hw id r Hr) as [-> _]. set_solver. }
  destruct (min_by_Some row_cmp _ _ Em) as [Hin _]. apply candidates_spec in Hin as (Hr & Hd & _); [|done].
  set (id := ae_EventID (or_event r)) in *. cbv zeta. cbn [pe_LeaseUntil pe_Event pe_ClaimToken ae_EventID].
  assert (After lease (Add (tn_now2 t) auditOutboxSinkTimeout) = true) as ->
    by (unfold After, lease, Add; apply Z.ltb_lt; lia).
  cbn [negb]. rewrite sink_accepts. cbn [mark table].
  assert (holds_claim (claim_row r (tn_newID t) lease) (tn_newID t) (tn_now3 t) = true) as Hh.
  { apply holds_claim_spec. split; [done|]. split; [exact (due_undelivered _ _ Hd)|].
    exists lease. split; [done|]. unfold lease, Add. lia. }
  right. exists id, r. split; [done|]. split; [done|]. fold id.
  rewrite (mark_works _ id (tn_newID t) (tn_now3 t) _ (Hcan id r Hr) Hid ltac:(lia) (lookup_insert_eq _ _ _) Hh).
  cbn [fst]. by rewrite insert_insert_eq.
Qed.

Lemma undelivered_insert o id r r' : o !! id = Some r -> or_delivered_at r = None -> or_delivered_at r' <> None ->
  undelivered o = Datatypes.S (undelivered (<[id := r']> o)).
Proof.
  intros Hr Hn Hd. unfold undelivered. rewrite map_filter_insert_False by done.
  rewrite <- (insert_delete_id o id r Hr) at 1. rewrite map_filter_insert_True by done.
  rewrite map_size_insert_None; [done|]. apply map_lookup_filter_None. left. apply lookup_delete_eq.
Qed.

Lemma due_later now now' r : (now <= now')%Z -> due now r = true -> due now' r = true.
Proof.
  unfold due. destruct (or_delivered_at r), (or_claim_token r), (or_lease_until r); cbn; try done.
  all: rewrite ?andb_true_r, ?andb_false_r, ?andb_true_iff, ?Z.leb_le; intros; try done; lia.
Qed.

Lemma free_row_canonical o id r r' : canonical_ids o -> o !! id = Some r -> canonical_ids (<[id := r']> o).
Proof.
  intros Hc Hr k q Hq. apply lookup_insert_Some in Hq as [[<- _]|[_ Hq]]; eauto.
Qed.

(** Any attempt keeps the table's constraints and its events. *)
Lemma attempt_ok o t : wf o -> wf (attempt_of t o).1 /\ evolves o (attempt_of t o).1.
Proof.
  intros Hw. unfold attempt_of, dispatchOnce. cbn [claim mark reschedule table].
  generalize (claim_wf o (tn_io1 t) ∅ (tn_newID t) (utc (tn_now1 t)) (utc (Add (tn_now1 t) auditOutboxLeaseDuration)) Hw),
    (claim_evolves o (tn_io1 t) ∅ (tn_newID t) (utc (tn_now1 t)) (utc (Add (tn_now1 t) auditOutboxLeaseDuration)) Hw).
  destruct (ClaimAuditOutboxEvent _ _ _ _ _ _) as [o1 [[p|]|]]; cbn [fst]; intros Hw1 He1; [|done|done].
  assert (Hs : forall o', ostep (fun _ => true) o1 o' -> wf o' /\ evolves o o').
  { intros o' H1. destruct (ostep_ok _ _ _ Hw1 H1). split; [done|]. by eapply evolves_trans. }
  repeat case_match; cbn [fst]; try done.
  all: match goal with E : ?x = (?o', _) |- wf ?o' /\ _ => replace o' with x.1 by (by rewrite E) end;
    apply Hs; first [apply os_mark|apply os_reschedule].
Qed.

Lemma evolves_delivered o o' id : evolves o o' -> is_delivered o id -> is_delivered o' id.
Proof.
  intros He (r & Hr & Hd). destruct (He id r Hr) as (r' & Hr' & _ & Hf & _). exists r'.
  split; [done|]. by rewrite (Hf Hd).
Qed.

Lemma Run_ok turns : forall o, wf o -> evolves o (Run sink turns o).1.
Proof.
  induction turns as [|t turns IH]; intros o Hw; cbn [Run]; [apply evolves_refl|].
  destruct (tn_cancelled t); [apply evolves_refl|]. fold (attempt_of t o).
  destruct (attempt_ok o t Hw) as [Hw' He]. destruct (attempt_of t o) as [o1 a]. cbn [fst] in *.
  specialize (IH o1 Hw'). destruct (Run sink turns o1) as [o2 l]. cbn [fst] in *. by eapply evolves_trans.
Qed.

(** C11: Every due event gets delivered. While the database works, the sink accepts and
    every attempt ends within its lease, the loop delivers every event that was due when
    it started, within as many iterations as there are undelivered events. *)
Theorem Run_delivers_due_events turns : forall o start id r,
  wf o -> canonical_ids o -> Forall good_turn turns -> Forall (fun t => start <= tn_now1 t)%Z turns ->
  undelivered o <= length turns -> o !! id = Some r -> due start r = true ->
  is_delivered (Run sink turns o).1 id.
Proof.
  induction turns as [|t turns IH]; intros o start id r Hw Hcan Hg Ho Hlen Hr Hdue.
  { exfalso. assert (undelivered o = 0) as Hz by (cbn in Hlen; lia). apply map_size_empty_inv in Hz.
    assert (filter (fun kv => or_delivered_at kv.2 = None) o !! id = Some r) as Hf
      by (apply map_lookup_filter_Some; split; [done|by apply (due_undelivered start)]).
    by rewrite Hz, lookup_empty in Hf. }
  apply Forall_cons in Hg as [Ht Hg]. apply Forall_cons in Ho as [Hs Ho].
  cbn [Run]. rewrite (gt_running t Ht). fold (attempt_of t o).
  destruct (attempt_ok o t Hw) as [Hw1 _]. generalize (good_turn_step o t Hw Ht Hcan).
  destruct (attempt_of t o) as [o1 a]; cbn [fst] in *.
  pose proof (due_later _ _ _ Hs Hdue) as Hd. intros [[_ Hnone]|(k & q & Hq & Hdq & ->)].
  { by rewrite (Hnone id r Hr) in Hd. }
  match goal with |- context [<[k := ?r']> o] => set (q' := r') in * end.
  specialize (IH (<[k := q']> o) start id). pose proof (Run_ok turns _ Hw1) as Hev.
  destruct (Run sink turns (<[k := q']> o)) as [o2 l]. cbn [fst] in *.
  destruct (decide (k = id)) as [->|Hk].
  - apply (evolves_delivered _ _ _ Hev). exists q'. by rewrite lookup_insert_eq.
  - apply (IH r Hw1); [by eapply free_row_canonical|done|done| |by rewrite lookup_insert_ne|done].
    rewrite (undelivered_insert o k q q' Hq (due_undelivered _ _ Hdq)) in Hlen; [|done]. cbn in Hlen. lia.
Qed.

End Delivery.

(** ** A run *)

Lemma Run_delivers_due_events_witness :
  is_delivered (@Run _ (@table canonical_uuid) (fun _ _ => None)
    [mkTurn false token_a 10 11 12 IoOk IoOk] sample).1 (ae_EventID event_a).
Proof.
  apply (@Run_delivers_due_events canonical_uuid (fun _ _ => None) (fun _ _ => eq_refl)
    [mkTurn false token_a 10 11 12 IoOk IoOk] sample 10 (ae_EventID event_a) (mkRow event_a 0 1 None None None)).
  - apply sample_wf.
  - intros id r Hr. unfold sample in Hr. apply lookup_singleton_Some in Hr as [<- _]. vm_compute. reflexivity.
  - repeat constructor; cbn; unfold auditOutboxSinkTimeout, auditOutboxLeaseDuration, Second, zero_time; lia.
  - repeat constructor. cbn. lia.
  - vm_compute. lia.
  - apply lookup_singleton_eq.
  - reflexivity.
Defined.

End AuditDelivery.
