(* ===== verification/Sha256.v ===== *)
(** * SHA-256 (crypto/sha256) and unpadded base64url (encoding/base64)

    The standard library functions the token and fingerprint code calls, as
    executable definitions on bytes ([N] below 256). *)

From S2P Require Import Prelude GoString.

Module Sha256.
Local Open Scope N_scope.

Definition mask32 : N := 0xffffffff.
Definition add32 (a b : N) : N := N.land (a + b) mask32.
Definition rotr (n x : N) : N :=
  N.lor (N.shiftr x n) (N.land (N.shiftl x (32 - n)) mask32).
Definition not32 (x : N) : N := N.lxor x mask32.

(** The constants of the standard: the first 32 bits of the fractional parts of
    the cube roots of the first 64 primes, and of the square roots of the first
    eight. *)
Definition prime (n : N) : bool :=
  forallb (fun d => negb (n mod d =? 0)) (map N.of_nat (seq 2 (N.to_nat n - 2))).
Definition primes : list N := List.filter prime (map N.of_nat (seq 2 310)).

(** The integer cube root, bit by bit. *)
Fixpoint cube_root (bit : nat) (n acc : N) : N :=
  let try_ := acc + N.shiftl 1 (N.of_nat bit) in
  let acc := if try_ * try_ * try_ <=? n then try_ else acc in
  match bit with O => acc | S b => cube_root b n acc end.

Definition K : list N :=
  Eval vm_compute in map (fun p => N.land (cube_root 34 (N.shiftl p 96) 0) mask32) primes.
Definition H0 : list N :=
  Eval vm_compute in map (fun p => N.land (N.sqrt (N.shiftl p 64)) mask32) (take 8 primes).

(** Four big-endian bytes per word. *)
Fixpoint words (bs : list N) : list N :=
  match bs with
  | a :: b :: c :: d :: rest =>
      N.lor (N.shiftl a 24) (N.lor (N.shiftl b 16) (N.lor (N.shiftl c 8) d)) :: words rest
  | _ => []
  end.
Definition word_bytes (w : N) : list N :=
  [N.land (N.shiftr w 24) 255; N.land (N.shiftr w 16) 255; N.land (N.shiftr w 8) 255; N.land w 255].

Definition pad (bs : list N) : list N :=
  let len := N.of_nat (length bs) in
  let zeros := N.to_nat ((119 - len mod 64) mod 64) in
  let bits := 8 * len in
  bs ++ [128] ++ repeat 0 zeros ++ word_bytes (N.shiftr bits 32) ++ word_bytes (N.land bits mask32).

(** The message schedule, newest word first. *)
Fixpoint schedule (k : nat) (w : list N) : list N :=
  match k with
  | O => w
  | S k =>
      let w15 := nth 14 w 0 in
      let w2 := nth 1 w 0 in
      let s0 := N.lxor (rotr 7 w15) (N.lxor (rotr 18 w15) (N.shiftr w15 3)) in
      let s1 := N.lxor (rotr 17 w2) (N.lxor (rotr 19 w2) (N.shiftr w2 10)) in
      schedule k (add32 (add32 (nth 15 w 0) s0) (add32 (nth 6 w 0) s1) :: w)
  end.

Definition round (st : list N) (kw : N * N) : list N :=
  match st with
  | [a; b; c; d; e; f; g; h] =>
      let s1 := N.lxor (rotr 6 e) (N.lxor (rotr 11 e) (rotr 25 e)) in
      let ch := N.lxor (N.land e f) (N.land (not32 e) g) in
      let t1 := add32 (add32 h s1) (add32 ch (add32 (fst kw) (snd kw))) in
      let s0 := N.lxor (rotr 2 a) (N.lxor (rotr 13 a) (rotr 22 a)) in
      let mj := N.lxor (N.land a b) (N.lxor (N.land a c) (N.land b c)) in
      [add32 t1 (add32 s0 mj); a; b; c; add32 d t1; e; f; g]
  | _ => st
  end.

Definition block (st : list N) (ws : list N) : list N :=
  let sched := List.rev (schedule 48 (List.rev ws)) in
  zip_with add32 st (foldl round st (zip K sched)).

Fixpoint blocks (fuel : nat) (st : list N) (ws : list N) : list N :=
  match fuel with
  | O => st
  | S fuel => match ws with
              | [] => st
              | _ => blocks fuel (block st (firstn 16 ws)) (skipn 16 ws)
              end
  end.

(** [sha256.Sum256]. *)
Definition Sum256 (bs : list N) : list N :=
  let ws := words (pad bs) in
  foldr (fun w acc => word_bytes w ++ acc) [] (blocks (length ws) H0 ws).

(** The bytes of a Go string. *)
Definition str_bytes (s : string) : list N := str_codes s.

Example sha256_abc :
  hex_encode (Sum256 (str_bytes "abc")) =
  "ba7816bf8f01cfea414140de5dae2223b00361a396177a9cb410ff61f20015ad".
Proof. vm_compute. reflexivity. Qed.

Example sha256_two_blocks :
  hex_encode (Sum256 (str_bytes "abcdbcdecdefdefgefghfghighijhijkijkljklmklmnlmnomnopnopq")) =
  "248d6a61d20638b8e5c026930c3e6039a33ce45964ff2167f6ecedd419db06c1".
Proof. vm_compute. reflexivity. Qed.

Lemma block_length st ws : length st = 8%nat -> length (block st ws) = 8%nat.
Proof.
  intros Hst. unfold block. rewrite length_zip_with, Hst.
  assert (forall l s, length s = 8%nat -> length (foldl round s l) = 8%nat) as Hf.
  { induction l as [|kw l IH]; intros s Hs; simpl; [done|]. apply IH.
    do 8 (destruct s as [|? s]; [done|]). by destruct s. }
  by rewrite Hf.
Qed.

Lemma Sum256_length bs : length (Sum256 bs) = 32%nat.
Proof.
  unfold Sum256. assert (forall fuel st ws, length st = 8%nat -> length (blocks fuel st ws) = 8%nat) as Hb.
  { induction fuel as [|fuel IH]; intros st ws Hst; simpl; [done|]. destruct ws; [done|].
    apply IH. by apply block_length. }
  specialize (Hb (length (words (pad bs))) H0 (words (pad bs)) eq_refl).
  revert Hb. generalize (blocks (length (words (pad bs))) H0 (words (pad bs))). intros l Hl.
  do 8 (destruct l as [|? l]; [done|]). by destruct l.
Qed.

Lemma word_bytes_bound w b : In b (word_bytes w) -> b < 256.
Proof.
  unfold word_bytes. intros Hb.
  assert (exists x, b = N.land x 255) as [x ->] by (simpl in Hb; naive_solver).
  change 255 with (N.ones 8). rewrite N.land_ones. apply N.mod_lt. done.
Qed.

Lemma Sum256_bytes bs b : In b (Sum256 bs) -> b < 256.
Proof.
  unfold Sum256. generalize (blocks (length (words (pad bs))) H0 (words (pad bs))).
  induction l as [|w l IH]; [done|]. cbn [foldr]. rewrite in_app_iff.
  intros [Hb|Hb]; [by eapply word_bytes_bound|auto].
Qed.

(** ** base64.RawURLEncoding *)

Definition b64_char (v : N) : Ascii.ascii :=
  Ascii.ascii_of_N
    (if v <? 26 then 65 + v else if v <? 52 then 97 + (v - 26) else if v <? 62 then 48 + (v - 52)
     else if v =? 62 then 45 else 95).

Definition b64_value (c : Ascii.ascii) : option N :=
  let n := code c in
  if (65 <=? n) && (n <=? 90) then Some (n - 65)
  else if (97 <=? n) && (n <=? 122) then Some (n - 97 + 26)
  else if (48 <=? n) && (n <=? 57) then Some (n - 48 + 52)
  else if n =? 45 then Some 62 else if n =? 95 then Some 63 else None.

(** [EncodeToString]: three bytes to four characters, no padding. *)
Fixpoint b64_encode (bs : list N) : string :=
  match bs with
  | a :: b :: c :: rest =>
      String (b64_char (a / 4)) (String (b64_char (a mod 4 * 16 + b / 16))
        (String (b64_char (b mod 16 * 4 + c / 64)) (String (b64_char (c mod 64)) (b64_encode rest))))
  | [a; b] =>
      String (b64_char (a / 4)) (String (b64_char (a mod 4 * 16 + b / 16))
        (String (b64_char (b mod 16 * 4)) EmptyString))
  | [a] => String (b64_char (a / 4)) (String (b64_char (a mod 4 * 16)) EmptyString)
  | [] => EmptyString
  end.

(** Characters to values; carriage returns and line feeds are skipped, any other
    character outside the alphabet is an error. *)
Fixpoint b64_values (s : string) : option (list N) :=
  match s with
  | EmptyString => Some []
  | String c s =>
      if (code c =? 10) || (code c =? 13) then b64_values s
      else match b64_value c, b64_values s with
           | Some v, Some vs => Some (v :: vs)
           | _, _ => None
           end
  end.

(** Four values to three bytes; unused trailing bits are ignored, as the
    decoder is not strict, and a lone trailing character is an error. *)
Fixpoint b64_bytes (vs : list N) : option (list N) :=
  match vs with
  | [] => Some []
  | [_] => None
  | [v; w] => Some [v * 4 + w / 16]
  | [v; w; x] => Some [v * 4 + w / 16; w mod 16 * 16 + x / 4]
  | v :: w :: x :: y :: rest =>
      match b64_bytes rest with
      | Some bs => Some (v * 4 + w / 16 :: w mod 16 * 16 + x / 4 :: x mod 4 * 64 + y :: bs)
      | None => None
      end
  end.

Definition b64_decode (s : string) : option (list N) :=
  match b64_values s with Some vs => b64_bytes vs | None => None end.

Lemma b64_value_char v : v < 64 -> b64_value (b64_char v) = Some v /\
  code (b64_char v) <> 10 /\ code (b64_char v) <> 13 /\ code (b64_char v) <> 46.
Proof.
  intros Hv. assert (v ∈ map N.of_nat (seq 0 64)) as Hin.
  { apply list_elem_of_In, in_map_iff. exists (N.to_nat v). split; [lia|]. apply in_seq. lia. }
  apply list_elem_of_In in Hin. revert v Hv Hin.
  assert (forall v, In v (map N.of_nat (seq 0 64)) ->
    (match b64_value (b64_char v) with Some u => u =? v | None => false end &&
     negb (code (b64_char v) =? 10) && negb (code (b64_char v) =? 13) &&
     negb (code (b64_char v) =? 46)) = true) as H.
  { apply forallb_forall. vm_compute. reflexivity. }
  intros v _ Hin%H. rewrite !andb_true_iff, !negb_true_iff, !N.eqb_neq in Hin.
  destruct Hin as [[[H1 H2] H3] H4]. destruct (b64_value (b64_char v)); [|done].
  apply N.eqb_eq in H1. naive_solver.
Qed.

Lemma b64_values_cons v s :
  v < 64 -> b64_values (String (b64_char v) s) = (v ::.) <$> b64_values s.
Proof.
  intros Hv. destruct (b64_value_char v Hv) as (Hval & H1 & H2 & _). cbn [b64_values].
  rewrite (proj2 (N.eqb_neq _ _) H1), (proj2 (N.eqb_neq _ _) H2). simpl. rewrite Hval.
  by destruct (b64_values s).
Qed.

Lemma list_ind3 {A} (P : list A -> Prop) :
  P [] -> (forall a, P [a]) -> (forall a b, P [a; b]) ->
  (forall a b c l, P l -> P (a :: b :: c :: l)) -> forall l, P l.
Proof.
  intros H0 H1 H2 H3. assert (forall l, P l /\ (forall a, P (a :: l)) /\ (forall a b, P (a :: b :: l))) as H.
  { induction l as [|x l (IH1 & IH2 & IH3)]; [done|]. split_and!; auto. }
  intros l. apply H.
Qed.

(** Linear arithmetic with division by constants. *)
Ltac divlia := zify; Z.to_euclidean_division_equations; lia.

(** Decoding what was encoded gives the bytes back. *)
Lemma b64_roundtrip bs : (forall b, In b bs -> b < 256) -> b64_decode (b64_encode bs) = Some bs.
Proof.
  unfold b64_decode. induction bs as [|a|a b|a b c l IH] using list_ind3; intros Hb; cbn [b64_encode].
  - done.
  - assert (a < 256) by (apply Hb; simpl; auto).
    rewrite !b64_values_cons by divlia. simpl. do 2 f_equal. divlia.
  - assert (a < 256 /\ b < 256) as [??] by (split; apply Hb; simpl; auto).
    rewrite !b64_values_cons by divlia. simpl. repeat f_equal; divlia.
  - assert (a < 256 /\ b < 256 /\ c < 256) as (? & ? & ?) by (split_and!; apply Hb; simpl; auto).
    rewrite !b64_values_cons by divlia.
    assert (forall b, In b l -> b < 256) as Hl by (intros; apply Hb; simpl; auto).
    specialize (IH Hl). destruct (b64_values (b64_encode l)) as [vs|]; [|done]. simpl. rewrite IH.
    repeat f_equal; divlia.
Qed.

Lemma b64_encode_length bs :
  String.length (b64_encode bs) = ((length bs * 4 + 2) / 3)%nat.
Proof.
  induction bs as [|a|a b|a b c l IH] using list_ind3; cbn [b64_encode String.length length]; [done..|].
  rewrite IH. replace (S (S (S (length l))) * 4 + 2)%nat with (length l * 4 + 2 + 4 * 3)%nat by lia.
  rewrite Nat.div_add by lia. lia.
Qed.

(** The alphabet has no dot. *)
Lemma b64_encode_no_dot bs :
  (forall b, In b bs -> b < 256) -> Forall (fun n => n <> 46) (str_codes (b64_encode bs)).
Proof.
  assert (forall v s, v < 64 -> Forall (fun n => n <> 46) (str_codes s) ->
    Forall (fun n => n <> 46) (str_codes (String (b64_char v) s))) as Hc.
  { intros v s Hv Hs. cbn [str_codes]. constructor; [|done]. apply (b64_value_char v Hv). }
  induction bs as [|a|a b|a b c l IH] using list_ind3; intros Hb; cbn [b64_encode].
  - constructor.
  - assert (a < 256) by (apply Hb; simpl; auto). repeat apply Hc; try divlia. constructor.
  - assert (a < 256 /\ b < 256) as [??] by (split; apply Hb; simpl; auto).
    repeat apply Hc; try divlia. constructor.
  - assert (a < 256 /\ b < 256 /\ c < 256) as (? & ? & ?) by (split_and!; apply Hb; simpl; auto).
    repeat apply Hc; try divlia. apply IH. intros; apply Hb; simpl; auto.
Qed.

(** Decoding only produces bytes. *)
Lemma b64_value_bound c : match b64_value c with Some v => v <? 64 | None => true end = true.
Proof. revert c. apply forall_ascii. vm_compute. reflexivity. Qed.

Lemma b64_values_bound s vs : b64_values s = Some vs -> Forall (fun v => v < 64) vs.
Proof.
  revert vs. induction s as [|c s IH]; intros vs; cbn [b64_values].
  - intros [= <-]. constructor.
  - case_if; [apply IH|]. pose proof (b64_value_bound c) as Hc.
    destruct (b64_value c) as [v|], (b64_values s) as [ws|]; try done.
    intros [= <-]. constructor; [by apply N.ltb_lt|by apply IH].
Qed.

Lemma list_ind4 {A} (P : list A -> Prop) :
  P [] -> (forall a, P [a]) -> (forall a b, P [a; b]) -> (forall a b c, P [a; b; c]) ->
  (forall a b c d l, P l -> P (a :: b :: c :: d :: l)) -> forall l, P l.
Proof.
  intros H0 H1 H2 H3 H4.
  assert (forall l, P l /\ (forall a, P (a :: l)) /\ (forall a b, P (a :: b :: l)) /\
    (forall a b c, P (a :: b :: c :: l))) as H.
  { induction l as [|x l (IH1 & IH2 & IH3 & IH4)]; [done|]. split_and!; auto. }
  intros l. apply H.
Qed.

Lemma b64_decode_bytes s bs : b64_decode s = Some bs -> forall b, In b bs -> b < 256.
Proof.
  unfold b64_decode. destruct (b64_values s) as [vs|] eqn:Ev; [|done].
  apply b64_values_bound in Ev. revert bs Ev.
  induction vs as [|a|a b|a b c|a b c d l IH] using list_ind4; intros bs Hv; cbn [b64_bytes];
    rewrite ?Forall_cons in Hv.
  - by intros [= <-].
  - done.
  - intros [= <-] x [<-|[]]. destruct Hv as (? & ? & _). divlia.
  - destruct Hv as (? & ? & ? & _). intros [= <-] x [<-|[<-|[]]]; divlia.
  - destruct Hv as (? & ? & ? & ? & Hl). destruct (b64_bytes l) as [bl|]; [|done].
    intros [= <-] x. simpl. intros [<-|[<-|[<-|Hx]]]; [divlia..|]. by eapply IH.
Qed.

End Sha256.
