(* ===== verification/OpampTokens.v ===== *)
(** * Managed OpAMP tokens

    Generation and parsing of the bearer value (internal/opampauth/token.go) and
    the tables behind it (internal/store/opamp_tokens.go). A transaction works on
    a copy of the database that replaces it at commit; any statement may fail,
    and a failed commit may or may not have been applied. The CHECK constraints
    of the schema are parameters. *)

From S2P Require Import Prelude GoString AuditOutbox Sha256.
Import AuditOutbox Sha256.

Module OpampTokens.

Definition dot : Ascii.ascii := Ascii.ascii_of_N 46.

(** ** Bearer values *)

Definition tokenPrefix : string := "ompt_".
Definition secretLength : nat := 32.
Definition encodedSecretSize : nat := 43.

(* src/internal/opampauth/token.go:23-27 GeneratedToken *)
Record GeneratedToken := mkGenerated {
  gt_ID : string; gt_Value : string; gt_SecretHash : list N
}.

Section Auth.
Context {uuid : UuidLib}.

(** [secret] are the bytes read from crypto/rand, [id] the text of the random
    UUID; [None] is an error of the source. *)
(* src/internal/opampauth/token.go:30-47 Generate *)
Definition Generate (secret : option (list N)) (id : option string) : option GeneratedToken :=
  secret ← secret;
  id ← id;
  let value := tokenPrefix +:+ id +:+ "." +:+ b64_encode secret in
  Some (mkGenerated id value (Sum256 (str_bytes value))).

(* src/internal/opampauth/token.go:50-74 ParseAndHash *)
Definition ParseAndHash (value : string) : option (string * list N) :=
  if negb (HasPrefix value tokenPrefix) then None
  else
    match Split (TrimPrefix value tokenPrefix) dot with
    | [p0; p1] =>
        match uuid_parse p0 with
        | None => None
        | Some parsed =>
            if p0 <>s parsed then None
            else if negb (Nat.eqb (String.length p1) encodedSecretSize) then None
            else
              match b64_decode p1 with
              | None => None
              | Some secret =>
                  if negb (Nat.eqb (length secret) secretLength) || (b64_encode secret <>s p1)
                  then None
                  else Some (parsed, Sum256 (str_bytes value))
              end
        end
    | _ => None
    end.

(** ** Tables *)

(** A row of [opamp_tokens], under its id. *)
Record token_row := mkTokenRow {
  tr_name : string; tr_description : string; tr_team : string; tr_environment : string;
  tr_secret_hash : list N; tr_created_at : Time; tr_created_by : string;
  tr_expires_at : option Time; tr_last_used_at : option Time; tr_revoked_at : option Time;
  tr_revoked_by : option string
}.

Record db := mkDB { tokens : gmap string token_row; events : outbox }.

(** What may go wrong in a transaction: [BeginTx], the n-th statement, commit. *)
Record faults := mkFaults { f_begin : bool; f_stmt : nat -> bool; f_commit : io }.

(** [tx.Commit()]. *)
Definition commit {A} (f : faults) (d d' : db) (a : A) : db * result A :=
  match f_commit f with
  | IoOk => (d', Ok a)
  | IoFail applied => (if applied then d' else d, Err "commit outcome unknown")
  end.

(* src/pkg/models/opamp_token.go:16-29 OpAMPToken *)
Record OpAMPToken := mkToken {
  ot_ID : string; ot_Name : string; ot_Description : string; ot_Team : string;
  ot_Environment : string; ot_CreatedAt : ltime; ot_CreatedBy : string;
  ot_ExpiresAt : option ltime; ot_LastUsedAt : option ltime; ot_RevokedAt : option ltime;
  ot_RevokedBy : string; ot_Status : string
}.

(* src/pkg/models/opamp_token.go:32-35 OpAMPTokenCredential *)
Record OpAMPTokenCredential := mkCredential { oc_Token : OpAMPToken; oc_SecretHash : list N }.

(* src/pkg/models/opamp_token.go:38-41 OpAMPTokenPrincipal *)
Record OpAMPTokenPrincipal := mkPrincipal { op_ID : string; op_ExpiresAt : option Time }.

Definition OpAMPTokenActive : string := "active".
Definition OpAMPTokenExpired : string := "expired".
Definition OpAMPTokenRevoked : string := "revoked".

Definition is_set {A} (o : option A) : bool := match o with Some _ => true | None => false end.

(** Schema constraints. *)
Variables (token_checks : string -> token_row -> bool) (event_checks : AuditEvent -> bool).

(* src/internal/store/opamp_tokens.go:278-281 isCanonicalOpAMPTokenID *)
Definition isCanonicalOpAMPTokenID (id : string) : bool :=
  match uuid_parse id with Some s => id =s s | None => false end.

(* src/internal/store/opamp_tokens.go:292-298 nullableTimeUTC *)
Definition nullableTimeUTC (value : option Time) : option ltime := (fun t => mkLtime t true) <$> value.

(* src/internal/store/opamp_tokens.go:19-66 CreateOpAMPToken *)
Definition CreateOpAMPToken (d : db) (f : faults) (credential : OpAMPTokenCredential)
  (event : AuditEvent) : db * result unit :=
  let token := oc_Token credential in
  let fail msg := (d, Err ("create OpAMP token: " +:+ msg)) in
  if negb (isCanonicalOpAMPTokenID (ot_ID token)) then fail "token ID must be a canonical UUID"
  else match validateUTCTime "created_at" (ot_CreatedAt token) with
  | Some e => fail e
  | None =>
  match validateTokenAuditEvent event "opamp.token.create" (ot_ID token) (ot_CreatedBy token)
          (ot_CreatedAt token) with
  | Some e => fail ("invalid audit event: " +:+ e)
  | None =>
  match ot_ExpiresAt token ≫= validateUTCTime "expires_at" with
  | Some e => fail e
  | None =>
  if is_set (ot_LastUsedAt token) || is_set (ot_RevokedAt token) || (ot_RevokedBy token <>s "")
  then fail "new token must not contain usage or revocation state"
  else if f_begin f then fail "begin"
  else
    let row := mkTokenRow (ot_Name token) (ot_Description token) (ot_Team token)
                 (ot_Environment token) (oc_SecretHash credential) (lt (ot_CreatedAt token))
                 (ot_CreatedBy token) (lt <$> ot_ExpiresAt token) None None None in
    if f_stmt f 0 || is_set (tokens d !! ot_ID token) || negb (token_checks (ot_ID token) row)
    then fail "insert token"
    else
      let d1 := mkDB (<[ot_ID token := row]> (tokens d)) (events d) in
      if f_stmt f 1 then fail "insert audit outbox event"
      else match insertAuditOutboxEvent event_checks (events d1) event with
      | Err e => fail e
      | Ok o => commit f d (mkDB (tokens d1) o) tt
      end
  end end end.

(* src/internal/store/opamp_tokens.go:130-146 populateOpAMPTokenState *)
Definition populateOpAMPTokenState (id : string) (r : token_row) (now : Time) : OpAMPToken :=
  let status :=
    if is_set (tr_revoked_at r) then OpAMPTokenRevoked
    else match tr_expires_at r with
         | Some e => if negb (After e now) then OpAMPTokenExpired else OpAMPTokenActive
         | None => OpAMPTokenActive
         end in
  mkToken id (tr_name r) (tr_description r) (tr_team r) (tr_environment r)
    (mkLtime (tr_created_at r) true) (tr_created_by r) (nullableTimeUTC (tr_expires_at r))
    (nullableTimeUTC (tr_last_used_at r)) (nullableTimeUTC (tr_revoked_at r))
    (default "" (tr_revoked_by r)) status.

(** The row after [SET revoked_at = $1, revoked_by = $2]. *)
Definition revoke_row (r : token_row) (now : Time) (by_ : string) : token_row :=
  mkTokenRow (tr_name r) (tr_description r) (tr_team r) (tr_environment r) (tr_secret_hash r)
    (tr_created_at r) (tr_created_by r) (tr_expires_at r) (tr_last_used_at r) (Some now) (Some by_).

(* src/internal/store/opamp_tokens.go:69-128 RevokeOpAMPToken *)
Definition RevokeOpAMPToken (d : db) (f : faults) (id revokedBy : string) (now : ltime)
  (event : AuditEvent) : db * result (OpAMPToken * bool) :=
  let fail msg := (d, Err ("revoke OpAMP token: " +:+ msg)) in
  if negb (isCanonicalOpAMPTokenID id) then (d, Err "OpAMP token not found")
  else match validateUTCTime "revoked_at" now with
  | Some e => fail e
  | None =>
  match validateTokenAuditEvent event "opamp.token.revoke" id revokedBy now with
  | Some e => fail ("invalid audit event: " +:+ e)
  | None =>
  if f_begin f then fail "begin"
  else if f_stmt f 0 then fail "lock token"
  else match tokens d !! id with
  | None => (d, Err "OpAMP token not found")
  | Some r =>
  let token := populateOpAMPTokenState id r (lt now) in
  if is_set (ot_RevokedAt token) then (d, Ok (token, false))
  else
    let row := revoke_row r (lt now) revokedBy in
    if f_stmt f 1 || negb (token_checks id row) then fail "update token"
    else if f_stmt f 2 then fail "insert audit outbox event"
    else match insertAuditOutboxEvent event_checks (events d) event with
    | Err e => fail e
    | Ok o =>
        commit f d (mkDB (<[id := row]> (tokens d)) o)
          (mkToken (ot_ID token) (ot_Name token) (ot_Description token) (ot_Team token)
             (ot_Environment token) (ot_CreatedAt token) (ot_CreatedBy token) (ot_ExpiresAt token)
             (ot_LastUsedAt token) (Some (UTC now)) revokedBy OpAMPTokenRevoked, true)
    end
  end end end.

(** [ORDER BY created_at DESC, id]. *)
Definition list_less (a b : string * token_row) : bool :=
  Z.ltb (tr_created_at b.2) (tr_created_at a.2) ||
  (Z.eqb (tr_created_at a.2) (tr_created_at b.2) && (a.1 <s b.1)).

(* src/internal/store/opamp_tokens.go:149-194 ListOpAMPTokens *)
Definition ListOpAMPTokens (d : db) (query_fails : bool) (now : Time) : result (list OpAMPToken) :=
  if query_fails then Err "list OpAMP tokens"
  else Ok (map (fun kv => populateOpAMPTokenState kv.1 kv.2 now)
             (sort_by list_less (map_to_list (tokens d)))).

(* src/internal/store/opamp_tokens.go:283-290 dummyOpAMPTokenDigest *)
Definition dummyOpAMPTokenDigest : list N :=
  [0x9f; 0xd4; 0x17; 0xe6; 0x4e; 0x98; 0xa8; 0xce; 0x90; 0x2d; 0x43; 0x60; 0x78; 0x25; 0xf1; 0xe7;
   0x3a; 0x22; 0xb4; 0x1b; 0xa5; 0x12; 0xeb; 0x2c; 0x81; 0x21; 0xee; 0x47; 0x69; 0x2a; 0x34; 0xf8]%N.

Definition ErrInvalidOpAMPToken : string := "invalid OpAMP token".

(* src/internal/store/opamp_tokens.go:197-231 ValidateOpAMPToken *)
Definition ValidateOpAMPToken (d : db) (query_fails : bool) (id : string) (presentedHash : list N)
  (now : Time) : result OpAMPTokenPrincipal :=
  if negb (isCanonicalOpAMPTokenID id) then Err ErrInvalidOpAMPToken
  else if query_fails then Err "validate OpAMP token: failed"
  else
    let row := tokens d !! id in
    let found := is_set row in
    if found && negb (Nat.eqb (length (default [] (tr_secret_hash <$> row)))
                        (length dummyOpAMPTokenDigest))
    then Err "validate OpAMP token: stored digest has invalid length"
    else
      let comparisonDigest := default dummyOpAMPTokenDigest (tr_secret_hash <$> row) in
      let hashMatches := bool_decide (presentedHash = comparisonDigest) in
      let revoked := is_set (row ≫= tr_revoked_at) in
      let expiresAt := row ≫= tr_expires_at in
      let expired := match expiresAt with Some e => negb (After e now) | None => false end in
      if negb found || negb hashMatches || revoked || expired then Err ErrInvalidOpAMPToken
      else Ok (mkPrincipal id expiresAt).

Definition opAMPTokenActivityWindow : Duration := (30 * Second)%Z.

Definition use_row (r : token_row) (now : Time) : token_row :=
  mkTokenRow (tr_name r) (tr_description r) (tr_team r) (tr_environment r) (tr_secret_hash r)
    (tr_created_at r) (tr_created_by r) (tr_expires_at r) (Some now) (tr_revoked_at r)
    (tr_revoked_by r).

(* src/internal/store/opamp_tokens.go:234-276 MarkOpAMPTokenUsed *)
Definition MarkOpAMPTokenUsed (d : db) (f : faults) (id : string) (now : Time) : db * result unit :=
  let fail msg := (d, Err ("mark OpAMP token used: " +:+ msg)) in
  if negb (isCanonicalOpAMPTokenID id) then (d, Err ErrInvalidOpAMPToken)
  else if f_begin f then fail "begin"
  else if f_stmt f 0 then fail "lock token"
  else match tokens d !! id with
  | None => (d, Err ErrInvalidOpAMPToken)
  | Some r =>
      if is_set (tr_revoked_at r) ||
         match tr_expires_at r with Some e => Z.leb e now | None => false end
      then (d, Err ErrInvalidOpAMPToken)
      else
        if match tr_last_used_at r with
           | None => true
           | Some t => negb (After t (Add now (- opAMPTokenActivityWindow)))
           end
        then if f_stmt f 1 || negb (token_checks id (use_row r now)) then fail "update activity"
             else commit f d (mkDB (<[id := use_row r now]> (tokens d)) (events d)) tt
        else commit f d d tt
  end.

(** ** Bearer values: proofs *)

Lemma canonical_spec id : isCanonicalOpAMPTokenID id = true <-> uuid_parse id = Some id.
Proof.
  unfold isCanonicalOpAMPTokenID. destruct (uuid_parse id) as [s|]; [|done].
  rewrite String.eqb_eq. naive_solver.
Qed.

Lemma TrimPrefix_inv v p : HasPrefix v p = true -> v = p +:+ TrimPrefix v p.
Proof.
  intros H. unfold HasPrefix in H. destruct (proj1 (prefix_spec p v) H) as [r ->].
  by rewrite TrimPrefix_app.
Qed.

Lemma ParseAndHash_iff v id h :
  ParseAndHash v = Some (id, h) <->
  exists secret, length secret = secretLength /\ (forall b, In b secret -> (b < 256)%N) /\
    uuid_parse id = Some id /\ no_char dot id /\
    v = tokenPrefix +:+ (id +:+ String dot (b64_encode secret)) /\ h = Sum256 (str_bytes v).
Proof.
  unfold ParseAndHash. split.
  - case_if; [done|]. apply negb_false_iff, TrimPrefix_inv in E.
    destruct (Split (TrimPrefix v tokenPrefix) dot) as [|p0 [|p1 [|? ?]]] eqn:Es; try done.
    apply Split_two in Es as (Hv & H0 & H1). destruct (uuid_parse p0) as [parsed|] eqn:Eu; [|done].
    case_if; [done|]. case_if; [done|]. destruct (b64_decode p1) as [secret|] eqn:Ed; [|done].
    case_if; [done|]. intros Hres. injection Hres as <- <-. reflect_bools. exists secret.
    match goal with Hx : b64_encode secret = p1 |- _ => rewrite Hx end.
    match goal with Hx : p0 = parsed |- _ => rewrite <-Hx end.
    split_and!; try done; [by eapply b64_decode_bytes|congruence|by rewrite <-Hv].
  - intros (secret & Hl & Hb & Hu & Hn & -> & ->).
    rewrite HasPrefix_app, TrimPrefix_app. simpl negb.
    assert (Split (id +:+ String dot (b64_encode secret)) dot = [id; b64_encode secret]) as ->.
    { apply Split_two. split; [done|]. split; [done|]. by apply b64_encode_no_dot. }
    rewrite Hu, String.eqb_refl. simpl negb.
    rewrite b64_encode_length, Hl. rewrite b64_roundtrip by done. rewrite Hl, !String.eqb_refl. done.
Qed.

Lemma generated_parses secret id g :
  length secret = secretLength -> (forall b, In b secret -> (b < 256)%N) ->
  uuid_parse id = Some id -> no_char dot id ->
  Generate (Some secret) (Some id) = Some g ->
  ParseAndHash (gt_Value g) = Some (gt_ID g, gt_SecretHash g).
Proof.
  intros Hl Hb Hu Hn [= <-]. simpl. apply ParseAndHash_iff. exists secret. split_and!; done.
Qed.

(** Tokens round-trip: a generated bearer value parses back to its id and to
    the digest stored for it. *)
Theorem generated_token_parses secret id g :
  length secret = secretLength -> (forall b, In b secret -> (b < 256)%N) ->
  uuid_parse id = Some id -> no_char dot id ->
  Generate (Some secret) (Some id) = Some g ->
  ParseAndHash (gt_Value g) = Some (gt_ID g, gt_SecretHash g).
Proof. apply generated_parses. Qed.

(** Parsing is strict: an accepted value is exactly one [Generate] can emit
    for the returned id, so no two accepted values differ in encoding only. *)
Theorem parsed_token_is_canonical v id h :
  ParseAndHash v = Some (id, h) ->
  uuid_parse id = Some id /\ h = Sum256 (str_bytes v) /\
  exists secret, length secret = secretLength /\
    Generate (Some secret) (Some id) = Some (mkGenerated id v h).
Proof.
  intros (secret & Hl & Hb & Hu & Hn & Hv & Hh)%ParseAndHash_iff.
  split; [done|]. split; [done|]. exists secret. split; [done|].
  unfold Generate. simpl. by subst.
Qed.

(** ** Tables: proofs *)

Lemma ValidateOpAMPToken_spec d id hash now p :
  ValidateOpAMPToken d false id hash now = Ok p <->
  uuid_parse id = Some id /\ exists r, tokens d !! id = Some r /\ length (tr_secret_hash r) = 32%nat /\
    hash = tr_secret_hash r /\ tr_revoked_at r = None /\
    (forall e, tr_expires_at r = Some e -> (now < e)%Z) /\ p = mkPrincipal id (tr_expires_at r).
Proof.
  unfold ValidateOpAMPToken. rewrite <-canonical_spec.
  destruct (isCanonicalOpAMPTokenID id); simpl negb; cbv iota; [|naive_solver].
  destruct (tokens d !! id) as [r|]; simpl; [|naive_solver].
  destruct (Nat.eqb_spec (length (tr_secret_hash r)) 32) as [Hl|Hl]; simpl.
  2: { split; [done|]. intros (_ & r' & [= <-] & ? & _). done. }
  rewrite bool_decide_decide. destruct (decide (hash = tr_secret_hash r)) as [->|Hne]; simpl.
  2: { split; [done|]. intros (_ & r' & [= <-] & _ & ? & _). done. }
  destruct (tr_revoked_at r) eqn:Er; simpl.
  { split; [done|]. intros (_ & r' & [= <-] & _ & _ & ? & _). congruence. }
  destruct (tr_expires_at r) as [e|] eqn:Ee; simpl; unfold After.
  - destruct (Z.ltb_spec now e); simpl; split; try done.
    + intros [= <-]. split; [done|]. exists r. split_and!; try done; [|by rewrite Ee].
      intros x Hx. rewrite Ee in Hx. by simplify_eq.
    + intros (_ & r' & [= <-] & _ & _ & _ & _ & ->). by rewrite Ee.
    + intros (_ & r' & [= <-] & _ & _ & _ & Hx & _). specialize (Hx e Ee). lia.
  - split.
    + intros [= <-]. split; [done|]. exists r. split_and!; try done; [|by rewrite Ee].
      intros x Hx. by rewrite Ee in Hx.
    + intros (_ & r' & [= <-] & _ & _ & _ & _ & ->). by rewrite Ee.
Qed.

Lemma validate_accepts_iff d id hash now :
  is_ok (ValidateOpAMPToken d false id hash now) = true <->
  uuid_parse id = Some id /\ exists r, tokens d !! id = Some r /\ length (tr_secret_hash r) = 32%nat /\
    hash = tr_secret_hash r /\ tr_revoked_at r = None /\
    (forall e, tr_expires_at r = Some e -> (now < e)%Z).
Proof.
  destruct (ValidateOpAMPToken d false id hash now) as [p|m] eqn:E; simpl; split; try done.
  - intros _. apply ValidateOpAMPToken_spec in E as (? & r & ?). naive_solver.
  - intros (Hu & r & H). exfalso.
    assert (ValidateOpAMPToken d false id hash now = Ok (mkPrincipal id (tr_expires_at r))) as H'
      by (apply ValidateOpAMPToken_spec; naive_solver). congruence.
Qed.

(** A token validates exactly when it exists under a canonical id, the
    presented digest equals the stored one (of the right length), it is not
    revoked and not expired; an unknown id never validates, whatever digest is
    presented. *)
Theorem ValidateOpAMPToken_accepts_iff d id hash now :
  is_ok (ValidateOpAMPToken d false id hash now) = true <->
  uuid_parse id = Some id /\ exists r, tokens d !! id = Some r /\ length (tr_secret_hash r) = 32%nat /\
    hash = tr_secret_hash r /\ tr_revoked_at r = None /\
    (forall e, tr_expires_at r = Some e -> (now < e)%Z).
Proof. apply validate_accepts_iff. Qed.

(** The effect of a transaction that created [id] or revoked it. *)
Definition created (d d' : db) (id : string) (ev : AuditEvent) : Prop :=
  tokens d !! id = None /\ events d !! ae_EventID ev = None /\
  (exists r, tokens d' = <[id := r]> (tokens d) /\ tr_revoked_at r = None /\ tr_last_used_at r = None) /\
  events d' = <[ae_EventID ev := mkRow ev 0 (lt (ae_OccurredAt ev)) None None None]> (events d).
Definition revoked (d d' : db) (id by_ : string) (now : Time) (ev : AuditEvent) : Prop :=
  events d !! ae_EventID ev = None /\
  (exists r, tokens d !! id = Some r /\ tr_revoked_at r = None /\
     tokens d' = <[id := revoke_row r now by_]> (tokens d)) /\
  events d' = <[ae_EventID ev := mkRow ev 0 (lt (ae_OccurredAt ev)) None None None]> (events d).

Lemma insert_spec o ev o' :
  insertAuditOutboxEvent event_checks o ev = Ok o' ->
  o !! ae_EventID ev = None /\ o' = <[ae_EventID ev := mkRow ev 0 (lt (ae_OccurredAt ev)) None None None]> o.
Proof.
  unfold insertAuditOutboxEvent. destruct (o !! ae_EventID ev); [done|].
  destruct (event_checks ev); [|done]. by intros [= <-].
Qed.

Lemma commit_cases {A} f d d' (a : A) :
  let res := commit f d d' a in
  (res.1 = d' /\ res.2 = Ok a) \/ ((res.1 = d \/ res.1 = d') /\ is_ok res.2 = false).
Proof. unfold commit. destruct (f_commit f) as [|[]]; simpl; auto. Qed.

Lemma create_atomic d f cred ev :
  let res := CreateOpAMPToken d f cred ev in
  (res.1 = d /\ is_ok res.2 = false) \/ created d res.1 (ot_ID (oc_Token cred)) ev.
Proof.
  intros res. unfold res, CreateOpAMPToken.
  case_if; [by left|]. case_match; [by left|]. case_match; [by left|]. case_match; [by left|].
  case_if; [by left|]. case_if; [by left|]. case_if; [by left|]. case_if; [by left|]. cbn [events].
  destruct (insertAuditOutboxEvent _ _ _) as [o|] eqn:Ei; [|by left].
  apply insert_spec in Ei as [Hn ->]. reflect_bools.
  assert (tokens d !! ot_ID (oc_Token cred) = None) as Ht
    by (destruct (tokens d !! ot_ID (oc_Token cred)); [done|done]).
  set (d1 := mkDB _ _).
  assert (created d d1 (ot_ID (oc_Token cred)) ev) as Hc.
  { split_and!; [done|done| |done]. eexists. split; [done|done]. }
  destruct (commit_cases f d d1 tt) as [[-> _]|[[->| ->] ?]]; auto.
Qed.

(** Creating a token and recording its audit event is atomic: whatever
    statement fails and whatever happens to the commit, either the database is
    unchanged or it has both the new token and its undelivered event; success is
    reported only for the latter. *)
Theorem CreateOpAMPToken_atomic d f cred ev :
  let res := CreateOpAMPToken d f cred ev in
  (res.1 = d /\ is_ok res.2 = false) \/ created d res.1 (ot_ID (oc_Token cred)) ev.
Proof. apply create_atomic. Qed.

Lemma revoke_atomic d f id by_ now ev :
  let res := RevokeOpAMPToken d f id by_ now ev in
  (res.1 = d /\ (is_ok res.2 = false \/
     exists tok r, res.2 = Ok (tok, false) /\ tokens d !! id = Some r /\ tr_revoked_at r <> None)) \/
  revoked d res.1 id by_ (lt now) ev.
Proof.
  intros res. unfold res, RevokeOpAMPToken.
  case_if; [by auto|]. case_match; [by auto|]. case_match; [by auto|]. case_if; [by auto|].
  case_if; [by auto|]. destruct (tokens d !! id) as [r|] eqn:Hr; [|by auto].
  case_if.
  { left. split; [done|]. right. eexists _, r. split; [done|]. split; [done|].
    simpl in E2. by destruct (tr_revoked_at r). }
  case_if; [by auto|]. case_if; [by auto|].
  destruct (insertAuditOutboxEvent _ _ _) as [o|] eqn:Ei; [|by auto].
  apply insert_spec in Ei as [Hn ->]. set (d1 := mkDB _ _).
  assert (revoked d d1 id by_ (lt now) ev) as Hc.
  { split_and!; [done| |done]. exists r. split; [done|]. split; [|done].
    simpl in E2. by destruct (tr_revoked_at r). }
  match goal with |- context [commit f d d1 ?x] => destruct (commit_cases f d d1 x) as [[-> _]|[[->| ->] ?]] end;
    auto.
Qed.

(** Revocation is atomic with its audit event and happens once: either the
    database is unchanged (an error, or the token was already revoked and
    [false] is returned) or the token is revoked and exactly one event is
    added. *)
Theorem RevokeOpAMPToken_atomic d f id by_ now ev :
  let res := RevokeOpAMPToken d f id by_ now ev in
  (res.1 = d /\ (is_ok res.2 = false \/
     exists tok r, res.2 = Ok (tok, false) /\ tokens d !! id = Some r /\ tr_revoked_at r <> None)) \/
  revoked d res.1 id by_ (lt now) ev.
Proof. apply revoke_atomic. Qed.

(** One mutation of the token tables. *)
Inductive tstep (d : db) : db -> Prop :=
| ts_create f cred ev : tstep d (CreateOpAMPToken d f cred ev).1
| ts_revoke f id by_ now ev : tstep d (RevokeOpAMPToken d f id by_ now ev).1
| ts_used f id now : tstep d (MarkOpAMPTokenUsed d f id now).1.

Lemma MarkOpAMPTokenUsed_cases d f id now :
  let res := MarkOpAMPTokenUsed d f id now in
  res.1 = d \/ exists r, tokens d !! id = Some r /\ tr_revoked_at r = None /\
    (forall t, tr_last_used_at r = Some t -> (t <= now - opAMPTokenActivityWindow)%Z) /\
    res.1 = mkDB (<[id := use_row r now]> (tokens d)) (events d).
Proof.
  intros res. unfold res, MarkOpAMPTokenUsed.
  case_if; [by left|]. case_if; [by left|]. case_if; [by left|].
  destruct (tokens d !! id) as [r|] eqn:Hr; [|by left]. case_if; [by left|].
  match goal with |- context [if ?b then _ else _] => destruct b eqn:Ew end.
  2: { left. unfold commit. by destruct (f_commit f) as [|[]]. }
  case_if; [by left|]. set (d1 := mkDB _ _).
  destruct (commit_cases f d d1 tt) as [[-> _]|[[->| ->] _]]; [|by left|];
    right; exists r; (split_and!; [done| | |done]).
  all: try (by apply orb_false_iff in E2 as [E2 _]; destruct (tr_revoked_at r)).
  all: intros t Ht; rewrite Ht in Ew; apply negb_true_iff, Z.ltb_ge in Ew; unfold Add in Ew; lia.
Qed.

Definition is_revoked (d : db) (id : string) : Prop :=
  exists r, tokens d !! id = Some r /\ tr_revoked_at r <> None.

Lemma tstep_revoked d d' id : tstep d d' -> is_revoked d id -> is_revoked d' id.
Proof.
  intros Hs (r & Hr & Hrev). destruct Hs as [f cred ev|f k by_ now ev|f k now].
  - destruct (create_atomic d f cred ev) as [[-> _]|(Hn & _ & (q & Hq & _) & _)];
      [by exists r|]. exists r. rewrite Hq, lookup_insert_ne; [done|]. congruence.
  - destruct (revoke_atomic d f k by_ now ev) as [[-> _]|(_ & (q & Hq & Hnr & Hk) & _)];
      [by exists r|]. exists r. rewrite Hk, lookup_insert_ne; [done|]. congruence.
  - destruct (MarkOpAMPTokenUsed_cases d f k now) as [->|(q & Hq & Hnr & _ & ->)]; [by exists r|].
    exists r. simpl. rewrite lookup_insert_ne; [done|]. congruence.
Qed.

Lemma revoked_stays_invalid d d' id q hash now :
  is_revoked d id -> rtc tstep d d' -> is_ok (ValidateOpAMPToken d' q id hash now) = false.
Proof.
  intros Hrev Hr. assert (is_revoked d' id) as (r & Hrow & Hn).
  { induction Hr; eauto using tstep_revoked. }
  destruct q.
  - unfold ValidateOpAMPToken. by case_if.
  - destruct (is_ok _) eqn:E; [|done].
    apply validate_accepts_iff in E as (_ & r' & Hr' & _ & _ & ? & _). congruence.
Qed.

(** Revocation is final: once a token is revoked, no sequence of creations,
    revocations and uses makes it validate again, for any presented digest and
    at any time. *)
Theorem revoked_token_never_validates d d' id q hash now :
  is_revoked d id -> rtc tstep d d' -> is_ok (ValidateOpAMPToken d' q id hash now) = false.
Proof. apply revoked_stays_invalid. Qed.

(** Recording activity is throttled: the only change [MarkOpAMPTokenUsed]
    makes is the last use of an unrevoked token, and only when the previous
    recorded use is at least the activity window old; when it succeeds, the
    recorded use is within the window. *)
Theorem MarkOpAMPTokenUsed_throttled d f id now :
  let res := MarkOpAMPTokenUsed d f id now in
  (res.1 = d \/ exists r, tokens d !! id = Some r /\ tr_revoked_at r = None /\
     (forall t, tr_last_used_at r = Some t -> (t <= now - opAMPTokenActivityWindow)%Z) /\
     res.1 = mkDB (<[id := use_row r now]> (tokens d)) (events d)) /\
  (is_ok res.2 = true -> exists r t, tokens res.1 !! id = Some r /\ tr_last_used_at r = Some t /\
     (now - opAMPTokenActivityWindow < t)%Z).
Proof.
  split; [apply MarkOpAMPTokenUsed_cases|]. unfold MarkOpAMPTokenUsed.
  case_if; [done|]. case_if; [done|]. case_if; [done|].
  destruct (tokens d !! id) as [r|] eqn:Hr; [|done]. case_if; [done|].
  match goal with |- context [if ?b then _ else _] => destruct b eqn:Ew end.
  - case_if; [done|]. unfold commit. destruct (f_commit f) as [|[]]; try done.
    intros _. exists (use_row r now), now. simpl. rewrite lookup_insert_eq.
    split_and!; [done..|]. unfold opAMPTokenActivityWindow, Second. lia.
  - unfold commit. destruct (f_commit f) as [|[]]; try done. intros _. simpl.
    destruct (tr_last_used_at r) as [t|] eqn:Et; [|done]. exists r, t. split_and!; [done..|].
    apply negb_false_iff, Z.ltb_lt in Ew. unfold Add in Ew. lia.
Qed.

(** End to end: a token that was generated and created without error
    authenticates with its bearer value until it expires. *)
Theorem created_token_authenticates d d' f cred ev secret g now :
  length secret = secretLength -> (forall b, In b secret -> (b < 256)%N) ->
  no_char dot (ot_ID (oc_Token cred)) ->
  Generate (Some secret) (Some (ot_ID (oc_Token cred))) = Some g ->
  oc_SecretHash cred = gt_SecretHash g ->
  CreateOpAMPToken d f cred ev = (d', Ok tt) ->
  (forall e, ot_ExpiresAt (oc_Token cred) = Some e -> (now < lt e)%Z) ->
  exists id h, ParseAndHash (gt_Value g) = Some (id, h) /\
    ValidateOpAMPToken d' false id h now = Ok (mkPrincipal id (lt <$> ot_ExpiresAt (oc_Token cred))).
Proof.
  intros Hl Hb Hn Hg Hh Hc Hexp. set (id := ot_ID (oc_Token cred)) in *.
  assert (uuid_parse id = Some id /\ exists r, tokens d' !! id = Some r /\
    tr_secret_hash r = oc_SecretHash cred /\ tr_revoked_at r = None /\
    tr_expires_at r = lt <$> ot_ExpiresAt (oc_Token cred)) as [Hu (r & Hr & Hs & Hrev & He)].
  { unfold CreateOpAMPToken in Hc. fold id in Hc.
    destruct (isCanonicalOpAMPTokenID id) eqn:Ec; [|done]. apply canonical_spec in Ec.
    split; [done|]. simpl negb in Hc. cbv iota in Hc.
    do 3 (case_hyp Hc; [done|]). case_hyp Hc; [done|]. case_hyp Hc; [done|]. case_hyp Hc; [done|].
    case_hyp Hc; [done|]. case_hyp Hc; [|done].
    unfold commit in Hc. destruct (f_commit f) as [|[]]; simplify_eq. simpl.
    eexists. rewrite lookup_insert_eq. done. }
  exists id, (gt_SecretHash g).
  assert (gt_ID g = id) as Hgid by (unfold Generate in Hg; simpl in Hg; by simplify_eq).
  split; [rewrite <-Hgid; by apply (generated_parses secret id)|].
  apply ValidateOpAMPToken_spec. split; [done|]. exists r. split_and!; try done.
  - rewrite Hs, Hh. unfold Generate in Hg. simpl in Hg. simplify_eq. simpl. apply Sum256_length.
  - congruence.
  - intros e. rewrite He. destruct (ot_ExpiresAt (oc_Token cred)) as [x|]; [|done].
    intros [= <-]. by apply Hexp.
  - by rewrite He.
Qed.

End Auth.

(** ** Witnesses *)

Definition demo_id : string := "0a8f0000-0000-4000-8000-0000000000aa".
Definition demo_secret : list N := repeat 7%N 32.
Definition demo_generated : GeneratedToken :=
  default (mkGenerated "" "" []) (Generate (Some demo_secret) (Some demo_id)).
Definition demo_token : OpAMPToken :=
  mkToken demo_id "edge" "" "" "" (mkLtime 1 true) "u" (Some (mkLtime 100 true)) None None "" "".
Definition demo_cred : OpAMPTokenCredential := mkCredential demo_token (gt_SecretHash demo_generated).
Definition no_faults : faults := mkFaults false (fun _ => false) IoOk.
Definition demo_db : db :=
  (@CreateOpAMPToken canonical_uuid (fun _ _ => true) (fun _ => true) (mkDB ∅ ∅) no_faults demo_cred event_a).1.

Lemma demo_secret_bytes b : In b demo_secret -> (b < 256)%N.
Proof. intros H. apply repeat_spec in H. by subst. Qed.

Lemma demo_id_no_dot : no_char dot demo_id.
Proof. apply (bool_decide_unpack _). vm_compute. exact I. Qed.

Lemma generated_token_parses_witness :
  @ParseAndHash canonical_uuid (gt_Value demo_generated) = Some (demo_id, gt_SecretHash demo_generated).
Proof.
  exact (@generated_token_parses canonical_uuid demo_secret demo_id demo_generated eq_refl
    demo_secret_bytes ltac:(vm_compute; reflexivity) demo_id_no_dot ltac:(vm_compute; reflexivity)).
Defined.

Lemma parsed_token_is_canonical_witness :
  exists secret, length secret = secretLength /\
    Generate (Some secret) (Some demo_id) =
      Some (mkGenerated demo_id (gt_Value demo_generated) (gt_SecretHash demo_generated)).
Proof.
  destruct (@parsed_token_is_canonical canonical_uuid (gt_Value demo_generated) demo_id
    (gt_SecretHash demo_generated)) as (_ & _ & secret & H1 & H2); [vm_compute; reflexivity|].
  exists secret. split; [exact H1|exact H2].
Defined.

Lemma revoked_token_never_validates_witness :
  is_ok (@ValidateOpAMPToken canonical_uuid
    (mkDB {[ demo_id := mkTokenRow "edge" "" "" "" (gt_SecretHash demo_generated) 1 "u" None None (Some 5%Z) (Some "u") ]} ∅)
    false demo_id (gt_SecretHash demo_generated) 6) = false.
Proof.
  apply (@revoked_token_never_validates canonical_uuid (fun _ _ => true) (fun _ => true)
    (mkDB {[ demo_id := mkTokenRow "edge" "" "" "" (gt_SecretHash demo_generated) 1 "u" None None (Some 5%Z) (Some "u") ]} ∅)).
  - eexists. simpl. rewrite lookup_singleton_eq. split; [reflexivity|]. discriminate.
  - reflexivity.
Defined.

Lemma created_token_authenticates_witness :
  is_Some (tokens demo_db !! demo_id) /\
  exists id h, @ParseAndHash canonical_uuid (gt_Value demo_generated) = Some (id, h) /\
    is_ok (@ValidateOpAMPToken canonical_uuid demo_db false id h 50) = true.
Proof.
  split; [vm_compute; eauto|].
  destruct (@created_token_authenticates canonical_uuid (fun _ _ => true) (fun _ => true) (mkDB ∅ ∅) demo_db
    no_faults demo_cred event_a demo_secret demo_generated 50) as (id & h & H1 & H2).
  - reflexivity.
  - apply demo_secret_bytes.
  - apply demo_id_no_dot.
  - vm_compute. reflexivity.
  - reflexivity.
  - vm_compute. reflexivity.
  - intros e [= <-]. simpl. lia.
  - exists id, h. rewrite H2. split; [exact H1|reflexivity].
Defined.

End OpampTokens.
