(* ===== verification/Validator.v ===== *)
(** * Static validation of collector configurations (internal/validator)

    The static checks, the optional runtime check and the aggregation of their
    messages into a result. [yaml.Unmarshal] and the external otelcol process are
    parameters; everything the server computes from their outcome is modelled. *)

From S2P Require Import Prelude GoString Models.

Module Validator.

(** What [yaml.Unmarshal] stores in an [any]: a map whose keys are all strings
    is a [map[string]any]; every other scalar or map is [YOther]. *)
Inductive yaml :=
| YStr (s : string)
| YList (l : list yaml)
| YMap (m : gmap string yaml)
| YOther.

(** Values of the [Metadata] maps. *)
Inductive meta :=
| MInt (n : Z) | MStr (s : string) | MStrs (l : list string) | MCounts (m : gmap string nat).

(* src/internal/validator/validator.go:35-42 Error *)
Record Error := mkError { er_Code : string; er_Message : string; er_Path : string; er_CheckID : string }.

(* src/internal/validator/validator.go:45-51 Message *)
Record Message := mkMessage {
  ms_Code : string; ms_Severity : string; ms_Message : string; ms_Path : string; ms_CheckID : string
}.

(* src/internal/validator/validator.go:54-62 Check *)
Record Check_ := mkCheck {
  ck_ID : string; ck_Label : string; ck_Source : string; ck_Status : string; ck_Required : bool;
  ck_Messages : list Message; ck_Metadata : gmap string meta
}.

(* src/internal/validator/validator.go:65-74 Result *)
Record Result := mkResult {
  rs_Valid : bool; rs_OverallStatus : string; rs_Summary : string;
  rs_TargetCollectorVersion : string; rs_ValidatedAt : Time;
  rs_Errors : list Error; rs_Warnings : list Message; rs_Checks : list Check_
}.

(* src/internal/validator/validator.go:79-86 RuntimeOptions *)
Record RuntimeOptions := mkOptions {
  op_Enabled : bool; op_BinaryPath : string; op_Timeout : Duration; op_TargetVersion : string;
  op_TargetVersionSource : string; op_MinimumVersion : string
}.

Definition zero_options : RuntimeOptions := mkOptions false "" 0 "" "" "".

Definition defaultRuntimeTimeout : Duration := (5 * Second)%Z.

(* src/internal/validator/validator.go:95-102 pipelineSections *)
Definition pipelineSections : list (string * string) :=
  [("receivers", "receivers"); ("processors", "processors"); ("exporters", "exporters")].

(* src/internal/validator/validator.go:115-119 componentRef *)
Record componentRef := mkRef { cr_Category : string; cr_ID : string; cr_Path : string }.

Definition msg (codeName severity text path : string) : Message := mkMessage codeName severity text path "".

(** ** Helpers *)

(* src/internal/validator/validator.go:203-218 baseCheck *)
Definition baseCheck (id : string) : Check_ :=
  if id =s "yaml_static" then mkCheck id "YAML syntax" "server.static_yaml" "" true [] ∅
  else if id =s "collector_structure"
  then mkCheck id "Collector structure" "server.structure" "" true [] ∅
  else if id =s "component_availability"
  then mkCheck id "Components available on workload" "workload.available_components" "" true [] ∅
  else if id =s "collector_version_compatibility"
  then mkCheck id "Collector version compatibility" "server.target_version_policy" "" false [] ∅
  else if id =s "otelcol_runtime"
  then mkCheck id "Collector runtime validation" "otelcol.binary" "" false [] ∅
  else mkCheck id "" "" "" false [] ∅.

Definition with_status (c : Check_) (st : string) : Check_ :=
  mkCheck (ck_ID c) (ck_Label c) (ck_Source c) st (ck_Required c) (ck_Messages c) (ck_Metadata c).
Definition with_messages (c : Check_) (ms : list Message) : Check_ :=
  mkCheck (ck_ID c) (ck_Label c) (ck_Source c) (ck_Status c) (ck_Required c) ms (ck_Metadata c).
Definition add_message (c : Check_) (m : Message) : Check_ := with_messages c (ck_Messages c ++ [m]).
Definition with_meta (c : Check_) (k : string) (v : meta) : Check_ :=
  mkCheck (ck_ID c) (ck_Label c) (ck_Source c) (ck_Status c) (ck_Required c) (ck_Messages c)
    (<[k := v]> (ck_Metadata c)).
Definition set_meta (c : Check_) (m : gmap string meta) : Check_ :=
  mkCheck (ck_ID c) (ck_Label c) (ck_Source c) (ck_Status c) (ck_Required c) (ck_Messages c) m.

Definition add_check (r : Result) (c : Check_) : Result :=
  mkResult (rs_Valid r) (rs_OverallStatus r) (rs_Summary r) (rs_TargetCollectorVersion r)
    (rs_ValidatedAt r) (rs_Errors r) (rs_Warnings r) (rs_Checks r ++ [c]).
Definition add_error (r : Result) (e : Error) : Result :=
  mkResult (rs_Valid r) (rs_OverallStatus r) (rs_Summary r) (rs_TargetCollectorVersion r)
    (rs_ValidatedAt r) (rs_Errors r ++ [e]) (rs_Warnings r) (rs_Checks r).
Definition add_warning (r : Result) (m : Message) : Result :=
  mkResult (rs_Valid r) (rs_OverallStatus r) (rs_Summary r) (rs_TargetCollectorVersion r)
    (rs_ValidatedAt r) (rs_Errors r) (rs_Warnings r ++ [m]) (rs_Checks r).

(* src/internal/validator/validator.go:193-201 appendSkippedDependents *)
Definition appendSkippedDependents (result : Result) (dependsOn message : string) (ids : list string)
  : Result :=
  foldl (fun r id =>
    let check := with_status (baseCheck id) "skipped" in
    let check := set_meta check {[ "depends_on_failed_check" := MStr dependsOn ]} in
    add_check r (with_messages check
      [mkMessage "depends_on_failed_check" "info" message "" id])) result ids.

(* src/internal/validator/validator.go:220-230 collectCheckMessages *)
Definition collectCheckMessages (result : Result) (check : Check_) : Result :=
  foldl (fun r m =>
    let m := mkMessage (ms_Code m) (ms_Severity m) (ms_Message m) (ms_Path m) (ck_ID check) in
    if ms_Severity m =s "error"
    then add_error r (mkError (ms_Code m) (ms_Message m) (ms_Path m) (ck_ID check))
    else if ms_Severity m =s "warning" then add_warning r m
    else r) result (ck_Messages check).

(* src/internal/validator/validator.go:590-600 statusWithWarnings *)
Fixpoint statusWithWarnings (messages : list Message) : string :=
  match messages with
  | [] => "passed"
  | m :: rest =>
      if ms_Severity m =s "error" then "failed"
      else if ms_Severity m =s "warning" then "warning"
      else statusWithWarnings rest
  end.

(* src/internal/validator/validator.go:694-704 extractDefined *)
Definition extractDefined (root : gmap string yaml) (section : string) : gset string :=
  match root !! section with
  | Some (YMap m) => dom m
  | _ => ∅
  end.

(* src/internal/validator/validator.go:709-721 toStringSlice *)
Definition toStringSlice (v : option yaml) : list string :=
  match v with
  | Some (YList arr) => omap (fun el => match el with YStr s => Some s | _ => None end) arr
  | _ => []
  end.

(* src/internal/validator/validator.go:723-725 singular *)
Definition singular (section : string) : string := TrimSuffix section "s".

(* src/internal/validator/validator.go:387-392 componentType *)
Definition componentType (id : string) : string := before_char id "/"%char.

(* src/internal/validator/validator.go:379-385 definedComponentCounts *)
Definition definedComponentCounts (defined : gmap string (gset string)) : gmap string nat :=
  size <$> defined.

(* src/internal/validator/validator.go:681-689 versionParts *)
Definition versionParts (v : string) : list Z :=
  let parts := map (fun p => (Atoi p).1) (Split (TrimPrefix v "v") "."%char) in
  firstn 3 (parts ++ [0; 0; 0]%Z).

(* src/internal/validator/validator.go:667-679 compareVersions *)
Definition compareVersions (a b : string) : comparison :=
  list_cmp Z.compare (versionParts a) (versionParts b).

(** ** The structure check *)

Definition defined_in (defined : gmap string (gset string)) (category id : string) : bool :=
  bool_decide (id ∈ default ∅ (defined !! category)).

(** The loop over the references of one section: an undefined reference adds a
    message, a defined one a [componentRef]. *)
Definition check_refs (defined : gmap string (gset string)) (category : string)
  (path : nat -> string) (text : string -> string) (ids : list string)
  : list Message * list componentRef :=
  (omap (fun '(i, id) => if defined_in defined category id then None
     else Some (msg "undefined_component" "error" (text id) (path i))) (imap pair ids),
   omap (fun '(i, id) => if defined_in defined category id
     then Some (mkRef category id (path i)) else None) (imap pair ids)).

Definition section_path (name section : string) (i : nat) : string :=
  "service.pipelines." +:+ name +:+ "." +:+ section +:+ "[" +:+ Itoa i +:+ "]".

Definition undefined_text (name section category id : string) : string :=
  "pipeline " +:+ Quote name +:+ " references " +:+ singular section +:+ " " +:+ Quote id +:+
  " which is not defined under top-level '" +:+ category +:+ "'".

(** One iteration of the loop over the sorted pipeline names. *)
Definition check_pipeline (defined : gmap string (gset string)) (name : string) (pipelineRaw : yaml)
  : list Message * list componentRef :=
  match pipelineRaw with
  | YMap pipeline =>
      let missing := omap (fun required =>
        match pipeline !! required with
        | Some _ => None
        | None => Some (msg "missing_pipeline_section" "error"
                    ("pipeline " +:+ Quote name +:+ " is missing '" +:+ required +:+ "'")
                    ("service.pipelines." +:+ name +:+ "." +:+ required))
        end) ["receivers"; "exporters"] in
      let sections := map (fun '(section, category) =>
        check_refs defined category (section_path name section) (undefined_text name section category)
          (toStringSlice (pipeline !! section))) pipelineSections in
      (missing ++ mjoin (map fst sections), mjoin (map snd sections))
  | _ =>
      ([msg "invalid_pipeline" "error" ("pipeline " +:+ Quote name +:+ " is not an object")
          ("service.pipelines." +:+ name)], [])
  end.

Definition defined_sections (root : gmap string yaml) : gmap string (gset string) :=
  list_to_map (map (fun s => (s, extractDefined root s))
    ["receivers"; "processors"; "exporters"; "connectors"; "extensions"]).

(* src/internal/validator/validator.go:232-308 validateCollectorStructure *)
Definition validateCollectorStructure (root : gmap string yaml)
  : Check_ * list componentRef * gmap string (gset string) :=
  let check := baseCheck "collector_structure" in
  let defined := defined_sections root in
  let check := with_meta check "defined_components" (MCounts (definedComponentCounts defined)) in
  match root !! "service" with
  | Some (YMap service) =>
      match service !! "pipelines" with
      | Some (YMap pipelines) =>
          if decide (pipelines = ∅) then
            (with_status (add_message check (msg "missing_pipelines" "error"
               "'service.pipelines' must define at least one pipeline" "service.pipelines")) "failed",
             [], defined)
          else
            let names := sorted_keys pipelines in
            let check := with_meta check "pipelines" (MStrs names) in
            let per := map (fun name => check_pipeline defined name (default YOther (pipelines !! name)))
                         names in
            let ext := check_refs defined "extensions"
                         (fun i => "service.extensions[" +:+ Itoa i +:+ "]")
                         (fun id => "service.extensions references " +:+ Quote id +:+
                            " which is not defined under top-level 'extensions'")
                         (toStringSlice (service !! "extensions")) in
            let messages := mjoin (map fst per) ++ fst ext in
            let refs := mjoin (map snd per) ++ snd ext in
            let check := with_meta check "component_refs_checked" (MInt (Z.of_nat (length refs))) in
            let check := with_messages check messages in
            let check := with_status check (statusWithWarnings messages) in
            let check := if ck_Status check =s "passed"
              then with_messages check [msg "collector_structure_ok" "info"
                "Collector service pipelines and component references are structurally valid." ""]
              else check in
            (check, refs, defined)
      | _ =>
          (with_status (add_message check (msg "missing_pipelines" "error"
             "'service.pipelines' must define at least one pipeline" "service.pipelines")) "failed",
           [], defined)
      end
  | _ =>
      (with_status (add_message check (msg "missing_service" "error"
         "'service' section is required" "service")) "failed", [], defined)
  end.

(** ** The availability check *)

(** One iteration of the loop over the references; [warned] are the categories
    already reported. *)
Definition check_available (components : gmap string (list string))
  (st : list Message * gset string) (ref : componentRef) : list Message * gset string :=
  let '(messages, warned) := st in
  match components !! cr_Category ref with
  | None =>
      if decide (cr_Category ref ∈ warned) then (messages, warned)
      else (messages ++ [msg "component_category_unreported" "warning"
              ("AvailableComponents did not report category " +:+ Quote (cr_Category ref) +:+
               "; components in that category were not enforced.") ""],
            {[ cr_Category ref ]} ∪ warned)
  | Some installed =>
      let ty := componentType (cr_ID ref) in
      if existsb (String.eqb ty) installed then (messages, warned)
      else (messages ++ [msg "component_not_installed" "error"
              (singular (cr_Category ref) +:+ " type " +:+ Quote ty +:+
               " is not installed on the target workload (available: " +:+ Join ", " installed +:+ ")")
              (cr_Path ref)], warned)
  end.

(* src/internal/validator/validator.go:310-346 validateComponentAvailability *)
Definition validateComponentAvailability (refs : list componentRef)
  (available : option AvailableComponents) : Check_ :=
  let check := baseCheck "component_availability" in
  let check := with_meta check "component_refs_checked" (MInt (Z.of_nat (length refs))) in
  let missing := with_messages (with_meta (with_status check "warning") "reported_categories" (MStrs []))
    [msg "available_components_missing" "warning"
       "Target workload has not reported AvailableComponents; installed component checks were not enforced." ""] in
  match available with
  | None => missing
  | Some a =>
      if decide (ac_Components a = ∅) then missing
      else
        let check := with_meta check "reported_categories" (MStrs (sorted_keys (ac_Components a))) in
        let '(messages, _) := foldl (check_available (ac_Components a)) ([], ∅) refs in
        let check := with_status (with_messages check messages) (statusWithWarnings messages) in
        if ck_Status check =s "passed"
        then with_messages check [msg "component_availability_ok" "info"
               "All referenced component types are reported as available on the target workload." ""]
        else check
  end.

(** ** The version check *)

(* src/internal/validator/validator.go:348-377 validateVersionCompatibility *)
Definition validateVersionCompatibility (targetVersion versionSource minimumVersion : string) : Check_ :=
  let check := baseCheck "collector_version_compatibility" in
  let targetVersion := TrimSpace targetVersion in
  let versionSource := TrimSpace versionSource in
  let minimumVersion := TrimSpace minimumVersion in
  let versionSource := if versionSource =s "" then "unknown" else versionSource in
  let check := with_meta check "version_source" (MStr versionSource) in
  let check := if minimumVersion <>s ""
    then with_meta check "minimum_supported_version" (MStr minimumVersion) else check in
  if targetVersion =s "" then
    with_messages (with_status check "warning") [msg "target_version_unknown" "warning"
      "No target collector version was provided or reported by the workload." ""]
  else
    let check := with_meta check "target_version" (MStr targetVersion) in
    let check := if versionSource =s "unknown" then with_meta check "version_source" (MStr "default")
                 else check in
    if (minimumVersion <>s "") &&
       match compareVersions targetVersion minimumVersion with Lt => true | _ => false end
    then with_messages (with_status check "failed") [msg "target_version_too_old" "error"
      ("Target collector version " +:+ targetVersion +:+ " is below the configured minimum " +:+
       minimumVersion +:+ ".") ""]
    else with_messages (with_status check "passed") [msg "target_version_checked" "info"
      ("Target collector version " +:+ targetVersion +:+
       " is compatible with the configured validation policy.") ""].

(** ** Putting the checks together *)

(** gopkg.in/yaml.v3: an error, a nil map (empty document) or a map. *)
Class YamlLib := { yaml_unmarshal : string -> result (option (gmap string yaml)) }.

Section Validate.
Context {yamllib : YamlLib}.

Definition dependents : list string :=
  ["collector_structure"; "component_availability"; "collector_version_compatibility"].

(* src/internal/validator/validator.go:129-191 validateStatic *)
Definition validateStatic (now : Time) (yamlContent : string) (available : option AvailableComponents)
  (opts : RuntimeOptions) : Result :=
  let result := mkResult true "" "" (TrimSpace (op_TargetVersion opts)) now [] [] [] in
  let yamlCheck := mkCheck "yaml_static" "YAML syntax" "server.static_yaml" "" true []
                     {[ "bytes" := MInt (Z.of_nat (String.length yamlContent)) ]} in
  match yaml_unmarshal yamlContent with
  | Err err =>
      let m := mkMessage "yaml_parse" "error" ("invalid YAML: " +:+ err) "" "yaml_static" in
      let result := add_check result (with_messages (with_status yamlCheck "failed") [m]) in
      let result := add_error result (mkError (ms_Code m) (ms_Message m) "" "yaml_static") in
      appendSkippedDependents result "yaml_static"
        "YAML parsing failed; this check was not executed." dependents
  | Ok None =>
      let m := mkMessage "empty_config" "error" "configuration is empty" "" "yaml_static" in
      let result := add_check result (with_messages (with_status yamlCheck "failed") [m]) in
      let result := add_error result (mkError (ms_Code m) (ms_Message m) "" "yaml_static") in
      appendSkippedDependents result "yaml_static"
        "Configuration is empty; this check was not executed." dependents
  | Ok (Some root) =>
      let yamlCheck := with_messages (with_status yamlCheck "passed")
        [mkMessage "yaml_parse_ok" "info" "YAML parsed successfully." "" "yaml_static"] in
      let result := add_check result yamlCheck in
      let '(structureCheck, refs, _) := validateCollectorStructure root in
      let result := collectCheckMessages (add_check result structureCheck) structureCheck in
      let result :=
        if ck_Status structureCheck <>s "failed" then
          let componentCheck := validateComponentAvailability refs available in
          collectCheckMessages (add_check result componentCheck) componentCheck
        else appendSkippedDependents result "collector_structure"
               "Collector structure failed; component availability was not checked."
               ["component_availability"] in
      let versionCheck := validateVersionCompatibility (op_TargetVersion opts)
        (op_TargetVersionSource opts) (op_MinimumVersion opts) in
      collectCheckMessages (add_check result versionCheck) versionCheck
  end.

(* src/internal/validator/validator.go:628-635 anySkipped *)
Definition anySkipped (checks : list Check_) : bool := existsb (fun c => ck_Status c =s "skipped") checks.

(* src/internal/validator/validator.go:637-645 validationSummary *)
Definition validationSummary (status : string) (errors : list Error) (warnings : list Message) : string :=
  if status =s "failed"
  then "Configuration failed " +:+ Itoa (length errors) +:+ " blocking validation error(s)."
  else if status =s "warning"
  then "Configuration passed blocking validation with " +:+ Itoa (length warnings) +:+
       " warning(s) or skipped check(s)."
  else "Configuration passed all validation checks.".

(* src/internal/validator/validator.go:613-626 finalize *)
Definition finalize (r : Result) : Result :=
  let '(valid, status) :=
    match rs_Errors r with
    | _ :: _ => (false, "failed")
    | [] =>
        if negb (Nat.eqb (length (rs_Warnings r)) 0) || anySkipped (rs_Checks r)
        then (true, "warning") else (true, "passed")
    end in
  mkResult valid status (validationSummary status (rs_Errors r) (rs_Warnings r))
    (rs_TargetCollectorVersion r) (rs_ValidatedAt r) (rs_Errors r) (rs_Warnings r) (rs_Checks r).

(* src/internal/validator/validator.go:109-113 Validate *)
Definition Validate (now : Time) (yamlContent : string) (available : option AvailableComponents)
  : Result :=
  finalize (validateStatic now yamlContent available zero_options).

(** ** The runtime check *)

(* src/internal/validator/validator.go:539-543 commandOutput *)
Record commandOutput := mkOutput { co_stdout : string; co_stderr : string; co_exitCode : Z }.

(** How [runCommand] ends: its deadline (or its caller) cancelled it, or another
    error. *)
Inductive runError := Cancelled | Failed (err : string).

(* src/internal/validator/validator.go:575-578 versionInfo *)
Record versionInfo := mkVersionInfo { vi_Distribution : string; vi_Version : string }.

(** The outside world of [runRuntimeCheck]: [exec.LookPath], the two runs of the
    binary, the temporary file and the matcher of the version banner. *)
Record runtime := mkRuntime {
  rt_lookPath : string -> option string;
  rt_parseVersion : string -> versionInfo;
  rt_version : commandOutput * option runError;
  rt_createTemp : option string; rt_write : option string; rt_close : option string;
  rt_validate : commandOutput * option runError;
  rt_duration_ms : Z; rt_timeout_text : string
}.

(* src/internal/validator/validator.go:568-573 runtimeTimeout *)
Definition runtimeTimeout (timeout : Duration) : Duration :=
  if Z.ltb 0 timeout then timeout else defaultRuntimeTimeout.

(* src/internal/validator/validator.go:602-611 compactRuntimeFailure *)
Definition compactRuntimeFailure (out : commandOutput) (err : string) : string :=
  let parts := ["otelcol validate failed: " +:+ err] in
  let parts := if TrimSpace (co_stderr out) <>s ""
    then parts ++ ["stderr: " +:+ TrimSpace (co_stderr out)] else parts in
  let parts := if TrimSpace (co_stdout out) <>s ""
    then parts ++ ["stdout: " +:+ TrimSpace (co_stdout out)] else parts in
  Join "; " parts.

(** A temporary-file error: the status is computed before the message is added. *)
Definition unavailable (check : Check_) (what err : string) : Check_ :=
  add_message (with_status check (statusWithWarnings (ck_Messages check)))
    (msg "otelcol_runtime_unavailable" "warning"
       ("Unable to " +:+ what +:+ " temporary config for runtime validation: " +:+ err) "").

Definition newline : string := bytes [10]%N.

(* src/internal/validator/validator.go:442-537 runRuntimeCheck *)
Definition runRuntimeCheck (env : runtime) (opts : RuntimeOptions) : Check_ :=
  let check := mkCheck "otelcol_runtime" "Collector runtime validation" "otelcol.binary" "" false []
                 {[ "command_mode" := MStr "otelcol validate --config" ]} in
  let check := if op_TargetVersion opts <>s ""
    then with_meta check "target_version" (MStr (op_TargetVersion opts)) else check in
  if negb (op_Enabled opts) then
    with_messages (with_status check "skipped") [msg "otelcol_runtime_disabled" "info"
      "Runtime validation is disabled by local server configuration." ""]
  else
    let binaryPath := if op_BinaryPath opts =s "" then "otelcol" else op_BinaryPath opts in
    match rt_lookPath env binaryPath with
    | None =>
        with_messages (with_status check "skipped") [msg "otelcol_not_found" "warning"
          ("otelcol binary " +:+ Quote binaryPath +:+ " was not found on the server.") ""]
    | Some resolvedPath =>
        let check := with_meta check "binary_path" (MStr resolvedPath) in
        let '(versionOutput, versionErr) := rt_version env in
        let vi := rt_parseVersion env (co_stdout versionOutput +:+ newline +:+ co_stderr versionOutput) in
        let check := if vi_Version vi <>s ""
          then with_meta check "binary_version" (MStr (vi_Version vi)) else check in
        let check := if vi_Distribution vi <>s ""
          then with_meta check "binary_distribution" (MStr (vi_Distribution vi)) else check in
        let check := if match versionErr with Some _ => true | None => false end || (vi_Version vi =s "")
          then add_message check (msg "otelcol_version_unknown" "warning"
            "Unable to determine local otelcol version; runtime validation proof is limited." "")
          else check in
        let check := if (op_MinimumVersion opts <>s "") && (vi_Version vi <>s "") &&
            match compareVersions (vi_Version vi) (op_MinimumVersion opts) with Lt => true | _ => false end
          then add_message check (msg "otelcol_too_old" "warning"
            ("Runtime validation used otelcol " +:+ vi_Version vi +:+ ", below configured minimum " +:+
             op_MinimumVersion opts +:+ ".") "")
          else check in
        let check := if (op_TargetVersion opts <>s "") && (vi_Version vi <>s "") &&
            match compareVersions (vi_Version vi) (op_TargetVersion opts) with Eq => false | _ => true end
          then add_message check (msg "otelcol_version_mismatch" "warning"
            ("Runtime validation used otelcol " +:+ vi_Version vi +:+ " while target version is " +:+
             op_TargetVersion opts +:+ ".") "")
          else check in
        match rt_createTemp env with Some err => unavailable check "create" err | None =>
        match rt_write env with Some err => unavailable check "write" err | None =>
        match rt_close env with Some err => unavailable check "close" err | None =>
        let '(out, err) := rt_validate env in
        let check := with_meta check "duration_ms" (MInt (rt_duration_ms env)) in
        let check := with_meta check "exit_code" (MInt (co_exitCode out)) in
        let check := if TrimSpace (co_stdout out) <>s ""
          then with_meta check "stdout" (MStr (TrimSpace (co_stdout out))) else check in
        let check := if TrimSpace (co_stderr out) <>s ""
          then with_meta check "stderr" (MStr (TrimSpace (co_stderr out))) else check in
        match err with
        | None =>
            let check := add_message check
              (msg "otelcol_validation_passed" "info" "otelcol runtime validation passed." "") in
            with_status check (statusWithWarnings (ck_Messages check))
        | Some Cancelled =>
            add_message (with_status check "warning") (msg "otelcol_runtime_timeout" "warning"
              ("otelcol runtime validation did not finish within " +:+ rt_timeout_text env +:+ ".") "")
        | Some (Failed e) =>
            add_message (with_status check "failed") (msg "otelcol_validation_failed" "error"
              (compactRuntimeFailure out e) "")
        end end end end
    end.

(* src/internal/validator/validator.go:433-440 firstFailedRequiredCheck *)
Fixpoint firstFailedRequiredCheck (checks : list Check_) : string :=
  match checks with
  | [] => "static_validation"
  | c :: rest => if ck_Required c && (ck_Status c =s "failed") then ck_ID c
                 else firstFailedRequiredCheck rest
  end.

(* src/internal/validator/validator.go:413-431 ValidateWithRuntime *)
Definition ValidateWithRuntime (env : runtime) (now : Time) (yamlContent : string)
  (available : option AvailableComponents) (opts : RuntimeOptions) : Result :=
  let result := validateStatic now yamlContent available opts in
  match rs_Errors result with
  | _ :: _ =>
      let check := with_status (baseCheck "otelcol_runtime") "skipped" in
      let check := set_meta check
        {[ "depends_on_failed_check" := MStr (firstFailedRequiredCheck (rs_Checks result)) ]} in
      let check := with_messages check [mkMessage "depends_on_failed_check" "info"
        "Runtime validation skipped because a required validation check failed." "" (ck_ID check)] in
      finalize (add_check result check)
  | [] =>
      let check := runRuntimeCheck env opts in
      finalize (collectCheckMessages (add_check result check) check)
  end.

(** ** Configuration from the environment *)

Context {unicode : UnicodeTables}.

(* src/internal/validator/validator.go:647-654 truthy *)
Definition truthy (s : string) : bool :=
  existsb (String.eqb (ToLower (TrimSpace s))) ["1"; "true"; "yes"; "y"; "on"; "enabled"].

(** The product of an [int] count by [time.Second] wraps. *)
(* src/internal/validator/validator.go:656-665 secondsDuration *)
Definition secondsDuration (s : string) (fallback : Duration) : Duration :=
  if TrimSpace s =s "" then fallback
  else let '(n, ok) := Atoi (TrimSpace s) in
       if negb ok || Z.leb n 0 then fallback else wrap64 (n * Second).

(* src/internal/validator/validator.go:400-407 RuntimeOptionsFromEnv *)
Definition RuntimeOptionsFromEnv (Getenv : string -> string) : RuntimeOptions :=
  mkOptions (truthy (Getenv "OTELCOL_RUNTIME_VALIDATION_ENABLED")) (Getenv "OTELCOL_BINARY_PATH")
    (secondsDuration (Getenv "OTELCOL_RUNTIME_VALIDATION_TIMEOUT_SECONDS") defaultRuntimeTimeout)
    "" "" (Getenv "OTELCOL_MIN_RUNTIME_VERSION").

End Validate.

(** ** What a valid configuration is *)

Definition section_names : list string := ["receivers"; "processors"; "exporters"].

Definition pipeline_ok (root : gmap string yaml) (raw : yaml) : Prop :=
  exists p, raw = YMap p /\ is_Some (p !! "receivers") /\ is_Some (p !! "exporters") /\
    forall section id, section ∈ section_names -> id ∈ toStringSlice (p !! section) ->
      id ∈ extractDefined root section.

Definition service_of (root service pipelines : gmap string yaml) : Prop :=
  root !! "service" = Some (YMap service) /\ service !! "pipelines" = Some (YMap pipelines).

Definition well_formed (root : gmap string yaml) : Prop :=
  exists service pipelines, service_of root service pipelines /\ pipelines <> ∅ /\
    map_Forall (fun _ raw => pipeline_ok root raw) pipelines /\
    forall id, id ∈ toStringSlice (service !! "extensions") -> id ∈ extractDefined root "extensions".

(** The configuration uses component [id] of [category]. *)
Definition references (root : gmap string yaml) (category id : string) : Prop :=
  exists service pipelines, service_of root service pipelines /\
    ((exists name p, pipelines !! name = Some (YMap p) /\ category ∈ section_names /\
        id ∈ toStringSlice (p !! category)) \/
     (category = "extensions" /\ id ∈ toStringSlice (service !! "extensions"))).

Definition installed_ok (root : gmap string yaml) (available : option AvailableComponents) : Prop :=
  forall a category id installed, available = Some a -> references root category id ->
    ac_Components a !! category = Some installed -> componentType id ∈ installed.

(** ** Proofs *)

Definition is_error (m : Message) : bool := ms_Severity m =s "error".

Lemma collect_errors r c :
  rs_Errors (collectCheckMessages r c) = [] <->
  rs_Errors r = [] /\ forall m, m ∈ ck_Messages c -> is_error m = false.
Proof.
  unfold collectCheckMessages. generalize (ck_ID c) as id. intros id.
  generalize (ck_Messages c) as l. intros l. revert r.
  induction l as [|m l IH]; intros r; simpl.
  - split; [|naive_solver]. intros H. split; [done|]. intros m Hm. by apply not_elem_of_nil in Hm.
  - rewrite IH. setoid_rewrite elem_of_cons. unfold is_error.
    destruct (ms_Severity m =s "error") eqn:E1.
    + simpl. split.
      * intros [H _]. by apply app_eq_nil in H as [_ ?].
      * intros [_ H]. specialize (H m (or_introl eq_refl)). congruence.
    + destruct (ms_Severity m =s "warning"); simpl; naive_solver.
Qed.

Lemma skipped_errors r d m ids : rs_Errors (appendSkippedDependents r d m ids) = rs_Errors r.
Proof. unfold appendSkippedDependents. revert r. induction ids as [|i ids IH]; intros r; simpl; [done|]. by rewrite IH. Qed.

Lemma status_errors ms :
  (forall m, m ∈ ms -> is_error m = true) ->
  statusWithWarnings ms = if decide (ms = []) then "passed" else "failed".
Proof.
  destruct ms as [|m ms]; simpl; [done|]. intros H. specialize (H m (list_elem_of_here _ _)).
  unfold is_error in H. by rewrite H.
Qed.

Lemma imap_pair_elem {A} (l : list A) i x : (i, x) ∈ imap pair l <-> l !! i = Some x.
Proof.
  rewrite list_elem_of_lookup. setoid_rewrite list_lookup_imap_Some. split.
  - intros (j & y & Hj & [= -> ->]). done.
  - intros H. exists i, x. done.
Qed.

Lemma check_refs_messages defined cat path text ids m :
  m ∈ (check_refs defined cat path text ids).1 -> is_error m = true.
Proof.
  simpl. rewrite list_elem_of_omap. intros ([i id] & _ & Hm). by case_match; simplify_eq.
Qed.

Lemma check_refs_ok defined cat path text ids :
  (check_refs defined cat path text ids).1 = [] <->
  forall id, id ∈ ids -> id ∈ default ∅ (defined !! cat).
Proof.
  simpl. split.
  - intros Hnil id Hid. apply list_elem_of_lookup in Hid as [i Hi].
    destruct (defined_in defined cat id) eqn:E; [by apply bool_decide_eq_true in E|].
    exfalso. eapply not_elem_of_nil. rewrite <-Hnil. apply list_elem_of_omap.
    exists (i, id). split; [by apply imap_pair_elem|]. by rewrite E.
  - intros Hall. destruct (omap _ _) as [|m l] eqn:E; [done|].
    assert (m ∈ m :: l) as Hm by apply list_elem_of_here. rewrite <-E in Hm.
    apply list_elem_of_omap in Hm as ([i id] & Hi & Hm). apply imap_pair_elem in Hi.
    unfold defined_in in Hm. rewrite bool_decide_true in Hm; [done|].
    apply Hall. by eapply list_elem_of_lookup_2.
Qed.

Lemma check_refs_refs defined cat path text ids c id :
  (exists pth, mkRef c id pth ∈ (check_refs defined cat path text ids).2) <->
  c = cat /\ id ∈ ids /\ id ∈ default ∅ (defined !! cat).
Proof.
  simpl. setoid_rewrite list_elem_of_omap. split.
  - intros (pth & [i x] & Hi & Hm). apply imap_pair_elem in Hi.
    destruct (defined_in defined cat x) eqn:E; simplify_eq. apply bool_decide_eq_true in E.
    split_and!; [done|by eapply list_elem_of_lookup_2|done].
  - intros (-> & Hid & Hd). apply list_elem_of_lookup in Hid as [i Hi]. exists (path i), (i, id).
    split; [by apply imap_pair_elem|]. unfold defined_in. by rewrite bool_decide_true.
Qed.

Lemma join_nil {A} (l : list (list A)) : mjoin l = [] <-> forall x, x ∈ l -> x = [].
Proof.
  split.
  - intros H x Hx. destruct x as [|a x]; [done|]. exfalso. apply (not_elem_of_nil a).
    rewrite <-H. apply list_elem_of_join. exists (a :: x). split; [apply list_elem_of_here|done].
  - intros H. destruct (mjoin l) as [|a k] eqn:E; [done|].
    assert (a ∈ mjoin l) as Ha by (rewrite E; apply list_elem_of_here).
    apply list_elem_of_join in Ha as (x & Hax & Hx). apply H in Hx. subst.
    by apply not_elem_of_nil in Hax.
Qed.

Lemma defined_sections_lookup root s :
  s ∈ ["receivers"; "processors"; "exporters"; "connectors"; "extensions"] ->
  default ∅ (defined_sections root !! s) = extractDefined root s.
Proof.
  intros Hs. unfold defined_sections. simpl.
  repeat (apply elem_of_cons in Hs as [->|Hs]; [by simplify_map_eq|]). by apply not_elem_of_nil in Hs.
Qed.

Lemma section_defined root s :
  s ∈ section_names -> default ∅ (defined_sections root !! s) = extractDefined root s.
Proof. intros Hs. apply defined_sections_lookup. unfold section_names in Hs. set_solver. Qed.

Lemma pipelineSections_diag s c : (s, c) ∈ pipelineSections <-> c = s /\ s ∈ section_names.
Proof. unfold pipelineSections, section_names. set_solver. Qed.

(** The sections of a pipeline, with what [check_refs] says of each. *)
Definition section_results (root : gmap string yaml) (name : string) (p : gmap string yaml) :=
  map (fun '(section, category) =>
    check_refs (defined_sections root) category (section_path name section)
      (undefined_text name section category) (toStringSlice (p !! section))) pipelineSections.

Lemma check_pipeline_messages defined name raw m :
  m ∈ (check_pipeline defined name raw).1 -> is_error m = true.
Proof.
  destruct raw; cbn [check_pipeline fst]; try (by intros ->%list_elem_of_singleton).
  rewrite elem_of_app. intros [Hm|Hm].
  - apply list_elem_of_omap in Hm as (r & _ & Hm). by case_match; simplify_eq.
  - apply list_elem_of_join in Hm as (l & Hm & Hl). apply list_elem_of_fmap in Hl as (x & -> & Hx).
    apply list_elem_of_fmap in Hx as ([s c] & -> & _). by eapply check_refs_messages.
Qed.

Lemma check_pipeline_ok root name raw :
  (check_pipeline (defined_sections root) name raw).1 = [] <-> pipeline_ok root raw.
Proof.
  unfold pipeline_ok. destruct raw as [|?|p|]; cbn [check_pipeline fst];
    try (split; [done|intros (? & ? & _); done]).
  fold (section_results root name p). rewrite app_nil, join_nil. split.
  - intros [Hmiss Hsec]. exists p. split; [done|].
    assert (forall r, r ∈ ["receivers"; "exporters"] -> is_Some (p !! r)) as Hreq.
    { intros r Hr. destruct (p !! r) eqn:E; [eauto|]. exfalso. eapply not_elem_of_nil.
      rewrite <-Hmiss. apply list_elem_of_omap. exists r. split; [done|]. by rewrite E. }
    split; [apply Hreq; by left|]. split; [apply Hreq; right; by left|].
    intros s id Hs Hid. rewrite <-section_defined by done.
    eapply (check_refs_ok _ _ (section_path name s) (undefined_text name s s)); [|exact Hid].
    apply Hsec. apply list_elem_of_fmap. eexists. split; [done|]. unfold section_results.
    apply list_elem_of_fmap. exists (s, s). split; [done|]. by apply pipelineSections_diag.
  - intros (q & [= <-] & Hr & He & Hall). split.
    + destruct Hr as [? Hr], He as [? He]. simpl. by rewrite Hr, He.
    + intros x Hx. apply list_elem_of_fmap in Hx as (y & -> & Hy).
      apply list_elem_of_fmap in Hy as ([s c] & -> & Hsc). apply pipelineSections_diag in Hsc as [-> Hs].
      apply check_refs_ok. intros id Hid. rewrite section_defined by done. auto.
Qed.

Lemma check_pipeline_refs root name p cat id :
  pipeline_ok root (YMap p) ->
  (exists pth, mkRef cat id pth ∈ (check_pipeline (defined_sections root) name (YMap p)).2) <->
  cat ∈ section_names /\ id ∈ toStringSlice (p !! cat).
Proof.
  intros (q & [= <-] & _ & _ & Hall). cbn [check_pipeline snd]. fold (section_results root name p).
  setoid_rewrite list_elem_of_join. split.
  - intros (pth & l & Hr & Hl). apply list_elem_of_fmap in Hl as (y & -> & Hy).
    apply list_elem_of_fmap in Hy as ([s c] & -> & Hsc). apply pipelineSections_diag in Hsc as [-> Hs].
    destruct (proj1 (check_refs_refs (defined_sections root) s (section_path name s)
      (undefined_text name s s) (toStringSlice (p !! s)) cat id)) as (-> & ? & _); eauto.
  - intros [Hc Hid].
    destruct (proj2 (check_refs_refs (defined_sections root) cat (section_path name cat)
      (undefined_text name cat cat) (toStringSlice (p !! cat)) cat id)) as (pth & Hr).
    { split_and!; [done..|]. rewrite section_defined by done. auto. }
    exists pth. eexists. split; [exact Hr|]. apply list_elem_of_fmap. eexists. split; [done|].
    apply list_elem_of_fmap. exists (cat, cat). split; [done|]. by apply pipelineSections_diag.
Qed.

(** What the structure check decides. *)
Record structure_spec (root : gmap string yaml) (c : Check_) (refs : list componentRef) : Prop := {
  st_ok : (forall m, m ∈ ck_Messages c -> is_error m = false) <-> well_formed root;
  st_failed : ck_Status c = "failed" <-> ~ (forall m, m ∈ ck_Messages c -> is_error m = false);
  st_refs cat id : well_formed root ->
    (exists pth, mkRef cat id pth ∈ refs) <-> references root cat id
}.

Lemma structure_failed root c m :
  ~ well_formed root -> is_error m = true ->
  structure_spec root (with_status (add_message c m) "failed") [].
Proof.
  intros Hw Hm. split; simpl.
  - split; [|done]. intros H. assert (is_error m = false) by (apply H; set_solver). congruence.
  - split; [|done]. intros _ H. assert (is_error m = false) by (apply H; set_solver). congruence.
  - done.
Qed.

Lemma service_of_unique root s1 p1 s2 p2 :
  service_of root s1 p1 -> service_of root s2 p2 -> s1 = s2 /\ p1 = p2.
Proof. intros [H1 H2] [H3 H4]. assert (s1 = s2) as -> by congruence. split; congruence. Qed.

(** The messages and references gathered on a non-empty pipelines section. *)
Definition per_pipeline (root pipelines : gmap string yaml) :=
  map (fun name => check_pipeline (defined_sections root) name (default YOther (pipelines !! name)))
    (sorted_keys pipelines).
Definition ext_refs (root service : gmap string yaml) :=
  check_refs (defined_sections root) "extensions" (fun i => "service.extensions[" +:+ Itoa i +:+ "]")
    (fun id => "service.extensions references " +:+ Quote id +:+
       " which is not defined under top-level 'extensions'")
    (toStringSlice (service !! "extensions")).

Lemma gathered_errors root service pipelines m :
  m ∈ mjoin (map fst (per_pipeline root pipelines)) ++ fst (ext_refs root service) -> is_error m = true.
Proof.
  rewrite elem_of_app. intros [Hm|Hm]; [|by eapply check_refs_messages].
  apply list_elem_of_join in Hm as (l & Hm & Hl). apply list_elem_of_fmap in Hl as (x & -> & Hx).
  apply list_elem_of_fmap in Hx as (name & -> & _). by eapply check_pipeline_messages.
Qed.

Lemma extensions_defined root :
  default ∅ (defined_sections root !! "extensions") = extractDefined root "extensions".
Proof. apply defined_sections_lookup. set_solver. Qed.

Lemma gathered_ok root service pipelines :
  service_of root service pipelines -> pipelines <> ∅ ->
  mjoin (map fst (per_pipeline root pipelines)) ++ fst (ext_refs root service) = [] <-> well_formed root.
Proof.
  intros Hsv Hne. rewrite app_nil, join_nil. unfold ext_refs. rewrite check_refs_ok, extensions_defined.
  split.
  - intros [Hp He]. exists service, pipelines. split_and!; try done. intros name raw Hraw.
    apply (check_pipeline_ok root name). apply Hp, list_elem_of_fmap. eexists. split; [done|].
    apply list_elem_of_fmap. exists name. rewrite Hraw. split; [done|]. apply elem_of_sorted_keys. eauto.
  - intros (sv & pl & Hsv' & _ & Hall & He).
    destruct (service_of_unique _ _ _ _ _ Hsv Hsv') as [<- <-]. split; [|done].
    intros l Hl. apply list_elem_of_fmap in Hl as (x & -> & Hx).
    apply list_elem_of_fmap in Hx as (name & -> & Hn). apply elem_of_sorted_keys in Hn as [raw Hraw].
    rewrite Hraw. apply check_pipeline_ok. by eapply Hall.
Qed.

Lemma gathered_refs root service pipelines cat id :
  service_of root service pipelines -> well_formed root ->
  (exists pth, mkRef cat id pth ∈ mjoin (map snd (per_pipeline root pipelines)) ++ snd (ext_refs root service))
  <-> references root cat id.
Proof.
  intros Hsv (sv & pl & Hsv' & _ & Hall & He).
  destruct (service_of_unique _ _ _ _ _ Hsv Hsv') as [<- <-]. setoid_rewrite elem_of_app.
  pose proof (check_refs_refs (defined_sections root) "extensions"
    (fun i => "service.extensions[" +:+ Itoa i +:+ "]")
    (fun id => "service.extensions references " +:+ Quote id +:+
       " which is not defined under top-level 'extensions'")
    (toStringSlice (service !! "extensions")) cat id) as Hext.
  rewrite extensions_defined in Hext. fold (ext_refs root service) in Hext. split.
  - intros (pth & [Hr|Hr]).
    + apply list_elem_of_join in Hr as (l & Hr & Hl). apply list_elem_of_fmap in Hl as (x & -> & Hx).
      apply list_elem_of_fmap in Hx as (name & -> & Hn). apply elem_of_sorted_keys in Hn as [raw Hraw].
      rewrite Hraw in Hr. simpl default in Hr. pose proof (Hall _ _ Hraw) as Hok.
      pose proof Hok as (p & -> & _).
      destruct (proj1 (check_pipeline_refs root name p cat id Hok)) as [Hc Hid]; [eauto|].
      exists service, pipelines. split; [done|]. left. eauto.
    + destruct (proj1 Hext) as (-> & Hid & _); [eauto|].
      exists service, pipelines. split; [done|]. by right.
  - intros (sv & pl & Hsv'' & Hcase). destruct (service_of_unique _ _ _ _ _ Hsv Hsv'') as [<- <-].
    destruct Hcase as [(name & p & Hp & Hc & Hid)|[-> Hid]].
    + pose proof (Hall _ _ Hp) as Hok.
      destruct (proj2 (check_pipeline_refs root name p cat id Hok)) as [pth Hr]; [done|].
      exists pth. left. apply list_elem_of_join. eexists. split; [exact Hr|].
      apply list_elem_of_fmap. eexists. split; [done|]. apply list_elem_of_fmap. exists name.
      rewrite Hp. split; [done|]. apply elem_of_sorted_keys. eauto.
    + destruct (proj2 Hext) as [pth Hr]; [split_and!; auto|]. exists pth. by right.
Qed.

Lemma structure_correct root :
  let '(c, refs, _) := validateCollectorStructure root in structure_spec root c refs.
Proof.
  unfold validateCollectorStructure.
  assert (forall s, root !! "service" = Some s -> (forall m, s <> YMap m) -> ~ well_formed root) as Hns.
  { intros s Hs Hm (sv & pl & [H _] & _). rewrite Hs in H. simplify_eq. by eapply Hm. }
  destruct (root !! "service") as [[| |service|]|] eqn:Hs;
    try (apply structure_failed; [by eapply Hns|done]).
  2: { apply structure_failed; [|done]. intros (sv & pl & [H _] & _). congruence. }
  destruct (service !! "pipelines") as [[| |pipelines|]|] eqn:Hp;
    try (apply structure_failed; [|done]; intros (sv & pl & [H1 H2] & _); congruence).
  case_decide as Hne.
  { apply structure_failed; [|done]. intros (sv & pl & [H1 H2] & ? & _). congruence. }
  fold (per_pipeline root pipelines). fold (ext_refs root service).
  assert (service_of root service pipelines) as Hsv by done.
  pose proof (gathered_errors root service pipelines) as Herr.
  pose proof (gathered_ok root service pipelines Hsv Hne) as Hok.
  pose proof (fun cat id => gathered_refs root service pipelines cat id Hsv) as Hrefs.
  set (ms := mjoin (map fst (per_pipeline root pipelines)) ++ fst (ext_refs root service)) in *.
  pose proof (status_errors ms Herr) as Hst. cbn [with_status ck_Status with_messages ck_Messages].
  rewrite Hst. case_decide as Hnil.
  - rewrite Hnil in Hok. split; simpl.
    + rewrite <-Hok. split; [done|]. by intros _ m ->%list_elem_of_singleton.
    + split; [done|]. intros H. destruct H. by intros m ->%list_elem_of_singleton.
    + intros cat id Hw. by apply Hrefs.
  - split; simpl.
    + rewrite <-Hok. split; [|by intros ->]. intros H. destruct ms as [|m l]; [done|].
      specialize (H m (list_elem_of_here _ _)).
      rewrite Herr in H; [done|apply list_elem_of_here].
    + split; [|done]. intros _ H. destruct ms as [|m l]; [done|].
      specialize (H m (list_elem_of_here _ _)). rewrite Herr in H; [done|apply list_elem_of_here].
    + intros cat id Hw. by apply Hrefs.
Qed.

(** The availability loop reports exactly the missing component types. *)
Lemma available_fold components refs ms warned :
  (forall m, m ∈ (foldl (check_available components) (ms, warned) refs).1 -> is_error m = false) <->
  (forall m, m ∈ ms -> is_error m = false) /\
  forall r installed, r ∈ refs -> components !! cr_Category r = Some installed ->
    componentType (cr_ID r) ∈ installed.
Proof.
  revert ms warned. induction refs as [|r refs IH]; intros ms warned; cbn [foldl].
  - simpl. split; [|naive_solver]. intros H. split; [done|]. intros r i Hr. by apply not_elem_of_nil in Hr.
  - setoid_rewrite elem_of_cons. unfold check_available at 2.
    destruct (components !! cr_Category r) as [inst|] eqn:Hc.
    + destruct (existsb (String.eqb (componentType (cr_ID r))) inst) eqn:He; rewrite IH.
      * apply existsb_eqb_elem in He. split; [|naive_solver]. intros [H1 H2]. split; [done|].
        intros q i [->|Hq]; [intros ?; simplify_eq; done|eauto].
      * split.
        -- intros [H1 _]. exfalso. specialize (H1 _ (proj2 (elem_of_app _ _ _) (or_intror (list_elem_of_here _ _)))).
           done.
        -- intros [_ H2]. exfalso. specialize (H2 r inst (or_introl eq_refl) Hc).
           apply existsb_eqb_elem in H2. congruence.
    + case_decide; rewrite IH.
      * naive_solver congruence.
      * setoid_rewrite elem_of_app. setoid_rewrite list_elem_of_singleton. split.
        -- intros [H1 H2]. split; [naive_solver|]. intros q i [->|Hq]; [congruence|eauto].
        -- intros [H1 H2]. split; [|naive_solver]. intros m [Hm| ->]; [auto|done].
Qed.

Lemma availability_ok refs available :
  (forall m, m ∈ ck_Messages (validateComponentAvailability refs available) -> is_error m = false) <->
  forall a r installed, available = Some a -> r ∈ refs ->
    ac_Components a !! cr_Category r = Some installed -> componentType (cr_ID r) ∈ installed.
Proof.
  unfold validateComponentAvailability. destruct available as [a|].
  - case_decide as He.
    + split.
      * intros _ a' r inst [= <-] _ Hl. by rewrite He, lookup_empty in Hl.
      * by intros _ m ->%list_elem_of_singleton.
    + pose proof (available_fold (ac_Components a) refs [] ∅) as Hf.
      destruct (foldl (check_available (ac_Components a)) ([], ∅) refs) as [ms w]. simpl in Hf.
      assert ((forall m, m ∈ ms -> is_error m = false) <->
        forall r installed, r ∈ refs -> ac_Components a !! cr_Category r = Some installed ->
          componentType (cr_ID r) ∈ installed) as Hms.
      { rewrite Hf. split; [by intros [_ ?]|]. intros H. split; [|done]. intros m Hm.
        by apply not_elem_of_nil in Hm. }
      cbn [with_status with_messages ck_Status]. destruct (statusWithWarnings ms =s "passed") eqn:Ep; simpl.
      * split; [|by intros _ m ->%list_elem_of_singleton]. intros _ a' r inst [= <-]. apply Hms.
        clear -Ep. induction ms as [|m ms IH]; [by intros m ?%not_elem_of_nil|].
        simpl in Ep. unfold is_error in *. intros m' [->|Hm']%elem_of_cons;
          destruct (ms_Severity m =s "error"), (ms_Severity m =s "warning"); try done. auto.
      * rewrite Hms. naive_solver.
  - split; [done|]. by intros _ m ->%list_elem_of_singleton.
Qed.

Lemma version_check_ok target source :
  forall m, m ∈ ck_Messages (validateVersionCompatibility target source "") -> is_error m = false.
Proof.
  unfold validateVersionCompatibility. intros m.
  assert ((TrimSpace "" <>s "") = false) as -> by reflexivity. cbv iota.
  destruct (TrimSpace target =s ""); simpl; by intros ->%list_elem_of_singleton.
Qed.

Section ValidateProofs.
Context {yamllib : YamlLib}.

(** No blocking error, as a property of the configuration. *)
Lemma static_errors now y available opts :
  TrimSpace (op_MinimumVersion opts) = "" ->
  rs_Errors (validateStatic now y available opts) = [] <->
  exists root, yaml_unmarshal y = Ok (Some root) /\ well_formed root /\ installed_ok root available.
Proof.
  intros Hmin. unfold validateStatic.
  destruct (yaml_unmarshal y) as [[root|]|err] eqn:Ey.
  2,3: rewrite skipped_errors; simpl; split; [done|]; intros (? & ? & _); congruence.
  pose proof (structure_correct root) as Hst.
  destruct (validateCollectorStructure root) as [[c refs] def]. destruct Hst as [Hok Hfail Hrefs].
  assert (forall m, m ∈ ck_Messages (validateVersionCompatibility (op_TargetVersion opts)
    (op_TargetVersionSource opts) (op_MinimumVersion opts)) -> is_error m = false) as Hver.
  { pose proof (version_check_ok (op_TargetVersion opts) (op_TargetVersionSource opts)) as H.
    unfold validateVersionCompatibility in *. rewrite Hmin. exact H. }
  rewrite collect_errors. cbn [add_check rs_Errors].
  destruct (ck_Status c =s "failed") eqn:Es; simpl negb; cbv iota.
  - apply String.eqb_eq in Es. apply Hfail in Es. rewrite skipped_errors, collect_errors. split.
    + intros [[_ H] _]. done.
    + intros (root' & [= <-] & Hw & _). exfalso. apply Es. by apply Hok.
  - rewrite !collect_errors. cbn [add_check rs_Errors]. rewrite collect_errors, Hok, availability_ok.
    split.
    + intros [[[_ Hw] Ha] _]. exists root. split_and!; try done.
      intros a cat id inst -> Hr Hc. apply (Hrefs cat id Hw) in Hr as [pth Hr].
      by apply (Ha a (mkRef cat id pth) inst).
    + intros (root' & [= <-] & Hw & Hi). split_and!; try done.
      intros a [cat id pth] inst Ha Hr Hc. simpl in *. eapply Hi; eauto. apply Hrefs; eauto.
Qed.

Lemma finalize_valid r : rs_Valid (finalize r) = true <-> rs_Errors r = [].
Proof. unfold finalize. destruct (rs_Errors r); [by case_if|done]. Qed.


(** The verdict is consistent: a result is valid exactly when it lists no
    error, its overall status is then warning exactly when it lists a warning or
    skipped a check, and passed only when it lists neither errors nor warnings. *)
Theorem verdict_consistent r :
  let f := finalize r in
  (rs_Valid f = true <-> rs_Errors f = []) /\
  (rs_OverallStatus f = "failed" <-> rs_Errors f <> []) /\
  (rs_OverallStatus f = "warning" <->
     rs_Errors f = [] /\ (rs_Warnings f <> [] \/ exists c, c ∈ rs_Checks f /\ ck_Status c = "skipped")) /\
  (rs_OverallStatus f = "passed" -> rs_Errors f = [] /\ rs_Warnings f = []).
Proof.
  assert (anySkipped (rs_Checks r) = true <-> exists c, c ∈ rs_Checks r /\ ck_Status c = "skipped") as Hs.
  { unfold anySkipped. rewrite existsb_exists. setoid_rewrite list_elem_of_In.
    setoid_rewrite String.eqb_eq. done. }
  unfold finalize. destruct (rs_Errors r) as [|e es]; simpl.
  - destruct (rs_Warnings r) as [|m ms]; simpl.
    + destruct (anySkipped (rs_Checks r)); simpl; split_and!; try done; try naive_solver.
    + split_and!; try done; naive_solver.
  - split_and!; try done; naive_solver.
Qed.

(** The collector binary is never consulted for a configuration that failed
    static validation: the result then does not depend on the runtime and is
    invalid; otherwise a configuration is valid exactly when the runtime check
    reported no error. *)
Theorem runtime_only_after_static env env' now y available opts :
  let static := validateStatic now y available opts in
  (rs_Errors static <> [] ->
     ValidateWithRuntime env now y available opts = ValidateWithRuntime env' now y available opts /\
     rs_Valid (ValidateWithRuntime env now y available opts) = false) /\
  (rs_Errors static = [] ->
     rs_Valid (ValidateWithRuntime env now y available opts) = true <->
     forall m, m ∈ ck_Messages (runRuntimeCheck env opts) -> is_error m = false).
Proof.
  intros static. unfold ValidateWithRuntime. fold static. split.
  - destruct (rs_Errors static) as [|e es] eqn:E; [done|]. intros _. split; [done|].
    match goal with |- rs_Valid (finalize ?r) = _ => destruct (rs_Valid (finalize r)) eqn:Ev; [|done] end.
    apply finalize_valid in Ev. simpl in Ev. congruence.
  - intros E. rewrite E. rewrite finalize_valid, collect_errors. simpl. rewrite E. naive_solver.
Qed.

End ValidateProofs.

(** ** Witnesses and observations *)

(** A parser that knows one document. *)
Definition doc_root : gmap string yaml :=
  <["receivers" := YMap {[ "otlp" := YOther ]}]>
  (<["exporters" := YMap {[ "debug" := YOther ]}]>
  {[ "service" := YMap {[ "pipelines" := YMap {[ "traces" := YMap
       (<["receivers" := YList [YStr "otlp"]]> {[ "exporters" := YList [YStr "debug"] ]}) ]} ]} ]}).
Definition one_doc : YamlLib :=
  {| yaml_unmarshal := fun s => if s =s "doc" then Ok (Some doc_root) else Err "no such document" |}.

Example doc_is_valid : rs_Valid (@Validate one_doc 1 "doc" None) = true.
Proof. vm_compute. reflexivity. Qed.

Example other_doc_is_not : rs_Valid (@Validate one_doc 1 "?" None) = false.
Proof. vm_compute. reflexivity. Qed.

(** A check whose first message is a warning is reported as a warning even when
    it also holds blocking errors. *)
Example availability_status_hides_error :
  let refs := [mkRef "processors" "batch" "p"; mkRef "receivers" "otlp" "r"] in
  let available := Some (mkAvailableComponents {[ "receivers" := ["jaeger"] ]} "") in
  let check := validateComponentAvailability refs available in
  ck_Status check = "warning" /\ existsb is_error (ck_Messages check) = true.
Proof. vm_compute. done. Qed.

(** The index of a reported path counts the string entries only: the second
    element of this list is reported at index 0. *)
Example path_index_skips_non_strings :
  map ms_Path (check_pipeline (defined_sections doc_root) "traces"
    (YMap (<["receivers" := YList [YOther; YStr "ghost"]]> {[ "exporters" := YList [] ]}))).1 =
  ["service.pipelines.traces.receivers[0]"].
Proof. vm_compute. reflexivity. Qed.

End Validator.
