(* ===== verification/Alerts.v ===== *)
(** * The alert engine (internal/alerts/engine.go) and its tables

    One evaluation pass over the workload table: the rules [workload_down],
    [config_drift] and [version_outdated] open an alert when their condition
    holds and none is open, and resolve the open one when it no longer holds.
    The statements of internal/store it uses are modelled on the tables; each
    call may fail ([en_fault]), a failed write may have been executed. *)

From S2P Require Import Prelude GoString Models Version.

Module Alerts.

(** ** Tables *)

(** Deterministic collations order strings totally and equate no two different
    strings. *)
Class Collation := {
  coll : string -> string -> comparison;
  coll_total :: TotalCmp coll;
  coll_eq x y : coll x y = Eq -> x = y
}.

(** The row a query without [ORDER BY] and with [LIMIT 1] returns. *)
Class AnyRow := {
  pick {A} : list A -> option A;
  pick_None {A} (l : list A) : pick l = None -> l = [];
  pick_Some {A} (l : list A) x : pick l = Some x -> x ∈ l
}.

Global Instance byte_collation : Collation := {|
  coll := str_cmp; coll_eq x y := proj1 (str_cmp_eq x y) |}.

Global Program Instance first_row : AnyRow := {| pick _ l := head l |}.
Next Obligation. by intros A [|x l]. Qed.
Next Obligation. intros A [|y l] x; simpl; [done|]. intros [= ->]. by left. Qed.

(** The rows the engine reads and writes, by primary key. *)
Record db := mkDb {
  db_workloads : gmap string Workload; db_pushes : list WorkloadConfig;
  db_alerts : gmap string Alert
}.

(** The database calls of one pass; no two of them are equal. *)
Inductive call :=
| CListWorkloads
| CListWorkloadsPage (afterID : string)
| CGetAlert (workloadID rule : string)
| CGetPending (workloadID : string)
| CCreate (workloadID rule : string)
| CResolve (alertID : string).

(** What a pass draws from its surroundings: the outcome of each database call,
    the bytes of the [n]-th read of crypto/rand and the clock at each resolution. *)
Record env := mkEnv {
  en_fault : call -> io; en_rand : nat -> list N; en_clock : string -> Time
}.

Section Store.
Context `{Collation} `{AnyRow} (v : env).

(** A query: it answers or fails, and changes nothing. *)
Definition query {A} (c : call) (a : A) : result A :=
  match en_fault v c with IoOk => Ok a | IoFail _ => Err "query failed" end.

(** A statement: a failed one may have been executed. *)
Definition exec (c : call) (d d' : db) (ok : bool) : db * option string :=
  if negb ok then (d, Some "constraint violation")
  else match en_fault v c with
  | IoOk => (d', None)
  | IoFail executed => (if executed then d' else d, Some "exec failed")
  end.

Definition with_alerts (d : db) (a : gmap string Alert) : db :=
  mkDb (db_workloads d) (db_pushes d) a.

(** The primary key, the foreign key and the CHECK on the severity. *)
Definition alert_constraints (d : db) (a : Alert) : bool :=
  bool_decide (db_alerts d !! al_ID a = None) &&
  bool_decide (is_Some (db_workloads d !! al_WorkloadID a)) &&
  ((al_Severity a =s "warning") || (al_Severity a =s "critical")).

(* src/internal/store/alerts.go:12-19 CreateAlert *)
Definition CreateAlert (d : db) (a : Alert) : db * option string :=
  let row := mkAlert (al_ID a) (al_WorkloadID a) (al_Rule a) (al_Severity a) (al_Message a)
               (al_FiredAt a) None in
  exec (CCreate (al_WorkloadID a) (al_Rule a)) d
    (with_alerts d (<[al_ID a := row]> (db_alerts d))) (alert_constraints d a).

Definition resolve_row (t : Time) (a : Alert) : Alert :=
  mkAlert (al_ID a) (al_WorkloadID a) (al_Rule a) (al_Severity a) (al_Message a) (al_FiredAt a)
    (Some t).

(* src/internal/store/alerts.go:22-32 ResolveAlert *)
Definition ResolveAlert (d : db) (id : string) : db * option string :=
  let (d', err) := exec (CResolve id) d
    (with_alerts d (alter (resolve_row (en_clock v id)) id (db_alerts d))) true in
  match err with
  | Some e => (d', Some e)
  | None => (d', match db_alerts d !! id with None => Some "sql: no rows in result set" | Some _ => None end)
  end.

(** [WHERE workload_id = ? AND rule = ? AND resolved_at IS NULL]. *)
Definition is_open (workloadID rule : string) (a : Alert) : bool :=
  (al_WorkloadID a =s workloadID) && (al_Rule a =s rule) &&
  match al_ResolvedAt a with None => true | Some _ => false end.

Definition open_alerts (d : db) (workloadID rule : string) : list Alert :=
  (map_to_list (filter (fun kv => is_open workloadID rule kv.2 = true) (db_alerts d))).*2.

(* src/internal/store/alerts.go:61-75 GetUnresolvedAlertByWorkloadAndRule *)
Definition GetUnresolvedAlertByWorkloadAndRule (d : db) (workloadID rule : string)
  : result (option Alert) :=
  query (CGetAlert workloadID rule) (pick (open_alerts d workloadID rule)).

Definition in_flight : list string := ["pending"; "submitted"; "sent"; "applying"; "rollback_started"].

(** [ORDER BY wc.applied_at DESC LIMIT 1]: the latest; the database may return
    either of two rows of the same instant. *)
Definition latest_pending (d : db) (workloadID : string) : option WorkloadConfig :=
  min_by (by_key (fun wc => (- wc_AppliedAt wc)%Z) Z.compare)
    (List.filter (fun wc => (wc_WorkloadID wc =s workloadID) &&
                            existsb (String.eqb (wc_Status wc)) in_flight) (db_pushes d)).

(* src/internal/store/workload_configs.go:155-169 GetLatestPendingWorkloadConfig *)
Definition GetLatestPendingWorkloadConfig (d : db) (workloadID : string)
  : result (option WorkloadConfig) :=
  query (CGetPending workloadID) (latest_pending d workloadID).

Definition not_archived (w : Workload) : bool :=
  match wl_ArchivedAt w with None => true | Some _ => false end.

(** [SELECT ... FROM workloads [WHERE archived_at IS NULL]], in no order. *)
Definition select_workloads (d : db) (includeArchived : bool) : list Workload :=
  List.filter (fun w => includeArchived || not_archived w) (map_to_list (db_workloads d)).*2.

Definition order_by (key : Workload -> string) : list Workload -> list Workload :=
  sort_by (less_of (by_key key coll)).

(* src/internal/store/workloads.go:175-187 ListWorkloads *)
Definition ListWorkloads (d : db) (includeArchived : bool) : result (list Workload) :=
  query CListWorkloads (order_by wl_DisplayName (select_workloads d includeArchived)).

(** [id > ?], left out for the first page. *)
Definition after_cursor (afterID : string) (w : Workload) : bool :=
  if afterID =s "" then true
  else match coll (wl_ID w) afterID with Gt => true | _ => false end.

(* src/internal/store/workloads.go:191-215 ListWorkloadsPage *)
Definition ListWorkloadsPage (d : db) (includeArchived : bool) (afterID : string) (limit : Z)
  : result (list Workload) :=
  let limit := if Z.leb limit 0 then 100%Z else limit in
  query (CListWorkloadsPage afterID)
    (take (Z.to_nat limit)
       (List.filter (after_cursor afterID) (order_by wl_ID (select_workloads d includeArchived)))).

(** ** The engine *)

(** [hub] tells whether a broadcaster is configured; notifiers are numbered. *)
(* src/internal/alerts/engine.go:38-45 Engine *)
Record Engine := mkEngine {
  e_hub : bool; e_downTimeout : Duration; e_minVersion : string; e_notifiers : nat; e_pageSize : Z
}.

Definition defaultWorkloadPageSize : Z := 500.

(* src/internal/alerts/engine.go:48-57 New *)
Definition New (hub : bool) (downTimeout : Duration) (minVersion : string) (notifiers : nat) : Engine :=
  mkEngine hub downTimeout minVersion notifiers defaultWorkloadPageSize.

(** The store, the alerts broadcast, the alerts handed to each notifier and the
    number of random identifiers drawn. *)
Record state := mkState {
  st_db : db; st_broadcast : list Alert; st_sent : list (nat * Alert); st_drawn : nat
}.

Definition set_db (s : state) (d : db) : state :=
  mkState d (st_broadcast s) (st_sent s) (st_drawn s).

(** How a pass ends: it returns, or a slice expression panics. *)
Inductive outcome :=
| Done (s : state)
| Panicked
| OutOfFuel.

Definition obind (o : outcome) (f : state -> outcome) : outcome :=
  match o with Done s => f s | _ => o end.

(* src/internal/alerts/engine.go:245-251 generateID *)
Definition generateID (s : state) : state * string :=
  (mkState (st_db s) (st_broadcast s) (st_sent s) (S (st_drawn s)), hex_encode (en_rand v (st_drawn s))).

(** The body the three rules share: create the alert, then broadcast it and hand
    it to every notifier; nothing is announced when the insertion fails. *)
Definition fire (e : Engine) (s : state) (w : Workload) (rule severity message : string) (now : Time)
  : state :=
  let '(s, id) := generateID s in
  let alert := mkAlert id (wl_ID w) rule severity message now None in
  match CreateAlert (st_db s) alert with
  | (d, Some _) => set_db s d
  | (d, None) =>
      mkState d (st_broadcast s ++ (if e_hub e then [alert] else []))
        (st_sent s ++ map (fun n => (n, alert)) (seq 0 (e_notifiers e))) (st_drawn s)
  end.

(** Opens or resolves the alert of a rule whose condition is [cond]. *)
Definition settle (e : Engine) (s : state) (w : Workload) (rule severity message : string)
  (now : Time) (cond : bool) (existing : option Alert) : state :=
  match cond, existing with
  | true, None => fire e s w rule severity message now
  | false, Some a => set_db s (ResolveAlert (st_db s) (al_ID a)).1
  | _, _ => s
  end.

Definition isDown (e : Engine) (w : Workload) (now : Time) : bool :=
  Z.ltb (e_downTimeout e) (Sub now (wl_LastSeenAt w)).

(* src/internal/alerts/engine.go:125-160 evaluateWorkloadDown *)
Definition evaluateWorkloadDown (e : Engine) (w : Workload) (now : Time) (s : state) : state :=
  match GetUnresolvedAlertByWorkloadAndRule (st_db s) (wl_ID w) "workload_down" with
  | Err _ => s
  | Ok existing =>
      settle e s w "workload_down" "critical"
        ("Workload " +:+ wl_ID w +:+ " not seen for " +:+ DurationString (e_downTimeout e))
        now (isDown e w now) existing
  end.

(** [existing, _ := ...]: a failed lookup reads as no open alert. *)
Definition lookup_ignoring_error (s : state) (w : Workload) (rule : string) : option Alert :=
  match GetUnresolvedAlertByWorkloadAndRule (st_db s) (wl_ID w) rule with
  | Ok existing => existing
  | Err _ => None
  end.

Definition isDrifted (e : Engine) (pending : option WorkloadConfig) (now : Time) : bool :=
  match pending with
  | Some p => Z.ltb (e_downTimeout e) (Sub now (wc_AppliedAt p))
  | None => false
  end.

(** The message slices [ConfigID[:12]], which panics on a shorter identifier. *)
(* src/internal/alerts/engine.go:162-200 evaluateConfigDrift *)
Definition evaluateConfigDrift (e : Engine) (w : Workload) (now : Time) (s : state) : outcome :=
  match GetLatestPendingWorkloadConfig (st_db s) (wl_ID w) with
  | Err _ => Done s
  | Ok pending =>
      let drifted := isDrifted e pending now in
      let existing := lookup_ignoring_error s w "config_drift" in
      let configID := match pending with Some p => wc_ConfigID p | None => "" end in
      if drifted && match existing with None => true | Some _ => false end &&
         Nat.ltb (String.length configID) 12
      then Panicked
      else Done (settle e s w "config_drift" "warning"
             ("Workload " +:+ wl_ID w +:+ " has not applied config " +:+ take_str 12 configID +:+
              " after " +:+ DurationString (e_downTimeout e))
             now drifted existing)
  end.

(* src/internal/alerts/engine.go:202-243 evaluateVersionOutdated *)
Definition evaluateVersionOutdated (e : Engine) (w : Workload) (now : Time) (s : state) : state :=
  if (e_minVersion e =s "") || (wl_Version w =s "") then s
  else match Version.Compare (wl_Version w) (e_minVersion e) with
  | None => s
  | Some cmp =>
      settle e s w "version_outdated" "warning"
        ("Workload " +:+ wl_ID w +:+ " version " +:+ wl_Version w +:+ " is below minimum " +:+
         e_minVersion e)
        now (Z.ltb cmp 0) (lookup_ignoring_error s w "version_outdated")
  end.

(** The loop over one list of workloads. *)
Fixpoint evaluate_each (e : Engine) (now : Time) (ws : list Workload) (s : state) : outcome :=
  match ws with
  | [] => Done s
  | w :: ws' =>
      obind (obind (Done (evaluateWorkloadDown e w now s)) (evaluateConfigDrift e w now))
        (fun s => evaluate_each e now ws' (evaluateVersionOutdated e w now s))
  end.

(** The paging loop; [fuel] bounds the number of pages. *)
Fixpoint pages_loop (fuel : nat) (e : Engine) (now : Time) (pageSize : Z) (afterID : string)
  (s : state) : outcome :=
  match fuel with
  | O => OutOfFuel
  | S fuel =>
      match ListWorkloadsPage (st_db s) false afterID pageSize with
      | Err _ => Done s
      | Ok workloads =>
          match last workloads with
          | None => Done s
          | Some w =>
              obind (evaluate_each e now workloads s) (fun s =>
                if Z.ltb (Z.of_nat (length workloads)) pageSize then Done s
                else pages_loop fuel e now pageSize (wl_ID w) s)
          end
      end
  end.

(** One page per workload and a last empty one are enough. *)
(* src/internal/alerts/engine.go:94-123 evaluatePages *)
Definition evaluatePages (e : Engine) (now : Time) (s : state) : outcome :=
  let pageSize := if Z.leb (e_pageSize e) 0 then defaultWorkloadPageSize else e_pageSize e in
  pages_loop (S (size (db_workloads (st_db s)))) e now pageSize "" s.

(** [paged]: the store also lists by pages, as the database does. *)
(* src/internal/alerts/engine.go:74-92 Evaluate *)
Definition Evaluate (e : Engine) (paged : bool) (now : Time) (s : state) : outcome :=
  if paged then evaluatePages e now s
  else match ListWorkloads (st_db s) false with
  | Err _ => Done s
  | Ok workloads => evaluate_each e now workloads s
  end.

End Store.

(** ** Paging *)

(** The rows carry their primary key, which is never empty. *)
Definition keys_ok (d : db) : Prop :=
  forall k w, db_workloads d !! k = Some w -> wl_ID w = k /\ k <> "".

Section Proofs.
Context `{Collation} `{AnyRow} (v : env) (e : Engine) (now : Time).

(** The workloads a pass visits, in the order of the pages. *)
Definition visited (d : db) : list Workload := order_by wl_ID (select_workloads d false).

Lemma elem_of_select d b w :
  w ∈ select_workloads d b <->
  exists k, db_workloads d !! k = Some w /\ (b || not_archived w) = true.
Proof.
  unfold select_workloads. rewrite list_elem_of_In, filter_In, <-list_elem_of_In, list_elem_of_fmap.
  split.
  - intros [([k x] & -> & Hx%elem_of_map_to_list) Hb]. eauto.
  - intros (k & Hk & Hb). split; [|done]. exists (k, w). split; [done|].
    by apply elem_of_map_to_list.
Qed.

Lemma elem_of_visited d w :
  w ∈ visited d <-> exists k, db_workloads d !! k = Some w /\ not_archived w = true.
Proof. unfold visited, order_by. rewrite elem_of_sort_by, elem_of_select. done. Qed.

Lemma visited_length d : (length (visited d) <= size (db_workloads d))%nat.
Proof.
  unfold visited, order_by. rewrite sort_by_length. unfold select_workloads.
  etrans; [apply List.filter_length_le|]. rewrite length_fmap, length_map_to_list. done.
Qed.

Lemma visited_NoDup d : keys_ok d -> NoDup (map wl_ID (visited d)).
Proof.
  intros Hk. unfold visited, order_by.
  rewrite (fmap_Permutation wl_ID _ _ (sort_by_perm _ _) : map _ _ ≡ₚ _).
  assert (NoDup (map wl_ID (map_to_list (db_workloads d)).*2)) as Hn.
  { replace (map wl_ID _) with ((map_to_list (db_workloads d)).*1);
      [apply NoDup_fst_map_to_list|].
    rewrite <-list_fmap_compose. apply list_fmap_ext. intros i [k w] Hi. simpl.
    apply list_elem_of_lookup_2, elem_of_map_to_list in Hi. by destruct (Hk k w Hi). }
  unfold select_workloads. revert Hn. generalize ((map_to_list (db_workloads d)).*2).
  intros l. induction l as [|x l IH]; simpl; [done|]. intros [Hx Hl]%NoDup_cons.
  destruct (not_archived x); simpl; [|auto]. apply NoDup_cons. split; [|auto].
  intros (y & Hy & Hin)%list_elem_of_fmap. apply Hx. rewrite Hy. apply list_elem_of_fmap.
  exists y. split; [done|]. apply list_elem_of_In, filter_In in Hin as [Hin _].
  by apply list_elem_of_In.
Qed.

Definition id_lt (a b : Workload) : Prop := coll (wl_ID a) (wl_ID b) = Lt.

Lemma visited_sorted d : keys_ok d -> StronglySorted id_lt (visited d).
Proof.
  intros Hk. pose proof (visited_NoDup d Hk) as Hn. revert Hn.
  assert (StronglySorted (fun a b => by_key wl_ID coll a b <> Gt) (visited d)) as Hs
    by apply sort_by_sorted, _.
  induction Hs as [|w l _ IH Hw]; [constructor|]. intros [Hx Hl]%NoDup_cons.
  constructor; [auto|]. apply Forall_forall. intros u Hu.
  pose proof (proj1 (Forall_forall _ _) Hw u Hu) as Hc. unfold id_lt, by_key in *.
  destruct (coll _ _) eqn:E; [|done..]. exfalso. apply Hx. apply coll_eq in E. rewrite E.
  apply list_elem_of_fmap. eauto.
Qed.

(** The keyset condition cuts a sorted table right after the cursor. *)
Lemma after_cursor_suffix pre w post :
  StronglySorted id_lt (pre ++ w :: post) -> wl_ID w <> "" ->
  List.filter (after_cursor (wl_ID w)) (pre ++ w :: post) = post.
Proof.
  intros Hs Hne. unfold after_cursor. rewrite (proj2 (eqb_string_false _ _) Hne).
  induction pre as [|x pre IH]; simpl in *.
  - rewrite (cmp_refl coll). apply StronglySorted_inv in Hs as [_ Hw].
    induction Hw as [|u l Hu _ IHl]; simpl; [done|].
    rewrite (cmp_opp (cmp:=coll) (wl_ID w) (wl_ID u)), Hu. simpl. by f_equal.
  - apply StronglySorted_inv in Hs as [Hs Hx].
    pose proof (proj1 (Forall_forall _ _) Hx w) as Hxw. unfold id_lt in Hxw.
    rewrite Hxw by set_solver. auto.
Qed.

(** ** What a pass leaves alone *)

Definition same_inputs (d d' : db) : Prop :=
  db_workloads d' = db_workloads d /\ db_pushes d' = db_pushes d.

Lemma exec_cases c d d' ok :
  (exec v c d d' ok).1 = d \/ ok = true /\ (exec v c d d' ok).1 = d'.
Proof. unfold exec. destruct ok; simpl; [|by left]. destruct (en_fault v c) as [|[]]; auto. Qed.

Lemma ResolveAlert_fst d id :
  (ResolveAlert v d id).1 =
  (exec v (CResolve id) d (with_alerts d (alter (resolve_row (en_clock v id)) id (db_alerts d))) true).1.
Proof. unfold ResolveAlert. by destruct (exec _ _ _ _ _) as [? [?|]]. Qed.

(** The database after a rule: unchanged, with its alert inserted, or with an
    alert resolved. *)
Lemma settle_db s w rule sev msg cond ex :
  let d := st_db s in let d' := st_db (settle v e s w rule sev msg now cond ex) in
  d' = d
  \/ (cond = true /\ ex = None /\
      let a := mkAlert (hex_encode (en_rand v (st_drawn s))) (wl_ID w) rule sev msg now None in
      alert_constraints d a = true /\ d' = with_alerts d (<[al_ID a := a]> (db_alerts d)))
  \/ (cond = false /\ exists a, ex = Some a /\
      d' = with_alerts d (alter (resolve_row (en_clock v (al_ID a))) (al_ID a) (db_alerts d))).
Proof.
  unfold settle. destruct cond, ex as [a|]; simpl; try by left.
  - unfold fire, generateID. cbn [st_db]. destruct (CreateAlert v _ _) as [d' [err|]] eqn:E; simpl in *;
      unfold CreateAlert in E; simpl in E;
      match type of E with exec v ?c ?d ?x ?ok = _ => destruct (exec_cases c d x ok) as [Hx|[Hok Hx]] end;
      rewrite E in Hx; simpl in Hx; subst; auto 6.
  - rewrite ResolveAlert_fst.
    match goal with |- context [exec v ?c ?d ?x ?ok] =>
      destruct (exec_cases c d x ok) as [Hx|[Hok Hx]] end; rewrite Hx; [by left|].
    right; right. split; [done|]. by exists a.
Qed.

Lemma settle_same s w rule sev msg cond ex :
  same_inputs (st_db s) (st_db (settle v e s w rule sev msg now cond ex)).
Proof.
  pose proof (settle_db s w rule sev msg cond ex) as Hd. cbn zeta in Hd.
  destruct Hd as [->|[(_ & _ & _ & ->)|(_ & a & _ & ->)]]; by split.
Qed.

(** A relation that every rule respects holds across a whole pass. *)
Section Pass.
Variable R : state -> state -> Prop.
Context `{!PreOrder R}.
Hypothesis R_down : forall w s, R s (evaluateWorkloadDown v e w now s).
Hypothesis R_drift : forall w s s', evaluateConfigDrift v e w now s = Done s' -> R s s'.
Hypothesis R_version : forall w s, R s (evaluateVersionOutdated v e w now s).

Lemma evaluate_each_rel ws s s' : evaluate_each v e now ws s = Done s' -> R s s'.
Proof using PreOrder0 R_down R_drift R_version.
  revert s. induction ws as [|w ws IH]; intros s; simpl; [intros [= ->]; reflexivity|].
  destruct (evaluateConfigDrift v e w now _) as [s1| |] eqn:E; simpl; try done.
  intros Hs. etrans; [apply R_down|]. etrans; [by eapply R_drift|].
  etrans; [apply R_version|]. by apply IH.
Qed.

Lemma pages_loop_rel fuel k after s s' : pages_loop v fuel e now k after s = Done s' -> R s s'.
Proof using PreOrder0 R_down R_drift R_version.
  revert after s. induction fuel as [|fuel IH]; intros after s; simpl; [done|].
  destruct (ListWorkloadsPage _ _ _ _ _) as [ws|]; [|intros [= ->]; reflexivity].
  destruct (last ws) as [w|]; [|intros [= ->]; reflexivity].
  destruct (evaluate_each v e now ws s) as [s1| |] eqn:E; simpl; try done.
  apply evaluate_each_rel in E. destruct (Z.ltb _ _); intros Hs.
  - by injection Hs as <-.
  - etrans; [exact E|]. by eapply IH.
Qed.

Lemma Evaluate_rel paged s s' : Evaluate v e paged now s = Done s' -> R s s'.
Proof using PreOrder0 R_down R_drift R_version.
  unfold Evaluate, evaluatePages. destruct paged; [apply pages_loop_rel|].
  destruct (ListWorkloads _ _ _); [apply evaluate_each_rel|intros [= ->]; reflexivity].
Qed.
End Pass.

(** Each rule is one [settle] or nothing; [ex] is what its lookup answered. *)
Definition lookup_of (s : state) (w : Workload) (rule : string) (ex : option Alert) : Prop :=
  GetUnresolvedAlertByWorkloadAndRule v (st_db s) (wl_ID w) rule = Ok ex \/
  (ex = None /\ rule <> "workload_down" /\ en_fault v (CGetAlert (wl_ID w) rule) <> IoOk).

Lemma lookup_ignoring_error_of s w rule :
  rule <> "workload_down" -> lookup_of s w rule (lookup_ignoring_error v s w rule).
Proof.
  intros Hr. unfold lookup_of, lookup_ignoring_error.
  unfold GetUnresolvedAlertByWorkloadAndRule, query. destruct (en_fault v _); auto.
Qed.

Section Rule.
Variable P : state -> state -> Prop.
Context `{!Reflexive P}.
Hypothesis P_settle : forall s w rule sev msg cond ex,
  lookup_of s w rule ex -> (sev = "warning" \/ sev = "critical") ->
  P s (settle v e s w rule sev msg now cond ex).

Lemma down_rule w s : P s (evaluateWorkloadDown v e w now s).
Proof using Reflexive0 P_settle.
  unfold evaluateWorkloadDown. destruct (GetUnresolvedAlertByWorkloadAndRule _ _ _ _) eqn:E; [|done].
  apply P_settle; [by left|by right].
Qed.

Lemma drift_rule w s s' : evaluateConfigDrift v e w now s = Done s' -> P s s'.
Proof using Reflexive0 P_settle.
  unfold evaluateConfigDrift. destruct (GetLatestPendingWorkloadConfig _ _ _); [|by intros [= <-]].
  case_if; [done|]. intros [= <-]. apply P_settle; [by apply lookup_ignoring_error_of|by left].
Qed.

Lemma version_rule w s : P s (evaluateVersionOutdated v e w now s).
Proof using Reflexive0 P_settle.
  unfold evaluateVersionOutdated. case_if; [done|]. destruct (Version.Compare _ _); [|done].
  apply P_settle; [by apply lookup_ignoring_error_of|by left].
Qed.
End Rule.

(** Relations between the states before and after a pass follow from what one
    [settle] does. *)
Lemma Evaluate_settles (P : state -> state -> Prop) `{!PreOrder P} paged s s' :
  (forall s w rule sev msg cond ex, lookup_of s w rule ex -> (sev = "warning" \/ sev = "critical") ->
     P s (settle v e s w rule sev msg now cond ex)) ->
  Evaluate v e paged now s = Done s' -> P s s'.
Proof.
  intros HP. apply Evaluate_rel; [done|..]; intros.
  - by apply down_rule; [apply _|].
  - by eapply drift_rule; [apply _|..].
  - by apply version_rule; [apply _|].
Qed.

Lemma each_settles (P : state -> state -> Prop) `{!PreOrder P} ws s s' :
  (forall s w rule sev msg cond ex, lookup_of s w rule ex -> (sev = "warning" \/ sev = "critical") ->
     P s (settle v e s w rule sev msg now cond ex)) ->
  evaluate_each v e now ws s = Done s' -> P s s'.
Proof.
  intros HP. apply evaluate_each_rel; [done|..]; intros.
  - by apply down_rule; [apply _|].
  - by eapply drift_rule; [apply _|..].
  - by apply version_rule; [apply _|].
Qed.

Definition same_tables (s s' : state) : Prop := same_inputs (st_db s) (st_db s').

Local Instance same_tables_preorder : PreOrder same_tables.
Proof. split; [by split|]. intros x y z [? ?] [? ?]. split; congruence. Qed.

Lemma each_same ws s s' : evaluate_each v e now ws s = Done s' -> same_tables s s'.
Proof. apply (each_settles same_tables). intros. apply settle_same. Qed.

Lemma evaluate_each_app l1 l2 s :
  evaluate_each v e now (l1 ++ l2) s =
  obind (evaluate_each v e now l1 s) (evaluate_each v e now l2).
Proof.
  revert s. induction l1 as [|w l1 IH]; intros s; simpl; [done|].
  destruct (evaluateConfigDrift v e w now _); simpl; auto.
Qed.

Lemma visited_same d d' : same_inputs d d' -> visited d' = visited d.
Proof. intros [Hw _]. unfold visited, select_workloads. by rewrite Hw. Qed.

(** The cursor that separates the visited prefix from the rest. *)
Definition cursor (pre : list Workload) (after : string) : Prop :=
  match last pre with None => after = "" | Some w => after = wl_ID w end.

Lemma page_after d pre rest after k :
  keys_ok d -> visited d = pre ++ rest -> cursor pre after -> (0 < k)%Z ->
  en_fault v (CListWorkloadsPage after) = IoOk ->
  ListWorkloadsPage v d false after k = Ok (take (Z.to_nat k) rest).
Proof.
  intros Hk Hv Hc Hpos Hf. unfold ListWorkloadsPage, query. rewrite Hf.
  rewrite (proj2 (Z.leb_gt k 0)) by lia. fold (visited d). do 2 f_equal.
  destruct pre as [|w pre _] using rev_ind.
  - rewrite Hv. unfold cursor in Hc. simpl in Hc. subst after. simpl.
    unfold after_cursor. rewrite eqb_string_refl. clear. induction rest; simpl; by f_equal.
  - unfold cursor in Hc. rewrite last_snoc in Hc. subst after.
    pose proof (visited_sorted d Hk) as Hs. rewrite Hv, <-app_assoc in *. simpl in *.
    apply after_cursor_suffix; [done|].
    assert (w ∈ visited d) as (k' & Hw & _)%elem_of_visited by (rewrite Hv; set_solver).
    by destruct (Hk _ _ Hw) as [-> ?].
Qed.

Lemma pages_loop_visits fuel k after s pre rest :
  keys_ok (st_db s) -> visited (st_db s) = pre ++ rest -> cursor pre after -> (0 < k)%Z ->
  (forall after, en_fault v (CListWorkloadsPage after) = IoOk) -> (length rest < fuel)%nat ->
  pages_loop v fuel e now k after s = evaluate_each v e now rest s.
Proof.
  intros Hk Hv Hc Hpos Hf. revert after s pre rest Hk Hv Hc.
  induction fuel as [|fuel IH]; intros after s pre rest Hk Hv Hc Hlen; [lia|].
  cbn [pages_loop]. rewrite (page_after _ pre rest) by auto.
  destruct (last (take (Z.to_nat k) rest)) as [w|] eqn:El.
  2: { apply last_None in El. assert (rest = []) as ->; [|done].
       destruct rest; [done|]. destruct (Z.to_nat k) eqn:E; [lia|done]. }
  rewrite length_take. trans (evaluate_each v e now (take (Z.to_nat k) rest ++ drop (Z.to_nat k) rest) s);
    [|by rewrite take_drop]. rewrite evaluate_each_app.
  destruct (evaluate_each v e now (take _ rest) s) as [s1| |] eqn:E; simpl; try done.
  destruct (Z.ltb _ k) eqn:Elt; reflect_bools.
  - rewrite drop_ge by lia. done.
  - apply each_same in E as E'. destruct E' as [Hw Hp].
    apply (IH _ s1 (pre ++ take (Z.to_nat k) rest)).
    + unfold keys_ok. by rewrite Hw.
    + rewrite (visited_same (st_db s) (st_db s1)) by done. by rewrite <-app_assoc, take_drop.
    + unfold cursor. rewrite last_app, El. done.
    + rewrite length_drop. lia.
Qed.

(** C39: Paging loses and repeats nothing: whatever the page size, a pass whose
    page queries succeed terminates and evaluates exactly the rules of every
    non-archived workload, each of them once. *)
Theorem paging_visits_every_workload s :
  keys_ok (st_db s) -> (forall after, en_fault v (CListWorkloadsPage after) = IoOk) ->
  evaluatePages v e now s = evaluate_each v e now (visited (st_db s)) s /\
  NoDup (map wl_ID (visited (st_db s))) /\
  (forall w, w ∈ visited (st_db s) <->
     exists k, db_workloads (st_db s) !! k = Some w /\ wl_ArchivedAt w = None).
Proof.
  intros Hk Hf. split_and!.
  - unfold evaluatePages. apply (pages_loop_visits _ _ _ s []); [done..| |done|].
    + destruct (Z.leb _ 0) eqn:E; reflect_bools; [done|lia].
    + pose proof (visited_length (st_db s)). lia.
  - by apply visited_NoDup.
  - intros w. rewrite elem_of_visited. unfold not_archived.
    split; intros (k & Hw & Ha); exists k; (split; [done|]); by destruct (wl_ArchivedAt w).
Qed.

(** ** Open alerts *)

Definition open (d : db) (workloadID rule : string) : Prop :=
  exists k a, db_alerts d !! k = Some a /\ is_open workloadID rule a = true.

Definition at_most_one (d : db) : Prop :=
  forall workloadID rule i j a b,
    db_alerts d !! i = Some a -> db_alerts d !! j = Some b ->
    is_open workloadID rule a = true -> is_open workloadID rule b = true -> i = j.

Lemma elem_of_open_alerts d wid rule a :
  a ∈ open_alerts d wid rule <-> exists k, db_alerts d !! k = Some a /\ is_open wid rule a = true.
Proof.
  unfold open_alerts. rewrite list_elem_of_fmap. split.
  - intros ([k b] & -> & [Hb Ho]%elem_of_map_to_list%map_lookup_filter_Some). eauto.
  - intros (k & Hk & Ho). exists (k, a). split; [done|].
    by apply elem_of_map_to_list, map_lookup_filter_Some.
Qed.

Lemma lookup_None d wid rule :
  GetUnresolvedAlertByWorkloadAndRule v d wid rule = Ok None -> ~ open d wid rule.
Proof.
  unfold GetUnresolvedAlertByWorkloadAndRule, query. destruct (en_fault _ _); [|done].
  intros [= Hp%pick_None] (k & a & Ha & Ho).
  assert (a ∈ open_alerts d wid rule) as Hin by (apply elem_of_open_alerts; eauto).
  rewrite Hp in Hin. by apply not_elem_of_nil in Hin.
Qed.

Lemma lookup_Some d wid rule a :
  GetUnresolvedAlertByWorkloadAndRule v d wid rule = Ok (Some a) ->
  exists k, db_alerts d !! k = Some a /\ is_open wid rule a = true.
Proof.
  unfold GetUnresolvedAlertByWorkloadAndRule, query. destruct (en_fault _ _); [|done].
  by intros [= Hp%pick_Some%elem_of_open_alerts].
Qed.

Lemma is_open_resolved t wid rule a : is_open wid rule (resolve_row t a) = false.
Proof. unfold is_open. simpl. by rewrite andb_false_r. Qed.

(** Resolving an alert opens nothing. *)
Lemma lookup_resolved (m : gmap string Alert) t id k a wid rule :
  alter (resolve_row t) id m !! k = Some a -> is_open wid rule a = true ->
  m !! k = Some a /\ k <> id.
Proof.
  destruct (decide (k = id)) as [->|Hne].
  - rewrite lookup_alter_eq. intros (b & Hb & ->)%fmap_Some Ho. by rewrite is_open_resolved in Ho.
  - by rewrite lookup_alter_ne.
Qed.

Lemma is_open_inj wid rule wid' rule' a :
  is_open wid rule a = true -> is_open wid' rule' a = true -> wid' = wid /\ rule' = rule.
Proof. unfold is_open. intros. reflect_bools. by subst. Qed.

Lemma settle_at_most_one s w rule sev msg cond ex :
  GetUnresolvedAlertByWorkloadAndRule v (st_db s) (wl_ID w) rule = Ok ex ->
  at_most_one (st_db s) -> at_most_one (st_db (settle v e s w rule sev msg now cond ex)).
Proof.
  intros Hex H1. pose proof (settle_db s w rule sev msg cond ex) as Hd. cbn zeta in Hd.
  destruct Hd as [->|[(_ & -> & _ & ->)|(_ & r & _ & ->)]]; [done|..];
    intros wid rule' i j a b; cbn [db_alerts with_alerts].
  - apply lookup_None in Hex.
    assert (forall k c, db_alerts (st_db s) !! k = Some c -> is_open wid rule' c = true ->
              is_open wid rule' (mkAlert (hex_encode (en_rand v (st_drawn s))) (wl_ID w) rule sev msg now
                None) = true -> False) as Hno.
    { intros k c Hk Hc Hn. apply Hex. unfold is_open in Hn. simpl in Hn. reflect_bools. subst.
      by exists k, c. }
    rewrite !lookup_insert_Some. intros [[<- <-]|[? Ha]] [[<- <-]|[? Hb]] Ho1 Ho2; [done|..].
    + by destruct (Hno j b Hb Ho2).
    + by destruct (Hno i a Ha Ho1).
    + by eapply H1.
  - intros Ha Hb Ho1 Ho2. apply (lookup_resolved _ _ _ _ _ wid rule') in Ha as [Ha _]; [|done].
    apply (lookup_resolved _ _ _ _ _ wid rule') in Hb as [Hb _]; [|done]. by eapply H1.
Qed.

Definition keeps_unique (s s' : state) : Prop := at_most_one (st_db s) -> at_most_one (st_db s').

Local Instance keeps_unique_preorder : PreOrder keeps_unique.
Proof. split; [by intros ??|]. intros x y z ???. auto. Qed.

(** A pass never opens a second alert for the same workload and rule, even
    when statements fail half-way, as long as the lookups of the drift and
    version rules answer. *)
Theorem one_open_alert_per_rule paged s s' :
  (forall workloadID rule, rule <> "workload_down" -> en_fault v (CGetAlert workloadID rule) = IoOk) ->
  at_most_one (st_db s) -> Evaluate v e paged now s = Done s' -> at_most_one (st_db s').
Proof.
  intros Hf H1 He. revert H1. apply (Evaluate_settles keeps_unique paged s s'); [|done].
  intros x w rule sev msg cond ex [Hl|(_ & Hr & Hbad)] _ Hx.
  - by apply settle_at_most_one.
  - by rewrite Hf in Hbad.
Qed.

(** ** Announcements *)

Definition set_resolved (t : option Time) (a : Alert) : Alert :=
  mkAlert (al_ID a) (al_WorkloadID a) (al_Rule a) (al_Severity a) (al_Message a) (al_FiredAt a) t.

(** Alert rows are never deleted and change in [resolved_at] only. *)
Definition kept (d d' : db) : Prop :=
  forall k a, db_alerts d !! k = Some a -> exists t, db_alerts d' !! k = Some (set_resolved t a).

(** From [s] to [s'] the alerts [l] were created and announced, in this order. *)
Definition announces (s s' : state) : Prop :=
  kept (st_db s) (st_db s') /\
  exists l, st_broadcast s' = st_broadcast s ++ (if e_hub e then l else []) /\
    st_sent s' = st_sent s ++ flat_map (fun a => map (fun n => (n, a)) (seq 0 (e_notifiers e))) l /\
    NoDup (map al_ID l) /\
    Forall (fun a => db_alerts (st_db s) !! al_ID a = None /\ al_FiredAt a = now /\
                     exists t, db_alerts (st_db s') !! al_ID a = Some (set_resolved t a)) l.

Lemma kept_refl d : kept d d.
Proof. intros k [] Hk. eexists. exact Hk. Qed.

Lemma kept_trans d1 d2 d3 : kept d1 d2 -> kept d2 d3 -> kept d1 d3.
Proof. intros H12 H23 k a Hk. destruct (H12 k a Hk) as [t Ht]. by apply H23 in Ht. Qed.

Lemma kept_insert d a :
  db_alerts d !! al_ID a = None -> kept d (with_alerts d (<[al_ID a := a]> (db_alerts d))).
Proof.
  intros Hn k b Hk. cbn [db_alerts with_alerts]. rewrite lookup_insert_ne by congruence.
  by apply kept_refl.
Qed.

Lemma kept_resolved d t id : kept d (with_alerts d (alter (resolve_row t) id (db_alerts d))).
Proof.
  intros k a Hk. cbn [db_alerts with_alerts]. destruct (decide (k = id)) as [<-|Hne].
  - rewrite lookup_alter_eq, Hk. by exists (Some t).
  - rewrite lookup_alter_ne by congruence. by apply kept_refl.
Qed.

#[local] Hint Resolve kept_refl kept_insert kept_resolved : go.

Lemma announces_silent s s' :
  kept (st_db s) (st_db s') ->
  st_broadcast s' = st_broadcast s -> st_sent s' = st_sent s -> announces s s'.
Proof.
  intros Hs Hb Hn. split; [done|]. exists []. simpl. rewrite !app_nil_r.
  split_and!; [by destruct (e_hub e); rewrite ?app_nil_r|done|constructor|constructor].
Qed.

Local Instance announces_preorder : PreOrder announces.
Proof.
  split; [intros s; apply announces_silent; auto with go|].
  intros x y z [H1 (l1 & B1 & N1 & D1 & F1)] [H2 (l2 & B2 & N2 & D2 & F2)].
  split; [by eapply kept_trans|]. exists (l1 ++ l2). split_and!.
  - rewrite B2, B1, <-app_assoc. by destruct (e_hub e).
  - by rewrite N2, N1, <-app_assoc, flat_map_app.
  - rewrite map_app, NoDup_app. split_and!; [done| |done].
    intros i (a & -> & Ha)%list_elem_of_fmap (b & Hb & Hin)%list_elem_of_fmap.
    apply (proj1 (Forall_forall _ _) F1) in Ha as (_ & _ & t & Ht).
    apply (proj1 (Forall_forall _ _) F2) in Hin as (Hn & _). congruence.
  - apply Forall_app. split; (eapply Forall_impl; [eassumption|]); simpl.
    + intros a (? & ? & t & Ht). split_and!; [done..|]. by apply H2 in Ht.
    + intros a (Hn & ? & ?). split_and!; [|done..].
      destruct (db_alerts (st_db x) !! al_ID a) as [b|] eqn:E; [|done].
      apply H1 in E as [t Ht]. congruence.
Qed.

Lemma settle_announces s w rule sev msg cond ex :
  announces s (settle v e s w rule sev msg now cond ex).
Proof.
  unfold settle. destruct cond, ex as [r|]; try reflexivity.
  - unfold fire, generateID. cbn [st_db]. set (a := mkAlert _ _ _ _ _ _ _).
    unfold CreateAlert, exec. destruct (alert_constraints _ a) eqn:Hc; simpl;
      [|apply announces_silent; auto with go].
    unfold alert_constraints in Hc. reflect_bools.
    pose proof (kept_insert (st_db s) a ltac:(done)) as Hk. change (mkAlert _ _ _ _ _ _ None) with a.
    destruct (en_fault v _) as [|[]]; simpl.
    + split; [done|]. exists [a]. simpl. rewrite app_nil_r. split_and!; [done|done|..].
      * repeat constructor. by intros ?%not_elem_of_nil.
      * constructor; [|constructor]. split_and!; [done..|]. exists None.
        cbn [st_db db_alerts with_alerts]. by rewrite lookup_insert_eq.
    + by apply announces_silent.
    + apply announces_silent; auto with go.
  - apply announces_silent; [|done..]. cbn [st_db set_db]. rewrite ResolveAlert_fst.
    match goal with |- context [exec v ?c ?d ?x ?ok] =>
      destruct (exec_cases c d x ok) as [Hx|[_ Hx]] end; rewrite Hx; auto with go.
Qed.

(** Announcements follow the table: whatever fails during a pass, every
    alert it broadcasts or hands to the notifiers is a new row that is stored
    with the announced content, every notifier receives each of them exactly
    once, and no earlier alert row is deleted or changed except by resolution. *)
Theorem announced_alerts_are_stored paged s s' :
  Evaluate v e paged now s = Done s' -> announces s s'.
Proof.
  intros He. apply (Evaluate_settles announces paged s s'); [|done].
  intros. apply settle_announces.
Qed.

(** ** A complete pass *)

Definition alert_keys (d : db) : Prop := forall k a, db_alerts d !! k = Some a -> al_ID a = k.

Definition id_of (n : nat) : string := hex_encode (en_rand v n).

(** The identifiers still to be drawn are unused and pairwise different. *)
Definition fresh (s : state) : Prop :=
  forall n, (st_drawn s <= n)%nat ->
    db_alerts (st_db s) !! id_of n = None /\ forall m, (n < m)%nat -> id_of n <> id_of m.

Definition healthy (s : state) : Prop :=
  alert_keys (st_db s) /\ at_most_one (st_db s) /\ fresh s.

Hypothesis no_faults : forall c, en_fault v c = IoOk.

Lemma settle_healthy s w rule sev msg cond ex :
  GetUnresolvedAlertByWorkloadAndRule v (st_db s) (wl_ID w) rule = Ok ex ->
  healthy s -> healthy (settle v e s w rule sev msg now cond ex).
Proof using.
  intros Hex (Hk & H1 & Hf).
  assert (healthy s) as Hh by done. split_and!.
  - pose proof (settle_db s w rule sev msg cond ex) as Hd. cbn zeta in Hd.
    destruct Hd as [->|[(_ & _ & _ & ->)|(_ & r & _ & ->)]]; [done|..]; intros k a;
      cbn [db_alerts with_alerts].
    + rewrite lookup_insert_Some. intros [[<- <-]|[_ Ha]]; [done|by apply Hk].
    + rewrite lookup_alter_Some. intros [(-> & b & Hb & ->)|[_ Hb]]; by apply Hk in Hb.
  - by apply settle_at_most_one.
  - unfold settle. destruct cond, ex as [r|]; try done.
    + unfold fire, generateID. cbn [st_db]. intros n Hn.
      assert (S (st_drawn s) <= n)%nat as Hn' by (destruct (CreateAlert _ _ _) as [? [?|]]; exact Hn).
      destruct (Hf n ltac:(lia)) as [Hfn Hinj]. split; [|done].
      unfold CreateAlert, exec, id_of in *. destruct (Hf (st_drawn s) ltac:(lia)) as [_ Hd].
      destruct (alert_constraints _ _), (en_fault v _) as [|[]]; simpl; try done;
        rewrite lookup_insert_ne by (apply Hd; lia); done.
    + intros n Hn. destruct (Hf n Hn) as [Hfn Hinj]. split; [|done]. cbn [st_db set_db].
      rewrite ResolveAlert_fst. match goal with |- context [exec v ?c ?d ?x ?ok] =>
        destruct (exec_cases c d x ok) as [Hx|[_ Hx]] end; rewrite Hx; [done|].
      cbn [db_alerts with_alerts]. by rewrite lookup_alter_None.
Qed.

Lemma open_insert d a wid r :
  db_alerts d !! al_ID a = None -> al_ResolvedAt a = None ->
  open (with_alerts d (<[al_ID a := a]> (db_alerts d))) wid r <->
  (wid = al_WorkloadID a /\ r = al_Rule a) \/ open d wid r.
Proof using.
  intros Hn Hr. unfold open. cbn [db_alerts with_alerts]. split.
  - intros (k & b & [[<- <-]|[? Hb]]%lookup_insert_Some & Ho); [left|right; eauto].
    unfold is_open in Ho. reflect_bools. done.
  - intros [[-> ->]|(k & b & Hb & Ho)].
    + exists (al_ID a), a. rewrite lookup_insert_eq. split; [done|]. unfold is_open.
      by rewrite !eqb_string_refl, Hr.
    + exists k, b. rewrite lookup_insert_ne by congruence. done.
Qed.

(** With a unique open alert, resolving it closes its rule and nothing else. *)
Lemma open_resolve d t a k wid r :
  at_most_one d -> alert_keys d -> db_alerts d !! k = Some a -> is_open wid r a = true ->
  forall wid' r',
  open (with_alerts d (alter (resolve_row t) (al_ID a) (db_alerts d))) wid' r' <->
  ~ (wid' = wid /\ r' = r) /\ open d wid' r'.
Proof using.
  intros H1 Hk Ha Ho wid' r'. assert (al_ID a = k) as -> by by apply Hk.
  unfold open. cbn [db_alerts with_alerts]. split.
  - intros (i & b & Hb & Hob). destruct (lookup_resolved _ _ _ _ _ _ _ Hb Hob) as [Hb' Hne].
    split; [|eauto]. intros [-> ->]. by destruct Hne; eapply H1.
  - intros [Hne (i & b & Hb & Hob)]. exists i, b. split; [|done].
    rewrite lookup_alter_ne; [done|]. intros <-. apply Hne.
    rewrite Ha in Hb. injection Hb as <-. by apply (is_open_inj _ _ _ _ a).
Qed.

Lemma settle_open s w rule sev msg cond ex :
  healthy s -> db_workloads (st_db s) !! wl_ID w = Some w -> (sev = "warning" \/ sev = "critical") ->
  GetUnresolvedAlertByWorkloadAndRule v (st_db s) (wl_ID w) rule = Ok ex ->
  forall wid r, open (st_db (settle v e s w rule sev msg now cond ex)) wid r <->
    ((wid = wl_ID w /\ r = rule) /\ cond = true) \/
    (~ (wid = wl_ID w /\ r = rule) /\ open (st_db s) wid r).
Proof using no_faults.
  intros (Hk & H1 & Hf) Hw Hsev Hex wid r.
  destruct cond, ex as [a|]; unfold settle.
  - apply lookup_Some in Hex as (k & Ha & Ho).
    assert (open (st_db s) (wl_ID w) rule) by by exists k, a.
    destruct (decide (wid = wl_ID w /\ r = rule)) as [[-> ->]|]; tauto.
  - apply lookup_None in Hex.
    pose proof (proj1 (Hf (st_drawn s) ltac:(lia))) as Hid. unfold id_of in Hid.
    unfold fire, generateID, CreateAlert, exec. cbn [st_db al_ID al_WorkloadID al_Rule al_Severity
      al_Message al_FiredAt]. unfold alert_constraints. cbn [al_ID al_WorkloadID al_Severity].
    rewrite Hid, Hw, no_faults. rewrite !bool_decide_eq_true_2 by done.
    assert ((sev =s "warning") || (sev =s "critical") = true) as -> by by destruct Hsev as [-> | ->].
    cbn [andb negb st_db].
    pose proof (open_insert (st_db s) (mkAlert (hex_encode (en_rand v (st_drawn s))) (wl_ID w) rule sev
      msg now None) wid r Hid eq_refl) as Hi. cbn [al_ID al_WorkloadID al_Rule] in Hi. rewrite Hi.
    destruct (decide (wid = wl_ID w /\ r = rule)) as [[-> ->]|]; tauto.
  - apply lookup_Some in Hex as (k & Ha & Ho). cbn [st_db set_db].
    rewrite ResolveAlert_fst. unfold exec. rewrite no_faults. cbn [negb fst].
    rewrite (open_resolve _ _ _ _ _ _ H1 Hk Ha Ho). naive_solver.
  - apply lookup_None in Hex.
    destruct (decide (wid = wl_ID w /\ r = rule)) as [[-> ->]|]; naive_solver.
Qed.

(** What a rule says of a workload; [None]: the rule does not apply. *)
Definition verdict (d : db) (w : Workload) (rule : string) : option bool :=
  if rule =s "workload_down" then Some (isDown e w now)
  else if rule =s "config_drift" then Some (isDrifted e (latest_pending d (wl_ID w)) now)
  else if rule =s "version_outdated" then
    if (e_minVersion e =s "") || (wl_Version w =s "") then None
    else (fun cmp => Z.ltb cmp 0) <$> Version.Compare (wl_Version w) (e_minVersion e)
  else None.

(** The verdict on a workload identifier; archived workloads are not evaluated. *)
Definition verdict_at (d : db) (workloadID rule : string) : option bool :=
  w ← db_workloads d !! workloadID; if not_archived w then verdict d w rule else None.

(** [open] after the rules gave [o] for a rule that was open or not before. *)
Definition follows (o : option bool) (before : Prop) : Prop :=
  match o with Some b => b = true | None => before end.

Local Instance follows_proper o : Proper (iff ==> iff) (follows o).
Proof. intros P Q HPQ. by destruct o. Qed.

(** Pushes in flight have identifiers long enough for the drift message. *)
Definition long_ids (d : db) : Prop :=
  forall p, p ∈ db_pushes d -> (12 <= String.length (wc_ConfigID p))%nat.

Lemma lookup_ok s w rule :
  GetUnresolvedAlertByWorkloadAndRule v (st_db s) (wl_ID w) rule =
  Ok (lookup_ignoring_error v s w rule).
Proof using no_faults.
  unfold lookup_ignoring_error, GetUnresolvedAlertByWorkloadAndRule, query. by rewrite no_faults.
Qed.

Lemma pending_ok d wid : GetLatestPendingWorkloadConfig v d wid = Ok (latest_pending d wid).
Proof using no_faults. unfold GetLatestPendingWorkloadConfig, query. by rewrite no_faults. Qed.

Lemma latest_pending_elem d wid p : latest_pending d wid = Some p -> p ∈ db_pushes d.
Proof using.
  unfold latest_pending. intros [Hp _]%min_by_Some; [|apply _].
  apply list_elem_of_In, filter_In in Hp as [Hp _]. by apply list_elem_of_In.
Qed.

Lemma verdict_same d d' w r : same_inputs d d' -> verdict d' w r = verdict d w r.
Proof using. intros [_ Hp]. unfold verdict, latest_pending. by rewrite Hp. Qed.

(** Evaluating [rule] on [w] took [s] to [s']. *)
Definition rule_effect (w : Workload) (rule : string) (s s' : state) : Prop :=
  healthy s' /\ same_tables s s' /\
  forall k r, open (st_db s') k r <->
    follows (if (k =s wl_ID w) && (r =s rule) then verdict (st_db s) w rule else None)
      (open (st_db s) k r).

Lemma settle_effect s w rule sev msg cond :
  healthy s -> db_workloads (st_db s) !! wl_ID w = Some w -> (sev = "warning" \/ sev = "critical") ->
  verdict (st_db s) w rule = Some cond ->
  rule_effect w rule s (settle v e s w rule sev msg now cond (lookup_ignoring_error v s w rule)).
Proof using no_faults.
  intros Hh Hw Hsev Hv. split_and!.
  - apply settle_healthy; [apply lookup_ok|done].
  - apply settle_same.
  - intros k r. rewrite (settle_open _ _ _ _ _ _ _ Hh Hw Hsev (lookup_ok s w rule)), Hv.
    destruct (k =s wl_ID w) eqn:E1, (r =s rule) eqn:E2; reflect_bools; subst; simpl; naive_solver.
Qed.

Lemma down_effect s w :
  healthy s -> db_workloads (st_db s) !! wl_ID w = Some w ->
  rule_effect w "workload_down" s (evaluateWorkloadDown v e w now s).
Proof using no_faults.
  intros Hh Hw. unfold evaluateWorkloadDown. rewrite lookup_ok. apply settle_effect; auto.
Qed.

Lemma drift_effect s w :
  healthy s -> long_ids (st_db s) -> db_workloads (st_db s) !! wl_ID w = Some w ->
  exists s', evaluateConfigDrift v e w now s = Done s' /\ rule_effect w "config_drift" s s'.
Proof using no_faults.
  intros Hh Hl Hw. unfold evaluateConfigDrift. rewrite pending_ok.
  destruct (latest_pending _ _) as [p|] eqn:Ep.
  - apply latest_pending_elem in Ep as Hp. apply Hl in Hp.
    rewrite (proj2 (Nat.ltb_ge _ _) Hp), andb_false_r. eexists. split; [done|].
    apply settle_effect; auto. unfold verdict. simpl. by rewrite Ep.
  - eexists. split; [done|]. apply settle_effect; auto. unfold verdict. simpl. by rewrite Ep.
Qed.

Lemma version_effect s w :
  healthy s -> db_workloads (st_db s) !! wl_ID w = Some w ->
  rule_effect w "version_outdated" s (evaluateVersionOutdated v e w now s).
Proof using no_faults.
  intros Hh Hw. unfold evaluateVersionOutdated.
  assert (verdict (st_db s) w "version_outdated" = None -> rule_effect w "version_outdated" s s) as Hn.
  { intros Hv. split_and!; [done|by split|]. intros k r. rewrite Hv. by destruct (_ && _). }
  case_if.
  - apply Hn. unfold verdict. simpl. by rewrite E.
  - destruct (Version.Compare _ _) as [c|] eqn:Ec.
    + apply settle_effect; auto. unfold verdict. simpl. by rewrite E, Ec.
    + apply Hn. unfold verdict. simpl. by rewrite E, Ec.
Qed.

(** The three rules on one workload. *)
Lemma visit_effect s w :
  healthy s -> long_ids (st_db s) -> db_workloads (st_db s) !! wl_ID w = Some w ->
  exists s1, evaluateConfigDrift v e w now (evaluateWorkloadDown v e w now s) = Done s1 /\
    let s' := evaluateVersionOutdated v e w now s1 in
    healthy s' /\ same_tables s s' /\
    forall k r, open (st_db s') k r <->
      follows (if k =s wl_ID w then verdict (st_db s) w r else None) (open (st_db s) k r).
Proof using no_faults.
  intros Hh Hl Hw. destruct (down_effect s w Hh Hw) as (Hh0 & [W0 P0] & O0).
  set (s0 := evaluateWorkloadDown v e w now s) in *.
  destruct (drift_effect s0 w) as (s1 & -> & Hh1 & [W1 P1] & O1);
    [done|unfold long_ids; by rewrite P0|by rewrite W0|].
  exists s1. split; [done|].
  destruct (version_effect s1 w) as (Hh2 & [W2 P2] & O2); [done|by rewrite W1, W0|].
  split_and!; [done|split; congruence|]. intros k r. rewrite O2, O1, O0.
  rewrite (verdict_same (st_db s) (st_db s1)) by (split; congruence).
  rewrite (verdict_same (st_db s) (st_db s0)) by (split; congruence).
  destruct (k =s wl_ID w); [|done]. simpl.
  destruct (r =s "version_outdated") eqn:E2; reflect_bools; [subst; simpl|].
  { by destruct (verdict _ _ _). }
  destruct (r =s "config_drift") eqn:E1; reflect_bools; [subst; simpl|].
  { done. }
  destruct (r =s "workload_down") eqn:E0; reflect_bools; [by subst|]. simpl.
  unfold verdict. by rewrite !(proj2 (eqb_string_false _ _)) by done.
Qed.

Lemma each_effect d ws s :
  same_inputs d (st_db s) -> healthy s -> long_ids d -> NoDup (map wl_ID ws) ->
  Forall (fun w => db_workloads d !! wl_ID w = Some w /\ not_archived w = true) ws ->
  exists s', evaluate_each v e now ws s = Done s' /\ healthy s' /\
    forall k r, open (st_db s') k r <->
      follows (if bool_decide (k ∈ map wl_ID ws) then verdict_at d k r else None) (open (st_db s) k r).
Proof using no_faults.
  intros Hs Hh Hl. revert s Hs Hh. induction ws as [|w ws IH]; intros s Hs Hh Hn Hall.
  { exists s. split_and!; [done..|]. intros k r. by rewrite bool_decide_eq_false_2 by apply not_elem_of_nil. }
  apply NoDup_cons in Hn as [Hnw Hn]. apply Forall_cons in Hall as [[Hw Ha] Hall].
  destruct Hs as [Sw Sp].
  destruct (visit_effect s w) as (s1 & E1 & Hh2 & [W2 P2] & O2);
    [done|unfold long_ids; by rewrite Sp|by rewrite Sw|].
  cbn [evaluate_each obind]. rewrite E1. cbn [obind].
  destruct (IH _ ltac:(split; [by rewrite W2, Sw|by rewrite P2, Sp]) Hh2 Hn Hall)
    as (s' & -> & Hh' & O'). exists s'. split_and!; [done..|]. intros k r. rewrite O', O2.
  rewrite (verdict_same d (st_db s)) by done. cbn [map].
  destruct (k =s wl_ID w) eqn:Ek; reflect_bools.
  - subst k. rewrite bool_decide_eq_false_2 by done. rewrite bool_decide_eq_true_2 by by left.
    unfold verdict_at. rewrite Hw. cbn. by rewrite Ha.
  - cbn [follows]. replace (bool_decide (k ∈ wl_ID w :: map wl_ID ws)) with (bool_decide (k ∈ map wl_ID ws));
      [done|]. apply bool_decide_ext. set_solver.
Qed.


End Proofs.

(** ** A concrete fleet *)

Section Sample.
Local Open Scope Z_scope.

(** The bytes of the [n]-th identifier; only the first few are drawn below. *)
Definition sample_rand (n : nat) : list N := repeat 0%N n.
Definition sample_env : env := mkEnv (fun _ => IoOk) sample_rand (fun _ => 2000 * Second).
Definition sample_engine : Engine := mkEngine true (5 * Minute) "1.2.0" 2 1.

Definition workload_row (id version : string) (seen : Time) : Workload :=
  mkWorkload id "" ∅ id "collector" version "connected" seen ∅ None "" None None None false None None.

Definition down_alert : Alert := mkAlert "zz" "w2" "workload_down" "critical" "old" 1 None.
Definition push_row (config : string) : WorkloadConfig :=
  mkWorkloadConfig "w1" config "" 1 "sent" "" "" "" None "" 1 None 1 None false "" "" [] [] 0 0 0 0 0 0
    [] false false false false false.

(** [w1] is silent, outdated and drifted; [w2] is back. *)
Definition sample_db (config : string) : db :=
  mkDb {[ "w1" := workload_row "w1" "1.1.0" 0; "w2" := workload_row "w2" "1.3.0" (1000 * Second) ]}
    [push_row config] {[ "zz" := down_alert ]}.
Definition sample_state : state := mkState (sample_db "0123456789abcdef") [] [] 0.

Definition opened (o : outcome) : list (string * string * string) :=
  match o with
  | Done s => map (fun a => (al_WorkloadID a, al_Rule a, al_ID a))
      (List.filter (fun a => match al_ResolvedAt a with None => true | _ => false end)
         (map_to_list (db_alerts (st_db s))).*2)
  | _ => []
  end.

Example sample_pass :
  opened (Evaluate sample_env sample_engine true (1000 * Second) sample_state) =
  [("w1", "version_outdated", "0000"); ("w1", "config_drift", "00"); ("w1", "workload_down", "")].
Proof. vm_compute. reflexivity. Qed.

(** A pending push whose config identifier has fewer than 12 bytes stops the
    process: the drift message slices it without a length check. *)
Example short_config_id_panics :
  Evaluate sample_env sample_engine true (1000 * Second) (mkState (sample_db "abc") [] [] 0) = Panicked.
Proof. vm_compute. reflexivity. Qed.

(** When the lookup of the drift rule fails, its error is dropped and a second
    alert is opened beside the first. *)
Example failed_lookup_duplicates :
  let flaky := mkEnv (fun c => match c with CGetAlert _ "config_drift" => IoFail false | _ => IoOk end)
                 sample_rand (fun _ => 0) in
  match Evaluate sample_env sample_engine true (1000 * Second) sample_state with
  | Done s => opened (Evaluate flaky sample_engine true (1000 * Second) s)
  | _ => []
  end =
  [("w1", "config_drift", "000000"); ("w1", "version_outdated", "0000"); ("w1", "config_drift", "00");
   ("w1", "workload_down", "")].
Proof. vm_compute. reflexivity. Qed.

Lemma sample_keys : keys_ok (st_db sample_state).
Proof.
  intros k w. cbn [sample_state sample_db st_db db_workloads]. rewrite lookup_insert_Some.
  intros [[<- <-]|[_ [<- <-]%lookup_singleton_Some]]; by split.
Qed.

Lemma hex_zeros_inj n m : hex_encode (sample_rand n) = hex_encode (sample_rand m) -> n = m.
Proof.
  intros Heq%(f_equal String.length). rewrite !hex_encode_length in Heq. unfold sample_rand in Heq.
  rewrite !repeat_length in Heq. lia.
Qed.

Lemma sample_healthy : healthy sample_env sample_state.
Proof.
  split_and!.
  - intros k a. cbn. by intros [<- <-]%lookup_singleton_Some.
  - intros wid r i j a b. cbn. by intros [<- _]%lookup_singleton_Some [<- _]%lookup_singleton_Some.
  - intros n _. split.
    + cbn. apply lookup_singleton_None. unfold id_of. cbn. by destruct n.
    + intros m Hm Heq%hex_zeros_inj. lia.
Qed.

Lemma paging_visits_every_workload_witness :
  evaluatePages sample_env sample_engine (1000 * Second) sample_state =
  evaluate_each sample_env sample_engine (1000 * Second) (visited (st_db sample_state)) sample_state.
Proof.
  apply (paging_visits_every_workload sample_env sample_engine (1000 * Second) sample_state);
    [apply sample_keys|done].
Defined.

Definition after_pass : state :=
  match Evaluate sample_env sample_engine true (1000 * Second) sample_state with
  | Done s => s | _ => sample_state end.

Lemma one_open_alert_per_rule_witness : at_most_one (st_db after_pass).
Proof.
  apply (one_open_alert_per_rule sample_env sample_engine (1000 * Second) true sample_state).
  - done.
  - apply sample_healthy.
  - vm_compute. reflexivity.
Defined.

Lemma announced_alerts_are_stored_witness :
  announces sample_engine (1000 * Second) sample_state after_pass.
Proof.
  apply (announced_alerts_are_stored sample_env sample_engine (1000 * Second) true).
  vm_compute. reflexivity.
Defined.


End Sample.

End Alerts.
