(* ===== verification/Access.v ===== *)
(** * Authentication, authorization and the login throttle

    internal/perm (the permission matrix), internal/auth (sessions as signed
    tokens), internal/api/middleware.go (the permission guard) and the login
    handler with its rate limiter. JWT signing and bcrypt are parameters. *)

From S2P Require Import Prelude GoString.

Module Access.

(** ** Permissions *)

(* src/internal/perm/perm.go:13-25 Permission *)
Inductive Permission :=
| PushConfig | ReadConfigContent | ValidateConfig | CreateConfigTpl | ResolveAlert | ExportReports
| ArchiveWorkload | DeleteWorkload | ViewAudit | ManageUsers | ManageSettings.

Global Instance Permission_eq_dec : EqDecision Permission.
Proof. solve_decision. Defined.

(** [matrix[g][p]]; absent groups and permissions read as [false]. *)
(* src/internal/perm/matrix.go:7-35 matrix *)
Definition matrix (g : string) (p : Permission) : bool :=
  if g =s "viewer" then false
  else if g =s "editor" then
    match p with
    | ReadConfigContent | PushConfig | ValidateConfig | CreateConfigTpl | ResolveAlert | ExportReports
    | ArchiveWorkload => true
    | _ => false
    end
  else if g =s "administrator" then
    match p with
    | ReadConfigContent | PushConfig | ValidateConfig | CreateConfigTpl | ResolveAlert | ExportReports
    | ArchiveWorkload | DeleteWorkload | ViewAudit | ManageUsers | ManageSettings => true
    end
  else false.

(* src/pkg/ext/auth.go:13-17 UserInfo *)
Record UserInfo := mkUserInfo { ui_UserID : string; ui_Email : string; ui_Groups : list string }.

Fixpoint has_loop (groups : list string) (p : Permission) : bool :=
  match groups with
  | [] => false
  | g :: rest => if matrix g p then true else has_loop rest p
  end.

(* src/internal/perm/perm.go:28-35 Has *)
Definition Has (u : UserInfo) (p : Permission) : bool := has_loop (ui_Groups u) p.

(** ** Sessions *)

(* src/internal/auth/auth.go:18-24 claims *)
Record claims := mkClaims {
  cl_UserID : string; cl_Email : string; cl_Groups : list string; cl_Role : string;
  cl_ExpiresAt : option Time; cl_IssuedAt : option Time
}.

(** github.com/golang-jwt/jwt: signing with HS256, and parsing with signature
    and expiry verified at the given instant. *)
Class JwtLib := {
  jwt_sign : string -> claims -> result string;
  jwt_parse : string -> string -> Time -> result claims
}.

(** Documented behaviour: a token this secret signed parses back to its claims
    until it expires. *)
Definition jwt_roundtrip `{JwtLib} : Prop :=
  forall secret c tok exp now,
    jwt_sign secret c = Ok tok -> cl_ExpiresAt c = Some exp -> (now < exp)%Z ->
    jwt_parse secret tok now = Ok c.

(** golang.org/x/crypto/bcrypt: [CompareHashAndPassword(...) == nil]. *)
Class BcryptLib := { bcrypt_match : string -> string -> bool }.

(** [jwt.NewNumericDate] keeps whole seconds. *)
Definition NumericDate (t : Time) : Time := (t - t mod Second)%Z.

(** A request: the [Authorization] header, the session cookie and the peer. *)
Record request := mkRequest {
  rq_Authorization : string; rq_cookie : option string; rq_RemoteAddr : string
}.

(** A handler's answer: an error status, or what the guarded handler answered. *)
Inductive served (A : Type) :=
| Reject (code : Z)
| Served (a : A).
Arguments Reject {A} _.
Arguments Served {A} _.

Section Sessions.
Context `{JwtLib} (secret : string).

(* src/internal/auth/auth.go:41-53 GenerateToken *)
Definition GenerateToken (userID email : string) (groups : list string) (now : Time) : result string :=
  jwt_sign secret
    (mkClaims userID email groups "" (Some (NumericDate (Add now (24 * Hour)))) (Some (NumericDate now))).

(* src/internal/auth/auth.go:102-107 legacyRoleToGroupName *)
Definition legacyRoleToGroupName (role : string) : string :=
  if role =s "admin" then "administrator" else role.

(* src/internal/auth/auth.go:58-78 ValidateToken *)
Definition ValidateToken (tokenStr : string) (now : Time) : result UserInfo :=
  match jwt_parse secret tokenStr now with
  | Err e => Err e
  | Ok c =>
      let groups := match cl_Groups c with
                    | [] => if cl_Role c <>s "" then [legacyRoleToGroupName (cl_Role c)] else []
                    | gs => gs
                    end in
      Ok (mkUserInfo (cl_UserID c) (cl_Email c) groups)
  end.

(* src/internal/auth/auth.go:82-100 TokenExpiresAt *)
Definition TokenExpiresAt (tokenStr : string) (now : Time) : result (option Time) :=
  match jwt_parse secret tokenStr now with
  | Err e => Err e
  | Ok c => Ok (cl_ExpiresAt c)
  end.

(* src/internal/auth/auth.go:112-125 RequestToken *)
Definition RequestToken (r : request) : option string :=
  let bearer :=
    if HasPrefix (rq_Authorization r) "Bearer "
    then TrimSpace (TrimPrefix (rq_Authorization r) "Bearer ") else "" in
  if bearer <>s "" then Some bearer
  else match rq_cookie r with
  | Some c => if TrimSpace c <>s "" then Some c else None
  | None => None
  end.

(** [next] receives the request context's user. *)
(* src/internal/auth/auth.go:130-145 Middleware *)
Definition Middleware {A} (next : option UserInfo -> served A) (r : request) (now : Time) : served A :=
  match RequestToken r with
  | None => Reject 401
  | Some tokenStr =>
      match ValidateToken tokenStr now with
      | Err _ => Reject 401
      | Ok info => next (Some info)
      end
  end.

(* src/internal/api/middleware.go:13-28 RequirePerm *)
Definition RequirePerm {A} (p : Permission) (next : UserInfo -> A) (info : option UserInfo) : served A :=
  match info with
  | None => Reject 401
  | Some info => if negb (Has info p) then Reject 403 else Served (next info)
  end.

(** A route of the protected group: [r.With(RequirePerm(p)).Get(..., next)]. *)
Definition protected {A} (p : Permission) (next : UserInfo -> A) : request -> Time -> served A :=
  Middleware (RequirePerm p next).

End Sessions.

(** ** The login rate limiter *)

Definition loginRateLimitMaxFailures : Z := 5.
Definition loginRateLimitWindow : Duration := Minute.

(* src/internal/api/login_ratelimit.go:21-24 loginFailureWindow *)
Record loginFailureWindow := mkWindow { fw_count : Z; fw_first : Time }.
(** The limiter: its clock is passed to each operation. *)
Notation loginRateLimiter := (gmap string loginFailureWindow).

(* src/internal/api/login_ratelimit.go:26-31 newLoginRateLimiter *)
Definition newLoginRateLimiter : loginRateLimiter := ∅.

Definition expired (w : loginFailureWindow) (now : Time) : bool :=
  Z.ltb loginRateLimitWindow (Sub now (fw_first w)).

(* src/internal/api/login_ratelimit.go:33-50 allow *)
Definition allow (l : loginRateLimiter) (key : string) (now : Time) : loginRateLimiter * bool :=
  if key =s "" then (l, true)
  else match l !! key with
  | None => (l, true)
  | Some w => if expired w now then (delete key l, true)
              else (l, Z.ltb (fw_count w) loginRateLimitMaxFailures)
  end.

(* src/internal/api/login_ratelimit.go:52-67 recordFailure *)
Definition recordFailure (l : loginRateLimiter) (key : string) (now : Time) : loginRateLimiter :=
  if key =s "" then l
  else match l !! key with
  | None => <[key := mkWindow 1 now]> l
  | Some w => if expired w now then <[key := mkWindow 1 now]> l
              else <[key := mkWindow (wrap64 (fw_count w + 1)) (fw_first w)]> l
  end.

(* src/internal/api/login_ratelimit.go:69-76 reset *)
Definition reset (l : loginRateLimiter) (key : string) : loginRateLimiter :=
  if key =s "" then l else delete key l.

Definition colon : Ascii.ascii := ":"%char.
Definition close_bracket : Ascii.ascii := "]"%char.

(** [net.SplitHostPort], the host only; [None] is the error. *)
Definition SplitHostPort (s : string) : option string :=
  if HasPrefix s "[" then
    match Cut (drop_str 1 s) close_bracket with
    | (host, Some rest) =>
        match Split rest colon with
        | [""; port] => if Contains host "[" || Contains port "[" || Contains port "]" then None
                        else Some host
        | _ => None
        end
    | _ => None
    end
  else match Split s colon with
  | [host; port] => if Contains s "[" || Contains s "]" then None else Some host
  | _ => None
  end.

(* src/internal/api/login_ratelimit.go:78-83 loginRateLimitKey *)
Definition loginRateLimitKey (r : request) : string :=
  match SplitHostPort (rq_RemoteAddr r) with Some host => host | None => rq_RemoteAddr r end.

(** ** The login handler *)

(* src/pkg/models/models.go:417-422 User *)
Record User := mkUser { us_ID : string; us_Email : string; us_PasswordHash : string }.

(* src/internal/api/authhandler.go:13-16 loginRequest *)
Record loginRequest := mkLogin { lr_Email : string; lr_Password : string }.

(** What the handler reads while it runs: the decoded body ([inr code]: refused
    by the decoder), the clock when the limiter is consulted and after the
    credentials were checked, and the answers of the user store and of the audit
    logger. *)
Record login_env := mkLoginEnv {
  le_body : loginRequest + Z; le_now : Time; le_later : Time;
  le_GetUserByEmail : string -> result User; le_GetUserGroups : string -> result (list string);
  le_audit : string -> option string
}.

(** The answer and the audit actions emitted. *)
Record login_result := mkLoginResult {
  lo_code : Z; lo_token : option string; lo_audit : list string
}.

Section Login.
Context `{JwtLib} `{BcryptLib} (secret : string).

(** The branch of refused credentials, the same for an unknown user and for a
    wrong password: the failure counts only once the audit accepted it. *)
Definition refuse_credentials (l : loginRateLimiter) (v : login_env) (limitKey : string)
  : loginRateLimiter * login_result :=
  match le_audit v "auth.login.failure" with
  | Some _ => (l, mkLoginResult 503 None [])
  | None => (recordFailure l limitKey (le_later v), mkLoginResult 401 None ["auth.login.failure"])
  end.

(* src/internal/api/authhandler.go:23-97 handleLogin *)
Definition handleLogin (l : loginRateLimiter) (r : request) (v : login_env)
  : loginRateLimiter * login_result :=
  match le_body v with
  | inr code => (l, mkLoginResult code None [])
  | inl req =>
  if (lr_Email req =s "") || (lr_Password req =s "") then (l, mkLoginResult 400 None [])
  else
    let limitKey := loginRateLimitKey r in
    let '(l, allowed) := allow l limitKey (le_now v) in
    if negb allowed then (l, mkLoginResult 429 None [])
    else
      match le_GetUserByEmail v (lr_Email req) with
      | Err _ => refuse_credentials l v limitKey
      | Ok user =>
      if negb (bcrypt_match (us_PasswordHash user) (lr_Password req))
      then refuse_credentials l v limitKey
      else
        let l := reset l limitKey in
        match le_GetUserGroups v (us_ID user) with
        | Err _ => (l, mkLoginResult 500 None [])
        | Ok groupNames =>
        match GenerateToken secret (us_ID user) (us_Email user) groupNames (le_later v) with
        | Err _ => (l, mkLoginResult 500 None [])
        | Ok token =>
        match le_audit v "auth.login.success" with
        | Some _ => (l, mkLoginResult 503 None [])
        | None => (l, mkLoginResult 200 (Some token) ["auth.login.success"])
        end end end
      end
  end.

End Login.

(** ** Permissions and guarded routes *)

(** The groups a token stands for. *)
Definition effective_groups (c : claims) : list string :=
  match cl_Groups c with
  | [] => if cl_Role c <>s "" then [legacyRoleToGroupName (cl_Role c)] else []
  | gs => gs
  end.

Lemma Has_iff u p : Has u p = true <-> exists g, g ∈ ui_Groups u /\ matrix g p = true.
Proof.
  unfold Has. induction (ui_Groups u) as [|g gs IH]; simpl.
  - split; [done|]. by intros (g & Hg%not_elem_of_nil & _).
  - destruct (matrix g p) eqn:E.
    + split; [|done]. intros _. exists g. split; [by left|done].
    + rewrite IH. split; intros (h & Hh & Hm).
      * exists h. split; [by right|done].
      * apply elem_of_cons in Hh as [->|Hh]; [congruence|]. by exists h.
Qed.

(** The roles are nested and permissions only accumulate: what a viewer may
    do an editor may do, what an editor may do an administrator may do, an
    administrator may do everything, any other group grants nothing, and joining
    groups never removes a permission. *)
Theorem roles_are_nested (p : Permission) :
  (matrix "viewer" p = true -> matrix "editor" p = true) /\
  (matrix "editor" p = true -> matrix "administrator" p = true) /\
  matrix "administrator" p = true /\
  (forall g, matrix g p = true -> g = "editor" \/ g = "administrator") /\
  (forall uid email gs gs', (forall g, g ∈ gs -> g ∈ gs') ->
     Has (mkUserInfo uid email gs) p = true -> Has (mkUserInfo uid email gs') p = true).
Proof.
  split_and!.
  - by destruct p.
  - by destruct p.
  - by destruct p.
  - intros g. unfold matrix.
    destruct (g =s "viewer") eqn:E1; [done|].
    destruct (g =s "editor") eqn:E2; reflect_bools; [by left|].
    destruct (g =s "administrator") eqn:E3; reflect_bools; [by right|done].
  - intros uid email gs gs' Hsub. rewrite !Has_iff. naive_solver.
Qed.

Section Routes.
Context `{JwtLib} (secret : string).

Lemma ValidateToken_spec tok now :
  ValidateToken secret tok now =
  match jwt_parse secret tok now with
  | Err e => Err e
  | Ok c => Ok (mkUserInfo (cl_UserID c) (cl_Email c) (effective_groups c))
  end.
Proof. done. Qed.

Lemma protected_cases {A} p (next : UserInfo -> A) r now :
  protected secret p next r now =
  match tok ← RequestToken r; match jwt_parse secret tok now with Ok c => Some c | _ => None end with
  | None => Reject 401
  | Some c =>
      let u := mkUserInfo (cl_UserID c) (cl_Email c) (effective_groups c) in
      if Has u p then Served (next u) else Reject 403
  end.
Proof.
  unfold protected, Middleware. destruct (RequestToken r) as [tok|]; [|done]. simpl.
  rewrite ValidateToken_spec. destruct (jwt_parse secret tok now) as [c|]; [|done]. simpl.
  by destruct (Has _ p).
Qed.

(** A guarded handler runs exactly for requests that carry a token the
    secret verifies and one of whose groups grants the permission, and it runs as
    the user of that token; other requests get 401 (no valid token) or 403. *)
Theorem protected_route_serves_iff {A} p (next : UserInfo -> A) r now :
  (forall a, protected secret p next r now = Served a <->
     exists tok c g, RequestToken r = Some tok /\ jwt_parse secret tok now = Ok c /\
       g ∈ effective_groups c /\ matrix g p = true /\
       a = next (mkUserInfo (cl_UserID c) (cl_Email c) (effective_groups c))) /\
  (forall code, protected secret p next r now = Reject code -> code = 401%Z \/ code = 403%Z) /\
  (protected secret p next r now = Reject 403 <->
     exists tok c, RequestToken r = Some tok /\ jwt_parse secret tok now = Ok c /\
       forall g, g ∈ effective_groups c -> matrix g p = false).
Proof.
  rewrite protected_cases. destruct (RequestToken r) as [tok|]; simpl;
    [|naive_solver]. destruct (jwt_parse secret tok now) as [c|] eqn:Ec; simpl.
  2: { split_and!.
       - intros a. split; [done|]. intros (t & c & g & [= <-] & Hc & _). congruence.
       - intros code [= <-]. by left.
       - split; [done|]. intros (t & c & [= <-] & Hc & _). congruence. }
  pose proof (Has_iff (mkUserInfo (cl_UserID c) (cl_Email c) (effective_groups c)) p) as Hh.
  simpl in Hh. destruct (Has _ p) eqn:E.
  - destruct Hh as [(g & Hg & Hm) _]; [done|]. split_and!; [|done|].
    + intros a. split.
      * intros [= <-]. by exists tok, c, g.
      * intros (t & c' & g' & [= <-] & Hc & _ & _ & ->). rewrite Ec in Hc. by injection Hc as <-.
    + split; [done|]. intros (t & c' & [= <-] & Hc & Hall). rewrite Ec in Hc. injection Hc as <-.
      by rewrite Hall in Hm.
  - assert (forall g, g ∈ effective_groups c -> matrix g p = false) as Hno.
    { intros g Hg. destruct (matrix g p) eqn:Em; [|done].
      assert (false = true) by (apply Hh; eauto). done. }
    split_and!; [|intros code [= <-]; by right|split; [by exists tok, c|done]].
    intros a. split; [done|].
    intros (t & c' & g & [= <-] & Hc & Hg & Hm & _). rewrite Ec in Hc. injection Hc as <-.
    by rewrite Hno in Hm.
Qed.

End Routes.

(** ** Login *)

Section LoginProofs.
Context `{JwtLib} `{BcryptLib} (secret : string).

(** What a 200 answer implies. *)
Lemma handleLogin_success l r v tok :
  lo_token (handleLogin secret l r v).2 = Some tok ->
  exists req user groups, le_body v = inl req /\
    (allow l (loginRateLimitKey r) (le_now v)).2 = true /\
    le_GetUserByEmail v (lr_Email req) = Ok user /\
    bcrypt_match (us_PasswordHash user) (lr_Password req) = true /\
    le_GetUserGroups v (us_ID user) = Ok groups /\
    GenerateToken secret (us_ID user) (us_Email user) groups (le_later v) = Ok tok /\
    le_audit v "auth.login.success" = None.
Proof.
  unfold handleLogin. destruct (le_body v) as [req|]; [|done].
  destruct (_ || _); [done|]. destruct (allow l _ _) as [l' ok]. destruct ok; simpl; [|done].
  destruct (le_GetUserByEmail v _) as [user|] eqn:Eu.
  2: { unfold refuse_credentials. by destruct (le_audit v _). }
  destruct (bcrypt_match _ _) eqn:Eb; simpl.
  2: { unfold refuse_credentials. by destruct (le_audit v _). }
  destruct (le_GetUserGroups v _) as [gs|] eqn:Eg; [|done].
  destruct (GenerateToken _ _ _ _ _) as [t|] eqn:Et; [|done].
  destruct (le_audit v "auth.login.success") eqn:Ea; [done|]. simpl. intros [= <-].
  by exists req, user, gs.
Qed.

(** A session carries exactly the permissions of its user: when a login
    answers with a token, the credentials matched and the audit recorded the
    login; until the end of the 24 hours a request with that bearer token reaches
    a handler guarded by a permission exactly when one of the user's groups
    grants it. *)
Theorem login_session_permissions l r v tok now {A} p (next : UserInfo -> A) cookie addr :
  jwt_roundtrip -> lo_token (handleLogin secret l r v).2 = Some tok ->
  TrimSpace tok = tok -> tok <> "" -> (now < NumericDate (Add (le_later v) (24 * Hour)))%Z ->
  exists req user groups,
    le_body v = inl req /\ le_GetUserByEmail v (lr_Email req) = Ok user /\
    bcrypt_match (us_PasswordHash user) (lr_Password req) = true /\
    le_GetUserGroups v (us_ID user) = Ok groups /\
    let served := protected secret p next (mkRequest ("Bearer " +:+ tok) cookie addr) now in
    (served = Served (next (mkUserInfo (us_ID user) (us_Email user) groups)) <->
       exists g, g ∈ groups /\ matrix g p = true) /\
    (served = Reject 403 <-> forall g, g ∈ groups -> matrix g p = false).
Proof.
  intros Hj Hl Htrim Hne Hnow.
  apply handleLogin_success in Hl as (req & user & gs & Hb & _ & Hu & Hm & Hg & Ht & _).
  exists req, user, gs. split_and!; [done..|]. cbn zeta.
  unfold GenerateToken in Ht. pose proof (Hj _ _ _ _ now Ht eq_refl Hnow) as Hp.
  rewrite protected_cases. unfold RequestToken. cbn [rq_Authorization].
  rewrite HasPrefix_app, TrimPrefix_app, Htrim, (proj2 (eqb_string_false _ _) Hne). simpl.
  rewrite Hp. cbn [cl_UserID cl_Email].
  assert (effective_groups (mkClaims (us_ID user) (us_Email user) gs ""
    (Some (NumericDate (Add (le_later v) (24 * Hour)))) (Some (NumericDate (le_later v)))) = gs) as ->
    by by destruct gs.
  pose proof (Has_iff (mkUserInfo (us_ID user) (us_Email user) gs) p) as Hh. simpl in Hh.
  destruct (Has _ p).
  - destruct Hh as [(g & Hin & Hmx) _]; [done|]. split; split; [eauto|done|done|].
    intros Hall. by rewrite Hall in Hmx.
  - split; split; [done| |intros _|done].
    + intros Hex. by apply Hh in Hex.
    + intros g Hin. destruct (matrix g p) eqn:E; [|done]. assert (false = true) by (apply Hh; eauto). done.
Qed.

(** *** Throttling

    Login requests handled one after the other. *)

Notation event := (request * login_env)%type.
Definition ev_key (ev : event) : string := loginRateLimitKey ev.1.

Fixpoint serve_logins (l : loginRateLimiter) (evs : list event) : loginRateLimiter * list (event * Z) :=
  match evs with
  | [] => (l, [])
  | ev :: rest =>
      let (l', res) := handleLogin secret l ev.1 ev.2 in
      let (l'', out) := serve_logins l' rest in (l'', (ev, lo_code res) :: out)
  end.

(** The clock never goes back. *)
Fixpoint clock_ok (t : Time) (evs : list event) : Prop :=
  match evs with
  | [] => True
  | ev :: rest => (t <= le_now ev.2 <= le_later ev.2)%Z /\ clock_ok (le_later ev.2) rest
  end.

(** The request does not carry valid credentials. *)
Definition bad_credentials (ev : event) : Prop :=
  forall req user, le_body ev.2 = inl req -> le_GetUserByEmail ev.2 (lr_Email req) = Ok user ->
    bcrypt_match (us_PasswordHash user) (lr_Password req) = false.

(** Instants at which a check of credentials from [key] failed. *)
Definition failures (key : string) (out : list (event * Z)) : list Time :=
  map (fun x => le_later x.1.2) (List.filter (fun x => (ev_key x.1 =s key) && Z.eqb x.2 401) out).

Definition count_in (lo hi : Time) (l : list Time) : nat :=
  length (List.filter (fun x => Z.leb lo x && Z.leb x hi) l).

Local Notation W := loginRateLimitWindow.

(** Windows of failures, newest first: a window starts more than [W] after the
    previous one and after all its failures, and holds at most five. *)
Fixpoint chain (h : list (Time * list Time)) : Prop :=
  match h with
  | [] => True
  | (first, xs) :: h' =>
      (length xs <= 5)%nat /\ Forall (fun x => first <= x)%Z xs /\
      Forall (fun w => (w.1 + W < first)%Z /\ Forall (fun x => x <= first)%Z w.2) h' /\ chain h'
  end.

Lemma count_in_app lo hi a b : count_in lo hi (a ++ b) = (count_in lo hi a + count_in lo hi b)%nat.
Proof using. unfold count_in. by rewrite List.filter_app, length_app. Qed.

Lemma count_in_le lo hi a : (count_in lo hi a <= length a)%nat.
Proof using. apply List.filter_length_le. Qed.

Lemma count_in_zero lo hi a :
  Forall (fun x => x < lo \/ hi < x)%Z a -> count_in lo hi a = 0%nat.
Proof using.
  unfold count_in. induction 1 as [|x a Hx _ IH]; simpl; [done|].
  destruct (_ && _) eqn:E; [|done]. reflect_bools. lia.
Qed.

Lemma count_in_pos lo hi a :
  count_in lo hi a <> 0%nat -> exists x, x ∈ a /\ (lo <= x <= hi)%Z.
Proof using.
  unfold count_in. induction a as [|x a IH]; simpl; [done|].
  destruct (_ && _) eqn:E; reflect_bools.
  - intros _. exists x. split; [by left|lia].
  - intros (y & Hy & ?)%IH. exists y. split; [by right|done].
Qed.

(** No interval of the window's length meets more than two windows. *)
Lemma chain_bound h t :
  chain h -> (count_in t (t + W) (concat (map snd h)) <= 10)%nat.
Proof using.
  induction h as [|[f xs] h IH]; simpl; [vm_compute; lia|]. intros (Hlen & Hge & Hsp & Hc).
  rewrite count_in_app. specialize (IH Hc).
  destruct (decide (count_in t (t + W) xs = 0)%nat) as [->|Hpos]; [done|].
  apply count_in_pos in Hpos as (x & Hx & Hxt).
  pose proof (proj1 (Forall_forall _ _) Hge x Hx) as Hfx. simpl in Hfx.
  pose proof (count_in_le t (t + W) xs). destruct h as [|[f' ys] h]; simpl in *;
    [rewrite (count_in_zero _ _ []) by constructor; lia|].
  destruct Hc as (Hlen' & _ & Hsp' & _). rewrite count_in_app.
  pose proof (count_in_le t (t + W) ys). apply Forall_cons in Hsp as [[Hff _] _]. simpl in Hff.
  rewrite (count_in_zero t (t + W) (concat (map snd h))); [lia|].
  apply Forall_concat, Forall_fmap. eapply Forall_impl; [exact Hsp'|]. intros [f'' zs] [_ Hz].
  simpl in *. eapply Forall_impl; [exact Hz|]. simpl. lia.
Qed.

(** The limiter's entry for [key] is the newest window of the history [h]. *)
Definition linked (l : loginRateLimiter) (key : string) (t : Time) (h : list (Time * list Time)) : Prop :=
  chain h /\
  Forall (fun w => (w.1 <= t)%Z /\ Forall (fun x => x <= t)%Z w.2) h /\
  match l !! key with
  | Some w => exists xs h', h = (fw_first w, xs) :: h' /\ fw_count w = Z.of_nat (length xs)
  | None => Forall (fun w => w.1 + W < t)%Z h
  end.

Lemma linked_later l key t n h : linked l key t h -> (t <= n)%Z -> linked l key n h.
Proof using.
  intros (Hc & Hb & Hl) Hn. split_and!; [done|..].
  - eapply Forall_impl; [exact Hb|]. simpl. intros w [? Hx]. split; [lia|].
    eapply Forall_impl; [exact Hx|]. simpl. lia.
  - destruct (l !! key); [done|]. eapply Forall_impl; [exact Hl|]. simpl. lia.
Qed.

Lemma linked_lookup l l' key t h : l' !! key = l !! key -> linked l key t h -> linked l' key t h.
Proof using. intros He. unfold linked. by rewrite He. Qed.

Lemma expired_iff w n : expired w n = true <-> (fw_first w + W < n)%Z.
Proof using.
  unfold expired. rewrite Z.ltb_lt, Sub_gt_iff by (vm_compute; split; congruence). lia.
Qed.

(** Once the newest window is over, every window is. *)
Lemma chain_over f xs h n :
  chain ((f, xs) :: h) -> (f + W < n)%Z -> Forall (fun w => w.1 + W < n)%Z ((f, xs) :: h).
Proof using.
  intros (_ & _ & Hs & _) Hf. constructor; [done|]. eapply Forall_impl; [exact Hs|].
  simpl. intros w [? _]. assert (0 < W)%Z by done. lia.
Qed.

Lemma allow_linked l key t n h :
  key <> "" -> linked l key t h -> (t <= n)%Z ->
  linked (allow l key n).1 key n h /\
  ((allow l key n).2 = true -> forall w, (allow l key n).1 !! key = Some w -> (fw_count w < 5)%Z) /\
  ((allow l key n).2 = false -> (5 <= count_in (n - W) n (concat (map snd h)))%nat).
Proof using.
  intros Hk%eqb_string_false Hl Hn. apply (linked_later _ _ _ n) in Hl; [|done].
  unfold allow. rewrite Hk. destruct Hl as (Hc & Hb & Hl).
  destruct (l !! key) as [w|] eqn:Ew; simpl.
  2: { split; [|split; [by rewrite Ew|done]]. split_and!; [done..|]. by rewrite Ew. }
  destruct Hl as (xs & h' & -> & Hcount). destruct (expired w n) eqn:Ex; simpl.
  - split; [|split; [by rewrite lookup_delete_eq|done]]. split_and!; [done..|].
    rewrite lookup_delete_eq. apply expired_iff in Ex. by apply chain_over.
  - split; [|split].
    + split_and!; [done..|]. rewrite Ew. eauto.
    + intros Hlt w'. rewrite Ew. intros [= <-]. by reflect_bools.
    + intros Hge. reflect_bools. unfold loginRateLimitMaxFailures in Hge.
      rewrite count_in_app. destruct Hc as (Hlen & Hfx & _). apply Forall_cons in Hb as [[_ Hbx] _].
      assert (count_in (n - W) n xs = length xs) as ->; [|lia].
      assert (~ (fw_first w + W < n)%Z) by (rewrite <-expired_iff; congruence).
      clear -Hfx Hbx H1. unfold count_in. induction xs as [|x xs IH]; simpl; [done|].
      apply Forall_cons in Hfx as [? ?], Hbx as [? ?]. simpl in *.
      rewrite (proj2 (Z.leb_le _ _)), (proj2 (Z.leb_le _ _)) by lia. simpl. by rewrite IH.
Qed.

Lemma recordFailure_linked l key n h :
  key <> "" -> linked l key n h -> (forall w, l !! key = Some w -> (fw_count w < 5)%Z) ->
  exists h', linked (recordFailure l key n) key n h' /\
    forall lo hi, count_in lo hi (concat (map snd h')) =
                  (count_in lo hi [n] + count_in lo hi (concat (map snd h)))%nat.
Proof using.
  intros Hk%eqb_string_false (Hc & Hb & Hl) Hlt. unfold recordFailure. rewrite Hk.
  assert (Forall (fun w => w.1 + W < n)%Z h ->
    linked (<[key := mkWindow 1 n]> l) key n ((n, [n]) :: h)) as Hnew.
  { intros Ho. split_and!.
    - simpl. split_and!; [lia|by repeat constructor|..]; [|done].
      apply Forall_forall. intros w Hw. split; [by apply (proj1 (Forall_forall _ _) Ho)|].
      by apply (proj1 (Forall_forall _ _) Hb).
    - constructor; [simpl; split; [lia|by repeat constructor]|done].
    - rewrite lookup_insert_eq. by exists [n], h. }
  destruct (l !! key) as [w|] eqn:Ew.
  - specialize (Hlt w eq_refl). destruct Hl as (xs & h' & -> & Hcount).
    destruct (expired w n) eqn:Ex.
    + apply expired_iff in Ex. exists ((n, [n]) :: (fw_first w, xs) :: h').
      split; [apply Hnew; by apply chain_over|]. intros lo hi. cbn [map snd concat].
      by rewrite count_in_app.
    + exists ((fw_first w, n :: xs) :: h'). destruct Hc as (Hlen & Hge & Hsp & Hc).
      apply Forall_cons in Hb as [[Hf Hx] Hb]. simpl in Hf, Hx.
      split; [split_and!|].
      * simpl. split_and!; [lia| |done..]. by constructor.
      * constructor; [|done]. simpl. split; [done|]. by constructor.
      * rewrite lookup_insert_eq. exists (n :: xs), h'. split; [done|]. simpl.
        rewrite wrap64_id by (unfold min_int64, max_int64; lia). lia.
      * intros lo hi. cbn [map snd concat]. by rewrite <-!count_in_app.
  - exists ((n, [n]) :: h). split; [by apply Hnew|]. intros lo hi. cbn [map snd concat].
    by rewrite count_in_app.
Qed.

Lemma allow_other l k key n : k <> key -> (allow l k n).1 !! key = l !! key.
Proof using.
  intros Hne. unfold allow. destruct (k =s ""); [done|]. destruct (l !! k); [|done].
  destruct (expired _ _); simpl; [|done]. by rewrite lookup_delete_ne.
Qed.

Lemma recordFailure_other l k key n : k <> key -> recordFailure l k n !! key = l !! key.
Proof using.
  intros Hne. unfold recordFailure. destruct (k =s ""); [done|]. destruct (l !! k); [|by rewrite lookup_insert_ne].
  destruct (expired _ _); by rewrite lookup_insert_ne.
Qed.

(** The shape of a run: nothing, the limiter consulted and refused credentials,
    or the window reset. *)
Lemma handleLogin_cases l ev :
  let key := ev_key ev in let res := handleLogin secret l ev.1 ev.2 in
  let a := (allow l key (le_now ev.2)).1 in
  (res.1 = l /\ (exists req, le_body ev.2 = inl req) /\ lo_code res.2 = 400%Z)
  \/ (exists code, le_body ev.2 = inr code /\ res = (l, mkLoginResult code None []))
  \/ (res.1 = a /\ lo_code res.2 = 429%Z /\ (allow l key (le_now ev.2)).2 = false)
  \/ ((allow l key (le_now ev.2)).2 = true /\
      ((res.1 = a /\ lo_code res.2 = 503%Z) \/
       (res.1 = recordFailure a key (le_later ev.2) /\ lo_code res.2 = 401%Z) \/
       (res.1 = reset a key /\ lo_code res.2 <> 401%Z /\ lo_code res.2 <> 429%Z /\ ~ bad_credentials ev))).
Proof using.
  unfold ev_key, handleLogin. destruct ev as [r v]. simpl. destruct (le_body v) as [req|code] eqn:Eb.
  2: { right; left. eauto. }
  destruct (_ || _); [left; eauto|]. right; right.
  destruct (allow l _ _) as [a ok]. destruct ok; simpl; [|by left]. right. split; [done|].
  unfold refuse_credentials. destruct (le_GetUserByEmail v _) as [user|] eqn:Eu.
  2: { destruct (le_audit v _); simpl; auto. }
  destruct (bcrypt_match _ _) eqn:Em; simpl.
  2: { destruct (le_audit v _); simpl; auto. }
  right; right. split_and!.
  - by repeat case_match.
  - by repeat case_match.
  - by repeat case_match.
  - intros Hbad. specialize (Hbad _ _ Eb Eu). congruence.
Qed.

(** The decoder's refusals are not 401. *)
Definition decoder_ok (ev : event) : Prop := forall code, le_body ev.2 = inr code -> code <> 401%Z.

Lemma handle_linked l ev key t h :
  key <> "" -> linked l key t h -> (t <= le_now ev.2 <= le_later ev.2)%Z -> decoder_ok ev ->
  (ev_key ev = key -> bad_credentials ev) ->
  let res := handleLogin secret l ev.1 ev.2 in
  exists h', linked res.1 key (le_later ev.2) h' /\
    forall lo hi, count_in lo hi (concat (map snd h')) =
      (count_in lo hi (failures key [(ev, lo_code res.2)]) + count_in lo hi (concat (map snd h)))%nat.
Proof using.
  intros Hk Hl [Hn Hn'] Hd Hbad. cbn zeta. pose proof (handleLogin_cases l ev) as Hcases.
  cbn zeta in Hcases. set (res := handleLogin secret l ev.1 ev.2) in *.
  unfold failures. cbn [List.filter fst snd map].
  destruct (decide (ev_key ev = key)) as [He|He].
  2: { rewrite (proj2 (eqb_string_false _ _) He). exists h. split; [|done].
       apply (linked_later _ _ t); [|lia]. apply (linked_lookup l); [|done].
       destruct Hcases as [(-> & _)|[(c & _ & ->)|[(-> & _)|(_ & [[-> _]|[[-> _]|(-> & _)]])]]]; [done|done|..].
       - by apply allow_other.
       - by apply allow_other.
       - rewrite recordFailure_other by done. by apply allow_other.
       - unfold reset. destruct (_ =s ""); [by apply allow_other|].
         rewrite lookup_delete_ne by done. by apply allow_other. }
  rewrite He in *. rewrite eqb_string_refl. specialize (Hbad eq_refl).
  destruct (allow_linked l key t (le_now ev.2) h Hk Hl Hn) as (Ha & Hlt & _).
  destruct Hcases as [(-> & _ & ->)|[(c & Hc & ->)|[(-> & -> & _)|(Hok & [[-> ->]|[[-> ->]|(_ & _ & _ & Hnb)]])]]].
  - exists h. split; [apply (linked_later _ _ t); [done|lia]|done].
  - exists h. simpl. apply Hd, Z.eqb_neq in Hc. rewrite Hc.
    split; [apply (linked_later _ _ t); [done|lia]|done].
  - exists h. split; [by eapply linked_later|done].
  - exists h. split; [by eapply linked_later|done].
  - apply recordFailure_linked; [done|by eapply linked_later|by apply Hlt].
  - done.
Qed.

Lemma serve_linked evs l key t h :
  key <> "" -> linked l key t h -> clock_ok t evs -> Forall decoder_ok evs ->
  Forall (fun ev => ev_key ev = key -> bad_credentials ev) evs ->
  exists h' t', linked (serve_logins l evs).1 key t' h' /\
    (t' = match last evs with Some ev => le_later ev.2 | None => t end) /\
    forall lo hi, count_in lo hi (concat (map snd h')) =
      (count_in lo hi (failures key (serve_logins l evs).2) + count_in lo hi (concat (map snd h)))%nat.
Proof using.
  intros Hk. revert l t h. induction evs as [|ev evs IH]; intros l t h Hl Hclk Hd Hb.
  { exists h, t. done. }
  destruct Hclk as [Hn Hclk]. apply Forall_cons in Hd as [Hd1 Hd2]. apply Forall_cons in Hb as [Hb1 Hb2].
  destruct (handle_linked l ev key t h Hk Hl Hn Hd1 Hb1) as (h1 & Hl1 & Hc1).
  cbn [serve_logins]. destruct (handleLogin secret l ev.1 ev.2) as [l1 res] eqn:E1. simpl in Hl1, Hc1.
  destruct (IH l1 _ h1 Hl1 Hclk Hd2 Hb2) as (h' & t' & Hl' & Ht' & Hc').
  destruct (serve_logins l1 evs) as [l2 out] eqn:E2. exists h', t'. simpl in *. split_and!; [done|..].
  - rewrite Ht', last_cons. by destruct (last evs).
  - intros lo hi. rewrite Hc', Hc1, Nat.add_assoc. f_equal. unfold failures. cbn [List.filter fst snd].
    destruct (_ && _); simpl; [|done]. unfold count_in. simpl. destruct (_ && _); simpl; lia.
Qed.

Lemma linked_new key t : linked newLoginRateLimiter key t [].
Proof using. split_and!; [done|constructor|]. unfold newLoginRateLimiter. by rewrite lookup_empty. Qed.


(** Nobody is locked out early: when a request is refused with 429, at least
    five checks of credentials from its address failed during the minute before. *)
Theorem lockout_needs_five_failures evs ev key t0 :
  key <> "" -> ev_key ev = key -> clock_ok t0 (evs ++ [ev]) -> Forall decoder_ok evs ->
  Forall (fun ev => ev_key ev = key -> bad_credentials ev) evs ->
  (exists req, le_body ev.2 = inl req) ->
  let (l, out) := serve_logins newLoginRateLimiter evs in
  lo_code (handleLogin secret l ev.1 ev.2).2 = 429%Z ->
  (5 <= count_in (le_now ev.2 - W) (le_now ev.2) (failures key out))%nat.
Proof using.
  intros Hk He Hc Hd Hb [req Hreq].
  assert (clock_ok t0 evs /\ (match last evs with Some e => le_later e.2 | None => t0 end <= le_now ev.2)%Z)
    as [Hc1 Hn].
  { clear -Hc. revert t0 Hc. induction evs as [|e evs IH]; simpl; intros t0; [lia|].
    intros [H1 H2]. destruct (IH _ H2) as [? ?]. split; [by split|].
    rewrite last_cons. by destruct (last evs). }
  destruct (serve_linked evs newLoginRateLimiter key t0 []) as (h & t' & Hl & -> & Hcnt); [done|apply linked_new|done..|].
  destruct (serve_logins newLoginRateLimiter evs) as [l out]. simpl in *. intros H429.
  destruct (allow_linked l key _ (le_now ev.2) h Hk Hl Hn) as (_ & _ & Hno).
  specialize (Hcnt (le_now ev.2 - W)%Z (le_now ev.2)).
  pose proof (handleLogin_cases l ev) as Hcases. cbn zeta in Hcases. rewrite He, H429 in Hcases.
  destruct Hcases as [(_ & _ & ?)|[(c & Hc' & _)|[(_ & _ & Hf)|(Hok & Hrest)]]]; [done|congruence|..].
  - specialize (Hno Hf). change (count_in _ _ []) with 0%nat in Hcnt. lia.
  - by destruct Hrest as [[_ ?]|[[_ ?]|(_ & _ & ? & _)]].
Qed.

End LoginProofs.

(** ** Concrete libraries and requests *)

Section Sample.

(** Claims as text: the bits of their code. *)
Definition claims_tuple (c : claims) :=
  (cl_UserID c, cl_Email c, cl_Groups c, cl_Role c, cl_ExpiresAt c, cl_IssuedAt c).

Fixpoint bits (p : positive) : string :=
  match p with
  | xH => "e"
  | xO p => String "0"%char (bits p)
  | xI p => String "1"%char (bits p)
  end.

Fixpoint of_bits (s : string) : option positive :=
  match s with
  | String "e"%char EmptyString => Some xH
  | String "0"%char s => xO <$> of_bits s
  | String "1"%char s => xI <$> of_bits s
  | _ => None
  end.

Lemma of_bits_bits p : of_bits (bits p) = Some p.
Proof. induction p as [p IH|p IH|]; simpl; [by rewrite IH..|done]. Qed.

(** A signature that puts the secret in front; expired tokens are refused. *)
Definition text_jwt : JwtLib := {|
  jwt_sign secret c := Ok (secret +:+ bits (encode (claims_tuple c)));
  jwt_parse secret tok now :=
    match (p ← of_bits (TrimPrefix tok secret);
           decode p : option (string * string * list string * string * option Z * option Z)) with
    | Some (u, m, gs, r, x, i) =>
        if HasPrefix tok secret && match x with Some x => Z.ltb now x | None => true end
        then Ok (mkClaims u m gs r x i) else Err "token is invalid"
    | None => Err "token is malformed"
    end |}.

Lemma text_jwt_roundtrip : @jwt_roundtrip text_jwt.
Proof.
  intros secret [u m gs r x i] tok exp now [= <-] Hx Hn. simpl in *. subst x.
  rewrite TrimPrefix_app, of_bits_bits, HasPrefix_app. unfold claims_tuple. simpl.
  rewrite decode_encode. by rewrite (proj2 (Z.ltb_lt _ _) Hn).
Qed.

Definition plain_bcrypt : BcryptLib := {| bcrypt_match h p := String.eqb h p |}.

Definition peer : request := mkRequest "" None "10.0.0.7:40112".
Definition users (email : string) : result User :=
  if email =s "ada@example.org" then Ok (mkUser "u1" email "correct") else Err "no rows".
Definition attempt (password : string) (t : Time) : request * login_env :=
  (peer, mkLoginEnv (inl (mkLogin "ada@example.org" password)) t t users
           (fun _ => Ok ["viewer"; "editor"]) (fun _ => None)).

Example peer_key : loginRateLimitKey peer = "10.0.0.7".
Proof. vm_compute. reflexivity. Qed.
Example bracketed_key : SplitHostPort "[::1]:80" = Some "::1" /\ SplitHostPort "::1:80" = None.
Proof. vm_compute. split; reflexivity. Qed.

(** Five wrong passwords are checked, the sixth is refused unread. *)
Definition guesses : list (request * login_env) :=
  map (attempt "guess") [0; 1; 2; 3; 4; 5]%Z.

Example guesses_codes :
  map snd (serve_logins (H := text_jwt) (H0 := plain_bcrypt) "s." newLoginRateLimiter guesses).2 =
  [401; 401; 401; 401; 401; 429]%Z.
Proof. vm_compute. reflexivity. Qed.

Lemma guesses_bad (evs : list (request * login_env)) :
  evs = guesses \/ evs = take 5 guesses ->
  Forall (fun ev => ev_key ev = "10.0.0.7" -> @bad_credentials plain_bcrypt ev) evs.
Proof.
  intros Hevs. assert (Forall (@bad_credentials plain_bcrypt) guesses) as Hall.
  { repeat constructor; intros req user [= <-]; vm_compute; by intros [= <-]. }
  apply Forall_forall. intros ev Hin _. apply (proj1 (Forall_forall _ _) Hall).
  destruct Hevs as [-> | ->]; [done|]. by eapply elem_of_take in Hin as (? & ?%list_elem_of_lookup_2 & _).
Qed.

Lemma guesses_decoded n : Forall decoder_ok (take n guesses).
Proof. apply Forall_take. by repeat constructor. Qed.


Lemma lockout_needs_five_failures_witness :
  (5 <= count_in (5 - loginRateLimitWindow) 5
     (failures "10.0.0.7" (serve_logins (H := text_jwt) (H0 := plain_bcrypt) "s."
        newLoginRateLimiter (take 5 guesses)).2))%nat.
Proof.
  pose proof (lockout_needs_five_failures (H := text_jwt) (H0 := plain_bcrypt) "s." (take 5 guesses)
    (attempt "guess" 5) "10.0.0.7" 0) as Ht.
  destruct (serve_logins "s." newLoginRateLimiter (take 5 guesses)) as [l out] eqn:E.
  apply Ht.
  - discriminate.
  - vm_compute. reflexivity.
  - cbn. lia.
  - apply guesses_decoded.
  - apply guesses_bad. by right.
  - eexists. reflexivity.
  - apply (f_equal fst) in E. simpl in E. rewrite <-E. vm_compute. reflexivity.
Defined.

Definition session_token : string :=
  match lo_token (handleLogin (H := text_jwt) (H0 := plain_bcrypt) "s." newLoginRateLimiter peer
                    (attempt "correct" 0).2).2 with Some t => t | None => "" end.

Lemma login_session_permissions_witness :
  protected (H := text_jwt) "s." PushConfig ui_UserID
    (mkRequest ("Bearer " +:+ session_token) None "10.0.0.7:1") 1000 = Served "u1".
Proof.
  destruct (login_session_permissions (H := text_jwt) (H0 := plain_bcrypt) "s." newLoginRateLimiter peer
    (attempt "correct" 0).2 session_token 1000 PushConfig ui_UserID None "10.0.0.7:1")
    as (req & user & groups & Hb & Hu & _ & Hg & Hs & _).
  - apply text_jwt_roundtrip.
  - vm_compute. reflexivity.
  - vm_compute. reflexivity.
  - vm_compute. discriminate.
  - vm_compute. reflexivity.
  - injection Hb as <-. vm_compute in Hu. injection Hu as <-. injection Hg as <-.
    apply Hs. exists "editor". split; [right; left|reflexivity].
Defined.

End Sample.

End Access.
