(* ===== verification/Canary.v ===== *)
(** * Manual canary rollouts (internal/api/workload_canary.go,
    pkg/models/canary.go, internal/store/workload_canaries.go)

    Target selection, the canary workflow (start, observe, promote, abort,
    rollback) and the reconciliation of OpAMP statuses into it. The state is the
    canary table, the config table, the configs sent to instances and the audit
    actions; the OpAMP server, the clock and the failures of the store are read
    from an environment. *)

From S2P Require Import Prelude GoString Models Sha256 PushStatus Registry.
Import Registry.

Module Canary.

Definition CanaryStatusRunning := "running".
Definition CanaryStatusSucceeded := "succeeded".
Definition CanaryStatusPromoted := "promoted".
Definition CanaryStatusAborted := "aborted".
Definition CanaryStatusRollback := "rollback_started".
Definition CanaryStatusStopped := "stopped".
Definition CanaryStopRemoteConfigFailed := "remote_config_failed".
Definition CanaryStopCollectorDegraded := "collector_degraded".
Definition CanaryStopNoHeartbeat := "no_heartbeat".
Definition CanaryStopAlertTriggered := "alert_triggered".

(* src/pkg/models/canary.go:34-41 CanarySelection *)
Record CanarySelection := mkSelection {
  cs_Strategy : string; cs_InstanceUID : string; cs_InstanceUIDs : list string;
  cs_Count : Z; cs_Percentage : Z; cs_Labels : gmap string string
}.

(* src/pkg/models/canary.go:44-50 CanaryTarget *)
Record CanaryTarget := mkTarget {
  ct_InstanceUID : string; ct_PodName : string; ct_Status : string; ct_StopReason : string;
  ct_UpdatedAt : Time
}.

(* src/pkg/models/canary.go:53-58 CanaryCounts *)
Record CanaryCounts := mkCounts {
  cc_Pending : Z; cc_Applying : Z; cc_Applied : Z; cc_Failed : Z
}.

(* src/pkg/models/canary.go:61-76 CanaryStatus *)
Record CanaryStatus := mkCanary {
  ca_ID : string; ca_WorkloadID : string; ca_ConfigHash : string; ca_Status : string;
  ca_Selection : CanarySelection; ca_Targets : list CanaryTarget; ca_Counts : CanaryCounts;
  ca_StopReasons : list string; ca_Actor : string; ca_CreatedAt : Time; ca_UpdatedAt : Time;
  ca_PromotedAt : option Time; ca_AbortedAt : option Time; ca_RolledBackAt : option Time
}.

(* src/pkg/models/canary.go:79-85 CanaryValidationResult *)
Record CanaryValidationResult := mkValidation {
  va_Valid : bool; va_Targets : list CanaryTarget; va_StopReasons : list string;
  va_ErrorCodes : list string; va_Errors : list string
}.

Definition zero_counts : CanaryCounts := mkCounts 0 0 0 0.

Definition count_target (c : CanaryCounts) (t : CanaryTarget) : CanaryCounts :=
  let s := ct_Status t in
  if s =s PushStatus.PushStatusApplied
  then mkCounts (cc_Pending c) (cc_Applying c) (cc_Applied c + 1) (cc_Failed c)
  else if s =s PushStatus.PushStatusApplying
  then mkCounts (cc_Pending c) (cc_Applying c + 1) (cc_Applied c) (cc_Failed c)
  else if s =s PushStatus.PushStatusFailed
  then mkCounts (cc_Pending c) (cc_Applying c) (cc_Applied c) (cc_Failed c + 1)
  else mkCounts (cc_Pending c + 1) (cc_Applying c) (cc_Applied c) (cc_Failed c).

(** The distinct reasons, in the order of the targets; the source lists them in
    the order of a map iteration. *)
Definition target_reasons (ts : list CanaryTarget) : list string :=
  fold_left (fun rs t => if ct_StopReason t <>s "" then append_unique rs (ct_StopReason t) else rs) ts [].

(* src/pkg/models/canary.go:88-110 Recount *)
Definition Recount (c : CanaryStatus) : CanaryStatus :=
  mkCanary (ca_ID c) (ca_WorkloadID c) (ca_ConfigHash c) (ca_Status c) (ca_Selection c) (ca_Targets c)
    (fold_left count_target (ca_Targets c) zero_counts) (target_reasons (ca_Targets c))
    (ca_Actor c) (ca_CreatedAt c) (ca_UpdatedAt c) (ca_PromotedAt c) (ca_AbortedAt c) (ca_RolledBackAt c).

Definition set_targets (ts : list CanaryTarget) (c : CanaryStatus) : CanaryStatus :=
  mkCanary (ca_ID c) (ca_WorkloadID c) (ca_ConfigHash c) (ca_Status c) (ca_Selection c) ts
    (ca_Counts c) (ca_StopReasons c) (ca_Actor c) (ca_CreatedAt c) (ca_UpdatedAt c)
    (ca_PromotedAt c) (ca_AbortedAt c) (ca_RolledBackAt c).

Definition set_status (s : string) (c : CanaryStatus) : CanaryStatus :=
  mkCanary (ca_ID c) (ca_WorkloadID c) (ca_ConfigHash c) s (ca_Selection c) (ca_Targets c)
    (ca_Counts c) (ca_StopReasons c) (ca_Actor c) (ca_CreatedAt c) (ca_UpdatedAt c)
    (ca_PromotedAt c) (ca_AbortedAt c) (ca_RolledBackAt c).

Definition set_updated (t : Time) (c : CanaryStatus) : CanaryStatus :=
  mkCanary (ca_ID c) (ca_WorkloadID c) (ca_ConfigHash c) (ca_Status c) (ca_Selection c) (ca_Targets c)
    (ca_Counts c) (ca_StopReasons c) (ca_Actor c) (ca_CreatedAt c) t
    (ca_PromotedAt c) (ca_AbortedAt c) (ca_RolledBackAt c).

Definition set_reasons (rs : list string) (c : CanaryStatus) : CanaryStatus :=
  mkCanary (ca_ID c) (ca_WorkloadID c) (ca_ConfigHash c) (ca_Status c) (ca_Selection c) (ca_Targets c)
    (ca_Counts c) rs (ca_Actor c) (ca_CreatedAt c) (ca_UpdatedAt c)
    (ca_PromotedAt c) (ca_AbortedAt c) (ca_RolledBackAt c).

Definition set_ends (p a r : option Time) (c : CanaryStatus) : CanaryStatus :=
  mkCanary (ca_ID c) (ca_WorkloadID c) (ca_ConfigHash c) (ca_Status c) (ca_Selection c) (ca_Targets c)
    (ca_Counts c) (ca_StopReasons c) (ca_Actor c) (ca_CreatedAt c) (ca_UpdatedAt c) p a r.

(** ** The canary table *)

Notation canaries := (gmap string CanaryStatus).

(** The row as it is written: the counts and the reasons are recomputed first. *)
Definition canary_row (now : Time) (c : CanaryStatus) : CanaryStatus :=
  Recount (if IsZero (ca_UpdatedAt c) then set_updated now c else c).

(** [fault]: the statement fails, executed or not. *)
(* src/internal/store/workload_canaries.go:13-39 CreateCanaryStatus *)
Definition CreateCanaryStatus (m : canaries) (configs : gmap string string) (fault : io) (now : Time)
  (c : CanaryStatus) : canaries * option string :=
  let c := if IsZero (ca_CreatedAt c)
           then mkCanary (ca_ID c) (ca_WorkloadID c) (ca_ConfigHash c) (ca_Status c) (ca_Selection c)
                  (ca_Targets c) (ca_Counts c) (ca_StopReasons c) (ca_Actor c) now (ca_UpdatedAt c)
                  (ca_PromotedAt c) (ca_AbortedAt c) (ca_RolledBackAt c)
           else c in
  let c := Recount (if IsZero (ca_UpdatedAt c) then set_updated (ca_CreatedAt c) c else c) in
  match m !! ca_ID c, configs !! ca_ConfigHash c with
  | Some _, _ => (m, Some "duplicate key")
  | _, None => (m, Some "foreign key")
  | None, Some _ =>
      match fault with
      | IoOk => (<[ca_ID c := c]> m, None)
      | IoFail executed => (if executed then <[ca_ID c := c]> m else m, Some "exec failed")
      end
  end.

(** [UPDATE ... WHERE id = ? AND workload_id = ?]: the columns it sets. *)
Definition update_row (row c : CanaryStatus) : CanaryStatus :=
  mkCanary (ca_ID row) (ca_WorkloadID row) (ca_ConfigHash row) (ca_Status c) (ca_Selection c)
    (ca_Targets c) (ca_Counts c) (ca_StopReasons c) (ca_Actor c) (ca_CreatedAt row) (ca_UpdatedAt c)
    (ca_PromotedAt c) (ca_AbortedAt c) (ca_RolledBackAt c).

(* src/internal/store/workload_canaries.go:50-73 updateCanaryStatus *)
Definition updateCanaryStatus (m : canaries) (now : Time) (c : CanaryStatus) : canaries :=
  let c := canary_row now c in
  match m !! ca_ID c with
  | Some row => if ca_WorkloadID row =s ca_WorkloadID c then <[ca_ID c := update_row row c]> m else m
  | None => m
  end.

(* src/internal/store/workload_canaries.go:42-44 UpdateCanaryStatus *)
Definition UpdateCanaryStatus (m : canaries) (fault : io) (now : Time) (c : CanaryStatus) : canaries :=
  match fault with
  | IoOk | IoFail true => updateCanaryStatus m now c
  | IoFail false => m
  end.

(** A query that fails changes nothing; a missing row is no error. *)
(* src/internal/store/workload_canaries.go:76-83 GetCanaryStatus *)
Definition GetCanaryStatus (m : canaries) (fault : io) (workloadID canaryID : string)
  : result (option CanaryStatus) :=
  match fault with
  | IoFail _ => Err "query failed"
  | IoOk =>
      Ok match m !! canaryID with
         | Some c => if ca_WorkloadID c =s workloadID then Some (Recount c) else None
         | None => None
         end
  end.

(** The update of the first target with this instance; [None]: no such target. *)
Fixpoint report_target (ts : list CanaryTarget) (uid status : string) (at_ : Time)
  : option (list CanaryTarget) :=
  match ts with
  | [] => None
  | t :: rest =>
      if ct_InstanceUID t =s uid
      then Some (mkTarget uid (ct_PodName t) status
             (if status =s PushStatus.PushStatusFailed then CanaryStopRemoteConfigFailed else "") at_ :: rest)
      else cons t <$> report_target rest uid status at_
  end.

(** The workflow state that follows from the counts. *)
Definition state_of_counts (c : CanaryStatus) : string :=
  if Z.ltb 0 (cc_Failed (ca_Counts c)) then CanaryStatusStopped
  else if negb (Nat.eqb (length (ca_Targets c)) 0) &&
          Z.eqb (cc_Applied (ca_Counts c)) (Z.of_nat (length (ca_Targets c)))
  then CanaryStatusSucceeded
  else CanaryStatusRunning.

Definition is_active (workloadID configID : string) (c : CanaryStatus) : bool :=
  (ca_WorkloadID c =s workloadID) && (ca_ConfigHash c =s configID) &&
  ((ca_Status c =s CanaryStatusRunning) || (ca_Status c =s CanaryStatusSucceeded)).

(** The loop body for one active canary: the row to write, if it changed. *)
Definition report_canary (c : CanaryStatus) (uid status : string) (at_ : Time) : option CanaryStatus :=
  let c := Recount c in
  ts ← report_target (ca_Targets c) uid status at_;
  let c := Recount (set_updated at_ (set_targets ts c)) in
  Some (set_status (state_of_counts c) c).

(* src/internal/store/workload_canaries.go:136-156 activeCanariesForConfig *)
Definition activeCanariesForConfig (m : canaries) (workloadID configID : string) : canaries :=
  filter (fun kv => is_active workloadID configID kv.2 = true) m.

(** One transaction over the locked rows: all of it or, on a failure, nothing. *)
(* src/internal/store/workload_canaries.go:86-134 UpdateCanaryTargetStatus *)
Definition UpdateCanaryTargetStatus (m : canaries) (fault : io)
  (workloadID configID uid status : string) (updatedAt now : Time) : canaries * option string :=
  let at_ := if IsZero updatedAt then now else updatedAt in
  let active := activeCanariesForConfig m workloadID configID in
  let m' := map_fold (fun _ c acc =>
              match report_canary c uid status at_ with
              | Some c' => updateCanaryStatus acc now c'
              | None => acc
              end) m active in
  match fault with
  | IoOk => (m', None)
  | IoFail executed => (if executed then m' else m, Some "transaction failed")
  end.

(** ** Target selection *)

Definition canaryHeartbeatFreshness : Duration := (2 * Minute)%Z.

(** [time.Since(t) > canaryHeartbeatFreshness] or no message yet. *)
Definition stale_heartbeat (now : Time) (i : Instance) : bool :=
  IsZero (LastMessageAt i) || Z.ltb canaryHeartbeatFreshness (Sub now (LastMessageAt i)).

(* src/internal/api/workload_canary.go:450-452 instanceRejectsRemoteConfig *)
Definition instanceRejectsRemoteConfig (i : Instance) : bool :=
  RemoteConfigCapabilityKnown i && negb (AcceptsRemoteConfig i).

(* src/internal/api/workload_canary.go:446-448 canaryInstanceEligible *)
Definition canaryInstanceEligible (now : Time) (i : Instance) : bool :=
  negb (instanceRejectsRemoteConfig i) && Healthy i && negb (stale_heartbeat now i).

(* src/internal/api/workload_canary.go:436-444 canaryEligibleInstances *)
Definition canaryEligibleInstances (now : Time) (l : list Instance) : list Instance :=
  List.filter (canaryInstanceEligible now) l.

(** [sort.Slice] on the instance identifiers. *)
Definition sort_instances (l : list Instance) : list Instance :=
  sort_by (less_of (by_key InstanceUID str_cmp)) l.

(* src/internal/api/workload_canary.go:425-434 eligibleRemainingTargets *)
Definition eligibleRemainingTargets (now : Time) (l : list Instance) (selected : gset string)
  : list Instance :=
  sort_instances
    (List.filter (fun i => bool_decide (InstanceUID i ∉ selected) && canaryInstanceEligible now i) l).

(** The map of the instances by identifier, filled in list order. *)
Definition by_uid (l : list Instance) : gmap string Instance :=
  fold_left (fun m i => <[InstanceUID i := i]> m) l ∅.

(* src/internal/api/workload_canary.go:501-511 labelsMatch *)
Definition labelsMatch (have want : gmap string string) : bool :=
  if Nat.eqb (size want) 0 then false
  else forallb (fun kv => default "" (have !! kv.1) =s kv.2) (map_to_list want).

(** Targets, stop reasons, errors and error codes. *)
Record selection_result := mkSel {
  sr_targets : list CanaryTarget; sr_reasons : list string; sr_errors : list string;
  sr_codes : list string
}.
Definition sel_error (e : string) (codes : list string) : selection_result := mkSel [] [] [e] codes.

(** The explicit list of instances: [seen] refuses repetitions. *)
Fixpoint pick_instances (known : gmap string Instance) (bound : string -> option string) (wlID : string)
  (uids : list string) (selected : list Instance) (seen : gset string) (errs codes : list string)
  : list Instance * list string * list string :=
  match uids with
  | [] => (selected, errs, codes)
  | uid :: rest =>
      let refuse :=
        if uid <>s "" then
          match bound uid with
          | Some w => if w <>s wlID
                      then (errs ++ ["instance target belongs to a different workload: " +:+ uid],
                            append_unique codes "instance_target_cross_workload")
                      else (errs ++ ["instance target is not connected: " +:+ uid],
                            append_unique codes "instance_target_not_connected")
          | None => (errs ++ ["instance target is not connected: " +:+ uid],
                     append_unique codes "instance_target_not_connected")
          end
        else (errs, codes) in
      match known !! uid with
      | Some inst =>
          if bool_decide (uid ∈ seen)
          then pick_instances known bound wlID rest selected seen refuse.1 refuse.2
          else pick_instances known bound wlID rest (selected ++ [inst]) ({[uid]} ∪ seen) errs codes
      | None => pick_instances known bound wlID rest selected seen refuse.1 refuse.2
      end
  end.

(** [int(math.Ceil(float64(len) * float64(pct) / 100))]: the product is exact
    below 2^53 and the quotient is at least 1/100 away from any integer it does
    not equal, so the rounding of the division cannot change its ceiling. *)
Definition percent_of (len pct : Z) : Z := ((len * pct + 99) / 100)%Z.

(** The [switch] on the strategy: an early return or the selected instances. *)
Definition choose_instances (wlID : string) (labels : gmap string string) (bound : string -> option string)
  (instances eligible : list Instance) (sel : CanarySelection)
  : selection_result + (list Instance * list string * list string) :=
  let known := by_uid instances in
  let len := Z.of_nat (length eligible) in
  let strategy := cs_Strategy sel in
  if strategy =s "one" then
    let uid := cs_InstanceUID sel in
    if TrimSpace uid =s "" then inl (sel_error "instance_uid is required" ["invalid_instance_target"])
    else match known !! uid with
    | Some inst => inr ([inst], [], [])
    | None =>
        match bound uid with
        | Some w =>
            if w <>s wlID
            then inl (sel_error ("instance target belongs to a different workload: " +:+ uid)
                        ["instance_target_cross_workload"])
            else inl (sel_error ("instance target is not connected: " +:+ uid)
                        ["instance_target_not_connected"])
        | None => inl (sel_error ("instance target is not connected: " +:+ uid)
                         ["instance_target_not_connected"])
        end
    end
  else if (strategy =s "count") || (strategy =s "n") then
    let n := cs_Count sel in
    if Z.leb n 0 then inl (sel_error "count must be positive" [])
    else if Z.leb len n
    then inl (sel_error "canary target count must be smaller than eligible instances" [])
    else inr (take (Z.to_nat n) eligible, [], [])
  else if strategy =s "percentage" then
    let pct := cs_Percentage sel in
    if Z.leb pct 0 then inl (sel_error "percentage must be positive" [])
    else if Z.leb 100 pct then inl (sel_error "percentage must be less than 100" [])
    else
      let n := percent_of len pct in
      let n := if Z.ltb n 1 && Z.ltb 0 len then 1%Z else n in
      inr (if Z.ltb 0 n then take (Z.to_nat n) eligible else [], [], [])
  else if strategy =s "label_selector" then
    inr (if labelsMatch labels (cs_Labels sel) then eligible else [], [], [])
  else if strategy =s "instances" then
    inr (pick_instances known bound wlID (cs_InstanceUIDs sel) [] ∅ [] [])
  else inl (sel_error "unsupported selection strategy" []).

(** The loop that checks each selected instance. *)
Definition check_instance (now : Time) (r : selection_result) (i : Instance) : selection_result :=
  let uid := InstanceUID i in
  let '(reason, reasons, errs, codes) := ("", sr_reasons r, sr_errors r, sr_codes r) in
  let '(reason, reasons, errs, codes) :=
    if instanceRejectsRemoteConfig i
    then ("remote_config_unsupported", append_unique reasons "remote_config_unsupported",
          errs ++ ["instance does not accept remote config: " +:+ uid],
          append_unique codes "instance_remote_config_unsupported")
    else (reason, reasons, errs, codes) in
  let '(reason, reasons, errs) :=
    if negb (Healthy i)
    then (CanaryStopCollectorDegraded, append_unique reasons CanaryStopCollectorDegraded,
          errs ++ ["collector degraded: " +:+ uid])
    else (reason, reasons, errs) in
  let '(reason, reasons, errs) :=
    if stale_heartbeat now i
    then (CanaryStopNoHeartbeat, append_unique reasons CanaryStopNoHeartbeat,
          errs ++ ["stale heartbeat: " +:+ uid])
    else (reason, reasons, errs) in
  mkSel (sr_targets r ++ [mkTarget uid (PodName i) PushStatus.InstanceStatusSent reason now]) reasons errs codes.

(** [now1] is the clock of the eligibility filter, [now2] that of the checks. *)
(* src/internal/api/workload_canary.go:268-370 selectCanaryTargets *)
Definition selectCanaryTargets (wlID : string) (labels : gmap string string)
  (bound : string -> option string) (instances : list Instance) (now1 now2 : Time)
  (sel : CanarySelection) : selection_result :=
  let instances := sort_instances instances in
  let eligible := canaryEligibleInstances now1 instances in
  match choose_instances wlID labels bound instances eligible sel with
  | inl r => r
  | inr (selected, errs, codes) =>
      if negb (Nat.eqb (length errs) 0) then mkSel [] [] errs codes
      else if Nat.eqb (length selected) 0 then sel_error "canary target set is empty" []
      else
        let r := fold_left (check_instance now2) selected (mkSel [] [] [] codes) in
        if Nat.eqb (length (sr_errors r)) 0 && Nat.leb (length eligible) (length selected)
        then sel_error "canary target set must be smaller than eligible instances" []
        else r
  end.

(** ** The workflow *)

(** What a handler reads: the workload row ([Ok None]: no such row), the verdict
    of the validator ([None]: valid), the OpAMP server (connected instances,
    binding of an instance, outcome of sending a config), the open
    [canary_stop] alert, the rollback target, the audit logger, the clock, and
    the outcomes of its statements. *)
Record cenv := mkCenv {
  ev_opamp : bool; ev_GetWorkload : result (option Workload);
  ev_validate : string -> option (list string);
  ev_instances : list Instance; ev_bound : string -> option string;
  ev_push : string -> option string; ev_alert : bool;
  ev_rollback : result (option RollbackTarget); ev_audit : string -> option string;
  ev_id : string; ev_now1 : Time; ev_now2 : Time; ev_now3 : Time;
  ev_get : io; ev_config : io; ev_create : io; ev_update : io
}.

(** The tables, the configs sent (instance and content) and the audit actions. *)
Record world := mkWorld {
  cw_canaries : canaries; cw_configs : gmap string string;
  cw_sent : list (string * string); cw_audit : list string
}.

Definition with_canaries (w : world) (m : canaries) : world :=
  mkWorld m (cw_configs w) (cw_sent w) (cw_audit w).

Section Handlers.
Context (v : cenv).

(** [audit.Emit]: [None] is success. *)
Definition emit (w : world) (action : string) : world * option string :=
  match ev_audit v action with
  | None => (mkWorld (cw_canaries w) (cw_configs w) (cw_sent w) (cw_audit w ++ [action]), None)
  | Some e => (w, Some e)
  end.

(** Sends [content] to the instances in turn and stops at the first failure. *)
Fixpoint push_all (w : world) (content : string) (uids : list string) : world * option string :=
  match uids with
  | [] => (w, None)
  | uid :: rest =>
      match ev_push v uid with
      | Some _ => (w, Some uid)
      | None => push_all (mkWorld (cw_canaries w) (cw_configs w) (cw_sent w ++ [(uid, content)])
                            (cw_audit w)) content rest
      end
  end.

(* src/internal/api/workload_canary.go:520-529 markCanaryTargetFailed *)
Definition markCanaryTargetFailed (c : CanaryStatus) (uid reason : string) (now : Time) : CanaryStatus :=
  Recount (set_targets
    (map (fun t => if ct_InstanceUID t =s uid
                   then mkTarget uid (ct_PodName t) PushStatus.PushStatusFailed reason now else t)
       (ca_Targets c)) c).

(* src/internal/api/workload_canary.go:530-534 markCanaryStop *)
Definition markCanaryStop (c : CanaryStatus) (reason : string) (now : Time) : CanaryStatus :=
  set_updated now (set_status CanaryStatusStopped
    (set_reasons (append_unique (ca_StopReasons c) reason) c)).

(* src/internal/api/workload_canary.go:472-479 invalidCanary *)
Definition invalidCanary (msg reason : string) : CanaryValidationResult :=
  let rs := if reason <>s "" then [reason] else [] in mkValidation false [] rs rs [msg].

(* src/internal/api/workload_canary.go:238-266 validateCanaryRequest *)
Definition validateCanaryRequest (workloadID : string) (sel : CanarySelection) (body : string)
  : CanaryValidationResult :=
  if negb (ev_opamp v) then invalidCanary "OpAMP server not available" ""
  else match ev_GetWorkload v with
  | Err _ => invalidCanary "failed to load workload" ""
  | Ok None => invalidCanary "workload not found" ""
  | Ok (Some wl) =>
      if negb (wl_AcceptsRemoteConfig wl)
      then invalidCanary "workload does not accept remote config" "remote_config_unsupported"
      else match ev_validate v body with
      | Some msgs => mkValidation false [] [] [] ("configuration failed validation" :: msgs)
      | None =>
          let r := selectCanaryTargets (wl_ID wl) (wl_Labels wl) (ev_bound v) (ev_instances v)
                     (ev_now1 v) (ev_now2 v) sel in
          mkValidation (Nat.eqb (length (sr_errors r)) 0) (sr_targets r) (sr_reasons r) (sr_codes r)
            (sr_errors r)
      end
  end.

Definition conflict_codes : list string :=
  ["instance_target_not_connected"; "instance_target_cross_workload"; "remote_config_unsupported";
   "instance_remote_config_unsupported"].
Definition conflict_reasons : list string :=
  [CanaryStopCollectorDegraded; CanaryStopNoHeartbeat; "remote_config_unsupported"].

(* src/internal/api/workload_canary.go:454-471 canaryHTTPStatus *)
Definition canaryHTTPStatus (r : CanaryValidationResult) : Z :=
  if existsb (fun c => existsb (String.eqb c) conflict_codes) (va_ErrorCodes r) then 409
  else if existsb (fun c => existsb (String.eqb c) conflict_reasons) (va_StopReasons r) then 409
  else if existsb (fun e => Contains e "degraded" || Contains e "stale" || Contains e "remote config")
            (va_Errors r) then 409
  else 400.

(* src/internal/api/workload_canary.go:491-494 canarySHA256Hex *)
Definition canarySHA256Hex (body : string) : string := hex_encode (Sha256.Sum256 (Sha256.str_bytes body)).

(** [INSERT INTO configs], whose error the handler ignores. *)
Definition create_config (w : world) (hash content : string) : world :=
  match ev_config v, cw_configs w !! hash with
  | IoFail false, _ | _, Some _ => w
  | _, None => mkWorld (cw_canaries w) (<[hash := content]> (cw_configs w)) (cw_sent w) (cw_audit w)
  end.

(** [req] is the decoded request, with a non-blank config. *)
(* src/internal/api/workload_canary.go:48-91 handleStartCanary *)
Definition handleStartCanary (w : world) (workloadID actor body : string) (sel : CanarySelection)
  : world * Z :=
  let result := validateCanaryRequest workloadID sel body in
  if negb (va_Valid result) then (w, canaryHTTPStatus result)
  else
    let hash := canarySHA256Hex body in
    let w := create_config w hash body in
    let now := ev_now3 v in
    let targets := map (fun t => mkTarget (ct_InstanceUID t) (ct_PodName t) PushStatus.InstanceStatusSent
                                   (ct_StopReason t) now) (va_Targets result) in
    let status := mkCanary (ev_id v) workloadID hash CanaryStatusRunning sel targets zero_counts []
                    actor now now None None None in
    match CreateCanaryStatus (cw_canaries w) (cw_configs w) (ev_create v) now status with
    | (m, Some _) => (with_canaries w m, 500%Z)
    | (m, None) =>
        match push_all (with_canaries w m) body (map ct_InstanceUID targets) with
        | (w, Some uid) =>
            let status := set_status CanaryStatusStopped
                            (markCanaryTargetFailed status uid CanaryStopRemoteConfigFailed now) in
            (with_canaries w (UpdateCanaryStatus (cw_canaries w) (ev_update v) now status), 502%Z)
        | (w, None) =>
            match emit w "config.canary.start" with
            | (w, Some _) => (w, 503%Z)
            | (w, None) => (w, 202%Z)
            end
        end
    end.

(** The stop reason the connected instances give to a target, if any. *)
Definition observe_target (now : Time) (known : gmap string Instance) (t : CanaryTarget)
  : CanaryTarget * bool :=
  let reason r := mkTarget (ct_InstanceUID t) (ct_PodName t) (ct_Status t) r (ct_UpdatedAt t) in
  match known !! ct_InstanceUID t with
  | None => (reason CanaryStopNoHeartbeat, true)
  | Some i =>
      if negb (Healthy i) then (reason CanaryStopCollectorDegraded, true)
      else if stale_heartbeat now i then (reason CanaryStopNoHeartbeat, true)
      else (t, false)
  end.

(* src/internal/api/workload_canary.go:372-412 loadCanaryWithHealth *)
Definition loadCanaryWithHealth (w : world) (workloadID canaryID : string)
  : world * result (option CanaryStatus) :=
  match GetCanaryStatus (cw_canaries w) (ev_get v) workloadID canaryID with
  | Err e => (w, Err e)
  | Ok None => (w, Ok None)
  | Ok (Some status) =>
      let now := ev_now1 v in
      let seen := map (observe_target now (by_uid (ev_instances v))) (ca_Targets status) in
      let status := set_targets (map fst seen) status in
      let changed := existsb snd seen in
      let '(status, changed) :=
        if ev_alert v then (markCanaryStop status CanaryStopAlertTriggered now, true)
        else (status, changed) in
      let status := Recount status in
      let '(status, changed) :=
        if negb (Nat.eqb (length (ca_StopReasons status)) 0) && (ca_Status status =s CanaryStatusRunning)
        then (set_status CanaryStatusStopped status, true) else (status, changed) in
      if changed then
        let status := set_updated now status in
        let w := with_canaries w (UpdateCanaryStatus (cw_canaries w) (ev_update v) now status) in
        ((emit w "config.canary.stopped").1, Ok (Some status))
      else (w, Ok (Some status))
  end.

(* src/internal/api/workload_canary.go:93-104 handleGetCanary *)
Definition handleGetCanary (w : world) (workloadID canaryID : string) : world * Z :=
  match loadCanaryWithHealth w workloadID canaryID with
  | (w, Err _) => (w, 500%Z)
  | (w, Ok None) => (w, 404%Z)
  | (w, Ok (Some _)) => (w, 200%Z)
  end.

(* src/internal/api/workload_canary.go:106-158 handlePromoteCanary *)
Definition handlePromoteCanary (w : world) (workloadID canaryID : string) : world * Z :=
  match loadCanaryWithHealth w workloadID canaryID with
  | (w, Err _) => (w, 500%Z)
  | (w, Ok None) => (w, 404%Z)
  | (w, Ok (Some status)) =>
      if ca_Status status <>s CanaryStatusSucceeded then (w, 409%Z)
      else if Z.ltb 0 (cc_Failed (ca_Counts status)) || negb (Nat.eqb (length (ca_StopReasons status)) 0)
      then (w, 409%Z)
      else if negb (Z.eqb (cc_Applied (ca_Counts status)) (Z.of_nat (length (ca_Targets status))))
      then (w, 409%Z)
      else match (match ev_config v with IoOk => cw_configs w !! ca_ConfigHash status | _ => None end) with
      | None => (w, 500%Z)
      | Some content =>
          let selected : gset string := list_to_set (map ct_InstanceUID (ca_Targets status)) in
          let remaining := eligibleRemainingTargets (ev_now2 v) (ev_instances v) selected in
          match push_all w content (map InstanceUID remaining) with
          | (w, Some _) =>
              let status := set_status CanaryStatusStopped
                              (markCanaryStop status CanaryStopRemoteConfigFailed (ev_now3 v)) in
              (with_canaries w (UpdateCanaryStatus (cw_canaries w) (ev_update v) (ev_now3 v) status), 502%Z)
          | (w, None) =>
              let now := ev_now3 v in
              let status := set_status CanaryStatusPromoted (set_updated now
                              (set_ends (Some now) (ca_AbortedAt status) (ca_RolledBackAt status) status)) in
              let w := with_canaries w (UpdateCanaryStatus (cw_canaries w) (ev_update v) now status) in
              match emit w "config.canary.promote" with
              | (w, Some _) => (w, 503%Z)
              | (w, None) => (w, 202%Z)
              end
          end
      end
  end.

(* src/internal/api/workload_canary.go:160-181 handleAbortCanary *)
Definition handleAbortCanary (w : world) (workloadID canaryID : string) : world * Z :=
  match GetCanaryStatus (cw_canaries w) (ev_get v) workloadID canaryID with
  | Err _ => (w, 500%Z)
  | Ok None => (w, 404%Z)
  | Ok (Some status) =>
      let now := ev_now1 v in
      let status := set_status CanaryStatusAborted (set_updated now
                      (set_ends (ca_PromotedAt status) (Some now) (ca_RolledBackAt status) status)) in
      let w := with_canaries w (UpdateCanaryStatus (cw_canaries w) (ev_update v) now status) in
      match emit w "config.canary.abort" with
      | (w, Some _) => (w, 503%Z)
      | (w, None) => (w, 200%Z)
      end
  end.

(* src/internal/api/workload_canary.go:414-423 rollbackConfigForCanary *)
Definition rollbackConfigForCanary : result WorkloadConfig :=
  match ev_rollback v with
  | Err e => Err e
  | Ok None => Err "no rollback target available"
  | Ok (Some t) => if wc_Content (rt_Config t) =s "" then Err "no rollback target available"
                   else Ok (rt_Config t)
  end.

(* src/internal/api/workload_canary.go:183-217 handleRollbackCanary *)
Definition handleRollbackCanary (w : world) (workloadID canaryID : string) : world * Z :=
  match GetCanaryStatus (cw_canaries w) (ev_get v) workloadID canaryID with
  | Err _ => (w, 500%Z)
  | Ok None => (w, 404%Z)
  | Ok (Some status) =>
      match rollbackConfigForCanary with
      | Err _ => (w, 409%Z)
      | Ok cfg =>
          match push_all w (wc_Content cfg) (map ct_InstanceUID (ca_Targets status)) with
          | (w, Some _) =>
              let status := markCanaryStop status CanaryStopRemoteConfigFailed (ev_now3 v) in
              (with_canaries w (UpdateCanaryStatus (cw_canaries w) (ev_update v) (ev_now3 v) status), 502%Z)
          | (w, None) =>
              let now := ev_now3 v in
              let status := set_status CanaryStatusRollback (set_updated now
                              (set_ends (ca_PromotedAt status) (ca_AbortedAt status) (Some now) status)) in
              let w := with_canaries w (UpdateCanaryStatus (cw_canaries w) (ev_update v) now status) in
              match emit w "config.canary.rollback" with
              | (w, Some _) => (w, 503%Z)
              | (w, None) => (w, 202%Z)
              end
          end
      end
  end.

End Handlers.

(** ** Counts *)

Definition is_status (s : string) (t : CanaryTarget) : bool := ct_Status t =s s.
Definition tally (s : string) (ts : list CanaryTarget) : Z :=
  Z.of_nat (length (List.filter (is_status s) ts)).

Lemma tally_cons s t ts : tally s (t :: ts) = ((if ct_Status t =s s then 1 else 0) + tally s ts)%Z.
Proof. unfold tally, is_status. simpl. destruct (_ =s _); simpl; lia. Qed.

Lemma fold_count ts c :
  let r := fold_left count_target ts c in
  cc_Applied r = (cc_Applied c + tally "applied" ts)%Z /\
  cc_Applying r = (cc_Applying c + tally "applying" ts)%Z /\
  cc_Failed r = (cc_Failed c + tally "failed" ts)%Z /\
  (cc_Pending r + cc_Applying r + cc_Applied r + cc_Failed r =
   cc_Pending c + cc_Applying c + cc_Applied c + cc_Failed c + Z.of_nat (length ts))%Z.
Proof.
  revert c. induction ts as [|t ts IH]; intros c; cbn [fold_left].
  - unfold tally. simpl. lia.
  - cbn zeta in *. destruct (IH (count_target c t)) as (-> & -> & -> & ->).
    rewrite !tally_cons. unfold count_target, PushStatus.PushStatusApplied, PushStatus.PushStatusApplying,
      PushStatus.PushStatusFailed. cbn [length].
    destruct (ct_Status t =s "applied") eqn:E1; reflect_bools; [rewrite ?E1; simpl; lia|].
    destruct (ct_Status t =s "applying") eqn:E2; reflect_bools; [rewrite ?E2; simpl; lia|].
    destruct (ct_Status t =s "failed") eqn:E3; reflect_bools; [rewrite ?E3; simpl; lia|].
    simpl. lia.
Qed.

Lemma tally_all s ts : tally s ts = Z.of_nat (length ts) <-> Forall (fun t => ct_Status t = s) ts.
Proof.
  assert (forall ts, tally s ts <= Z.of_nat (length ts))%Z as Hle.
  { intros l. unfold tally. pose proof (List.filter_length_le (is_status s) l). lia. }
  induction ts as [|t ts IH]; [done|]. rewrite tally_cons, Forall_cons, <-IH. cbn [length].
  specialize (Hle ts). destruct (ct_Status t =s s) eqn:E; reflect_bools; [split; [intros; split; [done|lia]|lia]|].
  split; [lia|]. by intros [? _].
Qed.

Lemma tally_zero s ts : tally s ts = 0%Z <-> Forall (fun t => ct_Status t <> s) ts.
Proof.
  induction ts as [|t ts IH]; [done|]. rewrite tally_cons, Forall_cons, <-IH.
  assert (0 <= tally s ts)%Z by (unfold tally; lia).
  destruct (ct_Status t =s s) eqn:E; reflect_bools; split; intros; naive_solver lia.
Qed.

Lemma elem_of_target_reasons ts r :
  r ∈ target_reasons ts <-> r <> "" /\ exists t, t ∈ ts /\ ct_StopReason t = r.
Proof.
  unfold target_reasons.
  assert (forall acc, r ∈ fold_left (fun rs t => if ct_StopReason t <>s ""
            then append_unique rs (ct_StopReason t) else rs) ts acc <->
          r ∈ acc \/ (r <> "" /\ exists t, t ∈ ts /\ ct_StopReason t = r)) as Hg.
  { induction ts as [|t ts IH]; intros acc; cbn [fold_left].
    - split; [by left|]. intros [?|(_ & t & []%not_elem_of_nil & _)]; done.
    - rewrite IH. destruct (ct_StopReason t =s "") eqn:E; simpl; reflect_bools.
      + set_solver.
      + rewrite elem_of_append_unique. split.
        * intros [[?| ->]|?]; [by left|right|right]; [|set_solver]. split; [done|]. exists t. set_solver.
        * intros [?|(Hr & u & [->|Hu]%elem_of_cons & Hs)]; [by left; left|left; right; done|].
          right. eauto. }
  rewrite Hg. split; [intros [[]%not_elem_of_nil|?]; done|by right].
Qed.

Lemma target_reasons_nil ts : target_reasons ts = [] <-> Forall (fun t => ct_StopReason t = "") ts.
Proof.
  split.
  - intros Hn. apply Forall_forall. intros t Ht. destruct (decide (ct_StopReason t = "")) as [|Hne]; [done|].
    assert (ct_StopReason t ∈ target_reasons ts) as Hin by (apply elem_of_target_reasons; eauto).
    rewrite Hn in Hin. by apply not_elem_of_nil in Hin.
  - intros Hall. destruct (target_reasons ts) as [|r rs] eqn:E; [done|].
    assert (r ∈ target_reasons ts) as (Hne & t & Ht & Hr)%elem_of_target_reasons by (rewrite E; by left).
    by rewrite (proj1 (Forall_forall _ _) Hall t Ht) in Hr.
Qed.

(** The counters shown for a canary are those of its targets: the four
    buckets partition the targets, each counts the targets in that state, the
    stop reasons are exactly the reasons of the targets, and recounting again
    changes nothing. *)
Theorem Recount_summarizes_targets c :
  let r := Recount c in let n := ca_Counts r in
  (cc_Pending n + cc_Applying n + cc_Applied n + cc_Failed n = Z.of_nat (length (ca_Targets c)))%Z /\
  cc_Applied n = tally "applied" (ca_Targets c) /\ cc_Applying n = tally "applying" (ca_Targets c) /\
  cc_Failed n = tally "failed" (ca_Targets c) /\
  (forall reason, reason ∈ ca_StopReasons r <->
     reason <> "" /\ exists t, t ∈ ca_Targets c /\ ct_StopReason t = reason) /\
  Recount r = r.
Proof.
  cbn zeta. destruct (fold_count (ca_Targets c) zero_counts) as (H1 & H2 & H3 & H4).
  cbn [Recount ca_Counts ca_StopReasons]. rewrite H4, H1, H2, H3. simpl. split_and!; try lia; [|done].
  intros reason. apply elem_of_target_reasons.
Qed.

(** ** Selection *)

Lemma by_uid_Some l uid i : by_uid l !! uid = Some i -> i ∈ l /\ InstanceUID i = uid.
Proof.
  unfold by_uid.
  assert (forall m : gmap string Instance,
    fold_left (fun m i => <[InstanceUID i := i]> m) l m !! uid = Some i ->
    m !! uid = Some i \/ (i ∈ l /\ InstanceUID i = uid)) as Hg.
  { induction l as [|j l IH]; intros m; cbn [fold_left]; [by left|].
    intros [Hm|[? ?]]%IH; [|set_solver].
    apply lookup_insert_Some in Hm as [[<- <-]|[_ ?]]; [right; set_solver|by left]. }
  intros [Hm|?]%Hg; [by rewrite lookup_empty in Hm|done].
Qed.

(** Instances taken from the connected ones, each at most once. *)
Definition chosen (l selected : list Instance) : Prop :=
  (forall i, i ∈ selected -> i ∈ l) /\ NoDup (map InstanceUID selected).

Lemma pick_instances_chosen l bound wlID uids sel seen errs codes :
  chosen l sel -> (forall i, i ∈ sel -> InstanceUID i ∈ seen) ->
  chosen l (pick_instances (by_uid l) bound wlID uids sel seen errs codes).1.1.
Proof.
  revert sel seen errs codes. induction uids as [|uid uids IH]; intros sel seen errs codes Hc Hs; [done|].
  cbn [pick_instances]. destruct (by_uid l !! uid) as [i|] eqn:Eu; [|by apply IH].
  destruct (bool_decide (uid ∈ seen)) eqn:Es; [by apply IH|]. reflect_bools.
  apply by_uid_Some in Eu as [Hi <-]. destruct Hc as [Hin Hnd]. apply IH; [split|].
  - intros j [?| ->%list_elem_of_singleton]%elem_of_app; auto.
  - rewrite map_app, NoDup_app. split_and!; [done| |apply NoDup_singleton].
    intros u (j & -> & Hj)%list_elem_of_fmap Hu%list_elem_of_singleton.
    apply Hs in Hj. by rewrite Hu in Hj.
  - intros j [?| ->%list_elem_of_singleton]%elem_of_app; set_solver.
Qed.

Lemma chosen_sub l k : NoDup (map InstanceUID l) -> sublist k l -> chosen l k.
Proof.
  intros Hn Hs. split.
  - intros i Hi. by eapply elem_of_sublist.
  - eapply sublist_NoDup; [exact Hn|]. by apply (fmap_sublist InstanceUID).
Qed.

Lemma filter_sublist {A} (f : A -> bool) (l : list A) : sublist (List.filter f l) l.
Proof. induction l as [|x l IH]; simpl; [done|]. destruct (f x); by constructor. Qed.

Lemma choose_instances_chosen wlID labels bound l now sel selected errs codes :
  NoDup (map InstanceUID l) ->
  choose_instances wlID labels bound l (canaryEligibleInstances now l) sel = inr (selected, errs, codes) ->
  chosen l selected.
Proof.
  intros Hn. unfold choose_instances.
  assert (chosen l []) as H0 by (split; [by intros i []%not_elem_of_nil|constructor]).
  assert (forall n, chosen l (take n (canaryEligibleInstances now l))) as Htake.
  { intros n. apply chosen_sub; [done|]. etrans; [apply sublist_take|apply filter_sublist]. }
  case_if.
  { case_if; [done|]. destruct (by_uid l !! _) as [i|] eqn:Ei; [|by repeat case_match].
    intros [= <- _ _]. apply by_uid_Some in Ei as [Hi _]. split; [|apply NoDup_singleton].
    by intros j ->%list_elem_of_singleton. }
  case_if. { case_if; [done|]. case_if; [done|]. intros [= <- _ _]. apply Htake. }
  case_if. { case_if; [done|]. case_if; [done|]. intros [= <- _ _]. case_if; [apply Htake|done]. }
  case_if. { intros [= <- _ _]. case_if; [|done]. apply chosen_sub; [done|apply filter_sublist]. }
  case_if; [|done]. intros [= Hp].
  pose proof (pick_instances_chosen l bound wlID (cs_InstanceUIDs sel) [] ∅ [] []) as Hc.
  rewrite Hp in Hc. apply Hc; [done|]. by intros i []%not_elem_of_nil.
Qed.

(** An instance fit to receive a config at [now]. *)
Definition fit (now : Time) (i : Instance) : Prop :=
  instanceRejectsRemoteConfig i = false /\ Healthy i = true /\ stale_heartbeat now i = false.

Definition clean_target (now : Time) (i : Instance) : CanaryTarget :=
  mkTarget (InstanceUID i) (PodName i) PushStatus.InstanceStatusSent "" now.

Lemma check_instance_fit now r i :
  sr_errors (check_instance now r i) = [] <-> sr_errors r = [] /\ fit now i.
Proof.
  unfold check_instance, fit. destruct (instanceRejectsRemoteConfig i), (Healthy i), (stale_heartbeat now i);
    simpl; rewrite ?app_nil; naive_solver.
Qed.

Lemma check_instance_clean now r i :
  fit now i -> check_instance now r i =
    mkSel (sr_targets r ++ [clean_target now i]) (sr_reasons r) (sr_errors r) (sr_codes r).
Proof. intros (H1 & H2 & H3). unfold check_instance. by rewrite H1, H2, H3. Qed.

Lemma check_all now l r :
  sr_errors (fold_left (check_instance now) l r) = [] ->
  sr_errors r = [] /\ Forall (fit now) l /\
  fold_left (check_instance now) l r =
    mkSel (sr_targets r ++ map (clean_target now) l) (sr_reasons r) [] (sr_codes r).
Proof.
  revert r. induction l as [|i l IH]; intros r; cbn [fold_left].
  - intros Hr. split_and!; [done|constructor|]. rewrite app_nil_r. destruct r. simpl in *. by subst.
  - intros (Hr & Hl & Heq)%IH. apply check_instance_fit in Hr as [Hr Hi].
    rewrite Heq, (check_instance_clean _ _ _ Hi). simpl. rewrite <-app_assoc.
    split_and!; [done|by constructor|done].
Qed.

Lemma sort_instances_perm l : sort_instances l ≡ₚ l.
Proof. apply sort_by_perm. Qed.

Lemma selection_safe wlID labels bound instances now1 now2 sel :
  NoDup (map InstanceUID instances) ->
  let r := selectCanaryTargets wlID labels bound instances now1 now2 sel in
  sr_errors r = [] ->
  exists selected, chosen instances selected /\ selected <> [] /\
    (length selected < length (canaryEligibleInstances now1 instances))%nat /\
    Forall (fit now2) selected /\ sr_targets r = map (clean_target now2) selected /\ sr_reasons r = [].
Proof.
  intros Hn. cbn zeta. unfold selectCanaryTargets.
  set (l := sort_instances instances).
  assert (NoDup (map InstanceUID l)) as Hnl.
  { unfold l. rewrite (fmap_Permutation InstanceUID _ _ (sort_instances_perm instances) : map _ _ ≡ₚ _). done. }
  destruct (choose_instances _ _ _ _ _ _) as [r|[[selected errs] codes]] eqn:Ec.
  { intros Hr. exfalso. revert Ec Hr. unfold choose_instances. repeat case_match; intros [= <-]; done. }
  apply choose_instances_chosen in Ec as [Hin Hnd]; [|done].
  case_if; [reflect_bools; by destruct errs|]. case_if; [done|]. reflect_bools.
  set (r := fold_left _ _ _). destruct (_ && _) eqn:Eb; [done|]. intros Hr.
  assert (Nat.eqb (length (sr_errors r)) 0 = true) as Hz by by rewrite Hr. rewrite Hz in Eb. simpl in Eb.
  apply Nat.leb_gt in Eb. apply check_all in Hr as (_ & Hfit & Heq). exists selected.
  split_and!; [|by intros ->| |done|by unfold r; rewrite Heq|by unfold r; rewrite Heq].
  - split; [|done]. intros i Hi. apply Hin in Hi. unfold l, sort_instances in Hi.
    by rewrite elem_of_sort_by in Hi.
  - unfold canaryEligibleInstances. rewrite <-(Permutation_length (filter_perm (canaryInstanceEligible now1) _ _ (sort_instances_perm instances))).
    exact Eb.
Qed.

(** A canary is a safe, proper subset: whenever the selection reports no
    error, the targets are a non-empty set of distinct connected instances, all
    accepting remote config, healthy and with a fresh heartbeat, and there are
    strictly fewer of them than eligible instances. *)
Theorem selected_targets_are_safe wlID labels bound instances now1 now2 sel :
  NoDup (map InstanceUID instances) ->
  let r := selectCanaryTargets wlID labels bound instances now1 now2 sel in
  sr_errors r = [] ->
  sr_targets r <> [] /\ NoDup (map ct_InstanceUID (sr_targets r)) /\ sr_reasons r = [] /\
  (length (sr_targets r) < length (canaryEligibleInstances now1 instances))%nat /\
  forall t, t ∈ sr_targets r -> exists i, i ∈ instances /\ ct_InstanceUID t = InstanceUID i /\
    canaryInstanceEligible now2 i = true /\ ct_StopReason t = "".
Proof.
  intros Hn. cbn zeta. intros Hr.
  destruct (selection_safe _ _ _ _ _ _ _ Hn Hr) as (selected & [Hin Hnd] & Hne & Hlen & Hfit & -> & ->).
  split_and!.
  - by destruct selected.
  - by rewrite map_map.
  - done.
  - by rewrite length_map.
  - intros t (i & -> & Hi)%list_elem_of_fmap. exists i. split_and!; [auto|done| |done].
    destruct (proj1 (Forall_forall _ _) Hfit i Hi) as (H1 & H2 & H3).
    unfold canaryInstanceEligible. by rewrite H1, H2, H3.
Qed.

(** The strategy [label_selector] never yields a canary: it selects every
    eligible instance or none, and both are refused. *)
Theorem label_selector_never_selects wlID labels bound instances now1 now2 sel :
  cs_Strategy sel = "label_selector" ->
  sr_errors (selectCanaryTargets wlID labels bound instances now1 now2 sel) <> [].
Proof.
  intros Hs. unfold selectCanaryTargets, choose_instances. rewrite Hs. cbn [String.eqb Ascii.eqb Bool.eqb].
  simpl. destruct (labelsMatch _ _); [|done]. case_if; [done|].
  destruct (Nat.eqb (length (sr_errors _)) 0) eqn:Ez; simpl.
  - by rewrite Nat.leb_refl.
  - intros Hr. by rewrite Hr in Ez.
Qed.

(** ** Sending *)

Lemma push_all_spec v w content uids :
  exists sent rest, uids = sent ++ rest /\
    (push_all v w content uids).1 =
      mkWorld (cw_canaries w) (cw_configs w) (cw_sent w ++ map (fun u => (u, content)) sent) (cw_audit w) /\
    ((push_all v w content uids).2 = None -> rest = []) /\
    (forall uid, (push_all v w content uids).2 = Some uid -> exists rest', rest = uid :: rest').
Proof.
  revert w. induction uids as [|uid uids IH]; intros w; cbn [push_all].
  - exists [], []. simpl. rewrite app_nil_r. by destruct w.
  - destruct (ev_push v uid) as [e|].
    + exists [], (uid :: uids). simpl. rewrite app_nil_r. split_and!; [done|by destruct w|done|].
      intros u [= <-]. eauto.
    + destruct (IH (mkWorld (cw_canaries w) (cw_configs w) (cw_sent w ++ [(uid, content)]) (cw_audit w)))
        as (sent & rest & -> & -> & H1 & H2).
      exists (uid :: sent), rest. simpl. rewrite <-app_assoc. done.
Qed.

Lemma emit_sent v w a : cw_sent (emit v w a).1 = cw_sent w /\ cw_canaries (emit v w a).1 = cw_canaries w /\
  cw_configs (emit v w a).1 = cw_configs w.
Proof. unfold emit. by destruct (ev_audit v a). Qed.

(** What a loaded canary in a promotable state says of its row. *)
Definition promotable (v : cenv) (w : world) (workloadID canaryID : string) (row : CanaryStatus) : Prop :=
  cw_canaries w !! canaryID = Some row /\ ca_WorkloadID row = workloadID /\
  ca_Status row = CanaryStatusSucceeded /\ ev_alert v = false /\
  Forall (fun t => ct_Status t = "applied" /\ ct_StopReason t = "" /\
    exists i, i ∈ ev_instances v /\ InstanceUID i = ct_InstanceUID t /\ Healthy i = true /\
      stale_heartbeat (ev_now1 v) i = false) (ca_Targets row).

Lemma observe_same now known t :
  ct_StopReason (observe_target now known t).1 = "" ->
  observe_target now known t = (t, false) /\ exists i, known !! ct_InstanceUID t = Some i /\
    Healthy i = true /\ stale_heartbeat now i = false.
Proof.
  unfold observe_target. destruct (known !! _) as [i|]; [|done].
  destruct (Healthy i) eqn:Eh; simpl; [|done]. destruct (stale_heartbeat now i) eqn:Es; simpl; [done|eauto].
Qed.

Lemma load_promotable v w wid cid w' status :
  loadCanaryWithHealth v w wid cid = (w', Ok (Some status)) ->
  ca_Status status = CanaryStatusSucceeded -> ca_StopReasons status = [] ->
  cc_Applied (ca_Counts status) = Z.of_nat (length (ca_Targets status)) ->
  exists row, promotable v w wid cid row /\ w' = w /\ status = Recount row.
Proof.
  unfold loadCanaryWithHealth, GetCanaryStatus. destruct (ev_get v); [|done].
  destruct (cw_canaries w !! cid) as [row|] eqn:Er; [|done].
  destruct (ca_WorkloadID row =s wid) eqn:Ew; [|done]. reflect_bools.
  cbn [Recount ca_Targets]. set (seen := map (observe_target (ev_now1 v) (by_uid (ev_instances v))) (ca_Targets row)).
  destruct (ev_alert v) eqn:Ea.
  { destruct (negb _ && _); intros Hload Hst; apply (f_equal snd) in Hload; by injection Hload as <-. }
  destruct (negb _ && _) eqn:Eb.
  { intros Hload Hst. apply (f_equal snd) in Hload. by injection Hload as <-. }
  intros Hload Hst Hrs Happ.
  assert (target_reasons (map fst seen) = []) as Hnil.
  { destruct (existsb snd seen); apply (f_equal snd) in Hload; injection Hload as <-; exact Hrs. }
  apply target_reasons_nil in Hnil. rewrite Forall_map in Hnil.
  unfold seen in Hnil. rewrite Forall_map in Hnil.
  assert (seen = map (fun t => (t, false)) (ca_Targets row)) as Hseen.
  { unfold seen. apply map_ext_Forall. eapply Forall_impl; [exact Hnil|]. intros t Ht. by apply observe_same. }
  assert (existsb snd seen = false) as Hex.
  { rewrite Hseen. clear. induction (ca_Targets row); done. }
  rewrite Hex in Hload. injection Hload as <- <-. rewrite Hseen, map_map, map_id in *.
  cbn [Recount set_targets ca_Status ca_Counts ca_Targets] in Happ, Hst.
  destruct (fold_count (ca_Targets row) zero_counts) as (H1 & _). rewrite H1 in Happ.
  apply tally_all in Happ. exists row. split_and!; [|done|done].
  split_and!; [done..|]. apply Forall_forall. intros t Ht.
  pose proof (proj1 (Forall_forall _ _) Hnil t Ht) as Ho. simpl in Ho.
  apply observe_same in Ho as Ho'. destruct Ho' as [He (i & Hi & Hh & Hs)]. rewrite He in Ho.
  apply by_uid_Some in Hi as [Hin Hu].
  split_and!; [by apply (proj1 (Forall_forall _ _) Happ)|done|by exists i].
Qed.

(** The configs sent from [w] to [w']. *)
Definition sent_between (w w' : world) (new : list (string * string)) : Prop := cw_sent w' = cw_sent w ++ new.

Lemma load_sent v w wid cid : cw_sent (loadCanaryWithHealth v w wid cid).1 = cw_sent w.
Proof.
  unfold loadCanaryWithHealth. destruct (GetCanaryStatus _ _ _ _) as [[c|]|]; [|done..].
  repeat case_match; simplify_eq; try done; simpl; by rewrite (proj1 (emit_sent _ _ _)).
Qed.

(** Rows carry their primary key. *)
Definition canary_keys (m : canaries) : Prop := forall k c, m !! k = Some c -> ca_ID c = k.

Lemma canary_row_ID now c : ca_ID (canary_row now c) = ca_ID c.
Proof. unfold canary_row. by destruct (IsZero _). Qed.

Lemma canary_row_WorkloadID now c : ca_WorkloadID (canary_row now c) = ca_WorkloadID c.
Proof. unfold canary_row. by destruct (IsZero _). Qed.

Lemma updateCanaryStatus_lookup m now c row :
  m !! ca_ID c = Some row -> ca_WorkloadID row = ca_WorkloadID c ->
  updateCanaryStatus m now c !! ca_ID c = Some (update_row row (canary_row now c)).
Proof.
  intros Hm Hw. unfold updateCanaryStatus.
  rewrite canary_row_ID, canary_row_WorkloadID, Hm, (proj2 (eqb_string_true _ _) Hw). by rewrite lookup_insert_eq.
Qed.

Lemma update_row_status row now c : ca_Status (update_row row (canary_row now c)) = ca_Status c.
Proof. unfold canary_row. by destruct (IsZero _). Qed.

Lemma update_row_targets row now c : ca_Targets (update_row row (canary_row now c)) = ca_Targets c.
Proof. unfold canary_row. by destruct (IsZero _). Qed.

(** The rest of the fleet once the canary's targets are served: the eligible
    instances that are not targets, by identifier. *)
Definition is_rest (v : cenv) (row : CanaryStatus) (rest : list Instance) : Prop :=
  rest ≡ₚ filter (fun i => InstanceUID i ∉ map ct_InstanceUID (ca_Targets row) /\
                           canaryInstanceEligible (ev_now2 v) i = true) (ev_instances v) /\
  StronglySorted (fun i j => str_cmp (InstanceUID i) (InstanceUID j) <> Gt) rest.

Lemma remaining_is_rest v row :
  is_rest v row (eligibleRemainingTargets (ev_now2 v) (ev_instances v)
    (list_to_set (map ct_InstanceUID (ca_Targets row)))).
Proof.
  split; [|apply (sort_by_sorted (by_key InstanceUID str_cmp))].
  unfold eligibleRemainingTargets, sort_instances. rewrite sort_by_perm.
  induction (ev_instances v) as [|i l IH]; [done|]. rewrite filter_cons. cbn [List.filter].
  case_decide as Hd; destruct (_ && _) eqn:E; rewrite IH; try done; exfalso.
  - destruct Hd as [Hu He]. rewrite He, andb_true_r in E. reflect_bools. set_solver.
  - apply Hd. reflect_bools. split; [|done]. set_solver.
Qed.

(** The effect of a promotion that took [w] to [w'] and answered [code]: the
    configs [sent] are an initial part of what the rest of the fleet needs. *)
Definition promotion (v : cenv) (w : world) (wid cid : string) (w' : world) (code : Z) : Prop :=
  exists sent, cw_sent w' = cw_sent w ++ sent /\
  (sent <> [] \/ code = 202%Z -> exists row content rest later,
     promotable v w wid cid row /\ cw_configs w !! ca_ConfigHash row = Some content /\
     is_rest v row rest /\ map (fun i => (InstanceUID i, content)) rest = sent ++ later /\
     (later <> [] -> code = 502%Z) /\
     (code = 202%Z -> ev_update v = IoOk -> exists row',
        cw_canaries w' !! cid = Some row' /\ ca_Status row' = CanaryStatusPromoted)).

Lemma promotion_refused v w wid cid w' code :
  cw_sent w' = cw_sent w -> code <> 202%Z -> promotion v w wid cid w' code.
Proof. intros Hs Hc. exists []. rewrite app_nil_r. split; [done|]. by intros [?|?]. Qed.

(** Recording the end of the promotion. *)
Lemma promoted_row v w cid row now now' c :
  canary_keys (cw_canaries w) -> cw_canaries w !! cid = Some row -> ev_update v = IoOk ->
  ca_ID c = ca_ID row -> ca_WorkloadID c = ca_WorkloadID row ->
  exists row', UpdateCanaryStatus (cw_canaries w) (ev_update v) now
      (set_status CanaryStatusPromoted (set_updated now' c)) !! cid = Some row' /\
    ca_Status row' = CanaryStatusPromoted.
Proof.
  intros Hkeys Hrow Hup Hid Hwl. pose proof (Hkeys _ _ Hrow) as Hr. unfold UpdateCanaryStatus. rewrite Hup.
  set (d := set_status _ _). assert (ca_ID d = cid) as Hd by (change (ca_ID c = cid); congruence).
  rewrite <-Hd. exists (update_row row (canary_row now d)). split; [|apply update_row_status].
  apply updateCanaryStatus_lookup; [by rewrite Hd|]. change (ca_WorkloadID row = ca_WorkloadID c). congruence.
Qed.

(** C9: A promotion pushes only what the canary proved and to all the rest: a
    config is sent only when the stored canary succeeded with every target
    applied, connected, healthy and without stop reason; it is the canary's
    config, it goes to the remaining eligible instances in order, up to the first
    failure (502); an answer 202 means that every one of them was served and that
    the canary is recorded as promoted when the update succeeds. *)
Theorem promote_pushes_exactly_the_rest v w wid cid :
  canary_keys (cw_canaries w) ->
  let (w', code) := handlePromoteCanary v w wid cid in promotion v w wid cid w' code.
Proof.
  intros Hkeys. unfold handlePromoteCanary. pose proof (load_sent v w wid cid) as Hsent.
  destruct (loadCanaryWithHealth v w wid cid) as [w1 r] eqn:El. simpl in Hsent.
  destruct r as [[status|]|]; [|by apply promotion_refused..].
  destruct (ca_Status status =s CanaryStatusSucceeded) eqn:Es; simpl; [|by apply promotion_refused].
  destruct (Z.ltb 0 _ || _) eqn:Ef; [by apply promotion_refused|].
  destruct (Z.eqb _ _) eqn:Ea; simpl; [|by apply promotion_refused].
  destruct (match ev_config v with IoOk => _ | _ => _ end) as [content|] eqn:Ec; [|by apply promotion_refused].
  reflect_bools. assert (ca_StopReasons status = []) as Hnil by by destruct (ca_StopReasons status).
  destruct (load_promotable v w wid cid w1 status El Es Hnil Ea) as (row & Hp & -> & ->).
  assert (cw_configs w !! ca_ConfigHash row = Some content) as Hcfg by (by destruct (ev_config v)).
  cbn [Recount ca_Targets]. pose proof (remaining_is_rest v row) as Hrest.
  set (rest := eligibleRemainingTargets _ _ _) in *.
  destruct (push_all_spec v w content (map InstanceUID rest))
    as (sent & later & Hsplit & Hw' & Hok & Hbad).
  assert (map (fun i => (InstanceUID i, content)) rest =
    map (fun u => (u, content)) sent ++ map (fun u => (u, content)) later) as Hmap.
  { by rewrite <-map_app, <-Hsplit, map_map. }
  destruct (push_all v w content _) as [w2 [uid|]]; simpl in Hw', Hok, Hbad; subst w2.
  - exists (map (fun u => (u, content)) sent). split; [done|]. intros _.
    exists row, content, rest, (map (fun u => (u, content)) later). split_and!; try done; apply Hrest.
  - rewrite (Hok eq_refl) in *. unfold emit.
    destruct (ev_audit v _); (exists (map (fun u => (u, content)) sent); split; [done|]; intros _;
      exists row, content, rest, []; split_and!; try done; try apply Hrest).
    intros _ Hup. destruct Hp as (Hrow & _). by apply (promoted_row v w cid row).
Qed.

(** Starting a canary touches only its targets: configs are sent only after
    validation, only to the selected targets, in order and up to the first
    failure; an answer 202 means that all targets were served and that the canary
    is stored as running with exactly these targets. *)
Theorem start_pushes_only_the_targets v w wid actor body sel :
  let (w', code) := handleStartCanary v w wid actor body sel in
  let result := validateCanaryRequest v wid sel body in
  exists sent later, cw_sent w' = cw_sent w ++ sent /\
    (sent <> [] -> va_Valid result = true /\
       map (fun t => (ct_InstanceUID t, body)) (va_Targets result) = sent ++ later) /\
    (code = 202%Z -> later = [] /\ va_Valid result = true /\
       map (fun t => (ct_InstanceUID t, body)) (va_Targets result) = sent /\
       exists row, cw_canaries w' !! ev_id v = Some row /\ ca_Status row = CanaryStatusRunning /\
         ca_WorkloadID row = wid /\ ca_ConfigHash row = canarySHA256Hex body /\
         map ct_InstanceUID (ca_Targets row) = map ct_InstanceUID (va_Targets result)).
Proof.
  unfold handleStartCanary. cbn zeta. set (result := validateCanaryRequest v wid sel body).
  destruct (va_Valid result) eqn:Ev; simpl.
  2: { exists [], []. rewrite app_nil_r. split_and!; [done..|]. unfold canaryHTTPStatus.
       by repeat case_match. }
  set (targets := map _ (va_Targets result)). set (status := mkCanary _ _ _ _ _ _ _ _ _ _ _ _ _ _).
  set (w1 := create_config v w (canarySHA256Hex body) body).
  assert (cw_sent w1 = cw_sent w) as Hs1 by (unfold w1, create_config; by repeat case_match).
  destruct (CreateCanaryStatus _ _ _ _ status) as [m [err|]] eqn:Ec.
  { exists [], []. simpl. rewrite app_nil_r. by split_and!. }
  assert (exists row, m !! ev_id v = Some row /\ ca_Status row = CanaryStatusRunning /\
    ca_WorkloadID row = wid /\ ca_ConfigHash row = canarySHA256Hex body /\ ca_Targets row = targets) as Hrow.
  { unfold CreateCanaryStatus in Ec. repeat case_match; simplify_eq;
      eexists; rewrite lookup_insert_eq; done. }
  assert (map ct_InstanceUID targets = map ct_InstanceUID (va_Targets result)) as Hids
    by (unfold targets; by rewrite map_map).
  destruct (push_all_spec v (with_canaries w1 m) body (map ct_InstanceUID targets))
    as (sent & later & Hsplit & Hw' & Hok & Hbad).
  assert (map (fun t => (ct_InstanceUID t, body)) (va_Targets result) =
    map (fun u => (u, body)) sent ++ map (fun u => (u, body)) later) as Hmap
    by by rewrite <-map_app, <-Hsplit, Hids, map_map.
  destruct (push_all v _ body _) as [w2 [uid|]]; simpl in Hw', Hok, Hbad; subst w2.
  - exists (map (fun u => (u, body)) sent), (map (fun u => (u, body)) later). simpl.
    rewrite Hs1. by split_and!.
  - rewrite (Hok eq_refl), app_nil_r in Hmap. unfold emit.
    destruct Hrow as (row & Hm & H1 & H2 & H3 & H4).
    destruct (ev_audit v _); simpl; exists (map (fun u => (u, body)) sent), []; rewrite Hs1, app_nil_r;
      split_and!; try done. intros _. split_and!; [done..|]. exists row. by rewrite H4, Hids.
Qed.

(** ** Reported statuses *)

Lemma report_target_ids ts uid status at_ ts' :
  report_target ts uid status at_ = Some ts' -> map ct_InstanceUID ts' = map ct_InstanceUID ts.
Proof.
  revert ts'. induction ts as [|t ts IH]; intros ts'; cbn [report_target]; [done|].
  destruct (ct_InstanceUID t =s uid) eqn:E; reflect_bools.
  - intros [= <-]. simpl. by rewrite E.
  - intros (k & Hk & ->)%fmap_Some. simpl. by rewrite (IH k Hk).
Qed.

Lemma report_target_None ts uid status at_ :
  report_target ts uid status at_ = None <-> uid ∉ map ct_InstanceUID ts.
Proof.
  induction ts as [|t ts IH]; cbn [report_target map]; [split; [set_solver|done]|].
  destruct (ct_InstanceUID t =s uid) eqn:E; reflect_bools.
  - split; [done|]. intros []. rewrite E. by left.
  - rewrite fmap_None, IH. set_solver.
Qed.

(** The row a report leaves behind. *)
Definition reported (c : CanaryStatus) (uid status : string) (at_ now : Time) : CanaryStatus :=
  match report_canary c uid status at_ with
  | Some c' => update_row c (canary_row now c')
  | None => c
  end.

Lemma report_canary_key c uid status at_ c' :
  report_canary c uid status at_ = Some c' ->
  ca_ID c' = ca_ID c /\ ca_WorkloadID c' = ca_WorkloadID c.
Proof. unfold report_canary. by intros (ts & _ & [= <-])%bind_Some. Qed.

(** The transaction rewrites each active row and nothing else. *)
Lemma report_lookup m wid cfg uid status updatedAt now id :
  canary_keys m ->
  let at_ := if IsZero updatedAt then now else updatedAt in
  (UpdateCanaryTargetStatus m IoOk wid cfg uid status updatedAt now).1 !! id =
  (fun c => if is_active wid cfg c then reported c uid status at_ now else c) <$> m !! id.
Proof.
  intros Hkeys. cbn zeta. unfold UpdateCanaryTargetStatus, activeCanariesForConfig.
  set (at_ := if IsZero updatedAt then now else updatedAt). cbn [fst].
  set (P := fun (acc done : canaries) => done ⊆ m -> forall id, acc !! id =
    match done !! id with Some c => Some (reported c uid status at_ now) | None => m !! id end).
  assert (forall done : canaries, P (map_fold (fun _ c acc => match report_canary c uid status at_ with
      | Some c' => updateCanaryStatus acc now c' | None => acc end) m done) done) as HP.
  { apply (map_fold_weak_ind (fun acc done => P acc done)); unfold P; clear P.
    - intros _ k. by rewrite lookup_empty.
    - intros i c done acc Hi IH Hsub k. rewrite lookup_insert.
      assert (m !! i = Some c) as Hmi by (eapply lookup_weaken; [|exact Hsub]; apply lookup_insert_eq).
      assert (done ⊆ m) as Hsub' by (etrans; [by apply insert_subseteq|exact Hsub]). specialize (IH Hsub').
      assert (acc !! i = Some c) as Hacc by by rewrite IH, Hi.
      destruct (report_canary c uid status at_) as [c'|] eqn:Er.
      + apply report_canary_key in Er as Hc. destruct Hc as [Hid Hwl]. rewrite (Hkeys i c Hmi) in Hid.
        case_decide as Hik.
        { subst k. unfold reported. rewrite Er, <-Hid. apply updateCanaryStatus_lookup; congruence. }
        unfold updateCanaryStatus.
        rewrite canary_row_ID, Hid, Hacc. case_if; [rewrite lookup_insert_ne by done|]; apply IH.
      + case_decide as Hik; [subst k; unfold reported; by rewrite Er|apply IH]. }
  rewrite HP by apply map_filter_subseteq. rewrite map_lookup_filter.
  destruct (m !! id) as [c|]; [|done]. simpl. destruct (is_active wid cfg c); [|done].
  by rewrite option_guard_True.
Qed.

Lemma state_of_counts_spec c :
  let s := state_of_counts (Recount c) in
  (s = CanaryStatusStopped <-> exists t, t ∈ ca_Targets c /\ ct_Status t = "failed") /\
  (s = CanaryStatusSucceeded <->
     ca_Targets c <> [] /\ Forall (fun t => ct_Status t = "applied") (ca_Targets c)) /\
  (s = CanaryStatusStopped \/ s = CanaryStatusSucceeded \/ s = CanaryStatusRunning).
Proof.
  cbn zeta. unfold state_of_counts. cbn [Recount ca_Counts ca_Targets].
  destruct (fold_count (ca_Targets c) zero_counts) as (-> & _ & -> & _). cbn [cc_Applied cc_Failed zero_counts].
  rewrite !Z.add_0_l. assert (0 <= tally "failed" (ca_Targets c))%Z by (unfold tally; lia).
  destruct (Z.ltb 0 _) eqn:Ef; reflect_bools.
  - assert (exists t, t ∈ ca_Targets c /\ ct_Status t = "failed") as (t & Ht & Hf).
    { destruct (decide (Exists (fun t => ct_Status t = "failed") (ca_Targets c))) as [Hx|Hx].
      - apply Exists_exists in Hx as (t & Ht & Hs). eauto.
      - rewrite <-Forall_Exists_neg in Hx. apply tally_zero in Hx. lia. }
    split_and!; [split; [eauto|done]| |by left]. split; [done|]. intros [_ Hall].
    by rewrite (proj1 (Forall_forall _ _) Hall t Ht) in Hf.
  - assert (tally "failed" (ca_Targets c) = 0)%Z as Hz%tally_zero by lia.
    assert (~ exists t, t ∈ ca_Targets c /\ ct_Status t = "failed") as Hnf.
    { intros (t & Ht & Hs). by apply (proj1 (Forall_forall _ _) Hz t Ht). }
    destruct (negb _ && Z.eqb _ _) eqn:Ea; reflect_bools.
    + apply tally_all in H1. split_and!; [by split|split; [|done]|by right; left]. intros _. split; [|done].
      by intros Hn; rewrite Hn in *.
    + split_and!; [by split| |by right; right]. split; [done|]. intros [Hne Hall].
      apply tally_all in Hall. rewrite (proj2 (Z.eqb_eq _ _) Hall) in Ea.
      by destruct (ca_Targets c).
Qed.

(** A status reported by an instance moves exactly the canaries it concerns:
    rows of other workloads or configs, finished canaries (promoted, aborted,
    stopped, rolled back) and canaries without this instance are left alone; in
    the others the target takes the status, and the canary is stopped exactly
    when a target failed, succeeded exactly when all targets applied, and running
    otherwise. *)
Theorem report_reconciles_active_canaries m wid cfg uid status updatedAt now id row :
  canary_keys m -> m !! id = Some row ->
  let m' := (UpdateCanaryTargetStatus m IoOk wid cfg uid status updatedAt now).1 in
  (is_active wid cfg row = false \/ uid ∉ map ct_InstanceUID (ca_Targets row) -> m' !! id = Some row) /\
  (is_active wid cfg row = true -> uid ∈ map ct_InstanceUID (ca_Targets row) ->
   exists row', m' !! id = Some row' /\
     map ct_InstanceUID (ca_Targets row') = map ct_InstanceUID (ca_Targets row) /\
     (ca_Status row' = CanaryStatusStopped <-> exists t, t ∈ ca_Targets row' /\ ct_Status t = "failed") /\
     (ca_Status row' = CanaryStatusSucceeded <->
        Forall (fun t => ct_Status t = "applied") (ca_Targets row')) /\
     (ca_Status row' = CanaryStatusStopped \/ ca_Status row' = CanaryStatusSucceeded \/
      ca_Status row' = CanaryStatusRunning)).
Proof.
  intros Hkeys Hrow. cbn zeta. rewrite report_lookup by done. cbn zeta. rewrite Hrow.
  cbn [fmap option_fmap option_map]. unfold reported, report_canary. cbn [Recount ca_Targets]. split.
  - intros [Ha|Hu]; [by rewrite Ha|]. apply report_target_None with (status := status)
      (at_ := if IsZero updatedAt then now else updatedAt) in Hu. rewrite Hu. simpl. by destruct (is_active _ _ _).
  - intros -> Hu. destruct (report_target _ _ _ _) as [ts|] eqn:Er.
    2: { by apply report_target_None in Er. }
    apply report_target_ids in Er as Hids. cbn [mbind option_bind].
    eexists. split; [done|]. rewrite update_row_status.
    rewrite update_row_targets. cbn [set_status ca_Targets Recount set_updated set_targets ca_Status].
    split; [done|]. destruct (state_of_counts_spec (set_updated
      (if IsZero updatedAt then now else updatedAt) (set_targets ts (Recount row)))) as (H1 & H2 & H3).
    cbn [ca_Targets set_updated set_targets] in H1, H2. split_and!; [done| |done].
    rewrite <-(and_True (Forall _ ts)). etrans; [exact H2|].
    assert (ts <> []) by (intros ->; simpl in Hids; rewrite <-Hids in Hu; by apply not_elem_of_nil in Hu).
    naive_solver.
Qed.

(** ** A concrete rollout *)

Section Sample.
Local Open Scope Z_scope.

Definition collector (uid : string) (healthy : bool) : Instance :=
  mkInstance uid ("pod-" +:+ uid) "0.100.0" Second (100 * Second) "" healthy true true None.
Definition fleet : list Instance :=
  [collector "c" true; collector "a" true; collector "b" true; collector "d" false].
Definition one_of_three : CanarySelection := mkSelection "count" "" [] 1 0 ∅.

Definition sample_env (id : string) (alert : bool) : cenv :=
  mkCenv true (Ok (Some (mkWorkload "w" "" ∅ "w" "collector" "" "connected" 0 ∅ None "" None None None
                           true None None)))
    (fun _ => None) fleet (fun _ => None) (fun _ => None) alert (Ok None) (fun _ => None) id
    (101 * Second) (101 * Second) (102 * Second) IoOk IoOk IoOk IoOk.

Definition empty_world : world := mkWorld ∅ ∅ [] [].
Definition started : world := (handleStartCanary (sample_env "c1" false) empty_world "w" "ada" "cfg" one_of_three).1.
Definition hash : string := canarySHA256Hex "cfg".
Definition applied : world :=
  with_canaries started
    (UpdateCanaryTargetStatus (cw_canaries started) IoOk "w" hash "a" "applied" (101 * Second) 0).1.

Example started_sent : cw_sent started = [("a", "cfg")].
Proof. vm_compute. reflexivity. Qed.

Example promotion_serves_the_rest :
  let (w, code) := handlePromoteCanary (sample_env "" false) applied "w" "c1" in
  code = 202 /\ cw_sent w = [("a", "cfg"); ("b", "cfg"); ("c", "cfg")] /\
  (ca_Status <$> cw_canaries w !! "c1") = Some "promoted".
Proof. vm_compute. split_and!; reflexivity. Qed.

(** The reason recorded by [markCanaryStop] does not survive the recount that
    follows: the canary is stored as stopped without any stop reason. *)
Example stop_reason_is_lost :
  let (w, _) := handleGetCanary (sample_env "" true) started "w" "c1" in
  ((fun c => (ca_Status c, ca_StopReasons c)) <$> cw_canaries w !! "c1") = Some ("stopped", []).
Proof. vm_compute. reflexivity. Qed.

(** Reading a promoted canary while the alert is open turns it into a stopped one. *)
Example reading_stops_a_promoted_canary :
  let (w, _) := handlePromoteCanary (sample_env "" false) applied "w" "c1" in
  let (w', _) := handleGetCanary (sample_env "" true) w "w" "c1" in
  (ca_Status <$> cw_canaries w' !! "c1") = Some "stopped".
Proof. vm_compute. reflexivity. Qed.

(** A repeated identifier of a connected instance is reported as not connected. *)
Example repeated_instance_is_reported_disconnected :
  sr_errors (selectCanaryTargets "w" ∅ (fun _ => Some "w") fleet (101 * Second) (101 * Second)
    (mkSelection "instances" "" ["a"; "a"] 0 0 ∅)) = ["instance target is not connected: a"].
Proof. vm_compute. reflexivity. Qed.

Lemma fleet_distinct : NoDup (map InstanceUID fleet).
Proof. apply (bool_decide_unpack _). vm_compute. exact I. Qed.

Lemma selected_targets_are_safe_witness :
  sr_targets (selectCanaryTargets "w" ∅ (fun _ => None) fleet (101 * Second) (101 * Second) one_of_three)
  <> [].
Proof.
  apply (selected_targets_are_safe "w" ∅ (fun _ => None) fleet (101 * Second) (101 * Second) one_of_three).
  - exact fleet_distinct.
  - vm_compute. reflexivity.
Defined.

Lemma label_selector_never_selects_witness :
  sr_errors (selectCanaryTargets "w" {[ "env" := "prod" ]} (fun _ => None) fleet (101 * Second) (101 * Second)
    (mkSelection "label_selector" "" [] 0 0 {[ "env" := "prod" ]})) <> [].
Proof. apply label_selector_never_selects. reflexivity. Defined.

Lemma applied_keys : canary_keys (cw_canaries applied).
Proof.
  intros k c Hk. assert (map_Forall (fun k c => ca_ID c = k) (cw_canaries applied)) as Hall.
  { apply (bool_decide_unpack _). vm_compute. exact I. }
  exact (Hall k c Hk).
Qed.

Lemma promote_pushes_exactly_the_rest_witness :
  promotion (sample_env "" false) applied "w" "c1"
    (handlePromoteCanary (sample_env "" false) applied "w" "c1").1 202.
Proof.
  assert ((handlePromoteCanary (sample_env "" false) applied "w" "c1").2 = 202) as Hcode
    by (vm_compute; reflexivity).
  pose proof (promote_pushes_exactly_the_rest (sample_env "" false) applied "w" "c1" applied_keys) as Hp.
  destruct (handlePromoteCanary (sample_env "" false) applied "w" "c1") as [w' code].
  simpl in Hcode. subst code. exact Hp.
Defined.

Lemma report_reconciles_active_canaries_witness :
  exists row', (UpdateCanaryTargetStatus (cw_canaries applied) IoOk "w" hash "a" "failed" (103 * Second) 0).1
    !! "c1" = Some row' /\ ca_Status row' = CanaryStatusStopped.
Proof.
  destruct (cw_canaries applied !! "c1") as [row|] eqn:E; [|vm_compute in E; discriminate E].
  destruct (report_reconciles_active_canaries (cw_canaries applied) "w" hash "a" "failed" (103 * Second) 0
    "c1" row applied_keys E) as [_ Hact].
  destruct Hact as (row' & Hrow & _ & Hst & _).
  - vm_compute in E. injection E as <-. vm_compute. reflexivity.
  - vm_compute in E. injection E as <-. left.
  - exists row'. split; [exact Hrow|]. apply Hst. vm_compute in Hrow. injection Hrow as <-.
    eexists. split; [left|reflexivity].
Defined.

End Sample.

End Canary.
