(* ===== verification/Fingerprint.v ===== *)
(** * Workload identity (internal/opamp/fingerprint.go and the attribute
    helpers of server.go)

    An agent announces itself with OpAMP attributes; [flattenAttrs] turns them
    into a string map, [Fingerprint] derives the identity of the workload the
    instance belongs to and [classifyAgent] its kind. The theorems: the
    identity is a function of the identity attributes only (and of the
    instance UID only as a last resort), it is 24 hexadecimal characters, and
    two identities with different keys share an ID only when the hash collides
    or when an attribute holds the separator. *)

From S2P Require Import Prelude GoString Sha256.
Import Sha256.Sha256.

Module Fingerprint.

(** The [AnyValue] of the OpAMP protocol: the code reads the string case only. *)
Inductive AnyValue := StringValue (s : string) | OtherValue.
Record KeyValue := mkKeyValue { kv_Key : string; kv_Value : option AnyValue }.

Definition GetStringValue (v : AnyValue) : string :=
  match v with StringValue s => s | OtherValue => "" end.

Notation attributes := (gmap string string).

(** Reading a Go map: the zero value for an absent key. *)
Definition attr (m : attributes) (k : string) : string := default "" (m !! k).

Definition add_attr (out : attributes) (kv : option KeyValue) : attributes :=
  match kv with
  | Some (mkKeyValue k (Some v)) =>
      if GetStringValue v <>s "" then <[k := GetStringValue v]> out else out
  | _ => out
  end.

(* src/internal/opamp/server.go:467-486 flattenAttrs *)
Definition flattenAttrs (identifying nonIdentifying : list (option KeyValue)) : attributes :=
  let out := foldl add_attr ∅ identifying in
  foldl add_attr out nonIdentifying.

(* src/internal/opamp/fingerprint.go:11-15 FingerprintResult *)
Record FingerprintResult := mkFingerprint {
  fp_ID : string; fp_Source : string; fp_Keys : gmap string string
}.

(* src/internal/opamp/fingerprint.go:17-26 k8sWorkloadAttrs *)
Definition k8sWorkloadAttrs : list (string * string) :=
  [ ("k8s.deployment.name", "deployment");
    ("k8s.daemonset.name", "daemonset");
    ("k8s.statefulset.name", "statefulset");
    ("k8s.job.name", "job");
    ("k8s.cronjob.name", "cronjob") ].

(* src/internal/opamp/fingerprint.go:75-78 hash24 *)
Definition hash24 (s : string) : string := take_str 24 (hex_encode (Sum256 (str_bytes s))).

(** The loop over the workload kinds: the first named one. *)
Fixpoint first_named (attrs : attributes) (ws : list (string * string)) : option (string * string) :=
  match ws with
  | [] => None
  | (a, kind) :: ws' =>
      let name := attr attrs a in
      if name <>s "" then Some (kind, name) else first_named attrs ws'
  end.

(* src/internal/opamp/fingerprint.go:33-73 Fingerprint *)
Definition Fingerprint (attrs : attributes) (instanceUID : string) : FingerprintResult :=
  let namespace := attr attrs "k8s.namespace.name" in
  match (if namespace <>s "" then first_named attrs k8sWorkloadAttrs else None) with
  | Some (kind, name) =>
      let cluster := attr attrs "k8s.cluster.name" in
      let cluster := if cluster =s "" then "unknown" else cluster in
      let raw := "k8s|" +:+ cluster +:+ "|" +:+ namespace +:+ "|" +:+ kind +:+ "|" +:+ name in
      mkFingerprint (hash24 raw) "k8s"
        (list_to_map [("cluster", cluster); ("namespace", namespace); ("kind", kind); ("name", name)])
  | None =>
      let serviceName := attr attrs "service.name" in
      let host := attr attrs "host.name" in
      if host <>s "" then
        let raw := "host|" +:+ serviceName +:+ "|" +:+ host in
        mkFingerprint (hash24 raw) "host"
          (list_to_map [("service.name", serviceName); ("host.name", host)])
      else
        let raw := "uid|" +:+ instanceUID in
        mkFingerprint (hash24 raw) "uid" (list_to_map [("instance_uid", instanceUID)])
  end.

Section Classify.
Context `{UnicodeTables}.

(* src/internal/opamp/server.go:1201-1206 isCollectorName *)
Definition isCollectorName (name : string) : bool :=
  let n := ToLower name in
  HasPrefix n "otelcol" || Contains n "opentelemetry-collector" ||
  Contains n "opentelemetry.collector".

(* src/internal/opamp/server.go:1182-1196 classifyAgent *)
Definition classifyAgent (attrs : attributes) : string :=
  if attr attrs "otelcol.version" <>s "" then "collector"
  else if Contains (ToLower (attr attrs "os.description")) "otelcol" then "collector"
  else if attr attrs "telemetry.sdk.language" <>s "" then "sdk"
  else if isCollectorName (attr attrs "service.name") then "collector"
  else "sdk".

End Classify.

(** ** Flattening *)

(** The value an attribute list gives to a key: its last non-empty string. *)
Definition announced (k : string) (kv : option KeyValue) : option string :=
  match kv with
  | Some (mkKeyValue k' (Some v)) =>
      if (k' =s k) && (GetStringValue v <>s "") then Some (GetStringValue v) else None
  | _ => None
  end.

Fixpoint last_announced (k : string) (l : list (option KeyValue)) : option string :=
  match l with
  | [] => None
  | kv :: l' => match last_announced k l' with Some v => Some v | None => announced k kv end
  end.

Lemma add_attr_lookup out kv k :
  add_attr out kv !! k = match announced k kv with Some v => Some v | None => out !! k end.
Proof.
  destruct kv as [[k' [v|]]|]; simpl; [|done..].
  destruct (GetStringValue v <>s "") eqn:E; [|by rewrite andb_false_r].
  rewrite andb_true_r. destruct (k' =s k) eqn:Ek; reflect_bools.
  - subst k'. by rewrite lookup_insert_eq.
  - by rewrite lookup_insert_ne.
Qed.

Lemma fold_add_attr_lookup l out k :
  foldl add_attr out l !! k = match last_announced k l with Some v => Some v | None => out !! k end.
Proof.
  revert out. induction l as [|kv l IH]; intros out; simpl; [done|].
  rewrite IH, add_attr_lookup. by destruct (last_announced k l).
Qed.

Lemma last_announced_app k l l' :
  last_announced k (l ++ l') =
  match last_announced k l' with Some v => Some v | None => last_announced k l end.
Proof. induction l as [|kv l IH]; simpl; [by destruct (last_announced k l')|]. rewrite IH.
  by destruct (last_announced k l'). Qed.

Lemma announced_nonempty k kv v : announced k kv = Some v -> v <> "".
Proof.
  destruct kv as [[k' [w|]]|]; simpl; [|done..].
  destruct (_ && _) eqn:E; [|done]. intros [= <-]. by reflect_bools.
Qed.

Lemma last_announced_nonempty k l v : last_announced k l = Some v -> v <> "".
Proof.
  induction l as [|kv l IH]; simpl; [done|]. destruct (last_announced k l); [by auto|].
  apply announced_nonempty.
Qed.

(** the flattened attribute map holds, for each key, the last non-empty
    string value announced for it, non-identifying attributes after the
    identifying ones; nil entries, nil values, other value types and empty
    strings never appear in it. *)
Theorem flattenAttrs_spec ident non k :
  flattenAttrs ident non !! k = last_announced k (ident ++ non) /\
  (forall v, flattenAttrs ident non !! k = Some v -> v <> "").
Proof.
  assert (flattenAttrs ident non !! k = last_announced k (ident ++ non)) as Hl.
  { unfold flattenAttrs. rewrite !fold_add_attr_lookup, lookup_empty, last_announced_app.
    destruct (last_announced k non); [done|]. by destruct (last_announced k ident). }
  split; [done|]. intros v. rewrite Hl. apply last_announced_nonempty.
Qed.

(** ** Shape of the identity *)

Lemma take_str_length n s : n <= String.length s -> String.length (take_str n s) = n.
Proof.
  revert s. induction n as [|n IH]; intros [|c s]; simpl; try done; [lia|].
  intros Hn. f_equal. apply IH. lia.
Qed.

Lemma hash24_length s : String.length (hash24 s) = 24%nat.
Proof.
  apply take_str_length. rewrite hex_encode_length, Sum256_length. lia.
Qed.

(** The attributes the identity of a workload is computed from. *)
Definition identity_attrs : list string :=
  "k8s.namespace.name" :: "k8s.cluster.name" :: "service.name" :: "host.name" ::
  map fst k8sWorkloadAttrs.

Lemma first_named_agree a b ws :
  (forall k, k ∈ map fst ws -> attr a k = attr b k) -> first_named a ws = first_named b ws.
Proof.
  induction ws as [|[k kind] ws IH]; intros Hk; [done|]. simpl.
  rewrite (Hk k) by (simpl; by left). rewrite IH; [done|]. intros k' ?. apply Hk. simpl. by right.
Qed.

Lemma Fingerprint_agree a b u :
  (forall k : string, k ∈ identity_attrs -> attr a k = attr b k) -> Fingerprint a u = Fingerprint b u.
Proof.
  intros Hk. unfold Fingerprint.
  rewrite (first_named_agree a b) by (intros k Hin; apply Hk; unfold identity_attrs; set_solver).
  by rewrite !Hk by (unfold identity_attrs; set_solver).
Qed.

Lemma Fingerprint_uid_only a u v :
  fp_Source (Fingerprint a u) <> "uid" -> Fingerprint a u = Fingerprint a v.
Proof.
  unfold Fingerprint. destruct (if negb (attr a "k8s.namespace.name" =s "") then first_named a k8sWorkloadAttrs else None)
    as [[kind name]|]; [done|].
  destruct (attr a "host.name" <>s ""); done.
Qed.

(** a workload's identity is stable: two instances whose identity
    attributes agree (whatever else they announce) get the same fingerprint
    as soon as it is not the per-instance fallback, and its ID always has 24
    characters. *)
Theorem Fingerprint_stable (a b : attributes) (u v : string)
    (Hagree : forall k : string, k ∈ identity_attrs -> attr a k = attr b k)
    (Hsrc : fp_Source (Fingerprint a u) <> "uid") :
  Fingerprint a u = Fingerprint b v /\ String.length (fp_ID (Fingerprint a u)) = 24%nat.
Proof.
  rewrite (Fingerprint_uid_only a u v Hsrc). split; [by apply Fingerprint_agree|].
  unfold Fingerprint. repeat case_match; apply hash24_length.
Qed.

(** ** Identities and their keys *)

(** The parts of the identity, rebuilt from the reported keys, and the text
    the ID is the hash of. *)
Definition identity_parts (src : string) (keys : gmap string string) : list string :=
  if src =s "k8s" then
    ["k8s"; attr keys "cluster"; attr keys "namespace"; attr keys "kind"; attr keys "name"]
  else if src =s "host" then ["host"; attr keys "service.name"; attr keys "host.name"]
  else ["uid"; attr keys "instance_uid"].

Definition raw_identity (src : string) (keys : gmap string string) : string :=
  Join "|" (identity_parts src keys).

Lemma Fingerprint_raw a u :
  fp_ID (Fingerprint a u) = hash24 (raw_identity (fp_Source (Fingerprint a u)) (fp_Keys (Fingerprint a u))).
Proof.
  unfold Fingerprint. repeat case_match; reflexivity.
Qed.

Notation bar := "|"%char.

(** No key of the identity holds the separator. *)
Definition bar_free (r : FingerprintResult) : Prop :=
  forall k v, fp_Keys r !! k = Some v -> no_char bar v.

Lemma no_bar_attr r k : bar_free r -> no_char bar (attr (fp_Keys r) k).
Proof.
  intros Hr. unfold attr. destruct (fp_Keys r !! k) eqn:E; [by apply (Hr k)|]. constructor.
Qed.

(** The results [Fingerprint] builds. *)
Inductive built : FingerprintResult -> Prop :=
| built_k8s cl ns kind name id : built (mkFingerprint id "k8s"
    (list_to_map [("cluster", cl); ("namespace", ns); ("kind", kind); ("name", name)]))
| built_host s h id : built (mkFingerprint id "host"
    (list_to_map [("service.name", s); ("host.name", h)]))
| built_uid u id : built (mkFingerprint id "uid" (list_to_map [("instance_uid", u)])).

Lemma Fingerprint_built a u : built (Fingerprint a u).
Proof. unfold Fingerprint. repeat case_match; constructor. Qed.

Lemma identity_parts_bar_free r :
  bar_free r -> Forall (no_char bar) (identity_parts (fp_Source r) (fp_Keys r)).
Proof.
  intros Hr. unfold identity_parts. repeat case_if;
    repeat (apply Forall_cons; split;
            [first [by apply no_bar_attr
                   | apply (bool_decide_unpack (Forall _ _)); vm_compute; exact I]|]); constructor.
Qed.

Lemma raw_identity_inj r1 r2 :
  built r1 -> built r2 -> bar_free r1 -> bar_free r2 ->
  raw_identity (fp_Source r1) (fp_Keys r1) = raw_identity (fp_Source r2) (fp_Keys r2) ->
  fp_Source r1 = fp_Source r2 /\ fp_Keys r1 = fp_Keys r2.
Proof.
  intros B1 B2 F1%identity_parts_bar_free F2%identity_parts_bar_free Heq.
  apply (f_equal (fun s => Split s bar)) in Heq. unfold raw_identity in Heq.
  rewrite !Split_Join in Heq by (done || (unfold identity_parts; by repeat case_if)).
  clear F1 F2. destruct B1, B2; vm_compute in Heq; by simplify_eq.
Qed.

(** as long as no attribute holds the separator, two fingerprints with
    the same ID either have the same source and the same keys or exhibit a
    collision of the truncated SHA-256: distinct workloads are never merged
    by the way the identity text is put together. *)
Theorem Fingerprint_separates (a b : attributes) (u v : string)
    (Ha : bar_free (Fingerprint a u)) (Hb : bar_free (Fingerprint b v))
    (Hid : fp_ID (Fingerprint a u) = fp_ID (Fingerprint b v)) :
  (fp_Source (Fingerprint a u) = fp_Source (Fingerprint b v) /\
   fp_Keys (Fingerprint a u) = fp_Keys (Fingerprint b v)) \/
  (exists s t, s <> t /\ hash24 s = hash24 t).
Proof.
  rewrite !Fingerprint_raw in Hid.
  destruct (decide (raw_identity (fp_Source (Fingerprint a u)) (fp_Keys (Fingerprint a u)) =
                    raw_identity (fp_Source (Fingerprint b v)) (fp_Keys (Fingerprint b v)))) as [He|Hne].
  - left. by apply raw_identity_inj; [apply Fingerprint_built..| | |].
  - right. by eexists _, _.
Qed.

(** With the separator inside an attribute two different hosts share an ID. *)
Lemma Fingerprint_separator_collision :
  let a := {["service.name" := "api"; "host.name" := "b|c"]} : attributes in
  let b := {["service.name" := "api|b"; "host.name" := "c"]} : attributes in
  fp_ID (Fingerprint a "u1") = fp_ID (Fingerprint b "u2") /\
  fp_Keys (Fingerprint a "u1") <> fp_Keys (Fingerprint b "u2").
Proof.
  split; [vm_compute; reflexivity|]. apply (bool_decide_unpack (~ _)). vm_compute. exact I.
Qed.

(** ** Witnesses *)

Definition sample_k8s : attributes :=
  {["k8s.namespace.name" := "shop"; "k8s.deployment.name" := "gateway"; "service.name" := "otelcol"]}.

Lemma Fingerprint_stable_witness :
  fp_Source (Fingerprint sample_k8s "u1") = "k8s" /\
  Fingerprint sample_k8s "u1" = Fingerprint (<["k8s.pod.name" := "gateway-1"]> sample_k8s) "u2".
Proof.
  split; [reflexivity|]. apply (Fingerprint_stable _ _ _ _).
  - intros k Hk. unfold attr. rewrite lookup_insert_ne; [done|]. intros <-.
    revert Hk. apply (bool_decide_unpack (~ _)). vm_compute. exact I.
  - vm_compute. discriminate.
Defined.

Lemma Fingerprint_separates_witness :
  (fp_Source (Fingerprint sample_k8s "u1") = fp_Source (Fingerprint sample_k8s "u2") /\
   fp_Keys (Fingerprint sample_k8s "u1") = fp_Keys (Fingerprint sample_k8s "u2")) \/
  (exists s t, s <> t /\ hash24 s = hash24 t).
Proof.
  assert (forall u, bar_free (Fingerprint sample_k8s u)) as Hf.
  { intros u. assert (fp_Keys (Fingerprint sample_k8s u) =
      list_to_map [("cluster", "unknown"); ("namespace", "shop"); ("kind", "deployment");
                   ("name", "gateway")]) as Hk by reflexivity.
    intros k v. rewrite Hk. revert k v.
    apply (bool_decide_unpack (map_Forall (fun _ v => Forall _ (str_codes v)) _)).
    vm_compute. exact I. }
  apply Fingerprint_separates; [apply Hf..|]. vm_compute. reflexivity.
Defined.

Example classify_samples :
  let _ := byte_tables in
  map (fun m => classifyAgent m)
    [ {["otelcol.version" := "0.90"; "telemetry.sdk.language" := "go"]};
      {["os.description" := "Linux OTelCol image"]};
      {["telemetry.sdk.language" := "go"; "service.name" := "otelcol"]};
      {["service.name" := "OtelCol-contrib"]}; ∅ ] =
  ["collector"; "collector"; "sdk"; "collector"; "sdk"].
Proof. vm_compute. reflexivity. Qed.

End Fingerprint.
