(* ===== verification/Rebind.v ===== *)
(** * Placeholder rebinding (internal/store/db.go)

    Every query of the store is written with [?] placeholders and rewritten to
    PostgreSQL's [$1], [$2], ... before it runs. The scanner is one pass over the
    bytes with four flags, of which at most one is set; the specification splits a
    query into lexical tokens. *)

From S2P Require Import Prelude GoString.

Module Rebind.

(** The flags [inLineComment], [inBlockComment], [inSingleQuote] and
    [inDoubleQuote], or none. *)
Inductive mode := Code | LineComment | BlockComment | SingleQuote | DoubleQuote.

Definition nl : ascii := Ascii.ascii_of_N 10.
Definition squote : ascii := Ascii.ascii_of_N 39.
Definition dquote : ascii := Ascii.ascii_of_N 34.
Definition nul : ascii := Ascii.ascii_of_N 0.

(** [query[i+1]], or zero at the end. *)
Definition head (s : string) : ascii := match s with String c _ => c | EmptyString => nul end.

(** One iteration per byte; a pair of bytes written together advances by two. *)
(* src/internal/store/db.go:162-238 rebind *)
Fixpoint rebind_loop (m : mode) (placeholder : nat) (query : string) {struct query} : string :=
  match query with
  | EmptyString => ""
  | String ch rest =>
      let pair (next : mode) (single : string) (test : ascii) : string :=
        match rest with
        | String c rest' =>
            if Ascii.eqb c test then String ch (String c (rebind_loop next placeholder rest')) else single
        | EmptyString => single
        end in
      let keep (next : mode) : string := String ch (rebind_loop next placeholder rest) in
      match m with
      | LineComment => keep (if Ascii.eqb ch nl then Code else LineComment)
      | BlockComment => if Ascii.eqb ch "*" then pair Code (keep BlockComment) "/"%char else keep BlockComment
      | SingleQuote => if Ascii.eqb ch squote then pair SingleQuote (keep Code) squote else keep SingleQuote
      | DoubleQuote => if Ascii.eqb ch dquote then pair DoubleQuote (keep Code) dquote else keep DoubleQuote
      | Code =>
          let plain :=
            if Ascii.eqb ch squote then keep SingleQuote
            else if Ascii.eqb ch dquote then keep DoubleQuote
            else if Ascii.eqb ch "?"
            then "$" +:+ Itoa placeholder +:+ rebind_loop Code (S placeholder) rest
            else keep Code in
          if Ascii.eqb ch "-" then pair LineComment plain "-"%char
          else if Ascii.eqb ch "/" then pair BlockComment plain "*"%char
          else plain
      end
  end.
Definition rebind (query : string) : string := rebind_loop Code 1 query.

Example rebind_example :
  rebind "SELECT '?' FROM t -- ?" = "SELECT '?' FROM t -- ?" /\
  rebind "a = ? AND b /* ? */ IN (?, 'it''s ?')" = "a = $1 AND b /* ? */ IN ($2, 'it''s ?')".
Proof. vm_compute. done. Qed.

(** ** Tokens *)

(** [closed]: the terminator is present (it is missing only at the end). *)
Inductive token :=
| TChar (c : ascii)
| TParam
| TLine (body : string) (closed : bool)
| TBlock (body : string) (closed : bool)
| TQuoted (q : ascii) (body : string) (closed : bool).

Definition chr (c : ascii) : string := String c "".
Definition ending (closed : bool) (s : string) : string := if closed then s else "".

(** A token as written, the parameter given. *)
Definition spell (param : string) (t : token) : string :=
  match t with
  | TChar c => chr c
  | TParam => param
  | TLine body closed => "--" +:+ body +:+ ending closed (chr nl)
  | TBlock body closed => "/*" +:+ body +:+ ending closed "*/"
  | TQuoted q body closed => chr q +:+ body +:+ ending closed (chr q)
  end.

Fixpoint text (l : list token) : string :=
  match l with [] => "" | t :: r => spell "?" t +:+ text r end.

(** The parameters numbered from [n]. *)
Fixpoint numbered (n : nat) (l : list token) : string :=
  match l with
  | [] => ""
  | t :: r => spell ("$" +:+ Itoa n) t +:+ numbered (match t with TParam => S n | _ => n end) r
  end.

(** A quote inside a quoted text is doubled. *)
Fixpoint doubled (q : ascii) (s : string) : bool :=
  match s with
  | EmptyString => true
  | String c r =>
      if Ascii.eqb c q
      then match r with String c' r' => Ascii.eqb c' q && doubled q r' | EmptyString => false end
      else doubled q r
  end.

Fixpoint lacks (c : ascii) (s : string) : bool :=
  match s with EmptyString => true | String d r => negb (Ascii.eqb d c) && lacks c r end.

Fixpoint no_close (s : string) : bool :=
  match s with
  | EmptyString => true
  | String c r => negb (Ascii.eqb c "*" && Ascii.eqb (head r) "/") && no_close r
  end.

(** A token that the text after it does not make part of another one. *)
Definition token_ok (t : token) (after : string) : Prop :=
  match t with
  | TChar c => c <> squote /\ c <> dquote /\ c <> "?"%char /\
               ~ (c = "-"%char /\ head after = "-"%char) /\ ~ (c = "/"%char /\ head after = "*"%char)
  | TParam => True
  | TLine body closed => lacks nl body = true /\ (closed = false -> after = "")
  | TBlock body closed => no_close body = true /\ (closed = false -> after = "")
  | TQuoted q body closed => (q = squote \/ q = dquote) /\ doubled q body = true /\
               (if closed then head after <> q else after = "")
  end.

Fixpoint lexed (l : list token) : Prop :=
  match l with [] => True | t :: r => token_ok t (text r) /\ lexed r end.

(** ** The scanner on a token *)

Lemma app_string_assoc (a b c : string) : (a +:+ b) +:+ c = a +:+ b +:+ c.
Proof. induction a as [|x a IH]; [done|]. exact (f_equal (String x) IH). Qed.

Lemma ascii_eqb_ne (c d : ascii) : c <> d -> Ascii.eqb c d = false.
Proof. by rewrite Ascii.eqb_neq. Qed.

Lemma loop_line n body closed after :
  lacks nl body = true -> (closed = false -> after = "") ->
  rebind_loop LineComment n (body +:+ ending closed (chr nl) +:+ after) =
    body +:+ ending closed (chr nl) +:+ rebind_loop Code n after.
Proof.
  intros Hb Hc. induction body as [|c body IH].
  - destruct closed; [done|]. by rewrite Hc.
  - cbn [lacks] in Hb. apply andb_true_iff in Hb as [Hb Hr]. apply negb_true_iff in Hb.
    change (String c body +:+ ?x) with (String c (body +:+ x)). cbn [rebind_loop].
    rewrite Hb. by rewrite IH.
Qed.

Lemma loop_block n body closed after :
  no_close body = true -> (closed = false -> after = "") ->
  rebind_loop BlockComment n (body +:+ ending closed "*/" +:+ after) =
    body +:+ ending closed "*/" +:+ rebind_loop Code n after.
Proof.
  intros Hb Hc. induction body as [|c body IH].
  - destruct closed; cbn; [done|]. by rewrite Hc.
  - cbn in Hb. apply andb_true_iff in Hb as [Hb Hr]. specialize (IH Hr).
    change (String c body +:+ ?x) with (String c (body +:+ x)). cbn [rebind_loop].
    destruct (Ascii.eqb c "*") eqn:Ec; [|by rewrite IH]. cbn in Hb. apply negb_true_iff in Hb.
    destruct body as [|d body].
    + destruct closed; [done|]. by rewrite Hc.
    + cbn [head] in Hb. change (String d body +:+ ?x) with (String d (body +:+ x)) in *.
      cbn iota beta. rewrite Hb. by rewrite IH.
Qed.

(** The mode inside a quoted text. *)
Definition quoting (q : ascii) : mode := if Ascii.eqb q squote then SingleQuote else DoubleQuote.

(** How the scanner treats one byte inside a quoted text. *)
Lemma quoted_step q n c rest : q = squote \/ q = dquote ->
  rebind_loop (quoting q) n (String c rest) =
    if Ascii.eqb c q
    then match rest with
         | String d rest' => if Ascii.eqb d q then String c (String d (rebind_loop (quoting q) n rest'))
                             else String c (rebind_loop Code n rest)
         | EmptyString => String c (rebind_loop Code n rest)
         end
    else String c (rebind_loop (quoting q) n rest).
Proof. by intros [->| ->]. Qed.

Lemma loop_quoted n q body (closed : bool) after :
  q = squote \/ q = dquote -> doubled q body = true ->
  (if closed then head after <> q else after = "") ->
  rebind_loop (quoting q) n (body +:+ ending closed (chr q) +:+ after) =
    body +:+ ending closed (chr q) +:+ rebind_loop Code n after.
Proof.
  intros Hq. remember (String.length body) as k eqn:Ek. revert body Ek.
  induction k as [k IH] using (well_founded_induction Nat.lt_wf_0). intros body -> Hd Ha.
  destruct body as [|c body].
  - destruct closed; [|by rewrite Ha; destruct Hq as [->| ->]].
    change ("" +:+ ending true (chr q) +:+ ?x) with (String q x).
    rewrite (quoted_step q n q after Hq), Ascii.eqb_refl.
    destruct after as [|d after]; [done|]. cbn [head] in Ha. by rewrite (ascii_eqb_ne d q Ha).
  - change (String c body +:+ ?x) with (String c (body +:+ x)).
    rewrite (quoted_step q n c _ Hq). cbn [doubled] in Hd.
    destruct (Ascii.eqb c q) eqn:Ec.
    + destruct body as [|d body]; [done|]. apply andb_true_iff in Hd as [Hd Hr].
      change (String d body +:+ ?x) with (String d (body +:+ x)). cbn iota beta.
      rewrite Hd. by rewrite (IH (String.length body)) by (cbn; lia || done).
    + by rewrite (IH (String.length body)) by (cbn; lia || done).
Qed.

(** A plain byte outside quotes and comments is copied. *)
Lemma loop_char n c after : token_ok (TChar c) after ->
  rebind_loop Code n (String c after) = String c (rebind_loop Code n after).
Proof.
  intros (Hs & Hd & Hp & Hm & Hc). cbn [rebind_loop].
  rewrite (ascii_eqb_ne _ _ Hs), (ascii_eqb_ne _ _ Hd), (ascii_eqb_ne _ _ Hp).
  destruct (Ascii.eqb_spec c "-") as [->|?]; [|destruct (Ascii.eqb_spec c "/") as [->|?]; [|done]].
  - destruct after as [|d after]; [done|]. destruct (Ascii.eqb_spec d "-") as [->|?]; [|done].
    by destruct Hm.
  - destruct after as [|d after]; [done|]. destruct (Ascii.eqb_spec d "*") as [->|?]; [|done].
    by destruct Hc.
Qed.

Lemma loop_tokens l : forall n, lexed l -> rebind_loop Code n (text l) = numbered n l.
Proof.
  induction l as [|t l IH]; intros n; [done|]. intros [Ht Hl]. specialize (IH) as IH.
  cbn [text numbered]. destruct t as [c| |body closed|body closed|q body closed]; cbn [spell].
  - change (chr c +:+ ?x) with (String c x). rewrite (loop_char n c _ Ht). by rewrite IH.
  - change ("?" +:+ text l) with (String "?" (text l)). rewrite app_string_assoc.
    change (rebind_loop Code n (String "?" (text l)))
      with ("$" +:+ Itoa n +:+ rebind_loop Code (S n) (text l)). by rewrite IH.
  - destruct Ht as [Hb Hc]. rewrite !app_string_assoc.
    change (rebind_loop Code n ("--" +:+ ?x)) with ("--" +:+ rebind_loop LineComment n x).
    by rewrite loop_line, IH.
  - destruct Ht as [Hb Hc]. rewrite !app_string_assoc.
    change (rebind_loop Code n ("/*" +:+ ?x)) with ("/*" +:+ rebind_loop BlockComment n x).
    by rewrite loop_block, IH.
  - destruct Ht as (Hq & Hb & Hc). rewrite !app_string_assoc.
    transitivity (chr q +:+ rebind_loop (quoting q) n (body +:+ ending closed (chr q) +:+ text l)).
    + by destruct Hq as [->| ->].
    + by rewrite loop_quoted, IH.
Qed.

(** ** Every query splits into tokens *)

Lemma string_length_app (a b : string) : String.length (a +:+ b) = String.length a + String.length b.
Proof. induction a as [|x a IH]; [done|]. exact (f_equal S IH). Qed.

(** What a delimited token takes from the text [s] that follows its opening. *)
Definition splits (ok : string -> bool) (stop : string) (good : string -> Prop) (s : string) : Prop :=
  exists body (closed : bool) after, s = body +:+ ending closed stop +:+ after /\ ok body = true /\
    (if closed then good after else after = "").

Lemma splits_length ok stop good s : splits ok stop good s ->
  exists body (closed : bool) after, s = body +:+ ending closed stop +:+ after /\ ok body = true /\
    (if closed then good after else after = "") /\ String.length after <= String.length s.
Proof.
  intros (body & closed & after & -> & Hok & Hg). exists body, closed, after. repeat split; [done..|].
  rewrite !string_length_app. lia.
Qed.

Lemma split_line s : splits (lacks nl) (chr nl) (fun _ => True) s.
Proof.
  induction s as [|c s (body & closed & after & -> & Hok & Hg)]; [by exists "", false, ""|].
  destruct (Ascii.eqb_spec c nl) as [->|Hc].
  - exists "", true, (body +:+ ending closed (chr nl) +:+ after). done.
  - exists (String c body), closed, after. split; [done|]. cbn [lacks].
    by rewrite (ascii_eqb_ne _ _ Hc).
Qed.

Lemma split_block s : splits no_close "*/" (fun _ => True) s.
Proof.
  induction s as [|c s (body & closed & after & -> & Hok & Hg)]; [by exists "", false, ""|].
  set (rest := body +:+ ending closed "*/" +:+ after).
  destruct (Ascii.eqb c "*" && Ascii.eqb (head rest) "/") eqn:E.
  - apply andb_true_iff in E as [E1%Ascii.eqb_eq E2%Ascii.eqb_eq]. subst c.
    clearbody rest. destruct rest as [|d rest]; [done|]. cbn in E2. subst d. by exists "", true, rest.
  - exists (String c body), closed, after. split; [done|]. split; [|done]. cbn.
    rewrite Hok, andb_true_r. apply negb_true_iff. apply andb_false_iff.
    apply andb_false_iff in E as [E|E]; [by left|right].
    destruct body; [done|exact E].
Qed.

Lemma split_quoted q s : q <> nul -> splits (doubled q) (chr q) (fun after => head after <> q) s.
Proof.
  intros Hq. remember (String.length s) as k eqn:Ek. revert s Ek.
  induction k as [k IH] using (well_founded_induction Nat.lt_wf_0). intros s ->.
  destruct s as [|c s]; [by exists "", false, ""|].
  destruct (Ascii.eqb_spec c q) as [->|Hc].
  - destruct (Ascii.eqb_spec (head s) q) as [Hh|Hh]; [|by exists "", true, s].
    destruct s as [|d s]; [by destruct Hq|]. cbn in Hh. subst d.
    { destruct (IH (String.length s)) with (s := s) as (body & closed & after & -> & Hok & Hg);
        [cbn; lia|done|].
      exists (String q (String q body)), closed, after. split; [done|]. cbn [doubled].
      by rewrite Ascii.eqb_refl. }
  - destruct (IH (String.length s)) with (s := s) as (body & closed & after & -> & Hok & Hg);
      [cbn; lia|done|].
    exists (String c body), closed, after. split; [done|]. cbn [doubled].
    by rewrite (ascii_eqb_ne _ _ Hc).
Qed.

Lemma lex_exists s : exists l, lexed l /\ text l = s.
Proof.
  remember (String.length s) as k eqn:Ek. revert s Ek.
  induction k as [k IH] using (well_founded_induction Nat.lt_wf_0). intros s ->.
  assert (next : forall t after, token_ok t after -> s = spell "?" t +:+ after ->
            String.length after < String.length s -> exists l, lexed l /\ text l = s).
  { intros t after Ht Hs Hlen. destruct (IH _ Hlen after eq_refl) as (l & Hl & <-).
    exists (t :: l). by rewrite Hs. }
  destruct s as [|c s]; [by exists []|]. cbn [String.length] in next.
  destruct (decide (c = "-"%char /\ head s = "-"%char)) as [[-> Hh]|Hm].
  { destruct s as [|d s]; [done|]. cbn in Hh. subst d.
    destruct (splits_length _ _ _ _ (split_line s)) as (body & closed & after & -> & Hb & Hc & Hlen).
    apply (next (TLine body closed) after); [by destruct closed|by cbn; rewrite !app_string_assoc|].
    cbn [String.length]. lia. }
  destruct (decide (c = "/"%char /\ head s = "*"%char)) as [[-> Hh]|Hc].
  { destruct s as [|d s]; [done|]. cbn in Hh. subst d.
    destruct (splits_length _ _ _ _ (split_block s)) as (body & closed & after & -> & Hb & Hc & Hlen).
    apply (next (TBlock body closed) after); [by destruct closed|by cbn; rewrite !app_string_assoc|].
    cbn [String.length]. lia. }
  destruct (decide (c = squote \/ c = dquote)) as [Hq|Hq].
  { assert (Hn : c <> nul) by (by destruct Hq as [->| ->]).
    destruct (splits_length _ _ _ _ (split_quoted c s Hn))
      as (body & closed & after & -> & Hb & Ha & Hlen).
    apply (next (TQuoted c body closed) after); [done|by cbn; rewrite !app_string_assoc|lia]. }
  destruct (decide (c = "?"%char)) as [->|Hp]; [by apply (next TParam s); [..|lia]|].
  apply (next (TChar c) s); [|done|lia]. cbn. naive_solver.
Qed.

(** A query read as plain bytes, parameters, quoted texts and comments has its
    parameters, and nothing else, rewritten to [$1], [$2], ... in the order they
    stand; every query, unterminated quotes and comments included, reads that way. *)
Theorem rebind_numbers_parameters (query : string) :
  (exists l, lexed l /\ text l = query) /\
  forall l, lexed l -> text l = query -> rebind query = numbered 1 l.
Proof. split; [apply lex_exists|]. intros l Hl <-. by apply loop_tokens. Qed.

End Rebind.
