(* ===== verification/Capabilities.v ===== *)
(** * Capability registry (pkg/capabilities)

    The static capability document an edition binary advertises: a validated, sorted
    snapshot of entries with a state index, and the legacy boolean projection. *)

From S2P Require Import Prelude GoString.

Module Capabilities.

(* src/pkg/capabilities/registry.go:37-41 Capability *)
Record Capability := mkCapability { cap_ID : string; cap_State : string; cap_ReasonCode : string }.
(* src/pkg/capabilities/registry.go:44-47 Document *)
Record Document := mkDocument { doc_APIVersion : string; doc_Capabilities : list Capability }.
(* src/pkg/capabilities/registry.go:50-53 Registry *)
Record Registry := mkRegistry { entries : list Capability; states : gmap string string }.

(* src/pkg/capabilities/registry.go:10-10 APIVersion *)
Definition APIVersion : string := "v1".
Definition StateEnabled : string := "enabled".
Definition StateDisabled : string := "disabled".
Definition StateReadOnly : string := "read_only".
Definition ReasonNotEnabled : string := "not_enabled".
Definition ReasonPrerequisiteUnavailable : string := "prerequisite_unavailable".
Definition ReasonReadOnlyMode : string := "read_only_mode".

(* src/pkg/capabilities/registry.go:114-135 validate *)
Definition validate (c : Capability) : option string :=
  let reason_ok :=
    if (cap_ReasonCode c =s ReasonNotEnabled) || (cap_ReasonCode c =s ReasonPrerequisiteUnavailable)
       || (cap_ReasonCode c =s ReasonReadOnlyMode)
    then None
    else Some ("unknown reason_code " +:+ Quote (cap_ReasonCode c) +:+ " for " +:+ Quote (cap_ID c)) in
  if cap_State c =s StateEnabled then
    if cap_ReasonCode c <>s ""
    then Some ("enabled capability " +:+ Quote (cap_ID c) +:+ " must not include reason_code")
    else None
  else if (cap_State c =s StateDisabled) || (cap_State c =s StateReadOnly) then
    if cap_ReasonCode c =s ""
    then Some ("capability " +:+ Quote (cap_ID c) +:+ " in state " +:+ Quote (cap_State c) +:+ " requires reason_code")
    else reason_ok
  else Some ("unknown capability state " +:+ Quote (cap_State c) +:+ " for " +:+ Quote (cap_ID c)).

(* src/pkg/capabilities/registry.go:106-112 build *)
Definition build (l : list Capability) : Registry :=
  mkRegistry l (foldl (fun m c => <[cap_ID c := cap_State c]> m) ∅ l).

Definition by_id : list Capability -> list Capability := sort_by (less_of (by_key cap_ID str_cmp)).

(** The loop over the entries: the first duplicate or invalid one is the error. *)
Fixpoint check (seen : list string) (l : list Capability) : option string :=
  match l with
  | [] => None
  | c :: rest =>
      if bool_decide (cap_ID c ∈ seen) then Some ("duplicate capability id " +:+ Quote (cap_ID c))
      else match validate c with Some err => Some err | None => check (cap_ID c :: seen) rest end
  end.
(* src/pkg/capabilities/registry.go:56-70 New *)
Definition New (l : list Capability) : Registry + string :=
  match check [] l with Some err => inr err | None => inl (build (by_id l)) end.

Definition of_feature (f : string * bool) : Capability :=
  if f.2 then mkCapability f.1 StateEnabled "" else mkCapability f.1 StateDisabled ReasonNotEnabled.
(* src/pkg/capabilities/registry.go:73-85 FromFeatures *)
Definition FromFeatures (features : gmap string bool) : Registry :=
  build (by_id (map of_feature (map_to_list features))).

(* src/pkg/capabilities/registry.go:88-92 Document *)
Definition document (r : Registry) : Document := mkDocument APIVersion (entries r).
(* src/pkg/capabilities/registry.go:95-95 Enabled *)
Definition Enabled (r : Registry) (id : string) : bool := default "" (states r !! id) =s StateEnabled.
(* src/pkg/capabilities/registry.go:98-104 LegacyFeatures *)
Definition LegacyFeatures (r : Registry) : gmap string bool :=
  foldl (fun m c => <[cap_ID c := cap_State c =s StateEnabled]> m) ∅ (entries r).

(** ** Lemmas *)

(** Writing the entries of a list with distinct keys into a map, in any order. *)
Lemma foldl_insert_lookup {A B} (key : A -> string) (val : A -> B) l : NoDup (map key l) -> forall m k,
  foldl (fun m c => <[key c := val c]> m) m l !! k = 
  match list_find (fun c => key c = k) l with Some (_, c) => Some (val c) | None => (m : gmap string B) !! k end.
Proof.
  induction l as [|c l IH]; cbn; [done|]. intros [Hc Hd]%NoDup_cons m k. rewrite (IH Hd).
  destruct (decide (key c = k)) as [<-|Hk].
  - destruct (list_find _ l) as [[i c']|] eqn:E; cbn; [|by rewrite lookup_insert_eq].
    apply list_find_Some in E as (Hi & Hk & _). destruct Hc. rewrite <- Hk.
    apply list_elem_of_fmap_2. by apply list_elem_of_lookup_2 in Hi.
  - destruct (list_find _ l) as [[i c']|] eqn:E; cbn; [done|]. by rewrite lookup_insert_ne.
Qed.

(** The value found is that of the entry with the key. *)
Lemma foldl_insert_spec {A B} (key : A -> string) (val : A -> B) l k v : NoDup (map key l) ->
  foldl (fun m c => <[key c := val c]> m) (∅ : gmap string B) l !! k = Some v <->
  exists c, c ∈ l /\ key c = k /\ val c = v.
Proof.
  intros Hd. rewrite (foldl_insert_lookup key val l Hd), lookup_empty.
  destruct (list_find _ l) as [[i c]|] eqn:E.
  - apply list_find_Some in E as (Hi & Hk & _). split.
    + intros [= <-]. exists c. by apply list_elem_of_lookup_2 in Hi.
    + intros (c' & Hc' & Hk' & <-). f_equal. f_equal. apply list_elem_of_lookup_1 in Hc' as [j Hj].
      assert (i = j) as <-; [|congruence]. apply (NoDup_lookup (map key l) i j k Hd).
      * by rewrite list_lookup_fmap, Hi; cbn; f_equal.
      * by rewrite list_lookup_fmap, Hj; cbn; f_equal.
  - split; [done|]. intros (c & Hc & Hk & _). apply list_find_None in E.
    rewrite Forall_forall in E. by destruct (E c Hc).
Qed.

Lemma check_None l : forall seen,
  check seen l = None <->
  NoDup (map cap_ID l) /\ (forall c, c ∈ l -> validate c = None /\ cap_ID c ∉ seen).
Proof.
  induction l as [|c l IH]; intros seen; cbn.
  - split; [|done]. intros _. split; [constructor|]. intros c Hc. by apply not_elem_of_nil in Hc.
  - rewrite NoDup_cons. case_bool_decide as Hs.
    + split; [done|]. intros [_ Hc]. by destruct (Hc c (list_elem_of_here _ _)).
    + destruct (validate c) eqn:Ev; [split; [done|]; intros [_ Hc]; destruct (Hc c (list_elem_of_here _ _)); congruence|].
      rewrite IH. setoid_rewrite elem_of_cons. split.
      * intros [Hd Hc]. split; [split; [|done]|intros d [->|Hin]; naive_solver].
        intros Hin. apply list_elem_of_fmap in Hin as (d & Heq & Hin). destruct (Hc d Hin) as [_ Hn]. naive_solver.
      * intros [[Hn Hd] Hc]. split; [done|]. intros d Hin. split; [naive_solver|].
        intros [Heq|Hin']; [|naive_solver]. apply Hn. rewrite <- Heq. by apply list_elem_of_fmap_2.
Qed.

Lemma validate_None c : validate c = None <->
  (cap_State c = StateEnabled /\ cap_ReasonCode c = "") \/
  ((cap_State c = StateDisabled \/ cap_State c = StateReadOnly) /\
   cap_ReasonCode c ∈ [ReasonNotEnabled; ReasonPrerequisiteUnavailable; ReasonReadOnlyMode]).
Proof.
  destruct c as [id s r]. unfold validate. cbn [cap_ID cap_State cap_ReasonCode].
  rewrite !elem_of_cons, elem_of_nil.
  destruct (String.eqb_spec s StateEnabled) as [->|He].
  - destruct (String.eqb_spec r "") as [->|Hr]; cbn; [naive_solver|]. split; [done|].
    intros [[_ ?]|[[|] _]]; done.
  - destruct (String.eqb_spec s StateDisabled) as [->|Hd]; [|destruct (String.eqb_spec s StateReadOnly) as [->|Hr]];
      cbn [orb]; [..|naive_solver].
    all: destruct (String.eqb_spec r "") as [->|Hn]; [split; [done|]; intros [[? _]|[_ [?|[?|[?|[]]]]]]; done|].
    all: destruct (String.eqb_spec r ReasonNotEnabled), (String.eqb_spec r ReasonPrerequisiteUnavailable),
           (String.eqb_spec r ReasonReadOnlyMode); cbn; naive_solver.
Qed.

Lemma by_id_ids l : map cap_ID (by_id l) ≡ₚ map cap_ID l.
Proof. apply Permutation_map, sort_by_perm. Qed.

(** A registry is built from exactly the entry lists with distinct identifiers and
    valid entries (an enabled one has no reason, another one a known reason); it then
    advertises exactly those entries, sorted by identifier, and an identifier is enabled
    exactly when its entry is. *)
Theorem New_spec (l : list Capability) :
  ((exists r, New l = inl r) <->
   NoDup (map cap_ID l) /\
   forall c, c ∈ l -> (cap_State c = StateEnabled /\ cap_ReasonCode c = "") \/
     ((cap_State c = StateDisabled \/ cap_State c = StateReadOnly) /\
      cap_ReasonCode c ∈ [ReasonNotEnabled; ReasonPrerequisiteUnavailable; ReasonReadOnlyMode])) /\
  forall r, New l = inl r ->
    doc_Capabilities (document r) ≡ₚ l /\
    StronglySorted (fun a b => str_cmp (cap_ID a) (cap_ID b) <> Gt) (doc_Capabilities (document r)) /\
    forall id, Enabled r id = true <-> exists c, c ∈ l /\ cap_ID c = id /\ cap_State c = StateEnabled.
Proof.
  setoid_rewrite <- validate_None. split.
  - unfold New. destruct (check [] l) eqn:E.
    + split; [by intros []|]. intros [Hd Hv]. rewrite (proj2 (check_None l [])) in E; [done|]. split; [done|].
      intros c Hc. split; [auto|apply not_elem_of_nil].
    + apply check_None in E as [Hd Hc]. split; [|eauto]. intros _. split; [done|]. intros c Hin. by apply Hc.
  - intros r. unfold New. destruct (check [] l) eqn:E; [done|]. intros [= <-]. apply check_None in E as [Hd _].
    split; [apply sort_by_perm|]. split; [apply (sort_by_sorted (by_key cap_ID str_cmp))|]. intros id.
    assert (Hn : NoDup (map cap_ID (by_id l))) by (by rewrite by_id_ids).
    generalize (foldl_insert_spec cap_ID cap_State (by_id l) id StateEnabled Hn).
    setoid_rewrite (elem_of_sort_by _ _ l). intros <-. unfold Enabled. cbn [build states].
    destruct (foldl _ _ _ !! id) as [s|]; cbn; [|done]. rewrite String.eqb_eq. naive_solver.
Qed.

Lemma of_feature_ids m : map cap_ID (map of_feature (map_to_list m)) = (map_to_list m).*1.
Proof. rewrite map_map. apply map_ext. intros [id []]; done. Qed.

Lemma of_feature_NoDup (m : gmap string bool) : NoDup (map cap_ID (by_id (map of_feature (map_to_list m)))).
Proof. rewrite by_id_ids, of_feature_ids. apply NoDup_fst_map_to_list. Qed.

(** The legacy feature map survives the registry: projecting the registry built from
    it gives it back, and the registry is one that validation accepts as it is. *)
Theorem features_roundtrip (features : gmap string bool) :
  LegacyFeatures (FromFeatures features) = features /\
  New (doc_Capabilities (document (FromFeatures features))) = inl (FromFeatures features) /\
  forall id, Enabled (FromFeatures features) id = default false (features !! id).
Proof.
  set (l := by_id (map of_feature (map_to_list features))).
  assert (Hd : NoDup (map cap_ID l)) by apply of_feature_NoDup.
  assert (Hin : forall id s, (exists c, c ∈ l /\ cap_ID c = id /\ cap_State c = s) <->
    exists b, features !! id = Some b /\ s = if b : bool then StateEnabled else StateDisabled).
  { intros id s. unfold l, by_id. setoid_rewrite elem_of_sort_by. split.
    - intros (c & Hc & <- & <-). apply list_elem_of_fmap in Hc as ([i b] & -> & Hc).
      apply elem_of_map_to_list in Hc. exists b. by destruct b.
    - intros (b & Hb & ->). exists (of_feature (id, b)). split; [|by destruct b].
      apply list_elem_of_fmap_2. by apply elem_of_map_to_list. }
  split; [|split].
  - apply map_eq. intros id. apply option_eq. intros b.
    etrans; [exact (foldl_insert_spec cap_ID (fun c => cap_State c =s StateEnabled) l id b Hd)|].
    split.
    + intros (c & Hc & Hi & <-). destruct (proj1 (Hin id (cap_State c))) as (b' & Hb & E); [eauto|].
      rewrite Hb, E. by destruct b'.
    + intros Hb. destruct (proj2 (Hin id (if b then StateEnabled else StateDisabled))) as (c & Hc & Hi & Hs); [eauto|].
      exists c. split; [done|]. split; [done|]. rewrite Hs. by destruct b.
  - unfold New. change (doc_Capabilities (document (FromFeatures features))) with l.
    rewrite (proj2 (check_None l [])).
    + unfold by_id. by rewrite (sort_by_id (by_key cap_ID str_cmp)) by apply (sort_by_sorted (by_key cap_ID str_cmp)).
    + split; [done|]. intros c Hc. split; [|apply not_elem_of_nil].
      unfold l, by_id in Hc. rewrite elem_of_sort_by in Hc. apply list_elem_of_fmap in Hc as ([i []] & -> & _); done.
  - intros id. unfold Enabled. change (states (FromFeatures features)) with
      (foldl (fun m c => <[cap_ID c := cap_State c]> m) (∅ : gmap string string) l).
    destruct (features !! id) as [b|] eqn:Eb.
    + rewrite (proj2 (foldl_insert_spec cap_ID cap_State l id _ Hd) (proj2 (Hin id _) (ex_intro _ b (conj Eb eq_refl)))).
      by destruct b.
    + destruct (foldl _ _ _ !! id) as [s|] eqn:E; [|done].
      apply (foldl_insert_spec cap_ID cap_State l id s Hd) in E. apply Hin in E as (b & Hb & _). congruence.
Qed.

End Capabilities.
