(* ===== verification/Store.v ===== *)
(** * The fleet database (internal/store) and its janitor (internal/workloads)

    The tables behind the OpAMP server and the workload API, as one record of
    maps by primary key, and the statements of workloads.go, workload_events.go
    and configs.go on them. A JSON column is modelled by the value it encodes;
    a timestamp column keeps the precision of its class. Every statement takes
    the outcome of the database call: a failed one may have been executed.

    The theorems: the attribute projection stays equal to the label and
    fingerprint maps of the workload rows, an upsert never loses the last known
    remote status or component list, stored status texts are redacted, the
    janitor archives exactly the expired workloads and is idempotent, and an
    upsert of a row that was read back keeps its archive mark. *)

From S2P Require Import Prelude GoString Models PushStatus Canary.

(** What the database keeps of an instant: writing what was read changes
    nothing, and the order of instants is kept. *)
Class TimestampColumn := {
  stored : Time -> Time;
  stored_idem t : stored (stored t) = stored t;
  stored_mono t u : (t <= u)%Z -> (stored t <= stored u)%Z
}.

(** PostgreSQL timestamps: whole microseconds. *)
Program Definition microseconds : TimestampColumn := {| stored t := (t / 1000 * 1000)%Z |}.
Next Obligation. intros t. cbn. by rewrite Z.div_mul. Qed.
Next Obligation. intros t u ?. cbn. pose proof (Z.div_le_mono t u 1000). lia. Qed.

Module Store.

(** ** Tables *)

(** A row of workload_configs; the key columns are the key of the table. *)
Record push_row := mkPushRow {
  pr_status : string; pr_error_message : option string; pr_pushed_by : option string;
  pr_label : option string; pr_push_id : string; pr_submitted_at : option Time;
  pr_sent_at : option Time; pr_timeout_at : option Time; pr_rollback_of : string;
  pr_instances : list InstanceStatus
}.
Notation push_key := (string * string * Z)%type.

(** A row of workload_known_good_configs. *)
Record known_row := mkKnownRow {
  kr_config_id : string; kr_marked_at : Time; kr_marked_by : option string;
  kr_source_applied_at : option Time; kr_replaced_config_id : option string;
  kr_replace_reason : option string
}.

Notation attribute_key := (string * string * string)%type.

Record db := mkDb {
  d_workloads : gmap string Workload;
  d_attributes : gmap attribute_key string;
  d_events : list WorkloadEvent;
  d_next_event : Z;
  d_configs : gmap string Config;
  d_pushes : gmap push_key push_row;
  d_known_good : gmap string known_row;
  d_canaries : gmap string Canary.CanaryStatus
}.

Definition set_workloads f d := mkDb (f (d_workloads d)) (d_attributes d) (d_events d)
  (d_next_event d) (d_configs d) (d_pushes d) (d_known_good d) (d_canaries d).
Definition set_attributes f d := mkDb (d_workloads d) (f (d_attributes d)) (d_events d)
  (d_next_event d) (d_configs d) (d_pushes d) (d_known_good d) (d_canaries d).
Definition set_events f d := mkDb (d_workloads d) (d_attributes d) (f (d_events d))
  (d_next_event d) (d_configs d) (d_pushes d) (d_known_good d) (d_canaries d).
Definition next_event d := mkDb (d_workloads d) (d_attributes d) (d_events d)
  (d_next_event d + 1)%Z (d_configs d) (d_pushes d) (d_known_good d) (d_canaries d).
Definition set_configs f d := mkDb (d_workloads d) (d_attributes d) (d_events d)
  (d_next_event d) (f (d_configs d)) (d_pushes d) (d_known_good d) (d_canaries d).
Definition set_pushes f d := mkDb (d_workloads d) (d_attributes d) (d_events d)
  (d_next_event d) (d_configs d) (f (d_pushes d)) (d_known_good d) (d_canaries d).
Definition set_known_good f d := mkDb (d_workloads d) (d_attributes d) (d_events d)
  (d_next_event d) (d_configs d) (d_pushes d) (f (d_known_good d)) (d_canaries d).
Definition set_canaries f d := mkDb (d_workloads d) (d_attributes d) (d_events d)
  (d_next_event d) (d_configs d) (d_pushes d) (d_known_good d) (f (d_canaries d)).

Definition empty_db : db := mkDb ∅ ∅ [] 1 ∅ ∅ ∅ ∅.

Definition ErrNoRows : string := "sql: no rows in result set".

(** A query answers or fails and changes nothing. *)
Definition query {A} (fault : io) (a : A) : result A :=
  match fault with IoOk => Ok a | IoFail _ => Err "query failed" end.

(** A statement or a transaction: refused by a constraint, or done, or failed
    with or without effect. *)
Definition exec (fault : io) (ok : bool) (d d' : db) : db * option string :=
  if negb ok then (d, Some "constraint violation")
  else match fault with
  | IoOk => (d', None)
  | IoFail executed => (if executed then d' else d, Some "exec failed")
  end.

(* src/internal/store/configs.go:148-153 nullIfEmpty *)
Definition nullIfEmpty (s : string) : option string := if s =s "" then None else Some s.

Section Statements.
Context `{UnicodeTables} `{TimestampColumn}.

(** ** Workloads *)

(** The columns written by an upsert over the row already there. *)
Definition upsert_row (prev : option Workload) (w : Workload) : Workload :=
  mkWorkload (wl_ID w)
    (if wl_FingerprintSource w =s "" then "uid" else wl_FingerprintSource w)
    (wl_FingerprintKeys w) (wl_DisplayName w) (wl_Type w) (wl_Version w) (wl_Status w)
    (stored (wl_LastSeenAt w)) (wl_Labels w) (wl_ActiveConfigID w) (wl_ActiveConfigHash w)
    (match PushStatus.Sanitized <$> wl_RemoteConfigStatus w with
     | Some s => Some s
     | None => p ← prev; wl_RemoteConfigStatus p
     end)
    None
    (match wl_AvailableComponents w with
     | Some c => Some c
     | None => p ← prev; wl_AvailableComponents p
     end)
    (wl_AcceptsRemoteConfig w) (stored <$> wl_RetentionUntil w) (stored <$> wl_ArchivedAt w).

Definition one_of (s : string) (l : list string) : bool := existsb (String.eqb s) l.

(** The CHECK constraints and the foreign key of the table. *)
Definition workload_constraints (d : db) (row : Workload) : bool :=
  one_of (wl_FingerprintSource row) ["k8s"; "host"; "uid"] &&
  one_of (wl_Type row) ["collector"; "sdk"] &&
  one_of (wl_Status row) ["connected"; "disconnected"; "degraded"] &&
  match wl_ActiveConfigID row with
  | Some c => bool_decide (is_Some (d_configs d !! c))
  | None => true
  end.

(** [INSERT] of the attributes, key by key; [None]: a primary key conflict. *)
Fixpoint insert_attributes (m : gmap attribute_key string) (id source : string)
  (attrs : gmap string string) (keys : list string) : option (gmap attribute_key string) :=
  match keys with
  | [] => Some m
  | key :: keys' =>
      match m !! (id, source, key) with
      | Some _ => None
      | None => insert_attributes (<[(id, source, key) := default "" (attrs !! key)]> m)
                  id source attrs keys'
      end
  end.

(* src/internal/store/workloads.go:104-122 insertWorkloadAttributes *)
Definition insertWorkloadAttributes (m : gmap attribute_key string) (id source : string)
  (attrs : gmap string string) : option (gmap attribute_key string) :=
  insert_attributes m id source attrs (List.filter (fun k => k <>s "") (sorted_keys attrs)).

(* src/internal/store/workloads.go:91-102 replaceWorkloadAttributes *)
Definition replaceWorkloadAttributes (m : gmap attribute_key string) (id : string)
  (keys labels : gmap string string) : option (gmap attribute_key string) :=
  let m := filter (fun kv => kv.1.1.1 <> id) m in
  m ← insertWorkloadAttributes m id "fingerprint" keys;
  insertWorkloadAttributes m id "label" labels.

(** One transaction. *)
(* src/internal/store/workloads.go:13-85 UpsertWorkload *)
Definition UpsertWorkload (d : db) (fault : io) (w : Workload) : db * option string :=
  let row := upsert_row (d_workloads d !! wl_ID w) w in
  match replaceWorkloadAttributes (d_attributes d) (wl_ID w) (wl_FingerprintKeys w) (wl_Labels w) with
  | None => (d, Some "insert workload_attribute")
  | Some attrs =>
      exec fault (workload_constraints d row) d
        (set_attributes (fun _ => attrs) (set_workloads (insert (wl_ID w) row) d))
  end.

(** Reading a row sanitizes its status once more. *)
Definition read_workload (row : Workload) : Workload :=
  mkWorkload (wl_ID row) (wl_FingerprintSource row) (wl_FingerprintKeys row) (wl_DisplayName row)
    (wl_Type row) (wl_Version row) (wl_Status row) (wl_LastSeenAt row) (wl_Labels row)
    (wl_ActiveConfigID row) (wl_ActiveConfigHash row)
    (PushStatus.Sanitized <$> wl_RemoteConfigStatus row) None (wl_AvailableComponents row)
    (wl_AcceptsRemoteConfig row) (wl_RetentionUntil row) (wl_ArchivedAt row).

(* src/internal/store/workloads.go:125-172 GetWorkload *)
Definition GetWorkload (d : db) (fault : io) (id : string) : result Workload :=
  match fault with
  | IoFail _ => Err ("get workload " +:+ id)
  | IoOk => match d_workloads d !! id with
            | Some row => Ok (read_workload row)
            | None => Err (ErrNoRows)
            end
  end.

Definition set_lifecycle (status : option string) (retention archived : option (option Time))
  (w : Workload) : Workload :=
  mkWorkload (wl_ID w) (wl_FingerprintSource w) (wl_FingerprintKeys w) (wl_DisplayName w)
    (wl_Type w) (wl_Version w) (default (wl_Status w) status) (wl_LastSeenAt w) (wl_Labels w)
    (wl_ActiveConfigID w) (wl_ActiveConfigHash w) (wl_RemoteConfigStatus w)
    (wl_CurrentConfigPush w) (wl_AvailableComponents w) (wl_AcceptsRemoteConfig w)
    (default (wl_RetentionUntil w) retention) (default (wl_ArchivedAt w) archived).

(** [UPDATE ... WHERE id = ?], refusing an absent row when [strict]. *)
Definition update_workload (d : db) (fault : io) (strict : bool) (id : string)
  (f : Workload -> Workload) : db * option string :=
  let (d', err) := exec fault true d (set_workloads (alter f id) d) in
  match err, d_workloads d !! id with
  | None, None => (d', if strict then Some ErrNoRows else None)
  | _, _ => (d', err)
  end.

(* src/internal/store/workloads.go:271-282 MarkWorkloadDisconnected *)
Definition MarkWorkloadDisconnected (d : db) (fault : io) (id : string) (retentionUntil : Time)
  : db * option string :=
  update_workload d fault true id
    (set_lifecycle (Some "disconnected") (Some (Some (stored retentionUntil))) None).

(* src/internal/store/workloads.go:285-288 ClearWorkloadRetention *)
Definition ClearWorkloadRetention (d : db) (fault : io) (id : string) : db * option string :=
  update_workload d fault false id (set_lifecycle None (Some None) None).

(** [archived_at IS NULL AND retention_until IS NOT NULL AND retention_until < ?]. *)
Definition expired (now : Time) (w : Workload) : bool :=
  match wl_ArchivedAt w, wl_RetentionUntil w with
  | None, Some r => Before r (stored now)
  | _, _ => false
  end.

(* src/internal/store/workloads.go:291-302 ArchiveExpiredWorkloads *)
Definition ArchiveExpiredWorkloads (d : db) (fault : io) (now : Time)
  : db * (Z * option string) :=
  let archive w := if expired now w
                   then set_lifecycle None None (Some (Some (stored now))) w else w in
  let (d', err) := exec fault true d (set_workloads (fmap archive) d) in
  (d', match err with
       | Some e => (0%Z, Some e)
       | None => (Z.of_nat (countm (expired now) (d_workloads d)), None)
       end).

(* src/internal/store/workloads.go:308-321 ArchiveWorkload *)
Definition ArchiveWorkload (d : db) (fault : io) (id : string) (archivedAt : Time)
  : db * option string :=
  update_workload d fault true id
    (set_lifecycle (Some "disconnected") (Some (Some (stored archivedAt)))
       (Some (Some (stored archivedAt)))).

(** Deleting a workload deletes the rows that reference it. *)
(* src/internal/store/workloads.go:324-327 DeleteWorkload *)
Definition DeleteWorkload (d : db) (fault : io) (id : string) : db * option string :=
  exec fault true d
    (mkDb (delete id (d_workloads d))
       (filter (fun kv => kv.1.1.1 <> id) (d_attributes d))
       (List.filter (fun e => ev_WorkloadID e <>s id) (d_events d)) (d_next_event d) (d_configs d)
       (filter (fun kv => kv.1.1.1 <> id) (d_pushes d)) (delete id (d_known_good d))
       (filter (fun kv => Canary.ca_WorkloadID kv.2 <> id) (d_canaries d))).

(** ** Workload events *)

Definition event_constraints (d : db) (e : WorkloadEvent) : bool :=
  bool_decide (is_Some (d_workloads d !! ev_WorkloadID e)) &&
  one_of (ev_EventType e) ["connected"; "disconnected"; "version_changed"].

(** The identity column is drawn even when the row is then refused. *)
(* src/internal/store/workload_events.go:10-25 InsertWorkloadEvent *)
Definition InsertWorkloadEvent (d : db) (fault : io) (now : Time) (e : WorkloadEvent)
  : db * result Z :=
  let at_ := if IsZero (ev_OccurredAt e) then now else ev_OccurredAt e in
  let id := d_next_event d in
  let row := mkWorkloadEvent id (ev_WorkloadID e) (ev_InstanceUID e) (ev_PodName e)
               (ev_EventType e) (ev_Version e) (ev_PrevVersion e) (stored at_) in
  if negb (event_constraints d e) then (next_event d, Err "constraint violation")
  else match fault with
  | IoOk => (set_events (fun l => l ++ [row]) (next_event d), Ok id)
  | IoFail true => (set_events (fun l => l ++ [row]) (next_event d), Err "insert failed")
  | IoFail false => (d, Err "insert failed")
  end.

(** [ORDER BY occurred_at DESC, id DESC]. *)
Definition event_cmp : WorkloadEvent -> WorkloadEvent -> comparison :=
  lex_cmp (by_key (fun e => (- ev_OccurredAt e)%Z) Z.compare)
          (by_key (fun e => (- ev_ID e)%Z) Z.compare).

(* src/internal/store/workload_events.go:28-56 ListWorkloadEvents *)
Definition ListWorkloadEvents (d : db) (fault : io) (workloadID : string) (limit : Z) (since : Time)
  : result (list WorkloadEvent) :=
  let keep e := (ev_WorkloadID e =s workloadID) &&
                (IsZero since || After (ev_OccurredAt e) (stored since)) in
  if Z.ltb limit 0 then Err "LIMIT must not be negative"
  else query fault
    (take (Z.to_nat limit) (sort_by (less_of event_cmp) (List.filter keep (d_events d)))).

(* src/internal/store/workload_events.go:59-65 PurgeOldWorkloadEvents *)
Definition PurgeOldWorkloadEvents (d : db) (fault : io) (cutoff : Time)
  : db * (Z * option string) :=
  let old e := Before (ev_OccurredAt e) (stored cutoff) in
  let (d', err) := exec fault true d (set_events (List.filter (fun e => negb (old e))) d) in
  (d', match err with
       | Some e => (0%Z, Some e)
       | None => (Z.of_nat (length (List.filter old (d_events d))), None)
       end).

(** ** Configs *)

Definition default_str (s d : string) : string := if s =s "" then d else s.

(** The row of a new config; the git columns are NULL when empty and read back
    as empty, [built_in] is not a column. *)
Definition config_row (c : Config) : Config :=
  mkConfig (cf_ID c) (cf_Name c) (cf_Content c) (stored (cf_CreatedAt c)) (cf_CreatedBy c)
    (default_str (cf_Kind c) "saved") (default_str (cf_Status c) "ready") (cf_Category c)
    (cf_Stack c) (cf_Description c) (cf_Variables c) (cf_Tags c) false
    (default_str (cf_SourceType c) "manual") (cf_GitURL c) (cf_GitProvider c) (cf_GitRef c)
    (cf_GitPath c) (cf_CommitSHA c) (stored <$> cf_ImportedAt c).

(* src/internal/store/configs.go:14-43 CreateConfig *)
Definition CreateConfig (d : db) (fault : io) (c : Config) : db * option string :=
  exec fault (bool_decide (d_configs d !! cf_ID c = None)) d
    (set_configs (insert (cf_ID c) (config_row c)) d).

(* src/internal/store/configs.go:46-58 GetConfig *)
Definition GetConfig (d : db) (fault : io) (id : string) : result Config :=
  match fault with
  | IoFail _ => Err ("get config " +:+ id)
  | IoOk => match d_configs d !! id with Some c => Ok c | None => Err ErrNoRows end
  end.

Definition without_content (c : Config) : Config :=
  mkConfig (cf_ID c) (cf_Name c) "" (cf_CreatedAt c) (cf_CreatedBy c) (cf_Kind c) (cf_Status c)
    (cf_Category c) (cf_Stack c) (cf_Description c) (cf_Variables c) (cf_Tags c) (cf_BuiltIn c)
    (cf_SourceType c) (cf_GitURL c) (cf_GitProvider c) (cf_GitRef c) (cf_GitPath c)
    (cf_CommitSHA c) (cf_ImportedAt c).

(* src/internal/store/configs.go:62-84 ListConfigs *)
Definition ListConfigs (d : db) (fault : io) : result (list Config) :=
  query fault
    (map without_content
       (sort_by (less_of (by_key (fun c => (- cf_CreatedAt c)%Z) Z.compare))
          (map_to_list (d_configs d)).*2)).

End Statements.

(** ** The janitor *)

Record JanitorOptions := mkJanitorOptions { jo_Interval : Duration; jo_EventRetention : Duration }.

(* src/internal/workloads/janitor.go:30-38 New *)
Definition NewJanitor (opts : JanitorOptions) : JanitorOptions :=
  mkJanitorOptions
    (if Z.leb (jo_Interval opts) 0 then (5 * Minute)%Z else jo_Interval opts)
    (if Z.leb (jo_EventRetention opts) 0 then (30 * 24 * Hour)%Z else jo_EventRetention opts).

Section Janitor.
Context `{UnicodeTables} `{TimestampColumn}.

(** A failed archive pass does not stop the purge. *)
(* src/internal/workloads/janitor.go:55-67 RunOnce *)
Definition RunOnce (j : JanitorOptions) (d : db) (faults : io * io) (now : Time) : db :=
  let d := (ArchiveExpiredWorkloads d faults.1 now).1 in
  let cutoff := Add now (- jo_EventRetention j)%Z in
  (PurgeOldWorkloadEvents d faults.2 cutoff).1.

(** The loop: one pass per tick until the context is cancelled. *)
Inductive select := Tick (now : Time) (faults : io * io) | Done.

(* src/internal/workloads/janitor.go:41-52 Start *)
Fixpoint Start (j : JanitorOptions) (d : db) (l : list select) : db :=
  match l with
  | [] | Done :: _ => d
  | Tick now faults :: l' => Start j (RunOnce j d faults now) l'
  end.

End Janitor.

(** ** The attribute projection *)

Section Projection.
Context `{UnicodeTables} `{TimestampColumn}.

(** What the projection table must hold for one key. *)
Definition projected (w : Workload) (source key : string) : option string :=
  if key =s "" then None
  else if source =s "fingerprint" then wl_FingerprintKeys w !! key
  else if source =s "label" then wl_Labels w !! key
  else None.

Definition in_sync (d : db) : Prop :=
  forall id source key,
    d_attributes d !! (id, source, key) = (w ← d_workloads d !! id; projected w source key).

Lemma insert_attributes_spec m id source attrs keys :
  NoDup keys ->
  (forall k, k ∈ keys -> m !! (id, source, k) = None /\ is_Some (attrs !! k)) ->
  exists m', insert_attributes m id source attrs keys = Some m' /\
    (forall k, k ∈ keys -> m' !! (id, source, k) = attrs !! k) /\
    (forall x, (forall k, k ∈ keys -> x <> (id, source, k)) -> m' !! x = m !! x).
Proof.
  intros Hn. revert m. induction Hn as [|k keys Hk Hn IH]; intros m Hm; simpl.
  { exists m. split; [done|]. split; [|done]. intros k Hk. by apply not_elem_of_nil in Hk. }
  destruct (Hm k) as [-> [v Hv]]; [by left|].
  destruct (IH (<[(id, source, k) := default "" (attrs !! k)]> m)) as (m' & -> & Hin & Hout).
  { intros k' Hk'. destruct (Hm k') as [Hnone Hsome]; [by right|]. split; [|done].
    rewrite lookup_insert_ne; [done|]. intros [= ->]. done. }
  exists m'. split; [done|]. split.
  - intros k' [->|Hk']%elem_of_cons; [|by apply Hin].
    rewrite Hout; [by rewrite lookup_insert_eq, Hv|]. intros k'' Hk'' [= ->]. done.
  - intros x Hx. rewrite Hout by (intros k' Hk'; apply Hx; by right).
    rewrite lookup_insert_ne; [done|]. intros <-. apply (Hx k); [by left|done].
Qed.

Lemma attribute_keys_spec (attrs : gmap string string) k :
  k ∈ List.filter (fun k => k <>s "") (sorted_keys attrs) <-> k <> "" /\ is_Some (attrs !! k).
Proof.
  rewrite list_elem_of_In, filter_In, <-list_elem_of_In, elem_of_sorted_keys.
  rewrite negb_true_iff, String.eqb_neq. naive_solver.
Qed.

Lemma attribute_keys_NoDup (attrs : gmap string string) :
  NoDup (List.filter (fun k => k <>s "") (sorted_keys attrs)).
Proof. apply NoDup_ListNoDup, List.NoDup_filter, NoDup_ListNoDup, sorted_keys_NoDup. Qed.

(** Inserting one source into a table without rows of it. *)
Lemma insertWorkloadAttributes_spec m id source attrs :
  (forall k, m !! (id, source, k) = None) ->
  exists m', insertWorkloadAttributes m id source attrs = Some m' /\
    forall i s k, m' !! (i, s, k) =
      if (i =s id) && (s =s source) then (if k =s "" then None else attrs !! k) else m !! (i, s, k).
Proof.
  intros Hm. unfold insertWorkloadAttributes.
  destruct (insert_attributes_spec m id source attrs _ (attribute_keys_NoDup attrs))
    as (m' & -> & Hin & Hout).
  { intros k [_ Hk]%attribute_keys_spec. done. }
  exists m'. split; [done|]. intros i s k.
  destruct ((i =s id) && (s =s source)) eqn:E.
  - reflect_bools. subst i s. destruct (decide (k <> "" /\ is_Some (attrs !! k))) as [Hk|Hk].
    + rewrite Hin by by apply attribute_keys_spec. destruct Hk as [Hk _].
      apply String.eqb_neq in Hk. by rewrite Hk.
    + rewrite Hout; [|intros k' Hk' [= ->]; by apply Hk, attribute_keys_spec].
      rewrite Hm. destruct (k =s "") eqn:Ek; [done|]. reflect_bools.
      destruct (attrs !! k) eqn:Ea; [|done]. exfalso. eauto.
  - rewrite Hout; [done|]. intros k' _ [= -> -> ->]. by rewrite !String.eqb_refl in E.
Qed.

Lemma replaceWorkloadAttributes_spec m id keys labels :
  exists m', replaceWorkloadAttributes m id keys labels = Some m' /\
    forall i s k, m' !! (i, s, k) =
      if i =s id then
        (if k =s "" then None else if s =s "fingerprint" then keys !! k
         else if s =s "label" then labels !! k else None)
      else m !! (i, s, k).
Proof.
  unfold replaceWorkloadAttributes.
  assert (forall i s k, filter (fun kv : attribute_key * string => kv.1.1.1 <> id) m !! (i, s, k) =
                        if i =s id then None else m !! (i, s, k)) as Hf.
  { intros i s k. destruct (i =s id) eqn:E; reflect_bools.
    - apply map_lookup_filter_None. right. intros x _. naive_solver.
    - destruct (m !! (i, s, k)) eqn:Em.
      + by apply map_lookup_filter_Some.
      + apply map_lookup_filter_None. by left. }
  destruct (insertWorkloadAttributes_spec
    (filter (fun kv : attribute_key * string => kv.1.1.1 <> id) m) id "fingerprint" keys)
    as (m1 & -> & H1); [intros k; by rewrite Hf, String.eqb_refl|]. cbn [mbind option_bind].
  destruct (insertWorkloadAttributes_spec m1 id "label" labels) as (m2 & -> & H2).
  { intros k. by rewrite H1, Hf, String.eqb_refl. }
  exists m2. split; [done|]. intros i s k. rewrite H2, H1, Hf.
  destruct (i =s id); [simpl|done].
  destruct (s =s "label") eqn:El; reflect_bools; [subst s; by destruct (k =s "")|].
  destruct (s =s "fingerprint"); by destruct (k =s "").
Qed.

Lemma in_sync_update d id f :
  (forall w, wl_FingerprintKeys (f w) = wl_FingerprintKeys w /\ wl_Labels (f w) = wl_Labels w) ->
  in_sync d -> in_sync (set_workloads (alter f id) d).
Proof.
  intros Hf Hd i s k. cbn. rewrite (Hd i s k). destruct (decide (i = id)) as [->|Hi].
  - rewrite lookup_alter_eq. destruct (d_workloads d !! id) as [w|]; [cbn|done].
    unfold projected. by destruct (Hf w) as [-> ->].
  - by rewrite lookup_alter_ne.
Qed.

Lemma exec_outcomes fault ok d d' r :
  exec fault ok d d' = r -> r.1 = d \/ (ok = true /\ r.1 = d').
Proof. unfold exec. intros <-. destruct ok; simpl; [|by left]. destruct fault as [|[]]; auto. Qed.

Lemma exec_preserves (P : db -> Prop) fault ok d d' :
  P d -> (ok = true -> P d') -> P (exec fault ok d d').1.
Proof. intros. destruct (exec_outcomes fault ok d d' _ eq_refl) as [->|[? ->]]; auto. Qed.

Lemma in_sync_upsert d fault w : in_sync d -> in_sync (UpsertWorkload d fault w).1.
Proof.
  intros Hd. unfold UpsertWorkload.
  destruct (replaceWorkloadAttributes_spec (d_attributes d) (wl_ID w) (wl_FingerprintKeys w) (wl_Labels w))
    as (m' & -> & Hm'). apply exec_preserves; [done|]. intros _ i s k. cbn.
  rewrite Hm'. destruct (i =s wl_ID w) eqn:E; reflect_bools.
  - subst i. by rewrite lookup_insert_eq.
  - rewrite lookup_insert_ne by done. apply Hd.
Qed.

Lemma update_workload_preserves (P : db -> Prop) d fault strict id f :
  P d -> P (set_workloads (alter f id) d) -> P (update_workload d fault strict id f).1.
Proof.
  intros H1 H2. unfold update_workload.
  destruct (exec fault true d (set_workloads (alter f id) d)) as [d' err] eqn:E.
  apply exec_outcomes in E. cbn in E.
  assert (P d') by (destruct E as [->|[_ ->]]; done).
  destruct err; [done|]. by destruct (d_workloads d !! id).
Qed.

Lemma in_sync_lifecycle d fault strict id a b c :
  in_sync d -> in_sync (update_workload d fault strict id (set_lifecycle a b c)).1.
Proof. intros. apply update_workload_preserves; [done|]. by apply in_sync_update. Qed.

Lemma in_sync_archive_expired d fault now :
  in_sync d -> in_sync (ArchiveExpiredWorkloads d fault now).1.
Proof.
  intros Hd. unfold ArchiveExpiredWorkloads.
  match goal with |- context [exec ?f ?o ?a ?b] => destruct (exec f o a b) as [d' err] eqn:E end.
  apply exec_outcomes in E. cbn in E |- *. destruct E as [->|[_ ->]]; [done|].
  intros i s k. cbn. rewrite lookup_fmap, (Hd i s k).
  destruct (d_workloads d !! i) as [w|]; [cbn|done]. by destruct (expired now w).
Qed.

Lemma in_sync_delete d fault id : in_sync d -> in_sync (DeleteWorkload d fault id).1.
Proof.
  intros Hd. unfold DeleteWorkload. apply exec_preserves; [done|]. intros _ i s k. cbn.
  destruct (decide (i = id)) as [->|Hi].
  - rewrite lookup_delete_eq. apply map_lookup_filter_None. right. naive_solver.
  - rewrite lookup_delete_ne by done. rewrite <-Hd.
    destruct (d_attributes d !! (i, s, k)) eqn:E.
    + by apply map_lookup_filter_Some.
    + apply map_lookup_filter_None. by left.
Qed.

(** The statements that write the workload table. *)
Inductive workload_op :=
| OpUpsert (w : Workload) | OpDisconnect (id : string) (t : Time) | OpClear (id : string)
| OpExpire (now : Time) | OpArchive (id : string) (t : Time) | OpDelete (id : string).

Definition run_op (d : db) (fo : io * workload_op) : db :=
  match fo.2 with
  | OpUpsert w => (UpsertWorkload d fo.1 w).1
  | OpDisconnect id t => (MarkWorkloadDisconnected d fo.1 id t).1
  | OpClear id => (ClearWorkloadRetention d fo.1 id).1
  | OpExpire now => (ArchiveExpiredWorkloads d fo.1 now).1
  | OpArchive id t => (ArchiveWorkload d fo.1 id t).1
  | OpDelete id => (DeleteWorkload d fo.1 id).1
  end.

(** after any sequence of upserts, disconnections, archivals and deletions,
    whatever calls fail, the indexed attribute table equals the labels and
    fingerprint keys of the workload rows (the empty key left out), and an
    upsert never trips over a leftover attribute row. *)
Theorem attribute_projection_in_sync ops d w
    (Hd : in_sync d) :
  let d' := foldl run_op d ops in
  in_sync d' /\
  is_Some (replaceWorkloadAttributes (d_attributes d') (wl_ID w) (wl_FingerprintKeys w) (wl_Labels w)).
Proof.
  cbn. split.
  - revert d Hd. induction ops as [|[f o] ops IH]; intros d Hd; [done|]. apply IH.
    destruct o; simpl.
    + by apply in_sync_upsert.
    + by apply in_sync_lifecycle.
    + by apply in_sync_lifecycle.
    + by apply in_sync_archive_expired.
    + by apply in_sync_lifecycle.
    + by apply in_sync_delete.
  - destruct (replaceWorkloadAttributes_spec (d_attributes (foldl run_op d ops)) (wl_ID w)
      (wl_FingerprintKeys w) (wl_Labels w)) as (m' & -> & _). eauto.
Qed.

End Projection.

(** ** Writing back what was read *)

Section RoundTrip.
Context `{UnicodeTables} `{TimestampColumn}.

Lemma sanitize_idem msg :
  PushStatus.SanitizeRemoteConfigErrorMessage (PushStatus.SanitizeRemoteConfigErrorMessage msg) =
  PushStatus.SanitizeRemoteConfigErrorMessage msg.
Proof. apply PushStatus.sanitize_fixed, PushStatus.sanitize_safe. Qed.

Lemma map_idem {A} (f : A -> A) l : (forall x, f (f x) = f x) -> map f (map f l) = map f l.
Proof. intros Hf. rewrite map_map. by apply map_ext. Qed.

Lemma Sanitized_idem r : PushStatus.Sanitized (PushStatus.Sanitized r) = PushStatus.Sanitized r.
Proof.
  destruct r as [st h msg t [p|]]; unfold PushStatus.Sanitized; cbn; rewrite sanitize_idem; [|done].
  do 2 f_equal. destruct p. unfold PushStatus.SanitizeRemoteConfigErrors; cbn.
  rewrite sanitize_idem. f_equal; apply map_idem; intros []; cbn;
    unfold PushStatus.with_entry_message, PushStatus.with_instance_error, PushStatus.with_group_sample;
    cbn; by rewrite sanitize_idem.
Qed.

(** A row as an upsert leaves it. *)
Definition canonical (row : Workload) : Prop := upsert_row (Some row) (read_workload row) = row.

Definition all_canonical (d : db) : Prop :=
  forall id row, d_workloads d !! id = Some row -> wl_ID row = id /\ canonical row.

Lemma fmap_idem {A} (f : A -> A) (o : option A) :
  (forall x, f (f x) = f x) -> f <$> (f <$> o) = f <$> o.
Proof. intros Hf. destruct o; simpl; [by rewrite Hf|done]. Qed.

Lemma upsert_row_canonical prev w :
  (forall p, prev = Some p -> canonical p) -> canonical (upsert_row prev w).
Proof.
  intros Hprev. unfold canonical, upsert_row, read_workload. cbn.
  assert (forall s, (if (if s =s "" then "uid" else s) =s "" then "uid"
                     else (if s =s "" then "uid" else s)) = (if s =s "" then "uid" else s)) as ->.
  { intros s. by destruct (s =s "") eqn:E; [|rewrite E]. }
  rewrite stored_idem, !(fmap_idem stored) by apply stored_idem.
  assert (forall o : option RemoteConfigStatus, (forall x, o = Some x -> PushStatus.Sanitized x = x) ->
    match PushStatus.Sanitized <$> (PushStatus.Sanitized <$> o) with
    | Some s => Some s | None => o end = o) as Hst.
  { intros [x|]; simpl; [|done]. intros Hx. by rewrite !(Hx x eq_refl). }
  f_equal.
  - apply Hst. destruct (wl_RemoteConfigStatus w) as [r|]; simpl.
    + intros x [= <-]. apply Sanitized_idem.
    + destruct prev as [p|]; simpl; [|done]. specialize (Hprev p eq_refl).
      intros x Hx. apply (f_equal wl_RemoteConfigStatus) in Hprev. cbn in Hprev.
      rewrite Hx in Hprev. cbn in Hprev. rewrite Sanitized_idem in Hprev. congruence.
  - destruct (wl_AvailableComponents w); [done|]. by destruct (p ← prev; wl_AvailableComponents p).
Qed.

Lemma all_canonical_upsert d fault w : all_canonical d -> all_canonical (UpsertWorkload d fault w).1.
Proof.
  intros Hd. unfold UpsertWorkload.
  destruct (replaceWorkloadAttributes _ _ _ _); [|done]. apply exec_preserves; [done|].
  intros _ id row. cbn. intros [[<- <-]|[? Hr]]%lookup_insert_Some; [|by apply Hd].
  split; [done|]. apply upsert_row_canonical. intros p Hp. by apply (Hd (wl_ID w)).
Qed.

Lemma UpsertWorkload_ok d w :
  workload_constraints d (upsert_row (d_workloads d !! wl_ID w) w) = true ->
  exists attrs, UpsertWorkload d IoOk w =
    (set_attributes (fun _ => attrs)
       (set_workloads (insert (wl_ID w) (upsert_row (d_workloads d !! wl_ID w) w)) d), None).
Proof.
  intros Hc. unfold UpsertWorkload.
  destruct (replaceWorkloadAttributes_spec (d_attributes d) (wl_ID w) (wl_FingerprintKeys w) (wl_Labels w))
    as (m' & -> & _). rewrite Hc. by exists m'.
Qed.

(** reading a workload and writing it back changes no row: every column,
    the archive mark and the retention deadline included, the last known
    remote status and the component list, is what it was. *)
Theorem workload_read_write_back d id row
    (Hd : all_canonical d) (Hrow : d_workloads d !! id = Some row)
    (Hc : workload_constraints d row = true) :
  exists w, GetWorkload d IoOk id = Ok w /\
    (UpsertWorkload d IoOk w).2 = None /\
    d_workloads (UpsertWorkload d IoOk w).1 = d_workloads d.
Proof.
  destruct (Hd id row Hrow) as [Hid Hcan]. exists (read_workload row).
  unfold GetWorkload. rewrite Hrow. split; [done|].
  assert (wl_ID (read_workload row) = id) as Hw by done.
  assert (upsert_row (d_workloads d !! wl_ID (read_workload row)) (read_workload row) = row) as Hup.
  { rewrite Hw, Hrow. exact Hcan. }
  destruct (UpsertWorkload_ok d (read_workload row)) as [attrs ->]; [by rewrite Hup|].
  split; [done|]. cbn [fst set_attributes set_workloads d_workloads].
  rewrite Hup, Hw. by apply insert_id.
Qed.

(** an upsert that the constraints accept succeeds, keeps the last known
    remote status and component list when the new value carries none, redacts
    the status it stores, and leaves every other workload alone; one that they
    refuse changes nothing. *)
Theorem UpsertWorkload_outcome d w :
  let row := upsert_row (d_workloads d !! wl_ID w) w in
  (workload_constraints d row = true ->
     (UpsertWorkload d IoOk w).2 = None /\
     GetWorkload (UpsertWorkload d IoOk w).1 IoOk (wl_ID w) = Ok (read_workload row) /\
     (wl_RemoteConfigStatus w = None ->
        wl_RemoteConfigStatus row = (p ← d_workloads d !! wl_ID w; wl_RemoteConfigStatus p)) /\
     (wl_AvailableComponents w = None ->
        wl_AvailableComponents row = (p ← d_workloads d !! wl_ID w; wl_AvailableComponents p)) /\
     (forall r, wl_RemoteConfigStatus w = Some r ->
        exists r', wl_RemoteConfigStatus row = Some r' /\ PushStatus.safe (rcs_ErrorMessage r')) /\
     (forall id, id <> wl_ID w ->
        GetWorkload (UpsertWorkload d IoOk w).1 IoOk id = GetWorkload d IoOk id)) /\
  (workload_constraints d row = false -> forall fault,
     exists e, UpsertWorkload d fault w = (d, Some e)).
Proof.
  cbn. split.
  - intros Hc. destruct (UpsertWorkload_ok d w Hc) as [attrs ->]. cbn.
    split; [done|]. split; [by rewrite lookup_insert_eq|]. split; [by intros ->|].
    split; [by intros ->|]. split.
    + intros r ->. eexists. split; [done|]. apply PushStatus.sanitize_safe.
    + intros id Hid. by rewrite lookup_insert_ne.
  - intros Hc fault. unfold UpsertWorkload. destruct (replaceWorkloadAttributes _ _ _ _); [|eauto].
    rewrite Hc. eauto.
Qed.

End RoundTrip.

(** ** The janitor *)

Section JanitorSpec.
Context `{UnicodeTables} `{TimestampColumn}.

Lemma archive_pass d now :
  d_workloads (ArchiveExpiredWorkloads d IoOk now).1 =
  (fun w => if expired now w then set_lifecycle None None (Some (Some (stored now))) w else w)
    <$> d_workloads d.
Proof. done. Qed.

Lemma RunOnce_workloads j d faults now :
  d_workloads (RunOnce j d faults now) = d_workloads (ArchiveExpiredWorkloads d faults.1 now).1.
Proof. unfold RunOnce, PurgeOldWorkloadEvents, exec. by destruct faults.2 as [|[]]. Qed.

Lemma RunOnce_events j d faults now :
  d_events (RunOnce j d faults now) =
  match faults.2 with
  | IoFail false => d_events d
  | _ => List.filter (fun e => negb (Before (ev_OccurredAt e)
           (stored (Add now (- jo_EventRetention j)%Z)))) (d_events d)
  end.
Proof.
  unfold RunOnce, PurgeOldWorkloadEvents, ArchiveExpiredWorkloads, exec.
  by destruct faults.2 as [|[]], faults.1 as [|[]].
Qed.

Lemma filter_idem {A} (p : A -> bool) l : List.filter p (List.filter p l) = List.filter p l.
Proof.
  induction l as [|x l IH]; simpl; [done|]. destruct (p x) eqn:E; simpl; [|done].
  by rewrite E, IH.
Qed.

(** one janitor pass archives exactly the workloads whose retention
    deadline has passed and that were not archived yet (stamping the pass's
    instant and changing nothing else of them), leaves every other workload
    as it was, deletes exactly the events before the horizon, and running it
    again at the same instant changes nothing. *)
Theorem janitor_pass j d now :
  let d' := RunOnce j d (IoOk, IoOk) now in
  (forall id, d_workloads d' !! id =
     (fun w => if expired now w then set_lifecycle None None (Some (Some (stored now))) w else w)
       <$> d_workloads d !! id) /\
  (forall e, e ∈ d_events d' <->
     e ∈ d_events d /\ (stored (Add now (- jo_EventRetention j)) <= ev_OccurredAt e)%Z) /\
  (forall id w, d_workloads d' !! id = Some w -> expired now w = false) /\
  RunOnce j d' (IoOk, IoOk) now = d'.
Proof.
  assert (forall w, expired now (if expired now w
            then set_lifecycle None None (Some (Some (stored now))) w else w) = false) as Hexp.
  { intros w. destruct (expired now w) eqn:E; [|done]. done. }
  cbv zeta. split; [intros id; by rewrite RunOnce_workloads, archive_pass, lookup_fmap|]. split.
  { intros e. rewrite RunOnce_events. cbn [snd].
    rewrite list_elem_of_In, filter_In, <-list_elem_of_In, negb_true_iff. unfold Before.
    by rewrite Z.ltb_ge. }
  split.
  { intros id w. rewrite RunOnce_workloads, archive_pass, lookup_fmap.
    intros (w0 & _ & ->)%fmap_Some. apply Hexp. }
  destruct d. unfold RunOnce, ArchiveExpiredWorkloads, PurgeOldWorkloadEvents, set_workloads,
    set_events; cbn. f_equal; [|apply filter_idem].
  rewrite <-map_fmap_compose. apply map_fmap_ext. intros id w _. cbn. by rewrite Hexp.
Qed.

(** Whatever the ticks and the failures, an archive mark is never removed. *)
Lemma janitor_keeps_archived j l d id w t :
  d_workloads d !! id = Some w -> wl_ArchivedAt w = Some t ->
  d_workloads (Start j d l) !! id = Some w.
Proof.
  intros Hw Ht. revert d Hw. induction l as [|[now faults|] l IH]; intros d Hw; [done| |done].
  simpl. apply IH. rewrite RunOnce_workloads. unfold ArchiveExpiredWorkloads, exec.
  assert (expired now w = false) as He by (unfold expired; by rewrite Ht).
  destruct faults.1 as [|[]]; cbn; rewrite ?lookup_fmap, Hw; cbn; by rewrite ?He.
Qed.

End JanitorSpec.

(** ** Witnesses *)

Definition sample_workload (id : string) : Workload :=
  mkWorkload id "host" {["host.name" := "h1"]} "api" "collector" "0.90" "connected" 5000
    {["env" := "prod"; "" := "x"]} None "" None None None true None (Some 7000%Z).

Lemma attribute_projection_in_sync_witness :
  let _ := byte_tables in let _ := microseconds in
  in_sync empty_db /\
  in_sync (foldl run_op empty_db [(IoOk, OpUpsert (sample_workload "w")); (IoFail true, OpDelete "w")]).
Proof.
  assert (in_sync empty_db) as He by (intros id s k; done).
  split; [done|].
  exact (proj1 (attribute_projection_in_sync (H:=byte_tables) (H0:=microseconds) _ _
    (sample_workload "w") He)).
Defined.

Lemma workload_read_write_back_witness :
  let _ := byte_tables in let _ := microseconds in
  let d := (UpsertWorkload empty_db IoOk (sample_workload "w")).1 in
  exists w, GetWorkload d IoOk "w" = Ok w /\ (UpsertWorkload d IoOk w).2 = None /\
    d_workloads (UpsertWorkload d IoOk w).1 = d_workloads d.
Proof.
  intros UT TC d.
  assert (all_canonical d) as Hd by (apply all_canonical_upsert; intros id row; done).
  eapply (workload_read_write_back d "w" _ Hd).
  - vm_compute. reflexivity.
  - vm_compute. reflexivity.
Defined.

End Store.
