(* ===== verification/PushHistory.v ===== *)
(** * Push history, known-good baseline and rollback target
    (internal/store/workload_configs.go)

    Every push of a config to a workload is a row of the history; the agents'
    statuses are merged into the latest row of the config, a known-good pointer
    marks the recovery baseline, and the rollback target is resolved from both.
    Instants read from the clock are parameters ([now]); of two rows written at
    the same instant the database may return either as the latest, the model
    returns one of them. *)

From S2P Require Import Prelude GoString Models PushStatus Canary Store.
Import Store.Store.

Module PushHistory.

Section History.
Context `{UnicodeTables} `{TimestampColumn}.

(** ** Reading rows *)

Notation entry := (push_key * push_row)%type.
Definition e_workload (e : entry) : string := e.1.1.1.
Definition e_config (e : entry) : string := e.1.1.2.
Definition e_applied_at (e : entry) : Time := e.1.2.

(** [ORDER BY applied_at DESC]. *)
Definition newest : entry -> entry -> comparison := by_key (fun e => (- e_applied_at e)%Z) Z.compare.

(** The rows that satisfy the [WHERE] clause, and the first of them. *)
Definition select_pushes (d : db) (cond : entry -> bool) : list entry :=
  List.filter cond (map_to_list (d_pushes d)).
Definition latest (d : db) (cond : entry -> bool) : option entry :=
  min_by newest (select_pushes d cond).

(** [LEFT JOIN configs]: the content, empty without a config row. *)
Definition content_of (d : db) (configID : string) : string :=
  match d_configs d !! configID with Some c => cf_Content c | None => "" end.

(** The latest update seen in the instances. *)
Definition last_update (appliedAt : Time) (insts : list InstanceStatus) : Time :=
  foldl (fun t i => if After (is_UpdatedAt i) t then is_UpdatedAt i else t) appliedAt insts.

(** The columns of a row before the hydration. *)
Definition scanned (e : entry) (content : string) (available : bool) : WorkloadConfig :=
  let r := e.2 in
  mkWorkloadConfig (e_workload e) (e_config e) "" (e_applied_at e) (pr_status r)
    (default "" (pr_error_message r)) (default "" (pr_pushed_by r)) content (pr_label r)
    (pr_push_id r) (default (e_applied_at e) (pr_submitted_at r)) (pr_sent_at r)
    (last_update (e_applied_at e) (pr_instances r)) (pr_timeout_at r) false "" (pr_rollback_of r)
    [] (pr_instances r) 0 0 0 0 0 0 [] false false false false available.

(* src/internal/store/workload_configs.go:382-422 scanWorkloadConfig *)
Definition scanWorkloadConfig (d : db) (now : Time) (e : entry) : WorkloadConfig :=
  PushStatus.HydratePushStatus now (scanned e (content_of d (e_config e)) false) now.

(* src/internal/store/workload_configs.go:269-311 scanWorkloadConfigHistoryMetadata *)
Definition scanWorkloadConfigHistoryMetadata (d : db) (now : Time) (e : entry) : WorkloadConfig :=
  PushStatus.HydratePushStatus now (scanned e "" (content_of d (e_config e) <>s "")) now.

(** A query for one row; [sql.ErrNoRows] becomes [nil]. *)
(* src/internal/store/workload_configs.go:372-378 getOneWorkloadConfig *)
Definition getOneWorkloadConfig (d : db) (fault : io) (now : Time) (cond : entry -> bool)
  : result (option WorkloadConfig) :=
  query fault (scanWorkloadConfig d now <$> latest d cond).

Definition of_workload (workloadID : string) (e : entry) : bool := e_workload e =s workloadID.
Definition of_push (workloadID configID : string) (e : entry) : bool :=
  (e_workload e =s workloadID) && (e_config e =s configID).
Definition in_status (l : list string) (e : entry) : bool := one_of (pr_status e.2) l.

(* src/internal/store/workload_configs.go:155-169 GetLatestPendingWorkloadConfig *)
Definition GetLatestPendingWorkloadConfig (d : db) (fault : io) (now : Time) (workloadID : string) :=
  getOneWorkloadConfig d fault now (fun e => of_workload workloadID e &&
    in_status ["pending"; "submitted"; "sent"; "applying"; "rollback_started"] e).

(* src/internal/store/workload_configs.go:172-186 GetLatestWorkloadConfig *)
Definition GetLatestWorkloadConfig (d : db) (fault : io) (now : Time) (workloadID : string) :=
  getOneWorkloadConfig d fault now (of_workload workloadID).

(* src/internal/store/workload_configs.go:189-203 GetLatestWorkloadConfigByHash *)
Definition GetLatestWorkloadConfigByHash (d : db) (fault : io) (now : Time)
  (workloadID configID : string) :=
  getOneWorkloadConfig d fault now (of_push workloadID configID).

(* src/internal/store/workload_configs.go:540-542 GetWorkloadConfigByHash *)
Definition GetWorkloadConfigByHash (d : db) (fault : io) (now : Time) (workloadID hash : string) :=
  GetLatestWorkloadConfigByHash d fault now workloadID hash.

(** The rows read without their derived fields. *)
Definition plain (e : entry) (content : string) : WorkloadConfig :=
  let r := e.2 in
  mkWorkloadConfig (e_workload e) (e_config e) "" (e_applied_at e) (pr_status r)
    (default "" (pr_error_message r)) (default "" (pr_pushed_by r)) content (pr_label r)
    "" zero_time None zero_time None false "" "" [] [] 0 0 0 0 0 0 []
    false false false false (content <>s "").

(* src/internal/store/workload_configs.go:208-230 GetLatestPendingOrApplyingWorkloadConfig *)
Definition GetLatestPendingOrApplyingWorkloadConfig (d : db) (fault : io) (workloadID : string)
  : result (option WorkloadConfig) :=
  query fault ((fun e => plain e "") <$> latest d (fun e => of_workload workloadID e &&
    in_status ["pending"; "submitted"; "sent"; "applying"] e)).

(* src/internal/store/workload_configs.go:498-513 GetLastAppliedWorkloadConfig *)
Definition GetLastAppliedWorkloadConfig (d : db) (fault : io) (now : Time) (workloadID : string) :=
  getOneWorkloadConfig d fault now (fun e => of_workload workloadID e && in_status ["applied"] e).

(* src/internal/store/workload_configs.go:779-805 GetPreviousAppliedWorkloadConfig *)
Definition GetPreviousAppliedWorkloadConfig (d : db) (fault : io) (workloadID excludeHash : string)
  : result (option WorkloadConfig) :=
  query fault ((fun e => plain e (content_of d (e_config e))) <$> latest d (fun e =>
    of_workload workloadID e && in_status ["applied"] e && (e_config e <>s excludeHash))).

(** ** Writing rows *)

Definition push_statuses : list string :=
  ["pending"; "submitted"; "sent"; "applying"; "applied"; "failed"; "rollback_started";
   "rollback_applied"; "rollback_failed"].

Definition sanitize_instance (i : InstanceStatus) : InstanceStatus :=
  PushStatus.with_instance_error i
    (PushStatus.SanitizeRemoteConfigErrorMessage (is_ErrorMessage i)).

(** The row a push record is written as. *)
Definition new_push_row (wc : WorkloadConfig) (t : Time) : push_row :=
  let submittedAt := if IsZero (wc_SubmittedAt wc) then t else wc_SubmittedAt wc in
  let status := if (wc_Status wc =s "") || (wc_Status wc =s "pending")
                then PushStatus.PushStatusSubmitted else wc_Status wc in
  let timeoutAt := match wc_OpAMPStatusTimeoutAt wc with
                   | Some u => u | None => Add submittedAt (30 * Second)%Z end in
  mkPushRow status
    (nullIfEmpty (PushStatus.SanitizeRemoteConfigErrorMessage (wc_ErrorMessage wc)))
    (nullIfEmpty (wc_PushedBy wc)) None (wc_PushID wc) (Some (stored submittedAt))
    (stored <$> wc_SentAt wc) (Some (stored timeoutAt)) (wc_RollbackOfPushID wc)
    (map sanitize_instance (wc_InstanceStatuses wc)).

(** The primary key, the foreign keys and the CHECK on the status. *)
Definition push_constraints (d : db) (k : push_key) (r : push_row) : bool :=
  bool_decide (d_pushes d !! k = None) && bool_decide (is_Some (d_workloads d !! k.1.1)) &&
  bool_decide (is_Some (d_configs d !! k.1.2)) && one_of (pr_status r) push_statuses.

(* src/internal/store/workload_configs.go:14-46 RecordWorkloadConfig *)
Definition RecordWorkloadConfig (d : db) (fault : io) (now : Time) (wc : WorkloadConfig)
  : db * option string :=
  let t := if IsZero (wc_AppliedAt wc) then now else wc_AppliedAt wc in
  let k := (wc_WorkloadID wc, wc_ConfigID wc, stored t) in
  let row := new_push_row wc t in
  exec fault (push_constraints d k row) d (set_pushes (insert k row) d).

(** [UPDATE ... WHERE workload_id = ? AND config_id = ? AND applied_at = MAX]. *)
Definition update_latest (d : db) (fault : io) (workloadID configID : string)
  (f : push_row -> push_row) : db * option string :=
  match latest d (of_push workloadID configID) with
  | Some e => exec fault (one_of (pr_status (f e.2)) push_statuses) d
                (set_pushes (insert e.1 (f e.2)) d)
  | None => exec fault true d d
  end.

Definition row_status (status : string) (r : push_row) : push_row :=
  mkPushRow status (pr_error_message r) (pr_pushed_by r) (pr_label r) (pr_push_id r)
    (pr_submitted_at r) (pr_sent_at r) (pr_timeout_at r) (pr_rollback_of r) (pr_instances r).
Definition row_sent (t : Time) (r : push_row) : push_row :=
  mkPushRow (pr_status r) (pr_error_message r) (pr_pushed_by r) (pr_label r) (pr_push_id r)
    (pr_submitted_at r) (Some t) (pr_timeout_at r) (pr_rollback_of r) (pr_instances r).
Definition row_error (m : string) (r : push_row) : push_row :=
  mkPushRow (pr_status r) (nullIfEmpty m) (pr_pushed_by r) (pr_label r) (pr_push_id r)
    (pr_submitted_at r) (pr_sent_at r) (pr_timeout_at r) (pr_rollback_of r) (pr_instances r).
Definition row_label (l : string) (r : push_row) : push_row :=
  mkPushRow (pr_status r) (pr_error_message r) (pr_pushed_by r) (nullIfEmpty l) (pr_push_id r)
    (pr_submitted_at r) (pr_sent_at r) (pr_timeout_at r) (pr_rollback_of r) (pr_instances r).
Definition row_instances (l : list InstanceStatus) (r : push_row) : push_row :=
  mkPushRow (pr_status r) (pr_error_message r) (pr_pushed_by r) (pr_label r) (pr_push_id r)
    (pr_submitted_at r) (pr_sent_at r) (pr_timeout_at r) (pr_rollback_of r) l.

(* src/internal/store/workload_configs.go:49-59 MarkWorkloadConfigSent *)
Definition MarkWorkloadConfigSent (d : db) (fault : io) (workloadID configID : string)
  (sentAt : Time) : db * option string :=
  update_latest d fault workloadID configID
    (fun r => row_sent (stored sentAt) (row_status PushStatus.PushStatusSent r)).

(* src/internal/store/workload_configs.go:62-73 UpdateWorkloadConfigStatus *)
Definition UpdateWorkloadConfigStatus (d : db) (fault : io)
  (workloadID configID status errorMessage : string) : db * option string :=
  update_latest d fault workloadID configID
    (fun r => row_error (PushStatus.SanitizeRemoteConfigErrorMessage errorMessage)
                (row_status status r)).

(** The loop over the instance statuses and the append when none matched. *)
Fixpoint merge_instance (l : list InstanceStatus) (uid status configID errorMessage : string)
  (at_ : Time) : list InstanceStatus :=
  match l with
  | [] => [mkInstanceStatus uid "" "" true status configID at_ "" errorMessage false]
  | i :: l' =>
      if is_InstanceUID i =s uid
      then mkInstanceStatus (is_InstanceUID i) (is_PodName i) (is_Node i) (is_Required i) status
             configID at_ "" errorMessage (is_TimedOut i) :: l'
      else i :: merge_instance l' uid status configID errorMessage at_
  end.

Definition wc_with_instances (l : list InstanceStatus) (wc : WorkloadConfig) : WorkloadConfig :=
  mkWorkloadConfig (wc_WorkloadID wc) (wc_ConfigID wc) (wc_ConfigHash wc) (wc_AppliedAt wc)
    (wc_Status wc) (wc_ErrorMessage wc) (wc_PushedBy wc) (wc_Content wc) (wc_Label wc)
    (wc_PushID wc) (wc_SubmittedAt wc) (wc_SentAt wc) (wc_UpdatedAt wc)
    (wc_OpAMPStatusTimeoutAt wc) (wc_TimedOutWaiting wc) (wc_TimeoutMessage wc)
    (wc_RollbackOfPushID wc) (wc_Timeline wc) l (wc_TargetCount wc) (wc_AppliedCount wc)
    (wc_FailedCount wc) (wc_PendingCount wc) (wc_TimedOutCount wc) (wc_NoStatusCount wc)
    (wc_ErrorGroups wc) (wc_IsCurrent wc) (wc_IsPrevious wc) (wc_IsLastKnownGood wc)
    (wc_IsFailedCandidate wc) (wc_ContentAvailable wc).

(** The push record after the merge of one instance's report. *)
Definition merged_push (d : db) (e : entry) (now at_ : Time)
  (uid status errorMessage : string) : WorkloadConfig :=
  let wc := scanWorkloadConfig d now e in
  PushStatus.HydratePushStatus now
    (wc_with_instances (merge_instance (wc_InstanceStatuses wc) uid status (e_config e)
       errorMessage at_) wc) at_.

(** [fault]: the transaction on the history; [canaryFault]: the one on the
    canaries, which runs only after the first succeeded. *)
(* src/internal/store/workload_configs.go:76-152 UpdateWorkloadConfigInstanceStatus *)
Definition UpdateWorkloadConfigInstanceStatus (d : db) (fault canaryFault : io) (now : Time)
  (workloadID configID uid status errorMessage : string) (updatedAt : Time) : db * option string :=
  let errorMessage := PushStatus.SanitizeRemoteConfigErrorMessage errorMessage in
  let canaries d updatedAt :=
    let (m, err) := Canary.UpdateCanaryTargetStatus (d_canaries d) canaryFault workloadID configID
                      uid status updatedAt now in
    (set_canaries (fun _ => m) d, err) in
  match fault, latest d (of_push workloadID configID) with
  | IoOk, None => canaries d updatedAt
  | IoFail _, None => (d, Some "transaction failed")
  | _, Some e =>
      let at_ := if IsZero updatedAt then now else updatedAt in
      let wc := merged_push d e now at_ uid status errorMessage in
      let key := (workloadID, configID, stored (wc_AppliedAt wc)) in
      let write r := row_instances (wc_InstanceStatuses wc)
                       (row_error errorMessage (row_status (wc_Status wc) r)) in
      let affected := bool_decide (is_Some (d_pushes d !! key)) in
      if negb affected then (d, Some "update workload config instance status affected 0 rows, want 1")
      else
        let (d', err) := exec fault (one_of (wc_Status wc) push_statuses) d
                           (set_pushes (alter write key) d) in
        match err with
        | Some _ => (d', err)
        | None => canaries d' at_
        end
  end.

(* src/internal/store/workload_configs.go:519-535 SetWorkloadConfigLabel *)
Definition SetWorkloadConfigLabel (d : db) (fault : io) (workloadID hash label : string)
  : db * option string :=
  let hit k := (k.1.1 =s workloadID) && (k.1.2 =s hash) in
  let (d', err) := exec fault true d
    (set_pushes (map_imap (fun k r => Some (if hit k then row_label label r else r))) d) in
  match err with
  | Some _ => (d', err)
  | None => (d', if existsb (fun e => hit e.1) (map_to_list (d_pushes d)) then None
                 else Some ErrNoRows)
  end.

(** ** The known-good pointer *)

Definition known_record (d : db) (workloadID : string) (r : known_row) : WorkloadKnownGoodConfig :=
  mkKnownGood workloadID (kr_config_id r) (kr_marked_at r) (default "" (kr_marked_by r))
    (kr_source_applied_at r) (default "" (kr_replaced_config_id r))
    (default "" (kr_replace_reason r)) (content_of d (kr_config_id r) <>s "").

(* src/internal/store/workload_configs.go:728-766 getWorkloadKnownGoodTx *)
Definition getWorkloadKnownGoodTx (d : db) (workloadID : string) : option WorkloadKnownGoodConfig :=
  known_record d workloadID <$> d_known_good d !! workloadID.

(* src/internal/store/workload_configs.go:554-592 GetWorkloadKnownGood *)
Definition GetWorkloadKnownGood (d : db) (fault : io) (workloadID : string)
  : result (option WorkloadKnownGoodConfig) :=
  query fault (known_record d workloadID <$> d_known_good d !! workloadID).

(* src/internal/store/workload_configs.go:545-551 GetLatestKnownGoodWorkloadConfig *)
Definition GetLatestKnownGoodWorkloadConfig (d : db) (faults : io * io) (now : Time)
  (workloadID : string) : result (option WorkloadConfig) :=
  match GetWorkloadKnownGood d faults.1 workloadID with
  | Err e => Err e
  | Ok None => Ok None
  | Ok (Some kg) => GetWorkloadConfigByHash d faults.2 now workloadID (kg_ConfigID kg)
  end.

(* src/internal/store/workload_configs.go:711-719 preconditionConflicts *)
Definition preconditionConflicts (currentID targetID : string) (ifCurrent : option string)
  (force : bool) : bool :=
  if force then false
  else match ifCurrent with
  | Some c => c <>s currentID
  | None => (currentID <>s "") && (currentID <>s targetID)
  end.

(* src/internal/store/workload_configs.go:721-726 valueOrEmpty *)
Definition valueOrEmpty (v : option string) : string := default "" v.

(** The applied row the pointer would be backed by. *)
Definition applied_source (d : db) (workloadID configID : string) : option entry :=
  latest d (fun e => of_push workloadID configID e && in_status ["applied"] e &&
                     bool_decide (is_Some (d_configs d !! e_config e))).

Notation set_outcome := (option WorkloadKnownGoodConfig * SetKnownGoodResult * option string)%type.
Definition no_result : SetKnownGoodResult := mkSetKnownGoodResult false "" false "".

(** The decision of the transaction on the state its reads saw: refuse, report
    the conflict, commit the unchanged pointer, or try to write a row. *)
Inductive known_decision :=
| Refuse (msg : string)
| Conflict (currentID : string)
| Unchanged (kg : WorkloadKnownGoodConfig)
| TryWrite (row : known_row) (replaced : string).

Definition decide_known_good (d : db) (now : Time)
  (workloadID configID markedBy replaceReason : string) (ifCurrent : option string) (force : bool)
  : known_decision :=
  match d_workloads d !! workloadID with
  | None => Refuse ErrNoRows
  | Some w =>
  if bool_decide (is_Some (wl_ArchivedAt w)) then Refuse "workload archived" else
  match applied_source d workloadID configID with
  | None => Refuse "known-good config must exist in applied history"
  | Some e =>
  if content_of d configID =s "" then Refuse "config content unavailable" else
  let existing := d_known_good d !! workloadID in
  let currentID := match existing with Some r => kr_config_id r | None => "" end in
  let write replaced :=
    TryWrite (mkKnownRow configID (stored now) (nullIfEmpty markedBy) (Some (e_applied_at e))
                (nullIfEmpty replaced) (nullIfEmpty replaceReason)) replaced in
  if preconditionConflicts currentID configID ifCurrent force then Conflict currentID
  else match existing with
  | Some r =>
      if kr_config_id r =s configID
      then Unchanged (mkKnownGood workloadID (kr_config_id r) (kr_marked_at r)
             (default "" (kr_marked_by r)) (kr_source_applied_at r)
             (default "" (kr_replaced_config_id r)) (default "" (kr_replace_reason r)) true)
      else write (kr_config_id r)
  | None => write ""
  end
  end
  end.

(** [ON CONFLICT(workload_id) DO UPDATE ... WHERE]: the guard on the row found
    at write time. *)
Definition may_replace (configID : string) (ifCurrent : option string) (force : bool)
  (r : known_row) : bool :=
  force || (kr_config_id r =s valueOrEmpty ifCurrent) || (kr_config_id r =s configID).

(** The foreign keys and the CHECK of the table. *)
Definition known_constraints (d : db) (workloadID configID : string) : bool :=
  bool_decide (is_Some (d_workloads d !! workloadID)) &&
  bool_decide (is_Some (d_configs d !! configID)) && (configID <>s "").

(** The transaction reads [d]; other transactions may commit before its write
    statement, which sees [dw]. The three faults: its reads, its write and
    commit, and the read after it. *)
(* src/internal/store/workload_configs.go:601-709 SetWorkloadKnownGoodWithPrecondition *)
Definition SetWorkloadKnownGoodWithPrecondition (d dw : db) (fault : io * io * io) (now : Time)
  (workloadID configID markedBy replaceReason : string) (ifCurrent : option string) (force : bool)
  : db * set_outcome :=
  match fault.1.1 with
  | IoFail _ => (dw, (None, no_result, Some "transaction failed"))
  | IoOk =>
      match decide_known_good d now workloadID configID markedBy replaceReason ifCurrent force with
      | Refuse msg => (dw, (None, no_result, Some msg))
      | Conflict currentID => (dw, (None, mkSetKnownGoodResult false "" true currentID, None))
      | Unchanged kg =>
          (dw, (Some kg, no_result,
                match fault.1.2 with IoOk => None | IoFail _ => Some "commit failed" end))
      | TryWrite row replaced =>
          let blocked := match d_known_good dw !! workloadID with
                         | Some r => negb (may_replace configID ifCurrent force r)
                         | None => false
                         end in
          if blocked then
            let current := match getWorkloadKnownGoodTx dw workloadID with
                           | Some kg => kg_ConfigID kg | None => "" end in
            (dw, (None, mkSetKnownGoodResult false "" true current,
                  match fault.1.2 with IoOk => None | IoFail _ => Some "commit failed" end))
          else
            let r := mkSetKnownGoodResult true replaced false "" in
            let (d', err) := exec fault.1.2 (known_constraints dw workloadID configID) dw
                               (set_known_good (insert workloadID row) dw) in
            match err with
            | Some e => (d', (None, r, Some e))
            | None =>
                match GetWorkloadKnownGood d' fault.2 workloadID with
                | Ok kg => (d', (kg, r, None))
                | Err e => (d', (None, r, Some e))
                end
            end
      end
  end.

(* src/internal/store/workload_configs.go:595-597 SetWorkloadKnownGood *)
Definition SetWorkloadKnownGood (d dw : db) (fault : io * io * io) (now : Time)
  (workloadID configID markedBy replaceReason : string) : db * set_outcome :=
  SetWorkloadKnownGoodWithPrecondition d dw fault now workloadID configID markedBy replaceReason None true.

(* src/internal/store/workload_configs.go:769-776 ClearWorkloadKnownGood *)
Definition ClearWorkloadKnownGood (d : db) (faults : io * io) (workloadID : string)
  : db * result (option WorkloadKnownGoodConfig) :=
  match GetWorkloadKnownGood d faults.1 workloadID with
  | Err e => (d, Err e)
  | Ok old =>
      let (d', err) := exec faults.2 true d (set_known_good (delete workloadID) d) in
      (d', match err with Some e => Err e | None => Ok old end)
  end.

(** [RollbackTarget] with the availability flag set from the content. *)
Definition known_target (kg : WorkloadConfig) : RollbackTarget :=
  mkRollbackTarget "last_known_good"
    (mkWorkloadConfig (wc_WorkloadID kg) (wc_ConfigID kg) (wc_ConfigHash kg) (wc_AppliedAt kg)
       (wc_Status kg) (wc_ErrorMessage kg) (wc_PushedBy kg) (wc_Content kg) (wc_Label kg)
       (wc_PushID kg) (wc_SubmittedAt kg) (wc_SentAt kg) (wc_UpdatedAt kg)
       (wc_OpAMPStatusTimeoutAt kg) (wc_TimedOutWaiting kg) (wc_TimeoutMessage kg)
       (wc_RollbackOfPushID kg) (wc_Timeline kg) (wc_InstanceStatuses kg) (wc_TargetCount kg)
       (wc_AppliedCount kg) (wc_FailedCount kg) (wc_PendingCount kg) (wc_TimedOutCount kg)
       (wc_NoStatusCount kg) (wc_ErrorGroups kg) (wc_IsCurrent kg) (wc_IsPrevious kg)
       (wc_IsLastKnownGood kg) (wc_IsFailedCandidate kg) (wc_Content kg <>s "")).

(* src/internal/store/workload_configs.go:808-823 GetRollbackTarget *)
Definition GetRollbackTarget (d : db) (faults : io * io * io) (now : Time)
  (workloadID excludeHash : string) : result (option RollbackTarget) :=
  match GetLatestKnownGoodWorkloadConfig d faults.1 now workloadID with
  | Err e => Err e
  | Ok (Some kg) =>
      if wc_ConfigID kg =s excludeHash then Ok None else Ok (Some (known_target kg))
  | Ok None =>
      match GetPreviousAppliedWorkloadConfig d faults.2 workloadID excludeHash with
      | Err e => Err e
      | Ok None => Ok None
      | Ok (Some prev) => Ok (Some (mkRollbackTarget "previous" prev))
      end
  end.

(* src/internal/store/workload_configs.go:826-832 IsConfigKnownGoodProtected *)
Definition IsConfigKnownGoodProtected (d : db) (fault : io) (configID : string) : result bool :=
  query fault (Nat.ltb 0 (countm (fun r => kr_config_id r =s configID) (d_known_good d))).

(** ** The decorated history *)

Definition with_flags (cur prev kg failed : bool) (wc : WorkloadConfig) : WorkloadConfig :=
  mkWorkloadConfig (wc_WorkloadID wc) (wc_ConfigID wc) (wc_ConfigHash wc) (wc_AppliedAt wc)
    (wc_Status wc) (wc_ErrorMessage wc) (wc_PushedBy wc) (wc_Content wc) (wc_Label wc)
    (wc_PushID wc) (wc_SubmittedAt wc) (wc_SentAt wc) (wc_UpdatedAt wc)
    (wc_OpAMPStatusTimeoutAt wc) (wc_TimedOutWaiting wc) (wc_TimeoutMessage wc)
    (wc_RollbackOfPushID wc) (wc_Timeline wc) (wc_InstanceStatuses wc) (wc_TargetCount wc)
    (wc_AppliedCount wc) (wc_FailedCount wc) (wc_PendingCount wc) (wc_TimedOutCount wc)
    (wc_NoStatusCount wc) (wc_ErrorGroups wc) cur prev kg failed (wc_ContentAvailable wc).

Definition set_failed (b : bool) (wc : WorkloadConfig) :=
  with_flags (wc_IsCurrent wc) (wc_IsPrevious wc) (wc_IsLastKnownGood wc) b wc.
Definition mark_current (wc : WorkloadConfig) :=
  with_flags true (wc_IsPrevious wc) (wc_IsLastKnownGood wc) (wc_IsFailedCandidate wc) wc.
Definition mark_previous (wc : WorkloadConfig) :=
  with_flags (wc_IsCurrent wc) true (wc_IsLastKnownGood wc) (wc_IsFailedCandidate wc) wc.
Definition mark_known_good (wc : WorkloadConfig) :=
  with_flags (wc_IsCurrent wc) (wc_IsPrevious wc) true (wc_IsFailedCandidate wc) wc.

(** The two shapes of its loops: all matching rows, or the first one. *)
Definition mark_all (p : WorkloadConfig -> bool) (f : WorkloadConfig -> WorkloadConfig)
  (l : list WorkloadConfig) : list WorkloadConfig := map (fun wc => if p wc then f wc else wc) l.

Fixpoint mark_first (p : WorkloadConfig -> bool) (f : WorkloadConfig -> WorkloadConfig)
  (l : list WorkloadConfig) : list WorkloadConfig :=
  match l with
  | [] => []
  | wc :: l' => if p wc then f wc :: l' else wc :: mark_first p f l'
  end.

(* src/internal/store/workload_configs.go:363-370 anyCurrent *)
Definition anyCurrent (history : list WorkloadConfig) : bool := existsb wc_IsCurrent history.

Definition current_hash (history : list WorkloadConfig) : string :=
  match List.filter wc_IsCurrent history with wc :: _ => wc_ConfigID wc | [] => "" end.

Definition is_applied (wc : WorkloadConfig) : bool := wc_Status wc =s "applied".

(** [faults]: the reads of the workload, whose failure is ignored, and of the
    known-good pointer. *)
(* src/internal/store/workload_configs.go:313-361 decorateWorkloadConfigHistory *)
Definition decorateWorkloadConfigHistory (d : db) (faults : io * io) (workloadID : string)
  (history : list WorkloadConfig) : result (list WorkloadConfig) :=
  match history with
  | [] => Ok []
  | _ =>
    let history := map (fun wc => set_failed (wc_Status wc =s "failed") wc) history in
    let history :=
      match GetWorkload d faults.1 workloadID with
      | Ok wl => if wl_ActiveConfigHash wl <>s ""
                 then mark_all (fun wc => wc_ConfigID wc =s wl_ActiveConfigHash wl) mark_current history
                 else history
      | Err _ => history
      end in
    let history := if negb (anyCurrent history) then mark_first is_applied mark_current history
                   else history in
    let currentHash := current_hash history in
    let history := mark_first (fun wc => is_applied wc && (wc_ConfigID wc <>s currentHash))
                     mark_previous history in
    match GetWorkloadKnownGood d faults.2 workloadID with
    | Err e => Err e
    | Ok None => Ok history
    | Ok (Some kg) => Ok (mark_all (fun wc => wc_ConfigID wc =s kg_ConfigID kg) mark_known_good history)
    end
  end.

(* src/internal/store/workload_configs.go:235-267 GetWorkloadConfigHistory *)
Definition GetWorkloadConfigHistory (d : db) (faults : io * io * io) (now : Time)
  (workloadID : string) : result (list WorkloadConfig) :=
  match query faults.1.1
          (map (scanWorkloadConfigHistoryMetadata d now)
             (sort_by (less_of newest) (select_pushes d (of_workload workloadID)))) with
  | Err e => Err e
  | Ok history => decorateWorkloadConfigHistory d (faults.1.2, faults.2) workloadID history
  end.

(** ** Push activity *)

(** [Format("2006-01-02")] in UTC. *)
Definition day_string (t : Time) : string :=
  let '(y, m, dd) := civil (t / Second / 86400)%Z in
  pad 4 y +:+ "-" +:+ pad 2 m +:+ "-" +:+ pad 2 dd.

Definition Day : Duration := (24 * Hour)%Z.

(** UTC days have 24 hours, so [AddDate(0, 0, n)] adds [n] of them. *)
(* src/internal/store/workload_configs.go:464-495 GetPushActivity *)
Definition GetPushActivity (d : db) (fault : io) (now : Time) (days : Z)
  : result (list PushActivityPoint) :=
  if Z.leb days 0 then Ok []
  else
    let cutoff := (now + (- days + 1) * Day)%Z in
    let startDay := (cutoff / Day * Day)%Z in
    let hits := List.filter (fun e => Z.leb startDay (e_applied_at e)) (map_to_list (d_pushes d)) in
    let counts day := Z.of_nat (length (List.filter (fun e => day_string (e_applied_at e) =s day) hits)) in
    query fault
      (map (fun i => let day := day_string (startDay + Z.of_nat i * Day)%Z in
                     mkPushActivityPoint day (counts day))
         (seq 0 (Z.to_nat days))).

(** ** The table *)

Lemma elem_of_select_pushes d cond e :
  e ∈ select_pushes d cond <-> d_pushes d !! e.1 = Some e.2 /\ cond e = true.
Proof.
  unfold select_pushes. rewrite list_elem_of_In, filter_In, <-list_elem_of_In.
  destruct e as [k r]. by rewrite elem_of_map_to_list.
Qed.

Lemma latest_Some d cond e :
  latest d cond = Some e ->
  d_pushes d !! e.1 = Some e.2 /\ cond e = true /\
  forall e', d_pushes d !! e'.1 = Some e'.2 -> cond e' = true ->
    (e_applied_at e' <= e_applied_at e)%Z.
Proof.
  intros He. apply (min_by_Some newest) in He as [Hin Hmin]. apply elem_of_select_pushes in Hin as [Hk Hc].
  split; [done|]. split; [done|]. intros e' Hk' Hc'.
  assert (e' ∈ select_pushes d cond) as Hin' by by apply elem_of_select_pushes.
  specialize (Hmin e' Hin'). unfold newest, by_key in Hmin. rewrite Z.compare_le_iff in Hmin. lia.
Qed.

Lemma latest_None d cond :
  latest d cond = None <-> forall e, d_pushes d !! e.1 = Some e.2 -> cond e = false.
Proof.
  unfold latest. rewrite min_by_None. split.
  - intros Hnil e Hk. destruct (cond e) eqn:Hc; [|done].
    assert (e ∈ select_pushes d cond) as Hin by by apply elem_of_select_pushes.
    rewrite Hnil in Hin. by apply not_elem_of_nil in Hin.
  - intros Hall. destruct (select_pushes d cond) as [|e l] eqn:E; [done|].
    assert (e ∈ select_pushes d cond) as [Hk Hc]%elem_of_select_pushes by (rewrite E; by left).
    rewrite Hall in Hc by done. done.
Qed.

(** Rows carry stored instants, statuses the schema accepts and redacted texts,
    and point at existing workloads and configs. *)
Record push_ok (d : db) (k : push_key) (r : push_row) : Prop := {
  po_time : stored k.2 = k.2;
  po_status : one_of (pr_status r) push_statuses = true;
  po_error : PushStatus.safe (default "" (pr_error_message r));
  po_instances : Forall (fun i => PushStatus.safe (is_ErrorMessage i)) (pr_instances r);
  po_workload : is_Some (d_workloads d !! k.1.1);
  po_config : is_Some (d_configs d !! k.1.2)
}.

Definition history_ok (d : db) : Prop := map_Forall (push_ok d) (d_pushes d).

Lemma history_ok_insert d k r :
  history_ok d -> push_ok d k r -> history_ok (set_pushes (insert k r) d).
Proof.
  intros Hd [] k' r'. cbn. intros [[<- <-]|[_ Hr]]%lookup_insert_Some; [by split|].
  destruct (Hd _ _ Hr). by split.
Qed.

Lemma nullIfEmpty_default s : default "" (nullIfEmpty s) = s.
Proof. unfold nullIfEmpty. destruct (s =s "") eqn:E; reflect_bools; by subst. Qed.

Lemma history_ok_record d fault now wc :
  history_ok d -> history_ok (RecordWorkloadConfig d fault now wc).1.
Proof.
  intros Hd. unfold RecordWorkloadConfig. apply exec_preserves; [done|]. intros Hc.
  unfold push_constraints in Hc. reflect_bools.
  apply history_ok_insert; [exact Hd|]. split; cbn.
  - apply stored_idem.
  - done.
  - rewrite nullIfEmpty_default. apply PushStatus.sanitize_safe.
  - apply Forall_map, Forall_true. intros i. apply PushStatus.sanitize_safe.
  - done.
  - done.
Qed.

Lemma history_ok_update_latest d fault wl cfg f :
  (forall r, PushStatus.safe (default "" (pr_error_message r)) ->
     PushStatus.safe (default "" (pr_error_message (f r))) /\ pr_instances (f r) = pr_instances r) ->
  history_ok d -> history_ok (update_latest d fault wl cfg f).1.
Proof.
  intros Hf Hd. unfold update_latest. destruct (latest d _) as [e|] eqn:E.
  - apply latest_Some in E as (Hk & _ & _). apply exec_preserves; [done|]. intros Hst.
    destruct (Hd _ _ Hk) as [H1 H2 H3 H4 H5 H6]. destruct (Hf e.2 H3) as [Hs Hi].
    apply history_ok_insert; [exact Hd|]. split; try done. by rewrite Hi.
  - by apply exec_preserves.
Qed.

Lemma canonical_push_status_valid s :
  one_of s push_statuses = true -> one_of (PushStatus.canonicalPushStatus s) push_statuses = true.
Proof.
  intros Hs%existsb_eqb_elem. unfold push_statuses in Hs.
  repeat (apply elem_of_cons in Hs as [->|Hs]; [vm_compute; reflexivity|]).
  by apply not_elem_of_nil in Hs.
Qed.

Lemma deriveStatus_valid t c sent s :
  one_of s push_statuses = true -> one_of (PushStatus.deriveStatus t c sent s) push_statuses = true.
Proof.
  intros Hs. unfold PushStatus.deriveStatus. repeat case_if; try done; [vm_compute; reflexivity..|].
  by destruct sent; [vm_compute|].
Qed.

Lemma hydrated_status_valid clock wc now :
  one_of (wc_Status wc) push_statuses = true ->
  one_of (wc_Status (PushStatus.HydratePushStatus clock wc now)) push_statuses = true.
Proof. intros Hs. apply deriveStatus_valid, canonical_push_status_valid, Hs. Qed.

Lemma merged_push_fields d e now at_ uid status msg :
  wc_AppliedAt (merged_push d e now at_ uid status msg) = e_applied_at e /\
  (one_of (pr_status e.2) push_statuses = true ->
   one_of (wc_Status (merged_push d e now at_ uid status msg)) push_statuses = true) /\
  Forall (fun i => PushStatus.safe (is_ErrorMessage i))
    (wc_InstanceStatuses (merged_push d e now at_ uid status msg)).
Proof.
  split; [done|]. split.
  - intros Hs. by apply hydrated_status_valid, hydrated_status_valid.
  - apply Forall_map, Forall_true. intros i. apply PushStatus.hydrateInstance_safe.
Qed.

Lemma history_ok_canaries d f : history_ok d -> history_ok (set_canaries f d).
Proof. intros Hd k r Hk. destruct (Hd k r Hk). by split. Qed.

Lemma history_ok_alter d k f :
  history_ok d ->
  (forall r, d_pushes d !! k = Some r -> push_ok d k r -> push_ok d k (f r)) ->
  history_ok (set_pushes (alter f k) d).
Proof.
  intros Hd Hf k' r'. cbn. destruct (decide (k = k')) as [->|Hne].
  - rewrite lookup_alter_eq. intros (r & Hr & ->)%fmap_Some.
    destruct (Hf r Hr (Hd _ _ Hr)). by split.
  - rewrite lookup_alter_ne by done. intros Hr. destruct (Hd _ _ Hr). by split.
Qed.

Lemma history_ok_instance d fault cf now wl cfg uid st msg at_ :
  history_ok d ->
  history_ok (UpdateWorkloadConfigInstanceStatus d fault cf now wl cfg uid st msg at_).1.
Proof.
  intros Hd. unfold UpdateWorkloadConfigInstanceStatus.
  destruct (latest d _) as [e|] eqn:E; cbn zeta.
  - assert (forall d' t, history_ok d' ->
      history_ok (let (m, err) := Canary.UpdateCanaryTargetStatus (d_canaries d') cf wl cfg uid st t now in
                  (set_canaries (fun _ => m) d', err)).1) as Hcan.
    { intros d' t Hd'. destruct (Canary.UpdateCanaryTargetStatus _ _ _ _ _ _ _ _).
      by apply history_ok_canaries. }
    set (t := if IsZero at_ then now else at_).
    set (mp := merged_push d e now t uid st (PushStatus.SanitizeRemoteConfigErrorMessage msg)).
    destruct (merged_push_fields d e now t uid st (PushStatus.SanitizeRemoteConfigErrorMessage msg))
      as (Ha & Hst & Hi). fold mp in Ha, Hst, Hi.
    destruct fault as [|x]; (destruct (negb _); [done|]);
      (destruct (exec _ _ _ _) as [d' err] eqn:Ex; apply exec_outcomes in Ex; cbn in Ex;
       assert (history_ok d') as Hd';
       [destruct Ex as [->|[Hok ->]]; [done|]; apply history_ok_alter; [done|];
        intros r Hr [H1 H2 H3 H4 H5 H6]; split; try done;
        cbn; rewrite nullIfEmpty_default; apply PushStatus.sanitize_safe
       |by destruct err; [|apply Hcan]]).
  - destruct fault; [|done]. destruct (Canary.UpdateCanaryTargetStatus _ _ _ _ _ _ _ _).
    by apply history_ok_canaries.
Qed.

Lemma history_ok_label d fault wl hash label :
  history_ok d -> history_ok (SetWorkloadConfigLabel d fault wl hash label).1.
Proof.
  intros Hd. unfold SetWorkloadConfigLabel.
  destruct (exec _ _ _ _) as [d' err] eqn:Ex. apply exec_outcomes in Ex. cbn in Ex.
  assert (history_ok d') as Hd'; [|by destruct err].
  destruct Ex as [->|[_ ->]]; [done|]. intros k r. cbn. rewrite map_lookup_imap.
  destruct (d_pushes d !! k) as [r0|] eqn:E; [cbn|done]. intros [= <-].
  destruct (Hd _ _ E) as [H1 H2 H3 H4 H5 H6]. destruct (_ && _); by split.
Qed.

(** The statements that write the history. *)
Inductive history_op :=
| HRecord (now : Time) (wc : WorkloadConfig)
| HSent (wl cfg : string) (at_ : Time)
| HStatus (wl cfg status msg : string)
| HInstance (canaryFault : io) (now : Time) (wl cfg uid status msg : string) (at_ : Time)
| HLabel (wl hash label : string).

Definition run_history (d : db) (fo : io * history_op) : db :=
  match fo.2 with
  | HRecord now wc => (RecordWorkloadConfig d fo.1 now wc).1
  | HSent wl cfg t => (MarkWorkloadConfigSent d fo.1 wl cfg t).1
  | HStatus wl cfg st msg => (UpdateWorkloadConfigStatus d fo.1 wl cfg st msg).1
  | HInstance cf now wl cfg uid st msg t =>
      (UpdateWorkloadConfigInstanceStatus d fo.1 cf now wl cfg uid st msg t).1
  | HLabel wl hash label => (SetWorkloadConfigLabel d fo.1 wl hash label).1
  end.

(** C17: after any sequence of history writes, whatever fails and whatever the
    agents report, every row has a status the schema accepts, an existing
    workload and config, a stored instant, and only redacted error texts, of
    the push and of its instances. *)
Theorem history_stays_well_formed ops d
    (Hd : history_ok d) : history_ok (foldl run_history d ops).
Proof.
  revert d Hd. induction ops as [|[f o] ops IH]; intros d Hd; [done|]. apply IH.
  destruct o; simpl.
  - by apply history_ok_record.
  - by apply history_ok_update_latest.
  - apply history_ok_update_latest; [|done]. intros r _. cbn. split; [|done].
    rewrite nullIfEmpty_default. apply PushStatus.sanitize_safe.
  - by apply history_ok_instance.
  - by apply history_ok_label.
Qed.

(** ** The known-good pointer *)

Lemma set_known_good_id d : set_known_good (fun m => m) d = d.
Proof. by destruct d. Qed.

Lemma applied_source_Some d wl cfg e :
  applied_source d wl cfg = Some e ->
  d_pushes d !! (wl, cfg, e_applied_at e) = Some e.2 /\ pr_status e.2 = "applied".
Proof.
  intros (Hk & Hc & _)%latest_Some. unfold of_push, in_status in Hc. reflect_bools.
  destruct e as [[[w c] t] r]. cbn in *. subst w c.
  split; [done|]. rewrite orb_false_r in *. by reflect_bools.
Qed.

Lemma decide_write d now wl cfg by_ why ifc force row replaced :
  decide_known_good d now wl cfg by_ why ifc force = TryWrite row replaced ->
  kr_config_id row = cfg /\
  (exists w, d_workloads d !! wl = Some w /\ wl_ArchivedAt w = None) /\
  (exists t r, d_pushes d !! (wl, cfg, t) = Some r /\ pr_status r = "applied" /\
     kr_source_applied_at row = Some t) /\
  content_of d cfg <> "" /\
  preconditionConflicts (match d_known_good d !! wl with Some r => kr_config_id r | None => "" end)
    cfg ifc force = false.
Proof.
  unfold decide_known_good. intros Hw. destruct (d_workloads d !! wl) as [w|]; [|done].
  destruct (bool_decide (is_Some _)) eqn:Ea; [done|].
  apply bool_decide_eq_false, eq_None_not_Some in Ea.
  destruct (applied_source d wl cfg) as [e|] eqn:Es; [|done].
  apply applied_source_Some in Es as [Hk Hs].
  destruct (content_of d cfg =s "") eqn:Ec; [done|]. reflect_bools.
  destruct (preconditionConflicts _ _ _ _) eqn:Ep; [done|].
  assert (kr_config_id row = cfg /\ kr_source_applied_at row = Some (e_applied_at e)) as [Hr1 Hr2]
    by (destruct (d_known_good d !! wl); [case_hyp Hw; [done|]|]; simplify_eq; done).
  naive_solver.
Qed.

(** the known-good pointer moves only for a config that is in the applied
    history of an existing, unarchived workload and whose content is stored,
    and a pointer found in place when the row is written (whatever other
    transactions did meanwhile) is replaced only by force, or when it is the
    one the caller expected, or when it already names this config. Nothing
    else of the database changes, whatever fails. *)
Theorem known_good_write_guarded d dw fault now wl cfg by_ why ifc force :
  let d' := (SetWorkloadKnownGoodWithPrecondition d dw fault now wl cfg by_ why ifc force).1 in
  d' = dw \/
  exists row, d' = set_known_good (insert wl row) dw /\ kr_config_id row = cfg /\
    (exists w, d_workloads d !! wl = Some w /\ wl_ArchivedAt w = None) /\
    (exists t r, d_pushes d !! (wl, cfg, t) = Some r /\ pr_status r = "applied" /\
       kr_source_applied_at row = Some t) /\
    content_of d cfg <> "" /\
    (forall old, d_known_good dw !! wl = Some old ->
       force = true \/ kr_config_id old = valueOrEmpty ifc \/ kr_config_id old = cfg).
Proof.
  cbv zeta. unfold SetWorkloadKnownGoodWithPrecondition. destruct fault.1.1; [|by left].
  destruct (decide_known_good _ _ _ _ _ _ _ _) as [| | |row replaced] eqn:Ed; [by left..|].
  apply decide_write in Ed as (Hc & Hw & Hsrc & Hcont & _).
  match goal with |- context [if ?b then _ else _] => destruct b eqn:Eb end; [by left|].
  destruct (exec _ _ _ _) as [d' err] eqn:Ex. apply exec_outcomes in Ex. cbn in Ex.
  assert (forall x, (match err with
            | Some e => (d', (None, mkSetKnownGoodResult true replaced false "", Some e))
            | None => match GetWorkloadKnownGood d' x wl with
                      | Ok kg => (d', (kg, mkSetKnownGoodResult true replaced false "", None))
                      | Err e => (d', (None, mkSetKnownGoodResult true replaced false "", Some e))
                      end end).1 = d') as ->
    by (intros x; destruct err; [done|]; by destruct (GetWorkloadKnownGood d' x wl)).
  destruct Ex as [->|[_ ->]]; [by left|]. right. exists row. repeat (split; [done|]).
  intros old Hold. rewrite Hold in Eb. unfold may_replace in Eb.
  rewrite negb_false_iff, !orb_true_iff, !String.eqb_eq in Eb. tauto.
Qed.

(** The race the write guard leaves open: the pointer the caller expected is
    cleared between the read and the write, and the mark is recorded anyway. *)
Lemma known_good_clear_race d dw now wl cfg by_ why expected row replaced :
  decide_known_good d now wl cfg by_ why (Some expected) false = TryWrite row replaced ->
  d_known_good dw !! wl = None -> known_constraints dw wl cfg = true ->
  (SetWorkloadKnownGoodWithPrecondition d dw (IoOk, IoOk, IoOk) now wl cfg by_ why
     (Some expected) false).1 = set_known_good (insert wl row) dw.
Proof.
  intros Hd Hdw Hc. unfold SetWorkloadKnownGoodWithPrecondition. cbn [fst snd].
  rewrite Hd, Hdw, Hc. done.
Qed.

(** ** The rollback target *)

Lemma known_target_fields kg :
  wc_ConfigID (rt_Config (known_target kg)) = wc_ConfigID kg /\
  wc_WorkloadID (rt_Config (known_target kg)) = wc_WorkloadID kg /\
  wc_Content (rt_Config (known_target kg)) = wc_Content kg.
Proof. done. Qed.

Lemma getOne_Some d fault now cond wc :
  getOneWorkloadConfig d fault now cond = Ok (Some wc) ->
  exists e, latest d cond = Some e /\ wc = scanWorkloadConfig d now e.
Proof.
  unfold getOneWorkloadConfig, query. destruct fault; [|done].
  intros [= (e & -> & ->)%fmap_Some]. eauto.
Qed.

Lemma of_push_spec wl cfg e : of_push wl cfg e = true <-> e_workload e = wl /\ e_config e = cfg.
Proof. unfold of_push. by rewrite andb_true_iff, !String.eqb_eq. Qed.

(** The row the fallback selects. *)
Definition other_applied (wl ex : string) (e : entry) : bool :=
  of_workload wl e && in_status ["applied"] e && (e_config e <>s ex).

Lemma other_applied_spec wl ex e :
  other_applied wl ex e = true <->
  e_workload e = wl /\ pr_status e.2 = "applied" /\ e_config e <> ex.
Proof.
  unfold other_applied, of_workload, in_status, one_of. cbn.
  rewrite !andb_true_iff, orb_false_r, negb_true_iff, !String.eqb_eq, String.eqb_neq. tauto.
Qed.

Lemma previous_sound d fault wl ex prev :
  GetPreviousAppliedWorkloadConfig d fault wl ex = Ok (Some prev) ->
  wc_ConfigID prev <> ex /\ wc_WorkloadID prev = wl /\
  wc_Content prev = content_of d (wc_ConfigID prev) /\ wc_Status prev = "applied" /\
  forall cfg at_ r, d_pushes d !! (wl, cfg, at_) = Some r -> pr_status r = "applied" ->
    cfg <> ex -> (at_ <= wc_AppliedAt prev)%Z.
Proof.
  unfold GetPreviousAppliedWorkloadConfig, query. destruct fault; [|done].
  intros [= (e & (Hk & Hc & Hmax)%latest_Some & ->)%fmap_Some].
  apply other_applied_spec in Hc as (Hw & Hs & Hx). repeat (split; [done|]).
  intros cfg at_ r Hr Hst Hcfg. apply (Hmax ((wl, cfg, at_), r) Hr).
  by apply other_applied_spec.
Qed.

(** the config an automatic or guided rollback selects is never the
    excluded (failed) one; it belongs to the workload, carries the content
    stored for it, and is either the known-good baseline, or, when the
    workload has no baseline in its history, the most recently applied other
    config. *)
Theorem rollback_target_sound d faults now wl ex t
    (Ht : GetRollbackTarget d faults now wl ex = Ok (Some t)) :
  wc_ConfigID (rt_Config t) <> ex /\ wc_WorkloadID (rt_Config t) = wl /\
  wc_Content (rt_Config t) = content_of d (wc_ConfigID (rt_Config t)) /\
  ((rt_Kind t = "last_known_good" /\
    exists r, d_known_good d !! wl = Some r /\ kr_config_id r = wc_ConfigID (rt_Config t)) \/
   (rt_Kind t = "previous" /\ wc_Status (rt_Config t) = "applied" /\
    forall cfg at_ r, d_pushes d !! (wl, cfg, at_) = Some r -> pr_status r = "applied" ->
      cfg <> ex -> (at_ <= wc_AppliedAt (rt_Config t))%Z)).
Proof.
  unfold GetRollbackTarget, GetLatestKnownGoodWorkloadConfig, GetWorkloadKnownGood, query in Ht.
  destruct faults.1.1; [|done].
  destruct (d_known_good d !! wl) as [r|] eqn:Ek; cbn [fmap option_fmap option_map] in Ht.
  - destruct (GetWorkloadConfigByHash _ _ _ _ _) as [[kg|]|] eqn:Eg; [| |done].
    + apply getOne_Some in Eg as (e & (_ & Hc & _)%latest_Some & ->).
      apply of_push_spec in Hc as [Hw Hc]. destruct (_ =s ex) eqn:Ex; [done|].
      injection Ht as <-. reflect_bools. cbn in Ex |- *. rewrite Hw, Hc in *. split; [done|].
      split; [done|]. split; [done|]. left. eauto.
    + destruct (GetPreviousAppliedWorkloadConfig _ _ _ _) as [[prev|]|] eqn:Ep; [|done..].
      injection Ht as <-. apply previous_sound in Ep as (? & ? & ? & ? & ?).
      repeat (split; [done|]). by right.
  - destruct (GetPreviousAppliedWorkloadConfig _ _ _ _) as [[prev|]|] eqn:Ep; [|done..].
    injection Ht as <-. apply previous_sound in Ep as (? & ? & ? & ? & ?).
      repeat (split; [done|]). by right.
Qed.

Lemma previous_none d wl ex :
  GetPreviousAppliedWorkloadConfig d IoOk wl ex = Ok None <->
  forall cfg at_ p, d_pushes d !! (wl, cfg, at_) = Some p -> pr_status p = "applied" -> cfg = ex.
Proof.
  unfold GetPreviousAppliedWorkloadConfig, query. cbn. split.
  - intros [= Hn%fmap_None] cfg at_ p Hp Hs.
    destruct (decide (cfg = ex)) as [|Hne]; [done|]. exfalso.
    assert (other_applied wl ex ((wl, cfg, at_), p) = false) as Hf
      by exact (proj1 (latest_None d _) Hn ((wl, cfg, at_), p) Hp).
    apply not_true_iff_false in Hf. by apply Hf, other_applied_spec.
  - intros Hall. do 2 f_equal. apply fmap_None, latest_None. intros [[[w c] t] p] Hp.
    apply not_true_iff_false. intros (Hw & Hs & Hx)%other_applied_spec. cbn in *. subst w. eauto.
Qed.

Lemma by_hash_none d now wl cfg :
  GetWorkloadConfigByHash d IoOk now wl cfg = Ok None <->
  forall at_ p, d_pushes d !! (wl, cfg, at_) = Some p -> False.
Proof.
  unfold GetWorkloadConfigByHash, GetLatestWorkloadConfigByHash, getOneWorkloadConfig, query. split.
  - intros [= Hn%fmap_None] at_ p Hp.
    pose proof (proj1 (latest_None d _) Hn ((wl, cfg, at_), p) Hp) as Hf.
    apply not_true_iff_false in Hf. by apply Hf, of_push_spec.
  - intros Hall. do 2 f_equal. apply fmap_None, latest_None. intros [[[w c] t] p] Hp.
    apply not_true_iff_false. intros [Hw Hc]%of_push_spec. cbn in *. subst w c. eauto.
Qed.

(** without database failures a rollback target is missing only when the
    known-good baseline itself is the excluded config, or when the workload
    has no pushed baseline and never applied another config. *)
Theorem rollback_target_complete d now wl ex :
  GetRollbackTarget d (IoOk, IoOk, IoOk) now wl ex = Ok None <->
  (exists r, d_known_good d !! wl = Some r /\ kr_config_id r = ex /\
     exists at_ p, d_pushes d !! (wl, ex, at_) = Some p) \/
  ((forall r at_ p, d_known_good d !! wl = Some r ->
      d_pushes d !! (wl, kr_config_id r, at_) = Some p -> False) /\
   (forall cfg at_ p, d_pushes d !! (wl, cfg, at_) = Some p -> pr_status p = "applied" -> cfg = ex)).
Proof.
  pose proof (previous_none d wl ex) as Hprev. pose proof (by_hash_none d now wl) as Hby.
  unfold GetRollbackTarget, GetLatestKnownGoodWorkloadConfig, GetWorkloadKnownGood. cbn [fst snd query].
  destruct (d_known_good d !! wl) as [r|] eqn:Ek; cbn [fmap option_fmap option_map].
  - specialize (Hby (kr_config_id r)). cbn [known_record kg_ConfigID].
    destruct (GetWorkloadConfigByHash d IoOk now wl (kr_config_id r)) as [[kg|]|e] eqn:Eg.
    + apply (getOne_Some d IoOk now (of_push wl (kr_config_id r)) kg) in Eg as (e & (Hk & Hc & _)%latest_Some & ->).
      apply of_push_spec in Hc as [Hw Hc]. destruct e as [[[w c] t] p]. cbn in Hw, Hc, Hk. subst w c.
      cbn [scanWorkloadConfig wc_ConfigID]. cbn. destruct (kr_config_id r =s ex) eqn:Ex; reflect_bools.
      * split; [|done]. intros _. left. naive_solver.
      * split; [done|]. naive_solver.
    + assert (forall at_ p, d_pushes d !! (wl, kr_config_id r, at_) = Some p -> False) as Hno
        by by apply Hby.
      destruct (GetPreviousAppliedWorkloadConfig _ _ _ _) as [[prev|]|] eqn:Ep; naive_solver.
    + unfold GetWorkloadConfigByHash, GetLatestWorkloadConfigByHash, getOneWorkloadConfig in Eg. done.
  - destruct (GetPreviousAppliedWorkloadConfig _ _ _ _) as [[prev|]|] eqn:Ep; naive_solver.
Qed.

(** ** The decorated history *)

(** What no decoration changes. *)
Definition same_push (a b : WorkloadConfig) : Prop :=
  wc_ConfigID a = wc_ConfigID b /\ wc_Status a = wc_Status b /\ wc_AppliedAt a = wc_AppliedAt b.

Lemma elem_of_mark_first p f l x :
  x ∈ mark_first p f l -> x ∈ l \/ exists y, y ∈ l /\ p y = true /\ x = f y.
Proof.
  induction l as [|a l IH]; simpl; [by left|]. destruct (p a) eqn:E.
  - intros [->|Hx]%elem_of_cons; [right; exists a; split; [by left|done]|left; by right].
  - intros [->|Hx]%elem_of_cons; [left; by left|].
    destruct (IH Hx) as [?|(y & ? & ?)]; [left; by right|right; exists y; split; [by right|done]].
Qed.

Lemma elem_of_mark_all p f l x :
  x ∈ mark_all p f l <-> exists y, y ∈ l /\ x = if p y then f y else y.
Proof. unfold mark_all. rewrite list_elem_of_In, in_map_iff. setoid_rewrite list_elem_of_In. naive_solver. Qed.

Lemma mark_first_applied p f l :
  (forall x, wc_AppliedAt (f x) = wc_AppliedAt x) ->
  map wc_AppliedAt (mark_first p f l) = map wc_AppliedAt l.
Proof. intros Hf. induction l as [|a l IH]; simpl; [done|]. destruct (p a); simpl; by rewrite ?Hf, ?IH. Qed.

Lemma mark_all_applied p f l :
  (forall x, wc_AppliedAt (f x) = wc_AppliedAt x) ->
  map wc_AppliedAt (mark_all p f l) = map wc_AppliedAt l.
Proof. intros Hf. unfold mark_all. rewrite map_map. apply map_ext. intros x. by destruct (p x). Qed.

(** A row before the previous and known-good marks. *)
Definition fresh (x : WorkloadConfig) : Prop :=
  wc_IsPrevious x = false /\ wc_IsLastKnownGood x = false /\
  wc_IsFailedCandidate x = (wc_Status x =s "failed").

(** The rows marked current are pushes of one config, the current hash. *)
Definition one_current (l : list WorkloadConfig) : Prop :=
  forall x, x ∈ l -> wc_IsCurrent x = true -> wc_ConfigID x = current_hash l.

Lemma one_current_intro l h :
  (forall x, x ∈ l -> wc_IsCurrent x = true -> wc_ConfigID x = h) -> one_current l.
Proof.
  intros Hh x Hx Hc. rewrite (Hh x Hx Hc). unfold current_hash.
  destruct (List.filter wc_IsCurrent l) as [|y k] eqn:E.
  - assert (x ∈ List.filter wc_IsCurrent l) as Hin
      by (rewrite list_elem_of_In, filter_In, <-list_elem_of_In; done).
    rewrite E in Hin. by apply not_elem_of_nil in Hin.
  - assert (y ∈ List.filter wc_IsCurrent l) as Hin by (rewrite E; by left).
    rewrite list_elem_of_In, filter_In, <-list_elem_of_In in Hin. destruct Hin. symmetry. by apply Hh.
Qed.

Lemma mark_first_current l :
  (forall x, x ∈ l -> wc_IsCurrent x = false) ->
  exists h, forall x, x ∈ mark_first is_applied mark_current l ->
    wc_IsCurrent x = true -> wc_ConfigID x = h.
Proof.
  induction l as [|a l IH]; intros Hl; simpl.
  - exists "". intros x Hx. by apply not_elem_of_nil in Hx.
  - destruct (is_applied a).
    + exists (wc_ConfigID a). intros x [->|Hx]%elem_of_cons; [done|].
      rewrite Hl by (by right). done.
    + destruct IH as [h Hh]; [intros x Hx; apply Hl; by right|]. exists h.
      intros x [->|Hx]%elem_of_cons; [rewrite Hl by (by left); done|by apply Hh].
Qed.

Lemma mark_first_previous l h :
  (forall x, x ∈ l -> wc_IsPrevious x = false) ->
  length (List.filter wc_IsPrevious
    (mark_first (fun wc => is_applied wc && (wc_ConfigID wc <>s h)) mark_previous l)) <= 1.
Proof.
  intros Hl. assert (forall k, (forall x, x ∈ k -> wc_IsPrevious x = false) ->
    List.filter wc_IsPrevious k = []) as Hnone.
  { intros k. induction k as [|a k IH]; intros Hk; simpl; [done|].
    rewrite Hk by (by left). apply IH. intros x Hx. apply Hk. by right. }
  induction l as [|a l IH]; simpl; [lia|]. destruct (_ && _); simpl.
  - rewrite Hnone; [done|]. intros x Hx. apply Hl. by right.
  - rewrite Hl by (by left). apply IH. intros x Hx. apply Hl. by right.
Qed.

(** The list before the previous and known-good marks. *)
Definition with_current (d : db) (fault : io) (workloadID : string) (history : list WorkloadConfig)
  : list WorkloadConfig :=
  let history := map (fun wc => set_failed (wc_Status wc =s "failed") wc) history in
  let history :=
    match GetWorkload d fault workloadID with
    | Ok wl => if wl_ActiveConfigHash wl <>s ""
               then mark_all (fun wc => wc_ConfigID wc =s wl_ActiveConfigHash wl) mark_current history
               else history
    | Err _ => history
    end in
  if negb (anyCurrent history) then mark_first is_applied mark_current history else history.

Definition unmarked (x : WorkloadConfig) : Prop :=
  wc_IsCurrent x = false /\ wc_IsPrevious x = false /\ wc_IsLastKnownGood x = false.

Lemma with_current_spec d fault wl l :
  (forall x, x ∈ l -> unmarked x) ->
  (forall x, x ∈ with_current d fault wl l -> fresh x) /\ one_current (with_current d fault wl l) /\
  map wc_AppliedAt (with_current d fault wl l) = map wc_AppliedAt l.
Proof.
  intros Hl. unfold with_current. set (l0 := map _ l).
  assert (forall x, x ∈ l0 -> fresh x /\ wc_IsCurrent x = false) as H0'.
  { intros x Hx. apply list_elem_of_In, in_map_iff in Hx as (y & <- & Hy%list_elem_of_In).
    destruct (Hl y Hy) as (? & ? & ?). unfold fresh. done. }
  assert (map wc_AppliedAt l0 = map wc_AppliedAt l) as Ha by (subst l0; by rewrite map_map).
  set (l1 := match GetWorkload d fault wl with Ok _ => _ | Err _ => _ end).
  assert ((forall x, x ∈ l1 -> fresh x) /\ map wc_AppliedAt l1 = map wc_AppliedAt l /\
    exists h, forall x, x ∈ l1 -> wc_IsCurrent x = true -> wc_ConfigID x = h) as (Hf & Ha1 & h & Hh).
  { subst l1. rewrite <-Ha. clearbody l0.
    assert (forall x, x ∈ l0 -> wc_IsCurrent x = true -> wc_ConfigID x = "") as Hd.
    { intros x Hx. destruct (H0' x Hx) as [_ ->]. done. }
    assert ((forall x, x ∈ l0 -> fresh x) /\ map wc_AppliedAt l0 = map wc_AppliedAt l0 /\
      exists h, forall x, x ∈ l0 -> wc_IsCurrent x = true -> wc_ConfigID x = h) as Hsame.
    { split; [intros x Hx; apply (H0' x Hx)|]. split; [done|by exists ""]. }
    destruct (GetWorkload d fault wl) as [w|]; [|exact Hsame].
    destruct (wl_ActiveConfigHash w <>s ""); [|exact Hsame]. split; [|split].
    - intros x (y & Hy & ->)%elem_of_mark_all. destruct (H0' y Hy) as [Hy' _]. by destruct (_ =s _).
    - by apply mark_all_applied.
    - exists (wl_ActiveConfigHash w). intros x (y & Hy & ->)%elem_of_mark_all.
      destruct (_ =s _) eqn:E; [by reflect_bools|]. destruct (H0' y Hy) as [_ ->]. done. }
  clearbody l1. destruct (anyCurrent l1) eqn:Ec; simpl.
  - split; [done|]. split; [by eapply one_current_intro|done].
  - assert (forall x, x ∈ l1 -> wc_IsCurrent x = false) as Hno.
    { intros x Hx. destruct (wc_IsCurrent x) eqn:E; [|done].
      assert (anyCurrent l1 = true); [|congruence]. apply existsb_exists. exists x.
      by rewrite <-list_elem_of_In. }
    destruct (mark_first_current l1 Hno) as [h' Hh']. split; [|split].
    + intros x [Hx|(y & Hy & _ & ->)]%elem_of_mark_first; [by apply Hf|]. apply (Hf y Hy).
    + by eapply one_current_intro.
    + by rewrite mark_first_applied.
Qed.

Lemma decorate_eq d faults wl l :
  decorateWorkloadConfigHistory d faults wl l =
  match l with
  | [] => Ok []
  | _ =>
    let l2 := with_current d faults.1 wl l in
    let l3 := mark_first (fun wc => is_applied wc && (wc_ConfigID wc <>s current_hash l2))
                mark_previous l2 in
    match GetWorkloadKnownGood d faults.2 wl with
    | Err e => Err e
    | Ok None => Ok l3
    | Ok (Some kg) => Ok (mark_all (fun wc => wc_ConfigID wc =s kg_ConfigID kg) mark_known_good l3)
    end
  end.
Proof. by destruct l. Qed.

(** What the marks mean in a decorated list. *)
Record decorated (l : list WorkloadConfig) (good : option string) : Prop := {
  de_current : exists h, (forall x, x ∈ l -> wc_IsCurrent x = true -> wc_ConfigID x = h) /\
    (forall x, x ∈ l -> wc_IsPrevious x = true -> wc_Status x = "applied" /\ wc_ConfigID x <> h);
  de_previous : length (List.filter wc_IsPrevious l) <= 1;
  de_failed : forall x, x ∈ l -> wc_IsFailedCandidate x = (wc_Status x =s "failed");
  de_known : forall x, x ∈ l -> wc_IsLastKnownGood x = true <-> good = Some (wc_ConfigID x)
}.

Lemma decorate_known l good :
  decorated l None -> decorated (mark_all (fun wc => wc_ConfigID wc =s good) mark_known_good l) (Some good).
Proof.
  intros [(h & Hc & Hp) Hone Hfail Hkg]. split.
  - exists h. split; intros x (y & Hy & ->)%elem_of_mark_all; destruct (_ =s good);
      first [exact (Hc y Hy) | exact (Hp y Hy)].
  - enough (length (List.filter wc_IsPrevious
      (mark_all (fun wc => wc_ConfigID wc =s good) mark_known_good l)) =
      length (List.filter wc_IsPrevious l)) as -> by done.
    clear. induction l as [|a l IH]; simpl; [done|].
    destruct (_ =s good); simpl; destruct (wc_IsPrevious a); simpl; by rewrite ?IH.
  - intros x (y & Hy & ->)%elem_of_mark_all. destruct (_ =s good); by apply Hfail in Hy.
  - intros x (y & Hy & ->)%elem_of_mark_all. specialize (Hkg y Hy).
    destruct (_ =s good) eqn:E; reflect_bools; cbn; [naive_solver|].
    rewrite Hkg. naive_solver.
Qed.

Lemma decorate_previous l :
  (forall x, x ∈ l -> fresh x) -> one_current l ->
  decorated (mark_first (fun wc => is_applied wc && (wc_ConfigID wc <>s current_hash l))
               mark_previous l) None.
Proof.
  intros Hf Hc. split.
  - exists (current_hash l). split; intros x [Hx|(y & Hy & Hpy & ->)]%elem_of_mark_first Hm.
    + by apply Hc.
    + exact (Hc y Hy Hm).
    + destruct (Hf x Hx) as (Hn & _). congruence.
    + cbn. unfold is_applied in Hpy. by reflect_bools.
  - apply mark_first_previous. intros x Hx. apply (Hf x Hx).
  - intros x [Hx|(y & Hy & _ & ->)]%elem_of_mark_first; [by apply Hf|]. apply (Hf y Hy).
  - intros x [Hx|(y & Hy & _ & ->)]%elem_of_mark_first.
    + destruct (Hf x Hx) as (_ & -> & _). done.
    + destruct (Hf y Hy) as (_ & Hn & _). cbn. rewrite Hn. done.
Qed.

Lemma decorate_spec d faults wl l l' :
  (forall x, x ∈ l -> unmarked x) -> decorateWorkloadConfigHistory d faults wl l = Ok l' ->
  decorated l' (kr_config_id <$> d_known_good d !! wl) \/ l' = [].
Proof.
  intros Hl. rewrite decorate_eq. destruct l as [|a l]; [by intros [= <-]; right|].
  destruct (with_current_spec d faults.1 wl (a :: l) Hl) as (Hf & Hone & _). cbv zeta.
  pose proof (decorate_previous _ Hf Hone) as Hd. unfold GetWorkloadKnownGood, query.
  destruct faults.2; [|done]. destruct (d_known_good d !! wl) as [r|]; cbn.
  - intros [= <-]. left. by apply decorate_known.
  - intros [= <-]. by left.
Qed.

Lemma decorate_applied d faults wl l l' :
  (forall x, x ∈ l -> unmarked x) -> decorateWorkloadConfigHistory d faults wl l = Ok l' ->
  map wc_AppliedAt l' = map wc_AppliedAt l.
Proof.
  intros Hl. rewrite decorate_eq. destruct l as [|a l]; [by intros [= <-]|].
  destruct (with_current_spec d faults.1 wl (a :: l) Hl) as (_ & _ & Ha). cbv zeta.
  rewrite <-Ha. destruct (GetWorkloadKnownGood d faults.2 wl) as [[kg|]|]; intros [= <-].
  - by rewrite mark_all_applied, mark_first_applied.
  - by rewrite mark_first_applied.
Qed.

(** the history shown to operators lists the pushes newest first; the rows
    marked current are pushes of one config, at most one row is marked
    previous and it is an applied push of another config than the current
    one, the failed marks are exactly the failed rows, and the known-good
    marks are exactly the rows of the pointer's config. *)
Theorem history_decoration d faults now wl l
    (Hl : GetWorkloadConfigHistory d faults now wl = Ok l) :
  StronglySorted (fun a b => b <= a)%Z (map wc_AppliedAt l) /\
  (decorated l (kr_config_id <$> d_known_good d !! wl) \/ l = []).
Proof.
  unfold GetWorkloadConfigHistory, query in Hl. destruct faults.1.1; [|done].
  set (k := map (scanWorkloadConfigHistoryMetadata d now) _) in Hl.
  assert (forall x, x ∈ k -> unmarked x) as Hk.
  { intros x Hx. apply list_elem_of_In, in_map_iff in Hx as (e & <- & _). done. }
  split; [|by eapply decorate_spec].
  rewrite (decorate_applied _ _ _ _ _ Hk Hl). subst k. rewrite map_map. clear.
  generalize (sort_by_sorted newest (select_pushes d (of_workload wl))).
  induction 1 as [|e m Hs IH He]; cbn; constructor; [done|].
  apply Forall_map. eapply Forall_impl; [exact He|]. intros e' Hle. cbn.
  unfold newest, by_key in Hle. rewrite Z.compare_le_iff in Hle. cbn in Hle.
  change (e_applied_at e' <= e_applied_at e)%Z. lia.
Qed.

(** ** Reports of the instances *)

Lemma merge_instance_uids l uid st cfg msg t :
  map is_InstanceUID (merge_instance l uid st cfg msg t) = append_unique (map is_InstanceUID l) uid.
Proof.
  induction l as [|i l IH]; [done|]. simpl. unfold append_unique in *. simpl.
  rewrite (String.eqb_sym uid). destruct (is_InstanceUID i =s uid); simpl; [done|].
  rewrite IH. by destruct (existsb _ _).
Qed.

Lemma merge_instance_in l uid st cfg msg t :
  exists i, i ∈ merge_instance l uid st cfg msg t /\ is_InstanceUID i = uid /\ is_Status i = st /\
    is_ConfigHash i = cfg /\ is_UpdatedAt i = t.
Proof.
  induction l as [|i l (j & Hj & ?)]; simpl.
  - eexists. split; [by left|done].
  - destruct (is_InstanceUID i =s uid) eqn:E; reflect_bools.
    + eexists. split; [by left|done].
    + exists j. split; [by right|done].
Qed.

Lemma hydrate_keeps_uid c ta now i :
  is_InstanceUID (PushStatus.hydrateInstance c ta now i) = is_InstanceUID i /\
  is_UpdatedAt (PushStatus.hydrateInstance c ta now i) = is_UpdatedAt i.
Proof. unfold PushStatus.hydrateInstance. by case_if. Qed.

Lemma hydrate_reported c ta now i :
  is_Status i ∈ ["applying"; "applied"; "failed"] ->
  is_Status (PushStatus.hydrateInstance c ta now i) = is_Status i.
Proof.
  intros Hs. unfold PushStatus.hydrateInstance.
  assert (PushStatus.canonicalInstanceStatus (is_Status i) = is_Status i /\
    (is_Status i =s PushStatus.PushStatusSent) || (is_Status i =s PushStatus.InstanceStatusNoStatus) = false)
    as [-> ->].
  { repeat (apply elem_of_cons in Hs as [->|Hs]; [done|]). by apply not_elem_of_nil in Hs. }
  by rewrite andb_false_r.
Qed.

Lemma merged_uids d e now t uid st msg :
  map is_InstanceUID (wc_InstanceStatuses (merged_push d e now t uid st msg)) =
  append_unique (map is_InstanceUID (pr_instances e.2)) uid.
Proof.
  unfold merged_push, scanWorkloadConfig, scanned, wc_with_instances.
  cbn [wc_InstanceStatuses PushStatus.HydratePushStatus].
  rewrite map_map, (map_ext _ is_InstanceUID) by (intros; apply hydrate_keeps_uid).
  rewrite merge_instance_uids, map_map.
  by rewrite (map_ext _ is_InstanceUID) by (intros; apply hydrate_keeps_uid).
Qed.

Lemma merged_report d e now t uid st msg :
  st ∈ ["applying"; "applied"; "failed"] ->
  exists i, i ∈ wc_InstanceStatuses (merged_push d e now t uid st msg) /\
    is_InstanceUID i = uid /\ is_Status i = st /\ is_UpdatedAt i = t.
Proof.
  intros Hst. unfold merged_push. set (wc := scanWorkloadConfig d now e).
  destruct (merge_instance_in (wc_InstanceStatuses wc) uid st (e_config e) msg t)
    as (i & Hi & Hu & Hs & _ & Ht).
  cbn [wc_InstanceStatuses PushStatus.HydratePushStatus wc_with_instances].
  eexists. split; [by apply list_elem_of_In, in_map, list_elem_of_In; exact Hi|].
  split; [by rewrite (proj1 (hydrate_keeps_uid _ _ _ _))|].
  split; [rewrite hydrate_reported; [done|by rewrite Hs]|].
  by rewrite (proj2 (hydrate_keeps_uid _ _ _ _)).
Qed.

(** an instance's report on a pushed config always lands in the latest
    history row of that config: the row then lists the reporting instance
    with exactly the reported status, keeps every other target once, and
    takes the status derived from all of them; every other row is untouched.
    Only the canaries' own transaction can still report an error. *)
Theorem instance_report_recorded d cf now wl cfg uid st msg t e
    (Hd : history_ok d) (Hst : st ∈ ["applying"; "applied"; "failed"])
    (He : latest d (of_push wl cfg) = Some e) :
  let d' := (UpdateWorkloadConfigInstanceStatus d IoOk cf now wl cfg uid st msg t).1 in
  exists r', d_pushes d' = <[e.1 := r']> (d_pushes d) /\
    map is_InstanceUID (pr_instances r') =
      append_unique (map is_InstanceUID (pr_instances e.2)) uid /\
    (exists i, i ∈ pr_instances r' /\ is_InstanceUID i = uid /\ is_Status i = st) /\
    pr_status r' = PushStatus.deriveStatus (Z.of_nat (length (pr_instances r')))
      (PushStatus.countInstances (pr_instances r')) (pr_sent_at e.2)
      (PushStatus.canonicalPushStatus (wc_Status (scanWorkloadConfig d now e))).
Proof.
  pose proof He as (Hk & [Hw Hc]%of_push_spec & _)%latest_Some.
  destruct (Hd _ _ Hk) as [Htime Hstat _ _ _ _]. cbv zeta.
  unfold UpdateWorkloadConfigInstanceStatus. rewrite He.
  set (at_ := if IsZero t then now else t).
  set (m := PushStatus.SanitizeRemoteConfigErrorMessage msg).
  pose proof (merged_uids d e now at_ uid st m) as Hu.
  pose proof (merged_report d e now at_ uid st m Hst) as (i & Hi & Hiu & His & _).
  destruct (merged_push_fields d e now at_ uid st m) as (Ha & Hok & _).
  assert ((wl, cfg, stored (wc_AppliedAt (merged_push d e now at_ uid st m))) = e.1) as Hkey.
  { rewrite Ha. destruct e as [[[w c] a] r]. cbn in *. subst. by rewrite Htime. }
  rewrite Hkey, Hk, bool_decide_true by eauto. cbn [negb exec]. rewrite Hok by done.
  exists (row_instances (wc_InstanceStatuses (merged_push d e now at_ uid st m))
    (row_error m (row_status (wc_Status (merged_push d e now at_ uid st m)) e.2))).
  split; [|split; [exact Hu|split; [by exists i|reflexivity]]].
  cbn [negb exec]. destruct (Canary.UpdateCanaryTargetStatus _ _ _ _ _ _ _ _). cbn.
  apply map_eq. intros k. destruct (decide (e.1 = k)) as [<-|Hne].
  - by rewrite lookup_alter_eq, lookup_insert_eq, Hk.
  - by rewrite lookup_alter_ne, lookup_insert_ne.
Qed.

(** a recorded push can be read back: the row written for a workload and a
    config that exist, later than the workload's earlier pushes, is the one
    the latest-push query returns, with its config's content, its redacted
    error text and its rollback reference. *)
Theorem record_then_latest d now now' wc
    (Hnew : forall cfg t r, d_pushes d !! (wc_WorkloadID wc, cfg, t) = Some r ->
              (t < stored (wc_AppliedAt wc))%Z)
    (Hw : is_Some (d_workloads d !! wc_WorkloadID wc))
    (Hc : is_Some (d_configs d !! wc_ConfigID wc))
    (Hz : IsZero (wc_AppliedAt wc) = false)
    (Hs : one_of (wc_Status wc) push_statuses = true) :
  let r := RecordWorkloadConfig d IoOk now wc in
  r.2 = None /\
  exists got, GetLatestWorkloadConfig r.1 IoOk now' (wc_WorkloadID wc) = Ok (Some got) /\
    wc_ConfigID got = wc_ConfigID wc /\ wc_AppliedAt got = stored (wc_AppliedAt wc) /\
    wc_Content got = content_of d (wc_ConfigID wc) /\
    wc_ErrorMessage got = PushStatus.SanitizeRemoteConfigErrorMessage (wc_ErrorMessage wc) /\
    wc_RollbackOfPushID got = wc_RollbackOfPushID wc.
Proof.
  cbv zeta. unfold RecordWorkloadConfig. rewrite Hz.
  set (k := (wc_WorkloadID wc, wc_ConfigID wc, stored (wc_AppliedAt wc))).
  set (row := new_push_row wc (wc_AppliedAt wc)).
  assert (push_constraints d k row = true) as Hok.
  { unfold push_constraints. rewrite !andb_true_iff, !bool_decide_eq_true. repeat split; try done.
    - destruct (d_pushes d !! k) as [r|] eqn:E; [|done]. apply Hnew in E. lia.
    - subst row. cbn. destruct ((wc_Status wc =s "") || (wc_Status wc =s "pending")); done. }
  rewrite Hok. cbn [negb exec fst snd]. split; [done|].
  set (d' := set_pushes (insert k row) d).
  assert (d_pushes d' !! k = Some row) as Hk by apply lookup_insert_eq.
  destruct (latest d' (of_workload (wc_WorkloadID wc))) as [e|] eqn:El.
  - unfold GetLatestWorkloadConfig, getOneWorkloadConfig, query. rewrite El. eexists. split; [done|].
    apply latest_Some in El as (He & Hew & Hmax).
    assert (e = (k, row)) as ->.
    { cbn in He. apply lookup_insert_Some in He as [[Hk1 Hr1]|[Hne He]]; [by destruct e; cbn in *; subst|].
      exfalso. specialize (Hmax (k, row) Hk (String.eqb_refl _)). cbn in Hmax.
      destruct e as [[[w c] t] r]. apply String.eqb_eq in Hew. cbn in *. subst w.
      apply Hnew in He. lia. }
    repeat (split; [done|]). split; [|done]. cbn. rewrite nullIfEmpty_default.
    apply PushStatus.sanitize_fixed, PushStatus.sanitize_safe.
  - exfalso. rewrite latest_None in El. specialize (El (k, row) Hk).
    unfold of_workload in El. cbn in El. by rewrite String.eqb_refl in El.
Qed.

End History.

(** ** Witnesses *)

#[local] Existing Instance byte_tables.
#[local] Existing Instance microseconds.

Definition sample_config (id content : string) : Config :=
  mkConfig id id content 1000 "ops" "saved" "ready" "" "" "" [] [] false "manual" "" "" "" "" "" None.

Definition sample_wl : Workload :=
  mkWorkload "w" "host" ∅ "api" "collector" "" "connected" 1000 ∅ None "" None None None true None None.

Definition sample_row (status : string) (uids : list string) : push_row :=
  mkPushRow status None None None "" (Some 1000%Z) (Some 1000%Z) (Some 90000000000%Z) ""
    (map (fun u => mkInstanceStatus u "" "" true status "" 1000 "" "" false) uids).

Definition sample_db : db :=
  mkDb {["w" := sample_wl]} ∅ [] 1
    {["A" := sample_config "A" "receivers: {}"; "B" := sample_config "B" "exporters: {}"]}
    {[("w", "A", 1000%Z) := sample_row "applied" ["u1"]; ("w", "B", 2000%Z) := sample_row "sent" ["u1"; "u2"]]}
    ∅ ∅.

Lemma sample_history_ok : history_ok sample_db.
Proof.
  unfold history_ok, sample_db. cbn [d_pushes].
  apply map_Forall_insert_2; [|apply map_Forall_singleton]; split;
    first [vm_compute; reflexivity | apply PushStatus.empty_safe | by vm_compute; eauto |
           repeat (constructor; [apply PushStatus.empty_safe|]); constructor].
Qed.

Lemma history_stays_well_formed_witness :
  history_ok (foldl run_history sample_db
    [(IoOk, HInstance IoOk 5000 "w" "B" "u1" "failed" "token=abc" 6000); (IoFail true, HLabel "w" "B" "x")]).
Proof. apply history_stays_well_formed. exact sample_history_ok. Defined.

Lemma rollback_target_sound_witness :
  exists t, GetRollbackTarget sample_db (IoOk, IoOk, IoOk) 9000 "w" "B" = Ok (Some t) /\
    wc_ConfigID (rt_Config t) <> "B".
Proof.
  destruct (GetRollbackTarget sample_db (IoOk, IoOk, IoOk) 9000 "w" "B") as [[t|]|] eqn:E;
    [|vm_compute in E; done..].
  exists t. split; [done|].
  exact (proj1 (rollback_target_sound sample_db (IoOk, IoOk, IoOk) 9000 "w" "B" t E)).
Defined.

Lemma history_decoration_witness :
  exists l, GetWorkloadConfigHistory sample_db (IoOk, IoOk, IoOk) 9000 "w" = Ok l /\ length l = 2 /\
    StronglySorted (fun a b => b <= a)%Z (map wc_AppliedAt l).
Proof.
  destruct (GetWorkloadConfigHistory sample_db (IoOk, IoOk, IoOk) 9000 "w") as [l|] eqn:E;
    [|vm_compute in E; done].
  exists l. split; [done|]. split.
  - apply (f_equal (fun r => match r with Ok l => length l | Err _ => 0 end)) in E.
    vm_compute in E. done.
  - exact (proj1 (history_decoration sample_db (IoOk, IoOk, IoOk) 9000 "w" l E)).
Defined.

Lemma instance_report_recorded_witness :
  exists e r', latest sample_db (of_push "w" "B") = Some e /\
    d_pushes (UpdateWorkloadConfigInstanceStatus sample_db IoOk IoOk 5000 "w" "B" "u2" "failed"
      "boom" 6000).1 = <[e.1 := r']> (d_pushes sample_db) /\
    map is_InstanceUID (pr_instances r') = ["u1"; "u2"].
Proof.
  assert (latest sample_db (of_push "w" "B") =
    Some (("w", "B", 2000%Z), sample_row "sent" ["u1"; "u2"])) as He by (vm_compute; reflexivity).
  assert ("failed" ∈ ["applying"; "applied"; "failed"]) as Hst by (do 2 right; left).
  destruct (instance_report_recorded sample_db IoOk 5000 "w" "B" "u2" "failed" "boom" 6000 _
    sample_history_ok Hst He) as (r' & Hp & Hu & _).
  eexists _, r'. split; [exact He|]. split; [exact Hp|]. exact Hu.
Defined.

Lemma record_then_latest_witness :
  let wc := with_flags false false false false (scanned (("w", "A", 5000%Z), sample_row "sent" []) "" false) in
  (RecordWorkloadConfig sample_db IoOk 9000 wc).2 = None /\
  exists got, GetLatestWorkloadConfig (RecordWorkloadConfig sample_db IoOk 9000 wc).1 IoOk 9000 "w" =
    Ok (Some got) /\ wc_ConfigID got = "A".
Proof.
  intros wc.
  destruct (record_then_latest sample_db 9000 9000 wc) as (Hn & got & Hg & Hc & _).
  - assert (map_Forall (fun (k : push_key) (_ : push_row) => (k.2 < 5000)%Z) (d_pushes sample_db))
      as Hall by (apply (bool_decide_unpack (map_Forall _ _)); vm_compute; exact I).
    intros cfg t r Hr. exact (Hall _ _ Hr).
  - vm_compute. eauto.
  - vm_compute. eauto.
  - reflexivity.
  - vm_compute. reflexivity.
  - split; [exact Hn|]. exists got. split; [exact Hg|exact Hc].
Defined.

End PushHistory.
