(* ===== verification/OpampServer.v ===== *)
(** * The OpAMP server (internal/opamp/server.go, internal/opamp/rollback.go)

    What an authenticated agent message does to the fleet: instance binding,
    the workload row, lifecycle events, status bookkeeping, automatic push and
    automatic rollback; who owns an instance UID; how a session ends. The
    server composes the registry, the grace controller, the fleet database,
    the push history and the token store.

    Code runs in a state monad over the server's memory and the tables. What
    the surroundings decide (the clock, the outcome of each database call,
    lease admission, socket errors, what other goroutines do while a call
    blocks) is drawn from an environment indexed by a step counter. *)

From S2P Require Import Prelude GoString Models PushStatus Registry Grace Sha256 AuditOutbox.
From S2P Require Import OpampTokens Canary Fingerprint Store PushHistory.
Import AuditOutbox Registry Fingerprint Sha256 Store.Store PushHistory.

Module OpampServer.

(** ** Protocol messages (the fields the server reads) *)

Record AgentDescription := mkDescription {
  ad_IdentifyingAttributes : list (option KeyValue);
  ad_NonIdentifyingAttributes : list (option KeyValue)
}.

Inductive RemoteConfigStatuses := RCS_UNSET | RCS_APPLIED | RCS_APPLYING | RCS_FAILED | RCS_OTHER.

Record AgentRemoteConfigStatus := mkAgentRCS {
  ar_LastRemoteConfigHash : list N; ar_Status : RemoteConfigStatuses; ar_ErrorMessage : string
}.

Record AgentAvailableComponents := mkAgentComponents {
  aa_Components : gmap string (option (gset string)); aa_Hash : list N
}.

(** [am_Health]: the [Healthy] flag of a present health report;
    [am_EffectiveConfig]: the file bodies of a present config map. *)
Record AgentToServer := mkAgentToServer {
  am_InstanceUid : list N; am_AgentDescription : option AgentDescription;
  am_Capabilities : N; am_Health : option bool;
  am_RemoteConfigStatus : option AgentRemoteConfigStatus;
  am_EffectiveConfig : option (option (gmap string string));
  am_AvailableComponents : option AgentAvailableComponents
}.

Inductive replyFlag := NoFlag | ReportFullState | ReportAvailableComponents.
Record ServerToAgent := mkReply { sr_InstanceUid : list N; sr_Flags : replyFlag }.

(** The capability bits of the OpAMP specification. *)
Definition acceptsRemoteConfigCap : N := 2.
Definition reportsAvailableComponentsCap : N := 16384.
Definition has_cap (caps bit : N) : bool := negb (N.eqb (N.land caps bit) 0).

(** ** State *)

(** The fields of [tokenSession] the server itself uses. *)
Record session := mkSess {
  ss_token : string; ss_conn : option nat; ss_uid : string; ss_admitted : bool;
  ss_terminal : bool; ss_released : bool; ss_disconnected : bool
}.

(** What the server did to the outside. *)
Inductive effect :=
| ESent (uid content : string)
| EWorkloadUpdate (w : Workload) (connected drifted : Z)
| EWorkloadEvent (e : WorkloadEvent)
| EConfigStatus (workloadID : string) (status : RemoteConfigStatus)
| EAutoRollback (workloadID fromHash toHash reason targetKind : string)
| EReply (s : nat) (r : ServerToAgent)
| EDisconnect (s : nat).

(** The ways the reply of a message leaves: held back as the HTTP response,
    sent on the socket, or failed. *)
Inductive reply_path := ReplyRetained | ReplySent | ReplyFailed.

(* src/internal/opamp/server.go:90-113 Server *)
Record server := mkServer {
  sv_db : db; sv_tokens : OpampTokens.db; sv_registry : InstanceRegistry;
  sv_grace : Grace.GraceController; sv_conns : gmap string nat;
  sv_sessions : gmap nat session;
  sv_stopping : bool;
  sv_autopush : list (string * string * string);
  sv_effects : list effect; sv_tick : nat
}.

Record env := mkEnv {
  en_store : bool;            (* s.store != nil *)
  en_notifier : bool;         (* s.notifier != nil *)
  en_retention : Duration;
  en_clock : nat -> Time;
  en_fault : nat -> io;
  en_tokenFaults : nat -> OpampTokens.faults;
  en_acquire : nat -> bool;   (* tokens.Acquire or lease.Fork succeeds *)
  en_send : nat -> option string;
  en_reply : nat -> reply_path;
  en_drained : nat -> bool;   (* session.leases.Load() == 0 *)
  en_other : nat -> server -> server
}.

Definition M (A : Type) : Type := server -> server * A.
Definition ret {A} (a : A) : M A := fun s => (s, a).
Definition bind {A B} (m : M A) (f : A -> M B) : M B := fun s => let (s', a) := m s in f a s'.

Declare Scope server_scope.
Notation "x ← y ; z" := (bind y (fun x => z)) : server_scope.
Notation "x ;; z" := (bind x (fun _ => z)) : server_scope.
Local Open Scope server_scope.

Definition set_db (f : db -> db) (s : server) : server :=
  mkServer (f (sv_db s)) (sv_tokens s) (sv_registry s) (sv_grace s) (sv_conns s) (sv_sessions s)
    (sv_stopping s) (sv_autopush s) (sv_effects s) (sv_tick s).
Definition set_tokens (t : OpampTokens.db) (s : server) : server :=
  mkServer (sv_db s) t (sv_registry s) (sv_grace s) (sv_conns s) (sv_sessions s)
    (sv_stopping s) (sv_autopush s) (sv_effects s) (sv_tick s).
Definition set_registry (r : InstanceRegistry) (s : server) : server :=
  mkServer (sv_db s) (sv_tokens s) r (sv_grace s) (sv_conns s) (sv_sessions s)
    (sv_stopping s) (sv_autopush s) (sv_effects s) (sv_tick s).
Definition set_grace (g : Grace.GraceController) (s : server) : server :=
  mkServer (sv_db s) (sv_tokens s) (sv_registry s) g (sv_conns s) (sv_sessions s)
    (sv_stopping s) (sv_autopush s) (sv_effects s) (sv_tick s).
Definition set_conns (c : gmap string nat) (s : server) : server :=
  mkServer (sv_db s) (sv_tokens s) (sv_registry s) (sv_grace s) c (sv_sessions s)
    (sv_stopping s) (sv_autopush s) (sv_effects s) (sv_tick s).
Definition set_sessions (m : gmap nat session) (s : server) : server :=
  mkServer (sv_db s) (sv_tokens s) (sv_registry s) (sv_grace s) (sv_conns s) m
    (sv_stopping s) (sv_autopush s) (sv_effects s) (sv_tick s).
Definition set_stopping (s : server) : server :=
  mkServer (sv_db s) (sv_tokens s) (sv_registry s) (sv_grace s) (sv_conns s) (sv_sessions s)
    true (sv_autopush s) (sv_effects s) (sv_tick s).
Definition set_autopush (l : list (string * string * string)) (s : server) : server :=
  mkServer (sv_db s) (sv_tokens s) (sv_registry s) (sv_grace s) (sv_conns s) (sv_sessions s)
    (sv_stopping s) l (sv_effects s) (sv_tick s).
Definition add_effect (e : effect) (s : server) : server :=
  mkServer (sv_db s) (sv_tokens s) (sv_registry s) (sv_grace s) (sv_conns s) (sv_sessions s)
    (sv_stopping s) (sv_autopush s) (sv_effects s ++ [e]) (sv_tick s).
Definition tick (s : server) : server :=
  mkServer (sv_db s) (sv_tokens s) (sv_registry s) (sv_grace s) (sv_conns s) (sv_sessions s)
    (sv_stopping s) (sv_autopush s) (sv_effects s) (S (sv_tick s)).

(** Reading and writing the state. *)
Definition gets {A} (f : server -> A) : M A := fun s => (s, f s).
Definition modify (f : server -> server) : M unit := fun s => (f s, tt).
Definition emit (e : effect) : M unit := modify (add_effect e).
Definition when (b : bool) (m : M unit) : M unit := if b then m else ret tt.

Section Server.
Context `{UnicodeTables} `{TimestampColumn} {uuid : UuidLib}
  (token_checks : string -> OpampTokens.token_row -> bool) (v : env).

(** [time.Now().UTC()]. *)
Definition now : M Time := fun s => (tick s, en_clock v (sv_tick s)).
(** The next answers of the surroundings. *)
Definition fault : M io := fun s => (tick s, en_fault v (sv_tick s)).
Definition acquire : M bool := fun s => (tick s, en_acquire v (sv_tick s)).
Definition send_result : M (option string) := fun s => (tick s, en_send v (sv_tick s)).
Definition next_reply : M reply_path := fun s => (tick s, en_reply v (sv_tick s)).
(** Other goroutines run while this one blocks. *)
Definition blocked : M unit := fun s => (tick (en_other v (sv_tick s) s), tt).

(** A database read, and a database write. *)
Definition dbq {A} (q : db -> io -> A) : M A :=
  fun s => (tick s, q (sv_db s) (en_fault v (sv_tick s))).
Definition dbx {A} (x : db -> io -> db * A) : M A :=
  fun s => let (d', a) := x (sv_db s) (en_fault v (sv_tick s)) in (tick (set_db (fun _ => d') s), a).

Definition registry_op {A} (f : InstanceRegistry -> InstanceRegistry * A) : M A :=
  fun s => let (r, a) := f (sv_registry s) in (set_registry r s, a).

(* src/internal/opamp/server.go:966-979 emitEvent *)
Definition emitEvent (e : WorkloadEvent) : M unit :=
  if negb (en_store v) then ret tt
  else
    t ← now;
    r ← dbx (fun d f => InsertWorkloadEvent d f t e);
    match r with
    | Err _ => ret tt
    | Ok id =>
        when (en_notifier v)
          (emit (EWorkloadEvent (mkWorkloadEvent id (ev_WorkloadID e) (ev_InstanceUID e)
             (ev_PodName e) (ev_EventType e) (ev_Version e) (ev_PrevVersion e) (ev_OccurredAt e))))
    end.

(** ** Ending a session *)

Definition set_session (i : nat) (f : session -> session) : M unit :=
  modify (fun s => set_sessions (alter f i (sv_sessions s)) s).
Definition with_uid (uid : string) (e : session) : session :=
  mkSess (ss_token e) (ss_conn e) uid (ss_admitted e) (ss_terminal e) (ss_released e)
    (ss_disconnected e).
Definition with_admitted (b : bool) (e : session) : session :=
  mkSess (ss_token e) (ss_conn e) (ss_uid e) b (ss_terminal e) (ss_released e)
    (ss_disconnected e).
Definition with_terminal (e : session) : session :=
  mkSess (ss_token e) (ss_conn e) (ss_uid e) (ss_admitted e) true (ss_released e)
    (ss_disconnected e).
Definition with_released (e : session) : session :=
  mkSess (ss_token e) (ss_conn e) (ss_uid e) (ss_admitted e) (ss_terminal e) true
    (ss_disconnected e).
Definition with_disconnected (e : session) : session :=
  mkSess (ss_token e) (ss_conn e) (ss_uid e) (ss_admitted e) (ss_terminal e) (ss_released e) true.
Definition with_conn (c : option nat) (e : session) : session :=
  mkSess (ss_token e) c (ss_uid e) (ss_admitted e) (ss_terminal e) (ss_released e)
    (ss_disconnected e).

Definition uid_of (s : server) (i : nat) : string := default "" (ss_uid <$> sv_sessions s !! i).

(** The critical section of [releaseSessionOnce]: the owner check, the drop of
    the ownership and the unbind of the instance. [None]: not the owner. *)
Definition release_owned (i : nat) (s : server) : server * option (string * string * string) :=
  let uid := uid_of s i in
  if (uid =s "") || negb (bool_decide (sv_conns s !! uid = Some i)) then (s, None)
  else
    let podName :=
      match LookupWorkload (sv_registry s) uid with
      | Some wl =>
          match List.filter (fun x => InstanceUID x =s uid) (Instances (sv_registry s) wl) with
          | x :: _ => PodName x
          | [] => ""
          end
      | None => ""
      end in
    let (r, workloadID) := UnbindInstance (sv_registry s) uid in
    let s := set_conns (delete uid (sv_conns s)) s in
    let s := set_sessions (alter (fun e => with_admitted false (with_uid "" e)) i (sv_sessions s)) s in
    (set_registry r s, Some (uid, podName, workloadID)).

(* src/internal/opamp/server.go:1057-1117 releaseSessionOnce *)
Definition releaseSessionOnce (i : nat) : M unit :=
  r ← release_owned i;
  match r with
  | None => ret tt
  | Some (uid, podName, workloadID) =>
      if workloadID =s "" then ret tt
      else
        t ← now;
        emitEvent (mkWorkloadEvent 0 workloadID uid podName "disconnected" "" "" t);;
        n ← gets (fun s => Count (sv_registry s) workloadID);
        when (Nat.eqb n 0) (modify (fun s => set_grace (Grace.Schedule (sv_grace s) workloadID) s))
  end.

(** [releaseOnce.Do]. *)
(* src/internal/opamp/server.go:1048-1055 releaseSession *)
Definition releaseSession (i : nat) : M unit :=
  fin ← gets (fun s => default true (ss_released <$> sv_sessions s !! i));
  if fin then ret tt
  else set_session i with_released;; releaseSessionOnce i.

(** [disconnectOnce.Do]: release the session, then close its connection. *)
Definition disconnect_one (i : nat) : M unit :=
  fin ← gets (fun s => default true (ss_disconnected <$> sv_sessions s !! i));
  if fin then ret tt
  else
    set_session i with_disconnected;;
    releaseSession i;;
    c ← gets (fun s => sv_sessions s !! i ≫= ss_conn);
    match c with Some _ => emit (EDisconnect i) | None => ret tt end.

(* src/internal/opamp/server.go:1014-1026 disconnectSessions *)
Definition disconnectSessions (l : list nat) : M unit :=
  foldr (fun i rest => disconnect_one i;; rest) (ret tt) l.

(** The callback of the grace timer of a workload. *)
(* src/internal/opamp/server.go:1096-1115 releaseSessionOnce *)
Definition graceCallback (workloadID : string) : M unit :=
  n ← gets (fun s => Count (sv_registry s) workloadID);
  if Nat.ltb 0 n then ret tt
  else if negb (en_store v) then ret tt
  else
    t ← now;
    err ← dbx (fun d f => MarkWorkloadDisconnected d f workloadID (Add t (en_retention v)));
    match err with
    | Some _ => ret tt
    | None =>
        if negb (en_notifier v) then ret tt
        else
          w ← dbq (fun d f => GetWorkload d f workloadID);
          match w with
          | Ok w => emit (EWorkloadUpdate w 0 0)
          | Err _ => ret tt
          end
    end.

(** ** Pushing configurations *)

(** A send error closes the session: at once when no lease is held, otherwise
    once its leases are released ([en_other] then runs it). *)
(* src/internal/opamp/server.go:1033-1040 disconnectSessionAfterSendError *)
Definition disconnectSessionAfterSendError (i : nat) : M unit :=
  fun s => let d := en_drained v (sv_tick s) in
           if d then disconnectSessions [i] (tick s) else (tick s, tt).

(* src/internal/opamp/server.go:248-265 sendToInstance *)
Definition sendToInstance (uid content : string) : M (option string) :=
  c ← gets (fun s => sv_conns s !! uid);
  match c with
  | None => ret (Some ("instance " +:+ uid +:+ " not connected"))
  | Some i =>
      ok ← acquire;
      if negb ok then ret (Some ("instance " +:+ uid +:+ " not connected"))
      else
        e ← send_result;
        match e with
        | None => emit (ESent uid content);; ret None
        | Some msg => disconnectSessionAfterSendError i;; ret (Some msg)
        end
  end.

(** [makeMsg]: the UID must be sixteen bytes in hexadecimal. *)
Definition valid_uid (uid : string) : bool :=
  match hex_decode uid with Some raw => Nat.eqb (length raw) 16 | None => false end.

Definition push_one (uid content : string) : M (option string) :=
  if valid_uid uid then sendToInstance uid content
  else ret (Some ("instance " +:+ uid +:+ " has invalid UID")).

(** The loop of the broadcast keeps the first error. *)
Fixpoint push_all (uids : list string) (content : string) (firstErr : option string)
  : M (option string) :=
  match uids with
  | [] => ret firstErr
  | uid :: rest =>
      e ← push_one uid content;
      push_all rest content (match firstErr with None => e | Some _ => firstErr end)
  end.

(* src/internal/opamp/server.go:196-246 PushConfig *)
Definition PushConfig (workloadID content targetInstanceUID : string) : M (option string) :=
  if targetInstanceUID <>s "" then
    b ← gets (fun s => LookupWorkload (sv_registry s) targetInstanceUID);
    match b with
    | None => ret (Some ("instance " +:+ targetInstanceUID +:+ " not connected"))
    | Some bound =>
        if bound <>s workloadID
        then ret (Some ("instance " +:+ targetInstanceUID +:+ " belongs to workload " +:+ bound +:+
                         ", not " +:+ workloadID))
        else push_one targetInstanceUID content
    end
  else
    insts ← gets (fun s => map InstanceUID (Instances (sv_registry s) workloadID));
    match insts with
    | [] => ret (Some ("workload " +:+ workloadID +:+ " has no connected instance"))
    | _ => push_all insts content None
    end.

(* src/internal/opamp/server.go:950-962 triggerAutoPush *)
Definition triggerAutoPush (configID workloadID instanceUID : string) : M unit :=
  if negb (en_store v) then ret tt
  else
    c ← dbq (fun d f => GetConfig d f configID);
    match c with
    | Err _ => ret tt
    | Ok cfg => _ ← PushConfig workloadID (cf_Content cfg) instanceUID; ret tt
    end.

(** [beginOperation]: refused once a stop began. *)
(* src/internal/opamp/server.go:432-440 beginOperation *)
Definition beginOperation : M bool := gets (fun s => negb (sv_stopping s)).

(** The goroutine is queued; [leased]: a parent lease must be forked. *)
(* src/internal/opamp/server.go:795-817 launchAutoPush *)
Definition launchAutoPush (configID workloadID uid : string) (leased : bool) : M unit :=
  ok ← beginOperation;
  if negb ok then ret tt
  else
    forked ← (if leased then acquire else ret true);
    when forked (modify (fun s => set_autopush (sv_autopush s ++ [(configID, workloadID, uid)]) s)).

Definition diverges (activeHash : string) (x : Instance) : bool :=
  (EffectiveConfigHash x <>s "") && (EffectiveConfigHash x <>s activeHash).

(* src/internal/opamp/server.go:774-793 maybeTriggerAutoPush *)
Definition maybeTriggerAutoPush (workloadID uid : string) (wl : Workload) (leased : bool) : M unit :=
  match wl_ActiveConfigHash wl =s "", wl_ActiveConfigID wl with
  | false, Some configID =>
      insts ← gets (fun s => Instances (sv_registry s) workloadID);
      foldr (fun x rest =>
        (if (InstanceUID x =s uid) && diverges (wl_ActiveConfigHash wl) x
         then launchAutoPush configID workloadID uid leased else ret tt);; rest) (ret tt) insts
  | _, _ => ret tt
  end.

(** ** Workload state *)

(* src/internal/opamp/server.go:934-945 countDrift *)
Definition countDrift (r : InstanceRegistry) (workloadID activeHash : string) : Z :=
  if activeHash =s "" then 0%Z
  else Z.of_nat (length (List.filter (diverges activeHash) (Instances r workloadID))).

Definition with_status (status : string) (seen : Time) (w : Workload) : Workload :=
  mkWorkload (wl_ID w) (wl_FingerprintSource w) (wl_FingerprintKeys w) (wl_DisplayName w)
    (wl_Type w) (wl_Version w) status seen (wl_Labels w) (wl_ActiveConfigID w)
    (wl_ActiveConfigHash w) (wl_RemoteConfigStatus w) (wl_CurrentConfigPush w)
    (wl_AvailableComponents w) (wl_AcceptsRemoteConfig w) (wl_RetentionUntil w) (wl_ArchivedAt w).

(* src/internal/opamp/server.go:752-772 refreshWorkloadState *)
Definition refreshWorkloadState (workloadID uid : string) (leased : bool) : M unit :=
  if negb (en_store v) then ret tt
  else
    w ← dbq (fun d f => GetWorkload d f workloadID);
    match w with
    | Err _ => ret tt
    | Ok w =>
        st ← gets (fun s => AggregatedStatus (sv_registry s) workloadID);
        t ← now;
        let w := with_status st t w in
        _ ← dbx (fun d f => UpsertWorkload d f w);
        (if en_notifier v
         then r ← gets sv_registry;
              emit (EWorkloadUpdate w (Z.of_nat (Count r workloadID))
                      (countDrift r workloadID (wl_ActiveConfigHash w)))
         else ret tt);;
        maybeTriggerAutoPush workloadID uid w leased
    end.

(** The labels of the row: the trusted ones already stored, then the announced
    attributes except the projected and the trusted keys. *)
Definition is_trusted (k : string) : bool := HasPrefix k TrustedSelectorLabelPrefix.
Definition rebuilt_labels (old attrs : gmap string string) : gmap string string :=
  filter (fun kv => (kv.1 <>s "service.name") && (kv.1 <>s "service.version") &&
                    negb (is_trusted kv.1) = true) attrs ∪
  filter (fun kv => is_trusted kv.1 = true) old.

(* src/internal/opamp/server.go:985-1005 flattenAvailableComponents *)
Definition flattenAvailableComponents (ac : option AgentAvailableComponents)
  : option AvailableComponents :=
  match ac with
  | None => None
  | Some a =>
      if Nat.eqb (size (aa_Components a)) 0 then None
      else Some (mkAvailableComponents
        (omap (fun details => (fun names => sort_strings (elements names)) <$> details) (aa_Components a))
        (hex_encode (aa_Hash a)))
  end.

(* src/internal/opamp/server.go:1169-1174 fallback *)
Definition fallback (s def : string) : string := if s =s "" then def else s.

(** The file bodies, concatenated in the order of their names. *)
Definition effective_body (files : gmap string string) : string :=
  String.concat "" (map (fun k => default "" (files !! k)) (sorted_keys files)).

(* src/internal/opamp/server.go:1123-1167 persistEffectiveConfig *)
Definition persistEffectiveConfig (workloadID displayName : string)
  (effective : option (option (gmap string string))) : M string :=
  match effective with
  | None | Some None => ret ""
  | Some (Some files) =>
      if Nat.eqb (size files) 0 then ret ""
      else
        let buf := effective_body files in
        if buf =s "" then ret ""
        else
          let configID := hex_encode (Sum256 (str_bytes buf)) in
          c ← dbq (fun d f => GetConfig d f configID);
          match c with
          | Ok _ => ret configID
          | Err _ =>
              let short := if Nat.ltb 8 (String.length workloadID) then take_str 8 workloadID else workloadID in
              let name := fallback displayName short +:+ "-reported-" +:+ take_str 8 configID in
              t ← now;
              err ← dbx (fun d f => CreateConfig d f
                (mkConfig configID name buf t "agent-reported" "" "" "" "" "" [] [] false "" "" "" "" "" "" None));
              ret (match err with Some _ => "" | None => configID end)
          end
  end.

Definition zero_workload : Workload :=
  mkWorkload "" "" ∅ "" "" "" "" zero_time ∅ None "" None None None false None None.

(** The row built from the announced attributes over the stored one. *)
Definition described_workload (prev : Workload) (workloadID : string) (fp : FingerprintResult)
  (attrs : attributes) (status : string) (seen : Time) (msg : AgentToServer)
  (activeConfigID : option string) : Workload :=
  mkWorkload workloadID (fp_Source fp) (fp_Keys fp)
    (if attr attrs "service.name" <>s "" then attr attrs "service.name" else wl_DisplayName prev)
    (classifyAgent attrs)
    (if attr attrs "service.version" <>s "" then attr attrs "service.version" else wl_Version prev)
    status seen (rebuilt_labels (wl_Labels prev) attrs)
    activeConfigID (wl_ActiveConfigHash prev) (wl_RemoteConfigStatus prev)
    (wl_CurrentConfigPush prev)
    (match flattenAvailableComponents (am_AvailableComponents msg) with
     | Some c => Some c | None => wl_AvailableComponents prev end)
    (has_cap (am_Capabilities msg) acceptsRemoteConfigCap) None (wl_ArchivedAt prev).

(* src/internal/opamp/server.go:859-930 upsertWorkloadFromDescription *)
Definition upsertWorkloadFromDescription (workloadID : string) (fp : FingerprintResult)
  (attrs : attributes) (msg : AgentToServer) : M unit :=
  if negb (en_store v) then ret tt
  else
    p ← dbq (fun d f => GetWorkload d f workloadID);
    let prev := match p with Ok w => w | Err _ => zero_workload end in
    st ← gets (fun s => AggregatedStatus (sv_registry s) workloadID);
    t ← now;
    let displayName := if attr attrs "service.name" <>s "" then attr attrs "service.name"
                       else wl_DisplayName prev in
    cfgID ← persistEffectiveConfig workloadID displayName (am_EffectiveConfig msg);
    let active := if cfgID <>s "" then Some cfgID else wl_ActiveConfigID prev in
    let w := described_workload prev workloadID fp attrs st t msg active in
    if wl_Type w =s "" then ret tt
    else
      err ← dbx (fun d f => UpsertWorkload d f w);
      match err with
      | Some _ => ret tt
      | None => _ ← dbx (fun d f => ClearWorkloadRetention d f workloadID); ret tt
      end.

(* src/internal/opamp/server.go:701-724 emitBindEvent *)
Definition emitBindEvent (workloadID uid : string) (ins : Instance) (isFresh : bool)
  (prevVersion version : string) : M unit :=
  if isFresh then
    t ← now;
    emitEvent (mkWorkloadEvent 0 workloadID uid (PodName ins) "connected" (Version ins) "" t)
  else if (prevVersion <>s "") && (prevVersion <>s version) then
    t ← now;
    emitEvent (mkWorkloadEvent 0 workloadID uid (PodName ins) "version_changed" version prevVersion t)
  else ret tt.

(* src/internal/opamp/server.go:726-734 shouldRequestAvailableComponents *)
Definition shouldRequestAvailableComponents (workloadID : string) (msg : AgentToServer) : M bool :=
  if negb (has_cap (am_Capabilities msg) reportsAvailableComponentsCap) then ret false
  else if negb (en_store v) then ret false
  else
    w ← dbq (fun d f => GetWorkload d f workloadID);
    ret (match w with
          | Ok w => match wl_AvailableComponents w with None => true | Some _ => false end
          | Err _ => false
          end).

(** The instance a description announces. *)
Definition described_instance (attrs : attributes) (msg : AgentToServer) : Instance :=
  mkInstance "" (attr attrs "k8s.pod.name") (attr attrs "service.version") zero_time zero_time
    (match am_RemoteConfigStatus msg with
     | Some r => hex_encode (ar_LastRemoteConfigHash r) | None => "" end)
    (match am_Health msg with Some false => false | _ => true end)
    (has_cap (am_Capabilities msg) acceptsRemoteConfigCap) true None.

(* src/internal/opamp/server.go:664-699 handleAgentDescription *)
Definition handleAgentDescription (uid : string) (desc : AgentDescription) (msg : AgentToServer)
  : M (string * bool) :=
  let attrs := flattenAttrs (ad_IdentifyingAttributes desc) (ad_NonIdentifyingAttributes desc) in
  let fp := Fingerprint attrs uid in
  let workloadID := fp_ID fp in
  let version := attr attrs "service.version" in
  prevVersion ← gets (fun s => (PreviousVersion (sv_registry s) uid).1);
  let ins := described_instance attrs msg in
  t1 ← now; t2 ← now;
  isFresh ← registry_op (fun r => BindInstance r uid workloadID ins t1 t2);
  modify (fun s => set_grace (Grace.Cancel (sv_grace s) workloadID) s);;
  upsertWorkloadFromDescription workloadID fp attrs msg;;
  emitBindEvent workloadID uid ins isFresh prevVersion version;;
  req ← shouldRequestAvailableComponents workloadID msg;
  ret (workloadID, req).

(** What a message without description changes of its instance. *)
Definition heartbeat (msg : AgentToServer) (x : Instance) : Instance :=
  mkInstance (InstanceUID x) (PodName x) (Version x) (ConnectedAt x) (LastMessageAt x)
    (match am_RemoteConfigStatus msg with
     | Some r => hex_encode (ar_LastRemoteConfigHash r) | None => EffectiveConfigHash x end)
    (match am_Health msg with Some h => h | None => Healthy x end)
    (AcceptsRemoteConfig x) (RemoteConfigCapabilityKnown x) (InstRemoteConfigStatus x).

(* src/internal/opamp/server.go:736-750 handleKnownInstanceUpdate *)
Definition handleKnownInstanceUpdate (uid : string) (msg : AgentToServer) : M (option string) :=
  w ← gets (fun s => LookupWorkload (sv_registry s) uid);
  match w with
  | None => ret None
  | Some wl =>
      t ← now;
      _ ← registry_op (fun r => UpdateInstance r uid (heartbeat msg) t);
      ret (Some wl)
  end.

(** ** Remote config status and automatic rollback *)

(* src/internal/opamp/rollback.go:96-109 remoteConfigStatusString *)
Definition remoteConfigStatusString (s : RemoteConfigStatuses) : string :=
  match s with
  | RCS_UNSET => ""
  | RCS_APPLYING => "applying"
  | RCS_APPLIED => "applied"
  | RCS_FAILED => "failed"
  | RCS_OTHER => ""
  end.

Definition rollback_record (workloadID failedHash : string) (target : WorkloadConfig) (t : Time)
  (insts : list Instance) : WorkloadConfig :=
  mkWorkloadConfig workloadID (wc_ConfigID target) "" t PushStatus.PushStatusRollbackStarted ""
    "auto-rollback" "" None "" t None zero_time None false "" failedHash []
    (map (fun x => mkInstanceStatus (InstanceUID x) (PodName x) "" true PushStatus.InstanceStatusSent
                     (wc_ConfigID target) t "" "" false) insts)
    0 0 0 0 0 0 [] false false false false false.

(* src/internal/opamp/rollback.go:58-94 attemptAutoRollback *)
Definition attemptAutoRollback (workloadID failedHash reason : string) : M unit :=
  f1 ← fault; f2 ← fault; t0 ← now;
  target ← dbq (fun d f => GetRollbackTarget d (f1, f2, f) t0 workloadID failedHash);
  match target with
  | Err _ => ret tt
  | Ok None => ret tt
  | Ok (Some target) =>
      let cfg := rt_Config target in
      if wc_ConfigID cfg =s failedHash then ret tt
      else if wc_Content cfg =s "" then ret tt
      else
        e ← PushConfig workloadID (wc_Content cfg) "";
        match e with
        | Some _ => ret tt
        | None =>
            t ← now;
            insts ← gets (fun s => Instances (sv_registry s) workloadID);
            _ ← dbx (fun d f => RecordWorkloadConfig d f t (rollback_record workloadID failedHash cfg t insts));
            t' ← now;
            _ ← dbx (fun d f => MarkWorkloadConfigSent d f workloadID (wc_ConfigID cfg) t');
            when (en_notifier v)
              (emit (EAutoRollback workloadID failedHash (wc_ConfigID cfg) reason (rt_Kind target)))
        end
  end.

Definition with_remote (status : RemoteConfigStatus) (x : Instance) : Instance :=
  mkInstance (InstanceUID x) (PodName x) (Version x) (ConnectedAt x) (LastMessageAt x)
    (rcs_ConfigHash status) (Healthy x) (AcceptsRemoteConfig x) (RemoteConfigCapabilityKnown x)
    (Some status).

(** The instance holds a pointer to the snapshot, which later receives the push
    record: the update is visible through the registry. *)
Definition alias_push (r : InstanceRegistry) (uid : string) (snap : RemoteConfigStatus)
  : InstanceRegistry :=
  match LookupWorkload r uid with
  | Some wl => mkRegistry (alter (alter (with_remote snap) uid) wl (byWorkload r)) (uidToWL r)
  | None => r
  end.

Definition with_remote_status (st : RemoteConfigStatus) (w : Workload) : Workload :=
  mkWorkload (wl_ID w) (wl_FingerprintSource w) (wl_FingerprintKeys w) (wl_DisplayName w)
    (wl_Type w) (wl_Version w) (wl_Status w) (wl_LastSeenAt w) (wl_Labels w) (wl_ActiveConfigID w)
    (wl_ActiveConfigHash w) (Some st) (wl_CurrentConfigPush w) (wl_AvailableComponents w)
    (wl_AcceptsRemoteConfig w) (wl_RetentionUntil w) (wl_ArchivedAt w).

(* src/internal/opamp/rollback.go:13-56 handleRemoteConfigStatus *)
Definition handleRemoteConfigStatus (workloadID uid : string) (rcs : AgentRemoteConfigStatus)
  : M unit :=
  let status := remoteConfigStatusString (ar_Status rcs) in
  if status =s "" then ret tt
  else
    let msg := PushStatus.SanitizeRemoteConfigErrorMessage (ar_ErrorMessage rcs) in
    let hash := hex_encode (ar_LastRemoteConfigHash rcs) in
    at_ ← now;
    let snap := mkRemoteConfigStatus status hash msg at_ None in
    t ← now;
    _ ← registry_op (fun r => UpdateInstance r uid (with_remote snap) t);
    _ ← dbx (fun d f => UpdateWorkloadConfigStatus d f workloadID hash status msg);
    f1 ← fault; t1 ← now;
    _ ← dbx (fun d f => UpdateWorkloadConfigInstanceStatus d f1 f t1 workloadID hash uid status msg at_);
    t2 ← now;
    p ← dbq (fun d f => GetLatestWorkloadConfig d f t2 workloadID);
    let snap := match p with
                | Ok push => mkRemoteConfigStatus status hash msg at_ push
                | Err _ => snap
                end in
    modify (fun s => set_registry (alias_push (sv_registry s) uid snap) s);;
    w ← dbq (fun d f => GetWorkload d f workloadID);
    (match w with
     | Ok w => _ ← dbx (fun d f => UpsertWorkload d f (with_remote_status snap w)); ret tt
     | Err _ => ret tt
     end);;
    when (en_notifier v) (emit (EConfigStatus workloadID snap));;
    when (status =s "failed") (attemptAutoRollback workloadID hash msg).

(* src/internal/opamp/server.go:819-826 recordRemoteConfigStatus *)
Definition recordRemoteConfigStatus (workloadID uid : string)
  (status : option AgentRemoteConfigStatus) : M unit :=
  match status with
  | Some r => if en_store v then handleRemoteConfigStatus workloadID uid r else ret tt
  | None => ret tt
  end.

(* src/internal/opamp/server.go:828-838 reportFullStateReply *)
Definition reportFullStateReply (msg : AgentToServer) : ServerToAgent :=
  mkReply (am_InstanceUid msg) ReportFullState.

(* src/internal/opamp/server.go:840-846 replyToAgent *)
Definition replyToAgent (msg : AgentToServer) (requestComponents : bool) : ServerToAgent :=
  mkReply (am_InstanceUid msg) (if requestComponents then ReportAvailableComponents else NoFlag).

(** [leased]: the message is processed under a token lease. *)
(* src/internal/opamp/server.go:509-532 handleAcceptedMessageWithLease *)
Definition handleAcceptedMessageWithLease (msg : AgentToServer) (leased : bool) : M ServerToAgent :=
  let uid := hex_encode (am_InstanceUid msg) in
  match am_AgentDescription msg with
  | Some desc =>
      wr ← handleAgentDescription uid desc msg;
      refreshWorkloadState wr.1 uid leased;;
      recordRemoteConfigStatus wr.1 uid (am_RemoteConfigStatus msg);;
      ret (replyToAgent msg wr.2)
  | None =>
      w ← handleKnownInstanceUpdate uid msg;
      match w with
      | None => ret (reportFullStateReply msg)
      | Some wl =>
          refreshWorkloadState wl uid leased;;
          recordRemoteConfigStatus wl uid (am_RemoteConfigStatus msg);;
          ret (replyToAgent msg false)
      end
  end.

(** ** Sessions *)

(** [MarkOpAMPTokenUsed] succeeded. *)
Definition mark_used (tokenID : string) (t : Time) : M bool :=
  fun s =>
    let (d, r) := OpampTokens.MarkOpAMPTokenUsed token_checks (sv_tokens s)
                    (en_tokenFaults v (sv_tick s)) tokenID t in
    (tick (set_tokens d s), is_ok r).

(** The first message claims the UID; [blocked] is the database call during
    which other goroutines run. The boolean asks for a disconnection. *)
(* src/internal/opamp/server.go:606-651 processSessionMessage *)
Definition processSessionMessage (i : nat) (conn : option nat) (msg : option AgentToServer)
  : M (option ServerToAgent * bool) :=
  e ← gets (fun s => sv_sessions s !! i);
  match e, msg with
  | Some e, Some msg =>
      if negb (Nat.eqb (length (am_InstanceUid msg)) 16) || negb (bool_decide (ss_conn e = conn))
      then ret (None, true)
      else
        let uid := hex_encode (am_InstanceUid msg) in
        owner ← gets (fun s => sv_conns s !! uid);
        if ss_admitted e then
          if (ss_uid e =s uid) && bool_decide (owner = Some i)
          then r ← handleAcceptedMessageWithLease msg true; ret (Some r, false)
          else ret (None, true)
        else if ss_uid e <>s "" then ret (None, true)
        else if bool_decide (is_Some owner) && negb (bool_decide (owner = Some i)) then ret (None, true)
        else
          set_session i (with_uid uid);;
          modify (fun s => set_conns (<[uid := i]> (sv_conns s)) s);;
          if negb (en_store v) then ret (None, true)
          else
            t ← now;
            marked ← mark_used (ss_token e) t;
            blocked;;
            if negb marked then ret (None, true)
            else
              owner' ← gets (fun s => sv_conns s !! uid);
              if negb (bool_decide (owner' = Some i)) then ret (None, true)
              else
                set_session i (with_admitted true);;
                r ← handleAcceptedMessageWithLease msg true;
                ret (Some r, false)
  | _, _ => ret (None, true)
  end.

(** [tokens.Remove], the wait for the leases, [disconnectSessions] and
    [CompleteRemove]: the manager's part is in TokenConnections. *)
(* src/internal/opamp/server.go:1028-1031 disconnectSession *)
Definition disconnectSession (i : nat) : M unit := disconnectSessions [i].

(* src/internal/opamp/server.go:552-604 onSessionMessage *)
Definition onSessionMessage (i : nat) (conn : option nat) (msg : option AgentToServer)
  : M (option ServerToAgent) :=
  ok ← acquire;
  if negb ok then ret None
  else
    terminal ← gets (fun s => default true (ss_terminal <$> sv_sessions s !! i));
    if terminal then ret None
    else
      r ← processSessionMessage i conn msg;
      match r with
      | (_, true) => set_session i with_terminal;; disconnectSession i;; ret None
      | (None, false) => ret None
      | (Some reply, false) =>
          path ← next_reply;
          match path with
          | ReplyRetained => ret (Some reply)
          | ReplySent => emit (EReply i reply);; ret None
          | ReplyFailed => disconnectSession i;; ret None
          end
      end.

(* src/internal/opamp/server.go:653-662 onSessionConnectionClose *)
Definition onSessionConnectionClose (i : nat) : M unit := releaseSession i.

(** ** Authentication *)

Inductive ConnectionResponse := Rejected (status : Z) | Accepted (principal : OpampTokens.OpAMPTokenPrincipal).

(** [auth]: the values of the Authorization header. *)
(* src/internal/opamp/server.go:362-402 authenticateRequest *)
Definition authenticateRequest (auth : list string) : M ConnectionResponse :=
  ok ← beginOperation;
  if negb ok then ret (Rejected 503)
  else match auth with
  | [a] =>
      if negb (HasPrefix a "Bearer ") || Contains a "," then ret (Rejected 401)
      else
        let value := TrimPrefix a "Bearer " in
        if (value =s "") || ContainsAny value [32; 9; 13; 10]%N then ret (Rejected 401)
        else match OpampTokens.ParseAndHash value with
        | None => ret (Rejected 401)
        | Some (id, hash) =>
            if negb (en_store v) then ret (Rejected 503)
            else
              t ← now;
              f ← fault;
              r ← gets (fun s => OpampTokens.ValidateOpAMPToken (sv_tokens s)
                         (match f with IoOk => false | IoFail _ => true end) id hash t);
              match r with
              | Ok p => ret (Accepted p)
              | Err e => if e =s OpampTokens.ErrInvalidOpAMPToken then ret (Rejected 401)
                         else ret (Rejected 503)
              end
        end
  | _ => ret (Rejected 401)
  end.

(* src/internal/opamp/server.go:442-463 beginStop *)
Definition beginStop : M unit :=
  st ← gets sv_stopping;
  if st then ret tt
  else modify set_stopping;; modify (fun s => set_grace (Grace.beginStop (sv_grace s)) s).

(* src/internal/opamp/server.go:166-170 ConnectedInstanceCount *)
Definition ConnectedInstanceCount (s : server) : nat := size (sv_conns s).

(* src/internal/opamp/server.go:179-181 InstanceWorkload *)
Definition InstanceWorkload (s : server) (uid : string) : option string :=
  LookupWorkload (sv_registry s) uid.

End Server.
End OpampServer.
