(* ===== verification/OpampSafety.v ===== *)
(** * What the OpAMP server guarantees

    A weakest-precondition reading of the server monad, a frame theorem on the
    rows of the workload table that every message handler satisfies (proved
    once for any row relation and instantiated twice), the ownership of
    instance UIDs, where pushed configurations can go, and what an automatic
    rollback does. *)

From S2P Require Import Prelude GoString Models PushStatus Registry Grace Sha256 AuditOutbox.
From S2P Require Import OpampTokens Canary Fingerprint Store PushHistory OpampServer.
Import AuditOutbox Registry Fingerprint Sha256 Store.Store PushHistory OpampServer.OpampServer.

Module OpampSafety.
Local Open Scope server_scope.

(** [wp m Q s]: running [m] in [s] ends in a state and value that satisfy [Q]. *)
Definition wp {A} (m : M A) (Q : A -> server -> Prop) (s : server) : Prop :=
  Q (m s).2 (m s).1.

Lemma post_bind {A B} (m : M A) (f : A -> M B) Q s :
  wp m (fun a => wp (f a) Q) s -> wp (bind m f) Q s.
Proof. unfold wp, bind. by destruct (m s). Qed.

Lemma post_mono {A} (m : M A) (Q Q' : A -> server -> Prop) s :
  wp m Q s -> (forall a s', Q a s' -> Q' a s') -> wp m Q' s.
Proof. unfold wp. auto. Qed.

Lemma post_ret {A} (a : A) Q s : Q a s -> wp (ret a) Q s.
Proof. done. Qed.

Lemma wp_gets {A} (f : server -> A) Q s : Q (f s) s -> wp (gets f) Q s.
Proof. done. Qed.

Lemma wp_modify f Q s : Q tt (f s) -> wp (modify f) Q s.
Proof. done. Qed.

Section Frames.
Context `{UnicodeTables} `{TimestampColumn} (v : env).

(** ** A preorder kept by every step

    [keeps R m]: whatever [m] does, the state before and the state after are
    related by [R]. *)
Definition keeps {A} (R : server -> server -> Prop) (m : M A) : Prop := forall s, R s (m s).1.

Section Keeps.
Context (R : server -> server -> Prop) `{!PreOrder R}.

Lemma keeps_ret {A} (a : A) : keeps R (ret a).
Proof. intros s. cbn. reflexivity. Qed.

Lemma keeps_bind {A B} (m : M A) (f : A -> M B) :
  keeps R m -> (forall a, keeps R (f a)) -> keeps R (bind m f).
Proof.
  intros Hm Hf s. unfold bind. specialize (Hm s). destruct (m s) as [s' a].
  etransitivity; [exact Hm|apply Hf].
Qed.

Lemma keeps_gets {A} (f : server -> A) : keeps R (gets f).
Proof. intros s. cbn. reflexivity. Qed.

Lemma keeps_modify f : (forall s, R s (f s)) -> keeps R (modify f).
Proof. intros Hf s. apply Hf. Qed.

Lemma keeps_when b (m : M unit) : keeps R m -> keeps R (when b m).
Proof. destruct b; [done|]. intros _. apply keeps_ret. Qed.

Lemma keeps_if {A} (b : bool) (m m' : M A) : keeps R m -> keeps R m' -> keeps R (if b then m else m').
Proof. by destruct b. Qed.

Context (R_tick : forall s, R s (tick s)).

Lemma keeps_now : keeps R (now v).
Proof. intros s. apply R_tick. Qed.
Lemma keeps_fault : keeps R (fault v).
Proof. intros s. apply R_tick. Qed.
Lemma keeps_acquire : keeps R (acquire v).
Proof. intros s. apply R_tick. Qed.
Lemma keeps_send_result : keeps R (send_result v).
Proof. intros s. apply R_tick. Qed.
Lemma keeps_dbq {A} (q : db -> io -> A) : keeps R (dbq v q).
Proof. intros s. apply R_tick. Qed.

Lemma keeps_dbx {A} (x : db -> io -> db * A) :
  (forall s f, R s (set_db (fun _ => (x (sv_db s) f).1) s)) -> keeps R (dbx v x).
Proof.
  intros Hx s. unfold dbx. specialize (Hx s (en_fault v (sv_tick s))).
  destruct (x (sv_db s) (en_fault v (sv_tick s))). cbn. etransitivity; [exact Hx|apply R_tick].
Qed.

Lemma keeps_registry_op {A} (f : InstanceRegistry -> InstanceRegistry * A) :
  (forall s, R s (set_registry (f (sv_registry s)).1 s)) -> keeps R (registry_op f).
Proof.
  intros Hf s. unfold registry_op. specialize (Hf s). by destruct (f (sv_registry s)).
Qed.

End Keeps.

Lemma bind_gets {A B} (f : server -> A) (k : A -> M B) s : bind (gets f) k s = k (f s) s.
Proof. done. Qed.
Lemma bind_now {B} (k : Time -> M B) s : bind (now v) k s = k (en_clock v (sv_tick s)) (tick s).
Proof. done. Qed.
Lemma bind_fault {B} (k : io -> M B) s : bind (fault v) k s = k (en_fault v (sv_tick s)) (tick s).
Proof. done. Qed.
Lemma bind_dbq {A B} (q : db -> io -> A) (k : A -> M B) s :
  bind (dbq v q) k s = k (q (sv_db s) (en_fault v (sv_tick s))) (tick s).
Proof. done. Qed.
Lemma bind_ret {A B} (a : A) (k : A -> M B) s : bind (ret a) k s = k a s.
Proof. done. Qed.

(** ** Statements that do not touch the workload table *)

Lemma exec_workloads fault ok d d' :
  d_workloads d' = d_workloads d -> d_workloads (exec fault ok d d').1 = d_workloads d.
Proof. intros Hd. destruct (exec_outcomes fault ok d d' _ eq_refl) as [->|[_ ->]]; done. Qed.

Lemma insert_event_workloads d f t e : d_workloads (InsertWorkloadEvent d f t e).1 = d_workloads d.
Proof. unfold InsertWorkloadEvent. by repeat case_match. Qed.
Lemma create_config_workloads d f c : d_workloads (CreateConfig d f c).1 = d_workloads d.
Proof. by apply exec_workloads. Qed.
Lemma record_workloads d f t wc : d_workloads (RecordWorkloadConfig d f t wc).1 = d_workloads d.
Proof. by apply exec_workloads. Qed.
Lemma update_latest_workloads d f wl cfg g : d_workloads (update_latest d f wl cfg g).1 = d_workloads d.
Proof. unfold update_latest. destruct (latest _ _); by apply exec_workloads. Qed.
Lemma instance_status_workloads d f cf t wl cfg uid st msg at_ :
  d_workloads (UpdateWorkloadConfigInstanceStatus d f cf t wl cfg uid st msg at_).1 = d_workloads d.
Proof.
  unfold UpdateWorkloadConfigInstanceStatus.
  destruct f as [|x], (latest d _) as [e|]; cbn zeta; try done;
    try (destruct (Canary.UpdateCanaryTargetStatus _ _ _ _ _ _ _ _); done);
    (destruct (negb _); [done|]);
    (match goal with |- context [exec ?a ?b ?c ?e] =>
       pose proof (exec_workloads a b c e eq_refl) as Hx; destruct (exec a b c e) as [d' err] end);
    (destruct err; [done|]);
    by destruct (Canary.UpdateCanaryTargetStatus _ _ _ _ _ _ _ _).
Qed.

(** ** The rows of the workload table *)

Definition keyed (d : db) : Prop := forall id row, d_workloads d !! id = Some row -> wl_ID row = id.

Section Rows.
(** A preorder on the row of one workload that every kind of write keeps. *)
Context (rel : option Workload -> option Workload -> Prop) `{!PreOrder rel}.
Context (rel_lifecycle : forall a b w, rel (Some w) (Some (set_lifecycle a b None w)))
  (rel_status : forall row st t,
     rel (Some row) (Some (upsert_row (Some row) (with_status st t (read_workload row)))))
  (rel_remote : forall row rs,
     rel (Some row) (Some (upsert_row (Some row) (with_remote_status rs (read_workload row)))))
  (rel_new : forall id fp attrs st t msg act,
     rel None (Some (upsert_row None (described_workload zero_workload id fp attrs st t msg act))))
  (rel_described : forall row id fp attrs st t msg act,
     rel (Some row) (Some (upsert_row (Some row)
       (described_workload (read_workload row) id fp attrs st t msg act))))
  (rel_lost : (forall n, en_fault v n = IoOk) \/
     forall row id fp attrs st t msg act,
       rel (Some row) (Some (upsert_row (Some row)
         (described_workload zero_workload id fp attrs st t msg act)))).

Definition rows (s s' : server) : Prop :=
  keyed (sv_db s) ->
  keyed (sv_db s') /\ forall id, rel (d_workloads (sv_db s) !! id) (d_workloads (sv_db s') !! id).

#[local] Instance rows_preorder : PreOrder rows.
Proof.
  split.
  - intros s Hk. split; [done|]. intros id. reflexivity.
  - intros s1 s2 s3 H12 H23 Hk. destruct (H12 Hk) as [Hk2 Hr2]. destruct (H23 Hk2) as [Hk3 Hr3].
    split; [done|]. intros id. etransitivity; [apply Hr2|apply Hr3].
Qed.

Lemma rows_same s s' : d_workloads (sv_db s') = d_workloads (sv_db s) -> rows s s'.
Proof. intros Hs Hk. unfold keyed. rewrite Hs. split; [done|]. intros id. reflexivity. Qed.

Lemma rows_tick s : rows s (tick s).
Proof. by apply rows_same. Qed.

Lemma rows_dbx_same {A} (x : db -> io -> db * A) :
  (forall d f, d_workloads (x d f).1 = d_workloads d) -> keeps rows (dbx v x).
Proof. intros Hx. apply (keeps_dbx rows rows_tick). intros s f. apply rows_same, Hx. Qed.

Lemma rows_lifecycle strict id a b :
  keeps rows (dbx v (fun d f => update_workload d f strict id (set_lifecycle a b None))).
Proof.
  apply (keeps_dbx rows rows_tick). intros s f Hk. cbn [set_db sv_db].
  apply (update_workload_preserves (fun d' => keyed d' /\ forall i,
    rel (d_workloads (sv_db s) !! i) (d_workloads d' !! i))); [by split|].
  split.
  - intros i row. cbn. destruct (decide (i = id)) as [->|Hne].
    + rewrite lookup_alter_eq. intros (w & Hw & ->)%fmap_Some. exact (Hk id w Hw).
    + rewrite lookup_alter_ne by done. apply Hk.
  - intros i. cbn. destruct (decide (i = id)) as [->|Hne].
    + rewrite lookup_alter_eq. destruct (d_workloads (sv_db s) !! id); [apply rel_lifecycle|reflexivity].
    + by rewrite lookup_alter_ne.
Qed.

(** Writing a row built for its key. *)
Lemma rows_upsert s f w :
  rel (d_workloads (sv_db s) !! wl_ID w) (Some (upsert_row (d_workloads (sv_db s) !! wl_ID w) w)) ->
  rows s (set_db (fun _ => (UpsertWorkload (sv_db s) f w).1) s).
Proof.
  intros Hr Hk. cbn [set_db sv_db]. unfold UpsertWorkload.
  destruct (replaceWorkloadAttributes _ _ _ _); [|by split].
  apply (exec_preserves (fun d' => keyed d' /\ forall i,
    rel (d_workloads (sv_db s) !! i) (d_workloads d' !! i))); [by split|]. intros _. split.
  - intros i row. cbn. intros [[<- <-]|[_ Hi]]%lookup_insert_Some; [done|by apply Hk].
  - intros i. cbn. destruct (decide (i = wl_ID w)) as [->|Hne].
    + by rewrite lookup_insert_eq.
    + by rewrite lookup_insert_ne.
Qed.

Lemma rows_then_upsert {B} s0 s w (k : option string -> M B) :
  d_workloads (sv_db s) = d_workloads (sv_db s0) ->
  (keyed (sv_db s0) -> rel (d_workloads (sv_db s0) !! wl_ID w)
     (Some (upsert_row (d_workloads (sv_db s0) !! wl_ID w) w))) ->
  (forall e, keeps rows (k e)) ->
  rows s0 (bind (dbx v (fun d f => UpsertWorkload d f w)) k s).1.
Proof.
  intros Hs Hr Hkk Hk. rewrite <-Hs in Hr.
  pose proof (rows_upsert s (en_fault v (sv_tick s)) w (Hr Hk)) as Hu.
  unfold bind, dbx. destruct (UpsertWorkload _ _ w) as [d' e]. cbn in Hu. revert Hk.
  change (rows s0 (k e (tick (set_db (fun _ => d') s))).1).
  transitivity s; [by apply rows_same|]. etransitivity; [exact Hu|].
  etransitivity; [|apply Hkk]. by apply rows_same.
Qed.

(** One step of a body: the combinators, the draws, the memory updates. *)
Ltac keep_step :=
  first
    [ apply (keeps_ret rows) | apply (keeps_gets rows) | apply (keeps_bind rows); [|intros ?]
    | apply (keeps_now rows rows_tick) | apply (keeps_fault rows rows_tick)
    | apply (keeps_acquire rows rows_tick) | apply (keeps_send_result rows rows_tick)
    | apply (keeps_dbq rows rows_tick) | apply (keeps_when rows) | apply (keeps_if rows)
    | apply (keeps_modify rows); intros ?; apply rows_same; reflexivity
    | apply (keeps_registry_op rows); intros ?; apply rows_same; reflexivity
    | apply rows_dbx_same; intros;
      first [ apply insert_event_workloads | apply create_config_workloads | apply record_workloads
            | apply update_latest_workloads | apply instance_status_workloads ]
    | apply rows_lifecycle
    | match goal with |- keeps _ (match ?x with _ => _ end) => destruct x end ].
Ltac keep := repeat (auto; keep_step).

(** The bodies of the handlers. *)
Lemma rows_emitEvent e : keeps rows (emitEvent v e).
Proof. unfold emitEvent. keep. Qed.
Hint Resolve rows_emitEvent : core.

Lemma rows_release_owned i : keeps rows (release_owned i).
Proof. intros s. apply rows_same. unfold release_owned. by repeat case_match. Qed.
Hint Resolve rows_release_owned : core.

Lemma rows_releaseSessionOnce i : keeps rows (releaseSessionOnce v i).
Proof. unfold releaseSessionOnce. keep. Qed.
Hint Resolve rows_releaseSessionOnce : core.

Lemma rows_releaseSession i : keeps rows (releaseSession v i).
Proof. unfold releaseSession, set_session. keep. Qed.
Hint Resolve rows_releaseSession : core.

Lemma rows_disconnectSessions l : keeps rows (disconnectSessions v l).
Proof.
  unfold disconnectSessions. induction l as [|i l IH]; simpl; keep.
Qed.
Hint Resolve rows_disconnectSessions : core.

Lemma rows_disconnectAfterSendError i : keeps rows (disconnectSessionAfterSendError v i).
Proof.
  intros s. unfold disconnectSessionAfterSendError.
  destruct (en_drained v (sv_tick s)); [|apply rows_tick].
  etransitivity; [apply rows_tick|apply rows_disconnectSessions].
Qed.
Hint Resolve rows_disconnectAfterSendError : core.

Lemma rows_sendToInstance uid c : keeps rows (sendToInstance v uid c).
Proof. unfold sendToInstance. keep. Qed.
Hint Resolve rows_sendToInstance : core.

Lemma rows_push_one uid c : keeps rows (push_one v uid c).
Proof. unfold push_one. keep. Qed.
Hint Resolve rows_push_one : core.

Lemma rows_push_all uids c e : keeps rows (push_all v uids c e).
Proof. revert e. induction uids as [|u l IH]; intros e; simpl; keep. Qed.
Hint Resolve rows_push_all : core.

Lemma rows_PushConfig wl c t : keeps rows (PushConfig v wl c t).
Proof. unfold PushConfig. keep. Qed.
Hint Resolve rows_PushConfig : core.

Lemma rows_maybeTriggerAutoPush wl uid w l : keeps rows (maybeTriggerAutoPush v wl uid w l).
Proof.
  unfold maybeTriggerAutoPush. keep. induction a as [|x k IH]; simpl; keep.
Qed.
Hint Resolve rows_maybeTriggerAutoPush : core.

Lemma GetWorkload_Ok d f id w :
  GetWorkload d f id = Ok w -> exists row, d_workloads d !! id = Some row /\ w = read_workload row.
Proof. unfold GetWorkload. destruct f; [|done]. destruct (d_workloads d !! id); [|done]. naive_solver. Qed.

Lemma rows_refreshWorkloadState wl uid l : keeps rows (refreshWorkloadState v wl uid l).
Proof.
  unfold refreshWorkloadState. apply (keeps_if rows); [keep|]. intros s.
  rewrite bind_dbq. destruct (GetWorkload _ _ wl) as [w|] eqn:Eg; [|by apply rows_tick].
  apply GetWorkload_Ok in Eg as (row & Hrow & ->). rewrite bind_gets, bind_now.
  apply rows_then_upsert; [done| |intros e; keep].
  intros Hk. cbn. rewrite (Hk wl row Hrow), Hrow. apply rel_status.
Qed.
Hint Resolve rows_refreshWorkloadState : core.

Lemma persist_workloads wl name eff s :
  d_workloads (sv_db (persistEffectiveConfig v wl name eff s).1) = d_workloads (sv_db s).
Proof.
  unfold persistEffectiveConfig. destruct eff as [[files|]|]; [|done..].
  destruct (Nat.eqb _ 0); [done|]. destruct (effective_body files =s ""); [done|].
  rewrite bind_dbq. destruct (GetConfig _ _ _); [done|]. rewrite bind_now. unfold bind, dbx.
  match goal with |- context [CreateConfig ?d ?f ?c] =>
    pose proof (create_config_workloads d f c) as Hc; destruct (CreateConfig d f c) end.
  exact Hc.
Qed.

Lemma rows_upsertFromDescription wl fp attrs msg :
  keeps rows (upsertWorkloadFromDescription v wl fp attrs msg).
Proof.
  unfold upsertWorkloadFromDescription. apply (keeps_if rows); [keep|]. intros s.
  rewrite bind_dbq, bind_gets, bind_now. cbn zeta.
  set (p := GetWorkload (sv_db s) (en_fault v (sv_tick s)) wl).
  unfold bind at 1.
  match goal with |- context [persistEffectiveConfig v wl ?n ?e ?s1] =>
    pose proof (persist_workloads wl n e s1) as Hp;
    destruct (persistEffectiveConfig v wl n e s1) as [s2 cfg] end.
  cbn [fst tick sv_db] in Hp.
  destruct (_ =s ""); [by apply rows_same|].
  apply rows_then_upsert; [done| |intros [e|]; keep]. intros _. cbn [described_workload wl_ID].
  destruct p as [w|] eqn:Eg; subst p.
  - apply GetWorkload_Ok in Eg as (row & -> & ->). apply rel_described.
  - destruct (d_workloads (sv_db s) !! wl) as [row|] eqn:Erow; [|apply rel_new].
    destruct rel_lost as [Hok|Hl]; [|apply Hl]. exfalso.
    unfold GetWorkload in Eg. by rewrite Hok, Erow in Eg.
Qed.
Hint Resolve rows_upsertFromDescription : core.

Lemma rows_handleAgentDescription uid desc msg : keeps rows (handleAgentDescription v uid desc msg).
Proof.
  unfold handleAgentDescription, emitBindEvent, shouldRequestAvailableComponents. keep.
Qed.
Hint Resolve rows_handleAgentDescription : core.

Lemma rows_attemptAutoRollback wl h r : keeps rows (attemptAutoRollback v wl h r).
Proof. unfold attemptAutoRollback. keep. Qed.
Hint Resolve rows_attemptAutoRollback : core.

Lemma rows_then {A B} (m : M A) (k : A -> M B) s0 s :
  rows s0 s -> keeps rows m -> (forall a, keeps rows (k a)) -> rows s0 (bind m k s).1.
Proof. intros Hs Hm Hkk. etransitivity; [exact Hs|]. by apply (keeps_bind rows). Qed.

(** The read of the row and the write of the status over it. *)
Lemma rows_store_status {B} wl snap (k : unit -> M B) :
  (forall a, keeps rows (k a)) ->
  keeps rows (w ← dbq v (fun d f => GetWorkload d f wl);
    (match w with
     | Ok w => _ ← dbx v (fun d f => UpsertWorkload d f (with_remote_status snap w)); ret tt
     | Err _ => ret tt
     end);; k tt).
Proof.
  intros Hkk s. rewrite bind_dbq. destruct (GetWorkload _ _ wl) as [w|] eqn:Eg.
  - apply GetWorkload_Ok in Eg as (row & Hrow & ->).
    unfold bind at 1. pose proof (rows_then_upsert s (tick s) (with_remote_status snap (read_workload row))
      (fun _ => ret tt) eq_refl) as Hu.
    destruct (bind _ (fun _ => ret tt) (tick s)) as [s' u]. etransitivity; [apply Hu|apply Hkk].
    + intros Hk. cbn. rewrite (Hk wl row Hrow), Hrow. apply rel_remote.
    + intros e. keep.
  - rewrite bind_ret. etransitivity; [apply rows_tick|apply Hkk].
Qed.

Lemma rows_handleRemoteConfigStatus wl uid r : keeps rows (handleRemoteConfigStatus v wl uid r).
Proof.
  unfold handleRemoteConfigStatus. cbn zeta. apply (keeps_if rows); [keep|].
  do 9 (apply (keeps_bind rows); [keep|intros ?]). apply (keeps_bind rows); [keep|intros ?].
  apply (rows_store_status wl _ (fun _ => bind (when (en_notifier v) (emit (EConfigStatus wl _)))
    (fun _ => when _ _))). intros ?. keep.
Qed.
Hint Resolve rows_handleRemoteConfigStatus : core.

Lemma rows_handleAccepted msg l : keeps rows (handleAcceptedMessageWithLease v msg l).
Proof.
  unfold handleAcceptedMessageWithLease, recordRemoteConfigStatus, handleKnownInstanceUpdate. keep.
Qed.

End Rows.

(** ** Trusted labels *)

Definition label_of (row : option Workload) (k : string) : option string :=
  match row with Some w => wl_Labels w !! k | None => None end.

Lemma rebuilt_trusted old attrs k : is_trusted k = true -> rebuilt_labels old attrs !! k = old !! k.
Proof.
  intros Hk. unfold rebuilt_labels. rewrite lookup_union_r.
  - destruct (old !! k) as [x|] eqn:E.
    + by apply map_lookup_filter_Some.
    + apply map_lookup_filter_None. by left.
  - apply map_lookup_filter_None. right. intros x _. cbn [fst]. rewrite Hk, andb_false_r. done.
Qed.

Definition no_new_trusted (r r' : option Workload) : Prop :=
  forall k x, is_trusted k = true -> label_of r' k = Some x -> label_of r k = Some x.
Definition trusted_kept (r r' : option Workload) : Prop := no_new_trusted r' r.

#[local] Instance no_new_trusted_preorder : PreOrder no_new_trusted.
Proof. split; [by intros r k x|]. intros r1 r2 r3 H12 H23 k x Hk Hx. by apply H12, H23. Qed.
#[local] Instance trusted_kept_preorder : PreOrder trusted_kept.
Proof. split; [by intros r k x|]. intros r1 r2 r3 H12 H23 k x Hk Hx. by apply (H23 k x Hk), H12. Qed.

Lemma described_label row w id fp attrs st t msg act k :
  is_trusted k = true ->
  label_of (Some (upsert_row row (described_workload w id fp attrs st t msg act))) k = wl_Labels w !! k.
Proof. intros Hk. cbn. by apply rebuilt_trusted. Qed.

Lemma no_new_trusted_handled msg l s :
  keyed (sv_db s) -> forall id,
    no_new_trusted (d_workloads (sv_db s) !! id)
      (d_workloads (sv_db (handleAcceptedMessageWithLease v msg l s).1) !! id).
Proof.
  intros Hk. refine (proj2 (rows_handleAccepted no_new_trusted _ _ _ _ _ _ msg l s Hk)).
  - by intros a b w k x.
  - by intros row st t k x.
  - by intros row rs k x.
  - intros id fp attrs st t m act k x Ht. by rewrite described_label.
  - intros row id fp attrs st t m act k x Ht. by rewrite described_label.
  - right. intros row id fp attrs st t m act k x Ht. by rewrite described_label.
Qed.

Lemma trusted_kept_handled msg l s :
  (forall n, en_fault v n = IoOk) -> keyed (sv_db s) -> forall id,
    trusted_kept (d_workloads (sv_db s) !! id)
      (d_workloads (sv_db (handleAcceptedMessageWithLease v msg l s).1) !! id).
Proof.
  intros Hok Hk. refine (proj2 (rows_handleAccepted trusted_kept _ _ _ _ _ _ msg l s Hk)).
  - by intros a b w k x.
  - by intros row st t k x.
  - by intros row rs k x.
  - by intros id fp attrs st t m act k x.
  - intros row id fp attrs st t m act k x Ht Hx. by rewrite described_label.
  - by left.
Qed.

(** C3: a label that selects push targets (trusted prefix) can never come from
    an agent: whatever attributes a message announces and whatever fails, the
    trusted labels of every workload after the message are among those stored
    before it, and without database failures they are exactly those. *)
Theorem trusted_labels_never_forged msg leased s id k x
    (Hk : keyed (sv_db s)) (Ht : HasPrefix k TrustedSelectorLabelPrefix = true) :
  let s' := (handleAcceptedMessageWithLease v msg leased s).1 in
  (label_of (d_workloads (sv_db s') !! id) k = Some x ->
     label_of (d_workloads (sv_db s) !! id) k = Some x) /\
  ((forall n, en_fault v n = IoOk) -> label_of (d_workloads (sv_db s) !! id) k = Some x ->
     label_of (d_workloads (sv_db s') !! id) k = Some x).
Proof.
  cbv zeta. split.
  - by apply no_new_trusted_handled.
  - intros Hok. by apply trusted_kept_handled.
Qed.

(** ** Archived workloads *)

Definition archive_kept (r r' : option Workload) : Prop :=
  forall w t, r = Some w -> wl_ArchivedAt w = Some t -> stored t = t ->
  exists w', r' = Some w' /\ wl_ArchivedAt w' = Some t.

#[local] Instance archive_kept_preorder : PreOrder archive_kept.
Proof.
  split; [by intros r w t; eauto|].
  intros r1 r2 r3 H12 H23 w t Hw Ht Hs. destruct (H12 w t Hw Ht Hs) as (w2 & Hw2 & Ht2). eauto.
Qed.

(** a message from an agent never unarchives its workload: without database
    failures, a workload archived at some instant is still archived at that
    instant after any description, heartbeat or status report. *)
Theorem reconnect_keeps_archived msg leased s id w t
    (Hok : forall n, en_fault v n = IoOk) (Hk : keyed (sv_db s))
    (Hw : d_workloads (sv_db s) !! id = Some w) (Ha : wl_ArchivedAt w = Some t)
    (Ht : stored t = t) :
  exists w', d_workloads (sv_db (handleAcceptedMessageWithLease v msg leased s).1) !! id = Some w' /\
    wl_ArchivedAt w' = Some t.
Proof.
  assert (forall id, archive_kept (d_workloads (sv_db s) !! id)
    (d_workloads (sv_db (handleAcceptedMessageWithLease v msg leased s).1) !! id)) as Hkept.
  { refine (proj2 (rows_handleAccepted archive_kept _ _ _ _ _ _ msg leased s Hk)).
    - intros a b w0 w1 t1 [= <-] Ha1 _. eauto.
    - intros row st t0 w0 t1 [= <-] Ha1 Hs. eexists. split; [done|]. cbn. rewrite Ha1. cbn. by rewrite Hs.
    - intros row rs w0 t1 [= <-] Ha1 Hs. eexists. split; [done|]. cbn. rewrite Ha1. cbn. by rewrite Hs.
    - by intros i fp attrs st t0 m act w0 t1.
    - intros row i fp attrs st t0 m act w0 t1 [= <-] Ha1 Hs. eexists. split; [done|]. cbn.
      rewrite Ha1. cbn. by rewrite Hs.
    - by left. }
  by apply (Hkept id w t).
Qed.

(** ** Messages of unknown instances *)

(** a message without description from an instance the registry does not
    know changes nothing at all and is answered with the request for a full
    state report. *)
Theorem unknown_instance_asked_for_state msg leased s
    (Hd : am_AgentDescription msg = None)
    (Hu : LookupWorkload (sv_registry s) (hex_encode (am_InstanceUid msg)) = None) :
  handleAcceptedMessageWithLease v msg leased s = (s, mkReply (am_InstanceUid msg) ReportFullState).
Proof.
  unfold handleAcceptedMessageWithLease, handleKnownInstanceUpdate. rewrite Hd.
  unfold bind, gets. by rewrite Hu.
Qed.

(** [keep_with R tick mem]: the combinators and draws of a body, [mem] closing
    the updates of the memory and of the tables. *)
Ltac keep_with R Rtick mem :=
  repeat (auto; first
    [ apply (keeps_ret R) | apply (keeps_gets R) | apply (keeps_bind R); [|intros ?]
    | apply (keeps_now R Rtick) | apply (keeps_fault R Rtick) | apply (keeps_acquire R Rtick)
    | apply (keeps_send_result R Rtick) | apply (keeps_dbq R Rtick)
    | apply (keeps_when R) | apply (keeps_if R)
    | apply (keeps_modify R); intros ?; mem
    | apply (keeps_registry_op R); intros ?; mem
    | apply (keeps_dbx R Rtick); intros ? ?; mem
    | match goal with |- keeps _ (match ?x with _ => _ end) => destruct x end ]).

(** ** Where configurations are sent *)

Definition sent_of (e : effect) : option (string * string) :=
  match e with ESent uid c => Some (uid, c) | _ => None end.
Definition sent (s : server) : list (string * string) := omap sent_of (sv_effects s).

Section Sends.
Context (P : string * string -> Prop).

Definition sends (s s' : server) : Prop := exists l, sent s' = sent s ++ l /\ Forall P l.

#[global] Instance sends_preorder : PreOrder sends.
Proof.
  split.
  - intros s. exists []. by rewrite app_nil_r.
  - intros s1 s2 s3 (l & H12 & Hl) (l' & H23 & Hl'). exists (l ++ l').
    rewrite H23, H12, app_assoc. split; [done|]. by apply Forall_app.
Qed.

Lemma sends_same s s' : sent s' = sent s -> sends s s'.
Proof. intros Hs. exists []. by rewrite Hs, app_nil_r. Qed.

Lemma sends_tick s : sends s (tick s).
Proof. by apply sends_same. Qed.

Ltac mem := apply sends_same; unfold sent; cbn; rewrite ?omap_app; cbn; by rewrite ?app_nil_r.
Ltac keep := keep_with sends sends_tick mem.

Lemma sends_emitEvent e : keeps sends (emitEvent v e).
Proof. unfold emitEvent. keep. Qed.
Hint Resolve sends_emitEvent : core.

Lemma sends_release_owned i : keeps sends (release_owned i).
Proof. intros s. apply sends_same. unfold release_owned. by repeat case_match. Qed.
Hint Resolve sends_release_owned : core.

Lemma sends_disconnectSessions l : keeps sends (disconnectSessions v l).
Proof. unfold disconnectSessions. induction l as [|i l IH]; simpl; keep. Qed.
Hint Resolve sends_disconnectSessions : core.

Lemma sends_disconnectAfterSendError i : keeps sends (disconnectSessionAfterSendError v i).
Proof.
  intros s. unfold disconnectSessionAfterSendError.
  destruct (en_drained v (sv_tick s)); [|apply sends_tick].
  etransitivity; [apply sends_tick|apply sends_disconnectSessions].
Qed.
Hint Resolve sends_disconnectAfterSendError : core.

Lemma sends_push_one uid c : P (uid, c) -> keeps sends (push_one v uid c).
Proof.
  intros Hp. unfold push_one, sendToInstance. keep.
  apply (keeps_modify sends). intros s. exists [(uid, c)]. unfold sent. cbn. rewrite omap_app.
  by split; [|repeat constructor].
Qed.

Lemma sends_push_all uids c e :
  (forall u, u ∈ uids -> P (u, c)) -> keeps sends (push_all v uids c e).
Proof.
  revert e. induction uids as [|u l IH]; intros e Hu; simpl; [apply (keeps_ret sends)|].
  apply (keeps_bind sends); [apply sends_push_one, Hu; by left|]. intros a. apply IH.
  intros u' Hu'. apply Hu. by right.
Qed.

End Sends.

(** Who may receive a push: the target bound to the workload, or its instances. *)
Definition receives (s : server) (wl content target : string) (p : string * string) : Prop :=
  p.2 = content /\
  (target <> "" -> p.1 = target /\ LookupWorkload (sv_registry s) target = Some wl) /\
  (target = "" -> p.1 ∈ map InstanceUID (Instances (sv_registry s) wl)).

Lemma PushConfig_sends wl content target s :
  sends (receives s wl content target) s (PushConfig v wl content target s).1.
Proof.
  unfold PushConfig. destruct (target =s "") eqn:Et; reflect_bools; cbn [negb].
  - subst target. rewrite bind_gets.
    destruct (map InstanceUID (Instances (sv_registry s) wl)) as [|u l] eqn:Ei; [by apply sends_same|].
    apply sends_push_all. intros u' Hu'. unfold receives. cbn. split; [done|].
    split; [done|]. intros _. by rewrite Ei.
  - rewrite bind_gets. destruct (LookupWorkload (sv_registry s) target) as [bound|] eqn:El;
      [|by apply sends_same].
    destruct (bound <>s wl) eqn:Eb; reflect_bools; [by apply sends_same|]. subst bound.
    apply sends_push_one. unfold receives. cbn. naive_solver.
Qed.

(** A successful send leaves one record and no disconnection. *)
Lemma push_one_ok uid c s s' :
  push_one v uid c s = (s', None) -> sent s' = sent s ++ [(uid, c)].
Proof.
  unfold push_one, sendToInstance. destruct (valid_uid uid); [|done].
  unfold bind, gets. destruct (sv_conns s !! uid); [|done]. unfold acquire, send_result.
  destruct (negb _); [done|]. destruct (en_send v _); [|].
  - destruct (disconnectSessionAfterSendError _ _ _). done.
  - intros [= <-]. unfold sent, emit, modify. cbn. by rewrite omap_app.
Qed.

Lemma push_all_ok uids c e s s' :
  push_all v uids c e s = (s', None) -> e = None /\ sent s' = sent s ++ map (fun u => (u, c)) uids.
Proof.
  revert e s. induction uids as [|u l IH]; intros e s; simpl.
  - intros [= <- ->]. by rewrite app_nil_r.
  - unfold bind. destruct (push_one v u c s) as [s1 e1] eqn:E1. intros Hr.
    apply IH in Hr as [He Hs]. destruct e; [done|]. subst e1. apply push_one_ok in E1.
    split; [done|]. rewrite Hs, E1, <-app_assoc. done.
Qed.

(** a push reaches only the workload it is for: with a target, only that
    instance and only if it is bound to the workload; without one, only
    connected instances of the workload; always with exactly the given
    content; and a broadcast that reports success reached every instance. *)
Theorem push_reaches_only_its_workload wl content target s :
  let (s', err) := PushConfig v wl content target s in
  exists l, sent s' = sent s ++ l /\ Forall (receives s wl content target) l /\
    (err = None -> target = "" ->
       l = map (fun u => (u, content)) (map InstanceUID (Instances (sv_registry s) wl)) /\ l <> []).
Proof.
  pose proof (PushConfig_sends wl content target s) as (l & Hl & Hp).
  destruct (PushConfig v wl content target s) as [s' err] eqn:E. cbn in Hl. exists l.
  split; [done|]. split; [done|]. intros -> ->. unfold PushConfig in E. cbn [String.eqb negb] in E.
  rewrite bind_gets in E. destruct (map InstanceUID (Instances (sv_registry s) wl)) as [|u k]; [done|].
  apply push_all_ok in E as [_ Hs]. rewrite Hl in Hs. apply app_inv_head in Hs as ->. done.
Qed.

(** ** Automatic rollback *)

Lemma sends_weaken (P Q : string * string -> Prop) s s' :
  (forall p, P p -> Q p) -> sends P s s' -> sends Q s s'.
Proof. intros HPQ (l & Hl & HP). exists l. split; [done|]. by eapply Forall_impl. Qed.

(** What a rollback may send. *)
Definition rolls_back (s : server) (wl failed : string) (p : string * string) : Prop :=
  exists faults t target, GetRollbackTarget (sv_db s) faults t wl failed = Ok (Some target) /\
    wc_ConfigID (rt_Config target) <> failed /\ p.2 = wc_Content (rt_Config target) /\ p.2 <> "" /\
    p.1 ∈ map InstanceUID (Instances (sv_registry s) wl).

(** an automatic rollback only ever sends the content of the resolved
    rollback target, which is not the failed config and not empty, and only to
    connected instances of the workload that failed. *)
Theorem auto_rollback_sends_target_only wl failed reason s :
  sends (rolls_back s wl failed) s (attemptAutoRollback v wl failed reason s).1.
Proof.
  unfold attemptAutoRollback. rewrite !bind_fault, bind_now, bind_dbq.
  destruct (GetRollbackTarget _ _ _ wl failed) as [[target|]|] eqn:Et; [|by apply sends_same..].
  destruct (_ =s failed) eqn:Ef; [by apply sends_same|].
  destruct (wc_Content _ =s "") eqn:Ec; [by apply sends_same|]. reflect_bools.
  set (s1 := tick (tick (tick (tick s)))).
  assert (forall p, receives s1 wl (wc_Content (rt_Config target)) "" p -> rolls_back s wl failed p) as Hw.
  { intros [u c] (Hc & _ & Hu). cbn in Hc, Hu. subst c. eexists _, _, target.
    split; [exact Et|]. cbn. repeat (split; [done|]). by apply Hu. }
  pose proof (sends_weaken _ _ _ _ Hw (PushConfig_sends wl (wc_Content (rt_Config target)) "" s1)) as Hs.
  unfold bind at 1. destruct (PushConfig v wl _ "" s1) as [s2 e]. cbn in Hs.
  assert (sends (rolls_back s wl failed) s s2) as Hs' by exact Hs. clear Hs.
  destruct e as [e|]; [exact Hs'|].
  assert (forall m : M unit, keeps (sends (rolls_back s wl failed)) m -> sends (rolls_back s wl failed) s (m s2).1)
    as Hthen by (intros m Hm; etransitivity; [exact Hs'|apply Hm]).
  apply Hthen.
  keep_with (sends (rolls_back s wl failed)) (sends_tick (rolls_back s wl failed))
    ltac:(apply sends_same; unfold sent; cbn; rewrite ?omap_app; cbn; by rewrite ?app_nil_r).
Qed.

(** The status a recorded rollback is left with: the mark of the send replaces
    the status it was recorded under. *)
Lemma rollback_status_overwritten d wl failed target t t' insts
    (Hw : is_Some (d_workloads d !! wl)) (Hc : is_Some (d_configs d !! wc_ConfigID target))
    (Ht : IsZero t = false)
    (Hnew : forall at_ r, d_pushes d !! (wl, wc_ConfigID target, at_) = Some r -> (at_ < stored t)%Z) :
  let d1 := (RecordWorkloadConfig d IoOk t (rollback_record wl failed target t insts)).1 in
  let d2 := (MarkWorkloadConfigSent d1 IoOk wl (wc_ConfigID target) t').1 in
  (pr_status <$> d_pushes d1 !! (wl, wc_ConfigID target, stored t)) = Some "rollback_started" /\
  (pr_status <$> d_pushes d2 !! (wl, wc_ConfigID target, stored t)) = Some "sent".
Proof.
  cbv zeta. unfold RecordWorkloadConfig. cbn [rollback_record wc_AppliedAt wc_WorkloadID wc_ConfigID].
  rewrite Ht. set (k := (wl, wc_ConfigID target, stored t)). set (row := new_push_row _ t).
  assert (push_constraints d k row = true) as ->.
  { unfold push_constraints. rewrite !andb_true_iff, !bool_decide_eq_true. repeat split; try done.
    destruct (d_pushes d !! k) as [r|] eqn:E; [|done]. apply Hnew in E. lia. }
  cbn [exec negb fst]. set (d1 := set_pushes (insert k row) d).
  assert (d_pushes d1 !! k = Some row) as Hk by apply lookup_insert_eq.
  split; [by rewrite Hk|]. unfold MarkWorkloadConfigSent, update_latest.
  destruct (latest d1 (of_push wl (wc_ConfigID target))) as [e|] eqn:El.
  - apply latest_Some in El as (He & Hew & Hmax). apply of_push_spec in Hew as [Hw1 Hw2].
    assert (e.1 = k) as ->.
    { cbn in He. apply lookup_insert_Some in He as [[Hk1 _]|[Hne He]]; [done|]. exfalso.
      specialize (Hmax (k, row) Hk (proj2 (of_push_spec _ _ _) (conj eq_refl eq_refl))).
      destruct e as [[[w c] a] r]. cbn in *. subst w c. apply Hnew in He. unfold e_applied_at in Hmax.
      cbn in Hmax. lia. }
    cbn. by rewrite lookup_insert_eq.
  - exfalso. rewrite latest_None in El. specialize (El (k, row) Hk).
    by rewrite (proj2 (of_push_spec wl (wc_ConfigID target) (k, row)) (conj eq_refl eq_refl)) in El.
Qed.

End Frames.

(** ** Witnesses *)

#[local] Existing Instance byte_tables.
#[local] Existing Instance microseconds.

Definition calm : env :=
  mkEnv true true 0 (fun _ => 1000000%Z) (fun _ => IoOk) (fun _ => OpampTokens.no_faults)
    (fun _ => true) (fun _ => None) (fun _ => ReplySent) (fun _ => true) (fun _ s => s).

Definition sample_uid : list N := repeat 7%N 16.
Definition selector : string := TrustedSelectorLabelPrefix +:+ "env".
Definition kv (k x : string) : option KeyValue := Some (mkKeyValue k (Some (StringValue x))).

(** An agent that announces a trusted label of its own. *)
Definition forging : AgentToServer :=
  mkAgentToServer sample_uid
    (Some (mkDescription [kv "host.name" "h1"; kv selector "dev"] [kv "service.name" "otelcol"]))
    0 None None None None.

Definition sample_id : string :=
  Eval vm_compute in fp_ID (Fingerprint {["host.name" := "h1"; "service.name" := "otelcol"]} "").

Definition archived_row : Workload :=
  mkWorkload sample_id "host" ∅ "api" "collector" "" "disconnected" 1000
    {[selector := "prod"]} None "" None None None true (Some 5000%Z) (Some 5000%Z).

Definition sample_server : server :=
  mkServer (mkDb {[sample_id := archived_row]} ∅ [] 1 ∅ ∅ ∅ ∅)
    (OpampTokens.mkDB ∅ ∅) NewInstanceRegistry Grace.NewGraceController
    {[hex_encode sample_uid := 0]}
    {[0 := mkSess "t" (Some 1) (hex_encode sample_uid) true false false false]}
    false [] [] 0.

Lemma sample_keyed : keyed (sv_db sample_server).
Proof. intros id row. cbn. by intros [<- <-]%lookup_singleton_Some. Qed.

Lemma trusted_labels_never_forged_witness :
  label_of (d_workloads (sv_db (handleAcceptedMessageWithLease calm forging true sample_server).1)
    !! sample_id) selector = Some "prod".
Proof.
  apply (trusted_labels_never_forged calm forging true sample_server sample_id selector "prod"
    sample_keyed); [vm_compute; reflexivity|done|vm_compute; reflexivity].
Defined.

Lemma reconnect_keeps_archived_witness :
  exists w', d_workloads (sv_db (handleAcceptedMessageWithLease calm forging true sample_server).1)
    !! sample_id = Some w' /\ wl_ArchivedAt w' = Some 5000%Z.
Proof.
  apply (reconnect_keeps_archived calm forging true sample_server sample_id archived_row 5000);
    [done|exact sample_keyed|vm_compute; reflexivity|reflexivity|reflexivity].
Defined.

Lemma unknown_instance_asked_for_state_witness :
  let beat := mkAgentToServer sample_uid None 0 (Some true) None None None in
  handleAcceptedMessageWithLease calm beat true sample_server =
    (sample_server, mkReply sample_uid ReportFullState).
Proof.
  intros beat. apply (unknown_instance_asked_for_state calm beat true sample_server); reflexivity.
Defined.

(** One failed read is enough to lose the fields managed elsewhere: the row is
    rebuilt as if the workload were new. *)
Definition one_failed_read : env :=
  mkEnv true true 0 (fun _ => 1000000%Z) (fun n => if Nat.eqb n 2 then IoFail false else IoOk)
    (fun _ => OpampTokens.no_faults)
    (fun _ => true) (fun _ => None) (fun _ => ReplySent) (fun _ => true) (fun _ s => s).

Lemma failed_read_drops_trusted_labels :
  label_of (d_workloads (sv_db sample_server) !! sample_id) selector = Some "prod" /\
  label_of (d_workloads (sv_db (handleAcceptedMessageWithLease one_failed_read forging true
    sample_server).1) !! sample_id) selector = None /\
  is_Some (d_workloads (sv_db (handleAcceptedMessageWithLease one_failed_read forging true
    sample_server).1) !! sample_id).
Proof. split; [|split]; vm_compute; [reflexivity|reflexivity|eauto]. Qed.

End OpampSafety.
