(* ===== verification/OpampSessions.v ===== *)
(** * Who owns an instance UID, and who may connect

    The first message of an authenticated session claims an instance UID; until
    that session ends no other session can claim it, speak for it, or unbind
    it. The invariant relates the connection table, the sessions and the
    instance registry; it is kept by every message and every way a session
    ends, whatever other goroutines do meanwhile as long as they keep it too.
    The last part decides which HTTP requests may open a session at all. *)

From S2P Require Import Prelude GoString Models PushStatus Registry Grace Sha256 AuditOutbox.
From S2P Require Import OpampTokens Fingerprint Store PushHistory OpampServer OpampSafety.
Import AuditOutbox Registry Fingerprint Sha256 Store.Store PushHistory OpampServer.OpampServer
  OpampSafety.OpampSafety.

Module OpampSessions.
Local Open Scope server_scope.

(** The connection table and the UIDs of the sessions are inverse to each
    other, admitted sessions have a UID, and every bound instance belongs to a
    named workload and to a connected session. *)
Record owned (s : server) : Prop := {
  ow_conn : forall uid i, sv_conns s !! uid = Some i ->
    uid <> "" /\ exists e, sv_sessions s !! i = Some e /\ ss_uid e = uid;
  ow_session : forall i e, sv_sessions s !! i = Some e -> ss_uid e <> "" ->
    sv_conns s !! ss_uid e = Some i;
  ow_admitted : forall i e, sv_sessions s !! i = Some e -> ss_admitted e = true -> ss_uid e <> "";
  ow_bound : forall uid wl, LookupWorkload (sv_registry s) uid = Some wl ->
    wl <> "" /\ is_Some (sv_conns s !! uid)
}.

Section Sessions.
Context `{UnicodeTables} `{TimestampColumn} {uuid : UuidLib}
  (token_checks : string -> OpampTokens.token_row -> bool) (v : env).

Definition keeps_owned (s s' : server) : Prop := owned s -> owned s'.

#[local] Instance keeps_owned_preorder : PreOrder keeps_owned.
Proof. split; [intros s Hs; exact Hs|]. intros s1 s2 s3 H12 H23 H1'. by apply H23, H12. Qed.

Lemma owned_same s s' :
  sv_conns s' = sv_conns s -> sv_sessions s' = sv_sessions s ->
  uidToWL (sv_registry s') = uidToWL (sv_registry s) -> keeps_owned s s'.
Proof.
  intros Hc Hs Hr [H1' H2' H3' H4']. unfold LookupWorkload in H4'.
  split; unfold LookupWorkload; rewrite ?Hc, ?Hs, ?Hr; done.
Qed.

Lemma owned_tick s : keeps_owned s (tick s).
Proof. by apply owned_same. Qed.

(** Changing a session without touching its UID or its admission. *)
Lemma owned_alter i (f : session -> session) s :
  (forall e, ss_uid (f e) = ss_uid e /\ ss_admitted (f e) = ss_admitted e) ->
  keeps_owned s (set_sessions (alter f i (sv_sessions s)) s).
Proof.
  intros Hf [H1' H2' H3' H4']. split; cbn.
  - intros uid j Hj. destruct (H1' uid j Hj) as [Hne (e & He & Hu)]. split; [done|].
    destruct (decide (i = j)) as [->|Hij].
    + exists (f e). rewrite lookup_alter_eq, He. split; [done|]. by rewrite (proj1 (Hf e)).
    + exists e. by rewrite lookup_alter_ne.
  - intros j e He. destruct (decide (i = j)) as [->|Hij].
    + rewrite lookup_alter_eq in He. apply fmap_Some in He as (e0 & He0 & ->).
      rewrite (proj1 (Hf e0)). by apply H2'.
    + rewrite lookup_alter_ne in He by done. by apply H2'.
  - intros j e He. destruct (decide (i = j)) as [->|Hij].
    + rewrite lookup_alter_eq in He. apply fmap_Some in He as (e0 & He0 & ->).
      destruct (Hf e0) as [-> ->]. by apply (H3' j).
    + rewrite lookup_alter_ne in He by done. by apply (H3' j).
  - done.
Qed.

Lemma UnbindInstance_lookup r uid u :
  LookupWorkload (UnbindInstance r uid).1 u =
  if (u =s uid) && (default "" (uidToWL r !! uid) <>s "") then None else LookupWorkload r u.
Proof.
  unfold UnbindInstance, LookupWorkload. destruct (default "" (uidToWL r !! uid) =s "") eqn:E; cbn.
  - by rewrite andb_false_r.
  - rewrite andb_true_r. destruct (u =s uid) eqn:Eu; reflect_bools.
    + subst u. by rewrite lookup_delete_eq.
    + by rewrite lookup_delete_ne.
Qed.

(** Ending a session drops its claim and its binding together. *)
Lemma owned_release i : keeps keeps_owned (release_owned i).
Proof.
  intros s Ho. unfold release_owned. destruct (_ || _) eqn:E; [done|]. reflect_bools.
  set (uid := uid_of s i) in *.
  pose proof (UnbindInstance_lookup (sv_registry s) uid) as Hl.
  destruct (UnbindInstance (sv_registry s) uid) as [r wl]. cbn in Hl |- *.
  assert (sv_conns s !! uid = Some i) as Hi by done. destruct Ho as [H1' H2' H3' H4'].
  destruct (H1' uid i Hi) as [Hne (e0 & He0 & Hu0)].
  split; cbn.
  - intros u j. intros [Hu Hj]%lookup_delete_Some. destruct (H1' u j Hj) as [? (e & He & Hue)].
    split; [done|]. exists e. rewrite lookup_alter_ne; [done|]. intros ->. congruence.
  - intros j e He. destruct (decide (i = j)) as [->|Hij].
    + rewrite lookup_alter_eq in He. apply fmap_Some in He as (e1 & _ & ->). done.
    + rewrite lookup_alter_ne in He by done. intros Hue. specialize (H2' j e He Hue).
      rewrite lookup_delete_ne; [done|]. intros Heq. rewrite <-Heq in H2'. congruence.
  - intros j e He. destruct (decide (i = j)) as [->|Hij].
    + rewrite lookup_alter_eq in He. apply fmap_Some in He as (e1 & _ & ->). done.
    + rewrite lookup_alter_ne in He by done. by apply (H3' j).
  - intros u w. rewrite Hl. destruct (u =s uid) eqn:Eu; reflect_bools; cbn [andb].
    + subst u. destruct (_ <>s "") eqn:Ed; [done|]. intros Hw. exfalso.
      reflect_bools. unfold LookupWorkload in Hw. rewrite Hw in Ed. cbn in Ed.
      destruct (H4' uid w Hw). done.
    + intros Hw. destruct (H4' u w Hw). by rewrite lookup_delete_ne.
Qed.

Hint Resolve owned_release : core.

Ltac mem :=
  first [ apply owned_same; reflexivity
        | apply owned_alter; intros; split; reflexivity ].
Ltac keep :=
  repeat (auto; first
    [ apply (keeps_ret keeps_owned) | apply (keeps_gets keeps_owned)
    | apply (keeps_bind keeps_owned); [|intros ?]
    | apply (keeps_now v keeps_owned owned_tick) | apply (keeps_fault v keeps_owned owned_tick)
    | apply (keeps_acquire v keeps_owned owned_tick)
    | apply (keeps_send_result v keeps_owned owned_tick)
    | apply (keeps_dbq v keeps_owned owned_tick)
    | apply (keeps_when keeps_owned) | apply (keeps_if keeps_owned)
    | apply (keeps_modify keeps_owned); intros ?; mem
    | apply (keeps_dbx v keeps_owned owned_tick); intros ? ?; mem
    | match goal with |- keeps _ (match ?x with _ => _ end) => destruct x end ]).

Lemma owned_emitEvent e : keeps keeps_owned (emitEvent v e).
Proof. unfold emitEvent. keep. Qed.
Hint Resolve owned_emitEvent : core.

Lemma owned_releaseSession i : keeps keeps_owned (releaseSession v i).
Proof. unfold releaseSession, set_session, releaseSessionOnce. keep. Qed.
Hint Resolve owned_releaseSession : core.

Lemma owned_disconnectSessions l : keeps keeps_owned (disconnectSessions v l).
Proof. unfold disconnectSessions. induction l as [|i l IH]; simpl; keep. Qed.
Hint Resolve owned_disconnectSessions : core.

Lemma owned_disconnectAfterSendError i : keeps keeps_owned (disconnectSessionAfterSendError v i).
Proof.
  intros s. unfold disconnectSessionAfterSendError.
  destruct (en_drained v (sv_tick s)); [|apply owned_tick].
  etransitivity; [apply owned_tick|apply owned_disconnectSessions].
Qed.
Hint Resolve owned_disconnectAfterSendError : core.

Lemma owned_push_all uids c e : keeps keeps_owned (push_all v uids c e).
Proof.
  revert e. induction uids as [|u l IH]; intros e; simpl; keep.
Qed.
Hint Resolve owned_push_all : core.

Lemma owned_PushConfig wl c t : keeps keeps_owned (PushConfig v wl c t).
Proof. unfold PushConfig, push_one, sendToInstance. keep. Qed.
Hint Resolve owned_PushConfig : core.

Lemma owned_maybeTriggerAutoPush wl uid w l : keeps keeps_owned (maybeTriggerAutoPush v wl uid w l).
Proof. unfold maybeTriggerAutoPush. keep. induction a as [|x k IH]; simpl; keep. Qed.
Hint Resolve owned_maybeTriggerAutoPush : core.

Lemma owned_refresh wl uid l : keeps keeps_owned (refreshWorkloadState v wl uid l).
Proof. unfold refreshWorkloadState. keep. Qed.
Hint Resolve owned_refresh : core.

Lemma UpdateInstance_index r uid f t : uidToWL (UpdateInstance r uid f t).1 = uidToWL r.
Proof. unfold UpdateInstance. by repeat case_match. Qed.

Lemma alias_push_index r uid snap : uidToWL (alias_push r uid snap) = uidToWL r.
Proof. unfold alias_push. by case_match. Qed.

Lemma owned_update {A} uid f t (g : bool -> A) :
  keeps keeps_owned (registry_op (fun r => UpdateInstance r uid f t)).
Proof.
  apply (keeps_registry_op keeps_owned). intros s. apply owned_same; [done..|].
  apply UpdateInstance_index.
Qed.

Lemma owned_handleRemoteConfigStatus wl uid r : keeps keeps_owned (handleRemoteConfigStatus v wl uid r).
Proof.
  unfold handleRemoteConfigStatus, attemptAutoRollback. cbn zeta. apply (keeps_if keeps_owned); [keep|].
  do 2 (apply (keeps_bind keeps_owned); [keep|intros ?]).
  apply (keeps_bind keeps_owned); [apply (owned_update _ _ _ id)|intros ?].
  do 6 (apply (keeps_bind keeps_owned); [keep|intros ?]).
  apply (keeps_bind keeps_owned); [|intros ?; keep].
  apply (keeps_modify keeps_owned). intros s. apply owned_same; [done..|]. apply alias_push_index.
Qed.
Hint Resolve owned_handleRemoteConfigStatus : core.

Lemma owned_upsertFromDescription wl fp attrs msg :
  keeps keeps_owned (upsertWorkloadFromDescription v wl fp attrs msg).
Proof. unfold upsertWorkloadFromDescription, persistEffectiveConfig. keep. Qed.
Hint Resolve owned_upsertFromDescription : core.

Lemma Fingerprint_named attrs uid : fp_ID (Fingerprint attrs uid) <> "".
Proof.
  intros He. assert (String.length (fp_ID (Fingerprint attrs uid)) = 24) as Hl.
  { unfold Fingerprint. repeat case_match; apply hash24_length. }
  by rewrite He in Hl.
Qed.

Lemma owned_bind uid wl ins t1 t2 s :
  wl <> "" -> is_Some (sv_conns s !! uid) ->
  keeps_owned s (set_registry (BindInstance (sv_registry s) uid wl ins t1 t2).1 s).
Proof.
  intros Hwl Hc [H1' H2' H3' H4']. split; cbn; try done.
  intros u w. unfold LookupWorkload. cbn.
  intros [[<- <-]|[Hne Hw]]%lookup_insert_Some; [done|]. by apply H4'.
Qed.

(** A description binds only an instance whose UID is claimed. *)
Lemma owned_handleAgentDescription uid desc msg s :
  is_Some (sv_conns s !! uid) -> keeps_owned s (handleAgentDescription v uid desc msg s).1.
Proof.
  intros Hc. unfold handleAgentDescription. cbn zeta. rewrite bind_gets, !bind_now.
  unfold bind at 1, registry_op. cbn [tick sv_registry].
  match goal with |- context [BindInstance ?r uid ?w ?i ?a ?b] =>
    pose proof (owned_bind uid w i a b (tick (tick s)) (Fingerprint_named _ _) Hc) as Hb;
    cbn [tick sv_registry] in Hb; destruct (BindInstance r uid w i a b) as [r' fresh] end.
  cbn [fst] in Hb.
  assert (forall m : M (string * bool), keeps keeps_owned m ->
    keeps_owned s (m (set_registry r' (tick (tick s)))).1) as Hthen.
  { intros m Hm. transitivity (tick (tick s)); [by apply owned_same|].
    etransitivity; [exact Hb|apply Hm]. }
  apply Hthen. unfold emitBindEvent, shouldRequestAvailableComponents. keep.
Qed.

Lemma owned_handleAccepted msg l s :
  is_Some (sv_conns s !! hex_encode (am_InstanceUid msg)) ->
  keeps_owned s (handleAcceptedMessageWithLease v msg l s).1.
Proof.
  intros Hc. unfold handleAcceptedMessageWithLease.
  destruct (am_AgentDescription msg) as [desc|].
  - pose proof (owned_handleAgentDescription _ desc msg s Hc) as Hd. unfold bind at 1.
    destruct (handleAgentDescription v _ desc msg s) as [s1 wr]. cbn in Hd.
    transitivity s1; [exact Hd|]. refine (keeps_bind keeps_owned _ _ _ _ s1); [keep|].
    intros ?. unfold recordRemoteConfigStatus. keep.
  - revert s Hc. intros s _. unfold handleKnownInstanceUpdate, recordRemoteConfigStatus.
    refine (keeps_bind keeps_owned _ _ _ _ s); [keep; apply (owned_update _ _ _ id)|intros ?; keep].
Qed.

(** ** One message *)

Section Rely.
(** What other goroutines do during the database call keeps the invariant. *)
Context (rely : forall n s, owned s -> owned (en_other v n s)).

Lemma owned_blocked : keeps keeps_owned (blocked v).
Proof. intros s Ho. unfold blocked. cbn. apply owned_tick. by apply rely. Qed.

(** Claiming a free UID. *)
Lemma owned_claim i uid s e :
  sv_sessions s !! i = Some e -> ss_uid e = "" -> ss_admitted e = false -> uid <> "" ->
  (forall j, sv_conns s !! uid = Some j -> j = i) ->
  keeps_owned s (set_conns (<[uid := i]> (sv_conns s))
    (set_sessions (alter (with_uid uid) i (sv_sessions s)) s)).
Proof.
  intros He Hu Ha Hne Hfree [H1' H2' H3' H4']. split; cbn.
  - intros u j [[<- <-]|[Huu Hj]]%lookup_insert_Some.
    + split; [done|]. exists (with_uid uid e). by rewrite lookup_alter_eq, He.
    + destruct (H1' u j Hj) as [? (e' & He' & Hue)]. split; [done|]. exists e'.
      rewrite lookup_alter_ne; [done|]. intros ->. congruence.
  - intros j e' He'. destruct (decide (i = j)) as [->|Hij].
    + rewrite lookup_alter_eq, He in He'. injection He' as <-. cbn. by rewrite lookup_insert_eq.
    + rewrite lookup_alter_ne in He' by done. intros Hue. specialize (H2' j e' He' Hue).
      rewrite lookup_insert_ne; [done|]. intros ->. apply Hij. symmetry. by apply Hfree.
  - intros j e' He'. destruct (decide (i = j)) as [->|Hij].
    + rewrite lookup_alter_eq, He in He'. by injection He' as <-.
    + rewrite lookup_alter_ne in He' by done. by apply (H3' j).
  - intros u w Hw. destruct (H4' u w Hw) as [? ?]. split; [done|].
    destruct (decide (u = uid)) as [->|Hne']; [rewrite lookup_insert_eq; eauto|].
    by rewrite lookup_insert_ne.
Qed.

Lemma owned_admit i uid s :
  sv_conns s !! uid = Some i ->
  keeps_owned s (set_sessions (alter (with_admitted true) i (sv_sessions s)) s).
Proof.
  intros Hi [H1' H2' H3' H4']. destruct (H1' uid i Hi) as [Hne (e0 & He0 & Hu0)]. split; cbn.
  - intros u j Hj. destruct (H1' u j Hj) as [? (e & He & Hue)]. split; [done|].
    destruct (decide (i = j)) as [->|Hij].
    + exists (with_admitted true e). by rewrite lookup_alter_eq, He.
    + exists e. by rewrite lookup_alter_ne.
  - intros j e He. destruct (decide (i = j)) as [->|Hij].
    + rewrite lookup_alter_eq in He. apply fmap_Some in He as (e1 & He1 & ->). exact (H2' j e1 He1).
    + rewrite lookup_alter_ne in He by done. by apply H2'.
  - intros j e He. destruct (decide (i = j)) as [->|Hij].
    + rewrite lookup_alter_eq in He. apply fmap_Some in He as (e1 & He1 & ->). intros _. cbn. congruence.
    + rewrite lookup_alter_ne in He by done. by apply (H3' j).
  - done.
Qed.

Lemma hex_uid_named raw : length raw = 16 -> hex_encode raw <> "".
Proof. destruct raw; [done|]. by intros _. Qed.

(** The admission after the claim. *)
Lemma owned_admission i uid token msg :
  uid = hex_encode (am_InstanceUid msg) ->
  keeps keeps_owned (t ← now v;
    marked ← mark_used token_checks v token t;
    blocked v;;
    if negb marked then ret (None, true)
    else
      owner' ← gets (fun s => sv_conns s !! uid);
      if negb (bool_decide (owner' = Some i)) then ret (None, true)
      else
        set_session i (with_admitted true);;
        r ← handleAcceptedMessageWithLease v msg true;
        ret (Some r, false)).
Proof.
  intros ->. apply (keeps_bind keeps_owned); [keep|intros t].
  apply (keeps_bind keeps_owned); [|intros marked].
  { intros s. unfold mark_used. destruct (OpampTokens.MarkOpAMPTokenUsed _ _ _ _ _).
    by apply owned_same. }
  apply (keeps_bind keeps_owned); [apply owned_blocked|intros _].
  apply (keeps_if keeps_owned); [keep|]. intros s. rewrite bind_gets.
  destruct (negb _) eqn:Eo; [done|]. reflect_bools. unfold bind at 1, set_session, modify.
  transitivity (set_sessions (alter (with_admitted true) i (sv_sessions s)) s);
    [by eapply owned_admit|].
  set (s1 := set_sessions _ s). pose proof (owned_handleAccepted msg true s1) as Hh.
  unfold bind. destruct (handleAcceptedMessageWithLease v msg true s1) as [s2 r]. apply Hh. eauto.
Qed.

Lemma owned_process i conn msg : keeps keeps_owned (processSessionMessage token_checks v i conn msg).
Proof.
  intros s. unfold processSessionMessage. rewrite bind_gets.
  destruct (sv_sessions s !! i) as [e|] eqn:He; [|done]. destruct msg as [msg|]; [|done].
  destruct (_ || _) eqn:El; [done|]. reflect_bools. rewrite bind_gets.
  set (uid := hex_encode (am_InstanceUid msg)).
  assert (uid <> "") as Hne by by apply hex_uid_named.
  destruct (ss_admitted e) eqn:Ea.
  - destruct (_ && _) eqn:Eo; [|done]. reflect_bools.
    pose proof (owned_handleAccepted msg true s) as Hh. unfold bind.
    destruct (handleAcceptedMessageWithLease v msg true s) as [s2 r]. apply Hh. eauto.
  - destruct (ss_uid e <>s "") eqn:Eu; [done|]. destruct (_ && _) eqn:Eo; [done|]. reflect_bools.
    assert (forall j, sv_conns s !! uid = Some j -> j = i) as Hfree.
    { intros j Hj. rewrite Hj, bool_decide_true in Eo by eauto. cbn in Eo.
      apply negb_false_iff, bool_decide_eq_true in Eo. congruence. }
    unfold bind at 1 2, set_session, modify.
    transitivity (set_conns (<[uid := i]> (sv_conns s))
      (set_sessions (alter (with_uid uid) i (sv_sessions s)) s)); [by eapply owned_claim|].
    cbn [sv_conns set_sessions]. destruct (negb (en_store v)); [done|].
    by apply owned_admission.
Qed.
Hint Resolve owned_process : core.

(** C15: the ownership of instance UIDs is kept by every message of every
    session, by every disconnection and by every close, as long as concurrent
    goroutines keep it: no two sessions share a UID, an admitted session owns
    its UID, and an instance stays bound only while a session owns its UID. *)
Theorem ownership_invariant i conn msg l s
    (Hs : owned s) :
  owned (onSessionMessage token_checks v i conn msg s).1 /\
  owned (onSessionConnectionClose v i s).1 /\ owned (disconnectSessions v l s).1.
Proof.
  split; [|split].
  - revert s Hs. change (keeps keeps_owned (onSessionMessage token_checks v i conn msg)).
    unfold onSessionMessage, disconnectSession. keep.
  - by apply owned_releaseSession.
  - by apply owned_disconnectSessions.
Qed.

End Rely.

(** ** Intruders and late closes *)

(** The session that owns a UID. *)
Definition owner (s : server) (uid : string) : option nat := sv_conns s !! uid.

(** a session cannot speak for a UID another session owns: its message is
    refused with a disconnection and nothing else changes, whether the session
    is new, claimed another UID, or was admitted. *)
Theorem foreign_uid_refused i j conn msg s
    (Hi : owner s (hex_encode (am_InstanceUid msg)) = Some i) (Hij : i <> j) :
  processSessionMessage token_checks v j conn (Some msg) s = (s, (None, true)).
Proof.
  unfold owner in Hi.
  unfold processSessionMessage. rewrite bind_gets. destruct (sv_sessions s !! j) as [e|]; [|done].
  destruct (_ || _); [done|]. rewrite bind_gets, Hi.
  rewrite (bool_decide_false (Some i = Some j)) by congruence.
  destruct (ss_admitted e); [by rewrite andb_false_r|]. destruct (ss_uid e <>s ""); [done|].
  by rewrite bool_decide_true by eauto.
Qed.

Definition still_owns (uid : string) (i : nat) (s s' : server) : Prop :=
  sv_conns s !! uid = Some i ->
  sv_conns s' !! uid = Some i /\
  LookupWorkload (sv_registry s') uid = LookupWorkload (sv_registry s) uid.

#[local] Instance still_owns_preorder uid i : PreOrder (still_owns uid i).
Proof.
  split; [by intros s|]. intros s1 s2 s3 H12 H23 Hi. destruct (H12 Hi) as [Hi2 He2].
  destruct (H23 Hi2) as [? He3]. split; [done|]. by rewrite He3.
Qed.

Lemma still_owns_release uid i j : i <> j -> keeps (still_owns uid i) (release_owned j).
Proof.
  intros Hij s Hi. unfold release_owned. destruct (_ || _) eqn:E; [done|]. reflect_bools.
  set (u := uid_of s j) in *. assert (uid <> u) as Hne by congruence.
  pose proof (UnbindInstance_lookup (sv_registry s) u uid) as Hl.
  destruct (UnbindInstance (sv_registry s) u) as [r wl]. cbn in Hl |- *.
  rewrite lookup_delete_ne by congruence. split; [done|]. rewrite Hl.
  apply String.eqb_neq in Hne. by rewrite Hne.
Qed.

Lemma still_owns_same uid i s s' :
  sv_conns s' = sv_conns s -> sv_registry s' = sv_registry s -> still_owns uid i s s'.
Proof. intros Hc Hr Hi. by rewrite Hc, Hr. Qed.

(** a late close never unbinds a newer session: closing or releasing any
    other session leaves the owner of a UID and the binding of its instance
    as they are. *)
Theorem late_close_is_harmless uid i j s
    (Hi : sv_conns s !! uid = Some i) (Hij : i <> j) :
  let s' := (onSessionConnectionClose v j s).1 in
  sv_conns s' !! uid = Some i /\
  LookupWorkload (sv_registry s') uid = LookupWorkload (sv_registry s) uid.
Proof.
  cbv zeta. revert Hi. change (still_owns uid i s (onSessionConnectionClose v j s).1). revert s.
  change (keeps (still_owns uid i) (onSessionConnectionClose v j)).
  assert (forall s, still_owns uid i s (tick s)) as Ht by (intros s; by apply still_owns_same).
  unfold onSessionConnectionClose, releaseSession, releaseSessionOnce, emitEvent, set_session.
  repeat first
    [ apply (still_owns_release uid i j Hij)
    | apply (keeps_ret (still_owns uid i)) | apply (keeps_gets (still_owns uid i))
    | apply (keeps_bind (still_owns uid i)); [|intros ?]
    | apply (keeps_now v (still_owns uid i) Ht) | apply (keeps_when (still_owns uid i))
    | apply (keeps_if (still_owns uid i))
    | apply (keeps_modify (still_owns uid i)); intros ?; apply still_owns_same; reflexivity
    | apply (keeps_dbx v (still_owns uid i) Ht); intros ? ?; apply still_owns_same; reflexivity
    | match goal with |- keeps _ (match ?x with _ => _ end) => destruct x end ].
Qed.

(** ** Opening a session *)

Definition bearer (auth : list string) : option string :=
  match auth with
  | [a] => if negb (HasPrefix a "Bearer ") || Contains a "," then None
           else let value := TrimPrefix a "Bearer " in
                if (value =s "") || ContainsAny value [32; 9; 13; 10]%N then None else Some value
  | _ => None
  end.

(** a connection is accepted only with exactly one well-formed bearer value
    whose token validates at the time of the request; every malformed or
    invalid credential is answered 401, a stopping server or an unreadable
    token store 503; and deciding changes nothing of the server's state. *)
Theorem authentication_outcome auth s :
  let (s', r) := authenticateRequest v auth s in
  sv_conns s' = sv_conns s /\ sv_registry s' = sv_registry s /\ sv_db s' = sv_db s /\
  sv_tokens s' = sv_tokens s /\ sv_sessions s' = sv_sessions s /\
  match r with
  | Accepted p => sv_stopping s = false /\ exists value id hash now f,
      bearer auth = Some value /\ OpampTokens.ParseAndHash value = Some (id, hash) /\
      OpampTokens.ValidateOpAMPToken (sv_tokens s) f id hash now = Ok p
  | Rejected code =>
      (code = 401%Z /\ sv_stopping s = false /\
        (bearer auth = None \/
         exists value, bearer auth = Some value /\
           (OpampTokens.ParseAndHash value = None \/
            exists id hash now f, OpampTokens.ParseAndHash value = Some (id, hash) /\
              OpampTokens.ValidateOpAMPToken (sv_tokens s) f id hash now =
                Err OpampTokens.ErrInvalidOpAMPToken))) \/
      (code = 503%Z /\
        (sv_stopping s = true \/ en_store v = false \/
         exists id hash now f e, OpampTokens.ValidateOpAMPToken (sv_tokens s) f id hash now = Err e /\
           e <> OpampTokens.ErrInvalidOpAMPToken))
  end.
Proof.
  unfold authenticateRequest, beginOperation. rewrite bind_gets.
  destruct (sv_stopping s) eqn:Est; cbn [negb]; [repeat (split; [done|]); right; auto|].
  destruct auth as [|a [|b l]]; [repeat (split; [done|]); left; auto| |repeat (split; [done|]); left; auto].
  cbn [bearer]. destruct (_ || Contains a ",") eqn:E1; [repeat (split; [done|]); left; auto|].
  cbn zeta. destruct (_ || ContainsAny _ _) eqn:E2; [repeat (split; [done|]); left; auto|].
  destruct (OpampTokens.ParseAndHash _) as [[id hash]|] eqn:Ep;
    [|repeat (split; [done|]); left; split; [done|]; split; [done|]; right; eauto].
  destruct (en_store v) eqn:Es; cbn [negb]; [|repeat (split; [done|]); right; auto].
  rewrite bind_now, bind_fault, bind_gets.
  destruct (OpampTokens.ValidateOpAMPToken _ _ id hash _) as [p|e] eqn:Ev.
  - repeat (split; [done|]). eexists _, id, hash, _, _. eauto.
  - destruct (e =s _) eqn:Ee; reflect_bools; repeat (split; [done|]).
    + left. split; [done|]. split; [done|]. right. eexists. split; [done|]. right.
      subst e. eexists _, _, _, _. eauto.
    + right. split; [done|]. right. right. eexists _, _, _, _, e. eauto.
Qed.

End Sessions.

(** ** Witnesses *)

#[local] Existing Instance byte_tables.
#[local] Existing Instance microseconds.
#[local] Existing Instance canonical_uuid.

Lemma sample_owned : owned sample_server.
Proof.
  split.
  - intros uid i. change (sv_conns sample_server) with ({[hex_encode sample_uid := 0]} : gmap string nat).
    intros [<- <-]%lookup_singleton_Some. split; [done|]. eexists.
    split; [apply lookup_singleton_eq|done].
  - intros i e. change (sv_sessions sample_server !! i) with
      (({[0 := mkSess "t" (Some 1) (hex_encode sample_uid) true false false false]} : gmap nat session) !! i).
    intros [<- <-]%lookup_singleton_Some _. apply lookup_singleton_eq.
  - intros i e. change (sv_sessions sample_server !! i) with
      (({[0 := mkSess "t" (Some 1) (hex_encode sample_uid) true false false false]} : gmap nat session) !! i).
    by intros [<- <-]%lookup_singleton_Some.
  - intros uid wl. unfold LookupWorkload. cbn. by rewrite lookup_empty.
Qed.

Lemma ownership_invariant_witness :
  owned (onSessionMessage (fun _ _ => true) calm 0 (Some 1) (Some forging) sample_server).1.
Proof.
  exact (proj1 (ownership_invariant (fun _ _ => true) calm (fun _ s Hs => Hs) 0 (Some 1)
    (Some forging) [] sample_server sample_owned)).
Defined.

Lemma foreign_uid_refused_witness :
  processSessionMessage (fun _ _ => true) calm 3 None (Some forging) sample_server =
    (sample_server, (None, true)).
Proof.
  apply (foreign_uid_refused (fun _ _ => true) calm 0 3); [|done].
  apply lookup_singleton_eq.
Defined.

Lemma late_close_is_harmless_witness :
  sv_conns (onSessionConnectionClose calm 3 sample_server).1 !! hex_encode sample_uid = Some 0.
Proof.
  apply (late_close_is_harmless calm (hex_encode sample_uid) 0 3 sample_server); [|done].
  apply lookup_singleton_eq.
Defined.

End OpampSessions.
