(* ===== verification/Yaml.v ===== *)
(** * Parsed documents and floating-point numbers

    The dynamic values [yaml.Unmarshal] stores in an [any], shared by the policy
    engine and the handlers that call it, with the binary64 arithmetic and the
    decimal parser ([strconv.ParseFloat]) used on them. The YAML parser itself
    (gopkg.in/yaml.v3) is a parameter. *)

From Stdlib Require Import SpecFloat.
From S2P Require Import Prelude GoString Validator.
Import Validator.

Module Yaml.

(** ** float64 *)

Notation float64 := spec_float.

Definition float_prec : Z := 53.
Definition float_emax : Z := 1024.

(** [float64(x)] of an integer: round to nearest, ties to even. *)
Definition of_int (x : Z) : float64 := binary_normalize float_prec float_emax x 0 false.
Definition flt (x y : float64) : bool := SFltb x y.
Definition feq (x y : float64) : bool := SFeqb x y.

(** Go's literals 0, 0.1 and 100. *)
Definition f_zero : float64 := S754_zero false.
Definition f_tenth : float64 := S754_finite false 7205759403792794 (-56).
Definition f_hundred : float64 := S754_finite false 7036874417766400 (-46).

Example f_tenth_ok : SFdiv float_prec float_emax (of_int 1) (of_int 10) = f_tenth.
Proof. reflexivity. Qed.
Example f_hundred_ok : of_int 100 = f_hundred.
Proof. reflexivity. Qed.

(** ** strconv.ParseFloat(s, 64) *)

(** An optional sign. *)
Definition take_sign (s : string) : bool * bool * string :=
  match s with
  | String "+" r => (false, true, r)
  | String "-" r => (true, true, r)
  | _ => (false, false, s)
  end.

(** Infinities carry an optional sign; NaN does not. *)
Definition special (s : string) : option float64 :=
  let '(neg, signed, r) := take_sign s in
  let l := map_str lower_char r in
  if (l =s "inf") || (l =s "infinity") then Some (S754_infinity neg)
  else if negb signed && (l =s "nan") then Some S754_nan
  else None.

Definition digit_of (hex : bool) (c : ascii) : option Z :=
  if is_digit c then Some (Z.of_N (code c) - 48)%Z
  else
    let n := code (lower_char c) in
    if hex && (97 <=? n)%N && (n <=? 102)%N then Some (Z.of_N n - 87)%Z else None.

(** The mantissa: its digits as one number, how many of them follow the point,
    whether any was seen, and what is left. *)
Fixpoint scan_mantissa (hex : bool) (s : string) (m frac : Z) (sawdot sawdigits : bool)
  : Z * Z * bool * string :=
  match s with
  | EmptyString => (m, frac, sawdigits, s)
  | String c r =>
      if Ascii.eqb c "_" then scan_mantissa hex r m frac sawdot sawdigits
      else if Ascii.eqb c "." then
        if sawdot then (m, frac, sawdigits, s) else scan_mantissa hex r m frac true sawdigits
      else
        match digit_of hex c with
        | Some d => scan_mantissa hex r (m * (if hex then 16 else 10) + d)
                      (if sawdot then frac + 1 else frac) sawdot true
        | None => (m, frac, sawdigits, s)
        end
  end.

(** The digits of the exponent, capped as the scanner caps them. *)
Fixpoint scan_exponent (s : string) (e : Z) : Z * string :=
  match s with
  | EmptyString => (e, s)
  | String c r =>
      if Ascii.eqb c "_" then scan_exponent r e
      else if is_digit c
      then scan_exponent r (if e <? 10000 then e * 10 + (Z.of_N (code c) - 48) else e)%Z
      else (e, s)
  end.

(** Underscores separate digits only; a base prefix counts as a digit. *)
Inductive before := Start | Digit | Underscore | Other.
Fixpoint underscore_scan (hex : bool) (b : before) (s : string) : bool :=
  match s with
  | EmptyString => match b with Underscore => false | _ => true end
  | String c r =>
      match digit_of hex c with
      | Some _ => underscore_scan hex Digit r
      | None =>
          if Ascii.eqb c "_"
          then match b with Digit => underscore_scan hex Underscore r | _ => false end
          else match b with Underscore => false | _ => underscore_scan hex Other r end
      end
  end.
Definition base_prefix (s : string) : option ascii :=
  match s with
  | String "0" (String c _) =>
      let l := lower_char c in
      if Ascii.eqb l "b" || Ascii.eqb l "o" || Ascii.eqb l "x" then Some l else None
  | _ => None
  end.
Definition underscoreOK (s : string) : bool :=
  let '(_, _, r) := take_sign s in
  match base_prefix r with
  | Some l => underscore_scan (Ascii.eqb l "x") Digit (drop_str 2 r)
  | None => underscore_scan false Start r
  end.

(** [(-1)^neg * m * 10^e], or [* 2^e] for a hexadecimal mantissa, rounded once. *)
Definition round_scaled (neg hex : bool) (m e : Z) : float64 :=
  match m with
  | Zpos p =>
      if hex then binary_normalize float_prec float_emax (if neg then Zneg p else Zpos p) e neg
      else if (0 <=? e)%Z
      then binary_normalize float_prec float_emax ((if neg then Zneg p else Zpos p) * 10 ^ e) 0 neg
      else SFdiv float_prec float_emax (S754_finite neg p 0) (S754_finite false (Z.to_pos (10 ^ (- e))) 0)
  | _ => S754_zero neg
  end.

Definition read_float (s : string) : option float64 :=
  let '(neg, _, r) := take_sign s in
  let hex := match base_prefix r with Some l => Ascii.eqb l "x" | None => false end in
  let '(m, frac, sawdigits, r) := scan_mantissa hex (if hex then drop_str 2 r else r) 0 0 false false in
  if negb sawdigits then None
  else
    let finish (e : Z) (rest : string) :=
      if (rest <>s "") || negb (underscoreOK s) then None
      else match round_scaled neg hex m (if hex then e - 4 * frac else e - frac)%Z with
           | S754_infinity _ => None
           | f => Some f
           end in
    match r with
    | String c r' =>
        if Ascii.eqb (lower_char c) (if hex then "p" else "e")%char then
          let '(eneg, _, r') := take_sign r' in
          match r' with
          | String d _ =>
              if is_digit d
              then let '(e, rest) := scan_exponent r' 0 in finish (if eneg then (- e)%Z else e) rest
              else None
          | EmptyString => None
          end
        else None
    | EmptyString => if hex then None else finish 0%Z ""
    end.

Definition ParseFloat (s : string) : option float64 :=
  match special s with Some f => Some f | None => read_float s end.

Example parse_tenth : ParseFloat "0.1" = Some f_tenth.
Proof. vm_compute. reflexivity. Qed.
Example parse_hundred : ParseFloat "1_0.0e+1" = Some f_hundred.
Proof. vm_compute. reflexivity. Qed.
Example parse_hex : ParseFloat "0x1.9p2" = Some (S754_finite false 7036874417766400 (-50)).
Proof. vm_compute. reflexivity. Qed.
Example parse_nan : ParseFloat "NaN" = Some S754_nan.
Proof. vm_compute. reflexivity. Qed.
Example parse_overflow : ParseFloat "1e400" = None.
Proof. vm_compute. reflexivity. Qed.
Example parse_words : ParseFloat "ten" = None /\ ParseFloat "" = None /\ ParseFloat "_1" = None.
Proof. vm_compute. done. Qed.

(** ** strings.EqualFold(s, t) for an ASCII [t] *)

(** The letters s and k have one more spelling under simple case folding: U+017F
    and U+212A. *)
Definition long_s : string := bytes [197; 191]%N.
Definition kelvin : string := bytes [226; 132; 170]%N.
Fixpoint EqualFold (s t : string) {struct t} : bool :=
  match t with
  | EmptyString => s =s ""
  | String c t' =>
      let l := lower_char c in
      if Ascii.eqb l "s" && HasPrefix s long_s then EqualFold (drop_str 2 s) t'
      else if Ascii.eqb l "k" && HasPrefix s kelvin then EqualFold (drop_str 3 s) t'
      else
        match s with
        | String d s' => Ascii.eqb (lower_char d) l && EqualFold s' t'
        | EmptyString => false
        end
  end.

(** ** Values *)

(** The dynamic types yaml.v3 produces: an integer beyond the signed range is a
    [uint64], a timestamp a [time.Time] (here the text encoding/json prints for it),
    and a mapping with a key that is not a string a [map[any]any]. *)
Inductive value :=
| VNull | VBool (b : bool) | VInt (z : Z) | VFloat (f : float64) | VStr (s : string)
| VList (l : list value) | VMap (m : gmap string value)
| VUint (z : Z) | VTime (rfc3339 : string) | VAnyMap (l : list (value * value)).

(** yaml.Unmarshal into a [map[string]any]: an error, a nil map or a map. *)
Class YamlDoc := { yaml_document : string -> result (option (gmap string value)) }.

(** The validator decodes the same documents and only tells strings, lists and
    maps apart. *)
Fixpoint to_yaml (v : value) : yaml :=
  match v with
  | VStr s => YStr s
  | VList l => YList (map to_yaml l)
  | VMap m => YMap (to_yaml <$> m)
  | _ => YOther
  end.

#[export] Instance yaml_lib `{YamlDoc} : YamlLib :=
  {| yaml_unmarshal := fun s =>
       match yaml_document s with
       | Ok doc => Ok (fmap (M := option) (fmap to_yaml) doc)
       | Err e => Err e
       end |}.

(** The type assertions [x.(map[string]any)] and [x.(string)], with the zero
    value when they fail. *)
Definition as_map (v : option value) : gmap string value :=
  match v with Some (VMap m) => m | _ => ∅ end.
Definition as_str (v : option value) : string :=
  match v with Some (VStr s) => s | _ => "" end.

(** ** Induction on values *)

Fixpoint vsize (v : value) : nat :=
  match v with
  | VList l => S (foldr (fun x n => vsize x + n) 0 l)
  | VMap m => S (map_fold (fun _ x n => vsize x + n) 0 m)
  | _ => 1
  end.

Lemma vsize_list l x : x ∈ l -> vsize x < vsize (VList l).
Proof.
  cbn [vsize]. induction 1 as [x l|x y l _ IH]; cbn [foldr]; lia.
Qed.

Lemma vsize_map m k x : m !! k = Some x -> vsize x < vsize (VMap m).
Proof.
  cbn [vsize]. intros Hk. rewrite <- (insert_delete_id m k x Hk).
  rewrite map_fold_insert_L; [lia| |apply lookup_delete_eq].
  intros ? ? ? ? ? _ _ _. lia.
Qed.

Lemma value_induction (P : value -> Prop) :
  (forall l, (forall x, x ∈ l -> P x) -> P (VList l)) ->
  (forall m, (forall k x, m !! k = Some x -> P x) -> P (VMap m)) ->
  (forall v, (forall l, v <> VList l) -> (forall m, v <> VMap m) -> P v) ->
  forall v, P v.
Proof.
  intros Hl Hm Ho v. remember (vsize v) as n eqn:En. revert v En.
  induction n as [n IH] using lt_wf_ind. intros v ->.
  destruct v; try (apply Ho; discriminate).
  - apply Hl. intros x Hx. by apply (IH (vsize x)); [apply vsize_list|].
  - apply Hm. intros k x Hx. by apply (IH (vsize x)); [apply (vsize_map _ k)|].
Qed.

(** A disjunction folded over a map. *)
Lemma map_fold_orb (p : string -> value -> bool) (m : gmap string value) :
  map_fold (fun k x acc => acc || p k x) false m = true <->
  exists k x, m !! k = Some x /\ p k x = true.
Proof.
  apply (map_fold_weak_ind (fun b m => b = true <-> exists k x, m !! k = Some x /\ p k x = true)).
  - split; [done|]. intros (k & x & Hk & _). by rewrite lookup_empty in Hk.
  - intros k x m' b Hk IH. rewrite orb_true_iff, IH. split.
    + intros [(k' & x' & Hk' & Hp)|Hp]; [|by exists k, x; rewrite lookup_insert_eq].
      exists k', x'. rewrite lookup_insert_ne; [done|]. congruence.
    + intros (k' & x' & Hk' & Hp). apply lookup_insert_Some in Hk' as [[<- <-]|[_ Hk']]; [by right|].
      left. eauto.
Qed.

End Yaml.
