(* ===== verification/ConfigPolicy.v ===== *)
(** * The config policy engine (internal/configpolicy, pkg/models/config_policy.go)

    The safety rules a candidate collector configuration must satisfy before it
    is pushed. The YAML parser, the host extraction of net/url and the [%.4g]
    rendering of a message are parameters; a parsed document is a tree of
    dynamic values. Go iterates the map of the two TLS sections in an order it
    does not fix: the order is an argument of the engine. *)

From Stdlib Require Import SpecFloat.
From S2P Require Import Prelude GoString Models Validator Yaml.
Import Yaml.

Module ConfigPolicy.

Definition PolicyDecisionPass := "pass".
Definition PolicyDecisionWarn := "warn".
Definition PolicyDecisionBlock := "block".
Definition PolicySeverityInfo := "info".
Definition PolicySeverityWarning := "warning".
Definition PolicySeverityCritical := "critical".

(* src/pkg/models/config_policy.go:22-28 ConfigPolicyTarget *)
Record PolicyTarget := mkTarget {
  pt_Environment : string; pt_Scope : string; pt_WorkloadID : string; pt_TenantID : string;
  pt_TeamID : string
}.

(* src/pkg/models/config_policy.go:40-43 SamplingPolicySettings *)
Record SamplingPolicySettings := mkSampling { sp_MinPercentage : float64; sp_MaxPercentage : float64 }.

(* src/pkg/models/config_policy.go:32-37 ConfigPolicySettings *)
Record PolicySettings := mkSettings {
  st_AllowedOTLPEndpoints : list string; st_CriticalExporters : list string;
  st_RequiredResourceAttributes : list string; st_Sampling : SamplingPolicySettings
}.

(* src/pkg/models/config_policy.go:47-62 ConfigPolicyFinding *)
Record Finding := mkFinding {
  fi_PolicyID : string; fi_PolicyName : string; fi_RuleID : string; fi_RuleCode : string;
  fi_Severity : string; fi_Decision : string; fi_TargetScope : string; fi_Environment : string;
  fi_Path : string; fi_Paths : list string; fi_Message : string; fi_Remediation : string;
  fi_Packaging : string; fi_Tier : string
}.

(* src/pkg/models/config_policy.go:81-85 ConfigPolicySummary *)
Record Summary := mkSummary { su_PassCount : nat; su_WarnCount : nat; su_BlockCount : nat }.

(** [SchemaVersion] and [Audit] are the same constants in every evaluation and
    left out. *)
(* src/pkg/models/config_policy.go:67-78 ConfigPolicyEvaluation *)
Record EvaluationResult := mkEvaluation {
  ev_Valid : bool; ev_Allowed : bool; ev_Decision : string; ev_Severity : string;
  ev_Target : PolicyTarget; ev_Settings : PolicySettings; ev_Findings : list Finding;
  ev_Summary : Summary
}.

(* src/internal/configpolicy/engine.go:41-46 EvaluationRequest *)
Record EvaluationRequest := mkRequest {
  rq_CurrentYAML : string; rq_CandidateYAML : string; rq_Target : PolicyTarget;
  rq_Settings : PolicySettings
}.

(** The parts of the standard library that stay parameters: [Hostname] of a
    parsed URL ([None]: the URL does not parse), and a number under [%.4g]. *)
Class NetURL := { url_hostname : string -> option string }.
Class FloatFormat := { fmt_4g : float64 -> string }.

(** ** Reading a document *)

(* src/internal/configpolicy/engine.go:152-161 parseConfig *)
Definition parseConfig `{YamlDoc} (raw : string) : result (gmap string value) :=
  match yaml_document raw with
  | Err e => Err e
  | Ok root => Ok (default ∅ root)
  end.

(* src/internal/configpolicy/engine.go:168-173 section *)
Definition section (root : gmap string value) (name : string) : gmap string value :=
  as_map (root !! name).

(* src/internal/configpolicy/engine.go:413-415 componentBase *)
Definition componentBase (id : string) : string := before_char (TrimSpace id) "/"%char.

(* src/internal/configpolicy/engine.go:175-182 hasTopLevelComponent *)
Definition hasTopLevelComponent (root : gmap string value) (category componentType : string) : bool :=
  existsb (fun id => componentBase id =s componentType) (sorted_keys (section root category)).

(* src/internal/configpolicy/engine.go:184-190 pipelines *)
Definition pipelines (root : gmap string value) : gmap string value :=
  as_map (section root "service" !! "pipelines").

(* src/internal/configpolicy/engine.go:389-402 toAnySlice *)
Definition toAnySlice (v : option value) : list value :=
  match v with Some (VList l) => l | _ => [] end.

(* src/internal/configpolicy/engine.go:379-387 toStringSlice *)
Definition toStringSlice (v : option value) : list string :=
  omap (fun item => match item with VStr s => Some s | _ => None end) (toAnySlice v).

(* src/internal/configpolicy/engine.go:404-411 containsComponentType *)
Definition containsComponentType (ids : list string) (componentType : string) : bool :=
  existsb (fun id => componentBase id =s componentType) ids.

(* src/internal/configpolicy/engine.go:417-433 number *)
Definition number (v : option value) : option float64 :=
  match v with
  | Some (VInt x) => Some (of_int x)
  | Some (VFloat x) => Some x
  | Some (VStr x) => ParseFloat x
  | _ => None
  end.

(** ** Findings *)

(* src/internal/configpolicy/engine.go:146-148 finding *)
Definition finding (rule name severity decision : string) (target : PolicyTarget)
  (path message remediation : string) : Finding :=
  mkFinding rule name rule rule severity decision (pt_Scope target) (pt_Environment target)
    path [path] message remediation "community" "core".

(* src/internal/configpolicy/engine.go:192-201 missingBatchFindings *)
Definition missingBatchFindings (root : gmap string value) (target : PolicyTarget) : list Finding :=
  omap (fun name =>
    let pipeline := as_map (pipelines root !! name) in
    if containsComponentType (toStringSlice (pipeline !! "processors")) "batch" then None
    else Some (finding "community.pipelines.batch.required" "Batch processor required"
      PolicySeverityCritical PolicyDecisionBlock target
      ("service.pipelines." +:+ name +:+ ".processors")
      "service pipeline must include a batch processor"
      "Add batch to the processor chain for this pipeline.")) (sorted_keys (pipelines root)).

(* src/internal/configpolicy/engine.go:215-236 hasInsecureTrue *)
Fixpoint hasInsecureTrue (v : value) : bool :=
  match v with
  | VMap x =>
      map_fold (fun k child acc =>
        acc || (EqualFold k "insecure" && match child with VBool b => b | _ => false end
                || hasInsecureTrue child)) false x
  | VList x => existsb hasInsecureTrue x
  | _ => false
  end.

(** The findings of one of the two sections. *)
Definition insecure_in (root : gmap string value) (target : PolicyTarget) (category : string)
  : list Finding :=
  let comps := section root category in
  omap (fun id =>
    if match comps !! id with Some v => hasInsecureTrue v | None => false end
    then Some (finding "community.production.insecure_tls" "Forbid insecure TLS in production"
      PolicySeverityCritical PolicyDecisionBlock target (category +:+ "." +:+ id +:+ ".tls.insecure")
      "insecure: true is not allowed for production targets"
      "Disable insecure TLS or target a non-production environment.")
    else None) (sorted_keys comps).

(* src/internal/configpolicy/engine.go:203-213 insecureTLSFindings *)
Definition insecureTLSFindings (exportersFirst : bool) (root : gmap string value) (target : PolicyTarget)
  : list Finding :=
  let e := insecure_in root target "exporters" in
  let r := insecure_in root target "receivers" in
  if exportersFirst then e ++ r else r ++ e.

Section Engine.
Context `{UnicodeTables} {netURL : NetURL} {floatFormat : FloatFormat} {yamlDoc : YamlDoc}.

(* src/internal/configpolicy/engine.go:163-166 isProduction *)
Definition isProduction (env : string) : bool :=
  let env := ToLower (TrimSpace env) in
  (env =s "prod") || (env =s "production").

(* src/internal/configpolicy/engine.go:277-290 endpointHost *)
Definition endpointHost (endpoint : string) : string :=
  let raw := TrimSpace endpoint in
  if raw =s "" then ""
  else
    let raw := if Contains raw "://" then raw else "scheme://" +:+ raw in
    match url_hostname raw with
    | None => ""
    | Some host => if host =s "" then "" else ToLower host
    end.

(* src/internal/configpolicy/engine.go:257-275 endpointAllowed *)
Definition endpointAllowed (endpoint : string) (allowlist : list string) : bool :=
  let host := endpointHost endpoint in
  if host =s "" then false
  else existsb (fun allowed =>
    let allowed := endpointHost allowed in
    if allowed =s "" then false
    else (host =s allowed) || HasSuffix host ("." +:+ allowed)) allowlist.

(* src/internal/configpolicy/engine.go:238-255 otlpEndpointFindings *)
Definition otlpEndpointFindings (root : gmap string value) (target : PolicyTarget)
  (allowlist : list string) : list Finding :=
  match allowlist with
  | [] => []
  | _ =>
      omap (fun id =>
        if (componentBase id <>s "otlp") && (componentBase id <>s "otlphttp") then None
        else
          let comp := as_map (section root "exporters" !! id) in
          let endpoint := as_str (comp !! "endpoint") in
          if (TrimSpace endpoint =s "") || endpointAllowed endpoint allowlist then None
          else Some (finding "community.exporters.otlp_endpoint.allowlist" "OTLP endpoint allowlist"
            PolicySeverityCritical PolicyDecisionBlock target ("exporters." +:+ id +:+ ".endpoint")
            "OTLP exporter endpoint is outside the configured allowlist"
            "Add the endpoint host to server-side policy settings or use an approved collector gateway."))
        (sorted_keys (section root "exporters"))
  end.

(** The trimmed, non-empty names that must be set, and the keys the resource
    processors set. *)
Definition required_attrs (attrs : list string) : list string :=
  List.filter (fun a => a <>s "") (map TrimSpace attrs).
Definition resource_keys (root : gmap string value) : list string :=
  flat_map (fun id =>
    if componentBase id <>s "resource" then []
    else map (fun item => as_str (as_map (Some item) !! "key"))
           (toAnySlice (as_map (section root "processors" !! id) !! "attributes")))
    (sorted_keys (section root "processors")).

(* src/internal/configpolicy/engine.go:292-324 resourceIdentityFindings *)
Definition resourceIdentityFindings (root : gmap string value) (target : PolicyTarget)
  (requiredAttrs : list string) : list Finding :=
  if forallb (fun a => existsb (String.eqb a) (resource_keys root)) (required_attrs requiredAttrs)
  then []
  else [finding "community.resource.attributes.required" "Resource attributes required"
    PolicySeverityCritical PolicyDecisionBlock target "processors.resource.attributes"
    "resource processor is missing required identity attributes"
    "Add a resource processor that upserts the required attributes."].

(** One percentage outside of the range. *)
Definition sampling_finding (target : PolicyTarget) (minP maxP : float64) (path : string)
  (v : option value) : list Finding :=
  match number v with
  | Some pct =>
      if flt pct minP || flt maxP pct
      then [finding "community.sampling.percentage.safe_range" "Sampling percentage safe range"
        PolicySeverityWarning PolicyDecisionBlock target path
        ("sampling percentage " +:+ fmt_4g pct +:+ " is outside the safe range " +:+ fmt_4g minP +:+
         "-" +:+ fmt_4g maxP)
        "Set sampling_percentage within the server-side safe range."]
      else []
  | None => []
  end.

(* src/internal/configpolicy/engine.go:326-346 samplingFindings *)
Definition samplingFindings (root : gmap string value) (target : PolicyTarget) (minP maxP : float64)
  : list Finding :=
  flat_map (fun id =>
    let comp := as_map (section root "processors" !! id) in
    if componentBase id =s "probabilistic_sampler" then
      sampling_finding target minP maxP ("processors." +:+ id +:+ ".sampling_percentage")
        (comp !! "sampling_percentage")
    else if componentBase id =s "tail_sampling" then
      concat (imap (fun i p =>
        sampling_finding target minP maxP
          ("processors." +:+ id +:+ ".policies[" +:+ Itoa i +:+ "].sampling_percentage")
          (as_map (Some p) !! "sampling_percentage")) (toAnySlice (comp !! "policies")))
    else []) (sorted_keys (section root "processors")).

(* src/internal/configpolicy/engine.go:367-377 pipelineExporters *)
Definition pipelineExporters (root : gmap string value) : list string :=
  flat_map (fun name => toStringSlice (as_map (pipelines root !! name) !! "exporters"))
    (sorted_keys (pipelines root)).

(* src/internal/configpolicy/engine.go:348-365 criticalExporterRemovalFindings *)
Definition criticalExporterRemovalFindings (current candidate : gmap string value)
  (target : PolicyTarget) (critical : list string) : list Finding :=
  let criticalSet := match critical with [] => pipelineExporters current | _ => map TrimSpace critical end in
  if forallb (fun id => existsb (String.eqb id) (pipelineExporters candidate)) criticalSet then []
  else [finding "community.exporters.critical_removal" "Critical exporter removal"
    PolicySeverityCritical PolicyDecisionBlock target "service.pipelines.traces.exporters"
    "candidate config removes an exporter considered critical from the current config"
    "Keep critical exporters in service pipelines or explicitly change server-side policy settings."].

(** ** The evaluation *)

(* src/internal/configpolicy/engine.go:102-110 normalizeSettings *)
Definition normalizeSettings (s : PolicySettings) : PolicySettings :=
  let lo := sp_MinPercentage (st_Sampling s) in
  let hi := sp_MaxPercentage (st_Sampling s) in
  mkSettings (st_AllowedOTLPEndpoints s) (st_CriticalExporters s) (st_RequiredResourceAttributes s)
    (mkSampling (if feq lo f_zero then f_tenth else lo) (if feq hi f_zero then f_hundred else hi)).

(* src/internal/configpolicy/engine.go:138-144 maxSeverity *)
Definition maxSeverity (current next : string) : string :=
  let rank s := if s =s PolicySeverityWarning then 1 else if s =s PolicySeverityCritical then 2 else 0 in
  if Nat.ltb (rank current) (rank next) then next else current.

Definition count_finding (r : EvaluationResult) (f : Finding) : EvaluationResult :=
  let s := ev_Summary r in
  if fi_Decision f =s PolicyDecisionBlock then
    mkEvaluation false false PolicyDecisionBlock (maxSeverity (ev_Severity r) (fi_Severity f))
      (ev_Target r) (ev_Settings r) (ev_Findings r)
      (mkSummary (su_PassCount s) (su_WarnCount s) (S (su_BlockCount s)))
  else if fi_Decision f =s PolicyDecisionWarn then
    let s := mkSummary (su_PassCount s) (S (su_WarnCount s)) (su_BlockCount s) in
    if ev_Decision r <>s PolicyDecisionBlock
    then mkEvaluation (ev_Valid r) (ev_Allowed r) PolicyDecisionWarn
           (maxSeverity (ev_Severity r) (fi_Severity f)) (ev_Target r) (ev_Settings r)
           (ev_Findings r) s
    else mkEvaluation (ev_Valid r) (ev_Allowed r) (ev_Decision r) (ev_Severity r) (ev_Target r)
           (ev_Settings r) (ev_Findings r) s
  else mkEvaluation (ev_Valid r) (ev_Allowed r) (ev_Decision r) (ev_Severity r) (ev_Target r)
         (ev_Settings r) (ev_Findings r)
         (mkSummary (S (su_PassCount s)) (su_WarnCount s) (su_BlockCount s)).

(* src/internal/configpolicy/engine.go:112-136 finalize *)
Definition finalize (target : PolicyTarget) (settings : PolicySettings) (findings : list Finding)
  : EvaluationResult :=
  foldl count_finding
    (mkEvaluation true true PolicyDecisionPass PolicySeverityInfo target settings findings
       (mkSummary 0 0 0)) findings.

Definition finding_cmp : Finding -> Finding -> comparison :=
  lex_cmp (by_key fi_RuleCode str_cmp) (by_key fi_Path str_cmp).

(* src/internal/configpolicy/engine.go:444-451 sortFindings *)
Definition sortFindings (l : list Finding) : list Finding := sort_by (less_of finding_cmp) l.

(** The rules of a production target. *)
Definition production_findings (exportersFirst : bool) (candidate : gmap string value)
  (target : PolicyTarget) (settings : PolicySettings) : list Finding :=
  insecureTLSFindings exportersFirst candidate target ++
  (if hasTopLevelComponent candidate "processors" "memory_limiter" then []
   else [finding "community.processors.memory_limiter.required" "Memory limiter required"
     PolicySeverityCritical PolicyDecisionBlock target "processors.memory_limiter"
     "production collector configs must define a memory_limiter processor"
     "Add a memory_limiter processor and include it in every service pipeline."]) ++
  missingBatchFindings candidate target ++
  otlpEndpointFindings candidate target (st_AllowedOTLPEndpoints settings) ++
  resourceIdentityFindings candidate target (st_RequiredResourceAttributes settings).

(* src/internal/configpolicy/engine.go:55-100 Evaluate *)
Definition Evaluate (exportersFirst : bool) (req : EvaluationRequest) : EvaluationResult :=
  let settings := normalizeSettings (rq_Settings req) in
  let target := rq_Target req in
  match parseConfig (rq_CandidateYAML req) with
  | Err err =>
      finalize target settings
        [finding "community.yaml.parse" "YAML parse" PolicySeverityCritical PolicyDecisionBlock target ""
           ("configuration YAML could not be parsed: " +:+ err)
           "Fix YAML syntax before evaluating policy."]
  | Ok candidate =>
      let production := isProduction (pt_Environment target) in
      let findings :=
        (if production then production_findings exportersFirst candidate target settings else []) ++
        (if production || negb (feq (sp_MinPercentage (st_Sampling (rq_Settings req))) f_zero)
            || negb (feq (sp_MaxPercentage (st_Sampling (rq_Settings req))) f_zero)
         then samplingFindings candidate target (sp_MinPercentage (st_Sampling settings))
                (sp_MaxPercentage (st_Sampling settings))
         else []) ++
        (if (TrimSpace (rq_CurrentYAML req) <>s "") &&
            (production || negb (Nat.eqb (length (st_CriticalExporters (rq_Settings req))) 0))
         then match parseConfig (rq_CurrentYAML req) with
              | Ok current => criticalExporterRemovalFindings current candidate target
                                (st_CriticalExporters settings)
              | Err _ => []
              end
         else []) in
      finalize target settings (sortFindings findings)
  end.

End Engine.

(** ** What the rules demand *)

(** Somewhere inside the value a key spelled "insecure" is true. *)
Inductive insecure : value -> Prop :=
| insecure_key m k : m !! k = Some (VBool true) -> EqualFold k "insecure" = true -> insecure (VMap m)
| insecure_field m k v : m !! k = Some v -> insecure v -> insecure (VMap m)
| insecure_item l v : v ∈ l -> insecure v -> insecure (VList l).

Lemma hasInsecureTrue_iff v : hasInsecureTrue v = true <-> insecure v.
Proof.
  induction v as [l IH|m IH|v Hl Hm] using value_induction.
  - cbn. rewrite existsb_exists. split.
    + intros (x & Hx%list_elem_of_In & Hp). apply (insecure_item l x Hx). by apply IH.
    + inversion 1 as [| |? x Hx Hi]; subst. exists x. split; [by apply list_elem_of_In|by apply IH].
  - cbn [hasInsecureTrue]. rewrite map_fold_orb. split.
    + intros (k & x & Hk & Hp). apply orb_true_iff in Hp as [[Hf Hb]%andb_true_iff|Hp].
      * destruct x; try done. destruct b; [|done]. by apply (insecure_key m k).
      * apply (insecure_field m k x Hk). by apply (IH k x).
    + inversion 1 as [? k Hk Hf|? k x Hk Hi|]; subst; eexists k, _; (split; [exact Hk|]);
        apply orb_true_iff; [left; by rewrite Hf|right; by apply (IH k x)].
  - split; [by destruct v; try done; [destruct (Hl l)|destruct (Hm m)]|].
    inversion 1; subst; [by edestruct Hm..|by edestruct Hl].
Qed.

(** [id] is an instance of the component type [typ]. *)
Definition instance_of (typ id : string) : Prop := componentBase id = typ.

Section Rules.
Context `{UnicodeTables} {netURL : NetURL}.

(** The host of an endpoint is an allowed host or below one. *)
Definition host_allowed (endpoint : string) (allowlist : list string) : Prop :=
  endpointHost endpoint <> "" /\
  exists a, a ∈ allowlist /\ endpointHost a <> "" /\
    (endpointHost endpoint = endpointHost a \/
     HasSuffix (endpointHost endpoint) ("." +:+ endpointHost a) = true).

(** The demands on the configuration of a production target. *)
Record production_safe (root : gmap string value) (settings : PolicySettings) : Prop := {
  ps_tls : forall category id v, category = "exporters" \/ category = "receivers" ->
    section root category !! id = Some v -> ~ insecure v;
  ps_limiter : exists id, is_Some (section root "processors" !! id) /\ instance_of "memory_limiter" id;
  ps_batch : forall name p, pipelines root !! name = Some p ->
    exists id, id ∈ toStringSlice (as_map (Some p) !! "processors") /\ instance_of "batch" id;
  ps_endpoints : st_AllowedOTLPEndpoints settings <> [] -> forall id v,
    section root "exporters" !! id = Some v -> instance_of "otlp" id \/ instance_of "otlphttp" id ->
    let endpoint := as_str (as_map (Some v) !! "endpoint") in
    TrimSpace endpoint = "" \/ host_allowed endpoint (st_AllowedOTLPEndpoints settings);
  ps_identity : forall a, a ∈ st_RequiredResourceAttributes settings -> TrimSpace a <> "" ->
    exists id v item, section root "processors" !! id = Some v /\ instance_of "resource" id /\
      item ∈ toAnySlice (as_map (Some v) !! "attributes") /\
      as_map (Some item) !! "key" = Some (VStr (TrimSpace a))
}.

(** The percentages the samplers of a configuration set. *)
Definition samples (root : gmap string value) (v : option value) : Prop :=
  exists id p, section root "processors" !! id = Some p /\
    (instance_of "probabilistic_sampler" id /\ v = as_map (Some p) !! "sampling_percentage" \/
     instance_of "tail_sampling" id /\ exists policy,
       policy ∈ toAnySlice (as_map (Some p) !! "policies") /\
       v = as_map (Some policy) !! "sampling_percentage").

Definition sampling_safe (root : gmap string value) (lo hi : float64) : Prop :=
  forall v pct, samples root v -> number v = Some pct -> flt pct lo = false /\ flt hi pct = false.

(** An exporter used by some pipeline. *)
Definition exports_to (root : gmap string value) (id : string) : Prop :=
  exists name p, pipelines root !! name = Some p /\ id ∈ toStringSlice (as_map (Some p) !! "exporters").

Definition keeps_critical (current candidate : gmap string value) (critical : list string) : Prop :=
  match critical with
  | [] => forall id, exports_to current id -> exports_to candidate id
  | _ => forall id, id ∈ critical -> exports_to candidate (TrimSpace id)
  end.

(** ** Each rule is silent exactly when its demand holds *)

Lemma flat_map_nil {A B} (f : A -> list B) l : flat_map f l = [] <-> forall x, x ∈ l -> f x = [].
Proof.
  induction l as [|a l IH]; cbn.
  - split; [|done]. intros _ x Hx. by apply not_elem_of_nil in Hx.
  - rewrite app_nil, IH. split.
    + intros [Ha Hl] x [->|Hx]%elem_of_cons; auto.
    + intros Hl. split; [apply Hl; by left|intros x Hx; apply Hl; by right].
Qed.

Lemma component_exists typ l : containsComponentType l typ = true <-> exists id, id ∈ l /\ instance_of typ id.
Proof.
  unfold containsComponentType, instance_of. rewrite existsb_exists.
  split; intros (id & Hi & He); exists id; (split; [by apply list_elem_of_In|]);
    by apply eqb_string_true.
Qed.

Lemma sorted_forall {P : string -> value -> Prop} (m : gmap string value) :
  (forall id, id ∈ sorted_keys m -> forall v, m !! id = Some v -> P id v) <->
  (forall id v, m !! id = Some v -> P id v).
Proof.
  split; [|auto]. intros Hs id v Hv. apply (Hs id); [|done]. apply elem_of_sorted_keys. by exists v.
Qed.

(** A rule that goes through the entries of a map. *)
Lemma per_entry_nil {B} (m : gmap string value) (f : string -> option B) (P : string -> value -> Prop) :
  (forall id v, m !! id = Some v -> f id = None <-> P id v) ->
  omap f (sorted_keys m) = [] <-> forall id v, m !! id = Some v -> P id v.
Proof.
  intros Hf. rewrite omap_nil. split.
  - intros Hn id v Hv. apply (Hf id v Hv), Hn, elem_of_sorted_keys. by exists v.
  - intros Hp id [v Hv]%elem_of_sorted_keys. apply (Hf id v Hv); auto.
Qed.

Lemma if_none {A} (b : bool) (x : A) : (if b then None else Some x) = None <-> b = true.
Proof. by destruct b. Qed.
Lemma if_some {A} (b : bool) (x : A) : (if b then Some x else None) = None <-> b <> true.
Proof. by destruct b. Qed.

Lemma insecure_in_nil root target category :
  insecure_in root target category = [] <->
  forall id v, section root category !! id = Some v -> ~ insecure v.
Proof.
  unfold insecure_in. rewrite (per_entry_nil _ _ (fun _ v => ~ insecure v)); [done|].
  intros id v Hv. by rewrite Hv, if_some, hasInsecureTrue_iff.
Qed.

Lemma missingBatch_nil root target :
  missingBatchFindings root target = [] <->
  forall name p, pipelines root !! name = Some p ->
    exists id, id ∈ toStringSlice (as_map (Some p) !! "processors") /\ instance_of "batch" id.
Proof.
  unfold missingBatchFindings. apply per_entry_nil. intros name p Hp.
  by rewrite Hp, if_none, component_exists.
Qed.

Lemma endpointAllowed_iff endpoint allowlist :
  endpointAllowed endpoint allowlist = true <-> host_allowed endpoint allowlist.
Proof.
  unfold endpointAllowed, host_allowed.
  destruct (endpointHost endpoint =s "") eqn:E; reflect_bools; [by split; [|intros [? _]]|].
  rewrite existsb_exists. split.
  - intros (a & Ha%list_elem_of_In & Hc). split; [done|]. exists a. split; [done|].
    destruct (endpointHost a =s "") eqn:Ea; [done|]. reflect_bools. split; [done|].
    apply orb_true_iff in Hc as [Hc%eqb_string_true|Hc]; auto.
  - intros [_ (a & Ha & Hn & Hc)]. exists a. split; [by apply list_elem_of_In|].
    apply eqb_string_false in Hn. rewrite Hn. apply orb_true_iff.
    destruct Hc as [Hc|Hc]; [left; by apply eqb_string_true|by right].
Qed.

Lemma otlpEndpoint_nil root target allowlist :
  otlpEndpointFindings root target allowlist = [] <->
  (allowlist <> [] -> forall id v, section root "exporters" !! id = Some v ->
    instance_of "otlp" id \/ instance_of "otlphttp" id ->
    let endpoint := as_str (as_map (Some v) !! "endpoint") in
    TrimSpace endpoint = "" \/ host_allowed endpoint allowlist).
Proof.
  unfold otlpEndpointFindings. destruct allowlist as [|a l]; [by split|].
  transitivity (forall id v, section root "exporters" !! id = Some v ->
    instance_of "otlp" id \/ instance_of "otlphttp" id ->
    let endpoint := as_str (as_map (Some v) !! "endpoint") in
    TrimSpace endpoint = "" \/ host_allowed endpoint (a :: l)); [|by split; [|intros Hx; by apply Hx]].
  apply per_entry_nil. intros id v Hv. rewrite Hv. unfold instance_of. cbv zeta.
  rewrite <- endpointAllowed_iff, <- !eqb_string_true.
  destruct (_ =s "otlp"), (_ =s "otlphttp"); cbn [negb andb];
    try (rewrite if_none, orb_true_iff; tauto). by intuition discriminate.
Qed.

Lemma resource_keys_spec root k : k <> "" ->
  k ∈ resource_keys root <->
  exists id v item, section root "processors" !! id = Some v /\ instance_of "resource" id /\
    item ∈ toAnySlice (as_map (Some v) !! "attributes") /\ as_map (Some item) !! "key" = Some (VStr k).
Proof.
  intros Hk. unfold resource_keys, instance_of. rewrite list_elem_of_In, in_flat_map. split.
  - intros (id & [v Hv]%list_elem_of_In%elem_of_sorted_keys & Hin). rewrite Hv in Hin.
    destruct (componentBase id =s "resource") eqn:E; [|done]. reflect_bools.
    apply in_map_iff in Hin as (item & Hs & Hi%list_elem_of_In). exists id, v, item.
    repeat (split; [done|]). destruct (_ !! "key") as [[]|]; cbn in Hs; congruence.
  - intros (id & v & item & Hv & Hr & Hi & Hs). exists id. split.
    + apply list_elem_of_In, elem_of_sorted_keys. by exists v.
    + rewrite Hr, Hv, eqb_string_refl. cbn [negb].
      apply in_map_iff. exists item. split; [by rewrite Hs|by apply list_elem_of_In].
Qed.

Lemma forallb_known (l known : list string) :
  forallb (fun a => existsb (String.eqb a) known) l = true <-> forall a, a ∈ l -> a ∈ known.
Proof.
  rewrite forallb_forall. split; intros Hl a Ha.
  - apply existsb_eqb_elem, Hl. by apply list_elem_of_In.
  - apply existsb_eqb_elem, Hl. by apply list_elem_of_In.
Qed.

Lemma if_nil {A} (b : bool) (x : A) : (if b then [] else [x]) = [] <-> b = true.
Proof. by destruct b. Qed.

Lemma resourceIdentity_nil root target attrs :
  resourceIdentityFindings root target attrs = [] <->
  forall a, a ∈ attrs -> TrimSpace a <> "" ->
    exists id v item, section root "processors" !! id = Some v /\ instance_of "resource" id /\
      item ∈ toAnySlice (as_map (Some v) !! "attributes") /\
      as_map (Some item) !! "key" = Some (VStr (TrimSpace a)).
Proof.
  unfold resourceIdentityFindings, required_attrs. rewrite if_nil, forallb_known. split.
  - intros Hr a Ha Hn. apply resource_keys_spec; [done|]. apply Hr.
    apply list_elem_of_In, filter_In. split; [by apply in_map, list_elem_of_In|].
    by apply negb_true_iff, eqb_string_false.
  - intros Hr t Ht. apply list_elem_of_In, filter_In in Ht as [Hin Hne].
    apply in_map_iff in Hin as (a & <- & Ha%list_elem_of_In). reflect_bools.
    apply resource_keys_spec; auto.
Qed.

Context {floatFormat : FloatFormat}.

Lemma sampling_finding_nil target lo hi path v :
  sampling_finding target lo hi path v = [] <->
  forall pct, number v = Some pct -> flt pct lo = false /\ flt hi pct = false.
Proof.
  unfold sampling_finding. destruct (number v) as [pct|]; [|by split].
  destruct (flt pct lo || flt hi pct) eqn:E.
  - split; [done|]. intros Hp. destruct (Hp pct eq_refl) as [Hlo Hhi]. by rewrite Hlo, Hhi in E.
  - split; [|done]. intros _ ? [= <-]. by apply orb_false_iff.
Qed.

Lemma concat_imap_nil {A B} (f : nat -> A -> list B) l :
  concat (imap f l) = [] <-> forall i x, l !! i = Some x -> f i x = [].
Proof.
  revert f. induction l as [|a l IH]; intros f; cbn; [by split|].
  rewrite app_nil, IH. split.
  - intros [Ha Hl] [|i] x Hx; [by injection Hx as <-|by apply (Hl i)].
  - intros Hl. split; [by apply (Hl 0)|intros i x Hx; by apply (Hl (S i))].
Qed.

Lemma sampling_nil root target lo hi :
  samplingFindings root target lo hi = [] <-> sampling_safe root lo hi.
Proof.
  unfold samplingFindings, sampling_safe, samples, instance_of. rewrite flat_map_nil. split.
  - intros Hn v pct (id & p & Hp & Hv) Hpct.
    assert (id ∈ sorted_keys (section root "processors")) as Hid
      by (apply elem_of_sorted_keys; by exists p).
    specialize (Hn id Hid). cbv zeta in Hn. rewrite Hp in Hn.
    destruct Hv as [[Hb ->]|[Hb (pol & Hpol & ->)]]; rewrite Hb in Hn; cbn in Hn.
    + by apply sampling_finding_nil with (pct := pct) in Hn.
    + rewrite concat_imap_nil in Hn. apply list_elem_of_lookup in Hpol as [i Hi].
      specialize (Hn i pol Hi). by apply sampling_finding_nil with (pct := pct) in Hn.
  - intros Hs id [p Hp]%elem_of_sorted_keys. cbv zeta. rewrite Hp.
    destruct (_ =s "probabilistic_sampler") eqn:E1; [|destruct (_ =s "tail_sampling") eqn:E2; [|done]];
      reflect_bools.
    + apply sampling_finding_nil. intros pct. apply Hs. exists id, p. auto.
    + apply concat_imap_nil. intros i pol Hi. apply sampling_finding_nil. intros pct. apply Hs.
      exists id, p. split; [done|]. right. split; [done|]. exists pol.
      split; [by apply list_elem_of_lookup; exists i|done].
Qed.

Lemma pipelineExporters_spec root id : id ∈ pipelineExporters root <-> exports_to root id.
Proof.
  unfold pipelineExporters, exports_to. rewrite list_elem_of_In, in_flat_map. split.
  - intros (name & [p Hp]%list_elem_of_In%elem_of_sorted_keys & Hin%list_elem_of_In).
    rewrite Hp in Hin. eauto.
  - intros (name & p & Hp & Hin). exists name. rewrite Hp.
    split; apply list_elem_of_In; [apply elem_of_sorted_keys; by exists p|done].
Qed.

Lemma critical_nil current candidate target critical :
  criticalExporterRemovalFindings current candidate target critical = [] <->
  keeps_critical current candidate critical.
Proof.
  unfold criticalExporterRemovalFindings, keeps_critical. rewrite if_nil, forallb_known.
  destruct critical as [|c l].
  - split; intros Hc id Hid; apply pipelineExporters_spec, Hc; by apply pipelineExporters_spec.
  - split.
    + intros Hc id Hid. apply pipelineExporters_spec, Hc. by apply list_elem_of_fmap_2.
    + intros Hc t Ht. apply list_elem_of_In, in_map_iff in Ht as (id & <- & Hid%list_elem_of_In).
      by apply pipelineExporters_spec, Hc.
Qed.

Lemma limiter_iff root :
  hasTopLevelComponent root "processors" "memory_limiter" = true <->
  exists id, is_Some (section root "processors" !! id) /\ instance_of "memory_limiter" id.
Proof.
  unfold hasTopLevelComponent.
  change (existsb _ _) with (containsComponentType (sorted_keys (section root "processors")) "memory_limiter").
  rewrite component_exists. by setoid_rewrite elem_of_sorted_keys.
Qed.

Lemma production_nil first root target settings :
  production_findings first root target settings = [] <-> production_safe root settings.
Proof.
  unfold production_findings, insecureTLSFindings.
  rewrite !app_nil, if_nil, limiter_iff, missingBatch_nil, otlpEndpoint_nil, resourceIdentity_nil.
  assert ((if first then insecure_in root target "exporters" ++ insecure_in root target "receivers"
           else insecure_in root target "receivers" ++ insecure_in root target "exporters") = [] <->
    (forall category id v, category = "exporters" \/ category = "receivers" ->
       section root category !! id = Some v -> ~ insecure v)) as ->.
  { transitivity (insecure_in root target "exporters" = [] /\ insecure_in root target "receivers" = []).
    - destruct first; rewrite app_nil; tauto.
    - rewrite !insecure_in_nil. split.
      + intros [He Hr] category id v [->| ->]; eauto.
      + intros Hc. split; intros id v; apply (Hc _ id v); auto. }
  split; [intros (? & ? & ? & ? & ?); by split|intros []; auto 6].
Qed.

(** ** Aggregation *)

Definition blocks (f : Finding) : Prop := fi_Decision f = PolicyDecisionBlock.

Lemma finalize_blocks target settings l : Forall blocks l ->
  let r := finalize target settings l in
  (ev_Allowed r = true <-> l = []) /\ (ev_Decision r = PolicyDecisionBlock <-> l <> []) /\
  ev_Valid r = ev_Allowed r /\ ev_Findings r = l /\ su_BlockCount (ev_Summary r) = length l.
Proof.
  intros Hl. cbv zeta. unfold finalize.
  set (r0 := mkEvaluation true true _ _ _ _ _ _).
  assert (forall k r, Forall blocks k ->
    let r' := foldl count_finding r k in
    (ev_Allowed r' = ev_Allowed r && match k with [] => true | _ => false end) /\
    (ev_Decision r' = match k with [] => ev_Decision r | _ => PolicyDecisionBlock end) /\
    (ev_Valid r' = ev_Valid r && match k with [] => true | _ => false end) /\
    ev_Findings r' = ev_Findings r /\
    su_BlockCount (ev_Summary r') = su_BlockCount (ev_Summary r) + length k) as Hgen.
  { clear. intros k. induction k as [|f k IH]; intros r Hk; cbv zeta.
    - cbn. rewrite !andb_true_r. auto.
    - apply Forall_cons in Hk as [Hf Hk]. cbn [foldl]. specialize (IH (count_finding r f) Hk).
      assert (count_finding r f = mkEvaluation false false PolicyDecisionBlock
        (maxSeverity (ev_Severity r) (fi_Severity f)) (ev_Target r) (ev_Settings r) (ev_Findings r)
        (mkSummary (su_PassCount (ev_Summary r)) (su_WarnCount (ev_Summary r))
           (S (su_BlockCount (ev_Summary r))))) as E.
      { unfold count_finding. rewrite Hf. reflexivity. }
      rewrite E in IH |- *. cbn [ev_Allowed ev_Decision ev_Valid ev_Findings ev_Summary su_BlockCount] in IH.
      destruct IH as (-> & -> & -> & -> & ->). rewrite !andb_false_r. cbn [andb length].
      repeat split; [by destruct k|lia]. }
  destruct (Hgen l r0 Hl) as (-> & -> & -> & -> & ->). subst r0. cbn.
  destruct l; repeat split; done.
Qed.

Lemma blocks_omap {A} (f : A -> option Finding) l :
  (forall x y, f x = Some y -> blocks y) -> Forall blocks (omap f l).
Proof.
  intros Hf. apply Forall_forall. intros y. rewrite list_elem_of_omap. intros (x & _ & E). eauto.
Qed.

Lemma blocks_flat {A} (f : A -> list Finding) l :
  (forall x, Forall blocks (f x)) -> Forall blocks (flat_map f l).
Proof. intros Hf. induction l as [|a l IH]; cbn; [done|]. by apply Forall_app. Qed.

Lemma blocks_sampling root target lo hi : Forall blocks (samplingFindings root target lo hi).
Proof.
  assert (forall path v, Forall blocks (sampling_finding target lo hi path v)) as Hs.
  { intros path v. unfold sampling_finding. destruct (number v); [|done]. by case_if; repeat constructor. }
  apply blocks_flat. intros id. cbv zeta. case_if; [apply Hs|]. case_if; [|done].
  apply Forall_concat, Forall_forall. intros l. rewrite elem_of_lookup_imap. by intros (i & p & -> & _).
Qed.

Lemma blocks_production first root target settings :
  Forall blocks (production_findings first root target settings).
Proof.
  assert (forall category, Forall blocks (insecure_in root target category)) as Hi.
  { intros category. apply blocks_omap. intros id y. by case_if; intros [= <-]. }
  unfold production_findings, insecureTLSFindings. repeat apply Forall_app_2.
  - destruct first; by apply Forall_app_2.
  - by case_if; repeat constructor.
  - apply blocks_omap. intros name y. cbv zeta. by case_if; intros [= <-].
  - unfold otlpEndpointFindings. destruct (st_AllowedOTLPEndpoints settings); [done|].
    apply blocks_omap. intros id y. case_if; [done|]. cbv zeta. by case_if; intros [= <-].
  - unfold resourceIdentityFindings. by case_if; repeat constructor.
Qed.

Lemma blocks_critical current candidate target critical :
  Forall blocks (criticalExporterRemovalFindings current candidate target critical).
Proof. unfold criticalExporterRemovalFindings. by case_if; repeat constructor. Qed.

Lemma sortFindings_nil l : sortFindings l = [] <-> l = [].
Proof.
  unfold sortFindings. rewrite <- !length_zero_iff_nil. by rewrite sort_by_length.
Qed.

Lemma sortFindings_blocks l : Forall blocks l -> Forall blocks (sortFindings l).
Proof. unfold sortFindings. by rewrite sort_by_perm. Qed.

End Rules.

Section Evaluation.
Context `{UnicodeTables} {netURL : NetURL} {floatFormat : FloatFormat} {yamlDoc : YamlDoc}.

(** The bounds in force, and whether the sampling rule runs. *)
Definition low (s : PolicySettings) : float64 := sp_MinPercentage (st_Sampling (normalizeSettings s)).
Definition high (s : PolicySettings) : float64 := sp_MaxPercentage (st_Sampling (normalizeSettings s)).
Definition bounds_set (s : PolicySettings) : bool :=
  negb (feq (sp_MinPercentage (st_Sampling s)) f_zero) || negb (feq (sp_MaxPercentage (st_Sampling s)) f_zero).

(** What a configuration must satisfy to be pushed. *)
Definition compliant (req : EvaluationRequest) (root : gmap string value) : Prop :=
  let production := isProduction (pt_Environment (rq_Target req)) in
  let s := rq_Settings req in
  (production = true -> production_safe root s) /\
  (production = true \/ bounds_set s = true -> sampling_safe root (low s) (high s)) /\
  (TrimSpace (rq_CurrentYAML req) <> "" -> production = true \/ st_CriticalExporters s <> [] ->
   forall current, parseConfig (rq_CurrentYAML req) = Ok current ->
     keeps_critical current root (st_CriticalExporters s)).

Lemma gated_nil {A} (b : bool) (l : list A) (P : Prop) :
  (l = [] <-> P) -> (if b then l else []) = [] <-> (b = true -> P).
Proof. destruct b; intros HP; [rewrite HP; intuition|by split]. Qed.

(** The findings of a parsed candidate, before sorting. *)
Definition raw_findings (first : bool) (req : EvaluationRequest) (candidate : gmap string value)
  : list Finding :=
  let target := rq_Target req in
  let settings := normalizeSettings (rq_Settings req) in
  let production := isProduction (pt_Environment target) in
  (if production then production_findings first candidate target settings else []) ++
  (if production || bounds_set (rq_Settings req)
   then samplingFindings candidate target (low (rq_Settings req)) (high (rq_Settings req)) else []) ++
  (if (TrimSpace (rq_CurrentYAML req) <>s "") &&
      (production || negb (Nat.eqb (length (st_CriticalExporters (rq_Settings req))) 0))
   then match parseConfig (rq_CurrentYAML req) with
        | Ok current => criticalExporterRemovalFindings current candidate target
                          (st_CriticalExporters settings)
        | Err _ => []
        end
   else []).

Lemma Evaluate_parsed first req root :
  parseConfig (rq_CandidateYAML req) = Ok root ->
  Evaluate first req =
    finalize (rq_Target req) (normalizeSettings (rq_Settings req)) (sortFindings (raw_findings first req root)).
Proof. intros E. unfold Evaluate, raw_findings, bounds_set. rewrite E, orb_assoc. reflexivity. Qed.

Lemma raw_findings_nil first req root : raw_findings first req root = [] <-> compliant req root.
Proof.
  unfold raw_findings, compliant. cbv zeta. rewrite !app_nil.
  rewrite (gated_nil _ _ _ (production_nil first root (rq_Target req) (normalizeSettings (rq_Settings req)))).
  rewrite (gated_nil _ _ _ (sampling_nil root (rq_Target req) _ _)), orb_true_iff.
  rewrite (gated_nil _ _ (forall current, parseConfig (rq_CurrentYAML req) = Ok current ->
     keeps_critical current root (st_CriticalExporters (rq_Settings req)))).
  2: { destruct (parseConfig (rq_CurrentYAML req)) as [current|e]; [|by split].
       rewrite critical_nil. split; [by intros Hc ? [= <-]|auto]. }
  assert (production_safe root (normalizeSettings (rq_Settings req)) <->
          production_safe root (rq_Settings req)) as ->.
  { split; intros []; by split. }
  rewrite andb_true_iff, orb_true_iff, !negb_true_iff, eqb_string_false, Nat.eqb_neq.
  assert (length (st_CriticalExporters (rq_Settings req)) <> 0 <->
          st_CriticalExporters (rq_Settings req) <> []) as ->; [|tauto].
  by rewrite length_zero_iff_nil.
Qed.

Lemma raw_findings_block first req root : Forall blocks (raw_findings first req root).
Proof.
  unfold raw_findings. cbv zeta. repeat apply Forall_app_2; case_if; try done.
  - apply blocks_production.
  - apply blocks_sampling.
  - destruct (parseConfig (rq_CurrentYAML req)); [apply blocks_critical|done].
Qed.

(** C7: the policy engine allows a candidate exactly when it parses and satisfies
    the declared demands: for production no [insecure: true] anywhere in
    exporters or receivers, a memory limiter, a batch processor in every
    pipeline, OTLP endpoints under allowed hosts and the required resource
    attributes; sampling percentages inside the bounds; no critical exporter
    dropped. Otherwise its decision is to block. *)
Theorem policy_allows_iff first req :
  let r := Evaluate first req in
  (ev_Allowed r = true <->
   exists root, parseConfig (rq_CandidateYAML req) = Ok root /\ compliant req root) /\
  (ev_Decision r = PolicyDecisionBlock <-> ev_Allowed r = false) /\
  su_BlockCount (ev_Summary r) = length (ev_Findings r).
Proof.
  cbv zeta. destruct (parseConfig (rq_CandidateYAML req)) as [root|e] eqn:E.
  - rewrite (Evaluate_parsed first req root E).
    destruct (finalize_blocks (rq_Target req) (normalizeSettings (rq_Settings req))
      (sortFindings (raw_findings first req root))) as (Ha & Hd & _ & Hf & Hn).
    { apply sortFindings_blocks, raw_findings_block. }
    rewrite sortFindings_nil, raw_findings_nil in Ha. rewrite sortFindings_nil, raw_findings_nil in Hd.
    rewrite Hd, Hn, Hf, <- not_true_iff_false, Ha.
    split; [|split; [tauto|done]]. split; [eauto|]. by intros (root' & [= <-] & Hc).
  - unfold Evaluate. rewrite E. split; [|done]. split; [done|]. by intros (root & ? & _).
Qed.

(** ** The result does not depend on the iteration order of the section map *)

#[local] Instance finding_cmp_total : TotalCmp finding_cmp.
Proof. apply _. Qed.

Lemma finding_cmp_path x y : finding_cmp x y = Eq -> fi_Path x = fi_Path y.
Proof.
  unfold finding_cmp, lex_cmp, by_key. destruct (str_cmp (fi_RuleCode x) _); [|done..].
  apply str_cmp_eq.
Qed.

Lemma insecure_in_path root target category f :
  f ∈ insecure_in root target category ->
  exists id, fi_Path f = category +:+ "." +:+ id +:+ ".tls.insecure".
Proof.
  unfold insecure_in. rewrite list_elem_of_omap. intros (id & _ & E).
  destruct (match _ !! id with Some v => hasInsecureTrue v | None => false end); [|done].
  injection E as <-. by exists id.
Qed.

(** evaluation is deterministic although Go visits the exporters and the
    receivers in an unspecified order: both orders give the same evaluation,
    findings and their order included. *)
Theorem evaluation_order_independent req : Evaluate true req = Evaluate false req.
Proof.
  destruct (parseConfig (rq_CandidateYAML req)) as [root|e] eqn:E;
    [|unfold Evaluate; by rewrite E].
  rewrite !(Evaluate_parsed _ req root E). f_equal. unfold raw_findings. cbv zeta.
  destruct (isProduction _); [|done]. unfold production_findings, insecureTLSFindings, sortFindings.
  rewrite <- !(assoc_L (++)). apply (sort_by_swap finding_cmp).
  intros x y [i Hx]%insecure_in_path [j Hy]%insecure_in_path Heq%finding_cmp_path. by rewrite Hx, Hy in Heq.
Qed.

End Evaluation.

(** ** Observations *)

(** A parser of a few documents, a host extractor that drops the scheme, and a
    constant rendering of numbers. *)
Definition sampler (pct : value) : gmap string value :=
  <["processors" := VMap (<["memory_limiter" := VNull]> (<["batch" := VNull]>
      {["probabilistic_sampler" := VMap {["sampling_percentage" := pct]}]}))]>
  (<["exporters" := VMap {["otlp" := VMap {["endpoint" := VStr "gw.corp:4317"]}]}]>
  {["service" := VMap {["pipelines" := VMap {["traces" := VMap
      (<["processors" := VList [VStr "batch"]]> {["exporters" := VList [VStr "otlp"]]})]}]}]}).

Definition few_docs : YamlDoc :=
  {| yaml_document := fun s =>
       if s =s "half" then Ok (Some (sampler (VInt 50)))
       else if s =s "nan" then Ok (Some (sampler (VFloat S754_nan)))
       else if s =s "all" then Ok (Some (sampler (VInt 101)))
       else Err "no such document" |}.
Definition one_host : NetURL := {| url_hostname := fun _ => Some "gw.corp" |}.
Definition no_format : FloatFormat := {| fmt_4g := fun _ => "n" |}.
Definition no_settings : PolicySettings := mkSettings ["corp"] [] [] (mkSampling f_zero f_zero).
Definition for_prod (candidate : string) : EvaluationRequest :=
  mkRequest "half" candidate (mkTarget " Prod" "workload" "w" "" "") no_settings.
Definition verdict (candidate : string) : EvaluationResult :=
  @Evaluate byte_tables one_host no_format few_docs true (for_prod candidate).

Example half_is_allowed : ev_Allowed (verdict "half") = true.
Proof. vm_compute. reflexivity. Qed.
Example over_is_blocked :
  map fi_RuleCode (ev_Findings (verdict "all")) = ["community.sampling.percentage.safe_range"] /\
  ev_Decision (verdict "all") = PolicyDecisionBlock.
Proof. vm_compute. done. Qed.

(** NaN compares false with both bounds: a sampler set to NaN passes the range
    rule of a production target. *)
Example nan_is_allowed : ev_Allowed (verdict "nan") = true.
Proof. vm_compute. reflexivity. Qed.

(** An exporter named critical that the running configuration never had is
    reported as removed by the candidate. *)
Example absent_exporter_reported_removed :
  let settings := mkSettings [] ["kafka"] [] (mkSampling f_zero f_zero) in
  let r := @Evaluate byte_tables one_host no_format few_docs true
    (mkRequest "half" "half" (mkTarget "dev" "workload" "w" "" "") settings) in
  map fi_RuleCode (ev_Findings r) = ["community.exporters.critical_removal"] /\ ev_Allowed r = false.
Proof. vm_compute. done. Qed.

End ConfigPolicy.
