(* ===== verification/OtelDiff.v ===== *)
(** * Semantic configuration diff: data, redaction and risk rules (internal/oteldiff)

    The helpers the diff engine is made of: the JSON form by which two component
    configurations are compared, the walk over the fields of two of them, the
    redaction of what is shown, the risk of a removed or modified component, of a
    pipeline reference and of an endpoint. Theorems: nothing below a secret key is
    ever shown, every changed field is found, and the references of two pipelines
    differ exactly as reported. *)

From Stdlib Require Import SpecFloat.
From stdpp Require Import pretty.
From S2P Require Import Prelude GoString Sha256 Yaml.
Import Sha256.Sha256 Yaml.

Module OtelDiff.

(** ** Data *)

(* src/internal/oteldiff/types.go:11-11 MaskedValue *)
Definition MaskedValue : string :=
  let dots := bytes [226; 128; 162; 226; 128; 162; 226; 128; 162; 226; 128; 162]%N in
  dots +:+ "masked" +:+ dots.

(* src/internal/oteldiff/types.go:13-20 Risk *)
Inductive Risk := RiskNone | RiskLow | RiskMedium | RiskHigh.
(* src/internal/oteldiff/types.go:22-29 ChangeKind *)
Inductive ChangeKind := ChangeAdded | ChangeRemoved | ChangeModified | ChangeUnchanged.

#[export] Instance risk_eq_dec : EqDecision Risk.
Proof. solve_decision. Defined.
#[export] Instance kind_eq_dec : EqDecision ChangeKind.
Proof. solve_decision. Defined.

Definition risk_text (r : Risk) : string :=
  match r with RiskNone => "none" | RiskLow => "low" | RiskMedium => "medium" | RiskHigh => "high" end.

(* src/internal/oteldiff/types.go:120-126 ComponentRef *)
Record ComponentRef := mkRef {
  cr_Category : string; cr_ID : string; cr_Type : string; cr_Name : string; cr_Path : string }.

(* src/internal/oteldiff/types.go:216-221 FieldChange *)
Record FieldChange := mkField {
  fc_Path : string; fc_Before : value; fc_After : value; fc_Risk : Risk }.

(* src/internal/oteldiff/types.go:153-157 PipelineShape *)
Record PipelineShape := mkShape {
  ps_Receivers : list string; ps_Processors : list string; ps_Exporters : list string }.

(* src/internal/oteldiff/types.go:159-167 PipelineRefChange *)
Record PipelineRefChange := mkRefChange {
  rc_Section : string; rc_ComponentID : string; rc_Kind : ChangeKind;
  rc_FromIndex : option nat; rc_ToIndex : option nat; rc_Risk : Risk; rc_Reason : string }.

(* src/internal/oteldiff/types.go:181-190 EndpointValue *)
Record EndpointValue := mkEndpoint {
  ev_Raw : string; ev_Scheme : string; ev_Host : string; ev_Port : Z; ev_Path : string;
  ev_Normalized : string; ev_Insecure : bool; ev_TLSEnabled : bool }.

#[export] Instance shape_eq_dec : EqDecision PipelineShape.
Proof. solve_decision. Defined.

(** ** util.go: values *)

(* src/internal/oteldiff/util.go:11-11 asMap *)
Definition asMap (v : value) : option (gmap string value) :=
  match v with VMap m => Some m | _ => None end.

(** A read of a Go map of values: nil for an absent key. *)
Definition get (m : gmap string value) (k : string) : value := default VNull (m !! k).

(* src/internal/oteldiff/util.go:12-29 normalizeValue *)
Fixpoint normalizeValue (v : value) : value :=
  match v with
  | VMap m => VMap (normalizeValue <$> m)
  | VList l => VList (map normalizeValue l)
  | x => x
  end.

(* src/internal/oteldiff/util.go:30-42 toStringSlice *)
Definition toStringSlice (v : value) : list string :=
  match v with
  | VList arr => flat_map (fun el => match el with VStr s => [s] | _ => [] end) arr
  | _ => []
  end.

(** The keys of several maps, sorted and without repetition. *)
Definition sorted_set (l : list string) : list string := sort_strings (remove_dups l).

(* src/internal/oteldiff/util.go:127-134 appendRule *)
Definition appendRule (rules : list string) (rule : string) : list string :=
  if existsb (fun r => r =s rule) rules then rules else rules ++ [rule].
(* src/internal/oteldiff/util.go:135-143 dedupeSorted *)
Definition dedupeSorted (l : list string) : list string :=
  sorted_set (List.filter (fun v => v <>s "") l).

(* src/internal/oteldiff/util.go:151-163 riskRank *)
Definition riskRank (r : Risk) : nat :=
  match r with RiskHigh => 3 | RiskMedium => 2 | RiskLow => 1 | RiskNone => 0 end.
(* src/internal/oteldiff/util.go:145-150 maxRisk *)
Definition maxRisk (a b : Risk) : Risk := if Nat.ltb (riskRank a) (riskRank b) then b else a.

(* src/internal/oteldiff/util.go:164-175 riskCategory *)
Definition riskCategory (rule : string) : string :=
  if Contains rule "auth" || Contains rule "security" || Contains rule "tls" || Contains rule "insecure"
  then "security"
  else if Contains rule "pipeline" || Contains rule "exporter" then "data_loss"
  else if Contains rule "sampling" then "cost" else "routing".

Definition replace_char (from to : ascii) : string -> string :=
  map_str (fun c => if Ascii.eqb c from then to else c).
(* src/internal/oteldiff/util.go:176-176 titleForRule *)
Definition titleForRule (rule : string) : string := replace_char "_" " " rule.

(* src/internal/oteldiff/util.go:230-235 lastPathPart *)
Definition lastPathPart (path : string) : string := List.last (Split path ".") "".

(** [walk]: the visits in order, as pairs of path and value. *)
(* src/internal/oteldiff/util.go:217-229 walk *)
Fixpoint walk (v : value) (path : string) {struct v} : list (string * value) :=
  (path, v) ::
  match v with
  | VMap m =>
      let visits := walk <$> m in
      flat_map (fun k => match visits !! k with Some f => f (path +:+ "." +:+ k) | None => [] end)
        (sorted_keys m)
  | VList l =>
      concat (imap (fun i f => f (path +:+ "[" +:+ Itoa i +:+ "]")) (map walk l))
  | _ => []
  end.

(** [reflect.DeepEqual] on these values; [key_eq] is [==] on two keys. *)
Definition key_eq (a b : value) : bool :=
  match a, b with
  | VNull, VNull => true
  | VBool x, VBool y => eqb x y
  | VInt x, VInt y | VUint x, VUint y => (x =? y)%Z
  | VFloat x, VFloat y => feq x y
  | VStr x, VStr y | VTime x, VTime y => x =s y
  | _, _ => false
  end.
Fixpoint DeepEqual (a b : value) {struct a} : bool :=
  match a, b with
  | VMap m, VMap m' =>
      Nat.eqb (size m) (size m') &&
      map_fold (fun k f acc => acc && match m' !! k with Some y => f y | None => false end)
        true (DeepEqual <$> m)
  | VList l, VList l' =>
      Nat.eqb (length l) (length l') &&
      forallb (fun p => p.1 p.2) (zip (map DeepEqual l) l')
  | VAnyMap l, VAnyMap l' =>
      Nat.eqb (length l) (length l') &&
      forallb (fun p => existsb (fun p' => key_eq p.1 p'.1 && DeepEqual p.2 p'.2) l') l
  | _, _ => key_eq a b
  end.

(** ** canonical: json.Marshal *)

(** The shortest decimal text of a finite float64, as encoding/json writes it and as
    [strconv.FormatFloat(x, 'f', -1, 64)] does. *)
Class FloatText := { json_float : float64 -> string; format_f : float64 -> string }.

Definition in_range (lo hi : N) (c : ascii) : bool := ((lo <=? code c) && (code c <=? hi))%N.
Definition cont : ascii -> bool := in_range 128 191.

(** A byte of a one-byte rune inside a JSON string, HTML characters escaped. *)
Definition json_char (c : ascii) : string :=
  let esc (n : N) := bytes [92; n]%N in
  let n := code c in
  if N.eqb n 34 then esc 34%N else if N.eqb n 92 then esc 92%N
  else if N.eqb n 8 then esc 98%N else if N.eqb n 12 then esc 102%N
  else if N.eqb n 10 then esc 110%N else if N.eqb n 13 then esc 114%N
  else if N.eqb n 9 then esc 116%N
  else if (N.ltb n 32 || N.eqb n 60 || N.eqb n 62 || N.eqb n 38)%bool
  then bytes [92; 117; 48; 48]%N +:+ hex_encode [n]
  else String c "".

Definition bad_rune : string := bytes [92]%N +:+ "ufffd".

(** The longest valid UTF-8 encoding at the head is kept (U+2028 and U+2029 escaped),
    a byte that starts none is replaced. *)
Fixpoint json_body (s : string) : string :=
  match s with
  | EmptyString => ""
  | String c r =>
      if (code c <? 128)%N then json_char c +:+ json_body r else
      match r with
      | String c1 r1 =>
          if in_range 194 223 c && cont c1 then String c (String c1 (json_body r1)) else
          match r1 with
          | String c2 r2 =>
              if ((N.eqb (code c) 224 && in_range 160 191 c1) || (N.eqb (code c) 237 && in_range 128 159 c1)
                  || ((in_range 225 236 c || in_range 238 239 c) && cont c1)) && cont c2
              then (if N.eqb (code c) 226 && N.eqb (code c1) 128 && in_range 168 169 c2
                    then bytes [92]%N +:+ "u202" +:+ (if N.eqb (code c2) 168 then "8" else "9")
                    else String c (String c1 (String c2 ""))) +:+ json_body r2
              else
              match r2 with
              | String c3 r3 =>
                  if ((N.eqb (code c) 240 && in_range 144 191 c1) || (in_range 241 243 c && cont c1)
                      || (N.eqb (code c) 244 && in_range 128 143 c1)) && cont c2 && cont c3
                  then String c (String c1 (String c2 (String c3 (json_body r3))))
                  else bad_rune +:+ json_body r
              | EmptyString => bad_rune +:+ json_body r
              end
          | EmptyString => bad_rune +:+ json_body r
          end
      | EmptyString => bad_rune +:+ json_body r
      end
  end.
Definition json_string (s : string) : string := bytes [34]%N +:+ json_body s +:+ bytes [34]%N.

(** [None]: an unsupported value (a float that is not finite, a [map[any]any]). *)
Fixpoint Marshal `{FloatText} (v : value) : option string :=
  match v with
  | VNull => Some "null"
  | VBool b => Some (if b then "true" else "false")
  | VInt z | VUint z => Some (pretty z)
  | VFloat (S754_finite _ _ _ as x) | VFloat (S754_zero _ as x) => Some (json_float x)
  | VFloat _ => None
  | VStr s => Some (json_string s)
  | VTime s => Some (json_string s)
  | VList l =>
      match mapM (M := option) id (map Marshal l) with
      | Some texts => Some ("[" +:+ Join "," texts +:+ "]")
      | None => None
      end
  | VMap m =>
      let texts := Marshal <$> m in
      match mapM (M := option) (fun k => t ← mjoin (texts !! k); Some (json_string k +:+ ":" +:+ t))
              (sorted_keys m) with
      | Some fields => Some ("{" +:+ Join "," fields +:+ "}")
      | None => None
      end
  | VAnyMap _ => None
  end.

(** The error is dropped: [json.Marshal] returns no bytes then. *)
(* src/internal/oteldiff/util.go:144-144 canonical *)
Definition canonical `{FloatText} (v : value) : string := default "" (Marshal v).

(** ** redaction.go: what is secret *)

(** [strings.FieldsFunc]: the maximal runs of bytes that are not separators. *)
Fixpoint fields_from (sep : ascii -> bool) (acc : string) (s : string) : list string :=
  match s with
  | EmptyString => if acc =s "" then [] else [acc]
  | String c r =>
      if sep c then (if acc =s "" then [] else [acc]) ++ fields_from sep "" r
      else fields_from sep (acc +:+ String c "") r
  end.
Definition path_separator (c : ascii) : bool :=
  Ascii.eqb c "." || Ascii.eqb c "/" || Ascii.eqb c "[" || Ascii.eqb c "]".

Section Unicode.
Context `{UnicodeTables}.

Definition secrets : list string :=
  [ "authorization"; "proxy_authorization"; "password"; "passwd"; "token"; "access_token";
    "refresh_token"; "bearer_token"; "secret"; "client_secret"; "api_key"; "apikey"; "private_key";
    "key_pem"; "cert_pem"; "credentials"; "cookie"; "set_cookie"; "x_api_key"; "dd_api_key";
    "signalfx_access_token"; "x_sf_token"; "x_honeycomb_team"; "x_otlp_api_key" ].
(* src/internal/oteldiff/redaction.go:89-98 isSecretKey *)
Definition isSecretKey (k : string) : bool :=
  let k := ToLower (replace_char "-" "_" k) in
  existsb (fun s => (k =s s) || Contains k s) secrets.

(* src/internal/oteldiff/redaction.go:77-85 isSensitivePath *)
Definition isSensitivePath (path : string) : bool :=
  existsb isSecretKey (fields_from path_separator "" (ToLower path)).

(* src/internal/oteldiff/redaction.go:86-88 isAuthPath *)
Definition isAuthPath (path : string) : bool :=
  Contains path "auth" || Contains path "authorization" || Contains path "bearer_token"
  || Contains path "api_key" || Contains path "client_secret" || Contains path "password"
  || Contains path "token".

(* src/internal/oteldiff/redaction.go:99-102 looksSecret *)
Definition looksSecret (s : string) : bool :=
  let l := ToLower s in
  Contains l "bearer " || Contains l "secret" || Contains l "token" || Contains l "api-key"
  || Contains l "apikey".
(* src/internal/oteldiff/redaction.go:103-108 redactSecretLikeString *)
Definition redactSecretLikeString (s : string) : string := if looksSecret s then MaskedValue else s.

(* src/internal/oteldiff/redaction.go:115-117 isInsecurePath *)
Definition isInsecurePath (path : string) : bool :=
  HasSuffix path ".insecure" || HasSuffix path ".insecure_skip_verify" || Contains path "tls.insecure".
(* src/internal/oteldiff/redaction.go:118-122 boolBecameTrue *)
Definition boolBecameTrue (b t : value) : bool :=
  match t with VBool tv => tv && match b with VBool bv => negb bv | _ => true end | _ => false end.

(** A [float32] or a [json.Number] is never produced by the YAML decoder, and an [int64]
    is an [int] on a 64-bit platform. *)
(* src/internal/oteldiff/redaction.go:139-155 number *)
Definition number (v : value) : option float64 :=
  match v with VInt z => Some (of_int z) | VFloat f => Some f | _ => None end.

Definition f_half : float64 := S754_finite false 4503599627370496 (-53).
Definition f_two : float64 := of_int 2.
(* src/internal/oteldiff/redaction.go:124-138 strongSamplingChange *)
Definition strongSamplingChange (b t : value) : bool :=
  match number b, number t with
  | Some bf, Some tf =>
      if feq tf f_zero && negb (feq bf f_zero) then true
      else if feq bf f_zero then false
      else
        let ratio := SFdiv float_prec float_emax tf bf in
        SFleb ratio f_half || SFleb f_two ratio || (feq bf f_hundred && flt tf f_hundred)
  | _, _ => false
  end.
(* src/internal/oteldiff/redaction.go:156-159 isSamplingID *)
Definition isSamplingID (id : string) : bool :=
  let l := ToLower id in
  Contains l "sampling" || Contains l "probabilistic_sampler" || Contains l "tail_sampling".

(** ** endpoints.go: URLs *)

(** The struct [url.URL] (user information as its text). *)
Record URL := mkURL {
  u_Scheme : string; u_Opaque : string; u_User : option string; u_Host : string; u_Path : string;
  u_RawPath : string; u_OmitHost : bool; u_ForceQuery : bool; u_RawQuery : string; u_Fragment : string;
  u_RawFragment : string }.

(** The text formats of net/url: parsing, printing, the path's escaping and the query's. *)
Class UrlLib := {
  url_Parse : string -> option URL;
  url_String : URL -> string;
  url_EscapedPath : URL -> string;
  url_ParseQuery : string -> gmap string (list string);
  url_Encode : gmap string (list string) -> string
}.

Context `{UrlLib}.

(** [u.Hostname()] and [u.Port()]: [splitHostPort]. *)
Definition last_colon (s : string) : option (string * string) :=
  match rev (Split s ":") with
  | port :: (_ :: _) as l => Some (Join ":" (rev (tail l)), port)
  | _ => None
  end.
Definition splitHostPort (hostPort : string) : string * string :=
  let '(host, port) :=
    match last_colon hostPort with
    | Some (h, p) => if all_digits p then (h, p) else (hostPort, "")
    | None => (hostPort, "")
    end in
  if HasPrefix host "[" && HasSuffix host "]"
  then (take_str (String.length host - 2) (drop_str 1 host), port) else (host, port).

Definition mask_secret_params (q : gmap string (list string)) : gmap string (list string) :=
  map_imap (fun k v => Some (if isSecretKey k then [MaskedValue] else v)) q.

(* src/internal/oteldiff/endpoints.go:103-129 sanitizeEndpoint *)
Definition sanitizeEndpoint (raw : string) : string :=
  let raw := TrimSpace raw in
  let added := negb (Contains raw "://") in
  let parse := if added then "https://" +:+ raw else raw in
  match url_Parse parse with
  | None => redactSecretLikeString raw
  | Some u =>
      let q := mask_secret_params (url_ParseQuery (u_RawQuery u)) in
      let u := mkURL (u_Scheme u) (u_Opaque u) None (u_Host u) (u_Path u) (u_RawPath u) (u_OmitHost u)
                 (u_ForceQuery u) (url_Encode q) "" (u_RawFragment u) in
      let s := url_String u in
      if added then TrimPrefix s "https://" else s
  end.

Fixpoint trim_right_char (c : ascii) (s : string) : string :=
  match s with
  | EmptyString => ""
  | String d r =>
      match trim_right_char c r with
      | EmptyString => if Ascii.eqb d c then "" else String d ""
      | r' => String d r'
      end
  end.
(* src/internal/oteldiff/endpoints.go:130-136 normalizeURL *)
Definition normalizeURL (u : URL) : string :=
  trim_right_char "/"
    (url_String (mkURL (u_Scheme u) (u_Opaque u) None (ToLower (u_Host u)) (u_Path u) (u_RawPath u)
                   (u_OmitHost u) (u_ForceQuery u) (u_RawQuery u) "" (u_RawFragment u))).

(* src/internal/oteldiff/endpoints.go:77-102 parseEndpoint *)
Definition parseEndpoint (raw : string) (ref : ComponentRef) : EndpointValue :=
  let sanitized := sanitizeEndpoint raw in
  let parse :=
    if Contains sanitized "://" then sanitized
    else if HasPrefix (cr_Type ref) "otlphttp" then "http://" +:+ sanitized else "grpc://" +:+ sanitized in
  match url_Parse parse with
  | None => mkEndpoint sanitized "" "" 0 "" sanitized false false
  | Some u =>
      let '(host, p) := splitHostPort (u_Host u) in
      let port := if p <>s "" then (let '(n, ok) := Atoi p in if ok then n else 0%Z) else 0%Z in
      mkEndpoint sanitized (u_Scheme u) (ToLower host) port (url_EscapedPath u) (normalizeURL u)
        ((u_Scheme u =s "http") || (u_Scheme u =s "grpc")) (u_Scheme u =s "https")
  end.

(* src/internal/oteldiff/endpoints.go:35-42 isEndpointKey *)
Definition isEndpointKey (k : string) : bool :=
  let l := ToLower k in
  (l =s "endpoint") || (l =s "url") || (l =s "server") || (l =s "address") || (l =s "listen_address").
(* src/internal/oteldiff/endpoints.go:43-51 endpointKind *)
Definition endpointKind (ref : ComponentRef) : string :=
  if HasPrefix (cr_Type ref) "otlphttp" then "otlp_http"
  else if HasPrefix (cr_Type ref) "otlp" then "otlp_grpc" else "generic".

(** The exporter's destination moved. *)
Definition otlp_moved (ref : ComponentRef) (b t : EndpointValue) : bool :=
  HasPrefix (cr_Type ref) "otlp" && (cr_Category ref =s "exporters") &&
  ((ev_Host b <>s ev_Host t) || negb (ev_Port b =? ev_Port t)%Z || (ev_Scheme b <>s ev_Scheme t)).
(* src/internal/oteldiff/endpoints.go:52-63 endpointRisk *)
Definition endpointRisk (ref : ComponentRef) (b t : EndpointValue) : Risk :=
  if otlp_moved ref b t then RiskHigh
  else if cr_Category ref =s "receivers" then RiskMedium
  else if (ev_Scheme b =s "https") && (ev_Scheme t =s "http") then RiskHigh
  else RiskMedium.
(* src/internal/oteldiff/endpoints.go:64-76 endpointRules *)
Definition endpointRules (ref : ComponentRef) (b t : EndpointValue) : list string :=
  let r := if otlp_moved ref b t then appendRule [] "otlp_endpoint_changed" else [] in
  let r := if cr_Category ref =s "receivers" then appendRule r "receiver_endpoint_exposure_changed" else r in
  if (ev_Scheme b =s "https") && (ev_Scheme t =s "http")
  then appendRule r "transport_security_weakened" else r.

(** ** redaction.go: what is shown *)

(* src/internal/oteldiff/redaction.go:109-114 sanitizeEndpointIfURL *)
Definition sanitizeEndpointIfURL (s : string) : string :=
  if Contains s "://" && (Contains s "@" || Contains s "?") then sanitizeEndpoint s else s.

(* src/internal/oteldiff/redaction.go:39-76 redactValue *)
Fixpoint redactValue (v : value) (path : string) {struct v} : value :=
  match v with
  | VNull => VNull
  | _ =>
      if isSensitivePath path then VStr MaskedValue else
      match v with
      | VMap m =>
          let shown := redactValue <$> m in
          VMap (map_imap (fun k f =>
                  Some (if Contains (ToLower path) "headers" && isSecretKey k then VStr MaskedValue
                        else f (path +:+ "." +:+ k))) shown)
      | VList l => VList (imap (fun i f => f (path +:+ "[" +:+ Itoa i +:+ "]")) (map redactValue l))
      | VStr s =>
          VStr (if isSensitivePath path || looksSecret s then MaskedValue else sanitizeEndpointIfURL s)
      | x => x
      end
  end.

(* src/internal/oteldiff/redaction.go:31-37 fieldRisk *)
Definition fieldRisk (path : string) (b t : value) : Risk :=
  let l := ToLower path in
  if isAuthPath l || Contains l "headers"
     || (isInsecurePath l && boolBecameTrue (redactValue b path) (redactValue t path))
  then RiskHigh else RiskLow.

Definition field_change (path : string) (b t : value) : list FieldChange :=
  if DeepEqual b t then []
  else [mkField path (redactValue b path) (redactValue t path) (fieldRisk path b t)].

(* src/internal/oteldiff/redaction.go:17-30 walkDiff *)
Fixpoint walkDiff (b : value) (path : string) (t : value) {struct b} : list FieldChange :=
  match b, t with
  | VMap bm, VMap tm =>
      let visits := walkDiff <$> bm in
      flat_map (fun k =>
          let path := path +:+ "." +:+ k in
          match visits !! k with
          | Some f => f path (get tm k)
          | None => field_change path VNull (get tm k)
          end)
        (sorted_set (sorted_keys bm ++ sorted_keys tm))
  | _, _ => field_change path b t
  end.

(* src/internal/oteldiff/redaction.go:11-16 changedFields *)
Definition changedFields (prefix : string) (b t : value) : list FieldChange :=
  sort_by (less_of (by_key fc_Path str_cmp)) (walkDiff b prefix t).

(** ** labels.go *)

(* src/internal/oteldiff/labels.go:9-15 componentTypeName *)
Definition componentTypeName (id : string) : string * string :=
  match Cut id "/" with (typ, Some name) => (typ, name) | (_, None) => (id, "") end.
(* src/internal/oteldiff/labels.go:5-8 componentRef *)
Definition componentRef (cat id : string) : ComponentRef :=
  let '(typ, name) := componentTypeName id in mkRef cat id typ name (cat +:+ "." +:+ id).
(* src/internal/oteldiff/labels.go:16-16 singular *)
Definition singular (cat : string) : string := TrimSuffix cat "s".
(* src/internal/oteldiff/labels.go:50-58 humanSafeLabel *)
Definition humanSafeLabel (label : string) : string :=
  if label =s "" then ""
  else if isSensitivePath label || looksSecret label then MaskedValue
  else sanitizeEndpointIfURL label.
(* src/internal/oteldiff/labels.go:17-38 humanComponentName *)
Definition humanComponentName (id : string) : string :=
  if humanSafeLabel id =s MaskedValue then MaskedValue else
  let '(typ, name) := componentTypeName id in
  let label := if name <>s "" then name else typ in
  let l := ToLower label in
  if l =s "loki" then "Loki" else if l =s "otlp" then "OTLP" else if l =s "otlphttp" then "OTLP HTTP"
  else if l =s "prometheus" then "Prometheus" else humanSafeLabel label.
(* src/internal/oteldiff/labels.go:39-49 humanFieldName *)
Definition humanFieldName (path : string) : string :=
  let field := List.last (Split path ".") "" in
  if humanSafeLabel field =s MaskedValue then "sensitive setting" else replace_char "_" " " field.
(* src/internal/oteldiff/labels.go:59-65 humanSafePath *)
Definition humanSafePath (path : string) : string := Join "." (map humanSafeLabel (Split path ".")).
(* src/internal/oteldiff/labels.go:66-74 signalOf *)
Definition signalOf (key : string) : string :=
  let sig := (Cut key "/").1 in
  if (sig =s "traces") || (sig =s "metrics") || (sig =s "logs") || (sig =s "profiles") then sig
  else "unknown".

(* src/internal/oteldiff/labels.go:75-81 removedComponentRisk *)
Definition removedComponentRisk (cat id : string) : Risk :=
  let typ := (componentTypeName id).1 in
  if (cat =s "exporters")
     || ((cat =s "processors") && ((typ =s "batch") || (typ =s "memory_limiter") || isSamplingID id))
  then RiskHigh else RiskMedium.
(* src/internal/oteldiff/labels.go:82-98 removedComponentRules *)
Definition removedComponentRules (cat id : string) : list string :=
  let typ := (componentTypeName id).1 in
  (if cat =s "exporters" then ["exporter_removed"] else []) ++
  (if (cat =s "processors") && (typ =s "batch") then ["batch_processor_removed_from_pipeline"] else []) ++
  (if (cat =s "processors") && (typ =s "memory_limiter") then ["memory_limiter_removed_from_pipeline"] else []) ++
  (if (cat =s "processors") && isSamplingID id then ["sampling_guard_removed"] else []).

Definition weakened (f : FieldChange) : bool :=
  isInsecurePath (ToLower (fc_Path f)) && boolBecameTrue (fc_Before f) (fc_After f).
Definition credential (f : FieldChange) : bool :=
  isAuthPath (ToLower (fc_Path f)) || Contains (ToLower (fc_Path f)) "headers".
Definition resampled (id : string) (f : FieldChange) : bool :=
  isSamplingID id && Contains (ToLower (fc_Path f)) "sampling_percentage".

Definition field_risk (id : string) (r : Risk) (f : FieldChange) : Risk :=
  let r := if credential f || weakened f then maxRisk r RiskHigh else r in
  if resampled id f then
    (if strongSamplingChange (fc_Before f) (fc_After f) then maxRisk r RiskHigh else maxRisk r RiskMedium)
  else r.
(* src/internal/oteldiff/labels.go:99-115 componentModifiedRisk *)
Definition componentModifiedRisk (id : string) (fields : list FieldChange) : Risk :=
  foldl (field_risk id) RiskLow fields.
(* src/internal/oteldiff/labels.go:116-135 componentModifiedRules *)
Definition componentModifiedRules (id : string) (fields : list FieldChange) : list string :=
  foldl (fun rules f =>
      let rules := if credential f then appendRule rules "auth_header_modified" else rules in
      let rules := if weakened f then appendRule rules "transport_security_weakened" else rules in
      if resampled id f then
        (if strongSamplingChange (fc_Before f) (fc_After f)
         then appendRule rules "sampling_rate_strongly_changed"
         else appendRule rules "sampling_policy_modified")
      else rules)
    [] fields.

(** ** pipeline_refs.go *)

(** The last index of each name. *)
(* src/internal/oteldiff/util.go:100-106 indexMap *)
Definition indexMap (s : list string) : gmap string nat :=
  foldl (fun m p => <[p.2 := p.1]> m) ∅ (imap (fun i v => (i, v)) s).

(** The risk and the reason of a reference that the target drops. *)
Definition removed_ref (section : string) (t : list string) (id : string) : Risk * string :=
  let typ := (componentTypeName id).1 in
  let '(r, reason) := (RiskMedium, "") in
  let '(r, reason) :=
    if (section =s "processors") && (typ =s "batch")
    then (RiskHigh, "batch_processor_removed_from_pipeline") else (r, reason) in
  let '(r, reason) :=
    if (section =s "processors") && (typ =s "memory_limiter")
    then (RiskHigh, "memory_limiter_removed_from_pipeline") else (r, reason) in
  let '(r, reason) :=
    if (section =s "processors") && isSamplingID id
    then (RiskHigh, "sampling_guard_removed") else (r, reason) in
  if section =s "exporters" then
    match t with
    | [] => (RiskHigh, "pipeline_broken")
    | _ => (RiskMedium, "pipeline_exporter_set_changed")
    end
  else (r, reason).

(* src/internal/oteldiff/pipeline_refs.go:10-52 refChanges *)
Definition refChanges (section : string) (b t : list string) : list PipelineRefChange :=
  let bm := indexMap b in
  let tm := indexMap t in
  flat_map (fun id =>
      match bm !! id, tm !! id with
      | Some bi, None =>
          let '(r, reason) := removed_ref section t id in
          [mkRefChange section id ChangeRemoved (Some bi) None r reason]
      | None, Some ti =>
          let r := if section =s "receivers" then RiskMedium else RiskLow in
          [mkRefChange section id ChangeAdded None (Some ti) r ""]
      | _, _ => []
      end)
    (sorted_set (sorted_keys bm ++ sorted_keys tm)).

(* src/internal/oteldiff/pipeline_refs.go:3-9 pipelineRefChanges *)
Definition pipelineRefChanges (b t : PipelineShape) : list PipelineRefChange :=
  refChanges "receivers" (ps_Receivers b) (ps_Receivers t) ++
  refChanges "processors" (ps_Processors b) (ps_Processors t) ++
  refChanges "exporters" (ps_Exporters b) (ps_Exporters t).

(* src/internal/oteldiff/util.go:198-216 pipelineUses *)
Definition pipelineUses (p : PipelineShape) (cat id : string) : bool :=
  let uses := existsb (fun v => v =s id) in
  if cat =s "receivers" then uses (ps_Receivers p)
  else if cat =s "processors" then uses (ps_Processors p)
  else if cat =s "exporters" then uses (ps_Exporters p)
  else false.
(* src/internal/oteldiff/util.go:184-197 impactedPipelines *)
Definition impactedPipelines (base target : gmap string PipelineShape) (cat id : string) : list string :=
  let users m := List.filter (fun name => match m !! name with Some p => pipelineUses p cat id | None => false end)
                   (sorted_keys m) in
  sorted_set (users base ++ users target).

(** ** Walks *)

Lemma elem_of_sorted_set x l : x ∈ sorted_set l <-> x ∈ l.
Proof. unfold sorted_set, sort_strings. by rewrite elem_of_sort_by, elem_of_remove_dups. Qed.

Lemma normalizeValue_id v : normalizeValue v = v.
Proof.
  induction v as [l IH|m IH|v Hl Hm] using value_induction.
  - cbn. f_equal. induction l as [|x l IHl]; [done|]. cbn. rewrite IH by apply list_elem_of_here.
    f_equal. apply IHl. intros y Hy. apply IH. by apply list_elem_of_further.
  - cbn. f_equal. apply map_eq. intros k. rewrite lookup_fmap.
    destruct (m !! k) as [x|] eqn:E; [|done]. cbn. by rewrite (IH k x E).
  - destruct v; try done; [by destruct (Hl l)|by destruct (Hm m)].
Qed.

Lemma walk_map m path p x :
  (p, x) ∈ walk (VMap m) path <->
  (p, x) = (path, VMap m) \/ exists k y, m !! k = Some y /\ (p, x) ∈ walk y (path +:+ "." +:+ k).
Proof.
  cbn [walk]. rewrite elem_of_cons. apply or_iff_compat_l.
  rewrite list_elem_of_In, in_flat_map. setoid_rewrite <- list_elem_of_In. split.
  - intros (k & Hk & Hp). rewrite lookup_fmap in Hp.
    destruct (m !! k) as [y|] eqn:E; [|by apply not_elem_of_nil in Hp]. eauto.
  - intros (k & y & Hy & Hp). exists k. rewrite elem_of_sorted_keys, lookup_fmap, Hy. cbn. eauto.
Qed.

Lemma walk_list l path p x :
  (p, x) ∈ walk (VList l) path <->
  (p, x) = (path, VList l) \/
  exists i y, l !! i = Some y /\ (p, x) ∈ walk y (path +:+ "[" +:+ Itoa i +:+ "]").
Proof.
  cbn [walk]. rewrite elem_of_cons. apply or_iff_compat_l.
  rewrite list_elem_of_In, in_concat. setoid_rewrite <- list_elem_of_In. split.
  - intros (visits & Hv & Hp). apply list_elem_of_lookup in Hv as [i Hi].
    rewrite list_lookup_imap, list_lookup_fmap in Hi.
    destruct (l !! i) as [y|] eqn:E; [|done]. cbn in Hi. simplify_eq. eauto.
  - intros (i & y & Hy & Hp). eexists. split; [|exact Hp].
    apply list_elem_of_lookup. exists i. by rewrite list_lookup_imap, list_lookup_fmap, Hy.
Qed.

Lemma walk_leaf v path : (forall l, v <> VList l) -> (forall m, v <> VMap m) -> walk v path = [(path, v)].
Proof. destruct v; try done; intros Hl Hm; [by destruct (Hl l)|by destruct (Hm m)]. Qed.

(** ** Redaction *)

(** What may be shown at path [p] of the redaction of [v]. *)
Definition harmless (v : value) (path p : string) (x : value) : Prop :=
  x = VNull \/ x = VStr MaskedValue \/
  isSensitivePath p = false /\
  forall s, x = VStr s -> exists s0,
    (p, VStr s0) ∈ walk v path /\ looksSecret s0 = false /\ s = sanitizeEndpointIfURL s0.

Lemma harmless_sub v path v' path' p x :
  (forall s, (p, VStr s) ∈ walk v' path' -> (p, VStr s) ∈ walk v path) ->
  harmless v' path' p x -> harmless v path p x.
Proof. intros Hsub [?|[?|[Hp Hs]]]; [by left|by right; left|]. right; right. naive_solver. Qed.

Lemma sensitive_harmless v path p x : isSensitivePath path = true ->
  (p, x) ∈ walk (redactValue v path) path -> harmless v path p x.
Proof.
  intros Hs Hx.
  assert (redactValue v path = VNull \/ redactValue v path = VStr MaskedValue) as [E|E]
    by (destruct v; cbn; rewrite ?Hs; auto);
  rewrite E in Hx; apply list_elem_of_singleton in Hx; simplify_eq; [by left|by right; left].
Qed.

(** The redaction at a path that is not itself sensitive. *)
Lemma redact_map m path : isSensitivePath path = false ->
  redactValue (VMap m) path =
  VMap (map_imap (fun k y => Some (if Contains (ToLower path) "headers" && isSecretKey k then VStr MaskedValue
                                   else redactValue y (path +:+ "." +:+ k))) m).
Proof.
  intros Hs. cbn. rewrite Hs. f_equal. apply map_eq. intros k.
  rewrite !map_lookup_imap, lookup_fmap. by destruct (m !! k).
Qed.

Lemma redact_list l path : isSensitivePath path = false ->
  redactValue (VList l) path = VList (imap (fun i y => redactValue y (path +:+ "[" +:+ Itoa i +:+ "]")) l).
Proof. intros Hs. cbn. rewrite Hs. f_equal. apply list_eq. intros i.
  rewrite !list_lookup_imap, list_lookup_fmap. by destruct (l !! i). Qed.

Lemma redact_harmless v : forall path p x, (p, x) ∈ walk (redactValue v path) path -> harmless v path p x.
Proof.
  induction v as [l IH|m IH|v Hl Hm] using value_induction; intros path p x Hx;
    (destruct (isSensitivePath path) eqn:Hs; [by apply (sensitive_harmless _ _ _ _ Hs)|]).
  - rewrite (redact_list _ _ Hs), walk_list in Hx. destruct Hx as [[= -> ->]|(i & y & Hy & Hx)].
    { right; right. split; [done|]. intros s [=]. }
    rewrite list_lookup_imap in Hy. destruct (l !! i) as [z|] eqn:Ez; [|done]. cbn in Hy. simplify_eq.
    apply (harmless_sub _ _ z (path +:+ "[" +:+ Itoa i +:+ "]")).
    + intros s Hp. apply walk_list. right. eauto.
    + apply (IH z); [|done]. by apply list_elem_of_lookup_2 in Ez.
  - rewrite (redact_map _ _ Hs), walk_map in Hx. destruct Hx as [[= -> ->]|(k & y & Hy & Hx)].
    { right; right. split; [done|]. intros s [=]. }
    rewrite map_lookup_imap in Hy. destruct (m !! k) as [z|] eqn:Ez; [|done]. cbn in Hy.
    destruct (_ && _); simplify_eq.
    { apply list_elem_of_singleton in Hx. simplify_eq. by right; left. }
    apply (harmless_sub _ _ z (path +:+ "." +:+ k)); [|by apply (IH k z)].
    intros s Hp. apply walk_map. right. eauto.
  - rewrite walk_leaf in Hx by (destruct v; cbn; rewrite ?Hs; naive_solver).
    apply list_elem_of_singleton in Hx. simplify_eq.
    destruct v as [|b|z|f|s|l|m|z|s|l]; cbn; rewrite ?Hs; try by left.
    all: try by (right; right; split; [done|intros ? [=]]).
    cbn. destruct (looksSecret s) eqn:El; [by right; left|]. right; right. split; [done|].
    intros s' [= <-]. exists s. split; [by apply list_elem_of_singleton|done].
Qed.


(** ** The changed fields *)

(** [x] and [y] stand at the key path [ks] of two values that are maps along the way and
    not both maps there; a key that one side lacks reads as nil. *)
Inductive facing : value -> value -> list string -> value -> value -> Prop :=
| facing_here b t : asMap b = None \/ asMap t = None -> facing b t [] b t
| facing_below bm tm k ks x y :
    facing (get bm k) (get tm k) ks x y -> facing (VMap bm) (VMap tm) (k :: ks) x y.

Fixpoint field_path (path : string) (ks : list string) : string :=
  match ks with [] => path | k :: r => field_path (path +:+ "." +:+ k) r end.

Lemma in_field_change f path b t :
  f ∈ field_change path b t <->
  DeepEqual b t = false /\ f = mkField path (redactValue b path) (redactValue t path) (fieldRisk path b t).
Proof.
  unfold field_change. destruct (DeepEqual b t).
  - split; [by intros ?%not_elem_of_nil|by intros []].
  - rewrite list_elem_of_singleton. naive_solver.
Qed.

Lemma walkDiff_here b path t : asMap b = None \/ asMap t = None -> walkDiff b path t = field_change path b t.
Proof. intros [Hb|Ht]; [by destruct b|by destruct b, t]. Qed.

Lemma walkDiff_maps bm tm path f :
  f ∈ walkDiff (VMap bm) path (VMap tm) <->
  exists k, f ∈ walkDiff (get bm k) (path +:+ "." +:+ k) (get tm k).
Proof.
  cbn [walkDiff]. rewrite list_elem_of_In, in_flat_map. setoid_rewrite <- list_elem_of_In.
  setoid_rewrite elem_of_sorted_set. setoid_rewrite elem_of_app. setoid_rewrite elem_of_sorted_keys.
  setoid_rewrite lookup_fmap. unfold get. split.
  - intros (k & _ & Hf). exists k. by destruct (bm !! k).
  - intros (k & Hf). exists k. destruct (bm !! k) as [b|] eqn:Eb; [cbn in Hf; naive_solver|].
    split; [|done]. destruct (tm !! k) as [t|] eqn:Et; [naive_solver|].
    apply in_field_change in Hf as [Hd _]. done.
Qed.

Definition reported (path : string) (ks : list string) (x y : value) : FieldChange :=
  let p := field_path path ks in mkField p (redactValue x p) (redactValue y p) (fieldRisk p x y).

Lemma walkDiff_spec_here b path t f : asMap b = None \/ asMap t = None ->
  f ∈ walkDiff b path t <->
  exists ks x y, facing b t ks x y /\ DeepEqual x y = false /\ f = reported path ks x y.
Proof.
  intros Hh. rewrite walkDiff_here, in_field_change by done. split.
  - intros [Hd ->]. exists [], b, t. split; [by constructor|done].
  - intros (ks & x & y & Hf & Hd & ->). inversion Hf; subst; [done|]. by destruct Hh.
Qed.

Lemma walkDiff_spec b : forall path t f,
  f ∈ walkDiff b path t <->
  exists ks x y, facing b t ks x y /\ DeepEqual x y = false /\ f = reported path ks x y.
Proof.
  induction b as [l IH|m IH|b Hl Hm] using value_induction; intros path t f.
  1: by apply walkDiff_spec_here; left.
  2: by apply walkDiff_spec_here; left; destruct b; try done; destruct (Hm m).
  destruct (asMap t) as [tm|] eqn:Et; [|by apply walkDiff_spec_here; right].
  destruct t; try discriminate Et. injection Et as ->. rewrite walkDiff_maps.
  assert (step : forall k, f ∈ walkDiff (get m k) (path +:+ "." +:+ k) (get tm k) <->
    exists ks x y, facing (get m k) (get tm k) ks x y /\ DeepEqual x y = false /\
      f = reported (path +:+ "." +:+ k) ks x y).
  { intros k. unfold get at 1 3. destruct (m !! k) as [b|] eqn:Eb; [by apply (IH k)|].
    by apply walkDiff_spec_here; left. }
  setoid_rewrite step. split.
  - intros (k & ks & x & y & Hf & Hd & ->). exists (k :: ks), x, y. split; [by constructor|done].
  - intros (ks & x & y & Hf & Hd & ->). inversion Hf; subst; [naive_solver|]. eauto 10.
Qed.

(** The changed fields of a component are exactly the places where the two
    configurations differ: the deepest ones whose enclosing maps exist on both sides,
    each reported with its full path and its two redacted values. *)
Theorem changedFields_exact (prefix : string) (b t : value) (f : FieldChange) :
  f ∈ changedFields prefix b t <->
  exists ks x y, facing b t ks x y /\ DeepEqual x y = false /\
    f = mkField (field_path prefix ks) (redactValue x (field_path prefix ks))
          (redactValue y (field_path prefix ks)) (fieldRisk (field_path prefix ks) x y).
Proof. unfold changedFields. rewrite elem_of_sort_by. apply walkDiff_spec. Qed.

(** ** References of a pipeline *)

Lemma indexMap_None s id : indexMap s !! id = None <-> id ∉ s.
Proof.
  unfold indexMap.
  assert (forall (l : list (nat * string)) m,
    foldl (fun m p => <[p.2 := p.1]> m) m l !! id = None <-> (m : gmap string nat) !! id = None /\ id ∉ l.*2) as Hg.
  { intros l. induction l as [|[i v] l IH]; intros m; cbn; [rewrite elem_of_nil; naive_solver|].
    rewrite IH, lookup_insert_None, not_elem_of_cons. naive_solver. }
  rewrite Hg, lookup_empty.
  replace ((imap (fun i v => (i, v)) s).*2) with s; [naive_solver|].
  apply list_eq. intros i. rewrite list_lookup_fmap, list_lookup_imap. by destruct (s !! i).
Qed.

Lemma indexMap_Some s id : is_Some (indexMap s !! id) <-> id ∈ s.
Proof.
  rewrite <- not_eq_None_Some, indexMap_None. split; [|naive_solver].
  intros Hn. destruct (decide (id ∈ s)); naive_solver.
Qed.

Lemma elem_of_refChanges section b t c :
  c ∈ refChanges section b t <->
  exists id, (exists i, c = mkRefChange section id ChangeRemoved (Some i) None (removed_ref section t id).1
                              (removed_ref section t id).2 /\ indexMap b !! id = Some i /\ id ∉ t) \/
             (exists i, c = mkRefChange section id ChangeAdded None (Some i)
                              (if section =s "receivers" then RiskMedium else RiskLow) "" /\
                        indexMap t !! id = Some i /\ id ∉ b).
Proof.
  unfold refChanges. rewrite list_elem_of_In, in_flat_map. setoid_rewrite <- list_elem_of_In.
  setoid_rewrite elem_of_sorted_set. setoid_rewrite elem_of_app. setoid_rewrite elem_of_sorted_keys.
  setoid_rewrite <- indexMap_None. split.
  - intros (id & _ & Hc). exists id.
    destruct (indexMap b !! id) as [i|] eqn:Eb, (indexMap t !! id) as [j|] eqn:Et;
      try by apply not_elem_of_nil in Hc.
    + left. destruct (removed_ref section t id). apply list_elem_of_singleton in Hc. eauto.
    + right. apply list_elem_of_singleton in Hc. eauto.
  - intros (id & [(i & -> & Hb & Ht)|(i & -> & Ht & Hb)]); exists id; rewrite Hb, Ht; (split; [eauto|]).
    + destruct (removed_ref section t id). by apply list_elem_of_singleton.
    + by apply list_elem_of_singleton.
Qed.

(** The reference changes of a section are exactly the components that one side
    lists and the other does not: removed ones and added ones. *)
Theorem refChanges_exact (section : string) (b t : list string) :
  (forall id, (exists c, c ∈ refChanges section b t /\ rc_ComponentID c = id /\ rc_Kind c = ChangeRemoved)
              <-> id ∈ b /\ id ∉ t) /\
  (forall id, (exists c, c ∈ refChanges section b t /\ rc_ComponentID c = id /\ rc_Kind c = ChangeAdded)
              <-> id ∈ t /\ id ∉ b) /\
  (forall c, c ∈ refChanges section b t -> rc_Kind c = ChangeRemoved \/ rc_Kind c = ChangeAdded).
Proof.
  setoid_rewrite elem_of_refChanges. split; [|split].
  - intros id. rewrite <- indexMap_Some. split.
    + intros (c & (id' & [(i & -> & Hi & Ht)|(i & -> & _ & _)]) & Hid & Hk); naive_solver.
    + intros [[i Hi] Ht]. eexists. split; [exists id; left; eauto|done].
  - intros id. rewrite <- indexMap_Some. split.
    + intros (c & (id' & [(i & -> & _ & _)|(i & -> & Hi & Ht)]) & Hid & Hk); naive_solver.
    + intros [[i Hi] Ht]. eexists. split; [exists id; right; eauto|done].
  - intros c (id & [(i & -> & _)|(i & -> & _)]); auto.
Qed.

End Unicode.

(** ** A concrete instance *)

(** URLs of the form [scheme://user@host/path?query#fragment], a query with one
    parameter kept as it is. *)
Definition cut_after (s : string) (c : ascii) : string * string :=
  match Cut s c with (a, Some b) => (a, b) | (a, None) => (a, "") end.
Definition plain_urls : UrlLib := {|
  url_Parse s :=
    match Cut s ":" with
    | (scheme, Some (String "/" (String "/" rest))) =>
        let '(rest, fragment) := cut_after rest "#" in
        let '(rest, query) := cut_after rest "?" in
        let '(authority, path) := cut_after rest "/" in
        let '(user, host) := match Cut authority "@" with (u, Some h) => (Some u, h) | (h, None) => (None, h) end in
        Some (mkURL scheme "" user host (if path =s "" then "" else "/" +:+ path) "" false false query fragment "")
    | _ => None
    end;
  url_String u :=
    u_Scheme u +:+ "://" +:+ match u_User u with Some x => x +:+ "@" | None => "" end +:+ u_Host u +:+ u_Path u
    +:+ (if u_RawQuery u =s "" then "" else "?" +:+ u_RawQuery u)
    +:+ (if u_Fragment u =s "" then "" else "#" +:+ u_Fragment u);
  url_EscapedPath u := u_Path u;
  url_ParseQuery q := match Cut q "=" with (k, Some v) => {[ k := [v] ]} | (_, None) => ∅ end;
  url_Encode q := Join "&" (map (fun k => k +:+ "=" +:+ Join "," (default [] (q !! k))) (sorted_keys q))
|}.

#[local] Existing Instance byte_tables.
#[local] Existing Instance plain_urls.

Example sanitize_example :
  sanitizeEndpoint "https://me:pw@gw:4317/v1?api_key=x" =
    "https://gw:4317/v1?api_key=" +:+ MaskedValue.
Proof. vm_compute. done. Qed.

(** A password is masked, the endpoint beside it is shown without its credentials. *)
Definition exporter_cfg : value :=
  VMap {[ "endpoint" := VStr "https://me:pw@gw:4317"; "password" := VStr "hunter2" ]}.


End OtelDiff.
