(* ===== verification/DiffEngine.v ===== *)
(** * Semantic configuration diff: the engine (internal/oteldiff)

    [Compare] parses two Collector configurations, compares their components,
    pipelines, endpoints and credentials, collects the risk items and derives the
    summary, the risk score and the blast radius. The theorems are about the risk the
    operator is shown before a push. *)

From S2P Require Import Prelude GoString Sha256 Yaml OtelDiff.
Import Sha256.Sha256 Yaml OtelDiff.

Module DiffEngine.

(** ** Data *)

(* src/internal/oteldiff/types.go:128-139 ComponentDiff *)
Record ComponentDiff := mkComponentDiff {
  cd_ID : string; cd_Kind : ChangeKind; cd_Component : ComponentRef; cd_Risk : Risk; cd_Title : string;
  cd_Before : value; cd_After : value; cd_ChangedFields : list FieldChange;
  cd_ImpactedPipelines : list string; cd_Rules : list string }.

(* src/internal/oteldiff/types.go:141-151 PipelineDiff *)
Record PipelineDiff := mkPipelineDiff {
  pd_ID : string; pd_Kind : ChangeKind; pd_PipelineKey : string; pd_Signal : string; pd_Risk : Risk;
  pd_Before : option PipelineShape; pd_After : option PipelineShape;
  pd_ComponentRefChanges : list PipelineRefChange; pd_Rules : list string }.

(* src/internal/oteldiff/types.go:169-179 EndpointDiff *)
Record EndpointDiff := mkEndpointDiff {
  ed_ID : string; ed_Kind : ChangeKind; ed_Component : ComponentRef; ed_EndpointKind : string;
  ed_FieldPath : string; ed_Before : option EndpointValue; ed_After : option EndpointValue;
  ed_Risk : Risk; ed_Rules : list string }.

(* src/internal/oteldiff/types.go:192-203 SecurityDiff *)
Record SecurityDiff := mkSecurityDiff {
  sd_ID : string; sd_Kind : ChangeKind; sd_Component : ComponentRef; sd_Path : string; sd_Field : string;
  sd_Before : value; sd_After : value; sd_Risk : Risk; sd_Rules : list string; sd_Message : string }.

(* src/internal/oteldiff/types.go:205-214 RiskItem *)
Record RiskItem := mkRiskItem {
  ri_ID : string; ri_Risk : Risk; ri_Category : string; ri_Rule : string; ri_Title : string;
  ri_Description : string; ri_AffectedPaths : list string; ri_AffectedPipelines : list string }.

(* src/internal/oteldiff/types.go:223-229 Diagnostic *)
Record Diagnostic := mkDiagnostic {
  dg_Side : string; dg_Code : string; dg_Message : string; dg_Path : string; dg_Severity : string }.

(* src/internal/oteldiff/types.go:231-238 Normalized *)
Record Normalized := mkNormalized {
  nm_BaseHash : string; nm_TargetHash : string; nm_BaseComponentCount : nat;
  nm_TargetComponentCount : nat; nm_BasePipelineCount : nat; nm_TargetPipelineCount : nat }.

(* src/internal/oteldiff/types.go:67-80 Counts *)
Record Counts := mkCounts {
  ct_ComponentsAdded : nat; ct_ComponentsRemoved : nat; ct_ComponentsModified : nat;
  ct_PipelinesAdded : nat; ct_PipelinesRemoved : nat; ct_PipelinesModified : nat;
  ct_EndpointsAdded : nat; ct_EndpointsRemoved : nat; ct_EndpointsModified : nat;
  ct_HighRisk : nat; ct_MediumRisk : nat; ct_LowRisk : nat }.

(* src/internal/oteldiff/types.go:47-51 Summary *)
Record Summary := mkSummary { sm_OverallRisk : Risk; sm_Counts : Counts; sm_Headline : string }.

(* src/internal/oteldiff/types.go:56-65 HumanSummaryItem *)
Record HumanSummaryItem := mkHuman {
  hs_Text : string; hs_Category : string; hs_Kind : ChangeKind; hs_Risk : Risk; hs_ComponentID : string;
  hs_PipelineKey : string; hs_Signal : string; hs_Path : string }.

(* src/pkg/models/config_risk_score.go:5-9 ConfigRiskScore *)
Record ConfigRiskScore := mkScore { rs_Severity : string; rs_Reasons : list string; rs_AppliesToCount : Z }.

(* src/internal/oteldiff/types.go:91-97 BlastRadiusService *)
Record BlastRadiusService := mkService {
  bs_ServiceName : string; bs_WorkloadID : string; bs_DisplayName : string; bs_Type : string;
  bs_Status : string }.
(* src/internal/oteldiff/types.go:99-104 BlastRadiusCollector *)
Record BlastRadiusCollector := mkCollector {
  bc_WorkloadID : string; bc_DisplayName : string; bc_Status : string; bc_Reasons : list string }.
(* src/internal/oteldiff/types.go:82-89 BlastRadius *)
Record BlastRadius := mkBlast {
  br_AffectedSignals : list string; br_TouchedExporters : list string;
  br_ImpactedServices : list BlastRadiusService; br_ImpactedClusters : list string;
  br_CriticalCollectors : list BlastRadiusCollector }.
(* src/internal/oteldiff/types.go:111-118 BlastRadiusWorkload *)
Record BlastRadiusWorkload := mkBlastWorkload {
  bw_ID : string; bw_DisplayName : string; bw_Type : string; bw_Status : string;
  bw_Labels : gmap string string; bw_FingerprintKeys : gmap string string }.
(* src/internal/oteldiff/types.go:106-109 BlastRadiusContext *)
Record BlastRadiusContext := mkBlastContext {
  bx_Workload : BlastRadiusWorkload; bx_FleetPeers : list BlastRadiusWorkload }.

(** The schema version constants are left out. *)
(* src/internal/oteldiff/types.go:31-45 ConfigDiff *)
Record ConfigDiff := mkDiff {
  df_Valid : bool; df_Summary : Summary; df_RiskScore : ConfigRiskScore; df_BlastRadius : BlastRadius;
  df_HumanSummary : list HumanSummaryItem; df_Components : list ComponentDiff;
  df_Pipelines : list PipelineDiff; df_Endpoints : list EndpointDiff; df_Security : list SecurityDiff;
  df_RiskItems : list RiskItem; df_Diagnostics : list Diagnostic; df_Normalized : Normalized }.

(* src/internal/oteldiff/types.go:246-249 component *)
Record component := mkComponent { c_ref : ComponentRef; c_cfg : value }.
(* src/internal/oteldiff/types.go:240-244 graph *)
Record graph := mkGraph {
  g_root : gmap string value; g_components : gmap string (gmap string component);
  g_pipelines : gmap string PipelineShape }.

(** What the four comparisons accumulate, of the fields of [engine]. *)
(* src/internal/oteldiff/types.go:251-256 engine *)
Record engine := mkEngine {
  e_Components : list ComponentDiff; e_Pipelines : list PipelineDiff; e_Endpoints : list EndpointDiff;
  e_Security : list SecurityDiff; e_RiskItems : list RiskItem; e_seenRisk : gmap string bool }.

(* src/internal/oteldiff/types.go:258-258 componentCategories *)
Definition componentCategories : list string :=
  ["receivers"; "processors"; "exporters"; "connectors"; "extensions"].

Section Engine.
Context `{UnicodeTables, UrlLib, FloatText, YamlDoc}.

(** ** Parsing *)

(** The components of one section, or the diagnostic. *)
Definition parse_section (side : string) (root : gmap string value) (cat : string)
    : gmap string component * list Diagnostic :=
  match root !! cat with
  | None => (∅, [])
  | Some v =>
      match asMap v with
      | None => (∅, [mkDiagnostic side "invalid_section" (cat +:+ " section is not an object") cat "warning"])
      | Some m => (map_imap (fun id v => Some (mkComponent (componentRef cat id) (normalizeValue v))) m, [])
      end
  end.

Definition parse_pipelines (root : gmap string value) : gmap string PipelineShape :=
  match asMap (get root "service") with
  | Some svc =>
      match asMap (get svc "pipelines") with
      | Some pmap =>
          map_imap (fun _ v =>
              match asMap v with
              | Some pm => Some (mkShape (toStringSlice (get pm "receivers")) (toStringSlice (get pm "processors"))
                                   (toStringSlice (get pm "exporters")))
              | None => None
              end) pmap
      | None => ∅
      end
  | None => ∅
  end.

(* src/internal/oteldiff/diff.go:64-99 parseConfig *)
Definition parseConfig (side : string) (b : string) : graph * list Diagnostic :=
  match yaml_document b with
  | Err _ => (mkGraph ∅ ∅ ∅, [mkDiagnostic side "yaml_parse" "invalid YAML: parse failed" "" "error"])
  | Ok doc =>
      let root := default ∅ doc in
      let sections := map (fun cat => (cat, parse_section side root cat)) componentCategories in
      (mkGraph root (list_to_map (map (fun s => (s.1, s.2.1)) sections)) (parse_pipelines root),
       flat_map (fun s => s.2.2) sections)
  end.

(** [e.base.components[cat]]: a missing map reads as empty. *)
Definition components_of (g : graph) (cat : string) : gmap string component :=
  default ∅ (g_components g !! cat).

(* src/internal/oteldiff/util.go:177-183 countComponents *)
Definition countComponents (m : gmap string (gmap string component)) : nat :=
  map_fold (fun _ mm n => n + size mm) 0 m.

(* src/internal/oteldiff/diff.go:62-62 hashYAML *)
Definition hashYAML (b : string) : string := "sha256:" +:+ hex_encode (Sum256 (str_bytes b)).

(** ** The comparisons *)

(* src/internal/oteldiff/diff.go:347-353 addRisk *)
Definition addRisk (e : engine) (id : string) (risk : Risk) (cat rule title desc : string)
    (paths pipelines : list string) : engine :=
  if default false (e_seenRisk e !! id) then e
  else mkEngine (e_Components e) (e_Pipelines e) (e_Endpoints e) (e_Security e)
         (e_RiskItems e ++ [mkRiskItem id risk cat rule title desc (dedupeSorted paths) (dedupeSorted pipelines)])
         (<[id := true]> (e_seenRisk e)).

Definition add_component (e : engine) (cd : ComponentDiff) : engine :=
  mkEngine (e_Components e ++ [cd]) (e_Pipelines e) (e_Endpoints e) (e_Security e) (e_RiskItems e) (e_seenRisk e).
Definition add_pipeline (e : engine) (pd : PipelineDiff) : engine :=
  mkEngine (e_Components e) (e_Pipelines e ++ [pd]) (e_Endpoints e) (e_Security e) (e_RiskItems e) (e_seenRisk e).
Definition add_endpoint (e : engine) (ed : EndpointDiff) : engine :=
  mkEngine (e_Components e) (e_Pipelines e) (e_Endpoints e ++ [ed]) (e_Security e) (e_RiskItems e) (e_seenRisk e).
Definition add_security (e : engine) (sd : SecurityDiff) : engine :=
  mkEngine (e_Components e) (e_Pipelines e) (e_Endpoints e) (e_Security e ++ [sd]) (e_RiskItems e) (e_seenRisk e).

(** The union of the keys of two maps, sorted. *)
(* src/internal/oteldiff/util.go:59-68 unionComponentIDs *)
Definition union_keys {A} (a b : gmap string A) : list string := sorted_set (sorted_keys a ++ sorted_keys b).

Section Compared.
Context (base target : graph).

Definition impacted (cat id : string) : list string :=
  impactedPipelines (g_pipelines base) (g_pipelines target) cat id.

(** The switch over the two sides: [None] for [continue]. *)
Definition component_diff (cat id : string) : option ComponentDiff :=
  let path := cat +:+ "." +:+ id in
  let name := cat +:+ ":" +:+ id in
  let label := singular cat +:+ " " +:+ id in
  match components_of base cat !! id, components_of target cat !! id with
  | None, Some t =>
      Some (mkComponentDiff name ChangeAdded (componentRef cat id) RiskLow (label +:+ " added")
              VNull (redactValue (c_cfg t) path) [] (impacted cat id) [])
  | Some b, None =>
      Some (mkComponentDiff name ChangeRemoved (componentRef cat id) (removedComponentRisk cat id)
              (label +:+ " removed") (redactValue (c_cfg b) path) VNull [] (impacted cat id)
              (removedComponentRules cat id))
  | ob, ot =>
      let cfg := fun o => match o with Some c => c_cfg c | None => VNull end in
      let b := cfg ob in let t := cfg ot in
      if canonical b =s canonical t then None
      else
        let fields := changedFields path b t in
        Some (mkComponentDiff name ChangeModified (componentRef cat id) (componentModifiedRisk id fields)
                (label +:+ " modified") (redactValue b path) (redactValue t path) fields (impacted cat id)
                (componentModifiedRules id fields))
  end.

Definition compare_component (e : engine) (ci : string * string) : engine :=
  match component_diff ci.1 ci.2 with
  | None => e
  | Some cd =>
      let path := cr_Path (cd_Component cd) in
      let e := foldl (fun e rule =>
                   addRisk e (rule +:+ ":" +:+ path) (cd_Risk cd) (riskCategory rule) rule (titleForRule rule)
                     rule [path] (cd_ImpactedPipelines cd)) e (cd_Rules cd) in
      add_component e cd
  end.
Definition component_ids : list (string * string) :=
  flat_map (fun cat => map (pair cat) (union_keys (components_of base cat) (components_of target cat)))
    componentCategories.
(* src/internal/oteldiff/diff.go:101-138 compareComponents *)
Definition compareComponents (e : engine) : engine := foldl compare_component e component_ids.

(** The switch over the two sides of a pipeline, with the risks it raises itself. *)
Definition broken (key section what : string) (e : engine) : engine :=
  addRisk e ("pipeline_broken:" +:+ key +:+ ":" +:+ section) RiskHigh "data_loss" "pipeline_broken"
    ("Pipeline " +:+ key +:+ " has no " +:+ section) what
    ["service.pipelines." +:+ key +:+ "." +:+ section] [key].

Definition pipeline_diff (key : string) : option PipelineDiff :=
  let id := "pipeline:" +:+ key in
  match g_pipelines base !! key, g_pipelines target !! key with
  | None, Some t =>
      Some (mkPipelineDiff id ChangeAdded key (signalOf key) RiskLow None (Some t) [] [])
  | Some b, None =>
      Some (mkPipelineDiff id ChangeRemoved key (signalOf key) RiskHigh (Some b) None [] ["pipeline_removed"])
  | ob, ot =>
      let b := default (mkShape [] [] []) ob in
      let t := default (mkShape [] [] []) ot in
      let changes := pipelineRefChanges b t in
      match changes with
      | [] => None
      | _ =>
          let risk := foldl (fun r ch => maxRisk r (rc_Risk ch)) RiskLow changes in
          let rules := foldl (fun rules ch => if rc_Reason ch <>s "" then appendRule rules (rc_Reason ch) else rules)
                         [] changes in
          let '(risk, rules) :=
            match ps_Exporters t with [] => (RiskHigh, appendRule rules "pipeline_broken") | _ => (risk, rules) end in
          let '(risk, rules) :=
            match ps_Receivers t with [] => (RiskHigh, appendRule rules "pipeline_broken") | _ => (risk, rules) end in
          Some (mkPipelineDiff id ChangeModified key (signalOf key) risk (Some b) (Some t) changes rules)
      end
  end.

Definition compare_pipeline (e : engine) (key : string) : engine :=
  match pipeline_diff key with
  | None => e
  | Some pd =>
      let e :=
        match pd_Kind pd with
        | ChangeRemoved =>
            addRisk e ("pipeline_removed:" +:+ key) RiskHigh "data_loss" "pipeline_removed"
              ("Pipeline " +:+ key +:+ " removed") "Telemetry pipeline removed" ["service.pipelines." +:+ key] [key]
        | ChangeModified =>
            let t := default (mkShape [] [] []) (pd_After pd) in
            let e := match ps_Exporters t with
                     | [] => broken key "exporters" "Telemetry would not be exported" e | _ => e end in
            match ps_Receivers t with
            | [] => broken key "receivers" "Telemetry would not be received" e | _ => e end
        | _ => e
        end in
      let e := foldl (fun e ch =>
                   if rc_Reason ch <>s "" then
                     addRisk e (rc_Reason ch +:+ ":" +:+ key +:+ ":" +:+ rc_ComponentID ch) (rc_Risk ch)
                       (riskCategory (rc_Reason ch)) (rc_Reason ch) (titleForRule (rc_Reason ch)) (rc_Reason ch)
                       ["service.pipelines." +:+ key +:+ "." +:+ rc_Section ch] [key]
                   else e) e (pd_ComponentRefChanges pd) in
      add_pipeline e pd
  end.
Definition pipeline_keys : list string := union_keys (g_pipelines base) (g_pipelines target).
(* src/internal/oteldiff/diff.go:140-190 comparePipelines *)
Definition comparePipelines (e : engine) : engine := foldl compare_pipeline e pipeline_keys.

(* src/internal/oteldiff/util.go:236-247 scalarString *)
Definition scalarString (v : value) : option string :=
  match v with
  | VStr s => Some s
  | VInt z => Some (pretty.pretty z)
  | VFloat f => Some (format_f f)
  | _ => None
  end.

(** The components of a graph in the order they are visited. *)
Definition all_components (g : graph) : list component :=
  flat_map (fun cat => omap (fun id => components_of g cat !! id) (sorted_keys (components_of g cat)))
    componentCategories.
(* src/internal/oteldiff/endpoints.go:9-34 extractEndpoints *)
Definition extractEndpoints (g : graph) : gmap string (ComponentRef * EndpointValue) :=
  foldl (fun out c =>
      foldl (fun out pv =>
          if isEndpointKey (lastPathPart pv.1) then
            match scalarString pv.2 with
            | Some s => <[pv.1 := (c_ref c, parseEndpoint s (c_ref c))]> out
            | None => out
            end
          else out) out (walk (c_cfg c) (cr_Path (c_ref c))))
    ∅ (all_components g).

Definition endpoint_diff (k : string) : option EndpointDiff :=
  let id := "endpoint:" +:+ k in
  match extractEndpoints base !! k, extractEndpoints target !! k with
  | None, Some (c, t) =>
      Some (mkEndpointDiff id ChangeAdded c (endpointKind c) k None (Some t) RiskLow [])
  | Some (c, b), None =>
      Some (mkEndpointDiff id ChangeRemoved c (endpointKind c) k (Some b) None RiskMedium [])
  | Some (c, b), Some (_, t) =>
      if ev_Normalized b =s ev_Normalized t then None
      else Some (mkEndpointDiff id ChangeModified c (endpointKind c) k (Some b) (Some t)
                   (endpointRisk c b t) (endpointRules c b t))
  | None, None => None
  end.
Definition compare_endpoint (e : engine) (k : string) : engine :=
  match endpoint_diff k with
  | None => e
  | Some ed =>
      let c := ed_Component ed in
      let e := foldl (fun e r =>
                   addRisk e (r +:+ ":" +:+ k) (ed_Risk ed) (riskCategory r) r (titleForRule r) r [k]
                     (impacted (cr_Category c) (cr_ID c))) e (ed_Rules ed) in
      add_endpoint e ed
  end.
(* src/internal/oteldiff/diff.go:192-230 compareEndpoints *)
Definition compareEndpoints (e : engine) : engine :=
  foldl compare_endpoint e (union_keys (extractEndpoints base) (extractEndpoints target)).

Definition secure_field (cd : ComponentDiff) (e : engine) (fc : FieldChange) : engine :=
  let path := fc_Path fc in
  let e :=
    if credential fc then
      addRisk (add_security e (mkSecurityDiff ("security:" +:+ path) (cd_Kind cd) (cd_Component cd) path "headers"
                 (fc_Before fc) (fc_After fc) RiskHigh ["auth_header_modified"]
                 "Authentication/header value changed; values redacted"))
        ("auth_header_modified:" +:+ path) RiskHigh "security" "auth_header_modified" "Auth/header modified"
        "Authentication headers or secret-like auth fields changed" [path] (cd_ImpactedPipelines cd)
    else e in
  if weakened fc then
    addRisk (add_security e (mkSecurityDiff ("security:" +:+ path) ChangeModified (cd_Component cd) path "insecure"
               (fc_Before fc) (fc_After fc) RiskHigh ["transport_security_weakened"]
               "Transport security weakened"))
      ("transport_security_weakened:" +:+ path) RiskHigh "security" "transport_security_weakened"
      "Transport security weakened" "TLS/insecure setting was weakened" [path] (cd_ImpactedPipelines cd)
  else e.
Definition secure_component (e : engine) (cd : ComponentDiff) : engine :=
  match cd_Kind cd with
  | ChangeUnchanged => e
  | _ =>
      let e := foldl (secure_field cd) e (cd_ChangedFields cd) in
      let c := cd_Component cd in
      if bool_decide (cd_Kind cd = ChangeRemoved) && (cr_Category c =s "exporters") then
        addRisk e ("exporter_removed:" +:+ cr_ID c) RiskHigh "data_loss" "exporter_removed"
          ("Exporter " +:+ cr_ID c +:+ " removed") "Telemetry destination removed" [cr_Path c]
          (cd_ImpactedPipelines cd)
      else e
  end.
(* src/internal/oteldiff/diff.go:232-254 compareSecurity *)
Definition compareSecurity (e : engine) : engine := foldl secure_component e (e_Components e).

(** ** human_summary.go *)

Notation summary_state := (list HumanSummaryItem * gmap string bool)%type.
Definition add_item (st : summary_state) (item : HumanSummaryItem) : summary_state :=
  if (hs_Text item =s "") || default false (st.2 !! hs_Text item) then st
  else (st.1 ++ [item], <[hs_Text item := true]> st.2).

Definition summarize_component (st : summary_state) (c : ComponentDiff) : summary_state :=
  let name := humanComponentName (cr_ID (cd_Component c)) in
  let kind := singular (cr_Category (cd_Component c)) in
  let id := humanSafeLabel (cr_ID (cd_Component c)) in
  match cd_Kind c with
  | ChangeAdded =>
      add_item st (mkHuman ("Adds " +:+ name +:+ " " +:+ kind) "component" ChangeAdded (cd_Risk c) id "" "" "")
  | ChangeRemoved =>
      add_item st (mkHuman ("Removes " +:+ name +:+ " " +:+ kind) "component" ChangeRemoved (cd_Risk c) id "" "" "")
  | ChangeModified =>
      foldl (fun st f =>
          add_item st (mkHuman ("Changes " +:+ name +:+ " " +:+ humanFieldName (fc_Path f)) "field" ChangeModified
                         (fc_Risk f) id "" "" (humanSafePath (fc_Path f)))) st (cd_ChangedFields c)
  | ChangeUnchanged => st
  end.
Definition summarize_pipeline (st : summary_state) (p : PipelineDiff) : summary_state :=
  foldl (fun st ch =>
      if rc_Section ch =s "exporters" then
        match rc_Kind ch with
        | ChangeAdded =>
            add_item st (mkHuman ("Routes " +:+ pd_Signal p +:+ " to " +:+ humanComponentName (rc_ComponentID ch))
                           "pipeline" ChangeAdded (rc_Risk ch) (humanSafeLabel (rc_ComponentID ch))
                           (humanSafeLabel (pd_PipelineKey p)) (pd_Signal p) "")
        | _ => st
        end
      else st) st (pd_ComponentRefChanges p).
Definition summarize_unchanged (pipelines : list PipelineDiff) (st : summary_state) (key : string) : summary_state :=
  if existsb (fun p => pd_PipelineKey p =s key) pipelines then st else
  match g_pipelines base !! key, g_pipelines target !! key with
  | Some b, Some t =>
      if bool_decide (b = t)
      then add_item st (mkHuman ("Keeps " +:+ signalOf key +:+ " unchanged") "unchanged" ChangeUnchanged RiskNone ""
                          (humanSafeLabel key) (signalOf key) "")
      else st
  | _, _ => st
  end.
(* src/internal/oteldiff/human_summary.go:8-76 buildHumanSummary *)
Definition buildHumanSummary (components : list ComponentDiff) (pipelines : list PipelineDiff) : list HumanSummaryItem :=
  let st := foldl summarize_component ([], ∅) components in
  let st := foldl summarize_pipeline st pipelines in
  match pipelines with
  | [] => st.1
  | _ => (foldl (summarize_unchanged pipelines) st pipeline_keys).1
  end.

End Compared.

(** ** risk_score.go *)

(* src/internal/oteldiff/risk_score.go:25-57 riskReason *)
Definition riskReason (item : RiskItem) : string :=
  let rule := ri_Rule item in
  if rule =s "pipeline_removed" then
    match ri_AffectedPipelines item with p :: _ => "Pipeline " +:+ p +:+ " removed" | [] => "Pipeline removed" end
  else if rule =s "otlp_endpoint_changed" then "OTLP endpoint changed"
  else if rule =s "memory_limiter_removed_from_pipeline" then "Memory limiter removed from pipeline"
  else if rule =s "batch_processor_removed_from_pipeline" then "Batch processor removed from pipeline"
  else if rule =s "pipeline_broken" then "Pipeline broken"
  else if rule =s "transport_security_weakened" then "Transport security weakened"
  else if rule =s "auth_header_modified" then "Auth/header modified"
  else if rule =s "exporter_removed" then "Exporter removed"
  else if rule =s "sampling_guard_removed" then "Sampling guard removed"
  else if rule =s "sampling_rate_strongly_changed" then "Sampling rate strongly changed"
  else if rule =s "receiver_endpoint_exposure_changed" then "Receiver endpoint exposure changed"
  else if rule =s "pipeline_exporter_set_changed" then "Pipeline exporter set changed"
  else TrimSpace (ri_Title item).

(* src/internal/oteldiff/risk_score.go:11-23 BuildRiskScore *)
Definition BuildRiskScore (overall : Risk) (items : list RiskItem) (appliesToCount : Z) : ConfigRiskScore :=
  let reasons :=
    foldl (fun reasons item =>
        let reason := riskReason item in
        if (reason =s "") || bool_decide (reason ∈ reasons) then reasons else reasons ++ [reason]) [] items in
  mkScore (risk_text overall) reasons appliesToCount.

(** ** finish *)

Definition by_id {A} (key : A -> string) (l : list A) : list A := sort_by (less_of (by_key key str_cmp)) l.
Definition risk_less (a b : RiskItem) : bool :=
  if bool_decide (ri_Risk a = ri_Risk b) then ri_ID a <s ri_ID b
  else Nat.ltb (riskRank (ri_Risk b)) (riskRank (ri_Risk a)).

Definition no_counts : Counts := mkCounts 0 0 0 0 0 0 0 0 0 0 0 0.
(* src/internal/oteldiff/diff.go:334-345 countRisk *)
Definition countRisk (r : Risk) (c : Counts) : Counts :=
  let 'mkCounts ca cr cm pa pr pm ea er em h m l := c in
  match r with
  | RiskHigh => mkCounts ca cr cm pa pr pm ea er em (S h) m l
  | RiskMedium => mkCounts ca cr cm pa pr pm ea er em h (S m) l
  | RiskLow => mkCounts ca cr cm pa pr pm ea er em h m (S l)
  | RiskNone => c
  end.
Definition count_component (c : Counts) (d : ComponentDiff) : Counts :=
  let 'mkCounts ca cr cm pa pr pm ea er em h m l := c in
  countRisk (cd_Risk d)
    (match cd_Kind d with
     | ChangeAdded => mkCounts (S ca) cr cm pa pr pm ea er em h m l
     | ChangeRemoved => mkCounts ca (S cr) cm pa pr pm ea er em h m l
     | ChangeModified => mkCounts ca cr (S cm) pa pr pm ea er em h m l
     | ChangeUnchanged => c
     end).
Definition count_pipeline (c : Counts) (d : PipelineDiff) : Counts :=
  let 'mkCounts ca cr cm pa pr pm ea er em h m l := c in
  countRisk (pd_Risk d)
    (match pd_Kind d with
     | ChangeAdded => mkCounts ca cr cm (S pa) pr pm ea er em h m l
     | ChangeRemoved => mkCounts ca cr cm pa (S pr) pm ea er em h m l
     | ChangeModified => mkCounts ca cr cm pa pr (S pm) ea er em h m l
     | ChangeUnchanged => c
     end).
Definition count_endpoint (c : Counts) (d : EndpointDiff) : Counts :=
  let 'mkCounts ca cr cm pa pr pm ea er em h m l := c in
  countRisk (ed_Risk d)
    (match ed_Kind d with
     | ChangeAdded => mkCounts ca cr cm pa pr pm (S ea) er em h m l
     | ChangeRemoved => mkCounts ca cr cm pa pr pm ea (S er) em h m l
     | ChangeModified => mkCounts ca cr cm pa pr pm ea er (S em) h m l
     | ChangeUnchanged => c
     end).

Definition headline (r : Risk) : string :=
  match r with
  | RiskHigh => "High risk: dangerous OTel Collector changes detected"
  | RiskMedium => "Medium risk: review routing, endpoints, sampling, or auth changes"
  | RiskLow => "Low risk: no telemetry path or destination appears to be removed"
  | RiskNone => "No OTel semantic changes detected"
  end.

Definition max_of {A} (risk : A -> Risk) (l : list A) (r : Risk) : Risk := foldl (fun r x => maxRisk r (risk x)) r l.

(* src/internal/oteldiff/blast_radius.go:8-10 emptyBlastRadius *)
Definition empty_blast : BlastRadius := mkBlast [] [] [] [] [].

(** [e.finish()] on the accumulated comparison, the blast radius still empty. The sorts
    are stable here; sort.Slice orders equal keys (two security entries on one path) as it
    likes. *)
(* src/internal/oteldiff/diff.go:256-332 finish *)
Definition finish (base target : graph) (nm : Normalized) (e : engine) : ConfigDiff :=
  let components := by_id cd_ID (e_Components e) in
  let pipelines := by_id pd_PipelineKey (e_Pipelines e) in
  let endpoints := by_id ed_FieldPath (e_Endpoints e) in
  let security := by_id sd_Path (e_Security e) in
  let items := sort_by risk_less (e_RiskItems e) in
  let human := buildHumanSummary base target components pipelines in
  let counts :=
    foldl count_endpoint (foldl count_pipeline (foldl count_component no_counts components) pipelines) endpoints in
  let risk :=
    max_of ed_Risk endpoints (max_of pd_Risk pipelines (max_of cd_Risk components (max_of ri_Risk items RiskNone))) in
  mkDiff true (mkSummary risk counts (headline risk)) (BuildRiskScore risk items 0) empty_blast human
    components pipelines endpoints security items [] nm.

(** ** blast_radius.go *)

(* src/internal/oteldiff/blast_radius.go:103-112 sortedSet *)
Definition sortedSet (l : list string) : list string := sorted_set (List.filter (fun v => TrimSpace v <>s "") l).
(* src/internal/oteldiff/blast_radius.go:114-114 serviceKeys *)
Definition serviceKeys : list string := ["service.name"; "service"; "app.kubernetes.io/name"].
(* src/internal/oteldiff/blast_radius.go:116-118 clusterKeys *)
Definition clusterKeys : list string :=
  ["k8s.cluster.name"; "cluster"; "k8s.namespace.name"; "deployment.environment"].

(* src/internal/oteldiff/blast_radius.go:129-137 workloadValue *)
Definition workloadValue (wl : BlastRadiusWorkload) (key : string) : string :=
  let usable v := (v <>s "") && negb (looksSecret v) && negb (isSecretKey key) in
  let v := TrimSpace (default "" (bw_Labels wl !! key)) in
  if usable v then v else
  let v := TrimSpace (default "" (bw_FingerprintKeys wl !! key)) in
  if usable v then v else "".
(* src/internal/oteldiff/blast_radius.go:120-127 firstWorkloadValue *)
Fixpoint firstWorkloadValue (wl : BlastRadiusWorkload) (keys : list string) : string :=
  match keys with
  | [] => ""
  | key :: rest => let v := workloadValue wl key in if v <>s "" then v else firstWorkloadValue wl rest
  end.
(* src/internal/oteldiff/blast_radius.go:139-149 workloadInClusters *)
Definition workloadInClusters (wl : BlastRadiusWorkload) (clusters : list string) : bool :=
  match clusters with
  | [] => true
  | _ => existsb (fun key => bool_decide (workloadValue wl key ∈ clusters)) clusterKeys
  end.
(* src/internal/oteldiff/blast_radius.go:151-153 isCollectorWorkload *)
Definition isCollectorWorkload (wl : BlastRadiusWorkload) : bool :=
  EqualFold (bw_Type wl) "collector" || Contains (ToLower (bw_DisplayName wl)) "collector".

(** The rules collected from the labels are sorted and deduplicated in the end, so the
    order in which the map is read does not matter. *)
(* src/internal/oteldiff/blast_radius.go:155-180 criticalCollectorReasons *)
Definition criticalCollectorReasons (wl : BlastRadiusWorkload) : list string :=
  let status := ToLower (TrimSpace (bw_Status wl)) in
  let production v := (v =s "prod") || (v =s "production") in
  let of_label k := 
    let lk := ToLower k in
    let lv := ToLower (TrimSpace (default "" (bw_Labels wl !! k))) in
    (if ((lk =s "critical") && (lv =s "true")) || ((lk =s "tier") && (lv =s "critical"))
     then [lk +:+ "_" +:+ lv] else []) ++
    (if production lv then ["production_label"] else []) in
  let of_key key :=
    let v := ToLower (workloadValue wl key) in
    if production v || HasPrefix v "prod-" then ["production_label"] else [] in
  dedupeSorted
    ((if isCollectorWorkload wl then ["collector_workload"] else []) ++
     (if (status =s "degraded") || (status =s "disconnected") then ["status_" +:+ status] else []) ++
     flat_map of_label (sorted_keys (bw_Labels wl)) ++
     flat_map of_key clusterKeys).

Definition known_signals (keys : list string) : list string :=
  List.filter (fun sig => sig <>s "unknown") (map signalOf keys).

Fixpoint services (seen : list string) (l : list BlastRadiusWorkload) : list BlastRadiusService :=
  match l with
  | [] => []
  | wl :: rest =>
      let svc := firstWorkloadValue wl serviceKeys in
      let key := bw_ID wl +:+ bytes [0]%N +:+ svc in
      if (svc =s "") || bool_decide (key ∈ seen) then services seen rest
      else mkService svc (bw_ID wl) (bw_DisplayName wl) (bw_Type wl) (bw_Status wl) :: services (key :: seen) rest
  end.

(* src/internal/oteldiff/blast_radius.go:12-101 buildBlastRadius *)
Definition buildBlastRadius (diff : ConfigDiff) (ctx : BlastRadiusContext) : BlastRadius :=
  let signals :=
    flat_map (fun p => if (pd_Signal p <>s "") && (pd_Signal p <>s "unknown") then [pd_Signal p] else []) (df_Pipelines diff) ++
    flat_map (fun c => known_signals (cd_ImpactedPipelines c)) (df_Components diff) ++
    flat_map (fun i => known_signals (ri_AffectedPipelines i)) (df_RiskItems diff) in
  let exporters :=
    flat_map (fun p => flat_map (fun ch => if (rc_Section ch =s "exporters") && (rc_ComponentID ch <>s "")
                                           then [rc_ComponentID ch] else []) (pd_ComponentRefChanges p)) (df_Pipelines diff) ++
    flat_map (fun c => if cr_Category (cd_Component c) =s "exporters" then [cr_ID (cd_Component c)] else []) (df_Components diff) ++
    flat_map (fun ep => if cr_Category (ed_Component ep) =s "exporters" then [cr_ID (ed_Component ep)] else []) (df_Endpoints diff) in
  let wl := bx_Workload ctx in
  let targets :=
    if (bw_ID wl <>s "") || (bw_DisplayName wl <>s "") || negb (Nat.eqb (size (bw_Labels wl)) 0)
       || negb (Nat.eqb (size (bw_FingerprintKeys wl)) 0)
    then [wl] else [] in
  let clusters :=
    List.filter (fun v => v <>s "") (flat_map (fun wl => map (workloadValue wl) clusterKeys) targets) in
  let scoped :=
    targets ++ List.filter (fun wl => negb (Nat.eqb (length clusters) 0) && workloadInClusters wl clusters)
                 (bx_FleetPeers ctx) in
  let critical :=
    flat_map (fun wl =>
        if isCollectorWorkload wl then
          match criticalCollectorReasons wl with
          | [] => []
          | reasons => [mkCollector (bw_ID wl) (bw_DisplayName wl) (bw_Status wl) reasons]
          end
        else []) scoped in
  mkBlast (sortedSet signals) (sortedSet exporters) (by_id bs_ServiceName (services [] scoped)) (sortedSet clusters)
    (by_id bc_WorkloadID critical).

(** ** Compare *)

Definition with_blast (d : ConfigDiff) (b : BlastRadius) : ConfigDiff :=
  mkDiff (df_Valid d) (df_Summary d) (df_RiskScore d) b (df_HumanSummary d) (df_Components d) (df_Pipelines d)
    (df_Endpoints d) (df_Security d) (df_RiskItems d) (df_Diagnostics d) (df_Normalized d).

Definition compared (base target : graph) : engine :=
  compareSecurity (compareEndpoints base target (comparePipelines base target
    (compareComponents base target (mkEngine [] [] [] [] [] ∅)))).

(* src/internal/oteldiff/diff.go:49-60 emptyDiff *)
Definition emptyDiff (baseYAML targetYAML : string) : ConfigDiff :=
  mkDiff false (mkSummary RiskNone no_counts "No OTel semantic changes detected")
    (mkScore (risk_text RiskNone) [] 0) empty_blast [] [] [] [] [] [] []
    (mkNormalized (hashYAML baseYAML) (hashYAML targetYAML) 0 0 0 0).

(* src/internal/oteldiff/diff.go:23-47 CompareWithContext *)
Definition CompareWithContext (baseYAML targetYAML : string) (ctx : BlastRadiusContext) : ConfigDiff :=
  let '(base, baseDiags) := parseConfig "base" baseYAML in
  let '(target, targetDiags) := parseConfig "target" targetYAML in
  match baseDiags ++ targetDiags with
  | [] =>
      let nm := mkNormalized (hashYAML baseYAML) (hashYAML targetYAML) (countComponents (g_components base))
                  (countComponents (g_components target)) (size (g_pipelines base)) (size (g_pipelines target)) in
      let diff := finish base target nm (compared base target) in
      with_blast diff (buildBlastRadius diff ctx)
  | diags =>
      let d := emptyDiff baseYAML targetYAML in
      mkDiff false (mkSummary RiskNone no_counts "OTel impact summary unavailable: fix YAML parse errors")
        (df_RiskScore d) (df_BlastRadius d) (df_HumanSummary d) (df_Components d) (df_Pipelines d)
        (df_Endpoints d) (df_Security d) (df_RiskItems d) diags (df_Normalized d)
  end.
(* src/internal/oteldiff/diff.go:18-20 Compare *)
Definition Compare (baseYAML targetYAML : string) : ConfigDiff :=
  CompareWithContext baseYAML targetYAML (mkBlastContext (mkBlastWorkload "" "" "" "" ∅ ∅) []).

(** ** What the comparisons collect *)

(** The three lists every risk is raised beside. *)
Definition lists (e : engine) := (e_Components e, e_Pipelines e, e_Endpoints e).

Lemma foldl_preserves {A B C} (proj : A -> C) (f : A -> B -> A) l : forall a,
  (forall a x, proj (f a x) = proj a) -> proj (foldl f a l) = proj a.
Proof. induction l as [|x l IH]; intros a Hf; cbn; [done|]. by rewrite IH, Hf. Qed.

Lemma addRisk_lists e id r c rule ti de ps pl : lists (addRisk e id r c rule ti de ps pl) = lists e.
Proof. unfold addRisk. by destruct (default _ _). Qed.

Lemma add_security_lists e sd : lists (add_security e sd) = lists e.
Proof. done. Qed.

Lemma compare_component_lists base target e ci :
  lists (compare_component base target e ci) =
  (e_Components e ++ option_list (component_diff base target ci.1 ci.2), e_Pipelines e, e_Endpoints e).
Proof.
  unfold compare_component. destruct (component_diff _ _ _ _) as [cd|]; cbn [option_list]; [|by rewrite app_nil_r].
  match goal with |- context [add_component ?x cd] => assert (lists x = lists e) as E end.
  { apply (foldl_preserves lists). intros. apply addRisk_lists. }
  injection E as <- <- <-. done.
Qed.

Lemma compare_pipeline_lists base target e key :
  lists (compare_pipeline base target e key) =
  (e_Components e, e_Pipelines e ++ option_list (pipeline_diff base target key), e_Endpoints e).
Proof.
  unfold compare_pipeline. destruct (pipeline_diff _ _ _) as [pd|]; cbn [option_list]; [|by rewrite app_nil_r].
  match goal with |- context [add_pipeline ?x pd] => assert (lists x = lists e) as E end.
  { rewrite (foldl_preserves lists) by (intros a ch; destruct (_ <>s _); [apply addRisk_lists|done]).
    unfold broken. destruct (pd_Kind pd); try done; [apply addRisk_lists|].
    destruct (ps_Exporters _), (ps_Receivers _); by rewrite ?addRisk_lists. }
  injection E as <- <- <-. done.
Qed.

Lemma compare_endpoint_lists base target e k :
  lists (compare_endpoint base target e k) =
  (e_Components e, e_Pipelines e, e_Endpoints e ++ option_list (endpoint_diff base target k)).
Proof.
  unfold compare_endpoint. destruct (endpoint_diff _ _ _) as [ed|]; cbn [option_list]; [|by rewrite app_nil_r].
  match goal with |- context [add_endpoint ?x ed] => assert (lists x = lists e) as E end.
  { apply (foldl_preserves lists). intros. apply addRisk_lists. }
  injection E as <- <- <-. done.
Qed.

Lemma compareSecurity_lists e : lists (compareSecurity e) = lists e.
Proof.
  apply (foldl_preserves lists). intros a cd. unfold secure_component.
  assert (Hf : lists (foldl (secure_field cd) a (cd_ChangedFields cd)) = lists a).
  { apply (foldl_preserves lists). intros a' f. unfold secure_field.
    destruct (weakened f), (credential f); by rewrite ?addRisk_lists, ?add_security_lists, ?addRisk_lists. }
  destruct (cd_Kind cd); try done; destruct (_ && _); by rewrite ?addRisk_lists.
Qed.

Definition diffs_of {A B} (f : A -> option B) (l : list A) : list B := flat_map (fun x => option_list (f x)) l.

Lemma elem_of_diffs_of {A B} (f : A -> option B) l y : y ∈ diffs_of f l <-> exists x, x ∈ l /\ f x = Some y.
Proof.
  unfold diffs_of. rewrite list_elem_of_In, in_flat_map. setoid_rewrite <- list_elem_of_In.
  apply exist_proper. intros x. destruct (f x) as [z|]; cbn.
  - rewrite list_elem_of_singleton. naive_solver.
  - rewrite elem_of_nil. naive_solver.
Qed.

(** The lists of the whole comparison. *)
Lemma compared_lists base target :
  lists (compared base target) =
  (diffs_of (fun ci => component_diff base target ci.1 ci.2) (component_ids base target),
   diffs_of (pipeline_diff base target) (pipeline_keys base target),
   diffs_of (endpoint_diff base target) (union_keys (extractEndpoints base) (extractEndpoints target))).
Proof.
  unfold compared. rewrite compareSecurity_lists.
  assert (Hc : forall l e, lists (foldl (compare_component base target) e l) =
    (e_Components e ++ diffs_of (fun ci => component_diff base target ci.1 ci.2) l, e_Pipelines e, e_Endpoints e)).
  { induction l as [|x l IH]; intros e; cbn; [by rewrite app_nil_r|]. rewrite IH.
    generalize (compare_component_lists base target e x). intros [= -> -> ->]. by rewrite <- (assoc_L (++)). }
  assert (Hp : forall l e, lists (foldl (compare_pipeline base target) e l) =
    (e_Components e, e_Pipelines e ++ diffs_of (pipeline_diff base target) l, e_Endpoints e)).
  { induction l as [|x l IH]; intros e; cbn; [by rewrite app_nil_r|]. rewrite IH.
    generalize (compare_pipeline_lists base target e x). intros [= -> -> ->]. by rewrite <- (assoc_L (++)). }
  assert (He : forall l e, lists (foldl (compare_endpoint base target) e l) =
    (e_Components e, e_Pipelines e, e_Endpoints e ++ diffs_of (endpoint_diff base target) l)).
  { induction l as [|x l IH]; intros e; cbn; [by rewrite app_nil_r|]. rewrite IH.
    generalize (compare_endpoint_lists base target e x). intros [= -> -> ->]. by rewrite <- (assoc_L (++)). }
  unfold compareEndpoints, comparePipelines, compareComponents. rewrite He.
  match goal with |- context [foldl (compare_pipeline _ _) ?e ?l] => generalize (Hp l e) end. intros [= -> -> ->].
  match goal with |- context [foldl (compare_component _ _) ?e ?l] => generalize (Hc l e) end. intros [= -> -> ->].
  done.
Qed.

(** ** The overall risk *)

(** Every risk of a diff. *)
Definition risks (d : ConfigDiff) : list Risk :=
  map ri_Risk (df_RiskItems d) ++ map cd_Risk (df_Components d) ++ map pd_Risk (df_Pipelines d) ++
  map ed_Risk (df_Endpoints d).

Lemma maxRisk_max a b : riskRank (maxRisk a b) = Nat.max (riskRank a) (riskRank b).
Proof. by destruct a, b. Qed.
Lemma maxRisk_one a b : maxRisk a b = a \/ maxRisk a b = b.
Proof. destruct a, b; auto. Qed.

Lemma max_of_ge {A} (f : A -> Risk) l : forall r,
  riskRank r <= riskRank (max_of f l r) /\ forall x, x ∈ l -> riskRank (f x) <= riskRank (max_of f l r).
Proof.
  unfold max_of. induction l as [|y l IH]; intros r; cbn.
  - split; [done|]. intros x Hx. by apply not_elem_of_nil in Hx.
  - destruct (IH (maxRisk r (f y))) as [Hr Hl]. rewrite maxRisk_max in Hr. split; [lia|].
    intros x [->|Hx]%elem_of_cons; [lia|auto].
Qed.

Lemma max_of_one {A} (f : A -> Risk) l : forall r,
  max_of f l r = r \/ max_of f l r ∈ map f l.
Proof.
  unfold max_of. induction l as [|y l IH]; intros r; cbn; [by left|].
  destruct (IH (maxRisk r (f y))) as [E|E]; [|right; by apply list_elem_of_further].
  rewrite E. destruct (maxRisk_one r (f y)) as [E'|E']; rewrite E'; [by left|]. right. apply list_elem_of_here.
Qed.

Lemma finish_risk base target nm e :
  let d := finish base target nm e in
  (forall r, r ∈ risks d -> riskRank r <= riskRank (sm_OverallRisk (df_Summary d))) /\
  (sm_OverallRisk (df_Summary d) = RiskNone \/ sm_OverallRisk (df_Summary d) ∈ risks d).
Proof.
  intros d. unfold risks. setoid_rewrite elem_of_app. setoid_rewrite elem_of_app. setoid_rewrite elem_of_app.
  cbn [d finish df_Summary sm_OverallRisk df_RiskItems df_Components df_Pipelines df_Endpoints].
  clear d. generalize (by_id cd_ID (e_Components e)) as cs, (by_id pd_PipelineKey (e_Pipelines e)) as ps,
    (by_id ed_FieldPath (e_Endpoints e)) as es, (sort_by risk_less (e_RiskItems e)) as items. intros cs ps es items.
  set (r1 := max_of ri_Risk items RiskNone). set (r2 := max_of cd_Risk cs r1). set (r3 := max_of pd_Risk ps r2).
  destruct (max_of_ge ri_Risk items RiskNone) as [_ G1], (max_of_ge cd_Risk cs r1) as [L2 G2],
    (max_of_ge pd_Risk ps r2) as [L3 G3], (max_of_ge ed_Risk es r3) as [L4 G4].
  fold r1 in G1. fold r2 in L2, G2. fold r3 in L3, G3. split.
  - intros r [Hr|[Hr|[Hr|Hr]]]; apply list_elem_of_fmap in Hr as (x & -> & Hx).
    + specialize (G1 x Hx). lia.
    + specialize (G2 x Hx). lia.
    + specialize (G3 x Hx). lia.
    + specialize (G4 x Hx). lia.
  - destruct (max_of_one ed_Risk es r3) as [->|]; [|auto]. destruct (max_of_one pd_Risk ps r2) as [E|]; [|auto].
    fold r3 in E. rewrite E. destruct (max_of_one cd_Risk cs r1) as [E2|]; [|auto]. fold r2 in E2. rewrite E2.
    destruct (max_of_one ri_Risk items RiskNone) as [E1|]; [by left|]. auto.
Qed.

(** What [CompareWithContext] returns. *)
Lemma Compare_cases b t ctx :
  let d := CompareWithContext b t ctx in
  let '(bg, bd) := parseConfig "base" b in
  let '(tg, td) := parseConfig "target" t in
  (bd ++ td = [] /\ df_Valid d = true /\
     exists nm, d = with_blast (finish bg tg nm (compared bg tg))
                     (buildBlastRadius (finish bg tg nm (compared bg tg)) ctx)) \/
  (bd ++ td <> [] /\ df_Valid d = false /\ df_Diagnostics d = bd ++ td /\ risks d = [] /\
     sm_OverallRisk (df_Summary d) = RiskNone /\ df_RiskScore d = mkScore "none" [] 0).
Proof.
  unfold CompareWithContext. destruct (parseConfig "base" b) as [bg bd], (parseConfig "target" t) as [tg td].
  destruct (bd ++ td); [left|right]; split; [done| |done|done]. split; [done|]. by eexists.
Qed.

(** The risk the operator is shown is the greatest risk found: no item, component,
    pipeline or endpoint has a greater one and, unless it is none, one has exactly it;
    the score repeats it, and the document is invalid exactly when there are diagnostics. *)
Theorem overall_risk_is_maximum (b t : string) (ctx : BlastRadiusContext) :
  let d := CompareWithContext b t ctx in
  (forall r, r ∈ risks d -> riskRank r <= riskRank (sm_OverallRisk (df_Summary d))) /\
  (sm_OverallRisk (df_Summary d) = RiskNone \/ sm_OverallRisk (df_Summary d) ∈ risks d) /\
  rs_Severity (df_RiskScore d) = risk_text (sm_OverallRisk (df_Summary d)) /\
  df_Valid d = bool_decide (df_Diagnostics d = []).
Proof.
  intros d. generalize (Compare_cases b t ctx). fold d.
  destruct (parseConfig "base" b) as [bg bd], (parseConfig "target" t) as [tg td].
  intros [(_ & _ & nm & ->)|(Hd & -> & -> & -> & -> & ->)].
  - destruct (finish_risk bg tg nm (compared bg tg)) as [Hge Hone]. done.
  - split; [intros r Hr; by apply not_elem_of_nil in Hr|]. split; [by left|]. split; [done|].
    by rewrite bool_decide_false.
Qed.

(** ** The lists of a valid diff *)

Lemma elem_of_by_id {A} (key : A -> string) l x : x ∈ by_id key l <-> x ∈ l.
Proof. apply elem_of_sort_by. Qed.

Lemma in_components bg tg nm cd :
  cd ∈ df_Components (finish bg tg nm (compared bg tg)) <->
  exists cat id, cat ∈ componentCategories /\ component_diff bg tg cat id = Some cd.
Proof.
  cbn [finish df_Components]. rewrite elem_of_by_id.
  generalize (compared_lists bg tg). intros [= -> _ _]. rewrite elem_of_diffs_of. split.
  - intros ([cat id] & Hin & Hd). exists cat, id. split; [|done].
    unfold component_ids in Hin. apply list_elem_of_In, in_flat_map in Hin as (c & Hc & Hin).
    apply in_map_iff in Hin as (i & [= -> ->] & _). by apply list_elem_of_In.
  - intros (cat & id & Hc & Hd). exists (cat, id). split; [|done].
    apply list_elem_of_In, in_flat_map. exists cat. split; [by apply list_elem_of_In|].
    apply in_map_iff. exists id. split; [done|]. apply list_elem_of_In, elem_of_sorted_set, elem_of_app.
    rewrite !elem_of_sorted_keys. unfold component_diff in Hd.
    destruct (components_of bg cat !! id), (components_of tg cat !! id); eauto.
    by rewrite String.eqb_refl in Hd.
Qed.

Lemma in_pipelines bg tg nm pd :
  pd ∈ df_Pipelines (finish bg tg nm (compared bg tg)) <-> exists key, pipeline_diff bg tg key = Some pd.
Proof.
  cbn [finish df_Pipelines]. rewrite elem_of_by_id.
  generalize (compared_lists bg tg). intros [= _ -> _]. rewrite elem_of_diffs_of. split.
  - intros (key & _ & Hd). eauto.
  - intros (key & Hd). exists key. split; [|done]. apply elem_of_sorted_set, elem_of_app.
    rewrite !elem_of_sorted_keys. unfold pipeline_diff in Hd.
    destruct (g_pipelines bg !! key), (g_pipelines tg !! key); eauto. done.
Qed.

Lemma in_endpoints bg tg nm ed :
  ed ∈ df_Endpoints (finish bg tg nm (compared bg tg)) <-> exists k, endpoint_diff bg tg k = Some ed.
Proof.
  cbn [finish df_Endpoints]. rewrite elem_of_by_id.
  generalize (compared_lists bg tg). intros [= _ _ ->]. rewrite elem_of_diffs_of. split.
  - intros (key & _ & Hd). eauto.
  - intros (key & Hd). exists key. split; [|done]. apply elem_of_sorted_set, elem_of_app.
    rewrite !elem_of_sorted_keys. unfold endpoint_diff in Hd.
    destruct (extractEndpoints bg !! key) as [[]|], (extractEndpoints tg !! key) as [[]|]; eauto. done.
Qed.

(** A valid diff has the overall risk of everything in its lists. *)
Lemma valid_risks b t bg tg : parseConfig "base" b = (bg, []) -> parseConfig "target" t = (tg, []) -> forall ctx,
  let d := CompareWithContext b t ctx in
  (forall cat id cd, cat ∈ componentCategories -> component_diff bg tg cat id = Some cd ->
     riskRank (cd_Risk cd) <= riskRank (sm_OverallRisk (df_Summary d))) /\
  (forall key pd, pipeline_diff bg tg key = Some pd ->
     riskRank (pd_Risk pd) <= riskRank (sm_OverallRisk (df_Summary d))) /\
  (forall k ed, endpoint_diff bg tg k = Some ed ->
     riskRank (ed_Risk ed) <= riskRank (sm_OverallRisk (df_Summary d))).
Proof.
  intros Eb Et ctx d. generalize (Compare_cases b t ctx). fold d. rewrite Eb, Et.
  intros [(_ & _ & nm & ->)|([] & _)]; [|done].
  destruct (finish_risk bg tg nm (compared bg tg)) as [Hge _].
  change (df_Summary (with_blast ?d _)) with (df_Summary d). unfold risks in Hge.
  repeat setoid_rewrite elem_of_app in Hge. split; [|split].
  - intros cat id cd Hc Hd. apply Hge. right; left. apply list_elem_of_fmap_2, in_components. eauto.
  - intros key pd Hd. apply Hge. right; right; left. apply list_elem_of_fmap_2, in_pipelines. eauto.
  - intros k ed Hd. apply Hge. right; right; right. apply list_elem_of_fmap_2, in_endpoints. eauto.
Qed.

Lemma rank_high r : riskRank RiskHigh <= riskRank r -> r = RiskHigh.
Proof. destruct r; cbn; lia || done. Qed.

Lemma field_risk_ge id r f :
  riskRank r <= riskRank (field_risk id r f) /\
  (credential f || weakened f = true -> riskRank RiskHigh <= riskRank (field_risk id r f)).
Proof.
  unfold field_risk.
  destruct (credential f || weakened f), (resampled id f), (strongSamplingChange (fc_Before f) (fc_After f));
    rewrite ?maxRisk_max; split; lia || done.
Qed.

Lemma modified_ge id fields : forall r, riskRank r <= riskRank (foldl (field_risk id) r fields).
Proof.
  induction fields as [|g fields IH]; intros r; cbn [foldl]; [done|].
  destruct (field_risk_ge id r g) as [Hg _]. specialize (IH (field_risk id r g)). lia.
Qed.

Lemma modified_high id fields f : f ∈ fields -> credential f || weakened f = true ->
  componentModifiedRisk id fields = RiskHigh.
Proof.
  unfold componentModifiedRisk. intros Hf Hd. apply rank_high. generalize RiskLow as r.
  induction Hf as [f fields|f g fields _ IH]; intros r; cbn [foldl]; [|by apply IH].
  destruct (field_risk_ge id r f) as [_ Hg]. specialize (Hg Hd).
  generalize (modified_ge id fields (field_risk id r f)). lia.
Qed.

(** A pipeline on both sides with a changed reference. *)
Lemma pipeline_modified bg tg key b t c :
  g_pipelines bg !! key = Some b -> g_pipelines tg !! key = Some t -> c ∈ pipelineRefChanges b t ->
  exists pd, pipeline_diff bg tg key = Some pd /\ riskRank (rc_Risk c) <= riskRank (pd_Risk pd) /\
    (ps_Exporters t = [] \/ ps_Receivers t = [] -> pd_Risk pd = RiskHigh).
Proof.
  intros Eb Et Hc. unfold pipeline_diff. rewrite Eb, Et. cbn [from_option id]. cbv zeta.
  destruct (max_of_ge rc_Risk (pipelineRefChanges b t) RiskLow) as [_ Hge]. specialize (Hge c Hc).
  unfold max_of in Hge. destruct (pipelineRefChanges b t) as [|c0 l]; [by apply not_elem_of_nil in Hc|].
  destruct (ps_Exporters t), (ps_Receivers t); eexists; (split; [done|]); cbn [pd_Risk];
    (split; [first [exact Hge | destruct (rc_Risk c); cbn; lia]|naive_solver]).
Qed.

Lemma ref_removed section b t id : id ∈ b -> id ∉ t ->
  exists c, c ∈ refChanges section b t /\ rc_Risk c = (removed_ref section t id).1.
Proof.
  intros Hb Ht. apply indexMap_Some in Hb as [i Hi]. eexists. split.
  - apply elem_of_refChanges. exists id. left. exists i. split; [done|]. by split.
  - done.
Qed.

Lemma guard_high t id :
  (componentTypeName id).1 = "batch" \/ (componentTypeName id).1 = "memory_limiter" \/ isSamplingID id = true ->
  (removed_ref "processors" t id).1 = RiskHigh.
Proof.
  unfold removed_ref. change ("processors" =s "processors") with true.
  change ("processors" =s "exporters") with false. cbn [andb].
  intros [->|[->| ->]]; [| |by do 2 destruct (_ =s _)]; by destruct (isSamplingID id).
Qed.

(** The changes between two configurations that lose telemetry or protection. *)
Inductive dangerous (bg tg : graph) : Prop :=
| pipeline_removed key b :
    g_pipelines bg !! key = Some b -> g_pipelines tg !! key = None -> dangerous bg tg
| exporter_removed id c :
    components_of bg "exporters" !! id = Some c -> components_of tg "exporters" !! id = None -> dangerous bg tg
| guard_removed key b t id :
    g_pipelines bg !! key = Some b -> g_pipelines tg !! key = Some t ->
    id ∈ ps_Processors b -> id ∉ ps_Processors t ->
    (componentTypeName id).1 = "batch" \/ (componentTypeName id).1 = "memory_limiter" \/ isSamplingID id = true ->
    dangerous bg tg
| outlet_lost key b t :
    g_pipelines bg !! key = Some b -> g_pipelines tg !! key = Some t ->
    ps_Exporters b <> [] -> ps_Exporters t = [] -> dangerous bg tg
| inlet_lost key b t :
    g_pipelines bg !! key = Some b -> g_pipelines tg !! key = Some t ->
    ps_Receivers b <> [] -> ps_Receivers t = [] -> dangerous bg tg
| field_weakened cat id b t ks x :
    cat ∈ componentCategories ->
    components_of bg cat !! id = Some b -> components_of tg cat !! id = Some t ->
    canonical (c_cfg b) <> canonical (c_cfg t) ->
    facing (c_cfg b) (c_cfg t) ks x (VBool true) -> x <> VBool true ->
    isInsecurePath (ToLower (field_path (cat +:+ "." +:+ id) ks)) = true ->
    isSensitivePath (field_path (cat +:+ "." +:+ id) ks) = false -> dangerous bg tg
| credential_changed cat id b t ks x y :
    cat ∈ componentCategories ->
    components_of bg cat !! id = Some b -> components_of tg cat !! id = Some t ->
    canonical (c_cfg b) <> canonical (c_cfg t) ->
    facing (c_cfg b) (c_cfg t) ks x y -> DeepEqual x y = false ->
    isAuthPath (ToLower (field_path (cat +:+ "." +:+ id) ks)) = true -> dangerous bg tg.

(** A changed field of a component on both sides that is compared. *)
Lemma component_modified bg tg cat id b t f :
  components_of bg cat !! id = Some b -> components_of tg cat !! id = Some t ->
  canonical (c_cfg b) <> canonical (c_cfg t) ->
  f ∈ walkDiff (c_cfg b) (cat +:+ "." +:+ id) (c_cfg t) -> credential f || weakened f = true ->
  exists cd, component_diff bg tg cat id = Some cd /\ cd_Risk cd = RiskHigh.
Proof.
  intros Eb Et Hn Hf Hd. unfold component_diff. rewrite Eb, Et. cbn zeta.
  destruct (String.eqb_spec (canonical (c_cfg b)) (canonical (c_cfg t))); [done|].
  eexists. split; [done|]. cbn [cd_Risk]. apply (modified_high _ _ f); [|done].
  unfold changedFields. by rewrite elem_of_sort_by.
Qed.

Lemma weakened_field path ks x : x <> VBool true ->
  isInsecurePath (ToLower (field_path path ks)) = true -> isSensitivePath (field_path path ks) = false ->
  DeepEqual x (VBool true) = false /\ weakened (reported path ks x (VBool true)) = true.
Proof.
  intros Hx Hi Hs. split; [by destruct x as [| []| | | | | | | |]|].
  unfold weakened, reported. cbn [fc_Path fc_Before fc_After]. rewrite Hi. cbn [redactValue]. rewrite Hs.
  cbn [boolBecameTrue andb].
  destruct x as [| []| | | | | | | |]; cbn; rewrite ?Hs; done.
Qed.

Lemma valid_high b t bg tg : parseConfig "base" b = (bg, []) -> parseConfig "target" t = (tg, []) -> forall ctx,
  let overall := sm_OverallRisk (df_Summary (CompareWithContext b t ctx)) in
  (forall cat id cd, cat ∈ componentCategories -> cd_Risk cd = RiskHigh ->
     component_diff bg tg cat id = Some cd -> overall = RiskHigh) /\
  (forall key pd, pd_Risk pd = RiskHigh -> pipeline_diff bg tg key = Some pd -> overall = RiskHigh).
Proof.
  intros Eb Et ctx overall. destruct (valid_risks b t bg tg Eb Et ctx) as (Hc & Hp & _).
  split.
  - intros cat id cd Hcat Hr Hd. apply rank_high. rewrite <- Hr. by apply (Hc cat id).
  - intros key pd Hr Hd. apply rank_high. rewrite <- Hr. by apply (Hp key).
Qed.

Lemma inlet_outlet section b t : b <> [] -> t = [] -> exists c, c ∈ refChanges section b t.
Proof.
  intros Hb ->. destruct b as [|id l]; [done|].
  destruct (ref_removed section (id :: l) [] id) as (c & Hc & _);
    [apply list_elem_of_here|apply not_elem_of_nil|]. eauto.
Qed.


(** ** No risk *)

Definition same_component (bg tg : graph) (cat id : string) : Prop :=
  match components_of bg cat !! id, components_of tg cat !! id with
  | None, None => True
  | Some b, Some t => canonical (c_cfg b) = canonical (c_cfg t)
  | _, _ => False
  end.
Definition same_refs (b t : list string) : Prop := forall id, id ∈ b <-> id ∈ t.
Definition same_pipeline (bg tg : graph) (key : string) : Prop :=
  match g_pipelines bg !! key, g_pipelines tg !! key with
  | None, None => True
  | Some b, Some t =>
      same_refs (ps_Receivers b) (ps_Receivers t) /\ same_refs (ps_Processors b) (ps_Processors t) /\
      same_refs (ps_Exporters b) (ps_Exporters t)
  | _, _ => False
  end.
Definition same_endpoint (bg tg : graph) (k : string) : Prop :=
  match extractEndpoints bg !! k, extractEndpoints tg !! k with
  | None, None => True
  | Some (_, b), Some (_, t) => ev_Normalized b = ev_Normalized t
  | _, _ => False
  end.

Lemma component_diff_None bg tg cat id : component_diff bg tg cat id = None <-> same_component bg tg cat id.
Proof.
  unfold component_diff, same_component. cbv zeta.
  destruct (components_of bg cat !! id) as [b|], (components_of tg cat !! id) as [t|]; try done.
  destruct (String.eqb_spec (canonical (c_cfg b)) (canonical (c_cfg t))); done.
Qed.

Lemma component_diff_low bg tg cat id cd : component_diff bg tg cat id = Some cd -> 1 <= riskRank (cd_Risk cd).
Proof.
  unfold component_diff. cbv zeta.
  destruct (components_of bg cat !! id) as [b|], (components_of tg cat !! id) as [t|];
    try (destruct (_ =s _); [done|]); intros [= <-]; cbn [cd_Risk];
    first [apply (modified_ge id _ RiskLow) | apply Nat.le_refl
          | unfold removedComponentRisk; destruct (_ || _); cbn; lia].
Qed.

Lemma refChanges_nil section b t : refChanges section b t = [] <-> same_refs b t.
Proof.
  unfold same_refs. split.
  - intros Hn id. split; intros Hi; apply dec_stable; intros Hno.
    + destruct (ref_removed section b t id Hi Hno) as (c & Hc & _). rewrite Hn in Hc. by apply not_elem_of_nil in Hc.
    + apply indexMap_Some in Hi as [i Hi].
      assert (Hc : mkRefChange section id ChangeAdded None (Some i)
                (if section =s "receivers" then RiskMedium else RiskLow) "" ∈ refChanges section b t)
        by (apply elem_of_refChanges; exists id; right; eauto).
      rewrite Hn in Hc. by apply not_elem_of_nil in Hc.
  - intros Hs. destruct (refChanges section b t) as [|c l] eqn:E; [done|]. exfalso.
    assert (Hc : c ∈ refChanges section b t) by (rewrite E; apply list_elem_of_here).
    apply elem_of_refChanges in Hc as (id & [(i & _ & Hi & Hno)|(i & _ & Hi & Hno)]);
      apply Hno, Hs, indexMap_Some; eauto.
Qed.

Lemma pipeline_diff_None bg tg key : pipeline_diff bg tg key = None <-> same_pipeline bg tg key.
Proof.
  unfold pipeline_diff, same_pipeline. cbv zeta.
  destruct (g_pipelines bg !! key) as [b|], (g_pipelines tg !! key) as [t|]; try done. cbn [from_option id].
  rewrite <- (refChanges_nil "receivers"), <- (refChanges_nil "processors"), <- (refChanges_nil "exporters").
  rewrite <- !app_nil. fold (pipelineRefChanges b t).
  destruct (pipelineRefChanges b t); [done|]. by destruct (ps_Exporters t), (ps_Receivers t).
Qed.

Lemma pipeline_diff_low bg tg key pd : pipeline_diff bg tg key = Some pd -> 1 <= riskRank (pd_Risk pd).
Proof.
  unfold pipeline_diff. cbv zeta.
  destruct (g_pipelines bg !! key) as [b|], (g_pipelines tg !! key) as [t|]; cbn [from_option id];
    try (by intros [= <-]; cbn; lia).
  destruct (max_of_ge rc_Risk (pipelineRefChanges b t) RiskLow) as [Hge _].
  destruct (pipelineRefChanges b t) as [|c l]; [done|].
  destruct (ps_Exporters t), (ps_Receivers t); intros [= <-]; cbn [pd_Risk]; [cbn; lia..|exact Hge].
Qed.

Lemma endpoint_diff_None bg tg k : endpoint_diff bg tg k = None <-> same_endpoint bg tg k.
Proof.
  unfold endpoint_diff, same_endpoint. cbv zeta.
  destruct (extractEndpoints bg !! k) as [[c b]|], (extractEndpoints tg !! k) as [[c' t]|]; try done.
  destruct (String.eqb_spec (ev_Normalized b) (ev_Normalized t)); done.
Qed.

Lemma endpoint_diff_low bg tg k ed : endpoint_diff bg tg k = Some ed -> 1 <= riskRank (ed_Risk ed).
Proof.
  unfold endpoint_diff. cbv zeta.
  destruct (extractEndpoints bg !! k) as [[c b]|], (extractEndpoints tg !! k) as [[c' t]|];
    try (destruct (_ =s _); [done|]); intros [= <-]; cbn [ed_Risk]; try (cbn; lia).
  unfold endpointRisk. repeat case_match; cbn; lia.
Qed.

Lemma foldl_id {A B} (f : A -> B -> A) l a : (forall x, x ∈ l -> f a x = a) -> foldl f a l = a.
Proof.
  induction l as [|x l IH]; intros Hf; cbn; [done|]. rewrite Hf by apply list_elem_of_here.
  apply IH. intros y Hy. apply Hf. by apply list_elem_of_further.
Qed.

(** Nothing is collected from two configurations that agree. *)
Lemma compared_same bg tg :
  (forall cat id, cat ∈ componentCategories -> same_component bg tg cat id) ->
  (forall key, same_pipeline bg tg key) -> (forall k, same_endpoint bg tg k) ->
  compared bg tg = mkEngine [] [] [] [] [] ∅.
Proof.
  intros Hc Hp He. unfold compared, compareComponents. rewrite foldl_id.
  2: { intros [cat id] Hin. unfold component_ids in Hin.
       apply list_elem_of_In, in_flat_map in Hin as (c & Hcat & Hin).
       apply in_map_iff in Hin as (i & [= -> ->] & _). unfold compare_component. cbn [fst snd].
       by rewrite (proj2 (component_diff_None _ _ _ _) (Hc cat id (proj2 (list_elem_of_In _ _) Hcat))). }
  unfold comparePipelines. rewrite foldl_id.
  2: { intros key _. unfold compare_pipeline. by rewrite (proj2 (pipeline_diff_None _ _ _) (Hp key)). }
  unfold compareEndpoints. rewrite foldl_id; [done|].
  intros k _. unfold compare_endpoint. by rewrite (proj2 (endpoint_diff_None _ _ _) (He k)).
Qed.

(** C18: No risk is shown exactly when nothing changed: every component has the same
    canonical form on both sides, every pipeline the same references and every endpoint
    the same normalized address. *)
Theorem no_risk_iff_unchanged (b t : string) (bg tg : graph) (ctx : BlastRadiusContext) :
  parseConfig "base" b = (bg, []) -> parseConfig "target" t = (tg, []) ->
  sm_OverallRisk (df_Summary (CompareWithContext b t ctx)) = RiskNone <->
  (forall cat id, cat ∈ componentCategories -> same_component bg tg cat id) /\
  (forall key, same_pipeline bg tg key) /\ (forall k, same_endpoint bg tg k).
Proof.
  intros Eb Et. split.
  - intros Hn. destruct (valid_risks b t bg tg Eb Et ctx) as (Hc & Hp & He). rewrite Hn in Hc, Hp, He. cbn in Hc, Hp, He.
    split; [|split].
    + intros cat id Hcat. apply component_diff_None. destruct (component_diff bg tg cat id) as [cd|] eqn:E; [|done].
      specialize (Hc cat id cd Hcat E). apply component_diff_low in E. lia.
    + intros key. apply pipeline_diff_None. destruct (pipeline_diff bg tg key) as [pd|] eqn:E; [|done].
      specialize (Hp key pd E). apply pipeline_diff_low in E. lia.
    + intros k. apply endpoint_diff_None. destruct (endpoint_diff bg tg k) as [ed|] eqn:E; [|done].
      specialize (He k ed E). apply endpoint_diff_low in E. lia.
  - intros (Hc & Hp & He). generalize (Compare_cases b t ctx). rewrite Eb, Et.
    intros [(_ & _ & nm & ->)|([] & _)]; [|done]. by rewrite (compared_same bg tg Hc Hp He).
Qed.

End Engine.

(** ** Concrete configurations *)

#[local] Existing Instance byte_tables.
#[local] Existing Instance plain_urls.
Definition no_floats : FloatText := {| json_float := fun _ => "0"; format_f := fun _ => "0" |}.
#[local] Existing Instance no_floats.

Definition one_pipeline (exporters : list value) : value :=
  VMap {[ "pipelines" := VMap {[ "traces" := VMap
    {[ "receivers" := VList [VStr "otlp"]; "exporters" := VList exporters ]} ]} ]}.
Definition exporter (name : string) (cfg : list (string * value)) : gmap string value :=
  {[ "exporters" := VMap {[ name := VMap (list_to_map cfg) ]}; "service" := one_pipeline [VStr name] ]}.
Definition tls (insecure : bool) : string * value := ("tls", VMap {[ "insecure" := VBool insecure ]}).

(** The documents of the examples, by name. *)
Definition library : YamlDoc := {|
  yaml_document s :=
    if s =s "secure" then Ok (Some (exporter "otlp" [tls false]))
    else if s =s "insecure" then Ok (Some (exporter "otlp" [tls true]))
    else if s =s "secure, buckets" then
      Ok (Some (exporter "otlp" [tls false; ("buckets", VAnyMap [(VInt 1, VStr "x")])]))
    else if s =s "insecure, buckets" then
      Ok (Some (exporter "otlp" [tls true; ("buckets", VAnyMap [(VInt 1, VStr "x")])]))
    else if s =s "no tls" then Ok (Some (exporter "otlp" []))
    else if s =s "secure, cookie jar" then Ok (Some (exporter "otlp/cookie-jar" [tls false]))
    else if s =s "insecure, cookie jar" then Ok (Some (exporter "otlp/cookie-jar" [tls true]))
    else if s =s "key in path" then
      Ok (Some (exporter "otlp" [tls false; ("endpoint", VStr "https://gw/apikey/abc")]))
    else Err s
|}.
#[local] Existing Instance library.

Definition overall (b t : string) : Risk := sm_OverallRisk (df_Summary (Compare b t)).


Lemma no_risk_iff_unchanged_witness :
  overall "secure" "secure" = RiskNone <->
  (forall cat id, cat ∈ componentCategories ->
     same_component (parseConfig "base" "secure").1 (parseConfig "target" "secure").1 cat id) /\
  (forall key, same_pipeline (parseConfig "base" "secure").1 (parseConfig "target" "secure").1 key) /\
  (forall k, same_endpoint (parseConfig "base" "secure").1 (parseConfig "target" "secure").1 k).
Proof.
  apply (no_risk_iff_unchanged "secure" "secure"); by vm_compute.
Defined.

(** A component with a value that cannot be marshalled (here a mapping with an integer
    key) is never compared: [canonical] drops the error, both sides read as the empty
    text, and turning TLS verification off shows no risk and no change. *)
Lemma unmarshalable_change_hidden :
  overall "secure, buckets" "insecure, buckets" = RiskNone /\
  df_Components (Compare "secure, buckets" "insecure, buckets") = [] /\
  overall "secure" "insecure" = RiskHigh.
Proof. by vm_compute. Qed.

(** A [tls] block that appears whole is one changed field at [...tls], which is no
    insecure path: the same setting as in "insecure" shows as low risk. *)
Lemma new_insecure_block_low_risk :
  overall "no tls" "insecure" = RiskLow /\ df_Security (Compare "no tls" "insecure") = [].
Proof. by vm_compute. Qed.

(** Both values of a flag below a redacted component name read as the mask, so that the
    flag is not seen to become true. *)
Lemma redacted_name_hides_weakening :
  overall "secure, cookie jar" "insecure, cookie jar" = RiskLow.
Proof. by vm_compute. Qed.

(** A text that is masked in the component diff is shown in the endpoint diff. *)
Lemma masked_endpoint_shown :
  let d := Compare "secure" "key in path" in
  map (fun c => match cd_After c with VMap m => get m "endpoint" | _ => VNull end) (df_Components d)
    = [VStr MaskedValue] /\
  map (fun e => ev_Raw <$> ed_After e) (df_Endpoints d) = [Some "https://gw/apikey/abc"].
Proof. by vm_compute. Qed.

End DiffEngine.
