(* ===== verification/Api.v ===== *)
(** * REST handlers: shared state, effects and helpers (internal/api)

    A handler runs in a state monad over the OpAMP server (with its tables), the
    table of approval requests, the audit trail and the record of the pushes it
    asked the OpAMP server for. What the request's surroundings decide comes
    from an environment indexed by the server's step counter; before every
    statement other requests and agents may run ([ae_other]). A handler's answer
    is its HTTP status with the error text and code; the bodies of successful
    answers repeat rows of the tables and are left out. *)

From S2P Require Import Prelude GoString Models PushStatus Registry Sha256 Validator Yaml.
From S2P Require Import ConfigPolicy Access Store PushHistory OpampServer.
Import Registry Sha256 Validator Yaml ConfigPolicy Access Store.Store PushHistory OpampServer.

Module Api.

(* src/pkg/models/models.go:287-310 ConfigApprovalRequest *)
Record ConfigApprovalRequest := mkApproval {
  ar_ID : string; ar_WorkloadID : string; ar_DraftYAML : string; ar_TargetGroup : string;
  ar_TargetEnv : string; ar_Requester : string; ar_RequestComment : string; ar_Approver : string;
  ar_ApprovalComment : string; ar_Status : string; ar_ApprovedBy : option string;
  ar_ApprovedAt : option Time; ar_PushComment : option string; ar_ProdTarget : bool;
  ar_ProdConfirmation : bool; ar_ProdDoubleConfirmed : bool; ar_BreakGlass : bool;
  ar_BreakGlassReason : option string; ar_ConfigHash : option string; ar_CreatedAt : Time;
  ar_UpdatedAt : Time; ar_PushedAt : option Time
}.

Notation approvals := (gmap string ConfigApprovalRequest).

(** ** State *)

(** The details of an audit event: a text, or the fields of a JSON object. *)
Inductive jval := JStr (s : string) | JOpt (s : option string) | JBool (b : bool) | JStrs (l : list string)
                | JTime (t : option Time).
Inductive detail := DText (s : string) | DJson (fields : list (string * jval)).
Record audit_event := mkAudit {
  au_user : option UserInfo; au_action : string; au_resource : string; au_resourceID : string;
  au_detail : detail
}.

(** A push the API asked for: workload and body. *)
Notation push_call := (string * string)%type.

(* src/internal/api/router.go:32-44 API *)
Record api := mkApi {
  ap_server : server; ap_approvals : approvals; ap_audit : list audit_event;
  ap_pushes : list push_call
}.

Record aenv := mkAenv {
  ae_server : env;
  ae_opamp : bool;                          (* a.opamp != nil *)
  ae_user : option UserInfo;                (* ext.UserInfoFromContext *)
  ae_getenv : string -> string;
  ae_newID : nat -> option (list N);        (* crypto/rand.Read *)
  ae_runtime : nat -> runtime;              (* the otelcol binary *)
  ae_exportersFirst : nat -> bool;          (* a map iteration order *)
  ae_auditFails : nat -> bool;              (* logger.Log returns an error *)
  ae_other : nat -> api -> api
}.

Definition AM (A : Type) : Type := api -> api * A.
Definition aret {A} (x : A) : AM A := fun a => (a, x).
Definition abind {A B} (m : AM A) (f : A -> AM B) : AM B := fun a => let (a', x) := m a in f x a'.

Declare Scope api_scope.
Notation "x ← y ; z" := (abind y (fun x => z)) : api_scope.
Notation "x ;; z" := (abind x (fun _ => z)) : api_scope.
Local Open Scope api_scope.

Definition set_server (s : server) (a : api) : api :=
  mkApi s (ap_approvals a) (ap_audit a) (ap_pushes a).
Definition set_approvals (m : approvals) (a : api) : api :=
  mkApi (ap_server a) m (ap_audit a) (ap_pushes a).
Definition add_audit (e : audit_event) (a : api) : api :=
  mkApi (ap_server a) (ap_approvals a) (ap_audit a ++ [e]) (ap_pushes a).
Definition add_push (p : push_call) (a : api) : api :=
  mkApi (ap_server a) (ap_approvals a) (ap_audit a) (ap_pushes a ++ [p]).

(** An operation of the OpAMP server or of its database. *)
Definition lift {A} (m : M A) : AM A :=
  fun a => let (s, x) := m (ap_server a) in (set_server s a, x).
Definition draw {A} (f : nat -> A) : AM A :=
  lift (fun s => (tick s, f (sv_tick s))).

(** ** Answers *)

Record response := mkResponse { rp_status : Z; rp_error : string; rp_code : string }.
Definition respondError (status : Z) (msg : string) : AM response := aret (mkResponse status msg "").
Definition respondCode (status : Z) (msg errcode : string) : AM response :=
  aret (mkResponse status msg errcode).
Definition respondOK (status : Z) : AM response := aret (mkResponse status "" "").

Section Handlers.
Context `{UnicodeTables} `{TimestampColumn} {netURL : NetURL} {floatFormat : FloatFormat}
  {yamlDoc : YamlDoc} (e : aenv).

(** Other requests run before a statement; then the statement runs alone. *)
Definition others : AM unit :=
  fun a => let a' := ae_other e (sv_tick (ap_server a)) a in
           (set_server (tick (ap_server a')) a', tt).
Definition aq {A} (q : db -> io -> A) : AM A := others;; lift (dbq (ae_server e) q).
Definition ax {A} (x : db -> io -> db * A) : AM A := others;; lift (dbx (ae_server e) x).
(** A read and a write of the table of approval requests. *)
Definition approvals_read {A} (q : approvals -> io -> A) : AM A :=
  others;; f ← lift (fault (ae_server e)); fun a => (a, q (ap_approvals a) f).
Definition approvals_write {A} (x : db -> approvals -> io -> approvals * A) : AM A :=
  others;; f ← lift (fault (ae_server e));
  fun a => let (m, r) := x (sv_db (ap_server a)) (ap_approvals a) f in (set_approvals m a, r).
(** The answer of a query that reads the clock itself. *)
Definition aq_now {A} (q : db -> io -> Time -> A) : AM A :=
  t ← lift (now (ae_server e)); aq (fun d f => q d f t).

Definition anow : AM Time := lift (now (ae_server e)).
Definition live_instances (workloadID : string) : AM (list Instance) :=
  others;; lift (gets (fun s => Instances (sv_registry s) workloadID)).

(** ** Audit *)

(* src/internal/audit/emit.go:26-41 Emit *)
Definition Emit (action resource resourceID : string) (d : detail) : AM bool :=
  failed ← draw (ae_auditFails e);
  if failed : bool then aret false
  else fun a => (add_audit (mkAudit (ae_user e) action resource resourceID d) a, true).

Definition sideEffectApplied := "applied".
Definition sideEffectNone := "none".

(* src/internal/api/audit_response.go:29-34 respondAuditUnavailable *)
Definition respondAuditUnavailable (status : string) : AM response :=
  respondCode 503 "audit unavailable" status.

(** [emitAudit] answers itself when the sink fails. *)
(* src/internal/api/audit_response.go:39-45 emitAudit *)
Definition emitAudit (status action resource resourceID : string) (d : detail) (k : AM response)
  : AM response :=
  ok ← Emit action resource resourceID d;
  if ok : bool then k else respondAuditUnavailable status.

(* src/internal/api/config_approvals.go:310-315 currentUserEmail *)
Definition currentUserEmail : string := match ae_user e with Some u => ui_Email u | None => "" end.

(** ** Validation and policy of a draft *)

(* src/internal/api/workloads.go:783-790 runtimeOptionsForWorkload *)
Definition runtimeOptionsForWorkload (wl : Workload) : RuntimeOptions :=
  let o := RuntimeOptionsFromEnv (ae_getenv e) in
  mkOptions (op_Enabled o) (op_BinaryPath o) (op_Timeout o) (wl_Version wl)
    (if wl_Version wl <>s "" then "workload" else op_TargetVersionSource o) (op_MinimumVersion o).

Definition validate_for (body : string) (wl : Workload) : AM Result :=
  t ← anow; rt ← draw (ae_runtime e);
  aret (ValidateWithRuntime rt t body (wl_AvailableComponents wl) (runtimeOptionsForWorkload wl)).

(* src/internal/api/workloads.go:611-613 workloadIsConnected *)
Definition workloadIsConnected (wl : Workload) : bool := EqualFold (TrimSpace (wl_Status wl)) "connected".

(** [err == nil && wc != nil && wc.Content != ""]. *)
Definition usable (r : result (option WorkloadConfig)) : option WorkloadConfig :=
  match r with
  | Ok (Some wc) => if wc_Content wc <>s "" then Some wc else None
  | _ => None
  end.

(* src/internal/api/workloads.go:615-625 activeConfigContent *)
Definition activeConfigContent (wl : Workload) : AM (option WorkloadConfig) :=
  first ← (if wl_ActiveConfigHash wl <>s ""
           then r ← aq_now (fun d f t => GetWorkloadConfigByHash d f t (wl_ID wl) (wl_ActiveConfigHash wl));
                aret (usable r)
           else aret None);
  match first with
  | Some wc => aret (Some wc)
  | None =>
      r ← aq_now (fun d f t => GetLastAppliedWorkloadConfig d f t (wl_ID wl));
      aret (usable r)
  end.

Fixpoint first_label (labels : gmap string string) (keys : list string) : string :=
  match keys with
  | [] => ""
  | k :: rest => let x := TrimSpace (default "" (labels !! k)) in
                 if x <>s "" then x else first_label labels rest
  end.

(* src/internal/api/workloads.go:513-520 policyEnvironmentForWorkload *)
Definition policyEnvironmentForWorkload (wl : Workload) : string :=
  first_label (wl_Labels wl) ["env"; "environment"; "deployment.environment"].

(* src/internal/api/workloads.go:540-553 splitCSVEnv *)
Definition splitCSVEnv (key : string) : list string :=
  let raw := TrimSpace (ae_getenv e key) in
  if raw =s "" then []
  else List.filter (fun item => item <>s "") (map TrimSpace (Split raw ","%char)).

(* src/internal/api/workloads.go:522-528 configPolicySettingsFromEnv *)
Definition configPolicySettingsFromEnv : PolicySettings :=
  mkSettings (splitCSVEnv "OTEL_MAGNIFY_POLICY_OTLP_ALLOWLIST")
    (splitCSVEnv "OTEL_MAGNIFY_POLICY_CRITICAL_EXPORTERS")
    (splitCSVEnv "OTEL_MAGNIFY_POLICY_REQUIRED_RESOURCE_ATTRIBUTES") (mkSampling f_zero f_zero).

(* src/internal/api/workloads.go:496-511 evaluateWorkloadConfigPolicy *)
Definition evaluateWorkloadConfigPolicy (wl : Workload) (body : string) : AM EvaluationResult :=
  current ← activeConfigContent wl;
  order ← draw (ae_exportersFirst e);
  let currentYAML := match current with Some wc => wc_Content wc | None => "" end in
  aret (Evaluate order (ConfigPolicy.mkRequest currentYAML body
    (mkTarget (policyEnvironmentForWorkload wl) "workload" (wl_ID wl) "" "")
    configPolicySettingsFromEnv)).

(* src/internal/api/workloads.go:530-538 policyRuleIDs *)
Definition policyRuleIDs (policy : EvaluationResult) : list string :=
  map fi_RuleID (List.filter (fun f => fi_Decision f =s PolicyDecisionBlock) (ev_Findings policy)).

(** ** Pushing to a workload *)

Definition sha256_hex (body : string) : string := hex_encode (Sum256 (str_bytes body)).

(* src/internal/api/workloads.go:244-257 initialPushInstanceStatuses *)
Definition initialPushInstanceStatuses (hash : string) (at_ : Time) (instances : list Instance)
  : list InstanceStatus :=
  map (fun inst => mkInstanceStatus (InstanceUID inst) (PodName inst) "" true
    PushStatus.InstanceStatusSent hash at_ "" "" false) instances.

(** The record of a push that is about to be sent. *)
Definition submitted_push (workloadID hash pushedBy : string) (at_ : Time) (l : list Instance)
  : WorkloadConfig :=
  mkWorkloadConfig workloadID hash "" at_ PushStatus.PushStatusSubmitted "" pushedBy "" None "" at_
    None zero_time None false "" "" [] (initialPushInstanceStatuses hash at_ l)
    0 0 0 0 0 0 [] false false false false false.

(** [a.opamp.PushConfig(ctx, workloadID, body, "")]. *)
Definition call_push (workloadID body : string) : AM (option string) :=
  (fun a => (add_push (workloadID, body) a, tt));;
  lift (PushConfig (ae_server e) workloadID body "").

Inductive push_outcome := NotRecorded (err : string) | NotSent (msg : string) | Sent.

(** Every push of the API: the instances are listed and the row is recorded,
    then the body is sent; a failed send is recorded with the sanitized error. *)
Definition record_and_push (workloadID hash body pushedBy : string) (submittedAt : Time)
  : AM push_outcome :=
  insts ← live_instances workloadID;
  t ← anow;
  err ← ax (fun d f => RecordWorkloadConfig d f t
    (submitted_push workloadID hash pushedBy submittedAt insts));
  match err with
  | Some msg => aret (NotRecorded msg)
  | None =>
      others;;
      err ← call_push workloadID body;
      match err with
      | Some msg =>
          let sanitized := PushStatus.SanitizeRemoteConfigErrorMessage msg in
          _ ← ax (fun d f => UpdateWorkloadConfigStatus d f workloadID hash
            PushStatus.PushStatusFailed sanitized);
          aret (NotSent sanitized)
      | None =>
          t ← anow;
          _ ← ax (fun d f => MarkWorkloadConfigSent d f workloadID hash t);
          aret Sent
      end
  end.

End Handlers.
End Api.
