(* ===== verification/ApiLogic.v ===== *)
(** * Reasoning about handlers

    Weakest preconditions for the handler monad, the frame of the steps that
    leave the approval table and the recorded pushes alone, and the two regimes
    the theorems assume of other requests: they keep away from the approval
    table ([isolated]), or none runs ([quiet]). *)

From S2P Require Import Prelude GoString Models PushStatus Registry Sha256 Validator Yaml.
From S2P Require Import ConfigPolicy Access Store PushHistory OpampServer Api.
Import Registry Sha256 Validator Yaml ConfigPolicy Access Store.Store PushHistory OpampServer Api.

Module ApiLogic.

(** ** What a handler changes

    [frame m]: [m] leaves the table of requests and the recorded pushes alone. *)

Definition frame {A} (m : AM A) : Prop :=
  forall a, ap_approvals (m a).1 = ap_approvals a /\ ap_pushes (m a).1 = ap_pushes a.

(** Other requests run, but not on the table of approval requests. *)
Class isolated (e : aenv) : Prop := {
  isolated_keeps : forall n a,
    ap_approvals (ae_other e n a) = ap_approvals a /\ ap_pushes (ae_other e n a) = ap_pushes a
}.

(** [wp m Q a]: [m] run from [a] ends in [Q]. *)
Definition wp {A} (m : AM A) (Q : A -> api -> Prop) (a : api) : Prop := Q (m a).2 (m a).1.

Lemma wp_bind {A B} (m : AM A) (f : A -> AM B) Q a :
  wp m (fun x a' => wp (f x) Q a') a -> wp (abind m f) Q a.
Proof. unfold wp, abind. by destruct (m a). Qed.

Lemma wp_mono {A} (m : AM A) (P Q : A -> api -> Prop) a :
  (forall x a', P x a' -> Q x a') -> wp m P a -> wp m Q a.
Proof. unfold wp. auto. Qed.

Lemma wp_ret {A} (x : A) Q a : Q x a -> wp (aret x) Q a.
Proof. done. Qed.

(** A step that keeps table and pushes: the rest runs from a state that agrees
    with the old one on both. *)
Definition agrees (a a' : api) : Prop :=
  ap_approvals a' = ap_approvals a /\ ap_pushes a' = ap_pushes a.

#[export] Instance agrees_trans : Transitive agrees.
Proof. intros a b c [E1 E2] [E3 E4]. split; congruence. Qed.

Lemma wp_frame {A} (m : AM A) Q a : frame m -> (forall x a', agrees a a' -> Q x a') -> wp m Q a.
Proof. intros Hm HQ. apply HQ. apply Hm. Qed.

Lemma frame_bind {A B} (m : AM A) (f : A -> AM B) : frame m -> (forall x, frame (f x)) -> frame (abind m f).
Proof.
  intros Hm Hf a. unfold abind. destruct (m a) as [a1 x] eqn:E. specialize (Hm a). rewrite E in Hm.
  destruct Hm as [H1 H2], (Hf x a1) as [H3 H4]. cbn in *. by rewrite H3, H4.
Qed.
Lemma frame_ret {A} (x : A) : frame (aret x).
Proof. by intros a. Qed.
Lemma frame_lift {A} (m : M A) : frame (lift m).
Proof. intros a. unfold lift. by destruct (m (ap_server a)). Qed.
Lemma frame_draw {A} (f : nat -> A) : frame (draw f).
Proof. apply frame_lift. Qed.
Lemma frame_if {A} (b : bool) (m1 m2 : AM A) : frame m1 -> frame m2 -> frame (if b then m1 else m2).
Proof. by destruct b. Qed.

Create HintDb frames discriminated.
#[local] Hint Resolve frame_ret frame_lift frame_draw frame_bind frame_if : frames.

Section Effects.
Context `{UnicodeTables} `{TimestampColumn} {netURL : NetURL} {floatFormat : FloatFormat}
  {yamlDoc : YamlDoc} (e : aenv) {Hiso : isolated e}.

Lemma frame_others : frame (others e).
Proof. intros a. cbn. apply isolated_keeps. Qed.
Lemma frame_aq {A} (q : db -> io -> A) : frame (aq e q).
Proof. apply frame_bind; [apply frame_others|]. intros _. apply frame_lift. Qed.
Lemma frame_ax {A} (x : db -> io -> db * A) : frame (ax e x).
Proof. apply frame_bind; [apply frame_others|]. intros _. apply frame_lift. Qed.
Lemma frame_now : frame (anow e).
Proof. apply frame_lift. Qed.
Lemma frame_aq_now {A} (q : db -> io -> Time -> A) : frame (aq_now e q).
Proof. apply frame_bind; [apply frame_lift|]. intros t. apply frame_aq. Qed.
Lemma frame_validate body wl : frame (validate_for e body wl).
Proof. apply frame_bind; [apply frame_lift|]. intros t. apply frame_bind; [apply frame_draw|]. intros. apply frame_ret. Qed.
Lemma frame_Emit action resource id d : frame (Emit e action resource id d).
Proof. apply frame_bind; [apply frame_draw|]. intros []; [apply frame_ret|]. by intros a. Qed.
Lemma frame_emitAudit st action resource id d k : frame k -> frame (emitAudit e st action resource id d k).
Proof. intros Hk. apply frame_bind; [apply frame_Emit|]. intros []; [done|apply frame_ret]. Qed.
Lemma frame_active wl : frame (activeConfigContent e wl).
Proof.
  apply frame_bind.
  - apply frame_if; [|apply frame_ret]. apply frame_bind; [apply frame_aq_now|]. intros. apply frame_ret.
  - intros [wc|]; [apply frame_ret|]. apply frame_bind; [apply frame_aq_now|]. intros. apply frame_ret.
Qed.
Lemma frame_policy wl body : frame (evaluateWorkloadConfigPolicy e wl body).
Proof.
  apply frame_bind; [apply frame_active|]. intros c. apply frame_bind; [apply frame_draw|]. intros. apply frame_ret.
Qed.
(** A read of the table answers from the table. *)
Lemma wp_read {A} (q : approvals -> io -> A) Q a :
  (forall fl a', agrees a a' -> Q (q (ap_approvals a) fl) a') -> wp (approvals_read e q) Q a.
Proof.
  intros HQ. unfold approvals_read. apply wp_bind, wp_frame; [apply frame_others|]. intros _ a1 K1.
  apply wp_bind, wp_frame; [apply frame_lift|]. intros fl a2 K2. unfold wp. cbn.
  destruct K1 as [K1 K1'], K2 as [K2 K2']. rewrite K2, K1. apply HQ. split; congruence.
Qed.

Lemma frame_read {A} (q : approvals -> io -> A) : frame (approvals_read e q).
Proof. intros a. apply (wp_read q (fun _ a' => agrees a a')). auto. Qed.

(** A write changes the table only. *)
Lemma wp_write {A} (x : db -> approvals -> io -> approvals * A) Q a :
  (forall d fl a', ap_approvals a' = (x d (ap_approvals a) fl).1 -> ap_pushes a' = ap_pushes a ->
     Q (x d (ap_approvals a) fl).2 a') -> wp (approvals_write e x) Q a.
Proof.
  intros HQ. unfold approvals_write. apply wp_bind, wp_frame; [apply frame_others|]. intros _ a1 K1.
  apply wp_bind, wp_frame; [apply frame_lift|]. intros fl a2 K2. unfold wp.
  destruct K1 as [K1 K1'], K2 as [K2 K2']. rewrite K2, K1.
  specialize (HQ (sv_db (ap_server a2)) fl). destruct (x _ _ fl) as [m r]. apply HQ; cbn; congruence.
Qed.

(** A push of a body: nothing, or one call. *)
Lemma wp_record_and_push w hash body by_ t Q a :
  (forall msg a', agrees a a' -> Q (NotRecorded msg) a') ->
  (forall o a', ap_approvals a' = ap_approvals a -> ap_pushes a' = ap_pushes a ++ [(w, body)] -> Q o a') ->
  wp (record_and_push e w hash body by_ t) Q a.
Proof.
  intros Hnot Hcall. unfold record_and_push.
  apply wp_bind, wp_frame.
  { apply frame_bind; [apply frame_others|]. intros _. apply frame_lift. }
  intros insts a1 K1. apply wp_bind, wp_frame; [apply frame_now|]. intros t1 a2 K2.
  apply wp_bind, wp_frame; [apply frame_ax|]. intros [msg|] a3 K3.
  { apply wp_ret, Hnot. by do 2 (etransitivity; [eassumption|]). }
  apply wp_bind, wp_frame; [apply frame_others|]. intros _ a4 K4.
  assert (agrees a a4) as K04 by (by do 3 (etransitivity; [eassumption|])).
  apply wp_bind. unfold call_push. apply wp_bind. unfold wp at 1. cbn [fst snd].
  apply wp_frame; [apply frame_lift|]. intros r a5 [K5 K5']. cbn in K5, K5'.
  assert (ap_approvals a5 = ap_approvals a /\ ap_pushes a5 = ap_pushes a ++ [(w, body)]) as [Ha Hp]
    by (destruct K04 as [E1 E2]; split; congruence).
  destruct r as [msg|].
  - apply wp_bind, wp_frame; [apply frame_ax|]. intros _ a6 [K6 K6']. apply wp_ret, Hcall; congruence.
  - apply wp_bind, wp_frame; [apply frame_now|]. intros t2 a6 [K6 K6'].
    apply wp_bind, wp_frame; [apply frame_ax|]. intros _ a7 [K7 K7']. apply wp_ret, Hcall; congruence.
Qed.

End Effects.

(** No other request runs. *)
Class quiet (e : aenv) : Prop := { alone_here : forall n a, ae_other e n a = a }.

Section Quiet.
Context `{UnicodeTables} `{TimestampColumn} {netURL : NetURL} {floatFormat : FloatFormat}
  {yamlDoc : YamlDoc} (e : aenv).

#[export] Instance quiet_isolated : quiet e -> isolated e.
Proof. intros Hq. split. intros n a. by rewrite alone_here. Qed.

(** The tables as a handler that runs alone finds them. *)
Definition same_tables (a a' : api) : Prop := agrees a a' /\ sv_db (ap_server a') = sv_db (ap_server a).

Lemma wp_read_quiet {Hq : quiet e} {A} (q : approvals -> io -> A) Q a :
  (forall fl a', same_tables a a' -> Q (q (ap_approvals a) fl) a') -> wp (approvals_read e q) Q a.
Proof.
  intros HQ. unfold approvals_read, others, lift, fault, abind, wp. cbn. rewrite alone_here. cbn.
  apply HQ. by repeat split.
Qed.

Lemma wp_aq_quiet {Hq : quiet e} {A} (q : db -> io -> A) Q a :
  (forall fl a', same_tables a a' -> Q (q (sv_db (ap_server a)) fl) a') -> wp (aq e q) Q a.
Proof.
  intros HQ. unfold aq, others, lift, dbq, abind, wp. cbn. rewrite alone_here. cbn.
  apply HQ. by repeat split.
Qed.

(** A validation result is a run of the validator on the draft. *)
Definition validated (body : string) (wl : Workload) (r : Result) : Prop :=
  exists rt t, r = ValidateWithRuntime rt t body (wl_AvailableComponents wl) (runtimeOptionsForWorkload e wl).
Lemma wp_validate body wl Q a :
  (forall r a', agrees a a' -> validated body wl r -> Q r a') -> wp (validate_for e body wl) Q a.
Proof.
  intros HQ. unfold validate_for. apply wp_bind, wp_frame; [apply frame_lift|]. intros t a1 K1.
  apply wp_bind, wp_frame; [apply frame_draw|]. intros rt a2 K2. apply wp_ret, HQ; [by transitivity a1|].
  by exists rt, t.
Qed.

(** A policy verdict is an evaluation of the draft against the running config. *)
Definition judged (body : string) (wl : Workload) (r : EvaluationResult) : Prop :=
  exists order current, r = Evaluate order (ConfigPolicy.mkRequest current body
    (mkTarget (policyEnvironmentForWorkload wl) "workload" (wl_ID wl) "" "")
    (configPolicySettingsFromEnv e)).
Lemma wp_policy `{!isolated e} wl body Q a :
  (forall r a', agrees a a' -> judged body wl r -> Q r a') ->
  wp (evaluateWorkloadConfigPolicy e wl body) Q a.
Proof.
  intros HQ. unfold evaluateWorkloadConfigPolicy. apply wp_bind, wp_frame; [apply (frame_active e)|].
  intros c a1 K1. apply wp_bind, wp_frame; [apply frame_draw|]. intros o a2 K2.
  apply wp_ret, HQ; [by transitivity a1|]. by eexists o, _.
Qed.

(** Steps that also leave the database alone, and what they answer from it. *)
#[export] Instance same_tables_trans : Transitive same_tables.
Proof. intros a b c [K1 D1] [K2 D2]. split; [by transitivity b|congruence]. Qed.

Lemma same_tables_refl a : same_tables a a.
Proof. by repeat split. Qed.

Lemma wp_step {A} (m : M A) Q a :
  (forall s, sv_db (m s).1 = sv_db s) -> (forall x a', same_tables a a' -> Q x a') -> wp (lift m) Q a.
Proof.
  intros Hm HQ. unfold wp, lift. specialize (Hm (ap_server a)).
  destruct (m (ap_server a)) as [s x]. cbn in *. by apply HQ.
Qed.
Lemma wp_now Q a : (forall t a', same_tables a a' -> Q t a') -> wp (anow e) Q a.
Proof. by apply wp_step. Qed.
Lemma wp_draw {A} (f : nat -> A) Q a : (forall x a', same_tables a a' -> Q x a') -> wp (draw f) Q a.
Proof. by apply wp_step. Qed.

Lemma wp_aq_now_quiet {Hq : quiet e} {A} (q : db -> io -> Time -> A) Q a :
  (forall fl t a', same_tables a a' -> Q (q (sv_db (ap_server a)) fl t) a') -> wp (aq_now e q) Q a.
Proof.
  intros HQ. unfold aq_now. apply wp_bind, wp_now. intros t a1 K1.
  apply wp_aq_quiet. intros fl a2 K2. rewrite (proj2 K1). apply HQ. by transitivity a1.
Qed.

Lemma wp_validate_quiet body wl Q a :
  (forall r a', same_tables a a' -> validated body wl r -> Q r a') -> wp (validate_for e body wl) Q a.
Proof.
  intros HQ. unfold validate_for. apply wp_bind, wp_now. intros t a1 K1.
  apply wp_bind, wp_draw. intros rt a2 K2. apply wp_ret, HQ; [by transitivity a1|]. by exists rt, t.
Qed.

End Quiet.
End ApiLogic.
