(* ===== verification/Approvals.v ===== *)
(** * Config approvals (internal/api/config_approvals.go, internal/store/config_approvals.go)

    The governed path of a configuration: a validated draft is requested,
    approved and pushed. The table of requests, its statements and the four
    handlers; a handler's statements interleave with other requests. *)

From S2P Require Import Prelude GoString Models PushStatus Registry Grace Sha256 OpampTokens.
From S2P Require Import Validator Yaml ConfigPolicy Access Store PushHistory OpampServer Api.
From S2P Require Import ApiLogic.
Import Registry Sha256 Validator Yaml ConfigPolicy Access Store.Store PushHistory OpampServer Api
  ApiLogic.

Module Approvals.

Definition ConfigApprovalStatusPending := "pending".
Definition ConfigApprovalStatusApproved := "approved".
Definition ConfigApprovalStatusPushed := "pushed".

(* src/internal/api/config_approvals.go:22-28 configApprovalRequestPayload *)
Record requestPayload := mkRequestPayload {
  rp_DraftYAML : string; rp_TargetGroup : string; rp_TargetEnv : string; rp_Comment : string;
  rp_ProdConfirmation : bool
}.

(* src/internal/api/config_approvals.go:34-39 configApprovalPushPayload *)
Record pushPayload := mkPushPayload {
  pp_Comment : string; pp_ProdDoubleConfirmed : bool; pp_BreakGlass : bool;
  pp_BreakGlassReason : string
}.

(** ** Statements *)

Definition exec_rows (fault : io) (ok : bool) (m m' : approvals) : approvals * option string :=
  if negb ok then (m, Some "constraint violation")
  else match fault with
  | IoOk => (m', None)
  | IoFail executed => (if executed then m' else m, Some "exec failed")
  end.

Definition pending_for (workloadID targetGroup : string) (r : ConfigApprovalRequest) : bool :=
  (ar_WorkloadID r =s workloadID) && (ar_TargetGroup r =s targetGroup) &&
  (ar_Status r =s ConfigApprovalStatusPending).

(* src/internal/store/config_approvals.go:66-73 GetConfigApprovalRequest *)
Definition GetConfigApprovalRequest (m : approvals) (fault : io) (id : string)
  : result ConfigApprovalRequest :=
  match fault with
  | IoFail _ => Err "query failed"
  | IoOk => match m !! id with Some r => Ok r | None => Err ErrNoRows end
  end.

(* src/internal/store/config_approvals.go:135-146 getPendingConfigApprovalRequest *)
Definition getPendingConfigApprovalRequest (m : approvals) (fault : io) (workloadID targetGroup : string)
  : result ConfigApprovalRequest :=
  match fault with
  | IoFail _ => Err "query failed"
  | IoOk =>
      match List.filter (pending_for workloadID targetGroup) (map_to_list m).*2 with
      | r :: _ => Ok r
      | [] => Err ErrNoRows
      end
  end.

Definition by_update : ConfigApprovalRequest -> ConfigApprovalRequest -> comparison :=
  by_key (fun r => (- ar_UpdatedAt r)%Z) Z.compare.

(* src/internal/store/config_approvals.go:76-97 ListConfigApprovalRequests *)
Definition ListConfigApprovalRequests (m : approvals) (fault : io) (workloadID : string)
  : result (list ConfigApprovalRequest) :=
  query fault (sort_by (less_of by_update)
    (List.filter (fun r => ar_WorkloadID r =s workloadID) (map_to_list m).*2)).

Section Statements.
Context `{TimestampColumn}.

(** The row a request is inserted as, and what [ON CONFLICT(id) DO UPDATE] keeps
    of a row that exists. *)
Definition inserted_row (req : ConfigApprovalRequest) : ConfigApprovalRequest :=
  mkApproval (ar_ID req) (ar_WorkloadID req) (ar_DraftYAML req) (ar_TargetGroup req)
    (ar_TargetEnv req) (ar_Requester req) (ar_RequestComment req) (ar_Approver req)
    (ar_ApprovalComment req) (ar_Status req) (ar_ApprovedBy req) (stored <$> ar_ApprovedAt req)
    (ar_PushComment req) (ar_ProdTarget req) (ar_ProdConfirmation req) (ar_ProdDoubleConfirmed req)
    (ar_BreakGlass req) (ar_BreakGlassReason req) (ar_ConfigHash req) (stored (ar_CreatedAt req))
    (stored (ar_UpdatedAt req)) (stored <$> ar_PushedAt req).
Definition conflict_row (old req : ConfigApprovalRequest) : ConfigApprovalRequest :=
  mkApproval (ar_ID old) (ar_WorkloadID old) (ar_DraftYAML req) (ar_TargetGroup old)
    (ar_TargetEnv req) (ar_Requester req) (ar_RequestComment req) (ar_Approver old)
    (ar_ApprovalComment old) (ar_Status old) (ar_ApprovedBy old) (ar_ApprovedAt old)
    (ar_PushComment old) (ar_ProdTarget req) (ar_ProdConfirmation req) (ar_ProdDoubleConfirmed old)
    (ar_BreakGlass old) (ar_BreakGlassReason old) (ar_ConfigHash old) (ar_CreatedAt old)
    (stored (ar_UpdatedAt req)) (ar_PushedAt old).

(** The foreign key and the index of one pending request per target. *)
Definition insert_constraints (d : db) (m : approvals) (req : ConfigApprovalRequest) : bool :=
  bool_decide (is_Some (d_workloads d !! ar_WorkloadID req)) &&
  ((ar_Status req <>s ConfigApprovalStatusPending) ||
   negb (existsb (pending_for (ar_WorkloadID req) (ar_TargetGroup req)) (map_to_list m).*2)).

Definition upsert_approval (d : db) (m : approvals) (fault : io) (req : ConfigApprovalRequest)
  : approvals * option string :=
  match m !! ar_ID req with
  | Some old => exec_rows fault true m (<[ar_ID req := conflict_row old req]> m)
  | None => exec_rows fault (insert_constraints d m req) m (<[ar_ID req := inserted_row req]> m)
  end.

(** [UPDATE ... WHERE id = ? AND status IN (...)]: no row is an error. *)
Definition update_status (m : approvals) (fault : io) (id : string) (from : list string)
  (f : ConfigApprovalRequest -> ConfigApprovalRequest) : approvals * option string :=
  match m !! id with
  | Some r =>
      if one_of (ar_Status r) from then exec_rows fault true m (<[id := f r]> m)
      else match fault with IoOk => (m, Some ErrNoRows) | IoFail _ => (m, Some "exec failed") end
  | None => match fault with IoOk => (m, Some ErrNoRows) | IoFail _ => (m, Some "exec failed") end
  end.

Definition approve_row (approvedBy comment : string) (at_ : Time) (r : ConfigApprovalRequest)
  : ConfigApprovalRequest :=
  mkApproval (ar_ID r) (ar_WorkloadID r) (ar_DraftYAML r) (ar_TargetGroup r) (ar_TargetEnv r)
    (ar_Requester r) (ar_RequestComment r) approvedBy comment ConfigApprovalStatusApproved
    (Some approvedBy) (Some (stored at_)) (ar_PushComment r) (ar_ProdTarget r)
    (ar_ProdConfirmation r) (ar_ProdDoubleConfirmed r) (ar_BreakGlass r) (ar_BreakGlassReason r)
    (ar_ConfigHash r) (ar_CreatedAt r) (stored at_) (ar_PushedAt r).

Definition push_row_of (configHash pushComment : string) (prodDoubleConfirmed breakGlass : bool)
  (reason : option string) (at_ : Time) (r : ConfigApprovalRequest) : ConfigApprovalRequest :=
  mkApproval (ar_ID r) (ar_WorkloadID r) (ar_DraftYAML r) (ar_TargetGroup r) (ar_TargetEnv r)
    (ar_Requester r) (ar_RequestComment r) (ar_Approver r) (ar_ApprovalComment r)
    ConfigApprovalStatusPushed (ar_ApprovedBy r) (ar_ApprovedAt r) (Some pushComment)
    (ar_ProdTarget r) (ar_ProdConfirmation r) prodDoubleConfirmed breakGlass reason
    (Some configHash) (ar_CreatedAt r) (stored at_) (Some (stored at_)).

End Statements.

Section Handlers.
Context `{UnicodeTables} `{TimestampColumn} {netURL : NetURL} {floatFormat : FloatFormat}
  {yamlDoc : YamlDoc} (e : aenv).
Local Open Scope api_scope.

(* src/internal/store/config_approvals.go:165-171 newConfigApprovalID *)
Definition newConfigApprovalID : AM (result string) :=
  b ← draw (ae_newID e);
  aret (match b with Some b => Ok ("car_" +:+ hex_encode b) | None => Err "generate config approval id" end).

Definition with_identity (id status : string) (created updated : Time) (req : ConfigApprovalRequest)
  : ConfigApprovalRequest :=
  mkApproval id (ar_WorkloadID req) (ar_DraftYAML req) (ar_TargetGroup req) (ar_TargetEnv req)
    (ar_Requester req) (ar_RequestComment req) (ar_Approver req) (ar_ApprovalComment req) status
    (ar_ApprovedBy req) (ar_ApprovedAt req) (ar_PushComment req) (ar_ProdTarget req)
    (ar_ProdConfirmation req) (ar_ProdDoubleConfirmed req) (ar_BreakGlass req)
    (ar_BreakGlassReason req) (ar_ConfigHash req) created updated (ar_PushedAt req).

(** The identifier under which a request is written. *)
Definition choose_id (req : ConfigApprovalRequest) : AM (result string) :=
  known ← (if ar_ID req <>s "" then aret (Ok (ar_ID req))
           else
             r ← approvals_read e (fun m f =>
               getPendingConfigApprovalRequest m f (ar_WorkloadID req) (ar_TargetGroup req));
             aret (match r with
                   | Ok existing => Ok (ar_ID existing)
                   | Err err => if err =s ErrNoRows then Ok "" else Err err
                   end));
  match known with
  | Err err => aret (Err err)
  | Ok id => if id =s "" then newConfigApprovalID else aret (Ok id)
  end.

(* src/internal/store/config_approvals.go:16-63 CreateOrUpdateConfigApprovalRequest *)
Definition CreateOrUpdateConfigApprovalRequest (req : ConfigApprovalRequest)
  : AM (result ConfigApprovalRequest) :=
  t ← anow e;
  id ← choose_id req;
  match id with
  | Err err => aret (Err err)
  | Ok id =>
      let req := with_identity id (default_str (ar_Status req) ConfigApprovalStatusPending)
        (if IsZero (ar_CreatedAt req) then t else ar_CreatedAt req) t req in
      err ← approvals_write e (fun d m f => upsert_approval d m f req);
      match err with
      | Some err => aret (Err err)
      | None => approvals_read e (fun m f => GetConfigApprovalRequest m f id)
      end
  end.

(** An update by status, then the row is read back. *)
Definition update_and_read (id : string) (from : list string)
  (f : ConfigApprovalRequest -> ConfigApprovalRequest) : AM (result ConfigApprovalRequest) :=
  err ← approvals_write e (fun _ m fl => update_status m fl id from f);
  match err with
  | Some err => aret (Err err)
  | None => approvals_read e (fun m fl => GetConfigApprovalRequest m fl id)
  end.

(* src/internal/store/config_approvals.go:100-113 ApproveConfigApprovalRequest *)
Definition ApproveConfigApprovalRequest (id approvedBy comment : string) (approvedAt : Time)
  : AM (result ConfigApprovalRequest) :=
  update_and_read id [ConfigApprovalStatusPending] (approve_row approvedBy comment approvedAt).

(* src/internal/store/config_approvals.go:116-133 MarkConfigApprovalRequestPushed *)
Definition MarkConfigApprovalRequestPushed (id configHash pushComment : string)
  (prodDoubleConfirmed breakGlass : bool) (breakGlassReason : string) (pushedAt : Time)
  : AM (result ConfigApprovalRequest) :=
  update_and_read id [ConfigApprovalStatusApproved; ConfigApprovalStatusPending]
    (push_row_of configHash pushComment prodDoubleConfirmed breakGlass
       (nullIfEmpty breakGlassReason) pushedAt).

(** ** Handlers *)

(* src/internal/api/config_approvals.go:317-321 isProdTarget *)
Definition isProdTarget (targetGroup targetEnv : string) : bool :=
  let group := ToLower (TrimSpace targetGroup) in
  let env := ToLower (TrimSpace targetEnv) in
  (env =s "prod") || (env =s "production") || Contains group "prod".

(* src/internal/api/config_approvals.go:283-290 validateApprovalDraft *)
Definition validateApprovalDraft (body : string) (wl : Workload) : AM Result := validate_for e body wl.

(** The request a payload is stored as, before its identity is chosen. *)
Definition draft_request (workloadID : string) (p : requestPayload) : ConfigApprovalRequest :=
  mkApproval "" workloadID (rp_DraftYAML p) (TrimSpace (rp_TargetGroup p)) (TrimSpace (rp_TargetEnv p))
    (currentUserEmail e) (TrimSpace (rp_Comment p)) "" "" "" None None None
    (isProdTarget (rp_TargetGroup p) (rp_TargetEnv p)) (rp_ProdConfirmation p) false false None None
    zero_time zero_time None.

(** [body]: the decoded payload, [None] when it is not JSON. *)
(* src/internal/api/config_approvals.go:41-109 handleCreateOrUpdateConfigApproval *)
Definition handleCreateOrUpdateConfigApproval (workloadID : string) (body : option requestPayload)
  : AM response :=
  match body with
  | None => respondError 400 "invalid approval request body"
  | Some p =>
      if TrimSpace (rp_DraftYAML p) =s "" then respondError 400 "empty config draft"
      else if TrimSpace (rp_TargetGroup p) =s "" then respondError 400 "target_group is required"
      else if TrimSpace (rp_Comment p) =s "" then respondError 400 "comment is required"
      else
        wl ← aq e (fun d f => GetWorkload d f workloadID);
        match wl with
        | Err err => if err =s ErrNoRows then respondError 404 "workload not found"
                     else respondError 500 "failed to load workload"
        | Ok wl =>
            if negb (wl_AcceptsRemoteConfig wl)
            then respondCode 409 "workload does not accept remote config" "remote_config_unsupported"
            else
              result ← validateApprovalDraft (rp_DraftYAML p) wl;
              if negb (rs_Valid result) then respondError 400 "configuration failed validation"
              else if isProdTarget (rp_TargetGroup p) (rp_TargetEnv p) && negb (rp_ProdConfirmation p)
              then respondError 400 "prod approval request requires confirmation"
              else
                saved ← CreateOrUpdateConfigApprovalRequest (draft_request workloadID p);
                match saved with
                | Err _ => respondError 500 "failed to save approval request"
                | Ok approval =>
                    emitAudit e sideEffectApplied "config.approval.request" "workload" workloadID
                      (DText (ar_ID approval +:+ ":" +:+ ar_TargetGroup approval)) (respondOK 201)
                end
        end
  end.

(* src/internal/api/config_approvals.go:111-121 handleListConfigApprovals *)
Definition handleListConfigApprovals (workloadID : string) : AM response :=
  items ← approvals_read e (fun m f => ListConfigApprovalRequests m f workloadID);
  match items with
  | Err _ => respondError 500 "failed to list approval requests"
  | Ok _ => respondOK 200
  end.

(* src/internal/api/config_approvals.go:323-329 respondConfigApprovalLookupError *)
Definition respondConfigApprovalLookupError (err : string) : AM response :=
  if err =s ErrNoRows then respondError 404 "approval request not found"
  else respondError 500 "failed to load approval request".

(** [body]: the trimmed-later comment of the payload. *)
(* src/internal/api/config_approvals.go:123-171 handleApproveConfigApproval *)
Definition handleApproveConfigApproval (workloadID approvalID : string) (body : option string)
  : AM response :=
  match body with
  | None => respondError 400 "invalid approval body"
  | Some comment =>
      if TrimSpace comment =s "" then respondError 400 "comment is required"
      else
        approval ← approvals_read e (fun m f => GetConfigApprovalRequest m f approvalID);
        match approval with
        | Err err => respondConfigApprovalLookupError err
        | Ok approval =>
            if ar_WorkloadID approval <>s workloadID then respondError 404 "approval request not found"
            else
              wl ← aq e (fun d f => GetWorkload d f workloadID);
              match wl with
              | Err _ => respondError 500 "failed to load workload"
              | Ok wl =>
                  result ← validateApprovalDraft (ar_DraftYAML approval) wl;
                  if negb (rs_Valid result) then respondError 400 "configuration failed validation"
                  else
                    t ← anow e;
                    approved ← ApproveConfigApprovalRequest approvalID (currentUserEmail e)
                      (TrimSpace comment) t;
                    match approved with
                    | Err err =>
                        if err =s ErrNoRows
                        then respondCode 409 "approval request is not pending" "approval_not_pending"
                        else respondError 500 "failed to approve request"
                    | Ok _ =>
                        emitAudit e sideEffectApplied "config.approval.approve" "workload" workloadID
                          (DText approvalID) (respondOK 200)
                    end
              end
        end
  end.

(** The config of a push, named by its digest. *)
Definition pushed_config (hash body createdBy : string) (at_ : Time) : Config :=
  mkConfig hash ("push-" +:+ take_str 8 hash) body at_ createdBy "" "" "" "" "" [] [] false "" "" "" "" ""
    "" None.

(* src/internal/api/config_approvals.go:292-308 persistAndPushApprovalConfig *)
Definition persistAndPushApprovalConfig (workloadID body : string) : AM push_outcome :=
  let hash := sha256_hex body in
  t ← anow e;
  _ ← ax e (fun d f => CreateConfig d f (pushed_config hash body (currentUserEmail e) t));
  submittedAt ← anow e;
  record_and_push e workloadID hash body (currentUserEmail e) submittedAt.

(** What may be pushed: the checks on the request itself, then on the workload. *)
Definition push_request_ok (workloadID : string) (p : pushPayload) (r : ConfigApprovalRequest) : response + unit :=
  if ar_WorkloadID r <>s workloadID then inl (mkResponse 404 "approval request not found" "")
  else if ar_ProdTarget r && negb (pp_ProdDoubleConfirmed p)
  then inl (mkResponse 400 "prod push requires double confirmation" "")
  else if ar_Status r =s ConfigApprovalStatusPushed
  then inl (mkResponse 409 "approval request has already been pushed" "approval_already_pushed")
  else if negb (pp_BreakGlass p) && (ar_Status r <>s ConfigApprovalStatusApproved)
  then inl (mkResponse 409 "approval request is not approved" "approval_required")
  else inr tt.

(** After the push: the request is marked, the event emitted. *)
Definition finish_push (workloadID approvalID hash : string) (p : pushPayload) : AM response :=
  t ← anow e;
  pushed ← MarkConfigApprovalRequestPushed approvalID hash (TrimSpace (pp_Comment p))
    (pp_ProdDoubleConfirmed p) (pp_BreakGlass p) (TrimSpace (pp_BreakGlassReason p)) t;
  match pushed with
  | Err _ => respondError 500 "failed to mark approval request pushed"
  | Ok _ =>
      let '(action, text) :=
        if pp_BreakGlass p
        then ("config.approval.break_glass_push",
              approvalID +:+ ":" +:+ TrimSpace (pp_BreakGlassReason p) +:+ ":" +:+ hash)
        else ("config.approval.push", approvalID +:+ ":" +:+ hash) in
      emitAudit e sideEffectApplied action "workload" workloadID (DText text) (respondOK 202)
  end.

(** The refusal of a blocked draft is audited. *)
Definition refuse_blocked (workloadID approvalID draft : string) (p : pushPayload)
  (policy : EvaluationResult) : AM response :=
  emitAudit e sideEffectNone "config.policy.block" "workload" workloadID
    (DJson [("config_hash", JStr (sha256_hex draft));
            ("environment", JStr (pt_Environment (ev_Target policy)));
            ("decision", JStr (ev_Decision policy)); ("severity", JStr (ev_Severity policy));
            ("blocked_rules", JStrs (policyRuleIDs policy)); ("approval_id", JStr approvalID);
            ("push_path", JStr "approval"); ("break_glass", JBool (pp_BreakGlass p));
            ("side_effect", JStr "none")])
    (respondCode 400 "configuration blocked by policy" "config_policy_blocked").

(* src/internal/api/config_approvals.go:331-338 returnPushApprovalError *)
Definition returnPushApprovalError (o : push_outcome) (k : AM response) : AM response :=
  match o with
  | NotRecorded _ => respondError 500 "failed to record push"
  | NotSent msg => if HasPrefix msg "record push:" then respondError 500 "failed to record push"
                   else respondError 502 msg
  | Sent => k
  end.

(** The checks that need the workload, then the push. *)
Definition push_approved (workloadID approvalID : string) (p : pushPayload) (r : ConfigApprovalRequest)
  : AM response :=
  let draft := ar_DraftYAML r in
  wl ← aq e (fun d f => GetWorkload d f workloadID);
  match wl with
  | Err _ => respondError 500 "failed to load workload"
  | Ok wl =>
      if negb (wl_AcceptsRemoteConfig wl)
      then respondCode 409 "workload does not accept remote config" "remote_config_unsupported"
      else if negb (workloadIsConnected wl)
      then respondCode 409 "workload is not connected" "workload_not_connected"
      else
        result ← validateApprovalDraft draft wl;
        if negb (rs_Valid result) then respondError 400 "configuration failed validation"
        else
          policy ← evaluateWorkloadConfigPolicy e wl draft;
          if ev_Decision policy =s PolicyDecisionBlock
          then refuse_blocked workloadID approvalID draft p policy
          else
            o ← persistAndPushApprovalConfig workloadID draft;
            returnPushApprovalError o (finish_push workloadID approvalID (sha256_hex draft) p)
  end.

(* src/internal/api/config_approvals.go:173-281 handlePushConfigApproval *)
Definition handlePushConfigApproval (workloadID approvalID : string) (body : option pushPayload)
  : AM response :=
  match body with
  | None => respondError 400 "invalid approval push body"
  | Some p =>
      if TrimSpace (pp_Comment p) =s "" then respondError 400 "comment is required"
      else if pp_BreakGlass p && (TrimSpace (pp_BreakGlassReason p) =s "")
      then respondError 400 "break_glass_reason is required"
      else if negb (ae_opamp e) then respondError 503 "OpAMP server not available"
      else
        approval ← approvals_read e (fun m f => GetConfigApprovalRequest m f approvalID);
        match approval with
        | Err err => respondConfigApprovalLookupError err
        | Ok r =>
            match push_request_ok workloadID p r with
            | inl resp => aret resp
            | inr _ => push_approved workloadID approvalID p r
            end
        end
  end.

End Handlers.

(** ** What the handlers change *)

Section Effects.
Context `{UnicodeTables} `{TimestampColumn} {netURL : NetURL} {floatFormat : FloatFormat}
  {yamlDoc : YamlDoc} (e : aenv) {Hiso : isolated e}.

Lemma frame_new : frame (newConfigApprovalID e).
Proof. apply frame_bind; [apply frame_draw|]. intros. apply frame_ret. Qed.

(** How the table may change. *)
Definition keyed_rows (m : approvals) : Prop := forall id r, m !! id = Some r -> ar_ID r = id.
Definition fresh (m : approvals) : Prop :=
  forall n b, ae_newID e n = Some b -> m !! ("car_" +:+ hex_encode b) = None.

Definition same_or (m m' : approvals) (P : Prop) : Prop := m' = m \/ P.

Lemma exec_rows_cases fl ok m m' : (exec_rows fl ok m m').1 = m \/ ok = true /\ (exec_rows fl ok m m').1 = m'.
Proof. unfold exec_rows. destruct ok; cbn; [|by left]. destruct fl as [|[]]; cbn; auto. Qed.

Lemma update_status_cases m fl id from f :
  (update_status m fl id from f).1 = m \/
  exists r, m !! id = Some r /\ one_of (ar_Status r) from = true /\
    (update_status m fl id from f).1 = <[id := f r]> m.
Proof.
  unfold update_status. destruct (m !! id) as [r|]; [|left; by destruct fl].
  destruct (one_of _ from) eqn:E; [|left; by destruct fl].
  destruct (exec_rows_cases fl true m (<[id := f r]> m)) as [->|[_ ->]]; eauto.
Qed.

Lemma wp_update_and_read id from f Q a :
  (forall x a', ap_pushes a' = ap_pushes a ->
     (ap_approvals a' = ap_approvals a \/
      exists r, ap_approvals a !! id = Some r /\ one_of (ar_Status r) from = true /\
        ap_approvals a' = <[id := f r]> (ap_approvals a)) -> Q x a') ->
  wp (update_and_read e id from f) Q a.
Proof.
  intros HQ. unfold update_and_read. apply wp_bind, (wp_write e). intros d fl a1 K1 K1'.
  assert (forall x a', agrees a1 a' -> Q x a') as Hend.
  { intros x a' [K2 K2']. apply HQ; [congruence|]. rewrite K2, K1. apply update_status_cases. }
  destruct (update_status _ _ _ _ _).2; [by apply wp_ret, Hend|].
  apply wp_frame; [apply (frame_read e)|]. auto.
Qed.

Lemma wp_choose_id req Q a : ar_ID req = "" ->
  (forall err a', agrees a a' -> Q (Err err) a') ->
  (forall k r a', agrees a a' -> ap_approvals a !! k = Some r ->
     pending_for (ar_WorkloadID req) (ar_TargetGroup req) r = true -> Q (Ok (ar_ID r)) a') ->
  (forall n b a', agrees a a' -> ae_newID e n = Some b -> Q (Ok ("car_" +:+ hex_encode b)) a') ->
  wp (choose_id e req) Q a.
Proof.
  intros Hid Herr Hold Hnew. unfold choose_id. rewrite Hid, eqb_string_refl. cbn [negb].
  assert (forall a', agrees a a' -> wp (newConfigApprovalID e) Q a') as Hgen.
  { intros a' K. unfold newConfigApprovalID, draw. apply wp_bind. unfold wp, lift. cbn.
    destruct (ae_newID e _) as [b|] eqn:E; [by apply (Hnew (sv_tick (ap_server a')))|by apply Herr]. }
  apply wp_bind, wp_bind, (wp_read e). intros fl a1 K1. unfold getPendingConfigApprovalRequest.
  destruct fl as [|x]; [|by apply wp_ret, wp_ret, Herr].
  destruct (List.filter _ _) as [|r l] eqn:E; [by apply wp_ret, Hgen|].
  apply wp_ret. destruct (ar_ID r =s "") eqn:Er; [by apply Hgen|]. apply wp_ret.
  assert (In r (List.filter (pending_for (ar_WorkloadID req) (ar_TargetGroup req))
    (map_to_list (ap_approvals a)).*2)) as [Hin Hp]%filter_In by (rewrite E; by left).
  apply list_elem_of_In, list_elem_of_fmap in Hin as ([k r'] & -> & Hk%elem_of_map_to_list).
  by apply (Hold k).
Qed.

(** A create request stores a new pending row, or rewrites the draft of a row
    that is pending. *)
Definition saved (a a' : api) : Prop :=
  let m := ap_approvals a in
  ap_pushes a' = ap_pushes a /\
  (ap_approvals a' = m \/
   (exists id old req, m !! id = Some old /\ ar_Status old = ConfigApprovalStatusPending /\
      ap_approvals a' = <[id := conflict_row old req]> m) \/
   (exists id req, m !! id = None /\ ar_ID req = id /\ ar_Status req = ConfigApprovalStatusPending /\
      ap_approvals a' = <[id := inserted_row req]> m)).

Lemma saved_agrees_l a b c : agrees a b -> saved b c -> saved a c.
Proof. intros [K K']. unfold saved. by rewrite K, K'. Qed.
Lemma saved_agrees_r a b c : saved a b -> agrees b c -> saved a c.
Proof. intros Hs [K K']. unfold saved in *. by rewrite K, K'. Qed.
Lemma saved_agrees a b : agrees a b -> saved a b.
Proof. intros [K K']. split; auto. Qed.

Lemma upsert_saved d fl req a a' :
  keyed_rows (ap_approvals a) -> ar_Status req = ConfigApprovalStatusPending ->
  (forall old, ap_approvals a !! ar_ID req = Some old -> ar_Status old = ConfigApprovalStatusPending) ->
  ap_approvals a' = (upsert_approval d (ap_approvals a) fl req).1 -> ap_pushes a' = ap_pushes a ->
  saved a a'.
Proof.
  intros Hk Hst Hold Ha Hp. split; [done|]. rewrite Ha. unfold upsert_approval.
  destruct (ap_approvals a !! ar_ID req) as [old|] eqn:E.
  - destruct (exec_rows_cases fl true (ap_approvals a)
      (<[ar_ID req := conflict_row old req]> (ap_approvals a))) as [->|[_ ->]]; [by left|].
    right. left. exists (ar_ID req), old, req. auto.
  - destruct (exec_rows_cases fl (insert_constraints d (ap_approvals a) req) (ap_approvals a)
      (<[ar_ID req := inserted_row req]> (ap_approvals a))) as [->|[_ ->]]; [by left|].
    right. right. exists (ar_ID req), req. auto.
Qed.

Lemma wp_save req Q a : ar_ID req = "" -> ar_Status req = "" ->
  keyed_rows (ap_approvals a) -> fresh (ap_approvals a) ->
  (forall x a', saved a a' -> Q x a') -> wp (CreateOrUpdateConfigApprovalRequest e req) Q a.
Proof.
  intros Hid Hst Hk Hf HQ. unfold CreateOrUpdateConfigApprovalRequest.
  apply wp_bind, wp_frame; [apply (frame_now e)|]. intros t a1 K1.
  assert (forall id a2, agrees a a2 ->
    (forall old, ap_approvals a !! id = Some old -> ar_Status old = ConfigApprovalStatusPending) ->
    wp (let req := with_identity id (default_str (ar_Status req) ConfigApprovalStatusPending)
          (if IsZero (ar_CreatedAt req) then t else ar_CreatedAt req) t req in
        abind (approvals_write e (fun d m f => upsert_approval d m f req)) (fun err =>
          match err with
          | Some err => aret (Err err)
          | None => approvals_read e (fun m f => GetConfigApprovalRequest m f id)
          end)) Q a2) as Hwrite.
  { intros id a2 [K2 K2'] Hold. cbv zeta. set (req' := with_identity _ _ _ _ _).
    apply wp_bind, (wp_write e). intros d fl a3 K3 K3'. rewrite K2 in K3. rewrite K2' in K3'.
    assert (saved a a3) as Hs.
    { apply (upsert_saved d fl req'); [done| |exact Hold|exact K3|exact K3'].
      unfold req'. cbn. by rewrite Hst. }
    destruct (upsert_approval _ _ _ _).2; [by apply wp_ret, HQ|].
    apply wp_frame; [apply (frame_read e)|]. intros x a4 K4. apply HQ. by apply (saved_agrees_r a a3). }
  apply wp_bind, wp_choose_id; [done| | |].
  - intros err a2 K2. apply wp_ret, HQ, saved_agrees. by transitivity a1.
  - intros k r a2 K2 Hr Hp. destruct K1 as [K1 K1']. rewrite K1 in Hr. apply Hwrite.
    + transitivity a1; done.
    + rewrite (Hk k r Hr). rewrite Hr. intros old [= <-]. unfold pending_for in Hp. by reflect_bools.
  - intros n b a2 K2 Hb. apply Hwrite; [by transitivity a1|]. by rewrite (Hf n b Hb).
Qed.

Lemma create_effects w body a :
  keyed_rows (ap_approvals a) -> fresh (ap_approvals a) ->
  saved a (handleCreateOrUpdateConfigApproval e w body a).1.
Proof.
  intros Hk Hf. change (wp (handleCreateOrUpdateConfigApproval e w body) (fun _ => saved a) a).
  assert (forall (r : AM response) a', frame r -> saved a a' -> wp r (fun _ => saved a) a') as Hdone.
  { intros r a' Hr Ks. apply wp_frame; [done|]. intros _ a2 K2. by apply (saved_agrees_r a a'). }
  assert (saved a a) as Hrefl by by apply saved_agrees.
  unfold handleCreateOrUpdateConfigApproval.
  destruct body as [p|]; [|by apply Hdone; [apply frame_ret|]].
  do 3 (case_if; [by apply Hdone; [apply frame_ret|]|]).
  apply wp_bind, wp_frame; [apply (frame_aq e)|]. intros [wl|err] a1 K1;
    [|case_if; (apply Hdone; [apply frame_ret|by apply saved_agrees])].
  case_if; [by apply Hdone; [apply frame_ret|apply saved_agrees]|].
  apply wp_bind, wp_frame; [apply (frame_validate e)|]. intros result a2 K2.
  assert (agrees a a2) as K02 by by transitivity a1.
  do 2 (case_if; [by apply Hdone; [apply frame_ret|apply saved_agrees]|]).
  pose proof K02 as [Ka Kp]. apply wp_bind, wp_save; [done|done|by rewrite Ka|by rewrite Ka|].
  intros [r|err] a3 K3; (apply Hdone; [|by apply (saved_agrees_l a a2)]); [|apply frame_ret].
  apply (frame_emitAudit e), frame_ret.
Qed.

(** An approval moves one pending request of the workload to approved, draft
    unchanged. *)
Lemma approve_effects w id body a :
  let a' := (handleApproveConfigApproval e w id body a).1 in
  ap_pushes a' = ap_pushes a /\
  (ap_approvals a' = ap_approvals a \/
   exists r by_ comment t, ap_approvals a !! id = Some r /\ ar_WorkloadID r = w /\
     ar_Status r = ConfigApprovalStatusPending /\
     ap_approvals a' = <[id := approve_row by_ comment t r]> (ap_approvals a)).
Proof.
  cbv zeta. set (Q := fun (_ : response) (a' : api) => ap_pushes a' = ap_pushes a /\
    (ap_approvals a' = ap_approvals a \/
     exists r by_ comment t, ap_approvals a !! id = Some r /\ ar_WorkloadID r = w /\
       ar_Status r = ConfigApprovalStatusPending /\
       ap_approvals a' = <[id := approve_row by_ comment t r]> (ap_approvals a))).
  change (wp (handleApproveConfigApproval e w id body) Q a).
  assert (forall (r : AM response) a', frame r -> agrees a a' -> wp r Q a') as Hdone.
  { intros r a' Hr [K K']. apply wp_frame; [done|]. intros ? a2 [K2 K2']. split; [congruence|].
    left. congruence. }
  unfold handleApproveConfigApproval. destruct body as [comment|]; [|by apply Hdone; [apply frame_ret|]].
  case_if; [by apply Hdone; [apply frame_ret|]|].
  apply wp_bind, (wp_read e). intros fl a1 K1.
  destruct (GetConfigApprovalRequest _ fl id) as [r|err] eqn:Er;
    [|unfold respondConfigApprovalLookupError; case_if; (apply Hdone; [apply frame_ret|done])].
  assert (ap_approvals a !! id = Some r) as Hr.
  { unfold GetConfigApprovalRequest in Er. by run Er. }
  case_if; [by apply Hdone; [apply frame_ret|]|]. reflect_bools.
  apply wp_bind, wp_frame; [apply (frame_aq e)|]. intros [wl|err] a2 K2;
    [|apply Hdone; [apply frame_ret|by transitivity a1]].
  apply wp_bind, wp_frame; [apply (frame_validate e)|]. intros result a3 K3.
  assert (agrees a a3) as K03 by (transitivity a1; [done|by transitivity a2]).
  case_if; [by apply Hdone; [apply frame_ret|]|].
  apply wp_bind, wp_frame; [apply (frame_now e)|]. intros t a4 K4.
  assert (agrees a a4) as [Ka Kp] by by transitivity a3.
  apply wp_bind, wp_update_and_read. intros x a5 K5 K5'. rewrite Ka in K5'. rewrite Kp in K5.
  assert (forall k : AM response, frame k -> wp k Q a5) as Hk5.
  { intros k Hfr. apply wp_frame; [done|]. intros ? a6 [K6 K6']. split; [congruence|].
    rewrite K6. destruct K5' as [->|(r' & Hr' & Hs & ->)]; [by left|]. right.
    rewrite Hr in Hr'. injection Hr' as <-. exists r, (currentUserEmail e), (TrimSpace comment), t.
    repeat (split; [done|]). split; [|done]. unfold one_of in Hs. cbn in Hs. rewrite orb_false_r in Hs.
    by reflect_bools. }
  destruct x as [r'|err]; [|case_if; apply Hk5, frame_ret].
  apply Hk5, (frame_emitAudit e), frame_ret.
Qed.

(** What a push request may have done: nothing to table and pushes, or one push of
    the stored draft, after which the request may be marked. *)
Definition pushed_from (a : api) (w id : string) (body : option pushPayload) (a' : api) : Prop :=
  agrees a a' \/
  exists p r, body = Some p /\ ae_opamp e = true /\ TrimSpace (pp_Comment p) <> "" /\
    (pp_BreakGlass p = true -> TrimSpace (pp_BreakGlassReason p) <> "") /\
    ap_approvals a !! id = Some r /\ push_request_ok w p r = inr tt /\
    ap_pushes a' = ap_pushes a ++ [(w, ar_DraftYAML r)] /\
    (ap_approvals a' = ap_approvals a \/
     exists t, ap_approvals a' = <[id := push_row_of (sha256_hex (ar_DraftYAML r))
       (TrimSpace (pp_Comment p)) (pp_ProdDoubleConfirmed p) (pp_BreakGlass p)
       (nullIfEmpty (TrimSpace (pp_BreakGlassReason p))) t r]> (ap_approvals a)).

Lemma pushed_from_agrees a w id body b c : pushed_from a w id body b -> agrees b c -> pushed_from a w id body c.
Proof.
  intros [K|Hp] Kc; [left; by transitivity b|]. right. destruct Kc as [K K'].
  destruct Hp as (p & r & Hp). exists p, r. by rewrite K, K'.
Qed.

Lemma wp_done a w id body (m : AM response) a' :
  frame m -> pushed_from a w id body a' -> wp m (fun _ => pushed_from a w id body) a'.
Proof.
  intros Hm Hp. apply wp_frame; [done|]. intros ? a2 K2. by apply (pushed_from_agrees a w id body a').
Qed.

Lemma finish_push_effects a w id p r a1 :
  ae_opamp e = true -> TrimSpace (pp_Comment p) <> "" ->
  (pp_BreakGlass p = true -> TrimSpace (pp_BreakGlassReason p) <> "") ->
  ap_approvals a !! id = Some r -> push_request_ok w p r = inr tt ->
  ap_approvals a1 = ap_approvals a -> ap_pushes a1 = ap_pushes a ++ [(w, ar_DraftYAML r)] ->
  wp (finish_push e w id (sha256_hex (ar_DraftYAML r)) p) (fun _ => pushed_from a w id (Some p)) a1.
Proof.
  intros Ho Hc Hb Hr Hok Ka Kp. unfold finish_push.
  apply wp_bind, wp_frame; [apply (frame_now e)|]. intros t a2 [K2 K2'].
  apply wp_bind. apply wp_update_and_read. intros x a3 K3 K3'. rewrite K2, Ka in K3'. rewrite K2', Kp in K3.
  assert (pushed_from a w id (Some p) a3) as Hp.
  { right. exists p, r. repeat (split; [done|]).
    destruct K3' as [->|(r' & Hr' & _ & ->)]; [by left|]. right.
    rewrite Hr in Hr'. injection Hr' as <-. by exists t. }
  destruct x as [y|err]; [|by apply wp_done; [apply frame_ret|]].
  destruct (pp_BreakGlass p); (apply wp_done; [|done]); apply (frame_emitAudit e), frame_ret.
Qed.

Lemma push_effects w id body a :
  pushed_from a w id body (handlePushConfigApproval e w id body a).1.
Proof.
  change (wp (handlePushConfigApproval e w id body) (fun _ => pushed_from a w id body) a).
  assert (forall (m : AM response) a', frame m -> agrees a a' ->
    wp m (fun _ => pushed_from a w id body) a') as Hno by (intros; apply wp_done; [done|by left]).
  unfold handlePushConfigApproval. destruct body as [p|]; [|by apply Hno; [apply frame_ret|]].
  do 3 (case_if; [by apply Hno; [apply frame_ret|]|]). reflect_bools.
  apply wp_bind, (wp_read e). intros fl a1 K1.
  destruct (GetConfigApprovalRequest _ fl id) as [r|err] eqn:Er;
    [|unfold respondConfigApprovalLookupError; case_if; (apply Hno; [apply frame_ret|done])].
  assert (ap_approvals a !! id = Some r) as Hr by (unfold GetConfigApprovalRequest in Er; by run Er).
  destruct (push_request_ok w p r) as [resp|[]] eqn:Eok; [by apply Hno; [apply frame_ret|]|].
  unfold push_approved. apply wp_bind, wp_frame; [apply (frame_aq e)|]. intros [wl|err] a2 K2;
    [|apply Hno; [apply frame_ret|by transitivity a1]].
  assert (agrees a a2) as K02 by by transitivity a1.
  do 2 (case_if; [by apply Hno; [apply frame_ret|]|]).
  apply wp_bind, wp_frame; [apply (frame_validate e)|]. intros result a3 K3.
  assert (agrees a a3) as K03 by by transitivity a2.
  case_if; [by apply Hno; [apply frame_ret|]|].
  apply wp_bind, wp_frame; [apply (frame_policy e)|]. intros policy a4 K4.
  assert (agrees a a4) as K04 by by transitivity a3.
  case_if; [apply Hno; [apply (frame_emitAudit e), frame_ret|done]|].
  apply wp_bind. unfold persistAndPushApprovalConfig.
  apply wp_bind, wp_frame; [apply (frame_now e)|]. intros t a5 K5.
  apply wp_bind, wp_frame; [apply (frame_ax e)|]. intros _ a6 K6.
  apply wp_bind, wp_frame; [apply (frame_now e)|]. intros t' a7 K7.
  assert (agrees a a7) as K07 by (transitivity a4; [done|]; transitivity a5; [done|]; by transitivity a6).
  assert (pp_BreakGlass p = true -> TrimSpace (pp_BreakGlassReason p) <> "") as Hbg.
  { intros Hb Hs. rewrite Hb, Hs in E0. done. }
  apply (wp_record_and_push e).
  - intros msg a8 K8. apply Hno; [apply frame_ret|by transitivity a7].
  - intros o a8 Ka Kp. destruct K07 as [K7a K7p]. rewrite K7a in Ka. rewrite K7p in Kp.
    destruct o as [msg|msg|]; cbn [returnPushApprovalError].
    + apply wp_done; [apply frame_ret|]. right. exists p, r. repeat (split; [done|]). by left.
    + case_if; (apply wp_done; [apply frame_ret|]); right; exists p, r; (repeat (split; [done|])); by left.
    + by apply finish_push_effects.
Qed.

End Effects.

(** ** The checks in front of a push *)

Section Guards.
Context `{UnicodeTables} `{TimestampColumn} {netURL : NetURL} {floatFormat : FloatFormat}
  {yamlDoc : YamlDoc} (e : aenv).

(** The draft of request [id] may go to the workload as it is stored. *)
Definition cleared (a : api) (w id : string) : Prop :=
  exists r row, ap_approvals a !! id = Some r /\ ar_WorkloadID r = w /\
    ar_Status r <> ConfigApprovalStatusPushed /\
    d_workloads (sv_db (ap_server a)) !! w = Some row /\
    wl_AcceptsRemoteConfig row = true /\ workloadIsConnected row = true /\
    (exists v, validated e (ar_DraftYAML r) (read_workload row) v /\ rs_Valid v = true) /\
    (exists j, judged e (ar_DraftYAML r) (read_workload row) j /\ ev_Decision j <> PolicyDecisionBlock).

(** whatever fails, a push handler that runs alone asks for a push only when the
    stored request is of this workload and not pushed yet, the stored workload
    accepts remote configs and is connected, and the stored draft passed
    validation against it and was not blocked by the policy engine. *)
Theorem push_only_cleared_drafts w id body a (Hq : quiet e) :
  ap_pushes (handlePushConfigApproval e w id body a).1 = ap_pushes a \/ cleared a w id.
Proof.
  set (Q := fun (_ : response) a' => ap_pushes a' = ap_pushes a \/ cleared a w id).
  change (wp (handlePushConfigApproval e w id body) Q a).
  assert (forall (m : AM response) a', frame m -> agrees a a' -> wp m Q a') as Hno.
  { intros m a' Hm [K K']. apply wp_frame; [done|]. intros ? a2 [K2 K2']. left. congruence. }
  unfold handlePushConfigApproval. destruct body as [p|]; [|by apply Hno; [apply frame_ret|]].
  do 3 (case_if; [by apply Hno; [apply frame_ret|]|]).
  apply wp_bind, (wp_read_quiet e). intros fl a1 [K1 D1].
  destruct (GetConfigApprovalRequest _ fl id) as [r|err] eqn:Er;
    [|unfold respondConfigApprovalLookupError; case_if; (apply Hno; [apply frame_ret|done])].
  assert (ap_approvals a !! id = Some r) as Hr by (unfold GetConfigApprovalRequest in Er; by run Er).
  destruct (push_request_ok w p r) as [resp|[]] eqn:Eok; [by apply Hno; [apply frame_ret|]|].
  unfold push_approved. apply wp_bind, (wp_aq_quiet e). intros fl2 a2 [K2 D2]. rewrite D1.
  assert (agrees a a2) as K02 by by transitivity a1.
  destruct (GetWorkload _ fl2 w) as [wl|err] eqn:Ew; [|by apply Hno; [apply frame_ret|]].
  case_if; [by apply Hno; [apply frame_ret|]|]. case_if; [by apply Hno; [apply frame_ret|]|].
  apply wp_bind, (wp_validate e). intros result a3 K3 Hval.
  case_if; [apply Hno; [apply frame_ret|by transitivity a2]|].
  apply wp_bind, (wp_policy e). intros policy a4 K4 Hpol.
  case_if; [apply Hno; [by apply (frame_emitAudit e), frame_ret|transitivity a2; [done|by transitivity a3]]|].
  right. reflect_bools. unfold GetWorkload in Ew. destruct fl2; [|done].
  destruct (d_workloads (sv_db (ap_server a)) !! w) as [row|] eqn:Erow; [|done]. injection Ew as <-.
  assert (ar_WorkloadID r = w /\ ar_Status r <> ConfigApprovalStatusPushed) as [Hw Hs].
  { unfold push_request_ok in Eok. do 3 (case_match; [done|]). by reflect_bools. }
  exists r, row. eauto 12.
Qed.

End Guards.

(** ** Requests in sequence *)

Inductive request :=
| Create (workloadID : string) (body : option requestPayload)
| Approve (workloadID approvalID : string) (body : option string)
| Push (workloadID approvalID : string) (body : option pushPayload).

Section Governance.
Context `{UnicodeTables} `{TimestampColumn} {netURL : NetURL} {floatFormat : FloatFormat}
  {yamlDoc : YamlDoc}.

Definition serve (e : aenv) (q : request) : AM response :=
  match q with
  | Create w body => handleCreateOrUpdateConfigApproval e w body
  | Approve w id body => handleApproveConfigApproval e w id body
  | Push w id body => handlePushConfigApproval e w id body
  end.

(** The approvals a request granted: identifier, workload and the exact draft. *)
Definition granted (q : request) (a a' : api) : list (string * string * string) :=
  match q with
  | Approve w id _ =>
      match ap_approvals a !! id, ap_approvals a' !! id with
      | Some r, Some r' =>
          if (ar_Status r =s ConfigApprovalStatusPending) && (ar_Status r' =s ConfigApprovalStatusApproved)
          then [(id, w, ar_DraftYAML r)] else []
      | _, _ => []
      end
  | _ => []
  end.

(** The states reachable by requests served one at a time with respect to the
    table (agents and other parts of the API run freely; rows may be deleted),
    with the approvals granted on the way. *)
Inductive governed : api -> list (string * string * string) -> Prop :=
| gov_start a : ap_approvals a = ∅ -> governed a []
| gov_other a a' G : governed a G -> ap_approvals a' ⊆ ap_approvals a -> governed a' G
| gov_serve a G e q : governed a G -> isolated e -> fresh e (ap_approvals a) ->
    governed (serve e q a).1 (G ++ granted q a (serve e q a).1).

(** Every approved row carries the draft that was approved. *)
Definition row_ok (G : list (string * string * string)) (id : string) (r : ConfigApprovalRequest) : Prop :=
  ar_ID r = id /\
  (ar_Status r = ConfigApprovalStatusApproved -> (id, ar_WorkloadID r, ar_DraftYAML r) ∈ G).

Lemma row_ok_mono G G' id r : row_ok G id r -> row_ok (G ++ G') id r.
Proof. intros [Hid Hg]. split; [done|]. intros Ha. apply elem_of_app. left. auto. Qed.

Lemma governed_rows a G : governed a G -> map_Forall (row_ok G) (ap_approvals a).
Proof.
  induction 1 as [a Ha|a a' G Hg IH Hsub|a G e q Hg IH Hiso Hf].
  - rewrite Ha. apply map_Forall_empty.
  - intros id r Hr. apply (IH id r). by apply (lookup_weaken (ap_approvals a')).
  - assert (keyed_rows (ap_approvals a)) as Hk by (intros id r Hr; apply (IH id r Hr)).
    assert (map_Forall (row_ok (G ++ granted q a (serve e q a).1)) (ap_approvals a)) as IH'.
    { intros id r Hr. apply row_ok_mono. by apply IH. }
    destruct q as [w body|w id body|w id body]; cbn [serve] in *.
    + destruct (create_effects e w body a Hk Hf) as
        [_ [->|[(id & old & req & Hold & Hp & ->)|(id & req & _ & Hid & Hp & ->)]]]; [done| |];
        apply map_Forall_insert_2; try done; split; cbn; try done; try (by apply Hk);
        unfold ConfigApprovalStatusApproved, ConfigApprovalStatusPending in *; congruence.
    + destruct (approve_effects e w id body a) as [_ [Heq|(r & by_ & c & t & Hr & Hw & Hp & Heq)]];
        [by rewrite Heq|]. rewrite Heq. apply map_Forall_insert_2; [|done].
      split; cbn; [by apply Hk|]. intros _. apply elem_of_app. right.
      rewrite Hr, Heq, lookup_insert_eq. cbn. rewrite Hp, Hw. cbn. by left.
    + destruct (push_effects e w id body a) as [[-> _]|(p & r & _ & _ & _ & _ & Hr & _ & _ & [->|[t ->]])];
        [done..|]. apply map_Forall_insert_2; [|done]. split; cbn; [by apply Hk|done].
Qed.


End Governance.

(** ** A run, and a race *)

Definition minimal_doc : gmap string value :=
  <["receivers" := VMap {["otlp" := VNull]}]> (<["exporters" := VMap {["debug" := VNull]}]>
  {["service" := VMap {["pipelines" := VMap {["traces" := VMap
      (<["receivers" := VList [VStr "otlp"]]> {["exporters" := VList [VStr "debug"]]})]}]}]}).
Definition two_docs : YamlDoc :=
  {| yaml_document := fun s =>
       if (s =s "good") || (s =s "other") then Ok (Some minimal_doc) else Err "no such document" |}.

#[local] Existing Instance byte_tables.
#[local] Existing Instance microseconds.
#[local] Existing Instance one_host.
#[local] Existing Instance no_format.
#[local] Existing Instance two_docs.

Definition no_binary : runtime :=
  mkRuntime (fun _ => None) (fun _ => mkVersionInfo "" "") (mkOutput "" "" 0, None) None None None
    (mkOutput "" "" 0, None) 0 "".
Definition steady : env :=
  mkEnv true false 0 (fun n => (1000000 + Z.of_nat n)%Z) (fun _ => IoOk) (fun _ => OpampTokens.no_faults)
    (fun _ => true) (fun _ => None) (fun _ => ReplySent) (fun _ => true) (fun _ s => s).
Definition alone (newID : option (list N)) : aenv :=
  mkAenv steady true (Some (mkUserInfo "u" "ada" [])) (fun _ => "") (fun _ => newID) (fun _ => no_binary)
    (fun _ => true) (fun _ => false) (fun _ a => a).
(** One request runs while another waits for the database. *)
Definition meanwhile (k : nat) (f : api -> api) (e : aenv) : aenv :=
  mkAenv (ae_server e) (ae_opamp e) (ae_user e) (ae_getenv e) (ae_newID e) (ae_runtime e)
    (ae_exportersFirst e) (ae_auditFails e) (fun n a => if Nat.eqb n k then f a else a).

Definition fleet_row : Workload :=
  mkWorkload "w" "host" ∅ "api" "collector" "" "connected" 1000 ∅ None "" None None None true None None.
Definition sample_api : api :=
  mkApi (mkServer (mkDb {["w" := fleet_row]} ∅ [] 1 ∅ ∅ ∅ ∅) (OpampTokens.mkDB ∅ ∅) NewInstanceRegistry
    Grace.NewGraceController ∅ ∅ false [] [] 0) ∅ [] [].

Definition draft_of (text : string) : request := Create "w" (Some (mkRequestPayload text "edge" "" "why" false)).
Definition car : string := "car_01".
Definition approve_it : request := Approve "w" car (Some "reviewed").
Definition push_it : request := Push "w" car (Some (mkPushPayload "go" false false "")).

Definition requested : api := (serve (alone (Some [1%N])) (draft_of "good") sample_api).1.
Definition approved : api := (serve (alone None) approve_it requested).1.

Lemma alone_isolated i : isolated (alone i).
Proof. split. by intros n a. Qed.
Lemma alone_quiet i : quiet (alone i).
Proof. split. by intros n a. Qed.
Lemma no_id_fresh m : fresh (alone None) m.
Proof. by intros n b. Qed.

Lemma approved_governed : governed approved (([] ++ []) ++ [(car, "w", "good")]).
Proof.
  assert (governed requested ([] ++ [])) as Hr.
  { apply (gov_serve sample_api [] (alone (Some [1%N])) (draft_of "good"));
      [by apply gov_start|apply alone_isolated|intros n b _; apply lookup_empty]. }
  pose proof (gov_serve requested _ (alone None) approve_it Hr (alone_isolated None) (no_id_fresh _)) as Ha.
  change (serve (alone None) approve_it requested).1 with approved in Ha.
  replace (granted approve_it requested approved) with [(car, "w", "good")] in Ha; [exact Ha|].
  vm_compute. reflexivity.
Qed.


Lemma push_only_cleared_drafts_witness : cleared (alone None) approved "w" car.
Proof.
  destruct (push_only_cleared_drafts (alone None) "w" car (Some (mkPushPayload "go" false false ""))
    approved (alone_quiet None)) as [Hsame|Hc]; [|exact Hc].
  exfalso. revert Hsame. vm_compute. discriminate.
Defined.

(** The lookup of the pending request and the write are two statements. When the
    request is approved between them, the write replaces the draft of an approved
    row: the operator approved "good", the next normal push sends "other". *)
Definition raced : api :=
  (serve (meanwhile (sv_tick (ap_server requested) + 7) (fun a => (serve (alone None) approve_it a).1)
     (alone None)) (draft_of "other") requested).1.

Lemma approved_draft_swapped :
  ar_DraftYAML <$> ap_approvals requested !! car = Some "good" /\
  ar_Status <$> ap_approvals raced !! car = Some ConfigApprovalStatusApproved /\
  ar_DraftYAML <$> ap_approvals raced !! car = Some "other" /\
  ap_pushes (serve (alone None) push_it raced).1 = [("w", "other")].
Proof. vm_compute. done. Qed.

(** Approval itself is not bound to the draft that was validated and shown: an
    update between its read and its write is approved unseen. *)
Lemma unseen_draft_approved :
  let e := meanwhile (sv_tick (ap_server requested) + 7)
             (fun a => (serve (alone None) (draft_of "other") a).1) (alone None) in
  let a := (serve e approve_it requested).1 in
  ar_Status <$> ap_approvals a !! car = Some ConfigApprovalStatusApproved /\
  ar_DraftYAML <$> ap_approvals a !! car = Some "other".
Proof. vm_compute. done. Qed.

End Approvals.
