(* ===== verification/WorkloadApi.v ===== *)
(** * Workload handlers (internal/api/workloads.go, internal/api/archivehandler.go)

    Labels and known-good marks of past revisions, the two rollbacks, archiving
    and deletion, the live topology summary and the reads around them. The
    handlers compose the store, the validator and the OpAMP server; the request
    body arrives decoded ([None]: not JSON). *)

From S2P Require Import Prelude GoString Models PushStatus Registry Grace Sha256 OpampTokens.
From S2P Require Import Validator Yaml ConfigPolicy Access Store PushHistory OpampServer Api.
Import Registry Sha256 Validator Yaml ConfigPolicy Access Store.Store PushHistory OpampServer Api.

Module WorkloadApi.

(** ** Topology *)

(* src/pkg/models/models.go:362-373 WorkloadTopologySummary *)
Record WorkloadTopologySummary := mkTopology {
  ts_ConnectedCount : Z; ts_HealthyCount : Z; ts_UnhealthyCount : Z; ts_DriftedCount : Z;
  ts_Heterogeneous : bool; ts_VersionDiversity : list string; ts_ConfigHashDiversity : list string;
  ts_RemoteConfigStatusCounts : gmap string Z; ts_Heterogeneity : gmap string bool;
  ts_HeterogeneityReasons : list string
}.

(* src/internal/api/workloads.go:204-213 initialRemoteConfigStatusCounts *)
Definition initialRemoteConfigStatusCounts : gmap string Z :=
  list_to_map (map (fun k => (k, 0%Z)) ["capable"; PushStatus.InstanceStatusNoStatus;
    PushStatus.PushStatusSent; PushStatus.PushStatusApplying; PushStatus.PushStatusApplied;
    PushStatus.PushStatusFailed]).

Definition count_of (m : gmap string Z) (k : string) : Z := default 0%Z (m !! k).
(** [m[k]++]. *)
Definition incr (k : string) (m : gmap string Z) : gmap string Z := <[k := (count_of m k + 1)%Z]> m.

(* src/internal/api/workloads.go:215-224 nonZeroRemoteConfigStatusKinds *)
Definition nonZeroRemoteConfigStatusKinds (counts : gmap string Z) : nat :=
  length (List.filter (fun k => Z.ltb 0 (count_of counts k))
    [PushStatus.InstanceStatusNoStatus; PushStatus.PushStatusSent; PushStatus.PushStatusApplying;
     PushStatus.PushStatusApplied; PushStatus.PushStatusFailed]).

(** The status a capable instance counts under. *)
Definition reported_status (i : Instance) : string :=
  match InstRemoteConfigStatus i with
  | Some s => if rcs_Status s <>s "" then rcs_Status s else PushStatus.InstanceStatusNoStatus
  | None => PushStatus.InstanceStatusNoStatus
  end.

Definition count_status (counts : gmap string Z) (i : Instance) : gmap string Z :=
  if AcceptsRemoteConfig i then incr (reported_status i) (incr "capable" counts) else counts.

(** The distinct non-empty values, sorted. *)
Definition diversity (f : Instance -> string) (l : list Instance) : list string :=
  sort_strings (remove_dups (List.filter (fun v => v <>s "") (map f l))).

Definition topology_keys : list string :=
  ["mixed_versions"; "mixed_effective_config_hashes"; "unhealthy_instances";
   "mixed_remote_config_statuses"; "applying_remote_config"; "failed_remote_config"].

Definition zcount (p : Instance -> bool) (l : list Instance) : Z := Z.of_nat (length (List.filter p l)).

(* src/internal/api/workloads.go:122-202 summarizeWorkloadTopology *)
Definition summarizeWorkloadTopology (instances : list Instance) (activeConfigHash : string)
  : WorkloadTopologySummary :=
  let flags := list_to_map (map (fun k => (k, false)) topology_keys) : gmap string bool in
  match instances with
  | [] => mkTopology 0 0 0 0 false [] [] initialRemoteConfigStatusCounts flags []
  | _ =>
      let counts := foldl count_status initialRemoteConfigStatusCounts instances in
      let versions := diversity Version instances in
      let hashes := diversity EffectiveConfigHash instances in
      let unhealthy := zcount (fun i => negb (Healthy i)) instances in
      let drifted := if activeConfigHash <>s "" then zcount (diverges activeConfigHash) instances
                     else 0%Z in
      let tests := [("mixed_versions", Nat.ltb 1 (length versions));
        ("mixed_effective_config_hashes", Nat.ltb 1 (length hashes));
        ("unhealthy_instances", Z.ltb 0 unhealthy);
        ("mixed_remote_config_statuses", Nat.ltb 1 (nonZeroRemoteConfigStatusKinds counts));
        ("applying_remote_config", Z.ltb 0 (count_of counts PushStatus.PushStatusApplying));
        ("failed_remote_config", Z.ltb 0 (count_of counts PushStatus.PushStatusFailed))] in
      let reasons := (List.filter snd tests).*1 in
      mkTopology (Z.of_nat (length instances)) (zcount Healthy instances) unhealthy drifted
        (negb (Nat.eqb (length reasons) 0)) versions hashes counts
        (foldl (fun m k => <[k := true]> m) flags reasons) reasons
  end.

(** ** Handlers *)

(* src/internal/api/workloads.go:777-781 markKnownGoodRequest *)
Record markKnownGoodRequest := mkMarkRequest {
  mk_ReplaceReason : string; mk_IfCurrentKnownGood : option string; mk_Force : bool
}.

(* src/internal/api/workloads.go:792-797 currentKnownGoodID *)
Definition currentKnownGoodID (current : option WorkloadKnownGoodConfig) : string :=
  match current with None => "" | Some c => kg_ConfigID c end.

(* src/internal/api/workloads.go:799-807 knownGoodMarkResult *)
Definition knownGoodMarkResult (result : SetKnownGoodResult) : string :=
  if negb (sk_Changed result) then "unchanged"
  else if sk_ReplacedConfigID result <>s "" then "replaced" else "created".

Section Handlers.
Context `{UnicodeTables} `{TimestampColumn} {netURL : NetURL} {floatFormat : FloatFormat}
  {yamlDoc : YamlDoc} (e : aenv).
Local Open Scope api_scope.

Definition next_fault : AM io := lift (fault (ae_server e)).
Definition faults2 : AM (io * io) := f1 ← next_fault; f2 ← next_fault; aret (f1, f2).
Definition faults3 : AM (io * io * io) := f ← faults2; f3 ← next_fault; aret (f, f3).

(** Go's answer to a failed [GetWorkload]. *)
Definition not_loaded {A} (err : string) (missing failed : A) : A :=
  if err =s ErrNoRows then missing else failed.

(* src/internal/api/workloads.go:43-56 handleGetWorkload *)
Definition handleGetWorkload (id : string) : AM response :=
  wl ← aq e (fun d f => GetWorkload d f id);
  match wl with
  | Err err => aret (not_loaded err (mkResponse 404 "workload not found" "")
                       (mkResponse 500 "failed to get workload" ""))
  | Ok _ => _ ← aq_now e (fun d f t => GetLatestWorkloadConfig d f t id); respondOK 200
  end.

(* src/internal/api/workloads.go:321-326 handlePushWorkloadConfig *)
Definition handlePushWorkloadConfig : AM response :=
  respondCode 410
    "direct config push is disabled; create, approve, and push a config approval under /api/workloads/{id}/config/approvals"
    "config_approval_required".

(* src/internal/api/workloads.go:731-761 handleSetWorkloadConfigLabel *)
Definition handleSetWorkloadConfigLabel (id hash : string) (body : option string) : AM response :=
  match body with
  | None => respondError 400 "invalid JSON body"
  | Some raw =>
      let label := TrimSpace raw in
      if Nat.ltb 128 (String.length label) then respondError 400 "label too long (max 128 chars)"
      else
        err ← ax e (fun d f => SetWorkloadConfigLabel d f id hash label);
        match err with
        | Some err => aret (not_loaded err
            (mkResponse 404 "config not found in this workload's history" "")
            (mkResponse 500 "failed to set label" ""))
        | None => emitAudit e sideEffectApplied "config.label" "workload" id (DText label) (respondOK 200)
        end
  end.

(** The transaction of the known-good write: its reads and its write are
    separated by other requests. *)
Definition set_known_good_stmt (workloadID hash markedBy reason : string) (ifCurrent : option string)
  (force : bool) : AM (option WorkloadKnownGoodConfig * SetKnownGoodResult * option string) :=
  others e;;
  d ← lift (gets sv_db);
  fs ← faults3;
  t ← anow e;
  others e;;
  lift (fun s => let (d', r) := SetWorkloadKnownGoodWithPrecondition d (sv_db s) fs t workloadID hash
                                  markedBy reason ifCurrent force in
                 (set_db (fun _ => d') s, r)).

(** The checks before a mark, then the write and its audit event. *)
Definition mark_known_good (workloadID hash reason : string) (req : markKnownGoodRequest)
  (wc : WorkloadConfig) : AM response :=
  current ← aq e (fun d f => GetWorkloadKnownGood d f workloadID);
  match current with
  | Err _ => respondError 500 "failed to load known-good config"
  | Ok current =>
      r ← set_known_good_stmt workloadID hash (currentUserEmail e) reason (mk_IfCurrentKnownGood req)
            (mk_Force req);
      match r with
      | (_, _, Some _) => respondError 500 "failed to mark known-good"
      | (kg, setResult, None) =>
          if sk_PreconditionFailed setResult then
            emitAudit e sideEffectNone "config.known_good.conflict" "workload" workloadID
              (DJson [("result", JStr "conflict"); ("target_hash", JStr hash);
                      ("current_known_good", JStr (sk_CurrentConfigID setResult));
                      ("if_current_known_good", JOpt (mk_IfCurrentKnownGood req));
                      ("force", JBool (mk_Force req)); ("replace_reason", JStr reason);
                      ("required_precondition", JBool true); ("side_effect", JStr "none");
                      ("source_applied_at", JTime (Some (wc_AppliedAt wc)));
                      ("source_content_present", JBool (wc_Content wc <>s ""))])
              (respondCode 409 "known-good precondition failed" "known_good_conflict")
          else
            emitAudit e sideEffectApplied "config.known_good.mark" "workload" workloadID
              (DJson [("result", JStr (knownGoodMarkResult setResult));
                      ("changed", JBool (sk_Changed setResult)); ("target_hash", JStr hash);
                      ("previous_known_good", JStr (currentKnownGoodID current));
                      ("replaced_config_id", JStr (sk_ReplacedConfigID setResult));
                      ("replace_reason", JStr reason);
                      ("source_applied_at", JTime (kg ≫= kg_SourceAppliedAt));
                      ("if_current_known_good", JOpt (mk_IfCurrentKnownGood req));
                      ("force", JBool (mk_Force req));
                      ("side_effect", JStr "known_good_pointer_recorded")])
              (respondOK (if sk_Changed setResult && (sk_ReplacedConfigID setResult =s "") then 201 else 200))
      end
  end.

(** [body]: [None] when the body is neither empty nor JSON. *)
(* src/internal/api/workloads.go:817-930 handleMarkWorkloadConfigKnownGood *)
Definition handleMarkWorkloadConfigKnownGood (workloadID hash : string)
  (body : option markKnownGoodRequest) : AM response :=
  match body with
  | None => respondError 400 "invalid JSON body"
  | Some req =>
      let reason := TrimSpace (mk_ReplaceReason req) in
      if Nat.ltb 256 (String.length reason) then respondError 400 "replace_reason too long (max 256 chars)"
      else
        wl ← aq e (fun d f => GetWorkload d f workloadID);
        match wl with
        | Err err => aret (not_loaded err (mkResponse 404 "workload not found" "")
                             (mkResponse 500 "failed to load workload" ""))
        | Ok wl =>
            if bool_decide (is_Some (wl_ArchivedAt wl))
            then respondCode 409 "workload is archived" "workload_archived"
            else
              wc ← aq_now e (fun d f t => GetWorkloadConfigByHash d f t workloadID hash);
              match wc with
              | Err _ => respondError 500 "failed to load config"
              | Ok None => respondError 404 "config not found in this workload's history"
              | Ok (Some wc) =>
                  if wc_Status wc <>s "applied" then respondCode 409 "config is not applied" "not_applied"
                  else if wc_Content wc =s ""
                  then respondCode 410 "config content is no longer available" "config_content_unavailable"
                  else
                    result ← validate_for e (wc_Content wc) wl;
                    if negb (rs_Valid result) then respondError 400 "configuration failed validation"
                    else mark_known_good workloadID hash reason req wc
              end
        end
  end.

Definition clear_known_good_stmt (workloadID : string) : AM (result (option WorkloadKnownGoodConfig)) :=
  others e;;
  fs ← faults2;
  lift (fun s => let (d', r) := ClearWorkloadKnownGood (sv_db s) fs workloadID in
                 (set_db (fun _ => d') s, r)).

(* src/internal/api/workloads.go:932-969 handleClearWorkloadKnownGood *)
Definition handleClearWorkloadKnownGood (workloadID : string) : AM response :=
  wl ← aq e (fun d f => GetWorkload d f workloadID);
  match wl with
  | Err err => aret (not_loaded err (mkResponse 404 "workload not found" "")
                       (mkResponse 500 "failed to load workload" ""))
  | Ok wl =>
      if bool_decide (is_Some (wl_ArchivedAt wl))
      then respondCode 409 "workload is archived" "workload_archived"
      else
        old ← clear_known_good_stmt workloadID;
        match old with
        | Err _ => respondError 500 "failed to clear known-good"
        | Ok old =>
            let d := match old with
              | None => DJson [("result", JStr "unchanged"); ("changed", JBool false); ("side_effect", JStr "none")]
              | Some old =>
                  DJson [("result", JStr "cleared"); ("changed", JBool true);
                         ("cleared_config_id", JStr (kg_ConfigID old));
                         ("source_applied_at", JTime (kg_SourceAppliedAt old));
                         ("marked_by", JStr (kg_MarkedBy old));
                         ("replace_reason", JStr (kg_ReplaceReason old));
                         ("content_available", JBool (kg_ContentAvailable old));
                         ("side_effect", JStr "known_good_pointer_deleted")]
              end in
            emitAudit e sideEffectApplied "config.known_good.clear" "workload" workloadID d (respondOK 204)
        end
  end.

(** ** Rollbacks *)

(** The checks both rollbacks make on the workload and its running pushes. *)
Definition rollback_refused (wl : Workload) : option response :=
  if bool_decide (is_Some (wl_ArchivedAt wl))
  then Some (mkResponse 409 "workload is archived" "workload_archived")
  else if (wl_Type wl <>s "") && (wl_Type wl <>s "collector")
  then Some (mkResponse 409 "rollback is supported only for collector workloads" "workload_not_collector")
  else if negb (wl_AcceptsRemoteConfig wl)
  then Some (mkResponse 409 "workload does not accept remote config" "remote_config_unsupported")
  else None.

Definition no_push_running (workloadID : string) (k : AM response) : AM response :=
  concurrent ← aq e (fun d f => GetLatestPendingOrApplyingWorkloadConfig d f workloadID);
  match concurrent with
  | Err _ => respondError 500 "failed to check pending config changes"
  | Ok (Some _) => respondCode 409 "a config change is already pending or applying for this workload"
                     "concurrent_config_change"
  | Ok None => k
  end.

(** The config a default rollback must not return to. *)
Definition exclude_hash (wl : Workload) : AM (result string) :=
  if wl_ActiveConfigHash wl <>s "" then aret (Ok (wl_ActiveConfigHash wl))
  else
    last ← aq_now e (fun d f t => GetLastAppliedWorkloadConfig d f t (wl_ID wl));
    aret (match last with
          | Ok (Some last) => Ok (wc_ConfigID last)
          | Ok None => Ok ""
          | Err err => Err err
          end).

Definition rollback_target_stmt (workloadID excludeHash : string) : AM (result (option RollbackTarget)) :=
  t ← anow e; fs ← faults3;
  aq e (fun d _ => GetRollbackTarget d fs t workloadID excludeHash).

Definition push_target (workloadID excludeHash : string) (target : RollbackTarget) : AM response :=
  let hash := wc_ConfigID (rt_Config target) in
  submittedAt ← anow e;
  o ← record_and_push e workloadID hash (wc_Content (rt_Config target)) (currentUserEmail e) submittedAt;
  match o with
  | NotRecorded _ => respondError 500 "failed to record push"
  | NotSent sanitized => respondError 502 sanitized
  | Sent =>
      emitAudit e sideEffectApplied "config.rollback" "workload" workloadID
        (DJson [("result", JStr "initiated"); ("target_hash", JStr hash);
                ("target_kind", JStr (rt_Kind target)); ("source_hash", JStr excludeHash);
                ("pushed_by", JStr (currentUserEmail e)); ("side_effect", JStr "opamp_push_sent");
                ("submitted_at", JTime (Some submittedAt))]) (respondOK 202)
  end.

(* src/internal/api/workloads.go:971-1062 handleRollbackWorkloadDefault *)
Definition handleRollbackWorkloadDefault (workloadID : string) : AM response :=
  if negb (ae_opamp e) then respondError 503 "OpAMP server not available"
  else
    wl ← aq e (fun d f => GetWorkload d f workloadID);
    match wl with
    | Err err => aret (not_loaded err (mkResponse 404 "workload not found" "")
                         (mkResponse 500 "failed to load workload" ""))
    | Ok wl =>
        match rollback_refused wl with
        | Some r => aret r
        | None =>
            no_push_running workloadID (
              excl ← exclude_hash wl;
              match excl with
              | Err _ => respondError 500 "failed to resolve current config"
              | Ok excl =>
                  target ← rollback_target_stmt workloadID excl;
                  match target with
                  | Err _ => respondError 500 "failed to resolve rollback target"
                  | Ok None => respondCode 409 "no rollback target" "no_rollback_target"
                  | Ok (Some target) =>
                      if wc_Content (rt_Config target) =s ""
                      then respondCode 410 "config content is no longer available" "config_content_unavailable"
                      else
                        result ← validate_for e (wc_Content (rt_Config target)) wl;
                        if negb (rs_Valid result) then respondError 400 "configuration failed validation"
                        else push_target workloadID excl target
                  end
              end)
        end
    end.

(** ** Archiving and deletion *)

(* src/internal/api/archivehandler.go:15-38 handleArchiveWorkload *)
Definition handleArchiveWorkload (id : string) : AM response :=
  wl ← aq e (fun d f => GetWorkload d f id);
  match wl with
  | Err err => aret (not_loaded err (mkResponse 404 "workload not found" "")
                       (mkResponse 500 "failed to load workload" ""))
  | Ok wl =>
      if wl_Status wl <>s "disconnected"
      then respondCode 409 "only disconnected workloads can be archived" "workload_not_disconnected"
      else
        t ← anow e;
        err ← ax e (fun d f => ArchiveWorkload d f id t);
        match err with
        | Some _ => respondError 500 "failed to archive workload"
        | None => emitAudit e sideEffectApplied "workload.archive" "workload" id (DText "") (respondOK 204)
        end
  end.

(** The deletion of a workload cascades to its approval requests. *)
Definition delete_workload_stmt (id : string) : AM (option string) :=
  others e;;
  fl ← next_fault;
  fun a =>
    let (d', err) := DeleteWorkload (sv_db (ap_server a)) fl id in
    let gone := match fl with IoOk => true | IoFail executed => executed end in
    (set_approvals (if gone then filter (fun kv => ar_WorkloadID kv.2 <> id) (ap_approvals a)
                    else ap_approvals a)
       (set_server (set_db (fun _ => d') (ap_server a)) a), err).

(* src/internal/api/workloads.go:1215-1225 handleDeleteWorkload *)
Definition handleDeleteWorkload (id : string) : AM response :=
  err ← delete_workload_stmt id;
  match err with
  | Some _ => respondError 500 "failed to delete workload"
  | None => emitAudit e sideEffectApplied "workload.delete" "workload" id (DText "") (respondOK 204)
  end.

(** The page size of the event list: a number between 1 and 500, otherwise 100. *)
(* src/internal/api/workloads.go:259-282 handleListWorkloadEvents *)
Definition handleListWorkloadEvents (id limitParam : string) (since : Time) : AM (result (list WorkloadEvent)) :=
  let limit :=
    if limitParam =s "" then 100%Z
    else let '(n, ok) := Atoi limitParam in
         if ok && Z.ltb 0 n && Z.leb n 500 then n else 100%Z in
  aq e (fun d f => ListWorkloadEvents d f id limit since).

(** [strings.Replace(s, old, new, 1)] for a non-empty [old]. *)
Fixpoint replace_first (s old new : string) : string :=
  if HasPrefix s old then new +:+ drop_str (String.length old) s
  else match s with EmptyString => "" | String c r => String c (replace_first r old new) end.

(** Redirects keep to the host: the decoded path must start with one slash. *)
(* src/internal/api/workloads.go:1231-1248 redirectAgentsToWorkloads *)
Definition redirectAgentsToWorkloads (path requestURI : string) : response + string :=
  if negb (HasPrefix path "/") || HasPrefix path "//" || HasPrefix path (bytes [47; 92]%N)
  then inl (mkResponse 400 "invalid path" "")
  else inr (replace_first requestURI "/api/agents" "/api/workloads").

End Handlers.

(** ** The topology summary *)

Lemma zcount_split p l : (zcount p l + zcount (fun i => negb (p i)) l = Z.of_nat (length l))%Z.
Proof.
  unfold zcount. induction l as [|i l IH]; cbn; [done|]. destruct (p i); cbn; lia.
Qed.

Lemma count_of_incr k k' m : count_of (incr k m) k' = (count_of m k' + (if k =s k' then 1 else 0))%Z.
Proof.
  unfold incr, count_of. destruct (k =s k') eqn:E; reflect_bools.
  - subst. by rewrite lookup_insert_eq.
  - rewrite lookup_insert_ne by done. lia.
Qed.

Lemma count_status_fold l m s : s <> "capable" ->
  count_of (foldl count_status m l) s =
    (count_of m s + zcount (fun i => AcceptsRemoteConfig i && (reported_status i =s s)) l)%Z.
Proof.
  intros Hs. unfold zcount. revert m. induction l as [|i l IH]; intros m; cbn; [lia|].
  rewrite IH. unfold count_status. destruct (AcceptsRemoteConfig i); cbn [andb]; [|lia].
  rewrite !count_of_incr. assert (("capable" =s s) = false) as -> by (apply eqb_string_false; congruence).
  destruct (reported_status i =s s); cbn; lia.
Qed.

Lemma initial_counts s : count_of initialRemoteConfigStatusCounts s = 0%Z.
Proof.
  unfold count_of. destruct (initialRemoteConfigStatusCounts !! s) as [z|] eqn:E; [|done]. cbn.
  apply elem_of_list_to_map_2, list_elem_of_fmap in E as (k & [= _ ->] & _). done.
Qed.

Lemma two_distinct (l : list string) : NoDup l ->
  1 < length l <-> exists x y, x ∈ l /\ y ∈ l /\ x <> y.
Proof.
  intros Hd. split.
  - destruct l as [|x [|y l]]; cbn; try lia. intros _. exists x, y.
    apply NoDup_cons in Hd as [Hx _]. split; [by left|]. split; [by right; left|].
    intros ->. apply Hx. by left.
  - intros (x & y & Hx & Hy & Hne). destruct l as [|a [|b l]]; cbn; [..|lia].
    + by apply not_elem_of_nil in Hx.
    + apply list_elem_of_singleton in Hx, Hy. congruence.
Qed.

Lemma mixed_iff f l :
  Nat.ltb 1 (length (diversity f l)) = true <->
  exists i j, i ∈ l /\ j ∈ l /\ f i <> "" /\ f j <> "" /\ f i <> f j.
Proof.
  unfold diversity, sort_strings. rewrite Nat.ltb_lt, sort_by_length, two_distinct by apply NoDup_remove_dups.
  assert (forall x, x ∈ remove_dups (List.filter (fun v => v <>s "") (map f l)) <->
    exists i, i ∈ l /\ f i = x /\ x <> "") as Hin.
  { intros x. rewrite elem_of_remove_dups, list_elem_of_In, filter_In, in_map_iff, negb_true_iff, eqb_string_false.
    setoid_rewrite list_elem_of_In. naive_solver. }
  split.
  - intros (x & y & (i & Hi & <- & Hx)%Hin & (j & Hj & <- & Hy)%Hin & Hne). eauto 10.
  - intros (i & j & Hi & Hj & Hx & Hy & Hne). exists (f i), (f j). rewrite !Hin. eauto 10.
Qed.

(** the topology summary says what the live instances are: healthy and unhealthy
    ones add up to the connected ones; the drift equals the one the OpAMP server
    announces; each status is counted once per capable instance that reports it;
    and versions (and config hashes) are called mixed exactly when two instances
    differ in a known value. *)
Theorem topology_summary_correct r w active :
  let l := Instances r w in
  let t := summarizeWorkloadTopology l active in
  ts_ConnectedCount t = Z.of_nat (length l) /\
  (ts_HealthyCount t + ts_UnhealthyCount t = ts_ConnectedCount t)%Z /\
  ts_DriftedCount t = countDrift r w active /\
  (forall s, s <> "capable" -> count_of (ts_RemoteConfigStatusCounts t) s =
     zcount (fun i => AcceptsRemoteConfig i && (reported_status i =s s)) l) /\
  ("mixed_versions" ∈ ts_HeterogeneityReasons t <->
     exists i j, i ∈ l /\ j ∈ l /\ Version i <> "" /\ Version j <> "" /\ Version i <> Version j) /\
  ("mixed_effective_config_hashes" ∈ ts_HeterogeneityReasons t <->
     exists i j, i ∈ l /\ j ∈ l /\ EffectiveConfigHash i <> "" /\ EffectiveConfigHash j <> "" /\
       EffectiveConfigHash i <> EffectiveConfigHash j) /\
  (ts_Heterogeneous t = true <-> ts_HeterogeneityReasons t <> []).
Proof.
  cbv zeta. unfold countDrift. rewrite <- !mixed_iff.
  destruct (Instances r w) as [|i0 l0] eqn:El.
  { cbn. split; [done|]. split; [done|]. split; [by case_if|]. split; [intros s _; apply initial_counts|].
    split; [by split; intros Hx; [apply not_elem_of_nil in Hx|]|].
    split; [by split; intros Hx; [apply not_elem_of_nil in Hx|]|]. by split. }
  unfold summarizeWorkloadTopology. set (l := i0 :: l0).
  cbn [ts_ConnectedCount ts_HealthyCount ts_UnhealthyCount ts_DriftedCount ts_RemoteConfigStatusCounts
       ts_HeterogeneityReasons ts_Heterogeneous].
  split; [done|]. split; [apply zcount_split|]. split; [by destruct (active =s "")|].
  split; [intros s Hs; by rewrite count_status_fold, initial_counts by done|].
  split; [|split].
  - destruct (Nat.ltb 1 (length (diversity Version l))) eqn:E1; cbn [List.filter snd].
    + split; [done|]. intros _. by left.
    + split; [|done]. repeat case_match; cbn; intros Hx; exfalso;
        repeat (apply elem_of_cons in Hx as [Hx|Hx]; [done|]); by apply not_elem_of_nil in Hx.
  - destruct (Nat.ltb 1 (length (diversity EffectiveConfigHash l))) eqn:E1; cbn [List.filter snd].
    + split; [done|]. intros _. case_match; cbn; [right|]; by left.
    + split; [|done]. repeat case_match; cbn; intros Hx; exfalso;
        repeat (apply elem_of_cons in Hx as [Hx|Hx]; [done|]); by apply not_elem_of_nil in Hx.
  - match goal with |- context [length ?x] => generalize x end. intros [|x k]; by split.
Qed.

End WorkloadApi.
