(* ===== verification/ConfigPlan.v ===== *)
(** * The config safety plan (internal/api/workloads.go)

    What an operator sees before a draft is pushed: validation, policy verdict, risk
    score against the running configuration and whether the draft can be pushed; with
    its Markdown export, the validation endpoint and the endpoints that read the
    history. Theorem: a plan allows the push exactly when every gate in front of a push
    is open. *)

From S2P Require Import Prelude GoString Models PushStatus Registry Sha256 Validator Yaml.
From S2P Require Import ConfigPolicy OtelDiff DiffEngine Access Store PushHistory OpampServer.
From S2P Require Import Api ApiLogic Approvals WorkloadApi.
Import Registry Sha256 Validator Yaml ConfigPolicy Access Store.Store PushHistory OpampServer Api
  ApiLogic WorkloadApi.

Module ConfigPlan.

(* src/pkg/models/config_plan.go:21-31 ConfigApplicationPlanSummary *)
Record PlanSummary := mkPlanSummary {
  sm_TargetCount : nat; sm_CollectorTargetCount : nat; sm_RemoteConfigCapableCount : nat;
  sm_ReadOnlyCount : nat; sm_ValidationOKCount : nat; sm_ValidationFailedCount : nat;
  sm_ComponentsMissingCount : nat; sm_HighRiskChangeCount : nat; sm_ExcludedCount : nat }.

(* src/pkg/models/config_plan.go:34-49 ConfigApplicationPlanTarget *)
Record PlanTarget := mkPlanTarget {
  tg_WorkloadID : string; tg_DisplayName : string; tg_Type : string; tg_AcceptsRemoteConfig : bool;
  tg_ReadOnly : bool; tg_ValidationStatus : string; tg_ValidationErrors : list string;
  tg_ComponentsMissingCount : nat; tg_HighRiskChangeCount : nat; tg_Excluded : bool;
  tg_ExclusionReasons : list string; tg_HardFailures : list string; tg_ActiveConfigHash : string;
  tg_ActiveConfigUnavailable : bool }.

(* src/pkg/models/config_plan.go:52-58 ConfigApplicationPlanExport *)
Record PlanExport := mkPlanExport {
  ex_Supported : bool; ex_Formats : list string; ex_JSONEndpoint : string; ex_MarkdownEndpoint : string;
  ex_PersistedRollout : string }.

(* src/pkg/models/config_plan.go:6-18 ConfigApplicationPlan *)
Record Plan := mkPlan {
  pl_SchemaVersion : string; pl_WorkloadID : string; pl_ConfigHash : string; pl_Summary : PlanSummary;
  pl_RiskScore : DiffEngine.ConfigRiskScore; pl_Targets : list PlanTarget; pl_Policy : EvaluationResult;
  pl_HardFailures : list string; pl_CanPush : bool; pl_ApplyAllowed : bool; pl_Export : PlanExport }.

#[local] Existing Instance OtelDiff.risk_eq_dec.

(* src/internal/api/workloads.go:640-647 appendIfMissing *)
Definition appendIfMissing (items : list string) (item : string) : list string :=
  if existsb (fun x => x =s item) items then items else items ++ [item].

Section Handlers.
Context `{UnicodeTables} `{TimestampColumn} {netURL : NetURL} {floatFormat : FloatFormat}
  {yamlDoc : YamlDoc} {urls : OtelDiff.UrlLib} {floats : OtelDiff.FloatText} (e : aenv).
Local Open Scope api_scope.

(* src/internal/api/workloads.go:630-638 countMissingComponents *)
Definition countMissingComponents (result : Result) : nat :=
  length (List.filter (fun err => (er_Code err =s "component_not_installed")
                                  || Contains (ToLower (er_Message err)) "not installed") (rs_Errors result)).

(** The target as a function of what was read. *)
Definition plan_target (wl : Workload) (body : string) (validation : Result) (active : option WorkloadConfig)
    : PlanTarget :=
  let readOnly := negb (wl_AcceptsRemoteConfig wl) in
  let offline := negb (workloadIsConnected wl) in
  let invalid := negb (rs_Valid validation) in
  let only (b : bool) (s : string) := if b then [s] else [] in
  let failures := only readOnly "read_only" ++ only offline "workload_offline" ++ only invalid "validation_failed" in
  let reasons := only (wl_Type wl <>s "collector") "non_collector" ++ failures in
  let highRisk :=
    match active with
    | Some wc =>
        length (List.filter (fun i => bool_decide (DiffEngine.ri_Risk i = OtelDiff.RiskHigh))
                  (DiffEngine.df_RiskItems (DiffEngine.Compare (wc_Content wc) body)))
    | None => 0
    end in
  mkPlanTarget (wl_ID wl) (wl_DisplayName wl) (wl_Type wl) (wl_AcceptsRemoteConfig wl) readOnly
    (if invalid then "failed" else "ok") (map er_Code (rs_Errors validation)) (countMissingComponents validation)
    highRisk (match reasons with [] => false | _ => true end) reasons failures (wl_ActiveConfigHash wl)
    (match active with Some _ => false | None => true end).

(* src/internal/api/workloads.go:555-609 buildConfigApplicationPlanTarget *)
Definition buildConfigApplicationPlanTarget (wl : Workload) (body : string) : AM PlanTarget :=
  validation ← validate_for e body wl;
  active ← activeConfigContent e wl;
  aret (plan_target wl body validation active).

Definition count_target (s : PlanSummary) (t : PlanTarget) : PlanSummary :=
  let one (b : bool) : nat := if b then 1 else 0 in
  mkPlanSummary (sm_TargetCount s) (sm_CollectorTargetCount s + one (tg_Type t =s "collector"))
    (sm_RemoteConfigCapableCount s + one (tg_AcceptsRemoteConfig t)) (sm_ReadOnlyCount s + one (tg_ReadOnly t))
    (sm_ValidationOKCount s + one (tg_ValidationStatus t =s "ok"))
    (sm_ValidationFailedCount s + one (tg_ValidationStatus t =s "failed"))
    (sm_ComponentsMissingCount s + tg_ComponentsMissingCount t)
    (sm_HighRiskChangeCount s + tg_HighRiskChangeCount t) (sm_ExcludedCount s + one (tg_Excluded t)).

(** The plan as a function of what was read. *)
Definition assemble (workloadID body : string) (target : PlanTarget) (policy : EvaluationResult)
    (active : option WorkloadConfig) : Plan :=
  let failures := if body =s "" then ["empty_config"] else [] in
  let targets := [target] in
  let summary := foldl count_target (mkPlanSummary (length targets) 0 0 0 0 0 0 0 0) targets in
  let failures :=
    if Nat.eqb (length targets) 0 || Nat.eqb (sm_ExcludedCount summary) (length targets)
    then appendIfMissing failures "all_targets_excluded" else failures in
  let count := Z.of_nat (sm_CollectorTargetCount summary) in
  let score :=
    match active with
    | Some wc =>
        let diff := DiffEngine.Compare (wc_Content wc) body in
        DiffEngine.BuildRiskScore (DiffEngine.sm_OverallRisk (DiffEngine.df_Summary diff))
          (DiffEngine.df_RiskItems diff) count
    | None => DiffEngine.BuildRiskScore OtelDiff.RiskNone [] count
    end in
  let failures := if Nat.ltb 0 (sm_ValidationFailedCount summary)
                  then appendIfMissing failures "validation_failed" else failures in
  let failures := if ev_Decision policy =s PolicyDecisionBlock
                  then appendIfMissing failures "config_policy_blocked" else failures in
  let canPush := match failures with [] => true | _ => false end in
  let endpoint format := "/api/workloads/" +:+ workloadID +:+ "/config/plan/export?format=" +:+ format in
  mkPlan "config_application_plan.v1" workloadID (sha256_hex body) summary score targets policy failures
    canPush canPush
    (mkPlanExport true ["json"; "markdown"] (endpoint "json") (endpoint "markdown") "not_persisted").

(* src/internal/api/workloads.go:428-494 buildConfigApplicationPlan *)
Definition buildConfigApplicationPlan (workloadID body : string) : AM (result Plan) :=
  wl ← aq e (fun d f => GetWorkload d f workloadID);
  match wl with
  | Err err => aret (Err err)
  | Ok wl =>
      target ← buildConfigApplicationPlanTarget wl body;
      policy ← evaluateWorkloadConfigPolicy e wl body;
      active ← activeConfigContent e wl;
      aret (Ok (assemble workloadID body target policy active))
  end.

(** ** Markdown *)

Definition nl : string := bytes [10]%N.
Definition dec (n : nat) : string := Itoa n.
Definition tf (b : bool) : string := if b then "true" else "false".

Definition target_line (t : PlanTarget) : string :=
  let name := if tg_DisplayName t =s "" then tg_WorkloadID t else tg_DisplayName t in
  "- " +:+ name +:+ " (" +:+ tg_WorkloadID t +:+ "): validation=" +:+ tg_ValidationStatus t +:+ ", read_only="
  +:+ tf (tg_ReadOnly t) +:+ ", excluded=" +:+ tf (tg_Excluded t) +:+ ", high_risk_changes="
  +:+ dec (tg_HighRiskChangeCount t) +:+ nl.

(* src/internal/api/workloads.go:649-688 renderConfigApplicationPlanMarkdown *)
Definition renderConfigApplicationPlanMarkdown (plan : Plan) : string :=
  let s := pl_Summary plan in
  let para text := text +:+ nl +:+ nl in
  let item label n := "- " +:+ label +:+ ": " +:+ dec n +:+ nl in
  para "# Config Safety Plan" +:+
  para ("Schema version: " +:+ pl_SchemaVersion plan) +:+
  para ("Workload: " +:+ pl_WorkloadID plan) +:+
  para ("Config hash: " +:+ pl_ConfigHash plan) +:+
  para ("Can push: " +:+ tf (pl_CanPush plan)) +:+
  para ("Apply allowed: " +:+ tf (pl_ApplyAllowed plan)) +:+
  para "Persisted rollout: not implemented" +:+
  para "## Summary" +:+
  item "Targets" (sm_TargetCount s) +:+ item "Collectors" (sm_CollectorTargetCount s) +:+
  item "Remote-config capable" (sm_RemoteConfigCapableCount s) +:+ item "Read-only" (sm_ReadOnlyCount s) +:+
  item "Validation OK" (sm_ValidationOKCount s) +:+ item "Validation failed" (sm_ValidationFailedCount s) +:+
  item "Components missing" (sm_ComponentsMissingCount s) +:+
  item "High-risk changes" (sm_HighRiskChangeCount s) +:+ item "Excluded" (sm_ExcludedCount s) +:+ nl +:+
  para "## Targets" +:+
  Join "" (map target_line (pl_Targets plan)) +:+
  match pl_HardFailures plan with
  | [] => ""
  | l => nl +:+ para "## Hard failures" +:+ Join "" (map (fun f => "- " +:+ f +:+ nl) l)
  end +:+
  nl +:+ "> Persisted rollout: not implemented in v1; export is deterministic JSON/Markdown for now." +:+ nl.

(** ** Endpoints *)

(** The answer with its body. *)
Definition answer (A : Type) : Type := response + A.

(* src/internal/api/workloads.go:372-391 handlePlanWorkloadConfig *)
Definition handlePlanWorkloadConfig (workloadID : string) (body : option string) : AM (answer Plan) :=
  match body with
  | None => aret (inl (mkResponse 400 "failed to read body" ""))
  | Some body =>
      plan ← buildConfigApplicationPlan workloadID body;
      aret (match plan with
            | Err err => inl (not_loaded err (mkResponse 404 "workload not found" "")
                                (mkResponse 500 "failed to build config application plan" ""))
            | Ok p => inr p
            end)
  end.

Inductive export := ExportJSON (p : Plan) | ExportMarkdown (text : string).
(* src/internal/api/workloads.go:393-426 handleExportWorkloadConfigPlan *)
Definition handleExportWorkloadConfigPlan (workloadID : string) (body : option string) (format : string)
    : AM (answer export) :=
  plan ← handlePlanWorkloadConfig workloadID body;
  match plan with
  | inl resp => aret (inl resp)
  | inr p =>
      let format := ToLower (TrimSpace format) in
      aret (if (format =s "") || (format =s "json") then inr (ExportJSON p)
            else if (format <>s "markdown") && (format <>s "md")
            then inl (mkResponse 400 "unsupported export format" "")
            else inr (ExportMarkdown (renderConfigApplicationPlanMarkdown p)))
  end.

(* src/internal/api/workloads.go:332-370 handleValidateWorkloadConfig *)
Definition handleValidateWorkloadConfig (id : string) (body : option string) (target_collector_version : string)
    : AM (answer Result) :=
  match body with
  | None => aret (inl (mkResponse 400 "failed to read body" ""))
  | Some body =>
      if body =s "" then aret (inl (mkResponse 400 "empty config body" "")) else
      let targetVersion := TrimSpace target_collector_version in
      let source := if targetVersion <>s "" then "request" else "" in
      wl ← aq e (fun d f => GetWorkload d f id);
      let run (available : option AvailableComponents) (version source : string) : AM (answer Result) :=
        let o := RuntimeOptionsFromEnv (ae_getenv e) in
        t ← anow e; rt ← draw (ae_runtime e);
        aret (inr (ValidateWithRuntime rt t body available
                     (mkOptions (op_Enabled o) (op_BinaryPath o) (op_Timeout o) version source (op_MinimumVersion o)))) in
      match wl with
      | Ok wl =>
          if targetVersion <>s "" then run (wl_AvailableComponents wl) targetVersion source
          else run (wl_AvailableComponents wl) (wl_Version wl) (if wl_Version wl <>s "" then "workload" else "")
      | Err err =>
          if err =s ErrNoRows then run None targetVersion source
          else aret (inl (mkResponse 500 "failed to load workload" ""))
      end
  end.

Definition without_content (wc : WorkloadConfig) : WorkloadConfig :=
  mkWorkloadConfig (wc_WorkloadID wc) (wc_ConfigID wc) (wc_ConfigHash wc) (wc_AppliedAt wc) (wc_Status wc)
    (wc_ErrorMessage wc) (wc_PushedBy wc) "" (wc_Label wc) (wc_PushID wc) (wc_SubmittedAt wc) (wc_SentAt wc)
    (wc_UpdatedAt wc) (wc_OpAMPStatusTimeoutAt wc) (wc_TimedOutWaiting wc) (wc_TimeoutMessage wc)
    (wc_RollbackOfPushID wc) (wc_Timeline wc) (wc_InstanceStatuses wc) (wc_TargetCount wc) (wc_AppliedCount wc)
    (wc_FailedCount wc) (wc_PendingCount wc) (wc_TimedOutCount wc) (wc_NoStatusCount wc) (wc_ErrorGroups wc)
    (wc_IsCurrent wc) (wc_IsPrevious wc) (wc_IsLastKnownGood wc) (wc_IsFailedCandidate wc) (wc_ContentAvailable wc).
(* src/internal/api/workloads.go:701-705 redactWorkloadConfigContent *)
Definition redactWorkloadConfigContent (history : list WorkloadConfig) : list WorkloadConfig :=
  map without_content history.
(* src/internal/api/workloads.go:690-699 handleGetWorkloadConfigHistory *)
Definition handleGetWorkloadConfigHistory (id : string) : AM (answer (list WorkloadConfig)) :=
  f ← faults3 e;
  history ← aq_now e (fun d _ t => GetWorkloadConfigHistory d f t id);
  aret (match history with
        | Err _ => inl (mkResponse 500 "failed to get config history" "")
        | Ok l => inr (redactWorkloadConfigContent l)
        end).
(* src/internal/api/workloads.go:710-728 handleGetWorkloadConfigByHash *)
Definition handleGetWorkloadConfigByHash (id hash : string) : AM (answer WorkloadConfig) :=
  wc ← aq_now e (fun d f t => GetWorkloadConfigByHash d f t id hash);
  aret (match wc with
        | Err _ => inl (mkResponse 500 "failed to get config" "")
        | Ok None => inl (mkResponse 404 "config not found in this workload's history" "")
        | Ok (Some wc) => inr wc
        end).

(** ** The gates *)

Lemma target_excluded wl body v active :
  tg_Excluded (plan_target wl body v active) =
  negb ((wl_Type wl =s "collector") && wl_AcceptsRemoteConfig wl && workloadIsConnected wl && rs_Valid v).
Proof.
  unfold plan_target. cbn [tg_Excluded].
  by destruct (wl_Type wl =s "collector"), (wl_AcceptsRemoteConfig wl), (workloadIsConnected wl), (rs_Valid v).
Qed.

Lemma target_status wl body v active :
  tg_ValidationStatus (plan_target wl body v active) = if rs_Valid v then "ok" else "failed".
Proof. unfold plan_target. cbn [tg_ValidationStatus]. by destruct (rs_Valid v). Qed.

(** The verdict depends on two fields of the target. *)
Lemma assemble_verdict w body target policy active :
  pl_CanPush (assemble w body target policy active) =
  (body <>s "") && negb (tg_Excluded target) && (tg_ValidationStatus target <>s "failed") &&
  (ev_Decision policy <>s PolicyDecisionBlock).
Proof.
  unfold assemble. cbn [pl_CanPush foldl count_target sm_ExcludedCount sm_ValidationFailedCount length].
  generalize (tg_ValidationStatus target) as st, (tg_Excluded target) as ex, (ev_Decision policy) as dc.
  intros st ex dc. by destruct (body =s ""), ex, (st =s "failed"), (dc =s PolicyDecisionBlock).
Qed.

Lemma assemble_can_push w body wl v active policy active' :
  pl_CanPush (assemble w body (plan_target wl body v active) policy active') = true <->
  body <> "" /\ wl_Type wl = "collector" /\ wl_AcceptsRemoteConfig wl = true /\ workloadIsConnected wl = true /\
  rs_Valid v = true /\ ev_Decision policy <> PolicyDecisionBlock.
Proof.
  rewrite assemble_verdict, target_excluded, target_status, negb_involutive, !andb_true_iff, !negb_true_iff,
    !String.eqb_neq, String.eqb_eq.
  destruct (rs_Valid v); naive_solver.
Qed.

(** C6: The plan's verdict is reliable. Built while no other request runs, whatever fails
    on the way, a plan speaks of the stored workload, of a validation of the draft for it
    and of a policy evaluation of the draft for it, and it allows the push exactly when
    the draft is not empty, the workload is a connected collector that accepts remote
    configuration, the validation succeeded and the policy does not block. *)
Theorem plan_allows_push_iff w body a plan (Hq : quiet e) :
  (buildConfigApplicationPlan w body a).2 = Ok plan ->
  exists row v,
    d_workloads (sv_db (ap_server a)) !! w = Some row /\ validated e body (read_workload row) v /\
    judged e body (read_workload row) (pl_Policy plan) /\ pl_ConfigHash plan = sha256_hex body /\
    (pl_CanPush plan = true <->
     body <> "" /\ wl_Type row = "collector" /\ wl_AcceptsRemoteConfig row = true /\
     workloadIsConnected row = true /\ rs_Valid v = true /\
     ev_Decision (pl_Policy plan) <> PolicyDecisionBlock) /\
    (pl_CanPush plan = true <-> pl_HardFailures plan = []).
Proof.
  change ((buildConfigApplicationPlan w body a).2 = Ok plan -> ?G)
    with (wp (buildConfigApplicationPlan w body) (fun r _ => r = Ok plan -> G) a).
  unfold buildConfigApplicationPlan. apply wp_bind, (wp_aq_quiet e). intros fl a1 K1.
  destruct (GetWorkload _ fl w) as [wl|err] eqn:Ew; [|by apply wp_ret].
  assert (exists row, d_workloads (sv_db (ap_server a)) !! w = Some row /\ wl = read_workload row) as (row & Hrow & ->).
  { unfold GetWorkload in Ew. destruct fl; [|done]. destruct (_ !! w) as [row|]; [|done]. injection Ew as <-. eauto. }
  apply wp_bind. unfold buildConfigApplicationPlanTarget. apply wp_bind, (wp_validate e). intros v a2 K2 Hv.
  apply wp_bind, wp_frame; [apply (frame_active e)|]. intros active a3 K3. apply wp_ret.
  apply wp_bind, (wp_policy e). intros policy a4 K4 Hj.
  apply wp_bind, wp_frame; [apply (frame_active e)|]. intros active' a5 K5. apply wp_ret.
  intros [= <-]. exists row, v. split; [done|]. split; [done|]. split; [done|]. split; [done|].
  split; [exact (assemble_can_push w body (read_workload row) v active policy active')|]. unfold assemble. cbn [pl_CanPush pl_HardFailures].
  by match goal with |- (match ?l with _ => _ end = true) <-> _ => destruct l end.
Qed.

End Handlers.

(** ** A run *)

#[local] Existing Instance byte_tables.
#[local] Existing Instance microseconds.
#[local] Existing Instance one_host.
#[local] Existing Instance no_format.
#[local] Existing Instance Approvals.two_docs.
#[local] Existing Instance OtelDiff.plain_urls.
#[local] Existing Instance DiffEngine.no_floats.

Definition sample_plan : result Plan :=
  (buildConfigApplicationPlan (Approvals.alone None) "w" "good" Approvals.sample_api).2.

Lemma plan_allows_push_iff_witness :
  exists plan row v, sample_plan = Ok plan /\ pl_CanPush plan = true /\
    validated (Approvals.alone None) "good" (read_workload row) v /\ rs_Valid v = true.
Proof.
  destruct sample_plan as [plan|err] eqn:Ep; [|exfalso; revert Ep; vm_compute; discriminate].
  destruct (plan_allows_push_iff (Approvals.alone None) "w" "good" Approvals.sample_api plan
    (Approvals.alone_quiet None) Ep) as (row & v & _ & Hv & _ & _ & Hiff & _).
  exists plan, row, v. split; [done|].
  assert (pl_CanPush plan = true) as Hc by (revert Ep; vm_compute; intros [= <-]; reflexivity).
  split; [exact Hc|]. split; [exact Hv|]. by apply Hiff.
Defined.

End ConfigPlan.
