(* ===== verification/GuidedRollback.v ===== *)
(** * Guided rollback (internal/api/rollback_guided.go, internal/api/workloads.go)

    The preview of a rollback, the rollback to a chosen revision and the polling
    of its outcome. The preview and the rollback check the same things in two
    places; the theorems relate them. *)

From S2P Require Import Prelude GoString Models PushStatus Registry Grace Sha256 OpampTokens.
From S2P Require Import Validator Yaml ConfigPolicy Access Store PushHistory OpampServer Api.
From S2P Require Import ApiLogic Approvals WorkloadApi.
Import Registry Sha256 Validator Yaml ConfigPolicy Access Store.Store PushHistory OpampServer Api
  ApiLogic WorkloadApi.

Module GuidedRollback.

Definition rollbackTimeoutSeconds : Z := 30.

(* src/internal/api/rollback_guided.go:25-29 rollbackRequestRef *)
Record rollbackRequestRef := mkRef { rr_WorkloadID : string; rr_TargetHash : string; rr_StartedAt : Time }.

(* src/internal/api/rollback_guided.go:31-38 rollbackFinding *)
Record rollbackFinding := mkFinding {
  rf_Code : string; rf_Severity : string; rf_Message : string; rf_Path : string; rf_Blocking : bool;
  rf_Source : string
}.

(** The component and type names shown with it depend on the text of the config;
    they are computed apart ([WorkloadReads]). *)
(* src/internal/api/rollback_guided.go:40-47 unavailableComponentWarning *)
Record unavailableComponentWarning := mkUnavailable {
  uc_Category : string; uc_Path : string; uc_Available : list string; uc_Blocking : bool
}.

(* src/internal/api/rollback_guided.go:496-505 validationSource *)
Definition validationSource (c : string) : string :=
  if c =s "component_not_installed" then "capabilities"
  else if one_of c ["yaml_parse"; "empty_config"; "missing_service"; "missing_pipelines"; "invalid_pipeline";
                    "missing_pipeline_section"; "undefined_component"] then "yaml"
  else "target".

(* src/internal/api/rollback_guided.go:525-532 categoryFromValidationPath *)
Definition categoryFromValidationPath (path : string) : string :=
  match List.filter (fun category =>
      Contains path ("." +:+ category +:+ "[") || Contains path ("." +:+ category +:+ ".") ||
      Contains path (category +:+ "["))
    ["receivers"; "processors"; "exporters"; "extensions"; "connectors"] with
  | category :: _ => category
  | [] => ""
  end.

(* src/internal/api/rollback_guided.go:509-523 unavailableFromValidationError *)
Definition unavailableFromValidationError (err : Error) (available : option AvailableComponents)
  : unavailableComponentWarning :=
  let category := categoryFromValidationPath (er_Path err) in
  mkUnavailable category (er_Path err)
    (match available with Some av => default [] (ac_Components av !! category) | None => [] end) true.

(* src/internal/api/rollback_guided.go:270-284 validationStatus *)
Fixpoint validation_status (warn : bool) (findings : list rollbackFinding) : string * bool :=
  match findings with
  | [] => if warn then ("valid_with_warnings", true) else ("valid", true)
  | f :: rest =>
      if rf_Blocking f then ("invalid", false)
      else validation_status (warn || (rf_Severity f =s "warning")) rest
  end.

(* src/internal/api/rollback_guided.go:286-297 splitRollbackFindings *)
Definition splitRollbackFindings (l : list rollbackFinding) : list rollbackFinding * list rollbackFinding :=
  (List.filter (fun f => negb (rf_Blocking f) && (rf_Severity f =s "warning")) l,
   List.filter rf_Blocking l).

(** What the validation of a target says: status, verdict, findings and the
    components that are not installed. *)
Record rollbackValidation := mkValidation {
  rv_status : string; rv_valid : bool; rv_can_confirm : bool; rv_findings : list rollbackFinding;
  rv_unavailable : list unavailableComponentWarning
}.

(* src/internal/api/rollback_guided.go:473-482 knownGoodSource *)
Definition knownGoodSource `{UnicodeTables} (wc : option WorkloadConfig) : string :=
  match wc ≫= wc_Label with
  | None => "none"
  | Some l => if one_of (ToLower (TrimSpace l)) ["known-good"; "known_good"; "known good"]
              then "label_convention" else "none"
  end.

(* src/internal/api/rollback_guided.go:325-341 unifiedDiff *)
Definition unifiedDiff (a b from to : string) : string :=
  let nl := bytes [10]%N in
  if a =s b then ""
  else
    let aLines := Split (TrimSuffix a nl) (Ascii.ascii_of_N 10) in
    let bLines := Split (TrimSuffix b nl) (Ascii.ascii_of_N 10) in
    "--- " +:+ from +:+ nl +:+ "+++ " +:+ to +:+ nl +:+
    "@@ -1," +:+ Itoa (length aLines) +:+ " +1," +:+ Itoa (length bLines) +:+ " @@" +:+ nl +:+
    Join "" (map (fun l => "-" +:+ l +:+ nl) aLines) +:+ Join "" (map (fun l => "+" +:+ l +:+ nl) bLines).

Section Handlers.
Context `{UnicodeTables} `{TimestampColumn} {netURL : NetURL} {floatFormat : FloatFormat}
  {yamlDoc : YamlDoc} (e : aenv).
Local Open Scope api_scope.

Definition blocking (c message source : string) : rollbackFinding := mkFinding c "error" message "" true source.

Definition target_findings (t : Time) (wl : Workload) (target : WorkloadConfig) : list rollbackFinding :=
  if wc_Content target =s ""
  then [blocking "target_content_unavailable"
          "Rollback target content is unavailable. This revision cannot be used for rollback." "target"]
  else map (fun err => mkFinding (er_Code err) "error" (er_Message err) (er_Path err) true
              (validationSource (er_Code err)))
         (rs_Errors (Validate t (wc_Content target) (wl_AvailableComponents wl))).

(* src/internal/api/rollback_guided.go:224-268 buildRollbackValidation *)
Definition buildRollbackValidation (t : Time) (wl : Workload) (target : WorkloadConfig) : rollbackValidation :=
  let findings :=
    (if (wl_Type wl <>s "") && (wl_Type wl <>s "collector")
     then [blocking "workload_not_collector" "Rollback is supported only for collector workloads." "remote_config"]
     else []) ++
    (if negb (wl_AcceptsRemoteConfig wl)
     then [blocking "remote_config_unsupported" "Workload does not accept remote config." "remote_config"]
     else []) ++
    target_findings t wl target in
  let unavailable :=
    if wc_Content target =s "" then []
    else map (fun err => unavailableFromValidationError err (wl_AvailableComponents wl))
           (List.filter (fun err => er_Code err =s "component_not_installed")
              (rs_Errors (Validate t (wc_Content target) (wl_AvailableComponents wl)))) in
  let '(status, valid) := validation_status false findings in
  mkValidation status valid valid findings unavailable.

(* src/internal/api/rollback_guided.go:166-175 resolveCurrentConfig *)
Definition resolveCurrentConfig (wl : Workload) : AM WorkloadConfig :=
  let missing := mkWorkloadConfig (wl_ID wl) (wl_ActiveConfigHash wl) "" zero_time "" "" "" "" None "" zero_time
    None zero_time None false "" "" [] [] 0 0 0 0 0 0 [] false false false false false in
  if wl_ActiveConfigHash wl =s "" then aret missing
  else
    wc ← aq_now e (fun d f t => GetWorkloadConfigByHash d f t (wl_ID wl) (wl_ActiveConfigHash wl));
    aret (match wc with Ok (Some wc) => wc | _ => missing end).

(** The refusal of a revision that no longer validates. *)
Definition rejected_target (t : Time) (wl : Workload) (wc : WorkloadConfig) (result : Result) : response :=
  let validation := buildRollbackValidation t wl wc in
  match rv_unavailable validation with
  | _ :: _ => mkResponse 409 "configuration failed validation" "component_not_installed"
  | [] =>
      mkResponse 400 "configuration failed validation"
        (match rs_Errors result with
         | err :: _ => if er_Code err =s "yaml_parse" then "target_yaml_invalid" else "validation_failed"
         | [] => "validation_failed"
         end)
  end.

Definition push_revision (workloadID hash : string) (wl : Workload) (wc : WorkloadConfig) : AM response :=
  appliedAt ← anow e;
  o ← record_and_push e workloadID hash (wc_Content wc) (currentUserEmail e) appliedAt;
  match o with
  | NotRecorded _ => respondCode 500 "failed to record push" "record_push_failed"
  | NotSent sanitized => respondCode 502 sanitized "push_failed"
  | Sent =>
      current ← (if wl_ActiveConfigHash wl =s ""
                 then c ← resolveCurrentConfig wl; aret (wc_ConfigID c)
                 else aret (wl_ActiveConfigHash wl));
      emitAudit e sideEffectApplied "config.rollback" "workload" workloadID
        (DJson [("target_kind", JStr "hash"); ("current_hash", JStr current); ("target_hash", JStr hash);
                ("request_id", JTime (Some appliedAt))]) (respondOK 202)
  end.

(* src/internal/api/workloads.go:1069-1213 handleRollbackWorkloadConfig *)
Definition handleRollbackWorkloadConfig (workloadID hash : string) : AM response :=
  if negb (ae_opamp e) then respondCode 503 "OpAMP server not available" "opamp_unavailable"
  else
    wc ← aq_now e (fun d f t => GetWorkloadConfigByHash d f t workloadID hash);
    match wc with
    | Err _ => respondCode 500 "failed to load past config" "internal_error"
    | Ok None => respondCode 404 "config not found in this workload's history" "target_not_found"
    | Ok (Some wc) =>
        if wc_Status wc <>s PushStatus.PushStatusApplied
        then respondCode 409 "rollback target must be an applied config" "target_not_applied"
        else if wc_Content wc =s ""
        then respondCode 410 "config content is no longer available" "target_content_unavailable"
        else
          wl ← aq e (fun d f => GetWorkload d f workloadID);
          match wl with
          | Err err => aret (not_loaded err (mkResponse 404 "workload not found" "workload_not_found")
                               (mkResponse 500 "failed to load workload" "internal_error"))
          | Ok wl =>
              match rollback_refused wl with
              | Some r => aret r
              | None =>
                  no_push_running e workloadID (
                    result ← validate_for e (wc_Content wc) wl;
                    if negb (rs_Valid result) then
                      t ← anow e; aret (rejected_target t wl wc result)
                    else push_revision workloadID hash wl wc)
              end
          end
    end.

(** ** The preview *)

(** What the preview offers: whether the rollback may be submitted, and why not. *)
Record preview := mkPreview {
  pv_target : WorkloadConfig; pv_validation : rollbackValidation; pv_can_submit : bool;
  pv_blockers : list rollbackFinding; pv_warnings : list rollbackFinding
}.

Definition errKnownGoodNotFound : string := "known-good target not found".

(* src/internal/api/rollback_guided.go:151-164 resolveRollbackTarget *)
Definition resolveRollbackTarget (workloadID targetHash targetSelector : string)
  : AM (result (option WorkloadConfig)) :=
  if targetSelector =s "known_good" then
    t ← anow e; fs ← faults2 e;
    wc ← aq e (fun d _ => GetLatestKnownGoodWorkloadConfig d fs t workloadID);
    aret (match wc with Ok None => Err errKnownGoodNotFound | r => r end)
  else aq_now e (fun d f t => GetWorkloadConfigByHash d f t workloadID targetHash).

Definition concurrent_finding : rollbackFinding :=
  blocking "concurrent_config_change" "A config change is already pending or applying for this workload."
    "concurrency".

(* src/internal/api/rollback_guided.go:49-147 handlePrepareRollback *)
Definition handlePrepareRollback (workloadID rawHash rawSelector : string) : AM (response + preview) :=
  let targetHash := TrimSpace rawHash in
  let targetSelector := TrimSpace rawSelector in
  let refuse status msg c := aret (inl (mkResponse status msg c)) in
  if Bool.eqb (targetHash =s "") (targetSelector =s "")
  then refuse 400%Z "exactly one of target_hash or target_selector is required" "invalid_request"
  else if (targetSelector <>s "") && (targetSelector <>s "known_good")
  then refuse 400%Z "unsupported rollback target selector" "invalid_request"
  else
    wl ← aq e (fun d f => GetWorkload d f workloadID);
    match wl with
    | Err _ => refuse 404%Z "workload not found" "workload_not_found"
    | Ok wl =>
        target ← resolveRollbackTarget workloadID targetHash targetSelector;
        match target with
        | Err err =>
            if err =s errKnownGoodNotFound
            then refuse 404%Z "No known-good config marked for this workload" "known_good_not_found"
            else refuse 500%Z "failed to resolve rollback target" "internal_error"
        | Ok None => refuse 404%Z "config not found in this workload's history" "target_not_found"
        | Ok (Some target) =>
            if bool_decide (is_Some (wl_ArchivedAt wl))
            then refuse 409%Z "workload is archived" "workload_archived"
            else if wc_Status target <>s PushStatus.PushStatusApplied
            then refuse 409%Z "rollback target must be an applied config" "target_not_applied"
            else
              _ ← resolveCurrentConfig wl;
              t ← anow e;
              let validation := buildRollbackValidation t wl target in
              let '(warnings, blockers) := splitRollbackFindings (rv_findings validation) in
              concurrent ← aq e (fun d f => GetLatestPendingOrApplyingWorkloadConfig d f workloadID);
              let running := match concurrent with Ok (Some _) => [concurrent_finding] | _ => [] end in
              let blockers := blockers ++ running in
              let ok := match blockers with [] => true | _ => false end in
              aret (inr (mkPreview target
                (if ok then validation
                 else mkValidation "invalid" false false (rv_findings validation ++ running)
                        (rv_unavailable validation))
                ok blockers warnings))
        end
    end.

(** ** Polling the outcome *)

Record rollbackReport := mkReport {
  rb_target_status : string; rb_apply_status : string; rb_terminal : bool; rb_terminal_status : string;
  rb_timed_out : bool; rb_last_known_status : string
}.

Definition settling (s : string) : bool := one_of s ["applying"; "applied"; "failed"].

(** The row of the request, the status the workload reports and the elapsed time
    decide the report. *)
Definition rollback_report (ref : rollbackRequestRef) (row : WorkloadConfig)
  (reported : option RemoteConfigStatus) (elapsed : Duration) : rollbackReport :=
  let apply := if settling (wc_Status row) then wc_Status row else "accepted" in
  let '(apply, last) :=
    match reported with
    | Some r => if (rcs_ConfigHash r =s rr_TargetHash ref) && settling (rcs_Status r)
                then (rcs_Status r, rcs_Status r) else (apply, wc_Status row)
    | None => (apply, wc_Status row)
    end in
  if (apply =s "applied") || (apply =s "failed")
  then mkReport (wc_Status row) apply true apply false last
  else if Z.ltb (rollbackTimeoutSeconds * Second) elapsed
  then mkReport (wc_Status row) "unknown" true "unknown" true last
  else mkReport (wc_Status row) apply false "" false last.

(** [ref]: the decoded request identifier, [None] when it does not decode. *)
(* src/internal/api/rollback_guided.go:343-415 handleRollbackStatus *)
Definition handleRollbackStatus (workloadID : string) (ref : option rollbackRequestRef)
  : AM (response + rollbackReport) :=
  match ref with
  | None => aret (inl (mkResponse 400 "invalid rollback request id" "invalid_request"))
  | Some ref =>
      if rr_WorkloadID ref <>s workloadID
      then aret (inl (mkResponse 400 "invalid rollback request id" "invalid_request"))
      else
        t ← anow e; fs ← faults3 e;
        history ← aq e (fun d _ => GetWorkloadConfigHistory d fs t workloadID);
        match history with
        | Err _ => aret (inl (mkResponse 500 "failed to load rollback status" "internal_error"))
        | Ok history =>
            match List.filter (fun wc => (wc_ConfigID wc =s rr_TargetHash ref) &&
                                         Z.eqb (wc_AppliedAt wc) (rr_StartedAt ref)) history with
            | [] => aret (inl (mkResponse 404 "rollback request not found" "target_not_found"))
            | row :: _ =>
                wl ← aq e (fun d f => GetWorkload d f workloadID);
                t ← anow e;
                let reported := match wl with Ok wl => wl_RemoteConfigStatus wl | Err _ => None end in
                aret (inr (rollback_report ref row reported (Sub t (rr_StartedAt ref))))
            end
        end
  end.

End Handlers.

(** ** What a rollback may push *)

Section Rollbacks.
Context `{UnicodeTables} `{TimestampColumn} {netURL : NetURL} {floatFormat : FloatFormat}
  {yamlDoc : YamlDoc} (e : aenv).

(** The workload may be rolled back: present, not archived, a collector that
    accepts configs, with no push of it in flight. *)
Definition rollback_ready (d : db) (w : string) (row : Workload) : Prop :=
  d_workloads d !! w = Some row /\ wl_ArchivedAt row = None /\
  (wl_Type row = "" \/ wl_Type row = "collector") /\ wl_AcceptsRemoteConfig row = true /\
  latest d (fun x => of_workload w x && in_status ["pending"; "submitted"; "sent"; "applying"] x) = None.

(** The body passed validation against the workload as it is stored. *)
Definition body_valid (row : Workload) (body : string) : Prop :=
  exists v, validated e body (read_workload row) v /\ rs_Valid v = true.

Lemma stored_workload d fl w wl :
  GetWorkload d fl w = Ok wl -> exists row, d_workloads d !! w = Some row /\ wl = read_workload row.
Proof.
  unfold GetWorkload. destruct fl; [|done]. destruct (d_workloads d !! w) as [row|]; [|done].
  intros [= <-]. eauto.
Qed.

Lemma not_refused row : rollback_refused (read_workload row) = None ->
  wl_ArchivedAt row = None /\ (wl_Type row = "" \/ wl_Type row = "collector") /\
  wl_AcceptsRemoteConfig row = true.
Proof.
  unfold rollback_refused. cbn. destruct (bool_decide _) eqn:E1; [done|]. reflect_bools.
  destruct ((wl_Type row <>s "") && (wl_Type row <>s "collector")) eqn:E2; [done|].
  destruct (wl_AcceptsRemoteConfig row); [|done]. intros _.
  split; [by destruct (wl_ArchivedAt row); [destruct E1; eauto|]|]. split; [|done].
  apply andb_false_iff in E2 as [E2|E2]; reflect_bools; auto.
Qed.

(** Past the check for pushes in flight. *)
Lemma wp_no_push_running {Hq : quiet e} w k Q a :
  (forall r a', same_tables a a' -> Q r a') ->
  (forall a', same_tables a a' ->
     latest (sv_db (ap_server a)) (fun x => of_workload w x &&
       in_status ["pending"; "submitted"; "sent"; "applying"] x) = None -> wp k Q a') ->
  wp (no_push_running e w k) Q a.
Proof.
  intros Hno Hk. unfold no_push_running. apply wp_bind, (wp_aq_quiet e). intros fl a1 K1.
  unfold GetLatestPendingOrApplyingWorkloadConfig, query.
  destruct fl; [|by apply wp_ret, Hno].
  destruct (latest _ _) eqn:El; cbn; [by apply wp_ret, Hno|]. by apply Hk.
Qed.

(** One push of the body, then nothing more. *)
Lemma wp_push_body {Hq : quiet e} w hash body by_ t (k : push_outcome -> AM response) Q a :
  (forall o, frame (k o)) ->
  (forall r a', ap_pushes a' = ap_pushes a \/ ap_pushes a' = ap_pushes a ++ [(w, body)] -> Q r a') ->
  wp (abind (record_and_push e w hash body by_ t) k) Q a.
Proof.
  intros Hk HQ. apply wp_bind, (wp_record_and_push e).
  - intros msg a1 [_ K1]. apply wp_frame; [done|]. intros x a2 [_ K2]. apply HQ. left. congruence.
  - intros o a1 _ K1. apply wp_frame; [done|]. intros x a2 [_ K2]. apply HQ. right. congruence.
Qed.

(** The excluded revision is the active one, when there is one. *)
Lemma wp_exclude {Hq : quiet e} row Q a :
  (forall r a', same_tables a a' ->
     (forall x, r = Ok x -> wl_ActiveConfigHash row <> "" -> x = wl_ActiveConfigHash row) -> Q r a') ->
  wp (exclude_hash e (read_workload row)) Q a.
Proof.
  intros HQ. unfold exclude_hash. cbn [wl_ActiveConfigHash read_workload].
  destruct (wl_ActiveConfigHash row =s "") eqn:E; cbn [negb]; reflect_bools.
  - apply wp_bind, (wp_aq_now_quiet e). intros fl t a1 K1. apply wp_ret, HQ; [done|]. by intros x _ Hne.
  - apply wp_ret, HQ; [apply same_tables_refl|]. by intros x [= <-].
Qed.

Lemma wp_target {Hq : quiet e} w excl Q a :
  (forall fs t a', same_tables a a' -> Q (GetRollbackTarget (sv_db (ap_server a)) fs t w excl) a') ->
  wp (rollback_target_stmt e w excl) Q a.
Proof.
  intros HQ. unfold rollback_target_stmt. apply wp_bind, (wp_now e). intros t a1 K1.
  apply wp_bind. unfold faults3, faults2, next_fault.
  apply wp_bind, wp_bind, wp_step; [done|]. intros f1 a2 K2. apply wp_bind, wp_step; [done|].
  intros f2 a3 K3. apply wp_ret, wp_bind, wp_step; [done|]. intros f3 a4 K4. apply wp_ret.
  apply (wp_aq_quiet e). intros fl a5 K5.
  assert (same_tables a a4) as K04.
  { transitivity a1; [done|]. transitivity a2; [done|]. by transitivity a3. }
  rewrite (proj2 K04). apply HQ. by transitivity a4.
Qed.

(** The hydrated record keeps the content of its revision. *)
Lemma scanned_content d t entry w hash : latest d (of_push w hash) = Some entry ->
  wc_Content (scanWorkloadConfig d t entry) = content_of d hash.
Proof.
  intros (_ & Hc & _)%latest_Some. unfold of_push in Hc. reflect_bools.
  unfold scanWorkloadConfig, PushStatus.HydratePushStatus. cbn. congruence.
Qed.


(** the default rollback, run alone, asks for a push only of the stored content of
    the rollback target the store names when the active revision is excluded, and
    only for a workload that may be rolled back and a body that validates. *)
Theorem default_rollback_pushes_target w a (Hq : quiet e) :
  let d := sv_db (ap_server a) in
  let a' := (handleRollbackWorkloadDefault e w a).1 in
  ap_pushes a' = ap_pushes a \/
  exists row target excl fs t, rollback_ready d w row /\
    GetRollbackTarget d fs t w excl = Ok (Some target) /\
    (wl_ActiveConfigHash row <> "" -> excl = wl_ActiveConfigHash row) /\
    wc_Content (rt_Config target) <> "" /\ body_valid row (wc_Content (rt_Config target)) /\
    ap_pushes a' = ap_pushes a ++ [(w, wc_Content (rt_Config target))].
Proof.
  cbv zeta. set (d := sv_db (ap_server a)).
  set (Q := fun (_ : response) a' => ap_pushes a' = ap_pushes a \/
    exists row target excl fs t, rollback_ready d w row /\
      GetRollbackTarget d fs t w excl = Ok (Some target) /\
      (wl_ActiveConfigHash row <> "" -> excl = wl_ActiveConfigHash row) /\
      wc_Content (rt_Config target) <> "" /\ body_valid row (wc_Content (rt_Config target)) /\
      ap_pushes a' = ap_pushes a ++ [(w, wc_Content (rt_Config target))]).
  change (wp (handleRollbackWorkloadDefault e w) Q a).
  assert (forall (r : response) a', same_tables a a' -> Q r a') as Hno by (intros r a' [[_ K] _]; by left).
  unfold handleRollbackWorkloadDefault. case_if; [by apply wp_ret, Hno, same_tables_refl|].
  apply wp_bind, (wp_aq_quiet e). fold d. intros fl a1 K1.
  destruct (GetWorkload d fl w) as [wl|err] eqn:Ew; [|by apply wp_ret, Hno].
  apply stored_workload in Ew as (row & Hrow & ->).
  destruct (rollback_refused _) as [r|] eqn:Er; [by apply wp_ret, Hno|]. apply not_refused in Er.
  apply (wp_no_push_running (Hq := Hq)); [intros r a2 K2; apply Hno; by transitivity a1|].
  rewrite (proj2 K1). fold d. intros a2 K2 Hl. assert (same_tables a a2) as K02 by by transitivity a1.
  apply wp_bind, (wp_exclude row). intros excl a3 K3 Hex.
  assert (same_tables a a3) as K03 by by transitivity a2.
  destruct excl as [excl|err]; [|by apply wp_ret, Hno].
  apply wp_bind, wp_target. intros fs t a4 K4. rewrite (proj2 K03). fold d.
  assert (same_tables a a4) as K04 by by transitivity a3.
  destruct (GetRollbackTarget d fs t w excl) as [[target|]|err] eqn:Et; [|by apply wp_ret, Hno..].
  case_if; [by apply wp_ret, Hno|]. reflect_bools.
  apply wp_bind, wp_validate_quiet. intros v a5 K5 Hv.
  assert (same_tables a a5) as K05 by by transitivity a4.
  case_if; [by apply wp_ret, Hno|]. reflect_bools.
  unfold push_target. apply wp_bind, (wp_now e). intros t' a6 K6.
  apply (wp_push_body (Hq := Hq)).
  - intros [msg|msg|]; [apply frame_ret..|]. apply frame_emitAudit, frame_ret.
  - intros r a7 Hp. assert (ap_pushes a6 = ap_pushes a) as K6p.
    { destruct K6 as [[_ ->] _], K05 as [[_ ->] _]. done. }
    rewrite K6p in Hp. destruct Hp as [Hp|Hp]; [by left|right].
    exists row, target, excl, fs, t. destruct Er as (Ha & Hty & Hac). split; [by repeat split|].
    split; [done|]. split; [intros Hne; by apply (Hex excl)|]. split; [done|]. split; [by exists v|done].
Qed.

End Rollbacks.

(** ** The preview tells what the rollback will do *)

Section Preview.
Context `{UnicodeTables} `{TimestampColumn} {netURL : NetURL} {floatFormat : FloatFormat}
  {yamlDoc : YamlDoc} (e : aenv) {Hq : quiet e}.

(** Both requests run alone, at one instant, on a working database, without a
    collector binary and without a minimum version. *)
Class plain_setting : Prop := {
  pl_db : forall n, en_fault (ae_server e) n = IoOk;
  pl_clock : forall n, en_clock (ae_server e) n = en_clock (ae_server e) 0;
  pl_opamp : ae_opamp e = true;
  pl_binary : op_Enabled (RuntimeOptionsFromEnv (ae_getenv e)) = false;
  pl_minimum : TrimSpace (op_MinimumVersion (RuntimeOptionsFromEnv (ae_getenv e))) = ""
}.
Context {Hpl : plain_setting}.
Let t0 : Time := en_clock (ae_server e) 0.

Lemma wp_aq_plain {A} (q : db -> io -> A) Q a :
  (forall a', same_tables a a' -> Q (q (sv_db (ap_server a)) IoOk) a') -> wp (aq e q) Q a.
Proof.
  intros HQ. unfold aq, others, lift, dbq, abind, wp. cbn. rewrite alone_here, pl_db. cbn.
  apply HQ. by repeat split.
Qed.
Lemma wp_now_plain Q a : (forall a', same_tables a a' -> Q t0 a') -> wp (anow e) Q a.
Proof. intros HQ. unfold anow, lift, now, wp. cbn. rewrite pl_clock. apply HQ. by repeat split. Qed.
Lemma wp_aq_now_plain {A} (q : db -> io -> Time -> A) Q a :
  (forall a', same_tables a a' -> Q (q (sv_db (ap_server a)) IoOk t0) a') -> wp (aq_now e q) Q a.
Proof.
  intros HQ. unfold aq_now. apply wp_bind, wp_now_plain. intros a1 K1.
  apply wp_aq_plain. intros a2 K2. rewrite (proj2 K1). apply HQ. by transitivity a1.
Qed.

(** Without a binary and a minimum version the two validations agree. *)
Lemma validations_agree body wl v : validated e body wl v ->
  rs_Valid v = true <-> rs_Errors (Validate t0 body (wl_AvailableComponents wl)) = [].
Proof.
  intros (rt & t & ->). set (opts := runtimeOptionsForWorkload e wl).
  assert (rs_Errors (Validate t0 body (wl_AvailableComponents wl)) =
    rs_Errors (validateStatic t0 body (wl_AvailableComponents wl) zero_options)) as ->.
  { unfold Validate, Validator.finalize. by destruct (rs_Errors (validateStatic _ _ _ _)); [case_if|]. }
  rewrite static_errors by done. rewrite <- (static_errors t body _ opts) by apply pl_minimum.
  unfold ValidateWithRuntime. destruct (rs_Errors (validateStatic t body _ opts)) as [|x l] eqn:E.
  - rewrite finalize_valid, collect_errors. cbn [add_check rs_Errors]. rewrite E.
    split; [done|]. intros _. split; [done|]. intros m Hm. unfold runRuntimeCheck in Hm.
    change (op_Enabled opts) with (op_Enabled (RuntimeOptionsFromEnv (ae_getenv e))) in Hm.
    rewrite pl_binary in Hm. cbn in Hm.
    apply list_elem_of_singleton in Hm as ->. done.
  - rewrite finalize_valid. cbn [add_check rs_Errors]. by rewrite E.
Qed.

(** What both look at: the revision, the workload, the pushes in flight. *)
Definition admissible (d : db) (w h : string) : Prop :=
  exists row entry, latest d (of_push w h) = Some entry /\
    wc_Status (scanWorkloadConfig d t0 entry) = PushStatus.PushStatusApplied /\
    content_of d h <> "" /\ rollback_ready d w row /\
    rs_Errors (Validate t0 (content_of d h) (wl_AvailableComponents row)) = [].

Lemma not_refused_iff row : rollback_refused (read_workload row) = None <->
  wl_ArchivedAt row = None /\ (wl_Type row = "" \/ wl_Type row = "collector") /\
  wl_AcceptsRemoteConfig row = true.
Proof.
  split; [apply not_refused|]. intros (Ha & Ht & Hc). unfold rollback_refused. cbn. rewrite Ha, Hc. cbn.
  by destruct Ht as [->| ->].
Qed.

(** The rollback reached its push: it asked for it, or could not record it. *)
Definition reached (a : api) (r : response) (a' : api) : Prop :=
  ap_pushes a' <> ap_pushes a \/ rp_code r = "record_push_failed".

Lemma reached_push w h wl wc a a1 :
  ap_pushes a1 = ap_pushes a -> wp (push_revision e w h wl wc) (reached a) a1.
Proof.
  intros Kp. unfold push_revision. apply wp_bind, wp_now_plain. intros a2 [[_ K2] _].
  apply wp_bind, (wp_record_and_push e).
  - intros msg a3 _. apply wp_ret. by right.
  - intros o a3 _ K3. apply wp_frame.
    + destruct o as [msg|msg|]; [apply frame_ret..|].
      apply frame_bind; [|intros c; apply frame_emitAudit, frame_ret].
      apply frame_if; [|apply frame_ret]. apply frame_bind; [|intros; apply frame_ret].
      unfold resolveCurrentConfig. apply frame_if; [apply frame_ret|].
      apply frame_bind; [apply (frame_aq_now e)|intros; apply frame_ret].
    + intros r a4 [_ K4]. left. rewrite K4, K3, K2, Kp. intros Heq.
      apply (f_equal length) in Heq. rewrite length_app in Heq. cbn in Heq. lia.
Qed.

(** The rollback reaches its push exactly for admissible revisions. *)
Lemma rollback_reaches_push w h a :
  wp (handleRollbackWorkloadConfig e w h)
    (fun r a' => reached a r a' <-> admissible (sv_db (ap_server a)) w h) a.
Proof.
  set (d := sv_db (ap_server a)).
  assert (forall r a', same_tables a a' -> rp_code r <> "record_push_failed" -> ~ admissible d w h ->
    reached a r a' <-> admissible d w h) as Hno.
  { intros r a' [[_ K] _] Hc Hn. split; [|done]. intros [Hx|Hx]; by destruct Hx. }
  unfold handleRollbackWorkloadConfig. rewrite pl_opamp. cbn [negb].
  apply wp_bind, wp_aq_now_plain. fold d. intros a1 K1.
  unfold GetWorkloadConfigByHash, GetLatestWorkloadConfigByHash, getOneWorkloadConfig, query.
  destruct (latest d (of_push w h)) as [entry|] eqn:El; cbn [fmap option_fmap option_map].
  2: { apply wp_ret, Hno; [done|done|]. intros (row & x & Hx & _). congruence. }
  rewrite (scanned_content d t0 entry w h El).
  case_if; [apply wp_ret, Hno; [done|done|]; intros (row & x & Hx & Hs & _); reflect_bools; congruence|].
  case_if; [apply wp_ret, Hno; [done|done|]; intros (row & x & _ & _ & Hs & _); reflect_bools; congruence|].
  reflect_bools. apply wp_bind, wp_aq_plain. rewrite (proj2 K1). fold d. intros a2 K2.
  assert (same_tables a a2) as K02 by by transitivity a1. unfold GetWorkload.
  destruct (d_workloads d !! w) as [row|] eqn:Erow.
  2: { apply wp_ret, Hno; [done|done|]. intros (row & x & _ & _ & _ & (Hr & _) & _). congruence. }
  destruct (rollback_refused (read_workload row)) as [r|] eqn:Er.
  { apply wp_ret, Hno; [done| |].
    - unfold rollback_refused in Er. by run Er.
    - intros (row' & x & _ & _ & _ & (Hr & Ha & Ht & Hc & _) & _).
      assert (row' = row) as -> by congruence.
      rewrite (proj2 (not_refused_iff row)) in Er; done. }
  apply not_refused_iff in Er as (Ha & Ht & Hc). unfold no_push_running.
  apply wp_bind, wp_aq_plain. rewrite (proj2 K02). fold d. intros a3 K3.
  assert (same_tables a a3) as K03 by by transitivity a2.
  unfold GetLatestPendingOrApplyingWorkloadConfig, query.
  destruct (latest d (fun x => of_workload w x && _)) eqn:Erun; cbn [fmap option_fmap option_map].
  { apply wp_ret, Hno; [done|done|]. intros (row' & x & _ & _ & _ & (_ & _ & _ & _ & Hl) & _). congruence. }
  apply wp_bind, wp_validate_quiet. intros v a4 K4 Hv. apply validations_agree in Hv.
  assert (same_tables a a4) as K04 by by transitivity a3.
  case_if; reflect_bools.
  - apply wp_bind, wp_now_plain. intros a5 K5. apply wp_ret, Hno; [by transitivity a4| |].
    + unfold rejected_target. by destruct (rv_unavailable _); [destruct (rs_Errors v); [|case_if]|].
    + intros (row' & x & _ & _ & _ & (Hr & _) & Herr). assert (row' = row) as -> by congruence.
      cbn in Hv. rewrite (proj2 Hv Herr) in E1. done.
  - assert (admissible d w h) as Hadm.
    { exists row, entry. split; [done|]. split; [done|]. split; [done|].
      split; [by repeat split|]. by apply Hv. }
    eapply wp_mono; [|apply (reached_push w h _ _ a a4), K04]. intros r a5 Hr. by split.
Qed.

(** The blockers of a revision: none exactly when the workload takes it and it
    validates. *)
Lemma no_blockers row wc :
  (splitRollbackFindings (rv_findings (buildRollbackValidation t0 (read_workload row) wc))).2 = [] <->
  (wl_Type row = "" \/ wl_Type row = "collector") /\ wl_AcceptsRemoteConfig row = true /\
  wc_Content wc <> "" /\ rs_Errors (Validate t0 (wc_Content wc) (wl_AvailableComponents row)) = [].
Proof.
  unfold buildRollbackValidation, splitRollbackFindings.
  destruct (validation_status false _) as [st ok]. cbn [rv_findings snd].
  rewrite !List.filter_app, !app_nil. unfold target_findings. cbn [read_workload wl_Type
    wl_AcceptsRemoteConfig wl_AvailableComponents].
  assert (forall l : list Error, List.filter rf_Blocking (map (fun err =>
    mkFinding (er_Code err) "error" (er_Message err) (er_Path err) true (validationSource (er_Code err))) l) = []
    <-> l = []) as Hall by (intros [|x l]; cbn; by split).
  assert ((wl_Type row = "" \/ wl_Type row = "collector") <->
    (wl_Type row <>s "") && (wl_Type row <>s "collector") = false) as ->.
  { rewrite andb_false_iff, !negb_false_iff, !eqb_string_true. done. }
  destruct ((wl_Type row <>s "") && _), (wl_AcceptsRemoteConfig row), (wc_Content wc =s "") eqn:Ec;
    reflect_bools; cbn; rewrite ?Hall; intuition done.
Qed.

Lemma wp_current wl Q a :
  (forall x a', same_tables a a' -> Q x a') -> wp (resolveCurrentConfig e wl) Q a.
Proof.
  intros HQ. unfold resolveCurrentConfig. case_if; [apply wp_ret, HQ, same_tables_refl|].
  apply wp_bind, wp_aq_now_plain. intros a1 K1. by apply wp_ret, HQ.
Qed.

Lemma preview_admissible w h a : TrimSpace h = h -> h <> "" ->
  wp (handlePrepareRollback e w h "")
    (fun r _ => (exists pv, r = inr pv /\ pv_can_submit pv = true) <-> admissible (sv_db (ap_server a)) w h) a.
Proof.
  intros Htrim Hne. set (d := sv_db (ap_server a)).
  assert (forall r : response + preview, (forall pv, r = inr pv -> pv_can_submit pv = false) ->
    ~ admissible d w h -> (exists pv, r = inr pv /\ pv_can_submit pv = true) <-> admissible d w h) as Hno.
  { intros r Hr Hn. split; [|done]. intros (pv & Hpv & Hc). rewrite (Hr pv Hpv) in Hc. done. }
  unfold handlePrepareRollback. rewrite Htrim. change (TrimSpace "") with "".
  assert ((h =s "") = false) as Hh by by apply eqb_string_false. rewrite Hh. cbn [Bool.eqb String.eqb negb andb].
  apply wp_bind, wp_aq_plain. fold d. intros a1 K1. unfold GetWorkload.
  destruct (d_workloads d !! w) as [row|] eqn:Erow.
  2: { apply wp_ret, Hno; [done|]. intros (row & x & _ & _ & _ & (Hr & _) & _). congruence. }
  apply wp_bind. unfold resolveRollbackTarget. cbn [String.eqb].
  apply wp_aq_now_plain. rewrite (proj2 K1). fold d. intros a2 K2.
  assert (same_tables a a2) as K02 by by transitivity a1.
  unfold GetWorkloadConfigByHash, GetLatestWorkloadConfigByHash, getOneWorkloadConfig, query.
  destruct (latest d (of_push w h)) as [entry|] eqn:El; cbn [fmap option_fmap option_map].
  2: { apply wp_ret, Hno; [done|]. intros (row' & x & Hx & _). congruence. }
  pose proof (scanned_content d t0 entry w h El) as Hcontent.
  set (wc := scanWorkloadConfig d t0 entry) in *.
  case_if; [apply wp_ret, Hno; [done|]; intros (row' & x & _ & _ & _ & (Hr & Ha & _) & _);
    reflect_bools; assert (row' = row) as -> by congruence; cbn in E; rewrite Ha in E; by destruct E|].
  case_if; [apply wp_ret, Hno; [done|]; intros (row' & x & Hx & Hs & _); reflect_bools;
    assert (x = entry) as -> by congruence; done|].
  reflect_bools. cbn in E.
  apply wp_bind, wp_current. intros cur a3 K3. apply wp_bind, wp_now_plain. intros a4 K4.
  pose proof (no_blockers row wc) as Hb.
  destruct (splitRollbackFindings (rv_findings (buildRollbackValidation t0 (read_workload row) wc)))
    as [warnings blockers] eqn:Esplit. cbn [snd] in Hb.
  assert (same_tables a a4) as K04 by (transitivity a2; [done|by transitivity a3]).
  apply wp_bind, wp_aq_plain. rewrite (proj2 K04). fold d. intros a5 K5. apply wp_ret.
  unfold GetLatestPendingOrApplyingWorkloadConfig, query.
  destruct (latest d (fun x => of_workload w x && _)) as [run|] eqn:Erun; cbn [fmap option_fmap option_map].
  { apply Hno; [intros pv [= <-]; cbn; by destruct blockers|].
    intros (row' & x & _ & _ & _ & (_ & _ & _ & _ & Hl) & _). congruence. }
  rewrite app_nil_r. rewrite Hcontent in Hb. destruct blockers as [|b l].
  - destruct (proj1 Hb eq_refl) as (Ht & Hc & Hct & Hv). split; [intros _|intros _; eauto].
    exists row, entry. split; [done|]. split; [done|]. split; [done|].
    split; [|done]. repeat split; try done. destruct (wl_ArchivedAt row); [by destruct E; eauto|done].
  - apply Hno; [by intros pv [= <-]|].
    intros (row' & x & _ & _ & Hct & (Hr & _ & Ht & Hc & _) & Hv).
    assert (row' = row) as -> by congruence. by assert (b :: l = []) as Hx by (by apply Hb).
Qed.

(** the preview of a rollback is reliable. Evaluated at one instant on the same
    state of a working database, without a collector binary and minimum version,
    it offers the submission exactly when the rollback request would get through
    all of its checks to the push. *)
Theorem preview_predicts_rollback w h a (Htrim : TrimSpace h = h) (Hne : h <> "") :
  (exists pv, (handlePrepareRollback e w h "" a).2 = inr pv /\ pv_can_submit pv = true) <->
  (ap_pushes (handleRollbackWorkloadConfig e w h a).1 <> ap_pushes a \/
   rp_code (handleRollbackWorkloadConfig e w h a).2 = "record_push_failed").
Proof.
  transitivity (admissible (sv_db (ap_server a)) w h).
  - exact (preview_admissible w h a Htrim Hne).
  - symmetry. exact (rollback_reaches_push w h a).
Qed.

End Preview.

(** ** Witnesses and observations *)

#[local] Existing Instance byte_tables.
#[local] Existing Instance microseconds.
#[local] Existing Instance one_host.
#[local] Existing Instance no_format.
#[local] Existing Instance Approvals.two_docs.

(** A workload with one applied revision. *)
Definition applied_row : push_row := mkPushRow "applied" None None None "" None None None "" [].
Definition history_db (version : string) : db :=
  mkDb {["w" := mkWorkload "w" "host" ∅ "api" "collector" version "connected" 1000 ∅ None "new" None None None
                  true None None]} ∅ [] 1
    {["c1" := sample_config "c1" "good"]} {[("w", "c1", 5000%Z) := applied_row]} ∅ ∅.
Definition history_api (version : string) : api :=
  mkApi (mkServer (history_db version) (OpampTokens.mkDB ∅ ∅) NewInstanceRegistry
    Grace.NewGraceController ∅ ∅ false [] [] 0) ∅ [] [].

(** One instant, and optionally a minimum collector version. *)
Definition still (minimum : string) : aenv :=
  let e := Approvals.alone None in
  mkAenv (mkEnv true false 0 (fun _ => 1000000%Z) (fun _ => IoOk) (fun _ => OpampTokens.no_faults)
            (fun _ => true) (fun _ => None) (fun _ => ReplySent) (fun _ => true) (fun _ s => s))
    true (ae_user e) (fun k => if k =s "OTELCOL_MIN_RUNTIME_VERSION" then minimum else "") (ae_newID e)
    (ae_runtime e) (ae_exportersFirst e) (ae_auditFails e) (fun _ a => a).

Lemma still_quiet m : quiet (still m).
Proof. split. done. Qed.
Lemma still_plain : plain_setting (still "").
Proof. split; try done; vm_compute; reflexivity. Qed.


Lemma default_rollback_pushes_target_witness :
  let a := history_api "" in
  ap_pushes (handleRollbackWorkloadDefault (still "") "w" a).1 = [("w", "good")] /\
  exists target fs t, GetRollbackTarget (history_db "") fs t "w" "new" = Ok (Some target).
Proof.
  destruct (default_rollback_pushes_target (still "") "w" (history_api "") (still_quiet ""))
    as [Hsame|(row & target & excl & fs & t & Hr & Ht & Hex & _)].
  - exfalso. revert Hsame. vm_compute. discriminate.
  - split; [vm_compute; reflexivity|]. exists target, fs, t.
    assert (excl = "new") as <-; [|exact Ht].
    destruct Hr as [Hr _]. injection Hr as <-. by apply Hex.
Defined.

Lemma preview_predicts_rollback_witness :
  let a := history_api "" in
  exists pv, (handlePrepareRollback (still "") "w" "c1" "" a).2 = inr pv /\ pv_can_submit pv = true.
Proof.
  apply (preview_predicts_rollback (still "") (Hq := still_quiet "") (Hpl := still_plain) "w" "c1"
    (history_api "")); [reflexivity|discriminate|].
  left. vm_compute. discriminate.
Defined.

(** Clearing a known-good mark that does not exist changes nothing, but when the
    audit sink fails the answer says that a side effect was applied. *)
Definition deaf : aenv :=
  let e := still "" in
  mkAenv (ae_server e) true (ae_user e) (ae_getenv e) (ae_newID e) (ae_runtime e) (ae_exportersFirst e)
    (fun _ => true) (ae_other e).
Lemma nothing_cleared_reported_applied :
  let (a, r) := handleClearWorkloadKnownGood deaf "w" (history_api "") in
  d_known_good (sv_db (ap_server a)) = d_known_good (history_db "") /\
  r = mkResponse 503 "audit unavailable" sideEffectApplied.
Proof. vm_compute. done. Qed.

(** With a minimum collector version the preview offers a rollback that the
    rollback request then refuses: only the latter checks the version. *)
Lemma preview_ignores_minimum_version :
  let a := history_api "0.90.0" in
  match (handlePrepareRollback (still "0.100.0") "w" "c1" "" a).2 with
  | inr pv => pv_can_submit pv = true
  | inl _ => False
  end /\
  (handleRollbackWorkloadConfig (still "0.100.0") "w" "c1" a).2 =
    mkResponse 400 "configuration failed validation" "validation_failed".
Proof. vm_compute. done. Qed.

End GuidedRollback.
