(* ===== verification/Fleet.v ===== *)
(** * Reads over the fleet (internal/api/workloads.go, internal/store/workloads.go)

    The answer of a handler that returns a body, the list of workloads with the
    push each of them is at, and what the dashboards built on it share. *)

From S2P Require Import Prelude GoString Models PushStatus Registry Sha256 Alerts.
From S2P Require Import Validator Yaml ConfigPolicy Access Store PushHistory OpampServer Api.
Import Registry Validator Yaml ConfigPolicy Access Store.Store PushHistory OpampServer Api.

Module Fleet.

(** An error answer, or a status with a body. *)
Inductive reply (A : Type) :=
| Refused (r : response)
| Replied (status : Z) (body : A).
Arguments Refused {A} _.
Arguments Replied {A} _ _.

Definition refuse {A} (status : Z) (text : string) : reply A := Refused (mkResponse status text "").

Section Fleet.
Context {collation : Alerts.Collation} `{UnicodeTables} `{TimestampColumn} (e : aenv).
Local Open Scope api_scope.

Definition visible (includeArchived : bool) (w : Workload) : bool :=
  includeArchived || match wl_ArchivedAt w with None => true | Some _ => false end.

(* src/internal/store/workloads.go:175-187 ListWorkloads *)
Definition ListWorkloads (d : db) (fault : io) (includeArchived : bool) : result (list Workload) :=
  query fault (sort_by (less_of (by_key wl_DisplayName Alerts.coll))
    (map read_workload (List.filter (visible includeArchived) (map_to_list (d_workloads d)).*2))).

Definition set_current_push (p : option WorkloadConfig) (w : Workload) : Workload :=
  mkWorkload (wl_ID w) (wl_FingerprintSource w) (wl_FingerprintKeys w) (wl_DisplayName w)
    (wl_Type w) (wl_Version w) (wl_Status w) (wl_LastSeenAt w) (wl_Labels w) (wl_ActiveConfigID w)
    (wl_ActiveConfigHash w) (wl_RemoteConfigStatus w) p (wl_AvailableComponents w)
    (wl_AcceptsRemoteConfig w) (wl_RetentionUntil w) (wl_ArchivedAt w).

(* src/internal/api/workloads.go:58-65 hydrateCurrentConfigPush *)
Definition hydrateCurrentConfigPush (w : Workload) : AM Workload :=
  r ← aq_now e (fun d f t => GetLatestWorkloadConfig d f t (wl_ID w));
  aret match r with
       | Ok (Some push) => set_current_push (Some push) w
       | _ => w
       end.

Fixpoint each {A B} (f : A -> AM B) (l : list A) : AM (list B) :=
  match l with
  | [] => aret []
  | x :: rest => y ← f x; ys ← each f rest; aret (y :: ys)
  end.

(* src/internal/api/workloads.go:30-41 handleListWorkloads *)
Definition handleListWorkloads (includeArchived : string) : AM (reply (list Workload)) :=
  r ← aq e (fun d f => ListWorkloads d f (includeArchived =s "true"));
  match r with
  | Err _ => aret (refuse 500 "failed to list workloads")
  | Ok items => items ← each hydrateCurrentConfigPush items; aret (Replied 200 items)
  end.

(** ** Lemmas *)

Lemma each_length {A B} (f : A -> AM B) l a : length (each f l a).2 = length l.
Proof.
  revert a. induction l as [|x l IH]; intros a; [done|].
  cbn. unfold abind. destruct (f x a) as [a' y]. specialize (IH a').
  destruct (each f l a') as [a'' ys]. cbn in *. by rewrite IH.
Qed.

Lemma each_Forall2 {A B} (R : A -> B -> Prop) (f : A -> AM B) l a :
  (forall x a, R x (f x a).2) -> Forall2 R l (each f l a).2.
Proof.
  intros Hf. revert a. induction l as [|x l IH]; intros a; [constructor|].
  cbn. unfold abind. pose proof (Hf x a). destruct (f x a) as [a' y]. specialize (IH a').
  destruct (each f l a') as [a'' ys]. by constructor.
Qed.

(** The list holds exactly the visible rows, each once. *)
Lemma ListWorkloads_rows d includeArchived l :
  ListWorkloads d IoOk includeArchived = Ok l ->
  l ≡ₚ map read_workload (List.filter (visible includeArchived) (map_to_list (d_workloads d)).*2).
Proof. intros [= <-]. apply sort_by_perm. Qed.

Lemma ListWorkloads_elem d fault includeArchived l w :
  ListWorkloads d fault includeArchived = Ok l -> w ∈ l ->
  exists id row, d_workloads d !! id = Some row /\ visible includeArchived row = true /\
                 w = read_workload row.
Proof.
  destruct fault; [|done]. intros Hl%ListWorkloads_rows. rewrite Hl, list_elem_of_In, in_map_iff.
  intros (row & <- & [Hin Hv]%filter_In). apply list_elem_of_In in Hin.
  apply list_elem_of_fmap in Hin as ([id row'] & -> & Hin%elem_of_map_to_list). eauto.
Qed.

End Fleet.
End Fleet.
