(* ===== verification/PushPreview.v ===== *)
(** * Push groups and the preview of a push (internal/api/pushes.go)

    Saved groups and ad-hoc selectors, the matching of workloads, the bucket each
    target falls into, and the three handlers. The theorems say that the preview
    lists exactly the matching workloads and counts them faithfully, and that an
    agent cannot talk itself into a saved group. *)

From S2P Require Import Prelude GoString Models PushStatus Registry Sha256 Alerts.
From S2P Require Import Validator Yaml ConfigPolicy Access Store PushHistory OpampServer.
From S2P Require Import OpampSafety Api Fleet.
Import Registry Validator Yaml ConfigPolicy Access Store.Store PushHistory OpampServer OpampSafety Api
  Fleet.

Module PushPreview.

(* src/internal/api/pushes.go:15-20 pushGroupSelector *)
Record pushGroupSelector := mkSelector {
  ps_MatchLabels : gmap string string; ps_Types : list string; ps_Versions : list string;
  ps_Capabilities : list string
}.

(* src/internal/api/pushes.go:22-27 pushGroup *)
Record pushGroup := mkGroup {
  pg_ID : string; pg_Name : string; pg_Description : string; pg_Selector : pushGroupSelector
}.

(* src/internal/api/pushes.go:29-54 savedPushGroups *)
Definition savedPushGroups : list pushGroup :=
  [mkGroup "prod-eu" "Production EU collectors" "Production collectors in the EU cluster"
     (mkSelector {["cluster" := "prod-eu"; "env" := "prod"]} ["collector"] [] []);
   mkGroup "staging" "Staging collectors" "Collectors serving staging environments"
     (mkSelector {["env" := "staging"]} ["collector"] [] []);
   mkGroup "edge" "Edge collectors" "Collectors deployed at the edge tier"
     (mkSelector {["tier" := "edge"]} ["collector"] [] []);
   mkGroup "payments" "Payments collectors" "Production payment pipeline collectors"
     (mkSelector {["team" := "payments"; "env" := "prod"]} ["collector"] [] [])].

(* src/internal/api/pushes.go:56-63 pushPreviewRequest *)
Record pushPreviewRequest := mkPreviewRequest {
  pq_GroupID : string; pq_Selector : option pushGroupSelector; pq_ConfigContent : string;
  pq_ConfigID : string; pq_YAML : string
}.

(* src/internal/api/pushes.go:65-70 pushPreviewBreakdown *)
Record pushPreviewBreakdown := mkBreakdown {
  pb_RemoteConfigCapable : Z; pb_ReadOnly : Z; pb_Incompatible : Z; pb_Offline : Z
}.

(* src/internal/api/pushes.go:72-82 pushPreviewTarget *)
Record pushPreviewTarget := mkPreviewTarget {
  pt_WorkloadID : string; pt_DisplayName : string; pt_Type : string; pt_Version : string;
  pt_Status : string; pt_Bucket : string; pt_Reason : string; pt_AcceptsRemoteConfig : bool;
  pt_LastSeenUnix : Z
}.

(* src/internal/api/pushes.go:84-91 pushPreviewResponse *)
Record pushPreviewResponse := mkPreviewResponse {
  pp_GroupID : string; pp_SelectorSource : string; pp_Selector : pushGroupSelector;
  pp_TargetedCount : Z; pp_Breakdown : pushPreviewBreakdown; pp_Targets : list pushPreviewTarget
}.

(* src/internal/api/pushes.go:299-306 pushPreviewContainsString *)
Fixpoint pushPreviewContainsString (values : list string) (want : string) : bool :=
  match values with
  | [] => false
  | value :: rest => if value =s want then true else pushPreviewContainsString rest want
  end.

(* src/internal/api/pushes.go:281-297 workloadHasPushCapability *)
Definition workloadHasPushCapability (w : Workload) (capability : string) : bool :=
  if one_of capability ["remote_config"; "remote_config_capable"; "push_config"]
  then wl_AcceptsRemoteConfig w
  else if capability =s "report_config" then wl_Type w =s "collector"
  else match wl_AvailableComponents w with
       | None => false
       | Some available =>
           existsb (fun components => pushPreviewContainsString components capability)
             (map_to_list (ac_Components available)).*2
       end.

(** One entry of [selector.MatchLabels]. *)
Definition label_matches (w : Workload) (useTrustedLabels : bool) (key want : string) : bool :=
  if negb useTrustedLabels && HasPrefix key TrustedSelectorLabelPrefix then false
  else default "" (wl_Labels w !! (if useTrustedLabels then TrustedSelectorLabelPrefix +:+ key else key))
       =s want.

(** A guard of the form [len(l) > 0 && !contains(l, x)]. *)
Definition allows (l : list string) (x : string) : bool :=
  match l with [] => true | _ => pushPreviewContainsString l x end.

(* src/internal/api/pushes.go:218-242 matchesPushSelector *)
Definition matchesPushSelector (w : Workload) (selector : pushGroupSelector) (useTrustedLabels : bool)
  : bool :=
  if negb (forallb (fun kv => label_matches w useTrustedLabels kv.1 kv.2)
             (map_to_list (ps_MatchLabels selector))) then false
  else if negb (allows (ps_Types selector) (wl_Type w)) then false
  else if negb (allows (ps_Versions selector) (wl_Version w)) then false
  else forallb (workloadHasPushCapability w) (ps_Capabilities selector).

(* src/internal/api/pushes.go:207-216 filterPushPreviewTargets *)
Definition filterPushPreviewTargets (workloads : list Workload) (selector : pushGroupSelector)
  (useTrustedLabels : bool) : list Workload :=
  sort_by (fun a b => wl_DisplayName a <s wl_DisplayName b)
    (List.filter (fun w => matchesPushSelector w selector useTrustedLabels) workloads).

(** [t.UTC().Unix()]: seconds since January 1, 1970. *)
Definition Unix (t : Time) : Z := (t / Second - 62135596800)%Z.

Section Preview.
Context {yamlDoc : YamlDoc}.

(** The clock only stamps the validation result, which is dropped. *)
(* src/internal/api/pushes.go:244-279 classifyPushPreviewTarget *)
Definition classifyPushPreviewTarget (now : Time) (w : Workload) (configContent : string)
  : pushPreviewTarget :=
  let target bucket reason :=
    mkPreviewTarget (wl_ID w) (wl_DisplayName w) (wl_Type w) (wl_Version w) (wl_Status w) bucket reason
      (wl_AcceptsRemoteConfig w) (if IsZero (wl_LastSeenAt w) then 0 else Unix (wl_LastSeenAt w)) in
  if wl_Status w =s "disconnected" then target "offline" "workload is not connected"
  else if (wl_Type w <>s "collector") || negb (wl_AcceptsRemoteConfig w)
  then target "read_only" "workload does not accept remote config"
  else if Nat.ltb 0 (String.length configContent) then
    let result := Validate now configContent (wl_AvailableComponents w) in
    if negb (rs_Valid result)
    then target "incompatible" match rs_Errors result with
                               | err :: _ => er_Message err
                               | [] => "configuration failed validation"
                               end
    else target "remote_config_capable" ""
  else target "remote_config_capable" "".

(** The [switch] over the bucket of one target. *)
Definition count_bucket (b : pushPreviewBreakdown) (t : pushPreviewTarget) : pushPreviewBreakdown :=
  let '(mkBreakdown c r i o) := b in
  if pt_Bucket t =s "remote_config_capable" then mkBreakdown (c + 1) r i o
  else if pt_Bucket t =s "read_only" then mkBreakdown c (r + 1) i o
  else if pt_Bucket t =s "incompatible" then mkBreakdown c r (i + 1) o
  else if pt_Bucket t =s "offline" then mkBreakdown c r i (o + 1)
  else b.

(* src/internal/api/pushes.go:176-205 buildPushPreview *)
Definition buildPushPreview (now : Time) (groupID : string) (selector : pushGroupSelector)
  (workloads : list Workload) (configContent : string) : pushPreviewResponse :=
  let useTrustedLabels := groupID <>s "" in
  let targets := filterPushPreviewTargets workloads selector useTrustedLabels in
  let classified := map (fun w => classifyPushPreviewTarget now w configContent) targets in
  mkPreviewResponse groupID (if useTrustedLabels then "trusted_labels" else "collector_labels") selector
    (Z.of_nat (length targets)) (foldl count_bucket (mkBreakdown 0 0 0 0) classified) classified.

(* src/internal/api/pushes.go:163-174 resolvePushPreviewSelector *)
Definition resolvePushPreviewSelector (req : pushPreviewRequest)
  : option pushGroupSelector * string * bool :=
  if pq_GroupID req =s "" then (pq_Selector req, "", true)
  else match List.find (fun g => pg_ID g =s pq_GroupID req) savedPushGroups with
       | Some group => (Some (pg_Selector group), pg_ID group, true)
       | None => (None, "", false)
       end.

(** ** Handlers *)

Context {collation : Alerts.Collation} `{UnicodeTables} `{TimestampColumn} (e : aenv).
Local Open Scope api_scope.

(* src/internal/api/pushes.go:96-112 handleListPushActivity *)
Definition handleListPushActivity (window : string) : AM (reply (list PushActivityPoint)) :=
  let window := if window =s "" then "7d" else window in
  if window <>s "7d" then aret (refuse 400 "unsupported window; only 7d is supported")
  else
    points ← aq_now e (fun d f t => GetPushActivity d f t 7);
    aret match points with
         | Err _ => refuse 500 "failed to compute push activity"
         | Ok l => Replied 200 l
         end.

(* src/internal/api/pushes.go:114-116 handleListPushGroups *)
Definition handleListPushGroups : AM (reply (list pushGroup)) := aret (Replied 200 savedPushGroups).

Definition preview_content (req : pushPreviewRequest) : AM (reply pushPreviewResponse + string) :=
  let configContent := if pq_ConfigContent req =s "" then pq_YAML req else pq_ConfigContent req in
  if (configContent =s "") && (pq_ConfigID req <>s "") then
    cfg ← aq e (fun d f => GetConfig d f (pq_ConfigID req));
    aret match cfg with
         | Err err => inl (if err =s ErrNoRows then refuse 404 "config not found"
                           else refuse 500 "failed to load config")
         | Ok c => inr (cf_Content c)
         end
  else aret (inr configContent).

(* src/internal/api/pushes.go:118-161 handlePreviewPush *)
Definition handlePreviewPush (body : option pushPreviewRequest) : AM (reply pushPreviewResponse) :=
  match body with
  | None => aret (refuse 400 "invalid JSON body")
  | Some req =>
      match resolvePushPreviewSelector req with
      | (_, _, false) => aret (refuse 404 "push group not found")
      | (None, _, true) => aret (refuse 400 "group_id or selector is required")
      | (Some selector, groupID, true) =>
          content ← preview_content req;
          match content with
          | inl r => aret r
          | inr configContent =>
              ws ← aq e (fun d f => ListWorkloads d f false);
              match ws with
              | Err _ => aret (refuse 500 "failed to list workloads")
              | Ok workloads =>
                  now ← anow e;
                  aret (Replied 200 (buildPushPreview now groupID selector workloads configContent))
              end
          end
      end
  end.

End Preview.

(** ** Matching *)

Lemma pushPreviewContainsString_spec values want :
  pushPreviewContainsString values want = true <-> want ∈ values.
Proof.
  induction values as [|v l IH]; cbn; [split; [done|by intros ?%elem_of_nil]|].
  rewrite elem_of_cons. destruct (v =s want) eqn:E; reflect_bools.
  - by split; [left|].
  - rewrite IH. split; [by right|]. by intros [->|].
Qed.

Lemma allows_spec l x : allows l x = true <-> l = [] \/ x ∈ l.
Proof.
  destruct l as [|y l]; [by split; [left|]|]. unfold allows. rewrite pushPreviewContainsString_spec.
  split; [by right|]. by intros [|].
Qed.

Lemma forallb_labels (f : string -> string -> bool) (m : gmap string string) :
  forallb (fun kv => f kv.1 kv.2) (map_to_list m) = true <-> forall k x, m !! k = Some x -> f k x = true.
Proof.
  rewrite forallb_forall. split.
  - intros Hf k x Hx%elem_of_map_to_list. apply (Hf (k, x)). by apply list_elem_of_In.
  - intros Hf [k x] Hin%list_elem_of_In. apply Hf. by apply elem_of_map_to_list.
Qed.

Lemma trusted_prefixed key : HasPrefix (TrustedSelectorLabelPrefix +:+ key) TrustedSelectorLabelPrefix = true.
Proof. apply HasPrefix_app. Qed.

(** What a selector asks of a workload. *)
Definition selects (selector : pushGroupSelector) (trusted : bool) (w : Workload) : Prop :=
  (forall key want, ps_MatchLabels selector !! key = Some want ->
     (trusted = false -> is_trusted key = false) /\
     default "" (wl_Labels w !! (if trusted then TrustedSelectorLabelPrefix +:+ key else key)) = want) /\
  (ps_Types selector = [] \/ wl_Type w ∈ ps_Types selector) /\
  (ps_Versions selector = [] \/ wl_Version w ∈ ps_Versions selector) /\
  (forall c, c ∈ ps_Capabilities selector -> workloadHasPushCapability w c = true).

Lemma label_matches_spec w trusted key want :
  label_matches w trusted key want = true <->
  (trusted = false -> is_trusted key = false) /\
  default "" (wl_Labels w !! (if trusted then TrustedSelectorLabelPrefix +:+ key else key)) = want.
Proof.
  unfold label_matches, is_trusted. destruct trusted; cbn; [rewrite eqb_string_true; naive_solver|].
  destruct (HasPrefix key _); [naive_solver|]. rewrite eqb_string_true. naive_solver.
Qed.

Lemma matchesPushSelector_spec w selector trusted :
  matchesPushSelector w selector trusted = true <-> selects selector trusted w.
Proof.
  unfold matchesPushSelector, selects.
  rewrite <-!allows_spec. setoid_rewrite <-label_matches_spec.
  rewrite <-(forallb_labels (label_matches w trusted)).
  destruct (forallb _ (map_to_list _)); cbn; [|naive_solver].
  destruct (allows _ (wl_Type w)); cbn; [|naive_solver].
  destruct (allows _ (wl_Version w)); cbn; [|naive_solver].
  rewrite forallb_forall. setoid_rewrite list_elem_of_In. naive_solver.
Qed.

(** [w'] differs from [w] at most in the labels that [trusted] does not read. *)
Definition same_but_labels (read : string -> bool) (w w' : Workload) : Prop :=
  wl_Type w = wl_Type w' /\ wl_Version w = wl_Version w' /\
  wl_AcceptsRemoteConfig w = wl_AcceptsRemoteConfig w' /\
  wl_AvailableComponents w = wl_AvailableComponents w' /\
  forall k, read k = true -> wl_Labels w !! k = wl_Labels w' !! k.

Lemma capability_same read w w' c :
  same_but_labels read w w' -> workloadHasPushCapability w c = workloadHasPushCapability w' c.
Proof.
  intros (Et & _ & Ea & Ec & _). unfold workloadHasPushCapability. by rewrite Et, Ea, Ec.
Qed.

Lemma selects_same selector trusted w w' :
  same_but_labels (fun k => eqb (is_trusted k) trusted) w w' ->
  selects selector trusted w -> selects selector trusted w'.
Proof.
  intros Hs (Hl & Ht & Hv & Hc). pose proof Hs as (Et & Ev & _ & _ & El).
  split_and!; [|by rewrite <-Et|by rewrite <-Ev|].
  - intros key want Hk. destruct (Hl key want Hk) as [Hu Hd]. split; [done|]. rewrite <-Hd. f_equal.
    symmetry. apply El. destruct trusted; [|by rewrite (Hu eq_refl)].
    unfold is_trusted. by rewrite trusted_prefixed.
  - intros c Hin. by rewrite <-(capability_same _ w w' c Hs), Hc.
Qed.

(** ** Buckets *)

Definition bucket_count (b : string) (l : list pushPreviewTarget) : Z :=
  Z.of_nat (length (List.filter (fun t => pt_Bucket t =s b) l)).

Lemma count_buckets l c r i o :
  foldl count_bucket (mkBreakdown c r i o) l =
  mkBreakdown (c + bucket_count "remote_config_capable" l) (r + bucket_count "read_only" l)
    (i + bucket_count "incompatible" l) (o + bucket_count "offline" l).
Proof.
  revert c r i o. induction l as [|t l IH]; intros c r i o; [by rewrite !Z.add_0_r|].
  cbn [foldl]. unfold count_bucket at 2, bucket_count. cbn [List.filter].
  destruct (pt_Bucket t =s "remote_config_capable") eqn:E1;
    [|destruct (pt_Bucket t =s "read_only") eqn:E2;
      [|destruct (pt_Bucket t =s "incompatible") eqn:E3;
        [|destruct (pt_Bucket t =s "offline") eqn:E4]]];
    reflect_bools; try rewrite E1; try rewrite E2; try rewrite E3; try rewrite E4; cbn [String.eqb Ascii.eqb Bool.eqb length];
    rewrite IH; unfold bucket_count; f_equal; lia.
Qed.

Section Theorems.
Context {yamlDoc : YamlDoc}.

Lemma classify_bucket now w content :
  pt_Bucket (classifyPushPreviewTarget now w content) ∈
    ["remote_config_capable"; "read_only"; "incompatible"; "offline"].
Proof. unfold classifyPushPreviewTarget. repeat case_match; set_solver. Qed.

(** a target is offered as capable exactly when a push would reach a collector
    that takes remote configurations and would not refuse this one. *)
Theorem capable_iff now w content :
  pt_Bucket (classifyPushPreviewTarget now w content) = "remote_config_capable" <->
  wl_Status w <> "disconnected" /\ wl_Type w = "collector" /\ wl_AcceptsRemoteConfig w = true /\
  (content = "" \/ rs_Valid (Validate now content (wl_AvailableComponents w)) = true).
Proof.
  unfold classifyPushPreviewTarget.
  destruct (wl_Status w =s "disconnected") eqn:E1; reflect_bools; [cbn; naive_solver|].
  destruct (wl_Type w =s "collector") eqn:E2; reflect_bools; [|cbn; naive_solver].
  destruct (wl_AcceptsRemoteConfig w); cbn [negb orb]; [|cbn; naive_solver].
  destruct content as [|ch content]; [cbn; naive_solver|].
  cbn [String.length Nat.ltb Nat.leb].
  destruct (rs_Valid _) eqn:E3; cbn; naive_solver.
Qed.

Lemma classify_all now content ws :
  length (map (fun w => classifyPushPreviewTarget now w content) ws) = length ws /\
  map pt_WorkloadID (map (fun w => classifyPushPreviewTarget now w content) ws) = map wl_ID ws /\
  map pt_DisplayName (map (fun w => classifyPushPreviewTarget now w content) ws) = map wl_DisplayName ws.
Proof.
  rewrite length_map, !map_map. split_and!; [done|..];
    apply map_ext; intros w; unfold classifyPushPreviewTarget; by repeat case_match.
Qed.

Lemma name_sorted l :
  StronglySorted (fun a b => str_cmp (wl_DisplayName a) (wl_DisplayName b) <> Gt)
    (sort_by (fun a b => wl_DisplayName a <s wl_DisplayName b) l).
Proof.
  rewrite (sort_by_ext _ (less_of (by_key wl_DisplayName str_cmp))).
  - apply (sort_by_sorted (by_key wl_DisplayName str_cmp)).
  - intros a b. by rewrite ltb_str_cmp.
Qed.

Lemma filter_targets_elem ws selector trusted w :
  w ∈ filterPushPreviewTargets ws selector trusted <-> w ∈ ws /\ selects selector trusted w.
Proof.
  unfold filterPushPreviewTargets. rewrite sort_by_perm, list_elem_of_In, filter_In.
  by rewrite <-list_elem_of_In, matchesPushSelector_spec.
Qed.

Lemma four_buckets l :
  Forall (fun t => pt_Bucket t ∈ ["remote_config_capable"; "read_only"; "incompatible"; "offline"]) l ->
  (bucket_count "remote_config_capable" l + bucket_count "read_only" l + bucket_count "incompatible" l +
   bucket_count "offline" l)%Z = Z.of_nat (length l).
Proof.
  unfold bucket_count. induction 1 as [|t l Ht _ IH]; [done|]. cbn [List.filter length].
  rewrite !elem_of_cons in Ht.
  destruct Ht as [Ht|[Ht|[Ht|[Ht|[]%elem_of_nil]]]]; rewrite Ht;
    cbn [String.eqb Ascii.eqb Bool.eqb length]; lia.
Qed.

(** the preview of a push lists exactly the workloads the selector selects,
    each once and in the order of their names, and its four counters partition
    them: each counter is the number of listed targets in its bucket and together
    they are the targeted count. *)
Theorem preview_lists_selected now groupID selector ws content :
  let r := buildPushPreview now groupID selector ws content in
  let trusted := groupID <>s "" in
  exists targets,
    (forall w, w ∈ targets <-> w ∈ ws /\ selects selector trusted w) /\
    targets ≡ₚ List.filter (fun w => matchesPushSelector w selector trusted) ws /\
    StronglySorted (fun a b => str_cmp (wl_DisplayName a) (wl_DisplayName b) <> Gt) targets /\
    pp_Targets r = map (fun w => classifyPushPreviewTarget now w content) targets /\
    pp_TargetedCount r = Z.of_nat (length (pp_Targets r)) /\
    pb_RemoteConfigCapable (pp_Breakdown r) = bucket_count "remote_config_capable" (pp_Targets r) /\
    pb_ReadOnly (pp_Breakdown r) = bucket_count "read_only" (pp_Targets r) /\
    pb_Incompatible (pp_Breakdown r) = bucket_count "incompatible" (pp_Targets r) /\
    pb_Offline (pp_Breakdown r) = bucket_count "offline" (pp_Targets r) /\
    (pb_RemoteConfigCapable (pp_Breakdown r) + pb_ReadOnly (pp_Breakdown r) +
     pb_Incompatible (pp_Breakdown r) + pb_Offline (pp_Breakdown r))%Z = pp_TargetedCount r.
Proof.
  cbv zeta. exists (filterPushPreviewTargets ws selector (groupID <>s "")).
  unfold buildPushPreview. cbv zeta. cbn [pp_Targets pp_Breakdown pp_TargetedCount].
  rewrite count_buckets. cbn [pb_RemoteConfigCapable pb_ReadOnly pb_Incompatible pb_Offline].
  rewrite !Z.add_0_l, four_buckets, !length_map.
  2:{ apply Forall_map, Forall_true. intros w. apply classify_bucket. }
  split_and!; try done.
  - intros w. apply filter_targets_elem.
  - apply sort_by_perm.
  - apply (name_sorted (List.filter _ ws)).
Qed.

End Theorems.

(** ** Saved groups and agents *)

(** [s'] is reached from [s] by messages agents sent on accepted connections, in
    any number and under any failures. *)
Inductive heard `{UnicodeTables} `{TimestampColumn} (s : server) : server -> Prop :=
| heard_none : heard s s
| heard_message s' v msg leased :
    heard s s' -> heard s (handleAcceptedMessageWithLease v msg leased s').1.

Section Groups.
Context {yamlDoc : YamlDoc} {collation : Alerts.Collation} `{UnicodeTables} `{TimestampColumn}.

Lemma keyed_handled v msg l s :
  keyed (sv_db s) -> keyed (sv_db (handleAcceptedMessageWithLease v msg l s).1).
Proof.
  intros Hk. refine (proj1 (rows_handleAccepted v (fun _ _ => True) _ _ _ _ _ _ msg l s Hk));
    try done; by right.
Qed.

Lemma heard_trusted s s' id k x :
  keyed (sv_db s) -> heard s s' -> is_trusted k = true ->
  keyed (sv_db s') /\
  (label_of (d_workloads (sv_db s') !! id) k = Some x -> label_of (d_workloads (sv_db s) !! id) k = Some x).
Proof.
  intros Hk Hh Ht. induction Hh as [|s' v msg l Hh [Hk' IH]]; [done|].
  split; [by apply keyed_handled|]. intros Hx. apply IH.
  by apply (no_new_trusted_handled v msg l s' Hk' id k x).
Qed.

Lemma saved_labels_not_empty g key want :
  g ∈ savedPushGroups -> ps_MatchLabels (pg_Selector g) !! key = Some want -> want <> "".
Proof.
  unfold savedPushGroups. rewrite !elem_of_cons, elem_of_nil. intros Hg Hl ->.
  destruct Hg as [->|[->|[->|[->|[]]]]]; cbn [pg_Selector ps_MatchLabels] in Hl;
    repeat (apply lookup_insert_Some in Hl as [[_ Hl]|[_ Hl]]; [done|]);
    by apply lookup_singleton_Some in Hl as [_ ?].
Qed.

Lemma saved_ids g : g ∈ savedPushGroups -> pg_ID g <>s "" = true.
Proof.
  unfold savedPushGroups. rewrite !elem_of_cons, elem_of_nil.
  by intros [->|[->|[->|[->|[]]]]].
Qed.

(** C19: no agent can talk itself into a saved push group: whatever messages
    agents send, every workload a saved group targets afterwards already carried
    each of the group's labels under the trusted prefix, with the wanted value,
    before the first message. *)
Theorem agents_cannot_join_saved_group s s' g ws now content t
    (Hk : keyed (sv_db s)) (Hh : heard s s') (Hg : g ∈ savedPushGroups)
    (Hl : ListWorkloads (sv_db s') IoOk false = Ok ws)
    (Ht : t ∈ pp_Targets (buildPushPreview now (pg_ID g) (pg_Selector g) ws content)) :
  exists id row', d_workloads (sv_db s') !! id = Some row' /\ pt_WorkloadID t = wl_ID row' /\
    forall key want, ps_MatchLabels (pg_Selector g) !! key = Some want ->
      label_of (d_workloads (sv_db s) !! id) (TrustedSelectorLabelPrefix +:+ key) = Some want.
Proof.
  cbn [pp_Targets buildPushPreview] in Ht. apply list_elem_of_fmap in Ht as (w & -> & Hw).
  apply filter_targets_elem in Hw as [Hw (Hlab & _)].
  destruct (ListWorkloads_elem _ _ _ _ _ Hl Hw) as (id & row & Hrow & _ & ->).
  exists id, row. split_and!; [done| |].
  { unfold classifyPushPreviewTarget. by repeat case_match. }
  intros key want Hkey.
  assert (pg_ID g <>s "" = true) as Hid by by apply saved_ids.
  rewrite Hid in Hlab. destruct (Hlab key want Hkey) as [_ Hd].
  apply (heard_trusted s s' id (TrustedSelectorLabelPrefix +:+ key) want Hk Hh (trusted_prefixed key)).
  rewrite Hrow. cbn in Hd |- *. pose proof (saved_labels_not_empty g key want Hg Hkey).
  destruct (wl_Labels row !! _); cbn in Hd; congruence.
Qed.
End Groups.

(** ** Witnesses *)

#[local] Existing Instance byte_tables.
#[local] Existing Instance microseconds.
#[local] Existing Instance Alerts.byte_collation.

Definition staged_server : server :=
  mkServer (mkDb {[sample_id := mkWorkload sample_id "host" ∅ "api" "collector" "" "connected" 1000
      {[selector := "staging"]} None "" None None None true None None]} ∅ [] 1 ∅ ∅ ∅ ∅)
    (sv_tokens sample_server) (sv_registry sample_server) (sv_grace sample_server)
    (sv_conns sample_server) (sv_sessions sample_server) false [] [] 0.

Lemma staged_keyed : keyed (sv_db staged_server).
Proof. intros id row. cbn. by intros [<- <-]%lookup_singleton_Some. Qed.

Definition staged_after : server := (handleAcceptedMessageWithLease calm forging true staged_server).1.

Definition staging : pushGroup := mkGroup "staging" "Staging collectors"
  "Collectors serving staging environments" (mkSelector {["env" := "staging"]} ["collector"] [] []).

Definition staged_list : list Workload :=
  Eval vm_compute in match ListWorkloads (sv_db staged_after) IoOk false with Ok l => l | Err _ => [] end.

Definition empty_docs : YamlDoc := {| yaml_document _ := Ok None |}.

Lemma agents_cannot_join_saved_group_witness :
  exists id row', d_workloads (sv_db staged_after) !! id = Some row' /\
    wl_ID row' = sample_id /\
    label_of (d_workloads (sv_db staged_server) !! id) selector = Some "staging".
Proof.
  destruct (agents_cannot_join_saved_group (yamlDoc := empty_docs) staged_server staged_after staging
    staged_list 0 "" (mkPreviewTarget sample_id "otelcol" "collector" "" "connected"
      "read_only" "workload does not accept remote config" false (-62135596800)))
    as (id & row' & Hrow & Hid & Hl).
  - exact staged_keyed.
  - apply heard_message, heard_none.
  - right. left.
  - vm_compute. reflexivity.
  - vm_compute. left.
  - exists id, row'. split_and!; [done|symmetry; exact Hid|]. apply (Hl "env"). reflexivity.
Defined.
End PushPreview.
