(* ===== verification/ConfigDrift.v ===== *)
(** * The configuration drift dashboard (internal/api/config_safety_drift.go)

    One item per collector: the configuration it should run, the ones its
    instances report, the last push, the status and reasons derived from them,
    and the fleet-level summary. *)

From Stdlib Require Import SpecFloat.
From S2P Require Import Prelude GoString Models PushStatus Registry Sha256 Alerts.
From S2P Require Import Validator Yaml ConfigPolicy Access Store PushHistory OpampServer.
From S2P Require Import Api Fleet.
Import Registry Validator Yaml ConfigPolicy Access Store.Store PushHistory OpampServer Api Fleet.

Module ConfigDrift.

Definition configDriftPendingThreshold : Duration := (15 * Minute)%Z.

(* src/pkg/models/models.go:339-343 ConfigDriftAction *)
Record ConfigDriftAction := mkAction { ca_Enabled : bool; ca_Reason : string; ca_URL : string }.

(* src/pkg/models/models.go:347-356 ConfigDriftSummary *)
Record ConfigDriftSummary := mkSummary {
  cs_TotalCollectors : Z; cs_DriftedCollectors : Z; cs_PendingTooLong : Z;
  cs_MissingEffectiveConfig : Z; cs_RemoteConfigUnsupported : Z; cs_OutdatedVersions : Z;
  cs_UnknownIncompleteComponents : Z; cs_HeterogeneousGroups : Z
}.

(* src/pkg/models/models.go:376-396 ConfigDriftItem *)
Record ConfigDriftItem := mkItem {
  ci_WorkloadID : string; ci_Collector : string; ci_Env : string; ci_Version : string;
  ci_ExpectedConfigHash : string; ci_EffectiveConfigHash : string;
  ci_EffectiveConfigHashes : list string; ci_DriftStatus : string; ci_DriftReasons : list string;
  ci_LastPush : option WorkloadConfig; ci_LastPushAgeSeconds : Z; ci_PendingTooLong : bool;
  ci_AcceptsRemoteConfig : bool; ci_MissingEffectiveConfig : bool;
  ci_UnknownIncompleteComponents : bool; ci_GroupHeterogeneousConfig : bool;
  ci_HasConfigDriftAlert : bool; ci_HasVersionOutdatedAlert : bool;
  ci_Actions : gmap string ConfigDriftAction
}.

(* src/pkg/models/models.go:399-403 ConfigDriftDashboard *)
Record ConfigDriftDashboard := mkDashboard {
  cd_GeneratedAt : Time; cd_Summary : ConfigDriftSummary; cd_Items : list ConfigDriftItem
}.

(** ** One item *)

(* src/internal/api/config_safety_drift.go:242-255 uniqueSortedStrings *)
Definition uniqueSortedStrings (l : list string) : list string :=
  sort_strings (elements (list_to_set (List.filter (fun s => s <>s "") (map TrimSpace l)) : gset string)).

(* src/internal/api/config_safety_drift.go:257-262 collectorDisplayName *)
Definition collectorDisplayName (w : Workload) : string :=
  if wl_DisplayName w <>s "" then wl_DisplayName w else wl_ID w.

(* src/internal/api/config_safety_drift.go:264-271 workloadEnv *)
Definition workloadEnv (w : Workload) : string :=
  let v := first_label (wl_Labels w) ["env"; "environment"; "deployment.environment"] in
  if v <>s "" then v else "unknown".

(* src/internal/api/config_safety_drift.go:273-283 hasUnknownIncompleteComponents *)
Definition hasUnknownIncompleteComponents (w : Workload) : bool :=
  match wl_AvailableComponents w with
  | None => true
  | Some available =>
      bool_decide (ac_Components available = ∅) ||
      existsb (fun category => bool_decide (ac_Components available !! category = None))
        ["receivers"; "processors"; "exporters"]
  end.

(* src/internal/api/config_safety_drift.go:285-293 configPushReferenceTime *)
Definition configPushReferenceTime (push : WorkloadConfig) : Time :=
  match wc_SentAt push with
  | Some t => t
  | None => if negb (IsZero (wc_SubmittedAt push)) then wc_SubmittedAt push else wc_AppliedAt push
  end.

(* src/internal/api/config_safety_drift.go:295-302 isPendingPush *)
Definition isPendingPush (push : WorkloadConfig) : bool :=
  one_of (wc_Status push)
    [PushStatus.PushStatusSubmitted; PushStatus.PushStatusSent; PushStatus.PushStatusApplying].

(* src/internal/api/config_safety_drift.go:304-334 safeConfigDriftLastPush *)
Definition safeConfigDriftLastPush (push : WorkloadConfig) : WorkloadConfig :=
  mkWorkloadConfig (wc_WorkloadID push) (wc_ConfigID push) (wc_ConfigHash push) (wc_AppliedAt push)
    (wc_Status push) "" "" "" None (wc_PushID push) (wc_SubmittedAt push) (wc_SentAt push)
    (wc_UpdatedAt push) (wc_OpAMPStatusTimeoutAt push) (wc_TimedOutWaiting push)
    (wc_TimeoutMessage push) (wc_RollbackOfPushID push) [] [] (wc_TargetCount push)
    (wc_AppliedCount push) (wc_FailedCount push) (wc_PendingCount push) (wc_TimedOutCount push)
    (wc_NoStatusCount push) [] (wc_IsCurrent push) (wc_IsPrevious push) (wc_IsLastKnownGood push)
    (wc_IsFailedCandidate push) (wc_ContentAvailable push).

(** [int64(d.Seconds())]: the quotient and the remainder by a second, added as
    binary64 numbers and truncated. *)
Definition truncate (f : float64) : Z :=
  match f with
  | S754_finite s m ex =>
      let n := if (0 <=? ex)%Z then (Z.pos m * 2 ^ ex)%Z else (Z.pos m / 2 ^ (- ex))%Z in
      if s then (- n)%Z else n
  | _ => 0
  end.
Definition whole_seconds (d : Duration) : Z :=
  truncate (SFadd float_prec float_emax (of_int (Z.quot d Second))
    (SFdiv float_prec float_emax (of_int (Z.rem d Second)) (of_int Second))).

Definition differs (i : ConfigDriftItem) : bool :=
  (ci_ExpectedConfigHash i <>s "") && (ci_EffectiveConfigHash i <>s "") &&
  (ci_ExpectedConfigHash i <>s ci_EffectiveConfigHash i).

(* src/internal/api/config_safety_drift.go:139-154 deriveDriftStatus *)
Definition deriveDriftStatus (i : ConfigDriftItem) : string :=
  if negb (ci_AcceptsRemoteConfig i) then "remote_config_unsupported"
  else if ci_MissingEffectiveConfig i then "missing_effective_config"
  else if Nat.ltb 1 (length (ci_EffectiveConfigHashes i)) then "heterogeneous_effective_config"
  else if differs i then "drifted"
  else if ci_PendingTooLong i then "pending_too_long"
  else "in_sync".

Definition reason (b : bool) (r : string) : list string := if b then [r] else [].

(* src/internal/api/config_safety_drift.go:156-183 deriveDriftReasons *)
Definition deriveDriftReasons (i : ConfigDriftItem) : list string :=
  reason (negb (ci_AcceptsRemoteConfig i)) "remote_config_unsupported" ++
  reason (ci_MissingEffectiveConfig i) "missing_effective_config" ++
  reason (Nat.ltb 1 (length (ci_EffectiveConfigHashes i))) "heterogeneous_effective_config" ++
  reason (differs i) "drifted" ++
  reason (ci_PendingTooLong i) "pending_too_long" ++
  reason (ci_HasConfigDriftAlert i) "config_drift_alert" ++
  reason (ci_HasVersionOutdatedAlert i) "version_outdated" ++
  reason (ci_UnknownIncompleteComponents i) "unknown_incomplete_components".

(* src/internal/api/config_safety_drift.go:203-205 disabledAction *)
Definition disabledAction (r : string) : ConfigDriftAction := mkAction false r "".

(* src/internal/api/config_safety_drift.go:185-201 configDriftActions *)
Definition configDriftActions (i : ConfigDriftItem) : gmap string ConfigDriftAction :=
  let actions : gmap string ConfigDriftAction := list_to_map
    [("view_diff", disabledAction "diff_requires_config_content");
     ("validate_current", disabledAction "validate_from_workload_detail");
     ("push_expected", disabledAction "review_expected_before_push");
     ("rollback", disabledAction "rollback_from_workload_detail");
     ("mark_ignored", disabledAction "ignore_not_implemented")] in
  let actions := if negb (ci_AcceptsRemoteConfig i)
    then <["rollback" := disabledAction "remote_config_unsupported"]>
           (<["push_expected" := disabledAction "remote_config_unsupported"]> actions)
    else actions in
  if ci_AcceptsRemoteConfig i && ci_PendingTooLong i
  then <["push_expected" := disabledAction "push_pending_too_long"]> actions else actions.

(** The hashes the instances report, or the one of the last reported status. *)
Definition effective_hashes (w : Workload) (reported : list string) : list string :=
  let hashes := uniqueSortedStrings
    (List.filter (fun h => h <>s "") (map TrimSpace reported)) in
  match hashes, wl_RemoteConfigStatus w with
  | [], Some s => if TrimSpace (rcs_ConfigHash s) <>s "" then [TrimSpace (rcs_ConfigHash s)] else []
  | _, _ => hashes
  end.

Definition expected_hash (w : Workload) : string :=
  let expected := TrimSpace (wl_ActiveConfigHash w) in
  match wl_CurrentConfigPush w with
  | Some push => if expected =s "" then TrimSpace (wc_ConfigID push) else expected
  | None => expected
  end.

Definition pending_too_long (now : Time) (w : Workload) : bool :=
  match wl_CurrentConfigPush w with
  | Some push => isPendingPush push &&
                 Z.ltb configDriftPendingThreshold (Sub now (configPushReferenceTime push))
  | None => false
  end.

(** The last assignments: status, reasons and actions follow from the rest. *)
Definition with_derived (i : ConfigDriftItem) : ConfigDriftItem :=
  mkItem (ci_WorkloadID i) (ci_Collector i) (ci_Env i) (ci_Version i) (ci_ExpectedConfigHash i)
    (ci_EffectiveConfigHash i) (ci_EffectiveConfigHashes i) (deriveDriftStatus i)
    (deriveDriftReasons i) (ci_LastPush i) (ci_LastPushAgeSeconds i) (ci_PendingTooLong i)
    (ci_AcceptsRemoteConfig i) (ci_MissingEffectiveConfig i) (ci_UnknownIncompleteComponents i)
    (ci_GroupHeterogeneousConfig i) (ci_HasConfigDriftAlert i) (ci_HasVersionOutdatedAlert i)
    (configDriftActions i).

(** The item of a workload whose instances report these hashes. *)
(* src/internal/api/config_safety_drift.go:74-123 buildConfigDriftItem *)
Definition buildConfigDriftItem (w : Workload) (reported : list string) (alerts : gmap string bool)
  (now : Time) : ConfigDriftItem :=
  let effectiveHashes := effective_hashes w reported in
  let effective := match effectiveHashes with [h] => h | _ => "" end in
  let expected := expected_hash w in
  let age := match wl_CurrentConfigPush w with
             | Some push => if IsZero (configPushReferenceTime push) then 0%Z
                            else whole_seconds (Sub now (configPushReferenceTime push))
             | None => 0%Z
             end in
  with_derived (mkItem (wl_ID w) (collectorDisplayName w) (workloadEnv w) (wl_Version w) expected
    effective effectiveHashes "" [] (safeConfigDriftLastPush <$> wl_CurrentConfigPush w) age
    (pending_too_long now w) (wl_AcceptsRemoteConfig w)
    ((expected <>s "") && Nat.eqb (length effectiveHashes) 0) (hasUnknownIncompleteComponents w) false
    (default false (alerts !! "config_drift")) (default false (alerts !! "version_outdated")) ∅).

(** ** The dashboard *)

(* src/internal/api/config_safety_drift.go:125-137 unresolvedAlertRulesByWorkload *)
Definition unresolvedAlertRulesByWorkload (alerts : list Alert) : gmap string (gmap string bool) :=
  foldl (fun out alert => match al_ResolvedAt alert with
    | Some _ => out
    | None => <[al_WorkloadID alert := <[al_Rule alert := true]> (default ∅ (out !! al_WorkloadID alert))]> out
    end) ∅ alerts.

(* src/internal/api/config_safety_drift.go:336-341 configDriftGroupKey *)
Definition configDriftGroupKey (i : ConfigDriftItem) : string :=
  if (ci_Env i =s "") || (ci_Env i =s "unknown") then "" else ci_Env i.

(* src/internal/api/config_safety_drift.go:343-345 configStateKey *)
Definition configStateKey (i : ConfigDriftItem) : string :=
  ci_ExpectedConfigHash i +:+ "|" +:+ Join "," (ci_EffectiveConfigHashes i).

Definition add_group_key (m : gmap string (gset string)) (i : ConfigDriftItem)
  : gmap string (gset string) :=
  let group := configDriftGroupKey i in
  if group <>s "" then <[group := {[configStateKey i]} ∪ default ∅ (m !! group)]> m else m.

(** The keys [g] of [heterogeneousGroups]. *)
Definition heterogeneousGroups (items : list ConfigDriftItem) : gset string :=
  dom (filter (fun kv => (1 < size kv.2)%nat) (foldl add_group_key ∅ items)).

Definition mark_group (het : gset string) (i : ConfigDriftItem) : ConfigDriftItem :=
  if bool_decide (configDriftGroupKey i ∈ het) then
    mkItem (ci_WorkloadID i) (ci_Collector i) (ci_Env i) (ci_Version i) (ci_ExpectedConfigHash i)
      (ci_EffectiveConfigHash i) (ci_EffectiveConfigHashes i) (ci_DriftStatus i)
      (append_unique (ci_DriftReasons i) "group_heterogeneous_config") (ci_LastPush i)
      (ci_LastPushAgeSeconds i) (ci_PendingTooLong i) (ci_AcceptsRemoteConfig i)
      (ci_MissingEffectiveConfig i) (ci_UnknownIncompleteComponents i) true
      (ci_HasConfigDriftAlert i) (ci_HasVersionOutdatedAlert i) (ci_Actions i)
  else i.

Definition incr_if (b : bool) (n : Z) : Z := if b then (n + 1)%Z else n.

(* src/internal/api/config_safety_drift.go:207-226 summarizeConfigDriftItem *)
Definition summarizeConfigDriftItem (s : ConfigDriftSummary) (i : ConfigDriftItem) : ConfigDriftSummary :=
  mkSummary (cs_TotalCollectors s)
    (incr_if ((ci_DriftStatus i =s "drifted") || ci_HasConfigDriftAlert i) (cs_DriftedCollectors s))
    (incr_if (ci_PendingTooLong i) (cs_PendingTooLong s))
    (incr_if (ci_MissingEffectiveConfig i) (cs_MissingEffectiveConfig s))
    (incr_if (negb (ci_AcceptsRemoteConfig i)) (cs_RemoteConfigUnsupported s))
    (incr_if (ci_HasVersionOutdatedAlert i) (cs_OutdatedVersions s))
    (incr_if (ci_UnknownIncompleteComponents i) (cs_UnknownIncompleteComponents s))
    (cs_HeterogeneousGroups s).

(* src/internal/api/config_safety_drift.go:228-240 rankConfigDriftStatus *)
Definition rankConfigDriftStatus (i : ConfigDriftItem) : Z :=
  if ci_HasConfigDriftAlert i || (ci_DriftStatus i =s "drifted") then 0
  else if one_of (ci_DriftStatus i)
    ["missing_effective_config"; "heterogeneous_effective_config"; "remote_config_unsupported"] then 1
  else if ci_DriftStatus i =s "pending_too_long" then 2
  else 3.

(* src/internal/store/alerts.go:35-58 ListAlerts *)
Definition ListAlerts (table : gmap string Alert) (fault : io) (includeResolved : bool)
  : result (list Alert) :=
  query fault (sort_by (less_of (by_key (fun a => (- al_FiredAt a)%Z) Z.compare))
    (List.filter (fun a => includeResolved ||
       match al_ResolvedAt a with None => true | Some _ => false end) (map_to_list table).*2)).

Section Handler.
Context {collation : Alerts.Collation} `{UnicodeTables} `{TimestampColumn} (e : aenv).
Local Open Scope api_scope.

Definition drift_less (a b : ConfigDriftItem) : bool :=
  if negb (Z.eqb (rankConfigDriftStatus a) (rankConfigDriftStatus b))
  then Z.ltb (rankConfigDriftStatus a) (rankConfigDriftStatus b)
  else ToLower (ci_Collector a) <s ToLower (ci_Collector b).

(** What the handler makes of the items it collected. *)
Definition dashboard (now : Time) (items : list ConfigDriftItem) : ConfigDriftDashboard :=
  let het := heterogeneousGroups items in
  let marked := map (mark_group het) items in
  let summary := mkSummary (Z.of_nat (length items)) 0 0 0 0 0 0 (Z.of_nat (size het)) in
  mkDashboard now (foldl summarizeConfigDriftItem summary marked) (sort_by drift_less marked).

(** [a.opamp.Instances(wl.ID)], where an OpAMP server is configured. *)
Definition reported_hashes (workloadID : string) : AM (list string) :=
  if ae_opamp e then insts ← live_instances e workloadID; aret (map EffectiveConfigHash insts)
  else aret [].

Definition collect_item (rules : gmap string (gmap string bool)) (now : Time) (w : Workload)
  : AM ConfigDriftItem :=
  w ← hydrateCurrentConfigPush e w;
  reported ← reported_hashes (wl_ID w);
  aret (buildConfigDriftItem w reported (default ∅ (rules !! wl_ID w)) now).

(** [table] is the table of alerts when it is read. *)
(* src/internal/api/config_safety_drift.go:14-72 handleListConfigDrift *)
Definition handleListConfigDrift (table : gmap string Alert) : AM (reply ConfigDriftDashboard) :=
  now ← anow e;
  ws ← aq e (fun d f => ListWorkloads d f false);
  match ws with
  | Err _ => aret (refuse 500 "failed to list workloads")
  | Ok workloads =>
      alerts ← aq e (fun _ f => ListAlerts table f false);
      match alerts with
      | Err _ => aret (refuse 500 "failed to list alerts")
      | Ok alerts =>
          items ← each (collect_item (unresolvedAlertRulesByWorkload alerts) now)
                    (List.filter (fun w => wl_Type w =s "collector") workloads);
          aret (Replied 200 (dashboard now items))
      end
  end.

End Handler.

(** ** Status and reasons *)

Lemma elem_of_reason x b r : x ∈ reason b r <-> b = true /\ x = r.
Proof. destruct b; cbn; rewrite ?list_elem_of_singleton, ?elem_of_nil; naive_solver. Qed.

(** The status is one of the reasons unless everything is in sync. *)
Lemma status_is_reason i :
  deriveDriftStatus i = "in_sync" \/ deriveDriftStatus i ∈ deriveDriftReasons i.
Proof.
  unfold deriveDriftReasons. rewrite !elem_of_app, !elem_of_reason. unfold deriveDriftStatus.
  destruct (ci_AcceptsRemoteConfig i); cbn [negb]; [|naive_solver].
  destruct (ci_MissingEffectiveConfig i); [naive_solver|].
  destruct (Nat.ltb _ _); [naive_solver|]. destruct (differs i); [naive_solver|].
  destruct (ci_PendingTooLong i); naive_solver.
Qed.

Lemma uniqueSortedStrings_elem x l :
  x ∈ uniqueSortedStrings l <-> x <> "" /\ exists y, y ∈ l /\ x = TrimSpace y.
Proof.
  unfold uniqueSortedStrings, sort_strings. rewrite sort_by_perm, elem_of_elements, elem_of_list_to_set.
  rewrite list_elem_of_In, filter_In, in_map_iff, negb_true_iff, eqb_string_false.
  setoid_rewrite list_elem_of_In. naive_solver.
Qed.

Lemma effective_hashes_not_empty w reported h : h ∈ effective_hashes w reported -> h <> "".
Proof.
  unfold effective_hashes. destruct (uniqueSortedStrings _) as [|x l] eqn:E.
  - destruct (wl_RemoteConfigStatus w) as [st|]; [|by intros ?%elem_of_nil].
    destruct (_ <>s "") eqn:E'; [|by intros ?%elem_of_nil].
    reflect_bools. by intros ->%list_elem_of_singleton.
  - intros Hh. rewrite <-E in Hh. by apply uniqueSortedStrings_elem in Hh as [? _].
Qed.

(** The dashboard calls a collector in sync exactly when it takes remote
    configurations, no push is stuck, and what its instances report is the
    expected configuration, or nothing in particular is expected and they agree;
    every other status comes with itself among the reasons. *)
Lemma drift_status_truthful w reported alerts now :
  let i := buildConfigDriftItem w reported alerts now in
  (ci_DriftStatus i = "in_sync" <->
     wl_AcceptsRemoteConfig w = true /\ pending_too_long now w = false /\
     (effective_hashes w reported = [expected_hash w] \/
      (expected_hash w = "" /\ length (effective_hashes w reported) <= 1)%nat)) /\
  (ci_DriftStatus i = "drifted" <->
     wl_AcceptsRemoteConfig w = true /\ expected_hash w <> "" /\
     exists h, effective_hashes w reported = [h] /\ h <> expected_hash w) /\
  (ci_DriftStatus i = "in_sync" \/ ci_DriftStatus i ∈ ci_DriftReasons i).
Proof.
  cbv zeta. split_and!; [..|apply status_is_reason].
  all: unfold buildConfigDriftItem, with_derived, deriveDriftStatus, differs; cbn -[String.eqb].
  all: pose proof (effective_hashes_not_empty w reported) as Hne;
    destruct (wl_AcceptsRemoteConfig w); cbn [negb]; [|naive_solver].
  all: destruct (effective_hashes w reported) as [|h [|h' l]]; cbn -[String.eqb].
  all: destruct (expected_hash w =s "") eqn:Ee; reflect_bools; cbn -[String.eqb];
    rewrite ?Ee; try (destruct (pending_too_long now w); naive_solver lia).
  all: assert (h =s "" = false) as -> by (apply eqb_string_false, Hne; left).
  all: destruct (expected_hash w =s h) eqn:Eh; reflect_bools; cbn [negb andb];
    destruct (pending_too_long now w); naive_solver lia.
Qed.

(** ** Groups *)

Lemma group_keys items m g :
  g <> "" ->
  default ∅ (foldl add_group_key m items !! g) =
  (list_to_set (map configStateKey (List.filter (fun i => configDriftGroupKey i =s g) items)) : gset string)
  ∪ default ∅ (m !! g).
Proof.
  intros Hg. revert m. induction items as [|i items IH]; intros m; [cbn; set_solver|].
  cbn [foldl List.filter]. rewrite IH. unfold add_group_key.
  destruct (configDriftGroupKey i =s g) eqn:E; reflect_bools.
  - rewrite E. apply eqb_string_false in Hg. rewrite Hg. cbn [negb].
    rewrite lookup_insert, decide_True by done. cbn. set_solver.
  - destruct (_ <>s ""); [|done]. by rewrite lookup_insert_ne by congruence.
Qed.

Lemma no_empty_group items m : m !! "" = None -> foldl add_group_key m items !! "" = None.
Proof.
  revert m. induction items as [|i items IH]; intros m Hm; [done|]. cbn [foldl]. apply IH.
  unfold add_group_key. destruct (configDriftGroupKey i =s "") eqn:E; reflect_bools; cbn [negb]; [done|].
  by rewrite lookup_insert_ne.
Qed.

Lemma two_elements (X : gset string) :
  (1 < size X)%nat <-> exists x y, x ∈ X /\ y ∈ X /\ x <> y.
Proof.
  split.
  - intros Hs. destruct (set_choose_L X) as [x Hx]; [intros ->; rewrite size_empty in Hs; lia|].
    destruct (set_choose_L (X ∖ {[x]})) as [y Hy].
    { intros He%(f_equal size). rewrite size_difference, size_singleton, size_empty in He by set_solver.
      lia. }
    exists x, y. set_solver.
  - intros (x & y & Hx & Hy & Hne). pose proof (subseteq_size {[x; y]} X ltac:(set_solver)) as Hs.
    rewrite size_union, !size_singleton in Hs by set_solver. lia.
Qed.

Lemma heterogeneous_elem items g :
  g ∈ heterogeneousGroups items <->
  g <> "" /\ exists i j, i ∈ items /\ j ∈ items /\ configDriftGroupKey i = g /\
    configDriftGroupKey j = g /\ configStateKey i <> configStateKey j.
Proof.
  unfold heterogeneousGroups. rewrite elem_of_dom. split.
  - intros [X [HX Hs]%map_lookup_filter_Some]. cbn in Hs. apply two_elements in Hs as (x & y & Hx & Hy & Hne).
    assert (g <> "") as Hg by (intros ->; by rewrite no_empty_group in HX). split; [done|].
    pose proof (group_keys items ∅ g Hg) as Hk. rewrite HX, lookup_empty in Hk. cbn in Hk. subst X.
    rewrite union_empty_r_L, elem_of_list_to_set in Hx, Hy.
    apply list_elem_of_fmap in Hx as (i & -> & [Hi Ei]%list_elem_of_In%filter_In).
    apply list_elem_of_fmap in Hy as (j & -> & [Hj Ej]%list_elem_of_In%filter_In).
    reflect_bools. rewrite <-list_elem_of_In in Hi, Hj. eauto 10.
  - intros (Hg & i & j & Hi & Hj & Ei & Ej & Hne).
    pose proof (group_keys items ∅ g Hg) as Hk. rewrite lookup_empty in Hk.
    assert (forall k, k ∈ items -> configDriftGroupKey k = g ->
      configStateKey k ∈ default ∅ (foldl add_group_key ∅ items !! g)) as Hin.
    { intros k Hk' Ek. rewrite Hk, elem_of_union, elem_of_list_to_set. left.
      apply list_elem_of_fmap. exists k. split; [done|].
      apply list_elem_of_In, filter_In. rewrite <-list_elem_of_In, eqb_string_true. done. }
    destruct (_ !! g) as [X|] eqn:EX; [|specialize (Hin i Hi Ei); cbn in Hin; set_solver].
    exists X. apply map_lookup_filter_Some. split; [done|]. apply two_elements. cbn in Hin. eauto 10.
Qed.

(** ** Summary and order *)

Definition how_many (p : ConfigDriftItem -> bool) (l : list ConfigDriftItem) : Z :=
  Z.of_nat (length (List.filter p l)).

Lemma how_many_cons p i l : how_many p (i :: l) = incr_if (p i) (how_many p l).
Proof. unfold how_many, incr_if. cbn. destruct (p i); cbn; lia. Qed.

#[export] Instance how_many_proper p : Proper ((≡ₚ) ==> eq) (how_many p).
Proof.
  intros l k Hp. induction Hp; rewrite ?how_many_cons; [done|congruence| |congruence].
  unfold incr_if. destruct (p x), (p y); lia.
Qed.

Definition counted_drifted (i : ConfigDriftItem) : bool :=
  (ci_DriftStatus i =s "drifted") || ci_HasConfigDriftAlert i.

Lemma summary_counts l s :
  foldl summarizeConfigDriftItem s l =
  mkSummary (cs_TotalCollectors s) (cs_DriftedCollectors s + how_many counted_drifted l)
    (cs_PendingTooLong s + how_many ci_PendingTooLong l)
    (cs_MissingEffectiveConfig s + how_many ci_MissingEffectiveConfig l)
    (cs_RemoteConfigUnsupported s + how_many (fun i => negb (ci_AcceptsRemoteConfig i)) l)
    (cs_OutdatedVersions s + how_many ci_HasVersionOutdatedAlert l)
    (cs_UnknownIncompleteComponents s + how_many ci_UnknownIncompleteComponents l)
    (cs_HeterogeneousGroups s).
Proof.
  revert s. induction l as [|i l IH]; intros s; [destruct s; unfold how_many; cbn; by rewrite !Z.add_0_r|].
  cbn [foldl]. rewrite IH, !how_many_cons.
  unfold summarizeConfigDriftItem, incr_if, counted_drifted. cbn -[String.eqb Z.add].
  f_equal; try case_if; lia.
Qed.

Lemma StronglySorted_weaken {A} (R S : A -> A -> Prop) l :
  StronglySorted R l -> (forall x y, R x y -> S x y) -> StronglySorted S l.
Proof. intros Hl HRS. induction Hl; constructor; [done|]. eapply Forall_impl; eauto. Qed.

Section Dashboard.
Context `{UnicodeTables}.

Lemma drift_less_cmp a b :
  drift_less a b = less_of (lex_cmp (by_key rankConfigDriftStatus Z.compare)
                              (by_key (fun i => ToLower (ci_Collector i)) str_cmp)) a b.
Proof.
  unfold drift_less, less_of, lex_cmp, by_key. rewrite ltb_str_cmp.
  destruct (Z.compare_spec (rankConfigDriftStatus a) (rankConfigDriftStatus b)) as [E|E|E].
  - by rewrite E, Z.eqb_refl.
  - assert ((rankConfigDriftStatus a =? rankConfigDriftStatus b)%Z = false) as -> by lia. cbn. by apply Z.ltb_lt.
  - assert ((rankConfigDriftStatus a =? rankConfigDriftStatus b)%Z = false) as -> by lia. cbn. apply Z.ltb_ge. lia.
Qed.

Lemma ranks_ascend l :
  StronglySorted (fun a b => rankConfigDriftStatus a <= rankConfigDriftStatus b)%Z (sort_by drift_less l).
Proof.
  rewrite (sort_by_ext _ _ l drift_less_cmp). apply (StronglySorted_weaken _ _ _ (sort_by_sorted _ l)).
  intros a b. unfold lex_cmp, by_key.
  destruct (Z.compare_spec (rankConfigDriftStatus a) (rankConfigDriftStatus b)); [lia|lia|done].
Qed.

(** The item of each collector, from its row, what its instances report and its
    open alerts. *)
Definition built (now : Time) (l : list (Workload * list string * gmap string bool))
  : list ConfigDriftItem := map (fun '(w, reported, alerts) => buildConfigDriftItem w reported alerts now) l.

Lemma mark_group_flag het i :
  ci_GroupHeterogeneousConfig i = false ->
  ci_GroupHeterogeneousConfig (mark_group het i) = true <-> configDriftGroupKey i ∈ het.
Proof. intros Hf. unfold mark_group. case_bool_decide; cbn; [done|]. rewrite Hf. done. Qed.

Lemma unflagged now l i : i ∈ built now l -> ci_GroupHeterogeneousConfig i = false.
Proof. intros ([[w reported] alerts] & -> & _)%list_elem_of_fmap. done. Qed.


End Dashboard.
End ConfigDrift.
