(* ===== verification/FleetVersions.v ===== *)
(** * Fleet version intelligence (internal/api/fleet_version_intelligence.go)

    The version matrix of the fleet, the collectors below a recommended version,
    the components a configuration needs and a collector lacks, and the verdict
    whether each collector can run its configuration. *)

From S2P Require Import Prelude GoString Models Version PushStatus Registry Sha256 Alerts.
From S2P Require Import Validator Yaml ConfigPolicy Access Store PushHistory OpampServer.
From S2P Require Import Api Fleet.
Import Registry Validator Yaml ConfigPolicy Access Store.Store PushHistory OpampServer Api Fleet.

Module FleetVersions.

Definition fleetVersionIntelligenceSchema : string := "fleet-version-intelligence.v1".
Definition nul : string := bytes [0]%N.

(** ** The answer *)

(* src/pkg/models/models.go:558-563 FleetCompatibilityVersion *)
Record FleetCompatibilityVersion := mkVersionInfo {
  fv_Reported : string; fv_Status : string; fv_Comparable : bool; fv_Reason : string
}.

(* src/pkg/models/models.go:567-571 FleetCompatibilityAvailable *)
Record FleetCompatibilityAvailable := mkAvailable {
  fa_Hash : string; fa_Categories : list string; fa_ComponentTypes : gmap string (list string)
}.

(* src/pkg/models/models.go:575-579 FleetCompatibilityComponent *)
Record FleetCompatibilityComponent := mkComponent {
  fc_Category : string; fc_ComponentType : string; fc_Path : string
}.

(* src/pkg/models/models.go:582-585 FleetCompatibilityConfig *)
Record FleetCompatibilityConfig := mkConfigRef { fg_Hash : string; fg_Source : string }.

(* src/pkg/models/models.go:589-594 FleetCompatibilityKnownIssue *)
Record FleetCompatibilityKnownIssue := mkIssue {
  ki_Code : string; ki_Severity : string; ki_AffectedVersion : string; ki_Message : string
}.

(* src/pkg/models/models.go:598-602 FleetCompatibilityOpAMP *)
Record FleetCompatibilityOpAMP := mkOpAMP {
  fo_AcceptsRemoteConfig : bool; fo_RemoteConfigStatus : string; fo_ConfigHash : string
}.

(* src/pkg/models/models.go:606-609 FleetCompatibilityReason *)
Record FleetCompatibilityReason := mkReason { fr_Code : string; fr_Message : string }.

(* src/pkg/models/models.go:541-554 FleetCompatibilityMatrixEntry *)
Record FleetCompatibilityMatrixEntry := mkCompatibility {
  ce_WorkloadID : string; ce_DisplayName : string; ce_Group : string; ce_Status : string;
  ce_Version : FleetCompatibilityVersion; ce_AvailableComponents : FleetCompatibilityAvailable;
  ce_RequiredComponents : list FleetCompatibilityComponent; ce_Config : FleetCompatibilityConfig;
  ce_KnownIssues : list FleetCompatibilityKnownIssue; ce_OpAMP : FleetCompatibilityOpAMP;
  ce_Runnable : bool; ce_BlockingReasons : list FleetCompatibilityReason
}.

(* src/pkg/models/models.go:533-537 FleetCompatibilityCollectorSummary *)
Record FleetCompatibilityCollectorSummary := mkCollectorSummary {
  fs_WorkloadID : string; fs_DisplayName : string; fs_BlockingReasons : list FleetCompatibilityReason
}.

(* src/pkg/models/models.go:524-529 FleetCompatibilitySummary *)
Record FleetCompatibilitySummary := mkCompatibilitySummary {
  fy_TotalCollectors : Z; fy_RunnableCount : Z; fy_NotRunnableCount : Z;
  fy_NotRunnableCollectors : list FleetCompatibilityCollectorSummary
}.

(* src/pkg/models/models.go:613-621 FleetVersionMatrixEntry *)
Record FleetVersionMatrixEntry := mkMatrixEntry {
  me_Group : string; me_Type : string; me_Status : string; me_Version : string;
  me_VersionStatus : string; me_Count : Z; me_WorkloadIDs : list string
}.

(* src/pkg/models/models.go:625-631 FleetCollectorVersionFinding *)
Record FleetCollectorVersionFinding := mkBelow {
  fb_WorkloadID : string; fb_DisplayName : string; fb_Group : string; fb_Version : string;
  fb_RecommendedVersion : string
}.

(* src/pkg/models/models.go:635-640 FleetInvalidVersionFinding *)
Record FleetInvalidVersionFinding := mkInvalid {
  fi_WorkloadID : string; fi_DisplayName : string; fi_Version : string; fi_Reason : string
}.

(* src/pkg/models/models.go:644-653 FleetUnsupportedComponentFinding *)
Record FleetUnsupportedComponentFinding := mkUnsupported {
  fu_WorkloadID : string; fu_DisplayName : string; fu_ConfigHash : string; fu_Category : string;
  fu_ComponentType : string; fu_Path : string; fu_AvailableHash : string;
  fu_AvailableTypes : list string
}.

(* src/pkg/models/models.go:657-663 FleetVersionRecommendation *)
Record FleetVersionRecommendation := mkRecommendation {
  re_Action : string; re_WorkloadID : string; re_ConfigHash : string; re_Reason : string;
  re_Components : list string
}.

(* src/pkg/models/models.go:510-520 FleetVersionIntelligence *)
Record FleetVersionIntelligence := mkIntelligence {
  in_SchemaVersion : string; in_RecommendedVersion : string;
  in_VersionMatrix : list FleetVersionMatrixEntry; in_CompatibilitySummary : FleetCompatibilitySummary;
  in_CompatibilityMatrix : list FleetCompatibilityMatrixEntry;
  in_CollectorsBelowRecommended : list FleetCollectorVersionFinding;
  in_UnsupportedConfigComponents : list FleetUnsupportedComponentFinding;
  in_InvalidVersions : list FleetInvalidVersionFinding;
  in_Recommendations : list FleetVersionRecommendation
}.

(** ** Versions *)

(* src/internal/api/fleet_version_intelligence.go:138-157 fleetVersionStatus *)
Definition fleetVersionStatus (w : Workload) (recommended : string) (recommendedComparable : bool)
  : string :=
  if wl_Type w <>s "collector" then "not_applicable"
  else if (TrimSpace recommended =s "") || negb recommendedComparable || (TrimSpace (wl_Version w) =s "")
  then "unknown"
  else match Version.Compare (wl_Version w) recommended with
       | None => "unknown"
       | Some cmp => if Z.ltb cmp 0 then "below_recommended"
                     else if Z.ltb 0 cmp then "above_recommended" else "at_recommended"
       end.

Fixpoint first_of (labels keys : gmap string string) (names : list string) : string :=
  match names with
  | [] => "ungrouped"
  | key :: rest =>
      let v := TrimSpace (default "" (labels !! key)) in
      if v <>s "" then v
      else let v := TrimSpace (default "" (keys !! key)) in
           if v <>s "" then v else first_of labels keys rest
  end.

(* src/internal/api/fleet_version_intelligence.go:159-169 workloadGroup *)
Definition workloadGroup (w : Workload) : string :=
  first_of (wl_Labels w) (wl_FingerprintKeys w)
    ["group"; "service.name"; "app.kubernetes.io/name"; "k8s.deployment.name"; "k8s.daemonset.name";
     "k8s.statefulset.name"].

(* src/internal/api/fleet_version_intelligence.go:263-272 compatibilityVersion *)
Definition compatibilityVersion (raw versionStatus : string) : FleetCompatibilityVersion :=
  let reported := TrimSpace raw in
  if reported =s "" then mkVersionInfo "unknown" "unknown" false "unknown_version"
  else match Version.Compare reported reported with
       | None => mkVersionInfo reported "unknown" false "invalid_version"
       | Some _ => mkVersionInfo reported versionStatus true ""
       end.

(* src/internal/api/fleet_version_intelligence.go:330-343 compatibilityKnownIssues *)
Definition compatibilityKnownIssues (rawVersion : string) : list FleetCompatibilityKnownIssue :=
  if rawVersion =s "" then []
  else match Version.Compare rawVersion "0.80.0" with
       | Some cmp => if Z.ltb cmp 0 then
           [mkIssue "collector_pre_0_80_remote_config_issue" "blocking" rawVersion
              "collector versions before 0.80.0 are blocked by the local compatibility catalog for remote config safety"]
           else []
       | None => []
       end.

(** ** Components *)

(* src/internal/api/fleet_version_intelligence.go:274-287 compatibilityAvailable *)
Definition compatibilityAvailable (available : option AvailableComponents) : FleetCompatibilityAvailable :=
  match available with
  | None => mkAvailable "" [] ∅
  | Some a => mkAvailable (ac_Hash a) (sorted_keys (ac_Components a)) (sort_strings <$> ac_Components a)
  end.

(* src/internal/api/fleet_version_intelligence.go:289-319 componentCapabilityBlockers *)
Definition componentCapabilityBlockers (required : list FleetCompatibilityComponent)
  (available : option AvailableComponents) : list FleetCompatibilityReason :=
  match required with
  | [] => []
  | _ =>
      let unknown := [mkReason "component_capabilities_unknown"
        "collector has not reported component capabilities for compatibility checks"] in
      match available with
      | None => unknown
      | Some a =>
          if decide (ac_Components a = ∅) then unknown
          else
            let categories := sort_strings (elements (list_to_set (map fc_Category required) : gset string)) in
            omap (fun category =>
              match ac_Components a !! category with
              | Some (_ :: _) => None
              | _ => Some (mkReason "component_capability_category_missing"
                       ("collector capabilities do not report " +:+ category +:+ " needed by this config"))
              end) categories
      end
  end.

(* src/internal/api/fleet_version_intelligence.go:321-328 compatibilityOpAMP *)
Definition compatibilityOpAMP (w : Workload) : FleetCompatibilityOpAMP :=
  match wl_RemoteConfigStatus w with
  | Some s => mkOpAMP (wl_AcceptsRemoteConfig w) (rcs_Status s) (rcs_ConfigHash s)
  | None => mkOpAMP (wl_AcceptsRemoteConfig w) "" ""
  end.

Definition component_sections : list string :=
  ["receivers"; "processors"; "exporters"; "extensions"; "connectors"].

(** [seen[key]] with the append it guards; [key] identifies an element. *)
Definition add_once {A} (key : A -> string) (st : list A * gset string) (x : A) : list A * gset string :=
  let '(out, seen) := st in
  if decide (key x ∈ seen) then (out, seen) else (out ++ [x], {[key x]} ∪ seen).
Definition once {A} (key : A -> string) (l : list A) : list A := (foldl (add_once key) ([], ∅) l).1.

Definition component_key (c : FleetCompatibilityComponent) : string :=
  fc_Category c +:+ nul +:+ fc_ComponentType c.

Section Components.
Context {yamlDoc : YamlDoc}.

Definition section_components (doc : gmap string value) (category : string)
  : list FleetCompatibilityComponent :=
  match doc !! category with
  | Some (VMap m) =>
      map (fun id => let ty := componentType id in mkComponent category ty (category +:+ "." +:+ ty))
        (sorted_keys m)
  | _ => []
  end.

(* src/internal/api/fleet_version_intelligence.go:345-376 requiredComponentsFromConfig *)
Definition requiredComponentsFromConfig (content : string) : list FleetCompatibilityComponent :=
  match yaml_document content with
  | Err _ => []
  | Ok doc => once component_key (mjoin (map (section_components (default ∅ doc)) component_sections))
  end.

(* src/internal/api/fleet_version_intelligence.go:378-385 categoryFromPath *)
Definition categoryFromPath (path : string) : string :=
  match List.find (fun category => Contains path ("." +:+ category +:+ "[") ||
                                   HasPrefix path (category +:+ ".")) component_sections with
  | Some category => category
  | None => "unknown"
  end.

Definition quote_ : string := bytes [34]%N.

(* src/internal/api/fleet_version_intelligence.go:387-394 componentTypeFromMessage *)
Definition componentTypeFromMessage (message : string) : string :=
  match cut_string message (" type " +:+ quote_) with
  | Some (_, rest) => before_char rest (Ascii.ascii_of_N 34)
  | None => ""
  end.

Definition unsupported_key (f : FleetUnsupportedComponentFinding) : string :=
  fu_ConfigHash f +:+ nul +:+ fu_Category f +:+ nul +:+ fu_ComponentType f +:+ nul +:+ fu_Path f.

(** The finding for one validation error. *)
Definition unsupported_finding (w : Workload) (available : AvailableComponents) (configID : string)
  (err : Error) : FleetUnsupportedComponentFinding :=
  let category := categoryFromPath (er_Path err) in
  let ty := componentTypeFromMessage (er_Message err) in
  mkUnsupported (wl_ID w) (wl_DisplayName w) configID category (if ty =s "" then "unknown" else ty)
    (er_Path err) (ac_Hash available) (default [] (ac_Components available !! category)).

(** [target] is the configuration the workload runs or should run. *)
(* src/internal/api/fleet_version_intelligence.go:171-206 unsupportedComponentsForWorkload *)
Definition unsupportedComponents (now : Time) (w : Workload) (target : option WorkloadConfig)
  : list FleetUnsupportedComponentFinding :=
  match wl_AvailableComponents w, target with
  | Some available, Some t =>
      let result := Validate now (wc_Content t) (Some available) in
      if rs_Valid result then []
      else once unsupported_key
        (map (unsupported_finding w available (wc_ConfigID t))
           (List.filter (fun err => er_Code err =s "component_not_installed") (rs_Errors result)))
  | _, _ => []
  end.

(** ** The verdict on a collector *)

Definition issue_blockers (issues : list FleetCompatibilityKnownIssue) : list FleetCompatibilityReason :=
  map (fun i => mkReason "known_issue" (ki_Message i))
    (List.filter (fun i => ki_Severity i =s "blocking") issues).

(* src/internal/api/fleet_version_intelligence.go:220-261 compatibilityEntryForWorkload *)
Definition compatibilityEntry (w : Workload) (group versionStatus : string)
  (unsupported : list FleetUnsupportedComponentFinding) (target : option WorkloadConfig)
  : FleetCompatibilityMatrixEntry :=
  let required := match target with Some t => requiredComponentsFromConfig (wc_Content t) | None => [] end in
  let version := compatibilityVersion (wl_Version w) versionStatus in
  let issues := compatibilityKnownIssues (wl_Version w) in
  let reasons :=
    componentCapabilityBlockers required (wl_AvailableComponents w) ++
    (if negb (fv_Comparable version) then
       [mkReason (fv_Reason version) ("collector version " +:+ Quote (wl_Version w) +:+ " cannot be compared")]
     else []) ++
    map (fun f => mkReason "unsupported_component" (fu_Category f +:+ " " +:+ Quote (fu_ComponentType f) +:+
      " is required by config " +:+ fu_ConfigHash f +:+ " but is not installed")) unsupported ++
    issue_blockers issues ++
    (if negb (wl_AcceptsRemoteConfig w) then
       [mkReason "remote_config_not_accepted" "collector has not reported OpAMP remote config acceptance"]
     else []) in
  mkCompatibility (wl_ID w) (wl_DisplayName w) group (wl_Status w) version
    (compatibilityAvailable (wl_AvailableComponents w)) required
    match target with
    | Some t => mkConfigRef (wc_ConfigID t) "active_or_applied"
    | None => mkConfigRef "" "none"
    end issues (compatibilityOpAMP w) (Nat.eqb (length reasons) 0) reasons.

End Components.

(** ** The report *)

(** What one collector adds to the report: its row of the compatibility matrix
    and its findings, in the order they are appended. *)
Record contribution := mkContribution {
  co_invalid : list FleetInvalidVersionFinding; co_below : list FleetCollectorVersionFinding;
  co_unsupported : list FleetUnsupportedComponentFinding;
  co_recommendations : list FleetVersionRecommendation; co_entry : FleetCompatibilityMatrixEntry
}.

Definition version_findings (w : Workload) (group recommended : string) (recommendedComparable : bool)
  : list FleetInvalidVersionFinding * list FleetCollectorVersionFinding * list FleetVersionRecommendation :=
  let invalid r := [mkInvalid (wl_ID w) (wl_DisplayName w) (wl_Version w) r] in
  if negb recommendedComparable then ([], [], [])
  else if TrimSpace (wl_Version w) =s "" then (invalid "empty_version", [], [])
  else match Version.Compare (wl_Version w) recommended with
       | None => (invalid "invalid_semver", [], [])
       | Some cmp =>
           if Z.ltb cmp 0 then
             ([], [mkBelow (wl_ID w) (wl_DisplayName w) group (wl_Version w) recommended],
              [mkRecommendation "upgrade_collector" (wl_ID w) "" ("collector version " +:+ wl_Version w +:+
                 " is below recommended " +:+ recommended) []])
           else ([], [], [])
       end.

Definition unsupported_recommendations (f : FleetUnsupportedComponentFinding)
  : list FleetVersionRecommendation :=
  [mkRecommendation "choose_older_config" (fu_WorkloadID f) (fu_ConfigHash f)
     "current collector capabilities do not support this config component" [fu_ComponentType f];
   mkRecommendation "remove_component" (fu_WorkloadID f) (fu_ConfigHash f)
     "remove or replace unsupported component before pushing this config" [fu_ComponentType f]].

Definition matrix_version (w : Workload) : string :=
  let v := TrimSpace (wl_Version w) in if v =s "" then "unknown" else v.
Definition matrix_key (w : Workload) : string :=
  workloadGroup w +:+ nul +:+ wl_Type w +:+ nul +:+ wl_Status w +:+ nul +:+ matrix_version w.

(** [entry.Count++] and the appended identifier, on a new entry where needed. *)
(* src/internal/api/fleet_version_intelligence.go:43-64 handleFleetVersionIntelligence *)
Definition add_to_matrix (recommended : string) (recommendedComparable : bool)
  (m : gmap string FleetVersionMatrixEntry) (w : Workload) : gmap string FleetVersionMatrixEntry :=
  let entry := default (mkMatrixEntry (workloadGroup w) (wl_Type w) (wl_Status w) (matrix_version w)
    (fleetVersionStatus w recommended recommendedComparable) 0 []) (m !! matrix_key w) in
  <[matrix_key w := mkMatrixEntry (me_Group entry) (me_Type entry) (me_Status entry) (me_Version entry)
     (me_VersionStatus entry) (me_Count entry + 1) (me_WorkloadIDs entry ++ [wl_ID w])]> m.

Definition entry_key (x : FleetVersionMatrixEntry) : string :=
  Join nul [me_Group x; me_Type x; me_Status x; me_Version x].

(** [sort.Strings(entry.WorkloadIDs)]. *)
Definition sorted_entry (x : FleetVersionMatrixEntry) : FleetVersionMatrixEntry :=
  mkMatrixEntry (me_Group x) (me_Type x) (me_Status x) (me_Version x) (me_VersionStatus x) (me_Count x)
    (sort_strings (me_WorkloadIDs x)).

Definition versionMatrix (recommended : string) (recommendedComparable : bool) (items : list Workload)
  : list FleetVersionMatrixEntry :=
  let m := foldl (add_to_matrix recommended recommendedComparable) ∅ items in
  sort_by (fun a b => entry_key a <s entry_key b) (map sorted_entry (map_to_list m).*2).

Definition not_runnable (x : FleetCompatibilityMatrixEntry) : FleetCompatibilityCollectorSummary :=
  mkCollectorSummary (ce_WorkloadID x) (ce_DisplayName x) (ce_BlockingReasons x).

Definition assemble (recommended : string) (recommendedComparable : bool) (items : list Workload)
  (collectors : list contribution) : FleetVersionIntelligence :=
  let entries := map co_entry collectors in
  let blocked := List.filter (fun x => negb (ce_Runnable x)) entries in
  mkIntelligence fleetVersionIntelligenceSchema recommended
    (versionMatrix recommended recommendedComparable items)
    (mkCompatibilitySummary (Z.of_nat (length entries))
       (Z.of_nat (length (List.filter ce_Runnable entries))) (Z.of_nat (length blocked))
       (sort_by (fun a b => fs_WorkloadID a <s fs_WorkloadID b) (map not_runnable blocked)))
    (sort_by (fun a b => ce_WorkloadID a <s ce_WorkloadID b) entries)
    (mjoin (map co_below collectors)) (mjoin (map co_unsupported collectors))
    (mjoin (map co_invalid collectors)) (mjoin (map co_recommendations collectors)).

Section Handler.
Context {collation : Alerts.Collation} `{UnicodeTables} `{TimestampColumn} {yamlDoc : YamlDoc} (e : aenv).
Local Open Scope api_scope.

(** The same lookups as [activeConfigContent]. *)
(* src/internal/api/fleet_version_intelligence.go:208-218 targetConfigForWorkload *)
Definition targetConfigForWorkload (w : Workload) : AM (option WorkloadConfig) := activeConfigContent e w.

(** The configuration is looked up once for the missing components (when the
    components are known) and once more for the verdict. *)
Definition inspect_collector (recommended : string) (recommendedComparable : bool) (w : Workload)
  : AM contribution :=
  let group := workloadGroup w in
  let versionStatus := fleetVersionStatus w recommended recommendedComparable in
  let '(invalid, below, upgrades) := version_findings w group recommended recommendedComparable in
  unsupported ← match wl_AvailableComponents w with
                | None => aret []
                | Some _ => target ← targetConfigForWorkload w; now ← anow e;
                            aret (unsupportedComponents now w target)
                end;
  target ← targetConfigForWorkload w;
  aret (mkContribution invalid below unsupported
    (upgrades ++ mjoin (map unsupported_recommendations unsupported))
    (compatibilityEntry w group versionStatus unsupported target)).

(* src/internal/api/fleet_version_intelligence.go:18-136 handleFleetVersionIntelligence *)
Definition handleFleetVersionIntelligence (recommended_version : string)
  : AM (reply FleetVersionIntelligence) :=
  let recommended := TrimSpace recommended_version in
  let recommendedComparable := (recommended <>s "") &&
    match Version.Compare recommended recommended with Some _ => true | None => false end in
  ws ← aq e (fun d f => ListWorkloads d f false);
  match ws with
  | Err _ => aret (refuse 500 "failed to list workloads")
  | Ok items =>
      collectors ← each (inspect_collector recommended recommendedComparable)
                     (List.filter (fun w => wl_Type w =s "collector") items);
      aret (Replied 200 (assemble recommended recommendedComparable items collectors))
  end.

End Handler.

(** ** When a collector can run its configuration *)

Lemma parse_trim s : Version.parse (TrimSpace s) = Version.parse s.
Proof. unfold Version.parse. by rewrite TrimSpace_idem. Qed.

Lemma Compare_self s : Version.Compare s s = (fun _ => 0%Z) <$> Version.parse s.
Proof.
  destruct (Version.parse s) as [v|] eqn:E; [|unfold Version.Compare; by rewrite E].
  rewrite (Version.Compare_parsed _ _ _ _ E E), (cmp_refl Version.semver_cmp). done.
Qed.

Lemma comparable_iff raw versionStatus :
  fv_Comparable (compatibilityVersion raw versionStatus) = true <-> is_Some (Version.parse raw).
Proof.
  unfold compatibilityVersion. rewrite Compare_self, parse_trim.
  destruct (TrimSpace raw =s "") eqn:E.
  - split; [done|]. unfold Version.parse. rewrite E. by intros [].
  - destruct (Version.parse raw); cbn; [by split; eauto|]. split; [done|]. by intros [].
Qed.

Definition minimal : Version.semver := Version.mkSemver 0 80 0 [].

Lemma known_issue_iff raw v :
  Version.parse raw = Some v ->
  issue_blockers (compatibilityKnownIssues raw) = [] <-> Version.semver_cmp v minimal <> Lt.
Proof.
  intros Hv. unfold compatibilityKnownIssues.
  assert (raw =s "" = false) as -> by (destruct raw; [discriminate Hv|reflexivity]).
  rewrite (Version.Compare_parsed _ "0.80.0" v minimal Hv) by reflexivity.
  by destruct (Version.semver_cmp v minimal).
Qed.

(** The reported capabilities cover a needed category. *)
Definition category_reported (available : option AvailableComponents) (category : string) : Prop :=
  exists a t ts, available = Some a /\ ac_Components a !! category = Some (t :: ts).

Lemma capability_blockers_iff required available :
  componentCapabilityBlockers required available = [] <->
  forall c, c ∈ required -> category_reported available (fc_Category c).
Proof.
  unfold componentCapabilityBlockers, category_reported.
  destruct required as [|c0 required]; [split; [by intros _ c ?%elem_of_nil|done]|].
  destruct available as [a|].
  2:{ split; [done|]. intros Hr. destruct (Hr c0) as (? & ? & ? & ? & _); [left|done]. }
  case_decide as He.
  { split; [done|]. intros Hr. destruct (Hr c0) as (a' & ? & ? & [= <-] & Hl); [left|].
    by rewrite He, lookup_empty in Hl. }
  rewrite omap_nil. split.
  - intros Hn c Hc. pose proof (Hn (fc_Category c)) as Hs. ospecialize (Hs _).
    { unfold sort_strings. rewrite sort_by_perm, elem_of_elements, elem_of_list_to_set.
      apply list_elem_of_fmap. eauto. }
    destruct (ac_Components a !! fc_Category c) as [[|t ts]|] eqn:E; [done| |done].
    eauto 10.
  - intros Hr category Hc. unfold sort_strings in Hc.
    rewrite sort_by_perm, elem_of_elements, elem_of_list_to_set in Hc.
    apply list_elem_of_fmap in Hc as (c & -> & Hc).
    destruct (Hr c Hc) as (a' & t & ts & [= <-] & ->). done.
Qed.

Section Verdict.
Context {yamlDoc : YamlDoc}.

(** What the configuration needs of the collector. *)
Definition needed (target : option WorkloadConfig) : list FleetCompatibilityComponent :=
  match target with Some t => requiredComponentsFromConfig (wc_Content t) | None => [] end.

(** a collector is reported runnable exactly when its version parses and is
    not older than 0.80.0, it accepts remote configurations, no component of its
    configuration was found missing, and its reported capabilities cover every
    section its configuration defines components in; otherwise the blocking
    reasons are not empty. *)
Theorem runnable_iff w group versionStatus unsupported target :
  let x := compatibilityEntry w group versionStatus unsupported target in
  (ce_Runnable x = true <-> ce_BlockingReasons x = []) /\
  (ce_Runnable x = true <->
     (exists v, Version.parse (wl_Version w) = Some v /\ Version.semver_cmp v minimal <> Lt) /\
     wl_AcceptsRemoteConfig w = true /\ unsupported = [] /\
     forall c, c ∈ needed target -> category_reported (wl_AvailableComponents w) (fc_Category c)).
Proof.
  cbv zeta. assert (forall l : list FleetCompatibilityReason, Nat.eqb (length l) 0 = true <-> l = []) as Hl
    by (intros []; naive_solver).
  unfold compatibilityEntry. cbn [ce_Runnable ce_BlockingReasons]. rewrite Hl. split; [done|].
  fold (needed target). rewrite !app_nil, capability_blockers_iff.
  pose proof (comparable_iff (wl_Version w) versionStatus) as Hc.
  destruct (fv_Comparable _); cbn [negb].
  - destruct (proj1 Hc eq_refl) as [v Hv]. rewrite (known_issue_iff _ v Hv).
    destruct (wl_AcceptsRemoteConfig w); cbn [negb]; [|naive_solver].
    destruct unsupported; naive_solver.
  - split; [naive_solver|]. intros ((v & Hv & _) & _). discriminate (proj2 Hc (ex_intro _ v Hv)).
Qed.

End Verdict.

(** ** Missing components are named correctly *)

Lemma collected_errors r c er :
  er ∈ rs_Errors (collectCheckMessages r c) <->
  er ∈ rs_Errors r \/ exists m, m ∈ ck_Messages c /\ is_error m = true /\
    er = mkError (ms_Code m) (ms_Message m) (ms_Path m) (ck_ID c).
Proof.
  unfold collectCheckMessages. generalize (ck_ID c) as id. intros id.
  generalize (ck_Messages c) as l. intros l. revert r. induction l as [|m l IH]; intros r; cbn [foldl].
  - split; [by left|]. intros [|(m & ?%elem_of_nil & _)]; done.
  - rewrite IH. setoid_rewrite elem_of_cons. unfold is_error at 2.
    cbn [ms_Severity ms_Code ms_Message ms_Path].
    destruct (ms_Severity m =s "error") eqn:E.
    + cbn [add_error rs_Errors]. rewrite elem_of_app, list_elem_of_singleton. unfold is_error.
      split; [intros [[|]|]; [by left|right; exists m; auto|naive_solver]|]. naive_solver.
    + destruct (ms_Severity m =s "warning"); cbn [add_warning rs_Errors]; unfold is_error; naive_solver congruence.
Qed.

(** Paths of references: pipeline sections and extensions. *)
Definition ref_path (root : gmap string yaml) (category path : string) : Prop :=
  (exists service pipelines name i, service_of root service pipelines /\ is_Some (pipelines !! name) /\
     category ∈ section_names /\ path = section_path name category i) \/
  (category = "extensions" /\ exists i, path = "service.extensions[" +:+ Itoa i +:+ "]").

Lemma check_refs_path defined cat path text ids r :
  r ∈ (check_refs defined cat path text ids).2 -> cr_Category r = cat /\ exists i, cr_Path r = path i.
Proof.
  cbn. rewrite list_elem_of_omap. intros ([i id] & _ & Hr). case_match; simplify_eq. cbn. eauto.
Qed.

Lemma check_refs_code defined cat path text ids m :
  m ∈ (check_refs defined cat path text ids).1 -> ms_Code m = "undefined_component".
Proof. cbn. rewrite list_elem_of_omap. intros ([i id] & _ & Hm). by case_match; simplify_eq. Qed.

Lemma pipeline_ref_path defined name raw r :
  r ∈ (check_pipeline defined name raw).2 ->
  cr_Category r ∈ section_names /\ exists i, cr_Path r = section_path name (cr_Category r) i.
Proof.
  destruct raw; try by intros ?%elem_of_nil. cbn [check_pipeline snd].
  rewrite list_elem_of_join. intros (l & Hr & Hl). apply list_elem_of_fmap in Hl as (x & -> & Hx).
  apply list_elem_of_fmap in Hx as ([s c] & -> & Hsc). apply pipelineSections_diag in Hsc as [-> Hs].
  apply check_refs_path in Hr as [-> Hp]. done.
Qed.

Lemma pipeline_code defined name raw m :
  m ∈ (check_pipeline defined name raw).1 -> ms_Code m <> "component_not_installed".
Proof.
  destruct raw; try by intros ->%list_elem_of_singleton. cbn [check_pipeline fst].
  rewrite elem_of_app, list_elem_of_join. intros [Hm|(l & Hm & Hl)].
  - apply list_elem_of_omap in Hm as (q & _ & Hm). by case_match; simplify_eq.
  - apply list_elem_of_fmap in Hl as (x & -> & Hx).
    apply list_elem_of_fmap in Hx as ([s c] & -> & _). apply check_refs_code in Hm. congruence.
Qed.

Lemma gathered_ref_path root service pipelines r :
  service_of root service pipelines ->
  r ∈ mjoin (map snd (per_pipeline root pipelines)) ++ snd (ext_refs root service) ->
  ref_path root (cr_Category r) (cr_Path r).
Proof.
  intros Hsv. rewrite elem_of_app, list_elem_of_join. intros [(l & Hr & Hl)|Hr].
  - apply list_elem_of_fmap in Hl as (x & -> & Hx). apply list_elem_of_fmap in Hx as (name & -> & Hn).
    apply elem_of_sorted_keys in Hn. apply pipeline_ref_path in Hr as [Hc [i Hi]].
    left. eauto 10.
  - apply check_refs_path in Hr as [Hc Hi]. by right.
Qed.

Lemma structure_paths root :
  let '(c, refs, _) := validateCollectorStructure root in
  (forall m, m ∈ ck_Messages c -> ms_Code m <> "component_not_installed") /\
  (forall r, r ∈ refs -> ref_path root (cr_Category r) (cr_Path r)).
Proof.
  unfold validateCollectorStructure.
  destruct (root !! "service") as [[| |service|]|] eqn:Hs;
    try by (split; [intros m ->%list_elem_of_singleton|intros r ?%elem_of_nil]).
  destruct (service !! "pipelines") as [[| |pipelines|]|] eqn:Hp;
    try by (split; [intros m ->%list_elem_of_singleton|intros r ?%elem_of_nil]).
  case_decide; [by split; [intros m ->%list_elem_of_singleton|intros r ?%elem_of_nil]|].
  fold (per_pipeline root pipelines). fold (ext_refs root service). split.
  - intros m. case_match; [by intros ->%list_elem_of_singleton|]. cbn [Validator.with_status with_messages ck_Messages].
    rewrite elem_of_app, list_elem_of_join. intros [(l & Hm & Hl)|Hm].
    + apply list_elem_of_fmap in Hl as (x & -> & Hx). apply list_elem_of_fmap in Hx as (name & -> & _).
      by eapply pipeline_code.
    + apply check_refs_code in Hm. congruence.
  - intros r. by apply gathered_ref_path.
Qed.

(** The message about a component whose type the target did not report. *)
Definition missing_message (r : componentRef) (installed : list string) : Message :=
  msg "component_not_installed" "error"
    (singular (cr_Category r) +:+ " type " +:+ Quote (componentType (cr_ID r)) +:+
     " is not installed on the target workload (available: " +:+ Join ", " installed +:+ ")") (cr_Path r).

Lemma available_messages components refs ms warned m :
  m ∈ (foldl (check_available components) (ms, warned) refs).1 ->
  ms_Code m = "component_not_installed" ->
  m ∈ ms \/ exists r installed, r ∈ refs /\ components !! cr_Category r = Some installed /\
    componentType (cr_ID r) ∉ installed /\ m = missing_message r installed.
Proof.
  revert ms warned. induction refs as [|r refs IH]; intros ms warned; cbn [foldl]; [by left|].
  intros Hm Hc. setoid_rewrite elem_of_cons. unfold check_available at 2 in Hm.
  destruct (components !! cr_Category r) as [inst|] eqn:Hi.
  - destruct (existsb _ inst) eqn:He.
    + destruct (IH _ _ Hm Hc) as [Hin|(q & i & ? & ? & ? & ?)]; [by left|right; exists q, i; auto].
    + destruct (IH _ _ Hm Hc) as [Hin|(q & i & ? & ? & ? & ?)]; [|right; exists q, i; auto].
      apply elem_of_app in Hin as [|Hin%list_elem_of_singleton]; [by left|]. right. exists r, inst.
      split_and!; [by left|done| |done]. rewrite <-existsb_eqb_elem. congruence.
  - case_decide; destruct (IH _ _ Hm Hc) as [Hin|(q & i & ? & ? & ? & ?)]; try (by left);
      try (right; exists q, i; by auto).
    apply elem_of_app in Hin as [|Hin%list_elem_of_singleton]; [by left|]. by subst m.
Qed.

Lemma availability_messages refs available m :
  m ∈ ck_Messages (validateComponentAvailability refs available) ->
  ms_Code m = "component_not_installed" ->
  exists a r installed, available = Some a /\ r ∈ refs /\
    ac_Components a !! cr_Category r = Some installed /\
    componentType (cr_ID r) ∉ installed /\ m = missing_message r installed.
Proof.
  unfold validateComponentAvailability.
  destruct available as [a|]; [|by intros ->%list_elem_of_singleton].
  case_decide; [by intros ->%list_elem_of_singleton|].
  pose proof (available_messages (ac_Components a) refs [] ∅ m) as Hf.
  destruct (foldl _ _ _) as [ms w]. cbn [Validator.with_status with_messages ck_Status].
  case_match; cbn; [by intros ->%list_elem_of_singleton|]. intros Hm Hc.
  destruct (Hf Hm Hc) as [?%elem_of_nil|(r & i & ? & ? & ? & ?)]; [done|eauto 10].
Qed.

Lemma finalize_errors r : rs_Errors (Validator.finalize r) = rs_Errors r.
Proof. unfold Validator.finalize. by destruct (rs_Errors r); [case_if|]. Qed.

(** Sections are told apart by their bracketed name at the end of a path. *)
Lemma contains_section pre cat q c :
  no_char "[" pre -> no_char "[" cat -> no_char "[" q -> no_char "." cat -> no_char "." c ->
  Contains (pre +:+ "." +:+ cat +:+ "[" +:+ q) ("." +:+ c +:+ "[") = true <-> c = cat.
Proof.
  intros Hpre Hcat Hq Dcat Dc. rewrite Contains_spec. split.
  - intros (a & b & Hab).
    assert ((a +:+ String "." c) +:+ String "[" b = (pre +:+ String "." cat) +:+ String "[" q) as Heq.
    { rewrite !str_app_assoc. symmetry. exact (eq_trans Hab (f_equal (String.append a)
        (f_equal (String ".") (str_app_assoc c (String "[" "") b)))). }
    apply unique_split in Heq as [Heq _]; [|by apply no_char_app; split; [|constructor]|done].
    by apply last_split in Heq.
  - intros ->. exists pre, q. by rewrite !str_app_assoc.
Qed.

Lemma find_only {A} (P : A -> bool) l x :
  x ∈ l -> (forall y, y ∈ l -> P y = true <-> y = x) -> List.find P l = Some x.
Proof.
  induction l as [|y l IH]; [by intros ?%elem_of_nil|]. intros Hx HP. cbn.
  destruct (P y) eqn:E; [by apply HP in E as ->; [|left]|].
  apply IH; [|intros z Hz; apply HP; by right].
  apply elem_of_cons in Hx as [->|]; [|done]. by rewrite (proj2 (HP y ltac:(left)) eq_refl) in E.
Qed.

Lemma sections_plain c : c ∈ component_sections -> no_char "[" c /\ no_char "." c.
Proof.
  unfold component_sections. rewrite !elem_of_cons, elem_of_nil.
  intros [->|[->|[->|[->|[->|[]]]]]]; split; repeat (constructor; [vm_compute; done|]); constructor.
Qed.

Lemma bracket_index i : no_char "[" (Itoa i +:+ "]").
Proof.
  apply no_char_app. split; [apply digits_no_char; [done|apply Itoa_digits]|].
  constructor; [done|constructor].
Qed.

Lemma not_section_prefix c rest : c ∈ component_sections -> HasPrefix ("service" +:+ rest) (c +:+ ".") = false.
Proof.
  unfold component_sections. rewrite !elem_of_cons, elem_of_nil.
  by intros [->|[->|[->|[->|[->|[]]]]]].
Qed.

Lemma category_of_path pre category i :
  category ∈ component_sections -> no_char "[" pre ->
  categoryFromPath ("service" +:+ pre +:+ "." +:+ category +:+ "[" +:+ Itoa i +:+ "]") = category.
Proof.
  intros Hc Hpre. unfold categoryFromPath.
  rewrite (find_only _ component_sections category); [done..|]. intros c Hc'.
  rewrite not_section_prefix, orb_false_r by done.
  destruct (sections_plain category Hc), (sections_plain c Hc').
  rewrite <-(str_app_assoc "service" pre).
  apply contains_section; try done; [|apply bracket_index].
  apply no_char_app. split; [|done]. repeat (constructor; [vm_compute; done|]). constructor.
Qed.

Lemma type_of_message category ty rest :
  category ∈ component_sections -> plain_text ty = true ->
  componentTypeFromMessage (singular category +:+ " type " +:+ Quote ty +:+ rest) = ty.
Proof.
  intros Hc Hty. unfold componentTypeFromMessage, Quote.
  assert (no_char " " (singular category)) as Hs.
  { revert Hc. unfold component_sections. rewrite !elem_of_cons, elem_of_nil.
    intros [->|[->|[->|[->|[->|[]]]]]]; vm_compute; repeat (constructor; [done|]); constructor. }
  rewrite quote_body_plain by done.
  pose proof (cut_string_first " " ("type " +:+ quote_) (singular category)
    (ty +:+ String (Ascii.ascii_of_N 34) rest) Hs) as Hcut.
  change (String " " ("type " +:+ quote_)) with (" type " +:+ quote_) in Hcut.
  assert (singular category +:+ " type " +:+ (bytes [34]%N +:+ ty +:+ bytes [34]%N) +:+ rest =
          singular category +:+ (" type " +:+ quote_) +:+ ty +:+ String (Ascii.ascii_of_N 34) rest) as ->.
  { rewrite !str_app_assoc. done. }
  rewrite Hcut. unfold before_char. by rewrite Cut_first by by apply plain_text_quote.
Qed.

(** *** Completeness *)

Lemma passed_no_errors ms m : statusWithWarnings ms = "passed" -> m ∈ ms -> is_error m = false.
Proof.
  unfold is_error. induction ms as [|x ms IH]; [by intros _ ?%elem_of_nil|]. cbn.
  destruct (ms_Severity x =s "error") eqn:E; [done|].
  destruct (ms_Severity x =s "warning"); [done|]. intros Hs [->|Hm]%elem_of_cons; auto.
Qed.

Lemma available_keeps components refs ms warned m :
  m ∈ ms -> m ∈ (foldl (check_available components) (ms, warned) refs).1.
Proof.
  revert ms warned. induction refs as [|r refs IH]; intros ms warned Hm; [done|]. cbn [foldl].
  unfold check_available at 2. repeat case_match; apply IH; rewrite ?elem_of_app; auto.
Qed.

Lemma available_reports components refs ms warned r installed :
  r ∈ refs -> components !! cr_Category r = Some installed -> componentType (cr_ID r) ∉ installed ->
  missing_message r installed ∈ (foldl (check_available components) (ms, warned) refs).1.
Proof.
  revert ms warned. induction refs as [|q refs IH]; intros ms warned; [by intros ?%elem_of_nil|].
  intros [<-|Hr]%elem_of_cons Hi Hn; cbn [foldl].
  - unfold check_available at 2. rewrite Hi.
    rewrite <-existsb_eqb_elem in Hn. destruct (existsb _ installed); [done|].
    apply available_keeps. rewrite elem_of_app, list_elem_of_singleton. by right.
  - destruct (check_available _ (ms, warned) q) as [ms' warned']. by apply IH.
Qed.

Lemma availability_reports refs a r installed :
  r ∈ refs -> ac_Components a !! cr_Category r = Some installed -> componentType (cr_ID r) ∉ installed ->
  missing_message r installed ∈ ck_Messages (validateComponentAvailability refs (Some a)).
Proof.
  intros Hr Hi Hn. unfold validateComponentAvailability.
  case_decide as He; [by rewrite He, lookup_empty in Hi|].
  pose proof (available_reports _ _ [] ∅ _ _ Hr Hi Hn) as Hm. destruct (foldl _ _ _) as [ms w]. cbn in Hm.
  cbn [Validator.with_status with_messages ck_Status].
  destruct (statusWithWarnings ms =s "passed") eqn:E; reflect_bools; [|done].
  by pose proof (passed_no_errors _ _ E Hm).
Qed.

Section Exact.
Context {yamllib : YamlLib}.

(** On a well-formed configuration the errors name exactly the referenced
    components whose type a reported category lacks. *)
Lemma missing_errors_exact now content root a :
  yaml_unmarshal content = Ok (Some root) -> well_formed root ->
  let errors := List.filter (fun er => er_Code er =s "component_not_installed")
                  (rs_Errors (Validate now content (Some a))) in
  (forall er, er ∈ errors -> exists r installed,
     references root (cr_Category r) (cr_ID r) /\ ref_path root (cr_Category r) (cr_Path r) /\
     ac_Components a !! cr_Category r = Some installed /\ componentType (cr_ID r) ∉ installed /\
     er_Path er = cr_Path r /\ er_Message er = ms_Message (missing_message r installed)) /\
  (forall category id installed, references root category id ->
     ac_Components a !! category = Some installed -> componentType id ∉ installed ->
     exists er r, er ∈ errors /\ cr_Category r = category /\ cr_ID r = id /\
       ref_path root category (cr_Path r) /\
       er_Path er = cr_Path r /\ er_Message er = ms_Message (missing_message r installed)).
Proof.
  intros Hroot Hwf. cbv zeta. unfold Validate. rewrite finalize_errors. unfold validateStatic. rewrite Hroot.
  pose proof (structure_paths root) as Hpath. pose proof (structure_correct root) as Hst.
  destruct (validateCollectorStructure root) as [[c refs] def].
  destruct Hpath as [Hcode Hpath], Hst as [Hok Hfail Hrefs].
  assert (ck_Status c <>s "failed" = true) as Hs.
  { apply negb_true_iff, eqb_string_false. intros Hf%Hfail. apply Hf. by apply Hok. }
  rewrite Hs. split.
  - intros er [He Hc]%list_elem_of_In%filter_In. apply eqb_string_true in Hc.
    rewrite <-list_elem_of_In, !collected_errors in He. cbn [add_check rs_Errors] in He.
    rewrite !collected_errors in He. cbn [add_check rs_Errors] in He. rewrite collected_errors in He.
    destruct He as [[[?%elem_of_nil|(m & Hm & _ & ->)]|(m & Hm & _ & ->)]|(m & Hm & Herr & _)];
      [done|by destruct (Hcode m)| |by rewrite (version_check_ok "" "" m Hm) in Herr].
    destruct (availability_messages _ _ _ Hm Hc) as (a' & r & inst & [= <-] & Hr & Hi & Hn & ->).
    exists r, inst. split_and!; try done; [|by apply Hpath]. apply Hrefs; [done|]. destruct r; eauto.
  - intros category id installed Hr Hi Hn. apply Hrefs in Hr as [path Hr]; [|done].
    pose proof (availability_reports refs a (mkRef category id path) installed Hr Hi Hn) as Hm.
    exists (mkError "component_not_installed" (ms_Message (missing_message (mkRef category id path) installed))
      path (ck_ID (validateComponentAvailability refs (Some a)))), (mkRef category id path).
    split_and!; try done; [|by apply (Hpath _ Hr)].
    apply list_elem_of_In, filter_In. split; [|done]. apply list_elem_of_In.
    rewrite !collected_errors. left. cbn [add_check rs_Errors]. rewrite collected_errors. right.
    eexists. split_and!; [exact Hm|done|done].
Qed.
End Exact.

Lemma once_sound {A} (key : A -> string) l x : x ∈ once key l -> x ∈ l.
Proof.
  unfold once. assert (forall out seen, x ∈ (foldl (add_once key) (out, seen) l).1 -> x ∈ out \/ x ∈ l) as Hf.
  { induction l as [|y l IH]; intros out seen; cbn [foldl]; [by left|]. rewrite elem_of_cons.
    unfold add_once at 2. case_decide; intros [Hx|Hx]%IH; auto.
    apply elem_of_app in Hx as [|Hx%list_elem_of_singleton]; auto. }
  intros Hx%Hf. destruct Hx as [?%elem_of_nil|]; done.
Qed.

Lemma once_keeps {A} (key : A -> string) l out seen x :
  x ∈ out -> x ∈ (foldl (add_once key) (out, seen) l).1.
Proof.
  revert out seen. induction l as [|y l IH]; intros out seen Hx; [done|]. cbn [foldl].
  unfold add_once at 2. case_decide; apply IH; rewrite ?elem_of_app; auto.
Qed.

Lemma once_complete {A} (key : A -> string) l x :
  x ∈ l -> exists y, y ∈ once key l /\ key y = key x.
Proof.
  unfold once.
  assert (forall out seen, (forall k, k ∈ seen -> exists y, y ∈ out /\ key y = k) ->
    (x ∈ l \/ x ∈ out) -> exists y, y ∈ (foldl (add_once key) (out, seen) l).1 /\ key y = key x) as Hf.
  { induction l as [|z l IH]; intros out seen Hseen; cbn [foldl].
    - intros [?%elem_of_nil|]; [done|eauto].
    - rewrite elem_of_cons. intros Hx. unfold add_once at 2. case_decide as Hz.
      + destruct Hx as [[->|]|]; [|by apply IH; auto..].
        destruct (Hseen _ Hz) as (y & Hy & Ey). rewrite <-Ey. exists y. split; [by apply once_keeps|done].
      + apply IH; [|rewrite elem_of_app, list_elem_of_singleton; naive_solver].
        intros k [->%elem_of_singleton|Hk]%elem_of_union.
        * exists z. rewrite elem_of_app, list_elem_of_singleton. auto.
        * destruct (Hseen k Hk) as (y & Hy & <-). exists y. rewrite elem_of_app. auto. }
  intros Hx. apply (Hf [] ∅); [set_solver|by left].
Qed.

(** Names the paths and messages keep apart: no bracket in a pipeline's name, no
    character in a component's type that quoting would change. *)
Definition plain_names (root : gmap string yaml) : Prop :=
  (forall service pipelines name, service_of root service pipelines -> is_Some (pipelines !! name) ->
     no_char "[" name) /\
  (forall category id, references root category id ->
     plain_text (componentType id) = true /\ componentType id <> "").

Lemma ref_path_category root category path :
  plain_names root -> ref_path root category path ->
  category ∈ component_sections /\ categoryFromPath path = category.
Proof.
  intros [Hnames _] [(service & pipelines & name & i & Hsv & Hn & Hc & ->)|(-> & i & ->)].
  - assert (category ∈ component_sections) as Hc'
      by (unfold section_names in Hc; unfold component_sections; set_solver).
    split; [done|].
    apply (category_of_path (".pipelines." +:+ name) category i Hc').
    apply no_char_app. split; [repeat (constructor; [vm_compute; done|]); constructor|eauto].
  - split; [unfold component_sections; set_solver|].
    apply (category_of_path "" "extensions" i); [unfold component_sections; set_solver|constructor].
Qed.

Lemma finding_named root w a configID r installed er :
  plain_names root -> references root (cr_Category r) (cr_ID r) ->
  ref_path root (cr_Category r) (cr_Path r) -> ac_Components a !! cr_Category r = Some installed ->
  er_Path er = cr_Path r -> er_Message er = ms_Message (missing_message r installed) ->
  unsupported_finding w a configID er =
  mkUnsupported (wl_ID w) (wl_DisplayName w) configID (cr_Category r) (componentType (cr_ID r))
    (cr_Path r) (ac_Hash a) installed.
Proof.
  intros Hp Hr Hpath Hi Ep Em. destruct (ref_path_category _ _ _ Hp Hpath) as [Hc Ec].
  destruct (proj2 Hp _ _ Hr) as [Ht Hne].
  unfold unsupported_finding. rewrite Ep, Em, Ec. unfold missing_message. cbn [ms_Message msg].
  rewrite type_of_message by done. apply eqb_string_false in Hne. by rewrite Hne, Hi.
Qed.

Lemma cut_inj c x y u v :
  no_char c x -> no_char c u -> x +:+ String c y = u +:+ String c v -> x = u /\ y = v.
Proof.
  intros Hx Hu E. apply (f_equal (fun s => Cut s c)) in E. rewrite !Cut_first in E by done.
  by injection E.
Qed.

Lemma key_names f g :
  fu_ConfigHash f = fu_ConfigHash g -> no_char zero (fu_Category f) -> no_char zero (fu_Category g) ->
  no_char zero (fu_ComponentType f) -> no_char zero (fu_ComponentType g) ->
  unsupported_key f = unsupported_key g ->
  fu_Category f = fu_Category g /\ fu_ComponentType f = fu_ComponentType g.
Proof.
  unfold unsupported_key. intros -> Hf Hg Tf Tg Hk. apply (inj (String.append _)) in Hk.
  injection Hk as Hk. change (bytes [0]%N) with (String zero "") in *.
  apply cut_inj in Hk as [-> Hk]; [|done..]. by apply cut_inj in Hk as [-> _].
Qed.

Lemma plain_no_zero s : plain_text s = true -> no_char zero s.
Proof.
  induction s as [|c s IH]; cbn; [constructor|]. intros [Hc Hs]%andb_true_iff.
  constructor; [|by apply IH]. intros E. unfold plain_char in Hc. by rewrite E in Hc.
Qed.

Lemma section_no_zero c : c ∈ component_sections -> no_char zero c.
Proof.
  unfold component_sections. rewrite !elem_of_cons, elem_of_nil.
  intros [->|[->|[->|[->|[->|[]]]]]]; repeat (constructor; [vm_compute; done|]); constructor.
Qed.

Section Named.
Context {yamlDoc : YamlDoc}.

(** the components reported as unsupported are exactly the missing ones:
    on a well-formed configuration, a category and type are reported for a
    collector exactly when the configuration references a component of that
    type in that section and the collector reported the section without the type;
    the category and type recovered from the validator's texts are the real
    ones, and the types listed as available are the reported ones. *)
Theorem unsupported_components_exact now w a t root
    (Ha : wl_AvailableComponents w = Some a) (Hroot : yaml_unmarshal (wc_Content t) = Ok (Some root))
    (Hwf : well_formed root) (Hp : plain_names root) :
  (forall category ty,
    (exists f, f ∈ unsupportedComponents now w (Some t) /\ fu_Category f = category /\
               fu_ComponentType f = ty) <->
    exists id installed, references root category id /\ componentType id = ty /\
      ac_Components a !! category = Some installed /\ ty ∉ installed) /\
  (forall f, f ∈ unsupportedComponents now w (Some t) ->
     fu_WorkloadID f = wl_ID w /\ fu_ConfigHash f = wc_ConfigID t /\
     ac_Components a !! fu_Category f = Some (fu_AvailableTypes f)).
Proof.
  destruct (missing_errors_exact now (wc_Content t) root a Hroot Hwf) as [Hsound Hcomplete].
  unfold unsupportedComponents. rewrite Ha. destruct (rs_Valid _) eqn:Hv.
  { apply finalize_valid in Hv. unfold Validate in Hsound, Hcomplete. rewrite finalize_errors, Hv in *.
    split; [|by intros f ?%elem_of_nil]. intros category ty. split; [by intros (f & ?%elem_of_nil & _)|].
    intros (id & installed & Hr & <- & Hi & Hn).
    destruct (Hcomplete category id installed Hr Hi Hn) as (er & r & ?%elem_of_nil & _). done. }
  set (errors := List.filter _ _) in *.
  assert (forall f, f ∈ map (unsupported_finding w a (wc_ConfigID t)) errors -> exists r installed,
    references root (cr_Category r) (cr_ID r) /\ ref_path root (cr_Category r) (cr_Path r) /\
    ac_Components a !! cr_Category r = Some installed /\ componentType (cr_ID r) ∉ installed /\
    f = mkUnsupported (wl_ID w) (wl_DisplayName w) (wc_ConfigID t) (cr_Category r)
          (componentType (cr_ID r)) (cr_Path r) (ac_Hash a) installed) as Hall.
  { intros f (er & -> & He)%list_elem_of_fmap.
    destruct (Hsound er He) as (r & installed & Hr & Hpath & Hi & Hn & Ep & Em).
    exists r, installed. split_and!; try done. by eapply finding_named. }
  split; [intros category ty; split|].
  - intros (f & Hf%once_sound & <- & <-). destruct (Hall f Hf) as (r & inst & Hr & _ & Hi & Hn & ->).
    cbn. eauto 10.
  - intros (id & installed & Hr & <- & Hi & Hn).
    destruct (Hcomplete category id installed Hr Hi Hn) as (er & r & He & <- & <- & Hpath & Ep & Em).
    assert (unsupported_finding w a (wc_ConfigID t) er ∈ map (unsupported_finding w a (wc_ConfigID t)) errors)
      as Hin by (apply list_elem_of_fmap; eauto).
    destruct (once_complete unsupported_key _ _ Hin) as (f & Hf & Hk). exists f. split; [done|].
    apply once_sound in Hf. destruct (Hall f Hf) as (r' & inst' & Hr' & Hpath' & _ & _ & ->).
    rewrite (finding_named root w a _ r installed er) in Hk by done.
    destruct (ref_path_category _ _ _ Hp Hpath) as [Hc _], (ref_path_category _ _ _ Hp Hpath') as [Hc' _].
    destruct (proj2 Hp _ _ Hr) as [Ht _], (proj2 Hp _ _ Hr') as [Ht' _].
    apply key_names in Hk; cbn; auto using section_no_zero, plain_no_zero.
  - intros f Hf%once_sound. destruct (Hall f Hf) as (r & inst & _ & _ & Hi & _ & ->). done.
Qed.
End Named.

(** *** A configuration with a missing exporter *)

Definition demo_traces : gmap string value :=
  {["receivers" := VList [VStr "otlp"]; "exporters" := VList [VStr "kafka/eu"]]}.
Definition demo_doc : gmap string value :=
  {["receivers" := VMap {["otlp" := VNull]}; "exporters" := VMap {["kafka/eu" := VNull]};
    "service" := VMap {["pipelines" := VMap {["traces" := VMap demo_traces]}]}]}.
#[local] Instance demo_yaml : YamlDoc := {| yaml_document _ := Ok (Some demo_doc) |}.

Definition demo_collector : Workload :=
  mkWorkload "w1" "" ∅ "gateway" "collector" "0.100.0" "connected" 0 ∅ None "" None None
    (Some (mkAvailableComponents {["receivers" := ["otlp"]; "exporters" := ["debug"]]} "h")) true None None.
Definition demo_target : WorkloadConfig :=
  mkWorkloadConfig "w1" "cfg" "" 0 "applied" "" "" "doc" None "" 0 None 0 None false "" "" [] []
    0 0 0 0 0 0 [] false false false false true.

Lemma demo_well_formed : well_formed (to_yaml <$> demo_doc).
Proof.
  destruct (proj1 (static_errors (yamllib := yaml_lib) 0 "doc" None zero_options eq_refl))
    as (root & Hr & Hw & _); [vm_compute; reflexivity|]. by injection Hr as <-.
Qed.

Lemma demo_service_of service pipelines :
  service_of (to_yaml <$> demo_doc) service pipelines ->
  service = {["pipelines" := YMap {["traces" := YMap (to_yaml <$> demo_traces)]}]} /\
  pipelines = {["traces" := YMap (to_yaml <$> demo_traces)]}.
Proof.
  intros [Hs Hp]. vm_compute in Hs. injection Hs as <-. split; [vm_compute; reflexivity|].
  vm_compute in Hp. injection Hp as <-. vm_compute. reflexivity.
Qed.

Lemma demo_plain : plain_names (to_yaml <$> demo_doc).
Proof.
  split.
  - intros service pipelines name [_ ->]%demo_service_of [x [<- _]%lookup_singleton_Some].
    repeat (constructor; [vm_compute; done|]). constructor.
  - intros category id (service & pipelines & [-> ->]%demo_service_of &
      [(name & p & [_ Hp]%lookup_singleton_Some & Hc & Hid)|[_ Hid]]).
    + injection Hp as <-. unfold section_names in Hc. rewrite !elem_of_cons, elem_of_nil in Hc.
      destruct Hc as [->|[->|[->|[]]]]; vm_compute in Hid; inversion Hid as [|? ? ? Hn]; subst;
        try (by vm_compute); inversion Hn.
    + by apply elem_of_nil in Hid.
Qed.

Lemma unsupported_components_exact_witness :
  exists f, f ∈ unsupportedComponents 0 demo_collector (Some demo_target) /\
    fu_Category f = "exporters" /\ fu_ComponentType f = "kafka".
Proof.
  apply (unsupported_components_exact (yamlDoc := demo_yaml) 0 demo_collector
    (mkAvailableComponents {["receivers" := ["otlp"]; "exporters" := ["debug"]]} "h") demo_target
    (to_yaml <$> demo_doc) eq_refl ltac:(reflexivity) demo_well_formed demo_plain).
  exists "kafka/eu", ["debug"]. split_and!; [|reflexivity|reflexivity|set_solver].
  eexists _, _. split; [split; vm_compute; reflexivity|]. left. exists "traces", (to_yaml <$> demo_traces).
  split_and!; [vm_compute; reflexivity|unfold section_names; set_solver|vm_compute; left].
Defined.

(** A pipeline whose name holds a bracketed section name misleads the report: the
    missing exporter is reported as a receiver. *)
Example bracket_in_pipeline_name_misattributes :
  categoryFromPath (section_path "x.receivers[y" "exporters" 0) = "receivers".
Proof. vm_compute. reflexivity. Qed.

(** ** The version matrix *)

Definition same_key (k : string) (w : Workload) : bool := matrix_key w =s k.

(** The entry of the workloads [w :: ws]. *)
Definition entry_of (recommended : string) (comparable : bool) (w : Workload) (ws : list Workload)
  : FleetVersionMatrixEntry :=
  mkMatrixEntry (workloadGroup w) (wl_Type w) (wl_Status w) (matrix_version w)
    (fleetVersionStatus w recommended comparable) (Z.of_nat (length (w :: ws))) (map wl_ID (w :: ws)).

Lemma matrix_lookup recommended comparable items k :
  foldl (add_to_matrix recommended comparable) ∅ items !! k =
  match List.filter (same_key k) items with
  | [] => None
  | w :: ws => Some (entry_of recommended comparable w ws)
  end.
Proof.
  induction items as [|w items IH] using rev_ind; [done|].
  rewrite foldl_snoc, List.filter_app. cbn [List.filter]. unfold same_key at 2.
  set (m := foldl _ ∅ items) in *. unfold add_to_matrix. destruct (matrix_key w =s k) eqn:E; reflect_bools.
  - rewrite <-E, lookup_insert, decide_True, E, IH by done.
    destruct (List.filter (same_key k) items) as [|v vs]; [done|].
    cbn [default from_option app entry_of me_Group me_Type me_Status me_Version me_VersionStatus me_Count
      me_WorkloadIDs]. unfold entry_of.
    assert (forall l : list Workload, Z.of_nat (length (v :: l ++ [w])) = (Z.of_nat (length (v :: l)) + 1)%Z)
      as -> by (intros l; cbn [length]; rewrite length_app; cbn [length]; lia).
    change (v :: vs ++ [w]) with ((v :: vs) ++ [w]). by rewrite map_app.
  - by rewrite lookup_insert_ne, IH, app_nil_r by done.
Qed.

Lemma Compare_by_parse v v' r :
  Version.parse v = Version.parse v' -> Version.Compare v r = Version.Compare v' r.
Proof. intros E. unfold Version.Compare. by rewrite E. Qed.

Lemma status_by_version w w' recommended comparable :
  wl_Type w = wl_Type w' -> matrix_version w = matrix_version w' ->
  fleetVersionStatus w recommended comparable = fleetVersionStatus w' recommended comparable.
Proof.
  unfold fleetVersionStatus, matrix_version. intros -> Hv.
  destruct (wl_Type w' <>s "collector"); [done|].
  destruct (_ || negb comparable) eqn:Ec; [done|]. cbn [orb].
  assert (forall x, TrimSpace x = "unknown" -> Version.Compare x recommended = None) as Hu.
  { intros x Hx. rewrite (Compare_by_parse x "unknown"); [done|]. by rewrite <-parse_trim, Hx. }
  destruct (TrimSpace (wl_Version w) =s "") eqn:E1, (TrimSpace (wl_Version w') =s "") eqn:E2; try done.
  - by rewrite Hu.
  - by rewrite Hu.
  - rewrite (Compare_by_parse (wl_Version w) (wl_Version w')); [done|].
    by rewrite <-parse_trim, Hv, parse_trim.
Qed.

Definition keyed_text (w : Workload) : Prop :=
  no_char zero (workloadGroup w) /\ no_char zero (wl_Type w) /\ no_char zero (wl_Status w).

Lemma matrix_key_inj w w' :
  keyed_text w -> keyed_text w' -> matrix_key w = matrix_key w' ->
  workloadGroup w = workloadGroup w' /\ wl_Type w = wl_Type w' /\ wl_Status w = wl_Status w' /\
  matrix_version w = matrix_version w'.
Proof.
  intros (Hg & Ht & Hs) (Hg' & Ht' & Hs') Hk. unfold matrix_key, nul in Hk.
  change (bytes [0]%N) with (String zero "") in Hk.
  apply cut_inj in Hk as [Eg Hk]; [|done..]. apply cut_inj in Hk as [Et Hk]; [|done..].
  apply cut_inj in Hk as [Es Hk]; done.
Qed.

Definition total (l : list FleetVersionMatrixEntry) : Z := foldr (fun x n => me_Count x + n)%Z 0%Z l.

#[export] Instance total_proper : Proper ((≡ₚ) ==> eq) total.
Proof. intros l k Hp. unfold total in *. induction Hp; cbn [foldr]; lia. Qed.

Lemma total_add recommended comparable m w :
  total (map_to_list (add_to_matrix recommended comparable m w)).*2 = (total (map_to_list m).*2 + 1)%Z.
Proof.
  unfold add_to_matrix. destruct (m !! matrix_key w) as [x|] eqn:E; cbn [default from_option].
  - rewrite <-insert_delete_eq, map_to_list_insert by apply lookup_delete_eq.
    rewrite <-(insert_delete_id m (matrix_key w) x E) at 2.
    rewrite map_to_list_insert by apply lookup_delete_eq.
    unfold total. cbn [foldr fmap list_fmap fst snd me_Count id]. lia.
  - rewrite map_to_list_insert by done. unfold total. cbn [foldr fmap list_fmap fst snd me_Count id]. lia.
Qed.

(** An entry describes a workload: it groups the workloads of this kind. *)
Definition describes (recommended : string) (comparable : bool) (x : FleetVersionMatrixEntry)
  (w : Workload) : Prop :=
  me_Group x = workloadGroup w /\ me_Type x = wl_Type w /\ me_Status x = wl_Status w /\
  me_Version x = matrix_version w /\ me_VersionStatus x = fleetVersionStatus w recommended comparable.

Lemma matrix_entries recommended comparable items x :
  x ∈ versionMatrix recommended comparable items <->
  exists k w ws, List.filter (same_key k) items = w :: ws /\
    x = sorted_entry (entry_of recommended comparable w ws).
Proof.
  unfold versionMatrix. rewrite sort_by_perm, list_elem_of_fmap. split.
  - intros (y & -> & Hy). apply list_elem_of_fmap in Hy as ([k z] & -> & Hz%elem_of_map_to_list).
    rewrite matrix_lookup in Hz. destruct (List.filter _ items) as [|w ws] eqn:E; [done|].
    injection Hz as <-. exists k, w, ws. done.
  - intros (k & w & ws & E & ->). exists (entry_of recommended comparable w ws). split; [done|].
    apply list_elem_of_fmap. exists (k, entry_of recommended comparable w ws). split; [done|].
    apply elem_of_map_to_list. by rewrite matrix_lookup, E.
Qed.

Lemma matrix_total recommended comparable items :
  total (versionMatrix recommended comparable items) = Z.of_nat (length items).
Proof.
  unfold versionMatrix. rewrite sort_by_perm.
  assert (forall l, total (map sorted_entry l) = total l) as Hs
    by (intros l; unfold total; induction l as [|y l IH]; [done|]; cbn [map foldr]; by rewrite IH).
  rewrite Hs.
  induction items as [|w items IH] using rev_ind; [done|].
  rewrite foldl_snoc, total_add, IH, length_app. cbn [length]. lia.
Qed.

Lemma filtered_head k items w ws :
  List.filter (same_key k) items = w :: ws ->
  forall v, v ∈ w :: ws <-> v ∈ items /\ matrix_key v = k.
Proof.
  intros E v. rewrite <-E, list_elem_of_In, filter_In, <-list_elem_of_In. unfold same_key.
  by rewrite eqb_string_true.
Qed.

Lemma entry_describes recommended comparable items k w ws :
  Forall keyed_text items -> List.filter (same_key k) items = w :: ws ->
  forall v, v ∈ w :: ws -> describes recommended comparable (sorted_entry (entry_of recommended comparable w ws)) v.
Proof.
  intros Ht E v Hv. rewrite Forall_forall in Ht. pose proof (filtered_head _ _ _ _ E) as Hin.
  destruct (proj1 (Hin w) ltac:(left)) as [Hw Ew], (proj1 (Hin v) Hv) as [Hv' Ev].
  destruct (matrix_key_inj w v) as (Eg & Et & Es & Eversion); auto; [congruence|].
  unfold describes, sorted_entry, entry_of. cbn -[workloadGroup matrix_version fleetVersionStatus].
  split_and!; try done. by apply status_by_version.
Qed.

(** the version matrix partitions the fleet: its counts add up to the number
    of workloads, every workload is described by exactly one entry and listed in
    it, and every entry counts and lists exactly workloads it describes, with one
    version status for all of them. *)
Theorem version_matrix_partitions_fleet recommended comparable items
    (Ht : Forall keyed_text items) :
  let m := versionMatrix recommended comparable items in
  total m = Z.of_nat (length items) /\
  (forall w, w ∈ items -> exists x, x ∈ m /\ describes recommended comparable x w /\
     wl_ID w ∈ me_WorkloadIDs x /\ forall y, y ∈ m -> describes recommended comparable y w -> y = x) /\
  (forall x, x ∈ m -> me_Count x = Z.of_nat (length (me_WorkloadIDs x)) /\
     forall id, id ∈ me_WorkloadIDs x -> exists w, w ∈ items /\ wl_ID w = id /\
       describes recommended comparable x w).
Proof.
  cbv zeta. split_and!; [apply matrix_total|..].
  - intros w Hw. destruct (List.filter (same_key (matrix_key w)) items) as [|v vs] eqn:E.
    { exfalso. eapply not_elem_of_nil. rewrite <-E. apply list_elem_of_In, filter_In.
      rewrite <-list_elem_of_In. unfold same_key. by rewrite eqb_string_refl. }
    pose proof (filtered_head _ _ _ _ E) as Hin.
    exists (sorted_entry (entry_of recommended comparable v vs)). split_and!.
    + apply matrix_entries. eauto.
    + eapply entry_describes; [done..|]. by apply Hin.
    + unfold sorted_entry, sort_strings. cbn [me_WorkloadIDs]. rewrite sort_by_perm.
      apply list_elem_of_fmap. exists w. split; [done|]. by apply Hin.
    + intros y (k & u & us & Eu & ->)%matrix_entries (Hg & Hty & Hs & Hv & _).
      assert (k = matrix_key w) as ->; [|rewrite E in Eu; by simplify_eq].
      destruct (proj1 (filtered_head _ _ _ _ Eu u) ltac:(left)) as [_ <-].
      cbn -[workloadGroup matrix_version] in *. unfold matrix_key. congruence.
  - intros x (k & w & ws & E & ->)%matrix_entries. split.
    + unfold sorted_entry, sort_strings. cbn [me_Count me_WorkloadIDs entry_of].
      rewrite sort_by_perm. by rewrite length_map.
    + intros id Hid. unfold sorted_entry, sort_strings in Hid. cbn [me_WorkloadIDs entry_of] in Hid.
      rewrite sort_by_perm in Hid. apply list_elem_of_fmap in Hid as (v & -> & Hv). exists v.
      split_and!; [by apply (filtered_head _ _ _ _ E)|done|]. by eapply entry_describes.
Qed.

Definition demo_agent : Workload :=
  mkWorkload "w2" "" ∅ "app" "sdk" " v1.2.3 " "connected" 0 {["group" := "shop"]} None "" None None
    None false None None.

Lemma version_matrix_partitions_fleet_witness :
  total (versionMatrix "0.101.0" true [demo_collector; demo_agent; demo_collector]) = 3%Z /\
  exists x, x ∈ versionMatrix "0.101.0" true [demo_collector; demo_agent; demo_collector] /\
    me_VersionStatus x = "below_recommended" /\ "w1" ∈ me_WorkloadIDs x.
Proof.
  destruct (version_matrix_partitions_fleet "0.101.0" true [demo_collector; demo_agent; demo_collector])
    as (Ht & Hw & _).
  - repeat (constructor; [split_and!; repeat (constructor; [vm_compute; done|]); constructor|]). constructor.
  - split; [exact Ht|]. destruct (Hw demo_collector ltac:(left)) as (x & Hx & (_ & _ & _ & _ & Hs) & Hid & _).
    exists x. split_and!; [exact Hx| |exact Hid]. rewrite Hs. vm_compute. reflexivity.
Defined.
End FleetVersions.
