(* ===== verification/Hub.v ===== *)
(** * The WebSocket hub (internal/api/wshub.go, the /ws route of router.go)

    The hub's event loop and the goroutines of its clients as a step relation:
    one case of the loop's select is one step (the hub's lock is held throughout
    it), and the pumps of a client advance one channel operation at a time.
    Clients are numbered in the order of their upgrade; their channels keep, for
    the statements below, everything that was ever put into them. The origin check
    of the handshake follows. *)

From S2P Require Import Prelude GoString Models PushStatus Yaml Access OtelDiff.
Import Yaml Access.

Module Hub.

(** ** Messages *)

(** The payloads of the five broadcasts, before their JSON encoding. *)
Inductive event :=
| WorkloadConfigStatus (workloadID : string) (status : RemoteConfigStatus)
| AutoRollbackApplied (workloadID fromHash toHash reason targetKind : string)
| WorkloadUpdate (w : Workload) (connected drifted : Z)
| WorkloadEventMsg (ev : WorkloadEvent)
| AlertUpdate (alert : Alert).

Section Hub.
Context `{UnicodeTables}.

(* src/internal/api/wshub.go:90-103 BroadcastConfigStatus *)
Definition BroadcastConfigStatus (workloadID : string) (status : RemoteConfigStatus) : event :=
  WorkloadConfigStatus workloadID (PushStatus.Sanitized status).

(* src/internal/api/wshub.go:106-121 BroadcastAutoRollback *)
Definition BroadcastAutoRollback (workloadID fromHash toHash reason targetKind : string) : event :=
  AutoRollbackApplied workloadID fromHash toHash (PushStatus.SanitizeRemoteConfigErrorMessage reason)
    targetKind.

Definition with_status (s : option RemoteConfigStatus) (w : Workload) : Workload :=
  mkWorkload (wl_ID w) (wl_FingerprintSource w) (wl_FingerprintKeys w) (wl_DisplayName w) (wl_Type w)
    (wl_Version w) (wl_Status w) (wl_LastSeenAt w) (wl_Labels w) (wl_ActiveConfigID w)
    (wl_ActiveConfigHash w) s (wl_CurrentConfigPush w) (wl_AvailableComponents w)
    (wl_AcceptsRemoteConfig w) (wl_RetentionUntil w) (wl_ArchivedAt w).

(* src/internal/api/wshub.go:124-141 BroadcastWorkloadUpdate *)
Definition BroadcastWorkloadUpdate (w : Workload) (connected drifted : Z) : event :=
  WorkloadUpdate (with_status (PushStatus.Sanitized <$> wl_RemoteConfigStatus w) w) connected drifted.

(* src/internal/api/wshub.go:144-155 BroadcastWorkloadEvent *)
Definition BroadcastWorkloadEvent (ev : WorkloadEvent) : event := WorkloadEventMsg ev.

(* src/internal/api/wshub.go:158-169 BroadcastAlertUpdate *)
Definition BroadcastAlertUpdate (alert : Alert) : event := AlertUpdate alert.

(** What the program broadcasts. *)
Inductive announced : event -> Prop :=
| announced_status id s : announced (BroadcastConfigStatus id s)
| announced_rollback id from to reason kind : announced (BroadcastAutoRollback id from to reason kind)
| announced_update w c d : announced (BroadcastWorkloadUpdate w c d)
| announced_event ev : announced (BroadcastWorkloadEvent ev)
| announced_alert a : announced (BroadcastAlertUpdate a).

(** ** State *)

(** A client's goroutines: blocked on [h.register], running, its read pump blocked
    on [h.unregister], and unregistered. *)
Inductive phase := Joining | Live | Leaving | Gone.

(** [cl_sent] is everything ever put into [send], with the time; [cl_buffer] what
    is still in it; [cl_written] what the write pump took out. [cl_since] is the
    number of broadcasts handled before the registration. *)
(* src/internal/api/wshub.go:17-23 wsClient *)
Record wsClient := mkClient {
  cl_expiresAt : Time; cl_phase : phase; cl_buffer : list event; cl_closed : bool; cl_done : bool;
  cl_connOpen : bool; cl_sent : list (event * Time); cl_written : list event; cl_since : nat
}.

(** [hb_log] is every message the loop took from [broadcast]; [hb_panicked] is
    set by closing a closed channel or sending on one. *)
(* src/internal/api/wshub.go:26-33 Hub *)
Record Hub := mkHub {
  hb_clients : gset nat; hb_all : gmap nat wsClient; hb_broadcast : list event; hb_done : bool;
  hb_running : bool; hb_panicked : bool; hb_log : list event
}.

Definition sendCapacity : nat := 256.
Definition broadcastCapacity : nat := 256.

(* src/internal/api/wshub.go:36-44 NewHub *)
Definition NewHub : Hub := mkHub ∅ ∅ [] false true false [].

Definition set_client (c : nat) (x : wsClient) (h : Hub) : Hub :=
  mkHub (hb_clients h) (<[c := x]> (hb_all h)) (hb_broadcast h) (hb_done h) (hb_running h)
    (hb_panicked h) (hb_log h).
Definition set_clients (s : gset nat) (h : Hub) : Hub :=
  mkHub s (hb_all h) (hb_broadcast h) (hb_done h) (hb_running h) (hb_panicked h) (hb_log h).
Definition panic (h : Hub) : Hub :=
  mkHub (hb_clients h) (hb_all h) (hb_broadcast h) (hb_done h) (hb_running h) true (hb_log h).

Definition with_phase (p : phase) (x : wsClient) : wsClient :=
  mkClient (cl_expiresAt x) p (cl_buffer x) (cl_closed x) (cl_done x) (cl_connOpen x) (cl_sent x)
    (cl_written x) (cl_since x).
Definition close_chan (x : wsClient) : wsClient :=
  mkClient (cl_expiresAt x) (cl_phase x) (cl_buffer x) true (cl_done x) (cl_connOpen x) (cl_sent x)
    (cl_written x) (cl_since x).
(* src/internal/api/wshub.go:266-287 expirationPump *)
Definition close_conn (x : wsClient) : wsClient :=
  mkClient (cl_expiresAt x) (cl_phase x) (cl_buffer x) (cl_closed x) (cl_done x) false (cl_sent x)
    (cl_written x) (cl_since x).
Definition push_chan (m : event) (t : Time) (x : wsClient) : wsClient :=
  mkClient (cl_expiresAt x) (cl_phase x) (cl_buffer x ++ [m]) (cl_closed x) (cl_done x)
    (cl_connOpen x) (cl_sent x ++ [(m, t)]) (cl_written x) (cl_since x).

(** [delete(h.clients, client); close(client.send)]. *)
Definition drop_client (c : nat) (h : Hub) : Hub :=
  match hb_all h !! c with
  | Some x => let h := set_clients (hb_clients h ∖ {[c]}) h in
              if cl_closed x then panic h else set_client c (close_chan x) h
  | None => h
  end.

(** ** The event loop *)

(* src/internal/api/wshub.go:50-53 Run *)
Definition run_register (c : nat) (x : wsClient) (h : Hub) : Hub :=
  set_clients ({[c]} ∪ hb_clients h)
    (set_client c (mkClient (cl_expiresAt x) Live (cl_buffer x) (cl_closed x) (cl_done x)
       (cl_connOpen x) (cl_sent x) (cl_written x) (length (hb_log h))) h).

(* src/internal/api/wshub.go:54-60 Run *)
Definition run_unregister (c : nat) (x : wsClient) (h : Hub) : Hub :=
  let h := set_client c (close_conn (with_phase Gone x)) h in
  if bool_decide (c ∈ hb_clients h) then drop_client c h else h.

(** One iteration of the loop over the clients. *)
(* src/internal/api/wshub.go:65-77 Run *)
Definition deliver (now : Time) (msg : event) (h : Hub) (c : nat) : Hub :=
  match hb_all h !! c with
  | None => h
  | Some x =>
      if negb (IsZero (cl_expiresAt x)) && negb (Before now (cl_expiresAt x)) then drop_client c h
      else if cl_closed x then panic h
      else if Nat.ltb (length (cl_buffer x)) sendCapacity then set_client c (push_chan msg now x) h
      else drop_client c h
  end.

Definition take_message (msg : event) (rest : list event) (h : Hub) : Hub :=
  mkHub (hb_clients h) (hb_all h) rest (hb_done h) (hb_running h) (hb_panicked h) (hb_log h ++ [msg]).

(* src/internal/api/wshub.go:61-79 Run *)
Definition run_broadcast (now : Time) (msg : event) (rest : list event) (h : Hub) : Hub :=
  foldl (deliver now msg) (take_message msg rest h) (elements (hb_clients h)).

(** ** Steps *)

(* src/internal/api/wshub.go:173-187 HandleWS *)
Definition upgraded (expiresAt : Time) : wsClient :=
  mkClient expiresAt Joining [] false false true [] [] 0.

(* src/internal/api/wshub.go:256-264 writePump *)
Definition write_one (msg : event) (rest : list event) (x : wsClient) : wsClient :=
  mkClient (cl_expiresAt x) (cl_phase x) rest (cl_closed x) (cl_done x) (cl_connOpen x) (cl_sent x)
    (cl_written x ++ [msg]) (cl_since x).

(* src/internal/api/wshub.go:298-310 readPump *)
Definition read_failed (x : wsClient) : wsClient :=
  mkClient (cl_expiresAt x) Leaving (cl_buffer x) (cl_closed x) true (cl_connOpen x) (cl_sent x)
    (cl_written x) (cl_since x).

(* src/internal/api/wshub.go:102-102 BroadcastConfigStatus *)
Definition enqueue (msg : event) (h : Hub) : Hub :=
  mkHub (hb_clients h) (hb_all h) (hb_broadcast h ++ [msg]) (hb_done h) (hb_running h) (hb_panicked h)
    (hb_log h).

(* src/internal/api/wshub.go:85-87 Stop *)
Definition set_loop (running done_ : bool) (h : Hub) : Hub :=
  mkHub (hb_clients h) (hb_all h) (hb_broadcast h) done_ running (hb_panicked h) (hb_log h).

(** Everything the hub, its clients and its callers can do next. *)
(* src/internal/api/wshub.go:47-82 Run *)
Inductive step : Hub -> Hub -> Prop :=
(* HandleWS: the handshake succeeded, the handler blocks on h.register *)
| step_upgrade h c expiresAt :
    hb_all h !! c = None -> step h (set_client c (upgraded expiresAt) h)
(* Run: case client := <-h.register *)
| step_register h c x :
    hb_running h = true -> hb_all h !! c = Some x -> cl_phase x = Joining ->
    step h (run_register c x h)
(* readPump: ReadMessage fails; closeDone, then blocked on h.unregister *)
| step_read_failed h c x :
    hb_all h !! c = Some x -> cl_phase x = Live -> step h (set_client c (read_failed x) h)
(* Run: case client := <-h.unregister; readPump then closes the connection *)
| step_unregister h c x :
    hb_running h = true -> hb_all h !! c = Some x -> cl_phase x = Leaving ->
    step h (run_unregister c x h)
(* Broadcast*: h.broadcast <- data *)
| step_enqueue h msg :
    announced msg -> length (hb_broadcast h) < broadcastCapacity -> step h (enqueue msg h)
(* Run: case msg := <-h.broadcast *)
| step_broadcast h now msg rest :
    hb_running h = true -> hb_broadcast h = msg :: rest -> step h (run_broadcast now msg rest h)
(* writePump: a message is taken and written *)
| step_write h c x msg rest :
    hb_all h !! c = Some x -> cl_phase x <> Joining -> cl_buffer x = msg :: rest ->
    step h (set_client c (write_one msg rest x) h)
(* writePump: the channel is closed and drained, or a write failed *)
| step_write_end h c x :
    hb_all h !! c = Some x -> cl_phase x <> Joining -> step h (set_client c (close_conn x) h)
(* expirationPump: the session expired *)
| step_expire h c x :
    hb_all h !! c = Some x -> cl_phase x <> Joining -> IsZero (cl_expiresAt x) = false ->
    step h (set_client c (close_conn x) h)
(* Stop, and Run noticing it *)
| step_stop h : hb_done h = false -> step h (set_loop (hb_running h) true h)
| step_exit h : hb_running h = true -> hb_done h = true -> step h (set_loop false true h).

Definition reachable (h : Hub) : Prop := rtc step NewHub h.

(** ** The invariant *)

(** What the hub guarantees about one client, given the messages handled so far
    and whether the client is in the hub's map. *)
Record client_ok (log : list event) (member : Prop) (x : wsClient) : Prop := {
  ok_member : member <-> cl_closed x = false /\ (cl_phase x = Live \/ cl_phase x = Leaving);
  ok_joining : cl_phase x = Joining -> cl_sent x = [] /\ cl_closed x = false;
  ok_gone : cl_phase x = Gone -> cl_closed x = true;
  ok_buffer : cl_written x ++ cl_buffer x = map fst (cl_sent x);
  ok_bounded : length (cl_buffer x) <= sendCapacity;
  ok_since : cl_since x <= length log;
  ok_prefix : map fst (cl_sent x) `prefix_of` drop (cl_since x) log;
  ok_all : member -> map fst (cl_sent x) = drop (cl_since x) log;
  ok_fresh : Forall (fun mt => IsZero (cl_expiresAt x) = true \/ (mt.2 < cl_expiresAt x)%Z) (cl_sent x)
}.

Record hub_ok (h : Hub) : Prop := {
  hk_quiet : hb_panicked h = false;
  hk_clients : forall c, c ∈ hb_clients h -> is_Some (hb_all h !! c);
  hk_all : map_Forall (fun c x => client_ok (hb_log h) (c ∈ hb_clients h) x) (hb_all h);
  hk_announced : Forall announced (hb_log h ++ hb_broadcast h);
  hk_queue : length (hb_broadcast h) <= broadcastCapacity
}.

Lemma client_ok_iff log (P Q : Prop) x : (P <-> Q) -> client_ok log P x -> client_ok log Q x.
Proof. intros HPQ [H1 ? ? ? ? ? ? H8 ?]. split; try done; [by rewrite <-HPQ|by rewrite <-HPQ]. Qed.

Lemma drop_log log since (m : event) : since <= length log -> drop since (log ++ [m]) = drop since log ++ [m].
Proof. intros Hs. by rewrite drop_app_le. Qed.

(** A client outside the map is not affected by another message. *)
Lemma client_ok_later log m (P : Prop) x : ~ P -> client_ok log P x -> client_ok (log ++ [m]) P x.
Proof.
  intros HP [H1 ? ? ? ? Hs Hp H8 ?]. split; try done.
  - rewrite length_app. lia.
  - rewrite drop_log by done. by apply prefix_app_r.
Qed.

(** Dropping a client of the map. *)
Lemma client_ok_dropped log m (P Q : Prop) x :
  P -> ~ Q -> client_ok log P x -> client_ok (log ++ [m]) Q (close_chan x).
Proof.
  intros HP HQ [H1 Hj Hg ? ? Hs Hp H8 ?]. split; cbn; try done.
  - split; [done|by intros [? _]].
  - intros Hph. apply H1 in HP as [_ [|]]; congruence.
  - rewrite length_app. lia.
  - rewrite drop_log by done. by apply prefix_app_r.
Qed.

(** Delivering to a client of the map. *)
Lemma client_ok_pushed log m now (P : Prop) x :
  P -> client_ok log P x -> length (cl_buffer x) < sendCapacity ->
  negb (IsZero (cl_expiresAt x)) && negb (Before now (cl_expiresAt x)) = false ->
  client_ok (log ++ [m]) P (push_chan m now x).
Proof.
  intros HP [H1 Hj Hg Hb ? Hs Hp H8 Hf] Hl Hexp.
  split; cbn; rewrite ?map_app, ?drop_log, ?length_app by done; cbn; try done.
  - intros Hph. apply H1 in HP as [_ [|]]; congruence.
  - by rewrite app_assoc, Hb.
  - lia.
  - lia.
  - by rewrite (H8 HP).
  - by rewrite (H8 HP).
  - apply Forall_app. split; [done|]. constructor; [|constructor]. cbn. unfold Before in Hexp.
    destruct (IsZero _); [by left|]. cbn in Hexp. reflect_bools. by right.
Qed.

(** ** The loop over the clients *)

(** In the middle of it: the clients of [todo] still lack the message. *)
Record looping (log : list event) (m : event) (todo : list nat) (h : Hub) : Prop := {
  lp_quiet : hb_panicked h = false;
  lp_clients : forall c, c ∈ hb_clients h -> is_Some (hb_all h !! c);
  lp_todo : forall c, c ∈ todo -> c ∈ hb_clients h;
  lp_all : map_Forall (fun c x => client_ok (if decide (c ∈ todo) then log else log ++ [m])
                                    (c ∈ hb_clients h) x) (hb_all h)
}.

Lemma deliver_rest now m h c :
  hb_broadcast (deliver now m h c) = hb_broadcast h /\ hb_log (deliver now m h c) = hb_log h.
Proof. unfold deliver, drop_client. by repeat case_match. Qed.

Lemma looping_dropped log m c todo h x :
  NoDup (c :: todo) -> looping log m (c :: todo) h -> hb_all h !! c = Some x -> cl_closed x = false ->
  looping log m todo (set_client c (close_chan x) (set_clients (hb_clients h ∖ {[c]}) h)).
Proof.
  intros Hnd [Hq Hc Ht Ha] Hx Hcl. apply NoDup_cons in Hnd as [Hni _]. split; cbn.
  - done.
  - intros d [Hd _]%elem_of_difference. destruct (decide (c = d)) as [->|Hne].
    + rewrite lookup_insert_eq. eauto.
    + rewrite lookup_insert_ne by done. by apply Hc.
  - intros d Hd. apply elem_of_difference. split; [apply Ht; by right|].
    intros ->%elem_of_singleton. done.
  - intros d y. destruct (decide (c = d)) as [<-|Hne].
    + rewrite lookup_insert_eq. intros [= <-]. rewrite decide_False by done.
      pose proof (Ha c x Hx) as Hok. cbn in Hok. rewrite decide_True in Hok by left.
      eapply client_ok_dropped; [|set_solver|exact Hok]. apply Ht. left.
    + rewrite lookup_insert_ne by done. intros Hy. pose proof (Ha d y Hy) as Hok. cbn in Hok.
      apply (client_ok_iff _ (d ∈ hb_clients h)); [set_solver|].
      by rewrite (decide_ext _ (d ∈ c :: todo)) by (rewrite elem_of_cons; naive_solver).
Qed.

Lemma looping_pushed log m now c todo h x :
  NoDup (c :: todo) -> looping log m (c :: todo) h -> hb_all h !! c = Some x ->
  length (cl_buffer x) < sendCapacity ->
  negb (IsZero (cl_expiresAt x)) && negb (Before now (cl_expiresAt x)) = false ->
  looping log m todo (set_client c (push_chan m now x) h).
Proof.
  intros Hnd [Hq Hc Ht Ha] Hx Hl Hexp. apply NoDup_cons in Hnd as [Hni _]. split; cbn.
  - done.
  - intros d Hd. destruct (decide (c = d)) as [->|Hne].
    + rewrite lookup_insert_eq. eauto.
    + rewrite lookup_insert_ne by done. by apply Hc.
  - intros d Hd. apply Ht. by right.
  - intros d y. destruct (decide (c = d)) as [<-|Hne].
    + rewrite lookup_insert_eq. intros [= <-]. rewrite decide_False by done.
      pose proof (Ha c x Hx) as Hok. cbn in Hok. rewrite decide_True in Hok by left.
      apply client_ok_pushed; try done. apply Ht. left.
    + rewrite lookup_insert_ne by done. intros Hy. pose proof (Ha d y Hy) as Hok. cbn in Hok.
      by rewrite (decide_ext _ (d ∈ c :: todo)) by (rewrite elem_of_cons; naive_solver).
Qed.

Lemma looping_deliver log m now c todo h :
  NoDup (c :: todo) -> looping log m (c :: todo) h -> looping log m todo (deliver now m h c).
Proof.
  intros Hnd Hl. pose proof Hl as [Hq Hc Ht Ha].
  destruct (Hc c (Ht c ltac:(left))) as [x Hx]. unfold deliver, drop_client. rewrite Hx.
  assert (cl_closed x = false) as Hcl.
  { pose proof (Ha c x Hx) as Hok. cbn in Hok. destruct (ok_member _ _ _ Hok) as [Hm _].
    by destruct Hm as [? _]; [apply Ht; left|]. }
  rewrite Hcl. destruct (_ && _) eqn:Hexp; [by apply looping_dropped|].
  destruct (Nat.ltb _ _) eqn:Hb; reflect_bools; [by apply looping_pushed|by apply looping_dropped].
Qed.

Lemma looping_all log m now todo h :
  NoDup todo -> looping log m todo h -> looping log m [] (foldl (deliver now m) h todo).
Proof.
  revert h. induction todo as [|c todo IH]; intros h Hnd Hl; [done|]. cbn.
  apply IH; [by apply NoDup_cons in Hnd as [_ ?]|]. by apply looping_deliver.
Qed.

Lemma deliver_all_rest now m todo h :
  hb_broadcast (foldl (deliver now m) h todo) = hb_broadcast h /\
  hb_log (foldl (deliver now m) h todo) = hb_log h.
Proof.
  revert h. induction todo as [|c todo IH]; intros h; [done|]. cbn.
  destruct (IH (deliver now m h c)) as [-> ->]. apply deliver_rest.
Qed.

Lemma run_broadcast_ok now m rest h :
  hub_ok h -> hb_broadcast h = m :: rest -> hub_ok (run_broadcast now m rest h).
Proof.
  intros [Hq Hc Ha Han Hlen] Hb. unfold run_broadcast.
  assert (looping (hb_log h) m (elements (hb_clients h)) (take_message m rest h)) as Hl.
  { split; cbn; try done; [by intros c ?%elem_of_elements|].
    intros c x Hx. specialize (Ha c x Hx). cbn in Ha. case_decide as Hin; [done|].
    apply client_ok_later; [|done]. by rewrite elem_of_elements in Hin. }
  apply (looping_all _ _ now) in Hl; [|apply NoDup_elements].
  destruct (deliver_all_rest now m (elements (hb_clients h)) (take_message m rest h)) as [Eb El].
  destruct Hl as [Hq' Hc' _ Ha']. cbn in Eb, El. split; try done.
  - rewrite El. intros c x Hx. by apply (Ha' c x).
  - rewrite Eb, El, <-app_assoc. by rewrite Hb in Han.
  - rewrite Eb. rewrite Hb in Hlen. cbn in Hlen. lia.
Qed.

(** ** Every step keeps the invariant *)

Lemma set_client_ok c x h :
  hub_ok h -> client_ok (hb_log h) (c ∈ hb_clients h) x -> hub_ok (set_client c x h).
Proof.
  intros [Hq Hc Ha Han Hlen] Hx. split; cbn; try done.
  - intros d Hd. destruct (decide (c = d)) as [->|Hne]; [rewrite lookup_insert_eq; eauto|].
    rewrite lookup_insert_ne by done. by apply Hc.
  - by apply map_Forall_insert_2.
Qed.

(** Updates that leave the channel alone. *)
Lemma client_ok_same log P x y :
  cl_expiresAt y = cl_expiresAt x -> cl_phase y = cl_phase x -> cl_closed y = cl_closed x ->
  cl_sent y = cl_sent x -> cl_since y = cl_since x ->
  cl_written y ++ cl_buffer y = cl_written x ++ cl_buffer x ->
  length (cl_buffer y) <= length (cl_buffer x) ->
  client_ok log P x -> client_ok log P y.
Proof.
  intros E1 E2 E3 E4 E5 E6 Hl [? ? ? ? ? ? ? ? ?].
  split; rewrite ?E1, ?E2, ?E3, ?E4, ?E5, ?E6 in *; try done. lia.
Qed.

Lemma drop_gone_ok c x h :
  hub_ok h -> hb_all h !! c = Some x -> cl_phase x = Leaving -> hub_ok (run_unregister c x h).
Proof.
  intros Hok Hx Hp. pose proof Hok as [Hq Hc Ha Han Hlen]. specialize (Ha c x Hx) as Hcx. cbn in Hcx.
  destruct Hcx as [Hm Hj Hg Hb Hl Hs Hpre Hall Hf]. unfold run_unregister.
  destruct (cl_closed x) eqn:Hcl.
  - assert (c ∉ hb_clients h) as Hn by (rewrite Hm; naive_solver).
    rewrite bool_decide_eq_false_2 by done. apply set_client_ok; [done|]. split; cbn; try done.
    rewrite Hcl. naive_solver.
  - assert (c ∈ hb_clients h) as Hin by (apply Hm; auto).
    rewrite bool_decide_eq_true_2 by done. unfold drop_client. cbn [set_client hb_all].
    rewrite lookup_insert_eq. cbn [close_conn with_phase cl_closed]. rewrite Hcl. split; cbn; try done.
    + intros d [Hd _]%elem_of_difference. destruct (decide (c = d)) as [->|Hne].
      * rewrite lookup_insert_eq. eauto.
      * rewrite !lookup_insert_ne by done. by apply Hc.
    + intros d y. destruct (decide (c = d)) as [<-|Hne].
      * rewrite lookup_insert_eq. intros [= <-]. split; cbn; try done; [|set_solver].
        split; [set_solver|naive_solver].
      * rewrite !lookup_insert_ne by done. intros Hy. eapply client_ok_iff; [|by apply (Ha d y)].
        set_solver.
Qed.

Lemma register_ok c x h :
  hub_ok h -> hb_all h !! c = Some x -> cl_phase x = Joining -> hub_ok (run_register c x h).
Proof.
  intros Hok Hx Hp. pose proof Hok as [Hq Hc Ha Han Hlen]. specialize (Ha c x Hx) as Hcx. cbn in Hcx.
  destruct Hcx as [Hm Hj Hg Hb Hl Hs Hpre Hall Hf]. destruct (Hj Hp) as [Hsent Hcl].
  unfold run_register. split; cbn; try done.
  - intros d Hd. destruct (decide (c = d)) as [->|Hne]; [rewrite lookup_insert_eq; eauto|].
    rewrite lookup_insert_ne by done. apply Hc. set_solver.
  - intros d y. destruct (decide (c = d)) as [<-|Hne].
    + rewrite lookup_insert_eq. intros [= <-].
      split; cbn; rewrite ?Hsent, ?drop_all, ?Hcl; cbn; try done; [set_solver|by rewrite Hb, Hsent].
    + rewrite lookup_insert_ne by done. intros Hy. eapply client_ok_iff; [|by apply (Ha d y)].
      set_solver.
Qed.

Lemma step_ok h h' : step h h' -> hub_ok h -> hub_ok h'.
Proof.
  intros Hstep Hok. pose proof Hok as [Hq Hc Ha Han Hlen]. destruct Hstep as
    [h c ex Hn|h c x _ Hx Hp|h c x Hx Hp|h c x _ Hx Hp|h m Hm Hl|h now m rest _ Hb|h c x m rest Hx Hp Hb
    |h c x Hx Hp|h c x Hx Hp He|h Hd|h Hr Hd].
  - apply set_client_ok; [done|]. split; cbn; try done; try lia.
    + split; [|by intros [_ [|]]]. intros Hin. destruct (Hc c Hin) as [x Hx]. congruence.
    + apply prefix_nil.
    + intros Hin. destruct (Hc c Hin) as [x Hx]. congruence.
  - by apply register_ok.
  - apply set_client_ok; [done|]. destruct (Ha c x Hx) as [Hm ? ? ? ? ? ? ? ?].
    split; cbn; try done. rewrite Hm, Hp. naive_solver.
  - by apply drop_gone_ok.
  - split; cbn; try done.
    + rewrite app_assoc. apply Forall_app. split; [done|]. by constructor.
    + rewrite length_app. cbn. lia.
  - by apply run_broadcast_ok.
  - apply set_client_ok; [done|]. eapply client_ok_same; [..|by apply (Ha c x)]; try done; cbn; rewrite Hb.
    + by rewrite <-app_assoc.
    + cbn. lia.
  - apply set_client_ok; [done|]. by eapply client_ok_same; [..|by apply (Ha c x)].
  - apply set_client_ok; [done|]. by eapply client_ok_same; [..|by apply (Ha c x)].
  - by split.
  - by split.
Qed.

Lemma reachable_ok h : reachable h -> hub_ok h.
Proof.
  intros Hr. refine (rtc_ind_r hub_ok NewHub _ _ h Hr).
  - split; cbn; try done; lia.
  - intros h1 h2 _ Hs. by apply step_ok.
Qed.

(** An error text in the message is one of the sanitized ones. *)
Definition clean (m : event) : Prop :=
  match m with
  | WorkloadConfigStatus _ s => PushStatus.safe (rcs_ErrorMessage s)
  | AutoRollbackApplied _ _ _ reason _ => PushStatus.safe reason
  | WorkloadUpdate w _ _ => forall s, wl_RemoteConfigStatus w = Some s -> PushStatus.safe (rcs_ErrorMessage s)
  | WorkloadEventMsg _ | AlertUpdate _ => True
  end.

Lemma announced_clean m : announced m -> clean m.
Proof.
  intros []; cbn; try done; try apply PushStatus.sanitize_safe.
  intros s. destruct (wl_RemoteConfigStatus w); cbn; [|done]. intros [= <-]. apply PushStatus.sanitize_safe.
Qed.

(** the hub never closes a client's channel twice or sends on a closed one
    (either would crash the process), whatever the order of registrations,
    disconnections, slow or expired clients and broadcasts; and no channel holds
    more than its capacity. *)
Theorem hub_never_panics h (Hr : reachable h) :
  hb_panicked h = false /\ length (hb_broadcast h) <= broadcastCapacity /\
  forall c x, hb_all h !! c = Some x ->
    length (cl_buffer x) <= sendCapacity /\ (c ∈ hb_clients h -> cl_closed x = false) /\
    (cl_phase x = Gone -> c ∉ hb_clients h /\ cl_closed x = true).
Proof.
  destruct (reachable_ok h Hr) as [Hq _ Ha _ Hl]. split_and!; [done..|]. intros c x Hx.
  destruct (Ha c x Hx) as [Hm _ Hg _ Hb _ _ _ _]. split_and!; [done|by intros [? _]%Hm|].
  intros Hp. split; [|auto]. rewrite Hm, Hp. naive_solver.
Qed.


End Hub.

(** *** A run of the hub *)

#[local] Existing Instance byte_tables.

Definition alert_event : event :=
  BroadcastAlertUpdate (mkAlert "a" "w" "workload_down" "critical" "" 0 None).

Definition one_client : Hub :=
  run_register 0 (upgraded 500) (set_client 0 (upgraded 500) NewHub).
Definition told : Hub := run_broadcast 100 alert_event [] (enqueue alert_event one_client).
(** The second message arrives after the expiry and drops the client. *)
Definition expired : Hub := run_broadcast 500 alert_event [] (enqueue alert_event told).

Lemma expired_reachable : reachable expired.
Proof.
  eapply rtc_l; [apply (step_upgrade _ 0 500); reflexivity|].
  eapply rtc_l; [apply (step_register _ 0); reflexivity|].
  eapply rtc_l; [apply (step_enqueue _ alert_event); [constructor|vm_compute; lia]|].
  eapply rtc_l; [apply (step_broadcast _ 100 alert_event []); reflexivity|].
  eapply rtc_l; [apply (step_enqueue _ alert_event); [constructor|vm_compute; lia]|].
  eapply rtc_l; [apply (step_broadcast _ 500 alert_event []); reflexivity|].
  apply rtc_refl.
Qed.

Lemma hub_never_panics_witness : hb_panicked expired = false /\ hb_clients expired = ∅.
Proof.
  split; [exact (proj1 (hub_never_panics expired expired_reachable))|vm_compute; reflexivity].
Defined.


(** ** Opening a connection *)

(** Case folding of two strings neither of which is ASCII. *)
Class FoldTables := { unicode_fold : string -> string -> bool }.

Section Open.
Context `{UnicodeTables} `{FoldTables} `{OtelDiff.UrlLib} `{JwtLib}.

(** [strings.EqualFold]. *)
Definition EqualFoldText (s t : string) : bool :=
  if is_ascii t then EqualFold s t else if is_ascii s then EqualFold t s else unicode_fold s t.

(* src/internal/api/wshub.go:189-198 parseAllowedOrigins *)
Definition parseAllowedOrigins (corsOrigins : string) : list string :=
  map TrimSpace (if corsOrigins <>s "" then Split corsOrigins "," else ["http://localhost:5173"]).

(** What the check reads of the handshake request. *)
Record handshake := mkHandshake { hs_Origin : string; hs_Host : string; hs_TLS : bool }.

(* src/internal/api/wshub.go:243-245 isValidOriginHeaderURL *)
Definition isValidOriginHeaderURL (u : OtelDiff.URL) : bool :=
  (OtelDiff.u_Scheme u <>s "") && (OtelDiff.u_Host u <>s "") &&
  bool_decide (OtelDiff.u_User u = None) && (OtelDiff.u_Path u =s "") &&
  (OtelDiff.u_RawQuery u =s "") && (OtelDiff.u_Fragment u =s "").

(* src/internal/api/wshub.go:247-253 isSameHostOrigin *)
Definition isSameHostOrigin (r : handshake) (u : OtelDiff.URL) : bool :=
  let expectedScheme := if hs_TLS r then "https" else "http" in
  EqualFoldText (OtelDiff.u_Scheme u) expectedScheme && EqualFoldText (OtelDiff.u_Host u) (hs_Host r).

Fixpoint count_char (c : Ascii.ascii) (s : string) : nat :=
  match s with "" => 0 | String d s' => (if Ascii.eqb d c then 1 else 0) + count_char c s' end.

(** One iteration over the allowed origins. *)
Definition origin_matches (u : OtelDiff.URL) (originValue allowed : string) : bool :=
  let allowed := ToLower allowed in
  if allowed =s "" then false
  else if allowed =s "*" then true
  else if Nat.eqb (count_char "*" allowed) 1 then
    match Cut allowed "*" with
    | (before, Some after) => HasPrefix originValue before && HasSuffix originValue after
    | (_, None) => false
    end
  else match OtelDiff.url_Parse allowed with
       | None => false
       | Some a =>
           if (OtelDiff.u_Scheme a =s "") || (OtelDiff.u_Host a =s "") then false
           else EqualFoldText (OtelDiff.u_Scheme u) (OtelDiff.u_Scheme a) &&
                EqualFoldText (OtelDiff.u_Host u) (OtelDiff.u_Host a)
       end.

(* src/internal/api/wshub.go:200-241 checkWebSocketOrigin *)
Definition checkWebSocketOrigin (allowedOrigins : list string) (r : handshake) : bool :=
  if hs_Origin r =s "" then true
  else match OtelDiff.url_Parse (hs_Origin r) with
       | None => false
       | Some u =>
           if negb (isValidOriginHeaderURL u) then false
           else if isSameHostOrigin r u then true
           else existsb (origin_matches u (ToLower (OtelDiff.u_Scheme u +:+ "://" +:+ OtelDiff.u_Host u)))
                  allowedOrigins
       end.

(** The /ws route: the token of the header, the cookie or the query, checked as
    for any other route; [Served] with the expiry of the session is the call of
    [HandleWS]. *)
(* src/internal/api/router.go:107-131 NewRouter *)
Definition handle_ws (secret : string) (r : request) (queryToken : string) (now later : Time)
  : served Time :=
  let token := match RequestToken r with Some t => t | None => queryToken end in
  if token =s "" then Reject 401
  else match ValidateToken secret token now with
       | Err _ => Reject 401
       | Ok _ =>
           match TokenExpiresAt secret token later with
           | Err _ => Reject 401
           | Ok (Some exp) => if negb (Before later exp) then Reject 401 else Served exp
           | Ok None => Served zero_time
           end
       end.

(** a connection is opened only for a token the secret verifies, and it carries
    that token's expiry, which lies in the future. *)
Theorem ws_carries_session_expiry secret r queryToken now later expiresAt
    (Hs : handle_ws secret r queryToken now later = Served expiresAt) :
  exists token c, jwt_parse secret token later = Ok c /\
    (RequestToken r = Some token \/ token = queryToken) /\
    match cl_ExpiresAt c with
    | Some exp => expiresAt = exp /\ (later < exp)%Z
    | None => expiresAt = zero_time
    end.
Proof.
  revert Hs. unfold handle_ws. set (token := match RequestToken r with Some t => t | None => queryToken end).
  destruct (token =s "") eqn:E; [done|]. destruct (ValidateToken secret token now); [|done].
  unfold TokenExpiresAt. destruct (jwt_parse secret token later) as [c|] eqn:Ej; [|done].
  intros Hs. exists token, c. split_and!; [done|unfold token; destruct (RequestToken r); auto|].
  destruct (cl_ExpiresAt c) as [exp|]; [|by injection Hs].
  unfold Before in Hs. destruct (Z.ltb later exp) eqn:El; cbn in Hs; [|done].
  injection Hs as <-. reflect_bools. done.
Qed.

(** a handshake from another site is accepted only from an origin on the list:
    the origin is [*]'s, agrees with a plain entry in scheme and host, or starts and
    ends like a wildcard entry. *)
Theorem accepted_origin_is_listed allowedOrigins r u
    (Hu : OtelDiff.url_Parse (hs_Origin r) = Some u) (Ho : hs_Origin r <> "")
    (Hforeign : isSameHostOrigin r u = false)
    (Hc : checkWebSocketOrigin allowedOrigins r = true) :
  isValidOriginHeaderURL u = true /\
  let value := ToLower (OtelDiff.u_Scheme u +:+ "://" +:+ OtelDiff.u_Host u) in
  exists allowed, allowed ∈ allowedOrigins /\
    (ToLower allowed = "*" \/
     (exists before after x y, Cut (ToLower allowed) "*" = (before, Some after) /\
        value = before +:+ x /\ value = y +:+ after) \/
     (exists a, OtelDiff.url_Parse (ToLower allowed) = Some a /\
        EqualFoldText (OtelDiff.u_Scheme u) (OtelDiff.u_Scheme a) = true /\
        EqualFoldText (OtelDiff.u_Host u) (OtelDiff.u_Host a) = true)).
Proof.
  revert Hc. unfold checkWebSocketOrigin. apply eqb_string_false in Ho. rewrite Ho, Hu.
  destruct (isValidOriginHeaderURL u); [|done]. cbn [negb]. rewrite Hforeign.
  intros (allowed & Hin & Hm)%existsb_exists. split; [done|]. exists allowed.
  split; [by apply list_elem_of_In|]. unfold origin_matches in Hm.
  destruct (ToLower allowed =s ""); [done|].
  destruct (ToLower allowed =s "*") eqn:Estar; reflect_bools; [by left|].
  destruct (Nat.eqb _ 1).
  - destruct (Cut (ToLower allowed) "*") as [before [after|]]; [|done]. right. left.
    apply andb_true_iff in Hm as [[x Hx]%HasPrefix_iff [y Hy]%HasSuffix_iff].
    exists before, after, x, y. done.
  - destruct (OtelDiff.url_Parse (ToLower allowed)) as [a|]; [|done].
    destruct (_ || _); [done|]. apply andb_true_iff in Hm as [? ?]. eauto 10.
Qed.

End Open.

(** Prefix and suffix of a wildcard may overlap: this entry is meant for
    [https://app-<something>app.example.com] and also lets [https://app.example.com]
    in. *)
Example wildcard_parts_may_overlap :
  origin_matches (H := byte_tables) (H0 := {| unicode_fold _ _ := false |}) (H1 := OtelDiff.plain_urls)
    (OtelDiff.mkURL "https" "" None "app.example.com" "" "" false false "" "" "")
    "https://app.example.com" "https://app*app.example.com" = true.
Proof. vm_compute. reflexivity. Qed.
End Hub.
