(* ===== verification/GitSource.v ===== *)
(** * Git sources of configs (internal/api/git_import.go)

    The checks on the path, the reference and the URL of an import, the guard
    against private hosts, the import itself with the git commands as answers of
    the surroundings, and the redaction of the texts that leave the server. *)

From S2P Require Import Prelude GoString Regex Store Yaml OtelDiff.
Import Regex Store.Store Yaml OtelDiff.

Module GitSource.

Definition errUnsafeGitURL := "unsafe git URL".
Definition errGitFileTooLarge := "git file exceeds size limit".
Definition errInvalidGitPath := "invalid git path".
Definition errInvalidGitRef := "invalid git ref".
(* src/internal/api/git_import.go:20-23 gitFileSizeLimit *)
Definition gitFileSizeLimit : nat := 1048576.

(** ** Regular expressions *)

Definition hex_lower (c : Ascii.ascii) : bool := is_digit c || in_range 97 102 c.
Definition ref_char (c : Ascii.ascii) : bool :=
  letter c || is_digit c || in_set [46; 95; 47; 64; 43; 45]%N c.
Definition not_in (l : list N) (c : Ascii.ascii) : bool := negb (re_space c || in_set l c).

(* src/internal/api/git_import.go:32-32 gitCommitSHARegexp *)
Definition gitCommitSHARegexp : re := seqs [Bol; times 40 (Byte hex_lower); Eol].
(* src/internal/api/git_import.go:33-33 gitRefRegexp *)
Definition gitRefRegexp : re := seqs [Bol; plus (Byte ref_char); Eol].
(* src/internal/api/git_import.go:34-34 scpLikeGitURLHostExpr *)
Definition scpLikeGitURLHostExpr : re :=
  seqs [Bol; plus (Byte (not_in [64]%N)); one "@"; Group 1 (plus (Byte (not_in [58]%N))); one ":";
        Group 2 (plus (Byte (fun c => negb (N.eqb (code c) 10)))); Eol].

(** A letter of [(?i)[a-z]]: the class folds to the long s and the Kelvin sign. *)
Definition iletter : re :=
  alts [Byte letter; lit (bytes [197; 191]%N); lit (bytes [226; 132; 170]%N)].
(* src/internal/api/gitops_export.go:87-87 credentialURLUserinfoRegexp *)
Definition credentialURLUserinfoRegexp : re :=
  seqs [Group 1 (seqs [iletter; star (alts [iletter; Byte is_digit; Byte (in_set [43; 46; 45]%N)]);
                       lit "://"]);
        plus (Byte (not_in [47; 64]%N)); one "@"].
Definition dash : re := opt (Byte (in_set [95; 45]%N)).
(* src/internal/api/gitops_export.go:86-86 sensitiveCommentValueRegexp *)
Definition sensitiveCommentValueRegexp : re :=
  seqs [Group 1 (alts [seqs [ilit "secret"; dash; ilit "token"]; seqs [ilit "access"; dash; ilit "token"];
                       seqs [ilit "private"; dash; ilit "token"]; ilit "authorization"; ilit "bearer";
                       ilit "password"; seqs [ilit "api"; dash; ilit "key"];
                       seqs [ilit "client"; dash; ilit "secret"]]);
        Group 2 (plus (Byte (in_set [61; 58; 32]%N))); Group 3 (plus (Byte (not_in [44; 59; 38]%N)))].

(* src/internal/api/gitops_export.go:416-419 redactGitOpsText *)
Definition redactGitOpsText (s : string) : string :=
  let s := ReplaceAllString credentialURLUserinfoRegexp s (group 1) in
  ReplaceAllString sensitiveCommentValueRegexp s (fun _ => "[redacted]").

(** ** Paths and references *)

(** One element of a path under [path.Clean]: empty and dot elements vanish, a
    double dot takes back the element before it. *)
Definition clean_step (out : list string) (part : string) : list string :=
  if (part =s "") || (part =s ".") then out
  else if part =s ".." then
    match out with
    | x :: rest => if x =s ".." then part :: out else rest
    | [] => [part]
    end
  else part :: out.
(** [path.Clean] of a path that is not rooted. *)
Definition Clean (p : string) : string :=
  match foldl clean_step [] (Split p "/"%char) with
  | [] => "."
  | out => Join "/" (rev out)
  end.

(* src/internal/api/git_import.go:161-175 validateGitPath *)
Definition validateGitPath (p : string) : option string :=
  if (p =s "") || HasPrefix p "/" || Contains p (bytes [0]%N) || Contains p (bytes [92]%N)
  then Some errInvalidGitPath
  else if existsb (fun part => part =s "..") (Split p "/"%char) then Some errInvalidGitPath
  else
    let clean := Clean p in
    if (clean =s ".") || (clean =s "..") || HasPrefix clean "../" then Some errInvalidGitPath
    else None.

(* src/internal/api/git_import.go:177-192 validateGitRef *)
Definition validateGitRef (ref : string) : option string :=
  let ref := TrimSpace ref in
  if ref =s "" then None
  else if HasPrefix ref "-" || HasPrefix ref "/" || HasSuffix ref "/" || HasSuffix ref "."
          || HasSuffix ref ".lock" then Some errInvalidGitRef
  else if Contains ref ".." || Contains ref "@{" || Contains ref (bytes [92]%N) || Contains ref ":"
          || Contains ref "*" || Contains ref "?" || Contains ref "[" then Some errInvalidGitRef
  else if negb (MatchString gitRefRegexp ref) then Some errInvalidGitRef
  else None.

(** ** Addresses (net/netip) *)

(** An address of four or sixteen bytes; a mapped IPv4 address is unmapped by
    every predicate. *)
Notation addr := (list N).
Definition AddrFromSlice (ip : list N) : bool := Nat.eqb (length ip) 4 || Nat.eqb (length ip) 16.
Definition Unmap (ip : addr) : addr :=
  if bool_decide (length ip = 16 /\ take 12 ip = replicate 10 0%N ++ [255; 255]%N) then drop 12 ip
  else ip.
Definition byte_at (ip : addr) (i : nat) : N := nth i ip 0%N.
(** A predicate on either family. *)
Definition on_ip (v4 v6 : addr -> bool) (ip : addr) : bool :=
  let ip := Unmap ip in if Nat.eqb (length ip) 4 then v4 ip else v6 ip.

Definition IsLoopback : addr -> bool :=
  on_ip (fun ip => N.eqb (byte_at ip 0) 127)
        (fun ip => bool_decide (ip = replicate 15 0%N ++ [1]%N)).
Definition IsLinkLocalUnicast : addr -> bool :=
  on_ip (fun ip => N.eqb (byte_at ip 0) 169 && N.eqb (byte_at ip 1) 254)
        (fun ip => N.eqb (byte_at ip 0) 254 && N.eqb (N.land (byte_at ip 1) 192) 128).
Definition IsLinkLocalMulticast : addr -> bool :=
  on_ip (fun ip => N.eqb (byte_at ip 0) 224 && N.eqb (byte_at ip 1) 0 && N.eqb (byte_at ip 2) 0)
        (fun ip => N.eqb (byte_at ip 0) 255 && N.eqb (N.land (byte_at ip 1) 15) 2).
Definition IsPrivate : addr -> bool :=
  on_ip (fun ip => N.eqb (byte_at ip 0) 10 ||
                   (N.eqb (byte_at ip 0) 172 && N.eqb (N.land (byte_at ip 1) 240) 16) ||
                   (N.eqb (byte_at ip 0) 192 && N.eqb (byte_at ip 1) 168))
        (fun ip => N.eqb (N.land (byte_at ip 0) 254) 252).
Definition IsUnspecified : addr -> bool :=
  fun ip => bool_decide (ip = replicate 4 0%N) || bool_decide (ip = replicate 16 0%N).
Definition IsMulticast : addr -> bool :=
  on_ip (fun ip => N.eqb (N.land (byte_at ip 0) 240) 224) (fun ip => N.eqb (byte_at ip 0) 255).

(** ** The surroundings *)

(** [net.LookupIP], and the text of a parse error of net/url. *)
Class GitNet := { LookupIP : string -> result (list addr); url_error : string -> string }.

Definition without_user (u : URL) : URL :=
  mkURL (u_Scheme u) (u_Opaque u) None (u_Host u) (u_Path u) (u_RawPath u) (u_OmitHost u) (u_ForceQuery u)
    (u_RawQuery u) (u_Fragment u) (u_RawFragment u).

Section Import.
Context `{UnicodeTables} `{UrlLib} `{GitNet}.

(* src/internal/api/git_import.go:194-221 gitURLHost *)
Definition gitURLHost (raw : string) : result string :=
  let trimmed := TrimSpace raw in
  let unsafe why := Err (errUnsafeGitURL +:+ ": " +:+ why) in
  if (trimmed <>s raw) || ContainsAny trimmed [0; 13; 10; 9; 32]%N
  then unsafe "URL must not contain whitespace or control characters"
  else if HasPrefix trimmed "/" || HasPrefix trimmed "./" || HasPrefix trimmed "../"
  then unsafe "local paths are not allowed"
  else
    let scp_like := match FindStringSubmatch scpLikeGitURLHostExpr trimmed with
      | Some caps => Ok (group 1 caps)
      | None => match url_Parse trimmed with
                | None => unsafe (url_error trimmed)
                | Some _ => unsafe "absolute http(s) or ssh Git URL required"
                end
      end in
    match url_Parse trimmed with
    | Some u =>
        if u_Scheme u =s "" then scp_like
        else if u_Host u =s "" then unsafe "absolute http(s) or ssh Git URL required"
        else if one_of (ToLower (u_Scheme u)) ["http"; "https"; "ssh"; "git"] then Ok (splitHostPort (u_Host u)).1
        else unsafe ("unsupported scheme " +:+ Quote (u_Scheme u))
    | None => scp_like
    end.

Definition non_public (ip : addr) : bool :=
  negb (AddrFromSlice ip) || IsLoopback ip || IsLinkLocalUnicast ip || IsLinkLocalMulticast ip
  || IsPrivate ip || IsUnspecified ip || IsMulticast ip.

(* src/internal/api/git_import.go:223-241 rejectPrivateGitHost *)
Definition rejectPrivateGitHost (host : string) : option string :=
  if host =s "" then Some (errUnsafeGitURL +:+ ": empty host")
  else match LookupIP host with
  | Err e => Some ("resolve git host: " +:+ e)
  | Ok [] => Some "resolve git host: no addresses"
  | Ok ips => if existsb non_public ips
              then Some (errUnsafeGitURL +:+ ": host resolves to non-public address") else None
  end.

(* src/internal/api/git_import.go:243-257 sanitizeGitURL *)
Definition sanitizeGitURL (raw : string) : string :=
  let trimmed := TrimSpace raw in
  let scp_like := match FindStringSubmatch scpLikeGitURLHostExpr trimmed with
    | Some caps => "git@" +:+ group 1 caps +:+ ":" +:+ group 2 caps
    | None => match url_Parse trimmed with None => raw | Some _ => trimmed end
    end in
  match url_Parse trimmed with
  | Some u => if (u_Scheme u <>s "") && (u_Host u <>s "") then url_String (without_user u) else scp_like
  | None => scp_like
  end.

(* src/internal/api/git_import.go:259-273 gitProviderFromURL *)
Definition gitProviderFromURL (raw : string) : string :=
  match gitURLHost raw with
  | Err _ => ""
  | Ok host =>
      let host := ToLower host in
      if (host =s "github.com") || HasSuffix host ".github.com" then "github"
      else if (host =s "gitlab.com") || HasSuffix host ".gitlab.com" then "gitlab"
      else "generic"
  end.

(* src/internal/api/git_import.go:37-42 gitImportRequest *)
Record gitImportRequest := mkImportRequest {
  gq_Name : string; gq_GitURL : string; gq_GitRef : string; gq_GitPath : string
}.
(* src/internal/api/git_import.go:44-50 gitImportResult *)
Record gitImportResult := mkImportResult {
  gr_Content : string; gr_CommitSHA : string; gr_GitURL : string; gr_GitProvider : string;
  gr_ImportedAt : Time
}.

(** The override of the tests is off: the variable [allowPrivateGitURLs] is
    false in the program. *)
(* src/internal/api/git_import.go:275-277 shouldAllowPrivateGitURLs *)
Definition shouldAllowPrivateGitURLs (getenv : string -> string) : bool :=
  EqualFold (getenv "OTEL_MAGNIFY_ALLOW_PRIVATE_GIT_URLS") "true".

(* src/internal/api/git_import.go:141-159 validateGitImportRequest *)
Definition validateGitImportRequest (getenv : string -> string) (req : gitImportRequest) : option string :=
  if (TrimSpace (gq_Name req) =s "") || (TrimSpace (gq_GitURL req) =s "")
     || (TrimSpace (gq_GitPath req) =s "")
  then Some "name, git_url, and git_path are required"
  else match validateGitPath (gq_GitPath req) with
  | Some e => Some e
  | None =>
    match validateGitRef (gq_GitRef req) with
    | Some e => Some e
    | None =>
      match gitURLHost (gq_GitURL req) with
      | Err e => Some e
      | Ok host => if shouldAllowPrivateGitURLs getenv then None else rejectPrivateGitHost host
      end
    end
  end.

(** ** The import *)

(** The temporary repository: its creation, the git commands in it (given their
    arguments and the [config] file), and the file at a path: its size and what
    reading it gives. *)
Record worktree := mkWorktree {
  wt_create : option string;
  wt_config : option string;
  wt_git : list string -> string -> result string;
  wt_root : option string;
  wt_file : string -> result (result nat * result string)
}.

(* src/internal/api/git_import.go:126-139 appendGitRemoteConfig *)
Definition appendGitRemoteConfig (gitURL ref : string) : string :=
  let nl := bytes [10]%N in let tab := bytes [9]%N in
  nl +:+ "[remote " +:+ Quote "origin" +:+ "]" +:+ nl +:+ tab +:+ "url = " +:+ gitURL +:+ nl
     +:+ tab +:+ "fetch = +" +:+ ref +:+ ":refs/remotes/origin/hermes-import" +:+ nl.

(** The arguments git is run with, and the text of a failure. *)
(* src/internal/api/git_import.go:284-298 gitOutput *)
Definition gitOutput (w : worktree) (config : string) (args : list string) : result string :=
  let args := ["-c"; "http.followRedirects=false"] ++ args in
  match wt_git w args config with
  | Err e => Err ("git " +:+ Join " " args +:+ ": " +:+ e)
  | Ok out => Ok out
  end.

Definition check {A} (prefix : string) (e : option string) (k : result A) : result A :=
  match e with Some m => Err (prefix +:+ m) | None => k end.
Definition and_then {A B} (prefix : string) (r : result A) (k : A -> result B) : result B :=
  match r with Err m => Err (prefix +:+ m) | Ok x => k x end.

(* src/internal/api/git_import.go:52-124 importGitConfig *)
Definition importGitConfig (getenv : string -> string) (w : worktree) (now : Time) (req : gitImportRequest)
  : result gitImportResult :=
  check "" (validateGitImportRequest getenv req)
  (check "create temp repo: " (wt_create w)
  (and_then "" (gitOutput w "" ["init"; "--quiet"]) (fun _ =>
   let ref := if TrimSpace (gq_GitRef req) =s "" then "HEAD" else TrimSpace (gq_GitRef req) in
   let config := appendGitRemoteConfig (gq_GitURL req) ref in
   check "open git config: " (wt_config w)
   (and_then "" (gitOutput w config ["fetch"; "--depth=1"; "origin"]) (fun _ =>
    and_then "" (gitOutput w config ["rev-parse"; "FETCH_HEAD"]) (fun commitBytes =>
    let commitSHA := TrimSpace commitBytes in
    if negb (MatchString gitCommitSHARegexp commitSHA)
    then Err ("resolved invalid commit SHA " +:+ Quote commitSHA)
    else and_then "" (gitOutput w config ["checkout"; "--detach"; "--quiet"; "FETCH_HEAD"]) (fun _ =>
      check "open git worktree root: " (wt_root w)
      (and_then "open git file: " (wt_file w (gq_GitPath req)) (fun file =>
       and_then "stat git file: " file.1 (fun size =>
       if Nat.ltb gitFileSizeLimit size then Err errGitFileTooLarge
       else and_then "read git file: " file.2 (fun text =>
         let content := take_str (S gitFileSizeLimit) text in
         if Nat.ltb gitFileSizeLimit (String.length content) then Err errGitFileTooLarge
         else
           let sanitized := sanitizeGitURL (gq_GitURL req) in
           Ok (mkImportResult content commitSHA sanitized (gitProviderFromURL sanitized) now)))))))))))).

(** ** A path stays inside the repository *)

Definition proper (part : string) : bool := negb ((part =s "") || (part =s ".")).

Lemma clean_without_dots l out : Forall (fun part => part <> "..") l ->
  foldl clean_step out l = rev (List.filter proper l) ++ out.
Proof.
  intros Hl. revert out. induction Hl as [|part l Hp Hl IH]; intros out; [done|]. cbn [foldl].
  rewrite IH. unfold clean_step, proper at 2. cbn [List.filter].
  destruct ((part =s "") || (part =s ".")) eqn:E; cbn [negb]; [done|].
  destruct (String.eqb_spec part ".."); [done|]. cbn [rev]. by rewrite <-app_assoc.
Qed.

Lemma clean_split p : Forall (fun part => part <> "..") (Split p "/"%char) ->
  List.filter proper (Split p "/"%char) <> [] ->
  Split (Clean p) "/"%char = List.filter proper (Split p "/"%char).
Proof.
  intros Hl Hne. unfold Clean. rewrite clean_without_dots, app_nil_r by done.
  set (f := List.filter proper (Split p "/")) in *.
  destruct (rev f) as [|x l] eqn:E; [by apply (f_equal (@rev _)) in E; rewrite rev_involutive in E|].
  rewrite <-E, rev_involutive. apply (Split_Join "/"%char); [done|].
  apply Forall_forall. intros part [Hp _]%list_elem_of_In%filter_In. apply list_elem_of_In in Hp.
  revert part Hp. apply Forall_forall, Split_no_char.
Qed.

(** A path the checks accept: relative, without NUL or backslash, no element that
    goes up, and at least one element that names something. *)
Record safe_path (p : string) : Prop := {
  sp_relative : HasPrefix p "/" = false;
  sp_no_nul : Contains p (bytes [0]%N) = false;
  sp_no_backslash : Contains p (bytes [92]%N) = false;
  sp_no_up : ".." ∉ Split p "/"%char;
  sp_names : exists part, part ∈ Split p "/"%char /\ proper part = true
}.

Lemma existsb_dots p :
  existsb (fun part => part =s "..") (Split p "/"%char) = false <-> ".." ∉ Split p "/"%char.
Proof.
  rewrite <-not_true_iff_false, existsb_exists. split; intros Hn Hx; apply Hn.
  - exists "..". by rewrite <-list_elem_of_In.
  - destruct Hx as (x & Hx%list_elem_of_In & ->%String.eqb_eq). done.
Qed.

Lemma not_dots p : ".." ∉ Split p "/"%char -> Forall (fun part => part <> "..") (Split p "/"%char).
Proof. intros Hn. apply Forall_forall. by intros x Hx ->. Qed.

Lemma clean_inside p : ".." ∉ Split p "/"%char ->
  (exists part, part ∈ Split p "/"%char /\ proper part = true) ->
  (Clean p =s ".") || (Clean p =s "..") || HasPrefix (Clean p) "../" = false.
Proof.
  intros Hn (part & Hin & Hp). set (f := List.filter proper (Split p "/"%char)).
  assert (part ∈ f) as Hf by by apply list_elem_of_In, filter_In; rewrite <-list_elem_of_In.
  assert (Split (Clean p) "/"%char = f) as Hs.
  { apply clean_split; [by apply not_dots|]. intros E. change (f = []) in E. rewrite E in Hf. by inversion Hf. }
  assert (forall x, x ∈ f -> proper x = true /\ x <> "..") as Hall.
  { intros x [Hx Hpx]%list_elem_of_In%filter_In. split; [done|]. intros ->. by apply Hn, list_elem_of_In. }
  rewrite <-Hs in Hall. rewrite !orb_false_iff. split_and!.
  - apply String.eqb_neq. intros E. rewrite E in Hall. by destruct (Hall "." ltac:(by left)).
  - apply String.eqb_neq. intros E. rewrite E in Hall. by destruct (Hall ".." ltac:(by left)).
  - apply not_true_iff_false. intros [r E]%HasPrefix_iff. rewrite E in Hall.
    change ("../" +:+ r) with (".." +:+ String "/" r) in Hall.
    rewrite Split_app in Hall by (by repeat constructor). by destruct (Hall ".." ltac:(by left)).
Qed.

(** the check on a path accepts exactly the relative paths without NUL and
    backslash that have no parent element and name something; so no accepted path,
    however it is cleaned, leaves the repository. *)
Lemma validateGitPath_spec p : validateGitPath p = None <-> safe_path p.
Proof.
  unfold validateGitPath. split.
  - repeat case_if; try done. intros _. rewrite !orb_false_iff in *. destruct_and!.
    assert (".." ∉ Split p "/"%char) as Hn by by apply existsb_dots.
    constructor; try done. destruct (List.filter proper (Split p "/"%char)) as [|part l] eqn:E.
    + assert (Clean p = ".") as Hc
        by (unfold Clean; rewrite clean_without_dots, E; [done|by apply not_dots]).
      rewrite Hc in *. done.
    + assert (In part (List.filter proper (Split p "/"%char))) as [Hp1 Hp2]%filter_In by (rewrite E; by left).
      exists part. by rewrite list_elem_of_In.
  - intros [Hr Hz Hb Hn Hx].
    assert (p <> "") as Hp by (intros ->; destruct Hx as (? & ->%list_elem_of_singleton & ?); done).
    rewrite (proj2 (String.eqb_neq _ _) Hp), Hr, Hz, Hb, (proj2 (existsb_dots p) Hn). cbn [orb].
    by rewrite clean_inside.
Qed.


(** ** What an import contacts and stores *)

Lemma land_range b : (b < 256)%N -> (N.eqb (N.land b 240) 16 = true <-> 16 <= b <= 31)%N.
Proof.
  intros Hb.
  assert (forallb (fun n => Bool.eqb (N.eqb (N.land (N.of_nat n) 240) 16)
    ((16 <=? N.of_nat n) && (N.of_nat n <=? 31))%N) (seq 0 256) = true) as Hall by (vm_compute; reflexivity).
  rewrite forallb_forall in Hall. specialize (Hall (N.to_nat b)). rewrite N2Nat.id in Hall.
  ospecialize (Hall _); [apply in_seq; lia|]. apply eqb_prop in Hall. rewrite Hall.
  rewrite andb_true_iff, !N.leb_le. done.
Qed.

(** An address the guard accepts is in none of the loopback, link-local and
    private IPv4 ranges. *)
Lemma public_v4 a b c d : (b < 256)%N -> non_public [a; b; c; d] = false ->
  a <> 127%N /\ a <> 10%N /\ ~ (a = 169 /\ b = 254)%N /\ ~ (a = 192 /\ b = 168)%N /\
  ~ (a = 172 /\ 16 <= b <= 31)%N.
Proof.
  intros Hb. unfold non_public, IsLoopback, IsLinkLocalUnicast, IsPrivate, on_ip.
  change (Unmap [a; b; c; d]) with [a; b; c; d]. cbn [length Nat.eqb byte_at nth].
  rewrite !orb_false_iff, !andb_false_iff, !N.eqb_neq, <-!N.eqb_neq.
  pose proof (land_range b Hb) as Hr. intros. destruct_and!. rewrite !N.eqb_neq in *.
  split_and!; try done; intros []; destruct_or!; subst; try done; rewrite N.eqb_eq in Hr; tauto.
Qed.

Lemma host_has_no_newline raw host : gitURLHost raw = Ok host -> no_char (Ascii.ascii_of_N 10) raw.
Proof.
  unfold gitURLHost. case_match eqn:E; [done|]. apply orb_false_iff in E as [E1 E2]. intros _.
  apply negb_false_iff, String.eqb_eq in E1. rewrite E1 in E2.
  apply (no_char_ContainsAny _ _ _ E2). set_solver.
Qed.

Lemma valid_ref_chars ref : validateGitRef ref = None ->
  TrimSpace ref = "" \/ all_chars ref_char (TrimSpace ref) = true.
Proof.
  unfold validateGitRef. case_if; [intros _; left; by apply String.eqb_eq|]. repeat case_if; try done.
  intros _. right. match goal with Hm : negb _ = false |- _ => apply negb_false_iff, anchored_plus in Hm end.
  tauto.
Qed.

Definition newline : Ascii.ascii := Ascii.ascii_of_N 10.
Definition effective_ref (ref : string) : string :=
  if TrimSpace ref =s "" then "HEAD" else TrimSpace ref.

Lemma valid_ref_has_no_newline ref : validateGitRef ref = None -> no_char newline (effective_ref ref).
Proof.
  intros Hv. unfold effective_ref. case_match eqn:E; [by repeat constructor|].
  destruct (valid_ref_chars _ Hv) as [Ht|Hc]; [by rewrite Ht in E|].
  by apply (all_chars_no_char ref_char).
Qed.

Lemma valid_request getenv req : validateGitImportRequest getenv req = None ->
  safe_path (gq_GitPath req) /\ validateGitRef (gq_GitRef req) = None /\
  exists host, gitURLHost (gq_GitURL req) = Ok host /\
    (shouldAllowPrivateGitURLs getenv = false -> rejectPrivateGitHost host = None).
Proof.
  unfold validateGitImportRequest. repeat case_match; try done; intros Hr;
    (split_and!; [by apply validateGitPath_spec|done|]); eexists; (split; [done|]); by intros.
Qed.

(** the lines an import adds to the configuration of the temporary repository
    are the section, one URL and one refspec, whatever a valid request holds: no
    text of the request adds a line, so none adds a setting. *)
Theorem import_config_has_one_remote getenv req : validateGitImportRequest getenv req = None ->
  Split (appendGitRemoteConfig (gq_GitURL req) (effective_ref (gq_GitRef req))) newline =
  [""; "[remote " +:+ Quote "origin" +:+ "]"; bytes [9]%N +:+ "url = " +:+ gq_GitURL req;
   bytes [9]%N +:+ "fetch = +" +:+ effective_ref (gq_GitRef req) +:+ ":refs/remotes/origin/hermes-import"; ""].
Proof.
  intros (_ & Hr & host & Hh & _)%valid_request.
  pose proof (host_has_no_newline _ _ Hh) as Hu. pose proof (valid_ref_has_no_newline _ Hr) as Hf.
  transitivity (Split (Join (String newline "") [""; "[remote " +:+ Quote "origin" +:+ "]";
    bytes [9]%N +:+ "url = " +:+ gq_GitURL req;
    bytes [9]%N +:+ "fetch = +" +:+ effective_ref (gq_GitRef req) +:+ ":refs/remotes/origin/hermes-import";
    ""]) newline).
  - apply (f_equal (fun t => Split t newline)). unfold appendGitRemoteConfig, Join. cbn [String.concat].
    rewrite !str_app_assoc. reflexivity.
  - apply Split_Join; [done|]. rewrite !Forall_cons, !no_char_app, Forall_nil; repeat match goal with |- _ /\ _ => split end; try done; by apply no_char_Contains.
Qed.

Lemma check_Ok {A} p e (k : result A) x : check p e k = Ok x -> e = None /\ k = Ok x.
Proof. destruct e; by cbn. Qed.
Lemma and_then_Ok {A B} p (r : result A) (k : A -> result B) x :
  and_then p r k = Ok x -> exists y, r = Ok y /\ k y = Ok x.
Proof. destruct r; cbn; [eauto|done]. Qed.

Lemma Ok_inj {A} (x y : A) : Ok x = Ok y -> x = y.
Proof. by intros [= ->]. Qed.

(** Every address of the host is public. *)
Definition public_host (host : string) : Prop :=
  exists ips, LookupIP host = Ok ips /\ ips <> [] /\ Forall (fun ip => non_public ip = false) ips.

Lemma rejectPrivateGitHost_None host : rejectPrivateGitHost host = None <->
  host <> "" /\ public_host host.
Proof.
  unfold rejectPrivateGitHost, public_host. destruct (String.eqb_spec host "") as [->|Hne].
  { split; [done|tauto]. }
  destruct (LookupIP host) as [[|ip ips]|]; [| |split; [done|by intros (_ & ? & ? & _)]].
  - split; [done|]. intros (_ & ? & [= <-] & ? & _). done.
  - destruct (existsb non_public (ip :: ips)) eqn:E; split; try done.
    + intros (_ & ? & [= <-] & _ & Hf). apply existsb_exists in E as (x & Hx%list_elem_of_In & Hp). rewrite Forall_forall in Hf.
      by rewrite Hf in Hp.
    + intros _. split; [done|]. exists (ip :: ips). split_and!; [done..|]. apply Forall_forall.
      intros x Hx. apply not_true_iff_false. intros Hp. apply not_true_iff_false in E. apply E, existsb_exists.
      exists x. by rewrite <-list_elem_of_In.
Qed.


End Import.

(** ** Concrete runs *)

(** A resolver that knows one host, and a repository with one file. *)
Definition one_host : GitNet :=
  {| LookupIP host := if host =s "github.com" then Ok [[140; 82; 121; 4]%N] else Err "no such host";
     url_error _ := "parse error" |}.
Definition sample_sha := "0123456789abcdef0123456789abcdef01234567".
Definition one_file : worktree :=
  mkWorktree None None
    (fun args _ => if bool_decide ("rev-parse" ∈ args) then Ok (sample_sha +:+ bytes [10]%N) else Ok "") None
    (fun path => if path =s "otel/config.yaml" then Ok (Ok 4, Ok "a: b") else Err "not found").
Definition sample_import : gitImportRequest :=
  mkImportRequest "edge" "git@github.com:acme/otel.git" "main" "otel/config.yaml".

Definition import_run : result gitImportResult :=
  importGitConfig (H := byte_tables) (H0 := plain_urls) (H1 := one_host) (fun _ => "") one_file 7 sample_import.


Lemma import_config_witness :
  length (Split (appendGitRemoteConfig (gq_GitURL sample_import) "main") newline) = 5.
Proof.
  exact (f_equal (@length string) (import_config_has_one_remote (H := byte_tables) (H0 := plain_urls)
    (H1 := one_host) (fun _ => "") sample_import ltac:(vm_compute; reflexivity))).
Defined.

(** An absolute URL that does not parse is read as [user@host:path]: the guard
    then resolves the host the text names after its last part, while git would
    contact the one in the authority. *)
Example unparsable_url_skips_the_guard `{UnicodeTables} `{UrlLib} `{GitNet} :
  let url := "http://127.0.0.1/%zz@github.com:x" in
  url_Parse url = None -> gitURLHost url = Ok "github.com".
Proof.
  intros url Hp. unfold gitURLHost. assert (TrimSpace url = url) as Ht by (vm_compute; reflexivity).
  rewrite Ht, Hp. vm_compute. reflexivity.
Qed.

(** Redaction takes the word [Bearer] for the value of an authorization header
    and leaves the token. *)
Example bearer_token_survives_redaction :
  redactGitOpsText "Authorization: Bearer s3cr3t" = "[redacted] s3cr3t".
Proof. vm_compute. reflexivity. Qed.

End GitSource.
