(* ===== verification/GitOps.v ===== *)
(** * GitOps export and webhooks (internal/api/gitops_export.go)

    The export of a config to a pull or merge request, the two provider clients
    with the HTTP exchanges they make, the webhook of each provider with its
    signature, and the stored validation statuses that gate an export. *)

From S2P Require Import Prelude GoString Models PushStatus Registry Sha256 Alerts Regex.
From S2P Require Import Validator Yaml ConfigPolicy Access Store PushHistory OpampServer.
From S2P Require Import OtelDiff Api Approvals Fleet GitSource.
Import Sha256.Sha256 Regex Registry Validator Yaml ConfigPolicy Access Store.Store PushHistory OpampServer OtelDiff Api
  Fleet GitSource.

Module GitOps.

(** ** Records *)

(* src/pkg/models/models.go:171-177 GitOpsExportResult *)
Record GitOpsExportResult := mkExportResult {
  xr_Provider : string; xr_URL : string; xr_Number : Z; xr_Branch : string; xr_CommitSHA : string
}.
(* src/pkg/models/models.go:181-185 GitOpsCommentResult *)
Record GitOpsCommentResult := mkCommentResult {
  cr_Provider : string; cr_URL : string; cr_CommentID : string
}.
(* src/pkg/models/models.go:188-196 GitOpsWebhookResult *)
Record GitOpsWebhookResult := mkWebhookResult {
  hr_Provider : string; hr_Event : string; hr_Action : string; hr_ValidationStatus : string;
  hr_SourcePath : string; hr_SourceRef : string; hr_CommitSHA : string
}.
(* src/pkg/models/models.go:200-209 GitOpsValidationStatus *)
Record GitOpsValidationStatus := mkValidationStatus {
  vs_Provider : string; vs_Event : string; vs_Action : string; vs_Status : string; vs_SourcePath : string;
  vs_SourceRef : string; vs_CommitSHA : string; vs_ObservedAt : Time
}.
(* src/internal/api/gitops_export.go:33-45 gitOpsExportRequest *)
Record gitOpsExportRequest := mkExportRequest {
  xq_Provider : string; xq_Repository : string; xq_Path : string; xq_BaseBranch : string;
  xq_Branch : string; xq_Title : string; xq_Body : string; xq_ConfigID : string; xq_Content : string;
  xq_CommitSHA : string
}.
(* src/internal/api/gitops_export.go:47-52 gitOpsValidationCommentRequest *)
Record gitOpsValidationCommentRequest := mkCommentRequest {
  cq_Provider : string; cq_Repository : string; cq_Number : Z; cq_Body : string
}.
(* src/internal/api/gitops_export.go:54-58 gitOpsWebhookRequest *)
Record gitOpsWebhookRequest := mkWebhookRequest {
  hq_Provider : string; hq_Event : string; hq_Payload : string
}.
(* src/internal/api/gitops_export.go:60-64 gitOpsValidationIssue *)
Record gitOpsValidationIssue := mkIssue { gi_Code : string; gi_Message : string; gi_Path : string }.
(* src/internal/api/gitops_export.go:66-70 gitOpsValidationCommentResult *)
Record gitOpsValidationCommentResult := mkCommentVerdict {
  gv_Valid : bool; gv_Errors : list gitOpsValidationIssue; gv_Warnings : list string
}.
(* src/internal/api/gitops_export.go:72-80 gitOpsValidationGateResult *)
Record gitOpsValidationGateResult := mkGate {
  ga_Valid : bool; ga_Reason : string; ga_Provider : string; ga_SourcePath : string; ga_SourceRef : string;
  ga_CommitSHA : string; ga_Latest : option GitOpsValidationStatus
}.

(** ** Requests to a provider *)

(** A body value, a request, and what its answer decodes to: the text and the
    number at a path of the JSON answer, and the elements of an array. *)
Inductive body_value := BText (s : string) | BActions (l : list (list (string * string))).
Record http_call := mkCall {
  hc_method : string; hc_url : string; hc_headers : list (string * string);
  hc_body : option (list (string * body_value))
}.
Record item := mkItem { it_text : string -> string; it_int : string -> Z }.
Record answer := mkAnswer { an_top : item; an_items : list item }.
Inductive exchange := Unreachable (err : string) | Answered (status : Z) (decoded : result answer).

(** The API with the table of validation statuses, in the order of their ids, and
    the requests sent to providers. *)
Record gapi := mkGapi {
  g_api : api; g_statuses : list GitOpsValidationStatus; g_calls : list http_call
}.
Record genv := mkGenv {
  ge_api : aenv;
  ge_newRequest : string -> option string;       (* http.NewRequest refuses the URL *)
  ge_http : nat -> exchange;                     (* client.Do, per request *)
  ge_json : string -> item;                      (* the fields json.Unmarshal sets *)
  ge_order : list string                         (* the order of a map iteration *)
}.

Definition GM (A : Type) : Type := gapi -> gapi * A.
Definition gret {A} (x : A) : GM A := fun g => (g, x).
Definition gbind {A B} (m : GM A) (f : A -> GM B) : GM B := fun g => let (g', x) := m g in f x g'.
Declare Scope git_scope.
Notation "x ← y ; z" := (gbind y (fun x => z)) : git_scope.
Local Open Scope git_scope.
Definition with_api {A} (m : AM A) : GM A :=
  fun g => let (a, x) := m (g_api g) in (mkGapi a (g_statuses g) (g_calls g), x).

(** ** The table of statuses *)

Section Statuses.
Context `{TimestampColumn}.
(* src/internal/store/configs.go:156-167 RecordGitOpsValidationStatus *)
Definition RecordGitOpsValidationStatus (rows : list GitOpsValidationStatus) (fault : io) (now : Time)
  (s : GitOpsValidationStatus) : list GitOpsValidationStatus * option string :=
  let row := mkValidationStatus (vs_Provider s) (vs_Event s) (vs_Action s) (vs_Status s) (vs_SourcePath s)
    (vs_SourceRef s) (vs_CommitSHA s) (stored (if IsZero (vs_ObservedAt s) then now else vs_ObservedAt s)) in
  match fault with
  | IoOk => (rows ++ [row], None)
  | IoFail executed => (if executed then rows ++ [row] else rows, Some "exec failed")
  end.

(** The newest by instant, then by id. *)
Fixpoint latest (rows : list GitOpsValidationStatus) : option GitOpsValidationStatus :=
  match rows with
  | [] => None
  | x :: rows => match latest rows with
                 | None => Some x
                 | Some y => if Z.ltb (vs_ObservedAt y) (vs_ObservedAt x) then Some x else Some y
                 end
  end.
Definition signal_for (provider sourcePath sourceRef commitSHA : string) (s : GitOpsValidationStatus) : bool :=
  (vs_Provider s =s provider) && (vs_SourcePath s =s sourcePath) && (vs_SourceRef s =s sourceRef)
  && (vs_CommitSHA s =s commitSHA).

(* src/internal/store/configs.go:170-185 GetLatestGitOpsValidationStatus *)
Definition GetLatestGitOpsValidationStatus (rows : list GitOpsValidationStatus) (fault : io)
  (provider sourcePath sourceRef commitSHA : string) : result (option GitOpsValidationStatus) :=
  query fault (latest (List.filter (signal_for provider sourcePath sourceRef commitSHA) rows)).
End Statuses.

(** ** Texts *)

Definition gitOpsValidationCommentMarker := "<!-- otel-magnify: validation-comment -->".
(* src/internal/api/gitops_export.go:88-88 gitOpsSourcePathMarkerRegexp *)
Definition gitOpsSourcePathMarkerRegexp : re :=
  seqs [ilit "otel-magnify:"; star (Byte re_space); ilit "path="; Group 1 (plus (Byte (not_in [60]%N)))].

Definition nl := bytes [10]%N.
Definition nl2 := bytes [10; 10]%N.
Definition trim_newlines (s : string) : string := trim_right_char (Ascii.ascii_of_N 10) s.

(* src/internal/api/gitops_export.go:409-414 gitOpsValidationCommentBodyWithMarker *)
Definition gitOpsValidationCommentBodyWithMarker (body : string) : string :=
  if Contains body gitOpsValidationCommentMarker then body
  else trim_newlines body +:+ nl2 +:+ gitOpsValidationCommentMarker +:+ nl.

(* src/internal/api/gitops_export.go:613-622 gitOpsPRBodyWithSourceMarker *)
Definition gitOpsPRBodyWithSourceMarker (body path : string) : string :=
  let marker := "<!-- otel-magnify: path=" +:+ path +:+ " -->" in
  if Contains body marker then body
  else if TrimSpace body =s "" then marker
  else trim_newlines body +:+ nl2 +:+ marker.

(* src/internal/api/gitops_export.go:624-634 gitOpsSourcePathFromMarker *)
Definition gitOpsSourcePathFromMarker (body : string) : string :=
  match FindStringSubmatch gitOpsSourcePathMarkerRegexp body with
  | None => ""
  | Some caps => let path := group 1 caps in
                 match validateGitPath path with Some _ => "" | None => path end
  end.

(* src/internal/api/gitops_export.go:340-351 validationCommentFromValidator *)
Definition validationCommentFromValidator (result : Result) : gitOpsValidationCommentResult :=
  mkCommentVerdict (rs_Valid result)
    (map (fun e => mkIssue (er_Code e) (er_Message e) (er_Path e)) (rs_Errors result))
    (List.filter (fun m => m <>s "") (map ms_Message (rs_Warnings result))).

Section Comment.
Context `{UrlLib}.

Definition when (b : bool) (s : string) : string := if b then s else "".
Definition issue_line (i : gitOpsValidationIssue) : string :=
  "- " +:+ when (gi_Code i <>s "") ("[" +:+ redactGitOpsText (gi_Code i) +:+ "] ")
       +:+ when (gi_Path i <>s "") (redactGitOpsText (gi_Path i) +:+ ": ")
       +:+ redactGitOpsText (gi_Message i) +:+ nl.

(* src/internal/api/gitops_export.go:353-407 buildGitOpsValidationComment *)
Definition buildGitOpsValidationComment (cfg : Config) (result : gitOpsValidationCommentResult) : string :=
  gitOpsValidationCommentBodyWithMarker
    ("## otel-magnify validation: " +:+ (if gv_Valid result then "pass" else "fail") +:+ nl2 +:+ "Source:"
     +:+ nl +:+ "- Path: " +:+ redactGitOpsText (cf_GitPath cfg) +:+ nl +:+ "- Ref: "
     +:+ redactGitOpsText (cf_GitRef cfg) +:+ nl +:+ "- Commit SHA: " +:+ redactGitOpsText (cf_CommitSHA cfg)
     +:+ when (cf_GitURL cfg <>s "")
           (nl +:+ "- Repository: " +:+ redactGitOpsText (sanitizeGitURL (cf_GitURL cfg)))
     +:+ nl2
     +:+ (if gv_Valid result then "Validation passed. No blocking errors were found." +:+ nl
          else "Validation failed with " +:+ Itoa (length (gv_Errors result)) +:+ " error(s)." +:+ nl)
     +:+ when (Nat.ltb 0 (length (gv_Errors result)))
           (nl +:+ "Errors:" +:+ nl +:+ String.concat "" (map issue_line (gv_Errors result)))
     +:+ when (Nat.ltb 0 (length (gv_Warnings result)))
           (nl +:+ "Warnings:" +:+ nl
               +:+ String.concat "" (map (fun w => "- " +:+ redactGitOpsText w +:+ nl) (gv_Warnings result)))).
End Comment.

(** ** Validation of an export request *)

(* src/internal/api/gitops_export.go:222-244 validateGitOpsRepository *)
Definition validateGitOpsRepository (provider repository : string) : option string :=
  let raw := repository in
  let repository := TrimSpace repository in
  if repository =s "" then Some "repository is required"
  else if (repository <>s raw) || ContainsAny repository [0; 13; 10; 9; 32]%N
          || Contains repository (bytes [92]%N) || ContainsAny repository [63; 35]%N
          || Contains repository "://" || HasPrefix repository "/" || HasSuffix repository "/"
  then Some "invalid repository"
  else
    let parts := Split repository "/"%char in
    if (provider =s "github") && negb (Nat.eqb (length parts) 2) then Some "invalid repository"
    else if (provider =s "gitlab") && Nat.ltb (length parts) 2 then Some "invalid repository"
    else if existsb (fun part => one_of part [""; "."; ".."]) parts then Some "invalid repository"
    else None.

Section Requests.
Context `{UnicodeTables} (v : genv).

Definition set_provider (p : string) (q : gitOpsExportRequest) : gitOpsExportRequest :=
  mkExportRequest p (xq_Repository q) (xq_Path q) (xq_BaseBranch q) (xq_Branch q) (xq_Title q) (xq_Body q)
    (xq_ConfigID q) (xq_Content q) (xq_CommitSHA q).

Definition required_fields (req : gitOpsExportRequest) : list (string * string) :=
  [("repository", xq_Repository req); ("path", xq_Path req); ("base_branch", xq_BaseBranch req);
   ("branch", xq_Branch req); ("title", xq_Title req)].
(** The first blank field in the order the map is visited. *)
Definition missing_field (req : gitOpsExportRequest) : option string :=
  List.find (fun name => existsb (fun f => (f.1 =s name) && (TrimSpace f.2 =s "")) (required_fields req))
    (ge_order v).

(* src/internal/api/gitops_export.go:197-220 validateGitOpsExportRequest *)
Definition validateGitOpsExportRequest (req : gitOpsExportRequest) : result gitOpsExportRequest :=
  let req := set_provider (ToLower (TrimSpace (xq_Provider req))) req in
  if (xq_Provider req <>s "github") && (xq_Provider req <>s "gitlab")
  then Err "provider must be github or gitlab"
  else check "" (validateGitOpsRepository (xq_Provider req) (xq_Repository req))
    match missing_field req with
    | Some name => Err (name +:+ " is required")
    | None =>
        check "invalid git path: " (validateGitPath (xq_Path req))
        (check "invalid git ref: base_branch: " (validateGitRef (xq_BaseBranch req))
        (check "invalid git ref: branch: " (validateGitRef (xq_Branch req)) (Ok req)))
    end.

(** ** HTTP *)

(** The request is counted before it is answered. *)
Definition send (c : http_call) : GM exchange :=
  fun g => (mkGapi (g_api g) (g_statuses g) (g_calls g ++ [c]), ge_http v (length (g_calls g))).

Definition no_item : item := mkItem (fun _ => "") (fun _ => 0%Z).
(* src/internal/api/gitops_export.go:636-671 doGitOpsJSON *)
Definition doGitOpsJSON (method endpoint : string) (headers : list (string * string))
  (body : option (list (string * body_value))) (decodes : bool) : GM (result answer) :=
  match ge_newRequest v endpoint with
  | Some e => gret (Err e)
  | None =>
      let ctype := match body with Some _ => [("Content-Type", "application/json")] | None => [] end in
      r ← send (mkCall method endpoint (ctype ++ headers) body);
      gret match r with
           | Unreachable e => Err e
           | Answered status decoded =>
               if Z.ltb status 200 || Z.leb 300 status
               then Err ("gitops provider returned non-2xx status " +:+ pretty.pretty status)
               else if decodes then decoded else Ok (mkAnswer no_item [])
           end
  end.

(** ** Providers *)

(** The three operations of a provider. *)
(* src/internal/api/gitops_export.go:27-31 gitOpsProvider *)
Record gitOpsProvider := mkProvider {
  pv_ExportConfig : gitOpsExportRequest -> GM (result GitOpsExportResult);
  pv_UpsertValidationComment : gitOpsValidationCommentRequest -> GM (result GitOpsCommentResult);
  pv_HandleWebhook : gitOpsWebhookRequest -> result GitOpsWebhookResult
}.

(** [base64.StdEncoding]: the other alphabet, with padding. *)
Definition std_char (c : Ascii.ascii) : Ascii.ascii :=
  if Ascii.eqb c "-" then "+"%char else if Ascii.eqb c "_" then "/"%char else c.
Definition b64_std (bs : list N) : string :=
  map_str std_char (b64_encode bs) +:+
  match Nat.modulo (length bs) 3 with 1 => "==" | 2 => "=" | _ => "" end.

(** [url.PathEscape]. *)
Definition hex_upper (n : N) : Ascii.ascii := Ascii.ascii_of_N (if (n <? 10)%N then 48 + n else 55 + n).
Definition escape_char (c : Ascii.ascii) : string :=
  if letter c || is_digit c || in_set [45; 95; 46; 126; 36; 38; 43; 61; 58; 64]%N c then String c ""
  else "%" +:+ String (hex_upper (code c / 16)) (String (hex_upper (code c mod 16)) "").
Fixpoint PathEscape (s : string) : string :=
  match s with "" => "" | String c s' => escape_char c +:+ PathEscape s' end.

Definition texts (l : list (string * string)) : option (list (string * body_value)) :=
  Some (map (fun kv => (kv.1, BText kv.2)) l).
(** The next step unless the request failed. *)
Definition on_ok {A} (m : GM (result answer)) (k : answer -> GM (result A)) : GM (result A) :=
  r ← m; match r with Err e => gret (Err e) | Ok a => k a end.
Definition has_marker (i : item) : bool := Contains (it_text i "body") gitOpsValidationCommentMarker.

Section GitHub.
Variable token : string.

(* src/internal/api/gitops_export.go:531-533 githubJSON *)
Definition githubJSON (method path : string) (body : option (list (string * body_value))) (decodes : bool)
  : GM (result answer) :=
  doGitOpsJSON method ("https://api.github.com" +:+ path)
    [("Authorization", "Bearer " +:+ token); ("Accept", "application/vnd.github+json");
     ("X-GitHub-Api-Version", "2022-11-28")] body decodes.

(* src/internal/api/gitops_export.go:519-529 githubBaseRefSHA *)
Definition githubBaseRefSHA (repo branch : string) : GM (result answer) :=
  githubJSON "GET" ("/repos/" +:+ repo +:+ "/git/ref/heads/" +:+ PathEscape branch) None true.

(* src/internal/api/gitops_export.go:448-472 githubGitOpsProvider.ExportConfig *)
Definition github_ExportConfig (req : gitOpsExportRequest) : GM (result GitOpsExportResult) :=
  let repo := "/repos/" +:+ xq_Repository req in
  on_ok (githubBaseRefSHA (xq_Repository req) (xq_BaseBranch req)) (fun ref =>
  let baseSHA := it_text (an_top ref) "object.sha" in
  on_ok (githubJSON "POST" (repo +:+ "/git/refs")
           (texts [("ref", "refs/heads/" +:+ xq_Branch req); ("sha", baseSHA)]) false) (fun _ =>
  on_ok (githubJSON "PUT" (repo +:+ "/contents/" +:+ xq_Path req)
           (texts [("message", xq_Title req); ("content", b64_std (str_bytes (xq_Content req)));
                   ("branch", xq_Branch req)]) true) (fun contentResp =>
  on_ok (githubJSON "POST" (repo +:+ "/pulls")
           (texts [("title", xq_Title req); ("head", xq_Branch req); ("base", xq_BaseBranch req);
                   ("body", gitOpsPRBodyWithSourceMarker (xq_Body req) (xq_Path req))]) true) (fun pr =>
  gret (Ok (mkExportResult "github" (it_text (an_top pr) "html_url") (it_int (an_top pr) "number")
              (xq_Branch req) (it_text (an_top contentResp) "commit.sha"))))))).

(* src/internal/api/gitops_export.go:474-502 githubGitOpsProvider.UpsertValidationComment *)
Definition github_UpsertValidationComment (req : gitOpsValidationCommentRequest)
  : GM (result GitOpsCommentResult) :=
  let body := gitOpsValidationCommentBodyWithMarker (cq_Body req) in
  let path := "/repos/" +:+ cq_Repository req +:+ "/issues/" +:+ pretty.pretty (cq_Number req) +:+ "/comments" in
  let done_ c := gret (Ok (mkCommentResult "github" (it_text (an_top c) "html_url")
                             (pretty.pretty (it_int (an_top c) "id")))) in
  on_ok (githubJSON "GET" path None true) (fun comments =>
  match List.find has_marker (an_items comments) with
  | Some existing =>
      let updatePath := "/repos/" +:+ cq_Repository req +:+ "/issues/comments/"
        +:+ pretty.pretty (it_int existing "id") in
      on_ok (githubJSON "PATCH" updatePath (texts [("body", body)]) true) done_
  | None => on_ok (githubJSON "POST" path (texts [("body", body)]) true) done_
  end).

(* src/internal/api/gitops_export.go:504-517 githubGitOpsProvider.HandleWebhook *)
Definition github_HandleWebhook (req : gitOpsWebhookRequest) : result GitOpsWebhookResult :=
  let payload := it_text (ge_json v (hq_Payload req)) in
  Ok (mkWebhookResult "github" (hq_Event req) (payload "action") "received"
        (gitOpsSourcePathFromMarker (payload "pull_request.body")) (payload "pull_request.head.ref")
        (payload "pull_request.head.sha")).

Definition githubGitOpsProvider : gitOpsProvider :=
  mkProvider github_ExportConfig github_UpsertValidationComment github_HandleWebhook.
End GitHub.

Section GitLab.
Variables token baseURL : string.

Definition gitlab_headers := [("PRIVATE-TOKEN", token)].
Definition gitlab_base (repository : string) : string :=
  trim_right_char "/" baseURL +:+ "/api/v4/projects/" +:+ PathEscape repository.

(* src/internal/api/gitops_export.go:541-563 gitlabGitOpsProvider.ExportConfig *)
Definition gitlab_ExportConfig (req : gitOpsExportRequest) : GM (result GitOpsExportResult) :=
  let apiBase := gitlab_base (xq_Repository req) in
  on_ok (doGitOpsJSON "POST" (apiBase +:+ "/repository/branches") gitlab_headers
           (texts [("branch", xq_Branch req); ("ref", xq_BaseBranch req)]) false) (fun _ =>
  let commitBody :=
    [("branch", BText (xq_Branch req)); ("commit_message", BText (xq_Title req));
     ("actions", BActions [[("action", "update"); ("file_path", xq_Path req); ("content", xq_Content req)]])] in
  on_ok (doGitOpsJSON "POST" (apiBase +:+ "/repository/commits") gitlab_headers (Some commitBody) true)
    (fun commit =>
  on_ok (doGitOpsJSON "POST" (apiBase +:+ "/merge_requests") gitlab_headers
           (texts [("source_branch", xq_Branch req); ("target_branch", xq_BaseBranch req);
                   ("title", xq_Title req);
                   ("description", gitOpsPRBodyWithSourceMarker (xq_Body req) (xq_Path req))]) true) (fun mr =>
  gret (Ok (mkExportResult "gitlab" (it_text (an_top mr) "web_url") (it_int (an_top mr) "iid") (xq_Branch req)
              (it_text (an_top commit) "id")))))).

(* src/internal/api/gitops_export.go:565-595 gitlabGitOpsProvider.UpsertValidationComment *)
Definition gitlab_UpsertValidationComment (req : gitOpsValidationCommentRequest)
  : GM (result GitOpsCommentResult) :=
  let path := gitlab_base (cq_Repository req) +:+ "/merge_requests/" +:+ pretty.pretty (cq_Number req)
    +:+ "/notes" in
  let body := gitOpsValidationCommentBodyWithMarker (cq_Body req) in
  let done_ c := gret (Ok (mkCommentResult "gitlab" (it_text (an_top c) "web_url")
                             (pretty.pretty (it_int (an_top c) "id")))) in
  on_ok (doGitOpsJSON "GET" path gitlab_headers None true) (fun notes =>
  match List.find has_marker (an_items notes) with
  | Some existing =>
      let updatePath := path +:+ "/" +:+ pretty.pretty (it_int existing "id") in
      on_ok (doGitOpsJSON "PUT" updatePath gitlab_headers (texts [("body", body)]) true) done_
  | None => on_ok (doGitOpsJSON "POST" path gitlab_headers (texts [("body", body)]) true) done_
  end).

(* src/internal/api/gitops_export.go:597-611 gitlabGitOpsProvider.HandleWebhook *)
Definition gitlab_HandleWebhook (req : gitOpsWebhookRequest) : result GitOpsWebhookResult :=
  let payload := it_text (ge_json v (hq_Payload req)) in
  Ok (mkWebhookResult "gitlab" (hq_Event req) (payload "object_attributes.action") "received"
        (gitOpsSourcePathFromMarker (payload "object_attributes.description"))
        (payload "object_attributes.source_branch") (payload "object_attributes.last_commit.id")).

Definition gitlabGitOpsProvider : gitOpsProvider :=
  mkProvider gitlab_ExportConfig gitlab_UpsertValidationComment gitlab_HandleWebhook.
End GitLab.

Definition getenv (key : string) : string := ae_getenv (ge_api v) key.
(* src/internal/api/gitops_export.go:673-678 envDefault *)
Definition envDefault (key fallback : string) : string := default_str (getenv key) fallback.

(** The override of the tests is off. *)
(* src/internal/api/gitops_export.go:287-307 gitOpsProviderFor *)
Definition gitOpsProviderFor (name : string) : result gitOpsProvider :=
  if ToLower name =s "github" then
    let token := getenv "GITOPS_GITHUB_TOKEN" in
    if token =s "" then Err "github gitops provider is disabled: GITOPS_GITHUB_TOKEN is not configured"
    else Ok (githubGitOpsProvider token)
  else if ToLower name =s "gitlab" then
    let token := getenv "GITOPS_GITLAB_TOKEN" in
    if token =s "" then Err "gitlab gitops provider is disabled: GITOPS_GITLAB_TOKEN is not configured"
    else Ok (gitlabGitOpsProvider token (envDefault "GITOPS_GITLAB_BASE_URL" "https://gitlab.com"))
  else Err "unsupported gitops provider".

(** ** Webhooks *)

(** HMAC with SHA-256: blocks of 64 bytes. *)
Definition hmac_sha256 (key msg : list N) : list N :=
  let key := if Nat.ltb 64 (length key) then Sum256 key else key in
  let key := key ++ replicate (64 - length key) 0%N in
  Sum256 (map (N.lxor 92) key ++ Sum256 (map (N.lxor 54) key ++ msg)).

(** The overrides of the tests are empty. *)
(* src/internal/api/gitops_export.go:309-317 gitOpsWebhookSecret *)
Definition gitOpsWebhookSecret (provider : string) : string :=
  if provider =s "github" then getenv "GITOPS_GITHUB_WEBHOOK_SECRET"
  else getenv "GITOPS_GITLAB_WEBHOOK_SECRET".

(* src/internal/api/gitops_export.go:319-331 verifyGitOpsWebhookSignature *)
Definition verifyGitOpsWebhookSignature (provider secret payload : string) (header : string -> string) : bool :=
  if provider =s "github" then
    let got := header "X-Hub-Signature-256" in
    if negb (HasPrefix got "sha256=") then false
    else got =s "sha256=" +:+ hex_encode (hmac_sha256 (str_bytes secret) (str_bytes payload))
  else header "X-Gitlab-Token" =s secret.

(* src/internal/api/gitops_export.go:333-338 gitOpsWebhookEvent *)
Definition gitOpsWebhookEvent (provider : string) (header : string -> string) : string :=
  if provider =s "github" then header "X-GitHub-Event" else header "X-Gitlab-Event".

Section Handlers.
Context `{TimestampColumn} `{UrlLib} {yamlDoc : YamlDoc}.

Definition statuses_read {A} (q : list GitOpsValidationStatus -> io -> A) : GM A :=
  f ← with_api (lift (fault (ae_server (ge_api v)))); fun g => (g, q (g_statuses g) f).
Definition statuses_write {A} (x : list GitOpsValidationStatus -> io -> list GitOpsValidationStatus * A) : GM A :=
  f ← with_api (lift (fault (ae_server (ge_api v))));
  fun g => let (rows, r) := x (g_statuses g) f in (mkGapi (g_api g) rows (g_calls g), r).

(** The body is an answer of the connection: [None] when it is cut or larger
    than a mebibyte. *)
(* src/internal/api/gitops_export.go:149-195 handleGitOpsWebhook *)
Definition handleGitOpsWebhook (providerParam : string) (header : string -> string) (body : option string)
  : GM (reply GitOpsWebhookResult) :=
  let providerName := ToLower providerParam in
  if (providerName <>s "github") && (providerName <>s "gitlab")
  then gret (refuse 400 "unsupported gitops provider")
  else
  let secret := gitOpsWebhookSecret providerName in
  if secret =s ""
  then gret (refuse 501 (providerName +:+ " gitops webhook is disabled: webhook secret is not configured"))
  else match body with
  | None => gret (refuse 400 "invalid webhook payload")
  | Some payload =>
      if negb (verifyGitOpsWebhookSignature providerName secret payload header)
      then gret (refuse 401 "invalid webhook signature")
      else match gitOpsProviderFor providerName with
      | Err e => gret (refuse 501 e)
      | Ok provider =>
          match pv_HandleWebhook provider
                  (mkWebhookRequest providerName (gitOpsWebhookEvent providerName header) payload) with
          | Err e => gret (refuse 502 (redactGitOpsText e))
          | Ok r =>
              if (hr_SourcePath r <>s "") && (hr_CommitSHA r <>s "") then
                t ← with_api (anow (ge_api v));
                err ← statuses_write (fun rows f => RecordGitOpsValidationStatus rows f t
                  (mkValidationStatus (hr_Provider r) (hr_Event r) (hr_Action r) (hr_ValidationStatus r)
                     (hr_SourcePath r) (hr_SourceRef r) (hr_CommitSHA r) t));
                match err with
                | Some _ => gret (refuse 500 "failed to store gitops validation status")
                | None => gret (Replied 200 r)
                end
              else gret (Replied 200 r)
          end
      end
  end.

(** ** Export *)

(* src/internal/api/gitops_export.go:278-285 gitOpsValidationStatusPassed *)
Definition gitOpsValidationStatusPassed (status : string) : bool :=
  one_of (ToLower (TrimSpace status)) ["pass"; "passed"; "success"; "succeeded"; "ok"].

(* src/internal/api/gitops_export.go:246-276 gitOpsValidationGate *)
Definition gitOpsValidationGate (req : gitOpsExportRequest) (cfg : Config)
  : GM (result gitOpsValidationGateResult) :=
  let gate valid reason l :=
    mkGate valid reason (xq_Provider req) (xq_Path req) (cf_GitRef cfg) (cf_CommitSHA cfg) l in
  if cf_GitRef cfg =s "" then gret (Ok (gate false "missing source_ref" None))
  else if cf_CommitSHA cfg =s "" then gret (Ok (gate false "missing commit_sha" None))
  else
    r ← statuses_read (fun rows f =>
          GetLatestGitOpsValidationStatus rows f (xq_Provider req) (xq_Path req) (cf_GitRef cfg)
            (cf_CommitSHA cfg));
    gret match r with
         | Err e => Err e
         | Ok None => Ok (gate false "missing validation pass" None)
         | Ok (Some status) =>
             if negb (gitOpsValidationStatusPassed (vs_Status status))
             then Ok (gate false ("latest validation status is " +:+ vs_Status status) (Some status))
             else Ok (gate true "" (Some status))
         end.

(* src/internal/api/gitops_export.go:421-423 gitOpsExportAuditDetail *)
Definition gitOpsExportAuditDetail (req : gitOpsExportRequest) (result : GitOpsExportResult)
  (comment : GitOpsCommentResult) : string :=
  redactGitOpsText ("provider=" +:+ xq_Provider req +:+ " repository=" +:+ xq_Repository req +:+ " branch="
    +:+ xr_Branch result +:+ " pr_number=" +:+ pretty.pretty (xr_Number result) +:+ " commit="
    +:+ xr_CommitSHA result +:+ " comment_id=" +:+ cr_CommentID comment).

Definition with_config (cfg : Config) (q : gitOpsExportRequest) : gitOpsExportRequest :=
  mkExportRequest (xq_Provider q) (xq_Repository q) (xq_Path q) (xq_BaseBranch q) (xq_Branch q) (xq_Title q)
    (xq_Body q) (cf_ID cfg) (cf_Content cfg) (cf_CommitSHA cfg).

(* src/internal/api/gitops_export.go:93-147 handleExportConfigToGit *)
Definition handleExportConfigToGit (configID : string) (req : result gitOpsExportRequest) : GM response :=
  match req with
  | Err _ => gret (mkResponse 400 "invalid JSON" "")
  | Ok req =>
    match validateGitOpsExportRequest req with
    | Err e => gret (mkResponse 400 e "")
    | Ok req =>
      found ← with_api (aq (ge_api v) (fun d f => GetConfig d f configID));
      match found with
      | Err _ => gret (mkResponse 404 "config not found" "")
      | Ok cfg =>
        t ← with_api (anow (ge_api v));
        let validation := Validate t (cf_Content cfg) None in
        if negb (rs_Valid validation) then gret (mkResponse 400 "configuration failed validation" "")
        else match gitOpsProviderFor (xq_Provider req) with
        | Err e => gret (mkResponse 501 e "")
        | Ok provider =>
          gate ← gitOpsValidationGate req cfg;
          match gate with
          | Err _ => gret (mkResponse 500 "failed to load gitops validation status" "")
          | Ok gate =>
            if negb (ga_Valid gate) then gret (mkResponse 400 "gitops validation has not passed" "")
            else
            let req := with_config cfg req in
            exported ← pv_ExportConfig provider req;
            match exported with
            | Err e => gret (mkResponse 502 (redactGitOpsText e) "")
            | Ok result =>
              let commentBody := buildGitOpsValidationComment cfg (validationCommentFromValidator validation) in
              commented ← pv_UpsertValidationComment provider
                (mkCommentRequest (xq_Provider req) (xq_Repository req) (xr_Number result) commentBody);
              match commented with
              | Err e => gret (mkResponse 502 (redactGitOpsText e) "")
              | Ok comment =>
                with_api (emitAudit (ge_api v) sideEffectApplied "config.export_git" "config" (cf_ID cfg)
                  (DText (gitOpsExportAuditDetail req result comment)) (respondOK 201))
              end
            end
          end
        end
      end
    end
  end.

End Handlers.
End Requests.

(** ** Webhooks only record what is signed *)

Section Facts.
Context `{UnicodeTables} `{TimestampColumn} `{UrlLib} {yamlDoc : YamlDoc}.

Lemma record_appends rows f now s : exists row,
  ((RecordGitOpsValidationStatus rows f now s).1 = rows \/
   (RecordGitOpsValidationStatus rows f now s).1 = rows ++ [row]) /\
  vs_Status row = vs_Status s /\ vs_SourcePath row = vs_SourcePath s /\ vs_CommitSHA row = vs_CommitSHA s.
Proof.
  unfold RecordGitOpsValidationStatus. eexists. split; [|split_and!; shelve].
  destruct f as [|[]]; cbn; [right|right|left]; reflexivity.
  Unshelve. all: done.
Qed.

Lemma marker_path_safe body : gitOpsSourcePathFromMarker body <> "" ->
  safe_path (gitOpsSourcePathFromMarker body).
Proof.
  unfold gitOpsSourcePathFromMarker. destruct (FindStringSubmatch _ _); [|done].
  destruct (validateGitPath _) eqn:E; [done|]. intros _. by apply validateGitPath_spec.
Qed.

(** What either provider reports of a webhook. *)
Lemma webhook_result v name p req r : gitOpsProviderFor v name = Ok p -> pv_HandleWebhook p req = Ok r ->
  hr_ValidationStatus r = "received" /\ (hr_SourcePath r <> "" -> safe_path (hr_SourcePath r)).
Proof.
  unfold gitOpsProviderFor. repeat case_if; try done; intros [= <-] [= <-];
    (split; [done|]); apply marker_path_safe.
Qed.

(** A status row a webhook may add: received, for a path inside the repository. *)
Definition recorded (row : GitOpsValidationStatus) : Prop :=
  vs_Status row = "received" /\ safe_path (vs_SourcePath row) /\ vs_CommitSHA row <> "".

Lemma webhook_adds v param header body g :
  let g' := (handleGitOpsWebhook v param header body g).1 in
  let provider := ToLower param in
  g_calls g' = g_calls g /\
  (g_statuses g' = g_statuses g \/
   exists payload row,
     g_statuses g' = g_statuses g ++ [row] /\ recorded row /\ body = Some payload /\
     gitOpsWebhookSecret v provider <> "" /\
     verifyGitOpsWebhookSignature provider (gitOpsWebhookSecret v provider) payload header = true).
Proof.
  cbn zeta. unfold handleGitOpsWebhook. case_if; [by split; [|left]|].
  destruct (String.eqb_spec (gitOpsWebhookSecret v (ToLower param)) "") as [|Hs]; [by split; [|left]|].
  destruct body as [payload|]; [|by split; [|left]].
  destruct (verifyGitOpsWebhookSignature _ _ _ _) eqn:Hv; cbn [negb]; [|by split; [|left]].
  destruct (gitOpsProviderFor v _) as [p|] eqn:Ep; [|by split; [|left]].
  destruct (pv_HandleWebhook p _) as [r|] eqn:Er; [|by split; [|left]].
  destruct (webhook_result _ _ _ _ _ Ep Er) as [Hst Hp].
  destruct (hr_SourcePath r <>s "") eqn:Esp; [|by split; [|left]].
  destruct (hr_CommitSHA r <>s "") eqn:Ec; [|by split; [|left]]. cbn [andb].
  apply negb_true_iff, String.eqb_neq in Esp, Ec.
  unfold gbind, statuses_write, with_api, anow, lift, now, gbind. cbn -[RecordGitOpsValidationStatus ToLower].
  match goal with |- context [RecordGitOpsValidationStatus ?rows ?f ?t ?s] =>
    destruct (record_appends rows f t s) as (row & Hrow & R1 & R2 & R3);
    destruct (RecordGitOpsValidationStatus rows f t s) as [rows' [e|]] eqn:ER end;
    cbn in *; (split; [done|]); destruct Hrow as [->| ->]; auto; right; exists payload, row;
    (split_and!; [done| |done..]); unfold recorded; rewrite R1, R2, R3; auto.
Qed.

(** C21: a webhook changes the stored statuses only when a secret is configured
    and the delivery carries its proof (the HMAC of the payload for GitHub, the
    token for GitLab); then it adds at most one row, for a path that stays inside
    the repository, and it sends no request. *)
Theorem webhook_records_only_signed v param header body g :
  let g' := (handleGitOpsWebhook v param header body g).1 in
  let provider := ToLower param in
  g_calls g' = g_calls g /\
  (g_statuses g' = g_statuses g \/
   exists payload row,
     g_statuses g' = g_statuses g ++ [row] /\ recorded row /\ body = Some payload /\
     gitOpsWebhookSecret v provider <> "" /\
     verifyGitOpsWebhookSignature provider (gitOpsWebhookSecret v provider) payload header = true).
Proof. apply webhook_adds. Qed.

(** ** An export and the statuses *)

Definition only_received (g : gapi) : Prop := Forall (fun s => vs_Status s = "received") (g_statuses g).
(** Nothing changed but the API's own state. *)
Definition same_git (g g' : gapi) : Prop := g_statuses g' = g_statuses g /\ g_calls g' = g_calls g.

Lemma latest_elem rows s : latest rows = Some s -> s ∈ rows.
Proof.
  revert s. induction rows as [|x rows IH]; intros s; cbn [latest]; [done|].
  destruct (latest rows) as [y|]; [case_if|]; intros [= <-]; try by left. right. by apply IH.
Qed.

Lemma with_api_same {A} (m : AM A) g : same_git g (with_api m g).1.
Proof. unfold with_api, same_git. by destruct (m (g_api g)). Qed.

Lemma gate_refuses v req cfg g : only_received g ->
  same_git g (gitOpsValidationGate v req cfg g).1 /\
  forall gate, (gitOpsValidationGate v req cfg g).2 = Ok gate -> ga_Valid gate = false.
Proof.
  intros Hg. unfold gitOpsValidationGate. repeat case_if; try (split; [done|by intros ? [= <-]]).
  unfold gbind, statuses_read, gret. unfold gbind, with_api, lift, fault. cbn -[gitOpsValidationStatusPassed].
  split; [done|]. intros gate. unfold GetLatestGitOpsValidationStatus, query.
  destruct (en_fault _ _); [|done].
  destruct (latest _) as [s|] eqn:El; [|by intros [= <-]].
  apply latest_elem, list_elem_of_In, filter_In in El as [Hs%list_elem_of_In _].
  unfold only_received in Hg. rewrite Forall_forall in Hg. rewrite (Hg s Hs).
  change (gitOpsValidationStatusPassed "received") with false. by intros [= <-].
Qed.

Definition refused (g : gapi) (r : gapi * response) : Prop := same_git g r.1 /\ rp_status r.2 <> 201%Z.

Lemma export_refused v id req g : only_received g -> refused g (handleExportConfigToGit v id req g).
Proof.
  intros Hg. unfold handleExportConfigToGit. destruct req as [req|]; [|done].
  destruct (validateGitOpsExportRequest v req) as [req'|]; [|done]. unfold gbind at 1.
  pose proof (with_api_same (aq (ge_api v) (fun d f => GetConfig d f id)) g) as Ha.
  destruct (with_api (aq (ge_api v) _) g) as [g1 [cfg|]]; [|by split; [exact Ha|]]. unfold gbind at 1.
  pose proof (with_api_same (anow (ge_api v)) g1) as Hb.
  destruct (with_api (anow (ge_api v)) g1) as [g2 t]. cbn [fst] in Ha, Hb. destruct Ha as [Ha1 Ha2], Hb as [Hb1 Hb2].
  assert (same_git g g2) as Hsame by (split; congruence).
  destruct (rs_Valid _); [|by split]. cbn [negb].
  destruct (gitOpsProviderFor v _); [|by split]. unfold gbind at 1.
  assert (only_received g2) as Hg2 by (unfold only_received; by rewrite Hb1, Ha1).
  destruct (gate_refuses v req' cfg g2 Hg2) as [[Hc1 Hc2] Hv].
  destruct (gitOpsValidationGate v req' cfg g2) as [g3 [gate|]]; cbn [fst snd] in *; rewrite ?(Hv gate eq_refl);
    (split; [split; cbn; congruence|done]).
Qed.

(** The life of the process: webhooks, exports, and anything the rest of the API
    does to its own state. *)
Inductive gstep : gapi -> gapi -> Prop :=
| step_webhook v param header body g : gstep g (handleGitOpsWebhook v param header body g).1
| step_export v id req g : gstep g (handleExportConfigToGit v id req g).1
| step_api a g : gstep g (mkGapi a (g_statuses g) (g_calls g)).

Lemma gstep_inv g g' : gstep g g' -> only_received g -> only_received g' /\ g_calls g' = g_calls g.
Proof.
  intros Hs Hg. destruct Hs as [v param header body g|v id req g|a g]; [| |done].
  - destruct (webhook_adds v param header body g) as [Hc [Hs|(_ & row & Hs & [Hr _] & _)]]; cbn zeta in *;
      (split; [|done]); unfold only_received; rewrite Hs; [done|].
    apply Forall_app. split; [done|]. by constructor.
  - destruct (export_refused v id req g Hg) as [[Hs Hc] _]. unfold only_received. by rewrite Hs.
Qed.

(** with the two providers of the program, an export never gets past its
    gate: the only statuses ever stored are those of webhooks, all "received",
    and the gate accepts none of them; so whatever webhooks and exports happen,
    no request reaches a provider and no export is answered 201. *)
Theorem export_never_passes_the_gate a g : rtc gstep (mkGapi a [] []) g ->
  g_calls g = [] /\ forall v id req, rp_status (handleExportConfigToGit v id req g).2 <> 201%Z.
Proof.
  intros Hr. assert (only_received g /\ g_calls g = []) as [Hg Hc].
  { refine (rtc_ind_r (fun g => only_received g /\ g_calls g = []) (mkGapi a [] []) _ _ g Hr).
    - by split; [constructor|].
    - intros y z _ Hs [Hy Hcy]. destruct (gstep_inv y z Hs Hy). split; [done|]. by rewrite <-Hcy. }
  split; [done|]. intros v id req. by apply export_refused.
Qed.

(** ** The source marker *)

Definition marker_head := "otel-magnify:".
Definition marker_text (path : string) : string := marker_head +:+ " path=" +:+ path +:+ " -->".
Definition plain_path (path : string) : bool := all_chars (not_in [60]%N) path.
Definition lower (s : string) : string := map_str lower_char s.

Lemma app_split_cases (a b c d : string) : a +:+ b = c +:+ d -> a <> c ->
  (exists x r, c = a +:+ String x r /\ b = String x r +:+ d) \/
  (exists x r, a = c +:+ String x r /\ d = String x r +:+ b).
Proof.
  revert c. induction a as [|x a IH]; intros [|y c] E Hne; [done| | |].
  - left. by exists y, c.
  - right. by exists x, a.
  - injection E as <- E. destruct (IH c E ltac:(congruence)) as [(z & r & -> & ->)|(z & r & -> & ->)];
      [left|right]; by exists z, r.
Qed.

Lemma marker_matches pos path : path <> "" -> plain_path path = true -> exists z,
  match_at gitOpsSourcePathMarkerRegexp pos (marker_text path) = Some z /\ s_caps z = [(1, path)].
Proof.
  intros Hne Hp. destruct path as [|c w]; [done|]. eexists. split.
  - unfold match_at, gitOpsSourcePathMarkerRegexp, marker_text. cbn [seqs].
    set (class := not_in [60]%N) in *.
    set (tail := Seq (ilit "path=") (Seq (Group 1 (plus (Byte class))) Empty)).
    match goal with |- _ = ?r => change (run (Star true (Byte re_space)) (run tail Some)
      (mkSt (13 + pos) (" " +:+ ("path=" +:+ String c w +:+ " -->")) []) = r) end.
    apply turns_run; [done|done|cbn [s_rest]; rewrite str_length_app; lia|].
    match goal with |- _ = ?r => change (run (plus (Byte class))
      (fun s' => Some (end_group 1 (mkSt (5 + (13 + pos + 1)) (String c w +:+ " -->") []) s'))
      (mkSt (5 + (13 + pos + 1)) (String c w +:+ " -->") []) = r) end.
    apply run_plus; [done|done|reflexivity].
  - cbn [s_caps end_group s_pos s_rest]. do 2 f_equal.
    rewrite <-(take_str_app (String c w) " -->") at 3. f_equal. cbn. lia.
Qed.

(** A text that does not start with the head of the marker has no match there. *)
Lemma no_marker_here pos s : HasPrefix (lower s) marker_head = false ->
  match_at gitOpsSourcePathMarkerRegexp pos s = None.
Proof.
  intros Hs. apply match_at_None. intros z Hm. cbn [gitOpsSourcePathMarkerRegexp seqs] in Hm.
  inversion Hm as [| |? ? ? s1 ? Hh _| | | | | | |]; subst.
  apply (match_ilit marker_head) in Hh as (w & Ew & Hw); [|done]. cbn [s_rest] in Ew. subst s.
  apply not_true_iff_false in Hs. apply Hs, HasPrefix_iff. unfold lower. rewrite map_str_app, Hw. by eexists.
Qed.

(** The path is read back when nothing before the marker looks like one. *)
Lemma marker_found pre path : path <> "" -> plain_path path = true ->
  (forall a c d, pre = a +:+ String c d ->
     HasPrefix (lower (String c d +:+ marker_text path)) marker_head = false) ->
  FindStringSubmatch gitOpsSourcePathMarkerRegexp (pre +:+ marker_text path) = Some [(1, path)].
Proof.
  intros Hne Hp Hpre. unfold FindStringSubmatch. destruct (find _ 0 _) as [[q z]|] eqn:Ef.
  - apply find_Some in Ef as (b & Eb & Hm & Hno).
    destruct (decide (q = pre)) as [->|Hq].
    + apply (inj (String.append pre)) in Eb as <-. destruct (marker_matches (String.length pre) path Hne Hp) as (z' & Hz & Hc).
      change (0 + String.length pre) with (String.length pre) in Hm. congruence.
    + exfalso. destruct (app_split_cases q b pre (marker_text path) (eq_sym Eb) Hq) as [(c & d & Hd & ->)|(c & d & -> & Hd)].
      * rewrite no_marker_here in Hm by by apply (Hpre q). done.
      * destruct (marker_matches (String.length pre) path Hne Hp) as (z' & Hz & _).
        specialize (Hno pre d c eq_refl). change (0 + String.length pre) with (String.length pre) in Hno. congruence.
  - rewrite find_None in Ef. specialize (Ef pre _ eq_refl).
    destruct (marker_matches (String.length pre) path Hne Hp) as (z' & Hz & _).
    change (0 + String.length pre) with (String.length pre) in Ef. congruence.
Qed.

(** Neither the opening of a comment nor text without a marker starts one. *)
Lemma opening_is_calm o a c d x : all_chars (fun c => negb (Ascii.eqb (lower_char c) "o")) o = true ->
  o = a +:+ String c d -> HasPrefix (lower (String c d +:+ x)) marker_head = false.
Proof.
  intros Ho ->. rewrite all_chars_app in Ho. apply andb_true_iff in Ho as [_ Ho].
  cbn [all_chars] in Ho. apply andb_true_iff in Ho as [Hc _]. apply negb_true_iff, Ascii.eqb_neq in Hc.
  apply not_true_iff_false. intros [r Hr]%HasPrefix_iff. by injection Hr.
Qed.

Definition opening := nl2 +:+ "<!-- ".

Lemma text_is_calm t a c d x : Contains (lower t) marker_head = false ->
  t +:+ opening = a +:+ String c d -> HasPrefix (lower (String c d +:+ x)) marker_head = false.
Proof.
  intros Ht E. destruct (decide (t = a)) as [->|Hne].
  { apply (inj (String.append a)) in E as <-. done. }
  destruct (app_split_cases t opening a (String c d) E Hne) as [(y & r & -> & Ho)|(y & r & -> & ->)].
  - by apply (opening_is_calm opening (String y r)).
  - apply not_true_iff_false. intros Hp. apply not_true_iff_false in Ht. apply Ht, Contains_spec.
    rewrite str_app_assoc in Hp. unfold lower in *. rewrite map_str_app in Hp.
    apply (prefix_before (Ascii.ascii_of_N 10)) in Hp; [|by apply no_char_Contains].
    apply HasPrefix_iff in Hp as [q Hq]. exists (map_str lower_char a), q. by rewrite map_str_app, Hq.
Qed.

Lemma trim_right_char_prefix c s : exists r, s = trim_right_char c s +:+ r.
Proof.
  induction s as [|d s [r IH]]; [by exists ""|]. cbn [trim_right_char].
  destruct (trim_right_char c s) as [|e t]; [|exists r; by rewrite IH at 1].
  destruct (Ascii.eqb d c); [by exists (String d s)|]. exists s. done.
Qed.

Lemma Contains_prefix a b p : Contains (a +:+ b) p = false -> Contains a p = false.
Proof.
  intros Hn. apply not_true_iff_false. rewrite Contains_spec. intros (x & y & ->).
  apply not_true_iff_false in Hn. apply Hn, Contains_spec. exists x, (y +:+ b). by rewrite !str_app_assoc.
Qed.

(** the path written into the description of a pull request is the path a
    webhook reads back from it, for every valid path without white space and
    without an angle bracket, when the description holds no marker of its own. *)
Theorem source_marker_roundtrip body path :
  validateGitPath path = None -> plain_path path = true -> Contains (lower body) marker_head = false ->
  gitOpsSourcePathFromMarker (gitOpsPRBodyWithSourceMarker body path) = path.
Proof.
  intros Hv Hp Hb. unfold gitOpsSourcePathFromMarker.
  enough (FindStringSubmatch gitOpsSourcePathMarkerRegexp (gitOpsPRBodyWithSourceMarker body path)
    = Some [(1, path)]) as -> by (cbn [group List.find fst snd Nat.eqb]; by rewrite Hv).
  assert (path <> "") as Hne by (intros ->; done).
  unfold gitOpsPRBodyWithSourceMarker. destruct (Contains body _) eqn:Ec.
  { exfalso. apply Contains_spec in Ec as (a & b & ->). apply not_true_iff_false in Hb. apply Hb, Contains_spec.
    unfold lower. rewrite !map_str_app. exists (map_str lower_char a +:+ "<!-- "). eexists.
    rewrite !str_app_assoc. reflexivity. }
  destruct (TrimSpace body =s "").
  - apply (marker_found "<!-- "); [done..|]. intros a c d. by apply opening_is_calm.
  - destruct (trim_right_char_prefix (Ascii.ascii_of_N 10) body) as [r Hr]. fold (trim_newlines body) in Hr.
    change (nl2 +:+ "<!-- otel-magnify: path=" +:+ path +:+ " -->") with (opening +:+ marker_text path).
    rewrite <-str_app_assoc. apply marker_found; [done..|]. intros a c d. apply text_is_calm.
    rewrite Hr in Hb. unfold lower in Hb. rewrite map_str_app in Hb. by apply Contains_prefix in Hb.
Qed.

Lemma source_marker_roundtrip_witness :
  gitOpsSourcePathFromMarker (gitOpsPRBodyWithSourceMarker "Update the edge collectors" "otel/edge.yaml")
  = "otel/edge.yaml".
Proof. apply source_marker_roundtrip; vm_compute; reflexivity. Defined.

(** A path with a space is valid and read back cut at the space. *)
Example marker_cuts_at_space :
  validateGitPath "otel/edge config.yaml" = None /\
  gitOpsSourcePathFromMarker (gitOpsPRBodyWithSourceMarker "" "otel/edge config.yaml") = "otel/edge".
Proof. split; vm_compute; reflexivity. Qed.

(** ** What the providers are asked *)

Definition add_call (c : http_call) (g : gapi) : gapi :=
  mkGapi (g_api g) (g_statuses g) (g_calls g ++ [c]).
(** The request [c], sent next, succeeds with the answer [a]. *)
Definition answered (v : genv) (c : http_call) (g : gapi) (a : answer) : Prop :=
  exists status, ge_http v (length (g_calls g)) = Answered status (Ok a) /\ (200 <= status < 300)%Z.

Lemma doGitOpsJSON_Ok v method url headers body decodes g g' a :
  doGitOpsJSON v method url headers body decodes g = (g', Ok a) ->
  let ctype := match body with Some _ => [("Content-Type", "application/json")] | None => [] end in
  let c := mkCall method url (ctype ++ headers) body in
  g' = add_call c g /\ (decodes = true -> answered v c g a).
Proof.
  unfold doGitOpsJSON. destruct (ge_newRequest v url); [done|]. unfold gbind, send, gret.
  intros [= <- Hr]. split; [done|]. intros ->. unfold answered.
  destruct (ge_http v _) as [|status decoded]; [done|]. destruct (Z.ltb status 200 || Z.leb 300 status) eqn:Hs; [done|].
  subst decoded. exists status. split; [done|]. reflect_bools. lia.
Qed.

Lemma on_ok_Ok {A} (m : GM (result answer)) (k : answer -> GM (result A)) g g' x :
  on_ok m k g = (g', Ok x) -> exists g1 a, m g = (g1, Ok a) /\ k a g1 = (g', Ok x).
Proof.
  unfold on_ok, gbind. destruct (m g) as [g1 [a|e]]; [eauto|]. by intros [=].
Qed.

Lemma marked body : Contains (gitOpsValidationCommentBodyWithMarker body) gitOpsValidationCommentMarker = true.
Proof.
  unfold gitOpsValidationCommentBodyWithMarker. destruct (Contains body _) eqn:E; [done|].
  apply Contains_spec. exists (trim_newlines body +:+ nl2), nl. by rewrite !str_app_assoc.
Qed.

(** publishing the validation comment lists the comments and then writes
    once: the first comment that carries the marker is updated in place, and only
    when there is none a new one is created; the text written carries the marker,
    so the next publication finds it. *)
Theorem comment_is_upserted v token req g g' c :
  github_UpsertValidationComment v token req g = (g', Ok c) ->
  exists listing write comments body,
    g_calls g' = g_calls g ++ [listing; write] /\ hc_method listing = "GET" /\
    answered v listing g comments /\
    hc_body write = texts [("body", body)] /\ Contains body gitOpsValidationCommentMarker = true /\
    match List.find has_marker (an_items comments) with
    | Some own => hc_method write = "PATCH" /\ exists base,
        hc_url write = base +:+ "/issues/comments/" +:+ pretty.pretty (it_int own "id")
    | None => hc_method write = "POST" /\ hc_url write = hc_url listing
    end.
Proof.
  unfold github_UpsertValidationComment, githubJSON. cbn zeta.
  intros (g1 & comments & [-> Hc]%doGitOpsJSON_Ok & Hk)%on_ok_Ok. specialize (Hc eq_refl).
  destruct (List.find has_marker (an_items comments)) as [own|] eqn:Ef;
    apply on_ok_Ok in Hk as (g2 & a & [-> _]%doGitOpsJSON_Ok & [= <- _]);
    (eexists _, _, comments, _; split_and!;
      [by cbn; rewrite <-app_assoc|done|exact Hc|reflexivity|apply marked|]); rewrite Ef.
  - split; [done|]. exists ("https://api.github.com/repos/" +:+ cq_Repository req). by rewrite str_app_assoc.
  - by split.
Qed.

End Facts.

(** ** Concrete runs *)

#[local] Existing Instance byte_tables.
#[local] Existing Instance microseconds.
#[local] Existing Instance plain_urls.

Definition webhook_env (key : string) : string :=
  if key =s "GITOPS_GITLAB_WEBHOOK_SECRET" then "hook" else if key =s "GITOPS_GITLAB_TOKEN" then "tok" else "".
Definition with_getenv (f : string -> string) (e : aenv) : aenv :=
  mkAenv (ae_server e) (ae_opamp e) (ae_user e) f (ae_newID e) (ae_runtime e) (ae_exportersFirst e)
    (ae_auditFails e) (ae_other e).
(** A merge request for one path; the provider holds one comment with the marker. *)
Definition merge_request (path : string) : string :=
  if path =s "object_attributes.description" then "see otel-magnify: path=otel/edge.yaml"
  else if path =s "object_attributes.source_branch" then "main"
  else if path =s "object_attributes.last_commit.id" then "abc" else "".
Definition own_comment : item :=
  mkItem (fun k => if k =s "body" then "old " +:+ gitOpsValidationCommentMarker else "") (fun _ => 17%Z).
Definition sample_genv : genv :=
  mkGenv (with_getenv webhook_env (Approvals.alone None)) (fun _ => None)
    (fun _ => Answered 200 (Ok (mkAnswer no_item [no_item; own_comment]))) (fun _ => mkItem merge_request (fun _ => 0%Z))
    ["repository"; "path"; "base_branch"; "branch"; "title"].
Definition gitlab_header (name : string) : string :=
  if name =s "X-Gitlab-Token" then "hook" else if name =s "X-Gitlab-Event" then "Merge Request Hook" else "".
Definition after_webhook : gapi :=
  (handleGitOpsWebhook sample_genv "gitlab" gitlab_header (Some "{}") (mkGapi Approvals.sample_api [] [])).1.

Lemma export_never_passes_the_gate_witness :
  length (g_statuses after_webhook) = 1 /\ g_calls after_webhook = [].
Proof.
  split; [vm_compute; reflexivity|].
  exact (proj1 (export_never_passes_the_gate (yamlDoc := ConfigPolicy.few_docs) Approvals.sample_api after_webhook
    (rtc_once _ _ (step_webhook sample_genv "gitlab" gitlab_header (Some "{}") _)))).
Defined.

Definition published : gapi * result GitOpsCommentResult :=
  github_UpsertValidationComment sample_genv "tok" (mkCommentRequest "github" "acme/otel" 5 "ok")
    (mkGapi Approvals.sample_api [] []).

Lemma comment_is_upserted_witness : exists listing write, g_calls published.1 = [listing; write].
Proof.
  destruct (comment_is_upserted sample_genv "tok" (mkCommentRequest "github" "acme/otel" 5 "ok")
    (mkGapi Approvals.sample_api [] []) published.1 (mkCommentResult "github" "" "0") ltac:(vm_compute; reflexivity))
    as (listing & write & _ & _ & Hc & _).
  exists listing, write. exact Hc.
Defined.

Example published_updates_comment :
  map hc_url (g_calls published.1) =
    ["https://api.github.com/repos/acme/otel/issues/5/comments";
     "https://api.github.com/repos/acme/otel/issues/comments/17"].
Proof. vm_compute. reflexivity. Qed.

(** The path goes into the URL of the contents as it is: a question mark, which a
    valid path may hold, ends the path of the request. *)
Example question_mark_in_path_reaches_url :
  validateGitPath "a.yaml?ref=main" = None /\
  map hc_url (take 3 (g_calls (github_ExportConfig sample_genv "tok"
    (mkExportRequest "github" "acme/otel" "a.yaml?ref=main" "main" "edit" "t" "" "" "" "")
    (mkGapi Approvals.sample_api [] [])).1)) =
    ["https://api.github.com/repos/acme/otel/git/ref/heads/main";
     "https://api.github.com/repos/acme/otel/git/refs";
     "https://api.github.com/repos/acme/otel/contents/a.yaml?ref=main"].
Proof. split; vm_compute; reflexivity. Qed.

End GitOps.
