(* ===== verification/ConfigLibrary.v ===== *)
(** * The config library (internal/api/configs.go, config_templates.go)

    Saved configs and the built-in templates: listing, creation, import from
    Git, reading, and the two previews that work on texts alone. *)

From S2P Require Import Prelude GoString Models PushStatus Registry Sha256 Alerts Regex.
From S2P Require Import Validator Yaml ConfigPolicy Access Store PushHistory OpampServer.
From S2P Require Import OtelDiff DiffEngine Api Approvals Fleet Hub GitSource.
Import Sha256.Sha256 Registry Validator Yaml ConfigPolicy Access Store.Store PushHistory OpampServer
  OtelDiff DiffEngine Api Fleet GitSource.

Module ConfigLibrary.

(** ** Built-in templates *)

(* src/internal/api/config_templates.go:10-10 builtInConfigTemplateCreatedAt *)
Definition builtInConfigTemplateCreatedAt : Time := (63902822400 * Second)%Z.

(* src/internal/api/config_templates.go:351-359 commonTemplateVariables *)
Definition commonTemplateVariables : list ConfigVariable :=
  [mkConfigVariable "endpoint" "Endpoint" "string" true "Primary exporter or receiver endpoint"
     "https://example:4317";
   mkConfigVariable "headers" "Headers" "map" false
     "Authentication or routing headers; use secret placeholders only" "Authorization: ${OTLP_AUTH_HEADER}";
   mkConfigVariable "environment" "Environment" "string" true "deployment.environment resource attribute"
     "production";
   mkConfigVariable "resource_attributes" "Resource attributes" "map" false
     "Additional resource attributes added by the resource processor" "service.namespace: ${RESOURCE_NAMESPACE}";
   mkConfigVariable "tls" "TLS" "object" false "TLS settings for exporters" "insecure: ${TLS_INSECURE}"].

(* src/internal/api/config_templates.go:361-367 templateConfig *)
Definition templateConfig (id name category stack description : string) (tags : list string)
  (content : string) : Config :=
  mkConfig id name content builtInConfigTemplateCreatedAt "otel-magnify" "template" "ready" category stack
    description commonTemplateVariables tags true "" "" "" "" "" "" None.

(* src/internal/api/config_templates.go:15-70 builtInConfigTemplates *)
Definition tpl_k8s_otlp_grafana : Config :=
  templateConfig "tpl-k8s-otlp-grafana" "Kubernetes OTLP to Grafana Tempo/Loki/Mimir" "kubernetes" "grafana"
    "Collector pipeline for Kubernetes workloads exporting traces, logs, and metrics to Grafana Tempo, Loki, and Mimir."
    ["kubernetes"; "otlp"; "grafana"; "tempo"; "loki"; "mimir"]
"receivers:
  otlp:
    protocols:
      grpc:
        endpoint: ${OTLP_RECEIVER_ENDPOINT}
      http:
        endpoint: ${OTLP_HTTP_RECEIVER_ENDPOINT}
processors:
  batch: {}
  resource:
    attributes:
      - key: deployment.environment
        value: ${ENVIRONMENT}
        action: upsert
      - key: service.namespace
        value: ${RESOURCE_NAMESPACE}
        action: upsert
exporters:
  otlp/tempo:
    endpoint: ${TEMPO_ENDPOINT}
    headers:
      Authorization: ${OTLP_AUTH_HEADER}
    tls:
      insecure: ${TLS_INSECURE}
  loki:
    endpoint: ${LOKI_ENDPOINT}
    headers:
      Authorization: ${LOKI_BASIC_AUTH}
    tls:
      insecure: ${TLS_INSECURE}
  prometheusremotewrite/mimir:
    endpoint: ${MIMIR_REMOTE_WRITE_ENDPOINT}
    headers:
      Authorization: ${OTLP_AUTH_HEADER}
    tls:
      insecure: ${TLS_INSECURE}
service:
  pipelines:
    traces:
      receivers: [otlp]
      processors: [resource, batch]
      exporters: [otlp/tempo]
    logs:
      receivers: [otlp]
      processors: [resource, batch]
      exporters: [loki]
    metrics:
      receivers: [otlp]
      processors: [resource, batch]
      exporters: [prometheusremotewrite/mimir]
".

(* src/internal/api/config_templates.go:71-120 builtInConfigTemplates *)
Definition tpl_k8s_otlp_datadog : Config :=
  templateConfig "tpl-k8s-otlp-datadog" "Kubernetes OTLP to Datadog" "kubernetes" "datadog"
    "Collector pipeline for Kubernetes workloads exporting traces, logs, and metrics to Datadog through OTLP."
    ["kubernetes"; "otlp"; "datadog"]
"receivers:
  otlp:
    protocols:
      grpc:
        endpoint: ${OTLP_RECEIVER_ENDPOINT}
      http:
        endpoint: ${OTLP_HTTP_RECEIVER_ENDPOINT}
processors:
  batch: {}
  resource:
    attributes:
      - key: deployment.environment
        value: ${ENVIRONMENT}
        action: upsert
      - key: service.namespace
        value: ${RESOURCE_NAMESPACE}
        action: upsert
exporters:
  datadog:
    api:
      site: ${DATADOG_SITE}
      key: ${DATADOG_API_KEY}
    traces:
      endpoint: ${DATADOG_TRACE_ENDPOINT}
    metrics:
      endpoint: ${DATADOG_METRICS_ENDPOINT}
    logs:
      endpoint: ${DATADOG_LOGS_ENDPOINT}
    tls:
      insecure: ${TLS_INSECURE}
service:
  pipelines:
    traces:
      receivers: [otlp]
      processors: [resource, batch]
      exporters: [datadog]
    logs:
      receivers: [otlp]
      processors: [resource, batch]
      exporters: [datadog]
    metrics:
      receivers: [otlp]
      processors: [resource, batch]
      exporters: [datadog]
".

(* src/internal/api/config_templates.go:121-149 builtInConfigTemplates *)
Definition tpl_logs_loki : Config :=
  templateConfig "tpl-logs-loki" "Logs to Loki" "logs" "loki"
    "Collect OTLP logs and export them to Grafana Loki."
    ["logs"; "loki"; "otlp"]
"receivers:
  otlp:
    protocols:
      grpc:
        endpoint: ${OTLP_RECEIVER_ENDPOINT}
processors:
  batch: {}
  resource:
    attributes:
      - key: deployment.environment
        value: ${ENVIRONMENT}
        action: upsert
      - key: service.namespace
        value: ${RESOURCE_NAMESPACE}
        action: upsert
exporters:
  loki:
    endpoint: ${LOKI_ENDPOINT}
    headers:
      Authorization: ${LOKI_BASIC_AUTH}
    tls:
      insecure: ${TLS_INSECURE}
service:
  pipelines:
    logs:
      receivers: [otlp]
      processors: [resource, batch]
      exporters: [loki]
".

(* src/internal/api/config_templates.go:150-178 builtInConfigTemplates *)
Definition tpl_traces_tempo : Config :=
  templateConfig "tpl-traces-tempo" "Traces to Tempo" "traces" "tempo"
    "Collect OTLP traces and export them to Grafana Tempo."
    ["traces"; "tempo"; "otlp"]
"receivers:
  otlp:
    protocols:
      grpc:
        endpoint: ${OTLP_RECEIVER_ENDPOINT}
processors:
  batch: {}
  resource:
    attributes:
      - key: deployment.environment
        value: ${ENVIRONMENT}
        action: upsert
      - key: service.namespace
        value: ${RESOURCE_NAMESPACE}
        action: upsert
exporters:
  otlp/tempo:
    endpoint: ${TEMPO_ENDPOINT}
    headers:
      Authorization: ${OTLP_AUTH_HEADER}
    tls:
      insecure: ${TLS_INSECURE}
service:
  pipelines:
    traces:
      receivers: [otlp]
      processors: [resource, batch]
      exporters: [otlp/tempo]
".

(* src/internal/api/config_templates.go:179-207 builtInConfigTemplates *)
Definition tpl_metrics_prometheus_remote : Config :=
  templateConfig "tpl-metrics-prometheus-remote" "Metrics to Prometheus remote write" "metrics" "prometheus"
    "Collect OTLP metrics and export them through Prometheus remote write."
    ["metrics"; "prometheus"; "remote-write"; "otlp"]
"receivers:
  otlp:
    protocols:
      grpc:
        endpoint: ${OTLP_RECEIVER_ENDPOINT}
processors:
  batch: {}
  resource:
    attributes:
      - key: deployment.environment
        value: ${ENVIRONMENT}
        action: upsert
      - key: service.namespace
        value: ${RESOURCE_NAMESPACE}
        action: upsert
exporters:
  prometheusremotewrite:
    endpoint: ${PROMETHEUS_REMOTE_WRITE_ENDPOINT}
    headers:
      Authorization: ${OTLP_AUTH_HEADER}
    tls:
      insecure: ${TLS_INSECURE}
service:
  pipelines:
    metrics:
      receivers: [otlp]
      processors: [resource, batch]
      exporters: [prometheusremotewrite]
".

(* src/internal/api/config_templates.go:208-247 builtInConfigTemplates *)
Definition tpl_jvm_services : Config :=
  templateConfig "tpl-jvm-services" "JVM services" "services" "jvm"
    "OTLP receiver tuned for JVM service traces, metrics, and logs."
    ["jvm"; "java"; "services"; "otlp"]
"receivers:
  otlp:
    protocols:
      grpc:
        endpoint: ${OTLP_RECEIVER_ENDPOINT}
processors:
  batch: {}
  resource:
    attributes:
      - key: deployment.environment
        value: ${ENVIRONMENT}
        action: upsert
      - key: telemetry.sdk.language
        value: java
        action: upsert
      - key: service.namespace
        value: ${RESOURCE_NAMESPACE}
        action: upsert
exporters:
  otlp:
    endpoint: ${OTLP_EXPORT_ENDPOINT}
    headers:
      Authorization: ${OTLP_AUTH_HEADER}
    tls:
      insecure: ${TLS_INSECURE}
service:
  pipelines:
    traces:
      receivers: [otlp]
      processors: [resource, batch]
      exporters: [otlp]
    metrics:
      receivers: [otlp]
      processors: [resource, batch]
      exporters: [otlp]
    logs:
      receivers: [otlp]
      processors: [resource, batch]
      exporters: [otlp]
".

(* src/internal/api/config_templates.go:248-282 builtInConfigTemplates *)
Definition tpl_nginx : Config :=
  templateConfig "tpl-nginx" "NGINX" "services" "nginx"
    "Collect NGINX access logs and metrics, then export through OTLP."
    ["nginx"; "logs"; "metrics"]
"receivers:
  filelog/nginx:
    include: [${NGINX_ACCESS_LOG_PATH}]
  otlp:
    protocols:
      grpc:
        endpoint: ${OTLP_RECEIVER_ENDPOINT}
processors:
  batch: {}
  resource:
    attributes:
      - key: deployment.environment
        value: ${ENVIRONMENT}
        action: upsert
      - key: service.name
        value: nginx
        action: upsert
exporters:
  otlp:
    endpoint: ${OTLP_EXPORT_ENDPOINT}
    headers:
      Authorization: ${OTLP_AUTH_HEADER}
    tls:
      insecure: ${TLS_INSECURE}
service:
  pipelines:
    logs:
      receivers: [filelog/nginx]
      processors: [resource, batch]
      exporters: [otlp]
    metrics:
      receivers: [otlp]
      processors: [resource, batch]
      exporters: [otlp]
".

(* src/internal/api/config_templates.go:283-315 builtInConfigTemplates *)
Definition tpl_postgresql : Config :=
  templateConfig "tpl-postgresql" "PostgreSQL" "databases" "postgresql"
    "Collect PostgreSQL receiver metrics and export through OTLP."
    ["postgresql"; "database"; "metrics"]
"receivers:
  postgresql:
    endpoint: ${POSTGRESQL_ENDPOINT}
    username: ${POSTGRESQL_USERNAME}
    password: ${POSTGRESQL_PASSWORD}
  otlp:
    protocols:
      grpc:
        endpoint: ${OTLP_RECEIVER_ENDPOINT}
processors:
  batch: {}
  resource:
    attributes:
      - key: deployment.environment
        value: ${ENVIRONMENT}
        action: upsert
      - key: service.namespace
        value: ${RESOURCE_NAMESPACE}
        action: upsert
exporters:
  otlp:
    endpoint: ${OTLP_EXPORT_ENDPOINT}
    headers:
      Authorization: ${OTLP_AUTH_HEADER}
    tls:
      insecure: ${TLS_INSECURE}
service:
  pipelines:
    metrics:
      receivers: [postgresql, otlp]
      processors: [resource, batch]
      exporters: [otlp]
".

(* src/internal/api/config_templates.go:316-347 builtInConfigTemplates *)
Definition tpl_redis : Config :=
  templateConfig "tpl-redis" "Redis" "databases" "redis"
    "Collect Redis receiver metrics and export through OTLP."
    ["redis"; "database"; "metrics"]
"receivers:
  redis:
    endpoint: ${REDIS_ENDPOINT}
    password: ${REDIS_PASSWORD}
  otlp:
    protocols:
      grpc:
        endpoint: ${OTLP_RECEIVER_ENDPOINT}
processors:
  batch: {}
  resource:
    attributes:
      - key: deployment.environment
        value: ${ENVIRONMENT}
        action: upsert
      - key: service.namespace
        value: ${RESOURCE_NAMESPACE}
        action: upsert
exporters:
  otlp:
    endpoint: ${OTLP_EXPORT_ENDPOINT}
    headers:
      Authorization: ${OTLP_AUTH_HEADER}
    tls:
      insecure: ${TLS_INSECURE}
service:
  pipelines:
    metrics:
      receivers: [redis, otlp]
      processors: [resource, batch]
      exporters: [otlp]
".

(* src/internal/api/config_templates.go:12-14 builtInConfigTemplates *)
Definition builtInConfigTemplates : list Config :=
  [tpl_k8s_otlp_grafana;
   tpl_k8s_otlp_datadog;
   tpl_logs_loki;
   tpl_traces_tempo;
   tpl_metrics_prometheus_remote;
   tpl_jvm_services;
   tpl_nginx;
   tpl_postgresql;
   tpl_redis].

(* src/internal/api/config_templates.go:369-376 findBuiltInConfigTemplate *)
Definition findBuiltInConfigTemplate (id : string) : option Config :=
  List.find (fun cfg => cf_ID cfg =s id) builtInConfigTemplates.

(** ** Requests *)

(* src/internal/api/configs.go:22-31 createConfigRequest *)
Record createConfigRequest := mkCreateRequest {
  cc_Name : string; cc_Content : string; cc_Kind : string; cc_Status : string; cc_Category : string;
  cc_Stack : string; cc_Tags : list string; cc_SourceType : string
}.
(* src/internal/api/configs.go:53-61 configDiffWorkloadRequest *)
Record configDiffWorkloadRequest := mkDiffPeer {
  dw_ID : string; dw_DisplayName : string; dw_WorkloadType : string; dw_Type : string; dw_Status : string;
  dw_Labels : gmap string string; dw_FingerprintKeys : gmap string string
}.
(** The labels of the two texts and the raw-path switch are read by nothing. *)
(* src/internal/api/configs.go:39-51 configDiffContextRequest *)
Record configDiffContextRequest := mkDiffContext {
  dc_WorkloadID : string; dc_DisplayName : string; dc_WorkloadType : string; dc_Type : string;
  dc_Status : string; dc_Labels : gmap string string; dc_FingerprintKeys : gmap string string;
  dc_FleetPeers : list configDiffWorkloadRequest; dc_BaseLabel : string; dc_TargetLabel : string;
  dc_IncludeRawPaths : bool
}.
(* src/internal/api/configs.go:33-37 configDiffRequest *)
Record configDiffRequest := mkDiffRequest {
  dr_BaseYAML : string; dr_TargetYAML : string; dr_Context : configDiffContextRequest
}.
(* src/internal/api/configs.go:73-79 configPolicyContextRequest *)
Record configPolicyContextRequest := mkPolicyContext {
  pc_Environment : string; pc_EndpointAllowlist : list string; pc_CriticalExporters : list string;
  pc_RequiredResourceAttributes : list string; pc_MaxSamplingPercentage : float64
}.
(** The settings keep whether the list of allowed endpoints was given. *)
(* src/internal/api/configs.go:63-71 configPolicyPreviewRequest *)
Record configPolicyPreviewRequest := mkPolicyPreview {
  pv_CandidateYAML : string; pv_CurrentYAML : string; pv_TargetYAML : string; pv_BaseYAML : string;
  pv_Target : PolicyTarget; pv_AllowedOTLPEndpoints : option (list string);
  pv_CriticalExporters : list string; pv_RequiredResourceAttributes : list string;
  pv_Sampling : SamplingPolicySettings; pv_Context : configPolicyContextRequest
}.

(** What a JSON decoder finds: a value and what follows it. *)
Inductive after := AtEnd | TooLargeAfter | InvalidAfter | MoreAfter.
Inductive decoding (A : Type) := Value (x : A) (rest : after) | TooLarge | Invalid.
Arguments Value {A} x rest. Arguments TooLarge {A}. Arguments Invalid {A}.
(* src/internal/api/requestbody.go:12-38 decodeJSONBody *)
Definition decodeJSONBody {A B} (d : decoding A) (k : A -> AM (reply B)) : AM (reply B) :=
  let large := aret (refuse 413 "request body too large") in
  let invalid := aret (refuse 400 "invalid JSON") in
  match d with
  | TooLarge => large
  | Invalid => invalid
  | Value x AtEnd => k x
  | Value _ TooLargeAfter => large
  | Value _ InvalidAfter => invalid
  | Value _ MoreAfter => invalid
  end.

(** ** Normalisation of a new config *)

(* src/internal/api/configs.go:260-267 normalizeCreateConfigKind *)
Definition normalizeCreateConfigKind (kind : string) : string :=
  if TrimSpace kind =s "draft" then "draft" else "saved".
(* src/internal/api/configs.go:269-274 normalizeCreateConfigStatus *)
Definition normalizeCreateConfigStatus (kind status : string) : string :=
  if normalizeCreateConfigKind kind =s "draft" then "draft" else "ready".
(* src/internal/api/configs.go:276-283 normalizeCreateConfigSourceType *)
Definition normalizeCreateConfigSourceType (sourceType : string) : string :=
  if TrimSpace sourceType =s "migration_assistant" then "migration_assistant" else "manual".

Fixpoint keep_new (seen : gset string) (tags : list string) : list string :=
  match tags with
  | [] => []
  | tag :: rest =>
      let tag := TrimSpace tag in
      if tag =s "" then keep_new seen rest
      else if bool_decide (tag ∈ seen) then keep_new seen rest
      else tag :: keep_new ({[tag]} ∪ seen) rest
  end.
(* src/internal/api/configs.go:285-300 sanitizedCreateConfigTags *)
Definition sanitizedCreateConfigTags (tags : list string) : list string := keep_new ∅ tags.

(* src/internal/api/configs.go:164-171 firstNonEmpty *)
Fixpoint firstNonEmpty (values : list string) : string :=
  match values with
  | [] => ""
  | value :: rest => if TrimSpace value <>s "" then value else firstNonEmpty rest
  end.

(* src/internal/api/configs.go:152-154 blastRadiusWorkloadFromDiffContext *)
Definition blastRadiusWorkloadFromDiffContext (req : configDiffContextRequest) : BlastRadiusWorkload :=
  mkBlastWorkload (dc_WorkloadID req) (dc_DisplayName req) (firstNonEmpty [dc_WorkloadType req; dc_Type req])
    (dc_Status req) (dc_Labels req) (dc_FingerprintKeys req).
(* src/internal/api/configs.go:156-158 blastRadiusWorkloadFromDiffPeer *)
Definition blastRadiusWorkloadFromDiffPeer (req : configDiffWorkloadRequest) : BlastRadiusWorkload :=
  mkBlastWorkload (dw_ID req) (dw_DisplayName req) (firstNonEmpty [dw_WorkloadType req; dw_Type req])
    (dw_Status req) (dw_Labels req) (dw_FingerprintKeys req).
(* src/internal/api/configs.go:160-162 blastRadiusWorkloadFromModel *)
Definition blastRadiusWorkloadFromModel (wl : Workload) : BlastRadiusWorkload :=
  mkBlastWorkload (wl_ID wl) (wl_DisplayName wl) (wl_Type wl) (wl_Status wl) (wl_Labels wl)
    (wl_FingerprintKeys wl).

Definition with_defaults (c : Config) : Config :=
  mkConfig (cf_ID c) (cf_Name c) (cf_Content c) (cf_CreatedAt c) (cf_CreatedBy c)
    (default_str (cf_Kind c) "saved") (default_str (cf_Status c) "ready") (cf_Category c) (cf_Stack c)
    (cf_Description c) (cf_Variables c) (cf_Tags c) (cf_BuiltIn c) (cf_SourceType c) (cf_GitURL c)
    (cf_GitProvider c) (cf_GitRef c) (cf_GitPath c) (cf_CommitSHA c) (cf_ImportedAt c).

(** ** Handlers *)

Section Handlers.
Context `{UnicodeTables} `{Hub.FoldTables} `{TimestampColumn} {netURL : NetURL} {floatFormat : FloatFormat}
  `{FloatText} `{UrlLib} `{GitNet} `{Alerts.Collation} {yamlDoc : YamlDoc} (e : aenv).
Local Open Scope api_scope.

(* src/internal/api/config_templates.go:378-389 configMatchesLibraryFilters *)
Definition configMatchesLibraryFilters (cfg : Config) (kind category stack : string) : bool :=
  if (kind <>s "") && negb (Hub.EqualFoldText (cf_Kind cfg) kind) then false
  else if (category <>s "") && negb (Hub.EqualFoldText (cf_Category cfg) category) then false
  else if (stack <>s "") && negb (Hub.EqualFoldText (cf_Stack cfg) stack) then false
  else true.

(* src/internal/api/configs.go:213-217 redactConfigContent *)
Definition redactConfigContent (configs : list Config) : list Config := map without_content configs.

(* src/internal/api/configs.go:81-110 handleListConfigs *)
Definition handleListConfigs (kind category stack : string) : AM (reply (list Config)) :=
  r ← aq e ListConfigs;
  match r with
  | Err _ => aret (refuse 500 "failed to list configs")
  | Ok savedConfigs =>
      let keep cfg := configMatchesLibraryFilters cfg kind category stack in
      aret (Replied 200 (redactConfigContent
        (List.filter keep (map with_defaults savedConfigs) ++ List.filter keep builtInConfigTemplates)))
  end.

(* src/internal/api/configs.go:125-150 configDiffBlastRadiusContext *)
Definition configDiffBlastRadiusContext (req : configDiffContextRequest) : AM BlastRadiusContext :=
  let workload := blastRadiusWorkloadFromDiffContext req in
  let given := map blastRadiusWorkloadFromDiffPeer (dc_FleetPeers req) in
  if dc_WorkloadID req =s "" then aret (mkBlastContext workload given)
  else
    found ← aq e (fun d f => GetWorkload d f (dc_WorkloadID req));
    let go workload :=
      peers ← aq e (fun d f => ListWorkloads d f false);
      aret match peers with
           | Err _ => mkBlastContext workload given
           | Ok peers => mkBlastContext workload
               (map blastRadiusWorkloadFromModel
                  (List.filter (fun peer => wl_ID peer <>s dc_WorkloadID req) peers))
           end in
    match found with
    | Ok wl => go (blastRadiusWorkloadFromModel wl)
    | Err err => if err =s ErrNoRows then go workload else aret (mkBlastContext workload given)
    end.

(* src/internal/api/configs.go:112-123 handleDiffConfigs *)
Definition handleDiffConfigs (req : result configDiffRequest) : AM (reply ConfigDiff) :=
  match req with
  | Err _ => aret (refuse 400 "invalid JSON")
  | Ok req =>
      if (dr_BaseYAML req =s "") || (dr_TargetYAML req =s "")
      then aret (refuse 400 "base_yaml and target_yaml are required")
      else
        ctx ← configDiffBlastRadiusContext (dr_Context req);
        aret (Replied 200 (CompareWithContext (dr_BaseYAML req) (dr_TargetYAML req) ctx))
  end.

Definition or_nonempty (l d : list string) : list string := match l with [] => d | _ => l end.
(* src/internal/api/configs.go:173-211 handlePreviewConfigPolicy *)
Definition handlePreviewConfigPolicy (req : result configPolicyPreviewRequest) : AM (reply EvaluationResult) :=
  match req with
  | Err _ => aret (refuse 400 "invalid JSON")
  | Ok req =>
      let candidate := if TrimSpace (pv_CandidateYAML req) =s "" then pv_TargetYAML req else pv_CandidateYAML req in
      let current := if TrimSpace (pv_CurrentYAML req) =s "" then pv_BaseYAML req else pv_CurrentYAML req in
      let t := pv_Target req in let c := pv_Context req in
      let target := mkTarget (default_str (pt_Environment t) (pc_Environment c)) (pt_Scope t) (pt_WorkloadID t)
        (pt_TenantID t) (pt_TeamID t) in
      let s := pv_Sampling req in
      let sampling := if flt f_zero (pc_MaxSamplingPercentage c)
        then mkSampling (sp_MinPercentage s) (pc_MaxSamplingPercentage c) else s in
      let settings := mkSettings (default (pc_EndpointAllowlist c) (pv_AllowedOTLPEndpoints req))
        (or_nonempty (pv_CriticalExporters req) (pc_CriticalExporters c))
        (or_nonempty (pv_RequiredResourceAttributes req) (pc_RequiredResourceAttributes c)) sampling in
      if TrimSpace candidate =s "" then aret (refuse 400 "target_yaml is required")
      else
        first ← draw (ae_exportersFirst e);
        aret (Replied 200 (ConfigPolicy.Evaluate first (ConfigPolicy.mkRequest current candidate target settings)))
  end.

(* src/internal/api/configs.go:219-258 handleCreateConfig *)
Definition handleCreateConfig (body : decoding createConfigRequest) : AM (reply Config) :=
  decodeJSONBody body (fun req =>
  if (cc_Name req =s "") || (cc_Content req =s "")
  then aret (refuse 400 "name and content are required")
  else
    t ← anow e;
    let cfg := mkConfig (sha256_hex (cc_Content req)) (cc_Name req) (cc_Content req) t (currentUserEmail e)
      (normalizeCreateConfigKind (cc_Kind req)) (normalizeCreateConfigStatus (cc_Kind req) (cc_Status req))
      (TrimSpace (cc_Category req)) (TrimSpace (cc_Stack req)) "" [] (sanitizedCreateConfigTags (cc_Tags req))
      false (normalizeCreateConfigSourceType (cc_SourceType req)) "" "" "" "" "" None in
    err ← ax e (fun d f => CreateConfig d f cfg);
    match err with
    | Some _ => aret (refuse 500 "failed to create config")
    | None =>
        ok ← Emit e "config.create" "config" (cf_ID cfg) (DText "");
        if ok : bool then aret (Replied 201 cfg)
        else aret (Refused (mkResponse 503 "audit unavailable" sideEffectApplied))
    end).

(** The import itself is an answer of the surroundings ([importGitConfig] of
    GitSource in the program). *)
(* src/internal/api/configs.go:302-367 handleImportConfigFromGit *)
Definition handleImportConfigFromGit (gitImport : Time -> gitImportRequest -> result gitImportResult)
  (req : result gitImportRequest) : AM (reply Config) :=
  match req with
  | Err _ => aret (refuse 400 "invalid JSON")
  | Ok req =>
    match validateGitImportRequest (ae_getenv e) req with
    | Some err => aret (refuse 400 err)
    | None =>
      t0 ← anow e;
      match gitImport t0 req with
      | Err err => aret (refuse 400 (redactGitOpsText err))
      | Ok result =>
        t1 ← anow e;
        if negb (rs_Valid (Validate t1 (gr_Content result) None))
        then aret (refuse 400 "configuration failed validation")
        else
          let gitURL := if gr_GitURL result =s "" then sanitizeGitURL (gq_GitURL req) else gr_GitURL result in
          let gitProvider :=
            if gr_GitProvider result =s "" then gitProviderFromURL gitURL else gr_GitProvider result in
          t2 ← anow e;
          let cfg := mkConfig (sha256_hex (gr_Content result)) (gq_Name req) (gr_Content result) t2
            (currentUserEmail e) "saved" "ready" "" "" "" [] [] false "git" gitURL gitProvider (gq_GitRef req)
            (gq_GitPath req) (gr_CommitSHA result) (Some (gr_ImportedAt result)) in
          err ← ax e (fun d f => CreateConfig d f cfg);
          match err with
          | Some _ => aret (refuse 500 "failed to create config")
          | None =>
              ok ← Emit e "config.import_git" "config" (cf_ID cfg) (DText (cf_CommitSHA cfg));
              if ok : bool then aret (Replied 201 cfg)
              else aret (Refused (mkResponse 503 "audit unavailable" sideEffectApplied))
          end
      end
    end
  end.

(* src/internal/api/configs.go:369-391 handleGetConfig *)
Definition handleGetConfig (id : string) : AM (reply Config) :=
  match findBuiltInConfigTemplate id with
  | Some cfg => aret (Replied 200 cfg)
  | None =>
      r ← aq e (fun d f => GetConfig d f id);
      aret match r with
           | Ok cfg => Replied 200 (with_defaults cfg)
           | Err err => if err =s ErrNoRows then refuse 404 "config not found"
                        else refuse 500 "failed to get config"
           end
  end.
End Handlers.

(** ** Theorems *)

Section Facts.
Context `{UnicodeTables} `{TimestampColumn}.

(** The identifier of a saved config is a digest; no template has one. *)
Lemma digest_is_no_template text : findBuiltInConfigTemplate (sha256_hex text) = None.
Proof.
  unfold findBuiltInConfigTemplate. destruct (List.find _ _) as [cfg|] eqn:E; [|done].
  apply find_some in E as [Hin Hid%String.eqb_eq].
  assert (forallb (fun c => bool_decide (hex_decode (cf_ID c) = None)) builtInConfigTemplates = true) as Hall
    by (vm_compute; reflexivity).
  rewrite forallb_forall in Hall. specialize (Hall cfg Hin). apply bool_decide_eq_true in Hall.
  unfold sha256_hex in Hid. rewrite Hid, hex_decode_encode in Hall; [done|]. apply Forall_forall. intros b Hb.
  by apply (Sum256_bytes (str_bytes text)), list_elem_of_In.
Qed.

Lemma default_str_idem x d : d <> "" -> default_str (default_str x d) d = default_str x d.
Proof.
  intros Hd. unfold default_str. destruct (String.eqb_spec x "") as [->|Hx].
  - by rewrite (proj2 (String.eqb_neq d "") Hd).
  - by rewrite (proj2 (String.eqb_neq x "") Hx).
Qed.

Definition configs_of (a : api) : gmap string Config := d_configs (sv_db (ap_server a)).

Lemma created_row e c a a' : ax e (fun d f => CreateConfig d f c) a = (a', None) ->
  configs_of a' !! cf_ID c = Some (config_row c).
Proof.
  unfold ax, abind, others, lift, dbx, CreateConfig, exec. cbn [ap_server set_server].
  set (s := tick _). destruct (bool_decide _); cbn [negb]; [|by intros [=]].
  destruct (en_fault _ _) as [|[]]; intros [= <-]. unfold configs_of. apply lookup_insert_eq.
Qed.

Lemma Emit_keeps_configs e action resource id d a :
  configs_of (Emit e action resource id d a).1 = configs_of a.
Proof. unfold Emit, abind, draw, lift. by destruct (ae_auditFails e _). Qed.

Lemma read_config (e' : aenv) id a : (forall n b, ae_other e' n b = b) ->
  (forall n, en_fault (ae_server e') n = IoOk) ->
  (aq e' (fun d f => GetConfig d f id) a).2 =
  match configs_of a !! id with Some c => Ok c | None => Err ErrNoRows end.
Proof.
  intros Ho Hf. unfold aq, abind, others, lift, dbq. cbn -[lookup]. by rewrite Ho, Hf.
Qed.

Lemma with_defaults_row c : with_defaults (config_row c) = config_row c.
Proof.
  unfold with_defaults, config_row. cbn. by rewrite !default_str_idem.
Qed.

(** a config created through the API can be read back: its identifier is the
    digest of its content, no built-in template stands in front of it, and the
    read returns the row that was written, the content unchanged. *)
Theorem created_config_is_served (e e' : aenv) body a a' cfg :
  handleCreateConfig e body a = (a', Replied 201 cfg) ->
  (forall n b, ae_other e' n b = b) -> (forall n, en_fault (ae_server e') n = IoOk) ->
  cf_ID cfg = sha256_hex (cf_Content cfg) /\
  (handleGetConfig e' (cf_ID cfg) a').2 = Replied 200 (config_row cfg).
Proof.
  unfold handleCreateConfig, decodeJSONBody. destruct body as [req []| |]; try done.
  case_if; [done|]. unfold abind at 1. destruct (anow e a) as [a1 t]. unfold abind at 1.
  set (c := mkConfig _ _ _ _ _ _ _ _ _ _ _ _ _ _ _ _ _ _ _ _).
  destruct (ax e _ a1) as [a2 [err|]] eqn:Ex; [done|]. intros Hk Ho Hf.
  assert (a' = (Emit e "config.create" "config" (cf_ID c) (DText "") a2).1 /\ cfg = c) as [Ha ->].
  { unfold abind in Hk. destruct (Emit _ _ _ _ _ a2) as [a3 []]; [|done]. by injection Hk as <- <-. }
  split; [done|]. change (cf_ID c) with (sha256_hex (cc_Content req)). unfold handleGetConfig.
  rewrite digest_is_no_template. unfold abind.
  pose proof (read_config e' (cf_ID c) a' Ho Hf) as Hr.
  destruct (aq e' _ a') as [a3 r]. cbn [snd] in Hr.
  rewrite Ha, Emit_keeps_configs, (created_row e c _ _ Ex) in Hr. subst r. cbn [snd aret].
  by rewrite with_defaults_row.
Qed.

Lemma keep_new_spec seen tags : NoDup (keep_new seen tags) /\
  forall t, t ∈ keep_new seen tags <-> t <> "" /\ t ∉ seen /\ exists raw, raw ∈ tags /\ TrimSpace raw = t.
Proof.
  revert seen. induction tags as [|raw tags IH]; intros seen; cbn [keep_new].
  { split; [constructor|]. set_solver. }
  destruct (String.eqb_spec (TrimSpace raw) "") as [He|Hne]; [|case_bool_decide as Hs].
  - destruct (IH seen) as [Hn Hin]. split; [done|]. intros t. rewrite Hin. set_solver.
  - destruct (IH seen) as [Hn Hin]. split; [done|]. intros t. rewrite Hin. set_solver.
  - destruct (IH ({[TrimSpace raw]} ∪ seen)) as [Hn Hin]. split.
    + constructor; [|done]. rewrite Hin. set_solver.
    + intros t. rewrite elem_of_cons, Hin. destruct (decide (t = TrimSpace raw)); set_solver.
Qed.

(** the tags of a new config are the trimmed, non-blank tags of the request,
    each once. *)
Theorem tags_are_trimmed_once tags :
  NoDup (sanitizedCreateConfigTags tags) /\
  forall t, t ∈ sanitizedCreateConfigTags tags <-> t <> "" /\ exists raw, raw ∈ tags /\ TrimSpace raw = t.
Proof.
  destruct (keep_new_spec ∅ tags) as [Hn Hin]. split; [done|]. intros t.
  unfold sanitizedCreateConfigTags. rewrite Hin. set_solver.
Qed.

(** Saving a text that is already in the library is answered as a server error,
    whatever name it is given: the identifier is the digest of the text. *)
Lemma duplicate_content_refused (e : aenv) req old a :
  (forall n b, ae_other e n b = b) -> cc_Name req <> "" -> cc_Content req <> "" ->
  configs_of a !! sha256_hex (cc_Content req) = Some old ->
  (handleCreateConfig e (Value req AtEnd) a).2 = refuse 500 "failed to create config".
Proof.
  intros Ho Hn Hc Hold. unfold handleCreateConfig, decodeJSONBody.
  rewrite (proj2 (String.eqb_neq _ _) Hn), (proj2 (String.eqb_neq _ _) Hc). cbn [orb].
  unfold abind at 1. destruct (anow e a) as [a1 t] eqn:Et.
  assert (configs_of a1 = configs_of a) as Ha by (unfold anow, lift, now in Et; by injection Et as <- _).
  unfold abind at 1. set (c := mkConfig _ _ _ _ _ _ _ _ _ _ _ _ _ _ _ _ _ _ _ _).
  enough ((ax e (fun d f => CreateConfig d f c) a1).2 = Some "constraint violation") as Hx
    by (destruct (ax e _ a1) as [a2 r]; cbn in Hx; by subst r).
  unfold ax, abind, others, lift, dbx, CreateConfig, exec. cbn [ap_server set_server]. rewrite Ho.
  change (d_configs (sv_db (tick (ap_server a1)))) with (configs_of a1).
  rewrite Ha. change (cf_ID c) with (sha256_hex (cc_Content req)). rewrite Hold. done.
Qed.

(** ** The templates are closed *)

(** The texts of the templates are written with two spaces per level: the
    components a template declares, and the lists its pipelines name. *)
Definition at_indent (n : nat) (line : string) : option string :=
  let pad := String.concat "" (replicate n " ") in
  if HasPrefix line pad then
    let rest := drop_str n line in if HasPrefix rest " " then None else Some rest
  else None.
Fixpoint read_lines (section : string) (lines : list string) : list (string * string) * list (string * string) :=
  match lines with
  | [] => ([], [])
  | line :: rest =>
      match at_indent 0 line, at_indent 2 line, at_indent 6 line with
      | Some head, _, _ => read_lines (before_char head ":") rest
      | None, Some head, _ =>
          let '(declared, named) := read_lines section rest in ((section, before_char head ":") :: declared, named)
      | None, None, Some head =>
          let '(declared, named) := read_lines section rest in
          match Cut head "[" with
          | (kind, Some items) =>
              if section =s "service" then
                (declared, map (fun i => (before_char kind ":", TrimSpace i)) (Split (before_char items "]") ",") ++ named)
              else (declared, named)
          | _ => (declared, named)
          end
      | None, None, None => read_lines section rest
      end
  end.
Definition components_of (cfg : Config) := read_lines "" (Split (cf_Content cfg) newline).

(** every pipeline of every built-in template names only components the
    template declares, in the section of their kind, and no two templates share an
    identifier. *)
Theorem templates_are_closed :
  NoDup (map cf_ID builtInConfigTemplates) /\
  Forall (fun cfg => (components_of cfg).2 <> [] /\ (components_of cfg).2 ⊆ (components_of cfg).1)
    builtInConfigTemplates.
Proof.
  split; [apply (bool_decide_eq_true_1 _); vm_compute; reflexivity|].
  assert (forallb (fun cfg => Nat.ltb 0 (length (components_of cfg).2) &&
    forallb (fun u => bool_decide (u ∈ (components_of cfg).1)) (components_of cfg).2) builtInConfigTemplates = true)
    as Hall by (vm_compute; reflexivity).
  rewrite forallb_forall in Hall. apply Forall_forall. intros cfg Hin%list_elem_of_In.
  apply Hall, andb_true_iff in Hin as [Hn Hd]. apply Nat.ltb_lt in Hn.
  split; [intros E; rewrite E in Hn; cbn in Hn; lia|]. rewrite forallb_forall in Hd.
  intros u Hu%list_elem_of_In. by apply Hd, bool_decide_eq_true in Hu.
Qed.

End Facts.

(** ** A concrete run *)

#[local] Existing Instance byte_tables.
#[local] Existing Instance microseconds.

Definition save_it : decoding createConfigRequest :=
  Value (mkCreateRequest "edge" "a: b" "" "" "" "" [" x"; "x "; ""] "") AtEnd.
Definition saved : api * reply Config := handleCreateConfig (Approvals.alone None) save_it Approvals.sample_api.

Lemma created_config_is_served_witness : exists cfg, saved.2 = Replied 201 cfg /\
  (handleGetConfig (Approvals.alone None) (cf_ID cfg) saved.1).2 = Replied 200 (config_row cfg).
Proof.
  destruct saved.2 as [r|st cfg] eqn:E; [vm_compute in E; discriminate E|].
  assert (st = 201%Z) as -> by (vm_compute in E; by injection E as <-).
  exists cfg. split; [done|].
  refine (proj2 (created_config_is_served (Approvals.alone None) (Approvals.alone None) save_it Approvals.sample_api
    saved.1 cfg _ _ _)); [|by intros|by intros].
  rewrite <-E. apply surjective_pairing.
Defined.

End ConfigLibrary.
