(* ===== verification/Evidence.v ===== *)
(** * Evidence packs (internal/reports, pkg/models/report_export.go)

    The request of a report and its normalisation, the sections of a pack built
    from the store, redaction, the digests, and the three renderings. *)

From S2P Require Import Prelude GoString Models PushStatus Registry Sha256 Alerts Regex.
From S2P Require Import Validator Yaml ConfigPolicy Access Store PushHistory OpampServer.
From S2P Require Import Api Approvals WorkloadApi Fleet ConfigDrift.
Import Sha256.Sha256 PushStatus.PushStatus Regex Registry Access Store.Store PushHistory OpampServer Api Fleet.

Module Evidence.

(** ** Records *)

(* src/pkg/models/report_export.go:56-62 ReportScope *)
Record ReportScope := mkScope {
  sc_WorkloadIDs : list string; sc_GroupID : string; sc_Selector : gmap string string;
  sc_Since : option Time; sc_Until : option Time
}.
(* src/pkg/models/report_export.go:65-77 ReportIncludeOptions *)
Record ReportIncludeOptions := mkInclude {
  in_WorkloadSummary : bool; in_ConfigHistory : bool; in_CurrentConfig : bool; in_ConfigPlan : bool;
  in_DriftFindings : bool; in_VersionIntelligence : bool; in_Alerts : bool; in_WorkloadEvents : bool;
  in_RollbackReadiness : bool; in_AuditVerification : bool; in_SignedAuditMetadata : bool
}.
(* src/pkg/models/report_export.go:47-53 ReportExportRequest *)
Record ReportExportRequest := mkRequest {
  rx_SchemaVersion : string; rx_ReportType : string; rx_Scope : ReportScope;
  rx_Include : ReportIncludeOptions; rx_Redaction : string
}.
(** The count and the requested scope of the resolved scope are never set. *)
(* src/pkg/models/report_export.go:80-88 ReportScopeResolved *)
Record ReportScopeResolved := mkResolved {
  rs_WorkloadIDs : list string; rs_WorkloadCount : Z; rs_GroupID : string; rs_Selector : gmap string string;
  rs_Since : option Time; rs_Until : option Time
}.
(** The values that facts take: text, truth values, numbers, and labels. *)
Inductive fact := FStr (s : string) | FBool (b : bool) | FInt (n : Z) | FMap (m : gmap string string).
(* src/pkg/models/report_export.go:113-123 EvidenceItem *)
Record EvidenceItem := mkItem {
  ei_ID : string; ei_Resource : string; ei_ResourceID : string; ei_ObservedAt : option Time;
  ei_Severity : string; ei_Summary : string; ei_Facts : gmap string fact; ei_ContentHash : string;
  ei_Redacted : bool
}.
(** No section has a table of its own. *)
(* src/pkg/models/report_export.go:104-110 EvidenceSection *)
Record EvidenceSection := mkSection {
  es_ID : string; es_Title : string; es_Order : Z; es_Items : list EvidenceItem
}.
(* src/pkg/models/report_export.go:166-173 ReportSignature *)
Record ReportSignature := mkSignature {
  sg_Scheme : string; sg_KeyID : string; sg_SignedAt : Time; sg_PayloadHash : string;
  sg_SignatureB64 : string; sg_Verifier : string
}.
(* src/pkg/models/report_export.go:198-201 ReportWarning *)
Record ReportWarning := mkWarning { rw_Code : string; rw_Message : string }.
(* src/pkg/models/report_export.go:91-101 EvidencePack *)
Record EvidencePack := mkPack {
  pk_SchemaVersion : string; pk_GeneratedAt : Time; pk_InputsHash : string; pk_ReportHash : string;
  pk_Scope : ReportScopeResolved; pk_Sections : list EvidenceSection; pk_Signatures : list ReportSignature;
  pk_Warnings : list ReportWarning
}.

(** [json.Marshal] of the three values that are hashed or rendered with it. *)
Class ReportJson := {
  json_inputs : ReportExportRequest -> list string -> list EvidenceSection -> result string;
  json_pack : EvidencePack -> result string;
  json_labels : gmap string string -> string
}.
(** The signer of the deployment. *)
(* src/pkg/ext/report_signer.go:13-16 ReportSigner *)
Record ReportSigner := mkSigner { rs_SignReport : Time -> string -> string -> result ReportSignature }.
(* src/pkg/ext/report_signer.go:23-30 SignReport *)
Definition NopReportSigner : ReportSigner :=
  mkSigner (fun now payloadHash _ => Ok (mkSignature "none" "" now payloadHash "" "community-none")).

(** ** Redaction *)

Definition colon_or_equals : re := Byte (in_set [58; 61]%N).
Definition spaces : re := star (Byte re_space).
Definition run_without (l : list N) : re := plus (Byte (fun c => negb (re_space c || in_set l c))).
Definition iword : re :=
  alts [Byte letter; lit (bytes [197; 191]%N); lit (bytes [226; 132; 170]%N); Byte is_digit; one "_"].
Definition http_scheme : re := seqs [lit "http"; opt (lit "s"); lit "://"].

(* src/internal/reports/redact.go:12-17 redactionPatterns *)
Definition redactionPatterns : list re :=
  [seqs [ilit "authorization"; spaces; colon_or_equals; spaces; ilit "bearer"; plus (Byte re_space);
         run_without [44; 59]%N];
   seqs [alts [seqs [ilit "SECRET_"; star iword]; seqs [star iword; alts [ilit "TOKEN"; ilit "PASSWORD"]];
               ilit "api_key"; ilit "client_secret"];
         spaces; colon_or_equals; spaces; run_without [44; 59]%N];
   seqs [http_scheme; run_without [47; 64; 58]%N; one ":"; run_without [47; 64]%N; one "@"; run_without []];
   seqs [http_scheme; star (Byte (fun c => negb (re_space c))); alts [lit "internal"; lit "tenant"];
         star (Byte (fun c => negb (re_space c)))]].

Section Redact.
Context `{UnicodeTables}.

(* src/internal/reports/redact.go:20-26 RedactString *)
Definition RedactString (s : string) : string :=
  foldl (fun out r => ReplaceAllString r out (fun _ => "[REDACTED]")) (SanitizeRemoteConfigErrorMessage s)
    redactionPatterns.

(* src/internal/reports/redact.go:28-36 redactValue *)
Definition redactValue (s : string) : string :=
  if s =s "" then "" else if Contains s "@" then "[REDACTED]" else RedactString s.

Definition secret_key (k : string) : bool :=
  let lk := ToLower k in
  Contains lk "secret" || Contains lk "token" || Contains lk "password" || Contains lk "api_key"
  || Contains lk "client_secret".
Definition redact_fact (k : string) (v : fact) : fact :=
  if secret_key k then FStr "[REDACTED]"
  else match v with
       | FStr x => FStr (RedactString x)
       | FMap x => FMap (RedactString <$> x)
       | _ => v
       end.
(* src/internal/reports/redact.go:38-60 redactFacts *)
Definition redactFacts (facts : gmap string fact) : gmap string fact :=
  map_imap (fun k v => Some (redact_fact k v)) facts.

(** ** Small helpers *)

(* src/internal/reports/service.go:380-385 item *)
Definition item (prefix id resource rid : string) (at_ : option Time) (severity summary : string)
  (facts : gmap string fact) (ch : string) (redacted : bool) : EvidenceItem :=
  mkItem (prefix +:+ ":" +:+ id) resource rid at_ severity (RedactString summary) (redactFacts facts) ch redacted.
(* src/internal/reports/service.go:386-394 trustedLabels *)
Definition trustedLabels (labels : gmap string string) : gmap string string :=
  RedactString <$> filter (fun kv => HasPrefix kv.1 TrustedSelectorLabelPrefix = true) labels.
(* src/internal/reports/service.go:395-400 labelValue *)
Definition labelValue (p : option string) : string :=
  match p with None => "" | Some l => RedactString l end.
(* src/internal/reports/service.go:401-406 nonempty *)
Definition nonempty (v d : string) : string := if TrimSpace v =s "" then d else v.
(* src/internal/reports/service.go:407-413 contentHash *)
Definition contentHash (s : string) : string :=
  if s =s "" then "" else hex_encode (Sum256 (str_bytes s)).
(* src/internal/reports/service.go:414-418 hashCanonical *)
Definition hashCanonical (marshalled : result string) : string :=
  hex_encode (Sum256 (str_bytes match marshalled with Ok b => b | Err _ => "" end)).
(* src/internal/reports/service.go:419-429 canonicalReportPayload *)
Definition canonicalReportPayload `{ReportJson} (pack : EvidencePack) : result (string * string) :=
  let clone := mkPack (pk_SchemaVersion pack) (pk_GeneratedAt pack) (pk_InputsHash pack) "" (pk_Scope pack)
    (pk_Sections pack) [] (pk_Warnings pack) in
  match json_pack clone with
  | Err e => Err e
  | Ok b => Ok (b, hex_encode (Sum256 (str_bytes b)))
  end.

(** ** The request *)

Definition ErrInvalidRequest := "invalid report request".
Definition all_sections : ReportIncludeOptions :=
  mkInclude true true true true true true true true true true false.
Definition no_section (o : ReportIncludeOptions) : bool :=
  negb (in_WorkloadSummary o || in_ConfigHistory o || in_CurrentConfig o || in_ConfigPlan o || in_DriftFindings o
        || in_VersionIntelligence o || in_Alerts o || in_WorkloadEvents o || in_RollbackReadiness o
        || in_AuditVerification o || in_SignedAuditMetadata o).
Definition scope_kinds (s : ReportScope) : nat :=
  (if Nat.ltb 0 (length (sc_WorkloadIDs s)) then 1 else 0) + (if TrimSpace (sc_GroupID s) <>s "" then 1 else 0)
  + (if Nat.ltb 0 (size (sc_Selector s)) then 1 else 0).

(* src/internal/reports/service.go:49-88 NormalizeRequest *)
Definition NormalizeRequest (req : ReportExportRequest) : result ReportExportRequest :=
  let schema := default_str (rx_SchemaVersion req) "report_export_request.v1" in
  let kind := default_str (rx_ReportType req) "evidence_pack" in
  let redaction := default_str (rx_Redaction req) "strict" in
  let bad why := Err (ErrInvalidRequest +:+ ": " +:+ why) in
  if schema <>s "report_export_request.v1" then bad "unsupported schema_version"
  else if kind <>s "evidence_pack" then bad "unsupported report_type"
  else if redaction <>s "strict" then bad "unsupported redaction mode"
  else
    let scope := rx_Scope req in
    if negb (Nat.eqb (scope_kinds scope) 1)
    then bad "invalid scope: exactly one of workload_ids, group_id, selector is required"
    else if match sc_Since scope, sc_Until scope with Some s, Some u => After s u | _, _ => false end
    then bad "invalid time range"
    else Ok (mkRequest schema kind scope (if no_section (rx_Include req) then all_sections else rx_Include req)
               redaction).

(* src/internal/reports/service.go:197-207 matchesScope *)
Definition matchesScope (wl : Workload) (scope : ReportScope) : bool :=
  if (sc_GroupID scope <>s "") && (default "" (wl_Labels wl !! "group") <>s sc_GroupID scope) then false
  else forallb (fun kv => (default "" (wl_Labels wl !! kv.1) =s kv.2)
                          || (default "" (wl_FingerprintKeys wl !! kv.1) =s kv.2))
         (map_to_list (sc_Selector scope)).

Definition by_name_less (a b : Workload) : bool :=
  let x := ToLower (wl_DisplayName a) in let y := ToLower (wl_DisplayName b) in
  if x <>s y then x <s y else wl_ID a <s wl_ID b.

Definition workload_section_item (wl : Workload) : EvidenceItem :=
  item "workload" (wl_ID wl) "workload" (wl_ID wl) (Some (wl_LastSeenAt wl)) ""
    (wl_DisplayName wl +:+ " (" +:+ wl_Type wl +:+ ") is " +:+ wl_Status wl)
    {["display_name" := FStr (wl_DisplayName wl); "type" := FStr (wl_Type wl); "version" := FStr (wl_Version wl);
      "status" := FStr (wl_Status wl); "accepts_remote_config" := FBool (wl_AcceptsRemoteConfig wl);
      "active_config_hash" := FStr (wl_ActiveConfigHash wl); "labels" := FMap (trustedLabels (wl_Labels wl))]}
    "" true.
(* src/internal/reports/service.go:209-217 workloadSection *)
Definition workloadSection (workloads : list Workload) : EvidenceSection :=
  mkSection "workloads" "Workloads" 10 (map workload_section_item workloads).

Definition available (c : WorkloadConfig) : bool := (wc_Content c <>s "") || wc_ContentAvailable c.
Definition history_less (a b : WorkloadConfig) : bool :=
  if negb (Z.eqb (wc_AppliedAt a) (wc_AppliedAt b)) then After (wc_AppliedAt a) (wc_AppliedAt b)
  else if wc_ConfigID a <>s wc_ConfigID b then wc_ConfigID a <s wc_ConfigID b
  else wc_PushID a <s wc_PushID b.
Definition history_item (wl : Workload) (c : WorkloadConfig) : EvidenceItem :=
  item "config" (wl_ID wl +:+ ":" +:+ wc_ConfigID c +:+ ":" +:+ wc_PushID c) "config" (wc_ConfigID c)
    (Some (wc_AppliedAt c)) (wc_Status c) ("config " +:+ wc_ConfigID c +:+ " " +:+ wc_Status c)
    {["workload_id" := FStr (wl_ID wl); "config_id" := FStr (wc_ConfigID c); "status" := FStr (wc_Status c);
      "pushed_by" := FStr (redactValue (wc_PushedBy c)); "label" := FStr (labelValue (wc_Label c));
      "target_count" := FInt (wc_TargetCount c); "applied_count" := FInt (wc_AppliedCount c);
      "failed_count" := FInt (wc_FailedCount c); "content_available" := FBool (available c);
      "error_message" := FStr (RedactString (wc_ErrorMessage c))]}
    (contentHash (wc_Content c)) true.
Definition current_item (wl : Workload) (c : WorkloadConfig) : EvidenceItem :=
  item "current_config" (wl_ID wl +:+ ":" +:+ wc_ConfigID c +:+ ":" +:+ wc_PushID c) "config" (wc_ConfigID c)
    (Some (wc_AppliedAt c)) (wc_Status c) ("current config " +:+ wc_ConfigID c +:+ " " +:+ wc_Status c)
    (<["instance_status_count" := FInt (Z.of_nat (length (wc_InstanceStatuses c)))]>
     {["workload_id" := FStr (wl_ID wl); "config_id" := FStr (wc_ConfigID c);
      "config_hash" := FStr (wc_ConfigHash c); "status" := FStr (wc_Status c);
      "target_count" := FInt (wc_TargetCount c); "applied_count" := FInt (wc_AppliedCount c);
      "failed_count" := FInt (wc_FailedCount c); "pending_count" := FInt (wc_PendingCount c);
      "timed_out_count" := FInt (wc_TimedOutCount c); "no_status_count" := FInt (wc_NoStatusCount c);
      "content_available" := FBool (available c); "error_message" := FStr (RedactString (wc_ErrorMessage c));
      "rollback_of_push_id" := FStr (wc_RollbackOfPushID c)]})
    (contentHash (wc_Content c)) true.

Definition drift_facts (wl : Workload) : gmap string fact :=
  match wl_RemoteConfigStatus wl with
  | None => {["expected_config_hash" := FStr (wl_ActiveConfigHash wl); "effective_config_hash" := FStr "";
              "drift_status" := FStr "unknown"]}
  | Some st =>
      let drifted := (wl_ActiveConfigHash wl <>s "") && (rcs_ConfigHash st <>s "")
                     && (wl_ActiveConfigHash wl <>s rcs_ConfigHash st) in
      {["expected_config_hash" := FStr (wl_ActiveConfigHash wl);
        "effective_config_hash" := FStr (rcs_ConfigHash st);
        "drift_status" := FStr (if drifted then "drifted" else "in_sync")]}
  end.
(* src/internal/reports/service.go:272-287 driftSection *)
Definition driftSection (workloads : list Workload) : EvidenceSection :=
  mkSection "drift" "Drift state" 30
    (map (fun wl => item "drift" (wl_ID wl) "workload" (wl_ID wl) None ""
                      ("drift state for " +:+ wl_DisplayName wl) (drift_facts wl) "" true) workloads).
(* src/internal/reports/service.go:288-298 versionSection *)
Definition versionSection (workloads : list Workload) : EvidenceSection :=
  mkSection "version_intelligence" "Version intelligence" 40
    (map (fun wl => item "version" (wl_ID wl) "workload" (wl_ID wl) None
                      (if TrimSpace (wl_Version wl) =s "" then "warning" else "")
                      ("collector version " +:+ nonempty (wl_Version wl) "unknown")
                      {["version" := FStr (wl_Version wl); "type" := FStr (wl_Type wl)]} "" true) workloads).
(* src/internal/reports/service.go:374-378 auditVerificationSection *)
Definition auditVerificationSection : EvidenceSection :=
  mkSection "audit_verification" "Audit verification" 80
    [item "audit_verification" "community-hook" "audit" "community-hook" None "info"
       ("audit event export is available through the enterprise verifier hook; " +:+
        "community store does not persist queryable audit events")
       {["verifier_hook" := FStr "ext.ReportSigner.VerifyReport";
         "community_audit_events_persisted" := FBool false]} "" true].

Definition alert_less (a b : Alert) : bool :=
  if negb (Z.eqb (al_FiredAt a) (al_FiredAt b)) then After (al_FiredAt a) (al_FiredAt b) else al_ID a <s al_ID b.
Definition alert_item (a : Alert) : EvidenceItem :=
  item "alert" (al_ID a) "alert" (al_ID a) (Some (al_FiredAt a)) (al_Severity a) (RedactString (al_Message a))
    {["workload_id" := FStr (al_WorkloadID a); "rule" := FStr (al_Rule a);
      "resolved" := FBool match al_ResolvedAt a with Some _ => true | None => false end]} "" true.
Definition event_less (a b : WorkloadEvent) : bool :=
  if negb (Z.eqb (ev_OccurredAt a) (ev_OccurredAt b)) then After (ev_OccurredAt a) (ev_OccurredAt b)
  else Z.ltb (ev_ID a) (ev_ID b).
Definition event_item (e : WorkloadEvent) : EvidenceItem :=
  item "event" (pretty.pretty (ev_ID e)) "event" (pretty.pretty (ev_ID e)) (Some (ev_OccurredAt e)) ""
    (ev_EventType e)
    {["workload_id" := FStr (ev_WorkloadID e); "instance_uid" := FStr (ev_InstanceUID e);
      "pod_name" := FStr (ev_PodName e); "version" := FStr (ev_Version e);
      "prev_version" := FStr (ev_PrevVersion e)]} "" true.

Definition rollback_item (wl : Workload) (currentHash : string) (target : option RollbackTarget) : EvidenceItem :=
  let facts := {["workload_id" := FStr (wl_ID wl); "ready" := FBool (if target then true else false);
                 "current_config_hash" := FStr currentHash]} in
  match target with
  | None =>
      item "rollback" (wl_ID wl) "config" (wl_ID wl) None "warning"
        ("no rollback target available for " +:+ wl_DisplayName wl) facts "" true
  | Some t =>
      let c := rt_Config t in
      item "rollback" (wl_ID wl) "config" (wc_ConfigID c) (Some (wc_AppliedAt c)) ""
        ("rollback target " +:+ wc_ConfigID c +:+ " (" +:+ rt_Kind t +:+ ")")
        (<["target_kind" := FStr (rt_Kind t)]> (<["target_config_id" := FStr (wc_ConfigID c)]>
          (<["target_config_hash" := FStr (wc_ConfigHash c)]>
            (<["content_available" := FBool (available c)]> facts)))) "" true
  end.
End Redact.

(** ** The service *)

Section Service.
Context `{UnicodeTables} `{TimestampColumn} `{Alerts.Collation} `{ReportJson} (e : aenv)
  (signer : ReportSigner) (alertTable : gmap string Alert).
Local Open Scope api_scope.

Definition next_fault : AM io := lift (fault (ae_server e)).
Definition faults3 : AM (io * io * io) :=
  f1 ← next_fault; f2 ← next_fault; f3 ← next_fault; aret (f1, f2, f3).

(** The requested ids in turn: blanks and repetitions are skipped. *)
Fixpoint get_workloads (seen : gset string) (ids : list string) : AM (result (list Workload)) :=
  match ids with
  | [] => aret (Ok [])
  | raw :: rest =>
      let id := TrimSpace raw in
      if (id =s "") || bool_decide (id ∈ seen) then get_workloads seen rest
      else
        r ← aq e (fun d f => GetWorkload d f id);
        match r with
        | Err err => aret (Err (if err =s ErrNoRows then "workload not found" else err))
        | Ok wl =>
            l ← get_workloads ({[id]} ∪ seen) rest;
            aret match l with
                 | Err err => Err err
                 | Ok l => Ok (match wl_ArchivedAt wl with None => wl :: l | Some _ => l end)
                 end
        end
  end.

(* src/internal/reports/service.go:155-195 resolveWorkloads *)
Definition resolveWorkloads (scope : ReportScope) : AM (result (list Workload)) :=
  out ← (match sc_WorkloadIDs scope with
         | [] =>
             r ← aq e (fun d f => ListWorkloads d f false);
             aret match r with
                  | Err err => Err err
                  | Ok items => Ok (List.filter (fun wl => matchesScope wl scope) items)
                  end
         | ids => get_workloads ∅ ids
         end);
  aret match out with Err err => Err err | Ok l => Ok (sort_by by_name_less l) end.

Definition history_items (wl : Workload) : AM (list EvidenceItem) :=
  fs ← faults3;
  h ← aq_now e (fun d _ t => GetWorkloadConfigHistory d fs t (wl_ID wl));
  aret match h with Err _ => [] | Ok h => map (history_item wl) (sort_by history_less h) end.
(* src/internal/reports/service.go:219-242 configHistorySection *)
Definition configHistorySection (workloads : list Workload) : AM EvidenceSection :=
  items ← each history_items workloads;
  aret (mkSection "config_history" "Config history" 20 (concat items)).

Definition current_items (wl : Workload) : AM (list EvidenceItem) :=
  c ← aq_now e (fun d f t => GetLatestWorkloadConfig d f t (wl_ID wl));
  aret match c with Ok (Some cfg) => [current_item wl cfg] | _ => [] end.
(* src/internal/reports/service.go:243-270 currentConfigSection *)
Definition currentConfigSection (workloads : list Workload) : AM EvidenceSection :=
  items ← each current_items workloads;
  aret (mkSection "current_config" "Current config" 25 (concat items)).

(* src/internal/reports/service.go:299-316 alertSection *)
Definition alertSection : AM EvidenceSection :=
  alerts ← aq e (fun _ f => ConfigDrift.ListAlerts alertTable f false);
  aret (mkSection "alerts" "Alerts" 50
    match alerts with Err _ => [] | Ok l => map alert_item (sort_by alert_less l) end).

Definition event_items (since : option Time) (wl : Workload) : AM (list EvidenceItem) :=
  r ← aq e (fun d f => ListWorkloadEvents d f (wl_ID wl) 500 (default zero_time since));
  aret match r with Err _ => [] | Ok events => map event_item (sort_by event_less events) end.
(* src/internal/reports/service.go:317-340 eventsSection *)
Definition eventsSection (workloads : list Workload) (since : option Time) : AM EvidenceSection :=
  items ← each (event_items since) workloads;
  aret (mkSection "workload_events" "Workload events" 60 (concat items)).

Definition rollback_readiness (wl : Workload) : AM EvidenceItem :=
  currentHash ← (if wl_ActiveConfigHash wl <>s "" then aret (wl_ActiveConfigHash wl)
                 else c ← aq_now e (fun d f t => GetLatestWorkloadConfig d f t (wl_ID wl));
                      aret match c with Ok (Some cfg) => wc_ConfigID cfg | _ => "" end);
  fs ← faults3;
  target ← aq_now e (fun d _ t => GetRollbackTarget d fs t (wl_ID wl) currentHash);
  aret (rollback_item wl currentHash match target with Ok t => t | Err _ => None end).
(* src/internal/reports/service.go:342-372 rollbackReadinessSection *)
Definition rollbackReadinessSection (workloads : list Workload) : AM EvidenceSection :=
  items ← each rollback_readiness workloads;
  aret (mkSection "rollback_readiness" "Rollback readiness" 70 items).

(** One conditional [append]. *)
Definition section_if (b : bool) (m : AM EvidenceSection) (acc : list EvidenceSection)
  : AM (list EvidenceSection) :=
  if b then sec ← m; aret (acc ++ [sec]) else aret acc.

Definition collect_sections (req : ReportExportRequest) (workloads : list Workload) : AM (list EvidenceSection) :=
  let o := rx_Include req in
  s ← section_if (in_WorkloadSummary o) (aret (workloadSection workloads)) [];
  s ← section_if (in_ConfigHistory o) (configHistorySection workloads) s;
  s ← section_if (in_CurrentConfig o) (currentConfigSection workloads) s;
  s ← section_if (in_DriftFindings o) (aret (driftSection workloads)) s;
  s ← section_if (in_VersionIntelligence o) (aret (versionSection workloads)) s;
  s ← section_if (in_Alerts o) alertSection s;
  s ← section_if (in_WorkloadEvents o) (eventsSection workloads (sc_Since (rx_Scope req))) s;
  s ← section_if (in_RollbackReadiness o) (rollbackReadinessSection workloads) s;
  section_if (in_AuditVerification o) (aret auditVerificationSection) s.

Definition plan_warning : ReportWarning :=
  mkWarning "config_plan_not_persisted" ("Config application plans are request-time previews; " +:+
    "no persisted candidate plan is available for this evidence pack.").
Definition with_hash (p : EvidencePack) (h : string) (sigs : list ReportSignature) : EvidencePack :=
  mkPack (pk_SchemaVersion p) (pk_GeneratedAt p) (pk_InputsHash p) h (pk_Scope p) (pk_Sections p) sigs
    (pk_Warnings p).

(* src/internal/reports/service.go:91-153 BuildEvidencePack *)
Definition BuildEvidencePack (req : ReportExportRequest) : AM (result EvidencePack) :=
  match NormalizeRequest req with
  | Err err => aret (Err err)
  | Ok req =>
      r ← resolveWorkloads (rx_Scope req);
      match r with
      | Err err => aret (Err err)
      | Ok workloads =>
          let ids := map wl_ID workloads in
          let scope := rx_Scope req in
          now ← anow e;
          sections ← collect_sections req workloads;
          let sections := sort_by (fun a b => Z.ltb (es_Order a) (es_Order b)) sections in
          let pack := mkPack "evidence_pack.v1" now (hashCanonical (json_inputs req ids sections)) ""
            (mkResolved ids 0 (sc_GroupID scope) (sc_Selector scope) (sc_Since scope) (sc_Until scope)) sections []
            (if in_ConfigPlan (rx_Include req) then [plan_warning] else []) in
          match canonicalReportPayload pack with
          | Err err => aret (Err err)
          | Ok (canonical, reportHash) =>
              t ← anow e;
              aret match rs_SignReport signer t reportHash canonical with
                   | Err err => Err err
                   | Ok sig =>
                       let sig := if sg_PayloadHash sig =s ""
                         then mkSignature (sg_Scheme sig) (sg_KeyID sig) (sg_SignedAt sig) reportHash
                                (sg_SignatureB64 sig) (sg_Verifier sig) else sig in
                       Ok (with_hash pack reportHash [sig])
                   end
          end
      end
  end.
End Service.

(** ** Rendering *)

(** The digits of a number, in the buffer of twenty bytes, on 64-bit integers. *)
Fixpoint digits_loop (fuel : nat) (i : Z) (acc : string) : string :=
  match fuel with
  | O => acc
  | S fuel => if Z.leb i 0 then acc
              else digits_loop fuel (i / 10) (String (Ascii.ascii_of_N (Z.to_N (48 + i mod 10))) acc)
  end.
(* src/internal/reports/redact.go:87-107 strconvFormatInt *)
Definition strconvFormatInt (i : Z) : string :=
  if Z.eqb i 0 then "0"
  else
    let neg := Z.ltb i 0 in
    let i := if neg then wrap64 (- i) else i in
    let digits := digits_loop 20 i "" in
    if neg then "-" +:+ digits else digits.

(* src/internal/reports/redact.go:62-84 canonicalScalar *)
Definition canonicalScalar `{ReportJson} (v : fact) : string :=
  match v with
  | FStr x => x
  | FBool x => if x then "true" else "false"
  | FInt x => strconvFormatInt x
  | FMap x => json_labels x
  end.

(* src/internal/reports/render.go:133-140 sortedFactKeys *)
Definition sortedFactKeys (facts : gmap string fact) : list string := sorted_keys facts.

(* src/internal/reports/render.go:152-162 neutralizeCSVCell *)
Definition neutralizeCSVCell (cell : string) : string :=
  match cell with
  | "" => cell
  | String c _ => if in_set [61; 43; 45; 64; 9; 13]%N c then "'" +:+ cell else cell
  end.
(* src/internal/reports/render.go:144-150 NeutralizeCSVRecord *)
Definition NeutralizeCSVRecord (record : list string) : list string := map neutralizeCSVCell record.

Definition by_order (a b : EvidenceSection) : bool := Z.ltb (es_Order a) (es_Order b).
Definition by_item_id (a b : EvidenceItem) : bool := ei_ID a <s ei_ID b.
Definition show_time (t : option Time) : string := match t with None => "" | Some t => RFC3339Nano t end.

Section Render.
Context `{ReportJson}.
Definition csv_columns : list string :=
  ["section_id"; "item_id"; "resource"; "resource_id"; "observed_at"; "severity"; "summary"; "key"; "value";
   "content_hash"; "redacted"].
(** The records of an item, one per fact. *)
Definition item_records (sec : EvidenceSection) (i : EvidenceItem) : list (list string) :=
  let keys := match sortedFactKeys (ei_Facts i) with [] => [""] | l => l end in
  map (fun k => NeutralizeCSVRecord
    [es_ID sec; ei_ID i; ei_Resource i; ei_ResourceID i; show_time (ei_ObservedAt i); ei_Severity i;
     ei_Summary i; k;
     (if k <>s "" then match ei_Facts i !! k with Some v => canonicalScalar v | None => "" end else "");
     ei_ContentHash i; (if ei_Redacted i then "true" else "false")]) keys.
Definition csv_records (pack : EvidencePack) : list (list string) :=
  flat_map (fun sec => flat_map (item_records sec) (sort_by by_item_id (es_Items sec)))
    (sort_by by_order (pk_Sections pack)).

(** [encoding/csv]: a field is quoted when it holds a comma, a quote, a line
    break, starts with a blank, or is the text that ends a PostgreSQL copy. *)
Definition quote1 := bytes [34]%N.
Definition needs_quotes (field : string) : bool :=
  if field =s "" then false
  else if field =s bytes [92; 46]%N then true
  else ContainsAny field [44; 34; 13; 10]%N
       || match strip_one space_encodings field with Some _ => true | None => false end.
Fixpoint double_quotes (s : string) : string :=
  match s with
  | "" => ""
  | String c s' => if N.eqb (code c) 34 then quote1 +:+ quote1 +:+ double_quotes s' else String c (double_quotes s')
  end.
Definition csv_field (f : string) : string :=
  if needs_quotes f then quote1 +:+ double_quotes f +:+ quote1 else f.
Definition csv_line (record : list string) : string := Join "," (map csv_field record) +:+ bytes [10]%N.
(* src/internal/reports/render.go:56-86 RenderCSV *)
Definition RenderCSV (pack : EvidencePack) : string :=
  String.concat "" (map csv_line (csv_columns :: csv_records pack)).

Definition nl := bytes [10]%N.
Definition code_span (s : string) : string := "`" +:+ s +:+ "`".
Definition md_item (i : EvidenceItem) : string :=
  "- " +:+ code_span (ei_ID i) +:+ " " +:+ ei_Summary i
  +:+ match ei_ObservedAt i with Some t => " (" +:+ RFC3339Nano t +:+ ")" | None => "" end +:+ nl
  +:+ String.concat "" (map (fun k => "  - " +:+ k +:+ ": "
        +:+ code_span match ei_Facts i !! k with Some v => canonicalScalar v | None => "" end +:+ nl)
        (sortedFactKeys (ei_Facts i))).
Definition md_section (sec : EvidenceSection) : string :=
  "## " +:+ es_Title sec +:+ nl +:+ nl
  +:+ String.concat "" (map md_item (sort_by by_item_id (es_Items sec))) +:+ nl.
(* src/internal/reports/render.go:14-51 RenderMarkdown *)
Definition RenderMarkdown (pack : EvidencePack) : string :=
  "# Evidence Pack" +:+ nl +:+ nl
  +:+ "- schema_version: " +:+ code_span (pk_SchemaVersion pack) +:+ nl
  +:+ "- generated_at: " +:+ code_span (RFC3339Nano (pk_GeneratedAt pack)) +:+ nl
  +:+ "- inputs_hash: " +:+ code_span (pk_InputsHash pack) +:+ nl
  +:+ "- report_hash: " +:+ code_span (pk_ReportHash pack) +:+ nl +:+ nl
  +:+ match pk_Warnings pack with
      | [] => ""
      | ws => "## Warnings" +:+ nl +:+ nl
              +:+ String.concat "" (map (fun w => "- " +:+ code_span (rw_Code w) +:+ ": " +:+ rw_Message w +:+ nl) ws) +:+ nl
      end
  +:+ String.concat "" (map md_section (sort_by by_order (pk_Sections pack)))
  +:+ match pk_Signatures pack with
      | [] => ""
      | sigs => "## Signatures" +:+ nl +:+ nl
          +:+ String.concat "" (map (fun g => "- scheme: " +:+ code_span (sg_Scheme g) +:+ ", verifier: "
                +:+ code_span (sg_Verifier g) +:+ ", payload_hash: " +:+ code_span (sg_PayloadHash g) +:+ ", key_id: "
                +:+ code_span (sg_KeyID g) +:+ nl) sigs)
      end.

(** ** PDF *)

(** The body of a PDF: the objects, their offsets, the table and the trailer. *)
Fixpoint pdf_objects (pos : nat) (objects : list string) : list nat :=
  match objects with [] => [] | o :: rest => pos :: pdf_objects (pos + String.length o) rest end.
Definition pdf_header := "%PDF-1.4" +:+ nl.
(* src/internal/reports/render.go:117-130 RenderPDFMinimal *)
Definition pdf_document (objects : list string) : string :=
  let body := pdf_header +:+ String.concat "" objects in
  let offsets := pdf_objects (String.length pdf_header) objects in
  body +:+ "xref" +:+ nl +:+ "0 " +:+ Itoa (S (length objects)) +:+ nl +:+ "0000000000 65535 f " +:+ nl
  +:+ String.concat "" (map (fun o => Models.pad 10 (Z.of_nat o) +:+ " 00000 n " +:+ nl) offsets)
  +:+ "trailer << /Size " +:+ Itoa (S (length objects)) +:+ " /Root 1 0 R >>" +:+ nl +:+ "startxref" +:+ nl
  +:+ Itoa (String.length body) +:+ nl +:+ "%%EOF" +:+ nl.
(* src/internal/reports/render.go:110-116 RenderPDFMinimal *)
Definition page_objects (stream : string) : list string :=
  ["1 0 obj << /Type /Catalog /Pages 2 0 R >> endobj" +:+ nl;
   "2 0 obj << /Type /Pages /Kids [3 0 R] /Count 1 >> endobj" +:+ nl;
   "3 0 obj << /Type /Page /Parent 2 0 R /MediaBox [0 0 612 792] /Resources << /Font << /F1 4 0 R >> >> " +:+
     "/Contents 5 0 R >> endobj" +:+ nl;
   "4 0 obj << /Type /Font /Subtype /Type1 /BaseFont /Helvetica >> endobj" +:+ nl;
   "5 0 obj << /Length " +:+ Itoa (String.length stream) +:+ " >> stream" +:+ nl +:+ stream +:+ nl
     +:+ "endstream endobj" +:+ nl].

(** [strings.ReplaceAll] of one character. *)
Fixpoint replace_char (c : Ascii.ascii) (by_ s : string) : string :=
  match s with
  | "" => ""
  | String d s' => if Ascii.eqb d c then by_ +:+ replace_char c by_ s' else String d (replace_char c by_ s')
  end.
Definition backslash := bytes [92]%N.
(* src/internal/reports/render.go:91-93 RenderPDFMinimal *)
Definition escapePDF (s : string) : string :=
  replace_char ")" (backslash +:+ ")") (replace_char "(" (backslash +:+ "(")
    (replace_char (Ascii.ascii_of_N 92) (backslash +:+ backslash) s)).

Definition show_line (i : nat) (line : string) : string :=
  (if Nat.ltb 0 i then "0 -14 Td " else "") +:+ "(" +:+ take_str 100 line +:+ ") Tj ".
(** The loop stops after the fiftieth line. *)
(* src/internal/reports/render.go:95-109 RenderPDFMinimal *)
Definition pdf_stream (lines : list string) : string :=
  "BT /F1 10 Tf 50 780 Td " +:+ String.concat "" (imap show_line (take 50 lines)) +:+ "ET".
(* src/internal/reports/render.go:89-94 RenderPDFMinimal *)
Definition RenderPDFMinimal (pack : EvidencePack) : string :=
  let text := escapePDF (RenderMarkdown pack) in
  pdf_document (page_objects (pdf_stream (Split text (Ascii.ascii_of_N 10)))).
End Render.

(** ** Theorems *)

(** What every run of a request ends with. *)
Definition always {A} (P : A -> Prop) (m : AM A) : Prop := forall a, P (m a).2.

Lemma always_ret {A} (P : A -> Prop) x : P x -> always P (aret x).
Proof. by intros Hx a. Qed.
Lemma always_bind {A B} (Q : A -> Prop) (P : B -> Prop) (m : AM A) (f : A -> AM B) :
  always Q m -> (forall x, Q x -> always P (f x)) -> always P (abind m f).
Proof. intros Hm Hf a. unfold abind. specialize (Hm a). destruct (m a) as [a' x]. by apply Hf. Qed.
Lemma always_any {A} (m : AM A) : always (fun _ => True) m.
Proof. by intros a. Qed.
Lemma always_each {A B} (P : B -> Prop) (f : A -> AM B) l :
  (forall x, always P (f x)) -> always (Forall P) (each f l).
Proof.
  intros Hf. induction l as [|x l IH]; [by intros a; constructor|]. cbn [each].
  eapply always_bind; [apply Hf|]. intros y Hy. eapply always_bind; [apply IH|]. intros ys Hys.
  apply always_ret. by constructor.
Qed.

Section Facts.
Context `{UnicodeTables} `{TimestampColumn} `{Alerts.Collation} `{ReportJson}.

(** *** Redaction *)

(** No pattern finds anything in the texts a sanitized message can be. *)
Lemma redact_safe s : safe (RedactString s).
Proof.
  unfold RedactString.
  assert (forall t, t ∈ safe_messages ->
    foldl (fun out r => ReplaceAllString r out (fun _ => "[REDACTED]")) t redactionPatterns = t) as Hfix.
  { apply Forall_forall. repeat (constructor; [vm_compute; reflexivity|]). constructor. }
  pose proof (sanitize_safe s) as Hs. unfold safe in *. by rewrite Hfix.
Qed.

(** A fact whose texts all come from the fixed list. *)
Definition clean_fact (v : fact) : Prop :=
  match v with
  | FStr s => safe s \/ s = "[REDACTED]"
  | FMap m => forall k x, m !! k = Some x -> safe x
  | _ => True
  end.
Definition clean_item (i : EvidenceItem) : Prop :=
  safe (ei_Summary i) /\ forall k v, ei_Facts i !! k = Some v -> clean_fact v.
Definition clean_section (s : EvidenceSection) : Prop := Forall clean_item (es_Items s).

Lemma redact_fact_clean k v : clean_fact (redact_fact k v).
Proof.
  unfold redact_fact. destruct (secret_key k); [by right|]. destruct v as [x| | |m]; cbn; [|done..|].
  - left. apply redact_safe.
  - intros j x. rewrite lookup_fmap. intros (y & _ & ->)%fmap_Some. apply redact_safe.
Qed.

Lemma item_clean p i r rid t sev sum facts ch b : clean_item (item p i r rid t sev sum facts ch b).
Proof.
  split; [apply redact_safe|]. intros k v Hk. cbn [item ei_Facts] in Hk. unfold redactFacts in Hk.
  rewrite map_lookup_imap in Hk. destruct (facts !! k); [|done]. injection Hk as <-. apply redact_fact_clean.
Qed.

Lemma map_items_clean {A} (f : A -> EvidenceItem) l : (forall x, clean_item (f x)) -> Forall clean_item (map f l).
Proof. intros Hf. apply Forall_forall. by intros i (x & -> & _)%list_elem_of_fmap. Qed.

Lemma rollback_item_clean wl h t : clean_item (rollback_item wl h t).
Proof. destruct t; apply item_clean. Qed.

(** *** The sections of a pack *)

Definition head_of (s : EvidenceSection) : string * Z := (es_ID s, es_Order s).
Definition described (h : string * Z) (s : EvidenceSection) : Prop := head_of s = h /\ clean_section s.

Definition picked (table : list (bool * (string * Z))) : list (string * Z) := (List.filter fst table).*2.
Lemma picked_cons (b : bool) h table : picked ((b, h) :: table) = (if b then [h] else []) ++ picked table.
Proof. by destruct b. Qed.
Lemma picked_sorted (R : string * Z -> string * Z -> Prop) table :
  StronglySorted R table.*2 -> StronglySorted R (picked table).
Proof.
  induction table as [|[b h] table IH]; intros Hs; [constructor|]. cbn in Hs. rewrite picked_cons.
  inversion Hs as [|? ? Ht Hh]; subst. destruct b; [|by apply IH]. constructor; [by apply IH|].
  rewrite Forall_forall in Hh |- *. intros x ((c & y) & -> & Hin)%list_elem_of_fmap. apply Hh.
  apply list_elem_of_In, filter_In in Hin as [Hin%list_elem_of_In _]. apply list_elem_of_fmap. by exists (c, y).
Qed.

(** The sections a request asks for, with their ranks. *)
Definition section_table (o : ReportIncludeOptions) : list (bool * (string * Z)) :=
  [(in_WorkloadSummary o, ("workloads", 10%Z)); (in_ConfigHistory o, ("config_history", 20%Z));
   (in_CurrentConfig o, ("current_config", 25%Z)); (in_DriftFindings o, ("drift", 30%Z));
   (in_VersionIntelligence o, ("version_intelligence", 40%Z)); (in_Alerts o, ("alerts", 50%Z));
   (in_WorkloadEvents o, ("workload_events", 60%Z)); (in_RollbackReadiness o, ("rollback_readiness", 70%Z));
   (in_AuditVerification o, ("audit_verification", 80%Z))].
Definition requested_sections (o : ReportIncludeOptions) : list (string * Z) := picked (section_table o).

Lemma each_concat_clean {A} id title o (f : A -> AM (list EvidenceItem)) l :
  (forall x, always (Forall clean_item) (f x)) ->
  always (described (id, o)) (abind (each f l) (fun items => aret (mkSection id title o (concat items)))).
Proof.
  intros Hf. eapply always_bind; [by apply always_each|]. intros items Hi. apply always_ret.
  split; [done|]. unfold clean_section. cbn [es_Items]. induction Hi; cbn; [constructor|]. by apply Forall_app.
Qed.

Lemma section_if_described h (b : bool) m l acc : always (described h) m -> Forall2 described l acc ->
  always (Forall2 described (l ++ if b then [h] else [])) (section_if b m acc).
Proof.
  intros Hm Hacc. unfold section_if. destruct b.
  - eapply always_bind; [exact Hm|]. intros sec Hs. apply always_ret. apply Forall2_app; [done|].
    apply Forall2_cons_2; [done|apply Forall2_nil_2].
  - apply always_ret. by rewrite app_nil_r.
Qed.

Ltac items := apply map_items_clean; intros; apply item_clean.
Ltac past_queries := repeat (eapply always_bind; [apply always_any|]; intros ? _).

Lemma history_clean (e : aenv) wl : always (Forall clean_item) (history_items e wl).
Proof. unfold history_items. past_queries. apply always_ret. case_match; [items|constructor]. Qed.
Lemma current_clean (e : aenv) wl : always (Forall clean_item) (current_items e wl).
Proof.
  unfold current_items. past_queries. apply always_ret. repeat case_match; try apply Forall_nil_2.
  apply Forall_singleton, item_clean.
Qed.
Lemma event_clean (e : aenv) since wl : always (Forall clean_item) (event_items e since wl).
Proof. unfold event_items. past_queries. apply always_ret. case_match; [items|constructor]. Qed.
Lemma alerts_described (e : aenv) alerts : always (described ("alerts", 50%Z)) (alertSection e alerts).
Proof.
  unfold alertSection. past_queries. apply always_ret. split; [done|].
  unfold clean_section. cbn [es_Items]. case_match; [items|constructor].
Qed.
Lemma rollback_described (e : aenv) ws :
  always (described ("rollback_readiness", 70%Z)) (rollbackReadinessSection e ws).
Proof.
  unfold rollbackReadinessSection. eapply always_bind; [apply (always_each clean_item)|].
  - intros wl. unfold rollback_readiness. past_queries. apply always_ret, rollback_item_clean.
  - intros items Hi. by apply always_ret.
Qed.

Lemma sections_described (e : aenv) alerts req ws :
  always (Forall2 described (requested_sections (rx_Include req))) (collect_sections e alerts req ws).
Proof.
  unfold collect_sections, requested_sections, section_table. set (o := rx_Include req). cbn zeta.
  rewrite !picked_cons.
  eapply always_bind.
  { apply (section_if_described ("workloads", 10%Z) _ _ []); [apply always_ret; split; [done|items]|constructor]. }
  intros s1 Hs. eapply always_bind.
  { apply section_if_described; [apply each_concat_clean, history_clean|exact Hs]. }
  clear Hs. intros s2 Hs. eapply always_bind.
  { apply section_if_described; [apply each_concat_clean, current_clean|exact Hs]. }
  clear Hs. intros s3 Hs. eapply always_bind.
  { apply (section_if_described ("drift", 30%Z)); [apply always_ret; split; [done|items]|exact Hs]. }
  clear Hs. intros s4 Hs. eapply always_bind.
  { apply (section_if_described ("version_intelligence", 40%Z)); [apply always_ret; split; [done|items]|exact Hs]. }
  clear Hs. intros s5 Hs. eapply always_bind.
  { apply section_if_described; [apply alerts_described|exact Hs]. }
  clear Hs. intros s6 Hs. eapply always_bind.
  { apply section_if_described; [apply each_concat_clean, event_clean|exact Hs]. }
  clear Hs. intros s7 Hs. eapply always_bind.
  { apply section_if_described; [apply rollback_described|exact Hs]. }
  clear Hs. intros s8 Hs.
  pose proof (section_if_described ("audit_verification", 80%Z) (in_AuditVerification o)
    (aret auditVerificationSection) _ _ ltac:(apply always_ret; split; [done|]; apply Forall_singleton, item_clean)
    Hs) as Hf.
  cbn [app] in Hf. change (picked []) with (@nil (string * Z)). by rewrite app_nil_r, <-!app_assoc in *.
Qed.

Lemma requested_sorted o :
  StronglySorted (fun x y => by_key snd Z.compare x y <> Gt) (requested_sections o).
Proof.
  apply picked_sorted. cbn.
  repeat first [apply SSorted_nil | apply SSorted_cons | apply Forall_nil_2 | apply Forall_cons_2; [done|]].
Qed.

Definition order_cmp : EvidenceSection -> EvidenceSection -> comparison := by_key es_Order Z.compare.

Lemma described_heads l secs : Forall2 described l secs ->
  map head_of secs = l /\ Forall clean_section secs.
Proof.
  induction 1 as [|h s l secs [Hh Hc] _ [IH1 IH2]]; [by split; [|constructor]|].
  split; [cbn; by rewrite Hh, IH1|by constructor].
Qed.

Lemma sorted_by_rank l secs : Forall2 described l secs ->
  StronglySorted (fun x y => by_key snd Z.compare x y <> Gt) l ->
  sort_by (fun a b => Z.ltb (es_Order a) (es_Order b)) secs = secs.
Proof.
  intros Hd Hs. rewrite (sort_by_ext _ (less_of order_cmp)).
  2:{ intros x y. unfold less_of, order_cmp, by_key, Z.ltb. by destruct (_ ?= _)%Z. }
  apply sort_by_id; [apply _|]. induction Hd as [|h s l secs [Hh _] Hd IH]; [constructor|].
  inversion Hs as [|? ? Hs' Hf]; subst. constructor; [by apply IH|]. clear IH Hs Hs'.
  induction Hd as [|h' s' l secs [Hh' _] _ IH]; constructor.
  - inversion Hf; subst. done.
  - apply IH. by inversion Hf.
Qed.

(** A pack that was built, with the request it answers. *)
Lemma built_pack (e : aenv) signer alerts req a a' pack :
  BuildEvidencePack e signer alerts req a = (a', Ok pack) ->
  exists req' sections canonical h sig,
    NormalizeRequest req = Ok req' /\ Forall2 described (requested_sections (rx_Include req')) sections /\
    pk_Sections pack = sections /\ canonicalReportPayload (with_hash pack "" []) = Ok (canonical, h) /\
    pk_ReportHash pack = h /\ pk_Signatures pack = [sig] /\ sg_PayloadHash sig <> "".
Proof.
  unfold BuildEvidencePack. destruct (NormalizeRequest req) as [req'|]; [|by intros [=]].
  unfold abind at 1. destruct (resolveWorkloads e (rx_Scope req') a) as [a1 [ws|]]; [|by intros [=]].
  unfold abind at 1. destruct (anow e a1) as [a2 now]. unfold abind at 1.
  pose proof (sections_described e alerts req' ws a2) as Hd.
  destruct (collect_sections e alerts req' ws a2) as [a3 secs]. cbn [snd] in Hd. cbn zeta.
  rewrite (sorted_by_rank _ _ Hd (requested_sorted _)).
  set (p := mkPack _ _ _ _ _ _ _ _). destruct (canonicalReportPayload p) as [[canonical h]|] eqn:Ec; [|by intros [=]].
  unfold abind. destruct (anow e a3) as [a4 t]. destruct (rs_SignReport signer t h canonical) as [sig|] eqn:Es; [|by intros [=]].
  intros [= <- <-]. eexists req', secs, canonical, h, _. split_and!; [done..|].
  assert (h <> "") as Hh.
  { unfold canonicalReportPayload in Ec. destruct (json_pack _); [|done]. injection Ec as _ <-. intros E.
    apply (f_equal String.length) in E. rewrite hex_encode_length, Sum256_length in E. done. }
  destruct (String.eqb_spec (sg_PayloadHash sig) ""); done.
Qed.


(** the digest of a delivered pack can be recomputed from it: hashing its
    canonical form, digest and signatures cleared, gives the digest it carries, and
    it carries one signature with a payload digest. *)
Theorem evidence_digest_recomputes (e : aenv) signer alerts req a a' pack :
  BuildEvidencePack e signer alerts req a = (a', Ok pack) ->
  (exists canonical, canonicalReportPayload pack = Ok (canonical, pk_ReportHash pack)) /\
  exists sig, pk_Signatures pack = [sig] /\ sg_PayloadHash sig <> "".
Proof.
  intros (req' & secs & canonical & h & sig & _ & _ & _ & Hc & -> & Hs & Hp)%built_pack.
  split; [exists canonical; exact Hc|by exists sig].
Qed.

(** *** CSV *)

Definition formula_start (cell : string) : bool :=
  match cell with "" => false | String c _ => in_set [61; 43; 45; 64; 9; 13]%N c end.

(** no cell a report writes into a CSV file starts with a character that a
    spreadsheet takes for a formula. *)
Theorem csv_cells_are_not_formulas pack :
  Forall (Forall (fun cell => formula_start cell = false)) (csv_records pack).
Proof.
  apply Forall_forall. intros record Hr. unfold csv_records in Hr.
  apply list_elem_of_In, in_flat_map in Hr as (sec & _ & Hr). apply in_flat_map in Hr as (i & _ & Hr).
  unfold item_records in Hr. apply in_map_iff in Hr as (k & <- & _).
  apply Forall_forall. unfold NeutralizeCSVRecord. intros cell (x & -> & _)%list_elem_of_fmap.
  destruct x as [|c x]; [done|]. unfold neutralizeCSVCell. destruct (in_set _ c) eqn:E; [done|exact E].
Qed.

(** *** Numbers *)

Lemma digit_code d : (0 <= d < 10)%Z -> let c := Ascii.ascii_of_N (Z.to_N (48 + d)) in
  is_digit c = true /\ Z.of_N (code c - 48) = d.
Proof.
  intros Hd. cbn zeta. unfold is_digit, code. rewrite Ascii.N_ascii_embedding by lia.
  split; [apply andb_true_iff; rewrite !N.leb_le; lia|lia].
Qed.

Lemma digits_loop_spec fuel i acc : (0 <= i < 10 ^ Z.of_nat fuel)%Z ->
  all_digits (digits_loop fuel i acc) = all_digits acc /\
  digits_val 0 (digits_loop fuel i acc) = digits_val i acc.
Proof.
  revert i acc. induction fuel as [|fuel IH]; intros i acc Hi; cbn [digits_loop].
  { rewrite Nat2Z.inj_0, Z.pow_0_r in Hi. by replace i with 0%Z by lia. }
  destruct (Z.leb_spec i 0); [by replace i with 0%Z by lia|].
  destruct (digit_code (i mod 10) ltac:(apply Z.mod_pos_bound; lia)) as [Hd Hv].
  rewrite Nat2Z.inj_succ, Z.pow_succ_r in Hi by lia.
  destruct (IH (i / 10)%Z (String (Ascii.ascii_of_N (Z.to_N (48 + i mod 10))) acc)) as [IH1 IH2].
  { split; [apply Z.div_pos; lia|apply Z.div_lt_upper_bound; lia]. }
  rewrite IH1, IH2. cbn [all_digits digits_val]. rewrite Hd, Hv. split; [done|].
  f_equal. rewrite Z.mul_comm. symmetry. apply Z.div_mod. done.
Qed.

Lemma digits_parse i : (0 < i < 2 ^ 63)%Z -> let d := digits_loop 20 i "" in
  d <> "" /\ all_digits d = true /\ digits_val 0 d = i.
Proof.
  intros Hi. cbn zeta. destruct (digits_loop_spec 20 i "") as [Ha Hv]; [change (Z.of_nat 20) with 20%Z; lia|].
  split_and!; [|exact Ha|exact Hv]. intros E. rewrite E in Hv. cbn in Hv. lia.
Qed.

(** a number is rendered so that it reads back: on every 64-bit integer but
    the least one, which is rendered as a lone minus sign. *)
Theorem rendered_int_reads_back i : (min_int64 <= i <= max_int64)%Z ->
  (i <> min_int64 -> Atoi (strconvFormatInt i) = (i, true)) /\
  (i = min_int64 -> strconvFormatInt i = "-").
Proof.
  intros Hi. unfold strconvFormatInt, min_int64, max_int64 in *. split; [|by intros ->].
  intros Hmin. destruct (Z.eqb_spec i 0) as [->|H0]; [done|].
  destruct (Z.ltb_spec i 0) as [Hneg|Hpos].
  - assert (wrap64 (- i) = (- i)%Z) as -> by (apply wrap64_id; unfold min_int64, max_int64; lia).
    destruct (digits_parse (- i)%Z ltac:(lia)) as (Hne & Hd & Hv). set (d := digits_loop 20 (- i) "") in *.
    unfold Atoi. change ("-" +:+ d) with (String "-" d). cbv beta iota.
    rewrite (proj2 (String.eqb_neq _ _) Hne), Hd, Hv. cbn [negb orb].
    destruct (Z.ltb_spec (2 ^ 63) (- i)); [lia|]. f_equal. lia.
  - destruct (digits_parse i ltac:(lia)) as (Hne & Hd & Hv). set (d := digits_loop 20 i "") in *.
    rewrite Atoi_digits, Hv; [done|done|done|]. unfold max_int64. lia.
Qed.

(** *** PDF *)

Lemma concat_cons a l : String.concat "" (a :: l) = a +:+ String.concat "" l.
Proof. destruct l; cbn; [by rewrite str_app_nil_r|done]. Qed.

Lemma objects_at pre objects tail :
  Forall2 (fun o obj => HasPrefix (drop_str o (pre +:+ String.concat "" objects +:+ tail)) obj = true)
    (pdf_objects (String.length pre) objects) objects.
Proof.
  revert pre. induction objects as [|obj objects IH]; intros pre; cbn [pdf_objects]; [constructor|].
  rewrite concat_cons. constructor.
  - rewrite drop_str_app, str_app_assoc. apply HasPrefix_app.
  - specialize (IH (pre +:+ obj)). rewrite str_length_app, str_app_assoc in IH. by rewrite str_app_assoc.
Qed.

(** the cross-reference table of a rendered PDF is right: every offset it
    lists is where its object starts, and the start it announces is where the
    table starts. *)
Theorem pdf_offsets_are_right objects :
  let doc := pdf_document objects in
  let body := pdf_header +:+ String.concat "" objects in
  Forall2 (fun o obj => HasPrefix (drop_str o doc) obj = true)
    (pdf_objects (String.length pdf_header) objects) objects /\
  HasPrefix (drop_str (String.length body) doc) "xref" = true.
Proof.
  cbn zeta. unfold pdf_document. cbn zeta. split.
  - rewrite str_app_assoc. apply objects_at.
  - rewrite drop_str_app. apply HasPrefix_app.
Qed.

(** A literal string of a PDF up to its closing bracket: inner brackets nest, a
    backslash takes the next bracket or backslash as it is. *)
Fixpoint read_literal (depth : nat) (s : string) : option (string * string) :=
  match s with
  | "" => None
  | String c s' =>
      if N.eqb (code c) 92 then
        match s' with
        | String d s'' => if in_set [92; 40; 41]%N d
                          then match read_literal depth s'' with Some (t, r) => Some (String d t, r) | None => None end
                          else None
        | "" => None
        end
      else if N.eqb (code c) 41 then
        match depth with
        | O => Some ("", s')
        | S depth => match read_literal depth s' with Some (t, r) => Some (String c t, r) | None => None end
        end
      else match read_literal (if N.eqb (code c) 40 then S depth else depth) s' with
           | Some (t, r) => Some (String c t, r)
           | None => None
           end
  end.

Lemma replace_char_app c b x y : replace_char c b (x +:+ y) = replace_char c b x +:+ replace_char c b y.
Proof.
  induction x as [|d x IH]; [done|]. change (String d x +:+ y) with (String d (x +:+ y)). cbn [replace_char].
  rewrite IH. destruct (Ascii.eqb d c); [by rewrite str_app_assoc|done].
Qed.

Definition escape_one (c : Ascii.ascii) : string :=
  if in_set [92; 40; 41]%N c then backslash +:+ String c "" else String c "".

Lemma escapePDF_cons c s : escapePDF (String c s) = escape_one c +:+ escapePDF s.
Proof.
  assert (escapePDF (String c s) = escapePDF (String c "") +:+ escapePDF s) as ->.
  { unfold escapePDF. change (String c s) with (String c "" +:+ s). by rewrite !replace_char_app. }
  f_equal. apply String.eqb_eq. revert c. apply (forall_ascii (fun c => escapePDF (String c "") =s escape_one c)).
  vm_compute. reflexivity.
Qed.

(** an escaped text between brackets is one literal of the PDF, and it reads
    back as the text: no character of a report closes the literal early. *)
Theorem escaped_text_reads_back s rest : read_literal 0 (escapePDF s +:+ ")" +:+ rest) = Some (s, rest).
Proof.
  induction s as [|c s IH]; [done|]. rewrite escapePDF_cons, str_app_assoc. unfold escape_one.
  destruct (in_set [92; 40; 41]%N c) eqn:E.
  - change (read_literal 0 (String (Ascii.ascii_of_N 92) (String c (escapePDF s +:+ ")" +:+ rest))) = Some (String c s, rest)).
    cbn [read_literal]. rewrite E. change (N.eqb (code (Ascii.ascii_of_N 92)) 92) with true. cbv iota.
    by rewrite IH.
  - change (read_literal 0 (String c (escapePDF s +:+ ")" +:+ rest)) = Some (String c s, rest)).
    cbn [in_set existsb] in E. rewrite !orb_false_iff in E. destruct E as (E1 & E2 & E3 & _).
    cbn [read_literal]. rewrite E1, E2, E3. by rewrite IH.
Qed.

End Facts.

(** ** Concrete runs *)

#[local] Existing Instance byte_tables.
#[local] Existing Instance microseconds.
#[local] Existing Instance Alerts.byte_collation.

Definition plain_json : ReportJson :=
  {| json_inputs _ ids _ := Ok (Join "," ids); json_pack p := Ok (pk_SchemaVersion p); json_labels _ := "{}" |}.
#[local] Existing Instance plain_json.

Definition one_workload : ReportExportRequest :=
  mkRequest "" "" (mkScope ["w"] "" ∅ None None) (mkInclude false false false false false false false false false false false) "".
(** An alert of a workload outside the scope of the request. *)
Definition other_alert : gmap string Alert := {["x" := mkAlert "x" "other" "config_drift" "warning" "m" 5 None]}.
Definition sample_pack : api * result EvidencePack :=
  BuildEvidencePack (Approvals.alone None) NopReportSigner other_alert one_workload Approvals.sample_api.
Definition sample_pack_of : EvidencePack := match sample_pack.2 with Ok p => p | Err _ => mkPack "" 0 "" "" (mkResolved [] 0 "" ∅ None None) [] [] [] end.

Lemma sample_pack_ok :
  BuildEvidencePack (Approvals.alone None) NopReportSigner other_alert one_workload Approvals.sample_api =
  (sample_pack.1, Ok sample_pack_of).
Proof.
  fold sample_pack. assert (is_ok sample_pack.2 = true) as Hok by (vm_compute; reflexivity).
  unfold sample_pack_of. destruct sample_pack as [a [p|]]; [done|]. cbn in Hok. done.
Qed.
#[local] Opaque sample_pack sample_pack_of.


Lemma evidence_digest_recomputes_witness :
  exists canonical, canonicalReportPayload sample_pack_of = Ok (canonical, pk_ReportHash sample_pack_of).
Proof.
  exact (proj1 (evidence_digest_recomputes (Approvals.alone None) NopReportSigner other_alert one_workload
    Approvals.sample_api sample_pack.1 sample_pack_of sample_pack_ok)).
Defined.

Lemma rendered_int_reads_back_witness :
  Atoi (strconvFormatInt (-120)) = ((-120)%Z, true) /\ strconvFormatInt min_int64 = "-".
Proof.
  split.
  - apply (rendered_int_reads_back (-120)); unfold min_int64, max_int64; lia.
  - apply (rendered_int_reads_back min_int64); unfold min_int64, max_int64; lia.
Defined.

(** The alerts of a pack are those of the whole fleet, whatever the scope. *)
Example alerts_ignore_the_scope :
  rs_WorkloadIDs (pk_Scope sample_pack_of) = ["w"] /\
  map (fun s => (es_ID s, map ei_ID (es_Items s))) (List.filter (fun s => es_ID s =s "alerts") (pk_Sections sample_pack_of))
    = [("alerts", ["alert:x"])].
Proof. split; vm_compute; reflexivity. Qed.

(** A display name, a version and a status are all replaced by the text for
    errors of agents. *)
Example plain_texts_are_redacted :
  map RedactString ["api (collector) is connected"; "0.99.0"; "connected"] =
    ["Remote config error details redacted"; "Remote config error details redacted";
     "Remote config error details redacted"].
Proof. vm_compute. reflexivity. Qed.

(** A line is cut after it has been escaped: when the cut falls behind the
    backslash of an escaped bracket, the bracket that should close the literal is
    taken as text. *)
Example cut_breaks_an_escape :
  let line := String.concat "" (replicate 99 "a") +:+ "(b" in
  read_literal 0 (take_str 100 (escapePDF line) +:+ ") Tj ET") = None.
Proof. vm_compute. reflexivity. Qed.

End Evidence.
