(* ===== verification/SafetyReport.v ===== *)
(** * Report handlers (internal/api/reports.go, pkg/models/evidence_report.go)

    The preview and the export of evidence packs, and the config safety report:
    its scope, the evidence collected per collector, its order, its identifier and
    digest, and its renderings. *)

From S2P Require Import Prelude GoString Models PushStatus Registry Sha256 Alerts Regex.
From S2P Require Import Validator Yaml ConfigPolicy Access Store PushHistory OpampServer.
From S2P Require Import Version Api Approvals WorkloadApi Fleet ConfigDrift FleetVersions Evidence.
Import Sha256.Sha256 PushStatus.PushStatus Registry Access Store.Store PushHistory OpampServer Api Fleet
  Evidence.

Module SafetyReport.

(** ** Records *)

(* src/pkg/models/evidence_report.go:27-34 EvidenceReportSummary *)
Record EvidenceReportSummary := mkSummary {
  su_ConfigChanges : Z; su_ValidationFailures : Z; su_Rollbacks : Z; su_DriftedCollectors : Z;
  su_OutdatedCollectors : Z; su_AuditEvents : Z
}.
(* src/pkg/models/evidence_report.go:37-47 EvidenceConfigChange *)
Record EvidenceConfigChange := mkChange {
  ec_WorkloadID : string; ec_DisplayName : string; ec_ConfigHash : string; ec_PreviousHash : string;
  ec_Status : string; ec_PushedBy : string; ec_AppliedAt : Time; ec_ContentAvailable : bool;
  ec_DiffSummary : string
}.
(* src/pkg/models/evidence_report.go:50-57 EvidenceValidationFailure *)
Record EvidenceValidationFailure := mkFailure {
  vf_WorkloadID : string; vf_DisplayName : string; vf_ConfigHash : string; vf_Status : string;
  vf_Error : string; vf_OccurredAt : Time
}.
(* src/pkg/models/evidence_report.go:60-67 EvidenceRollback *)
Record EvidenceRollback := mkRollback {
  eb_WorkloadID : string; eb_DisplayName : string; eb_ConfigHash : string; eb_RollbackOfPushID : string;
  eb_Status : string; eb_OccurredAt : Time
}.
(* src/pkg/models/evidence_report.go:70-76 EvidenceAuditTrailEntry *)
Record EvidenceAuditTrailEntry := mkTrail {
  at_Action : string; at_Resource : string; at_ResourceID : string; at_Detail : string; at_At : Time
}.
(* src/pkg/models/evidence_report.go:82-88 EvidenceReportSignature *)
Record EvidenceReportSignature := mkReportSignature {
  rg_Algorithm : string; rg_PayloadDigestSHA256 : string; rg_KeyID : string; rg_Signature : string;
  rg_VerificationHint : string
}.
(* src/pkg/models/evidence_report.go:11-24 EvidenceReport *)
Record EvidenceReport := mkReport {
  er_SchemaVersion : string; er_ReportID : string; er_GeneratedAt : Time; er_RecommendedVersion : string;
  er_Summary : EvidenceReportSummary; er_ConfigChanges : list EvidenceConfigChange;
  er_ValidationFailures : list EvidenceValidationFailure; er_Rollbacks : list EvidenceRollback;
  er_Drift : ConfigDrift.ConfigDriftDashboard;
  er_OutdatedCollectors : list FleetVersions.FleetCollectorVersionFinding;
  er_AuditTrail : list EvidenceAuditTrailEntry; er_Signature : EvidenceReportSignature
}.
Definition no_signature : EvidenceReportSignature := mkReportSignature "" "" "" "" "".

(** [json.Marshal] of a report. *)
Class SafetyJson := { json_report : EvidenceReport -> result string }.

Definition with_signature (r : EvidenceReport) (s : EvidenceReportSignature) : EvidenceReport :=
  mkReport (er_SchemaVersion r) (er_ReportID r) (er_GeneratedAt r) (er_RecommendedVersion r) (er_Summary r)
    (er_ConfigChanges r) (er_ValidationFailures r) (er_Rollbacks r) (er_Drift r) (er_OutdatedCollectors r)
    (er_AuditTrail r) s.
Definition with_id (r : EvidenceReport) (id : string) (trail : list EvidenceAuditTrailEntry) : EvidenceReport :=
  mkReport (er_SchemaVersion r) id (er_GeneratedAt r) (er_RecommendedVersion r) (er_Summary r)
    (er_ConfigChanges r) (er_ValidationFailures r) (er_Rollbacks r) (er_Drift r) (er_OutdatedCollectors r)
    trail (er_Signature r).

(** ** Evidence of one collector *)

(* src/internal/api/reports.go:341-351 configSafetyReportMatchesScope *)
Definition configSafetyReportMatchesScope (wl : Workload) (scope : ReportScope) : bool :=
  if (sc_GroupID scope <>s "") && (default "" (wl_Labels wl !! "group") <>s sc_GroupID scope) then false
  else forallb (fun kv => (default "" (wl_Labels wl !! kv.1) =s kv.2)
                          || (default "" (wl_FingerprintKeys wl !! kv.1) =s kv.2))
         (map_to_list (sc_Selector scope)).

Definition hide_content (c : WorkloadConfig) : WorkloadConfig :=
  mkWorkloadConfig (wc_WorkloadID c) (wc_ConfigID c) (wc_ConfigHash c) (wc_AppliedAt c) (wc_Status c)
    (wc_ErrorMessage c) (wc_PushedBy c) "" (wc_Label c) (wc_PushID c) (wc_SubmittedAt c) (wc_SentAt c)
    (wc_UpdatedAt c) (wc_OpAMPStatusTimeoutAt c) (wc_TimedOutWaiting c) (wc_TimeoutMessage c)
    (wc_RollbackOfPushID c) (wc_Timeline c) (wc_InstanceStatuses c) (wc_TargetCount c) (wc_AppliedCount c)
    (wc_FailedCount c) (wc_PendingCount c) (wc_TimedOutCount c) (wc_NoStatusCount c) (wc_ErrorGroups c)
    (wc_IsCurrent c) (wc_IsPrevious c) (wc_IsLastKnownGood c) (wc_IsFailedCandidate c) (wc_ConfigID c <>s "").

Section Collect.
Context `{UnicodeTables}.

(* src/internal/api/reports.go:353-362 sanitizedConfigHistory *)
Definition sanitizedConfigHistory (history : list WorkloadConfig) : list WorkloadConfig :=
  map (fun c => hide_content (SanitizeRemoteConfigErrors c)) history.

Definition change_of (wl : Workload) (cfg : WorkloadConfig) (older : list WorkloadConfig) : EvidenceConfigChange :=
  let prev := match older with c :: _ => wc_ConfigID c | [] => "" end in
  let diff := if (prev <>s "") && (prev <>s wc_ConfigID cfg) then "config hash changed"
              else if prev =s wc_ConfigID cfg then "config hash unchanged" else "initial config" in
  mkChange (wl_ID wl) (wl_DisplayName wl) (wc_ConfigID cfg) prev (wc_Status cfg) (wc_PushedBy cfg)
    (wc_AppliedAt cfg) (wc_ContentAvailable cfg) diff.
(* src/internal/api/reports.go:364-380 evidenceConfigChanges *)
Fixpoint evidenceConfigChanges (wl : Workload) (history : list WorkloadConfig) : list EvidenceConfigChange :=
  match history with
  | [] => []
  | cfg :: older => change_of wl cfg older :: evidenceConfigChanges wl older
  end.

Definition failed_push (cfg : WorkloadConfig) : bool :=
  negb ((wc_Status cfg <>s PushStatusFailed) && Z.eqb (wc_FailedCount cfg) 0 && (wc_ErrorMessage cfg =s "")).
(* src/internal/api/reports.go:382-391 evidenceValidationFailures *)
Definition evidenceValidationFailures (wl : Workload) (history : list WorkloadConfig)
  : list EvidenceValidationFailure :=
  map (fun cfg => mkFailure (wl_ID wl) (wl_DisplayName wl) (wc_ConfigID cfg) (wc_Status cfg)
                    (SanitizeRemoteConfigErrorMessage (wc_ErrorMessage cfg)) (wc_AppliedAt cfg))
    (List.filter failed_push history).

Definition is_rollback (cfg : WorkloadConfig) : bool :=
  HasPrefix (wc_Status cfg) "rollback_" || (wc_RollbackOfPushID cfg <>s "").
(* src/internal/api/reports.go:393-402 evidenceRollbacks *)
Definition evidenceRollbacks (wl : Workload) (history : list WorkloadConfig) : list EvidenceRollback :=
  map (fun cfg => mkRollback (wl_ID wl) (wl_DisplayName wl) (wc_ConfigID cfg) (wc_RollbackOfPushID cfg)
                    (wc_Status cfg) (wc_AppliedAt cfg))
    (List.filter is_rollback history).

(** ** Order, identifier and digest *)

(* src/internal/api/reports.go:420-422 evidenceTimeKey *)
Definition evidenceTimeKey (workloadID : string) (t : Time) : string :=
  workloadID +:+ bytes [0]%N +:+ RFC3339Nano t.

(* src/internal/api/reports.go:404-418 sortEvidenceReport *)
Definition sortEvidenceReport (r : EvidenceReport) : EvidenceReport :=
  let by_time {A} (f : A -> string) (x y : A) := f x <s f y in
  mkReport (er_SchemaVersion r) (er_ReportID r) (er_GeneratedAt r) (er_RecommendedVersion r) (er_Summary r)
    (sort_by (by_time (fun c => evidenceTimeKey (ec_WorkloadID c) (ec_AppliedAt c))) (er_ConfigChanges r))
    (sort_by (by_time (fun f => evidenceTimeKey (vf_WorkloadID f) (vf_OccurredAt f))) (er_ValidationFailures r))
    (sort_by (by_time (fun b => evidenceTimeKey (eb_WorkloadID b) (eb_OccurredAt b))) (er_Rollbacks r))
    (ConfigDrift.mkDashboard (ConfigDrift.cd_GeneratedAt (er_Drift r)) (ConfigDrift.cd_Summary (er_Drift r))
       (sort_by (by_time ConfigDrift.ci_WorkloadID) (ConfigDrift.cd_Items (er_Drift r))))
    (sort_by (by_time FleetVersions.fb_WorkloadID) (er_OutdatedCollectors r))
    (er_AuditTrail r) (er_Signature r).

Context `{SafetyJson}.
Definition digest (r : result string) : string :=
  hex_encode (Sum256 (str_bytes match r with Ok b => b | Err _ => "" end)).
(* src/internal/api/reports.go:424-430 evidenceReportID *)
Definition evidenceReportID (r : EvidenceReport) : string :=
  digest (json_report (with_signature (with_id r "" (er_AuditTrail r)) no_signature)).

Definition hint : string :=
  "Verify by recomputing SHA-256 over the canonical JSON report payload with the signature field cleared. " +:+
  "Enterprise builds may replace this unsigned digest with a detached signature over the same payload.".
(* src/internal/api/reports.go:132-144 SignEvidenceReport *)
Definition SignEvidenceReport (r : EvidenceReport) : result EvidenceReportSignature :=
  match json_report (with_signature r no_signature) with
  | Err e => Err e
  | Ok payload =>
      Ok (mkReportSignature "sha256-unsigned-digest-v1" (hex_encode (Sum256 (str_bytes payload))) "" "" hint)
  end.
End Collect.

(** ** The scope of a report, from the query *)

Section Scope.
Context `{UnicodeTables}.

(** The selector of the query; [order] is the order in which the map is read. *)
Definition selector_entry (key : string) (values : list string) : option (string * string) :=
  if HasPrefix key "selector." then
    let name := TrimSpace (TrimPrefix key "selector.") in
    match rev values with
    | [] => None
    | last :: _ => if (name =s "") || (TrimSpace last =s "") then None else Some (name, TrimSpace last)
    end
  else None.
Definition query_selector (order : list (string * list string)) : gmap string string :=
  foldl (fun m kv => match selector_entry kv.1 kv.2 with Some (k, v) => <[k := v]> m | None => m end) ∅ order.

(* src/internal/api/reports.go:200-232 configSafetyReportScope *)
Definition configSafetyReportScope (order : list (string * list string)) : result ReportScope :=
  let q := list_to_map order : gmap string (list string) in
  let get k := match q !! k with Some (v :: _) => v | _ => "" end in
  let ids := List.filter (fun id => id <>s "")
    (flat_map (fun raw => map TrimSpace (Split raw ","%char))
       (default [] (q !! "workload_id") ++ default [] (q !! "workload_ids"))) in
  let scope := mkScope ids (TrimSpace (get "group_id")) (query_selector order) None None in
  match NormalizeRequest (mkRequest "" "evidence_pack" scope (mkInclude false false false false false false false
                            false false false false) "") with
  | Err e => Err e
  | Ok req => Ok (rx_Scope req)
  end.
End Scope.

(** ** Building the report *)

Section Build.
Context `{UnicodeTables} `{TimestampColumn} {collation : Alerts.Collation} `{SafetyJson} (e : aenv)
  (alertTable : gmap string Alert).
Local Open Scope api_scope.

(** The workloads asked for, each once, and the ids that were not found. *)
Fixpoint take_wanted (wanted : gset string) (l : list Workload) : list Workload * gset string :=
  match l with
  | [] => ([], wanted)
  | wl :: rest =>
      if bool_decide (wl_ID wl ∈ wanted) then
        let '(out, missing) := take_wanted (wanted ∖ {[wl_ID wl]}) rest in (wl :: out, missing)
      else take_wanted wanted rest
  end.
(* src/internal/api/reports.go:310-339 configSafetyReportWorkloads *)
Definition configSafetyReportWorkloads (scope : ReportScope) : AM (result (list Workload)) :=
  r ← aq e (fun d f => ListWorkloads d f false);
  aret match r with
  | Err err => Err err
  | Ok workloads =>
      match sc_WorkloadIDs scope with
      | [] => Ok (List.filter (fun wl => configSafetyReportMatchesScope wl scope) workloads)
      | ids => let '(out, missing) := take_wanted (list_to_set ids) workloads in
               if bool_decide (missing = ∅) then Ok out else Err (ErrInvalidRequest +:+ ": workload not found")
      end
  end.

(** What is read of one collector. *)
Definition collect (rules : gmap string (gmap string bool)) (now : Time) (wl : Workload)
  : AM (result (Workload * list WorkloadConfig * ConfigDrift.ConfigDriftItem)) :=
  wl ← hydrateCurrentConfigPush e wl;
  fs ← faults3 e;
  h ← aq_now e (fun d _ t => GetWorkloadConfigHistory d fs t (wl_ID wl));
  match h with
  | Err err => aret (Err err)
  | Ok history =>
      reported ← ConfigDrift.reported_hashes e (wl_ID wl);
      aret (Ok (wl, sanitizedConfigHistory history,
                ConfigDrift.buildConfigDriftItem wl reported (default ∅ (rules !! wl_ID wl)) now))
  end.
Fixpoint collect_all (rules : gmap string (gmap string bool)) (now : Time) (l : list Workload)
  : AM (result (list (Workload * list WorkloadConfig * ConfigDrift.ConfigDriftItem))) :=
  match l with
  | [] => aret (Ok [])
  | wl :: rest =>
      r ← collect rules now wl;
      match r with
      | Err err => aret (Err err)
      | Ok x => rs ← collect_all rules now rest;
                aret match rs with Err err => Err err | Ok xs => Ok (x :: xs) end
      end
  end.

Definition outdated (recommended : string) (wl : Workload) : list FleetVersions.FleetCollectorVersionFinding :=
  match Version.Compare recommended recommended, Version.Compare (wl_Version wl) recommended with
  | Some _, Some c =>
      if (recommended <>s "") && Z.ltb c 0
      then [FleetVersions.mkBelow (wl_ID wl) (wl_DisplayName wl) (FleetVersions.workloadGroup wl) (wl_Version wl) recommended]
      else []
  | _, _ => []
  end.

Definition evidenceReportAuditAction := "report.config_safety.export".
(** The report made of what was collected. *)
Definition assemble (recommended : string) (now : Time)
  (l : list (Workload * list WorkloadConfig * ConfigDrift.ConfigDriftItem)) : EvidenceReport :=
  let r := mkReport "config_safety_evidence_report.v1" "" now recommended (mkSummary 0 0 0 0 0 0)
    (flat_map (fun x => evidenceConfigChanges x.1.1 x.1.2) l)
    (flat_map (fun x => evidenceValidationFailures x.1.1 x.1.2) l)
    (flat_map (fun x => evidenceRollbacks x.1.1 x.1.2) l)
    (ConfigDrift.mkDashboard now
       (foldl ConfigDrift.summarizeConfigDriftItem (ConfigDrift.mkSummary 0 0 0 0 0 0 0 0) l.*2) l.*2)
    (flat_map (fun x => outdated recommended x.1.1) l) [] no_signature in
  let r := sortEvidenceReport r in
  let count {A} (l : list A) := Z.of_nat (length l) in
  mkReport (er_SchemaVersion r) "" now recommended
    (mkSummary (count (er_ConfigChanges r)) (count (er_ValidationFailures r)) (count (er_Rollbacks r))
       (ConfigDrift.cs_DriftedCollectors (ConfigDrift.cd_Summary (er_Drift r)))
       (count (er_OutdatedCollectors r)) 1)
    (er_ConfigChanges r) (er_ValidationFailures r) (er_Rollbacks r) (er_Drift r) (er_OutdatedCollectors r)
    [mkTrail evidenceReportAuditAction "report" "" "export generated" now] no_signature.

(** The identifier is set in the report and in its audit trail, then it is signed. *)
Definition finish (now : Time) (r : EvidenceReport) : result EvidenceReport :=
  let id := evidenceReportID r in
  let r := with_id r id [mkTrail evidenceReportAuditAction "report" id "export generated" now] in
  match SignEvidenceReport r with Err err => Err err | Ok sig => Ok (with_signature r sig) end.

(* src/internal/api/reports.go:234-308 buildConfigSafetyEvidenceReport *)
Definition buildConfigSafetyEvidenceReport (recommended : string) (scope : ReportScope) (now : Time)
  : AM (result EvidenceReport) :=
  ws ← configSafetyReportWorkloads scope;
  match ws with
  | Err err => aret (Err err)
  | Ok workloads =>
      alerts ← aq e (fun _ f => ConfigDrift.ListAlerts alertTable f false);
      match alerts with
      | Err err => aret (Err err)
      | Ok alerts =>
          l ← collect_all (ConfigDrift.unresolvedAlertRulesByWorkload alerts) now
                (List.filter (fun wl => wl_Type wl =s "collector")
                   (sort_by (fun a b => wl_ID a <s wl_ID b) workloads));
          aret match l with Err err => Err err | Ok l => finish now (assemble (TrimSpace recommended) now l) end
      end
  end.

(** ** Renderings *)

(** [Format(time.RFC3339)]: the instant without its fraction. *)
Definition RFC3339 (t : Time) : string := RFC3339Nano (t / Second * Second)%Z.
Definition Z_text (n : Z) : string := pretty.pretty n.

(* src/internal/api/reports.go:432-444 renderEvidenceReportMarkdown *)
Definition renderEvidenceReportMarkdown (r : EvidenceReport) : string :=
  let s := er_Summary r in
  "# Config Safety Evidence Report" +:+ nl +:+ nl +:+ "Report ID: " +:+ code_span (er_ReportID r) +:+ nl +:+ nl
  +:+ "Generated at: " +:+ RFC3339 (er_GeneratedAt r) +:+ nl +:+ nl
  +:+ "## Summary" +:+ nl +:+ nl +:+ "- Config changes: " +:+ Z_text (su_ConfigChanges s) +:+ nl
  +:+ "- Validation failures: " +:+ Z_text (su_ValidationFailures s) +:+ nl
  +:+ "- Rollbacks: " +:+ Z_text (su_Rollbacks s) +:+ nl
  +:+ "- Drifted collectors: " +:+ Z_text (su_DriftedCollectors s) +:+ nl
  +:+ "- Outdated collectors: " +:+ Z_text (su_OutdatedCollectors s) +:+ nl +:+ nl
  +:+ "## Config changes" +:+ nl +:+ nl
  +:+ String.concat "" (map (fun c => "- " +:+ code_span (ec_WorkloadID c) +:+ " " +:+ ec_PreviousHash c +:+ " -> "
        +:+ ec_ConfigHash c +:+ " (" +:+ ec_Status c +:+ ")" +:+ nl) (er_ConfigChanges r))
  +:+ nl +:+ "## Signature" +:+ nl +:+ nl +:+ "Algorithm: " +:+ code_span (rg_Algorithm (er_Signature r)) +:+ nl +:+ nl
  +:+ "Payload digest: " +:+ code_span (rg_PayloadDigestSHA256 (er_Signature r)) +:+ nl.

Definition report_records (r : EvidenceReport) : list (list string) :=
  map (fun c => ["config_change"; ec_WorkloadID c; ec_DisplayName c; ec_ConfigHash c; ec_Status c;
                 ec_DiffSummary c; RFC3339 (ec_AppliedAt c)]) (er_ConfigChanges r) ++
  map (fun f => ["validation_failure"; vf_WorkloadID f; vf_DisplayName f; vf_ConfigHash f; vf_Status f;
                 vf_Error f; RFC3339 (vf_OccurredAt f)]) (er_ValidationFailures r) ++
  map (fun b => ["rollback"; eb_WorkloadID b; eb_DisplayName b; eb_ConfigHash b; eb_Status b;
                 eb_RollbackOfPushID b; RFC3339 (eb_OccurredAt b)]) (er_Rollbacks r) ++
  map (fun d => ["drift"; ConfigDrift.ci_WorkloadID d; ConfigDrift.ci_Collector d;
                 ConfigDrift.ci_ExpectedConfigHash d; ConfigDrift.ci_DriftStatus d;
                 Join ";" (ConfigDrift.ci_DriftReasons d); RFC3339 (er_GeneratedAt r)])
    (ConfigDrift.cd_Items (er_Drift r)) ++
  map (fun o => ["outdated_collector"; FleetVersions.fb_WorkloadID o; FleetVersions.fb_DisplayName o; "";
                 "below_recommended"; FleetVersions.fb_Version o +:+ " < " +:+ FleetVersions.fb_RecommendedVersion o;
                 RFC3339 (er_GeneratedAt r)]) (er_OutdatedCollectors r).
(* src/internal/api/reports.go:446-467 renderEvidenceReportCSV *)
Definition renderEvidenceReportCSV (r : EvidenceReport) : string :=
  String.concat "" (map csv_line
    (["section"; "workload_id"; "display_name"; "config_hash"; "status"; "detail"; "occurred_at"]
     :: map NeutralizeCSVRecord (report_records r))).

(* src/internal/api/reports.go:498-503 escapePDFString *)
Definition escapePDFString (s : string) : string := escapePDF s.
(* src/internal/api/reports.go:469-496 renderEvidenceReportPDF *)
Definition renderEvidenceReportPDF (r : EvidenceReport) : string :=
  let text := replace_char (Ascii.ascii_of_N 10) (backslash +:+ "n") (renderEvidenceReportMarkdown r) in
  let text := take_str 1800 text in
  pdf_document (page_objects ("BT /F1 10 Tf 50 780 Td (" +:+ escapePDFString text +:+ ") Tj ET")).

(** ** Handlers *)

(* src/internal/api/reports.go:191-198 reportExtension *)
Definition reportExtension (format : string) : string := if one_of format ["markdown"; "md"] then "md" else format.

(** What is sent: a content type, a file name and a body. *)
Record download := mkDownload { dl_type : string; dl_filename : string; dl_body : string }.

Definition audited {A} (action resourceID detail : string) (k : AM (reply A)) : AM (reply A) :=
  ok ← Emit e action "report" resourceID (DText detail);
  if ok : bool then k else aret (Refused (mkResponse 503 "audit unavailable" sideEffectNone)).

(* src/internal/api/reports.go:146-189 handleConfigSafetyReport *)
Definition handleConfigSafetyReport (queryFormat recommended : string) (query : list (string * list string))
  : AM (reply download) :=
  let format := default_str (ToLower (TrimSpace queryFormat)) "json" in
  match configSafetyReportScope query with
  | Err err => aret (refuse 400 err)
  | Ok scope =>
      now ← anow e;
      r ← buildConfigSafetyEvidenceReport recommended scope now;
      match r with
      | Err err =>
          if HasPrefix err ErrInvalidRequest then aret (refuse 400 err)
          else aret (refuse 500 "failed to build config safety report")
      | Ok report =>
          audited evidenceReportAuditAction (er_ReportID report) format
          (let filename := "config-safety-evidence-" +:+ take_str 12 (er_ReportID report) +:+ "." +:+ reportExtension format in
           let send ctype body := aret (Replied 200 (mkDownload ctype filename body)) in
           if format =s "json"
           then send "application/json" match json_report report with Ok b => b | Err _ => "" end
           else if one_of format ["markdown"; "md"]
           then send "text/markdown; charset=utf-8" (renderEvidenceReportMarkdown report)
           else if format =s "csv" then send "text/csv; charset=utf-8" (renderEvidenceReportCSV report)
           else if format =s "pdf" then send "application/pdf" (renderEvidenceReportPDF report)
           else aret (refuse 400 "unsupported report format"))
      end
  end.

Section Packs.
Context `{ReportJson} (signer : ReportSigner).

(* src/internal/api/reports.go:111-122 respondReportBuildError *)
Definition respondReportBuildError {A} (err : string) : reply A :=
  if HasPrefix err ErrInvalidRequest || Contains err "invalid scope" || Contains err "unsupported"
     || Contains err "invalid time range" then refuse 400 err
  else if Contains err "workload not found" then refuse 404 "workload not found"
  else refuse 500 "failed to build evidence pack".

(** The body decodes to a request without unknown fields, or not. *)
(* src/internal/api/reports.go:97-109 decodeReportRequest *)
Definition decodeReportRequest {A} (body : result ReportExportRequest) (k : ReportExportRequest -> AM (reply A))
  : AM (reply A) :=
  match body with
  | Err _ => aret (Refused (mkResponse 400 "invalid JSON body" "invalid_json"))
  | Ok req => k req
  end.

Definition workload_count (p : EvidencePack) : string := Itoa (length (rs_WorkloadIDs (pk_Scope p))).
(* src/internal/api/reports.go:26-40 handlePreviewEvidencePack *)
Definition handlePreviewEvidencePack (body : result ReportExportRequest) : AM (reply EvidencePack) :=
  decodeReportRequest body (fun req =>
  r ← BuildEvidencePack e signer alertTable req;
  match r with
  | Err err => aret (respondReportBuildError err)
  | Ok pack =>
      audited "report.preview" (pk_InputsHash pack)
        ("report_type=" +:+ rx_ReportType req +:+ " workloads=" +:+ workload_count pack)
        (aret (Replied 200 pack))
  end).

(* src/internal/api/reports.go:42-95 handleExportEvidencePack *)
Definition handleExportEvidencePack (queryFormat : string) (body : result ReportExportRequest)
  : AM (reply download) :=
  let format := TrimSpace queryFormat in
  let format := if (format =s "") || (format =s "md") then "markdown" else format in
  if negb (one_of format ["markdown"; "csv"; "pdf"])
  then aret (Refused (mkResponse 400 "unsupported export format" "unsupported_export_format"))
  else decodeReportRequest body (fun req =>
  r ← BuildEvidencePack e signer alertTable req;
  match r with
  | Err err => aret (respondReportBuildError err)
  | Ok pack =>
      audited "report.export" (pk_InputsHash pack)
        ("format=" +:+ format +:+ " report_type=" +:+ rx_ReportType req +:+ " workloads=" +:+ workload_count pack)
        (let '(ctype, suffix, text) :=
           if format =s "markdown" then ("text/markdown; charset=utf-8", ".md", RenderMarkdown pack)
           else if format =s "csv" then ("text/csv; charset=utf-8", ".csv", RenderCSV pack)
           else ("application/pdf", ".pdf", RenderPDFMinimal pack) in
         aret (Replied 200 (mkDownload ctype
           ("evidence-pack-" +:+ take_str 12 (pk_InputsHash pack) +:+ suffix) text)))
  end).
End Packs.
End Build.

(** ** Theorems *)

Section Facts.
Context `{UnicodeTables} `{TimestampColumn} {collation : Alerts.Collation} `{SafetyJson}.

Notation evidence := (Workload * list WorkloadConfig * ConfigDrift.ConfigDriftItem)%type.
Definition collectors (l : list evidence) : Prop := Forall (fun x => wl_Type x.1.1 = "collector") l.

Lemma collect_type e rules now wl :
  always (fun r => forall x, r = Ok x -> wl_Type x.1.1 = wl_Type wl) (collect e rules now wl).
Proof.
  unfold collect. apply (always_bind (fun w => wl_Type w = wl_Type wl)).
  - unfold hydrateCurrentConfigPush. eapply always_bind; [apply always_any|]. intros r _. apply always_ret.
    by destruct r as [[|]|].
  - intros w Hw. eapply always_bind; [apply always_any|]. intros fs _. eapply always_bind; [apply always_any|].
    intros [h|err] _; [|by apply always_ret]. eapply always_bind; [apply always_any|]. intros reported _.
    apply always_ret. by intros x [= <-].
Qed.

Lemma collect_all_collectors e rules now l : Forall (fun wl => wl_Type wl = "collector") l ->
  always (fun r => forall xs, r = Ok xs -> collectors xs) (collect_all e rules now l).
Proof.
  induction 1 as [|wl l Hwl _ IH]; cbn [collect_all].
  { apply always_ret. intros xs [= <-]. constructor. }
  eapply always_bind; [apply collect_type|]. intros [x|err] Hx; [|by apply always_ret].
  eapply always_bind; [apply IH|]. intros [xs|err] Hxs; apply always_ret; [|done].
  intros ys [= <-]. constructor; [by rewrite (Hx x eq_refl)|by apply Hxs].
Qed.

(** A delivered report is the assembled evidence of collectors, finished. *)
Lemma built_report e alerts recommended scope now a a' r :
  buildConfigSafetyEvidenceReport e alerts recommended scope now a = (a', Ok r) ->
  exists l, collectors l /\ finish now (assemble (TrimSpace recommended) now l) = Ok r.
Proof.
  unfold buildConfigSafetyEvidenceReport, abind.
  destruct (configSafetyReportWorkloads e scope a) as [a1 [ws|]]; [|by intros [=]].
  destruct (aq e _ a1) as [a2 [al|]]; [|by intros [=]].
  set (l := List.filter _ _).
  assert (Forall (fun wl => wl_Type wl = "collector") l) as Hl.
  { apply Forall_forall. intros wl [_ Ht]%list_elem_of_In%filter_In. by apply String.eqb_eq in Ht. }
  pose proof (collect_all_collectors e (ConfigDrift.unresolvedAlertRulesByWorkload al) now l Hl a2) as Hc.
  destruct (collect_all e _ now l a2) as [a3 [xs|]]; [|by intros [=]]. cbn [snd] in Hc.
  intros [= _ Hf]. exists xs. split; [by apply Hc|done].
Qed.

Lemma finished now r0 r : finish now r0 = Ok r ->
  exists sig, SignEvidenceReport r = Ok sig /\ er_Signature r = sig /\
    er_Summary r = er_Summary r0 /\ er_ConfigChanges r = er_ConfigChanges r0 /\
    er_ValidationFailures r = er_ValidationFailures r0 /\ er_Rollbacks r = er_Rollbacks r0 /\
    er_Drift r = er_Drift r0 /\ er_OutdatedCollectors r = er_OutdatedCollectors r0.
Proof.
  unfold finish. set (r1 := with_id r0 _ _). destruct (SignEvidenceReport r1) as [sig|] eqn:Es; [|by intros [=]].
  intros [= <-]. exists sig. split_and!; try done.
Qed.

(** the digest a config safety report carries is the one its hint describes:
    signing the delivered report again, its signature cleared, gives the signature
    it has. *)
Theorem safety_report_digest_verifies e alerts recommended scope now a a' r :
  buildConfigSafetyEvidenceReport e alerts recommended scope now a = (a', Ok r) ->
  SignEvidenceReport r = Ok (er_Signature r).
Proof. by intros (l & _ & (sig & Hs & -> & _)%finished)%built_report. Qed.

Lemma drifted_total l s :
  ConfigDrift.cs_TotalCollectors (foldl ConfigDrift.summarizeConfigDriftItem s l) = ConfigDrift.cs_TotalCollectors s.
Proof. revert s. induction l as [|x l IH]; intros s; [done|]. cbn [foldl]. by rewrite IH. Qed.


(** The total of the drift summary of a report is never set. *)
Lemma report_total_is_zero e alerts recommended scope now a a' r :
  buildConfigSafetyEvidenceReport e alerts recommended scope now a = (a', Ok r) ->
  ConfigDrift.cs_TotalCollectors (ConfigDrift.cd_Summary (er_Drift r)) = 0%Z.
Proof.
  intros (l & _ & (sig & _ & _ & _ & _ & _ & _ & -> & _)%finished)%built_report. cbn. apply drifted_total.
Qed.

(** An export in an unknown format is audited as an export before it is refused. *)
Lemma unknown_format_is_audited e alerts recommended query a now a1 a2 r :
  (exists scope, configSafetyReportScope query = Ok scope /\ anow e a = (a1, now) /\
     buildConfigSafetyEvidenceReport e alerts recommended scope now a1 = (a2, Ok r)) ->
  ae_auditFails e (sv_tick (ap_server a2)) = false ->
  let '(a', answer) := handleConfigSafetyReport e alerts "xml" recommended query a in
  answer = refuse 400 "unsupported report format" /\
  ap_audit a' = ap_audit a2 ++ [mkAudit (ae_user e) evidenceReportAuditAction "report" (er_ReportID r) (DText "xml")].
Proof.
  intros (scope & Hs & Hn & Hb) Ha. unfold handleConfigSafetyReport. rewrite Hs. unfold abind at 1. rewrite Hn.
  unfold abind at 1. rewrite Hb. change (default_str (ToLower (TrimSpace "xml")) "json") with "xml".
  unfold audited, abind, Emit, abind, draw, lift. cbn -[handleConfigSafetyReport RFC3339Nano]. by rewrite Ha.
Qed.

End Facts.

(** Keys compare as text: half a second later sorts first. *)
Example later_key_sorts_first :
  let t := (63902822400 * Second)%Z in
  (evidenceTimeKey "w" (t + Second / 2) <s evidenceTimeKey "w" t) = true.
Proof. vm_compute. reflexivity. Qed.

(** ** A concrete run *)

#[local] Existing Instance byte_tables.
#[local] Existing Instance microseconds.
#[local] Existing Instance Alerts.byte_collation.
Definition flat_json : SafetyJson := {| json_report r := Ok (er_SchemaVersion r +:+ er_ReportID r) |}.
#[local] Existing Instance flat_json.

Definition whole_scope : ReportScope := mkScope ["w"] "" ∅ None None.
Definition sample_report : api * result EvidenceReport :=
  buildConfigSafetyEvidenceReport (Approvals.alone None) ∅ "" whole_scope 9 Approvals.sample_api.
Definition the_report : EvidenceReport :=
  match sample_report.2 with
  | Ok r => r
  | Err _ => assemble "" 0 []
  end.

Lemma sample_report_ok :
  buildConfigSafetyEvidenceReport (Approvals.alone None) ∅ "" whole_scope 9 Approvals.sample_api =
  (sample_report.1, Ok the_report).
Proof.
  fold sample_report. assert (is_ok sample_report.2 = true) as Hok by (vm_compute; reflexivity).
  unfold the_report. destruct sample_report as [a [p|]]; [done|]. cbn in Hok. done.
Qed.
#[local] Opaque sample_report the_report.

Lemma safety_report_digest_witness : SignEvidenceReport the_report = Ok (er_Signature the_report).
Proof.
  exact (safety_report_digest_verifies (Approvals.alone None) ∅ "" whole_scope 9 Approvals.sample_api
    sample_report.1 the_report sample_report_ok).
Defined.


Example report_has_one_collector : length (ConfigDrift.cd_Items (er_Drift the_report)) = 1.
Proof. vm_compute. reflexivity. Qed.

End SafetyReport.
