(* ===== verification/Migration.v ===== *)
(** * The migration assistant

    [internal/migrationassistant]: a pasted configuration of a vendor's agent
    (Datadog, Fluent Bit, Splunk, New Relic) becomes the draft of a Collector
    configuration, with warnings, evidence and redactions; and the handler of
    [internal/api/config_migration.go]. The YAML decoder, net/url and the order in
    which Go ranges over a map are parameters. *)

From Stdlib Require Import SpecFloat.
From S2P Require Import Prelude GoString Regex Models Validator Yaml ConfigPolicy OtelDiff Api Fleet GitSource ConfigLibrary.
Import Regex Validator Yaml.

Module Migration.

(** ** Data *)

Definition VendorDatadogAgent := "datadog_agent".
Definition VendorFluentBit := "fluent_bit".
Definition VendorSplunkForwarder := "splunk_forwarder".
Definition VendorNewRelicInfra := "new_relic_infra".

(* src/pkg/models/config_migration.go:40-46 ConfigMigrationContext *)
Record ConfigMigrationContext := mkContext {
  mx_TargetSignal : string; mx_TargetExporter : string; mx_OTLPEndpoint : string;
  mx_CollectorDistribution : string; mx_Notes : string
}.
(* src/pkg/models/config_migration.go:30-37 ConfigMigrationPreviewRequest *)
Record ConfigMigrationPreviewRequest := mkPreviewRequest {
  mq_SchemaVersion : string; mq_Vendor : string; mq_Source : string; mq_SourceFormat : string;
  mq_Labels : gmap string string; mq_Context : ConfigMigrationContext
}.
(* src/pkg/models/config_migration.go:67-72 ConfigMigrationWarning *)
Record ConfigMigrationWarning := mkWarning {
  mw_Code : string; mw_Severity : string; mw_Message : string; mw_Path : string }.
(* src/pkg/models/config_migration.go:75-79 ConfigMigrationUnsupportedKey *)
Record ConfigMigrationUnsupportedKey := mkUnsupported {
  mu_Path : string; mu_Reason : string; mu_Suggestion : string }.
(* src/pkg/models/config_migration.go:82-87 ConfigMigrationEvidence *)
Record ConfigMigrationEvidence := mkEvidence {
  me_SourcePath : string; me_TargetPath : string; me_RuleID : string; me_Explanation : string }.
(* src/pkg/models/config_migration.go:90-94 ConfigMigrationRedaction *)
Record ConfigMigrationRedaction := mkRedaction {
  mr_Path : string; mr_Placeholder : string; mr_Reason : string }.
(* src/pkg/models/config_migration.go:97-102 ConfigMigrationValidation *)
Record ConfigMigrationValidation := mkValidation {
  mv_Valid : bool; mv_OverallStatus : string; mv_Summary : string; mv_ValidatedAt : Time }.
(* src/pkg/models/config_migration.go:105-111 ConfigMigrationSaveHint *)
Record ConfigMigrationSaveHint := mkSaveHint {
  sh_Kind : string; sh_SourceType : string; sh_Tags : list string; sh_Category : string; sh_Stack : string }.
(* src/pkg/models/config_migration.go:50-64 ConfigMigrationPreviewResponse *)
Record ConfigMigrationPreviewResponse := mkPreview {
  mp_SchemaVersion : string; mp_Vendor : string; mp_SourceFormat : string; mp_DraftYAML : string;
  mp_DraftName : string; mp_Confidence : string; mp_Summary : string;
  mp_Warnings : list ConfigMigrationWarning; mp_UnsupportedKeys : list ConfigMigrationUnsupportedKey;
  mp_Evidence : list ConfigMigrationEvidence; mp_Redactions : list ConfigMigrationRedaction;
  mp_Validation : ConfigMigrationValidation; mp_SaveHint : ConfigMigrationSaveHint
}.

(* src/internal/migrationassistant/assistant.go:35-39 pipeline *)
Record pipeline := mkPipeline {
  pl_receivers : list string; pl_processors : list string; pl_exporters : list string }.
Definition no_pipeline : pipeline := mkPipeline [] [] [].
(* src/internal/migrationassistant/assistant.go:26-33 draft *)
Record draft := mkDraft {
  dr_receivers : gmap string (list string); dr_receiverOptions : gmap string (list string);
  dr_processors : gset string; dr_resourceAttrs : gmap string string;
  dr_exporters : gmap string string; dr_pipelines : gmap string pipeline
}.
(* src/internal/migrationassistant/assistant.go:41-52 conversionState *)
Record conversionState := mkState {
  cv_request : ConfigMigrationPreviewRequest; cv_sourceFormat : string; cv_draft : draft;
  cv_warnings : list ConfigMigrationWarning; cv_unsupported : list ConfigMigrationUnsupportedKey;
  cv_evidence : list ConfigMigrationEvidence; cv_redactions : list ConfigMigrationRedaction;
  cv_mapped : nat; cv_vendorName : string; cv_stack : string
}.

(** The assignments to a field through the pointer. *)
Definition set_draft (f : draft -> draft) (s : conversionState) : conversionState :=
  mkState (cv_request s) (cv_sourceFormat s) (f (cv_draft s)) (cv_warnings s) (cv_unsupported s)
    (cv_evidence s) (cv_redactions s) (cv_mapped s) (cv_vendorName s) (cv_stack s).
Definition set_format (x : string) (s : conversionState) : conversionState :=
  mkState (cv_request s) x (cv_draft s) (cv_warnings s) (cv_unsupported s) (cv_evidence s)
    (cv_redactions s) (cv_mapped s) (cv_vendorName s) (cv_stack s).
Definition warn (w : ConfigMigrationWarning) (s : conversionState) : conversionState :=
  mkState (cv_request s) (cv_sourceFormat s) (cv_draft s) (cv_warnings s ++ [w]) (cv_unsupported s)
    (cv_evidence s) (cv_redactions s) (cv_mapped s) (cv_vendorName s) (cv_stack s).
Definition give_unsupported (u : ConfigMigrationUnsupportedKey) (s : conversionState) : conversionState :=
  mkState (cv_request s) (cv_sourceFormat s) (cv_draft s) (cv_warnings s) (cv_unsupported s ++ [u])
    (cv_evidence s) (cv_redactions s) (cv_mapped s) (cv_vendorName s) (cv_stack s).
Definition give_evidence (x : ConfigMigrationEvidence) (s : conversionState) : conversionState :=
  mkState (cv_request s) (cv_sourceFormat s) (cv_draft s) (cv_warnings s) (cv_unsupported s)
    (cv_evidence s ++ [x]) (cv_redactions s) (cv_mapped s) (cv_vendorName s) (cv_stack s).
Definition redact (x : ConfigMigrationRedaction) (s : conversionState) : conversionState :=
  mkState (cv_request s) (cv_sourceFormat s) (cv_draft s) (cv_warnings s) (cv_unsupported s)
    (cv_evidence s) (cv_redactions s ++ [x]) (cv_mapped s) (cv_vendorName s) (cv_stack s).
Definition count_mapped (s : conversionState) : conversionState :=
  mkState (cv_request s) (cv_sourceFormat s) (cv_draft s) (cv_warnings s) (cv_unsupported s)
    (cv_evidence s) (cv_redactions s) (S (cv_mapped s)) (cv_vendorName s) (cv_stack s).

Definition put_receiver (name : string) (paths : list string) (d : draft) : draft :=
  mkDraft (<[name := paths]> (dr_receivers d)) (dr_receiverOptions d) (dr_processors d) (dr_resourceAttrs d)
    (dr_exporters d) (dr_pipelines d).
Definition put_options (name : string) (options : list string) (d : draft) : draft :=
  mkDraft (dr_receivers d) (<[name := options]> (dr_receiverOptions d)) (dr_processors d) (dr_resourceAttrs d)
    (dr_exporters d) (dr_pipelines d).
Definition put_processor (name : string) (d : draft) : draft :=
  mkDraft (dr_receivers d) (dr_receiverOptions d) ({[name]} ∪ dr_processors d) (dr_resourceAttrs d)
    (dr_exporters d) (dr_pipelines d).
Definition put_attr (key v : string) (d : draft) : draft :=
  mkDraft (dr_receivers d) (dr_receiverOptions d) (dr_processors d) (<[key := v]> (dr_resourceAttrs d))
    (dr_exporters d) (dr_pipelines d).
Definition put_exporter (name endpoint : string) (d : draft) : draft :=
  mkDraft (dr_receivers d) (dr_receiverOptions d) (dr_processors d) (dr_resourceAttrs d)
    (<[name := endpoint]> (dr_exporters d)) (dr_pipelines d).
Definition put_pipelines (m : gmap string pipeline) (d : draft) : draft :=
  mkDraft (dr_receivers d) (dr_receiverOptions d) (dr_processors d) (dr_resourceAttrs d) (dr_exporters d) m.
Definition put_pipeline (name : string) (p : pipeline) (d : draft) : draft :=
  put_pipelines (<[name := p]> (dr_pipelines d)) d.
Definition no_draft : draft := mkDraft ∅ ∅ ∅ ∅ ∅ ∅.

(** ** Text *)

(** [strings.Trim(s, cutset)] for an ASCII set. *)
Fixpoint trim_front (p : Ascii.ascii -> bool) (s : string) : string :=
  match s with "" => "" | String c s' => if p c then trim_front p s' else s end.
Definition TrimSet (p : Ascii.ascii -> bool) (s : string) : string :=
  String.rev (trim_front p (String.rev (trim_front p s))).

(** [s[:i]] and [s[i+1:]] at the first byte of a set: [None] when there is none. *)
Fixpoint cut_set (p : Ascii.ascii -> bool) (s : string) : option (string * string) :=
  match s with
  | "" => None
  | String c s' =>
      if p c then Some ("", s')
      else match cut_set p s' with Some (a, b) => Some (String c a, b) | None => None end
  end.

(** [strings.Fields], as its first element: [None] when there is no field. *)
Fixpoint field_head (s : string) : string :=
  match s with
  | "" => ""
  | String c s' =>
      match strip_one space_encodings s with Some _ => "" | None => String c (field_head s') end
  end.
Definition first_field (s : string) : option string :=
  let s := trim_left s in if s =s "" then None else Some (field_head s).

(** [url.QueryUnescape]: [None] is the error. *)
Fixpoint QueryUnescape (s : string) : option string :=
  match s with
  | "" => Some ""
  | String "%" (String a (String b s')) =>
      match hex_value a, hex_value b with
      | Some x, Some y => String (Ascii.ascii_of_N (x * 16 + y)) <$> QueryUnescape s'
      | _, _ => None
      end
  | String "%" _ => None
  | String "+" s' => String " " <$> QueryUnescape s'
  | String c s' => String c <$> QueryUnescape s'
  end.

(** The characters of an attribute key, [[A-Za-z0-9_.\-/]]. *)
Definition key_char (c : Ascii.ascii) : bool :=
  letter c || is_digit c || in_set [95; 46; 45; 47]%N c.

(* src/internal/migrationassistant/secrets.go:10-10 secretKeyPattern *)
Definition secretKeyPattern : re :=
  let sep := opt (Byte (in_set [95; 45]%N)) in
  Group 1 (alts [seqs [ilit "api"; sep; ilit "key"]; ilit "apikey"; ilit "token";
    seqs [ilit "license"; sep; ilit "key"]; ilit "password"; ilit "secret";
    seqs [ilit "private"; sep; ilit "key"]; seqs [ilit "client"; sep; ilit "secret"];
    seqs [ilit "access"; sep; ilit "key"]; seqs [ilit "app"; sep; ilit "key"]]).
Definition secret_key (k : string) : bool := MatchString secretKeyPattern k.

(* src/internal/migrationassistant/helpers.go:72-72 attrCleaner *)
Definition attrCleaner : re := plus (Byte (fun c => negb (key_char c))).
(* src/internal/migrationassistant/helpers.go:74-80 sanitizeAttrKey *)
Definition sanitizeAttrKey (s : string) : string :=
  let s := TrimSet (Ascii.eqb "_") (ReplaceAllString attrCleaner (TrimSpace s) (fun _ => "_")) in
  if s =s "" then "unknown" else s.
(* src/internal/migrationassistant/assistant.go:242-247 safeAttributeKey *)
Definition safeAttributeKey (key : string) : bool :=
  let key := TrimSpace key in
  if key =s "" then false else MatchString (seqs [Bol; plus (Byte key_char); Eol]) key.
(** [strconv.Itoa] on a signed integer. *)
Definition FormatInt (n : Z) : string := pretty.pretty n.
(* src/internal/migrationassistant/datadog.go:79-82 validPort *)
Definition validPort (port : string) : bool :=
  let '(n, ok) := Atoi port in
  ok && (FormatInt n =s port) && (1 <=? n)%Z && (n <=? 65535)%Z.

(** ** Reading a parsed document *)

(** [fmt.Sprintf("%v", x)] of a float64. *)
Class FloatVerb := { fmt_v : float64 -> string }.
(** [strings.Map(unicode.ToUpper, s)] for a string with a byte above 127. *)
Class UnicodeUpper := { unicode_upper : string -> string }.
Definition upper_char (c : Ascii.ascii) : Ascii.ascii :=
  if ((97 <=? code c) && (code c <=? 122))%N then Ascii.ascii_of_N (code c - 32) else c.
(** The order in which [for k := range m] visits the keys of a map: unspecified, and
    another one at each execution of a loop (named by the place it reads). *)
Class MapOrder := {
  visit : string -> list string -> list string;
  visit_perm place keys : visit place keys ≡ₚ keys
}.

(** [int64(x)] truncates; outside of the range it is the least integer (amd64). *)
Definition to_int (x : float64) : Z :=
  match x with
  | S754_finite neg m e =>
      let n := if (0 <=? e)%Z then (Zpos m * 2 ^ e)%Z else (Zpos m / 2 ^ (- e))%Z in
      let n := if neg then (- n)%Z else n in
      if (min_int64 <=? n)%Z && (n <=? max_int64)%Z then n else min_int64
  | S754_zero _ => 0%Z
  | _ => min_int64
  end.

Section Convert.
Context `{UnicodeTables} `{UnicodeUpper} `{FloatVerb} {order : MapOrder} `{OtelDiff.UrlLib}.

(** [strings.ToUpper]. *)
Definition ToUpper (s : string) : string :=
  if is_ascii s then map_str upper_char s else unicode_upper s.

(* src/internal/migrationassistant/helpers.go:12-33 asString *)
Definition asString (v : option value) : string :=
  match v with
  | Some (VStr t) => TrimSpace t
  | Some (VInt t) => FormatInt t
  | Some (VFloat t) => if feq t (of_int (to_int t)) then FormatInt (to_int t) else fmt_v t
  | Some (VBool t) => if t then "true" else "false"
  | _ => ""
  end.

(* src/internal/migrationassistant/helpers.go:35-44 asBool *)
Definition asBool (v : option value) : bool :=
  match v with
  | Some (VBool t) => t
  | Some (VStr t) => EqualFold (TrimSpace t) "true" || (TrimSpace t =s "1")
  | _ => false
  end.

Definition non_empty (l : list string) : list string := List.filter (fun s => s <>s "") l.
(* src/internal/migrationassistant/helpers.go:46-70 asStringSlice *)
Definition asStringSlice (v : option value) : list string :=
  match v with
  | Some (VList t) => non_empty (map (fun item => asString (Some item)) t)
  | Some (VStr t) => non_empty (map TrimSpace (Split t ","))
  | _ => []
  end.

(** The keys of a map in the order of one [range]. *)
Definition ranged {V} (place : string) (m : gmap string V) : list string :=
  visit place (map_to_list m).*1.

(** ** Parts of a draft *)

(* src/internal/migrationassistant/assistant.go:230-232 warning *)
Definition warning (codeName severity message path : string) : ConfigMigrationWarning :=
  mkWarning codeName severity message path.
(* src/internal/migrationassistant/assistant.go:234-236 unsupported *)
Definition unsupported (path reason suggestion : string) : ConfigMigrationUnsupportedKey :=
  mkUnsupported path reason suggestion.
(* src/internal/migrationassistant/helpers.go:82-84 migrationEvidence *)
Definition migrationEvidence (source target rule explanation : string) : ConfigMigrationEvidence :=
  mkEvidence source target rule explanation.

(* src/internal/migrationassistant/assistant.go:201-206 defaultExporterName *)
Definition defaultExporterName (s : conversionState) : string :=
  if bool_decide (is_Some (dr_exporters (cv_draft s) !! "splunk_hec")) then "splunk_hec" else "otlp".

(* src/internal/migrationassistant/assistant.go:215-220 addLogReceiver *)
Definition addLogReceiver (s : conversionState) (name : string) (paths : list string)
  (sourcePath targetPath ruleID explanation : string) : conversionState :=
  let s := set_draft (put_receiver name paths) s in
  let before := default no_pipeline (dr_pipelines (cv_draft s) !! "logs") in
  let s := set_draft (put_pipeline "logs"
             (mkPipeline (pl_receivers before ++ [name]) [] [defaultExporterName s])) s in
  count_mapped (give_evidence (mkEvidence sourcePath targetPath ruleID explanation) s).

Definition attr_allowed (key v : string) : bool :=
  safeAttributeKey key && negb (secret_key key) && (TrimSpace v <>s "").
(* src/internal/migrationassistant/assistant.go:222-228 addResourceAttr *)
Definition addResourceAttr (s : conversionState) (key v sourcePath ruleID : string) : conversionState :=
  if attr_allowed key v then
    give_evidence (mkEvidence sourcePath ("processors.resource.attributes." +:+ key) ruleID
      "Source metadata maps to a Collector resource attribute.")
      (set_draft (put_attr key (TrimSpace v)) s)
  else s.

(* src/internal/migrationassistant/assistant.go:161-172 addLabels *)
Definition addLabels (labels : gmap string string) (s : conversionState) : conversionState :=
  let keys := List.filter (fun k => attr_allowed k (default "" (labels !! k))) (ranged "labels" labels) in
  foldl (fun s k => set_draft (put_attr k (TrimSpace (default "" (labels !! k)))) s) s (sort_strings keys).

(** ** Endpoints *)

Definition redactedEndpointPlaceholder : string := "${REDACTED_SECRET}".
(* src/internal/migrationassistant/endpoint_sanitizer.go:58-64 addEndpointRedaction *)
Definition addEndpointRedaction (path : string) (s : conversionState) : conversionState :=
  redact (mkRedaction path redactedEndpointPlaceholder
    "Sensitive endpoint material was redacted before rendering the draft.") s.

Definition query_key (part : string) : string := before_char part "=".
Definition decoded_key (part : string) : string :=
  default (query_key part) (QueryUnescape (query_key part)).
Definition secret_part (part : string) : bool := (part <>s "") && secret_key (decoded_key part).
(* src/internal/migrationassistant/endpoint_sanitizer.go:35-56 sanitizeEndpointRawQuery *)
Definition sanitizeEndpointRawQuery (rawQuery path : string) (s : conversionState)
  : string * conversionState :=
  let parts := Split rawQuery "&" in
  (Join "&" (map (fun part => if secret_part part
                              then query_key part +:+ "=" +:+ redactedEndpointPlaceholder else part) parts),
   foldl (fun s part => if secret_part part
                        then addEndpointRedaction (path +:+ ".query." +:+ decoded_key part) s else s) s parts).

Definition with_query (q : string) (u : OtelDiff.URL) : OtelDiff.URL :=
  OtelDiff.mkURL (OtelDiff.u_Scheme u) (OtelDiff.u_Opaque u) (OtelDiff.u_User u) (OtelDiff.u_Host u)
    (OtelDiff.u_Path u) (OtelDiff.u_RawPath u) (OtelDiff.u_OmitHost u) (OtelDiff.u_ForceQuery u) q
    (OtelDiff.u_Fragment u) (OtelDiff.u_RawFragment u).
(* src/internal/migrationassistant/endpoint_sanitizer.go:12-33 sanitizeEndpoint *)
Definition sanitizeEndpoint (endpoint path : string) (s : conversionState) : string * conversionState :=
  let trimmed := TrimSpace endpoint in
  if trimmed =s "" then ("", s)
  else match OtelDiff.url_Parse trimmed with
  | None => (trimmed, s)
  | Some parsed =>
      if (OtelDiff.u_Scheme parsed =s "") || (OtelDiff.u_Host parsed =s "") then (trimmed, s)
      else
        let s := if OtelDiff.u_User parsed then addEndpointRedaction (path +:+ ".userinfo") s else s in
        let parsed := GitSource.without_user parsed in
        if OtelDiff.u_RawQuery parsed <>s "" then
          let '(q, s) := sanitizeEndpointRawQuery (OtelDiff.u_RawQuery parsed) path s in
          (OtelDiff.url_String (with_query q parsed), s)
        else (OtelDiff.url_String parsed, s)
  end.

(* src/internal/migrationassistant/assistant.go:208-213 exporterEndpoint *)
Definition exporterEndpoint (s : conversionState) : string * conversionState :=
  let endpoint := mx_OTLPEndpoint (mq_Context (cv_request s)) in
  if TrimSpace endpoint <>s "" then sanitizeEndpoint endpoint "context.otlp_endpoint" s
  else ("${OTLP_EXPORT_ENDPOINT}", s).

(** ** Secrets *)

(* src/internal/migrationassistant/secrets.go:51-63 placeholderForKey *)
Definition placeholderForKey (vendor key fallback : string) : string :=
  let k := ToLower key in
  if Contains k "license" && (vendor =s VendorNewRelicInfra) then "${NEW_RELIC_LICENSE_KEY}"
  else if Contains k "token" && (vendor =s VendorSplunkForwarder) then "${SPLUNK_HEC_TOKEN}"
  else if Contains k "api" && (vendor =s VendorDatadogAgent) then "${DATADOG_API_KEY}"
  else fallback.

Definition skipped_line (line : string) : bool :=
  (line =s "") || HasPrefix line "#" || HasPrefix line ";".
Definition header_line (line : string) : bool := HasPrefix line "[" && Contains line "]".
Definition vendor_placeholder (vendor : string) : string :=
  if vendor =s VendorDatadogAgent then "${DATADOG_API_KEY}"
  else if vendor =s VendorSplunkForwarder then "${SPLUNK_HEC_TOKEN}"
  else if vendor =s VendorNewRelicInfra then "${NEW_RELIC_LICENSE_KEY}"
  else "${REDACTED_SECRET}".
(** The key of a line: what stands before the first colon or equals sign. *)
Definition line_key (line : string) : string :=
  match cut_set (in_set [58; 61]%N) line with Some (a, _) => TrimSpace a | None => "" end.
Definition section_path_of (section key : string) : string :=
  if section <>s "" then section +:+ "." +:+ key else key.
(** One line: the paths seen, the current section and the state. *)
Definition scan_line (vendor : string) (acc : gset string * string * conversionState) (raw : string)
  : gset string * string * conversionState :=
  let '(seen, section, s) := acc in
  let line := TrimSpace raw in
  if skipped_line line then acc
  else if header_line line then (seen, TrimSet (in_set [91; 93]%N) line, s)
  else
    let key := line_key line in
    if (key =s "") || negb (secret_key key) then acc
    else
      let path := section_path_of section key in
      if bool_decide (path ∈ seen) then acc
      else ({[path]} ∪ seen, section,
            redact (mkRedaction path (placeholderForKey vendor key (vendor_placeholder vendor))
              "Potential secret value was not copied into the draft.") s).
(* src/internal/migrationassistant/secrets.go:12-49 scanSecrets *)
Definition scanSecrets (vendor source : string) (s : conversionState) : conversionState :=
  (foldl (scan_line vendor) (∅, "", s) (Split source (Ascii.ascii_of_N 10))).2.

(** ** Datadog *)

Definition item_of (raw : value) : gmap string value := as_map (Some raw).
(* src/internal/migrationassistant/datadog.go:35-54 convertDatadog *)
Definition log_item (s : conversionState) (i : nat) (raw : value) : conversionState :=
  let item := item_of raw in
  let at_ := "logs[" +:+ Itoa i +:+ "]" in
  let s :=
    if EqualFold (asString (item !! "type")) "file" && (asString (item !! "path") <>s "") then
      let name := "filelog/datadog_logs_" +:+ Itoa i in
      let s := addLogReceiver s name [asString (item !! "path")] (at_ +:+ ".path")
        ("receivers." +:+ name +:+ ".include") "datadog.logs.file.path_to_filelog.include"
        "Datadog file log path maps to Collector filelog include glob." in
      let service := asString (item !! "service") in
      let s := if service <>s "" then addResourceAttr s "service.name" service (at_ +:+ ".service")
                 "datadog.logs.service.to_resource_attribute" else s in
      let source := asString (item !! "source") in
      if source <>s "" then addResourceAttr s "otel-magnify.vendor.source" source (at_ +:+ ".source")
        "datadog.logs.source.to_resource_attribute" else s
    else s in
  foldl (fun s key =>
    if existsb (String.eqb key) ["type"; "path"; "service"; "source"] || secret_key key then s
    else give_unsupported (unsupported (at_ +:+ "." +:+ key)
      "Datadog log processing and vendor-specific settings require manual review."
      "Review Collector filelog operators/processors for equivalent behavior.") s) s (ranged at_ item).
Fixpoint log_items (s : conversionState) (i : nat) (l : list value) : conversionState :=
  match l with [] => s | raw :: l => log_items (log_item s i raw) (S i) l end.

(* src/internal/migrationassistant/datadog.go:20-26 convertDatadog *)
Definition datadog_logs_config (root : gmap string value) (s : conversionState) : conversionState :=
  match root !! "logs_config" with
  | Some (VMap logsConfig) =>
      foldl (fun s key =>
        if secret_key key then s
        else give_unsupported (unsupported ("logs_config." +:+ key)
          "Datadog logs_config behavior requires manual review."
          "Review Collector receiver and processor settings for equivalent behavior.") s)
        s (ranged "logs_config" logsConfig)
  | _ => s
  end.
(* src/internal/migrationassistant/datadog.go:27-32 convertDatadog *)
Definition datadog_tags (root : gmap string value) (s : conversionState) : conversionState :=
  foldl (fun s tag =>
    match Cut tag ":" with
    | (k, Some v) => addResourceAttr s ("otel-magnify.vendor.datadog.tag." +:+ sanitizeAttrKey k) v "tags"
                       "datadog.tags.to_resource_attributes"
    | (_, None) => s
    end) s (asStringSlice (root !! "tags")).
(* src/internal/migrationassistant/datadog.go:56-61 convertDatadog *)
Definition datadog_apm (root : gmap string value) (s : conversionState) : conversionState :=
  match root !! "apm_config" with
  | Some (VMap apm) =>
      if asBool (apm !! "enabled") then
        let s := set_draft (put_receiver "otlp" []) s in
        let s := set_draft (put_pipeline "traces" (mkPipeline ["otlp"] [] [defaultExporterName s])) s in
        count_mapped (warn (warning "datadog_apm_partial" "warning"
          "Datadog APM intake semantics are represented as an OTLP traces skeleton only." "apm_config.enabled") s)
      else s
  | _ => s
  end.
(* src/internal/migrationassistant/datadog.go:62-72 convertDatadog *)
Definition datadog_statsd (root : gmap string value) (s : conversionState) : conversionState :=
  let port := asString (root !! "dogstatsd_port") in
  if port <>s "" then
    if negb (validPort port) then
      give_unsupported (unsupported "dogstatsd_port"
        "DogStatsD port must be a numeric TCP/UDP port in the range 1-65535."
        "Use a numeric port before mapping this value to a Collector statsd endpoint.") s
    else
      let s := set_draft (put_receiver "statsd" []) s in
      let s := set_draft (put_options "statsd" ["endpoint: 0.0.0.0:" +:+ port]) s in
      let s := set_draft (put_pipeline "metrics" (mkPipeline ["statsd"] [] [defaultExporterName s])) s in
      count_mapped (give_evidence (migrationEvidence "dogstatsd_port" "receivers.statsd.endpoint"
        "datadog.dogstatsd_port.to_statsd.endpoint"
        "DogStatsD port maps to the Collector statsd receiver endpoint.") s)
  else s.

Section Decode.
Context {yamlDoc : YamlDoc}.

(** The error says that the source was not parsed. *)
(* src/internal/migrationassistant/datadog.go:11-77 convertDatadog *)
Definition convertDatadog (s : conversionState) : conversionState * bool :=
  let s := set_format "yaml" s in
  match yaml_document (mq_Source (cv_request s)) with
  | Err _ => (s, true)
  | Ok doc =>
      let root := default ∅ doc in
      let env := asString (root !! "env") in
      let s := if env <>s "" then addResourceAttr s "deployment.environment" env "env"
                 "datadog.env.to_resource_attribute" else s in
      let s := datadog_logs_config root s in
      let s := datadog_tags root s in
      let s := log_items s 0 match root !! "logs" with Some (VList l) => l | _ => [] end in
      let s := datadog_apm root s in
      let s := datadog_statsd root s in
      (if bool_decide (is_Some (root !! "site"))
       then warn (warning "datadog_site_not_exporter" "warning"
              "Datadog site is advisory unless the target exporter is datadog." "site") s
       else s, false)
  end.

(** ** New Relic *)

(** [for key, value := range root]: the first matching key ends the loop. *)
Definition metrics_toggle (root : gmap string value) (key : string) : bool :=
  HasPrefix (ToLower key) "metrics_" && negb (Contains (ToLower key) "disabled")
    && (asString (root !! key) <>s "false").
Definition host_metrics (s : conversionState) (key : string) : conversionState :=
  let s := set_draft (put_receiver "hostmetrics" []) s in
  let s := set_draft (put_options "hostmetrics" ["collection_interval: 60s"; "scrapers:"; "  cpu: {}";
             "  memory: {}"; "  filesystem: {}"]) s in
  let s := set_draft (put_pipeline "metrics" (mkPipeline ["hostmetrics"] [] [defaultExporterName s])) s in
  let s := give_evidence (migrationEvidence key "receivers.hostmetrics"
    "newrelic.metrics_toggle.to_hostmetrics_skeleton"
    "New Relic metrics toggle is represented as a hostmetrics receiver skeleton.") s in
  count_mapped (warn (warning "newrelic_metrics_partial" "warning"
    "New Relic dimensional metric normalization is not migrated; hostmetrics is a starting skeleton only." key) s).
(* src/internal/migrationassistant/newrelic.go:18-22 convertNewRelic *)
Definition custom_attributes (root : gmap string value) (s : conversionState) : conversionState :=
  match root !! "custom_attributes" with
  | Some (VMap attrs) =>
      foldl (fun s key => addResourceAttr s key (asString (attrs !! key)) ("custom_attributes." +:+ key)
        "newrelic.custom_attributes.to_resource_attributes") s (ranged "custom_attributes" attrs)
  | _ => s
  end.
(* src/internal/migrationassistant/newrelic.go:26-37 convertNewRelic *)
Definition metrics_toggles (root : gmap string value) (s : conversionState) : conversionState :=
  match List.find (metrics_toggle root) (ranged "metrics" root) with
  | Some key => host_metrics s key
  | None => s
  end.
(* src/internal/migrationassistant/newrelic.go:38-46 convertNewRelic *)
Definition other_settings (root : gmap string value) (s : conversionState) : conversionState :=
  foldl (fun s key =>
    if existsb (String.eqb key) ["license_key"; "display_name"; "custom_attributes"; "log_file"] then s
    else if negb (HasPrefix (ToLower key) "metrics_") && negb (secret_key key)
    then give_unsupported (unsupported key "New Relic infra agent setting requires manual review."
           "Review Collector receiver/processor equivalents manually.") s
    else s) s (ranged "settings" root).
(* src/internal/migrationassistant/newrelic.go:9-48 convertNewRelic *)
Definition convertNewRelic (s : conversionState) : conversionState * bool :=
  let s := set_format "yaml" s in
  match yaml_document (mq_Source (cv_request s)) with
  | Err _ => (s, true)
  | Ok doc =>
      let root := default ∅ doc in
      let displayName := asString (root !! "display_name") in
      let s := if displayName <>s "" then addResourceAttr s "host.name" displayName "display_name"
                 "newrelic.display_name.to_host_name" else s in
      let s := custom_attributes root s in
      let logFile := asString (root !! "log_file") in
      let s := if logFile <>s "" then addLogReceiver s "filelog/newrelic_log_0" [logFile] "log_file"
                 "receivers.filelog/newrelic_log_0.include" "newrelic.log_file.path_to_filelog.include"
                 "New Relic infra log_file maps to Collector filelog include glob." else s in
      (other_settings root (metrics_toggles root s), false)
  end.
End Decode.

(** ** Bracketed configurations *)

(* src/internal/migrationassistant/fluentbit.go:8-12 confSection *)
Record confSection := mkSection {
  se_Name : string; se_Header : string; se_Keys : gmap string (list string) }.

Definition put_key (key v : string) (c : confSection) : confSection :=
  mkSection (se_Name c) (se_Header c)
    (<[ToLower key := default [] (se_Keys c !! ToLower key) ++ [v]]> (se_Keys c)).
Definition close_section (sections : list confSection) (current : option confSection) : list confSection :=
  sections ++ match current with Some c => [c] | None => [] end.
(** A key and its value: at the first equals sign or, without one, at the first
    space or tab; [None] when nothing stands before. *)
Definition key_value (line : string) : option (string * string) :=
  let cut := match cut_set (in_set [61]%N) line with
             | Some p => Some p | None => cut_set (in_set [32; 9]%N) line end in
  match cut with
  | Some (a, b) => if a =s "" then None
                   else Some (TrimSpace a, TrimSet (in_set [34; 39]%N) (TrimSpace b))
  | None => None
  end.
Definition conf_line (acc : list confSection * option confSection) (raw : string)
  : list confSection * option confSection :=
  let '(sections, current) := acc in
  let line := TrimSpace raw in
  if skipped_line line then acc
  else if header_line line then
    let header := TrimSpace (before_char (drop_str 1 line) "]") in
    (close_section sections current,
     match first_field header with Some name => Some (mkSection name header ∅) | None => None end)
  else match current with
  | None => acc
  | Some c => match key_value line with Some (k, v) => (sections, Some (put_key k v c)) | None => acc end
  end.
(* src/internal/migrationassistant/fluentbit.go:14-53 parseBracketConf *)
Definition parseBracketConf (source : string) : list confSection :=
  let '(sections, current) := foldl conf_line ([], None) (Split source (Ascii.ascii_of_N 10)) in
  close_section sections current.

(* src/internal/migrationassistant/fluentbit.go:55-61 sectionValue *)
Definition sectionValue (c : confSection) (key : string) : string :=
  TrimSpace (List.last (default [] (se_Keys c !! ToLower key)) "").

(** ** Fluent Bit *)

(* src/internal/migrationassistant/fluentbit.go:73-81 convertFluentBit *)
Definition fluent_input (st : conversionState * nat) (c : confSection) : conversionState * nat :=
  let '(s, inputIndex) := st in
  if EqualFold (sectionValue c "Name") "tail" && (sectionValue c "Path" <>s "") then
    let name := "filelog/fluentbit_tail_" +:+ Itoa inputIndex in
    let s := addLogReceiver s name [sectionValue c "Path"] "[INPUT].Path"
      ("receivers." +:+ name +:+ ".include") "fluentbit.input.tail.path_to_filelog.include"
      "Fluent Bit tail Path maps to Collector filelog include glob." in
    (if EqualFold (sectionValue c "Parser") "json" then
       give_evidence (migrationEvidence "[INPUT].Parser" ("receivers." +:+ name +:+ ".operators")
         "fluentbit.input.parser_json.to_filelog.json_parser"
         "Simple json Parser maps to a filelog json_parser operator.")
         (set_draft (put_options name (default [] (dr_receiverOptions (cv_draft s) !! name)
            ++ ["operators:"; "  - type: json_parser"])) s)
     else s, S inputIndex)
  else (s, inputIndex).

(* src/internal/migrationassistant/fluentbit.go:87-92 convertFluentBit *)
Definition static_keys (s : conversionState) (n : nat) (c : confSection) : conversionState :=
  foldl (fun s key =>
    let values := default [] (se_Keys c !! key) in
    if (key =s "name") || (key =s "match") || Nat.eqb (length values) 0 then s
    else addResourceAttr s ("otel-magnify.vendor.fluentbit." +:+ sanitizeAttrKey key) (List.last values "")
           ("[FILTER]." +:+ key) "fluentbit.filter.static_key.to_resource_attribute")
    s (ranged ("section " +:+ Itoa n) (se_Keys c)).

(* src/internal/migrationassistant/fluentbit.go:83-95 convertFluentBit *)
Definition fluent_filter (s : conversionState) (n : nat) (c : confSection) : conversionState :=
  let name := ToLower (sectionValue c "Name") in
  if name =s "kubernetes" then
    warn (warning "fluentbit_kubernetes_filter_partial" "warning"
      "Kubernetes filter metadata enrichment should be reviewed against the Collector k8sattributes processor."
      "[FILTER] Name kubernetes") s
  else if (name =s "modify") || (name =s "record_modifier") then static_keys s n c
  else give_unsupported (unsupported ("[FILTER] Name " +:+ sectionValue c "Name")
         "Fluent Bit filter semantics require manual review."
         "Map supported enrichment to Collector processors manually.") s.

(* src/internal/migrationassistant/fluentbit.go:97-99 convertFluentBit *)
Definition fluent_output (s : conversionState) (c : confSection) : conversionState :=
  let name := sectionValue c "Name" in
  if EqualFold name "opentelemetry" || EqualFold name "forward" || EqualFold name "http" then
    give_evidence (migrationEvidence "[OUTPUT].Name" "exporters.otlp" "fluentbit.output.to_otlp_exporter_hint"
      "Output stanza is represented by the configured OTLP exporter placeholder.") s
  else s.

Fixpoint fluent_sections (st : conversionState * nat) (n : nat) (l : list confSection)
  : conversionState * nat :=
  match l with
  | [] => st
  | c :: l =>
      let kind := ToUpper (se_Name c) in
      let st :=
        if kind =s "INPUT" then fluent_input st c
        else if kind =s "FILTER" then (fluent_filter st.1 n c, st.2)
        else if kind =s "OUTPUT" then (fluent_output st.1 c, st.2)
        else if kind =s "PARSER" then
          (give_unsupported (unsupported "[PARSER]"
             "Custom Fluent Bit parser fidelity is not migrated automatically."
             "Review filelog operators for equivalent parsing.") st.1, st.2)
        else st in
      fluent_sections st (S n) l
  end.

(* src/internal/migrationassistant/fluentbit.go:63-105 convertFluentBit *)
Definition convertFluentBit (s : conversionState) : conversionState * bool :=
  let s := set_format "conf" s in
  let sections := parseBracketConf (mq_Source (cv_request s)) in
  let s := if Nat.eqb (length sections) 0 then
    warn (warning "parse_fallback" "warning"
      "Source did not contain recognizable Fluent Bit sections; generated a low-confidence skeleton for manual completion."
      "source") s else s in
  ((fluent_sections (s, 0) 0 sections).1, false).

(** ** Splunk *)

(* src/internal/migrationassistant/splunk.go:15-32 convertSplunk *)
Definition splunk_monitor (st : conversionState * nat) (c : confSection) : conversionState * nat :=
  let '(s, monitorIndex) := st in
  let header := "[" +:+ se_Header c +:+ "]" in
  if sectionValue c "disabled" =s "1" then
    (give_evidence (migrationEvidence (header +:+ ".disabled") "service.pipelines.logs.receivers"
       "splunk.monitor.disabled.skip" "Disabled monitor is intentionally omitted from the draft.")
       (warn (warning "splunk_monitor_disabled" "warning"
         "Disabled Splunk monitor was not included in the active Collector draft." header) s), monitorIndex)
  else
    let name := "filelog/splunk_monitor_" +:+ Itoa monitorIndex in
    let s := addLogReceiver s name [TrimPrefix (se_Header c) "monitor://"] header
      ("receivers." +:+ name +:+ ".include") "splunk.monitor.path_to_filelog.include"
      "Splunk monitor path maps to Collector filelog include glob." in
    let attr s source target rule :=
      let v := sectionValue c source in
      if v <>s "" then addResourceAttr s target v (header +:+ "." +:+ source) rule else s in
    let s := attr s "sourcetype" "splunk.sourcetype" "splunk.monitor.sourcetype.to_resource_attribute" in
    let s := attr s "index" "splunk.index" "splunk.monitor.index.to_resource_attribute" in
    let s := attr s "host" "host.name" "splunk.monitor.host.to_resource_attribute" in
    (s, S monitorIndex).

(* src/internal/migrationassistant/splunk.go:34-41 convertSplunk *)
Definition splunk_output (s : conversionState) (c : confSection) : conversionState :=
  let endpoint := sectionValue c "uri" in
  if endpoint <>s "" then
    let header := "[" +:+ se_Header c +:+ "]" in
    let '(clean, s) := sanitizeEndpoint endpoint (header +:+ ".uri") s in
    let s := give_evidence (migrationEvidence (header +:+ ".uri") "exporters.splunk_hec.endpoint"
      "splunk.outputs.hec.uri_to_splunk_hec.endpoint"
      "Splunk HEC endpoint maps to Collector splunk_hec exporter endpoint.")
      (set_draft (put_exporter "splunk_hec" clean) s) in
    set_draft (fun d => put_pipelines
      ((fun p => mkPipeline (pl_receivers p) (pl_processors p) ["splunk_hec"]) <$> dr_pipelines d) d) s
  else s.

Fixpoint splunk_sections (st : conversionState * nat) (n : nat) (l : list confSection)
  : conversionState * nat :=
  match l with
  | [] => st
  | c :: l =>
      let lowerHeader := ToLower (se_Header c) in
      let header := "[" +:+ se_Header c +:+ "]" in
      let st :=
        if HasPrefix lowerHeader "monitor://" then splunk_monitor st c
        else if Contains lowerHeader "httpout" || Contains lowerHeader "hec" then (splunk_output st.1 c, st.2)
        else if Contains lowerHeader "props" then
          (give_unsupported (unsupported header
             "Splunk props/transforms semantics are not migrated automatically."
             "Review timestamp, line breaking, and transform settings manually.") st.1, st.2)
        else if HasPrefix lowerHeader "source::" then
          (foldl (fun s key => give_unsupported (unsupported (header +:+ "." +:+ ToUpper key)
             "Splunk source stanza parsing semantics are not migrated automatically."
             "Review timestamp, line breaking, and transform settings manually.") s)
             st.1 (ranged ("section " +:+ Itoa n) (se_Keys c)), st.2)
        else st in
      splunk_sections st (S n) l
  end.

(* src/internal/migrationassistant/splunk.go:7-51 convertSplunk *)
Definition convertSplunk (s : conversionState) : conversionState * bool :=
  let s := set_format "ini" s in
  ((splunk_sections (s, 0) 0 (parseBracketConf (mq_Source (cv_request s)))).1, false).

(** ** Rendering *)

Definition nl : string := bytes [10]%N.
(** The bytes that make [quoteYAML] quote: the indicators of YAML, both quotes and
    the space. *)
Definition special_bytes : list N :=
  [58; 35; 91; 93; 123; 125; 42; 44; 38; 33; 124; 62; 39; 34; 37; 64; 96; 32]%N.
(* src/internal/migrationassistant/render.go:77-88 quoteYAML *)
Definition quoteYAML (s : string) : string :=
  if s =s "" then bytes [34; 34]%N
  else if HasPrefix s "${" && HasSuffix s "}" then s
  else if ContainsAny s special_bytes then Quote s
  else s.
(* src/internal/migrationassistant/render.go:90-92 renderInlineList *)
Definition renderInlineList (items : list string) : string := "[" +:+ Join ", " items +:+ "]".

Definition render_receiver (d : draft) (name : string) : string :=
  let paths := default [] (dr_receivers d !! name) in
  let options := default [] (dr_receiverOptions d !! name) in
  "  " +:+ name +:+ ":" +:+
  (if Nat.eqb (length paths) 0 && Nat.eqb (length options) 0 then " {}" +:+ nl
   else nl +:+
     (if Nat.ltb 0 (length paths) then "    include: [" +:+ Join ", " (map quoteYAML paths) +:+ "]" +:+ nl
      else "") +:+
     String.concat "" (map (fun option => "    " +:+ option +:+ nl) options)).
Definition render_attr (d : draft) (key : string) : string :=
  "      - key: " +:+ key +:+ nl +:+
  "        value: " +:+ quoteYAML (default "" (dr_resourceAttrs d !! key)) +:+ nl +:+
  "        action: upsert" +:+ nl.
Definition render_exporter (d : draft) (name : string) : string :=
  "  " +:+ name +:+ ":" +:+ nl +:+
  "    endpoint: " +:+ quoteYAML (default "" (dr_exporters d !! name)) +:+ nl +:+
  (if name =s "splunk_hec" then "    token: ${SPLUNK_HEC_TOKEN}" +:+ nl else "").
Definition render_pipeline (d : draft) (name : string) : string :=
  let p := default no_pipeline (dr_pipelines d !! name) in
  "    " +:+ name +:+ ":" +:+ nl +:+
  "      receivers: " +:+ renderInlineList (pl_receivers p) +:+ nl +:+
  (if Nat.ltb 0 (length (pl_processors p))
   then "      processors: " +:+ renderInlineList (pl_processors p) +:+ nl else "") +:+
  "      exporters: " +:+ renderInlineList (pl_exporters p) +:+ nl.
Definition has_resource (d : draft) : bool :=
  bool_decide ("resource" ∈ dr_processors d) && negb (bool_decide (dr_resourceAttrs d = ∅)).
(* src/internal/migrationassistant/render.go:9-66 renderDraft *)
Definition renderDraft (d : draft) : string :=
  String.concat ""
   (["receivers:" +:+ nl] ++ map (render_receiver d) (sorted_keys (dr_receivers d)) ++
    ["processors:" +:+ nl] ++
    (if has_resource d
     then ("  resource:" +:+ nl +:+ "    attributes:" +:+ nl)
            :: map (render_attr d) (sorted_keys (dr_resourceAttrs d))
     else []) ++
    ["  batch: {}" +:+ nl; "exporters:" +:+ nl] ++
    map (render_exporter d) (sorted_keys (dr_exporters d)) ++
    ["service:" +:+ nl +:+ "  pipelines:" +:+ nl] ++
    map (render_pipeline d) (sorted_keys (dr_pipelines d))).

(** ** The preview *)

(* src/internal/migrationassistant/assistant.go:192-199 processorList *)
Definition processorList (s : conversionState) : list string * conversionState :=
  let s := set_draft (put_processor "batch") s in
  if bool_decide (dr_resourceAttrs (cv_draft s) = ∅) then (["batch"], s)
  else (["resource"; "batch"], set_draft (put_processor "resource") s).

Definition with_defaults (exporter : string) (processors : list string) (p : pipeline) : pipeline :=
  mkPipeline (pl_receivers p) processors
    (if Nat.eqb (length (pl_exporters p)) 0 then [exporter] else pl_exporters p).
(* src/internal/migrationassistant/assistant.go:174-190 ensureDefaults *)
Definition ensureDefaults (s : conversionState) : conversionState :=
  let s := set_draft (put_processor "batch") s in
  let s := if bool_decide (dr_exporters (cv_draft s) = ∅) then
             let '(endpoint, s) := exporterEndpoint s in set_draft (put_exporter "otlp" endpoint) s
           else s in
  let s := if bool_decide (dr_pipelines (cv_draft s) = ∅) then
             let s := set_draft (put_receiver "otlp" []) s in
             let '(processors, s) := processorList s in
             set_draft (put_pipeline "traces" (mkPipeline ["otlp"] processors [defaultExporterName s])) s
           else s in
  let '(processors, s) := processorList s in
  set_draft (fun d => put_pipelines (with_defaults (defaultExporterName s) processors <$> dr_pipelines d) d) s.

(* src/internal/migrationassistant/assistant.go:149-155 normalizeSourceFormat *)
Definition normalizeSourceFormat (format : string) : string :=
  let format := ToLower (TrimSpace format) in if format =s "" then "auto" else format.
(* src/internal/migrationassistant/assistant.go:140-147 isSupportedVendor *)
Definition isSupportedVendor (v : string) : bool :=
  existsb (String.eqb v) [VendorDatadogAgent; VendorFluentBit; VendorSplunkForwarder; VendorNewRelicInfra].
Definition vendor_names (v : string) : string * string :=
  if v =s VendorDatadogAgent then ("Datadog Agent", "datadog")
  else if v =s VendorFluentBit then ("Fluent Bit", "fluent-bit")
  else if v =s VendorSplunkForwarder then ("Splunk forwarder", "splunk")
  else if v =s VendorNewRelicInfra then ("New Relic infra", "new-relic")
  else ("", "").
(* src/internal/migrationassistant/assistant.go:122-138 newConversionState *)
Definition newConversionState (req : ConfigMigrationPreviewRequest) : conversionState :=
  mkState req (mq_SourceFormat req) no_draft [] [] [] [] 0
    (vendor_names (mq_Vendor req)).1 (vendor_names (mq_Vendor req)).2.
(* src/internal/migrationassistant/assistant.go:157-159 addCommonWarnings *)
Definition addCommonWarnings (s : conversionState) : conversionState :=
  warn (warning "partial_conversion" "warning"
    "This deterministic assistant produces a draft only; vendor-specific semantics may not be preserved." "source") s.
(* src/internal/migrationassistant/assistant.go:238-240 summary *)
Definition summary (s : conversionState) : string :=
  "Converted " +:+ Itoa (cv_mapped s) +:+ " supported mapping(s) from " +:+ cv_vendorName s +:+
  " into a draft Collector config. Review " +:+ Itoa (length (cv_warnings s)) +:+ " warning(s), " +:+
  Itoa (length (cv_unsupported s)) +:+ " unsupported item(s), and " +:+ Itoa (length (cv_redactions s)) +:+
  " redaction(s) before use.".

Section Run.
Context {yamlDoc : YamlDoc}.

Definition maxSourceBytes : N := 1048576.
Inductive previewError := SourceTooLarge | PreviewFailed (text : string).

Definition convert (s : conversionState) : conversionState * bool :=
  let v := mq_Vendor (cv_request s) in
  if v =s VendorDatadogAgent then convertDatadog s
  else if v =s VendorFluentBit then convertFluentBit s
  else if v =s VendorSplunkForwarder then convertSplunk s
  else if v =s VendorNewRelicInfra then convertNewRelic s
  else (s, false).
Definition trimmed_request (req : ConfigMigrationPreviewRequest) : ConfigMigrationPreviewRequest :=
  mkPreviewRequest (mq_SchemaVersion req) (TrimSpace (mq_Vendor req)) (mq_Source req)
    (normalizeSourceFormat (mq_SourceFormat req)) (mq_Labels req) (mq_Context req).
(** The state after the conversion and its defaults. *)
Definition converted (req : ConfigMigrationPreviewRequest) : conversionState * bool :=
  let s := addCommonWarnings (newConversionState req) in
  let s := scanSecrets (mq_Vendor req) (mq_Source req) s in
  let s := addLabels (mq_Labels req) s in
  let '(s, err) := convert s in
  let s := if err then warn (warning "parse_fallback" "warning"
             "Source could not be parsed completely; generated a low-confidence skeleton for manual completion."
             "source") s else s in
  (ensureDefaults s, err).
Definition confidence (s : conversionState) (err : bool) : string :=
  if Nat.ltb 0 (cv_mapped s) && negb err then
    if Nat.ltb 0 (length (cv_unsupported s)) || Nat.ltb 1 (length (cv_warnings s)) then "medium" else "high"
  else "low".

(* src/internal/migrationassistant/assistant.go:59-120 Preview *)
Definition Preview (now : Time) (req : ConfigMigrationPreviewRequest)
  : ConfigMigrationPreviewResponse + previewError :=
  let req := trimmed_request req in
  if mq_Vendor req =s "" then inr (PreviewFailed "vendor is required")
  else if negb (isSupportedVendor (mq_Vendor req)) then inr (PreviewFailed "unsupported vendor")
  else if N.ltb maxSourceBytes (N.of_nat (String.length (mq_Source req))) then inr SourceTooLarge
  else if TrimSpace (mq_Source req) =s "" then inr (PreviewFailed "source is required")
  else
    let '(s, err) := converted req in
    let draftYAML := renderDraft (cv_draft s) in
    let validation := Validate now draftYAML None in
    inl (mkPreview "config_migration_preview.v1" (mq_Vendor req) (cv_sourceFormat s) draftYAML
      ("Migrated " +:+ cv_vendorName s +:+ " draft") (confidence s err) (summary s) (cv_warnings s)
      (cv_unsupported s) (cv_evidence s) (cv_redactions s)
      (mkValidation (rs_Valid validation) (rs_OverallStatus validation) (rs_Summary validation)
         (rs_ValidatedAt validation))
      (mkSaveHint "draft" "migration_assistant" ["migration"; mq_Vendor req] "migration" (cv_stack s))).

(* src/internal/api/config_migration.go:14-35 handlePreviewConfigMigration *)
Definition handlePreviewConfigMigration (now : Time) (body : ConfigLibrary.decoding ConfigMigrationPreviewRequest)
  : Fleet.reply ConfigMigrationPreviewResponse :=
  match body with
  | ConfigLibrary.TooLarge => Fleet.refuse 413 "request body exceeds migration preview limit"
  | ConfigLibrary.Invalid => Fleet.refuse 400 "invalid JSON"
  | ConfigLibrary.Value req _ =>
      match Preview now req with
      | inr SourceTooLarge => Fleet.refuse 413 "source exceeds 1 MiB limit"
      | inr (PreviewFailed text) => Fleet.refuse 400 text
      | inl resp => Fleet.Replied 200 resp
      end
  end.
End Run.
End Convert.

(** ** What a draft promises *)

(** A query in which the value of every secret-looking parameter is masked. *)
Definition masked_query (q : string) : Prop :=
  Forall (fun part => secret_part part = true ->
    part = query_key part +:+ "=" +:+ redactedEndpointPlaceholder) (Split q "&").

Section Promise.
Context `{OtelDiff.UrlLib}.

(** An endpoint of a draft: the placeholder, a text that is not an absolute URL,
    or a URL without credentials and with a masked query. *)
Definition clean_endpoint (x : string) : Prop :=
  x = "${OTLP_EXPORT_ENDPOINT}" \/ x = "" \/
  match OtelDiff.url_Parse x with
  | None => True
  | Some u => OtelDiff.u_Scheme u = "" \/ OtelDiff.u_Host u = ""
  end \/
  exists u, x = OtelDiff.url_String u /\ OtelDiff.u_User u = None /\ masked_query (OtelDiff.u_RawQuery u).

Definition exporter_of (d : draft) : string :=
  if bool_decide (is_Some (dr_exporters d !! "splunk_hec")) then "splunk_hec" else "otlp".

(** A text a resource attribute may carry. *)
Definition good_attr (key v : string) : Prop :=
  safeAttributeKey key = true /\ secret_key key = false /\ v <> "" /\ TrimSpace v = v.

(** While it is built: pipelines name declared receivers, no processors yet and
    the exporter of the draft, which is declared or will be the default one. *)
Record draft_ok (d : draft) : Prop := {
  ok_pipelines name p : dr_pipelines d !! name = Some p ->
    pl_receivers p <> [] /\ Forall (fun r => is_Some (dr_receivers d !! r)) (pl_receivers p) /\
    pl_exporters p = [exporter_of d];
  ok_exporters name : is_Some (dr_exporters d !! name) -> name = "splunk_hec";
  ok_endpoints name x : dr_exporters d !! name = Some x -> clean_endpoint x;
  ok_attrs key v : dr_resourceAttrs d !! key = Some v -> good_attr key v
}.
(** Redactions are never taken back. *)
Definition fine (base : list ConfigMigrationRedaction) (s : conversionState) : Prop :=
  draft_ok (cv_draft s) /\ base `prefix_of` cv_redactions s.

(** When it is rendered: every name a pipeline uses is declared. *)
Record closed (d : draft) : Prop := {
  cl_some : dr_pipelines d <> ∅;
  cl_pipelines name p : dr_pipelines d !! name = Some p ->
    pl_receivers p <> [] /\ Forall (fun r => is_Some (dr_receivers d !! r)) (pl_receivers p) /\
    Forall (fun x => x = "batch" \/ x = "resource" /\ has_resource d = true) (pl_processors p) /\
    pl_exporters p <> [] /\ Forall (fun x => is_Some (dr_exporters d !! x)) (pl_exporters p);
  cl_endpoints name x : dr_exporters d !! name = Some x -> clean_endpoint x;
  cl_attrs key v : dr_resourceAttrs d !! key = Some v -> good_attr key v
}.

Lemma no_draft_ok : draft_ok no_draft.
Proof. split; cbn; [by intros ??|by intros ? []|by intros ??|by intros ??]. Qed.

Lemma put_receiver_ok name paths d : draft_ok d -> draft_ok (put_receiver name paths d).
Proof.
  intros Hd. split; [|apply Hd|apply Hd|apply Hd]. intros n p Hp. apply Hd in Hp as (Hr & Hf & Hx).
  split; [done|]. split; [|done]. eapply Forall_impl; [exact Hf|]. cbn. intros r Hs.
  apply lookup_insert_is_Some'. by right.
Qed.
Lemma put_options_ok name options d : draft_ok d -> draft_ok (put_options name options d).
Proof. intros Hd. split; apply Hd. Qed.
Lemma put_attr_ok key v d : good_attr key v -> draft_ok d -> draft_ok (put_attr key v d).
Proof.
  intros Hg Hd. split; [apply Hd|apply Hd|apply Hd|]. cbn. intros k x [[<- <-]|[_ Hk]]%lookup_insert_Some; [done|].
  by apply Hd.
Qed.
Lemma put_pipeline_ok name p d : draft_ok d -> pl_receivers p <> [] ->
  Forall (fun r => is_Some (dr_receivers d !! r)) (pl_receivers p) -> pl_exporters p = [exporter_of d] ->
  draft_ok (put_pipeline name p d).
Proof.
  intros Hd Hr Hf Hx. split; [|apply Hd|apply Hd|apply Hd]. cbn.
  intros n q [[<- <-]|[_ Hk]]%lookup_insert_Some; [done|]. exact (ok_pipelines d Hd n q Hk).
Qed.
End Promise.

Lemma fold_keeps {A S} (P : S -> Prop) (f : S -> A -> S) l s :
  (forall s x, P s -> P (f s x)) -> P s -> P (foldl f s l).
Proof. intros Hf. revert s. induction l as [|x l IH]; intros s Hs; [done|]. cbn. by apply IH, Hf. Qed.

Section Facts.
Context `{UnicodeTables} `{UnicodeUpper} `{FloatVerb} `{MapOrder} `{OtelDiff.UrlLib}.
Context (base : list ConfigMigrationRedaction).
Local Notation fine := (fine base).

Lemma set_draft_fine f s : (draft_ok (cv_draft s) -> draft_ok (f (cv_draft s))) -> fine s -> fine (set_draft f s).
Proof. intros Hf [Hd Hp]. by split; [apply Hf|]. Qed.

Lemma one_receiver_fine s name paths pipe :
  fine s -> fine (set_draft (put_pipeline pipe (mkPipeline [name] [] [defaultExporterName s]))
                   (set_draft (put_receiver name paths) s)).
Proof.
  intros [Hs Hb]. split; [|done]. apply put_pipeline_ok; [by apply put_receiver_ok|done| |done].
  constructor; [|done]. cbn. rewrite lookup_insert_eq. eauto.
Qed.
Lemma optioned_receiver_fine s name options pipe :
  fine s -> fine (set_draft (put_pipeline pipe (mkPipeline [name] [] [defaultExporterName s]))
                   (set_draft (put_options name options) (set_draft (put_receiver name []) s))).
Proof.
  intros [Hs Hb]. split; [|done].
  apply put_pipeline_ok; [by apply put_options_ok, put_receiver_ok|done| |done].
  constructor; [|done]. cbn. rewrite lookup_insert_eq. eauto.
Qed.

Lemma addLogReceiver_fine s name paths a b c d : fine s -> fine (addLogReceiver s name paths a b c d).
Proof.
  intros [Hs Hb]. split; [|done]. apply put_pipeline_ok; [by apply put_receiver_ok|cbn; by destruct (pl_receivers _)| |done].
  apply Forall_app. split; [|constructor; [|done]; cbn; rewrite lookup_insert_eq; eauto].
  cbn. destruct (dr_pipelines _ !! "logs") as [p|] eqn:E; [|constructor]. cbn.
  apply (put_receiver_ok name paths) in Hs. by apply Hs in E as (_ & Hf & _).
Qed.

Lemma attr_allowed_good key v : attr_allowed key v = true -> good_attr key (TrimSpace v).
Proof.
  unfold attr_allowed. rewrite !andb_true_iff, !negb_true_iff. intros [[Hk Hs] Hv].
  split; [done|]. split; [done|]. split; [by apply String.eqb_neq|apply TrimSpace_idem].
Qed.
Lemma addResourceAttr_fine s key v a b : fine s -> fine (addResourceAttr s key v a b).
Proof.
  intros Hs. unfold addResourceAttr. destruct (attr_allowed key v) eqn:E; [|done].
  apply (set_draft_fine (put_attr _ _)); [|done]. by apply put_attr_ok, attr_allowed_good.
Qed.
Lemma addLabels_fine labels s : fine s -> fine (addLabels labels s).
Proof.
  intros Hs. unfold addLabels. set (keys := List.filter _ _).
  assert (Hk : Forall (fun k => attr_allowed k (default "" (labels !! k)) = true) (sort_strings keys)).
  { apply Forall_forall. intros k. unfold sort_strings. rewrite elem_of_sort_by, list_elem_of_In.
    by intros [_ Hk]%filter_In. }
  revert s Hs. induction Hk as [|k l Hk _ IH]; intros s Hs; [done|]. cbn [foldl]. apply IH.
  apply (set_draft_fine (put_attr _ _)); [|done]. by apply put_attr_ok, attr_allowed_good.
Qed.

(** The sanitizer leaves the draft alone and adds redactions. *)
Definition only_redacts (s s' : conversionState) : Prop :=
  cv_draft s' = cv_draft s /\ cv_request s' = cv_request s /\ cv_redactions s `prefix_of` cv_redactions s'.

Lemma redact_only x s s' : only_redacts s s' -> only_redacts s (redact x s').
Proof. intros (Hd & Hr & Hp). split; [done|]. split; [done|]. cbn. by apply prefix_app_r. Qed.
Lemma sanitizeRawQuery_only q path s : only_redacts s (sanitizeEndpointRawQuery q path s).2.
Proof.
  apply (fold_keeps (only_redacts s)); [|done].
  intros s' part Hs. destruct (secret_part part); [by apply redact_only|done].
Qed.
Lemma sanitizeEndpoint_only x path s : only_redacts s (sanitizeEndpoint x path s).2.
Proof.
  unfold sanitizeEndpoint. destruct (_ =s ""); [done|]. destruct (OtelDiff.url_Parse _) as [u|]; [|done].
  destruct (_ || _); [done|]. set (s1 := if OtelDiff.u_User u then _ else s).
  assert (E : only_redacts s s1) by (unfold s1; destruct (OtelDiff.u_User u); [by apply redact_only|done]).
  destruct (_ <>s ""); [|done].
  pose proof (sanitizeRawQuery_only (OtelDiff.u_RawQuery (GitSource.without_user u)) path s1) as E2.
  destruct (sanitizeEndpointRawQuery _ _ _) as [q s2]. cbn in *.
  destruct E as (Hd & Hr & Hp), E2 as (Hd2 & Hr2 & Hp2). split; [congruence|]. split; [congruence|].
  by transitivity (cv_redactions s1).
Qed.
Lemma no_char_key c part : no_char c part -> no_char c (query_key part).
Proof.
  unfold query_key, before_char. induction part as [|d part IH]; [done|]. cbn -[Ascii.eqb].
  destruct (Ascii.eqb d "="); [constructor|]. destruct (Cut part "=") as [a b]. cbn in *.
  intros [Hd Hp]%Forall_cons. constructor; [done|]. by apply IH.
Qed.
Lemma query_key_stop part r : query_key (query_key part +:+ String "=" r) = query_key part.
Proof.
  unfold query_key, before_char. induction part as [|d part IH]; [done|]. cbn -[Ascii.eqb].
  destruct (Ascii.eqb d "=") eqn:E; [done|]. destruct (Cut part "=") as [a b]. cbn -[Ascii.eqb] in *.
  change (String d a +:+ String "=" r) with (String d (a +:+ String "=" r)). cbn -[Ascii.eqb]. rewrite E.
  destruct (Cut (a +:+ _) "=") as [x y]. cbn in *. by rewrite IH.
Qed.
Lemma sanitizeRawQuery_masked q path s : masked_query (sanitizeEndpointRawQuery q path s).1.
Proof.
  unfold masked_query, sanitizeEndpointRawQuery. cbn [fst]. change "&" with (String "&" "").
  rewrite Split_Join.
  - apply Forall_fmap. apply Forall_forall. intros part _. cbn. destruct (secret_part part) eqn:E; [|congruence].
    intros _. change ("=" +:+ ?x) with (String "=" x). by rewrite query_key_stop.
  - intros E%map_eq_nil. by apply Split_nonempty in E.
  - apply Forall_fmap. pose proof (Split_no_char "&" q) as Hn. eapply Forall_impl; [exact Hn|].
    cbn. intros part Hp. destruct (secret_part part); [|done].
    apply no_char_app. split; [by apply no_char_key|]. by repeat constructor.
Qed.
Lemma sanitizeEndpoint_clean x path s : clean_endpoint (sanitizeEndpoint x path s).1.
Proof.
  unfold sanitizeEndpoint, clean_endpoint. destruct (TrimSpace x =s ""); [by right; left|].
  destruct (OtelDiff.url_Parse (TrimSpace x)) as [u|] eqn:E; cbn [fst]; [|by rewrite E; auto].
  destruct (_ || _) eqn:Eu; cbn [fst].
  { rewrite E. apply orb_true_iff in Eu as [?%String.eqb_eq|?%String.eqb_eq]; auto. }
  right. right. right. destruct (_ <>s "") eqn:Eq.
  - match goal with |- context [sanitizeEndpointRawQuery ?q ?p ?t] =>
      pose proof (sanitizeRawQuery_masked q p t) as Hm; destruct (sanitizeEndpointRawQuery q p t) as [q' s2] end.
    cbn [fst] in *. eauto.
  - exists (GitSource.without_user u). split; [done|]. split; [done|].
    apply negb_false_iff, String.eqb_eq in Eq. rewrite Eq. constructor; [done|constructor].
Qed.
Lemma exporterEndpoint_clean s : clean_endpoint (exporterEndpoint s).1.
Proof. unfold exporterEndpoint. destruct (_ <>s ""); [apply sanitizeEndpoint_clean|by left]. Qed.
Lemma only_redacts_fine s s' : only_redacts s s' -> fine s -> fine s'.
Proof. intros (Hd & _ & Hp) [Hs Hb]. split; [by rewrite Hd|]. by transitivity (cv_redactions s). Qed.

Create HintDb migration.
#[local] Hint Resolve addResourceAttr_fine addLogReceiver_fine : migration.

Lemma log_item_fine s i raw : fine s -> fine (log_item s i raw).
Proof.
  intros Hs. unfold log_item. apply (fold_keeps fine); [intros s' k Hs'; by destruct (_ || _)|].
  destruct (_ && _); [|done].
  destruct (asString (item_of raw !! "source") <>s ""), (asString (item_of raw !! "service") <>s "");
    auto with migration.
Qed.
Lemma log_items_fine l : forall s i, fine s -> fine (log_items s i l).
Proof. induction l as [|x l IH]; intros s i Hs; [done|]. apply IH. by apply log_item_fine. Qed.
Lemma logs_config_fine root s : fine s -> fine (datadog_logs_config root s).
Proof.
  intros Hs. unfold datadog_logs_config. destruct (_ !! _) as [[]|]; try done.
  apply (fold_keeps fine); [|done]. intros s' k Hs'. by destruct (secret_key k).
Qed.
Lemma tags_fine root s : fine s -> fine (datadog_tags root s).
Proof.
  intros Hs. unfold datadog_tags. apply (fold_keeps fine); [|done]. intros s' tag Hs'. destruct (Cut tag ":") as [k [v|]]; auto with migration.
Qed.
Lemma apm_fine root s : fine s -> fine (datadog_apm root s).
Proof.
  intros Hs. unfold datadog_apm. destruct (_ !! _) as [[]|]; try done. destruct (asBool _); [|done].
  exact (one_receiver_fine s "otlp" [] "traces" Hs).
Qed.
Lemma statsd_fine root s : fine s -> fine (datadog_statsd root s).
Proof.
  intros Hs. unfold datadog_statsd. destruct (_ <>s ""); [|done]. destruct (negb _); [done|].
  exact (optioned_receiver_fine s _ _ _ Hs).
Qed.
Lemma convertDatadog_fine {yamlDoc : YamlDoc} s : fine s -> fine (convertDatadog s).1.
Proof.
  intros Hs. unfold convertDatadog. destruct (yaml_document _) as [doc|]; [|done].
  cbn zeta. cbn [fst]. set (s1 := datadog_statsd _ _). assert (Hf : fine s1).
  { apply statsd_fine, apm_fine, log_items_fine, tags_fine, logs_config_fine.
    destruct (_ <>s ""); [apply addResourceAttr_fine|]; exact Hs. }
  by destruct (bool_decide _).
Qed.

Lemma host_metrics_fine s key : fine s -> fine (host_metrics s key).
Proof.
  exact (optioned_receiver_fine s _ _ _).
Qed.
Lemma convertNewRelic_fine {yamlDoc : YamlDoc} s : fine s -> fine (convertNewRelic s).1.
Proof.
  intros Hs. unfold convertNewRelic. destruct (yaml_document _) as [doc|]; [|done]. cbn [fst].
  unfold other_settings. apply (fold_keeps fine).
  { intros s' k Hs'. destruct (existsb _ _); [done|]. by destruct (_ && _). }
  unfold metrics_toggles. set (s1 := if asString (_ !! "log_file") <>s "" then _ else _).
  assert (Hf : fine s1) by (unfold s1; clear s1;
    assert (Hc : forall root s, fine s -> fine (custom_attributes root s)) by
      (intros r s' Hs'; unfold custom_attributes; destruct (_ !! _) as [[]|]; try done;
       apply (fold_keeps fine); [|done]; auto with migration);
    destruct (_ <>s ""); [apply addLogReceiver_fine|]; apply Hc;
    (destruct (_ <>s ""); [apply addResourceAttr_fine|]; exact Hs)).
  destruct (List.find _ _); [by apply host_metrics_fine|done].
Qed.

Lemma fluent_sections_fine l : forall st n, fine st.1 -> fine (fluent_sections st n l).1.
Proof.
  induction l as [|c l IH]; intros st n Hs; [done|]. cbn [fluent_sections]. apply IH.
  destruct (_ =s "INPUT"); [|destruct (_ =s "FILTER"); [|destruct (_ =s "OUTPUT"); [|by destruct (_ =s "PARSER")]]].
  - unfold fluent_input. destruct st as [s i]. destruct (_ && _); [|done]. cbn [fst].
    destruct (EqualFold _ _); [apply (set_draft_fine (put_options _ _)); [apply put_options_ok|]|]; by apply addLogReceiver_fine.
  - cbn [fst]. unfold fluent_filter. destruct (_ =s "kubernetes"); [done|]. destruct (_ || _); [|done].
    unfold static_keys. apply (fold_keeps fine); [|done]. intros s' k Hs'. destruct (_ || _); auto with migration.
  - cbn [fst]. unfold fluent_output. by destruct (_ || _).
Qed.

Lemma splunk_output_fine s c : fine s -> fine (splunk_output s c).
Proof.
  intros Hs. unfold splunk_output. destruct (_ <>s ""); [|done].
  pose proof (sanitizeEndpoint_only (sectionValue c "uri") (("[" +:+ se_Header c +:+ "]") +:+ ".uri") s) as E.
  pose proof (sanitizeEndpoint_clean (sectionValue c "uri") (("[" +:+ se_Header c +:+ "]") +:+ ".uri") s) as Hc.
  apply only_redacts_fine in E; [|done]. destruct (sanitizeEndpoint _ _ s) as [clean s1]. cbn [fst snd] in E, Hc.
  destruct E as [Hd Hb]. split; [|done]. split.
  - cbn. intros name p. rewrite lookup_fmap_Some. intros (q & <- & Hq). apply Hd in Hq as (Hr & Hf & _).
    split; [done|]. split; [done|]. cbn. unfold exporter_of. cbn. rewrite bool_decide_true; [done|].
    rewrite lookup_insert_eq. eauto.
  - cbn. intros name [->|Hn]%lookup_insert_is_Some'; [done|]. by apply Hd.
  - cbn. intros name x [[_ <-]|[_ Hx]]%lookup_insert_Some; [exact Hc|]. exact (ok_endpoints _ Hd _ _ Hx).
  - apply Hd.
Qed.
Lemma splunk_monitor_fine st c : fine st.1 -> fine (splunk_monitor st c).1.
Proof.
  destruct st as [s n]. intros Hs. unfold splunk_monitor. destruct (_ =s "1"); [done|]. cbn [fst].
  destruct (sectionValue c "host" <>s ""), (sectionValue c "index" <>s ""), (sectionValue c "sourcetype" <>s "");
    auto 6 with migration.
Qed.
Lemma splunk_sections_fine l : forall st n, fine st.1 -> fine (splunk_sections st n l).1.
Proof.
  induction l as [|c l IH]; intros st n Hs; [done|]. cbn [splunk_sections]. apply IH.
  destruct (HasPrefix _ "monitor://"); [by apply splunk_monitor_fine|].
  destruct (Contains _ "httpout" || _); [by apply splunk_output_fine|].
  destruct (Contains _ "props"); [done|]. destruct (HasPrefix _ "source::"); [|done].
  by apply (fold_keeps fine).
Qed.

Lemma convert_fine {yamlDoc : YamlDoc} s : fine s -> fine (convert s).1.
Proof.
  intros Hs. unfold convert. destruct (_ =s _); [by apply convertDatadog_fine|].
  destruct (_ =s _); [unfold convertFluentBit; apply fluent_sections_fine; by destruct (Nat.eqb _ _)|].
  destruct (_ =s _); [by apply splunk_sections_fine|].
  destruct (_ =s _); [by apply convertNewRelic_fine|done].
Qed.

(** The exporter every pipeline uses is declared. *)
Record ready (d : draft) : Prop := {
  re_endpoints name x : dr_exporters d !! name = Some x -> clean_endpoint x;
  re_pipelines name p : dr_pipelines d !! name = Some p ->
    pl_receivers p <> [] /\ Forall (fun r => is_Some (dr_receivers d !! r)) (pl_receivers p) /\
    pl_exporters p = [exporter_of d];
  re_exporter : is_Some (dr_exporters d !! exporter_of d);
  re_attrs key v : dr_resourceAttrs d !! key = Some v -> good_attr key v
}.

Definition prepared (s : conversionState) : Prop :=
  ready (cv_draft s) /\ base `prefix_of` cv_redactions s.

Lemma exporterEndpoint_only s : only_redacts s (exporterEndpoint s).2.
Proof. unfold exporterEndpoint. destruct (_ <>s ""); [apply sanitizeEndpoint_only|done]. Qed.

Lemma exporter_prepared s : fine s ->
  prepared (if bool_decide (dr_exporters (cv_draft s) = ∅) then
             let '(endpoint, s) := exporterEndpoint s in set_draft (put_exporter "otlp" endpoint) s
           else s).
Proof.
  intros [Hd Hb]. case_bool_decide as E.
  - pose proof (exporterEndpoint_only s) as (Ee & _ & Hp).
    pose proof (exporterEndpoint_clean s) as Hc.
    destruct (exporterEndpoint s) as [endpoint s2]. cbn [fst snd] in *.
    assert (Ex : exporter_of (put_exporter "otlp" endpoint (cv_draft s2)) = "otlp").
    { unfold exporter_of. rewrite bool_decide_false; [done|]. cbn. rewrite Ee, E.
      rewrite lookup_insert_ne by done. intros [? ?]. by rewrite lookup_empty in *. }
    split; [|by transitivity (cv_redactions s)]. split; cbn -[exporter_of]; rewrite ?Ex.
    + rewrite Ee, E. intros name x [[_ <-]|[_ Hx]]%lookup_insert_Some; [done|]. by rewrite lookup_empty in Hx.
    + rewrite Ee. intros name p Hn. destruct (ok_pipelines _ Hd name p Hn) as (Hr & Hf & ->).
      split; [done|]. split; [done|]. unfold exporter_of. rewrite E, lookup_empty.
      by rewrite bool_decide_false by (by intros []).
    + rewrite lookup_insert_eq. eauto.
    + rewrite Ee. apply Hd.
  - split; [|done]. split; [apply Hd|apply Hd| |apply Hd]. apply map_choose in E as (name & x & Hx).
    assert (name = "splunk_hec") as -> by (apply (ok_exporters _ Hd); eauto).
    unfold exporter_of. rewrite bool_decide_true; eauto.
Qed.

Lemma processorList_draft s :
  cv_draft (processorList s).2 = put_processor "batch" (cv_draft s) \/
  cv_draft (processorList s).2 = put_processor "resource" (put_processor "batch" (cv_draft s)).
Proof. unfold processorList. case_bool_decide; [by left|by right]. Qed.

Lemma processor_ready d name : ready d -> ready (put_processor name d).
Proof. intros Hd. split; apply Hd. Qed.

Lemma processorList_redactions s : cv_redactions (processorList s).2 = cv_redactions s.
Proof. unfold processorList. by case_bool_decide. Qed.

Lemma pipeline_prepared s : prepared s ->
  let s' := if bool_decide (dr_pipelines (cv_draft s) = ∅) then
             let s := set_draft (put_receiver "otlp" []) s in
             let '(processors, s) := processorList s in
             set_draft (put_pipeline "traces" (mkPipeline ["otlp"] processors [defaultExporterName s])) s
           else s in
  prepared s' /\ dr_pipelines (cv_draft s') <> ∅.
Proof.
  intros [Hs Hb]. case_bool_decide as E; [|done]. cbn zeta.
  pose proof (processorList_draft (set_draft (put_receiver "otlp" []) s)) as Hp.
  pose proof (processorList_redactions (set_draft (put_receiver "otlp" []) s)) as Eb.
  destruct (processorList _) as [ps s1]. cbn [snd] in Hp, Eb.
  assert (Hk : dr_pipelines (cv_draft s1) = ∅ /\ dr_exporters (cv_draft s1) = dr_exporters (cv_draft s) /\
    dr_resourceAttrs (cv_draft s1) = dr_resourceAttrs (cv_draft s) /\
    is_Some (dr_receivers (cv_draft s1) !! "otlp"))
    by (destruct Hp as [-> | ->]; cbn; rewrite lookup_insert_eq; eauto).
  destruct Hk as (Ep & Ee & Ea & Hr). split.
  - split; [|cbn; by rewrite Eb]. split.
    + cbn. rewrite Ee. apply Hs.
    + cbn. rewrite Ep. intros name p [[<- <-]|[_ Hk]]%lookup_insert_Some; [|by rewrite lookup_empty in Hk].
      cbn. split; [done|]. split; [by constructor|done].
    + change (exporter_of (cv_draft (set_draft _ s1))) with (exporter_of (cv_draft s1)).
      cbn. unfold exporter_of. rewrite Ee. apply Hs.
    + cbn. rewrite Ea. apply Hs.
  - cbn. apply insert_non_empty.
Qed.

Lemma ensureDefaults_closed s : fine s ->
  closed (cv_draft (ensureDefaults s)) /\ base `prefix_of` cv_redactions (ensureDefaults s).
Proof.
  intros Hs. unfold ensureDefaults. apply (set_draft_fine (put_processor "batch")) in Hs.
  2: { intros Hd. split; apply Hd. }
  apply exporter_prepared in Hs. set (s2 := if bool_decide (dr_exporters _ = ∅) then _ else _) in *.
  apply pipeline_prepared in Hs. set (s3 := if bool_decide (dr_pipelines _ = ∅) then _ else _) in *.
  destruct Hs as [[Hs Hb] Hp].
  assert (Hl : ready (cv_draft (processorList s3).2) /\
    dr_pipelines (cv_draft (processorList s3).2) = dr_pipelines (cv_draft s3) /\
    Forall (fun x => x = "batch" \/ x = "resource" /\ has_resource (cv_draft (processorList s3).2) = true)
      (processorList s3).1).
  { unfold processorList. case_bool_decide as E; cbn.
    - split; [by apply processor_ready|]. split; [done|]. constructor; [by left|done].
    - split; [by do 2 apply processor_ready|]. split; [done|]. constructor; [|constructor; [by left|done]].
      right. split; [done|]. unfold has_resource. apply andb_true_iff. split.
      + apply bool_decide_true. cbn. set_solver.
      + rewrite negb_true_iff. by apply bool_decide_false. }
  pose proof (processorList_redactions s3) as Eb.
  destruct (processorList s3) as [ps s4]. cbn [fst snd] in Hl, Eb. destruct Hl as (Hr & Ep & Hf).
  split; [|cbn; by rewrite Eb]. split; cbn.
  - rewrite Ep, fmap_empty_iff. done.
  - intros name p. rewrite lookup_fmap_Some. intros (q & <- & Hq). apply Hr in Hq as (Hn & Hd & Hx).
    cbn. rewrite Hx. split; [done|]. split; [done|]. split; [exact Hf|]. split; [done|].
    constructor; [|done]. apply Hr.
  - apply Hr.
  - apply Hr.
Qed.

(** ** The secret lines of a source *)

(** The header that governs a line, and the path under which a secret of the line
    is reported. *)
Definition governing (pre : list string) : string :=
  foldl (fun section raw =>
    let line := TrimSpace raw in
    if skipped_line line then section
    else if header_line line then TrimSet (in_set [91; 93]%N) line else section) "" pre.
Definition secret_line (raw : string) : bool :=
  let line := TrimSpace raw in
  negb (skipped_line line) && negb (header_line line) && (line_key line <>s "") && secret_key (line_key line).
Definition holds_secret (lines : list string) (path : string) : Prop :=
  exists pre raw post, lines = pre ++ raw :: post /\ secret_line raw = true /\
    path = section_path_of (governing pre) (line_key (TrimSpace raw)).

Lemma governing_snoc pre raw : governing (pre ++ [raw]) =
  let line := TrimSpace raw in
  if skipped_line line then governing pre
  else if header_line line then TrimSet (in_set [91; 93]%N) line else governing pre.
Proof. unfold governing. by rewrite foldl_app. Qed.

Lemma holds_secret_snoc pre raw path : holds_secret (pre ++ [raw]) path <->
  holds_secret pre path \/
  secret_line raw = true /\ path = section_path_of (governing pre) (line_key (TrimSpace raw)).
Proof.
  split.
  - intros (a & x & b & E & Hx & ->). destruct b as [|y b _] using rev_ind.
    + apply app_inj_tail in E as [-> ->]. by right.
    + change (a ++ x :: b ++ [y]) with (a ++ (x :: b) ++ [y]) in E. rewrite (assoc_L (++)) in E.
      apply app_inj_tail in E as [-> ->]. left. by exists a, x, b.
  - intros [(a & x & b & -> & Hx & ->)|[Hx ->]].
    + exists a, x, (b ++ [raw]). split; [|done]. by rewrite <- (assoc_L (++)).
    + by exists pre, raw, [].
Qed.

Definition scanned (vendor : string) (s : conversionState) (lines : list string) :=
  foldl (scan_line vendor) (∅, "", s) lines.

Lemma scanned_spec vendor s lines :
  let '(seen, section, s') := scanned vendor s lines in
  section = governing lines /\ (forall p, p ∈ seen <-> holds_secret lines p) /\
  cv_draft s' = cv_draft s /\ cv_request s' = cv_request s /\
  exists new, cv_redactions s' = cv_redactions s ++ new /\ NoDup (mr_Path <$> new) /\
    forall p, p ∈ mr_Path <$> new <-> p ∈ seen.
Proof.
  unfold scanned. induction lines as [|raw lines IH] using rev_ind.
  { cbn. split; [done|]. split; [|split; [done|split; [done|]]].
    - intros p. split; [set_solver|]. intros (pre & x & post & E & _). by destruct pre.
    - exists []. rewrite app_nil_r. split; [done|]. split; [constructor|]. set_solver. }
  rewrite foldl_app. cbn [foldl]. destruct (foldl _ _ lines) as [[seen section] s1].
  destruct IH as (-> & Hseen & Ed & Er & new & En & Hnd & Hmem). unfold scan_line.
  rewrite governing_snoc. cbn zeta.
  assert (Hs : forall p, holds_secret (lines ++ [raw]) p <-> p ∈ seen \/ secret_line raw = true /\
    p = section_path_of (governing lines) (line_key (TrimSpace raw)))
    by (intros p; by rewrite holds_secret_snoc, Hseen).
  unfold secret_line in Hs. destruct (skipped_line (TrimSpace raw)).
  { split; [done|]. split; [intros p; rewrite Hs; naive_solver|]. eauto 8. }
  destruct (header_line (TrimSpace raw)).
  { split; [done|]. split; [intros p; rewrite Hs; naive_solver|]. eauto 8. }
  cbn [negb andb] in Hs. destruct (line_key (TrimSpace raw) =s "").
  { split; [done|]. split; [intros p; rewrite Hs; naive_solver|]. eauto 8. }
  destruct (secret_key (line_key (TrimSpace raw))); cbn [negb orb andb] in *.
  2: { split; [done|]. split; [intros p; rewrite Hs; naive_solver|]. eauto 8. }
  case_bool_decide as E.
  { split; [done|]. split; [intros p; rewrite Hs; naive_solver|]. eauto 8. }
  split; [done|]. split; [intros p; rewrite Hs; set_solver|]. split; [done|]. split; [done|].
  eexists (new ++ [_]). cbn. rewrite En, <- (assoc_L (++)). split; [done|]. rewrite fmap_app. cbn. split.
  - apply NoDup_app. split; [done|]. split; [|apply NoDup_singleton]. intros p Hp%Hmem. set_solver.
  - intros p. rewrite elem_of_app, list_elem_of_singleton, Hmem. set_solver.
Qed.
End Facts.

(** ** Theorems *)

Section Theorems.
Context `{UnicodeTables} `{UnicodeUpper} `{FloatVerb} `{MapOrder} `{OtelDiff.UrlLib} {yamlDoc : YamlDoc}.

Lemma converted_spec req :
  closed (cv_draft (converted req).1) /\
  exists new rest, cv_redactions (converted req).1 = new ++ rest /\ NoDup (mr_Path <$> new) /\
    forall p, p ∈ mr_Path <$> new <-> holds_secret (Split (mq_Source req) (Ascii.ascii_of_N 10)) p.
Proof.
  unfold converted. set (s0 := addCommonWarnings (newConversionState req)).
  pose proof (scanned_spec (mq_Vendor req) s0 (Split (mq_Source req) (Ascii.ascii_of_N 10))) as Hs.
  unfold scanSecrets. unfold scanned in Hs. destruct (foldl _ _ _) as [[seen section] s1].
  destruct Hs as (_ & Hseen & Ed & _ & new & En & Hnd & Hm). cbn [snd]. cbn in En, Ed.
  assert (Hf : fine new s1) by (split; [rewrite Ed; apply no_draft_ok|by rewrite En]).
  apply (addLabels_fine new (mq_Labels req)), (convert_fine new) in Hf.
  destruct (convert _) as [s2 err]. cbn [fst] in *.
  assert (Hf' : fine new (if err then warn (warning "parse_fallback" "warning"
             "Source could not be parsed completely; generated a low-confidence skeleton for manual completion."
             "source") s2 else s2)) by (by destruct err).
  apply ensureDefaults_closed in Hf' as [Hc [rest Hr]]. split; [exact Hc|].
  exists new, rest. split; [exact Hr|]. split; [done|]. intros p. by rewrite Hm.
Qed.

Lemma Preview_inl now req resp : Preview now req = inl resp ->
  isSupportedVendor (mq_Vendor (trimmed_request req)) = true /\
  mp_DraftYAML resp = renderDraft (cv_draft (converted (trimmed_request req)).1) /\
  mp_Redactions resp = cv_redactions (converted (trimmed_request req)).1 /\
  mv_Valid (mp_Validation resp) = rs_Valid (Validate now (mp_DraftYAML resp) None).
Proof.
  unfold Preview. destruct (_ =s ""); [done|]. destruct (isSupportedVendor _); [|done]. cbn [negb].
  destruct (N.ltb _ _); [done|]. destruct (_ =s ""); [done|].
  destruct (converted _) as [s err]. by intros [= <-].
Qed.

(** What the decoder has to make of a draft: the sections with the components the
    draft declares, and the pipelines with their lists. *)
Definition texts (l : list string) : value := VList (VStr <$> l).
Definition pipeline_value (p : pipeline) : value :=
  VMap (<["receivers" := texts (pl_receivers p)]> (<["exporters" := texts (pl_exporters p)]>
    (if pl_processors p is [] then ∅ else {["processors" := texts (pl_processors p)]}))).
Record reads_as (root : gmap string value) (d : draft) : Prop := {
  ra_receivers : exists m, root !! "receivers" = Some (VMap m) /\ dom m = dom (dr_receivers d);
  ra_processors : exists m, root !! "processors" = Some (VMap m) /\
    dom m = {["batch"]} ∪ (if has_resource d then {["resource"]} else ∅);
  ra_exporters : exists m, root !! "exporters" = Some (VMap m) /\ dom m = dom (dr_exporters d);
  ra_service : exists service m, root !! "service" = Some (VMap service) /\
    service !! "extensions" = None /\ service !! "pipelines" = Some (VMap m) /\
    m = pipeline_value <$> dr_pipelines d
}.

Lemma section_of root section m : root !! section = Some (VMap m) ->
  extractDefined (to_yaml <$> root) section = dom m.
Proof. intros E. unfold extractDefined. rewrite lookup_fmap, E. cbn. apply dom_fmap_L. Qed.

Lemma texts_read l : toStringSlice (Some (to_yaml (texts l))) = l.
Proof. cbn. induction l as [|x l IH]; [done|]. cbn in *. by rewrite IH. Qed.

Lemma pipeline_lists p (root : gmap string yaml) :
  exists m, to_yaml (pipeline_value p) = YMap m /\ is_Some (m !! "receivers") /\ is_Some (m !! "exporters") /\
    toStringSlice (m !! "receivers") = pl_receivers p /\ toStringSlice (m !! "exporters") = pl_exporters p /\
    toStringSlice (m !! "processors") = pl_processors p.
Proof.
  eexists. split; [reflexivity|]. rewrite !lookup_fmap. rewrite lookup_insert_eq.
  rewrite (lookup_insert_ne _ "receivers" "exporters") by done. rewrite lookup_insert_eq.
  rewrite (lookup_insert_ne _ "receivers" "processors") by done.
  rewrite (lookup_insert_ne _ "exporters" "processors") by done.
  split; [cbn; eauto|]. split; [cbn; eauto|]. split; [apply texts_read|]. split; [apply texts_read|].
  destruct (pl_processors p) as [|x l]; [by rewrite lookup_empty|]. rewrite lookup_singleton_eq. apply (texts_read (x :: l)).
Qed.

Lemma closed_well_formed root d : closed d -> reads_as root d -> well_formed (to_yaml <$> root).
Proof.
  intros Hc [(rm & Er & Dr) (pm & Ep & Dp) (em & Ee & De) (service & m & Es & Ex & El & ->)].
  exists (to_yaml <$> service), (to_yaml <$> (pipeline_value <$> dr_pipelines d)).
  split; [split; rewrite lookup_fmap, ?Es, ?El; done|]. split.
  { intros E. apply (cl_some d Hc). by rewrite !fmap_empty_iff in E. }
  split; [|intros id; rewrite lookup_fmap, Ex; by intros ?%elem_of_nil].
  intros name raw. rewrite <- map_fmap_compose, lookup_fmap_Some. intros (p & <- & Hp).
  apply Hc in Hp as (_ & Hr & Hps & _ & Hx). cbn. destruct (pipeline_lists p (to_yaml <$> root)) as (pl & E & H1' & H2' & Lr & Lx & Lp).
  exists pl. split; [exact E|]. split; [done|]. split; [done|]. intros section id Hs Hid.
  unfold section_names in Hs. rewrite !elem_of_cons, elem_of_nil in Hs. destruct Hs as [->|[->|[->|[]]]].
  - rewrite Lr in Hid. rewrite (section_of _ _ _ Er), Dr. apply elem_of_dom. rewrite Forall_forall in Hr. by apply Hr.
  - rewrite Lp in Hid. rewrite (section_of _ _ _ Ep), Dp. rewrite Forall_forall in Hps.
    apply Hps in Hid as [->|[-> ->]]; set_solver.
  - rewrite Lx in Hid. rewrite (section_of _ _ _ Ee), De. apply elem_of_dom. rewrite Forall_forall in Hx. by apply Hx.
Qed.

(** The draft a preview renders. *)
Definition migrated_draft (req : ConfigMigrationPreviewRequest) : draft :=
  cv_draft (converted (trimmed_request req)).1.


End Theorems.

(** ** The order of ranging over maps *)

(** Two runs in the same draft of the same request. *)
Definition agree (a b : conversionState) : Prop := cv_draft a = cv_draft b /\ cv_request a = cv_request b.

Lemma agree_refl s : agree s s.
Proof. done. Qed.
Lemma agree_draft f a b : agree a b -> agree (set_draft f a) (set_draft f b).
Proof. intros [Hd Hr]. split; [cbn; by rewrite Hd|done]. Qed.
Lemma agree_exporter a b : agree a b -> defaultExporterName a = defaultExporterName b.
Proof. intros [Hd _]. unfold defaultExporterName. by rewrite Hd. Qed.

Lemma fold_agree {A} (f g : conversionState -> A -> conversionState) l a b :
  (forall a b x, agree a b -> agree (f a x) (g b x)) -> agree a b -> agree (foldl f a l) (foldl g b l).
Proof. intros Hf. revert a b. induction l as [|x l IH]; intros a b Hab; [done|]. cbn. by apply IH, Hf. Qed.

(** A loop that only reports leaves both runs as they are. *)
Lemma report_agree {A} (f : conversionState -> A -> conversionState) l l' a b :
  (forall s x, agree (f s x) s) -> agree a b -> agree (foldl f a l) (foldl f b l').
Proof.
  intros Hf. assert (Hl : forall l s, agree (foldl f s l) s).
  { clear -Hf. induction l as [|x l IH]; intros s; [done|]. cbn.
    destruct (IH (f s x)) as [Hd Hr], (Hf s x) as [Hd' Hr']. split; congruence. }
  intros [Hd Hr]. destruct (Hl l a) as [? ?], (Hl l' b) as [? ?]. split; congruence.
Qed.

Lemma fold_perm {A B} (f : B -> A -> B) l l' b :
  (forall b x y, f (f b x) y = f (f b y) x) -> l ≡ₚ l' -> foldl f b l = foldl f b l'.
Proof.
  intros Hc Hl. revert b. induction Hl as [|x l l' _ IH|x y l|l l' l'' _ IH _ IH']; intros b; cbn.
  - done.
  - apply IH.
  - by rewrite Hc.
  - by rewrite IH.
Qed.

Lemma put_attr_comm (v : string -> string) d x y :
  put_attr y (v y) (put_attr x (v x) d) = put_attr x (v x) (put_attr y (v y) d).
Proof.
  unfold put_attr. cbn. f_equal. destruct (decide (x = y)) as [->|Hn]; [done|]. by rewrite insert_insert_ne.
Qed.

Section Orders.
Context `{UnicodeTables} `{UnicodeUpper} `{FloatVerb} `{OtelDiff.UrlLib} {yamlDoc : YamlDoc} (o1 o2 : MapOrder).

Lemma ranged_perm {V} place (m : gmap string V) : ranged (order := o1) place m ≡ₚ ranged (order := o2) place m.
Proof. unfold ranged. by rewrite !visit_perm. Qed.

Lemma agree_log a b name paths c d e g : agree a b ->
  agree (addLogReceiver a name paths c d e g) (addLogReceiver b name paths c d e g).
Proof.
  intros Hab. apply (agree_draft (put_receiver name paths)) in Hab. destruct Hab as [Hd Hr]. split; [|done].
  unfold addLogReceiver. cbn zeta. cbn [cv_draft set_draft count_mapped give_evidence].
  unfold defaultExporterName. cbn [cv_draft set_draft] in *. by rewrite Hd.
Qed.

Definition attr_step (key v : string) (d : draft) : draft :=
  if attr_allowed key v then put_attr key (TrimSpace v) d else d.
Lemma attr_draft s key v c d : cv_draft (addResourceAttr s key v c d) = attr_step key v (cv_draft s) /\
  cv_request (addResourceAttr s key v c d) = cv_request s.
Proof. unfold addResourceAttr, attr_step. by destruct (attr_allowed key v). Qed.
Lemma agree_attr a b key v c d : agree a b ->
  agree (addResourceAttr a key v c d) (addResourceAttr b key v c d).
Proof.
  intros [Hd Hr]. destruct (attr_draft a key v c d) as [E1 E2], (attr_draft b key v c d) as [E3 E4].
  split; congruence.
Qed.

(** Attributes named by the key that is visited may come in any order. *)
Lemma attrs_fold (v : string -> string) place rule l s :
  cv_draft (foldl (fun s k => addResourceAttr s k (v k) (place k) rule) s l)
    = foldl (fun d k => attr_step k (v k) d) (cv_draft s) l /\
  cv_request (foldl (fun s k => addResourceAttr s k (v k) (place k) rule) s l) = cv_request s.
Proof.
  revert s. induction l as [|k l IH]; intros s; [done|]. cbn.
  destruct (IH (addResourceAttr s k (v k) (place k) rule)) as [-> ->].
  destruct (attr_draft s k (v k) (place k) rule) as [-> ->]. done.
Qed.
Lemma agree_attrs (v : string -> string) place rule l l' a b : l ≡ₚ l' -> agree a b ->
  agree (foldl (fun s k => addResourceAttr s k (v k) (place k) rule) a l)
        (foldl (fun s k => addResourceAttr s k (v k) (place k) rule) b l').
Proof.
  intros Hl [Hd Hr]. destruct (attrs_fold v place rule l a) as [E1 E2], (attrs_fold v place rule l' b) as [E3 E4].
  split; [|congruence]. rewrite E1, E3, Hd. apply fold_perm; [|done]. intros d x y. unfold attr_step.
  destruct (attr_allowed x _), (attr_allowed y _); try done. apply (put_attr_comm (fun k => TrimSpace (v k))).
Qed.

Lemma agree_labels labels a b : agree a b ->
  agree (addLabels (order := o1) labels a) (addLabels (order := o2) labels b).
Proof.
  intros [Hd Hr]. unfold addLabels. set (v k := TrimSpace (default "" (labels !! k))).
  assert (Hl : forall l s, cv_draft (foldl (fun s k => set_draft (put_attr k (v k)) s) s l)
      = foldl (fun d k => put_attr k (v k) d) (cv_draft s) l /\
    cv_request (foldl (fun s k => set_draft (put_attr k (v k)) s) s l) = cv_request s)
    by (induction l as [|k l IH]; intros s; [done|]; cbn; exact (IH (set_draft (put_attr k (v k)) s))).
  split; [|by rewrite !(proj2 (Hl _ _))]. rewrite !(proj1 (Hl _ _)), Hd.
  apply fold_perm; [intros d x y; apply put_attr_comm|]. unfold sort_strings. rewrite !sort_by_perm.
  apply filter_perm, ranged_perm.
Qed.

#[local] Hint Resolve agree_draft agree_attr agree_log agree_refl : migration.
#[local] Hint Extern 1 (agree _ _) => progress cbn [fst snd] : migration.

Lemma agree_log_item a b i raw : agree a b -> agree (log_item (order := o1) a i raw) (log_item (order := o2) b i raw).
Proof.
  intros Hab. unfold log_item. apply report_agree; [intros s k; by destruct (_ || _)|].
  destruct (_ && _); [|done].
  destruct (asString (item_of raw !! "source") <>s ""), (asString (item_of raw !! "service") <>s "");
    auto with migration.
Qed.
Lemma agree_log_items l : forall a b i, agree a b ->
  agree (log_items (order := o1) a i l) (log_items (order := o2) b i l).
Proof. induction l as [|x l IH]; intros a b i Hab; [done|]. apply IH. by apply agree_log_item. Qed.

Lemma agree_pipeline pipe names a b : agree a b ->
  agree (set_draft (put_pipeline pipe (mkPipeline names [] [defaultExporterName a])) a)
        (set_draft (put_pipeline pipe (mkPipeline names [] [defaultExporterName b])) b).
Proof. intros Hab. rewrite (agree_exporter a b Hab). auto with migration. Qed.

Lemma agree_apm root a b : agree a b -> agree (datadog_apm root a) (datadog_apm root b).
Proof.
  intros Hab. unfold datadog_apm. destruct (_ !! _) as [[]|]; try done. destruct (asBool _); [|done].
  apply (agree_draft (put_receiver "otlp" [])) in Hab. exact (agree_pipeline "traces" ["otlp"] _ _ Hab).
Qed.
Lemma agree_statsd root a b : agree a b -> agree (datadog_statsd root a) (datadog_statsd root b).
Proof.
  intros Hab. unfold datadog_statsd. destruct (_ <>s ""); [|done]. destruct (negb _); [done|].
  apply (agree_draft (put_receiver "statsd" [])), (agree_draft (put_options "statsd"
    ["endpoint: 0.0.0.0:" +:+ asString (root !! "dogstatsd_port")])) in Hab.
  exact (agree_pipeline "metrics" ["statsd"] _ _ Hab).
Qed.
Lemma agree_tags root a b : agree a b -> agree (datadog_tags root a) (datadog_tags root b).
Proof.
  intros Hab. unfold datadog_tags. apply fold_agree; [|done]. intros x y tag Hxy.
  destruct (Cut tag ":") as [k [v|]]; auto with migration.
Qed.
Lemma agree_datadog a b : agree a b ->
  agree (convertDatadog (order := o1) a).1 (convertDatadog (order := o2) b).1.
Proof.
  intros Hab. assert (Hf : agree (set_format "yaml" a) (set_format "yaml" b)) by exact Hab.
  unfold convertDatadog. rewrite (proj2 Hf). destruct (yaml_document _) as [doc|]; [|done]. cbn zeta. cbn [fst].
  set (x := datadog_statsd _ _). set (y := datadog_statsd _ _). assert (Hxy : agree x y).
  { apply agree_statsd, agree_apm, agree_log_items, agree_tags. unfold datadog_logs_config.
    destruct (default ∅ doc !! "logs_config") as [[]|];
      try (apply report_agree; [intros s k; by destruct (secret_key k)|]);
      (destruct (_ <>s ""); [by apply agree_attr|exact Hf]). }
  by destruct (bool_decide _).
Qed.

Lemma agree_toggles root a b : agree a b ->
  agree (metrics_toggles (order := o1) root a) (metrics_toggles (order := o2) root b).
Proof.
  intros Hab. assert (Hk : forall k k', agree (host_metrics a k) (host_metrics b k')).
  { intros k k'. apply (agree_draft (put_receiver "hostmetrics" [])), (agree_draft (put_options "hostmetrics"
      ["collection_interval: 60s"; "scrapers:"; "  cpu: {}"; "  memory: {}"; "  filesystem: {}"])) in Hab.
    exact (agree_pipeline "metrics" ["hostmetrics"] _ _ Hab). }
  unfold metrics_toggles. destruct (List.find _ (ranged (order := o1) _ _)) as [k|] eqn:E1,
    (List.find _ (ranged (order := o2) _ _)) as [k'|] eqn:E2; [apply Hk| | |done]; exfalso.
  - apply find_some in E1 as [Hi Ht]. assert (Hn : metrics_toggle root k = false); [|congruence].
    apply (find_none _ _ E2), list_elem_of_In. rewrite <- (ranged_perm "metrics" root). by apply list_elem_of_In.
  - apply find_some in E2 as [Hi Ht]. assert (Hn : metrics_toggle root k' = false); [|congruence].
    apply (find_none _ _ E1), list_elem_of_In. rewrite (ranged_perm "metrics" root). by apply list_elem_of_In.
Qed.
Lemma agree_newrelic a b : agree a b ->
  agree (convertNewRelic (order := o1) a).1 (convertNewRelic (order := o2) b).1.
Proof.
  intros Hab. assert (Hf : agree (set_format "yaml" a) (set_format "yaml" b)) by exact Hab.
  unfold convertNewRelic. rewrite (proj2 Hf). destruct (yaml_document _) as [doc|]; [|done]. cbn zeta. cbn [fst].
  apply report_agree; [intros s k; destruct (existsb _ _); [done|]; by destruct (_ && _)|].
  apply agree_toggles. set (root := default ∅ doc).
  assert (Hc : forall x y, agree x y ->
    agree (custom_attributes (order := o1) root x) (custom_attributes (order := o2) root y)).
  { intros x y Hxy. unfold custom_attributes. destruct (root !! "custom_attributes") as [[]|]; try done.
    apply (agree_attrs (fun k => asString (m !! k))); [apply ranged_perm|done]. }
  destruct (_ <>s ""); [apply agree_log|]; apply Hc;
    (destruct (_ <>s ""); [by apply agree_attr|exact Hf]).
Qed.

Lemma sanitizeEndpoint_text x path a b : (sanitizeEndpoint x path a).1 = (sanitizeEndpoint x path b).1.
Proof.
  unfold sanitizeEndpoint. destruct (_ =s ""); [done|]. destruct (OtelDiff.url_Parse _) as [u|]; [|done].
  destruct (_ || _); [done|]. by destruct (_ <>s "").
Qed.
Lemma agree_sanitize x path a b : agree a b -> agree (sanitizeEndpoint x path a).2 (sanitizeEndpoint x path b).2.
Proof.
  intros [Hd Hr]. destruct (sanitizeEndpoint_only x path a) as (E1 & E2 & _),
    (sanitizeEndpoint_only x path b) as (E3 & E4 & _). split; congruence.
Qed.

Lemma agree_output a b c : agree a b -> agree (splunk_output a c) (splunk_output b c).
Proof.
  intros Hab. unfold splunk_output. destruct (_ <>s ""); [|done]. cbn zeta.
  match goal with |- context [sanitizeEndpoint ?x ?p a] =>
    pose proof (sanitizeEndpoint_text x p a b) as Ht; pose proof (agree_sanitize x p a b Hab) as Hs;
    destruct (sanitizeEndpoint x p a) as [t1 s1], (sanitizeEndpoint x p b) as [t2 s2] end.
  cbn [fst snd] in *. subst t2. apply (agree_draft _ (give_evidence _ _) (give_evidence _ _)).
  exact (agree_draft (put_exporter "splunk_hec" t1) s1 s2 Hs).
Qed.
Lemma agree_monitor a b n c : agree a b ->
  agree (splunk_monitor (a, n) c).1 (splunk_monitor (b, n) c).1 /\
  (splunk_monitor (a, n) c).2 = (splunk_monitor (b, n) c).2.
Proof.
  intros Hab. unfold splunk_monitor. destruct (_ =s "1"); [done|]. cbn zeta. cbn [fst snd]. split; [|done].
  destruct (sectionValue c "host" <>s ""), (sectionValue c "index" <>s ""), (sectionValue c "sourcetype" <>s "");
    auto 6 with migration.
Qed.
Lemma agree_sections l : forall a b n k, agree a b ->
  agree (splunk_sections (order := o1) (a, n) k l).1 (splunk_sections (order := o2) (b, n) k l).1.
Proof.
  induction l as [|c l IH]; intros a b n k Hab; [done|]. cbn [splunk_sections].
  destruct (HasPrefix _ "monitor://").
  { destruct (agree_monitor a b n c Hab) as [Hm En].
    destruct (splunk_monitor (a, n) c) as [a' n1], (splunk_monitor (b, n) c) as [b' n2]. cbn in *. subst n2.
    by apply IH. }
  destruct (Contains _ "httpout" || _); [apply IH; by apply agree_output|].
  destruct (Contains _ "props"); [by apply IH|]. destruct (HasPrefix _ "source::"); [|by apply IH].
  apply IH. by apply report_agree.
Qed.

Lemma agree_convert a b : mq_Vendor (cv_request a) <> VendorFluentBit -> agree a b ->
  agree (convert (order := o1) a).1 (convert (order := o2) b).1 /\
  (convert (order := o1) a).2 = (convert (order := o2) b).2.
Proof.
  intros Hv [Hd Hr]. unfold convert. rewrite <- Hr.
  destruct (_ =s VendorDatadogAgent).
  { split; [by apply agree_datadog|]. unfold convertDatadog. cbn [cv_request set_format]. rewrite Hr.
    by destruct (yaml_document _). }
  destruct (_ =s VendorFluentBit) eqn:E; [by apply String.eqb_eq in E|].
  destruct (_ =s VendorSplunkForwarder).
  { split; [|done]. unfold convertSplunk. cbn [cv_request set_format fst]. rewrite Hr. by apply agree_sections. }
  destruct (_ =s VendorNewRelicInfra); [|done].
  split; [by apply agree_newrelic|]. unfold convertNewRelic. cbn [cv_request set_format]. rewrite Hr.
  by destruct (yaml_document _).
Qed.

Lemma agree_processors a b : agree a b -> agree (processorList a).2 (processorList b).2 /\
  (processorList a).1 = (processorList b).1.
Proof.
  intros [Hd Hr]. unfold processorList. cbn [cv_draft set_draft put_processor dr_resourceAttrs]. rewrite Hd.
  case_bool_decide; (split; [|done]); by repeat apply agree_draft.
Qed.
Lemma agree_defaults a b : agree a b -> cv_draft (ensureDefaults a) = cv_draft (ensureDefaults b).
Proof.
  intros Hab. apply (agree_draft (put_processor "batch")) in Hab. unfold ensureDefaults.
  set (a1 := set_draft (put_processor "batch") a) in *. set (b1 := set_draft (put_processor "batch") b) in *.
  clearbody a1 b1. clear a b. set (a2 := if bool_decide (dr_exporters (cv_draft a1) = ∅) then _ else a1).
  set (b2 := if bool_decide (dr_exporters (cv_draft b1) = ∅) then _ else b1).
  assert (Hab2 : agree a2 b2).
  { unfold a2, b2. rewrite (proj1 Hab). case_bool_decide; [|done]. unfold exporterEndpoint.
    rewrite (proj2 Hab). destruct (_ <>s ""); [|by apply agree_draft].
    match goal with |- context [sanitizeEndpoint ?x ?p a1] =>
      pose proof (sanitizeEndpoint_text x p a1 b1) as Ht; pose proof (agree_sanitize x p a1 b1 Hab) as Hs;
      destruct (sanitizeEndpoint x p a1) as [t1 s1], (sanitizeEndpoint x p b1) as [t2 s2] end.
    cbn [fst snd] in *. subst t2. by apply agree_draft. }
  clearbody a2 b2. clear Hab. set (a3 := if bool_decide (dr_pipelines (cv_draft a2) = ∅) then _ else a2).
  set (b3 := if bool_decide (dr_pipelines (cv_draft b2) = ∅) then _ else b2).
  assert (Hab3 : agree a3 b3).
  { unfold a3, b3. rewrite (proj1 Hab2). case_bool_decide; [|done]. cbn zeta.
    apply (agree_draft (put_receiver "otlp" [])), agree_processors in Hab2 as [Hp Ep].
    destruct (processorList _) as [p1 s1], (processorList _) as [p2 s2]. cbn [fst snd] in *. subst p2.
    rewrite (agree_exporter s1 s2 Hp). by apply agree_draft. }
  clearbody a3 b3. apply agree_processors in Hab3 as [Hp Ep].
  destruct (processorList a3) as [p1 s1], (processorList b3) as [p2 s2]. cbn [fst snd] in *. subst p2.
  rewrite (agree_exporter s1 s2 Hp). cbn. by rewrite (proj1 Hp).
Qed.

Lemma converted_agree req : mq_Vendor req <> VendorFluentBit ->
  cv_draft (converted (order := o1) req).1 = cv_draft (converted (order := o2) req).1.
Proof.
  intros Hv. unfold converted. set (s0 := scanSecrets _ _ _).
  assert (Hr : cv_request s0 = req).
  { unfold s0, scanSecrets. pose proof (scanned_spec (mq_Vendor req) (addCommonWarnings (newConversionState req))
      (Split (mq_Source req) (Ascii.ascii_of_N 10))) as Hs. unfold scanned in Hs.
    destruct (foldl _ _ _) as [[seen section] s1]. destruct Hs as (_ & _ & _ & E & _). exact E. }
  pose proof (agree_labels (mq_Labels req) s0 s0 (agree_refl s0)) as Hl.
  assert (Hq : cv_request (addLabels (order := o1) (mq_Labels req) s0) = req).
  { rewrite <- Hr at 2. apply (fold_keeps (fun s => cv_request s = cv_request s0)); [|done]. by intros s k Hk. }
  destruct (agree_convert _ _ ltac:(rewrite Hq; exact Hv) Hl) as [Hc He].
  destruct (convert (order := o1) _) as [c1 e1], (convert (order := o2) _) as [c2 e2]. cbn [fst snd] in *. subst e2.
  apply agree_defaults. by destruct e1.
Qed.
End Orders.

(** the draft does not depend on the order in which Go ranges over maps, for
    every vendor but Fluent Bit: any other order gives a preview with the same text
    and the same verdict. *)
Theorem draft_ignores_map_order `{UnicodeTables} `{UnicodeUpper} `{FloatVerb} `{OtelDiff.UrlLib}
    {yamlDoc : YamlDoc} (o1 o2 : MapOrder) now req r1
    (Hv : TrimSpace (mq_Vendor req) <> VendorFluentBit) (Hp : Preview (order := o1) now req = inl r1) :
  exists r2, Preview (order := o2) now req = inl r2 /\ mp_DraftYAML r2 = mp_DraftYAML r1 /\
    mp_Validation r2 = mp_Validation r1.
Proof.
  revert Hp. unfold Preview. destruct (_ =s ""); [done|]. destruct (isSupportedVendor _); [|done]. cbn [negb].
  destruct (N.ltb _ _); [done|]. destruct (_ =s ""); [done|].
  pose proof (converted_agree o1 o2 (trimmed_request req) Hv) as Hd.
  destruct (converted (order := o1) _) as [s1 e1], (converted (order := o2) _) as [s2 e2]. cbn [fst] in Hd.
  intros [= <-]. eexists. split; [reflexivity|]. cbn. by rewrite Hd.
Qed.

(** ** Ports *)

(** A port is accepted exactly when it is the decimal form of a number from 1 to
    65535: no sign, no leading zero, no blank. *)
Theorem validPort_iff port : validPort port = true <->
  exists n, (1 <= n <= 65535)%Z /\ port = FormatInt n.
Proof.
  split.
  - unfold validPort. destruct (Atoi port) as [n ok]. rewrite !andb_true_iff. intros [[[_ Hf] H1] H2].
    exists n. split; [lia|]. by apply String.eqb_eq in Hf.
  - intros (n & Hn & ->). unfold validPort, FormatInt. destruct n as [|p|p]; try lia.
    rewrite Atoi_pretty by (unfold max_int64; lia). rewrite String.eqb_refl. lia.
Qed.

(** ** Samples *)

(** Byte-wise case tables, the order of the map itself and its reverse. *)
Definition byte_upper : UnicodeUpper := {| unicode_upper := map_str upper_char |}.
Definition no_floats : FloatVerb := {| fmt_v := fun _ => "" |}.
Definition straight : MapOrder := {| visit := fun _ keys => keys; visit_perm := fun _ keys => Permutation_refl keys |}.
Definition backwards : MapOrder :=
  {| visit := fun _ keys => rev keys; visit_perm := fun _ keys => symmetry (Permutation_rev keys) |}.

Definition lines (l : list string) : string := Join nl l.
Definition no_context := mkContext "" "" "" "" "".
Definition splunk_source : string :=
  lines ["[monitor:///var/log/app.log]"; "sourcetype = app"; ""; "[httpout]";
         "uri = https://user:pw@hec.example/services?token=abc&x=1"; "token = xyz"].
Definition splunk_request := mkPreviewRequest "" " splunk_forwarder " splunk_source "" {["team" := "core"]} no_context.

(** What a YAML decoder makes of the draft. *)
Definition splunk_document : gmap string value :=
  {["receivers" := VMap {["filelog/splunk_monitor_0" := VMap {["include" := texts ["/var/log/app.log"]]}]};
    "processors" := VMap {["resource" := VNull; "batch" := VMap ∅]};
    "exporters" := VMap {["splunk_hec" := VMap {["token" := VStr "${SPLUNK_HEC_TOKEN}"]}]};
    "service" := VMap {["pipelines" := VMap {["logs" :=
       pipeline_value (mkPipeline ["filelog/splunk_monitor_0"] ["resource"; "batch"] ["splunk_hec"])]}]}]}.
Definition splunk_yaml : YamlDoc := {| yaml_document := fun _ => Ok (Some splunk_document) |}.

#[local] Existing Instances byte_tables byte_upper no_floats straight OtelDiff.plain_urls splunk_yaml.

Definition splunk_preview : ConfigMigrationPreviewResponse :=
  match Preview 5 splunk_request with
  | inl r => r
  | inr _ => mkPreview "" "" "" "" "" "" "" [] [] [] [] (mkValidation false "" "" 0) (mkSaveHint "" "" [] "" "")
  end.
Lemma splunk_preview_ok : Preview 5 splunk_request = inl splunk_preview.
Proof. vm_compute. reflexivity. Qed.

Example splunk_draft_text : mp_DraftYAML splunk_preview = lines
  ["receivers:"; "  filelog/splunk_monitor_0:"; "    include: [/var/log/app.log]"; "processors:"; "  resource:";
   "    attributes:"; "      - key: splunk.sourcetype"; "        value: app"; "        action: upsert";
   "      - key: team"; "        value: core"; "        action: upsert"; "  batch: {}"; "exporters:";
   "  splunk_hec:"; "    endpoint: " +:+ Quote "https://hec.example/services?token=${REDACTED_SECRET}&x=1";
   "    token: ${SPLUNK_HEC_TOKEN}"; "service:"; "  pipelines:"; "    logs:";
   "      receivers: [filelog/splunk_monitor_0]"; "      processors: [resource, batch]";
   "      exporters: [splunk_hec]"; ""].
Proof. vm_compute. reflexivity. Qed.

Lemma splunk_reads : reads_as splunk_document (migrated_draft splunk_request).
Proof.
  split.
  - eexists. split; [vm_compute; reflexivity|]. apply (bool_decide_unpack _). vm_compute. exact I.
  - eexists. split; [vm_compute; reflexivity|]. apply (bool_decide_unpack _). vm_compute. exact I.
  - eexists. split; [vm_compute; reflexivity|]. apply (bool_decide_unpack _). vm_compute. exact I.
  - eexists _, _. split; [vm_compute; reflexivity|]. split; [vm_compute; reflexivity|].
    split; [vm_compute; reflexivity|]. vm_compute. reflexivity.
Qed.


Lemma splunk_secret : holds_secret (Split (mq_Source splunk_request) (Ascii.ascii_of_N 10)) "httpout.token".
Proof.
  exists ["[monitor:///var/log/app.log]"; "sourcetype = app"; ""; "[httpout]";
          "uri = https://user:pw@hec.example/services?token=abc&x=1"], "token = xyz", [].
  split; [vm_compute; reflexivity|]. split; vm_compute; reflexivity.
Qed.

Lemma draft_ignores_map_order_witness : exists r2,
  Preview (order := backwards) 5 splunk_request = inl r2 /\ mp_DraftYAML r2 = mp_DraftYAML splunk_preview.
Proof.
  destruct (draft_ignores_map_order straight backwards 5 splunk_request splunk_preview
    ltac:(vm_compute; discriminate) splunk_preview_ok) as (r2 & Hp & Hd & _). exact (ex_intro _ r2 (conj Hp Hd)).
Defined.

(** The draft and the redacted paths of a source. *)
Definition shown (order : MapOrder) (vendor source : string) : option (string * list string) :=
  match Preview (order := order) 5 (mkPreviewRequest "" vendor source "" ∅ no_context) with
  | inl r => Some (mp_DraftYAML r, mr_Path <$> mp_Redactions r)
  | inr _ => None
  end.

(** A record that Fluent Bit adds is one key and its text: a secret in it is
    copied, and not reported. *)
Example record_copies_a_secret :
  match shown straight VendorFluentBit (lines ["[FILTER]"; "Name record_modifier"; "Record token s3cr3t"]) with
  | Some (text, redacted) => Contains text "token s3cr3t" = true /\ redacted = []
  | None => False
  end.
Proof. vm_compute. done. Qed.

(** The word [hec] is also in [healthcheck]. *)
Example healthcheck_is_taken_for_hec :
  match shown straight VendorSplunkForwarder (lines ["[healthcheck]"; "uri = probe.local"]) with
  | Some (text, _) => Contains text ("  splunk_hec:" +:+ nl +:+ "    endpoint: probe.local") = true
  | None => False
  end.
Proof. vm_compute. done. Qed.

(** A monitor is recognised in any case, and its prefix is cut in lower case only. *)
Example upper_monitor_keeps_prefix :
  match shown straight VendorSplunkForwarder (lines ["[MONITOR:///var/log/a.log]"]) with
  | Some (text, _) => Contains text ("include: [" +:+ Quote "MONITOR:///var/log/a.log" +:+ "]") = true
  | None => False
  end.
Proof. vm_compute. done. Qed.

(** Two keys of a filter that are cleaned to the same name: which value is kept
    depends on the order of the map. *)
Example fluent_draft_depends_on_order :
  shown straight VendorFluentBit (lines ["[FILTER]"; "Name modify"; "a$ x"; "a% y"]) <>
  shown backwards VendorFluentBit (lines ["[FILTER]"; "Name modify"; "a$ x"; "a% y"]).
Proof. vm_compute. discriminate. Qed.

(** A text that YAML reads as a boolean is not quoted, and a key may begin with a
    line break. *)
Example boolean_text_is_not_quoted : quoteYAML "true" = "true".
Proof. reflexivity. Qed.
Example key_with_line_break : safeAttributeKey (nl +:+ "key") = true.
Proof. vm_compute. reflexivity. Qed.

End Migration.
