(* ===== verification/Accounts.v ===== *)
(** * Accounts

    Users, groups, memberships and preferences: the tables of internal/store
    (users.go, groups.go, user_groups.go, user_preferences.go) with their
    constraints, the handlers on one's own account (internal/api mehandler.go,
    passwordhandler.go, prefshandler.go), and the first administrator
    (pkg/bootstrap). A transaction is one step of the model; every statement of it
    can fail, and a commit can fail after it took effect. *)

From S2P Require Import Prelude GoString Models Store Alerts Access Api Fleet ConfigLibrary.
Import Access.

Module Accounts.

(** ** Tables *)

(* src/pkg/models/models.go:417-422 User *)
Record User := mkUser {
  au_ID : string; au_Email : string; au_PasswordHash : string; au_TenantID : option string }.
(* src/pkg/models/models.go:428-434 Group *)
Record Group := mkGroup {
  gp_ID : string; gp_Name : string; gp_Role : string; gp_IsSystem : bool; gp_CreatedAt : Time }.
(* src/pkg/models/models.go:444-449 UserPreferences *)
Record UserPreferences := mkPrefs {
  up_UserID : string; up_Theme : string; up_Language : string; up_UpdatedAt : Time }.

(** The four tables, by primary key. *)
Record accounts := mkAccounts {
  ac_users : gmap string User; ac_groups : gmap string Group;
  ac_members : gset (string * string); ac_prefs : gmap string UserPreferences
}.
Definition set_users (m : gmap string User) (a : accounts) : accounts :=
  mkAccounts m (ac_groups a) (ac_members a) (ac_prefs a).
Definition set_members (m : gset (string * string)) (a : accounts) : accounts :=
  mkAccounts (ac_users a) (ac_groups a) m (ac_prefs a).
Definition set_prefs (m : gmap string UserPreferences) (a : accounts) : accounts :=
  mkAccounts (ac_users a) (ac_groups a) (ac_members a) m.

(** The errors callers tell apart, and the others. *)
Inductive store_error :=
| ErrNoRows | ErrUserNotFound | ErrConstraint | ErrFailed | ErrRefused (text : string).

(** A statement outside a transaction: refused by a constraint, done, or failed
    before or after it took effect. *)
Definition statement (ok : bool) (f : io) (a a' : accounts) : accounts * option store_error :=
  if negb ok then (a, Some ErrConstraint)
  else match f with
  | IoOk => (a', None)
  | IoFail executed => (if executed then a' else a, Some ErrFailed)
  end.
Definition answer {A} (f : io) (x : A + store_error) : A + store_error :=
  match f with IoOk => x | IoFail _ => inr ErrFailed end.

Definition email_taken (a : accounts) (id email : string) : bool :=
  existsb (fun u => (au_Email u =s email) && (au_ID u <>s id)) (map_to_list (ac_users a)).*2.

Section Store.
Context `{Alerts.Collation} `{TimestampColumn}.

(** [ORDER BY name]. *)
Definition by_name (l : list Group) : list Group :=
  sort_by (fun x y => match Alerts.coll (gp_Name x) (gp_Name y) with Lt => true | _ => false end) l.

Definition user_insertable (a : accounts) (u : User) : bool :=
  bool_decide (ac_users a !! au_ID u = None) && negb (email_taken a (au_ID u) (au_Email u)).
Definition insert_user (u : User) (a : accounts) : accounts := set_users (<[au_ID u := u]> (ac_users a)) a.
(* src/internal/store/users.go:13-20 CreateUser *)
Definition CreateUser (a : accounts) (f : io) (u : User) : accounts * option store_error :=
  statement (user_insertable a u) f a (insert_user u a).

Definition with_email (a : accounts) (email : string) : option User :=
  List.find (fun u => au_Email u =s email) (map_to_list (ac_users a)).*2.
(* src/internal/store/users.go:97-110 GetUserByEmail *)
Definition GetUserByEmail (a : accounts) (f : io) (email : string) : User + store_error :=
  answer f match with_email a email with Some u => inl u | None => inr ErrUserNotFound end.

(* src/internal/store/users.go:113-131 UpdateUser *)
Definition UpdateUser (a : accounts) (f : io) (u : User) : accounts * option store_error :=
  match ac_users a !! au_ID u with
  | None => (a, Some match f with IoOk => ErrNoRows | IoFail _ => ErrFailed end)
  | Some _ => statement (negb (email_taken a (au_ID u) (au_Email u))) f a (insert_user u a)
  end.

Definition group_named (a : accounts) (name : string) : option Group :=
  List.find (fun g => gp_Name g =s name) (map_to_list (ac_groups a)).*2.
(* src/internal/store/groups.go:11-33 ListSystemGroups *)
Definition ListSystemGroups (a : accounts) (f : io) : list Group + store_error :=
  answer f (inl (by_name (List.filter gp_IsSystem (map_to_list (ac_groups a)).*2))).
(* src/internal/store/groups.go:36-51 GetGroupByName *)
Definition GetGroupByName (a : accounts) (f : io) (name : string) : Group + store_error :=
  answer f match group_named a name with Some g => inl g | None => inr ErrNoRows end.

Definition is_user (a : accounts) (id : string) : bool := bool_decide (is_Some (ac_users a !! id)).
Definition is_group (a : accounts) (id : string) : bool := bool_decide (is_Some (ac_groups a !! id)).

(* src/internal/store/user_groups.go:12-25 AttachUserToGroupByName *)
Definition AttachUserToGroupByName (a : accounts) (f1 f2 : io) (userID groupName : string)
  : accounts * option store_error :=
  match GetGroupByName a f1 groupName with
  | inr e => (a, Some e)
  | inl g => statement (is_user a userID && is_group a (gp_ID g)) f2 a
               (set_members ({[(userID, gp_ID g)]} ∪ ac_members a) a)
  end.

(* src/internal/store/user_groups.go:35-54 DetachUserFromGroup *)
Definition DetachUserFromGroup (a : accounts) (f1 f2 f3 : io) (userID groupName : string)
  : accounts * option store_error :=
  match f1 with
  | IoFail _ => (a, Some ErrFailed)
  | IoOk =>
      if negb (is_user a userID) then (a, Some ErrNoRows)
      else match GetGroupByName a f2 groupName with
      | inr e => (a, Some e)
      | inl g => statement true f3 a (set_members (ac_members a ∖ {[(userID, gp_ID g)]}) a)
      end
  end.

(** The statements of a transaction: [fs] says which of them fail; the last one
    is the commit. *)
Definition committed (f : io) (a a' : accounts) : accounts * option store_error :=
  match f with
  | IoOk => (a', None)
  | IoFail executed => (if executed then a' else a, Some ErrFailed)
  end.
Definition failed (f : io) : bool := match f with IoOk => false | IoFail _ => true end.

(** One insertion per group identifier: the primary key refuses a repeated one. *)
Fixpoint insert_members (a : accounts) (userID : string) (ids : list string) (fs : nat -> io) (n : nat)
  : accounts + store_error :=
  match ids with
  | [] => inl a
  | id :: ids =>
      if failed (fs n) then inr ErrFailed
      else if bool_decide ((userID, id) ∈ ac_members a) || negb (is_group a id) then inr ErrConstraint
      else insert_members (set_members ({[(userID, id)]} ∪ ac_members a) a) userID ids fs (S n)
  end.
Fixpoint resolve_groups (a : accounts) (fs : nat -> io) (n : nat) (names : list string)
  : list string + store_error :=
  match names with
  | [] => inl []
  | name :: names =>
      match GetGroupByName a (fs n) name with
      | inr e => inr e
      | inl g => match resolve_groups a fs (S n) names with
                 | inr e => inr e
                 | inl ids => inl (gp_ID g :: ids)
                 end
      end
  end.
Definition without_user (userID : string) (m : gset (string * string)) : gset (string * string) :=
  filter (fun x => x.1 <> userID) m.
(* src/internal/store/user_groups.go:71-113 ReplaceUserGroups *)
Definition ReplaceUserGroups (a : accounts) (reads : nat -> io) (fs : nat -> io) (userID : string)
  (groupNames : list string) : accounts * option store_error :=
  match resolve_groups a reads 0 groupNames with
  | inr e => (a, Some e)
  | inl groupIDs =>
      if failed (fs 0) || failed (fs 1) then (a, Some ErrFailed)
      else if negb (is_user a userID) then (a, Some ErrNoRows)
      else if failed (fs 2) then (a, Some ErrFailed)
      else match insert_members (set_members (without_user userID (ac_members a)) a) userID groupIDs fs 4 with
      | inr e => (a, Some e)
      | inl a' => committed (fs 3) a a'
      end
  end.

Definition groups_of (a : accounts) (userID : string) : list Group :=
  List.filter (fun g => bool_decide ((userID, gp_ID g) ∈ ac_members a)) (map_to_list (ac_groups a)).*2.
(* src/internal/store/user_groups.go:117-141 GetUserGroups *)
Definition GetUserGroups (a : accounts) (f : io) (userID : string) : list Group + store_error :=
  answer f (inl (by_name (groups_of a userID))).

(* src/internal/store/users.go:26-94 CreateInitialAdmin *)
Definition CreateInitialAdmin (a : accounts) (fs : nat -> io) (user : User)
  : accounts * (bool + store_error) :=
  if failed (fs 0) || failed (fs 1) || failed (fs 2) then (a, inr ErrFailed)
  else match with_email a (au_Email user) with
  | Some existing =>
      if failed (fs 3) then (a, inr ErrFailed)
      else if existsb (fun g => gp_Name g =s "administrator") (groups_of a (au_ID existing)) then (a, inl false)
      else (a, inr (ErrRefused "user already exists without administrator membership"))
  | None =>
      if failed (fs 3) then (a, inr ErrFailed)
      else if negb (Nat.eqb (size (ac_users a)) 0) then (a, inr (ErrRefused "database already contains a user"))
      else if failed (fs 4) then (a, inr ErrFailed)
      else match group_named a "administrator" with
      | None => (a, inr ErrNoRows)
      | Some g =>
          if failed (fs 5) then (a, inr ErrFailed)
          else if negb (user_insertable a user) then (a, inr ErrConstraint)
          else
            let a1 := insert_user user a in
            if failed (fs 6) then (a, inr ErrFailed)
            else if bool_decide ((au_ID user, gp_ID g) ∈ ac_members a) then (a, inr ErrConstraint)
            else match committed (fs 7) a (set_members ({[(au_ID user, gp_ID g)]} ∪ ac_members a1) a1) with
            | (a', None) => (a', inl true)
            | (a', Some e) => (a', inr e)
            end
      end
  end.

(* src/internal/store/user_preferences.go:13-17 defaultPreferences *)
Definition defaultPreferences (userID : string) : UserPreferences := mkPrefs userID "system" "en" 0.
(* src/internal/store/user_preferences.go:21-34 GetUserPreferences *)
Definition GetUserPreferences (a : accounts) (f : io) (userID : string) : UserPreferences + store_error :=
  answer f (inl (default (defaultPreferences userID) (ac_prefs a !! userID))).
Definition theme_ok (x : string) : bool := existsb (String.eqb x) ["light"; "dark"; "system"].
Definition language_ok (x : string) : bool := existsb (String.eqb x) ["en"; "fr"].
(* src/internal/store/user_preferences.go:39-52 UpsertUserPreferences *)
Definition UpsertUserPreferences (a : accounts) (f : io) (now : Time) (p : UserPreferences)
  : accounts * option store_error :=
  statement (is_user a (up_UserID p) && theme_ok (up_Theme p) && language_ok (up_Language p)) f a
    (set_prefs (<[up_UserID p := mkPrefs (up_UserID p) (up_Theme p) (up_Language p) (stored now)]> (ac_prefs a)) a).

End Store.

(** ** Handlers *)

(** What a request meets: the user of its session, the outcome of each statement,
    the clock, whether the audit sink accepts, and bcrypt's hashing (with the salt
    it draws). *)
Record menv := mkMenv {
  mn_user : option UserInfo; mn_fault : nat -> io; mn_now : Time; mn_audit : bool;
  mn_hash : string -> result string
}.
(** The tables after the request, the audit records it left and its answer. *)
Record outcome (A : Type) := mkOutcome {
  oc_accounts : accounts; oc_audit : list (string * string); oc_reply : Fleet.reply A }.
Arguments mkOutcome {A} _ _ _. Arguments oc_accounts {A} _. Arguments oc_audit {A} _. Arguments oc_reply {A} _.

Definition refused {A} (a : accounts) (status : Z) (text : string) : outcome A :=
  mkOutcome a [] (Fleet.refuse status text).
(** [decodeJSONBody] for a handler without other effects. *)
Definition decoded {A B} (a : accounts) (d : ConfigLibrary.decoding A) (k : A -> outcome B) : outcome B :=
  match d with
  | ConfigLibrary.Value x ConfigLibrary.AtEnd => k x
  | ConfigLibrary.TooLarge | ConfigLibrary.Value _ ConfigLibrary.TooLargeAfter =>
      refused a 413 "request body too large"
  | _ => refused a 400 "invalid JSON"
  end.

(* src/internal/api/mehandler.go:10-15 meResponse *)
Record meResponse := mkMe {
  me_ID : string; me_Email : string; me_Groups : list Group; me_Preferences : UserPreferences }.
(* src/internal/api/passwordhandler.go:13-16 changePasswordRequest *)
Record changePasswordRequest := mkChange { cp_CurrentPassword : string; cp_NewPassword : string }.
(* src/internal/api/prefshandler.go:13-16 putPrefsRequest *)
Record putPrefsRequest := mkPutPrefs { pq_Theme : string; pq_Language : string }.

Section Handlers.
Context `{Alerts.Collation} `{TimestampColumn} `{BcryptLib} (v : menv).

(* src/internal/api/mehandler.go:17-42 handleGetMe *)
Definition handleGetMe (a : accounts) : outcome meResponse :=
  match mn_user v with
  | None => refused a 401 "unauthorized"
  | Some info =>
      match GetUserGroups a (mn_fault v 0) (ui_UserID info) with
      | inr _ => refused a 500 "failed to load groups"
      | inl groups =>
          match GetUserPreferences a (mn_fault v 1) (ui_UserID info) with
          | inr _ => refused a 500 "failed to load preferences"
          | inl prefs => mkOutcome a [] (Fleet.Replied 200 (mkMe (ui_UserID info) (ui_Email info) groups prefs))
          end
      end
  end.

Definition passwordMinLen : nat := 12.
Definition with_hash (u : User) (h : string) : User := mkUser (au_ID u) (au_Email u) h (au_TenantID u).
(* src/internal/api/passwordhandler.go:18-69 handlePutPassword *)
Definition handlePutPassword (a : accounts) (body : ConfigLibrary.decoding changePasswordRequest) : outcome unit :=
  match mn_user v with
  | None => refused a 401 "unauthorized"
  | Some info =>
  decoded a body (fun req =>
  if (cp_CurrentPassword req =s "") || (cp_NewPassword req =s "")
  then refused a 400 "current_password and new_password are required"
  else if Nat.ltb (String.length (cp_NewPassword req)) passwordMinLen
  then refused a 400 "new_password must be at least 12 characters"
  else if cp_NewPassword req =s cp_CurrentPassword req
  then refused a 400 "new_password must differ from current_password"
  else match GetUserByEmail a (mn_fault v 0) (ui_Email info) with
  | inr _ => refused a 401 "unauthorized"
  | inl user =>
      if negb (bcrypt_match (au_PasswordHash user) (cp_CurrentPassword req))
      then refused a 401 "current password does not match"
      else match mn_hash v (cp_NewPassword req) with
      | Err _ => refused a 500 "failed to hash password"
      | Ok newHash =>
          match UpdateUser a (mn_fault v 1) (with_hash user newHash) with
          | (a', Some _) => refused a' 500 "failed to update password"
          | (a', None) =>
              if mn_audit v
              then mkOutcome a' [("auth.password.change", ui_UserID info)] (Fleet.Replied 204 tt)
              else mkOutcome a' [] (Fleet.Refused (Api.mkResponse 503 "audit unavailable" Api.sideEffectApplied))
          end
      end
  end)
  end.

(* src/internal/api/prefshandler.go:18-50 handlePutPreferences *)
Definition handlePutPreferences (a : accounts) (body : ConfigLibrary.decoding putPrefsRequest)
  : outcome UserPreferences :=
  match mn_user v with
  | None => refused a 401 "unauthorized"
  | Some info =>
  decoded a body (fun req =>
  if negb (theme_ok (pq_Theme req)) then refused a 400 "invalid theme"
  else if negb (language_ok (pq_Language req)) then refused a 400 "invalid language"
  else match UpsertUserPreferences a (mn_fault v 0) (mn_now v)
               (mkPrefs (ui_UserID info) (pq_Theme req) (pq_Language req) 0) with
  | (a', Some _) => refused a' 500 "failed to save preferences"
  | (a', None) =>
      match GetUserPreferences a' (mn_fault v 1) (ui_UserID info) with
      | inr _ => refused a' 500 "failed to read back preferences"
      | inl saved => mkOutcome a' [] (Fleet.Replied 200 saved)
      end
  end)
  end.
End Handlers.

(** ** The first start *)

(* src/pkg/bootstrap/bootstrap.go:150-162 validateJWTSecret *)
Definition validateJWTSecret (secret : string) : option string :=
  let trimmed := TrimSpace secret in
  if trimmed =s "" then Some "JWT_SECRET environment variable is required"
  else if trimmed =s "change-me-in-production" then Some "JWT_SECRET must not use the placeholder value"
  else if Nat.ltb (String.length trimmed) 32 then Some "JWT_SECRET must be at least 32 characters"
  else None.

(** [uuid.NewString] and the hash are drawn before the transaction. *)
(* src/pkg/bootstrap/bootstrap.go:166-204 seedAdmin *)
Definition seedAdmin (getenv : string -> string) (hash : string -> result string) (newID : string)
  (fs : nat -> io) (a : accounts) : accounts * option store_error :=
  let email := TrimSpace (getenv "SEED_ADMIN_EMAIL") in
  let password := getenv "SEED_ADMIN_PASSWORD" in
  if (email =s "") && (password =s "") then (a, None)
  else if email =s "" then (a, Some (ErrRefused "SEED_ADMIN_EMAIL is required when SEED_ADMIN_PASSWORD is set"))
  else if password =s "" then (a, Some (ErrRefused "SEED_ADMIN_PASSWORD is required when SEED_ADMIN_EMAIL is set"))
  else if Nat.ltb (String.length password) 12
  then (a, Some (ErrRefused "SEED_ADMIN_PASSWORD must be at least 12 characters"))
  else match hash password with
  | Err e => (a, Some (ErrRefused ("hash initial password: " +:+ e)))
  | Ok h =>
      match CreateInitialAdmin a fs (mkUser newID email h None) with
      | (a', inr e) => (a', Some e)
      | (a', inl _) => (a', None)
      end
  end.

(** ** The constraints of the schema *)

Record well_formed (a : accounts) : Prop := {
  wf_user id u : ac_users a !! id = Some u -> au_ID u = id;
  wf_email i j u w : ac_users a !! i = Some u -> ac_users a !! j = Some w -> au_Email u = au_Email w -> i = j;
  wf_group id g : ac_groups a !! id = Some g ->
    gp_ID g = id /\ gp_Role g ∈ ["viewer"; "editor"; "administrator"];
  wf_name i j g h : ac_groups a !! i = Some g -> ac_groups a !! j = Some h -> gp_Name g = gp_Name h -> i = j;
  wf_member u g : (u, g) ∈ ac_members a -> is_Some (ac_users a !! u) /\ is_Some (ac_groups a !! g);
  wf_prefs id p : ac_prefs a !! id = Some p ->
    up_UserID p = id /\ is_Some (ac_users a !! id) /\ theme_ok (up_Theme p) = true /\
    language_ok (up_Language p) = true
}.

(** The tables after the migrations. *)
Definition system_group (name : string) (at_ : Time) : Group :=
  mkGroup ("grp_system_" +:+ name) name name true at_.
Definition migrated (at_ : Time) : accounts :=
  mkAccounts ∅ {["grp_system_viewer" := system_group "viewer" at_; "grp_system_editor" := system_group "editor" at_;
    "grp_system_administrator" := system_group "administrator" at_]} ∅ ∅.

Lemma elem_values {V} (m : gmap string V) x : x ∈ (map_to_list m).*2 <-> exists k, m !! k = Some x.
Proof.
  rewrite list_elem_of_fmap. split.
  - intros ([k y] & -> & Hk%elem_of_map_to_list). eauto.
  - intros [k Hk]. exists (k, x). split; [done|]. by apply elem_of_map_to_list.
Qed.

Lemma find_elem {A} (p : A -> bool) l x : List.find p l = Some x -> x ∈ l /\ p x = true.
Proof. intros [Hi Hp]%find_some. by rewrite list_elem_of_In. Qed.

Lemma email_free a id email : email_taken a id email = false <->
  forall i u, ac_users a !! i = Some u -> au_Email u = email -> au_ID u = id.
Proof.
  unfold email_taken. rewrite <- not_true_iff_false, existsb_exists. split.
  - intros Hn i u Hu He. destruct (String.eqb_spec (au_ID u) id) as [|Hd]; [done|]. exfalso. apply Hn.
    exists u. split; [apply list_elem_of_In, elem_values; eauto|]. apply andb_true_iff. split; [by apply String.eqb_eq|].
    by apply negb_true_iff, String.eqb_neq.
  - intros Hf (u & Hu%list_elem_of_In%elem_values & [He Hd]%andb_true_iff). destruct Hu as [i Hu].
    apply negb_true_iff, String.eqb_neq in Hd. apply Hd, (Hf i u Hu). by apply String.eqb_eq.
Qed.

Section Facts.
Context `{Alerts.Collation} `{TimestampColumn}.

Lemma with_email_Some a email u : well_formed a ->
  with_email a email = Some u <-> ac_users a !! au_ID u = Some u /\ au_Email u = email.
Proof.
  intros Hw. unfold with_email. split.
  - intros [[i Hi]%elem_values He]%find_elem. apply String.eqb_eq in He. pose proof (wf_user a Hw i u Hi). by subst i.
  - intros [Hu He]. destruct (List.find _ _) as [w|] eqn:E.
    + apply find_elem in E as [[i Hi]%elem_values Hw'%String.eqb_eq]. f_equal.
      assert (i = au_ID u) as -> by (eapply (wf_email a Hw); eauto; congruence). congruence.
    + apply (find_none _ _) with (x := u) in E; [|apply list_elem_of_In, elem_values; eauto].
      apply String.eqb_neq in E. done.
Qed.
Lemma group_named_Some a name g : well_formed a ->
  group_named a name = Some g <-> ac_groups a !! gp_ID g = Some g /\ gp_Name g = name.
Proof.
  intros Hw. unfold group_named. split.
  - intros [[i Hi]%elem_values He]%find_elem. apply String.eqb_eq in He.
    destruct (wf_group a Hw i g Hi) as [Hid _]. by subst i.
  - intros [Hu He]. destruct (List.find _ _) as [w|] eqn:E.
    + apply find_elem in E as [[i Hi]%elem_values Hw'%String.eqb_eq]. f_equal.
      assert (i = gp_ID g) as -> by (eapply (wf_name a Hw); eauto; congruence). congruence.
    + apply (find_none _ _) with (x := g) in E; [|apply list_elem_of_In, elem_values; eauto].
      apply String.eqb_neq in E. done.
Qed.

(** *** Writes keep the constraints *)

Lemma insert_user_wf a u : well_formed a -> email_taken a (au_ID u) (au_Email u) = false ->
  well_formed (insert_user u a).
Proof.
  intros Hw Hf. rewrite email_free in Hf. split; cbn.
  - intros id w [[<- <-]|[_ Hu]]%lookup_insert_Some; [done|]. by apply Hw.
  - intros i j x y [[<- <-]|[Hi Hx]]%lookup_insert_Some [[<- <-]|[Hj Hy]]%lookup_insert_Some He.
    + done.
    + rewrite <- (wf_user a Hw j y Hy). symmetry. by eapply Hf.
    + rewrite <- (wf_user a Hw i x Hx). by eapply Hf.
    + by eapply (wf_email a Hw).
  - apply Hw.
  - apply Hw.
  - intros x g [Hx Hg]%Hw. split; [|done]. apply lookup_insert_is_Some'. by right.
  - intros id p (Hid & Hu & Ht)%Hw. split; [done|]. split; [|done]. apply lookup_insert_is_Some'. by right.
Qed.
Lemma set_members_wf a m : well_formed a ->
  (forall u g, (u, g) ∈ m -> is_Some (ac_users a !! u) /\ is_Some (ac_groups a !! g)) ->
  well_formed (set_members m a).
Proof. intros Hw Hm. split; [apply Hw|apply Hw|apply Hw|apply Hw|exact Hm|apply Hw]. Qed.

Lemma statement_keeps (P : accounts -> Prop) ok f a a' : P a -> (ok = true -> P a') -> P (statement ok f a a').1.
Proof. intros Ha Ha'. unfold statement. destruct ok; [|done]. destruct f as [|[]]; cbn; auto. Qed.
Lemma committed_keeps (P : accounts -> Prop) f a a' : P a -> P a' -> P (committed f a a').1.
Proof. intros Ha Ha'. by destruct f as [|[]]. Qed.

Lemma add_member_wf a u g : well_formed a -> is_user a u = true -> is_group a g = true ->
  well_formed (set_members ({[(u, g)]} ∪ ac_members a) a).
Proof.
  intros Hw Hu%bool_decide_eq_true_1 Hg%bool_decide_eq_true_1. apply set_members_wf; [done|].
  intros x y [[= -> ->]%elem_of_singleton|Hm]%elem_of_union; [done|]. by apply Hw.
Qed.

Lemma insert_members_spec userID fs ids : forall a n a', insert_members a userID ids fs n = inl a' ->
  exists m, a' = set_members m a /\ NoDup ids /\ Forall (fun id => (userID, id) ∉ ac_members a /\ is_group a id = true) ids /\
    forall x, x ∈ m <-> x ∈ ac_members a \/ exists id, id ∈ ids /\ x = (userID, id).
Proof.
  induction ids as [|id ids IH]; intros a n a'; cbn.
  { intros [= <-]. exists (ac_members a). split; [by destruct a|]. split; [constructor|]. split; [constructor|].
    intros x. split; [auto|]. intros [?|(? & ?%elem_of_nil & _)]; done. }
  destruct (failed (fs n)); [done|]. destruct (bool_decide _) eqn:Eb; [done|]. apply bool_decide_eq_false in Eb.
  destruct (is_group a id) eqn:Eg; [|done]. cbn. intros (m & -> & Hnd & Hf & Hm)%IH. exists m.
  split; [done|]. cbn in Hf, Hm. rewrite Forall_forall in Hf. split; [|split].
  - constructor; [|done]. intros Hi. destruct (Hf id Hi) as [Hn _]. apply Hn. set_solver.
  - constructor; [done|]. apply Forall_forall. intros i Hi. destruct (Hf i Hi) as [Hn Hg]. split; [set_solver|done].
  - intros x. rewrite Hm, elem_of_union, elem_of_singleton. setoid_rewrite elem_of_cons. naive_solver.
Qed.

(** *** Every operation, whatever fails *)

Inductive step (a : accounts) : accounts -> Prop :=
| S_create f u : step a (CreateUser a f u).1
| S_update f u : step a (UpdateUser a f u).1
| S_admin fs u : step a (CreateInitialAdmin a fs u).1
| S_attach f1 f2 u g : step a (AttachUserToGroupByName a f1 f2 u g).1
| S_detach f1 f2 f3 u g : step a (DetachUserFromGroup a f1 f2 f3 u g).1
| S_replace reads fs u gs : step a (ReplaceUserGroups a reads fs u gs).1
| S_prefs f now p : step a (UpsertUserPreferences a f now p).1.

Lemma GetGroupByName_inl a f name g : well_formed a -> GetGroupByName a f name = inl g ->
  ac_groups a !! gp_ID g = Some g /\ gp_Name g = name.
Proof.
  intros Hw. unfold GetGroupByName, answer. destruct f; [|done].
  destruct (group_named a name) as [h|] eqn:E; [|done]. intros [= ->]. by apply group_named_Some.
Qed.

(** What an operation may have done: nothing, or a write of this shape. *)
Definition grows (a a' : accounts) : Prop :=
  ac_groups a' = ac_groups a /\ forall id, is_Some (ac_users a !! id) -> is_Some (ac_users a' !! id).
Lemma grows_refl a : grows a a.
Proof. done. Qed.
Lemma grows_user u a : grows a (insert_user u a).
Proof. split; [done|]. intros id Hi. cbn. apply lookup_insert_is_Some'. by right. Qed.
Lemma grows_members m a : grows a (set_members m a).
Proof. done. Qed.

Lemma CreateInitialAdmin_cases a fs u : CreateInitialAdmin a fs u = (a, (CreateInitialAdmin a fs u).2) \/
  ac_users a = ∅ /\ with_email a (au_Email u) = None /\ exists g, group_named a "administrator" = Some g /\
    user_insertable a u = true /\
    (CreateInitialAdmin a fs u).1 = set_members ({[(au_ID u, gp_ID g)]} ∪ ac_members a) (insert_user u a) /\
    ((CreateInitialAdmin a fs u).2 = inl true \/ (CreateInitialAdmin a fs u).2 = inr ErrFailed).
Proof.
  unfold CreateInitialAdmin. destruct (_ || _); [by left|].
  destruct (with_email a _) as [w|]; [destruct (failed _); [by left|]; destruct (existsb _ _); by left|].
  destruct (failed (fs 3)); [by left|]. destruct (Nat.eqb (size (ac_users a)) 0) eqn:Es; cbn [negb]; [|by left].
  apply Nat.eqb_eq, map_size_empty_inv in Es. destruct (failed (fs 4)); [by left|].
  destruct (group_named a "administrator") as [g|]; [|by left]. destruct (failed (fs 5)); [by left|].
  destruct (user_insertable a u) eqn:Ei; cbn [negb]; [|by left]. destruct (failed (fs 6)); [by left|].
  destruct (bool_decide _); [by left|]. destruct (fs 7) as [|[]]; cbn [committed fst snd].
  - right. split; [done|]. split; [done|]. exists g. auto.
  - right. split; [done|]. split; [done|]. exists g. auto.
  - by left.
Qed.

Lemma ReplaceUserGroups_cases a reads fs u names : well_formed a ->
  (ReplaceUserGroups a reads fs u names).1 = a /\ (ReplaceUserGroups a reads fs u names).2 <> None \/
  exists ids m, resolve_groups a reads 0 names = inl ids /\ is_user a u = true /\
    (ReplaceUserGroups a reads fs u names).1 = set_members m a /\ NoDup ids /\
    Forall (fun id => is_group a id = true) ids /\
    (forall x, x ∈ m <-> x ∈ without_user u (ac_members a) \/ exists id, id ∈ ids /\ x = (u, id)) /\
    ((ReplaceUserGroups a reads fs u names).2 = None \/
     fs 3 = IoFail true /\ (ReplaceUserGroups a reads fs u names).2 = Some ErrFailed).
Proof.
  intros Hw. unfold ReplaceUserGroups. destruct (resolve_groups a reads 0 names) as [ids|]; [|by left].
  destruct (_ || _); [by left|]. destruct (is_user a u) eqn:Eu; [|by left]. cbn [negb]. destruct (failed (fs 2)); [by left|].
  destruct (insert_members _ _ _ _ _) as [a'|] eqn:E; [|by left].
  apply insert_members_spec in E as (m & -> & Hnd & Hf & Hm). cbn in Hm.
  assert (Hg : Forall (fun id => is_group a id = true) ids) by (eapply Forall_impl; [exact Hf|]; by intros id [_ Hi]).
  destruct (fs 3) as [|[]]; cbn [committed fst snd]; [right|right|by left]; exists ids, m; auto 9.
Qed.

Lemma step_keeps a a' : well_formed a -> step a a' -> well_formed a' /\ grows a a'.
Proof.
  intros Hw Hs. destruct Hs as [f u|f u|fs u|f1 f2 u g|f1 f2 f3 u g|reads fs u gs|f now p].
  - apply (statement_keeps (fun x => well_formed x /\ grows a x)); [by split|].
    intros [_ He]%andb_true_iff. split; [|apply grows_user]. apply insert_user_wf; [done|]. by apply negb_true_iff.
  - unfold UpdateUser. destruct (ac_users a !! au_ID u); [|done].
    apply (statement_keeps (fun x => well_formed x /\ grows a x)); [by split|].
    intros He%negb_true_iff. split; [|apply grows_user]. by apply insert_user_wf.
  - destruct (CreateInitialAdmin_cases a fs u) as [E|(_ & _ & g & Hg & Hi & -> & _)].
    { rewrite E. done. }
    apply group_named_Some in Hg as [Hg _]; [|done]. apply andb_true_iff in Hi as [_ He%negb_true_iff].
    split; [|apply (grows_user u a)]. apply (add_member_wf (insert_user u a) (au_ID u) (gp_ID g)); [by apply insert_user_wf| |].
    + apply bool_decide_true. cbn. rewrite lookup_insert_eq. eauto.
    + apply bool_decide_true. cbn. rewrite Hg. eauto.
  - unfold AttachUserToGroupByName. destruct (GetGroupByName _ _ _) as [h|]; [|done].
    apply (statement_keeps (fun x => well_formed x /\ grows a x)); [by split|].
    intros [Hu Hg]%andb_true_iff. split; [by apply add_member_wf|done].
  - unfold DetachUserFromGroup. destruct f1; [|done]. destruct (is_user a u); [|done]. cbn [negb].
    destruct (GetGroupByName _ _ _) as [h|]; [|done].
    apply (statement_keeps (fun x => well_formed x /\ grows a x)); [by split|]. intros _. split; [|done].
    apply set_members_wf; [done|]. intros x y [Hm _]%elem_of_difference. by apply Hw.
  - destruct (ReplaceUserGroups_cases a reads fs u gs Hw) as [[-> _]|(ids & m & _ & Hu & -> & _ & Hg & Hm & _)]; [done|].
    split; [|done]. apply set_members_wf; [done|]. intros x y [Hx%elem_of_filter|(id & Hi & [= -> ->])]%Hm.
    + exact (wf_member a Hw _ _ (proj2 Hx)).
    + rewrite Forall_forall in Hg. split; [exact (bool_decide_eq_true_1 _ Hu)|]. exact (bool_decide_eq_true_1 _ (Hg _ Hi)).
  - apply (statement_keeps (fun x => well_formed x /\ grows a x)); [by split|].
    intros [[Hu Ht]%andb_true_iff Hl]%andb_true_iff. apply bool_decide_eq_true_1 in Hu. split; [|done].
    split; try apply Hw. cbn. intros id q [[<- <-]|[_ Hq]]%lookup_insert_Some; [done|]. by apply Hw.
Qed.

Lemma migrated_wf at_ : well_formed (migrated at_).
Proof.
  split; cbn; try done.
  - intros id g. rewrite !lookup_insert_Some, lookup_singleton_Some. unfold system_group.
    intros [[<- <-]|[_ [[<- <-]|[_ [<- <-]]]]]; cbn; (split; [done|]; set_solver).
  - intros i j g h. rewrite !lookup_insert_Some, !lookup_singleton_Some. naive_solver.
Qed.

Lemma run_keeps a a' : rtc step a a' -> well_formed a -> well_formed a' /\ grows a a'.
Proof.
  induction 1 as [a|a b c Hs _ IH]; intros Hw; [done|]. destruct (step_keeps a b Hw Hs) as [Hb [Eg Hu]].
  destruct (IH Hb) as [Hc [Eg' Hu']]. split; [done|]. split; [congruence|auto].
Qed.

Lemma admin_refused a fs u : ac_users a <> ∅ ->
  (CreateInitialAdmin a fs u).1 = a /\ (CreateInitialAdmin a fs u).2 <> inl true.
Proof.
  intros Hn. destruct (CreateInitialAdmin_cases a fs u) as [E|(He & _)]; [|done]. split; [by rewrite E|].
  revert E. unfold CreateInitialAdmin. destruct (_ || _); [done|].
  destruct (with_email a _); [destruct (failed _); [done|]; by destruct (existsb _ _)|].
  destruct (failed (fs 3)); [done|]. destruct (Nat.eqb (size (ac_users a)) 0) eqn:Es; cbn [negb]; [|done].
  by apply Nat.eqb_eq, map_size_empty_inv in Es.
Qed.

(** C32: the first administrator is created once: when the operation answers that
    it created one, the table of users was empty and holds exactly the new user,
    the only member of the administrator group; and after it, whatever operations
    run and however often a start repeats it, it creates nobody, promotes nobody and
    changes no password. *)
Theorem initial_admin_is_created_once a fs u a1 (Hw : well_formed a)
    (Hc : CreateInitialAdmin a fs u = (a1, inl true)) :
  ac_users a = ∅ /\ ac_users a1 = {[au_ID u := u]} /\
  (exists g, ac_groups a !! gp_ID g = Some g /\ gp_Name g = "administrator" /\
     ac_members a1 = {[(au_ID u, gp_ID g)]}) /\
  forall a2 fs' u', rtc step a1 a2 ->
    (CreateInitialAdmin a2 fs' u').1 = a2 /\ (CreateInitialAdmin a2 fs' u').2 <> inl true.
Proof.
  assert (Hs : step a a1) by (pose proof (S_admin a fs u) as Hs; by rewrite Hc in Hs).
  destruct (step_keeps a a1 Hw Hs) as [Hw1 _].
  destruct (CreateInitialAdmin_cases a fs u) as [E|(He & _ & g & Hg & _ & E & _)].
  { exfalso. rewrite Hc in E. injection E as ->. revert Hc. unfold CreateInitialAdmin.
    destruct (_ || _); [done|]. destruct (with_email a _); [destruct (failed _); [done|]; by destruct (existsb _ _)|].
    destruct (failed (fs 3)); [done|]. destruct (negb _) eqn:En; [done|]. destruct (failed (fs 4)); [done|].
    destruct (group_named a _); [|done]. destruct (failed (fs 5)); [done|]. destruct (negb (user_insertable _ _)); [done|].
    destruct (failed (fs 6)); [done|]. destruct (bool_decide _); [done|]. destruct (fs 7) as [|[]]; [|done..].
    cbn. intros [= Ea]. apply negb_false_iff, Nat.eqb_eq, map_size_empty_inv in En.
    apply (f_equal ac_users) in Ea. cbn in Ea. rewrite En in Ea. by apply insert_non_empty in Ea. }
  rewrite Hc in E. cbn in E. subst a1. apply group_named_Some in Hg as [Hg Hn]; [|done].
  split; [done|]. cbn. rewrite He, insert_empty. split; [done|]. split.
  - exists g. split; [done|]. split; [done|]. apply set_eq. intros [x y]. split; [|set_solver].
    intros [Hx|Hm]%elem_of_union; [done|]. apply (wf_member a Hw) in Hm as [[? Hx] _]. by rewrite He, lookup_empty in Hx.
  - intros a2 fs' u' Hr. apply admin_refused. destruct (run_keeps _ _ Hr Hw1) as [_ [_ Hu]]. intros E2.
    specialize (Hu (au_ID u)). cbn in Hu. rewrite lookup_insert_eq, E2, lookup_empty in Hu. by destruct Hu.
Qed.

(** *** Memberships *)

Lemma resolve_groups_spec a reads names : well_formed a -> forall n ids, resolve_groups a reads n names = inl ids ->
  Forall2 (fun name id => exists g, ac_groups a !! id = Some g /\ gp_Name g = name) names ids.
Proof.
  intros Hw. induction names as [|name names IH]; intros n ids; cbn; [intros [= <-]; constructor|].
  destruct (GetGroupByName a (reads n) name) as [g|] eqn:Eg; [|done].
  destruct (resolve_groups a reads (S n) names) as [ids'|] eqn:E; [|done]. intros [= <-].
  apply GetGroupByName_inl in Eg as [Hg Hn]; [|done]. constructor; [by exists g|]. by eapply IH.
Qed.

Lemma groups_of_elem a u g : well_formed a -> g ∈ groups_of a u <->
  ac_groups a !! gp_ID g = Some g /\ (u, gp_ID g) ∈ ac_members a.
Proof.
  intros Hw. unfold groups_of. rewrite list_elem_of_In, filter_In, <- list_elem_of_In, elem_values, bool_decide_eq_true.
  split.
  - intros [[k Hk] Hm]. destruct (wf_group a Hw k g Hk) as [<- _]. done.
  - intros [Hk Hm]. eauto.
Qed.
Lemma groups_of_NoDup a u : well_formed a -> NoDup (map gp_Name (groups_of a u)).
Proof.
  intros Hw. unfold groups_of. set (p := fun g => _).
  assert (Hn : NoDup (map gp_Name (map_to_list (ac_groups a)).*2)).
  { change (NoDup (gp_Name <$> (snd <$> map_to_list (ac_groups a)))). rewrite <- list_fmap_compose.
    apply NoDup_fmap_2_strong; [|apply NoDup_map_to_list].
    intros [i g] [j h] Hi%elem_of_map_to_list Hj%elem_of_map_to_list E. cbn in E.
    assert (i = j) as <- by (by eapply (wf_name a Hw)). congruence. }
  revert Hn. generalize ((map_to_list (ac_groups a)).*2). intros l. induction l as [|g l IH]; cbn; [done|].
  intros [Hg Hl]%NoDup_cons. destruct (p g); [|by apply IH]. cbn. constructor; [|by apply IH].
  intros (h & E & [Hh _]%list_elem_of_In%filter_In)%list_elem_of_fmap. apply Hg. rewrite E.
  apply list_elem_of_fmap. exists h. split; [done|]. by apply list_elem_of_In.
Qed.

Lemma resolved_names_NoDup a names ids : well_formed a -> NoDup ids ->
  Forall2 (fun name id => exists g, ac_groups a !! id = Some g /\ gp_Name g = name) names ids -> NoDup names.
Proof.
  intros Hw Hnd Hr. induction Hr as [|name id names ids (g & Hg & <-) Hr IH]; [constructor|].
  apply NoDup_cons in Hnd as [Hi Hnd]. constructor; [|by apply IH]. intros Hin. apply Hi.
  clear IH Hi Hnd. induction Hr as [|n i ns js (h & Hh & Eh) _ IH]; [by apply elem_of_nil in Hin|].
  apply elem_of_cons in Hin as [En|Hin]; [|right; by apply IH]. assert (id = i) as ->; [|left].
  eapply (wf_name a Hw); eauto. congruence.
Qed.

(** replacing a user's groups is all or nothing: on success the user exists
    and is a member of exactly the named groups, the memberships of everyone else
    are as they were; on an error nothing changed, unless the commit itself was
    reported as failed after it took effect. *)
Theorem replaced_groups_are_exact a reads fs userID names (Hw : well_formed a) :
  let r := ReplaceUserGroups a reads fs userID names in
  match r.2 with
  | Some _ => r.1 = a \/ fs 3 = IoFail true
  | None =>
      is_Some (ac_users a !! userID) /\
      (forall l, GetUserGroups r.1 IoOk userID = inl l -> map gp_Name l ≡ₚ names) /\
      (forall u g, u <> userID -> (u, g) ∈ ac_members r.1 <-> (u, g) ∈ ac_members a) /\
      ac_users r.1 = ac_users a /\ ac_groups r.1 = ac_groups a /\ ac_prefs r.1 = ac_prefs a
  end.
Proof.
  cbn zeta. assert (Hw' : well_formed (ReplaceUserGroups a reads fs userID names).1)
    by (by destruct (step_keeps a _ Hw (S_replace a reads fs userID names))).
  destruct (ReplaceUserGroups_cases a reads fs userID names Hw)
    as [[E Hn]|(ids & m & Hr & Hu & E & Hnd & _ & Hm & [E2|[Ef E2]])].
  - destruct (_.2); [by left|done].
  - rewrite E2. rewrite E in *. split; [exact (bool_decide_eq_true_1 _ Hu)|]. split; [|split; [|done]].
    + cbn. intros l [= <-]. unfold by_name. rewrite sort_by_perm.
      apply resolve_groups_spec in Hr; [|done].
      apply NoDup_Permutation; [by apply groups_of_NoDup| |].
      * by eapply resolved_names_NoDup.
      * intros x. rewrite list_elem_of_fmap. split.
        -- intros (g & -> & [Hg Hmem]%groups_of_elem); [|done]. cbn in Hg, Hmem.
           apply Hm in Hmem as [[Hne _]%elem_of_filter|(id & Hid & [= Ei])]; [done|]. subst id.
           apply list_elem_of_lookup in Hid as [i Hid]. destruct (Forall2_lookup_r _ _ _ _ _ Hr Hid) as (name & Hname & h & Hh & <-).
           apply list_elem_of_lookup. exists i. congruence.
        -- intros [i Hi]%list_elem_of_lookup. destruct (Forall2_lookup_l _ _ _ _ _ Hr Hi) as (id & Hid & g & Hg & <-).
           exists g. split; [done|]. apply groups_of_elem; [done|]. cbn. destruct (wf_group a Hw id g Hg) as [<- _].
           split; [done|]. apply Hm. right. exists (gp_ID g). split; [|done]. apply list_elem_of_lookup. eauto.
    + intros u g Hne. cbn. rewrite Hm. unfold without_user. rewrite elem_of_filter. cbn. split; [|auto].
      intros [[_ Hx]|(id & _ & [= ->])]; done.
  - rewrite E2. by right.
Qed.
End Facts.

(** ** Logging in *)

Section Login.
Context `{Alerts.Collation} `{TimestampColumn} `{BcryptLib} `{JwtLib}.

(** The login handler on these tables, while statements and audit succeed. *)
Definition login_on (a : accounts) (req : loginRequest) (now later : Time) : login_env :=
  mkLoginEnv (inl req) now later
    (fun email => match GetUserByEmail a IoOk email with
                  | inl u => Ok (Access.mkUser (au_ID u) (au_Email u) (au_PasswordHash u))
                  | inr _ => Err "get user by email"
                  end)
    (fun id => match GetUserGroups a IoOk id with inl l => Ok (map gp_Name l) | inr _ => Err "list groups" end)
    (fun _ => None).

(** bcrypt: a password matches its own hash. *)
Definition bcrypt_roundtrip (hash : string -> result string) : Prop :=
  forall p h, hash p = Ok h -> bcrypt_match h p = true.

Lemma update_user_None a f u a' : UpdateUser a f u = (a', None) ->
  email_taken a (au_ID u) (au_Email u) = false /\ a' = insert_user u a.
Proof.
  unfold UpdateUser. destruct (ac_users a !! au_ID u); [|done]. unfold statement.
  destruct (email_taken a _ _); [done|]. cbn. by destruct f as [|[]]; intros [= <-].
Qed.

Lemma login_with a u req now later secret l r tok : well_formed a ->
  ac_users a !! au_ID u = Some u -> lr_Email req = au_Email u -> au_Email u <> "" -> lr_Password req <> "" ->
  bcrypt_match (au_PasswordHash u) (lr_Password req) = true ->
  (allow l (loginRateLimitKey r) now).2 = true ->
  GenerateToken secret (au_ID u) (au_Email u) (map gp_Name (by_name (groups_of a (au_ID u)))) later = Ok tok ->
  (handleLogin secret l r (login_on a req now later)).2 = mkLoginResult 200 (Some tok) ["auth.login.success"].
Proof.
  intros Hw Hu He Hne Hnp Hm Ha Ht. unfold handleLogin. cbn [le_body login_on].
  rewrite He, (proj2 (eqb_string_false _ _) Hne), (proj2 (eqb_string_false _ _) Hnp). cbn [orb].
  cbn [le_now login_on]. destruct (allow l _ now) as [l' ok]. cbn in Ha. subst ok. cbn [negb].
  cbn [le_GetUserByEmail login_on]. unfold GetUserByEmail, answer.
  rewrite (proj2 (with_email_Some a (au_Email u) u Hw)) by done. cbn [us_PasswordHash us_ID us_Email]. rewrite Hm. cbn [negb].
  cbn [le_GetUserGroups login_on GetUserGroups answer]. cbn [le_later login_on]. by rewrite Ht.
Qed.

(** C33: a changed password takes effect at once: a request answered with 204 knew
    the current password of its user, asked for a new one of at least twelve bytes,
    changed that user's hash and nothing else, and left an audit record; the next
    login with the new password is admitted, with the user's groups. *)
Theorem changed_password_logs_in v a req (Hw : well_formed a) (Hb : bcrypt_roundtrip (mn_hash v))
    (Hr : oc_reply (handlePutPassword v a (ConfigLibrary.Value req ConfigLibrary.AtEnd)) = Fleet.Replied 204 tt) :
  exists info u h, mn_user v = Some info /\
    ac_users a !! au_ID u = Some u /\ au_Email u = ui_Email info /\
    bcrypt_match (au_PasswordHash u) (cp_CurrentPassword req) = true /\
    12 <= String.length (cp_NewPassword req) /\ mn_hash v (cp_NewPassword req) = Ok h /\
    let o := handlePutPassword v a (ConfigLibrary.Value req ConfigLibrary.AtEnd) in
    oc_accounts o = insert_user (with_hash u h) a /\ oc_audit o = [("auth.password.change", ui_UserID info)] /\
    forall secret l r now later tok, au_Email u <> "" -> (allow l (loginRateLimitKey r) now).2 = true ->
      GenerateToken secret (au_ID u) (au_Email u) (map gp_Name (by_name (groups_of a (au_ID u)))) later = Ok tok ->
      (handleLogin secret l r
         (login_on (oc_accounts o) (mkLogin (au_Email u) (cp_NewPassword req)) now later)).2
        = mkLoginResult 200 (Some tok) ["auth.login.success"].
Proof.
  revert Hr. unfold handlePutPassword. destruct (mn_user v) as [info|]; [|done]. cbn [decoded].
  destruct (_ || _) eqn:Ee; [done|]. apply orb_false_iff in Ee as [_ Ene%String.eqb_neq].
  destruct (Nat.ltb _ _) eqn:El; [done|]. apply Nat.ltb_ge in El.
  destruct (_ =s _); [done|]. unfold GetUserByEmail, answer. destruct (mn_fault v 0); [|done].
  destruct (with_email a (ui_Email info)) as [u|] eqn:Eu; [|done]. apply with_email_Some in Eu as [Hu Hue]; [|done].
  destruct (bcrypt_match _ _) eqn:Em; [|done]. cbn [negb].
  destruct (mn_hash v (cp_NewPassword req)) as [h|] eqn:Eh; [|done].
  destruct (UpdateUser a (mn_fault v 1) (with_hash u h)) as [a' [e|]] eqn:Ea; [done|].
  destruct (mn_audit v); [|done]. intros _. apply update_user_None in Ea as [Hf ->].
  exists info, u, h. split; [done|]. split; [done|]. split; [done|]. split; [done|]. split; [done|]. split; [done|].
  cbn zeta. cbn [oc_accounts oc_audit]. split; [done|]. split; [done|]. intros secret l r now later tok Hne Ha Ht.
  apply (login_with (insert_user (with_hash u h) a) (with_hash u h)); try done.
  - by apply insert_user_wf.
  - cbn. by rewrite lookup_insert_eq.
  - cbn. by apply Hb.
Qed.

(** preferences read back: a request answered with 200 stored what it asked
    for under the user of its session, the answer shows it, and so does the page of
    the account afterwards. *)
Theorem preferences_read_back v v' a req saved
    (Hr : oc_reply (handlePutPreferences v a (ConfigLibrary.Value req ConfigLibrary.AtEnd)) = Fleet.Replied 200 saved)
    (Hu : mn_user v' = mn_user v) (Hf : forall n, mn_fault v' n = IoOk) :
  let a' := oc_accounts (handlePutPreferences v a (ConfigLibrary.Value req ConfigLibrary.AtEnd)) in
  up_Theme saved = pq_Theme req /\ up_Language saved = pq_Language req /\ up_UpdatedAt saved = stored (mn_now v) /\
  exists me, oc_reply (handleGetMe v' a') = Fleet.Replied 200 me /\ me_Preferences me = saved.
Proof.
  revert Hr. unfold handlePutPreferences. destruct (mn_user v) as [info|] eqn:Ei; [|done]. cbn [decoded].
  destruct (theme_ok _) eqn:Et; [|done]. destruct (language_ok _) eqn:El; [|done]. cbn [negb].
  destruct (UpsertUserPreferences _ _ _ _) as [a' [e|]] eqn:Ea; [done|].
  unfold GetUserPreferences at 1, answer. destruct (mn_fault v 1); [|done]. cbn [oc_reply]. intros [= <-].
  revert Ea. unfold UpsertUserPreferences, statement. destruct (negb _); [done|].
  destruct (mn_fault v 0) as [|[]]; intros [= <-]; cbn [oc_accounts]; [|..];
    (cbn; rewrite lookup_insert_eq; cbn; split; [done|]; split; [done|]; split; [done|];
     unfold handleGetMe; rewrite Hu; unfold GetUserGroups, GetUserPreferences, answer; rewrite !Hf; cbn;
     rewrite lookup_insert_eq; cbn; eauto).
Qed.
End Login.

(** ** Samples *)

(** A hash that shows the password, and refuses more than 72 bytes as bcrypt does. *)
Definition open_hash (p : string) : result string :=
  if Nat.ltb 72 (String.length p) then Err "bcrypt: password length exceeds 72 bytes" else Ok ("h:" +:+ p).
Definition open_bcrypt : BcryptLib := {| bcrypt_match h p := h =s "h:" +:+ p |}.
#[local] Existing Instances open_bcrypt microseconds.
Lemma open_roundtrip : bcrypt_roundtrip open_hash.
Proof.
  intros p h. unfold open_hash. destruct (Nat.ltb _ _); [done|]. intros [= <-]. apply String.eqb_refl.
Qed.

Definition no_fault : nat -> io := fun _ => IoOk.
Definition root_user := mkUser "u1" "root@x" "h:first-password" None.
Definition one_admin : accounts :=
  mkAccounts {["u1" := root_user]} (ac_groups (migrated 0)) {[("u1", "grp_system_administrator")]} ∅.
Lemma one_admin_ok : CreateInitialAdmin (migrated 0) no_fault root_user = (one_admin, inl true).
Proof. vm_compute. reflexivity. Qed.
Lemma one_admin_reached : rtc step (migrated 0) one_admin.
Proof.
  apply rtc_once. pose proof (S_admin (migrated 0) no_fault root_user) as Hs. by rewrite one_admin_ok in Hs.
Qed.

Lemma initial_admin_is_created_once_witness :
  (CreateInitialAdmin one_admin no_fault (mkUser "u2" "other@x" "h" None)).1 = one_admin.
Proof.
  destruct (initial_admin_is_created_once (migrated 0) no_fault root_user one_admin (migrated_wf 0) one_admin_ok)
    as (_ & _ & _ & Hn). exact (proj1 (Hn one_admin no_fault (mkUser "u2" "other@x" "h" None) (rtc_refl step one_admin))).
Defined.

Lemma one_admin_wf : well_formed one_admin.
Proof. exact (proj1 (run_keeps _ _ one_admin_reached (migrated_wf 0))). Qed.
Lemma replaced_groups_are_exact_witness :
  forall l, GetUserGroups (ReplaceUserGroups one_admin no_fault no_fault "u1" ["viewer"; "editor"]).1 IoOk "u1" = inl l ->
    map gp_Name l ≡ₚ ["viewer"; "editor"].
Proof.
  exact (proj1 (proj2 (replaced_groups_are_exact one_admin no_fault no_fault "u1" ["viewer"; "editor"] one_admin_wf))).
Defined.

Definition session_of_root : menv :=
  mkMenv (Some (mkUserInfo "u1" "root@x" ["administrator"])) no_fault 7000 true open_hash.
Definition change := mkChange "first-password" "second-password".
Lemma changed_password_logs_in_witness :
  exists u h, au_Email u = "root@x" /\ open_hash "second-password" = Ok h /\
    oc_accounts (handlePutPassword session_of_root one_admin (ConfigLibrary.Value change ConfigLibrary.AtEnd))
      = insert_user (with_hash u h) one_admin.
Proof.
  destruct (changed_password_logs_in (H2 := {| jwt_sign := fun _ _ => Ok "t"; jwt_parse := fun _ _ _ => Err "" |})
    session_of_root one_admin change one_admin_wf open_roundtrip eq_refl)
    as (info & u & h & Hi & _ & He & _ & _ & Hh & Ho & _).
  exists u, h. injection Hi as <-. exact (conj He (conj Hh Ho)).
Defined.

Definition dark := mkPutPrefs "dark" "fr".
Lemma preferences_read_back_witness :
  exists me, oc_reply (handleGetMe session_of_root (oc_accounts (handlePutPreferences session_of_root one_admin
      (ConfigLibrary.Value dark ConfigLibrary.AtEnd)))) = Fleet.Replied 200 me /\
    me_Preferences me = mkPrefs "u1" "dark" "fr" 7000.
Proof.
  exact (proj2 (proj2 (proj2 (preferences_read_back session_of_root session_of_root one_admin dark
    (mkPrefs "u1" "dark" "fr" 7000) eq_refl eq_refl (fun _ => eq_refl))))).
Defined.

(** A group that is named twice is refused as a duplicate membership, although the
    user and both groups exist. *)
Example repeated_group_is_refused :
  (ReplaceUserGroups one_admin no_fault no_fault "u1" ["viewer"; "viewer"]).2 = Some ErrConstraint.
Proof. vm_compute. reflexivity. Qed.

(** A new password that bcrypt cannot hash is answered as a failure of the server. *)
Example long_password_is_a_server_error :
  oc_reply (handlePutPassword session_of_root one_admin
    (ConfigLibrary.Value (mkChange "first-password" (String.concat "" (replicate 8 "0123456789"))) ConfigLibrary.AtEnd))
  = Fleet.refuse 500 "failed to hash password".
Proof. vm_compute. reflexivity. Qed.

(** The role of a group is not consulted: a group of another name grants nothing,
    whatever its role. *)
Example role_column_is_not_consulted p :
  Has (mkUserInfo "u1" "root@x" (map gp_Name [mkGroup "g" "operators" "administrator" false 0])) p = false.
Proof. reflexivity. Qed.

End Accounts.
