(* ===== verification/TokenApi.v ===== *)
(** * The API of managed OpAMP tokens

    internal/api/opamp_tokens.go: creating, listing and revoking the tokens
    collectors connect with. The handlers join the store of tokens ([OpampTokens])
    and the connection manager of the OpAMP server ([TokenConnections]): a
    revocation is stored first and then closes the token's connections. *)

From S2P Require Import Prelude GoString TokenConnections TokenInvariants TokenSafety AuditOutbox Sha256 OpampTokens.
From S2P Require Import Access Api Fleet ConfigLibrary.
Import Access AuditOutbox Sha256 OpampTokens.

Module TokenApi.

(** ** utf8.RuneCountInString *)

Definition between (lo hi : N) (c : Ascii.ascii) : bool := ((lo <=? code c) && (code c <=? hi))%N.
Definition continuation : Ascii.ascii -> bool := between 128 191.
(** The bytes the first rune of a text takes; an invalid one takes one byte. *)
Definition rune_width (s : string) : nat :=
  match s with
  | "" => 0
  | String a r =>
      let two := match r with String b _ => between 194 223 a && continuation b | _ => false end in
      let three := match r with
        | String b (String c _) =>
            continuation c &&
            (between 225 236 a && continuation b || between 238 239 a && continuation b ||
             between 224 224 a && between 160 191 b || between 237 237 a && between 128 159 b)
        | _ => false
        end in
      let four := match r with
        | String b (String c (String d _)) =>
            continuation c && continuation d &&
            (between 241 243 a && continuation b || between 240 240 a && between 144 191 b ||
             between 244 244 a && between 128 143 b)
        | _ => false
        end in
      if two then 2 else if three then 3 else if four then 4 else 1
  end.
(** The fuel is the length of the text: every rune takes a byte. *)
Fixpoint rune_count (fuel : nat) (s : string) : nat :=
  match fuel, s with
  | S n, String _ _ => S (rune_count n (drop_str (rune_width s) s))
  | _, _ => 0
  end.
Definition RuneCountInString (s : string) : nat := rune_count (String.length s) s.

Example four_runes : RuneCountInString ("a" +:+ bytes [195; 169; 226; 130; 172; 240; 159; 152; 128]%N) = 4.
Proof. reflexivity. Qed.
Example broken_rune : RuneCountInString (bytes [226; 130; 65]%N) = 3.
Proof. reflexivity. Qed.

(** ** Data *)

(* src/internal/api/opamp_tokens.go:22-28 createOpAMPTokenRequest *)
Record createOpAMPTokenRequest := mkCreate {
  cr_Name : string; cr_Description : string; cr_Team : string; cr_Environment : string;
  cr_ExpiresAt : option ltime
}.
(* src/internal/api/opamp_tokens.go:30-33 createOpAMPTokenResponse *)
Record createOpAMPTokenResponse := mkCreated { cs_Token : OpAMPToken; cs_Value : string }.
(* src/internal/api/opamp_tokens.go:39-42 revokeOpAMPTokenResponse *)
Record revokeOpAMPTokenResponse := mkRevoked { rv_Token : OpAMPToken; rv_DisconnectedConnections : nat }.

(** What a request draws: the clock, the random identifiers in their order, the
    bytes and the identifier of a new token, what fails, and the user that
    authorization put into its context. *)
Record tenv := mkTenv {
  te_now : Time; te_uuid : nat -> string; te_secret : option (list N); te_id : option string;
  te_faults : faults; te_query_fails : bool; te_user : UserInfo; te_opamp : bool
}.

(** The tables, the connection manager and the answer. *)
Record toutcome (A : Type) := mkTOutcome {
  to_db : db; to_world : TokenConnections.world; to_reply : Fleet.reply A }.
Arguments mkTOutcome {A} _ _ _. Arguments to_db {A} _. Arguments to_world {A} _. Arguments to_reply {A} _.

(* src/internal/api/opamp_tokens.go:168-185 validateCreateOpAMPTokenRequest *)
Definition validateCreateOpAMPTokenRequest (r : createOpAMPTokenRequest) (now : Time) : option string :=
  if Nat.ltb (RuneCountInString (cr_Name r)) 1 then Some "name is required"
  else if Nat.ltb 128 (RuneCountInString (cr_Name r)) then Some "name exceeds 128 characters"
  else if Nat.ltb 512 (RuneCountInString (cr_Description r)) then Some "description exceeds 512 characters"
  else if Nat.ltb 128 (RuneCountInString (cr_Team r)) then Some "team exceeds 128 characters"
  else if Nat.ltb 128 (RuneCountInString (cr_Environment r)) then Some "environment exceeds 128 characters"
  else match cr_ExpiresAt r with
  | Some e => if negb (After (lt e) now) then Some "expires_at must be in the future" else None
  | None => None
  end.

(** The loop draws identifiers until one differs from the token's; [fuel] bounds
    the draws. *)
Fixpoint drawEventID (fuel : nat) (uuid : nat -> string) (tokenID : string) (n : nat) : option string :=
  match fuel with
  | O => None
  | S k => if uuid n =s tokenID then drawEventID k uuid tokenID (S n) else Some (uuid n)
  end.
(* src/internal/api/opamp_tokens.go:187-202 newOpAMPTokenAuditEvent *)
Definition newOpAMPTokenAuditEvent (fuel : nat) (uuid : nat -> string) (action tokenID : string)
  (occurredAt : ltime) (user : UserInfo) : option AuditEvent :=
  match drawEventID fuel uuid tokenID 0 with
  | Some eventID => Some (mkAuditEvent eventID occurredAt action (ui_UserID user) (ui_Email user)
                            "opamp_token" tokenID "")
  | None => None
  end.

Section Handlers.
Context {uuid : UuidLib} (token_checks : string -> token_row -> bool) (event_checks : AuditEvent -> bool).
Context (v : tenv) (fuel : nat).

Definition refused {A} (d : db) (w : TokenConnections.world) (status : Z) (text : string) : toutcome A :=
  mkTOutcome d w (Fleet.refuse status text).
(* src/internal/api/opamp_tokens.go:204-210 respondOpAMPTokenOutcomeUnknown *)
Definition respondOpAMPTokenOutcomeUnknown {A} (d : db) (w : TokenConnections.world) : toutcome A :=
  mkTOutcome d w (Fleet.Refused (Api.mkResponse 503 "operation outcome unknown" "unknown")).
(* src/internal/api/opamp_tokens.go:140-157 decodeOpAMPTokenJSONBody *)
Definition decodeOpAMPTokenJSONBody {A B} (d : db) (w : TokenConnections.world) (body : ConfigLibrary.decoding A)
  (k : A -> option (toutcome B)) : option (toutcome B) :=
  match body with
  | ConfigLibrary.Value x ConfigLibrary.AtEnd => k x
  | ConfigLibrary.TooLarge | ConfigLibrary.Value _ ConfigLibrary.TooLargeAfter =>
      Some (refused d w 413 "request body too large")
  | _ => Some (refused d w 400 "invalid JSON")
  end.

Definition trimmed (r : createOpAMPTokenRequest) : createOpAMPTokenRequest :=
  mkCreate (TrimSpace (cr_Name r)) (cr_Description r) (cr_Team r) (cr_Environment r) (cr_ExpiresAt r).
Definition new_token (r : createOpAMPTokenRequest) (id : string) : OpAMPToken :=
  mkToken id (cr_Name r) (cr_Description r) (cr_Team r) (cr_Environment r) (mkLtime (te_now v) true)
    (ui_UserID (te_user v)) (UTC <$> cr_ExpiresAt r) None None "" OpAMPTokenActive.

(** [None] is a draw of identifiers that did not end within the fuel. *)
(* src/internal/api/opamp_tokens.go:44-92 handleCreateOpAMPToken *)
Definition handleCreateOpAMPToken (d : db) (w : TokenConnections.world)
  (body : ConfigLibrary.decoding createOpAMPTokenRequest) : option (toutcome createOpAMPTokenResponse) :=
  decodeOpAMPTokenJSONBody d w body (fun request =>
  let request := trimmed request in
  match validateCreateOpAMPTokenRequest request (te_now v) with
  | Some e => Some (refused d w 400 e)
  | None =>
  match Generate (te_secret v) (te_id v) with
  | None => Some (refused d w 503 "token generation unavailable")
  | Some generated =>
  let token := new_token request (gt_ID generated) in
  match newOpAMPTokenAuditEvent fuel (te_uuid v) "opamp.token.create" (ot_ID token) (mkLtime (te_now v) true)
          (te_user v) with
  | None => None
  | Some event =>
  match CreateOpAMPToken token_checks event_checks d (te_faults v)
          (mkCredential token (gt_SecretHash generated)) event with
  | (d', Err e) => Some (if e =s "commit outcome unknown" then respondOpAMPTokenOutcomeUnknown d' w
                         else refused d' w 503 "token store unavailable")
  | (d', Ok _) => Some (mkTOutcome d' w (Fleet.Replied 201 (mkCreated token (gt_Value generated))))
  end end end end).

(* src/internal/api/opamp_tokens.go:94-104 handleListOpAMPTokens *)
Definition handleListOpAMPTokens (d : db) (w : TokenConnections.world) : toutcome (list OpAMPToken) :=
  match ListOpAMPTokens d (te_query_fails v) (te_now v) with
  | Err _ => refused d w 503 "token store unavailable"
  | Ok tokens => mkTOutcome d w (Fleet.Replied 200 tokens)
  end.

(** Only the call that wins the disable of a token is given its sessions. *)
(* src/internal/opamp/server.go:1009-1012 DisconnectTokenConnections *)
Definition DisconnectTokenConnections (w : TokenConnections.world) (tokenID : string)
  : TokenConnections.world * nat :=
  let w' := TokenConnections.Disable w tokenID in
  let m := TokenConnections.mgr w in
  (w', if TokenConnections.stopped m || bool_decide (is_Some (TokenConnections.disableStates m !! tokenID)) then 0
       else match TokenConnections.disableStates (TokenConnections.mgr w') !! tokenID with
       | Some x => length (TokenConnections.ds_sessions x)
       | None => 0
       end).
(** The call begins the disable; it returns once the disable is done. *)
(* src/internal/api/opamp_tokens.go:133-138 disconnectTokenConnections *)
Definition disconnectTokenConnections (w : TokenConnections.world) (tokenID : string)
  : TokenConnections.world * nat :=
  if te_opamp v then DisconnectTokenConnections w tokenID else (w, 0).

(* src/internal/api/opamp_tokens.go:106-131 handleRevokeOpAMPToken *)
Definition handleRevokeOpAMPToken (d : db) (w : TokenConnections.world) (tokenID : string)
  : option (toutcome revokeOpAMPTokenResponse) :=
  match newOpAMPTokenAuditEvent fuel (te_uuid v) "opamp.token.revoke" tokenID (mkLtime (te_now v) true)
          (te_user v) with
  | None => None
  | Some event =>
  match RevokeOpAMPToken token_checks event_checks d (te_faults v) tokenID (ui_UserID (te_user v))
          (mkLtime (te_now v) true) event with
  | (d', Err e) =>
      Some (if e =s "OpAMP token not found" then refused d' w 404 "token not found"
            else if e =s "commit outcome unknown"
            then respondOpAMPTokenOutcomeUnknown d' (disconnectTokenConnections w tokenID).1
            else refused d' w 503 "token store unavailable")
  | (d', Ok (token, _)) =>
      let '(w', disconnected) := disconnectTokenConnections w tokenID in
      Some (mkTOutcome d' w' (Fleet.Replied 200 (mkRevoked token disconnected)))
  end
  end.
End Handlers.

(** ** Proofs *)

(** The draw ends as soon as an identifier differs. *)
Lemma drawEventID_ends uuid tokenID k : forall fuel n, uuid (n + k) <> tokenID -> k < fuel ->
  exists id, drawEventID fuel uuid tokenID n = Some id /\ id <> tokenID.
Proof.
  induction k as [|k IH]; intros [|fuel] n Hk Hf; try lia; cbn.
  - rewrite Nat.add_0_r in Hk. rewrite (proj2 (String.eqb_neq _ _) Hk). eauto.
  - destruct (String.eqb_spec (uuid n) tokenID) as [|Hn]; [|eauto].
    apply IH; [|lia]. by replace (S n + k) with (n + S k) by lia.
Qed.

Lemma disable_off w id : TokenSafety.off (TokenConnections.Disable w id) id.
Proof.
  unfold TokenSafety.off, TokenConnections.Disable.
  destruct (TokenConnections.stopped (TokenConnections.mgr w)) eqn:Es; [by left|]. right.
  unfold TokenConnections.beginDisableLocked.
  destruct (TokenConnections.disableStates (TokenConnections.mgr w) !! id) as [x|] eqn:Ed; [rewrite Ed; eauto|].
  destruct (foldl _ _ _) as [w1 ds]. unfold TokenConnections.completeDisable. cbn. rewrite lookup_insert_eq. cbn.
  rewrite lookup_insert_eq. eauto.
Qed.

Section Facts.
Context {uuid : UuidLib} (token_checks : string -> token_row -> bool) (event_checks : AuditEvent -> bool).

Lemma RevokeOpAMPToken_Ok d f id by_ now ev d' x :
  RevokeOpAMPToken token_checks event_checks d f id by_ now ev = (d', Ok x) -> is_revoked d' id.
Proof.
  intros E. destruct (revoke_atomic token_checks event_checks d f id by_ now ev)
    as [[E1 [E2|(tok & r & _ & Hr & Hn)]]|(_ & (r & _ & _ & Hr) & _)]; rewrite E in *; cbn in *.
  - done.
  - subst d'. by exists r.
  - exists (revoke_row r (lt now) by_). rewrite Hr, lookup_insert_eq. done.
Qed.


Lemma RevokeOpAMPToken_Err d f id by_ now ev d' e :
  RevokeOpAMPToken token_checks event_checks d f id by_ now ev = (d', Err e) -> e <> "commit outcome unknown" -> d' = d.
Proof.
  unfold RevokeOpAMPToken. case_if; [by intros [= <-]|]. case_match; [by intros [= <-]|]. case_match; [by intros [= <-]|].
  case_if; [by intros [= <-]|]. case_if; [by intros [= <-]|]. case_match; [|by intros [= <-]].
  case_if; [by intros [= <-]|]. case_if; [by intros [= <-]|]. case_if; [by intros [= <-]|].
  case_match; [|by intros [= <-]]. unfold commit. destruct (f_commit f) as [|[]]; [done| |]; by intros [= <- <-].
Qed.

(** C35: a refused revocation changes nothing: with 404 or a failed store the
    tables and the connections are as they were; only when the commit itself cannot
    be told, the answer says so and the connections are closed as if it had succeeded. *)
Theorem refused_revocation_changes_nothing v fuel d w id o r
    (Ho : handleRevokeOpAMPToken token_checks event_checks v fuel d w id = Some o)
    (Hr : to_reply o = Fleet.Refused r) :
  to_db o = d /\ to_world o = w /\ (Api.rp_status r = 404 \/ Api.rp_status r = 503)%Z /\ Api.rp_code r = "" \/
  r = Api.mkResponse 503 "operation outcome unknown" "unknown" /\
  to_world o = (disconnectTokenConnections v w id).1 /\ (to_db o = d \/ is_revoked (to_db o) id).
Proof.
  revert Ho. unfold handleRevokeOpAMPToken. destruct (newOpAMPTokenAuditEvent _ _ _ _ _ _) as [ev|]; [|done].
  pose proof (revoke_atomic token_checks event_checks d (te_faults v) id (ui_UserID (te_user v))
    (mkLtime (te_now v) true) ev) as Ha.
  destruct (RevokeOpAMPToken _ _ _ _ _ _ _ _) as [d1 [[token b]|e]] eqn:Er; cbn [fst snd] in Ha.
  { destruct (disconnectTokenConnections v w id). intros [= <-]. done. }
  intros [= <-]. destruct (e =s "OpAMP token not found") eqn:E1; [|destruct (e =s "commit outcome unknown") eqn:E2].
  - left. injection Hr as <-. cbn. split; [|auto].
    apply (RevokeOpAMPToken_Err _ _ _ _ _ _ _ _ Er). by apply String.eqb_eq in E1 as ->.
  - right. injection Hr as <-. cbn. split; [done|]. split; [done|].
    destruct Ha as [[-> _]|(_ & (q & _ & _ & Hq) & _)]; [by left|right].
    eexists. rewrite Hq, lookup_insert_eq. done.
  - left. injection Hr as <-. cbn. split; [|auto].
    apply (RevokeOpAMPToken_Err _ _ _ _ _ _ _ _ Er). by apply String.eqb_neq.
Qed.

Lemma name_bounds r now : validateCreateOpAMPTokenRequest r now = None ->
  1 <= RuneCountInString (cr_Name r) <= 128 /\ RuneCountInString (cr_Description r) <= 512 /\
  RuneCountInString (cr_Team r) <= 128 /\ RuneCountInString (cr_Environment r) <= 128 /\
  forall e, cr_ExpiresAt r = Some e -> (now < lt e)%Z.
Proof.
  unfold validateCreateOpAMPTokenRequest. do 5 (match goal with |- context [Nat.ltb ?a ?b] => destruct (Nat.ltb_spec a b); [done|] end).
  destruct (cr_ExpiresAt r) as [e|]; [|intros _; split_and!; done || lia].
  destruct (After (lt e) now) eqn:E; [|done]. intros _. split_and!; try lia. intros x [= <-].
  by apply Z.ltb_lt in E.
Qed.

(** C34: a token created through the API works: the answer 201 carries a value that
    parses and authenticates as the created token until the requested expiry, which
    lies in the future; its name has between 1 and 128 characters; the token and the
    audit record of its creation by this user are stored together. *)
Theorem api_token_authenticates v fuel d w req o resp secret id
    (Hs : te_secret v = Some secret) (Hl : length secret = secretLength)
    (Hb : forall b, In b secret -> (b < 256)%N) (Hi : te_id v = Some id) (Hn : no_char dot id)
    (Ho : handleCreateOpAMPToken token_checks event_checks v fuel d w
            (ConfigLibrary.Value req ConfigLibrary.AtEnd) = Some o)
    (Hr : to_reply o = Fleet.Replied 201 resp) :
  ot_ID (cs_Token resp) = id /\ 1 <= RuneCountInString (ot_Name (cs_Token resp)) <= 128 /\
  (exists ev, created d (to_db o) id ev /\ ae_Action ev = "opamp.token.create" /\
     ae_UserID ev = ui_UserID (te_user v) /\ ae_ResourceID ev = id) /\
  (forall e, cr_ExpiresAt req = Some e -> (te_now v < lt e)%Z) /\
  forall now, (forall e, cr_ExpiresAt req = Some e -> (now < lt e)%Z) ->
    exists k h, ParseAndHash (cs_Value resp) = Some (k, h) /\
      ValidateOpAMPToken (to_db o) false k h now = Ok (mkPrincipal k (lt <$> cr_ExpiresAt req)).
Proof.
  revert Ho. unfold handleCreateOpAMPToken. cbn [decodeOpAMPTokenJSONBody].
  destruct (validateCreateOpAMPTokenRequest _ _) eqn:Ev; [intros [= <-]; done|]. apply name_bounds in Ev.
  destruct (Generate (te_secret v) (te_id v)) as [g|] eqn:Eg; [|intros [= <-]; done].
  assert (Hgi : gt_ID g = id) by (rewrite Hs, Hi in Eg; unfold Generate in Eg; cbn in Eg; by injection Eg as <-).
  destruct (newOpAMPTokenAuditEvent _ _ _ _ _ _) as [ev|] eqn:Ee; [|done].
  destruct (CreateOpAMPToken _ _ _ _ _ _) as [d1 [[]|e]] eqn:Ec.
  2: { intros [= <-]. revert Hr. by destruct (e =s _). }
  intros [= <-]. cbn [to_reply] in Hr. injection Hr as <-. cbn [to_db cs_Token cs_Value]. rewrite <- Hgi.
  destruct Ev as (Hname & _ & _ & _ & Hexp). split; [done|]. split; [exact Hname|]. split; [|split; [exact Hexp|]].
  - exists ev. pose proof (create_atomic token_checks event_checks d (te_faults v)
      (mkCredential (new_token v (trimmed req) (gt_ID g)) (gt_SecretHash g)) ev) as Ha. rewrite Ec in Ha.
    destruct Ha as [[_ Ha]|Ha]; [done|]. split; [exact Ha|].
    revert Ee. unfold newOpAMPTokenAuditEvent. destruct (drawEventID _ _ _ _); [|done]. by intros [= <-].
  - intros now Hnow. rewrite Hs, Hi in Eg.
    destruct (created_token_authenticates token_checks event_checks d d1 (te_faults v)
      (mkCredential (new_token v (trimmed req) (gt_ID g)) (gt_SecretHash g)) ev secret g now)
      as (k & h & Hp & Hv); try done.
    + cbn. by rewrite Hgi.
    + cbn. by rewrite Hgi.
    + cbn. intros e. destruct (cr_ExpiresAt req) as [x|]; [|done]. intros [= <-]. exact (Hnow x eq_refl).
    + exists k, h. split; [done|]. rewrite Hv. cbn. clear. by destruct (cr_ExpiresAt req).
Qed.
End Facts.

(** ** Samples *)

Definition event_uuid := "0a8f0000-0000-4000-8000-0000000000bb".
Definition admin_env : tenv :=
  mkTenv 10 (fun n => match n with O => demo_id | _ => event_uuid end) (Some demo_secret) (Some demo_id)
    no_faults false (mkUserInfo "u" "u@x" ["administrator"]) true.
Definition edge_request := mkCreate " edge " "" "" "" (Some (mkLtime 100 true)).
Definition no_checks : string -> token_row -> bool := fun _ _ => true.
Definition any_event : AuditEvent -> bool := fun _ => true.
#[local] Existing Instance canonical_uuid.

Definition created_edge : toutcome createOpAMPTokenResponse :=
  default (refused (mkDB ∅ ∅) TokenConnections.newTokenConnections 0 "")
    (handleCreateOpAMPToken no_checks any_event admin_env 2 (mkDB ∅ ∅) TokenConnections.newTokenConnections
       (ConfigLibrary.Value edge_request ConfigLibrary.AtEnd)).
Lemma created_edge_ok :
  handleCreateOpAMPToken no_checks any_event admin_env 2 (mkDB ∅ ∅) TokenConnections.newTokenConnections
    (ConfigLibrary.Value edge_request ConfigLibrary.AtEnd) = Some created_edge.
Proof. vm_compute. reflexivity. Qed.
Definition edge_reply : createOpAMPTokenResponse :=
  match to_reply created_edge with Fleet.Replied _ x => x | _ => mkCreated demo_token "" end.
Lemma edge_reply_ok : to_reply created_edge = Fleet.Replied 201 edge_reply.
Proof. vm_compute. reflexivity. Qed.

Lemma api_token_authenticates_witness : exists k h, ParseAndHash (cs_Value edge_reply) = Some (k, h) /\
  ValidateOpAMPToken (to_db created_edge) false k h 50 = Ok (mkPrincipal k (Some 100%Z)).
Proof.
  destruct (api_token_authenticates no_checks any_event admin_env 2 (mkDB ∅ ∅) TokenConnections.newTokenConnections
    edge_request created_edge edge_reply demo_secret demo_id eq_refl eq_refl demo_secret_bytes eq_refl
    demo_id_no_dot created_edge_ok edge_reply_ok) as (_ & _ & _ & _ & Hv).
  apply (Hv 50%Z). intros e [= <-]. cbn. lia.
Defined.

Definition revoked_edge : toutcome revokeOpAMPTokenResponse :=
  default (refused (mkDB ∅ ∅) TokenConnections.newTokenConnections 0 "")
    (handleRevokeOpAMPToken no_checks any_event admin_env 2 demo_db TokenConnections.newTokenConnections demo_id).
Lemma revoked_edge_ok : handleRevokeOpAMPToken no_checks any_event admin_env 2 demo_db
  TokenConnections.newTokenConnections demo_id = Some revoked_edge.
Proof. vm_compute. reflexivity. Qed.
Lemma revoked_edge_reply : exists resp, to_reply revoked_edge = Fleet.Replied 200 resp.
Proof. eexists. vm_compute. reflexivity. Qed.

Definition unknown_token : toutcome revokeOpAMPTokenResponse :=
  default (refused demo_db TokenConnections.newTokenConnections 0 "")
    (handleRevokeOpAMPToken no_checks any_event admin_env 2 (mkDB ∅ ∅) TokenConnections.newTokenConnections demo_id).
Lemma unknown_token_ok : handleRevokeOpAMPToken no_checks any_event admin_env 2 (mkDB ∅ ∅)
  TokenConnections.newTokenConnections demo_id = Some unknown_token.
Proof. vm_compute. reflexivity. Qed.
Lemma unknown_token_reply : to_reply unknown_token = Fleet.Refused (Api.mkResponse 404 "token not found" "").
Proof. vm_compute. reflexivity. Qed.
Lemma refused_revocation_changes_nothing_witness : to_world unknown_token = TokenConnections.newTokenConnections.
Proof.
  destruct (refused_revocation_changes_nothing no_checks any_event admin_env 2 (mkDB ∅ ∅)
    TokenConnections.newTokenConnections demo_id unknown_token (Api.mkResponse 404 "token not found" "")
    unknown_token_ok unknown_token_reply) as [(_ & Hw & _)|[Hr _]]; [exact Hw|discriminate Hr].
Defined.
End TokenApi.
