(* ===== verification/Webhook.v ===== *)
(** * The alert webhook (internal/alerts/webhook.go)

    The notifier posts alerts to a URL of the operator. What it must never do is
    let that URL, a redirect or an answer of the resolver take it to an address
    inside the network the server runs in. Addresses are the 128-bit values of
    net/netip with their predicates; the resolver, the parser of textual
    addresses and the HTTP transport are parameters. *)

From S2P Require Import Prelude GoString Models Yaml OtelDiff.
Import Yaml OtelDiff.

Module Webhook.

(** ** Addresses (net/netip) *)

(** An address: its family, its value and its zone (empty: none). *)
Record Addr := mkAddr { ad_is4 : bool; ad_value : Z; ad_zone : string }.

Section Netip.
Local Open Scope Z_scope.

(** [ip.v4(i)] and the first two bytes of an IPv6 address. *)
Definition v4 (a : Addr) (i : Z) : Z := Z.land (Z.shiftr (ad_value a) (8 * (3 - i))) 255.
Definition v6 (a : Addr) (i : Z) : Z := Z.land (Z.shiftr (ad_value a) (8 * (15 - i))) 255.
Definition v6u16 (a : Addr) : Z := Z.shiftr (ad_value a) 112.

Definition Is4In6 (a : Addr) : bool := negb (ad_is4 a) && Z.eqb (Z.shiftr (ad_value a) 32) 65535.
Definition Unmap (a : Addr) : Addr :=
  if Is4In6 a then mkAddr true (ad_value a mod 2 ^ 32) "" else a.

Definition IPv4Unspecified : Addr := mkAddr true 0 "".
Definition IPv6Unspecified : Addr := mkAddr false 0 "".
Global Instance Addr_eq_dec : EqDecision Addr.
Proof. solve_decision. Defined.

(** Every predicate looks at an embedded IPv4 address as IPv4; the comparison
    with the unspecified address compares the zone too. *)
Definition IsLoopback (a : Addr) : bool :=
  let a := Unmap a in if ad_is4 a then Z.eqb (v4 a 0) 127 else Z.eqb (ad_value a) 1.
Definition IsMulticast (a : Addr) : bool :=
  let a := Unmap a in
  if ad_is4 a then Z.eqb (Z.land (v4 a 0) 240) 224 else Z.eqb (v6 a 0) 255.
Definition IsLinkLocalUnicast (a : Addr) : bool :=
  let a := Unmap a in
  if ad_is4 a then Z.eqb (v4 a 0) 169 && Z.eqb (v4 a 1) 254
  else Z.eqb (Z.land (v6u16 a) 65472) 65152.
Definition IsLinkLocalMulticast (a : Addr) : bool :=
  let a := Unmap a in
  if ad_is4 a then Z.eqb (v4 a 0) 224 && Z.eqb (v4 a 1) 0 && Z.eqb (v4 a 2) 0
  else Z.eqb (Z.land (v6u16 a) 65295) 65282.
Definition IsPrivate (a : Addr) : bool :=
  let a := Unmap a in
  if ad_is4 a then
    Z.eqb (v4 a 0) 10 || (Z.eqb (v4 a 0) 172 && Z.eqb (Z.land (v4 a 1) 240) 16)
    || (Z.eqb (v4 a 0) 192 && Z.eqb (v4 a 1) 168)
  else Z.eqb (Z.land (v6 a 0) 254) 252.
Definition IsUnspecified (a : Addr) : bool :=
  bool_decide (a = IPv4Unspecified) || bool_decide (a = IPv6Unspecified).
Definition IsGlobalUnicast (a : Addr) : bool :=
  let a := Unmap a in
  negb (ad_is4 a && (Z.eqb (ad_value a) 0 || Z.eqb (ad_value a) (2 ^ 32 - 1)))
  && negb (bool_decide (a = IPv6Unspecified))
  && negb (IsLoopback a) && negb (IsMulticast a) && negb (IsLinkLocalUnicast a).

(** A prefix: the family, the value and the number of bits. *)
Record Prefix := mkPrefix { px_is4 : bool; px_value : Z; px_bits : Z }.
Definition width (is4 : bool) : Z := if is4 then 32 else 128.
(** [p.Contains(ip)]: an address with a zone is in no prefix. *)
Definition Contains (p : Prefix) (a : Addr) : bool :=
  (ad_zone a =s "") && Bool.eqb (px_is4 p) (ad_is4 a)
  && Z.eqb (Z.shiftr (Z.lxor (ad_value a) (px_value p)) (width (px_is4 p) - px_bits p)) 0.

Definition dotted (a b c d : Z) : Z := ((a * 256 + b) * 256 + c) * 256 + d.
(** The first four groups of an IPv6 address, the others zero. *)
Definition groups (a b c d : Z) : Z := Z.shiftl (((a * 65536 + b) * 65536 + c) * 65536 + d) 64.

(* src/internal/alerts/webhook.go:143-165 isSafeWebhookIP *)
Definition blockedPrefixes : list Prefix :=
  [ mkPrefix true (dotted 0 0 0 0) 8; mkPrefix true (dotted 100 64 0 0) 10;
    mkPrefix true (dotted 192 0 0 0) 24; mkPrefix true (dotted 192 0 2 0) 24;
    mkPrefix true (dotted 198 18 0 0) 15; mkPrefix true (dotted 198 51 100 0) 24;
    mkPrefix true (dotted 203 0 113 0) 24; mkPrefix true (dotted 224 0 0 0) 4;
    mkPrefix true (dotted 240 0 0 0) 4;
    mkPrefix false 0 128; mkPrefix false 1 128;
    mkPrefix false (groups 64512 0 0 0) 7; mkPrefix false (groups 65152 0 0 0) 10;
    mkPrefix false (groups 65280 0 0 0) 8; mkPrefix false (groups 100 65435 0 0) 96;
    mkPrefix false (groups 100 65435 1 0) 48; mkPrefix false (groups 8193 0 0 0) 32;
    mkPrefix false (groups 8193 2 0 0) 48; mkPrefix false (groups 8193 32 0 0) 28;
    mkPrefix false (groups 8193 3512 0 0) 32; mkPrefix false (groups 8194 0 0 0) 16 ].

(** Every address a parser or a resolver gives is valid. *)
(* src/internal/alerts/webhook.go:137-172 isSafeWebhookIP *)
Definition isSafeWebhookIP (a : Addr) : bool :=
  let a := Unmap a in
  if negb (IsGlobalUnicast a) || IsPrivate a || IsLoopback a || IsLinkLocalUnicast a
     || IsLinkLocalMulticast a || IsMulticast a || IsUnspecified a then false
  else negb (existsb (fun p => Contains p a) blockedPrefixes).

(** ** The reference: blocks of special-purpose addresses as ranges *)

(** An address is of its family's width, and only IPv6 has zones. *)
Definition valid (a : Addr) : Prop :=
  0 <= ad_value a < 2 ^ width (ad_is4 a) /\ (ad_is4 a = true -> ad_zone a = "").

(** The block of the addresses that start with the [bits] first bits of a value. *)
Record block := mkBlock { bk_is4 : bool; bk_first : Z; bk_bits : Z }.
Definition within (b : block) (a : Addr) : Prop :=
  bk_is4 b = ad_is4 a /\
  bk_first b <= ad_value a < bk_first b + 2 ^ (width (bk_is4 b) - bk_bits b).

(** This network, private use, shared, loopback, link local, private use, protocol
    assignments, documentation, private use, benchmarking, documentation (twice),
    multicast with the reserved rest; for IPv6 the unspecified address, loopback,
    translation (twice), Teredo, benchmarking, ORCHID, documentation, 6to4, local,
    link local and multicast. *)
Definition special_blocks : list block :=
  [ mkBlock true (dotted 0 0 0 0) 8; mkBlock true (dotted 10 0 0 0) 8;
    mkBlock true (dotted 100 64 0 0) 10; mkBlock true (dotted 127 0 0 0) 8;
    mkBlock true (dotted 169 254 0 0) 16; mkBlock true (dotted 172 16 0 0) 12;
    mkBlock true (dotted 192 0 0 0) 24; mkBlock true (dotted 192 0 2 0) 24;
    mkBlock true (dotted 192 168 0 0) 16; mkBlock true (dotted 198 18 0 0) 15;
    mkBlock true (dotted 198 51 100 0) 24; mkBlock true (dotted 203 0 113 0) 24;
    mkBlock true (dotted 224 0 0 0) 3;
    mkBlock false 0 128; mkBlock false 1 128;
    mkBlock false (groups 100 65435 0 0) 96; mkBlock false (groups 100 65435 1 0) 48;
    mkBlock false (groups 8193 0 0 0) 32; mkBlock false (groups 8193 2 0 0) 48;
    mkBlock false (groups 8193 32 0 0) 28; mkBlock false (groups 8193 3512 0 0) 32;
    mkBlock false (groups 8194 0 0 0) 16; mkBlock false (groups 64512 0 0 0) 7;
    mkBlock false (groups 65152 0 0 0) 10; mkBlock false (groups 65280 0 0 0) 8 ].
Definition special (a : Addr) : Prop := exists b, b ∈ special_blocks /\ within b (Unmap a).

End Netip.

(** ** The notifier *)

(** The parser of addresses and the resolver; an answer of the resolver is the
    bytes of an address. *)
Class NetLib := {
  ParseAddr : string -> option Addr;
  LookupIPAddr : string -> result (list (list N));
  ParseAddr_valid s a : ParseAddr s = Some a -> valid a;
  LookupIPAddr_bytes s l : LookupIPAddr s = Ok l -> Forall (Forall (fun b => (b < 256)%N)) l
}.

(** The address the bytes stand for, through [IP.String] and [ParseAddr]: four
    bytes, or sixteen of which an embedded IPv4 address is printed as IPv4. *)
Definition be_value (l : list N) : Z := foldl (fun v b => (v * 256 + Z.of_N b)%Z) 0%Z l.
Definition ip_addr (ip : list N) : option Addr :=
  if Nat.eqb (length ip) 4 then Some (mkAddr true (be_value ip) "")
  else if Nat.eqb (length ip) 16 then Some (Unmap (mkAddr false (be_value ip) "")) else None.

Definition errUnsafeWebhookURL := "unsafe webhook URL".

(** The address given to the dialer: [JoinHostPort] of the address and the port. *)
Record target := mkTarget { tg_addr : Addr; tg_port : string }.

Section Notifier.
Context `{UnicodeTables} `{UrlLib} `{NetLib}.

(* src/internal/alerts/webhook.go:98-120 safeWebhookDialAddress *)
Definition safeWebhookDialAddress (host port : string) : result target :=
  match ParseAddr host with
  | Some addr => if negb (isSafeWebhookIP addr) then Err (errUnsafeWebhookURL +:+ ": " +:+ host)
                 else Ok (mkTarget addr port)
  | None =>
      match LookupIPAddr host with
      | Err e => Err e
      | Ok addrs =>
          let unsafe ip := match ip_addr ip with Some a => negb (isSafeWebhookIP a) | None => true end in
          if existsb unsafe addrs then Err (errUnsafeWebhookURL +:+ ": " +:+ host +:+ " resolved to an unsafe address")
          else match addrs with
          | [] => Err (errUnsafeWebhookURL +:+ ": " +:+ host +:+ " did not resolve")
          | ip :: _ => match ip_addr ip with Some a => Ok (mkTarget a port) | None => Err "" end
          end
      end
  end.

(* src/internal/alerts/webhook.go:122-135 isSafeWebhookURL *)
Definition isSafeWebhookURL (candidate : URL) : bool :=
  let hostname := (splitHostPort (u_Host candidate)).1 in
  if (u_Scheme candidate <>s "https") || (hostname =s "")
     || match u_User candidate with Some _ => true | None => false end then false
  else
    let host := TrimSuffix (ToLower hostname) "." in
    if (host =s "localhost") || HasSuffix host ".localhost" then false
    else match ParseAddr host with Some addr => isSafeWebhookIP addr | None => true end.

(* src/internal/alerts/webhook.go:23-26 WebhookNotifier *)
Record WebhookNotifier := mkNotifier { wn_url : string }.

(* src/internal/alerts/webhook.go:29-43 NewWebhookNotifier *)
Definition NewWebhookNotifier (rawURL : string) : option WebhookNotifier :=
  if rawURL =s "" then None
  else match url_Parse rawURL with
  | Some u => if isSafeWebhookURL u then Some (mkNotifier (url_String u)) else None
  | None => None
  end.

(** ** A delivery *)

(** What happens during one delivery: the requests and the connections opened. *)
Inductive event := Requested (u : URL) | Dialled (t : target).

(** One exchange as the transport and the server of the other side behave: the
    hosts and ports the transport wants connections to (none when it reuses one),
    whether the request gets through, and the answer. *)
Inductive answer := Status (code : Z) | Redirect (location : option URL).
Record exchange := mkExchange { ex_dials : list (string * string); ex_answer : option answer }.

(** The transport's connections: the first refused address ends the attempt. *)
Fixpoint dial_all (l : list (string * string)) : list event * option string :=
  match l with
  | [] => ([], None)
  | (host, port) :: rest =>
      match safeWebhookDialAddress host port with
      | Err e => ([], Some e)
      | Ok t => let (evs, err) := dial_all rest in (Dialled t :: evs, err)
      end
  end.

(** [http.Client.Do] with the client's [CheckRedirect]: a redirect is followed
    only to a URL that is safe. When the script ends, the time is over. *)
(* src/internal/alerts/webhook.go:70-96 newSafeWebhookHTTPClient *)
Fixpoint client_do (u : URL) (script : list exchange) : list event * result Z :=
  match script with
  | [] => ([], Err "context deadline exceeded")
  | x :: rest =>
      let (evs, err) := dial_all (ex_dials x) in
      match err with
      | Some e => (evs, Err e)
      | None =>
          match ex_answer x with
          | None => (evs ++ [Requested u], Err "request failed")
          | Some (Status code) => (evs ++ [Requested u], Ok code)
          | Some (Redirect None) => (evs ++ [Requested u], Err "failed to parse Location header")
          | Some (Redirect (Some u')) =>
              if isSafeWebhookURL u'
              then let (evs', r) := client_do u' rest in (evs ++ Requested u :: evs', r)
              else (evs ++ [Requested u], Err errUnsafeWebhookURL)
          end
      end
  end.

(** The payload with the instant whose text it carries, and what the notifier
    logs; [marshal] is [json.Marshal]. *)
Record payload := mkPayload { pl_alert : Alert; pl_event : string; pl_fired_at : Time }.

(* src/internal/alerts/webhook.go:46-68 Send *)
Definition Send (w : WebhookNotifier) (marshal : payload -> result string) (alert : Alert)
    (script : list exchange) : list event * option string :=
  match marshal (mkPayload alert "alert_fired" (al_FiredAt alert)) with
  | Err e => ([], Some ("webhook: marshal error: " +:+ e))
  | Ok _ =>
      match url_Parse (wn_url w) with
      | None => ([], Some "webhook: send error: parse")
      | Some u =>
          let (evs, r) := client_do u script in
          (evs, match r with
                | Err e => Some ("webhook: send error: " +:+ e)
                | Ok code => if Z.leb 400 code then Some "webhook: server returned an error" else None
                end)
      end
  end.

End Notifier.

(** ** Addresses: the tests as ranges *)

Section Ranges.
Local Open Scope Z_scope.

Definition in_range (first k v : Z) : bool := (first <=? v) && (v <? first + 2 ^ k).

Lemma shiftr_range v k c : 0 <= k -> Z.eqb (Z.shiftr v k) c = in_range (c * 2 ^ k) k v.
Proof.
  intros Hk. rewrite Z.shiftr_div_pow2 by done. unfold in_range.
  assert (0 < 2 ^ k) by (apply Z.pow_pos_nonneg; lia).
  pose proof (Z.div_mod v (2 ^ k)). pose proof (Z.mod_pos_bound v (2 ^ k)).
  apply eq_true_iff_eq. rewrite Z.eqb_eq, andb_true_iff, Z.leb_le, Z.ltb_lt. nia.
Qed.

Lemma prefix_range v p k : 0 <= k ->
  Z.eqb (Z.shiftr (Z.lxor v p) k) 0 = in_range (Z.shiftr p k * 2 ^ k) k v.
Proof.
  intros Hk. rewrite <-shiftr_range, Z.shiftr_lxor by done.
  apply eq_true_iff_eq. rewrite !Z.eqb_eq. apply Z.lxor_eq_0_iff.
Qed.

(** A mask that keeps the high bits of a field of [m + k] bits. *)
Lemma land_high x m k : 0 <= k -> 0 <= m -> 0 <= x < 2 ^ (m + k) ->
  Z.land x (Z.shiftl (Z.ones m) k) = Z.shiftr x k * 2 ^ k.
Proof.
  intros Hk Hm Hx. rewrite <-Z.shiftl_mul_pow2 by done. apply Z.bits_inj'. intros n Hn.
  rewrite Z.land_spec, !Z.shiftl_spec by done.
  destruct (Z.ltb_spec n k) as [|Hnk].
  - rewrite (Z.testbit_neg_r (Z.ones m)), (Z.testbit_neg_r (Z.shiftr x k)) by lia. apply andb_false_r.
  - rewrite Z.shiftr_spec by lia. replace (n - k + k) with n by lia.
    destruct (Z.ltb_spec n (m + k)).
    + rewrite Z.ones_spec_low by lia. apply andb_true_r.
    + rewrite Z.ones_spec_high, andb_false_r by lia. symmetry.
      destruct (decide (x = 0)) as [->|]; [by rewrite Z.testbit_0_l|].
      apply Z.bits_above_log2; [lia|]. apply Z.log2_lt_pow2; [lia|].
      apply (Z.lt_le_trans _ (2 ^ (m + k))); [lia|]. apply Z.pow_le_mono_r; lia.
Qed.

Lemma land_255 x : 0 <= x < 256 -> Z.land x 255 = x.
Proof. intros. change 255 with (Z.ones 8). rewrite Z.land_ones by lia. apply Z.mod_small. lia. Qed.

Lemma shiftr_bounds v n k : 0 <= k <= n -> 0 <= v < 2 ^ n -> 0 <= Z.shiftr v k < 2 ^ (n - k).
Proof.
  intros Hk Hv. rewrite Z.shiftr_div_pow2 by lia.
  assert (0 < 2 ^ k) by (apply Z.pow_pos_nonneg; lia).
  replace n with (n - k + k) in Hv at 1 by lia. rewrite Z.pow_add_r in Hv by lia.
  split; [apply Z.div_pos; lia|]. apply Z.div_lt_upper_bound; lia.
Qed.

(** The bytes of an IPv4 address. *)
Lemma v4_first v z : 0 <= v < 2 ^ 32 -> v4 (mkAddr true v z) 0 = Z.shiftr v 24.
Proof. intros Hv. apply land_255. apply (shiftr_bounds v 32 24); lia. Qed.

Lemma v4_second v z : 0 <= v < 2 ^ 32 -> v4 (mkAddr true v z) 1 = Z.shiftr v 16 - 256 * Z.shiftr v 24.
Proof.
  intros Hv. unfold v4. cbn [ad_value]. change 255 with (Z.ones 8). rewrite Z.land_ones by lia.
  change (8 * (3 - 1)) with 16. rewrite !Z.shiftr_div_pow2 by lia.
  rewrite (Z.mod_eq (v / 2 ^ 16) (2 ^ 8)), Z.div_div by lia. done.
Qed.

Lemma high_nibble x : 0 <= x < 256 -> Z.land x 240 = x / 16 * 16.
Proof. intros Hx. change 240 with (Z.shiftl (Z.ones 4) 4). rewrite land_high by lia. by rewrite Z.shiftr_div_pow2. Qed.

Definition block_of (p : Prefix) : block := mkBlock (px_is4 p) (px_value p) (px_bits p).
(** The bits below a prefix are zero. *)
Definition aligned (p : Prefix) : bool :=
  let k := width (px_is4 p) - px_bits p in
  (0 <=? k) && (Z.shiftr (px_value p) k * 2 ^ k =? px_value p).

Lemma Contains_block p a : aligned p = true -> ad_zone a = "" ->
  Contains p a = true <-> within (block_of p) a.
Proof.
  intros [Hk Ha]%andb_true_iff Hz. apply Z.leb_le in Hk. apply Z.eqb_eq in Ha.
  unfold Contains, within. rewrite Hz, prefix_range, Ha by done. cbn [block_of bk_is4 bk_first bk_bits].
  unfold in_range. rewrite !andb_true_iff, Bool.eqb_true_iff, Z.leb_le, Z.ltb_lt. naive_solver.
Qed.

Lemma blocked_iff a : ad_zone a = "" ->
  existsb (fun p => Contains p a) blockedPrefixes = true <->
  exists b, b ∈ map block_of blockedPrefixes /\ within b a.
Proof.
  intros Hz. assert (Hal : Forall (fun p => aligned p = true) blockedPrefixes).
  { apply Forall_forall. intros p Hp. apply list_elem_of_In in Hp. revert p Hp.
    apply forallb_forall. by vm_compute. }
  rewrite Forall_forall in Hal. rewrite existsb_exists. setoid_rewrite list_elem_of_fmap. split.
  - intros (p & Hin%list_elem_of_In & Hc). exists (block_of p). split; [by exists p|].
    apply Contains_block; auto.
  - intros (b & (p & -> & Hin) & Hw). exists p. split; [by apply list_elem_of_In|].
    apply Contains_block; auto.
Qed.

(** [ranges Hv] turns a test on the bytes of the address in [Hv] into linear
    arithmetic on its value. *)
Ltac powers :=
  repeat match goal with
  | |- context [groups ?a ?b ?c ?d] =>
      let x := eval vm_compute in (groups a b c d) in change (groups a b c d) with x
  | |- context [2 ^ ?k] => let x := eval vm_compute in (2 ^ k) in change (2 ^ k) with x
  | H : context [2 ^ ?k] |- _ => let x := eval vm_compute in (2 ^ k) in change (2 ^ k) with x in H
  end.
Ltac ranges Hv :=
  cbn [ad_is4 ad_value]; rewrite ?v4_first, ?v4_second by exact Hv;
  rewrite ?Z.shiftr_div_pow2 by lia; unfold within, dotted;
  cbn [bk_is4 bk_first bk_bits ad_is4 ad_value width]; powers; Z.div_mod_to_equations; lia.

Lemma v4_bytes v : 0 <= v < 2 ^ 32 ->
  0 <= v4 (mkAddr true v "") 0 < 256 /\ 0 <= v4 (mkAddr true v "") 1 < 256.
Proof. intros Hv. ranges Hv. Qed.

Lemma v4_tests v : 0 <= v < 2 ^ 32 -> let a := mkAddr true v "" in
  (IsLoopback a = true <-> within (mkBlock true (dotted 127 0 0 0) 8) a) /\
  (IsMulticast a = true <-> within (mkBlock true (dotted 224 0 0 0) 4) a) /\
  (IsLinkLocalUnicast a = true <-> within (mkBlock true (dotted 169 254 0 0) 16) a) /\
  (IsPrivate a = true <-> within (mkBlock true (dotted 10 0 0 0) 8) a \/
     within (mkBlock true (dotted 172 16 0 0) 12) a \/ within (mkBlock true (dotted 192 168 0 0) 16) a).
Proof.
  intros Hv a. destruct (v4_bytes v Hv).
  unfold IsLoopback, IsMulticast, IsLinkLocalUnicast, IsPrivate. change (Unmap a) with a. subst a.
  cbn [ad_is4].
  rewrite !high_nibble by done. refine (conj _ (conj _ (conj _ _))); ranges Hv.
Qed.

Lemma v4_link_local_multicast v : 0 <= v < 2 ^ 32 -> let a := mkAddr true v "" in
  IsLinkLocalMulticast a = true -> IsMulticast a = true.
Proof.
  intros Hv a. destruct (v4_bytes v Hv). unfold IsLinkLocalMulticast, IsMulticast. change (Unmap a) with a. subst a.
  cbn [ad_is4]. rewrite high_nibble by done. rewrite !andb_true_iff, !Z.eqb_eq. intros [[-> _] _]. done.
Qed.

Lemma v6_first v z : 0 <= v < 2 ^ 128 -> v6 (mkAddr false v z) 0 = Z.shiftr v 120.
Proof. intros Hv. apply land_255. apply (shiftr_bounds v 128 120); lia. Qed.

Lemma v6_tests v : 0 <= v < 2 ^ 128 -> let a := mkAddr false v "" in Is4In6 a = false ->
  (IsLoopback a = true <-> within (mkBlock false 1 128) a) /\
  (IsMulticast a = true <-> within (mkBlock false (groups 65280 0 0 0) 8) a) /\
  (IsLinkLocalUnicast a = true <-> within (mkBlock false (groups 65152 0 0 0) 10) a) /\
  (IsPrivate a = true <-> within (mkBlock false (groups 64512 0 0 0) 7) a).
Proof.
  intros Hv a Hm. unfold IsLoopback, IsMulticast, IsLinkLocalUnicast, IsPrivate, Unmap. rewrite Hm. subst a.
  cbn [ad_is4]. unfold v6u16. rewrite v6_first by done. cbn [ad_value].
  change 254 with (Z.shiftl (Z.ones 7) 1). change 65472 with (Z.shiftl (Z.ones 10) 6).
  rewrite !land_high by (lia || apply (shiftr_bounds v 128); lia).
  rewrite !Z.shiftr_shiftr by lia.
  refine (conj _ (conj _ (conj _ _))); ranges Hv.
Qed.

Lemma v6_link_local_multicast v : 0 <= v < 2 ^ 128 -> let a := mkAddr false v "" in Is4In6 a = false ->
  IsLinkLocalMulticast a = true -> IsMulticast a = true.
Proof.
  intros Hv a Hm. unfold IsLinkLocalMulticast, IsMulticast, Unmap. rewrite Hm. subst a. cbn [ad_is4].
  rewrite v6_first by done. unfold v6u16. cbn [ad_value]. rewrite !Z.eqb_eq. intros E.
  apply (f_equal (fun x => Z.shiftr x 8)) in E. rewrite Z.shiftr_land, Z.shiftr_shiftr in E by lia.
  change (112 + 8) with 120 in E. change (Z.shiftr 65295 8) with 255 in E.
  rewrite land_255 in E; [done|]. apply (shiftr_bounds v 128 120); lia.
Qed.

Global Instance block_eq_dec : EqDecision block.
Proof. solve_decision. Defined.

(** [by_computation] evaluates a decidable statement about concrete blocks. *)
Ltac by_computation := apply (bool_decide_unpack _); vm_compute; exact I.

Definition hit (a : Addr) : Prop := exists b, b ∈ special_blocks /\ within b a.
Lemma hit_by b a : within b a -> b ∈ special_blocks -> hit a.
Proof. intros Hw Hb. by exists b. Qed.

(** The first and the second half of the addresses from 224.0.0.0 on. *)
Lemma upper_half a : within (mkBlock true (dotted 224 0 0 0) 3) a <->
  within (mkBlock true (dotted 224 0 0 0) 4) a \/ within (mkBlock true (dotted 240 0 0 0) 4) a.
Proof.
  unfold within, dotted. cbn [bk_is4 bk_first bk_bits width]. powers. split.
  - intros [Ha Hv]. destruct (Z.lt_ge_cases (ad_value a) 4026531840); [left|right]; split; (done || lia).
  - intros [[Ha Hv]|[Ha Hv]]; split; (done || lia).
Qed.

Lemma blocked_hit b a : b ∈ map block_of blockedPrefixes -> within b a -> hit a.
Proof.
  intros Hb Hw. destruct (decide (b ∈ special_blocks)) as [Hs|Hs]; [by exists b|].
  apply (hit_by (mkBlock true (dotted 224 0 0 0) 3)); [|by_computation]. apply upper_half.
  assert (Hrest : Forall (fun b => b ∈ special_blocks \/ b = mkBlock true (dotted 224 0 0 0) 4 \/
      b = mkBlock true (dotted 240 0 0 0) 4) (map block_of blockedPrefixes)).
  { by_computation. }
  rewrite Forall_forall in Hrest. destruct (Hrest b Hb) as [|[->| ->]]; [done|by left|by right].
Qed.

(** What the predicates of net/netip add to the blocked prefixes. *)
Definition private_blocks : list block :=
  [ mkBlock true (dotted 10 0 0 0) 8; mkBlock true (dotted 127 0 0 0) 8; mkBlock true (dotted 169 254 0 0) 16;
    mkBlock true (dotted 172 16 0 0) 12; mkBlock true (dotted 192 168 0 0) 16 ].

Lemma hit_split a : hit a <->
  (exists b, b ∈ map block_of blockedPrefixes /\ within b a) \/ (exists b, b ∈ private_blocks /\ within b a).
Proof.
  split.
  - intros (b & Hb & Hw).
    assert (Hrest : Forall (fun b => b ∈ map block_of blockedPrefixes \/ b ∈ private_blocks \/
        b = mkBlock true (dotted 224 0 0 0) 3) special_blocks).
    { by_computation. }
    rewrite Forall_forall in Hrest. destruct (Hrest b Hb) as [|[| ->]]; [by left; exists b|by right; exists b|].
    left. apply upper_half in Hw as [Hw|Hw]; eexists; (split; [|exact Hw]); by_computation.
  - intros [(b & Hb & Hw)|(b & Hb & Hw)]; [by eapply blocked_hit|]. exists b. split; [|done].
    clear Hw. revert b Hb. apply Forall_forall. by_computation.
Qed.

(** The tests in front of the prefixes. *)
Definition reserved (a : Addr) : bool :=
  negb (IsGlobalUnicast a) || IsPrivate a || IsLoopback a || IsLinkLocalUnicast a
  || IsLinkLocalMulticast a || IsMulticast a || IsUnspecified a.

Lemma safe_iff_unhit a : Unmap a = a -> ad_zone a = "" ->
  (reserved a = true -> hit a) -> (forall b, b ∈ private_blocks -> within b a -> reserved a = true) ->
  isSafeWebhookIP a = true <-> ~ hit a.
Proof.
  intros Hu Hz Hr Hp. unfold isSafeWebhookIP. rewrite Hu. fold (reserved a).
  pose proof (blocked_iff a Hz) as Hb. rewrite hit_split.
  destruct (reserved a) eqn:Er.
  - split; [done|]. rewrite <-hit_split. intros []. by apply Hr.
  - destruct (existsb _ blockedPrefixes); split; try done.
    + intros Hn. destruct Hn. left. by apply Hb.
    + intros _ [Hx|(b & Hin & Hw)]; [by apply Hb in Hx|]. specialize (Hp b Hin Hw). congruence.
Qed.

Lemma v4_reserved v : 0 <= v < 2 ^ 32 -> let a := mkAddr true v "" in reserved a = true -> hit a.
Proof.
  intros Hv a. destruct (v4_tests v Hv) as (Hl & Hm & Hll & Hpr). fold a in Hl, Hm, Hll, Hpr.
  pose proof (v4_link_local_multicast v Hv) as Hlm. cbn zeta in Hlm. fold a in Hlm.
  assert (Hmh : IsMulticast a = true -> hit a).
  { intros Hx%Hm. eapply hit_by; [apply upper_half; by left|by_computation]. }
  assert (Hlh : IsLoopback a = true -> hit a).
  { intros Hx%Hl. eapply hit_by; [exact Hx|by_computation]. }
  assert (Hllh : IsLinkLocalUnicast a = true -> hit a).
  { intros Hx%Hll. eapply hit_by; [exact Hx|by_computation]. }
  assert (Hzero : v = 0 -> hit a).
  { intros E. apply (hit_by (mkBlock true (dotted 0 0 0 0) 8)); [|by_computation].
    subst a. ranges Hv. }
  assert (Hlast : v = 2 ^ 32 - 1 -> hit a).
  { intros E. apply (hit_by (mkBlock true (dotted 224 0 0 0) 3)); [|by_computation].
    subst a. ranges Hv. }
  unfold reserved, IsGlobalUnicast. change (Unmap a) with a.
  rewrite !orb_true_iff, !negb_true_iff, !andb_false_iff, !negb_false_iff.
  intros [[[[[[[[[[Hx|Hx]|Hx]|Hx]|Hx]|Hx]|Hx]|Hx]|Hx]|Hx]|Hx]; auto.
  - cbn in Hx. apply orb_true_iff in Hx as [Hx|Hx]; apply Z.eqb_eq in Hx; auto.
  - by apply bool_decide_eq_true_1 in Hx.
  - apply Hpr in Hx as [Hx|[Hx|Hx]]; (eapply hit_by; [exact Hx|by_computation]).
  - unfold IsUnspecified in Hx. apply orb_true_iff in Hx as [Hx|Hx]; by apply bool_decide_eq_true_1 in Hx as [= ->]; auto.
Qed.

Lemma v4_private v b : 0 <= v < 2 ^ 32 -> let a := mkAddr true v "" in
  b ∈ private_blocks -> within b a -> reserved a = true.
Proof.
  intros Hv a Hb Hw. destruct (v4_tests v Hv) as (Hl & _ & Hll & Hpr). fold a in Hl, Hll, Hpr.
  assert (IsPrivate a = true \/ IsLoopback a = true \/ IsLinkLocalUnicast a = true) as Hx.
  { rewrite Hl, Hll, Hpr. repeat (apply elem_of_cons in Hb as [->|Hb]; [tauto|]). by apply elem_of_nil in Hb. }
  unfold reserved. destruct Hx as [->|[->| ->]]; rewrite ?orb_true_r; done.
Qed.

Lemma v6_reserved v : 0 <= v < 2 ^ 128 -> let a := mkAddr false v "" in Is4In6 a = false ->
  reserved a = true -> hit a.
Proof.
  intros Hv a H4. destruct (v6_tests v Hv H4) as (Hl & Hm & Hll & Hpr). fold a in Hl, Hm, Hll, Hpr.
  pose proof (v6_link_local_multicast v Hv H4) as Hlm. fold a in Hlm.
  assert (Hmh : IsMulticast a = true -> hit a).
  { intros Hx%Hm. eapply hit_by; [exact Hx|by_computation]. }
  assert (Hlh : IsLoopback a = true -> hit a).
  { intros Hx%Hl. eapply hit_by; [exact Hx|by_computation]. }
  assert (Hllh : IsLinkLocalUnicast a = true -> hit a).
  { intros Hx%Hll. eapply hit_by; [exact Hx|by_computation]. }
  assert (Hzero : v = 0 -> hit a).
  { intros E. apply (hit_by (mkBlock false 0 128)); [|by_computation]. subst a. ranges Hv. }
  unfold reserved, IsGlobalUnicast, Unmap. rewrite H4.
  rewrite !orb_true_iff, !negb_true_iff, !andb_false_iff, !negb_false_iff.
  intros [[[[[[[[[[Hx|Hx]|Hx]|Hx]|Hx]|Hx]|Hx]|Hx]|Hx]|Hx]|Hx]; auto.
  - done.
  - apply bool_decide_eq_true_1 in Hx as [= ->]. auto.
  - apply Hpr in Hx. eapply hit_by; [exact Hx|by_computation].
  - unfold IsUnspecified in Hx. apply orb_true_iff in Hx as [Hx|Hx]; by apply bool_decide_eq_true_1 in Hx as [= ->]; auto.
Qed.

Lemma Unmap_valid a : valid a -> valid (Unmap a).
Proof.
  unfold Unmap. intros Ha. destruct (Is4In6 a); [|done]. split; [|done]. by apply Z.mod_pos_bound.
Qed.

Lemma Unmap_idem a : Unmap (Unmap a) = Unmap a.
Proof. unfold Unmap at 2 3. destruct (Is4In6 a) eqn:E; [done|]. unfold Unmap. by rewrite E. Qed.

Lemma Unmap_zone a : ad_zone a = "" -> ad_zone (Unmap a) = "".
Proof. unfold Unmap. by destruct (Is4In6 a). Qed.

Lemma safe_unmapped a : valid a -> ad_zone a = "" -> Unmap a = a -> isSafeWebhookIP a = true <-> ~ hit a.
Proof.
  intros [Hv _] Hz Hu. apply safe_iff_unhit; [done|done| |]; destruct a as [[] v z]; cbn in Hv, Hz; subst z.
  - by apply v4_reserved.
  - apply v6_reserved; [done|]. unfold Unmap in Hu. destruct (Is4In6 _); [by inversion Hu|done].
  - intros b. by apply v4_private.
  - intros b Hb [Hf _]. assert (Hall : Forall (fun b => bk_is4 b = true) private_blocks) by by_computation.
    rewrite Forall_forall in Hall. by rewrite (Hall b Hb) in Hf.
Qed.

End Ranges.

Lemma safe_exact a : valid a -> ad_zone a = "" -> isSafeWebhookIP a = true <-> ~ special a.
Proof.
  intros Ha Hz. change (special a) with (hit (Unmap a)).
  replace (isSafeWebhookIP a) with (isSafeWebhookIP (Unmap a)) by (unfold isSafeWebhookIP; by rewrite Unmap_idem).
  apply safe_unmapped; auto using Unmap_valid, Unmap_zone, Unmap_idem.
Qed.

(** The address guard of the webhook accepts an address without a zone
    exactly when it lies in none of the blocks of special-purpose addresses
    (private, loopback, link local, shared, documentation, translation,
    multicast, reserved), an embedded IPv4 address being judged as IPv4. *)
Theorem safe_ip_iff_public a (Ha : valid a) (Hz : ad_zone a = "") :
  isSafeWebhookIP a = true <-> ~ special a.
Proof. by apply safe_exact. Qed.

Lemma safe_ip_iff_public_witness :
  isSafeWebhookIP (mkAddr true (dotted 8 8 8 8) "") = true <-> ~ special (mkAddr true (dotted 8 8 8 8) "").
Proof. apply safe_ip_iff_public; [split; [by vm_compute|done]|done]. Defined.

(** ** A delivery stays outside *)

Section Deliveries.
Context `{UnicodeTables} `{UrlLib} `{NetLib}.

(** An address a connection may be opened to. *)
Definition admissible (a : Addr) : Prop :=
  valid a /\ isSafeWebhookIP a = true /\ (ad_zone a = "" -> ~ special a).

Lemma safe_admissible a : valid a -> isSafeWebhookIP a = true -> admissible a.
Proof. intros Hv Hs. split; [done|]. split; [done|]. intros Hz. by apply safe_exact. Qed.

Lemma be_value_bound l : Forall (fun b => (b < 256)%N) l -> forall v n, (0 <= v < 2 ^ (8 * Z.of_nat n))%Z ->
  (0 <= foldl (fun v b => (v * 256 + Z.of_N b)%Z) v l < 2 ^ (8 * Z.of_nat (n + length l)))%Z.
Proof.
  induction 1 as [|b l Hb Hl IH]; intros v n Hv; cbn [foldl length]; [by rewrite Nat.add_0_r|].
  replace (n + S (length l)) with (S n + length l) by lia. apply IH.
  replace (8 * Z.of_nat (S n))%Z with (8 * Z.of_nat n + 8)%Z by lia. rewrite Z.pow_add_r by lia.
  change (2 ^ 8)%Z with 256%Z. lia.
Qed.

Lemma ip_addr_valid ip a : Forall (fun b => (b < 256)%N) ip -> ip_addr ip = Some a -> valid a.
Proof.
  intros Hb. pose proof (be_value_bound ip Hb 0 0 ltac:(done)) as Hv. unfold ip_addr.
  destruct (Nat.eqb_spec (length ip) 4) as [E|_]; [intros [= <-]; rewrite E in Hv; by split|].
  destruct (Nat.eqb_spec (length ip) 16) as [E|_]; [|done]. intros [= <-]. apply Unmap_valid.
  rewrite E in Hv. by split.
Qed.

Lemma dial_admissible host port t : safeWebhookDialAddress host port = Ok t -> admissible (tg_addr t).
Proof.
  unfold safeWebhookDialAddress. destruct (ParseAddr host) as [a|] eqn:Ep.
  - destruct (isSafeWebhookIP a) eqn:Es; [|done]. intros [= <-]. apply safe_admissible; eauto using ParseAddr_valid.
  - destruct (LookupIPAddr host) as [l|] eqn:El; [|done]. apply LookupIPAddr_bytes in El.
    destruct l as [|ip l]; [done|]. cbn [existsb]. destruct (ip_addr ip) as [a|] eqn:Ei; [|done].
    destruct (isSafeWebhookIP a) eqn:Es; [|done]. cbn [negb orb]. destruct (existsb _ l); [done|].
    intros [= <-]. apply safe_admissible; [|done]. apply ip_addr_valid in Ei; [done|]. by inversion El.
Qed.

(** A URL a request may go to. *)
Record outward (u : URL) : Prop := {
  ow_https : u_Scheme u = "https";
  ow_no_credentials : u_User u = None;
  ow_host : (splitHostPort (u_Host u)).1 <> "";
  ow_not_local : TrimSuffix (ToLower (splitHostPort (u_Host u)).1) "." <> "localhost"
}.

Lemma safe_url_outward u : isSafeWebhookURL u = true -> outward u.
Proof.
  unfold isSafeWebhookURL. destruct (String.eqb_spec (u_Scheme u) "https"); [|done].
  destruct (String.eqb_spec (splitHostPort (u_Host u)).1 ""); [done|].
  destruct (u_User u) eqn:Eu; [done|]. cbn [negb orb].
  destruct (String.eqb_spec (TrimSuffix (ToLower (splitHostPort (u_Host u)).1) ".") "localhost"); [done|].
  intros _. by constructor.
Qed.

Definition safe_event (ev : event) : Prop :=
  match ev with Requested u => outward u | Dialled t => admissible (tg_addr t) end.

Lemma dial_all_safe l : Forall safe_event (dial_all l).1.
Proof.
  induction l as [|[host port] l IH]; cbn [dial_all]; [constructor|].
  destruct (safeWebhookDialAddress host port) as [t|] eqn:E; [|constructor].
  destruct (dial_all l) as [evs err]. constructor; [by eapply dial_admissible|exact IH].
Qed.

Lemma client_do_safe script : forall u, isSafeWebhookURL u = true -> Forall safe_event (client_do u script).1.
Proof.
  induction script as [|x script IH]; intros u Hu; cbn [client_do]; [constructor|].
  pose proof (dial_all_safe (ex_dials x)) as Hd. destruct (dial_all (ex_dials x)) as [evs [e|]]; [exact Hd|].
  cbn [fst] in Hd. pose proof (safe_url_outward u Hu).
  assert (Forall safe_event (evs ++ [Requested u])) by (apply Forall_app_2; [done|by apply Forall_singleton]).
  destruct (ex_answer x) as [[code|[u'|]]|]; [done| |done|done].
  destruct (isSafeWebhookURL u') eqn:Eu; [|done]. specialize (IH u' Eu).
  destruct (client_do u' script) as [evs' r]. apply Forall_app_2; [done|]. by constructor.
Qed.

(** C28: Whatever the receiver answers, wherever it redirects to and whatever the
    resolver says at each connection, a delivery of an alert sends requests only
    to https URLs without credentials and off localhost, and opens connections
    only to addresses the guard accepts, none of which is a special-purpose
    address unless it carries a zone. *)
Theorem webhook_stays_outside raw w marshal alert script
    (Hw : NewWebhookNotifier raw = Some w)
    (Hurl : forall u, url_Parse raw = Some u -> url_Parse (url_String u) = Some u) :
  Forall safe_event (Send w marshal alert script).1.
Proof.
  unfold Send. destruct (marshal _); [|constructor]. unfold NewWebhookNotifier in Hw.
  destruct (raw =s ""); [done|]. destruct (url_Parse raw) as [u|] eqn:Eu; [|done].
  destruct (isSafeWebhookURL u) eqn:Es; [|done]. injection Hw as <-. cbn [wn_url].
  rewrite (Hurl u eq_refl). pose proof (client_do_safe script u Es) as Hc.
  by destruct (client_do u script).
Qed.

End Deliveries.

(** ** Concrete surroundings *)

Definition hook_text := "https://hooks.example/alert".
Definition hook_url (host : string) : URL := mkURL "https" "" None host "/alert" "" false false "" "" "".
Definition hook_urls : UrlLib := {|
  url_Parse s := if s =s hook_text then Some (hook_url "hooks.example") else None;
  url_String _ := hook_text; url_EscapedPath u := u_Path u;
  url_ParseQuery _ := ∅; url_Encode _ := ""
|}.
Definition zoned (v : Z) : Addr := mkAddr false v "x".
(** The parser knows two addresses with a zone; every name resolves to 8.8.8.8. *)
Program Definition hook_net : NetLib := {|
  ParseAddr s := if s =s "::%x" then Some (zoned 0)
                 else if s =s "64:ff9b::7f00:1%x" then Some (zoned (groups 100 65435 0 0 + dotted 127 0 0 1))
                 else None;
  LookupIPAddr _ := Ok [[8; 8; 8; 8]%N]
|}.
Next Obligation.
  intros s a. cbn beta. destruct (s =s "::%x"); [by intros [= <-]; split|].
  destruct (s =s _); [|done]. intros [= <-]. by split.
Qed.
Next Obligation. intros s l [= <-]. by repeat constructor. Qed.

Definition fired : Alert := mkAlert "a" "w" "workload_down" "critical" "down" 0 None.
(** The receiver answers with a redirect to a host given as an address. *)
Definition redirected (host : string) : list exchange :=
  [ mkExchange [("hooks.example", "443")] (Some (Redirect (Some (hook_url ("[" +:+ host +:+ "]")))));
    mkExchange [(host, "443")] (Some (Status 200)) ].
Definition delivery (host : string) : list event * option string :=
  Send (H := byte_tables) (H0 := hook_urls) (H1 := hook_net) (mkNotifier hook_text) (fun _ => Ok "{}") fired
    (redirected host).

Lemma webhook_stays_outside_witness :
  Forall (safe_event (H := byte_tables)) (delivery "64:ff9b::7f00:1%x").1.
Proof.
  apply (webhook_stays_outside (H := byte_tables) (H0 := hook_urls) (H1 := hook_net) hook_text); [reflexivity|].
  intros u. cbn. by intros [= <-].
Defined.

(** A zone defeats the prefixes and the comparison with the unspecified address:
    a redirect to [https://[::%25x]/alert] is followed to the server itself, and one
    to the translation of 127.0.0.1 to that address. *)
Example zone_defeats_the_guard :
  delivery "::%x" =
    ([ Dialled (mkTarget (mkAddr true (dotted 8 8 8 8) "") "443"); Requested (hook_url "hooks.example");
       Dialled (mkTarget (zoned 0) "443"); Requested (hook_url "[::%x]") ], None) /\
  isSafeWebhookIP (mkAddr false 0 "") = false /\
  isSafeWebhookIP (zoned (groups 100 65435 0 0 + dotted 127 0 0 1)) = true.
Proof. by vm_compute. Qed.

End Webhook.
