(* ===== verification/Settings.v ===== *)
(** * Settings and start-up

    internal/config/config.go (the environment variables), the checks of the
    connection pool in internal/store/db.go, the OpAMP transport of
    pkg/server/opamp_transport.go, the options of pkg/server and the order of the
    start-up in pkg/bootstrap/bootstrap.go. The environment, the files of the
    certificate, the database and the migrations are parameters. *)

From S2P Require Import Prelude GoString Models Yaml OtelDiff Access Capabilities Store Accounts Webhook.
From stdpp Require Import pretty.
Import OtelDiff Store.Store Accounts.

Module Settings.

(** ** Environment variables *)

(* src/internal/config/config.go:11-32 Config *)
Record Config := mkConfig {
  DBDSN : string; DBMaxOpenConns : Z; DBMaxIdleConns : Z;
  DBConnMaxIdleTime : Duration; DBConnMaxLifetime : Duration;
  ListenAddr : string; OpAMPAddr : string; OpAMPInsecure : string;
  OpAMPTLSCertFile : string; OpAMPTLSKeyFile : string;
  JWTSecret : string; CORSOrigins : string; MinAgentVersion : string; WebhookURL : string;
  WorkloadRetention : Duration; WorkloadDisconnectGrace : Duration;
  WorkloadJanitorInterval : Duration; WorkloadEventRetention : Duration
}.

Section Numbers.
Local Open Scope Z_scope.

(** [a * b] on [int64]. *)
Definition mul64 (a b : Z) : Z := wrap64 (a * b).

(* src/internal/config/config.go:95-101 positiveInt *)
Definition positiveInt (s : string) (fallback : Z) : Z :=
  match Atoi s with
  | (n, ok) => if negb ok || (n <=? 0) then fallback else n
  end.
(* src/internal/config/config.go:68-74 days *)
Definition days (s : string) : Duration := mul64 (mul64 (positiveInt s 30) 24) Hour.
(* src/internal/config/config.go:79-85 seconds *)
Definition seconds (s : string) : Duration := mul64 (positiveInt s 1) Second.
(* src/internal/config/config.go:87-89 dbConnMaxLifetime *)
Definition dbConnMaxLifetime (s : string) : Duration := mul64 (positiveInt s 1800) Second.
(* src/internal/config/config.go:91-93 dbConnMaxIdleTime *)
Definition dbConnMaxIdleTime (s : string) : Duration := mul64 (positiveInt s 300) Second.

End Numbers.

(** [os.Getenv]: the empty text when the variable is not set. *)
Notation environment := (string -> string).
(* src/internal/config/config.go:58-63 getenv *)
Definition getenv (env : environment) (key fallback : string) : string :=
  if env key <>s "" then env key else fallback.

(* src/internal/config/config.go:35-56 Load *)
Definition Load (env : environment) : Config :=
  mkConfig
    (getenv env "DB_DSN" "")
    (positiveInt (getenv env "DB_MAX_OPEN_CONNS" "40") 40)
    (positiveInt (getenv env "DB_MAX_IDLE_CONNS" "10") 10)
    (dbConnMaxIdleTime (getenv env "DB_CONN_MAX_IDLE_TIME_SECONDS" "300"))
    (dbConnMaxLifetime (getenv env "DB_CONN_MAX_LIFETIME_SECONDS" "1800"))
    (getenv env "LISTEN_ADDR" ":8080")
    (getenv env "OPAMP_ADDR" ":4320")
    (getenv env "OPAMP_INSECURE" "false")
    (getenv env "OPAMP_TLS_CERT_FILE" "")
    (getenv env "OPAMP_TLS_KEY_FILE" "")
    (getenv env "JWT_SECRET" "")
    (getenv env "CORS_ORIGINS" "http://localhost:5173")
    (getenv env "MIN_AGENT_VERSION" "")
    (getenv env "WEBHOOK_URL" "")
    (days (getenv env "WORKLOAD_RETENTION_DAYS" "30"))
    (seconds (getenv env "WORKLOAD_DISCONNECT_GRACE_SECONDS" "120"))
    (seconds (getenv env "WORKLOAD_JANITOR_INTERVAL_SECONDS" "300"))
    (days (getenv env "WORKLOAD_EVENT_RETENTION_DAYS" "30")).

(** ** The connection pool *)

(* src/internal/store/db.go:28-33 PoolConfig *)
Record PoolConfig := mkPool {
  MaxOpenConns : Z; MaxIdleConns : Z; ConnMaxIdleTime : Duration; ConnMaxLifetime : Duration
}.

(** [sql.Open] and the ping, each with its error. *)
(* src/internal/store/db.go:46-75 OpenContext *)
Definition OpenContext (open ping : string -> option string) (dsn : string) (pool : PoolConfig) : option string :=
  if TrimSpace dsn =s "" then Some "DB_DSN environment variable is required"
  else if (MaxOpenConns pool <=? 0)%Z then Some "MaxOpenConns must be greater than 0"
  else if (MaxIdleConns pool <? 0)%Z then Some "MaxIdleConns must be non-negative"
  else if (MaxOpenConns pool <? MaxIdleConns pool)%Z then Some "MaxIdleConns must not exceed MaxOpenConns"
  else match open dsn with
  | Some e => Some ("open db: " +:+ e)
  | None => match ping dsn with Some e => Some ("ping db: " +:+ e) | None => None end
  end.

(** ** The OpAMP transport *)

(* src/pkg/server/opamp_transport.go:10-16 opampTransportMode *)
Inductive opampTransportMode := opampTransportInsecure | opampTransportTLS.

Record leaf := mkLeaf { NotBefore : Time; NotAfter : Time }.
(** A transport: its mode, and for TLS the leaf and the least protocol version. *)
(* src/pkg/server/opamp_transport.go:18-21 opampTransport *)
Record opampTransport := mkTransport { tr_mode : opampTransportMode; tr_tls : option (leaf * Z) }.
Definition VersionTLS12 : Z := 771.

Inductive transport_error :=
| MissingTLS | PartialTLS | Conflict | Selector | InvalidPair | InvalidLeaf.

(** [tls.LoadX509KeyPair] gives the chain's certificates, each as its text or as
    what [x509.ParseCertificate] reads. *)
(* src/pkg/server/opamp_transport.go:32-76 resolveOpAMPTransport *)
Definition resolveOpAMPTransport (load : string -> string -> option (list (option leaf))) (cfg : Config)
    (now : Time) : opampTransport + transport_error :=
  let insecure := if OpAMPInsecure cfg =s "" then "false" else OpAMPInsecure cfg in
  if (insecure <>s "true") && (insecure <>s "false") then inr Selector
  else
    let hasCert := OpAMPTLSCertFile cfg <>s "" in
    let hasKey := OpAMPTLSKeyFile cfg <>s "" in
    if insecure =s "true" then
      if hasCert || hasKey then inr Conflict else inl (mkTransport opampTransportInsecure None)
    else if negb hasCert && negb hasKey then inr MissingTLS
    else if negb hasCert || negb hasKey then inr PartialTLS
    else match load (OpAMPTLSCertFile cfg) (OpAMPTLSKeyFile cfg) with
    | None => inr InvalidPair
    | Some [] => inr InvalidLeaf
    | Some (None :: _) => inr InvalidLeaf
    | Some (Some l :: _) =>
        if Before now (NotBefore l) || negb (Before now (NotAfter l)) then inr InvalidLeaf
        else inl (mkTransport opampTransportTLS (Some (l, VersionTLS12)))
    end.

(** ** The server's options *)

(* src/pkg/ext/auth.go:39-44 AuthMethod *)
Record AuthMethod := mkMethod { am_ID : string; am_Type : string; am_DisplayName : string; am_LoginURL : string }.

(** The audit sinks an option may be given. *)
Inductive audit_logger := NopAuditLogger | Sink (n : nat).

(** Values the development does not look into (notifiers, signers, checkers, file
    systems, router hooks) are numbered. *)
(* src/pkg/server/server.go:43-58 Server *)
Record Server := mkServer {
  sr_cfg : Config; sr_notifiers : list nat; sr_auditLogger : audit_logger;
  sr_auditOutboxSink : option audit_logger; sr_reportSigner : option nat; sr_staticFS : option nat;
  sr_routerHooks : list nat; sr_protectedRouterHooks : list nat;
  sr_authMethods : list AuthMethod; sr_authMethodProvider : option (option (list AuthMethod));
  sr_capabilities : Capabilities.Registry; sr_licenseChecker : option nat
}.

(** [None] is a nil argument. *)
(* src/pkg/server/options.go:34-34 Option *)
Inductive Option :=
| WithNotifier (n : nat)
| WithAuditLogger (l : audit_logger)
| WithAuditOutboxSink (l : option audit_logger)
| WithReportSigner (signer : option nat)
| WithStaticFS (n : nat)
| WithRouterHook (n : nat)
| WithProtectedRouterHook (n : nat)
| WithAuthMethod (m : AuthMethod)
| WithAuthMethodProvider (answer : option (list AuthMethod))
| WithCapabilities (r : Capabilities.Registry)
| WithFeatures (f : gmap string bool)
| WithLicenseChecker (n : nat).

(* src/pkg/server/options.go:37-181 WithNotifier *)
Definition apply (s : Server) (o : Option) : Server :=
  let '(mkServer cfg ns al sink signer fs rh ph ms pr caps lc) := s in
  match o with
  | WithNotifier n => mkServer cfg (ns ++ [n]) al sink signer fs rh ph ms pr caps lc
  | WithAuditLogger l => mkServer cfg ns l sink signer fs rh ph ms pr caps lc
  | WithAuditOutboxSink None | WithAuditOutboxSink (Some NopAuditLogger) => s
  | WithAuditOutboxSink (Some l) => mkServer cfg ns al (Some l) signer fs rh ph ms pr caps lc
  | WithReportSigner None => s
  | WithReportSigner (Some n) => mkServer cfg ns al sink (Some n) fs rh ph ms pr caps lc
  | WithStaticFS n => mkServer cfg ns al sink signer (Some n) rh ph ms pr caps lc
  | WithRouterHook n => mkServer cfg ns al sink signer fs (rh ++ [n]) ph ms pr caps lc
  | WithProtectedRouterHook n => mkServer cfg ns al sink signer fs rh (ph ++ [n]) ms pr caps lc
  | WithAuthMethod m => mkServer cfg ns al sink signer fs rh ph (ms ++ [m]) pr caps lc
  | WithAuthMethodProvider f => mkServer cfg ns al sink signer fs rh ph ms (Some f) caps lc
  | WithCapabilities r => mkServer cfg ns al sink signer fs rh ph ms pr r lc
  | WithFeatures f => mkServer cfg ns al sink signer fs rh ph ms pr (Capabilities.FromFeatures f) lc
  | WithLicenseChecker n => mkServer cfg ns al sink signer fs rh ph ms pr caps (Some n)
  end.

Definition password_method : AuthMethod := mkMethod "password" "password" "Email + password" "/api/auth/login".

(** The loop that keeps the first method of each identifier. *)
Fixpoint dedup (seen : gset string) (l : list AuthMethod) : list AuthMethod :=
  match l with
  | [] => []
  | m :: rest => if bool_decide (am_ID m ∈ seen) then dedup seen rest
                 else m :: dedup ({[am_ID m]} ∪ seen) rest
  end.

Definition with_addresses (la oa : string) (c : Config) : Config :=
  mkConfig (DBDSN c) (DBMaxOpenConns c) (DBMaxIdleConns c) (DBConnMaxIdleTime c) (DBConnMaxLifetime c) la oa
    (OpAMPInsecure c) (OpAMPTLSCertFile c) (OpAMPTLSKeyFile c) (JWTSecret c) (CORSOrigins c) (MinAgentVersion c)
    (WebhookURL c) (WorkloadRetention c) (WorkloadDisconnectGrace c) (WorkloadJanitorInterval c)
    (WorkloadEventRetention c).

(** The server's [Config] is kept as the settings it is copied from. *)
(* src/pkg/server/server.go:61-102 New *)
Definition New (cfg : Config) (opts : list Option) : Server :=
  let s := mkServer cfg [] NopAuditLogger None None None [] [] [password_method] None
             (Capabilities.mkRegistry [] ∅) None in
  let '(mkServer cfg ns al sink signer fs rh ph ms pr caps lc) := foldl apply s opts in
  let listen := if ListenAddr cfg =s "" then ":8080" else ListenAddr cfg in
  let opamp := if OpAMPAddr cfg =s "" then ":4320" else OpAMPAddr cfg in
  mkServer (with_addresses listen opamp cfg) ns al sink signer fs rh ph (dedup ∅ ms) pr caps lc.

(* src/pkg/server/server.go:263-270 currentAuthMethods *)
Definition currentAuthMethods (s : Server) : list AuthMethod :=
  match sr_authMethodProvider s with
  | Some (Some m) => m
  | _ => sr_authMethods s
  end.

(** ** Running the server *)

(** What the server starts, opens and stops, in order. *)
Inductive action :=
| StartHub | AttachOpAMP | ListenAPI (addr : string) | ServeAPI
| ListenOpAMP (addr : string) (mode : opampTransportMode) | ServeOpAMP
| StartAlerts | StartJanitor | StartOutbox
| CloseAPI | ShutdownAPI | ShutdownOpAMP | StopOpAMP | StopHub | StopOutbox.

(** What the run meets: the outcome of attaching and of the two listeners, the
    certificate, the clock, whether the store has an outbox, and what the first
    stop of the OpAMP server answers. *)
Inductive stop_error := Interrupted | OtherError.
Record run_env := mkRunEnv {
  ru_attach : option string; ru_listen_api : option string; ru_listen_opamp : option string;
  ru_load : string -> string -> option (list (option leaf)); ru_now : Time; ru_outbox : bool;
  ru_stop : option stop_error
}.

(** A stop that was interrupted is waited for once more, without a deadline. *)
(* src/pkg/server/server.go:28-40 stopOpAMPServer *)
Definition stopOpAMPServer (v : run_env) : list action :=
  match ru_stop v with Some Interrupted => [StopOpAMP; StopOpAMP] | _ => [StopOpAMP] end.

(** The deferred cleanup of a start that did not complete. *)
Definition cleanup (v : run_env) (listening : bool) (serving : bool) : list action :=
  (if listening then [CloseAPI] else []) ++ (if serving then [ShutdownAPI] else []) ++ stopOpAMPServer v ++ [StopHub].

(** The run until the context is cancelled and everything is shut down; [None] is
    a return without an error. *)
(* src/pkg/server/server.go:105-257 Run *)
Definition Run (s : Server) (v : run_env) : list action * option string :=
  let started := [StartHub] in
  match ru_attach v with
  | Some e => (started ++ cleanup v false false, Some e)
  | None =>
  let started := started ++ [AttachOpAMP] in
  match ru_listen_api v with
  | Some e => (started ++ cleanup v false false, Some e)
  | None =>
  let started := started ++ [ListenAPI (ListenAddr (sr_cfg s)); ServeAPI] in
  let opamp :=
    match resolveOpAMPTransport (ru_load v) (sr_cfg s) (ru_now v) with
    | inr _ => Some []
    | inl t => match ru_listen_opamp v with
               | Some _ => None
               | None => Some [ListenOpAMP (OpAMPAddr (sr_cfg s)) (tr_mode t); ServeOpAMP]
               end
    end in
  match opamp with
  | None => (started ++ cleanup v true true, ru_listen_opamp v)
  | Some opamp =>
  let outbox := ru_outbox v && match sr_auditOutboxSink s with Some _ => true | None => false end in
  (started ++ opamp ++ [StartAlerts; StartJanitor] ++ (if outbox then [StartOutbox] else [])
     ++ [ShutdownAPI] ++ (match opamp with [] => [] | _ => [ShutdownOpAMP] end)
     ++ stopOpAMPServer v ++ [StopHub] ++ (if outbox then [StopOutbox] else []), None)
  end end end.

(** ** Start-up *)

(** What the start-up meets: the database, the migrations, the hash and the
    identifier of the first administrator, the statements' failures, and the hook
    of the edition's binary. *)
Record surroundings := mkSurroundings {
  su_open : string -> option string; su_ping : string -> option string; su_migrate : option string;
  su_hash : string -> result string; su_newID : string; su_faults : nat -> io;
  su_preRun : option (result (list Option)); su_run : run_env
}.

Section Bootstrap.
Context `{UnicodeTables} `{UrlLib} `{Webhook.NetLib}.

(** The notifier of the webhook and the file system of the frontend are number 0. *)
Definition server_options (cfg : Config) (extra preRun : list Option) : list Option :=
  match Webhook.NewWebhookNotifier (WebhookURL cfg) with Some _ => [WithNotifier 0] | None => [] end
  ++ [WithStaticFS 0] ++ extra ++ preRun.

(** The accounts after the start-up and what the server did, or the error that
    ended it before. *)
(* src/pkg/bootstrap/bootstrap.go:66-148 Run *)
Definition bootstrap (env : environment) (su : surroundings) (extra : list Option) (a : accounts)
  : accounts * (list action + string) :=
  let cfg := Load env in
  match validateJWTSecret (JWTSecret cfg) with
  | Some e => (a, inr e)
  | None =>
  match OpenContext (su_open su) (su_ping su) (DBDSN cfg)
          (mkPool (DBMaxOpenConns cfg) (DBMaxIdleConns cfg) (DBConnMaxIdleTime cfg) (DBConnMaxLifetime cfg)) with
  | Some e => (a, inr e)
  | None =>
  match su_migrate su with
  | Some e => (a, inr e)
  | None =>
  match seedAdmin env (su_hash su) (su_newID su) (su_faults su) a with
  | (a, Some _) => (a, inr "seed admin")
  | (a, None) =>
  match su_preRun su with
  | Some (Err e) => (a, inr ("pre-run: " +:+ e))
  | preRun =>
      let preRunOpts := match preRun with Some (Ok l) => l | _ => [] end in
      (a, inl (Run (New cfg (server_options cfg extra preRunOpts)) (su_run su)).1)
  end end end end end.

End Bootstrap.

(** ** Durations *)

Section Durations.
Local Open Scope Z_scope.

Lemma wrap64_range z : min_int64 <= wrap64 z <= max_int64.
Proof. unfold wrap64, min_int64, max_int64. pose proof (Z.mod_pos_bound (z + 2 ^ 63) (2 ^ 64)). lia. Qed.

Lemma wrap64_exact z : 0 <= z -> wrap64 z = z <-> z <= max_int64.
Proof.
  intros Hz. split; [intros E; rewrite <-E; apply wrap64_range|].
  intros Hm. apply wrap64_id. unfold min_int64. lia.
Qed.

Lemma positiveInt_pretty p fallback : Zpos p <= max_int64 -> positiveInt (pretty (Zpos p)) fallback = Zpos p.
Proof. intros Hp. unfold positiveInt. by rewrite Atoi_pretty. Qed.

(** A setting in days or in seconds is the duration it names exactly up to
    106751 days and 9223372036 seconds; beyond, the product wraps around. *)
Theorem setting_durations_exact p (Hp : Zpos p <= max_int64) :
  (days (pretty (Zpos p)) = Zpos p * 24 * Hour <-> Zpos p <= 106751) /\
  (seconds (pretty (Zpos p)) = Zpos p * Second <-> Zpos p <= 9223372036).
Proof.
  unfold days, seconds, mul64. rewrite !positiveInt_pretty by done.
  assert (HH : Hour = 3600000000000) by done. assert (HS : Second = 1000000000) by done.
  assert (HM : max_int64 = 9223372036854775807) by done. rewrite HH, HS in *. split.
  - split.
    + intros E. pose proof (wrap64_range (wrap64 (Zpos p * 24) * 3600000000000)). lia.
    + intros Hb. rewrite (wrap64_id (Zpos p * 24)) by (unfold min_int64; lia). apply wrap64_exact; lia.
  - rewrite wrap64_exact by lia. lia.
Qed.

Lemma setting_durations_exact_witness :
  days "106751" = 106751 * 24 * Hour /\ seconds "9223372036" = 9223372036 * Second.
Proof.
  split.
  - apply (setting_durations_exact 106751); done.
  - apply (setting_durations_exact 9223372036); done.
Defined.

End Durations.

(** Events kept for 213504 days (584 years) are purged after 25 minutes, and
    2^48 days are no time at all. *)
Example long_retention_is_short :
  (days "213504" < 26 * Minute)%Z /\ jo_EventRetention (NewJanitor (mkJanitorOptions 0 (days "213504"))) = days "213504" /\
  days "281474976710656" = 0%Z.
Proof. by vm_compute. Qed.

(** A limit of open connections below the default of idle ones stops the start. *)
Example small_pool_is_refused :
  let env k := if k =s "DB_MAX_OPEN_CONNS" then "5" else if k =s "DB_DSN" then "postgres://db" else "" in
  let cfg := Load env in
  OpenContext (fun _ => None) (fun _ => None) (DBDSN cfg)
    (mkPool (DBMaxOpenConns cfg) (DBMaxIdleConns cfg) (DBConnMaxIdleTime cfg) (DBConnMaxLifetime cfg)) =
  Some "MaxIdleConns must not exceed MaxOpenConns".
Proof. by vm_compute. Qed.

(** ** The OpAMP listener *)

(** What must hold for a listener in a mode. *)
Definition chosen (load : string -> string -> option (list (option leaf))) (cfg : Config) (now : Time)
    (mode : opampTransportMode) : Prop :=
  match mode with
  | opampTransportInsecure =>
      OpAMPInsecure cfg = "true" /\ OpAMPTLSCertFile cfg = "" /\ OpAMPTLSKeyFile cfg = ""
  | opampTransportTLS =>
      OpAMPInsecure cfg <> "true" /\
      exists l rest, load (OpAMPTLSCertFile cfg) (OpAMPTLSKeyFile cfg) = Some (Some l :: rest) /\
                     (NotBefore l <= now < NotAfter l)%Z
  end.

Lemma resolve_chosen load cfg now t :
  resolveOpAMPTransport load cfg now = inl t -> chosen load cfg now (tr_mode t).
Proof.
  unfold resolveOpAMPTransport. intros Ht.
  destruct (String.eqb_spec (OpAMPInsecure cfg) "true") as [Ei|Ei].
  - rewrite Ei in Ht. cbn in Ht. destruct (String.eqb_spec (OpAMPTLSCertFile cfg) ""); [|done].
    destruct (String.eqb_spec (OpAMPTLSKeyFile cfg) ""); [|done]. by injection Ht as <-.
  - assert ((if OpAMPInsecure cfg =s "" then "false" else OpAMPInsecure cfg) =s "true" = false) as En.
    { destruct (String.eqb_spec (OpAMPInsecure cfg) ""); [done|]. by apply eqb_string_false. }
    rewrite En in Ht. destruct (_ && _) in Ht; [done|]. destruct (_ && _) in Ht; [done|].
    destruct (_ || _) in Ht; [done|]. destruct (load _ _) as [[|[l|] rest]|] eqn:El; try done.
    destruct (Before now (NotBefore l)) eqn:Eb; [done|]. destruct (Before now (NotAfter l)) eqn:Ea; [|done].
    injection Ht as <-. split; [done|]. exists l, rest. split; [exact El|]. unfold Before in *. lia.
Qed.

Lemma Run_listens s v addr mode : ListenOpAMP addr mode ∈ (Run s v).1 ->
  chosen (ru_load v) (sr_cfg s) (ru_now v) mode.
Proof.
  assert (Hstop : ListenOpAMP addr mode ∉ stopOpAMPServer v).
  { unfold stopOpAMPServer. destruct (ru_stop v) as [[]|]; set_solver. }
  assert (Hclean : forall x y, ListenOpAMP addr mode ∉ cleanup v x y).
  { intros x y. unfold cleanup. destruct x, y; set_solver. }
  unfold Run. destruct (ru_attach v); [set_solver|]. destruct (ru_listen_api v); [set_solver|].
  destruct (resolveOpAMPTransport (ru_load v) (sr_cfg s) (ru_now v)) as [t|] eqn:Et.
  - apply resolve_chosen in Et. destruct (ru_listen_opamp v); [set_solver|].
    destruct (ru_outbox v && _); cbn [fst]; set_solver.
  - destruct (ru_outbox v && _); cbn [fst]; set_solver.
Qed.

Lemma apply_cfg opts : forall s, sr_cfg (foldl apply s opts) = sr_cfg s.
Proof.
  induction opts as [|o opts IH]; intros s; [done|]. cbn [foldl]. rewrite IH.
  destruct s, o as [| |[[]|]|[]| | | | | | | |]; done.
Qed.

Lemma New_cfg cfg opts :
  sr_cfg (New cfg opts) =
  with_addresses (if ListenAddr cfg =s "" then ":8080" else ListenAddr cfg)
    (if OpAMPAddr cfg =s "" then ":4320" else OpAMPAddr cfg) cfg.
Proof.
  unfold New. pose proof (apply_cfg opts (mkServer cfg [] NopAuditLogger None None None [] [] [password_method] None
             (Capabilities.mkRegistry [] ∅) None)) as Hc.
  destruct (foldl apply _ opts). cbn in *. by rewrite Hc.
Qed.

Section BootstrapSafety.
Context `{UnicodeTables} `{UrlLib} `{Webhook.NetLib}.

(** The conditions the start-up checks before it runs the server. *)
Record ready (env : environment) (su : surroundings) : Prop := {
  re_secret : validateJWTSecret (env "JWT_SECRET") = None;
  re_pool : (DBMaxIdleConns (Load env) <= DBMaxOpenConns (Load env))%Z;
  re_database : su_open su (DBDSN (Load env)) = None /\ su_ping su (DBDSN (Load env)) = None;
  re_migrated : su_migrate su = None
}.

Lemma getenv_empty env key : getenv env key "" = env key.
Proof. unfold getenv. destruct (String.eqb_spec (env key) ""); [by rewrite e|done]. Qed.

Lemma OpenContext_ok open ping dsn pool : OpenContext open ping dsn pool = None ->
  (MaxIdleConns pool <= MaxOpenConns pool)%Z /\ open dsn = None /\ ping dsn = None.
Proof.
  unfold OpenContext. intros Ho. run Ho. reflect_bools. split; [lia|done].
Qed.

Lemma bootstrap_runs env su extra a acts : (bootstrap env su extra a).2 = inl acts ->
  ready env su /\ exists opts, acts = (Run (New (Load env) opts) (su_run su)).1.
Proof.
  unfold bootstrap. intros Hb. change (JWTSecret (Load env)) with (getenv env "JWT_SECRET" "") in Hb.
  rewrite getenv_empty in Hb. destruct (validateJWTSecret _) eqn:Es; [done|].
  destruct (OpenContext _ _ _ _) eqn:Eo; [done|]. apply OpenContext_ok in Eo as (Hp & Ho & Hg).
  destruct (su_migrate su) eqn:Em; [done|]. destruct (seedAdmin _ _ _ _ _) as [a' [e|]]; [done|].
  split; [by constructor|].
  destruct (su_preRun su) as [[l|e]|]; [|done|]; injection Hb as <-; eauto.
Qed.

(** C36: When the server listens for agents, the secret of the sessions is strong,
    the pool is consistent, the database was reached and migrated, and the
    listener is plaintext only if OPAMP_INSECURE is exactly true and no
    certificate is configured; a TLS listener has a certificate that is valid at
    the start. *)
Theorem opamp_listens_as_configured env su extra a acts addr mode
    (Hb : (bootstrap env su extra a).2 = inl acts) (Hl : ListenOpAMP addr mode ∈ acts) :
  ready env su /\
  match mode with
  | opampTransportInsecure =>
      env "OPAMP_INSECURE" = "true" /\ env "OPAMP_TLS_CERT_FILE" = "" /\ env "OPAMP_TLS_KEY_FILE" = ""
  | opampTransportTLS =>
      env "OPAMP_INSECURE" <> "true" /\
      exists l rest,
        ru_load (su_run su) (env "OPAMP_TLS_CERT_FILE") (env "OPAMP_TLS_KEY_FILE") = Some (Some l :: rest) /\
        (NotBefore l <= ru_now (su_run su) < NotAfter l)%Z
  end.
Proof.
  apply bootstrap_runs in Hb as [Hr [opts ->]]. split; [done|].
  apply Run_listens in Hl. rewrite New_cfg in Hl. destruct mode.
  - destruct Hl as (Hi & Hc & Hk). cbn in Hi, Hc, Hk. rewrite !getenv_empty in Hc, Hk.
    unfold getenv in Hi. destruct (String.eqb_spec (env "OPAMP_INSECURE") ""); done.
  - destruct Hl as (Hi & Hl). cbn in Hi, Hl. rewrite !getenv_empty in Hl. split; [|done].
    intros E. apply Hi. unfold getenv. by rewrite E.
Qed.

End BootstrapSafety.

Definition plaintext_env (k : string) : string :=
  if k =s "JWT_SECRET" then "0123456789abcdef0123456789abcdef"
  else if k =s "DB_DSN" then "postgres://db" else if k =s "OPAMP_INSECURE" then "true" else "".
Definition all_well : surroundings :=
  mkSurroundings (fun _ => None) (fun _ => None) None (fun p => Ok p) "id" (fun _ => IoOk) None
    (mkRunEnv None None None (fun _ _ => None) 0 true (Some Interrupted)).
Definition plaintext_run : accounts * (list action + string) :=
  bootstrap (H := byte_tables) (H0 := Webhook.hook_urls) (H1 := Webhook.hook_net) plaintext_env all_well
    [WithAuditOutboxSink (Some (Sink 1))] (mkAccounts ∅ ∅ ∅ ∅).

Global Instance mode_eq_dec : EqDecision opampTransportMode.
Proof. solve_decision. Defined.
Global Instance action_eq_dec : EqDecision action.
Proof. solve_decision. Defined.

Lemma opamp_listens_as_configured_witness : exists acts,
  plaintext_run.2 = inl acts /\ ListenOpAMP ":4320" opampTransportInsecure ∈ acts /\
  plaintext_env "OPAMP_INSECURE" = "true".
Proof.
  set (acts := match plaintext_run.2 with inl l => l | inr _ => [] end).
  assert (Hr : plaintext_run.2 = inl acts) by by vm_compute.
  assert (Hl : ListenOpAMP ":4320" opampTransportInsecure ∈ acts)
    by (apply (bool_decide_unpack _); vm_compute; exact I).
  exists acts. split; [exact Hr|]. split; [exact Hl|].
  apply (opamp_listens_as_configured (H := byte_tables) (H0 := Webhook.hook_urls) (H1 := Webhook.hook_net)
    plaintext_env all_well [WithAuditOutboxSink (Some (Sink 1))] (mkAccounts ∅ ∅ ∅ ∅) acts ":4320" opampTransportInsecure);
    [exact Hr|exact Hl].
Defined.

(** ** Everything started is stopped *)

Definition stops (x : action) : bool :=
  match x with
  | CloseAPI | ShutdownAPI | ShutdownOpAMP | StopOpAMP | StopHub | StopOutbox => true
  | _ => false
  end.
(** What stops an action's effect. *)
Definition counterpart (x : action) : option action :=
  match x with
  | StartHub => Some StopHub
  | AttachOpAMP => Some StopOpAMP
  | ListenAPI _ | ServeAPI => Some ShutdownAPI
  | ListenOpAMP _ _ | ServeOpAMP => Some ShutdownOpAMP
  | StartOutbox => Some StopOutbox
  | _ => None
  end.
Definition answered (opened closed : list action) : Prop :=
  Forall (fun x => match counterpart x with Some y => y ∈ closed | None => True end) opened.

(** [opens l Hl] splits a run behind the actions [l]; [Hl] tells how often the OpAMP
    server is stopped. *)
Ltac opens l Hl :=
  exists l; eexists; split; [reflexivity|]; unfold answered;
  destruct Hl as [-> | ->]; split_and!;
  repeat (apply Forall_cons_2 || apply Forall_nil_2); cbn; try (done || set_solver).

(** Whatever fails, a run first starts and opens, then stops: the hub, the OpAMP
    server, the listeners and the dispatcher it started are all stopped. *)
Theorem run_stops_what_it_started s v : exists opened closed,
  (Run s v).1 = opened ++ closed /\ Forall (fun x => stops x = false) opened /\
  Forall (fun x => stops x = true) closed /\ answered opened closed.
Proof.
  assert (Hstop : exists l, stopOpAMPServer v = StopOpAMP :: l /\ (l = [] \/ l = [StopOpAMP])).
  { unfold stopOpAMPServer. destruct (ru_stop v) as [[]|]; eauto. }
  unfold Run. destruct Hstop as (l & Hs & Hl). unfold cleanup. rewrite Hs.
  set (api := ListenAPI (ListenAddr (sr_cfg s))).
  destruct (ru_attach v); [opens [StartHub] Hl|]. destruct (ru_listen_api v); [opens [StartHub; AttachOpAMP] Hl|].
  destruct (resolveOpAMPTransport _ _ _) as [t|].
  - destruct (ru_listen_opamp v); [opens [StartHub; AttachOpAMP; api; ServeAPI] Hl|].
    set (agents := ListenOpAMP (OpAMPAddr (sr_cfg s)) (tr_mode t)). destruct (ru_outbox v && _); cbn [fst].
    + opens [StartHub; AttachOpAMP; api; ServeAPI; agents; ServeOpAMP; StartAlerts; StartJanitor; StartOutbox] Hl.
    + opens [StartHub; AttachOpAMP; api; ServeAPI; agents; ServeOpAMP; StartAlerts; StartJanitor] Hl.
  - destruct (ru_outbox v && _); cbn [fst].
    + opens [StartHub; AttachOpAMP; api; ServeAPI; StartAlerts; StartJanitor; StartOutbox] Hl.
    + opens [StartHub; AttachOpAMP; api; ServeAPI; StartAlerts; StartJanitor] Hl.
Qed.

(** ** Login methods *)

Lemma dedup_elem l : forall seen m, m ∈ dedup seen l <->
  am_ID m ∉ seen /\ exists l1 l2, l = l1 ++ m :: l2 /\ am_ID m ∉ map am_ID l1.
Proof.
  induction l as [|x l IH]; intros seen m; cbn [dedup].
  - rewrite elem_of_nil. split; [done|]. intros (_ & [|] & ? & ? & _); done.
  - assert (Hskip : am_ID m <> am_ID x ->
      (exists l1 l2, x :: l = l1 ++ m :: l2 /\ am_ID m ∉ map am_ID l1) <->
      (exists l1 l2, l = l1 ++ m :: l2 /\ am_ID m ∉ map am_ID l1)).
    { intros Hne. split.
      - intros ([|y l1] & l2 & [= -> E] & Hn); [done|]. exists l1, l2. split; [done|].
        intros Hin. apply Hn. by right.
      - intros (l1 & l2 & -> & Hn). exists (x :: l1), l2. split; [done|]. by intros [|]%elem_of_cons. }
    assert (Hfirst : am_ID m = am_ID x -> (exists l1 l2, x :: l = l1 ++ m :: l2 /\ am_ID m ∉ map am_ID l1) <-> m = x).
    { intros He. split.
      - intros ([|y l1] & l2 & [= -> E] & Hn); [done|]. destruct Hn. rewrite He. by left.
      - intros ->. exists [], l. split; [done|]. apply not_elem_of_nil. }
    case_bool_decide as Hs; [|rewrite elem_of_cons]; rewrite IH.
    + destruct (decide (am_ID m = am_ID x)) as [He|He]; [rewrite He; tauto|]. by rewrite Hskip.
    + rewrite elem_of_union, elem_of_singleton.
      destruct (decide (am_ID m = am_ID x)) as [He|He].
      * rewrite (Hfirst He). rewrite He. tauto.
      * rewrite (Hskip He). split; [intros [->|]; tauto|tauto].
Qed.

Lemma dedup_nodup l : forall seen, NoDup (map am_ID (dedup seen l)).
Proof.
  induction l as [|x l IH]; intros seen; cbn [dedup]; [constructor|].
  case_bool_decide; [apply IH|]. cbn [map]. constructor; [|apply IH].
  intros (m & E & [Hm _]%dedup_elem)%list_elem_of_fmap. set_solver.
Qed.

(** The methods registered, in order. *)
Definition registered (opts : list Option) : list AuthMethod :=
  password_method :: omap (fun o => match o with WithAuthMethod m => Some m | _ => None end) opts.

Lemma apply_methods opts : forall s, sr_authMethods (foldl apply s opts) =
  sr_authMethods s ++ omap (fun o => match o with WithAuthMethod m => Some m | _ => None end) opts.
Proof.
  induction opts as [|o opts IH]; intros s; cbn [foldl omap list_omap]; [by rewrite app_nil_r|].
  rewrite IH. destruct s, o as [| |[[]|]|[]| | | | | | | |]; cbn; try done. by rewrite <-app_assoc.
Qed.

(** The login methods offered have distinct identifiers, each is the first one
    registered under its identifier, and the password method stays first. *)
Theorem login_methods_keep_first cfg opts :
  let l := sr_authMethods (New cfg opts) in
  head l = Some password_method /\ NoDup (map am_ID l) /\
  forall m, m ∈ l <-> exists l1 l2, registered opts = l1 ++ m :: l2 /\ am_ID m ∉ map am_ID l1.
Proof.
  cbn zeta. assert (E : sr_authMethods (New cfg opts) = dedup ∅ (registered opts)).
  { unfold New. pose proof (apply_methods opts (mkServer cfg [] NopAuditLogger None None None [] [] [password_method]
      None (Capabilities.mkRegistry [] ∅) None)) as Hm. destruct (foldl apply _ opts). cbn in *. by rewrite Hm. }
  rewrite E. split; [done|]. split; [apply dedup_nodup|]. intros m. rewrite dedup_elem.
  split; [tauto|]. intros ?. split; [apply not_elem_of_empty|done].
Qed.

End Settings.
