(* ===== verification/Routes.v ===== *)
(** * The HTTP surface (internal/api/router.go)

    The table of routes with their guards, the feature gate, the session check of
    the WebSocket, and what a request needs to reach a handler. The router of
    go-chi is a parameter that picks one of the registered routes. *)

From S2P Require Import Prelude GoString Models Access Capabilities Registry Grace OpampTokens Validator Alerts Store PushHistory OpampServer Api Fleet.
Import Access.

Module Routes.

(** ** Features *)

Definition FeatureConfigSafetyApprovals := "config_safety.approvals".
Definition FeatureConfigSafetyGuidedRollback := "config_safety.guided_rollback".
Definition FeatureConfigSafetyCanaryRollout := "config_safety.canary_rollout".
Definition FeatureConfigSafetyScopedPush := "config_safety.scoped_push".
Definition FeatureConfigSafetyDriftDashboard := "config_safety.drift_dashboard".
Definition FeatureConfigSafetyVersionIntelligence := "config_safety.version_intelligence".
Definition FeatureConfigSafetyGitOpsExport := "config_safety.gitops_export".
Definition FeatureConfigSafetyPolicyPreview := "config_safety.policy_preview".
Definition FeatureReportsEvidencePack := "reports.evidence_pack".
Definition FeatureAuditViewer := "audit.viewer".

(** The edition's registry, and the optional checker of the licence. *)
Record edition := mkEdition {
  ed_capabilities : Capabilities.Registry; ed_licenseChecker : option (string -> bool)
}.
(* src/internal/api/feature_gate.go:45-53 featureEnabled *)
Definition featureEnabled (ed : edition) (feature : string) : bool :=
  if feature =s "" then false
  else if Capabilities.Enabled (ed_capabilities ed) feature then true
  else match ed_licenseChecker ed with Some f => f feature | None => false end.

(** ** The table *)

Inductive method := GET | POST | PUT | DELETE.
Inductive guard := Feature (f : string) | Perm (p : Permission) | Auth.

(** The handlers, and those a hook of the edition's binary registers. *)
Inductive Handler :=
| handleWS | healthHandler | readinessHandler | handleLogin | handleLogout | handleListAuthMethods
| handleListFeatures | handleListCapabilities | handleGitOpsWebhook | handleDatabaseStats
| handleCreateOpAMPToken | handleListOpAMPTokens | handleRevokeOpAMPToken | handleListConfigDrift
| handlePreviewEvidencePack | handleExportEvidencePack | handleConfigSafetyReport | handleListWorkloads
| handleFleetVersionIntelligence | handleGetWorkload | handleListWorkloadInstances
| handleGetWorkloadTopology | handleListWorkloadEvents | handleWorkloadEventsStats
| handlePushWorkloadConfig | handleListConfigApprovals | handleCreateOrUpdateConfigApproval
| handleApproveConfigApproval | handlePushConfigApproval | handlePlanWorkloadConfig
| handleExportWorkloadConfigPlan | handleValidateWorkloadConfig | handleValidateCanary | handleStartCanary
| handleGetCanary | handlePromoteCanary | handleAbortCanary | handleRollbackCanary
| handleRollbackWorkloadDefault | handleGetWorkloadConfigHistory | handlePrepareRollback
| handleRollbackStatus | handleGetWorkloadConfigByHash | handleGetWorkloadKnownGood
| handleSetWorkloadConfigLabel | handleMarkWorkloadConfigKnownGood | handleClearWorkloadKnownGood
| handleRollbackWorkloadConfig | handleArchiveWorkload | handleDeleteWorkload | redirectAgentsToWorkloads
| handleListConfigs | handleCreateConfig | handleDiffConfigs | handlePreviewConfigMigration
| handleImportConfigFromGit | handleExportConfigToGit | handlePreviewConfigPolicy | handleGetConfig
| handleListAlerts | handleResolveAlert | handleListAuditEvents | handleExportAuditEventsCSV
| handleListPushActivity | handleListPushGroups | handlePreviewPush | handleGetMe | handlePutPassword
| handlePutPreferences
| Hook (n : nat).

Record Route := mkRoute { rt_method : method; rt_pattern : string; rt_guards : list guard; rt_handler : Handler }.

(* src/internal/api/router.go:89-132 NewRouter *)
Definition public_routes : list Route :=
  [ mkRoute GET "/healthz" [] healthHandler;
    mkRoute GET "/readyz" [] readinessHandler;
    mkRoute POST "/api/auth/login" [] handleLogin;
    mkRoute POST "/api/auth/logout" [] handleLogout;
    mkRoute GET "/api/auth/methods" [] handleListAuthMethods;
    mkRoute GET "/api/features" [] handleListFeatures;
    mkRoute GET "/api/v1/capabilities" [] handleListCapabilities;
    mkRoute POST "/api/gitops/webhooks/{provider}" [Feature FeatureConfigSafetyGitOpsExport] handleGitOpsWebhook;
    mkRoute GET "/ws" [] handleWS ].

(** The routes inside the group behind the session middleware. *)
(* src/internal/api/router.go:135-213 NewRouter *)
Definition protected_routes : list Route :=
  [ mkRoute GET "/api/system/database" [Perm ManageSettings] handleDatabaseStats;
    mkRoute POST "/api/v1/opamp/tokens" [Perm ManageSettings] handleCreateOpAMPToken;
    mkRoute GET "/api/v1/opamp/tokens" [Perm ManageSettings] handleListOpAMPTokens;
    mkRoute POST "/api/v1/opamp/tokens/{id}/revoke" [Perm ManageSettings] handleRevokeOpAMPToken;
    mkRoute GET "/api/config-safety/drift" [Feature FeatureConfigSafetyDriftDashboard] handleListConfigDrift;
    mkRoute POST "/api/reports/evidence-pack" [Feature FeatureReportsEvidencePack; Perm ExportReports] handlePreviewEvidencePack;
    mkRoute POST "/api/reports/evidence-pack/export" [Feature FeatureReportsEvidencePack; Perm ExportReports] handleExportEvidencePack;
    mkRoute GET "/api/reports/config-safety" [Feature FeatureReportsEvidencePack; Perm ExportReports] handleConfigSafetyReport;
    mkRoute GET "/api/workloads" [] handleListWorkloads;
    mkRoute GET "/api/workloads/version-intelligence" [Feature FeatureConfigSafetyVersionIntelligence] handleFleetVersionIntelligence;
    mkRoute GET "/api/workloads/{id}" [] handleGetWorkload;
    mkRoute GET "/api/workloads/{id}/instances" [] handleListWorkloadInstances;
    mkRoute GET "/api/workloads/{id}/topology" [] handleGetWorkloadTopology;
    mkRoute GET "/api/workloads/{id}/events" [] handleListWorkloadEvents;
    mkRoute GET "/api/workloads/{id}/events/stats" [] handleWorkloadEventsStats;
    mkRoute POST "/api/workloads/{id}/config" [Perm PushConfig] handlePushWorkloadConfig;
    mkRoute GET "/api/workloads/{id}/config/approvals" [Feature FeatureConfigSafetyApprovals; Perm PushConfig] handleListConfigApprovals;
    mkRoute POST "/api/workloads/{id}/config/approvals" [Feature FeatureConfigSafetyApprovals; Perm PushConfig] handleCreateOrUpdateConfigApproval;
    mkRoute POST "/api/workloads/{id}/config/approvals/{approval_id}/approve" [Feature FeatureConfigSafetyApprovals; Perm PushConfig] handleApproveConfigApproval;
    mkRoute POST "/api/workloads/{id}/config/approvals/{approval_id}/push" [Feature FeatureConfigSafetyApprovals; Perm PushConfig] handlePushConfigApproval;
    mkRoute POST "/api/workloads/{id}/config/plan" [Feature FeatureConfigSafetyPolicyPreview; Perm ValidateConfig] handlePlanWorkloadConfig;
    mkRoute POST "/api/workloads/{id}/config/plan/export" [Feature FeatureConfigSafetyPolicyPreview; Perm ValidateConfig] handleExportWorkloadConfigPlan;
    mkRoute POST "/api/workloads/{id}/config/validate" [Perm ValidateConfig] handleValidateWorkloadConfig;
    mkRoute POST "/api/workloads/{id}/config/canary/validate" [Feature FeatureConfigSafetyCanaryRollout; Perm ValidateConfig] handleValidateCanary;
    mkRoute POST "/api/workloads/{id}/config/canary" [Feature FeatureConfigSafetyCanaryRollout; Perm PushConfig] handleStartCanary;
    mkRoute GET "/api/workloads/{id}/config/canary/{canary_id}" [Feature FeatureConfigSafetyCanaryRollout] handleGetCanary;
    mkRoute POST "/api/workloads/{id}/config/canary/{canary_id}/promote" [Feature FeatureConfigSafetyCanaryRollout; Perm PushConfig] handlePromoteCanary;
    mkRoute POST "/api/workloads/{id}/config/canary/{canary_id}/abort" [Feature FeatureConfigSafetyCanaryRollout; Perm PushConfig] handleAbortCanary;
    mkRoute POST "/api/workloads/{id}/config/canary/{canary_id}/rollback" [Feature FeatureConfigSafetyCanaryRollout; Perm PushConfig] handleRollbackCanary;
    mkRoute POST "/api/workloads/{id}/rollback" [Feature FeatureConfigSafetyGuidedRollback; Perm PushConfig] handleRollbackWorkloadDefault;
    mkRoute GET "/api/workloads/{id}/configs" [] handleGetWorkloadConfigHistory;
    mkRoute GET "/api/workloads/{id}/rollback/prepare" [Feature FeatureConfigSafetyGuidedRollback; Perm ReadConfigContent] handlePrepareRollback;
    mkRoute GET "/api/workloads/{id}/rollback/status" [Feature FeatureConfigSafetyGuidedRollback] handleRollbackStatus;
    mkRoute GET "/api/workloads/{id}/configs/{hash}" [Perm ReadConfigContent] handleGetWorkloadConfigByHash;
    mkRoute GET "/api/workloads/{id}/known-good" [Feature FeatureConfigSafetyGuidedRollback] handleGetWorkloadKnownGood;
    mkRoute POST "/api/workloads/{id}/configs/{hash}/label" [Perm PushConfig] handleSetWorkloadConfigLabel;
    mkRoute POST "/api/workloads/{id}/configs/{hash}/known-good" [Feature FeatureConfigSafetyGuidedRollback; Perm PushConfig] handleMarkWorkloadConfigKnownGood;
    mkRoute DELETE "/api/workloads/{id}/known-good" [Feature FeatureConfigSafetyGuidedRollback; Perm PushConfig] handleClearWorkloadKnownGood;
    mkRoute POST "/api/workloads/{id}/rollback" [Feature FeatureConfigSafetyGuidedRollback; Perm PushConfig] handleRollbackWorkloadDefault;
    mkRoute POST "/api/workloads/{id}/configs/{hash}/rollback" [Feature FeatureConfigSafetyGuidedRollback; Perm PushConfig] handleRollbackWorkloadConfig;
    mkRoute POST "/api/workloads/{id}/archive" [Perm ArchiveWorkload] handleArchiveWorkload;
    mkRoute DELETE "/api/workloads/{id}" [Perm DeleteWorkload] handleDeleteWorkload;
    mkRoute GET "/api/agents" [] redirectAgentsToWorkloads;
    mkRoute GET "/api/agents/{id}" [] redirectAgentsToWorkloads;
    mkRoute GET "/api/agents/{id}/configs" [] redirectAgentsToWorkloads;
    mkRoute POST "/api/agents/{id}/config" [] redirectAgentsToWorkloads;
    mkRoute POST "/api/agents/{id}/config/validate" [] redirectAgentsToWorkloads;
    mkRoute GET "/api/configs" [] handleListConfigs;
    mkRoute POST "/api/configs" [Perm CreateConfigTpl] handleCreateConfig;
    mkRoute POST "/api/configs/diff" [] handleDiffConfigs;
    mkRoute POST "/api/configs/migration-assistant/preview" [Perm ValidateConfig] handlePreviewConfigMigration;
    mkRoute POST "/api/configs/import/git" [Feature FeatureConfigSafetyGitOpsExport; Perm CreateConfigTpl] handleImportConfigFromGit;
    mkRoute POST "/api/configs/{id}/export/git" [Feature FeatureConfigSafetyGitOpsExport; Perm PushConfig] handleExportConfigToGit;
    mkRoute POST "/api/configs/policy/preview" [Feature FeatureConfigSafetyPolicyPreview; Perm ValidateConfig] handlePreviewConfigPolicy;
    mkRoute GET "/api/configs/{id}" [Perm ReadConfigContent] handleGetConfig;
    mkRoute GET "/api/alerts" [] handleListAlerts;
    mkRoute POST "/api/alerts/{id}/resolve" [Perm ResolveAlert] handleResolveAlert;
    mkRoute GET "/api/audit/events" [Feature FeatureAuditViewer; Perm ViewAudit] handleListAuditEvents;
    mkRoute GET "/api/audit/events.csv" [Feature FeatureAuditViewer; Perm ViewAudit] handleExportAuditEventsCSV;
    mkRoute GET "/api/pushes/activity" [] handleListPushActivity;
    mkRoute GET "/api/push-groups" [] handleListPushGroups;
    mkRoute POST "/api/pushes/preview" [Feature FeatureConfigSafetyScopedPush; Perm PushConfig] handlePreviewPush;
    mkRoute GET "/api/me" [] handleGetMe;
    mkRoute PUT "/api/me/password" [] handlePutPassword;
    mkRoute PUT "/api/me/preferences" [] handlePutPreferences ].

Definition behind_auth (r : Route) : Route :=
  mkRoute (rt_method r) (rt_pattern r) (Auth :: rt_guards r) (rt_handler r).

(** The hooks of an edition register routes of their own inside the group. *)
Definition hooked (i : nat) (h : method * string * list guard) : Route :=
  mkRoute h.1.1 h.1.2 h.2 (Hook i).
(* src/internal/api/router.go:66-226 NewRouter *)
Definition NewRouter (protectedHooks : list (method * string * list guard)) : list Route :=
  public_routes ++ map behind_auth (protected_routes ++ imap hooked protectedHooks).

(** ** Serving a request *)

(** The router picks a route registered for the method. *)
Class ChiLib := {
  chi_find : list Route -> method -> string -> option Route;
  chi_sound table m path rt : chi_find table m path = Some rt -> rt ∈ table /\ rt_method rt = m
}.

(** No route, a refusal, or a handler with the user of the request's context. *)
Inductive outcome := NoRoute | Denied (status : Z) | Runs (h : Handler) (user : option UserInfo).

Definition of_served (s : served outcome) : outcome :=
  match s with Reject code => Denied code | Served o => o end.

Section Serve.
Context `{JwtLib} (secret : string) (ed : edition).

(* src/internal/api/feature_gate.go:33-43 RequireFeature *)
Definition RequireFeature (feature : string) (next : outcome) : outcome :=
  if negb (featureEnabled ed feature) then Denied 403 else next.

(** The middlewares of a route, the outermost first. *)
Fixpoint chain (gs : list guard) (h : Handler) (r : request) (now : Time) (info : option UserInfo) : outcome :=
  match gs with
  | [] => Runs h info
  | Auth :: gs => of_served (Middleware secret (fun info => Served (chain gs h r now info)) r now)
  | Feature f :: gs => RequireFeature f (chain gs h r now info)
  | Perm p :: gs => of_served (RequirePerm p (fun u => chain gs h r now (Some u)) info)
  end.

Definition serve `{ChiLib} (table : list Route) (m : method) (path : string) (r : request) (now : Time) : outcome :=
  match chi_find table m path with
  | None => NoRoute
  | Some rt => chain (rt_guards rt) (rt_handler rt) r now None
  end.

(** The handshake of the WebSocket: the token of the request or of its query, and
    the instant the session ends, zero when the token does not expire. *)
(* src/internal/api/router.go:103-131 NewRouter *)
Definition ws_session (r : request) (query_token : string) (now later : Time) : served Time :=
  let token := match RequestToken r with Some t => t | None => query_token end in
  if token =s "" then Reject 401
  else match ValidateToken secret token now with
  | Err _ => Reject 401
  | Ok _ =>
      match TokenExpiresAt secret token now with
      | Err _ => Reject 401
      | Ok (Some expiresAt) => if negb (Before later expiresAt) then Reject 401 else Served expiresAt
      | Ok None => Served zero_time
      end
  end.

(** ** What a request needs *)

(** The request carries a session that stands for a user. *)
Definition session_of (r : request) (now : Time) (u : UserInfo) : Prop :=
  exists token, RequestToken r = Some token /\ ValidateToken secret token now = Ok u.

Definition is_auth (g : guard) : bool := match g with Auth => true | _ => false end.
Definition passes (info : option UserInfo) (g : guard) : Prop :=
  match g with
  | Auth => True
  | Feature f => featureEnabled ed f = true
  | Perm p => exists u, info = Some u /\ Has u p = true
  end.

Lemma chain_plain gs h r now info o : forallb (fun g => negb (is_auth g)) gs = true ->
  chain gs h r now info = o ->
  (o = Runs h info /\ Forall (passes info) gs) \/ (exists code, o = Denied code /\ ~ Forall (passes info) gs).
Proof.
  revert o. induction gs as [|g gs IH]; intros o Hp <-; [by left|].
  cbn [forallb] in Hp. apply andb_true_iff in Hp as [Hg Hp]. specialize (IH _ Hp eq_refl).
  setoid_rewrite Forall_cons. destruct g as [f|p|]; [| |done]; cbn [chain passes].
  - unfold RequireFeature. destruct (featureEnabled ed f) eqn:Ef; cbn [negb].
    + destruct IH as [[-> ?]|(code & -> & ?)]; [by left|]. right. exists code. split; [done|]. by intros [_ ?].
    + right. exists 403%Z. split; [done|]. by intros [? _].
  - unfold RequirePerm. destruct info as [u|]; cbn [of_served].
    + destruct (Has u p) eqn:Eh; cbn [negb of_served].
      * destruct IH as [[-> ?]|(code & -> & ?)]; [left; split; [done|split; [by exists u|done]]|].
        right. exists code. split; [done|]. by intros [_ ?].
      * right. exists 403%Z. split; [done|]. intros [(u' & [= <-] & Hu) _]. congruence.
    + right. exists 401%Z. split; [done|]. by intros [(u' & ? & _) _].
Qed.

(** ** Every handler behind its guards *)

(** Handlers anyone may call. *)
Definition open_to_all (h : Handler) : bool :=
  match h with
  | handleWS | healthHandler | readinessHandler | handleLogin | handleLogout | handleListAuthMethods
  | handleListFeatures | handleListCapabilities | handleGitOpsWebhook => true
  | _ => false
  end.

(** The permission the effect of a handler calls for: whatever sends a
    configuration or prepares or marks one to be sent, reads of stored contents,
    new library entries, judgements of a configuration, alerts, reports, the audit
    trail, the lifecycle of workloads, and settings. *)
Definition needs (h : Handler) : option Permission :=
  match h with
  | handlePushWorkloadConfig | handleListConfigApprovals | handleCreateOrUpdateConfigApproval
  | handleApproveConfigApproval | handlePushConfigApproval | handleStartCanary | handlePromoteCanary
  | handleAbortCanary | handleRollbackCanary | handleRollbackWorkloadDefault | handleRollbackWorkloadConfig
  | handleSetWorkloadConfigLabel | handleMarkWorkloadConfigKnownGood | handleClearWorkloadKnownGood
  | handleExportConfigToGit | handlePreviewPush => Some PushConfig
  | handleGetConfig | handleGetWorkloadConfigByHash | handlePrepareRollback => Some ReadConfigContent
  | handleCreateConfig | handleImportConfigFromGit => Some CreateConfigTpl
  | handlePlanWorkloadConfig | handleExportWorkloadConfigPlan | handleValidateWorkloadConfig
  | handleValidateCanary | handlePreviewConfigMigration | handlePreviewConfigPolicy => Some ValidateConfig
  | handleResolveAlert => Some ResolveAlert
  | handlePreviewEvidencePack | handleExportEvidencePack | handleConfigSafetyReport => Some ExportReports
  | handleListAuditEvents | handleExportAuditEventsCSV => Some ViewAudit
  | handleArchiveWorkload => Some ArchiveWorkload
  | handleDeleteWorkload => Some DeleteWorkload
  | handleDatabaseStats | handleCreateOpAMPToken | handleListOpAMPTokens | handleRevokeOpAMPToken =>
      Some ManageSettings
  | _ => None
  end.

(** The feature a handler belongs to. *)
Definition feature_of (h : Handler) : option string :=
  match h with
  | handleListConfigApprovals | handleCreateOrUpdateConfigApproval | handleApproveConfigApproval
  | handlePushConfigApproval => Some FeatureConfigSafetyApprovals
  | handleValidateCanary | handleStartCanary | handleGetCanary | handlePromoteCanary | handleAbortCanary
  | handleRollbackCanary => Some FeatureConfigSafetyCanaryRollout
  | handleRollbackWorkloadDefault | handleRollbackWorkloadConfig | handlePrepareRollback | handleRollbackStatus
  | handleGetWorkloadKnownGood | handleMarkWorkloadConfigKnownGood | handleClearWorkloadKnownGood =>
      Some FeatureConfigSafetyGuidedRollback
  | handlePreviewPush => Some FeatureConfigSafetyScopedPush
  | handleListConfigDrift => Some FeatureConfigSafetyDriftDashboard
  | handleFleetVersionIntelligence => Some FeatureConfigSafetyVersionIntelligence
  | handleImportConfigFromGit | handleExportConfigToGit | handleGitOpsWebhook => Some FeatureConfigSafetyGitOpsExport
  | handlePlanWorkloadConfig | handleExportWorkloadConfigPlan | handlePreviewConfigPolicy =>
      Some FeatureConfigSafetyPolicyPreview
  | handlePreviewEvidencePack | handleExportEvidencePack | handleConfigSafetyReport =>
      Some FeatureReportsEvidencePack
  | handleListAuditEvents | handleExportAuditEventsCSV => Some FeatureAuditViewer
  | _ => None
  end.

Global Instance guard_eq_dec : EqDecision guard.
Proof. solve_decision. Defined.

(** A route of the table has the guards its handler calls for. *)
Definition guarded_as_needed (rt : Route) : bool :=
  match needs (rt_handler rt) with Some p => bool_decide (Perm p ∈ rt_guards rt) | None => true end
  && match feature_of (rt_handler rt) with Some f => bool_decide (Feature f ∈ rt_guards rt) | None => true end
  && forallb (fun g => negb (is_auth g)) (rt_guards rt).

Lemma tables_guarded :
  forallb guarded_as_needed (public_routes ++ protected_routes) = true /\
  forallb (fun rt => open_to_all (rt_handler rt)) public_routes = true /\
  forallb (fun rt => negb (open_to_all (rt_handler rt))) protected_routes = true.
Proof. by vm_compute. Qed.

Lemma guarded_passes info rt : guarded_as_needed rt = true -> Forall (passes info) (rt_guards rt) ->
  (forall p, needs (rt_handler rt) = Some p -> exists u, info = Some u /\ Has u p = true) /\
  (forall f, feature_of (rt_handler rt) = Some f -> featureEnabled ed f = true).
Proof.
  unfold guarded_as_needed. intros [[Hn Hf]%andb_true_iff _]%andb_true_iff Hall. rewrite Forall_forall in Hall. split.
  - intros p E. rewrite E in Hn. apply bool_decide_eq_true_1 in Hn. exact (Hall _ Hn).
  - intros f E. rewrite E in Hf. apply bool_decide_eq_true_1 in Hf. exact (Hall _ Hf).
Qed.

(** The routes hooks may register: they come with no session check of their own. *)
Definition plain_hooks (hooks : list (method * string * list guard)) : Prop :=
  Forall (fun h => forallb (fun g => negb (is_auth g)) h.2 = true) hooks.

Lemma in_tables hooks rt : plain_hooks hooks -> rt ∈ NewRouter hooks ->
  (open_to_all (rt_handler rt) = true /\ guarded_as_needed rt = true) \/
  (exists inner, rt = behind_auth inner /\ open_to_all (rt_handler inner) = false /\ guarded_as_needed inner = true).
Proof.
  destruct tables_guarded as (Hg & Hpub & Hpro). rewrite forallb_app in Hg. apply andb_true_iff in Hg as [Hg1 Hg2].
  rewrite forallb_forall in Hg1, Hg2, Hpub, Hpro. setoid_rewrite <-list_elem_of_In in Hg1.
  setoid_rewrite <-list_elem_of_In in Hg2. setoid_rewrite <-list_elem_of_In in Hpub. setoid_rewrite <-list_elem_of_In in Hpro.
  intros Hh [Hin|Hin]%elem_of_app; [left; auto|]. right.
  apply list_elem_of_fmap in Hin as (inner & -> & [Hin|Hin]%elem_of_app); exists inner; split; try done.
  - split; [apply negb_true_iff|]; auto.
  - apply elem_of_lookup_imap in Hin as (i & h & -> & Hi). split; [done|].
    unfold plain_hooks in Hh. rewrite Forall_forall in Hh. unfold guarded_as_needed. cbn.
    apply Hh. by apply list_elem_of_lookup_2 in Hi.
Qed.

Lemma chain_auth gs h r now o : forallb (fun g => negb (is_auth g)) gs = true ->
  chain (Auth :: gs) h r now None = o ->
  (exists u, o = Runs h (Some u) /\ session_of r now u /\ Forall (passes (Some u)) gs) \/
  (exists code, o = Denied code).
Proof.
  intros Hp <-. cbn [chain]. unfold Middleware. destruct (RequestToken r) as [t|] eqn:Et; [|right; by eexists].
  destruct (ValidateToken secret t now) as [u|] eqn:Ev; [|right; by eexists]. cbn [of_served].
  destruct (chain_plain gs h r now (Some u) _ Hp eq_refl) as [[-> Hall]|(code & -> & _)]; [|right; by eexists].
  left. exists u. split; [done|]. split; [by exists t|done].
Qed.


(** A WebSocket is opened only with a token that is verified and, when it
    expires, still valid; the hub is told the instant it expires. *)
Theorem ws_needs_live_session r query_token now later expiresAt
    (Hs : ws_session r query_token now later = Served expiresAt) :
  exists token u e,
    (RequestToken r = Some token \/ RequestToken r = None /\ token = query_token) /\
    ValidateToken secret token now = Ok u /\ TokenExpiresAt secret token now = Ok e /\
    expiresAt = default zero_time e /\ (forall t, e = Some t -> (later < t)%Z).
Proof.
  unfold ws_session in Hs. set (token := match RequestToken r with Some t => t | None => query_token end) in Hs.
  destruct (token =s ""); [done|]. destruct (ValidateToken secret token now) as [u|] eqn:Ev; [|done].
  exists token, u. destruct (TokenExpiresAt secret token now) as [[e|]|] eqn:Ee; [| |done].
  - destruct (Before later e) eqn:Eb; [|done]. injection Hs as <-. exists (Some e). unfold Before in Eb.
    split; [subst token; destruct (RequestToken r); auto|]. split_and!; try done. intros t [= <-]. lia.
  - injection Hs as <-. exists None. split; [subst token; destruct (RequestToken r); auto|]. by split_and!.
Qed.

End Serve.

(** ** A concrete router and two sessions *)

Definition matches (pattern path : string) : bool :=
  let fix go (ps ss : list string) : bool :=
    match ps, ss with
    | [], [] => true
    | p :: ps, s :: ss => (HasPrefix p "{" || (p =s s)) && go ps ss
    | _, _ => false
    end in go (Split pattern "/"%char) (Split path "/"%char).
Definition same_method (a b : method) : bool :=
  match a, b with GET, GET | POST, POST | PUT, PUT | DELETE, DELETE => true | _, _ => false end.
(** The first route with the path itself as its pattern, or else the first one
    whose pattern matches. *)
Definition pick (table : list Route) (m : method) (path : string) : option Route :=
  let ok f := List.find (fun rt => same_method (rt_method rt) m && f (rt_pattern rt)) table in
  match ok (String.eqb path) with Some rt => Some rt | None => ok (fun pattern => matches pattern path) end.
Program Definition first_match : ChiLib := {| chi_find := pick |}.
Next Obligation.
  intros table m path rt. unfold pick.
  assert (Hf : forall f rt, List.find (fun rt => same_method (rt_method rt) m && f (rt_pattern rt)) table = Some rt ->
    rt ∈ table /\ rt_method rt = m).
  { intros f rt' [Hin Hm]%find_some. split; [by apply list_elem_of_In|].
    apply andb_true_iff in Hm as [Hm _]. by destruct (rt_method rt'), m. }
  destruct (List.find (fun rt => _ && (path =s _)) table) eqn:E; [intros [= <-]; by apply (Hf (String.eqb path))|].
  apply (Hf (fun pattern => matches pattern path)).
Qed.

#[local] Existing Instance text_jwt.
#[local] Existing Instance first_match.
Definition user_in (group : string) : UserInfo := mkUserInfo "u1" "ada@example.org" [group].
Definition as_member (group : string) : request :=
  mkRequest "" (Some (match GenerateToken "s." "u1" "ada@example.org" [group] 0 with Ok t => t | Err _ => "" end))
    "10.0.0.7:1".
Definition community : edition := mkEdition (Capabilities.mkRegistry [] ∅) None.
Definition ask (group : string) (m : method) (path : string) : outcome :=
  serve "s." community (NewRouter []) m path (as_member group) 1000.


Lemma ws_needs_live_session_witness :
  ws_session "s." (as_member "viewer") "" 1000 2000 = Served (24 * Hour)%Z /\
  exists token u e,
    (RequestToken (as_member "viewer") = Some token \/ RequestToken (as_member "viewer") = None /\ token = "") /\
    ValidateToken "s." token 1000 = Ok u /\ TokenExpiresAt "s." token 1000 = Ok e /\
    (24 * Hour)%Z = default zero_time e /\ (forall t, e = Some t -> (2000 < t)%Z).
Proof.
  assert (Hs : ws_session "s." (as_member "viewer") "" 1000 2000 = Served (24 * Hour)%Z) by by vm_compute.
  split; [exact Hs|]. exact (ws_needs_live_session "s." (as_member "viewer") "" 1000 2000 _ Hs).
Defined.

(** What a viewer is refused and allowed, and a gate that is closed. *)
Example viewer_limits :
  ask "viewer" GET "/api/configs/c1" = Denied 403 /\
  ask "viewer" GET "/api/workloads" = Runs handleListWorkloads (Some (user_in "viewer")) /\
  ask "administrator" POST "/api/workloads/w/rollback" = Denied 403.
Proof. by vm_compute. Qed.

(** ** The content of the latest push reaches everyone *)

#[local] Existing Instance byte_tables.
#[local] Existing Instance Store.microseconds.
#[local] Existing Instance Alerts.byte_collation.
Definition quiet_env : Api.aenv :=
  Api.mkAenv
    (OpampServer.mkEnv true false 0 (fun n => (1000000 + Z.of_nat n)%Z) (fun _ => IoOk) (fun _ => OpampTokens.no_faults)
       (fun _ => true) (fun _ => None) (fun _ => OpampServer.ReplySent) (fun _ => true) (fun _ s => s))
    true (Some (user_in "viewer")) (fun _ => "") (fun _ => None)
    (fun _ => Validator.mkRuntime (fun _ => None) (fun _ => Validator.mkVersionInfo "" "")
                (Validator.mkOutput "" "" 0, None) None None None (Validator.mkOutput "" "" 0, None) 0 "")
    (fun _ => true) (fun _ => false) (fun _ a => a).

Definition pushed_fleet : Api.api :=
  Api.mkApi (OpampServer.mkServer PushHistory.sample_db (OpampTokens.mkDB ∅ ∅) Registry.NewInstanceRegistry
    Grace.NewGraceController ∅ ∅ false [] [] 0) ∅ [] [].

(** The list of workloads needs no permission and shows the stored text of the
    configuration each workload was sent last, which the routes that serve
    contents keep behind a permission viewers lack. *)
Example viewer_reads_pushed_content :
  ask "viewer" GET "/api/workloads" = Runs handleListWorkloads (Some (user_in "viewer")) /\
  Has (user_in "viewer") ReadConfigContent = false /\
  exists items, (Fleet.handleListWorkloads quiet_env "" pushed_fleet).2 = Fleet.Replied 200 items /\
    map (fun w => wc_Content <$> wl_CurrentConfigPush w) items = [Some "exporters: {}"].
Proof. split; [by vm_compute|]. split; [done|]. eexists. split; by vm_compute. Qed.

End Routes.
