(* ===== verification/Edge.v ===== *)
(** * The edge of the HTTP server

    What surrounds the handlers of internal/api: the request log with its
    redaction (request_logger.go), session cookies (session_cookie.go,
    authhandler.go), response headers (security_headers.go), probes (health.go,
    database_stats.go), alerts (alerts.go) and the audit trail's reader
    (audit_events.go). *)

From S2P Require Import Prelude GoString Models Yaml OtelDiff Access Alerts Api Fleet Hub TokenApi.
Import Yaml OtelDiff Access Api Fleet.

Module Edge.

(** ** The request log *)

(* src/internal/api/request_logger.go:13-28 sensitiveQueryKeys *)
Definition sensitiveQueryKeys : list string :=
  [ "access_token"; "api_key"; "apikey"; "auth"; "authorization"; "bearer"; "code"; "credential"; "jwt";
    "key"; "password"; "secret"; "session"; "token" ].

Definition hidden_byte (c : Ascii.ascii) : bool := (code c <? 32)%N || (code c =? 127)%N.
Definition replacement : string := bytes [239; 191; 189]%N.

(** [strings.Map] goes rune by rune: control characters become spaces, an invalid
    byte the replacement character. The fuel is the length of the text. *)
Fixpoint map_runes (fuel : nat) (s : string) : string :=
  match fuel, s with
  | S n, String c rest =>
      match TokenApi.rune_width s with
      | 1 => if hidden_byte c then String " " (map_runes n rest)
             else if (code c <? 128)%N then String c (map_runes n rest)
             else replacement +:+ map_runes n rest
      | w => take_str w s +:+ map_runes n (drop_str w s)
      end
  | _, _ => ""
  end.
(* src/internal/api/request_logger.go:70-77 sanitizeLogField *)
Definition sanitizeLogField (value : string) : string := map_runes (String.length value) value.

Section Log.
Context `{UnicodeTables} `{UrlLib}.

(* src/internal/api/request_logger.go:62-68 isSensitiveQueryKey *)
Definition isSensitiveQueryKey (key : string) : bool :=
  let key := ToLower (TrimSpace key) in
  bool_decide (key ∈ sensitiveQueryKeys) || Contains key "token" || Contains key "secret" || Contains key "password".

Notation values := (gmap string (list string)).
(* src/internal/api/request_logger.go:48-60 redactSensitiveQuery *)
Definition redactSensitiveQuery (v : values) : values :=
  map_imap (fun key vals => Some (if isSensitiveQueryKey key then map (fun _ => "REDACTED") vals else vals)) v.

Definition with_query (q : string) (u : URL) : URL :=
  mkURL (u_Scheme u) (u_Opaque u) (u_User u) (u_Host u) (u_Path u) (u_RawPath u) (u_OmitHost u) (u_ForceQuery u)
    q (u_Fragment u) (u_RawFragment u).
(** [u.RequestURI()]. *)
Definition RequestURI (u : URL) : string :=
  let base :=
    if u_Opaque u =s "" then (if url_EscapedPath u =s "" then "/" else url_EscapedPath u)
    else if HasPrefix (u_Opaque u) "//" then u_Scheme u +:+ ":" +:+ u_Opaque u else u_Opaque u in
  if u_ForceQuery u || (u_RawQuery u <>s "") then base +:+ "?" +:+ u_RawQuery u else base.
(* src/internal/api/request_logger.go:40-46 sanitizedRequestURI *)
Definition sanitizedRequestURI (u : URL) : string :=
  let u := if u_RawQuery u <>s ""
           then with_query (url_Encode (redactSensitiveQuery (url_ParseQuery (u_RawQuery u)))) u else u in
  RequestURI u.

Record logged := mkLogged { lg_Method : string; lg_URL : URL; lg_Proto : string; lg_RemoteAddr : string }.
(* src/internal/api/request_logger.go:30-38 requestLogger *)
Definition log_line (r : logged) (status bytesWritten : nat) (took : Duration) : string :=
  sanitizeLogField (lg_Method r) +:+ " " +:+ sanitizeLogField (sanitizedRequestURI (lg_URL r)) +:+ " "
  +:+ sanitizeLogField (lg_Proto r) +:+ " from " +:+ sanitizeLogField (lg_RemoteAddr r) +:+ " - "
  +:+ Itoa status +:+ " " +:+ Itoa bytesWritten +:+ "B in " +:+ DurationString took.

End Log.

(** ** Session cookies *)

(* src/internal/api/session_cookie.go:23-31 setSessionCookie *)
Record cookie := mkCookie {
  ck_Name : string; ck_Value : string; ck_Path : string; ck_MaxAge : Z; ck_HttpOnly : bool; ck_Secure : bool;
  ck_SameSiteLax : bool
}.
Definition SessionCookieName := "om_session".
Definition defaultSessionCookieTTL : Duration := (24 * Hour)%Z.

Section Cookies.
Context `{UnicodeTables}.

(** Whether the connection is TLS, and the header of the proxy. *)
(* src/internal/api/session_cookie.go:47-52 isSecureRequest *)
Definition isSecureRequest (tls : bool) (forwardedProto : string) : bool :=
  if tls then true else EqualFold forwardedProto "https".

(** Whole seconds of a duration; sessions are far below the durations for which
    the conversion through a float would round. *)
Definition whole_seconds (d : Duration) : Z := Z.quot d Second.

(* src/internal/api/session_cookie.go:13-32 setSessionCookie *)
Definition setSessionCookie (secure : bool) (token : string) (expiresAt now : Time) : cookie :=
  let maxAge :=
    if IsZero expiresAt then whole_seconds defaultSessionCookieTTL
    else let ttl := Sub expiresAt now in if (0 <? ttl)%Z then whole_seconds ttl else 0%Z in
  mkCookie SessionCookieName token "/" maxAge true secure true.

(* src/internal/api/session_cookie.go:34-45 clearSessionCookie *)
Definition clearSessionCookie (secure : bool) : cookie := mkCookie SessionCookieName "" "/" (-1) true secure true.

(** How long a browser keeps a cookie: net/http writes no attribute for a zero
    [MaxAge], and such a cookie lives until the browser is closed. *)
Definition lifetime (c : cookie) : option Z :=
  if (0 <? ck_MaxAge c)%Z then Some (ck_MaxAge c) else if (ck_MaxAge c <? 0)%Z then Some 0%Z else None.

(* src/internal/api/session_cookie.go:54-60 tokenExpiresAt *)
Definition tokenExpiresAt (answer : result (option Time)) : Time :=
  match answer with Ok (Some t) => t | _ => zero_time end.

(** The headers of a response. *)
Notation headers := (gmap string string).
Definition contentSecurityPolicy := "default-src 'self'; script-src 'self'; style-src 'self' 'unsafe-inline'; img-src 'self' data: blob:; font-src 'self' data:; connect-src 'self' ws: wss:; object-src 'none'; base-uri 'self'; form-action 'self'; frame-ancestors 'none'".
(* src/internal/api/security_headers.go:7-20 securityHeaders *)
Definition securityHeaders (tls : bool) (forwardedProto : string) (h : headers) : headers :=
  let h := <["X-Content-Type-Options" := "nosniff"]> h in
  let h := <["X-Frame-Options" := "DENY"]> h in
  let h := <["Referrer-Policy" := "strict-origin-when-cross-origin"]> h in
  let h := <["Content-Security-Policy" := contentSecurityPolicy]> h in
  let h := <["Permissions-Policy" := "camera=(), microphone=(), geolocation=()"]> h in
  if isSecureRequest tls forwardedProto
  then <["Strict-Transport-Security" := "max-age=31536000; includeSubDomains"]> h else h.
(* src/internal/api/authhandler.go:105-109 setNoStoreAuthHeaders *)
Definition setNoStoreAuthHeaders (h : headers) : headers :=
  <["Pragma" := "no-cache"]> (<["Cache-Control" := "no-store"]> h).

(** The login's cookie joined to its answer, and the logout. *)
Definition login_cookie `{JwtLib} (secret : string) (tls : bool) (forwardedProto : string) (now : Time)
    (res : login_result) : option cookie :=
  match lo_token res with
  | Some token => Some (setSessionCookie (isSecureRequest tls forwardedProto) token
                          (tokenExpiresAt (TokenExpiresAt secret token now)) now)
  | None => None
  end.
(* src/internal/api/authhandler.go:99-103 handleLogout *)
Definition handleLogout (tls : bool) (forwardedProto : string) (h : headers) : headers * cookie * Z :=
  (setNoStoreAuthHeaders h, clearSessionCookie (isSecureRequest tls forwardedProto), 204%Z).

End Cookies.

(** ** Probes *)

(** The store handed to the router: none or a nil value, one that cannot be
    pinged, or one whose ping answers. *)
Inductive pinged := NilStore | NoPing | Ping (err : option string).
(* src/internal/api/health.go:16-20 healthHandler *)
Definition healthHandler : Z * string := (200%Z, "ok").
(* src/internal/api/health.go:22-46 readinessHandler *)
Definition readinessHandler (db : pinged) : Z * string :=
  match db with
  | Ping None => (200%Z, "ready")
  | _ => (503%Z, "not ready")
  end.

(** ** Alerts *)

Section AlertHandlers.
Context `{Alerts.Collation} `{Alerts.AnyRow} (v : Alerts.env).

(** The outcome of the query is [fault]. *)
(* src/internal/store/alerts.go:35-58 ListAlerts *)
Definition ListAlerts (d : Alerts.db) (fault : io) (includeResolved : bool) : result (list Alert) :=
  match fault with
  | IoFail _ => Err "query failed"
  | IoOk =>
      let rows := List.filter (fun a => includeResolved || match al_ResolvedAt a with None => true | Some _ => false end)
                    (map_to_list (Alerts.db_alerts d)).*2 in
      Ok (sort_by (less_of (by_key (fun a => (- al_FiredAt a)%Z) Z.compare)) rows)
  end.

(* src/internal/api/alerts.go:10-18 handleListAlerts *)
Definition handleListAlerts (d : Alerts.db) (fault : io) (include_resolved : string) : reply (list Alert) :=
  match ListAlerts d fault (include_resolved =s "true") with
  | Err _ => refuse 500 "failed to list alerts"
  | Ok l => Replied 200 l
  end.

(* src/internal/api/alerts.go:20-27 handleResolveAlert *)
Definition handleResolveAlert (d : Alerts.db) (id : string) : Alerts.db * response :=
  match Alerts.ResolveAlert v d id with
  | (d', Some _) => (d', mkResponse 500 "failed to resolve alert" "")
  | (d', None) => (d', mkResponse 200 "" "")
  end.

End AlertHandlers.

(** ** The audit trail *)

(* src/pkg/ext/audit.go:38-52 AuditRecord *)
Record AuditRecord := mkRecord {
  ar_ID : string; ar_OccurredAt : Time; ar_Action : string; ar_UserID : string; ar_Email : string;
  ar_Resource : string; ar_ResourceID : string; ar_WorkloadID : string; ar_ConfigHash : string;
  ar_Detail : string; ar_PrevHash : string; ar_EventHash : string; ar_ImmutableRef : string
}.
(* src/pkg/ext/audit.go:55-67 AuditEventFilter *)
Record AuditEventFilter := mkFilter {
  fl_User : string; fl_UserID : string; fl_Email : string; fl_Action : string; fl_ResourceID : string;
  fl_WorkloadID : string; fl_ConfigHash : string; fl_From : Time; fl_To : Time; fl_Limit : Z; fl_Offset : Z
}.
(* src/pkg/ext/audit.go:70-73 AuditEventPage *)
Record AuditEventPage := mkPage { pg_Events : list AuditRecord; pg_Total : Z }.
(* src/internal/api/audit_events.go:17-23 auditEventsResponse *)
Record auditEventsResponse := mkEvents {
  ae_Available : bool; ae_Events : list AuditRecord; ae_Total : Z; ae_Limit : Z; ae_Offset : Z
}.

Definition defaultAuditEventLimit : Z := 50.
Definition maxAuditEventLimit : Z := 500.

(** [time.Parse(time.RFC3339, ...)]. *)
Class TimeParser := { parse_RFC3339 : string -> option Time }.

Section Audit.
Context `{TimeParser}.

(* src/internal/api/audit_events.go:113-162 parseAuditEventFilter *)
Definition parseAuditEventFilter (q : string -> string) : AuditEventFilter + response :=
  let bad what := inr (mkResponse 400 ("invalid " +:+ what) "") in
  let instant key := if q key =s "" then Some zero_time else parse_RFC3339 (q key) in
  let limit :=
    if q "limit" =s "" then Some defaultAuditEventLimit
    else let '(n, ok) := Atoi (q "limit") in
         if negb ok || (n <? 1)%Z then None else Some (if (maxAuditEventLimit <? n)%Z then maxAuditEventLimit else n) in
  match limit with
  | None => bad "limit"
  | Some limit =>
  let offset := if q "offset" =s "" then Some 0%Z
                else let '(n, ok) := Atoi (q "offset") in if negb ok || (n <? 0)%Z then None else Some n in
  match offset with
  | None => bad "offset"
  | Some offset =>
  match instant "from" with
  | None => bad "from"
  | Some from =>
  match instant "to" with
  | None => bad "to"
  | Some to =>
      inl (mkFilter (q "user") (q "user_id") (q "email") (q "action") (q "resource_id") (q "workload_id")
             (q "config_hash") from to limit offset)
  end end end end.

(** The audit sink: one that cannot be queried, or the answer to a filter. *)
Notation querier := (option (AuditEventFilter -> result AuditEventPage)).
(* src/internal/api/audit_events.go:99-111 queryAuditEvents *)
Definition queryAuditEvents (sink : querier) (filter : AuditEventFilter) : (AuditEventPage * bool) + response :=
  match sink with
  | None => inl (mkPage [] 0, false)
  | Some list =>
      match list filter with
      | Err _ => inr (mkResponse 503 "audit unavailable" "")
      | Ok page => inl (page, true)
      end
  end.

(* src/internal/api/audit_events.go:25-41 handleListAuditEvents *)
Definition handleListAuditEvents (sink : querier) (q : string -> string) : reply auditEventsResponse :=
  match parseAuditEventFilter q with
  | inr r => Refused r
  | inl filter =>
      match queryAuditEvents sink filter with
      | inr r => Refused r
      | inl (page, available) =>
          Replied 200 (mkEvents available (pg_Events page) (pg_Total page) (fl_Limit filter) (fl_Offset filter))
      end
  end.

(* src/internal/api/audit_events.go:87-97 safeAuditCSVCell *)
Definition safeAuditCSVCell (cell : string) : string :=
  match cell with
  | "" => cell
  | String c _ => if bool_decide (code c ∈ [61; 43; 45; 64; 9; 13]%N) then "'" +:+ cell else cell
  end.
(* src/internal/api/audit_events.go:79-85 safeAuditCSVRow *)
Definition safeAuditCSVRow (row : list string) : list string := map safeAuditCSVCell row.

Definition csv_header : list string :=
  [ "id"; "occurred_at"; "action"; "user_id"; "email"; "resource"; "resource_id"; "workload_id"; "config_hash";
    "detail"; "prev_hash"; "event_hash"; "immutable_ref" ].
Definition record_cells (ev : AuditRecord) : list string :=
  [ ar_ID ev; RFC3339Nano (ar_OccurredAt ev); ar_Action ev; ar_UserID ev; ar_Email ev; ar_Resource ev;
    ar_ResourceID ev; ar_WorkloadID ev; ar_ConfigHash ev; ar_Detail ev; ar_PrevHash ev; ar_EventHash ev;
    ar_ImmutableRef ev ].

(** The rows handed to the CSV writer. *)
(* src/internal/api/audit_events.go:43-77 handleExportAuditEventsCSV *)
Definition handleExportAuditEventsCSV (sink : querier) (q : string -> string) : reply (list (list string)) :=
  match parseAuditEventFilter q with
  | inr r => Refused r
  | inl filter =>
      match queryAuditEvents sink filter with
      | inr r => Refused r
      | inl (page, _) => Replied 200 (csv_header :: map (fun ev => safeAuditCSVRow (record_cells ev)) (pg_Events page))
      end
  end.

End Audit.

(** ** The log *)

(** No byte of a text is a control character. *)
Definition printable (s : string) : Prop := Forall (fun n => (32 <= n)%N /\ n <> 127%N) (str_codes s).

(** [nbools] turns tests on bytes into inequalities. *)
Ltac nbools :=
  repeat match goal with
  | H : _ && _ = true |- _ => apply andb_true_iff in H as [? ?]
  | H : _ || _ = true |- _ => apply orb_true_iff in H as [?|?]
  | H : _ || _ = false |- _ => apply orb_false_iff in H as [? ?]
  | H : (_ <=? _)%N = true |- _ => apply N.leb_le in H
  | H : (_ <? _)%N = true |- _ => apply N.ltb_lt in H
  | H : (_ <? _)%N = false |- _ => apply N.ltb_ge in H
  | H : (_ =? _)%N = false |- _ => apply N.eqb_neq in H
  end.

Lemma wide_rune c r w : TokenApi.rune_width (String c r) = S (S w) ->
  Forall (fun n => (128 <= n)%N) (str_codes (take_str (S (S w)) (String c r))).
Proof.
  cbn [TokenApi.rune_width]. unfold TokenApi.continuation, TokenApi.between.
  destruct r as [|b [|d [|f r]]]; cbn [andb orb]; intros E; try done;
    repeat (case_match; try done); simplify_eq/=;
    repeat (apply Forall_cons_2 || apply Forall_nil_2); nbools; lia.
Qed.

Lemma codes_app s t : str_codes (s +:+ t) = str_codes s ++ str_codes t.
Proof.
  induction s as [|c s IH]; [done|]. change (str_codes (String c s +:+ t)) with (code c :: str_codes (s +:+ t)).
  by rewrite IH.
Qed.

Lemma printable_app s t : printable s -> printable t -> printable (s +:+ t).
Proof. unfold printable. rewrite codes_app. apply Forall_app_2. Qed.

Lemma map_runes_printable n : forall s, printable (map_runes n s).
Proof.
  induction n as [|n IH]; intros s; [constructor|]. cbn [map_runes]. destruct s as [|c s]; [constructor|].
  destruct (TokenApi.rune_width (String c s)) as [|[|w]] eqn:Ew.
  - change (take_str 0 (String c s)) with "". apply printable_app; [constructor|apply IH].
  - unfold hidden_byte. destruct (_ || _) eqn:Eh; [constructor; [done|apply IH]|].
    destruct (code c <? 128)%N; [|apply printable_app; [by repeat constructor|apply IH]].
    constructor; [|apply IH]. nbools. lia.
  - apply printable_app; [|apply IH]. eapply Forall_impl; [by apply wide_rune|]. cbn. lia.
Qed.

(** A plain text is logged as it is. *)
Lemma sanitize_plain s : Forall (fun n => (32 <= n < 127)%N) (str_codes s) -> sanitizeLogField s = s.
Proof.
  unfold sanitizeLogField. induction s as [|c s IH]; [done|]. intros Hs. inversion Hs as [|? ? Hc Hs' E]; subst.
  cbn [String.length map_runes]. assert (Hw : TokenApi.rune_width (String c s) = 1).
  { cbn [TokenApi.rune_width]. unfold TokenApi.continuation, TokenApi.between.
    destruct s as [|b [|d [|f r]]]; repeat case_match; try done; nbools; lia. }
  rewrite Hw. unfold hidden_byte. replace (code c <? 32)%N with false by (symmetry; apply N.ltb_ge; lia).
  replace (code c =? 127)%N with false by (symmetry; apply N.eqb_neq; lia).
  replace (code c <? 128)%N with true by (symmetry; apply N.ltb_lt; lia).
  cbn [orb]. by rewrite IH.
Qed.

Section LogSafety.
Context `{UnicodeTables} `{UrlLib}.

(** The values under the sensitive keys may differ, their number may not. *)
Definition same_but_secrets (v w : gmap string (list string)) : Prop :=
  forall key, if isSensitiveQueryKey key then length <$> v !! key = length <$> w !! key else v !! key = w !! key.

Lemma redact_same v w : same_but_secrets v w -> redactSensitiveQuery v = redactSensitiveQuery w.
Proof.
  intros Hs. apply map_eq. intros key. unfold redactSensitiveQuery. rewrite !map_lookup_imap. specialize (Hs key).
  destruct (isSensitiveQueryKey key); [|by rewrite Hs].
  destruct (v !! key) as [l|], (w !! key) as [l'|]; cbn in *; try done. injection Hs as Hs. f_equal.
  clear -Hs. revert l' Hs. induction l as [|x l IH]; intros [|y l'] [=]; cbn; [done|]. f_equal. auto.
Qed.


End LogSafety.

Definition ws_url (query : string) : URL := mkURL "" "" None "" "/ws" "" false false query "" "".
(** A query of one pair, and the text of its value. *)
Definition pair_urls : UrlLib := {|
  url_Parse _ := None; url_String _ := ""; url_EscapedPath u := u_Path u;
  url_ParseQuery q := match Cut q "="%char with (k, Some v) => {[k := [v]]} | (k, None) => {[k := [""]]} end;
  url_Encode m := match m !! "token" with Some [v] => "token=" +:+ v | _ => "" end
|}.
Definition ws_request (token : string) : logged := mkLogged "GET" (ws_url ("token=" +:+ token)) "HTTP/1.1" "10.0.0.7:1".
Definition ws_line (token : string) : string :=
  log_line (H := byte_tables) (H0 := pair_urls) (ws_request token) 101 0 5000000.


(** ** Cookies *)

(** While at least a second of a session is left, its cookie is kept for
    exactly the whole seconds that are left, out of reach of scripts. *)
Theorem cookie_lives_as_long_as_session secure token expiresAt now
    (Hz : IsZero expiresAt = false) (Hleft : (Second <= expiresAt - now)%Z)
    (Hmax : (expiresAt - now <= max_int64)%Z) :
  let c := setSessionCookie secure token expiresAt now in
  ck_Value c = token /\ ck_HttpOnly c = true /\
  exists n, lifetime c = Some n /\ (n * Second <= expiresAt - now < (n + 1) * Second)%Z.
Proof.
  cbn zeta. split; [done|]. split; [done|]. unfold setSessionCookie, lifetime. rewrite Hz. cbn [ck_MaxAge].
  unfold Second in *. assert (Hs : Sub expiresAt now = (expiresAt - now)%Z) by (unfold Sub, min_int64; lia).
  rewrite Hs. unfold whole_seconds, Second. rewrite Z.quot_div_nonneg by lia.
  pose proof (Z.div_mod (expiresAt - now) 1000000000). pose proof (Z.mod_pos_bound (expiresAt - now) 1000000000).
  replace (0 <? expiresAt - now)%Z with true by (symmetry; lia).
  replace (0 <? (expiresAt - now) / 1000000000)%Z with true by (symmetry; apply Z.ltb_lt; lia).
  eexists. split; [done|]. lia.
Qed.

Lemma cookie_lives_as_long_as_session_witness :
  exists n, lifetime (setSessionCookie true "t" (24 * Hour) 500) = Some n /\
            (n * Second <= 24 * Hour - 500 < (n + 1) * Second)%Z.
Proof.
  destruct (cookie_lives_as_long_as_session true "t" (24 * Hour) 500) as (_ & _ & n & Hn);
    [reflexivity|by vm_compute|by vm_compute|]. exists n. exact Hn.
Defined.

(** A session that has ended, or ends within the second, gets a cookie without an
    age: the browser keeps it until it is closed. *)
Example ended_session_cookie_is_kept :
  lifetime (setSessionCookie true "t" 1000 2000) = None /\ lifetime (clearSessionCookie true) = Some 0%Z.
Proof. by vm_compute. Qed.

(** ** The audit trail *)

Section AuditSafety.
Context `{TimeParser}.

Lemma Atoi_bounded s n : Atoi s = (n, true) -> (n <= max_int64)%Z.
Proof.
  unfold Atoi. destruct (match s with String _ _ => _ | _ => _ end) as [neg d].
  destruct (_ || _); [done|]. destruct neg.
  - destruct (2 ^ 63 <? digits_val 0 d)%Z; [done|]. intros [= <-].
    pose proof (digits_val_nonneg 0 d ltac:(lia)). unfold max_int64. lia.
  - destruct (max_int64 <? digits_val 0 d)%Z eqn:E; [done|]. intros [= <-]. by apply Z.ltb_ge in E.
Qed.

Lemma filter_bounded q f : parseAuditEventFilter q = inl f ->
  (1 <= fl_Limit f <= maxAuditEventLimit /\ 0 <= fl_Offset f <= max_int64)%Z.
Proof.
  unfold parseAuditEventFilter. intros Hf.
  destruct (if q "limit" =s "" then _ else _) as [limit|] eqn:El; [|done].
  destruct (if q "offset" =s "" then _ else _) as [offset|] eqn:Eo; [|done].
  destruct (if q "from" =s "" then _ else _); [|done]. destruct (if q "to" =s "" then _ else _); [|done].
  injection Hf as <-. cbn [fl_Limit fl_Offset]. unfold maxAuditEventLimit, defaultAuditEventLimit in *. split.
  - destruct (q "limit" =s ""); [injection El as <-; lia|]. destruct (Atoi (q "limit")) as [n ok].
    destruct ok; cbn [negb orb] in El; [|done]. destruct (n <? 1)%Z eqn:E1; [done|]. injection El as <-.
    destruct (500 <? n)%Z eqn:E2; lia.
  - destruct (q "offset" =s ""); [injection Eo as <-; unfold max_int64; lia|].
    destruct (Atoi (q "offset")) as [n ok] eqn:Ea. destruct ok; cbn [negb orb] in Eo; [|done].
    destruct (n <? 0)%Z eqn:E1; [done|]. injection Eo as <-. apply Atoi_bounded in Ea. lia.
Qed.

(** A cell a spreadsheet does not take for a formula. *)
Definition inert (cell : string) : Prop :=
  match cell with "" => True | String c _ => code c ∉ [61; 43; 45; 64; 9; 13]%N end.

#[local] Instance inert_dec cell : Decision (inert cell).
Proof. destruct cell; cbn; apply _. Defined.

Lemma safe_cell_inert cell : inert (safeAuditCSVCell cell).
Proof.
  destruct cell as [|c cell]; [done|]. cbn [safeAuditCSVCell]. case_bool_decide as Hc; [|exact Hc].
  cbn [String.append inert]. by apply (bool_decide_unpack _).
Qed.

(** Whatever the parameters, the audit trail is asked for at most 500 records
    from a non-negative offset, or the request is refused; the answer repeats the
    limit and the offset used; and an export has thirteen cells per record, none
    of which a spreadsheet takes for a formula. *)
Theorem audit_reads_are_bounded sink q :
  match handleListAuditEvents sink q with
  | Replied _ r =>
      (1 <= ae_Limit r <= maxAuditEventLimit /\ 0 <= ae_Offset r <= max_int64)%Z /\
      exists f, fl_Limit f = ae_Limit r /\ fl_Offset f = ae_Offset r /\
        match sink with
        | Some list => exists page, list f = Ok page /\ ae_Events r = pg_Events page /\ ae_Available r = true
        | None => ae_Events r = [] /\ ae_Available r = false
        end
  | Refused r => rp_status r ∈ [400; 503]%Z
  end /\
  match handleExportAuditEventsCSV sink q with
  | Replied _ rows => Forall (fun row => length row = 13 /\ Forall inert row) rows
  | Refused r => rp_status r ∈ [400; 503]%Z
  end.
Proof.
  unfold handleListAuditEvents, handleExportAuditEventsCSV.
  destruct (parseAuditEventFilter q) as [f|r] eqn:Ef.
  2: { assert (rp_status r = 400%Z) as ->; [|split; by left]. revert Ef. unfold parseAuditEventFilter.
       repeat case_match; intros [= <-]; done. }
  apply filter_bounded in Ef as Hb. unfold queryAuditEvents.
  assert (Hrows : forall page, Forall (fun row => length row = 13 /\ Forall inert row)
    (csv_header :: map (fun ev => safeAuditCSVRow (record_cells ev)) (pg_Events page))).
  { intros page. constructor; [split; [done|]; by apply (bool_decide_unpack _)|].
    apply Forall_map. apply Forall_forall. intros ev _. split; [done|]. apply Forall_map, Forall_forall.
    intros cell _. apply safe_cell_inert. }
  destruct sink as [list|].
  - destruct (list f) as [page|] eqn:Ep; [|split; right; left]. cbn. split; [|apply Hrows].
    split; [exact Hb|]. exists f. split; [done|]. split; [done|]. by exists page.
  - cbn. split; [|apply (Hrows (mkPage [] 0))]. split; [exact Hb|]. exists f. done.
Qed.

End AuditSafety.

(** ** Alerts *)

Section AlertSafety.
Context `{Alerts.Collation} `{Alerts.AnyRow} (v : Alerts.env).

Lemma ListAlerts_elem d all l a : ListAlerts d IoOk all = Ok l ->
  a ∈ l <-> (exists id, Alerts.db_alerts d !! id = Some a) /\ (all = true \/ al_ResolvedAt a = None).
Proof.
  intros [= <-]. rewrite list_elem_of_In, (sort_by_perm _ _), filter_In, <-list_elem_of_In, list_elem_of_fmap.
  assert (Hin : (exists y : string * Alert, a = y.2 /\ y ∈ map_to_list (Alerts.db_alerts d)) <->
                exists id, Alerts.db_alerts d !! id = Some a).
  { split.
    - intros ([id a'] & -> & Hy%elem_of_map_to_list). by exists id.
    - intros (id & Hid). exists (id, a). split; [done|]. by apply elem_of_map_to_list. }
  rewrite Hin. destruct all, (al_ResolvedAt a); cbn; naive_solver.
Qed.

Lemma handleListAlerts_elem d q l a : handleListAlerts d IoOk q = Replied 200 l ->
  a ∈ l <-> (exists id, Alerts.db_alerts d !! id = Some a) /\ ((q =s "true") = true \/ al_ResolvedAt a = None).
Proof.
  unfold handleListAlerts. destruct (ListAlerts d IoOk (q =s "true")) as [l'|] eqn:E; [|done]. intros [= <-].
  by apply ListAlerts_elem.
Qed.

(** An alert that an operator resolved is no longer in the list of open alerts,
    every other open alert still is, and the full list still has all of them. *)
Theorem resolved_alert_leaves_list d id d' l l' all
    (Hkey : forall k a, Alerts.db_alerts d !! k = Some a -> al_ID a = k)
    (Hr : handleResolveAlert v d id = (d', mkResponse 200 "" ""))
    (Hl : handleListAlerts d IoOk "" = Replied 200 l)
    (Hl' : handleListAlerts d' IoOk "" = Replied 200 l')
    (Hall : handleListAlerts d' IoOk "true" = Replied 200 all) :
  (forall a, a ∈ l' <-> a ∈ l /\ al_ID a <> id) /\
  (exists a, a ∈ all /\ al_ID a = id /\ al_ResolvedAt a = Some (Alerts.en_clock v id)).
Proof.
  unfold handleResolveAlert, Alerts.ResolveAlert, Alerts.exec in Hr. cbn [negb] in Hr.
  destruct (Alerts.en_fault v (Alerts.CResolve id)); [|done].
  destruct (Alerts.db_alerts d !! id) as [a0|] eqn:Ea; [|done]. injection Hr as <-.
  split.
  - intros a. rewrite (handleListAlerts_elem _ _ _ _ Hl), (handleListAlerts_elem _ _ _ _ Hl'). cbn [Alerts.with_alerts Alerts.db_alerts]. split.
    + intros [(k & Hk) [|Hopen]]; [done|]. destruct (decide (k = id)) as [->|Hne].
      * rewrite lookup_alter_eq, Ea in Hk. injection Hk as <-. done.
      * rewrite lookup_alter_ne in Hk by done. rewrite (Hkey _ _ Hk). split; [|done]. split; [by exists k|by right].
    + intros [[(k & Hk) [|Hopen]] Hne]; [done|]. split; [|by right]. exists k. rewrite (Hkey _ _ Hk) in Hne.
      by rewrite lookup_alter_ne.
  - exists (Alerts.resolve_row (Alerts.en_clock v id) a0). rewrite (handleListAlerts_elem _ _ _ _ Hall).
    split; [|split; [exact (Hkey _ _ Ea)|done]]. split; [|by left]. exists id.
    cbn [Alerts.with_alerts Alerts.db_alerts]. by rewrite lookup_alter_eq, Ea.
Qed.

End AlertSafety.

#[local] Existing Instance Alerts.byte_collation.
#[local] Existing Instance Alerts.first_row.
Definition open_alert (id : string) : Alert := mkAlert id "w" "workload_down" "critical" "down" 1000 None.
Definition two_alerts : Alerts.db := Alerts.mkDb ∅ [] {["a" := open_alert "a"; "b" := open_alert "b"]}.
Definition at_five : Alerts.env := Alerts.mkEnv (fun _ => IoOk) (fun _ => []) (fun _ => 5000%Z).
Definition listed (d : Alerts.db) (q : string) : list Alert :=
  match handleListAlerts d IoOk q with Replied _ l => l | Refused _ => [] end.
Definition after_resolve : Alerts.db := (handleResolveAlert at_five two_alerts "a").1.

Lemma resolved_alert_leaves_list_witness :
  listed after_resolve "" = [open_alert "b"] /\
  (forall a, a ∈ listed after_resolve "" <-> a ∈ listed two_alerts "" /\ al_ID a <> "a").
Proof.
  split; [by vm_compute|].
  refine (proj1 (resolved_alert_leaves_list at_five two_alerts "a" after_resolve (listed two_alerts "")
    (listed after_resolve "") (listed after_resolve "true") _ _ _ _ _)); try reflexivity.
  intros k a. cbn [two_alerts Alerts.db_alerts]. intros [[<- <-]|[_ [<- <-]%lookup_singleton_Some]]%lookup_insert_Some; done.
Defined.

(** An unknown identifier is answered as a failure of the server. *)
Example unknown_alert_is_a_server_error :
  rp_status (handleResolveAlert at_five two_alerts "zzz").2 = 500%Z.
Proof. by vm_compute. Qed.

End Edge.
