(* ===== verification/WorkloadReads.v ===== *)
(** * Reads of one workload, rollback requests and stored statuses

    The remaining read handlers of internal/api/workloads.go, the identifiers and
    diffs of guided rollbacks (internal/api/rollback_guided.go), and the migration
    that cleans the statuses older versions stored
    (internal/store/legacy_remote_config_status.go). JSON texts are parameters. *)

From stdpp Require Import pretty.
From S2P Require Import Prelude GoString Regex Models PushStatus Registry Sha256 Validator Yaml ConfigPolicy Store PushHistory.
From S2P Require Import OpampServer Api Fleet WorkloadApi GuidedRollback FleetVersions.
Import Registry Sha256 Validator.Validator Yaml ConfigPolicy Store.Store PushHistory OpampServer Api Fleet WorkloadApi GuidedRollback FleetVersions.

Module WorkloadReads.

(** ** Read handlers *)

(* src/internal/api/workloads.go:88-93 workloadTopologyResponse *)
Record workloadTopologyResponse := mkTopologyResponse {
  tp_SchemaVersion : string; tp_WorkloadID : string; tp_Instances : list Instance;
  tp_Summary : WorkloadTopologySummary
}.

(** The counts of a window, and the window the rate of disconnections is over. *)
Record eventStats := mkStats { es_connected : Z; es_disconnected : Z; es_version_changed : Z; es_window : Duration }.

(** [time.ParseDuration]. *)
Class DurationParser := { ParseDuration : string -> option Duration }.

Section Reads.
Context `{UnicodeTables} `{TimestampColumn} `{DurationParser} (e : aenv).
Local Open Scope api_scope.

(** The instances the OpAMP server knows, none when it is not wired. *)
Definition instances_of (id : string) : AM (list Instance) :=
  if ae_opamp e then live_instances e id else aret [].

(* src/internal/api/workloads.go:71-82 handleListWorkloadInstances *)
Definition handleListWorkloadInstances (id : string) : AM (reply (list Instance)) :=
  l ← instances_of id; aret (Replied 200 l).

(* src/internal/api/workloads.go:95-120 handleGetWorkloadTopology *)
Definition handleGetWorkloadTopology (id : string) : AM (reply workloadTopologyResponse) :=
  wl ← aq e (fun d f => GetWorkload d f id);
  let known hash :=
    l ← instances_of id;
    aret (Replied 200 (mkTopologyResponse "workload-topology.v1" id l (summarizeWorkloadTopology l hash))) in
  match wl with
  | Ok wl => known (wl_ActiveConfigHash wl)
  | Err err => if err =s ErrNoRows then known "" else aret (refuse 500 "failed to load workload")
  end.

Definition events_named (kind : string) (l : list WorkloadEvent) : Z :=
  Z.of_nat (length (List.filter (fun ev => ev_EventType ev =s kind) l)).

(* src/internal/api/workloads.go:287-319 handleWorkloadEventsStats *)
Definition handleWorkloadEventsStats (id window : string) : AM (reply eventStats) :=
  let window := if window =s "" then (24 * Hour)%Z
                else match ParseDuration window with
                     | Some d => if (0 <? d)%Z then d else (24 * Hour)%Z
                     | None => (24 * Hour)%Z
                     end in
  t ← anow e;
  r ← aq e (fun d f => ListWorkloadEvents d f id 5000 (Add t (- window)%Z));
  match r with
  | Err _ => aret (refuse 500 "failed to compute stats")
  | Ok l => aret (Replied 200 (mkStats (events_named "connected" l) (events_named "disconnected" l)
                                 (events_named "version_changed" l) window))
  end.

(* src/internal/api/workloads.go:763-775 handleGetWorkloadKnownGood *)
Definition handleGetWorkloadKnownGood (id : string) : AM (reply WorkloadKnownGoodConfig) :=
  kg ← aq e (fun d f => GetWorkloadKnownGood d f id);
  match kg with
  | Err _ => aret (refuse 500 "failed to get known-good config")
  | Ok None => aret (refuse 404 "known-good config not found")
  | Ok (Some kg) => aret (Replied 200 kg)
  end.

End Reads.

(** ** Identifiers of rollback requests *)

(** encoding/json on the reference: what it writes is bytes, and reads back. *)
Class RefJson := {
  ref_marshal : rollbackRequestRef -> list N;
  ref_unmarshal : list N -> option rollbackRequestRef;
  ref_bytes r : Forall (fun b => (b < 256)%N) (ref_marshal r);
  ref_roundtrip r : ref_unmarshal (ref_marshal r) = Some r
}.

Section RequestIDs.
Context `{RefJson}.

(** [t.UTC().Truncate(time.Microsecond)]. *)
Definition to_microseconds (t : Time) : Time := (t - t mod 1000)%Z.

(* src/internal/api/rollback_guided.go:417-420 newRollbackRequestID *)
Definition newRollbackRequestID (workloadID targetHash : string) (startedAt : Time) : string :=
  "rb_" +:+ b64_encode (ref_marshal (mkRef workloadID targetHash (to_microseconds startedAt))).

(* src/internal/api/rollback_guided.go:436-449 decodeRollbackRequestID *)
Definition decodeRollbackRequestID (id : string) : option rollbackRequestRef :=
  if negb (HasPrefix id "rb_") then None
  else b64_decode (TrimPrefix id "rb_") ≫= ref_unmarshal.

(** The identifier of a rollback names its workload, its target and its start to
    the microsecond, which is what the row of the push is stored with. *)
Theorem rollback_id_roundtrip workloadID targetHash startedAt :
  decodeRollbackRequestID (newRollbackRequestID workloadID targetHash startedAt) =
  Some (mkRef workloadID targetHash (to_microseconds startedAt)).
Proof.
  unfold decodeRollbackRequestID, newRollbackRequestID. rewrite HasPrefix_app, TrimPrefix_app. cbn [negb].
  rewrite b64_roundtrip; [apply ref_roundtrip|].
  intros b Hb. pose proof (ref_bytes (mkRef workloadID targetHash (to_microseconds startedAt))) as Hall.
  rewrite Forall_forall in Hall. apply Hall. by apply list_elem_of_In.
Qed.

(** The status of a request is looked up under the reference its identifier names. *)
Definition rollback_status_of `{UnicodeTables} `{TimestampColumn} (e : aenv) (workloadID id : string) :=
  handleRollbackStatus e workloadID (decodeRollbackRequestID id).

End RequestIDs.

(** ** Diffs shown before a rollback *)

(* src/internal/api/rollback_guided.go:489-494 shortHash *)
Definition shortHash (hash : string) : string := if Nat.leb (String.length hash) 8 then hash else take_str 8 hash.

Record rollbackDiff := mkDiff {
  rd_base_hash : option string; rd_target_hash : option string; rd_status : string; rd_computation : string;
  rd_inputs : option (bool * bool); rd_labels : option (string * string); rd_text : option string
}.

Definition has_content (wc : option WorkloadConfig) : bool :=
  match wc with Some wc => wc_Content wc <>s "" | None => false end.

(* src/internal/api/rollback_guided.go:299-323 buildRollbackDiff *)
Definition buildRollbackDiff (current target : option WorkloadConfig) : rollbackDiff :=
  let base_hash := match current with
                   | Some c => if wc_ConfigID c <>s "" then Some (wc_ConfigID c) else None
                   | None => None
                   end in
  let target_hash := wc_ConfigID <$> target in
  match current, target with
  | Some c, Some t =>
      if has_content current && has_content target then
        let diffText := unifiedDiff (wc_Content c) (wc_Content t) "current" "rollback target" in
        mkDiff base_hash target_hash (if diffText =s "" then "empty" else "available") "backend_raw" None
          (Some ("Current " +:+ shortHash (wc_ConfigID c), "Rollback target " +:+ shortHash (wc_ConfigID t)))
          (Some diffText)
      else mkDiff base_hash target_hash "unavailable" "frontend_raw_inputs_only"
             (Some (has_content current, has_content target)) None None
  | _, _ => mkDiff base_hash target_hash "unavailable" "frontend_raw_inputs_only"
              (Some (has_content current, has_content target)) None None
  end.

Lemma unifiedDiff_empty a b from to : unifiedDiff a b from to = "" <-> a = b.
Proof. unfold unifiedDiff. destruct (String.eqb_spec a b); [done|]. split; [|done]. done. Qed.

(** The diff is shown as empty exactly when both sides are present and equal, and as
    unavailable exactly when one of them is missing. *)
Theorem rollback_diff_status current target :
  (rd_status (buildRollbackDiff current target) = "empty" <->
   exists c t, current = Some c /\ target = Some t /\ wc_Content c = wc_Content t /\ wc_Content c <> "") /\
  (rd_status (buildRollbackDiff current target) = "unavailable" <-> has_content current && has_content target = false).
Proof.
  unfold buildRollbackDiff. destruct current as [c|], target as [t|]; cbn [has_content];
    [|split; [split; [done|by intros (? & ? & ? & ? & _)]|by rewrite ?andb_false_r]..].
  destruct (String.eqb_spec (wc_Content c) ""), (String.eqb_spec (wc_Content t) ""); cbn [negb andb rd_status].
  1-3: split; [split; [done|intros (? & ? & [= <-] & [= <-] & ? & ?); congruence]|done].
  destruct (String.eqb_spec (unifiedDiff (wc_Content c) (wc_Content t) "current" "rollback target") "") as [E|E].
  - apply unifiedDiff_empty in E. split; split; try done. intros _. by exists c, t.
  - split; split; try done. intros (c' & t' & [= <-] & [= <-] & Hc & _). destruct E. by apply unifiedDiff_empty.
Qed.

(** ** The component behind a validation error *)

Definition open_bracket : Ascii.ascii := "["%char.

Fixpoint leading_digits (s : string) : string :=
  match s with
  | String c s => if is_digit c then String c (leading_digits s) else ""
  | "" => ""
  end.
(** [fmt.Sscanf(s, "%d", &idx)]: spaces but no newline, a sign, digits; what
    follows is not read. *)
Definition scan_d (s : string) : option Z :=
  let t := trim_left s in
  if Contains (take_str (String.length s - String.length t) s) (bytes [10%N]) then None
  else
    let '(sign, d) := match t with
                      | String "-"%char r => (-1, leading_digits r)%Z
                      | String "+"%char r => (1, leading_digits r)%Z
                      | _ => (1, leading_digits t)%Z
                      end in
    if d =s "" then None
    else let v := (sign * digits_val 0 d)%Z in
         if (v <? min_int64)%Z || (max_int64 <? v)%Z then None else Some v.

(** A part of a path: its name and the index behind it, -1 for none. *)
Definition path_part (part : string) : option (string * Z) :=
  match Cut part open_bracket with
  | (name, Some rest) =>
      if HasSuffix part "]"
      then (name,.) <$> scan_d (take_str (String.length rest - 1) rest)
      else Some (part, (-1)%Z)
  | (_, None) => Some (part, (-1)%Z)
  end.

Fixpoint follow (parts : list string) (cur : value) : option value :=
  match parts with
  | [] => Some cur
  | part :: rest =>
      match path_part part, cur with
      | Some (name, idx), VMap m =>
          let next := default VNull (m !! name) in
          if (idx <? 0)%Z then follow rest next
          else match next with
               | VList l => match l !! Z.to_nat idx with Some x => follow rest x | None => None end
               | _ => None
               end
      | _, _ => None
      end
  end.

Definition quote_char : Ascii.ascii := Ascii.ascii_of_N 34.
Definition not_quote (c : Ascii.ascii) : bool := negb (Ascii.eqb c quote_char).

Section ComponentIDs.
Context {yamlDoc : YamlDoc}.

(* src/internal/api/rollback_guided.go:534-567 componentIDFromValidationPath *)
Definition componentIDFromValidationPath (content path : string) : string :=
  match yaml_document content with
  | Err _ => ""
  | Ok root =>
      match follow (Split path "."%char) (VMap (default ∅ root)) with
      | Some (VStr s) => s
      | _ => ""
      end
  end.

(** A name the path can be taken apart at. *)
Definition plain_name (name : string) : Prop := no_char "."%char name /\ no_char open_bracket name.

Lemma plain_part name : plain_name name -> path_part name = Some (name, (-1)%Z).
Proof.
  intros [_ Hb]. unfold path_part. assert (E : (Cut name open_bracket).2 = None).
  { revert Hb. unfold no_char. induction name as [|c name IH]; cbn [Cut str_codes]; [done|].
    intros Hall. inversion Hall as [|? ? Hc Hrest]; subst. destruct (Ascii.eqb_spec c open_bracket) as [->|]; [done|].
    specialize (IH Hrest). by destruct (Cut name open_bracket) as [h t]; cbn in *. }
  by destruct (Cut name open_bracket) as [h [t|]].
Qed.

Lemma leading_all d s : all_digits d = true -> (forall c r, s = String c r -> is_digit c = false) ->
  leading_digits (d +:+ s) = d.
Proof.
  intros Hd Hs. induction d as [|c d IH]; cbn [all_digits] in Hd.
  - change ("" +:+ s) with s. destruct s as [|c r]; [done|]. cbn. by rewrite (Hs c r).
  - apply andb_true_iff in Hd as [Hc Hd]. change (String c d +:+ s) with (String c (d +:+ s)). cbn.
    rewrite Hc. f_equal. auto.
Qed.

Lemma Itoa_val i : digits_val 0 (Itoa i) = Z.of_nat i /\ Itoa i <> "".
Proof.
  unfold Itoa, pretty, pretty_nat, pretty, pretty_N. case_decide as Hi; [by replace i with 0 by lia|].
  assert (Hv : digits_val 0 (pretty_N_go (N.of_nat i) "") = Z.of_nat i)
    by (rewrite pretty_go_val; cbn [digits_val]; lia).
  split; [done|]. intros E. rewrite E in Hv. cbn in Hv. lia.
Qed.

Lemma scan_digits d : d <> "" -> all_digits d = true -> (digits_val 0 d <= max_int64)%Z ->
  scan_d d = Some (digits_val 0 d).
Proof.
  intros Hne Hd Hv. assert (Ht : trim_left d = d).
  { unfold trim_left. destruct d as [|c d]; [done|]. cbn [all_digits] in Hd. apply andb_true_iff in Hd as [Hc _].
    cbn [String.length trim_loop]. revert Hc. by destruct c as [[] [] [] [] [] [] [] []]. }
  unfold scan_d. rewrite Ht, Nat.sub_diag. change (Contains (take_str 0 d) (bytes [10%N])) with false. cbv iota.
  destruct d as [|c d]; [done|]. assert (c <> "-"%char /\ c <> "+"%char) as [Hm Hp].
  { cbn [all_digits] in Hd. apply andb_true_iff in Hd as [Hc _]. split; intros ->; done. }
  assert (E : leading_digits (String c d) = String c d).
  { rewrite <-(str_app_nil_r (String c d)) at 1. by apply leading_all. }
  pose proof (digits_val_nonneg 0 (String c d) ltac:(done)) as Hpos.
  assert ((match String c d with
           | String "-" r => ((-1)%Z, leading_digits r)
           | String "+" r => (1%Z, leading_digits r)
           | _ => (1%Z, leading_digits (String c d))
           end) = (1%Z, String c d)) as ->
    by (rewrite E; destruct c as [[] [] [] [] [] [] [] []]; congruence).
  cbn [String.eqb]. cbv zeta. rewrite Z.mul_1_l.
  destruct (Z.ltb_spec (digits_val 0 (String c d)) min_int64); [unfold min_int64 in *; lia|].
  by destruct (Z.ltb_spec max_int64 (digits_val 0 (String c d))); [lia|].
Qed.

Lemma indexed_part name i : no_char open_bracket name -> (Z.of_nat i <= max_int64)%Z ->
  path_part (name +:+ "[" +:+ Itoa i +:+ "]") = Some (name, Z.of_nat i).
Proof.
  intros Hn Hi. destruct (Itoa_val i) as [Hv Hne]. unfold path_part.
  change ("[" +:+ Itoa i +:+ "]") with (String open_bracket (Itoa i +:+ "]")). rewrite Cut_first by done.
  assert (HasSuffix (name +:+ String open_bracket (Itoa i +:+ "]")) "]" = true) as ->.
  { apply HasSuffix_iff. exists (name +:+ String open_bracket (Itoa i)). by rewrite str_app_assoc. }
  rewrite str_length_app, Nat.add_sub, take_str_app, scan_digits; rewrite ?Hv; [done..|apply Itoa_digits|done].
Qed.

Lemma service_plain : plain_name "service".
Proof. by split; repeat constructor. Qed.
Lemma pipelines_plain : plain_name "pipelines".
Proof. by split; repeat constructor. Qed.

Lemma follow_plain name rest m x : plain_name name -> m !! name = Some x ->
  follow (name :: rest) (VMap m) = follow rest x.
Proof. intros Hn Hx. cbn [follow]. by rewrite plain_part, Hx by done. Qed.

Lemma follow_indexed name i rest m l x : no_char open_bracket name -> (Z.of_nat i <= max_int64)%Z ->
  m !! name = Some (VList l) -> l !! i = Some x ->
  follow ((name +:+ "[" +:+ Itoa i +:+ "]") :: rest) (VMap m) = follow rest x.
Proof.
  intros Hn Hi Hl Hx. cbn [follow]. rewrite indexed_part by done. rewrite Hl. cbn [default from_option id].
  destruct (Z.ltb_spec (Z.of_nat i) 0); [lia|]. by rewrite Nat2Z.id, Hx.
Qed.

(** The validator's path of a reference names the reference again: the entry of
    the list it was read from. *)
Theorem path_names_its_component content root pipelines pipeline name section ids i id :
  plain_name name -> section ∈ component_sections ->
  yaml_document content = Ok (Some root) ->
  root !! "service" = Some (VMap pipelines) ->
  pipelines !! "pipelines" = Some (VMap pipeline) ->
  (exists p, pipeline !! name = Some (VMap p) /\ p !! section = Some (VList ids)) ->
  ids !! i = Some (VStr id) -> (Z.of_nat (length ids) <= max_int64)%Z ->
  componentIDFromValidationPath content (section_path name section i) = id.
Proof.
  intros Hname Hs Hdoc Hservice Hpipelines (p & Hp & Hids) Hi Hlen.
  destruct (sections_plain section Hs) as [Hsb Hsd].
  pose proof (lookup_lt_Some _ _ _ Hi) as Hlt. assert (Hmax : (Z.of_nat i <= max_int64)%Z) by lia.
  unfold componentIDFromValidationPath, section_path. rewrite Hdoc.
  change ("service.pipelines." +:+ name +:+ "." +:+ section +:+ "[" +:+ Itoa i +:+ "]")
    with ("service" +:+ String "." ("pipelines" +:+ String "." (name +:+ String "." (section +:+ "[" +:+ Itoa i +:+ "]")))).
  rewrite !Split_app; [|apply Hname|by repeat constructor..].
  rewrite (proj1 (Split_single _ _)).
  2: { rewrite !no_char_app. repeat split; [done|by repeat constructor| |by repeat constructor].
       apply digits_no_char; [done|apply Itoa_digits]. }
  change (default ∅ (Some root)) with root.
  rewrite (follow_plain _ _ _ _ service_plain Hservice), (follow_plain _ _ _ _ pipelines_plain Hpipelines).
  rewrite (follow_plain _ _ _ _ Hname Hp), (follow_indexed _ _ _ _ _ _ Hsb Hmax Hids Hi). done.
Qed.

(* src/internal/api/rollback_guided.go:507-507 componentTypeRE *)
Definition componentTypeRE : Regex.re :=
  Regex.seqs [Regex.lit "type "; Regex.one quote_char; Regex.Group 1 (Regex.plus (Regex.Byte not_quote));
              Regex.one quote_char].

(** The component of the warning and its type: the type the message quotes, or
    what comes before the slash of the component. *)
(* src/internal/api/rollback_guided.go:509-518 unavailableFromValidationError *)
Definition warned_component (err : Error) (content : string) : string * string :=
  let componentID := componentIDFromValidationPath content (er_Path err) in
  (componentID,
   match Regex.FindStringSubmatch componentTypeRE (er_Message err) with
   | Some caps => Regex.group 1 caps
   | None => (Cut componentID "/"%char).1
   end).

Lemma type_found pos c w rest caps : Regex.all_chars not_quote (String c w) = true ->
  Regex.run componentTypeRE Some (Regex.mkSt pos ("type " +:+ bytes [34]%N +:+ String c w +:+ bytes [34]%N +:+ rest) caps)
  = Some (Regex.mkSt (pos + 7 + String.length (String c w)) rest ((1, String c w) :: caps)).
Proof.
  intros Hw.
  change (Regex.run (Regex.plus (Regex.Byte not_quote))
    (fun s' => Regex.run (Regex.Seq (Regex.one quote_char) Regex.Empty) Some
      (Regex.end_group 1 (Regex.mkSt (S (S (S (S (S (S pos)))))) (String c w +:+ bytes [34]%N +:+ rest) caps) s'))
    (Regex.mkSt (S (S (S (S (S (S pos)))))) (String c w +:+ bytes [34]%N +:+ rest) caps) =
    Some (Regex.mkSt (pos + 7 + String.length (String c w)) rest ((1, String c w) :: caps))).
  apply Regex.run_plus; [done|done|]. set (word := String c w) in *.
  unfold Regex.end_group. cbn [Regex.s_pos Regex.s_rest Regex.s_caps].
  replace (S (S (S (S (S (S pos))))) + String.length word - S (S (S (S (S (S pos)))))) with (String.length word) by lia.
  rewrite take_str_app. cbn. f_equal. f_equal. lia.
Qed.

Lemma find_skip r pos c s pre z : Regex.match_at r pos (String c s) = None ->
  Regex.find r (S pos) s = Some (pre, z) -> Regex.find r pos (String c s) = Some (String c pre, z).
Proof. intros Hn Hf. cbn [Regex.find]. by rewrite Hn, Hf. Qed.

(** The message of a missing component names its type, and that type is the one
    the warning shows. *)
Theorem missing_type_is_shown category ty rest err content :
  category ∈ component_sections -> ty <> "" -> quote_body ty = ty -> Regex.all_chars not_quote ty = true ->
  er_Message err = singular category +:+ " type " +:+ Quote ty +:+ rest ->
  (warned_component err content).2 = ty.
Proof.
  intros Hc Hne Hq Hty Hm. destruct ty as [|c w]; [done|].
  unfold warned_component, Regex.FindStringSubmatch. cbn [snd]. rewrite Hm. unfold Quote. rewrite Hq, !str_app_assoc.
  change (" type " +:+ bytes [34]%N +:+ String c w +:+ bytes [34]%N +:+ rest)
    with (String " " ("type " +:+ bytes [34]%N +:+ String c w +:+ bytes [34]%N +:+ rest)).
  set (tail := "type " +:+ bytes [34]%N +:+ String c w +:+ bytes [34]%N +:+ rest).
  assert (Hf : forall pos, exists n, Regex.find componentTypeRE pos tail =
    Some ("", Regex.mkSt n rest [(1, String c w)])).
  { intros pos. exists (pos + 7 + String.length (String c w)).
    pose proof (type_found pos c w rest [] Hty) as Hr. fold tail in Hr.
    destruct tail; cbn [Regex.find]; unfold Regex.match_at; by rewrite Hr. }
  clearbody tail.
  assert (Hs : exists pre z, Regex.find componentTypeRE 0 (singular category +:+ String " " tail) = Some (pre, z) /\
    Regex.s_caps z = [(1, String c w)]).
  { unfold component_sections in Hc. rewrite !elem_of_cons, elem_of_nil in Hc.
    destruct Hc as [->|[->|[->|[->|[->|[]]]]]].
    all: match goal with |- context [singular ?x] =>
           destruct (Hf (S (String.length (singular x)))) as [n Hn]; eexists _, (Regex.mkSt n rest _); split; [|reflexivity];
           let t := eval vm_compute in (singular x) in change (singular x) with t end.
    all: repeat (apply find_skip; [reflexivity|]); exact Hn. }
  destruct Hs as (pre & z & Hz & Hcaps). by rewrite Hz, Hcaps.
Qed.

End ComponentIDs.

(** A pipeline name of two words joined by a dot is a legal name and the validator
    reports its undefined references, but the path cannot be followed back. *)
Definition dotted_doc : gmap string value :=
  {["service" := VMap {["pipelines" := VMap {["logs/eu.west" :=
    VMap {["receivers" := VList [VStr "otlp"]]}]}]}]}.
Example dotted_name_loses_its_component :
  @componentIDFromValidationPath {| yaml_document := fun _ => Ok (Some dotted_doc) |} "text"
    (section_path "logs/eu.west" "receivers" 0) = "".
Proof. vm_compute. reflexivity. Qed.

(** ** Statuses stored by older versions *)

(** encoding/json on the fields of a status: a text it wrote reads back, and is
    not empty. *)
Class StatusJson := {
  status_marshal : RemoteConfigStatus -> result string;
  status_unmarshal : string -> result RemoteConfigStatus;
  status_roundtrip r t : status_marshal r = Ok t -> status_unmarshal t = Ok r /\ t <> ""
}.

(** The column remote_config_status of the workloads, [None] for NULL. *)
Notation column := (gmap string (option string)).
(** Which statement of the migration fails: the query, the scan of a row, the end
    of the iteration, the update of a row. *)
Record migration_env := mkMig {
  mg_query : bool; mg_scan : string -> bool; mg_rows : bool; mg_update : string -> bool
}.
Definition quiet : migration_env := mkMig false (fun _ => false) false (fun _ => false).

Section Legacy.
Context `{UnicodeTables} `{StatusJson}.

(* src/pkg/models/remote_config_status.go:37-46 RemoteConfigStatus.UnmarshalJSON *)
Definition status_UnmarshalJSON (data : string) : result RemoteConfigStatus :=
  match status_unmarshal data with Ok r => Ok (PushStatus.Sanitized r) | Err e => Err e end.
(** A text of the column; the zero status stands for an empty one. *)
(* src/pkg/models/models.go:91-101 RemoteConfigStatus.Scan *)
Definition status_Scan (v : string) : result RemoteConfigStatus :=
  if v =s "" then Ok (mkRemoteConfigStatus "" "" "" zero_time None)
  else match status_UnmarshalJSON v with Ok r => Ok (PushStatus.Sanitized r) | Err e => Err e end.
(* src/pkg/models/models.go:85-88 RemoteConfigStatus.Value *)
Definition status_Value (r : RemoteConfigStatus) : result string := status_marshal (PushStatus.Sanitized r).

(** The loop over the rows: the texts that change. *)
(* src/internal/store/legacy_remote_config_status.go:35-53 sanitizeLegacyRemoteConfigStatusesTx *)
Fixpoint legacy_updates (v : migration_env) (rows : list (string * string)) : result (list (string * string)) :=
  match rows with
  | [] => Ok []
  | (id, text) :: rest =>
      if mg_scan v id then Err "scan legacy remote_config_status row"
      else match status_Scan text with
           | Err _ => Err ("sanitize legacy remote_config_status for workload " +:+ id)
           | Ok status =>
               match status_Value status with
               | Err _ => Err ("marshal sanitized legacy remote_config_status for workload " +:+ id)
               | Ok sanitized =>
                   match legacy_updates v rest with
                   | Err e => Err e
                   | Ok updates => Ok (if sanitized <>s text then (id, sanitized) :: updates else updates)
                   end
               end
           end
  end.

(* src/internal/store/legacy_remote_config_status.go:64-68 sanitizeLegacyRemoteConfigStatusesTx *)
Fixpoint apply_updates (v : migration_env) (updates : list (string * string)) (t : column) : result column :=
  match updates with
  | [] => Ok t
  | (id, text) :: rest =>
      if mg_update v id then Err ("update sanitized legacy remote_config_status for workload " +:+ id)
      else apply_updates v rest (alter (fun _ => Some text) id t)
  end.

(** The rows of the query: a text that is there and not empty. *)
Definition stored_text (o : option string) : option string :=
  match o with Some t => if t =s "" then None else Some t | None => None end.
Definition legacy_rows (t : column) : list (string * string) := map_to_list (omap stored_text t).

(* src/internal/store/legacy_remote_config_status.go:21-69 sanitizeLegacyRemoteConfigStatusesTx *)
Definition sanitizeLegacyRemoteConfigStatusesTx (v : migration_env) (t : column) : result column :=
  if mg_query v then Err "query legacy remote_config_status rows"
  else match legacy_updates v (legacy_rows t) with
       | Err e => Err e
       | Ok updates =>
           if mg_rows v then Err "iterate legacy remote_config_status rows" else apply_updates v updates t
       end.

(** What a text becomes: the sanitised status it decodes to, encoded. *)
Definition sanitizes (text text' : string) : Prop :=
  exists r, status_unmarshal text = Ok r /\ status_marshal (PushStatus.Sanitized r) = Ok text'.

Lemma scanned_value text : text <> "" ->
  match status_Scan text with Ok r => status_Value r | Err e => Err e end =
  match status_unmarshal text with Ok r => status_marshal (PushStatus.Sanitized r) | Err e => Err e end.
Proof.
  intros Hne. unfold status_Scan, status_UnmarshalJSON, status_Value. apply String.eqb_neq in Hne as ->.
  destruct (status_unmarshal text); [|done]. by rewrite !Sanitized_idem.
Qed.

Lemma legacy_updates_spec v rows updates : Forall (fun r => r.2 <> "") rows -> NoDup rows.*1 ->
  legacy_updates v rows = Ok updates ->
  NoDup updates.*1 /\ updates.*1 ⊆ rows.*1 /\
  (forall id text, (id, text) ∈ rows ->
    exists text', sanitizes text text' /\ (text' = text /\ id ∉ updates.*1 \/ (id, text') ∈ updates)).
Proof.
  revert updates. induction rows as [|[id text] rows IH]; intros updates Hne Hnd; cbn [legacy_updates].
  { intros [= <-]. split; [constructor|]. split; [done|]. by intros ? ? ?%elem_of_nil. }
  inversion Hne as [|? ? Ht Hne']; subst. cbn in Ht, Hnd. apply NoDup_cons in Hnd as [Hid Hnd].
  destruct (mg_scan v id); [done|]. pose proof (scanned_value text Ht) as Hval.
  destruct (status_Scan text) as [r|]; [|done]. destruct (status_Value r) as [text'|] eqn:Ev; [|done].
  destruct (legacy_updates v rows) as [ups|] eqn:Eu; [|done]. intros [= <-].
  destruct (IH ups Hne' Hnd eq_refl) as (Hnu & Hsub & Hrows).
  assert (Hs : sanitizes text text').
  { unfold sanitizes. destruct (status_unmarshal text) as [q|]; [|done]. by exists q. }
  assert (Hfresh : id ∉ ups.*1) by (intros Hin; by apply Hid, Hsub).
  destruct (String.eqb_spec text' text) as [->|Hdiff]; cbn [negb].
  - split; [done|]. split; [cbn; set_solver|]. intros i x [[= -> ->]|Hin]%elem_of_cons; [|by apply Hrows].
    exists text. auto.
  - split; [by constructor|]. split; [cbn; set_solver|].
    intros i x [[= -> ->]|Hin]%elem_of_cons; [exists text'; split; [done|right; left]|].
    destruct (Hrows i x Hin) as (x' & Hx & [[E Hn]|Hu]); exists x'; (split; [done|]); [left|by right; right].
    split; [done|]. cbn. intros [->|]%elem_of_cons; [|done]. apply Hid. by apply (list_elem_of_fmap_2 fst) in Hin.
Qed.

Lemma apply_updates_spec v updates t t' : NoDup updates.*1 -> apply_updates v updates t = Ok t' ->
  (forall id, id ∉ updates.*1 -> t' !! id = t !! id) /\
  (forall id text, (id, text) ∈ updates -> t' !! id = (fun _ => Some text) <$> t !! id).
Proof.
  revert t. induction updates as [|[i x] ups IH]; intros t Hnd; cbn [apply_updates].
  { intros [= <-]. split; [done|]. by intros ? ? ?%elem_of_nil. }
  cbn in Hnd. apply NoDup_cons in Hnd as [Hi Hnd]. destruct (mg_update v i); [done|]. intros Ha.
  destruct (IH _ Hnd Ha) as [Hout Hin]. split.
  - intros id Hid. cbn in Hid. rewrite Hout by set_solver. apply lookup_alter_ne. set_solver.
  - intros id text [[= -> ->]|Hu]%elem_of_cons; [by rewrite Hout, lookup_alter_eq by done|].
    rewrite (Hin id text Hu), lookup_alter_ne; [done|]. intros ->.
    apply Hi. by apply (list_elem_of_fmap_2 fst) in Hu.
Qed.

Lemma legacy_rows_spec t : Forall (fun r => r.2 <> "") (legacy_rows t) /\ NoDup (legacy_rows t).*1 /\
  (forall id text, (id, text) ∈ legacy_rows t <-> t !! id = Some (Some text) /\ text <> "").
Proof.
  assert (Hel : forall id text, (id, text) ∈ legacy_rows t <-> t !! id = Some (Some text) /\ text <> "").
  { intros id text. unfold legacy_rows. rewrite elem_of_map_to_list, lookup_omap. unfold stored_text.
    destruct (t !! id) as [[x|]|]; cbn; [|naive_solver..]. destruct (String.eqb_spec x ""); naive_solver. }
  split; [|split; [apply NoDup_fst_map_to_list|done]].
  apply Forall_forall. intros [id text] Hin. by apply Hel in Hin as [_ ?].
Qed.

(** A migration that commits has rewritten every stored status to its sanitised
    form and nothing else. *)
Lemma legacy_statuses_sanitized_at v t t' : sanitizeLegacyRemoteConfigStatusesTx v t = Ok t' ->
  forall id, match t !! id with
  | Some (Some text) =>
      if text =s "" then t' !! id = Some (Some text)
      else exists text', t' !! id = Some (Some text') /\ sanitizes text text'
  | other => t' !! id = other
  end.
Proof.
  unfold sanitizeLegacyRemoteConfigStatusesTx. intros Hrun id. destruct (mg_query v); [done|].
  destruct (legacy_updates v (legacy_rows t)) as [ups|] eqn:Eu; [|done]. destruct (mg_rows v); [done|].
  destruct (legacy_rows_spec t) as (Hne & Hnd & Hel).
  destruct (legacy_updates_spec v _ _ Hne Hnd Eu) as (Hnu & Hsub & Hrows).
  destruct (apply_updates_spec _ _ _ _ Hnu Hrun) as [Hout Hin].
  assert (Hskip : (forall text, (id, text) ∉ legacy_rows t) -> t' !! id = t !! id).
  { intros Hno. apply Hout. intros [[i x] [Hi Hx]]%Hsub%list_elem_of_fmap. cbn in Hi. subst. by eapply Hno. }
  destruct (t !! id) as [[text|]|] eqn:Et.
  - destruct (String.eqb_spec text "") as [->|Htext]; [apply Hskip; intros x; rewrite Hel; naive_solver|].
    destruct (Hrows id text) as (text' & Hs & [[-> Hno]|Hu]); [by apply Hel| |].
    + exists text. by rewrite Hout.
    + exists text'. by rewrite (Hin _ _ Hu), Et.
  - apply Hskip. intros x. rewrite Hel. naive_solver.
  - apply Hskip. intros x. rewrite Hel. naive_solver.
Qed.

Lemma sanitizes_stable text text' : sanitizes text text' -> sanitizes text' text'.
Proof.
  intros (r & _ & Hm). exists (PushStatus.Sanitized r). rewrite Sanitized_idem. split; [|done].
  by apply (status_roundtrip _ _ Hm).
Qed.

Lemma legacy_updates_none rows : Forall (fun r => r.2 <> "" /\ sanitizes r.2 r.2) rows ->
  legacy_updates quiet rows = Ok [].
Proof.
  induction 1 as [|[id text] rows [Hne (r & Hr & Hm)] _ IH]; [done|]. cbn in Hne, Hr, Hm.
  cbn [legacy_updates quiet mg_scan]. pose proof (scanned_value text Hne) as Hval. rewrite Hr, Hm in Hval.
  destruct (status_Scan text) as [q|]; [|done]. rewrite Hval, IH. by rewrite String.eqb_refl.
Qed.

(** A second run finds nothing to change. *)
Theorem sanitized_statuses_are_final v t t' : sanitizeLegacyRemoteConfigStatusesTx v t = Ok t' ->
  sanitizeLegacyRemoteConfigStatusesTx quiet t' = Ok t'.
Proof.
  intros Hrun. pose proof (legacy_statuses_sanitized_at v t t' Hrun) as Hat.
  unfold sanitizeLegacyRemoteConfigStatusesTx. cbn [quiet mg_query mg_rows].
  rewrite legacy_updates_none; [done|]. apply Forall_forall. intros [id text] Hin.
  apply (proj2 (proj2 (legacy_rows_spec t'))) in Hin as [Ht Hne]. split; [done|]. specialize (Hat id).
  destruct (t !! id) as [[x|]|]; [|congruence..].
  destruct (String.eqb_spec x ""); [congruence|]. destruct Hat as (x' & Hx & Hs).
  rewrite Hx in Ht. injection Ht as ->. by apply sanitizes_stable in Hs.
Qed.

End Legacy.
End WorkloadReads.
